(* ===== verification/_CoqProject ===== *)
-Q . S2P
Prelude.v
FreeQueue.v
Request.v
BlockHash.v
BlockPool.v
KVSpec.v
KVConfig.v
KVWorkers.v
SingleType.v
Coordinator.v
KVCacheManager.v
KVBacking.v
KVStart.v
Capacity.v
EncoderCache.v
RequestQueue.v
SchedState.v
Scheduler.v
SchedulerUpdate.v
Lifecycle.v
SchedTerm.v
LifecycleOps.v
Progress.v
EngineRuns.v
Liveness.v
SchedProps.v
EngineProps.v
EngineCore.v
EngineMemory.v
BlockTable.v
InputBatch.v
BatchInv.v
LogitsProcs.v
ModelRunner.v
Reorder.v
RunnerInv.v
RunnerStep.v
NgramProposer.v
ModelInputs.v
InputsSpec.v
Bookkeeping.v
GrammarBitmask.v
GrammarBackends.v
BitmaskSpec.v
WorkerStep.v
WorkerRuns.v
WorkerDemo.v
WorkerProps.v
GrammarProps.v
WorkerErrors.v
TableCopy.v
Ownership.v
SchedPlan.v
SchedSent.v
Mirror.v
MirrorWorker.v
MirrorUpdate.v
Lockstep.v
LockstepProps.v
LengthLimit.v
DataParallel.v
DPCore.v
DPWaves.v
DPProps.v
EncoderSchedule.v
MimirConnector.v
Detokenizer.v
Logprobs.v
OutputProcessor.v
OutputProps.v
ClientProps.v
