(* ===== verification/Prelude.v ===== *)
(** * The v1 scheduling and KV-cache core of Mimir2 (vLLM), verified

    ** The program

    The engine core (src/vllm/v1/engine/core.py) runs one [Scheduler]
    (src/vllm/v1/core/sched/scheduler.py) in a busy loop over client messages
    and steps. Clients add [Request] objects; each engine step calls
    [schedule], which decides how many tokens of which requests the workers
    compute, and then [update_from_output] with the sampled tokens, at once or
    through a queue of batches in flight. The scheduler owns a waiting
    queue (sched/request_queue.py), a [KVCacheManager] (kv_cache_manager.py)
    that gives requests slots in paged GPU memory and finds cached prefixes,
    and an [EncoderCacheManager] (encoder_cache_manager.py) for multimodal
    inputs. The KV cache manager delegates to a coordinator
    (kv_cache_coordinator.py), which drives one manager per KV cache group
    (single_type_kv_cache_manager.py) over one shared [BlockPool]
    (block_pool.py), whose free blocks form a doubly linked list threaded
    through the block objects (kv_cache_utils.py). Cached prefixes are
    identified by chained block hashes (kv_cache_utils.py). The Mimir policy
    keeps ("pins") the KV of a finished agent step for a time window, and the
    Mimir connector (mimir_connector.py) stores KV in CPU memory. Before the
    first step the engine derives the number of blocks, the groups and the
    tensors from the model's layers and the profiled memory (second half of
    kv_cache_utils.py). A worker (v1/worker/gpu_model_runner.py) keeps its own
    copy of the requests and a persistent batch of rows
    (gpu_input_batch.py, block_table.py) that it updates by the scheduler's
    outputs; from the rows it gathers the inputs of the model, places the
    grammar bitmask of structured_output/__init__.py next to the logits, tells
    the logits processors (v1/sample/logits_processor) what changed, and stores
    the sampled tokens. Draft tokens can come from an n-gram proposer
    (v1/spec_decode/ngram_proposer.py); the tokens that leave the engine are
    turned into text by a detokenizer that watches for stop strings
    (v1/engine/detokenizer.py, engine/output_processor/stop_checker.py).

    ** Files

    - Prelude: Python exceptions as values, loops that may raise, integers,
      slices, shared lemmas, hints and tactics.
    - FreeQueue: block objects in an object heap and the linked free list.
    - Request: request objects, statuses, construction, stop check.
    - BlockHash: block hash keys, extra keys, the incremental hasher.
    - BlockPool: reference counts, prefix-cache index, eviction, events.
    - KVSpec: KV cache specifications, page sizes, memory bounds, merging.
    - KVConfig, KVWorkers: the KV cache configuration of a worker, and of all
      workers together.
    - SingleType: the managers per attention type.
    - Coordinator, KVCacheManager: composition of the managers over one pool.
    - KVBacking, KVStart, Capacity: which requests have slots for which
      tokens, the state a started manager is in, and how much one sequence
      needs.
    - EncoderCache: the encoder output cache and its budget.
    - RequestQueue: the FCFS deque and the priority heap.
    - SchedState: scheduler state, output records, and the two interfaces
      ([KVConnector], [StructuredOutput]) of components chosen by
      configuration.
    - Scheduler, SchedulerUpdate: every entry point of the scheduler, with the
      overrides of async_scheduler.py selected by a flag.
    - Lifecycle, LifecycleOps: the invariant relating requests, queues and
      pins, preserved by every entry point; reachability by calls.
    - SchedTerm: the loops of a step as unbounded derivations, and their
      termination.
    - Progress, EngineRuns, Liveness: each scheduler call returns on the states
      an engine reaches; runs of an engine as interleavings of its calls.
    - SchedProps, EngineProps, EncoderSchedule: properties of steps, pins,
      stops and of whole engine runs.
    - EngineCore: the engine core with its batch queue and its busy loop, over
      an interface ([ModelExecutor]) for the workers.
    - EngineMemory: from the memory an engine was given to its progress.
    - BlockTable, InputBatch, LogitsProcs, ModelRunner, ModelInputs: the host
      side of a worker: block tables and slots, the persistent batch, the state
      of the logits processors, applying a scheduler output, and the arrays of a
      step with the bookkeeping of sampled tokens.
    - BatchInv, Reorder, RunnerInv, RunnerStep, InputsSpec, Bookkeeping: the
      invariant of the batch and of the runner and what each of these operations
      does.
    - GrammarBitmask, BitmaskSpec: filling the bitmask of structured output, over
      an interface ([Grammar]) for the grammars, and placing it in the worker.
      GrammarBackends: the grammars of the xgrammar and guidance backends over the
      matchers of these libraries.
    - WorkerStep, WorkerRuns: [execute_model] over a record ([Device]) for the
      forward pass and the sampler, and runs of a worker.
    - WorkerDemo, WorkerProps, GrammarProps, WorkerErrors: a concrete worker, the
      theorems about workers and structured output, and unintended behaviours.
    - TableCopy, Ownership: which block ids the worker is sent for a request, and
      that the blocks a step writes to belong to one request.
    - SchedPlan, SchedSent: what a step of the scheduler decides and what its output
      says about every request.
    - Mirror, MirrorWorker, MirrorUpdate: the relation between the scheduler's and
      the worker's requests, and that the worker's step, the scheduler's update and
      the client's messages keep it.
    - Lockstep, LockstepProps: the worker as an instance of [ModelExecutor], and the
      theorems about the engine core and its worker together.
    - LengthLimit: the front end's check of prompts, and the longest prompt.
    - DataParallel: the engine processes, the coordinator and the clients of a
      data-parallel deployment. DPCore, DPWaves, DPProps: what an engine relies on in
      its core and worker, the deployment as one system of processes with its
      invariant, and the theorems about waves.
    - MimirConnector: the CPU connector, an instance of [KVConnector].
    - NgramProposer: the n-gram drafter and its brute-force specification.
    - Detokenizer: incremental text, streaming and stop strings, over an
      interface ([Decoder]) for the tokenizer.
    - Logprobs, OutputProcessor: the logprobs of a request, and the output processor
      with its requests, the parents of parallel-sampling requests and the
      collectors that clients read from. OutputProps, ClientProps: the theorems about
      collectors, parallel sampling and what clients get.

    ** How the model corresponds to the code

    Each definition carries the name of its Python function where Rocq allows
    it, with a prefix where two classes share a method name ([kvm_free],
    [coord_free], [enc_free]). A method that mutates [self] takes and returns
    the object's record; the objects that are shared by reference (blocks,
    requests) are identities into a store, so aliasing is as in the code. A
    method that can raise returns [result], with the exception class as the
    error; a [for] loop is [foldM] or a structural recursion, a [while] loop
    carries fuel. Python integers are [Z]; floats (times, usage) are exact
    rationals [Qc]; a dict whose order matters is an association list, any
    other a [gmap]. Clock readings are arguments.

    ** Fuel

    [get_all_free_blocks] needs one unit per free block plus one (shown in
    FreeQueue); the preemption and running loops one per running request plus
    one, the waiting loop one per waiting request plus one (shown in
    SchedTerm: the fuelled loops agree with derivations that have no bound);
    the multimodal key loop one per item, the hasher one per block, the heap
    loops one per element (their theorems show that these loops return); the
    binary search for the model length one per candidate length plus one
    (shown in KVConfig), the n-gram loop two per token plus one (shown in
    NgramProposer), the loop of [condense] one per removed row plus one (shown in
    BatchInv); the recursion of [processor_abort_requests] one per parent of
    parallel-sampling requests plus one (ClientProps shows that one is enough without
    parents).

    ** What the theorems show

    - Memory safety of the cache: the free list is a list (FreeQueue), the
      pool never loses or double-frees a block (BlockPool), block tables and
      reference counts agree across all groups, and [allocate_slots],
      [get_computed_blocks] and [free] never raise (KVCacheManager).
    - Prefix caching: equal hashes that the hasher gives to requests mean equal
      prefixes, and for text requests the incremental hashes are those computed from
      scratch (BlockHash), lookups
      find the longest usable prefix for every attention type (SingleType),
      freed blocks stay reusable (BlockPool).
    - Scheduling: every reachable state is consistent, limits hold, loops
      terminate, tokens are kept up to the first stop (Sched files), encoder
      reservations are sound (EncoderSchedule), queues serve in order
      (RequestQueue).
    - The engine: over every interleaving of arrivals, steps, delayed updates
      and aborts no call raises, and no step with work to do is empty
      (EngineProps). These two are about text requests that sample tokens, on
      one synchronous engine with the FCFS or MIMIR policy, without LoRA, draft
      tokens, grammars and connector; the attention types, prefix caching,
      chunked prefill and the sampled tokens are arbitrary.
    - The engine core: with such requests and an executor that does not fail the
      busy loop never dies, batches are processed in order, and the loop goes idle
      when it is done (EngineCore).
    - Configuration: the layout of tensors and groups is sound and fits the
      memory, the search for the model length is exact, the memory check
      leaves room for one sequence (KVConfig), workers agree (KVWorkers), and
      a full-attention engine with one more block than checked never starves
      (EngineMemory). The number of blocks is not overridden in the claims about
      memory.
    - Workers: every output that keeps the scheduler's promises ([promised]: new
      and cached requests are known as announced, tokens have blocks, drafts come
      last and only for requests that are still in the batch, the bitmask has
      scheduled requests only) is executed from every state a worker reaches, the inputs are those
      of the scheduled tokens, no two tokens share a slot, decodes come before
      prefills, logits processors stay with their requests (WorkerProps), and
      grammar masks reach the logits of their requests (GrammarProps; for grammars
      that keep the law of rollback, as those of the xgrammar backend). These are
      about the last pipeline stage of a text-generating model with synchronous
      scheduling.
    - Engine core and worker together, from a fresh start and over every run: no
      message and no step raises, so the scheduler's outputs keep every promise the
      worker relies on and the worker's outputs every one the scheduler relies on;
      between steps the worker has the scheduler's requests, tokens and block
      tables; the model gets exactly the tokens that were scheduled; and no cell of
      the KV cache is written twice in a step (LockstepProps). The hypotheses are
      collected in [deployment]: a plain configuration as for the engine, a KV cache
      manager from [kvm_init], the last pipeline stage, block tables and buffers
      that are large enough ([agree]), a sampler that returns at least one and no
      more than the requested tokens for each row ([device_ok]), and prompt logprobs
      only for requests that got tokens ([extras_ok]).
    - Data-parallel waves: over every interleaving of clients, coordinator, engines
      and late messages all engines are in the same wave ([waves_agree]), no wake-up
      is lost, and a running wave gets to its all-reduce within 32 iterations per
      engine, in whatever order the engines take turns (DPProps); the load balancer
      chooses an engine with the least load (DataParallel). Engines step on their own
      between two all-reduces, which has more behaviours than the collective
      operations of a forward pass allow; the number of engines is fixed, and a
      request is not aborted before its engine made a step
      ([early_abort_strands_wave] shows what happens otherwise).
    - Text: streamed deltas are the output, stop strings are found
      (Detokenizer); drafts are the longest match (NgramProposer).
    - Clients: for every order of outputs and reads a client of a streaming request
      gets the text and tokens of its own request, nothing twice and nothing lost, and
      an abort is passed on (ClientProps); the completions of a parallel-sampling
      request come together in order, as long as a registered child is unfinished
      until the last one finishes, and collectors merge without loss (OutputProps).
      The streaming theorems are about processors in which all requests stream into
      collectors of their own, without parallel sampling, requests whose
      logprobs, when there are any, were asked for, and decoders that do not raise.
    - Agent pins: decided and kept exactly as the TTL says (SchedProps).
    - CPU connector: what is stored is what is loaded (MimirConnector).
    - Behaviours that are likely unintended are proved as they are:
      [equal_keys_raise], [lora_event_attribute_error],
      [preempted_after_scheduling], [skipped_requests_reversed],
      [held_blocks_break_common_prefix], [full_cpu_hit_fails],
      [uncomputed_tokens_stored], [running_request_hides_resumed],
      [exact_fit_starves], [check_misses_conversion_and_padding],
      [attention_free_needs_hybrid_manager],
      [excluded_stop_string_returned], [returning_drafts_lost],
      [unscheduled_structured_raises], [swap_shares_allowed_mask],
      [stale_mask_restricts], [full_length_prompt_fails],
      [early_abort_strands_wave], [early_child_ends_request],
      [abort_repeats_logprobs], [mm_item_dropped], [guidance_stays_terminated].

    ** Not modelled

    Model code, samplers and kernels (numerical, on the GPU), and of the worker
    M-RoPE, encoder execution, attention metadata, asynchronous scheduling and
    drafters other than the n-gram one; grammar compilation, matchers and transfer
    engines (external libraries, behind the interfaces); the outlines backend, whose
    [is_terminated] changes the grammar, and lm-format-enforcer; tokenizers (external,
    behind [Decoder]); the engine's processes and sockets, scaling a data-parallel
    deployment and the HTTP front end; logging and metrics export; the legacy v0 engine. Job ids are compared by
    their exact value, so the coincidence of [1], [1.0] and [True] as Python
    dict keys is not represented. *)
From Stdlib Require Import ZArith Lia.
From stdpp Require Import numbers gmap strings list.

Open Scope Z_scope.

(** * Python exceptions as values *)

Inductive exn :=
| AssertionError
| ValueError
| RuntimeError
| IndexError
| KeyError
| TypeError
| AttributeError
| NotImplementedError
| OverflowError
| ZeroDivisionError
| OutOfFuel.

#[export] Instance exn_eq_dec : EqDecision exn.
Proof. solve_decision. Defined.

Inductive result (A : Type) :=
| Ok (a : A)
| Err (e : exn).
Arguments Ok {A} a.
Arguments Err {A} e.

#[export] Instance result_ret : MRet result := fun A a => Ok a.
#[export] Instance result_bind : MBind result := fun A B f m =>
  match m with
  | Ok a => f a
  | Err e => Err e
  end.

#[export] Instance result_eq_dec `{EqDecision A} : EqDecision (result A).
Proof. solve_decision. Defined.

(** [assert b]: the Python statement [assert b]. *)
Definition assert_ (b : bool) : result unit :=
  if b then Ok tt else Err AssertionError.

(** [raise_if b e]: [if b: raise e]. *)
Definition raise_if (b : bool) (e : exn) : result unit :=
  if b then Err e else Ok tt.

(** Reading an attribute or a key that may be absent. *)
Definition get_or {A} (e : exn) (o : option A) : result A :=
  match o with
  | Some a => Ok a
  | None => Err e
  end.

(** A [for x in l: s = body(s, x)] loop whose body may raise. *)
Fixpoint foldM {A S} (f : S -> A -> result S) (s : S) (l : list A) : result S :=
  match l with
  | [] => Ok s
  | x :: l' => s' ← f s x; foldM f s' l'
  end.

(** A comprehension [[f(x) for x in l]] whose element may raise. *)
Fixpoint mapM_res {A B} (f : A -> result B) (l : list A) : result (list B) :=
  match l with
  | [] => Ok []
  | x :: l' => y ← f x; ys ← mapM_res f l'; Ok (y :: ys)
  end.

(** * Python integers, lengths and slices *)

(** [len(l)]. *)
Definition zlen {A} (l : list A) : Z := Z.of_nat (length l).

(** [cdiv(a, b) = -(a // -b)] of vllm/utils/__init__.py. *)
Definition cdiv (a b : Z) : Z := - (a / - b).

(** Normalisation of a slice bound: negative bounds count from the end and
    the result is clamped to [0, len]. *)
Definition slice_bound (len i : Z) : Z :=
  let j := if i <? 0 then i + len else i in
  Z.max 0 (Z.min j len).

(** [l[a:b]]. *)
Definition pyslice {A} (a b : Z) (l : list A) : list A :=
  let a' := slice_bound (zlen l) a in
  let b' := slice_bound (zlen l) b in
  take (Z.to_nat (b' - a')) (drop (Z.to_nat a') l).

(** [l[:b]] and [l[a:]]. *)
Definition pytake {A} (b : Z) (l : list A) : list A :=
  take (Z.to_nat (slice_bound (zlen l) b)) l.
Definition pydrop {A} (a : Z) (l : list A) : list A :=
  drop (Z.to_nat (slice_bound (zlen l) a)) l.

(** [l[i]], negative indices counting from the end; out of range raises
    IndexError. *)
Definition pyindex {A} (l : list A) (i : Z) : result A :=
  let j := if i <? 0 then i + zlen l else i in
  if j <? 0 then Err IndexError
  else get_or IndexError (l !! Z.to_nat j).

(** * Reasoning about [result] *)

Lemma bind_Ok {A B} (m : result A) (f : A -> result B) (b : B) :
  (m ≫= f) = Ok b <-> exists a, m = Ok a /\ f a = Ok b.
Proof. destruct m; cbn; naive_solver. Qed.

Lemma get_or_Ok {A} e (o : option A) (a : A) : get_or e o = Ok a <-> o = Some a.
Proof. destruct o; cbn; naive_solver. Qed.

Lemma assert_Ok b u : assert_ b = Ok u <-> b = true.
Proof. destruct b, u; cbn; naive_solver. Qed.

Lemma raise_if_Ok b e u : raise_if b e = Ok u <-> b = false.
Proof. destruct b, u; cbn; naive_solver. Qed.

(** Decompose hypotheses of the form [(x ← m; k) = Ok r]. *)
Ltac inv_ok :=
  repeat match goal with
  | H : (_ ≫= _) = Ok _ |- _ =>
      let a := fresh "a" in let E := fresh "E" in
      apply bind_Ok in H; destruct H as (a & E & H)
  | H : get_or _ _ = Ok _ |- _ => apply get_or_Ok in H
  | H : assert_ _ = Ok _ |- _ => apply assert_Ok in H
  | H : raise_if _ _ = Ok _ |- _ => apply raise_if_Ok in H
  | H : Ok _ = Ok _ |- _ => injection H as H
  | H : Err _ = Ok _ |- _ => discriminate H
  | H : Ok _ = Err _ |- _ => discriminate H
  | H : (_, _) = (_, _) |- _ => injection H as H
  | x : (_ * _)%type |- _ => destruct x
  end; subst.

Lemma foldM_app {A S} (f : S -> A -> result S) s l1 l2 :
  foldM f s (l1 ++ l2) = (s' ← foldM f s l1; foldM f s' l2).
Proof.
  revert s. induction l1 as [|x l1 IH]; intros s; [done|].
  cbn. destruct (f s x); cbn; [apply IH|done].
Qed.

(** Invariants of a [for] loop. *)
Lemma foldM_inv {A S} (P : S -> Prop) (f : S -> A -> result S) l :
  (forall s x s', x ∈ l -> P s -> f s x = Ok s' -> P s') ->
  forall s s', P s -> foldM f s l = Ok s' -> P s'.
Proof.
  induction l as [|x l IH]; intros Hstep s s' Hs Hf; cbn in Hf; inv_ok; [done|].
  eapply IH; [|eapply Hstep; [|exact Hs|eassumption]|eassumption].
  - intros s1 y s2 Hy. apply Hstep. rewrite elem_of_cons; by right.
  - rewrite elem_of_cons; by left.
Qed.

(** ** Slices in range *)

Lemma slice_bound_in {A} (l : list A) i : 0 <= i <= zlen l -> slice_bound (zlen l) i = i.
Proof. intros H. unfold slice_bound. destruct (Z.ltb_spec i 0); lia. Qed.

Lemma pyslice_in {A} (l : list A) (a b : nat) :
  (a <= b <= length l)%nat ->
  pyslice (Z.of_nat a) (Z.of_nat b) l = take (b - a) (drop a l).
Proof.
  intros H. unfold pyslice. rewrite !slice_bound_in by (unfold zlen; lia).
  f_equal; [lia|]. f_equal. lia.
Qed.

Lemma pyindex_nat {A} (l : list A) (k : nat) : pyindex l (Z.of_nat k) = get_or IndexError (l !! k).
Proof.
  unfold pyindex. replace (Z.of_nat k <? 0) with false by (symmetry; apply Z.ltb_ge; lia).
  cbv zeta. replace (Z.of_nat k <? 0) with false by (symmetry; apply Z.ltb_ge; lia). by rewrite Nat2Z.id.
Qed.

Lemma pytake_nat {A} (n : Z) (l : list A) : 0 <= n <= zlen l -> pytake n l = take (Z.to_nat n) l.
Proof. intros Hn. unfold pytake. by rewrite slice_bound_in. Qed.

Lemma zlen_app {A} (l1 l2 : list A) : zlen (l1 ++ l2) = zlen l1 + zlen l2.
Proof. unfold zlen. rewrite length_app. lia. Qed.

Lemma zlen_nonneg {A} (l : list A) : 0 <= zlen l.
Proof. unfold zlen. lia. Qed.

Lemma zlen_cons {A} (x : A) l : zlen (x :: l) = 1 + zlen l.
Proof. unfold zlen. cbn. lia. Qed.

(** Lengths of Python lists, as a rewrite database. *)
Create HintDb pylist.
#[export] Hint Rewrite @zlen_app @zlen_cons : pylist.
#[export] Hint Resolve zlen_nonneg : pylist.

(** [len_lia]: linear arithmetic about lengths of concrete list expressions. *)
Ltac len_lia := autorewrite with pylist in *; unfold zlen in *; rewrite ?length_fmap, ?length_take, ?length_drop in *; lia.

(** ** Ceiling division *)

Lemma cdiv_spec a b : 0 < b -> b * cdiv a b >= a /\ b * (cdiv a b - 1) < a.
Proof.
  intros Hb. unfold cdiv.
  pose proof (Z.div_mod a (- b) ltac:(lia)). pose proof (Z.mod_neg_bound a (- b) ltac:(lia)).
  nia.
Qed.

Lemma cdiv_le_iff a b n : 0 < b -> cdiv a b <= n <-> a <= b * n.
Proof. intros Hb. pose proof (cdiv_spec a b Hb). nia. Qed.

Lemma cdiv_nonneg a b : 0 < b -> 0 <= a -> 0 <= cdiv a b.
Proof. intros Hb Ha. pose proof (cdiv_spec a b Hb). nia. Qed.

Lemma cdiv_mono a a' b : 0 < b -> a <= a' -> cdiv a b <= cdiv a' b.
Proof. intros Hb Ha. apply cdiv_le_iff; [done|]. pose proof (cdiv_spec a' b Hb). lia. Qed.

Lemma elem_of_concat {A} (x : A) (ls : list (list A)) : x ∈ concat ls <-> exists l, l ∈ ls /\ x ∈ l.
Proof. rewrite list_elem_of_In, in_concat. setoid_rewrite list_elem_of_In. done. Qed.

Lemma concat_nodup {A} (ls : list (list A)) : (forall j l, ls !! j = Some l -> NoDup l) -> (forall j j' l l' x, ls !! j = Some l -> ls !! j' = Some l' -> x ∈ l -> x ∈ l' -> j = j') -> NoDup (concat ls).
Proof.
  induction ls as [|l ls IH]; intros H1 H2; [constructor|]. cbn. apply NoDup_app. split_and!; [by apply (H1 0%nat)| |].
  - intros x Hx (l' & Hl' & Hx')%elem_of_concat. apply list_elem_of_lookup in Hl' as [j Hj]. by specialize (H2 0%nat (S j) l l' x eq_refl Hj Hx Hx').
  - apply IH; [intros j; apply (H1 (S j))|]. intros j j' l1 l2 x E1 E2 X1 X2. by specialize (H2 (S j) (S j') l1 l2 x E1 E2 X1 X2) as [= ->].
Qed.

Lemma foldM_concat {A S} (f : S -> A -> result S) s (ls : list (list A)) :
  foldM (fun s l => foldM f s l) s ls = foldM f s (concat ls).
Proof.
  revert s. induction ls as [|l ls IH]; intros s; [done|].
  cbn. rewrite foldM_app. destruct (foldM f s l); cbn; [apply IH|done].
Qed.

Lemma filter_none {A} (P : A -> Prop) `{!forall x, Decision (P x)} (l : list A) :
  (forall x, x ∈ l -> ~ P x) -> filter P l = [].
Proof.
  induction l as [|x l IH]; intros Hl; [done|]. rewrite filter_cons_False.
  - apply IH. intros y Hy. apply Hl. rewrite elem_of_cons. by right.
  - apply Hl. rewrite elem_of_cons. by left.
Qed.

Lemma filter_all {A} (P : A -> Prop) `{!forall x, Decision (P x)} (l : list A) :
  (forall x, x ∈ l -> P x) -> filter P l = l.
Proof.
  induction l as [|x l IH]; intros Hl; [done|]. rewrite filter_cons_True.
  - f_equal. apply IH. intros y Hy. apply Hl. rewrite elem_of_cons. by right.
  - apply Hl. rewrite elem_of_cons. by left.
Qed.

Lemma filter_filter {A} (P Q : A -> Prop) `{!forall x, Decision (P x), !forall x, Decision (Q x)} (l : list A) :
  filter P (filter Q l) = filter (fun x => P x /\ Q x) l.
Proof.
  induction l as [|x l IH]; [done|]. rewrite !filter_cons.
  destruct (decide (Q x)).
  - rewrite filter_cons. destruct (decide (P x)).
    + rewrite decide_True by done. by rewrite IH.
    + rewrite decide_False by tauto. done.
  - rewrite decide_False by tauto. done.
Qed.

Lemma filter_ext_in {A} (P Q : A -> Prop) `{!forall x, Decision (P x), !forall x, Decision (Q x)} (l : list A) :
  (forall x, x ∈ l -> P x <-> Q x) -> filter P l = filter Q l.
Proof.
  induction l as [|x l IH]; intros Hl; [done|]. rewrite !filter_cons.
  assert (Hx : P x <-> Q x) by (apply Hl; rewrite elem_of_cons; by left).
  rewrite IH by (intros y Hy; apply Hl; rewrite elem_of_cons; by right).
  destruct (decide (P x)), (decide (Q x)); tauto.
Qed.

(** Evaluating an observation of the outcome of a run. *)
Lemma run_fact {A B} (m : result A) (f : A -> B) (a : A) (b : B) :
  m = Ok a -> (x ← m; Ok (f x)) = Ok b -> f a = b.
Proof. intros ->. by intros [= <-]. Qed.

(** [observe E f b]: assert [f a = b] for the state [a] with [E : run = Ok a],
    by evaluating the run. *)
Ltac observe E f b :=
  let H := fresh "Hobs" in
  match type of E with
  | ?m = Ok ?a => assert (H : f a = b) by (apply (run_fact m f a b E); vm_compute; reflexivity)
  end; cbv beta in H.

Lemma mapM_Forall2 {A B} (f : A -> result B) l ys : mapM_res f l = Ok ys -> Forall2 (fun x y => f x = Ok y) l ys.
Proof.
  revert ys. induction l as [|x l IH]; intros ys E; cbn in E; [by injection E as <-|].
  apply bind_Ok in E as (y & Ey & E). apply bind_Ok in E as (ys' & Eys & E). injection E as <-. constructor; auto.
Qed.

(** * Sets *)

(** The order in which Python iterates over a set. *)
Class SetOrder := {
  set_order : gset string -> list string;
  set_order_perm : forall X, set_order X ≡ₚ elements X
}.
