(* ===== verification/FreeQueue.v ===== *)
(** Block metadata and the free-block queue of
    src/vllm/v1/core/kv_cache_utils.py: [KVCacheBlock] objects in an object
    heap, and [FreeKVCacheBlockQueue], the doubly linked list threaded through
    their [prev_free_block]/[next_free_block] attributes, refined to a plain
    list of block identifiers. *)
From Stdlib Require Import ZArith Lia.
From stdpp Require Import numbers gmap strings list.
From S2P Require Import Prelude.

Open Scope Z_scope.

(** ** Objects *)

(** Raw bytes of a block hash (one [Z] in 0..255 per byte). *)
Abbreviation bytes := (list Z).
Abbreviation BlockHash := (list Z).
Abbreviation BlockHashWithGroupId := (list Z).

(** Identity of a [KVCacheBlock] object: the queue's two sentinels
    ([fake_free_list_head], [fake_free_list_tail]) or a block of the pool. *)
Inductive bptr :=
| PHead
| PTail
| PBlk (i : nat).

#[export] Instance bptr_eq_dec : EqDecision bptr.
Proof. solve_decision. Defined.

#[export] Instance bptr_countable : Countable bptr.
Proof.
  refine (inj_countable'
    (fun p => match p with PHead => inl true | PTail => inl false | PBlk i => inr i end)
    (fun s => match s with inl true => PHead | inl false => PTail | inr i => PBlk i end) _).
  by intros [| |].
Defined.

Record KVCacheBlock := mkBlock {
  block_id : Z;
  ref_cnt : Z;
  block_hash : option BlockHashWithGroupId;
  prev_free_block : option bptr;
  next_free_block : option bptr;
  is_null : bool
}.

(** [KVCacheBlock(block_id)] with the dataclass defaults. *)
Definition new_block (i : Z) : KVCacheBlock := mkBlock i 0 None None None false.

Abbreviation heap := (gmap bptr KVCacheBlock).

(** Attribute writes. *)
Definition with_ref (c : Z) (b : KVCacheBlock) : KVCacheBlock :=
  mkBlock (block_id b) c (block_hash b) (prev_free_block b) (next_free_block b) (is_null b).
Definition with_hash (x : option BlockHashWithGroupId) (b : KVCacheBlock) : KVCacheBlock :=
  mkBlock (block_id b) (ref_cnt b) x (prev_free_block b) (next_free_block b) (is_null b).
Definition with_prev (p : option bptr) (b : KVCacheBlock) : KVCacheBlock :=
  mkBlock (block_id b) (ref_cnt b) (block_hash b) p (next_free_block b) (is_null b).
Definition with_next (p : option bptr) (b : KVCacheBlock) : KVCacheBlock :=
  mkBlock (block_id b) (ref_cnt b) (block_hash b) (prev_free_block b) p (is_null b).
Definition with_null (x : bool) (b : KVCacheBlock) : KVCacheBlock :=
  mkBlock (block_id b) (ref_cnt b) (block_hash b) (prev_free_block b) (next_free_block b) x.

(** The [block_hash] setter asserts that no hash is set yet. *)
Definition set_block_hash (x : BlockHashWithGroupId) (b : KVCacheBlock) : result KVCacheBlock :=
  _ ← assert_ (bool_decide (block_hash b = None));
  Ok (with_hash (Some x) b).

Definition reset_hash (b : KVCacheBlock) : KVCacheBlock := with_hash None b.

Definition load (h : heap) (p : bptr) : result KVCacheBlock := get_or AttributeError (h !! p).
Definition set_prev (p : bptr) (q : option bptr) (h : heap) : heap := alter (with_prev q) p h.
Definition set_next (p : bptr) (q : option bptr) (h : heap) : heap := alter (with_next q) p h.

(** Views used by the specifications. *)
Definition nxt (h : heap) (p : bptr) : option bptr := h !! p ≫= next_free_block.
Definition prv (h : heap) (p : bptr) : option bptr := h !! p ≫= prev_free_block.

(** ** The queue *)

Record FreeKVCacheBlockQueue := mkQueue {
  fq_heap : heap;
  num_free_blocks : Z
}.

(** [KVCacheBlock(idx) for idx in range(n)], at their object identities. *)
Definition alloc_blocks (n : nat) : heap :=
  list_to_map ((fun i => (PBlk i, new_block (Z.of_nat i))) <$> seq 0 n).

(** The body of the loop that links consecutive blocks in [__init__]. *)
Definition link_one (n : nat) (h : heap) (i : nat) : heap :=
  let h := if decide (0 < i)%nat then set_prev (PBlk i) (Some (PBlk (i - 1))) h else h in
  if decide (i + 1 < n)%nat then set_next (PBlk i) (Some (PBlk (i + 1))) h else h.

(** [FreeKVCacheBlockQueue.__init__(blocks)] with [blocks] the blocks
    [0..n-1] of the heap. *)
Definition queue_init (n : nat) (h : heap) : FreeKVCacheBlockQueue :=
  let h := foldl (link_one n) h (seq 0 n) in
  let h := <[PHead := new_block (-1)]> (<[PTail := new_block (-1)]> h) in
  let h :=
    if decide (0 < n)%nat then
      set_next (PBlk (n - 1)) (Some PTail)
        (set_prev PTail (Some (PBlk (n - 1)))
          (set_prev (PBlk 0) (Some PHead)
            (set_next PHead (Some (PBlk 0)) h)))
    else set_prev PTail (Some PHead) (set_next PHead (Some PTail) h) in
  mkQueue h (Z.of_nat n).

Definition popleft (q : FreeKVCacheBlockQueue) : result (bptr * FreeKVCacheBlockQueue) :=
  let h := fq_heap q in
  hd ← load h PHead;
  match next_free_block hd with
  | None | Some PTail =>
      _ ← assert_ (num_free_blocks q =? 0);
      Err ValueError
  | Some first_block =>
      fb ← load h first_block;
      match next_free_block fb with
      | None => Err RuntimeError
      | Some second =>
          let h := set_next PHead (Some second) h in
          let h := set_prev second (Some PHead) h in
          let h := set_next first_block None (set_prev first_block None h) in
          Ok (first_block, mkQueue h (num_free_blocks q - 1))
      end
  end.

(** The [for _ in range(n)] loop of [popleft_n]: heap, current block and the
    accumulated result. *)
Fixpoint popleft_n_loop (n : nat) (h : heap) (curr : option bptr) (ret : list bptr)
  : result (heap * option bptr * list bptr) :=
  match n with
  | O => Ok (h, curr, ret)
  | S n' =>
      match curr with
      | None => Err AssertionError
      | Some last_block =>
          b ← load h last_block;
          let h := set_next last_block None (set_prev last_block None h) in
          popleft_n_loop n' h (next_free_block b) (ret ++ [last_block])
      end
  end.

Definition popleft_n (n : Z) (q : FreeKVCacheBlockQueue)
  : result (list bptr * FreeKVCacheBlockQueue) :=
  if n =? 0 then Ok ([], q) else
  _ ← assert_ (n <=? num_free_blocks q);
  let num := num_free_blocks q - n in
  hd ← load (fq_heap q) PHead;
  '(h, curr, ret) ← popleft_n_loop (Z.to_nat n) (fq_heap q) (next_free_block hd) [];
  match curr with
  | Some c =>
      let h := set_prev c (Some PHead) (set_next PHead (Some c) h) in
      Ok (ret, mkQueue h num)
  | None => Ok (ret, mkQueue h num)
  end.

Definition remove (p : bptr) (q : FreeKVCacheBlockQueue) : result FreeKVCacheBlockQueue :=
  let h := fq_heap q in
  b ← load h p;
  match prev_free_block b, next_free_block b with
  | Some pr, Some nx =>
      let h := set_next pr (Some nx) h in
      let h := set_prev nx (Some pr) h in
      let h := set_next p None (set_prev p None h) in
      Ok (mkQueue h (num_free_blocks q - 1))
  | _, _ => Err RuntimeError
  end.

Definition append (p : bptr) (q : FreeKVCacheBlockQueue) : result FreeKVCacheBlockQueue :=
  let h := fq_heap q in
  tl ← load h PTail;
  match prev_free_block tl with
  | None => Err RuntimeError
  | Some last_block =>
      let h := set_next last_block (Some p) h in
      let h := set_prev p (Some last_block) h in
      let h := set_next p (Some PTail) h in
      let h := set_prev PTail (Some p) h in
      Ok (mkQueue h (num_free_blocks q + 1))
  end.

(** The linking loop of [append_n]: heap and [last_block]. *)
Definition append_link (s : heap * bptr) (p : bptr) : heap * bptr :=
  let '(h, last_block) := s in
  (set_next last_block (Some p) (set_prev p (Some last_block) h), p).

Definition append_n (ps : list bptr) (q : FreeKVCacheBlockQueue) : result FreeKVCacheBlockQueue :=
  if decide (ps = []) then Ok q else
  let num := num_free_blocks q + zlen ps in
  tl ← load (fq_heap q) PTail;
  match prev_free_block tl with
  | None => Err AssertionError
  | Some last =>
      let '(h, last_block) := foldl append_link (fq_heap q, last) ps in
      let h := set_prev PTail (Some last_block) (set_next last_block (Some PTail) h) in
      Ok (mkQueue h num)
  end.

(** The [while curr_block.next_free_block is not None] loop of
    [get_all_free_blocks]; the fuel bounds the number of blocks. *)
Fixpoint walk (fuel : nat) (h : heap) (curr : bptr) (ret : list bptr) : result (list bptr) :=
  match fuel with
  | O => Err OutOfFuel
  | S f =>
      b ← load h curr;
      match next_free_block b with
      | None => Ok ret
      | Some nx => walk f h nx (ret ++ [curr])
      end
  end.

Definition get_all_free_blocks (fuel : nat) (q : FreeKVCacheBlockQueue) : result (list bptr) :=
  hd ← load (fq_heap q) PHead;
  match next_free_block hd with
  | None => Err RuntimeError
  | Some first => walk fuel (fq_heap q) first []
  end.

(** * The linked list as a list *)

Definition linked (h : heap) (p q : bptr) : Prop := nxt h p = Some q /\ prv h q = Some p.

(** Consecutive nodes of [c] are linked in both directions. *)
Fixpoint chain (h : heap) (c : list bptr) : Prop :=
  match c with
  | [] => True
  | p :: c' =>
      match c' with
      | [] => True
      | q :: _ => linked h p q /\ chain h c'
      end
  end.

(** The part of a block the queue never writes. *)
Definition data (b : KVCacheBlock) : Z * Z * option BlockHashWithGroupId * bool :=
  (block_id b, ref_cnt b, block_hash b, is_null b).

Definition data_eq (h h' : heap) : Prop := forall p, data <$> h !! p = data <$> h' !! p.

(** [q] holds exactly the blocks of [l], in this order. *)
Record is_queue (q : FreeKVCacheBlockQueue) (l : list nat) : Prop := mkIsQueue {
  iq_chain : chain (fq_heap q) (PHead :: (PBlk <$> l) ++ [PTail]);
  iq_nodup : NoDup l;
  iq_num : num_free_blocks q = zlen l;
  iq_tail : nxt (fq_heap q) PTail = None;
  iq_out : forall i, i ∉ l -> nxt (fq_heap q) (PBlk i) = None /\ prv (fq_heap q) (PBlk i) = None
}.

#[export] Instance data_eq_equiv : Equivalence data_eq.
Proof.
  unfold data_eq. split.
  - done.
  - intros h1 h2 H p. by rewrite H.
  - intros h1 h2 h3 H1 H2 p. by rewrite H1.
Qed.

Lemma data_eq_alter f p (h : heap) :
  (forall b, data (f b) = data b) -> data_eq (alter f p h) h.
Proof.
  intros Hf r. rewrite lookup_alter. case_decide; [|done]. subst.
  destruct (h !! r); cbn; [by rewrite Hf|done].
Qed.

#[export] Instance set_prev_proper p q : Proper (data_eq ==> data_eq) (set_prev p q).
Proof.
  intros h h' H. unfold set_prev. transitivity h; [by apply data_eq_alter|].
  transitivity h'; [done|]. symmetry. by apply data_eq_alter.
Qed.

#[export] Instance set_next_proper p q : Proper (data_eq ==> data_eq) (set_next p q).
Proof.
  intros h h' H. unfold set_next. transitivity h; [by apply data_eq_alter|].
  transitivity h'; [done|]. symmetry. by apply data_eq_alter.
Qed.

Lemma set_prev_data p q h : data_eq (set_prev p q h) h.
Proof. by apply data_eq_alter. Qed.
Lemma set_next_data p q h : data_eq (set_next p q h) h.
Proof. by apply data_eq_alter. Qed.

Lemma data_eq_lookup h h' p b :
  data_eq h h' -> h !! p = Some b -> exists b', h' !! p = Some b' /\ data b' = data b.
Proof.
  intros H Hp. specialize (H p). rewrite Hp in H. destruct (h' !! p) as [b'|]; cbn in H; [|done].
  exists b'. split; [done|congruence].
Qed.

Lemma nxt_set_prev h p q r : nxt (set_prev p q h) r = nxt h r.
Proof.
  unfold nxt, set_prev. rewrite lookup_alter. case_decide; subst; [|done].
  by destruct (h !! r).
Qed.
Lemma prv_set_next h p q r : prv (set_next p q h) r = prv h r.
Proof.
  unfold prv, set_next. rewrite lookup_alter. case_decide; subst; [|done].
  by destruct (h !! r).
Qed.
Lemma nxt_set_next h p q r :
  nxt (set_next p q h) r = if decide (p = r) then h !! p ≫= (fun _ => q) else nxt h r.
Proof.
  unfold nxt, set_next. rewrite lookup_alter. case_decide; subst; [|done].
  by destruct (h !! r).
Qed.
Lemma prv_set_prev h p q r :
  prv (set_prev p q h) r = if decide (p = r) then h !! p ≫= (fun _ => q) else prv h r.
Proof.
  unfold prv, set_prev. rewrite lookup_alter. case_decide; subst; [|done].
  by destruct (h !! r).
Qed.
Lemma lookup_set_prev_is h p q r : is_Some (set_prev p q h !! r) <-> is_Some (h !! r).
Proof.
  unfold set_prev. rewrite lookup_alter. case_decide; subst; [|done].
  by rewrite fmap_is_Some.
Qed.
Lemma lookup_set_next_is h p q r : is_Some (set_next p q h !! r) <-> is_Some (h !! r).
Proof.
  unfold set_next. rewrite lookup_alter. case_decide; subst; [|done].
  by rewrite fmap_is_Some.
Qed.
Lemma is_Some_bind_const {A B} (o : option A) (b : option B) :
  is_Some o -> o ≫= (fun _ => b) = b.
Proof. by intros [? ->]. Qed.
Lemma nxt_is_Some h p q : nxt h p = Some q -> is_Some (h !! p).
Proof. unfold nxt. destruct (h !! p); naive_solver. Qed.
Lemma prv_is_Some h p q : prv h p = Some q -> is_Some (h !! p).
Proof. unfold prv. destruct (h !! p); naive_solver. Qed.
Lemma linked_is_Some h p q : linked h p q -> is_Some (h !! p) /\ is_Some (h !! q).
Proof. intros [H1 H2]. split; [by eapply nxt_is_Some|by eapply prv_is_Some]. Qed.

Create HintDb fqdb.
#[export] Hint Rewrite nxt_set_prev prv_set_next nxt_set_next prv_set_prev : fqdb.
#[export] Hint Rewrite lookup_set_prev_is lookup_set_next_is : fqdb.
#[export] Hint Resolve set_prev_data set_next_data nxt_is_Some prv_is_Some : fqdb.

(** Solve a goal about the links of an updated heap. *)
Ltac links :=
  autorewrite with fqdb in *;
  repeat (case_decide; simplify_eq; try done);
  autorewrite with fqdb;
  rewrite ?is_Some_bind_const by (autorewrite with fqdb; eauto with fqdb);
  try done.

Lemma chain_app h c1 p c2 : chain h (c1 ++ p :: c2) <-> chain h (c1 ++ [p]) /\ chain h (p :: c2).
Proof.
  induction c1 as [|x c1 IH]; cbn [app]; [cbn; tauto|].
  destruct c1 as [|y c1]; cbn [app chain] in *; [cbn; tauto|].
  destruct c1; cbn [app] in *; tauto.
Qed.

Lemma chain_cons h p q c : chain h (p :: q :: c) <-> linked h p q /\ chain h (q :: c).
Proof. done. Qed.

Lemma chain_frame h h' c z :
  (forall p, p ∈ c -> nxt h' p = nxt h p) ->
  (forall p, p ∈ tail (c ++ [z]) -> prv h' p = prv h p) ->
  chain h (c ++ [z]) -> chain h' (c ++ [z]).
Proof.
  induction c as [|x c IH]; cbn [app]; [done|]. intros Hn Hp.
  destruct c as [|y c].
  - cbn. intros [[H1 H2] _]. split; [|done]. split.
    + rewrite Hn; [done|set_solver].
    + rewrite Hp; [done|cbn; set_solver].
  - intros [[H1 H2] Hc]. split.
    + split; [rewrite Hn; [done|set_solver]|].
      rewrite Hp; [done|cbn; set_solver].
    + apply IH; [set_solver| |done]. intros p Hin. apply Hp. cbn in *. set_solver.
Qed.

Lemma chain_lookup h c :
  (forall i p q, c !! i = Some p -> c !! S i = Some q -> linked h p q) -> chain h c.
Proof.
  induction c as [|x c IH]; [done|]. intros H. destruct c as [|y c]; [done|].
  split; [by apply (H 0%nat)|]. apply IH. intros i p q Hp Hq. by apply (H (S i)).
Qed.

(** Nodes at both ends and in the middle of a chain are allocated. *)
Lemma chain_is_Some h c p :
  chain h c -> p ∈ c -> (2 <= length c)%nat -> is_Some (h !! p).
Proof.
  induction c as [|x c IH]; [set_solver|]. intros Hc Hin Hlen.
  destruct c as [|y c]; [cbn in Hlen; lia|].
  destruct Hc as [[H1 H2] Hc]. apply elem_of_cons in Hin as [->|Hin].
  - by eapply nxt_is_Some.
  - destruct c as [|z c].
    + assert (p = y) as -> by set_solver. by eapply prv_is_Some.
    + apply IH; [done|done|cbn; lia].
Qed.

(** ** Unlinking and linking one node *)

Definition unlink (pr x nx : bptr) (h : heap) : heap :=
  set_next x None (set_prev x None (set_prev nx (Some pr) (set_next pr (Some nx) h))).

Lemma unlink_data pr x nx h : data_eq (unlink pr x nx h) h.
Proof. unfold unlink. by rewrite set_next_data, !set_prev_data, set_next_data. Qed.

Lemma chain_unlink h c1 pr x nx c2 :
  chain h (c1 ++ pr :: x :: nx :: c2) ->
  NoDup (c1 ++ pr :: x :: nx :: c2) ->
  chain (unlink pr x nx h) (c1 ++ pr :: nx :: c2).
Proof.
  intros Hc Hnd. apply chain_app in Hc as [Hc1 Hc2].
  apply chain_cons in Hc2 as [L1 Hc2]. apply chain_cons in Hc2 as [L2 Hc2].
  apply linked_is_Some in L1 as [Hpr Hx]. apply linked_is_Some in L2 as [_ Hnx].
  apply NoDup_app in Hnd as (_ & Hd1 & Hnd).
  apply NoDup_cons in Hnd as [Hpr' Hnd]. apply NoDup_cons in Hnd as [Hx' Hnd].
  apply NoDup_cons in Hnd as [Hnx' Hnd].
  assert (pr ≠ x /\ pr ≠ nx /\ x ≠ nx) as (N1 & N2 & N3) by set_solver.
  unfold unlink. apply chain_app. split; [|apply chain_cons; split].
  - apply chain_frame with h; [| |done]; intros p Hp.
    + assert (p ≠ pr /\ p ≠ x) as [? ?] by set_solver. links.
    + assert (p ∈ c1 ++ [pr]) as Hp' by (by destruct c1; cbn in *; set_solver).
      assert (p ≠ x /\ p ≠ nx) as [? ?] by (apply elem_of_app in Hp' as [?|?]; set_solver).
      links.
  - split; links.
  - destruct c2 as [|z c2 _] using rev_ind; [done|].
    change (nx :: c2 ++ [z]) with ((nx :: c2) ++ [z]) in *.
    apply chain_frame with h; [| |done]; intros p Hp.
    + assert (p ≠ pr /\ p ≠ x) as [? ?] by set_solver. links.
    + cbn in Hp. assert (p ≠ pr /\ p ≠ x /\ p ≠ nx) as (? & ? & ?) by set_solver. links.
Qed.

Lemma unlink_other pr x nx h p :
  p ≠ x -> (p ≠ pr -> nxt (unlink pr x nx h) p = nxt h p) /\
           (p ≠ nx -> prv (unlink pr x nx h) p = prv h p).
Proof. intros Hx. unfold unlink. split; intros; links. Qed.

Lemma unlink_self pr x nx h :
  nxt (unlink pr x nx h) x = None /\ prv (unlink pr x nx h) x = None.
Proof.
  unfold unlink. split; autorewrite with fqdb; rewrite decide_True by done;
    match goal with |- ?o ≫= _ = _ => by destruct o end.
Qed.

(** Linking a detached node [x] after the last node of a chain. *)
Lemma chain_snoc h c last x :
  chain h (c ++ [last]) -> is_Some (h !! last) -> is_Some (h !! x) ->
  x ∉ c ++ [last] -> last ∉ c ->
  chain (set_next last (Some x) (set_prev x (Some last) h)) ((c ++ [last]) ++ [x]).
Proof.
  intros Hc Hl Hx Hnin Hlc. rewrite <-app_assoc. cbn. apply chain_app. split.
  - apply chain_frame with h; [| |done]; intros p Hp.
    + assert (p ≠ last) by set_solver. links.
    + assert (p ≠ x) by (destruct c; cbn in *; set_solver). links.
  - split; [split; links|done].
Qed.

(** The nodes of the queue. *)
Definition nodes (l : list nat) : list bptr := PHead :: (PBlk <$> l) ++ [PTail].

Lemma nodes_NoDup l : NoDup l -> NoDup (nodes l).
Proof.
  intros Hl. unfold nodes. apply NoDup_cons. split.
  - intros Hin. apply elem_of_app in Hin as [Hin|Hin]; [|set_solver].
    apply list_elem_of_fmap in Hin as (? & ? & ?). done.
  - apply NoDup_app. split; [|split].
    + apply NoDup_fmap; [|done]. intros ?? E. by injection E.
    + intros p Hin. apply list_elem_of_fmap in Hin as (? & -> & ?). set_solver.
    + apply NoDup_singleton.
Qed.

Lemma elem_of_nodes_blk l i : PBlk i ∈ nodes l <-> i ∈ l.
Proof.
  unfold nodes. rewrite elem_of_cons, elem_of_app, list_elem_of_fmap. split.
  - intros [?|[(j & E & ?)|?]]; [done| |set_solver]. by injection E as <-.
  - intros ?. right. left. eauto.
Qed.

Lemma is_queue_alloc q l p : is_queue q l -> p ∈ nodes l -> is_Some (fq_heap q !! p).
Proof.
  intros [Hc _ _ _ _] Hp. eapply chain_is_Some; [exact Hc|exact Hp|].
  cbn. rewrite length_app. cbn. lia.
Qed.

(** Splitting the nodes around a block of the queue. *)
Lemma nodes_split l1 x l2 :
  exists c1 pr nx c2,
    PHead :: (PBlk <$> l1) = c1 ++ [pr] /\ (PBlk <$> l2) ++ [PTail] = nx :: c2 /\
    nodes (l1 ++ x :: l2) = c1 ++ pr :: PBlk x :: nx :: c2 /\
    nodes (l1 ++ l2) = c1 ++ pr :: nx :: c2.
Proof.
  destruct (exists_last (l := PHead :: (PBlk <$> l1))) as (c1 & pr & E1); [done|].
  destruct ((PBlk <$> l2) ++ [PTail]) as [|nx c2] eqn:E2; [by destruct l2|].
  exists c1, pr, nx, c2. split; [done|]. split; [done|]. unfold nodes.
  rewrite !fmap_app, fmap_cons, <-!app_assoc. cbn. rewrite E2.
  change (PHead :: (PBlk <$> l1) ++ ?c) with ((PHead :: (PBlk <$> l1)) ++ c).
  rewrite E1, <-!app_assoc. done.
Qed.

Lemma is_queue_unlink q l1 x l2 pr nx :
  is_queue q (l1 ++ x :: l2) ->
  nxt (fq_heap q) (PBlk x) = Some nx -> prv (fq_heap q) (PBlk x) = Some pr ->
  is_queue (mkQueue (unlink pr (PBlk x) nx (fq_heap q)) (num_free_blocks q - 1)) (l1 ++ l2).
Proof.
  intros [Hc Hnd Hnum Htl Hout] Hn Hp.
  destruct (nodes_split l1 x l2) as (c1 & pr' & nx' & c2 & E1 & E2 & E3 & E4).
  change (chain (fq_heap q) (nodes (l1 ++ x :: l2))) in Hc.
  pose proof (nodes_NoDup _ Hnd) as Hnn. rewrite E3 in Hc, Hnn.
  assert (Hc' := Hc). apply chain_app in Hc' as [_ [L1 [L2 _]]].
  assert (pr' = pr) as -> by (destruct L1; congruence).
  assert (nx' = nx) as -> by (destruct L2; congruence).
  assert (Hnd' := Hnd). apply NoDup_app in Hnd' as (Hn1 & Hd & Hn2).
  apply NoDup_cons in Hn2 as [Hx2 Hn2].
  assert (Hnx : forall i, nx = PBlk i -> i ∈ l2).
  { intros i ->. assert (PBlk i ∈ (PBlk <$> l2) ++ [PTail]) as Hin by (rewrite E2; set_solver).
    apply elem_of_app in Hin as [Hin|Hin]; [|set_solver].
    apply list_elem_of_fmap in Hin as (? & E & ?). by injection E as ->. }
  assert (Hpr : forall i, pr = PBlk i -> i ∈ l1).
  { intros i ->. assert (PBlk i ∈ PHead :: (PBlk <$> l1)) as Hin by (rewrite E1; set_solver).
    apply elem_of_cons in Hin as [?|Hin]; [done|].
    apply list_elem_of_fmap in Hin as (? & E & ?). by injection E as ->. }
  split; cbn.
  - change (chain (unlink pr (PBlk x) nx (fq_heap q)) (nodes (l1 ++ l2))).
    rewrite E4. by apply chain_unlink.
  - apply NoDup_app. set_solver.
  - rewrite Hnum. unfold zlen. rewrite !length_app. cbn. lia.
  - destruct (unlink_other pr (PBlk x) nx (fq_heap q) PTail) as [H _]; [done|].
    rewrite H; [done|]. intros <-.
    assert (PTail ∈ PHead :: (PBlk <$> l1)) as Hin by (rewrite E1; set_solver).
    apply elem_of_cons in Hin as [?|Hin]; [done|].
    by apply list_elem_of_fmap in Hin as (? & ? & ?).
  - intros i Hi. destruct (decide (i = x)) as [->|Hix]; [apply unlink_self|].
    destruct (unlink_other pr (PBlk x) nx (fq_heap q) (PBlk i)) as [H1 H2]; [congruence|].
    rewrite H1, H2; [apply Hout; set_solver| |].
    + intros <-. apply Hi. rewrite elem_of_app. right. by apply Hnx.
    + intros <-. apply Hi. rewrite elem_of_app. left. by apply Hpr.
Qed.

(** * The operations refine a list *)

Lemma is_queue_links q l1 x l2 :
  is_queue q (l1 ++ x :: l2) ->
  exists b pr nx, fq_heap q !! PBlk x = Some b /\
    prev_free_block b = Some pr /\ next_free_block b = Some nx.
Proof.
  intros [Hc _ _ _ _].
  destruct (nodes_split l1 x l2) as (c1 & pr & nx & c2 & _ & _ & E3 & _).
  change (chain (fq_heap q) (nodes (l1 ++ x :: l2))) in Hc. rewrite E3 in Hc.
  apply chain_app in Hc as [_ [[_ L1] [[L2 _] _]]].
  unfold nxt, prv in *. destruct (fq_heap q !! PBlk x) as [b|]; [|done].
  cbn in *. exists b, pr, nx. done.
Qed.

Lemma remove_step q l1 x l2 :
  is_queue q (l1 ++ x :: l2) ->
  exists q', remove (PBlk x) q = Ok q' /\ is_queue q' (l1 ++ l2) /\
    data_eq (fq_heap q') (fq_heap q).
Proof.
  intros Hq. destruct (is_queue_links _ _ _ _ Hq) as (b & pr & nx & Hb & Hp & Hn).
  eexists. split; [|split].
  - unfold remove, load. rewrite Hb. cbn. rewrite Hp, Hn. reflexivity.
  - apply is_queue_unlink; [done| |]; [unfold nxt|unfold prv]; by rewrite Hb.
  - apply unlink_data.
Qed.

Lemma remove_absent q l x :
  is_queue q l -> x ∉ l -> is_Some (fq_heap q !! PBlk x) ->
  remove (PBlk x) q = Err RuntimeError.
Proof.
  intros [_ _ _ _ Hout] Hx [b Hb]. destruct (Hout x Hx) as [Hn Hp].
  unfold remove, load, nxt, prv in *. rewrite Hb in *. cbn in *. by rewrite Hp.
Qed.

Lemma popleft_step q x l :
  is_queue q (x :: l) ->
  exists q', popleft q = Ok (PBlk x, q') /\ is_queue q' l /\ data_eq (fq_heap q') (fq_heap q).
Proof.
  intros Hq. destruct (is_queue_links q [] x l Hq) as (b & pr & nx & Hb & Hp & Hn).
  pose proof (iq_chain _ _ Hq) as Hc. cbn in Hc. destruct Hc as [[Hh Hx] _].
  assert (pr = PHead) as -> by (unfold prv in Hx; rewrite Hb in Hx; cbn in Hx; congruence).
  unfold nxt in Hh. destruct (fq_heap q !! PHead) as [hd|] eqn:Ehd; [|done]. cbn in Hh.
  eexists. split; [|split].
  - unfold popleft, load. rewrite Ehd. cbn. rewrite Hh, Hb. cbn. rewrite Hn. reflexivity.
  - apply (is_queue_unlink q [] x l); [done| |]; [unfold nxt|unfold prv]; by rewrite Hb.
  - apply unlink_data.
Qed.

Lemma popleft_empty q : is_queue q [] -> popleft q = Err ValueError.
Proof.
  intros [Hc _ Hnum _ _]. cbn in Hc. destruct Hc as [[Hh _] _].
  unfold popleft, load. unfold nxt in Hh.
  destruct (fq_heap q !! PHead) as [hd|]; [|done]. cbn in *. rewrite Hh, Hnum. done.
Qed.

(** The loop of [popleft_n] detaches the blocks it returns one by one. *)
Lemma popleft_n_loop_step n h l ret :
  chain h ((PBlk <$> l) ++ [PTail]) -> NoDup l -> (n <= length l)%nat ->
  exists h', popleft_n_loop n h (head ((PBlk <$> l) ++ [PTail])) ret =
      Ok (h', head ((PBlk <$> drop n l) ++ [PTail]), ret ++ (PBlk <$> take n l)) /\
    chain h' ((PBlk <$> drop n l) ++ [PTail]) /\ data_eq h' h /\
    (forall i, i ∈ take n l -> nxt h' (PBlk i) = None /\ prv h' (PBlk i) = None) /\
    (forall p, p ∉ PBlk <$> take n l -> nxt h' p = nxt h p /\ prv h' p = prv h p).
Proof.
  revert h l ret. induction n as [|n IH]; intros h l ret Hc Hnd Hn.
  { exists h. rewrite app_nil_r, drop_0, take_0. by repeat split; try set_solver. }
  destruct l as [|x l]; cbn in Hn; [lia|]. apply NoDup_cons in Hnd as [Hx Hnd].
  cbn [fmap list_fmap app head] in *.
  assert (exists nx c, (PBlk <$> l) ++ [PTail] = nx :: c) as (nx & c & E).
  { destruct l; cbn; eauto. }
  assert (Hc' := Hc). rewrite E in Hc'. destruct Hc' as [[Hnx _] Hc'].
  assert (Hnxb := Hnx). unfold nxt in Hnxb. cbn [popleft_n_loop]. unfold load.
  destruct (h !! PBlk x) as [b|] eqn:Hb; [|done]. cbn in Hnxb |- *.
  rewrite Hnxb. set (h1 := set_next (PBlk x) None (set_prev (PBlk x) None h)).
  assert (Hoth : forall p, p ≠ PBlk x -> nxt h1 p = nxt h p /\ prv h1 p = prv h p).
  { intros p Hp. unfold h1. split; links. }
  destruct (IH h1 l (ret ++ [PBlk x])) as (h' & E1 & E2 & E3 & E4 & E5); [| done | lia |].
  { apply chain_frame with h.
    - intros p Hp. apply Hoth. set_solver.
    - intros p Hp. apply Hoth. destruct l; cbn in Hp; set_solver.
    - rewrite E. done. }
  exists h'. rewrite E in E1 at 1. cbn in E1. rewrite E1. cbn [drop take].
  split; [by rewrite <-app_assoc|]. split; [done|]. split.
  { rewrite E3. unfold h1. by rewrite set_next_data, set_prev_data. }
  assert (Hself : nxt h1 (PBlk x) = None /\ prv h1 (PBlk x) = None).
  { unfold h1. split; autorewrite with fqdb; rewrite decide_True by done;
      match goal with |- ?o ≫= _ = _ => by destruct o end. }
  split.
  - intros i Hi. destruct (decide (i ∈ take n l)) as [?|Hni]; [by apply E4|].
    apply elem_of_cons in Hi as [->|?]; [|done].
    destruct (E5 (PBlk x)) as [-> ->]; [|done].
    rewrite list_elem_of_fmap. intros (j & Ej & Hj). by injection Ej as <-.
  - intros p Hp. cbn [fmap list_fmap] in Hp. apply not_elem_of_cons in Hp as [Hpx Hp].
    destruct (E5 p Hp) as [-> ->]. by apply Hoth.
Qed.

Lemma data_eq_is_Some h h' p : data_eq h' h -> is_Some (h !! p) -> is_Some (h' !! p).
Proof.
  intros E [b Hb]. destruct (data_eq_lookup h h' p b) as (b' & -> & _); [by symmetry|done|eauto].
Qed.

Lemma popleft_n_step q l n :
  is_queue q l -> 0 <= n <= zlen l ->
  exists q', popleft_n n q = Ok (PBlk <$> take (Z.to_nat n) l, q') /\
    is_queue q' (drop (Z.to_nat n) l) /\ data_eq (fq_heap q') (fq_heap q).
Proof.
  intros Hq Hn. unfold popleft_n. destruct (Z.eqb_spec n 0) as [->|Hn0].
  { exists q. by rewrite drop_0. }
  pose proof (fun p => is_queue_alloc q l p Hq) as Halloc.
  destruct Hq as [Hc Hnd Hnum Htl Hout]. rewrite Hnum.
  assert (Hnl : (Z.to_nat n <= length l)%nat) by (unfold zlen in *; lia).
  replace (n <=? zlen l) with true by (symmetry; apply Z.leb_le; lia). cbn [mbind result_bind assert_].
  destruct (Halloc PHead) as [hd Ehd]; [unfold nodes; set_solver|].
  unfold load. rewrite Ehd. cbn [get_or mbind result_bind].
  assert (Hhd : next_free_block hd = head ((PBlk <$> l) ++ [PTail])).
  { destruct ((PBlk <$> l) ++ [PTail]) as [|c cs] eqn:Ec; [by destruct l|].
    destruct Hc as [[Hh _] _]. unfold nxt in Hh. by rewrite Ehd in Hh. }
  assert (Hc' : chain (fq_heap q) ((PBlk <$> l) ++ [PTail])).
  { destruct ((PBlk <$> l) ++ [PTail]); [done|]. apply Hc. }
  destruct (popleft_n_loop_step (Z.to_nat n) (fq_heap q) l [] Hc' Hnd Hnl)
    as (h' & E1 & E2 & E3 & E4 & E5).
  rewrite Hhd, E1. cbn [mbind result_bind].
  destruct ((PBlk <$> drop (Z.to_nat n) l) ++ [PTail]) as [|c cs] eqn:Ec;
    [by destruct (PBlk <$> drop (Z.to_nat n) l)|].
  assert (Hin : forall p, p ∈ c :: cs -> p = PTail \/ exists i, p = PBlk i /\ i ∈ drop (Z.to_nat n) l).
  { intros p. rewrite <-Ec, elem_of_app, list_elem_of_fmap.
    intros [?|?%list_elem_of_singleton]; [by right|by left]. }
  assert (Hsub : forall i, i ∈ drop (Z.to_nat n) l -> i ∈ l /\ i ∉ take (Z.to_nat n) l).
  { intros i Hi. rewrite <-(take_drop (Z.to_nat n) l) in Hnd |- *.
    apply NoDup_app in Hnd as (_ & Hd & _).
    split; [rewrite elem_of_app; by right|]. rewrite take_drop. intros Ht. by eapply Hd. }
  assert (Hpres : forall p, p ∈ nodes l -> is_Some (h' !! p)).
  { intros p Hp. eapply data_eq_is_Some; [exact E3|by apply Halloc]. }
  assert (HPH : is_Some (h' !! PHead)) by (apply Hpres; unfold nodes; set_solver).
  assert (Hcs : is_Some (h' !! c)).
  { apply Hpres. destruct (Hin c) as [->|(i & -> & Hi)]; [set_solver|unfold nodes; set_solver|].
    apply elem_of_nodes_blk. by apply Hsub. }
  eexists. split; [reflexivity|].
  split; [|cbn; by rewrite set_prev_data, set_next_data].
  assert (Hcne : c ≠ PHead /\ c ∉ cs).
  { assert (NoDup (PHead :: c :: cs)) as Hnn.
    { rewrite <-Ec. apply nodes_NoDup. rewrite <-(take_drop (Z.to_nat n) l) in Hnd.
      by apply NoDup_app in Hnd as (_ & _ & ?). }
    apply NoDup_cons in Hnn as [? Hnn]. apply NoDup_cons in Hnn as [? _]. set_solver. }
  destruct Hcne as [Hcne Hccs].
  split; cbn [fq_heap num_free_blocks].
  - rewrite Ec. split; [split; links|].
    destruct cs as [|z cs _] using rev_ind; [done|].
    change (c :: cs ++ [z]) with ((c :: cs) ++ [z]) in *.
    apply chain_frame with h'; [| |done]; intros p Hp.
    + assert (p ≠ PHead) by (destruct (Hin p) as [->|(?&->&?)]; [set_solver|done|done]). links.
    + cbn in Hp. assert (p ≠ c) by set_solver. links.
  - rewrite <-(take_drop (Z.to_nat n) l) in Hnd. by apply NoDup_app in Hnd as (_ & _ & ?).
  - unfold zlen in *. rewrite length_drop. lia.
  - links. destruct (E5 PTail) as [-> _]; [|done].
    rewrite list_elem_of_fmap. by intros (? & ? & _).
  - intros i Hi.
    assert (c ≠ PBlk i).
    { intros ->. destruct (Hin (PBlk i)) as [?|(j & Ej & Hj)]; [set_solver|done|]. by injection Ej as ->. }
    assert (nxt h' (PBlk i) = None /\ prv h' (PBlk i) = None) as [H1 H2].
    { destruct (decide (i ∈ take (Z.to_nat n) l)) as [?|Hni]; [by apply E4|].
      destruct (E5 (PBlk i)) as [-> ->].
      - rewrite list_elem_of_fmap. intros (j & Ej & ?). by injection Ej as <-.
      - apply Hout. rewrite <-(take_drop (Z.to_nat n) l), elem_of_app. tauto. }
    split; links.
Qed.

(** Linking a list of detached nodes after the last one. *)
Lemma append_link_fold h c last ps :
  chain h (c ++ [last]) -> (forall p, p ∈ last :: ps -> is_Some (h !! p)) ->
  NoDup (c ++ last :: ps) ->
  let r := foldl append_link (h, last) ps in
  chain (fst r) (c ++ last :: ps) /\ c ++ last :: ps = (c ++ removelast (last :: ps)) ++ [snd r] /\
  data_eq (fst r) h /\
  (forall p, p ∉ removelast (last :: ps) -> nxt (fst r) p = nxt h p) /\
  (forall p, p ∉ ps -> prv (fst r) p = prv h p).
Proof.
  revert h c last. induction ps as [|x ps IH]; intros h c last Hc Hpres Hnd.
  { cbn. rewrite app_nil_r. by repeat split. }
  cbn [foldl append_link].
  assert (Hnx : x ∉ c ++ [last] /\ last ∉ c /\ x ≠ last /\ x ∉ ps /\ last ∉ ps).
  { apply NoDup_app in Hnd as (_ & Hd & Hnd). apply NoDup_cons in Hnd as [Hl Hnd].
    apply NoDup_cons in Hnd as [Hx _]. clear -Hd Hl Hx. set_solver. }
  destruct Hnx as (Hx & Hl & Hxl & Hxps & Hlps).
  set (h1 := set_next last (Some x) (set_prev x (Some last) h)).
  destruct (IH h1 (c ++ [last]) x) as (E1 & E2 & E3 & E4 & E5).
  - apply chain_snoc; [done| | |done|done]; apply Hpres; rewrite !elem_of_cons; eauto.
  - intros p Hp. unfold h1. autorewrite with fqdb. apply Hpres. rewrite elem_of_cons; eauto.
  - by rewrite <-app_assoc.
  - rewrite <-app_assoc in E1, E2. cbn [app] in E1, E2. split; [done|]. split.
    { change (removelast (last :: x :: ps)) with (last :: removelast (x :: ps)).
      rewrite E2. rewrite <-!app_assoc. done. }
    split; [rewrite E3; unfold h1; by rewrite set_next_data, set_prev_data|].
    change (removelast (last :: x :: ps)) with (last :: removelast (x :: ps)).
    split; intros p Hp; rewrite not_elem_of_cons in Hp; destruct Hp as [Hp1 Hp2].
    + rewrite E4 by done. unfold h1. links.
    + rewrite E5 by done. unfold h1. links.
Qed.

Lemma append_n_step q l xs :
  is_queue q l -> NoDup (l ++ xs) -> (forall x, x ∈ xs -> is_Some (fq_heap q !! PBlk x)) ->
  exists q', append_n (PBlk <$> xs) q = Ok q' /\ is_queue q' (l ++ xs) /\
    data_eq (fq_heap q') (fq_heap q).
Proof.
  intros Hq Hnd Hpres. unfold append_n. case_decide as Hxs.
  { apply fmap_nil_inv in Hxs as ->. exists q. by rewrite app_nil_r. }
  pose proof (fun p => is_queue_alloc q l p Hq) as Halloc.
  destruct Hq as [Hc Hndl Hnum Htl Hout].
  destruct (exists_last (l := PHead :: (PBlk <$> l))) as (c & lastb & E); [done|].
  change (chain (fq_heap q) ((PHead :: (PBlk <$> l)) ++ [PTail])) in Hc.
  rewrite E, <-app_assoc in Hc. cbn [app] in Hc. apply chain_app in Hc as [Hc [[Hln Hlp] _]].
  unfold load. destruct (Halloc PTail) as [tl Etl]; [unfold nodes; set_solver|].
  rewrite Etl. cbn [get_or mbind result_bind].
  assert (prev_free_block tl = Some lastb) as -> by (unfold prv in Hlp; by rewrite Etl in Hlp).
  pose proof (nodes_NoDup _ Hnd) as Hnn. unfold nodes in Hnn.
  rewrite fmap_app, <-app_assoc in Hnn.
  change (PHead :: (PBlk <$> l) ++ (PBlk <$> xs) ++ [PTail])
    with ((PHead :: (PBlk <$> l)) ++ (PBlk <$> xs) ++ [PTail]) in Hnn.
  rewrite E, <-app_assoc in Hnn. cbn [app] in Hnn.
  change (lastb :: (PBlk <$> xs) ++ [PTail]) with ((lastb :: (PBlk <$> xs)) ++ [PTail]) in Hnn.
  rewrite app_assoc in Hnn. apply NoDup_app in Hnn as (Hnn & Htlx & _).
  destruct (append_link_fold (fq_heap q) c lastb (PBlk <$> xs)) as (E1 & E2 & E3 & E4 & E5);
    [done| |done|].
  { intros p Hp. apply elem_of_cons in Hp as [->|Hp]; [by eapply nxt_is_Some|].
    apply list_elem_of_fmap in Hp as (x & -> & Hx). by apply Hpres. }
  destruct (foldl append_link (fq_heap q, lastb) (PBlk <$> xs)) as [h last'].
  cbn [fst snd] in *. eexists. split; [reflexivity|].
  split; [|cbn; by rewrite set_prev_data, set_next_data].
  assert (HnT : PTail ∉ c ++ lastb :: (PBlk <$> xs)).
  { intros Hin. by eapply Htlx; [exact Hin|set_solver]. }
  rewrite E2 in E1, HnT, Hnn.
  assert (Hlast : is_Some (h !! last')).
  { destruct (removelast (lastb :: (PBlk <$> xs))) eqn:Er.
    - destruct xs; [done|]. by destruct xs.
    - eapply chain_is_Some; [exact E1|set_solver|]. rewrite !length_app. cbn. lia. }
  assert (HT : is_Some (h !! PTail)) by (eapply data_eq_is_Some; [exact E3|eauto]).
  split; cbn [fq_heap num_free_blocks].
  - rewrite fmap_app.
    replace (PHead :: ((PBlk <$> l) ++ (PBlk <$> xs)) ++ [PTail])
      with (((c ++ removelast (lastb :: (PBlk <$> xs))) ++ [last']) ++ [PTail]).
    2:{ rewrite <-E2. change (lastb :: (PBlk <$> xs)) with ([lastb] ++ (PBlk <$> xs)).
        rewrite (app_assoc c), <-E. by rewrite <-!app_assoc. }
    rewrite <-app_assoc. cbn [app]. apply chain_app.
    apply NoDup_app in Hnn as (_ & Hd & _).
    split; [|split; [split; links; set_solver|done]].
    apply chain_frame with h; [| |done]; intros p Hp.
    + assert (p ≠ last') by (intros ->; by eapply Hd; [exact Hp|set_solver]). links.
    + assert (p ≠ PTail).
      { intros ->. apply HnT. destruct (c ++ removelast _); cbn in Hp; set_solver. }
      links.
  - done.
  - unfold zlen in *. rewrite length_app, length_fmap. lia.
  - assert (last' ≠ PTail) by (intros ->; set_solver).
    links. rewrite E4; [done|]. intros Hin. apply HnT. set_solver.
  - intros i Hi. rewrite elem_of_app in Hi.
    assert (PBlk i ∉ (c ++ removelast (lastb :: (PBlk <$> xs))) ++ [last']) as Hni.
    { rewrite <-E2. change (lastb :: (PBlk <$> xs)) with ([lastb] ++ (PBlk <$> xs)).
      rewrite app_assoc, <-E, elem_of_app, elem_of_cons, !list_elem_of_fmap.
      intros [[?|(? & Ej & ?)]|(? & Ej & ?)]; [done| |]; injection Ej as ->; tauto. }
    assert (last' ≠ PBlk i) by (intros ->; set_solver).
    destruct (Hout i) as [H1 H2]; [tauto|].
    split; links.
    + rewrite E4; [done|]. set_solver.
    + rewrite E5; [done|]. rewrite list_elem_of_fmap. intros (? & Ej & ?). injection Ej as ->. tauto.
Qed.

Lemma set_next_set_prev_comm p q x y h :
  set_next p x (set_prev q y h) = set_prev q y (set_next p x h).
Proof.
  apply map_eq. intros r. unfold set_next, set_prev. rewrite !lookup_alter.
  repeat case_decide; subst; try done. by destruct (h !! r).
Qed.

(** [append] is [append_n] of one block, up to the exception raised when the
    tail sentinel is corrupted. *)
Lemma append_as_append_n q p :
  is_Some (prv (fq_heap q) PTail) -> append p q = append_n [p] q.
Proof.
  intros [lastb Hl]. unfold append, append_n, load. rewrite decide_False by done.
  unfold prv in Hl. destruct (fq_heap q !! PTail) as [tl|]; [|done].
  cbn in *. rewrite Hl. by rewrite (set_next_set_prev_comm lastb p).
Qed.

Lemma append_step q l x :
  is_queue q l -> x ∉ l -> is_Some (fq_heap q !! PBlk x) ->
  exists q', append (PBlk x) q = Ok q' /\ is_queue q' (l ++ [x]) /\
    data_eq (fq_heap q') (fq_heap q).
Proof.
  intros Hq Hx Hp. rewrite append_as_append_n.
  - apply (append_n_step q l [x]); [done| |set_solver].
    apply NoDup_app. split; [apply Hq|]. split; [set_solver|apply NoDup_singleton].
  - destruct (exists_last (l := PHead :: (PBlk <$> l))) as (c & lastb & E); [done|].
    pose proof (iq_chain _ _ Hq) as Hc.
    change (chain (fq_heap q) ((PHead :: (PBlk <$> l)) ++ [PTail])) in Hc.
    rewrite E, <-app_assoc in Hc. apply chain_app in Hc as [_ [[_ ?] _]]. eauto.
Qed.

Lemma walk_chain h c ret fuel :
  chain h (c ++ [PTail]) -> is_Some (h !! PTail) -> nxt h PTail = None ->
  (length c < fuel)%nat ->
  exists p, head (c ++ [PTail]) = Some p /\ walk fuel h p ret = Ok (ret ++ c).
Proof.
  revert ret fuel. induction c as [|x c IH]; intros ret fuel Hc HT Hn Hf;
    (destruct fuel as [|f]; [cbn in Hf; lia|]).
  - exists PTail. split; [done|]. cbn. unfold load. destruct HT as [b Hb].
    unfold nxt in Hn. rewrite Hb in *. cbn in *. by rewrite Hn, app_nil_r.
  - exists x. split; [done|]. cbn in Hf. cbn [app] in Hc.
    assert (exists z c', c ++ [PTail] = z :: c') as (z & c' & E) by (destruct c; cbn; eauto).
    rewrite E in Hc. destruct Hc as [[Hx _] Hc]. rewrite <-E in Hc.
    destruct (IH (ret ++ [x]) f) as (p & Ep & Ew); [done..|lia|].
    rewrite E in Ep. injection Ep as ->. cbn. unfold load, nxt in *.
    destruct (h !! x) as [b|]; [|done]. cbn in *. rewrite Hx, Ew. by rewrite <-app_assoc.
Qed.

Lemma get_all_free_blocks_list q l fuel :
  is_queue q l -> (length l < fuel)%nat ->
  get_all_free_blocks fuel q = Ok (PBlk <$> l).
Proof.
  intros Hq Hf. pose proof (fun p => is_queue_alloc q l p Hq) as Halloc.
  destruct Hq as [Hc _ _ Htl _]. unfold get_all_free_blocks, load.
  destruct (Halloc PHead) as [hd Ehd]; [unfold nodes; set_solver|]. rewrite Ehd. cbn [get_or mbind result_bind].
  destruct (walk_chain (fq_heap q) (PBlk <$> l) [] fuel) as (p & Ep & Ew).
  - destruct ((PBlk <$> l) ++ [PTail]); [done|]. apply Hc.
  - apply Halloc. unfold nodes. set_solver.
  - done.
  - by rewrite length_fmap.
  - destruct ((PBlk <$> l) ++ [PTail]) as [|p' c]; [done|]. injection Ep as ->.
    destruct Hc as [[Hh _] _]. unfold nxt in Hh. rewrite Ehd in Hh. cbn in Hh. by rewrite Hh.
Qed.

(** ** Initialisation *)

Lemma alloc_blocks_lookup n i :
  alloc_blocks n !! PBlk i = if decide (i < n)%nat then Some (new_block (Z.of_nat i)) else None.
Proof.
  unfold alloc_blocks. case_decide as Hi.
  - apply elem_of_list_to_map.
    + rewrite <-list_fmap_compose. apply NoDup_fmap; [|apply NoDup_seq].
      intros ?? E. by injection E.
    + apply list_elem_of_fmap. exists i. split; [done|]. apply elem_of_seq. lia.
  - apply not_elem_of_list_to_map. rewrite <-list_fmap_compose, list_elem_of_fmap.
    intros (j & E & Hj%elem_of_seq). injection E as ->. lia.
Qed.

Lemma alloc_blocks_sentinel n p : p = PHead \/ p = PTail -> alloc_blocks n !! p = None.
Proof.
  intros Hp. apply not_elem_of_list_to_map. rewrite <-list_fmap_compose, list_elem_of_fmap.
  intros (j & E & _). cbn in E. by destruct Hp; subst.
Qed.

(** The block [i] after the first [k] iterations of the linking loop. *)
Definition linked_block (n k i : nat) : KVCacheBlock :=
  mkBlock (Z.of_nat i) 0 None
    (if decide (0 < i /\ i < k)%nat then Some (PBlk (i - 1)) else None)
    (if decide (i + 1 < n /\ i < k)%nat then Some (PBlk (i + 1)) else None) false.

Lemma link_loop_lookup n k i :
  (k <= n)%nat ->
  foldl (link_one n) (alloc_blocks n) (seq 0 k) !! PBlk i =
    if decide (i < n)%nat then Some (linked_block n k i) else None.
Proof.
  induction k as [|k IH]; intros Hk.
  - cbn. rewrite alloc_blocks_lookup. case_decide; [|done].
    unfold linked_block. rewrite !decide_False by lia. done.
  - rewrite seq_S, foldl_app. cbn [foldl]. unfold link_one at 1. cbn [plus].
    unfold set_next, set_prev, linked_block in *.
    destruct (decide (i = k)) as [->|Hik].
    + repeat case_decide; rewrite ?lookup_alter_eq, ?IH by lia;
        rewrite ?decide_True by lia; cbn; try lia; try done;
        repeat case_decide; try lia; done.
    + repeat case_decide; rewrite ?lookup_alter_ne, ?IH by (lia || congruence);
        repeat case_decide; try lia; try done.
Qed.

Lemma queue_init_lookup n i :
  (0 < n)%nat ->
  fq_heap (queue_init n (alloc_blocks n)) !! PBlk i =
    if decide (i < n)%nat then
      Some (mkBlock (Z.of_nat i) 0 None
        (Some (if decide (i = 0)%nat then PHead else PBlk (i - 1)))
        (Some (if decide (i = n - 1)%nat then PTail else PBlk (i + 1))) false)
    else None.
Proof.
  intros Hn. unfold queue_init. rewrite decide_True by done. cbn [fq_heap].
  unfold set_next, set_prev.
  rewrite !lookup_alter, !lookup_insert.
  rewrite !(decide_False (P := PTail = _)), !(decide_False (P := PHead = _)) by done.
  rewrite !link_loop_lookup by lia. unfold linked_block.
  destruct (decide (i < n)%nat) as [Hi|Hi].
  2:{ repeat case_decide; simplify_eq; (done || lia). }
  destruct (decide (i = 0)%nat) as [Hi0|Hi0]; destruct (decide (i = n - 1)%nat) as [Hin|Hin];
    repeat case_decide; simplify_eq; try congruence; try lia; try done.
Qed.

Lemma queue_init_sentinels n h :
  (0 < n)%nat ->
  fq_heap (queue_init n h) !! PHead = Some (mkBlock (-1) 0 None None (Some (PBlk 0)) false) /\
  fq_heap (queue_init n h) !! PTail = Some (mkBlock (-1) 0 None (Some (PBlk (n - 1))) None false).
Proof.
  intros Hn. unfold queue_init. rewrite decide_True by done. cbn [fq_heap].
  unfold set_next, set_prev. rewrite !lookup_alter, !lookup_insert.
  by repeat (rewrite decide_True by done || rewrite decide_False by done).
Qed.

Lemma queue_init_is_queue n :
  (0 < n)%nat -> is_queue (queue_init n (alloc_blocks n)) (seq 0 n).
Proof.
  intros Hn. destruct (queue_init_sentinels n (alloc_blocks n) Hn) as [Hhd Htl].
  assert (Hb := fun i => queue_init_lookup n i Hn).
  split.
  - apply chain_lookup. intros i p q Hp Hq. unfold linked, nxt, prv.
    destruct i as [|i].
    + cbn in Hp. injection Hp as <-. rewrite Hhd.
      destruct n as [|n]; [lia|]. cbn in Hq. injection Hq as <-. rewrite Hb.
      by rewrite !decide_True by lia.
    + rewrite lookup_cons in Hp, Hq.
      assert (Hi : (i < n)%nat).
      { apply lookup_lt_Some in Hq. rewrite length_app, length_fmap, length_seq in Hq. cbn in Hq. lia. }
      rewrite lookup_app_l in Hp by (by rewrite length_fmap, length_seq).
      rewrite list_lookup_fmap, lookup_seq_lt in Hp by done. cbn in Hp. injection Hp as <-.
      rewrite Hb. rewrite decide_True by done. cbn [mbind option_bind next_free_block].
      destruct (decide (i = n - 1)%nat) as [->|Hin].
      * rewrite lookup_app_r in Hq by (rewrite length_fmap, length_seq; lia).
        rewrite length_fmap, length_seq in Hq.
        replace (S (n - 1) - n)%nat with 0%nat in Hq by lia. injection Hq as <-.
        by rewrite Htl.
      * rewrite lookup_app_l in Hq by (rewrite length_fmap, length_seq; lia).
        rewrite list_lookup_fmap, lookup_seq_lt in Hq by lia. cbn in Hq. injection Hq as <-.
        rewrite Hb. rewrite decide_True by lia. rewrite decide_False by lia. cbn.
        split; do 2 f_equal; lia.
  - apply NoDup_seq.
  - cbn. unfold zlen. by rewrite length_seq.
  - unfold nxt. by rewrite Htl.
  - intros i Hi. unfold nxt, prv. rewrite Hb, decide_False; [done|].
    intros ?. apply Hi. apply elem_of_seq. lia.
Qed.

Lemma queue_init_empty : is_queue (queue_init 0 (alloc_blocks 0)) [].
Proof. split; [done|constructor|done|done|]. intros i _. by unfold nxt, prv. Qed.

Lemma queue_init_all n : is_queue (queue_init n (alloc_blocks n)) (seq 0 n).
Proof. destruct n; [apply queue_init_empty|apply queue_init_is_queue; lia]. Qed.

Lemma queue_init_present n i : (i < n)%nat -> is_Some (fq_heap (queue_init n (alloc_blocks n)) !! PBlk i).
Proof. intros Hi. rewrite queue_init_lookup, decide_True by lia. by eexists. Qed.

(** * The queue as an abstract data type *)

Inductive free_op :=
| FPopleft
| FPopleftN (n : Z)
| FRemove (i : nat)
| FAppend (i : nat)
| FAppendN (xs : list nat).

Definition free_exec (q : FreeKVCacheBlockQueue) (op : free_op) : result (list bptr * FreeKVCacheBlockQueue) :=
  match op with
  | FPopleft => '(p, q) ← popleft q; Ok ([p], q)
  | FPopleftN n => popleft_n n q
  | FRemove i => q ← remove (PBlk i) q; Ok ([], q)
  | FAppend i => q ← append (PBlk i) q; Ok ([], q)
  | FAppendN xs => q ← append_n (PBlk <$> xs) q; Ok ([], q)
  end.

(** The contract: blocks leave at the front or from the middle and enter at
    the back, in order; the two misuses the code detects are errors. *)
Definition free_spec (l : list nat) (op : free_op) : result (list bptr * list nat) :=
  match op with
  | FPopleft => match l with [] => Err ValueError | x :: l => Ok ([PBlk x], l) end
  | FPopleftN n =>
      if zlen l <? n then Err AssertionError
      else Ok (PBlk <$> take (Z.to_nat n) l, drop (Z.to_nat n) l)
  | FRemove i => if decide (i ∈ l) then Ok ([], filter (fun x => x ≠ i) l) else Err RuntimeError
  | FAppend i => Ok ([], l ++ [i])
  | FAppendN xs => Ok ([], l ++ xs)
  end.

(** What the caller guarantees: counts are not negative and only blocks of the
    pool that are not in the queue are appended. *)
Definition free_pre (n : nat) (l : list nat) (op : free_op) : Prop :=
  match op with
  | FPopleft => True
  | FPopleftN k => 0 <= k
  | FRemove i => (i < n)%nat
  | FAppend i => (i < n)%nat /\ i ∉ l
  | FAppendN xs => Forall (fun x => (x < n)%nat) xs /\ NoDup (l ++ xs)
  end.

(** Runs a sequence; an operation that raises leaves the state as it was. *)
Fixpoint run_free {Q} (step : Q -> free_op -> result (list bptr * Q)) (q : Q) (ops : list free_op)
    : list (result (list bptr)) * Q :=
  match ops with
  | [] => ([], q)
  | op :: ops =>
      match step q op with
      | Ok (r, q') => let '(rs, q'') := run_free step q' ops in (Ok r :: rs, q'')
      | Err e => let '(rs, q'') := run_free step q ops in (Err e :: rs, q'')
      end
  end.

Fixpoint free_admissible (n : nat) (l : list nat) (ops : list free_op) : Prop :=
  match ops with
  | [] => True
  | op :: ops => free_pre n l op /\ free_admissible n (match free_spec l op with Ok (_, l') => l' | Err _ => l end) ops
  end.

Lemma filter_ne_app l1 l2 (x : nat) : NoDup (l1 ++ x :: l2) -> filter (fun y => y ≠ x) (l1 ++ x :: l2) = l1 ++ l2.
Proof.
  intros (_ & H1 & H2)%NoDup_app. apply NoDup_cons in H2 as [H2 _].
  rewrite filter_app, filter_cons_False by tauto.
  rewrite !filter_all; [done|set_solver|]. intros y Hy ->. apply (H1 x Hy). apply list_elem_of_here.
Qed.

(** The concrete queue and the list stay related, with the same outcome. *)
Definition free_sim (n : nat) (q : FreeKVCacheBlockQueue) (l : list nat) : Prop :=
  is_queue q l /\ forall i, (i < n)%nat -> is_Some (fq_heap q !! PBlk i).

Lemma free_sim_data n q q' l l' :
  free_sim n q l -> is_queue q' l' -> data_eq (fq_heap q') (fq_heap q) -> free_sim n q' l'.
Proof.
  intros [_ Hp] Hq' Hd. split; [done|]. intros i Hi. specialize (Hd (PBlk i)).
  destruct (Hp i Hi) as [b Hb]. rewrite Hb in Hd. by destruct (fq_heap q' !! PBlk i).
Qed.

Lemma free_op_step n q l op :
  free_sim n q l -> free_pre n l op ->
  match free_spec l op with
  | Ok (r, l') => exists q', free_exec q op = Ok (r, q') /\ free_sim n q' l'
  | Err e => free_exec q op = Err e
  end.
Proof.
  intros Hs Hpre. pose proof Hs as [Hq Hp]. destruct op as [|k|i|i|xs]; cbn [free_spec free_exec free_pre] in *.
  - destruct l as [|x l]; [by rewrite (popleft_empty q Hq)|].
    destruct (popleft_step q x l Hq) as (q' & -> & Hq' & Hd). exists q'. split; [done|]. by eapply free_sim_data.
  - destruct (Z.ltb_spec (zlen l) k) as [Hk|Hk].
    + unfold popleft_n. rewrite (iq_num _ _ Hq). pose proof (zlen_nonneg l).
      destruct (Z.eqb_spec k 0); [lia|]. destruct (Z.leb_spec k (zlen l)); [lia|done].
    + destruct (popleft_n_step q l k Hq ltac:(lia)) as (q' & -> & Hq' & Hd). exists q'. split; [done|]. by eapply free_sim_data.
  - case_decide as Hi.
    + apply list_elem_of_split in Hi as (l1 & l2 & ->).
      rewrite filter_ne_app by apply (iq_nodup _ _ Hq).
      destruct (remove_step q l1 i l2 Hq) as (q' & -> & Hq' & Hd). exists q'. split; [done|]. by eapply free_sim_data.
    + by rewrite (remove_absent q l i Hq Hi (Hp i Hpre)).
  - destruct Hpre as [Hi Hl]. destruct (append_step q l i Hq Hl (Hp i Hi)) as (q' & -> & Hq' & Hd).
    exists q'. split; [done|]. by eapply free_sim_data.
  - destruct Hpre as [Hxs Hnd]. rewrite Forall_forall in Hxs.
    destruct (append_n_step q l xs Hq Hnd ltac:(auto)) as (q' & -> & Hq' & Hd).
    exists q'. split; [done|]. by eapply free_sim_data.
Qed.

Lemma free_run n ops : forall q l, free_sim n q l -> free_admissible n l ops ->
  (run_free free_exec q ops).1 = (run_free free_spec l ops).1 /\
  free_sim n (run_free free_exec q ops).2 (run_free free_spec l ops).2.
Proof.
  induction ops as [|op ops IH]; intros q l Hs Hadm; [done|]. destruct Hadm as [Hpre Hadm].
  pose proof (free_op_step n q l op Hs Hpre) as Hstep. cbn [run_free].
  destruct (free_spec l op) as [[r l']|e].
  - destruct Hstep as (q' & -> & Hs'). destruct (IH q' l' Hs' Hadm) as [H1 H2].
    destruct (run_free free_exec q' ops), (run_free free_spec l' ops). cbn in *. by subst.
  - rewrite Hstep. destruct (IH q l Hs Hadm) as [H1 H2].
    destruct (run_free free_exec q ops), (run_free free_spec l ops). cbn in *. by subst.
Qed.

Lemma free_spec_bound n ops : forall l, (forall i, i ∈ l -> (i < n)%nat) -> NoDup l -> free_admissible n l ops ->
  (length (run_free free_spec l ops).2 <= n)%nat.
Proof.
  induction ops as [|op ops IH]; intros l Hl Hnd Hadm.
  - cbn. rewrite <-(length_seq n 0). apply submseteq_length, NoDup_submseteq; [done|].
    intros i Hi. apply elem_of_seq. specialize (Hl i Hi). lia.
  - destruct Hadm as [Hpre Hadm]. cbn [run_free].
    assert (Hnext : match free_spec l op with Ok (_, l') => (forall i, i ∈ l' -> (i < n)%nat) /\ NoDup l' | Err _ => True end).
    { destruct op as [|k|i|i|xs]; cbn [free_spec free_pre] in *.
      - destruct l as [|x l]; [done|]. apply NoDup_cons in Hnd as [_ ?]. set_solver.
      - destruct (zlen l <? k); [done|]. split; [intros i Hi; apply Hl; rewrite <-(take_drop (Z.to_nat k) l), elem_of_app; by right|].
        rewrite <-(take_drop (Z.to_nat k)) in Hnd. by apply NoDup_app in Hnd as (_ & _ & ?).
      - case_decide; [|done]. split; [intros j [_ Hj]%list_elem_of_filter; auto|by apply NoDup_filter].
      - destruct Hpre as [Hi Hil]. split; [set_solver|]. apply NoDup_app. split_and!; [done|set_solver|apply NoDup_singleton].
      - destruct Hpre as [Hxs ?]. rewrite Forall_forall in Hxs. split; [|done]. intros j [?|?]%elem_of_app; auto. }
    destruct (free_spec l op) as [[r l']|e].
    + destruct Hnext as [H1 H2]. specialize (IH l' H1 H2 Hadm). by destruct (run_free free_spec l' ops).
    + specialize (IH l Hl Hnd Hadm). by destruct (run_free free_spec l ops).
Qed.

(** C17: The doubly linked free list is a plain list of block numbers: starting from
    the queue of [n] fresh blocks, every sequence of operations that respects
    the callers' obligations returns the same blocks and raises the same
    errors as the list specification, the traversal of the final queue
    terminates and yields the specified blocks in order, and the counter is
    their number. *)
Theorem free_queue_refines (n : nat) (ops : list free_op) :
  free_admissible n (seq 0 n) ops ->
  let '(rs, q) := run_free free_exec (queue_init n (alloc_blocks n)) ops in
  let '(rs', l) := run_free free_spec (seq 0 n) ops in
  rs = rs' /\ get_all_free_blocks (S n) q = Ok (PBlk <$> l) /\ num_free_blocks q = zlen l.
Proof.
  intros Hadm. assert (Hs : free_sim n (queue_init n (alloc_blocks n)) (seq 0 n)).
  { split; [apply queue_init_all|apply queue_init_present]. }
  pose proof (free_run n ops _ _ Hs Hadm) as [Hr [Hq _]].
  pose proof (free_spec_bound n ops (seq 0 n) ltac:(intros i Hi%elem_of_seq; lia) (NoDup_seq 0 n) Hadm) as Hb.
  destruct (run_free free_exec _ ops) as [rs q], (run_free free_spec _ ops) as [rs' l]. cbn [fst snd] in *.
  split; [done|]. split; [apply get_all_free_blocks_list; [done|lia]|apply (iq_num _ _ Hq)].
Qed.

Lemma free_queue_refines_witness :
  let ops := [FRemove 1; FPopleftN 2; FPopleft; FAppend 2; FRemove 0; FAppendN [1; 0]%nat; FPopleftN 7] in
  exists rs q, run_free free_exec (queue_init 4 (alloc_blocks 4)) ops = (rs, q) /\
    rs = [Ok []; Ok [PBlk 0; PBlk 2]; Ok [PBlk 3]; Ok []; Err RuntimeError; Ok []; Err AssertionError] /\
    get_all_free_blocks 5 q = Ok [PBlk 2; PBlk 1; PBlk 0].
Proof.
  intros ops.
  assert (H := free_queue_refines 4 ops).
  destruct (run_free free_exec (queue_init 4 (alloc_blocks 4)) ops) as [rs q]. exists rs, q. split; [done|].
  destruct H as (-> & H & _); [|split; [reflexivity|exact H]].
  cbn. split_and!; try lia; try done.
  - apply (bool_decide_unpack _). vm_compute. exact I.
  - apply (bool_decide_unpack _). vm_compute. exact I.
  - apply (bool_decide_unpack _). vm_compute. exact I.
Defined.
