(* ===== verification/Request.v ===== *)
(** The request object of src/vllm/v1/request.py: its status machine, the
    agent metadata extracted from [sampling_params.extra_args], the token
    lists with their incrementally extended block hashes, and the stop check
    of src/vllm/v1/core/sched/utils.py. Floats (times, durations) are exact
    rationals [Qc]; NaN, infinities and rounding are not modelled. *)
From Stdlib Require Import ZArith Lia Ascii String QArith Qcanon.
From stdpp Require Import numbers gmap strings list.
From S2P Require Import Prelude FreeQueue.

Open Scope Z_scope.

(** ** Values of [extra_args] *)

Inductive pyval :=
| PNone
| PStr (s : string)
| PInt (z : Z)
| PFloat (q : Qc)
| PBool (b : bool)
| POther (tag : Z).

#[export] Instance pyval_eq_dec : EqDecision pyval.
Proof. solve_decision. Defined.

#[export] Instance pyval_countable : Countable pyval.
Proof.
  refine (inj_countable'
    (fun v => match v with
      | PNone => inl (inl (inl ())) | PStr s => inl (inl (inr s)) | PInt z => inl (inr (inl z))
      | PFloat q => inl (inr (inr q)) | PBool b => inr (inl b) | POther t => inr (inr t) end)
    (fun s => match s with
      | inl (inl (inl _)) => PNone | inl (inl (inr s)) => PStr s | inl (inr (inl z)) => PInt z
      | inl (inr (inr q)) => PFloat q | inr (inl b) => PBool b | inr (inr t) => POther t end) _).
  by intros [].
Defined.

(** [dict.get(k)]: absent keys read as [None]. *)
Definition dict_get (d : gmap string pyval) (k : string) : pyval := default PNone (d !! k).

Definition is_none (v : pyval) : bool := match v with PNone => true | _ => false end.

(** [bool(v)]; an opaque object is truthy. *)
Definition py_truth (v : pyval) : bool :=
  match v with
  | PNone => false
  | PStr s => negb (String.eqb s EmptyString)
  | PInt z => negb (z =? 0)
  | PFloat q => negb (bool_decide (q = 0%Qc))
  | PBool b => b
  | POther _ => true
  end.

(** [str.lower] on ASCII letters. *)
Definition ascii_lower (c : ascii) : ascii :=
  let n := nat_of_ascii c in
  if andb (65 <=? n)%nat (n <=? 90)%nat then ascii_of_nat (n + 32) else c.
Fixpoint str_lower (s : string) : string :=
  match s with
  | EmptyString => EmptyString
  | String c s' => String (ascii_lower c) (str_lower s')
  end.

(** [_coerce_bool]. *)
Definition coerce_bool (v : pyval) : option bool :=
  match v with
  | PNone => None
  | PStr s => Some (bool_decide (str_lower s ∈ ["1"; "true"; "yes"; "last"]%string))
  | _ => Some (py_truth v)
  end.

(** ** Status *)

Inductive RequestStatus :=
| WAITING
| WAITING_FOR_FSM
| WAITING_FOR_REMOTE_KVS
| RUNNING
| PREEMPTED
| FINISHED_STOPPED
| FINISHED_LENGTH_CAPPED
| FINISHED_ABORTED
| FINISHED_IGNORED.

#[export] Instance RequestStatus_eq_dec : EqDecision RequestStatus.
Proof. solve_decision. Defined.

(** [enum.auto()] numbers the members from 1 in order. *)
Definition status_value (s : RequestStatus) : Z :=
  match s with
  | WAITING => 1 | WAITING_FOR_FSM => 2 | WAITING_FOR_REMOTE_KVS => 3 | RUNNING => 4
  | PREEMPTED => 5 | FINISHED_STOPPED => 6 | FINISHED_LENGTH_CAPPED => 7
  | FINISHED_ABORTED => 8 | FINISHED_IGNORED => 9
  end.

(** [RequestStatus.is_finished]. *)
Definition status_is_finished (s : RequestStatus) : bool :=
  status_value PREEMPTED <? status_value s.

Inductive FinishReason := STOP | LENGTH | ABORT.

#[export] Instance FinishReason_eq_dec : EqDecision FinishReason.
Proof. solve_decision. Defined.

(** [_FINISHED_REASON_MAP.get(status)]. *)
Definition finished_reason (s : RequestStatus) : option FinishReason :=
  match s with
  | FINISHED_STOPPED => Some STOP
  | FINISHED_LENGTH_CAPPED => Some LENGTH
  | FINISHED_ABORTED => Some ABORT
  | FINISHED_IGNORED => Some LENGTH
  | _ => None
  end.

(** ** The object *)

Record PlaceholderRange := mkRange { pr_offset : Z; pr_length : Z }.

Record MultiModalFeature := mkFeature { mm_position : PlaceholderRange; identifier : string }.

(** The attributes of [SamplingParams] that only the workers read. *)
Record SamplerParams := mkSampler {
  temperature : Qc;
  top_p : Qc;
  top_k : Z;
  min_p : Qc;
  seed : option Z;
  frequency_penalty : Qc;
  presence_penalty : Qc;
  repetition_penalty : Qc;
  sp_min_tokens : Z;
  all_stop_token_ids : list Z;
  logit_bias : option (list (Z * Qc));
  allowed_token_ids : option (list Z);
  bad_words_token_ids : option (list (list Z))
}.

(** [SamplingParams]: the attributes the scheduler reads, and those of the
    workers. *)
Record SamplingParams := mkSampling {
  sp_max_tokens : option Z;
  guided_decoding : bool;
  extra_args : option (gmap string pyval);
  ignore_eos : bool;
  stop_token_ids : list Z;
  prompt_logprobs : option Z;
  logprobs : option Z;
  sampler : SamplerParams
}.

Record LoRARequest := mkLora { lora_name : string; lora_int_id : Z }.

Inductive EngineCoreEventType := QUEUED | SCHEDULED | EV_PREEMPTED.

Record Request := mkRequest {
  request_id : string;
  client_index : Z;
  priority : Z;
  sampling_params : option SamplingParams;
  pooling_params : bool;
  eos_token_id : option Z;
  lora_request : option LoRARequest;
  arrival_time : Qc;
  status : RequestStatus;
  use_structured_output : bool;
  events : list (EngineCoreEventType * Qc);
  stop_reason : option Z;
  kv_transfer_params : pyval;
  job_id : pyval;
  is_last_step : option bool;
  extra_args_meta : gmap string pyval;
  max_tokens : Z;
  prompt_token_ids : list Z;
  output_token_ids : list Z;
  all_token_ids : list Z;
  num_output_placeholders : Z;
  spec_token_ids : list Z;
  num_computed_tokens : Z;
  cache_salt : option string;
  mm_features : list MultiModalFeature;
  num_cached_tokens : Z;
  num_nans_in_logits : Z;
  block_hashes : list BlockHash
}.

Definition mm_positions (r : Request) : list PlaceholderRange := mm_position <$> mm_features r.
Definition mm_hashes (r : Request) : list string := identifier <$> mm_features r.
Definition num_encoder_inputs (r : Request) : Z := zlen (mm_features r).
Definition has_encoder_inputs (r : Request) : bool := 0 <? num_encoder_inputs r.
Definition num_prompt_tokens (r : Request) : Z := zlen (prompt_token_ids r).
Definition num_tokens (r : Request) : Z := zlen (all_token_ids r).
Definition num_tokens_with_spec (r : Request) : Z := zlen (all_token_ids r) + zlen (spec_token_ids r).
Definition num_output_tokens (r : Request) : Z := zlen (output_token_ids r).
Definition is_finished (r : Request) : bool := status_is_finished (status r).
Definition get_finished_reason (r : Request) : option FinishReason := finished_reason (status r).
Definition is_output_corrupted (r : Request) : bool := 0 <? num_nans_in_logits r.

Definition get_num_encoder_tokens (r : Request) (input_id : Z) : result Z :=
  _ ← assert_ (input_id <? zlen (mm_positions r));
  p ← pyindex (mm_positions r) input_id;
  Ok (pr_length p).

(** Attribute writes. *)
Definition set_status (x : RequestStatus) (r : Request) : Request :=
  mkRequest (request_id r) (client_index r) (priority r) (sampling_params r) (pooling_params r)
    (eos_token_id r) (lora_request r) (arrival_time r) x (use_structured_output r) (events r)
    (stop_reason r) (kv_transfer_params r) (job_id r) (is_last_step r) (extra_args_meta r)
    (max_tokens r) (prompt_token_ids r) (output_token_ids r) (all_token_ids r)
    (num_output_placeholders r) (spec_token_ids r) (num_computed_tokens r) (cache_salt r)
    (mm_features r) (num_cached_tokens r) (num_nans_in_logits r) (block_hashes r).
Definition set_events (x : list (EngineCoreEventType * Qc)) (r : Request) : Request :=
  mkRequest (request_id r) (client_index r) (priority r) (sampling_params r) (pooling_params r)
    (eos_token_id r) (lora_request r) (arrival_time r) (status r) (use_structured_output r) x
    (stop_reason r) (kv_transfer_params r) (job_id r) (is_last_step r) (extra_args_meta r)
    (max_tokens r) (prompt_token_ids r) (output_token_ids r) (all_token_ids r)
    (num_output_placeholders r) (spec_token_ids r) (num_computed_tokens r) (cache_salt r)
    (mm_features r) (num_cached_tokens r) (num_nans_in_logits r) (block_hashes r).
Definition set_stop_reason (x : option Z) (r : Request) : Request :=
  mkRequest (request_id r) (client_index r) (priority r) (sampling_params r) (pooling_params r)
    (eos_token_id r) (lora_request r) (arrival_time r) (status r) (use_structured_output r)
    (events r) x (kv_transfer_params r) (job_id r) (is_last_step r) (extra_args_meta r)
    (max_tokens r) (prompt_token_ids r) (output_token_ids r) (all_token_ids r)
    (num_output_placeholders r) (spec_token_ids r) (num_computed_tokens r) (cache_salt r)
    (mm_features r) (num_cached_tokens r) (num_nans_in_logits r) (block_hashes r).
Definition set_num_output_placeholders (x : Z) (r : Request) : Request :=
  mkRequest (request_id r) (client_index r) (priority r) (sampling_params r) (pooling_params r)
    (eos_token_id r) (lora_request r) (arrival_time r) (status r) (use_structured_output r)
    (events r) (stop_reason r) (kv_transfer_params r) (job_id r) (is_last_step r)
    (extra_args_meta r) (max_tokens r) (prompt_token_ids r) (output_token_ids r)
    (all_token_ids r) x (spec_token_ids r) (num_computed_tokens r) (cache_salt r)
    (mm_features r) (num_cached_tokens r) (num_nans_in_logits r) (block_hashes r).
Definition set_spec_token_ids (x : list Z) (r : Request) : Request :=
  mkRequest (request_id r) (client_index r) (priority r) (sampling_params r) (pooling_params r)
    (eos_token_id r) (lora_request r) (arrival_time r) (status r) (use_structured_output r)
    (events r) (stop_reason r) (kv_transfer_params r) (job_id r) (is_last_step r)
    (extra_args_meta r) (max_tokens r) (prompt_token_ids r) (output_token_ids r)
    (all_token_ids r) (num_output_placeholders r) x (num_computed_tokens r) (cache_salt r)
    (mm_features r) (num_cached_tokens r) (num_nans_in_logits r) (block_hashes r).
Definition set_num_computed_tokens (x : Z) (r : Request) : Request :=
  mkRequest (request_id r) (client_index r) (priority r) (sampling_params r) (pooling_params r)
    (eos_token_id r) (lora_request r) (arrival_time r) (status r) (use_structured_output r)
    (events r) (stop_reason r) (kv_transfer_params r) (job_id r) (is_last_step r)
    (extra_args_meta r) (max_tokens r) (prompt_token_ids r) (output_token_ids r)
    (all_token_ids r) (num_output_placeholders r) (spec_token_ids r) x (cache_salt r)
    (mm_features r) (num_cached_tokens r) (num_nans_in_logits r) (block_hashes r).
Definition set_num_cached_tokens (x : Z) (r : Request) : Request :=
  mkRequest (request_id r) (client_index r) (priority r) (sampling_params r) (pooling_params r)
    (eos_token_id r) (lora_request r) (arrival_time r) (status r) (use_structured_output r)
    (events r) (stop_reason r) (kv_transfer_params r) (job_id r) (is_last_step r)
    (extra_args_meta r) (max_tokens r) (prompt_token_ids r) (output_token_ids r)
    (all_token_ids r) (num_output_placeholders r) (spec_token_ids r) (num_computed_tokens r)
    (cache_salt r) (mm_features r) x (num_nans_in_logits r) (block_hashes r).
Definition set_num_nans_in_logits (x : Z) (r : Request) : Request :=
  mkRequest (request_id r) (client_index r) (priority r) (sampling_params r) (pooling_params r)
    (eos_token_id r) (lora_request r) (arrival_time r) (status r) (use_structured_output r)
    (events r) (stop_reason r) (kv_transfer_params r) (job_id r) (is_last_step r)
    (extra_args_meta r) (max_tokens r) (prompt_token_ids r) (output_token_ids r)
    (all_token_ids r) (num_output_placeholders r) (spec_token_ids r) (num_computed_tokens r)
    (cache_salt r) (mm_features r) (num_cached_tokens r) x (block_hashes r).
Definition set_block_hashes (x : list BlockHash) (r : Request) : Request :=
  mkRequest (request_id r) (client_index r) (priority r) (sampling_params r) (pooling_params r)
    (eos_token_id r) (lora_request r) (arrival_time r) (status r) (use_structured_output r)
    (events r) (stop_reason r) (kv_transfer_params r) (job_id r) (is_last_step r)
    (extra_args_meta r) (max_tokens r) (prompt_token_ids r) (output_token_ids r)
    (all_token_ids r) (num_output_placeholders r) (spec_token_ids r) (num_computed_tokens r)
    (cache_salt r) (mm_features r) (num_cached_tokens r) (num_nans_in_logits r) x.
Definition set_tokens (out all : list Z) (r : Request) : Request :=
  mkRequest (request_id r) (client_index r) (priority r) (sampling_params r) (pooling_params r)
    (eos_token_id r) (lora_request r) (arrival_time r) (status r) (use_structured_output r)
    (events r) (stop_reason r) (kv_transfer_params r) (job_id r) (is_last_step r)
    (extra_args_meta r) (max_tokens r) (prompt_token_ids r) out all (num_output_placeholders r)
    (spec_token_ids r) (num_computed_tokens r) (cache_salt r) (mm_features r)
    (num_cached_tokens r) (num_nans_in_logits r) (block_hashes r).

(** ** Construction *)

(** A block hasher: [partial(block_hasher, self)] is called with the current
    request and returns the hashes of the blocks completed since. *)
Abbreviation hasher := (Request -> result (list BlockHash)).

(** The arguments of [Request.__init__]. *)
Record RequestArgs := mkArgs {
  ra_request_id : string;
  ra_prompt_token_ids : list Z;
  ra_sampling_params : option SamplingParams;
  ra_pooling_params : bool;
  ra_eos_token_id : option Z;
  ra_client_index : Z;
  ra_arrival_time : option Qc;
  ra_mm_features : list MultiModalFeature;
  ra_lora_request : option LoRARequest;
  ra_cache_salt : option string;
  ra_priority : Z;
  ra_job_id : pyval;
  ra_is_last_step : option bool
}.

(** The agent metadata kept for the pin decision: the two keys that are
    present, [has_tool_call] coerced to a boolean. *)
Definition extra_meta (ea : gmap string pyval) : gmap string pyval :=
  let m := match ea !! "has_tool_call"%string with
           | Some v => {[ "has_tool_call"%string :=
                            match coerce_bool v with Some b => PBool b | None => PNone end ]}
           | None => ∅
           end in
  match ea !! "tool_duration"%string with
  | Some v => <["tool_duration"%string := v]> m
  | None => m
  end.

(** [max_tokens], the initial status and [use_structured_output]. *)
Definition init_status (a : RequestArgs) : result (Z * RequestStatus * bool) :=
  if ra_pooling_params a then Ok (1, WAITING, false) else
  match ra_sampling_params a with
  | Some sp =>
      m ← get_or AssertionError (sp_max_tokens sp);
      Ok (if guided_decoding sp then (m, WAITING_FOR_FSM, true) else (m, WAITING, false))
  | None => Err ValueError
  end.

(** [Request.__init__]; [now] is [time.time()]. *)
Definition request_init (now : Qc) (block_hasher : option hasher) (a : RequestArgs)
  : result Request :=
  let ea := match ra_sampling_params a with Some sp => extra_args sp | None => None end in
  '(mt, st, uso) ← init_status a;
  let ea := if ra_pooling_params a then None else ea in
  let r := mkRequest (ra_request_id a) (ra_client_index a) (ra_priority a)
    (ra_sampling_params a) (ra_pooling_params a) (ra_eos_token_id a) (ra_lora_request a)
    (default now (ra_arrival_time a)) st uso [] None
    (match ea with Some d => dict_get d "kv_transfer_params" | None => PNone end)
    (match ea with Some d => dict_get d "job_id" | None => ra_job_id a end)
    (match ea with Some d => coerce_bool (dict_get d "is_last_step") | None => ra_is_last_step a end)
    (match ea with Some d => extra_meta d | None => ∅ end)
    mt (ra_prompt_token_ids a) [] (ra_prompt_token_ids a) 0 [] 0
    (ra_cache_salt a) (ra_mm_features a) (-1) 0 [] in
  match block_hasher with
  | Some hf => hs ← hf r; Ok (set_block_hashes hs r)
  | None => Ok r
  end.

(** [append_output_token_ids]; an [int] argument is the one-element list. *)
Definition append_output_token_ids (block_hasher : option hasher) (toks : list Z) (r : Request)
  : result Request :=
  let r := set_tokens (output_token_ids r ++ toks) (all_token_ids r ++ toks) r in
  match block_hasher with
  | Some hf => hs ← hf r; Ok (set_block_hashes (block_hashes r ++ hs) r)
  | None => Ok r
  end.

Definition record_event (e : EngineCoreEventType) (t : Qc) (r : Request) : Request :=
  set_events (events r ++ [(e, t)]) r.

Definition take_events (r : Request) : option (list (EngineCoreEventType * Qc)) * Request :=
  match events r with
  | [] => (None, r)
  | es => (Some es, set_events [] r)
  end.

(** ** The stop check *)

(** [check_stop(request, max_model_len, pooler_output)]; [pooler_output] is
    whether the pooler returned a value. *)
Definition check_stop (r : Request) (max_model_len : Z) (pooler_output : bool)
  : result (bool * Request) :=
  if (max_model_len <=? num_tokens r) || (max_tokens r <=? num_output_tokens r)
  then Ok (true, set_status FINISHED_LENGTH_CAPPED r)
  else if pooling_params r then
    if pooler_output then Ok (true, set_status FINISHED_STOPPED r) else Ok (false, r)
  else
    sp ← get_or AssertionError (sampling_params r);
    last_token_id ← pyindex (output_token_ids r) (-1);
    if negb (ignore_eos sp) && bool_decide (Some last_token_id = eos_token_id r)
    then Ok (true, set_status FINISHED_STOPPED r)
    else if bool_decide (last_token_id ∈ stop_token_ids sp)
    then Ok (true, set_stop_reason (Some last_token_id) (set_status FINISHED_STOPPED r))
    else Ok (false, r).

(** [remove_all(lst, items_to_remove)]: a single item removes its first
    occurrence only, several items filter the list. *)
Fixpoint remove_first {A} `{EqDecision A} (x : A) (l : list A) : list A :=
  match l with
  | [] => []
  | y :: l' => if decide (x = y) then l' else y :: remove_first x l'
  end.

Definition remove_all (lst : list nat) (items_to_remove : gset nat) : list nat :=
  match elements items_to_remove with
  | [] => lst
  | [item] => remove_first item lst
  | _ => filter (fun x => x ∉ items_to_remove) lst
  end.

Definition set_lora (x : option LoRARequest) (r : Request) : Request :=
  mkRequest (request_id r) (client_index r) (priority r) (sampling_params r) (pooling_params r)
    (eos_token_id r) x (arrival_time r) (status r) (use_structured_output r) (events r)
    (stop_reason r) (kv_transfer_params r) (job_id r) (is_last_step r) (extra_args_meta r)
    (max_tokens r) (prompt_token_ids r) (output_token_ids r) (all_token_ids r)
    (num_output_placeholders r) (spec_token_ids r) (num_computed_tokens r) (cache_salt r)
    (mm_features r) (num_cached_tokens r) (num_nans_in_logits r) (block_hashes r).
Definition set_mm (x : list MultiModalFeature) (r : Request) : Request :=
  mkRequest (request_id r) (client_index r) (priority r) (sampling_params r) (pooling_params r)
    (eos_token_id r) (lora_request r) (arrival_time r) (status r) (use_structured_output r) (events r)
    (stop_reason r) (kv_transfer_params r) (job_id r) (is_last_step r) (extra_args_meta r)
    (max_tokens r) (prompt_token_ids r) (output_token_ids r) (all_token_ids r)
    (num_output_placeholders r) (spec_token_ids r) (num_computed_tokens r) (cache_salt r)
    x (num_cached_tokens r) (num_nans_in_logits r) (block_hashes r).

(** A plain text request in status WAITING, for concrete runs. *)
Definition demo_sampler : SamplerParams := mkSampler 0 1 0 0 None 0 0 1 0 [] None None None.
Definition demo_sampling : SamplingParams := mkSampling (Some 16) false None false [] None None demo_sampler.

Definition demo_request (id : string) (toks : list Z) (hashes : list BlockHash) : Request :=
  mkRequest id 0 0 (Some demo_sampling) false None None 0%Qc WAITING false [] None PNone PNone None ∅
    16 toks [] toks 0 [] 0 None [] (-1) 0 hashes.
