(* ===== verification/BlockHash.v ===== *)
(** Block hashing for prefix caching (src/vllm/v1/core/kv_cache_utils.py): the
    packed (hash, group id) key, the extra hash keys of multi-modal, LoRA and
    salted requests, and the hasher that extends a request's chain of block
    hashes whenever its tokens complete a block. The hash function (sha256 or
    Python's [hash], outside the sources) is a parameter. *)
From Stdlib Require Import ZArith Lia Ascii String QArith Qcanon.
From stdpp Require Import numbers gmap strings list.
From S2P Require Import Prelude FreeQueue Request.

Open Scope Z_scope.

(** ** Keys *)

(** [n.to_bytes(k, "big", signed=False)] and [int.from_bytes(b, "big")]. *)
Fixpoint be_split (k : nat) (n : Z) : bytes :=
  match k with
  | O => []
  | S k' => be_split k' (n / 256) ++ [n mod 256]
  end.
Definition be_combine (b : bytes) : Z := foldl (fun acc x => acc * 256 + x) 0 b.

Definition to_bytes (k : nat) (n : Z) : result bytes :=
  if (0 <=? n) && (n <? 256 ^ Z.of_nat k) then Ok (be_split k n) else Err OverflowError.

Definition make_block_hash_with_group_id (block_hash : BlockHash) (group_id : Z)
  : result BlockHashWithGroupId :=
  g ← to_bytes 4 group_id;
  Ok (block_hash ++ g).

(** [key[:-4]] and [key[-4:]]. *)
Definition get_block_hash (key : BlockHashWithGroupId) : BlockHash := pytake (-4) key.
Definition get_group_id (key : BlockHashWithGroupId) : Z := be_combine (pydrop (-4) key).

Inductive ExternalBlockHash :=
| EHBytes (b : bytes)
| EHInt (z : Z).

#[export] Instance ExternalBlockHash_eq_dec : EqDecision ExternalBlockHash.
Proof. solve_decision. Defined.

(** [use_int] is [envs.VLLM_KV_EVENTS_USE_INT_BLOCK_HASHES]. *)
Definition maybe_convert_block_hash (use_int : bool) (hash_bytes : BlockHash) : ExternalBlockHash :=
  if use_int then EHInt (Z.land (be_combine hash_bytes) (Z.shiftl 1 64 - 1))
  else EHBytes hash_bytes.

(** ** Hash inputs *)

(** One entry of the [extra_keys] tuple: a LoRA id, or a string (a
    multi-modal hash or the cache salt: the tuple does not tag them). *)
Inductive extra_key :=
| EKInt (z : Z)
| EKStr (s : string).

#[export] Instance extra_key_eq_dec : EqDecision extra_key.
Proof. solve_decision. Defined.
#[export] Instance extra_key_countable : Countable extra_key.
Proof.
  refine (inj_countable' (fun k => match k with EKInt z => inl z | EKStr s => inr s end)
    (fun s => match s with inl z => EKInt z | inr s => EKStr s end) _).
  by intros [].
Defined.

(** The values handed to the hash function: the [PYTHONHASHSEED] string or
    the tuple [(parent_block_hash, token_ids, extra_keys)]. *)
Inductive hash_input :=
| HSeed (s : string)
| HBlock (parent : BlockHash) (toks : list Z) (extra : option (list extra_key)).

#[export] Instance hash_input_eq_dec : EqDecision hash_input.
Proof. solve_decision. Defined.
#[export] Instance hash_input_countable : Countable hash_input.
Proof.
  refine (inj_countable'
    (fun k => match k with HSeed s => inl s | HBlock p t e => inr (p, t, e) end)
    (fun s => match s with inl s => HSeed s | inr (p, t, e) => HBlock p t e end) _).
  by intros [].
Defined.

Definition init_none_hash (hash_fn : hash_input -> bytes) (urandom : bytes)
  (hash_seed : option string) : BlockHash :=
  match hash_seed with
  | None => urandom
  | Some s => hash_fn (HSeed s)
  end.

Definition need_extra_keys (r : Request) : bool :=
  negb (bool_decide (mm_hashes r = [])) || bool_decide (is_Some (cache_salt r))
  || match lora_request r with Some _ => true | None => false end.

(** The [while] loop of [_gen_mm_extra_hash_keys]; each iteration moves to
    the next multi-modal input or stops, so the number of inputs is enough
    fuel. *)
Fixpoint mm_keys_loop (fuel : nat) (r : Request) (start_token_idx end_token_idx curr_mm_idx : Z)
  (extra_keys : list extra_key) : result (list extra_key * Z) :=
  if negb (curr_mm_idx <? zlen (mm_positions r)) then Ok (extra_keys, curr_mm_idx) else
  match fuel with
  | O => Err OutOfFuel
  | S f =>
      p ← pyindex (mm_positions r) curr_mm_idx;
      mm_hash ← pyindex (mm_hashes r) curr_mm_idx;
      let offset := pr_offset p in
      let length := pr_length p in
      if offset <? end_token_idx then
        if offset + length <? start_token_idx then
          mm_keys_loop f r start_token_idx end_token_idx (curr_mm_idx + 1) extra_keys
        else
          let extra_keys := extra_keys ++ [EKStr mm_hash] in
          if offset + length <=? end_token_idx then
            mm_keys_loop f r start_token_idx end_token_idx (curr_mm_idx + 1) extra_keys
          else Ok (extra_keys, curr_mm_idx)
      else Ok (extra_keys, curr_mm_idx)
  end.

Definition gen_mm_extra_hash_keys (r : Request) (start_token_idx end_token_idx start_mm_idx : Z)
  : result (list extra_key * Z) :=
  if bool_decide (mm_features r = []) then Ok ([], start_mm_idx) else
  _ ← raise_if (negb (zlen (mm_positions r) =? zlen (mm_hashes r))) ValueError;
  lastp ← pyindex (mm_positions r) (-1);
  if pr_offset lastp + pr_length lastp <? start_token_idx then Ok ([], start_mm_idx) else
  start_mm_idx ←
    (if start_mm_idx <? 0 then
       _ ← assert_ (- start_mm_idx <=? zlen (mm_positions r));
       Ok (zlen (mm_positions r) + start_mm_idx)
     else Ok start_mm_idx);
  mm_keys_loop (length (mm_features r)) r start_token_idx end_token_idx start_mm_idx [].

Definition gen_lora_extra_hash_keys (r : Request) : list extra_key :=
  match lora_request r with
  | None => []
  | Some l => [EKInt (lora_int_id l)]
  end.

(** The salt is added to the first block, when it is a non-empty string. *)
Definition cache_salt_keys (r : Request) (start_token_idx : Z) : list extra_key :=
  match cache_salt r with
  | Some s => if (start_token_idx =? 0) && negb (String.eqb s EmptyString) then [EKStr s] else []
  | None => []
  end.

Definition generate_block_hash_extra_keys (r : Request)
  (start_token_idx end_token_idx start_mm_idx : Z)
  : result (option (list extra_key) * Z) :=
  '(mm_extra_keys, new_start_mm_idx) ←
    gen_mm_extra_hash_keys r start_token_idx end_token_idx start_mm_idx;
  let extra_keys := gen_lora_extra_hash_keys r ++ mm_extra_keys ++ cache_salt_keys r start_token_idx in
  Ok (match extra_keys with [] => None | _ => Some extra_keys end, new_start_mm_idx).

Section Hasher.

Context (hash_function : hash_input -> bytes) (NONE_HASH : BlockHash).

(** [not parent_block_hash] holds of [None] and of the empty byte string. *)
Definition hash_block_tokens (parent_block_hash : option BlockHash) (curr_block_token_ids : list Z)
  (extra_keys : option (list extra_key)) : BlockHash :=
  let parent := match parent_block_hash with
                | None | Some [] => NONE_HASH
                | Some p => p
                end in
  hash_function (HBlock parent curr_block_token_ids extra_keys).

(** The [while True] loop of the hasher: one iteration per full block. *)
Fixpoint hasher_loop (fuel : nat) (block_size : Z) (r : Request) (start_token_idx curr_mm_idx : Z)
  (prev : option BlockHash) (acc : list BlockHash) : result (list BlockHash) :=
  let end_token_idx := start_token_idx + block_size in
  if num_tokens r <? end_token_idx then Ok acc else
  match fuel with
  | O => Err OutOfFuel
  | S f =>
      '(extra_keys, curr_mm_idx) ←
        generate_block_hash_extra_keys r start_token_idx end_token_idx curr_mm_idx;
      let block_tokens := pyslice start_token_idx end_token_idx (all_token_ids r) in
      let block_hash := hash_block_tokens prev block_tokens extra_keys in
      hasher_loop f block_size r (start_token_idx + block_size) curr_mm_idx
        (Some block_hash) (acc ++ [block_hash])
  end.

(** [request_block_hasher] of [get_request_block_hasher(block_size, ...)]. *)
Definition request_block_hasher (block_size : Z) (r : Request) : result (list BlockHash) :=
  let start_token_idx := zlen (block_hashes r) * block_size in
  let curr_mm_idx := if 0 <? start_token_idx then -1 else 0 in
  let prev := last (block_hashes r) in
  hasher_loop (length (all_token_ids r)) block_size r start_token_idx curr_mm_idx prev [].

End Hasher.

(** * Packed keys *)

Lemma be_split_length k n : length (be_split k n) = k.
Proof. revert n. induction k; intros n; cbn; [done|]. rewrite length_app, IHk. cbn. lia. Qed.

Lemma be_combine_app b x : be_combine (b ++ [x]) = be_combine b * 256 + x.
Proof. unfold be_combine. by rewrite foldl_app. Qed.

Lemma be_combine_split k n : 0 <= n < 256 ^ Z.of_nat k -> be_combine (be_split k n) = n.
Proof.
  revert n. induction k as [|k IH]; intros n Hn.
  - cbn in *. lia.
  - cbn [be_split]. rewrite be_combine_app, IH.
    + pose proof (Z.div_mod n 256). lia.
    + rewrite Nat2Z.inj_succ, Z.pow_succ_r in Hn by lia.
      split; [apply Z.div_pos; lia|]. apply Z.div_lt_upper_bound; lia.
Qed.

Lemma make_block_hash_with_group_id_Ok h g key :
  make_block_hash_with_group_id h g = Ok key <->
  0 <= g < 2 ^ 32 /\ key = h ++ be_split 4 g.
Proof.
  unfold make_block_hash_with_group_id, to_bytes. change (256 ^ Z.of_nat 4) with (2 ^ 32).
  destruct (Z.leb_spec 0 g), (Z.ltb_spec g (2 ^ 32)); cbn [andb mbind result_bind];
    split; try (intros [= <-]; split; [lia|done]); try (intros [? ->]; done); intros; naive_solver lia.
Qed.

Lemma zlen_key h g : zlen (h ++ be_split 4 g) = zlen h + 4.
Proof. rewrite zlen_app. unfold zlen at 2. by rewrite be_split_length. Qed.

Lemma key_split h g :
  get_block_hash (h ++ be_split 4 g) = h /\
  pydrop (-4) (h ++ be_split 4 g) = be_split 4 g.
Proof.
  unfold get_block_hash, pytake, pydrop, slice_bound. rewrite zlen_key.
  pose proof (zlen_nonneg h). cbn [Z.ltb Z.compare].
  replace (Z.to_nat (Z.max 0 (Z.min (-4 + (zlen h + 4)) (zlen h + 4)))) with (length h)
    by (unfold zlen; lia).
  by rewrite take_app_length, drop_app_length.
Qed.

(** * The chain of block hashes *)

(** The tokens of block [k]. *)
Definition block_toks (bs : nat) (toks : list Z) (k : nat) : list Z := take bs (drop (k * bs) toks).

(** The extra keys of block [k] of a request without multi-modal inputs. *)
Definition text_extra (r : Request) (k : nat) : option (list extra_key) :=
  match gen_lora_extra_hash_keys r ++ cache_salt_keys r (Z.of_nat k) with
  | [] => None
  | ks => Some ks
  end.

Section Chain.

Context (hash_function : hash_input -> bytes) (NONE_HASH : BlockHash).
Notation hbt := (hash_block_tokens hash_function NONE_HASH).

(** Reference definition: the hash of block [k] of a token list. *)
Fixpoint chain_hash (bs : nat) (extra : nat -> option (list extra_key)) (toks : list Z) (k : nat)
  : BlockHash :=
  match k with
  | O => hbt None (block_toks bs toks 0) (extra 0%nat)
  | S k' => hbt (Some (chain_hash bs extra toks k')) (block_toks bs toks k) (extra k)
  end.

Definition chain_hashes (bs : nat) (extra : nat -> option (list extra_key)) (toks : list Z)
  (n : nat) : list BlockHash := chain_hash bs extra toks <$> seq 0 n.

(** The block hashes of a request are those of all its full blocks. *)
Definition hashes_ok (bs : nat) (r : Request) : Prop :=
  block_hashes r = chain_hashes bs (text_extra r) (all_token_ids r) (length (all_token_ids r) / bs).

Lemma block_toks_app bs toks more k :
  (S k * bs <= length toks)%nat -> block_toks bs (toks ++ more) k = block_toks bs toks k.
Proof.
  intros H. unfold block_toks. rewrite drop_app_le by lia.
  rewrite take_app_le; [done|]. rewrite length_drop. lia.
Qed.

Lemma chain_hash_app bs extra toks more k :
  (S k * bs <= length toks)%nat ->
  chain_hash bs extra (toks ++ more) k = chain_hash bs extra toks k.
Proof.
  induction k as [|k IH]; intros H; cbn [chain_hash].
  - by rewrite block_toks_app.
  - rewrite IH by lia. by rewrite block_toks_app.
Qed.

Lemma chain_hashes_snoc bs extra toks n :
  chain_hashes bs extra toks (S n) = chain_hashes bs extra toks n ++ [chain_hash bs extra toks n].
Proof. unfold chain_hashes. by rewrite seq_S, fmap_app. Qed.

Lemma chain_hashes_last bs extra toks n :
  last (chain_hashes bs extra toks n) =
    match n with O => None | S k => Some (chain_hash bs extra toks k) end.
Proof. destruct n; [done|]. by rewrite chain_hashes_snoc, last_snoc. Qed.

Lemma text_extra_keys bs r k m e :
  mm_features r = [] -> (0 < bs)%nat ->
  generate_block_hash_extra_keys r (Z.of_nat (k * bs)) e m = Ok (text_extra r k, m).
Proof.
  intros Hmm Hbs. unfold generate_block_hash_extra_keys, gen_mm_extra_hash_keys.
  rewrite bool_decide_true by done. cbn [mbind result_bind app]. unfold text_extra.
  replace (cache_salt_keys r (Z.of_nat (k * bs))) with (cache_salt_keys r (Z.of_nat k));
    [by destruct (_ ++ _)|].
  unfold cache_salt_keys. destruct (cache_salt r); [|done].
  replace (Z.of_nat (k * bs) =? 0) with (Z.of_nat k =? 0); [done|].
  destruct (Z.eqb_spec (Z.of_nat k) 0), (Z.eqb_spec (Z.of_nat (k * bs)) 0); nia || done.
Qed.

Lemma hasher_loop_chain bs r m fuel mm acc :
  mm_features r = [] -> (0 < bs)%nat ->
  (length (all_token_ids r) / bs - m <= fuel)%nat ->
  hasher_loop hash_function NONE_HASH fuel (Z.of_nat bs) r (Z.of_nat (m * bs)) mm
    (match m with O => None | S k => Some (chain_hash bs (text_extra r) (all_token_ids r) k) end) acc =
  Ok (acc ++ (chain_hash bs (text_extra r) (all_token_ids r) <$>
                seq m (length (all_token_ids r) / bs - m))).
Proof.
  intros Hmm Hbs. revert m acc. induction fuel as [|f IH]; intros m acc Hf.
  - cbn [hasher_loop].
    replace (num_tokens r <? Z.of_nat (m * bs) + Z.of_nat bs) with true.
    + replace (length (all_token_ids r) / bs - m)%nat with 0%nat by lia.
      cbn. by rewrite app_nil_r.
    + symmetry. apply Z.ltb_lt. unfold num_tokens, zlen.
      pose proof (Nat.div_mod_eq (length (all_token_ids r)) bs).
      pose proof (Nat.mod_upper_bound (length (all_token_ids r)) bs). nia.
  - cbn [hasher_loop]. destruct (Z.ltb_spec (num_tokens r) (Z.of_nat (m * bs) + Z.of_nat bs)) as [H|H].
    + replace (length (all_token_ids r) / bs - m)%nat with 0%nat; [cbn; by rewrite app_nil_r|].
      unfold num_tokens, zlen in H. symmetry. apply Nat.sub_0_le.
      apply Nat.lt_succ_r. apply Nat.Div0.div_lt_upper_bound. lia.
    + unfold num_tokens, zlen in H.
      assert (Hm : (S m <= length (all_token_ids r) / bs)%nat)
        by (apply Nat.div_le_lower_bound; lia).
      rewrite text_extra_keys by done. cbn [mbind result_bind].
      replace (Z.of_nat (m * bs) + Z.of_nat bs) with (Z.of_nat (S m * bs)) by lia.
      rewrite pyslice_in by lia.
      replace (S m * bs - m * bs)%nat with bs by lia.
      replace (length (all_token_ids r) / bs - m)%nat
        with (S (length (all_token_ids r) / bs - S m)) by lia.
      assert (Hh : hbt (match m with
                        | O => None
                        | S k => Some (chain_hash bs (text_extra r) (all_token_ids r) k)
                        end) (take bs (drop (m * bs) (all_token_ids r))) (text_extra r m)
                   = chain_hash bs (text_extra r) (all_token_ids r) m) by (by destruct m).
      rewrite Hh. rewrite (IH (S m)) by lia. by rewrite <-app_assoc.
Qed.

Lemma request_block_hasher_chain bs r m :
  mm_features r = [] -> (0 < bs)%nat ->
  block_hashes r = chain_hashes bs (text_extra r) (all_token_ids r) m ->
  request_block_hasher hash_function NONE_HASH (Z.of_nat bs) r =
  Ok (chain_hash bs (text_extra r) (all_token_ids r) <$> seq m (length (all_token_ids r) / bs - m)).
Proof.
  intros Hmm Hbs Hbh. unfold request_block_hasher.
  assert (zlen (block_hashes r) = Z.of_nat m) as ->.
  { rewrite Hbh. unfold zlen, chain_hashes. by rewrite length_fmap, length_seq. }
  rewrite <-Nat2Z.inj_mul, Hbh, chain_hashes_last.
  rewrite hasher_loop_chain; [done..|].
  pose proof (Nat.Div0.div_le_mono (length (all_token_ids r)) (length (all_token_ids r)) bs).
  pose proof (Nat.div_le_upper_bound (length (all_token_ids r)) bs (length (all_token_ids r))). nia.
Qed.

(** ** Requests with multi-modal inputs *)

Lemma chain_hash_ext bs e1 e2 toks k : (forall j, (j <= k)%nat -> e1 j = e2 j) -> chain_hash bs e1 toks k = chain_hash bs e2 toks k.
Proof. induction k as [|k IH]; intros He; cbn [chain_hash]; [by rewrite He|]. rewrite IH, He; [done|lia|]. intros j Hj. apply He. lia. Qed.

Definition wrap_keys (l : list extra_key) : option (list extra_key) := match l with [] => None | _ => Some l end.

(** The keys of a block: the LoRA id, if there is one, and strings. *)
Definition keys_of (r : Request) (extra : option (list extra_key)) : Prop :=
  exists rest, extra = wrap_keys (gen_lora_extra_hash_keys r ++ (EKStr <$> rest)).

Lemma mm_loop_strings r a b fuel : forall m keys keys' m', mm_keys_loop fuel r a b m keys = Ok (keys', m') -> exists l, keys' = keys ++ (EKStr <$> l).
Proof.
  induction fuel as [|f IH]; intros m keys keys' m'; cbn [mm_keys_loop]; destruct (negb _); try done; [intros [= <- <-]; exists []; by rewrite app_nil_r..|].
  intros E. apply bind_Ok in E as (p & _ & E). apply bind_Ok in E as (h & _ & E). destruct (_ <? _); [|injection E as <- <-; exists []; by rewrite app_nil_r]. destruct (_ <? _); [by apply IH in E|].
  destruct (_ <=? _); [|injection E as <- <-; by exists [h]]. apply IH in E as [l ->]. exists (h :: l). by rewrite <-app_assoc.
Qed.

Lemma mm_keys_strings r a b m keys m' : gen_mm_extra_hash_keys r a b m = Ok (keys, m') -> exists l, keys = EKStr <$> l.
Proof.
  unfold gen_mm_extra_hash_keys. destruct (bool_decide _); [intros [= <- <-]; by exists []|]. intros E. apply bind_Ok in E as (? & _ & E). apply bind_Ok in E as (lastp & _ & E).
  destruct (_ <? _); [injection E as <- <-; by exists []|]. apply bind_Ok in E as (m1 & _ & E). apply mm_loop_strings in E as [l ->]. by exists l.
Qed.

Lemma generated_keys r a b m extra m' : generate_block_hash_extra_keys r a b m = Ok (extra, m') -> keys_of r extra.
Proof.
  unfold generate_block_hash_extra_keys. intros E. apply bind_Ok in E as ([mm m1] & Em & [= <- _]). apply mm_keys_strings in Em as [l ->].
  unfold cache_salt_keys. destruct (cache_salt r) as [t|]; [destruct (_ && _); [exists (l ++ [t]); by rewrite fmap_app|]|]; exists l; by rewrite app_nil_r.
Qed.

(** Whatever the extra keys are, the hasher continues a chain. *)
Lemma hasher_loop_any bs r : (0 < bs)%nat -> forall fuel m mm extra acc out, (forall k, keys_of r (extra k)) ->
  hasher_loop hash_function NONE_HASH fuel (Z.of_nat bs) r (Z.of_nat (m * bs)) mm (match m with O => None | S k => Some (chain_hash bs extra (all_token_ids r) k) end) acc = Ok out ->
  exists extra', (forall k, (k < m)%nat -> extra' k = extra k) /\ (forall k, keys_of r (extra' k)) /\
    out = acc ++ (chain_hash bs extra' (all_token_ids r) <$> seq m (length (all_token_ids r) / bs - m)).
Proof.
  intros Hbs. set (toks := all_token_ids r). induction fuel as [|f IH]; intros m mm extra acc out Hk; cbn [hasher_loop]; destruct (Z.ltb_spec (num_tokens r) (Z.of_nat (m * bs) + Z.of_nat bs)) as [Hlt|Hge]; try done.
  1,2: intros [= <-]; exists extra; split_and!; try done; replace (length toks / bs - m)%nat with 0%nat; [by rewrite app_nil_r|];
    unfold num_tokens, zlen in Hlt; fold toks in Hlt; symmetry; apply Nat.sub_0_le, Nat.lt_succ_r, Nat.Div0.div_lt_upper_bound; lia.
  unfold num_tokens, zlen in Hge. fold toks in Hge. intros E. apply bind_Ok in E as ([e mm'] & Eg & E). assert (Hm : (S m <= length toks / bs)%nat) by (apply Nat.div_le_lower_bound; lia).
  set (extra1 := fun k => if decide (k = m) then e else extra k). assert (Hk1 : forall k, keys_of r (extra1 k)) by (intros k; unfold extra1; destruct (decide (k = m)); [by eapply generated_keys|done]).
  assert (Hh : hbt (match m with O => None | S k => Some (chain_hash bs extra toks k) end) (pyslice (Z.of_nat (m * bs)) (Z.of_nat (m * bs) + Z.of_nat bs) toks) e = chain_hash bs extra1 toks m).
  { replace (Z.of_nat (m * bs) + Z.of_nat bs) with (Z.of_nat (S m * bs)) by lia. rewrite pyslice_in by lia. replace (S m * bs - m * bs)%nat with bs by lia.
    assert (Ee : extra1 m = e) by (unfold extra1; by rewrite decide_True). destruct m as [|m]; cbn [chain_hash]; rewrite Ee; [done|]. f_equal. f_equal. apply chain_hash_ext. intros j Hj. unfold extra1. by rewrite decide_False by lia. }
  cbv zeta in E. fold toks in E. rewrite Hh in E. replace (Z.of_nat (m * bs) + Z.of_nat bs) with (Z.of_nat (S m * bs)) in E by lia. destruct (IH (S m) mm' extra1 _ out Hk1 E) as (extra' & Hsame & Hk' & ->).
  exists extra'. split_and!; [intros k Hlt; rewrite Hsame by lia; unfold extra1; by rewrite decide_False by lia|done|].
  replace (length toks / bs - m)%nat with (S (length toks / bs - S m)) by lia. cbn [seq fmap list_fmap]. rewrite <-app_assoc. f_equal. cbn [app]. f_equal. apply chain_hash_ext. intros j Hj. symmetry. apply Hsame. lia.
Qed.

(** The block hashes of a request with any inputs are a chain over its full blocks. *)
Definition chained (bs : nat) (r : Request) : Prop := exists extra, (forall k, keys_of r (extra k)) /\
  block_hashes r = chain_hashes bs extra (all_token_ids r) (length (all_token_ids r) / bs).

Lemma hasher_chained bs r n hs : (0 < bs)%nat -> (n <= length (all_token_ids r) / bs)%nat -> (exists extra, (forall k, keys_of r (extra k)) /\ block_hashes r = chain_hashes bs extra (all_token_ids r) n) ->
  request_block_hasher hash_function NONE_HASH (Z.of_nat bs) r = Ok hs -> chained bs (set_block_hashes (block_hashes r ++ hs) r).
Proof.
  intros Hbs Hn (extra & Hk & Eb) E. unfold request_block_hasher in E. assert (El : zlen (block_hashes r) = Z.of_nat n) by (rewrite Eb; unfold zlen, chain_hashes; by rewrite length_fmap, length_seq).
  rewrite El, <-Nat2Z.inj_mul, Eb, chain_hashes_last in E. destruct (hasher_loop_any bs r Hbs _ _ _ _ _ _ Hk E) as (extra' & Hsame & Hk' & ->). exists extra'. split; [exact Hk'|].
  cbn [block_hashes set_block_hashes all_token_ids]. rewrite Eb, app_nil_l. unfold chain_hashes. replace (seq 0 (length (all_token_ids r) / bs)) with (seq 0 n ++ seq n (length (all_token_ids r) / bs - n)) by (rewrite <-seq_app; f_equal; lia).
  rewrite fmap_app. f_equal. apply list_fmap_ext. intros i k Hi. apply lookup_seq in Hi as [-> Hi]. apply chain_hash_ext. intros j Hj. symmetry. apply Hsame. lia.
Qed.
End Chain.

(** Idealised hash function: collision free, never the empty string, and a block never
    gets the parent value of first blocks. *)
Class IdealHash (hash_function : hash_input -> bytes) (NONE_HASH : BlockHash) : Prop := {
  ideal_inj :: Inj (=) (=) hash_function;
  ideal_nonempty : forall x, hash_function x ≠ [];
  ideal_none : forall p toks extra, hash_function (HBlock p toks extra) ≠ NONE_HASH
}.

(** A concrete ideal hash: the injective encoding of the input as a number. *)
Definition encode_hash (x : hash_input) : bytes := [Z.pos (encode x)].

#[export] Instance encode_hash_ideal : IdealHash encode_hash [0].
Proof.
  split.
  - intros x y [= H]. by apply encode_inj in H.
  - done.
  - by intros p toks extra [=].
Qed.

(** A collision-free hash function is ideal with the [NONE_HASH] of a seed: seeds and
    blocks are different inputs. *)
Lemma seeded_ideal (hash_function : hash_input -> bytes) urandom seed : Inj (=) (=) hash_function -> (forall x, hash_function x ≠ []) -> IdealHash hash_function (init_none_hash hash_function urandom (Some seed)).
Proof. intros Hinj Hne. split; [done|done|]. intros p toks extra E. by apply Hinj in E. Qed.

Section Soundness.

Context (H : hash_input -> bytes) (NONE : BlockHash) `{!IdealHash H NONE}.

Lemma chain_hash_shape bs extra toks k :
  exists p, chain_hash H NONE bs extra toks k = H (HBlock p (block_toks bs toks k) (extra k)) /\
    p = match k with O => NONE | S k' => chain_hash H NONE bs extra toks k' end.
Proof.
  destruct k as [|k]; cbn [chain_hash]; unfold hash_block_tokens; eexists; split; try done.
  destruct (chain_hash H NONE bs extra toks k) eqn:E; [|done].
  exfalso. destruct k; cbn [chain_hash] in E; unfold hash_block_tokens in E;
    by apply (ideal_nonempty (NONE_HASH := NONE)) in E.
Qed.

Lemma chain_hash_none bs extra toks k : chain_hash H NONE bs extra toks k ≠ NONE.
Proof. destruct (chain_hash_shape bs extra toks k) as (p & -> & _). apply ideal_none. Qed.

Lemma chain_hash_inj bs e1 e2 t1 t2 i j :
  chain_hash H NONE bs e1 t1 i = chain_hash H NONE bs e2 t2 j ->
  i = j /\ forall k, (k <= i)%nat -> block_toks bs t1 k = block_toks bs t2 k /\ e1 k = e2 k.
Proof.
  revert j. induction i as [|i IH]; intros j E;
    destruct (chain_hash_shape bs e1 t1 0) as (p0 & E0 & ->);
    destruct (chain_hash_shape bs e2 t2 j) as (p2 & E2 & ->).
  - rewrite E0, E2 in E. apply ideal_inj in E. injection E as Hp Ht He.
    destruct j as [|j]; [|by apply symmetry, chain_hash_none in Hp].
    split; [done|]. intros k Hk. by replace k with 0%nat by lia.
  - destruct (chain_hash_shape bs e1 t1 (S i)) as (p1 & E1 & ->).
    rewrite E1, E2 in E. apply ideal_inj in E. injection E as Hp Ht He.
    destruct j as [|j]; [by apply chain_hash_none in Hp|].
    apply IH in Hp as [-> Hk]. split; [done|]. intros k Hle.
    destruct (decide (k = S j)) as [->|]; [done|]. apply Hk. lia.
Qed.

Lemma take_blocks bs toks n :
  take (n * bs) toks = concat (block_toks bs toks <$> seq 0 n).
Proof.
  induction n as [|n IH]; [done|].
  rewrite seq_S, fmap_app, concat_app, <-IH. cbn. rewrite app_nil_r. unfold block_toks.
  rewrite (Nat.add_comm bs), <-take_take_drop. done.
Qed.

Lemma chain_hashes_NoDup bs extra toks n : NoDup (chain_hashes H NONE bs extra toks n).
Proof.
  unfold chain_hashes. apply NoDup_fmap_2_strong; [|apply NoDup_seq].
  intros i j _ _ E. by apply chain_hash_inj in E as [-> _].
Qed.

Lemma prefix_of_chain_hash bs e1 e2 t1 t2 i :
  chain_hash H NONE bs e1 t1 i = chain_hash H NONE bs e2 t2 i ->
  take (S i * bs) t1 = take (S i * bs) t2.
Proof.
  intros E. apply chain_hash_inj in E as [_ Hk]. rewrite !take_blocks. f_equal.
  apply list_fmap_ext. intros k x Hx. apply lookup_seq in Hx. apply Hk. lia.
Qed.

End Soundness.

(** * Properties *)

(** [make_block_hash_with_group_id] is invertible: the packed key gives back
    the block hash and the group id. *)
Theorem block_hash_key_roundtrip h g key :
  make_block_hash_with_group_id h g = Ok key ->
  get_block_hash key = h /\ get_group_id key = g /\ length key = (length h + 4)%nat.
Proof.
  intros [Hg ->]%make_block_hash_with_group_id_Ok.
  destruct (key_split h g) as [E1 E2]. unfold get_group_id. rewrite E1, E2.
  split; [done|]. split; [by apply be_combine_split|].
  by rewrite length_app, be_split_length.
Qed.

Lemma block_hash_key_roundtrip_witness :
  make_block_hash_with_group_id [7; 8; 9] 258 = Ok [7; 8; 9; 0; 0; 1; 2] /\
  get_block_hash [7; 8; 9; 0; 0; 1; 2] = [7; 8; 9].
Proof.
  split; [reflexivity|]. apply (block_hash_key_roundtrip [7; 8; 9] 258). reflexivity.
Defined.

Lemma append_hashes_ok H NONE bs r toks :
  mm_features r = [] -> (0 < bs)%nat -> hashes_ok H NONE bs r ->
  exists r', append_output_token_ids (Some (request_block_hasher H NONE (Z.of_nat bs))) toks r = Ok r' /\
    hashes_ok H NONE bs r' /\ mm_features r' = [] /\
    all_token_ids r' = all_token_ids r ++ toks /\
    output_token_ids r' = output_token_ids r ++ toks.
Proof.
  intros Hmm Hbs Hok. unfold append_output_token_ids.
  set (r1 := set_tokens _ _ r).
  rewrite (request_block_hasher_chain H NONE bs r1 (length (all_token_ids r) / bs)); [|done..|].
  - eexists. split; [reflexivity|]. split; [|done].
    unfold hashes_ok. cbn [block_hashes set_block_hashes all_token_ids].
    change (all_token_ids r1) with (all_token_ids r ++ toks).
    change (text_extra r1) with (text_extra r). change (block_hashes r1) with (block_hashes r).
    rewrite Hok. unfold chain_hashes.
    assert (Hle : (length (all_token_ids r) / bs <= length (all_token_ids r ++ toks) / bs)%nat).
    { apply Nat.Div0.div_le_mono. rewrite length_app. lia. }
    replace (chain_hash H NONE bs (text_extra r) (all_token_ids r) <$> seq 0 (length (all_token_ids r) / bs))
      with (chain_hash H NONE bs (text_extra r) (all_token_ids r ++ toks) <$> seq 0 (length (all_token_ids r) / bs)).
    + rewrite <-fmap_app. f_equal. rewrite <-seq_app. f_equal. lia.
    + apply list_fmap_ext. intros k x Hx. apply lookup_seq in Hx as [-> Hx]. cbn [plus].
      apply chain_hash_app. pose proof (Nat.Div0.mul_div_le (length (all_token_ids r)) bs). nia.
  - change (text_extra r1) with (text_extra r). cbn [block_hashes r1 set_tokens all_token_ids].
    rewrite Hok. unfold chain_hashes. apply list_fmap_ext. intros k x Hx.
    apply lookup_seq in Hx as [-> Hx]. symmetry. apply chain_hash_app.
    pose proof (Nat.Div0.mul_div_le (length (all_token_ids r)) bs). nia.
Qed.

Lemma request_init_hashes_ok H NONE bs now a :
  ra_mm_features a = [] -> (0 < bs)%nat ->
  forall r0, request_init now None a = Ok r0 ->
  exists r, request_init now (Some (request_block_hasher H NONE (Z.of_nat bs))) a = Ok r /\
    hashes_ok H NONE bs r /\ mm_features r = [] /\ all_token_ids r = ra_prompt_token_ids a /\
    output_token_ids r = [].
Proof.
  intros Hmm Hbs r0 H0. unfold request_init in *.
  destruct (init_status a) as [[[mt st] uso]|e]; [|done].
  cbn [mbind result_bind] in *. injection H0 as <-. set (r := mkRequest _ _ _ _ _ _ _ _ _ _ _ _ _ _ _ _ _ _ _ _ _ _ _ _ _ _ _ _).
  rewrite (request_block_hasher_chain H NONE bs r 0) by done.
  eexists. split; [reflexivity|]. cbn [mm_features all_token_ids output_token_ids set_block_hashes].
  split; [|done]. unfold hashes_ok. cbn [block_hashes set_block_hashes].
  by rewrite Nat.sub_0_r.
Qed.

(** ** Any request *)

(** A request as the engine has it after its tokens came in [chunks]. *)
Definition built H NONE (bs : nat) (now : Qc) (a : RequestArgs) (chunks : list (list Z)) : result Request :=
  let hf := request_block_hasher H NONE (Z.of_nat bs) in
  r ← request_init now (Some hf) a; foldM (fun r t => append_output_token_ids (Some hf) t r) r chunks.

Lemma append_chained H NONE bs r toks r' : (0 < bs)%nat -> chained H NONE bs r -> append_output_token_ids (Some (request_block_hasher H NONE (Z.of_nat bs))) toks r = Ok r' ->
  chained H NONE bs r' /\ all_token_ids r' = all_token_ids r ++ toks /\ lora_request r' = lora_request r /\ cache_salt r' = cache_salt r /\ mm_features r' = mm_features r.
Proof.
  intros Hbs (extra & Hk & Eb) E. unfold append_output_token_ids in E. set (r1 := set_tokens _ _ r) in E. apply bind_Ok in E as (hs & E & [= <-]). split; [|done].
  apply (hasher_chained H NONE bs r1 (length (all_token_ids r) / bs) hs Hbs); [apply Nat.Div0.div_le_mono; cbn; rewrite length_app; lia| |exact E].
  exists extra. split; [exact Hk|]. cbn [block_hashes r1 set_tokens all_token_ids]. rewrite Eb. unfold chain_hashes. apply list_fmap_ext. intros i k Hi. apply lookup_seq in Hi as [-> Hi]. symmetry. apply chain_hash_app.
  pose proof (Nat.Div0.mul_div_le (length (all_token_ids r)) bs). nia.
Qed.

Lemma init_chained H NONE bs now a r : (0 < bs)%nat -> request_init now (Some (request_block_hasher H NONE (Z.of_nat bs))) a = Ok r ->
  chained H NONE bs r /\ all_token_ids r = ra_prompt_token_ids a /\ lora_request r = ra_lora_request a /\ cache_salt r = ra_cache_salt a /\ mm_features r = ra_mm_features a.
Proof.
  intros Hbs E. unfold request_init in E. apply bind_Ok in E as ([[mt st] uso] & _ & E). set (r1 := mkRequest _ _ _ _ _ _ _ _ _ _ _ _ _ _ _ _ _ _ _ _ _ _ _ _ _ _ _ _) in E. apply bind_Ok in E as (hs & E & [= <-]).
  split; [|done]. apply (hasher_chained H NONE bs r1 0 hs Hbs); [lia| |exact E]. exists (fun _ => wrap_keys (gen_lora_extra_hash_keys r1 ++ (EKStr <$> []))). split; [|done]. intros k. by exists [].
Qed.

Lemma built_chained H NONE bs now a chunks r : (0 < bs)%nat -> built H NONE bs now a chunks = Ok r ->
  chained H NONE bs r /\ all_token_ids r = ra_prompt_token_ids a ++ concat chunks /\ lora_request r = ra_lora_request a /\ cache_salt r = ra_cache_salt a /\ mm_features r = ra_mm_features a.
Proof.
  intros Hbs E. unfold built in E. apply bind_Ok in E as (r0 & E0 & E). destruct (init_chained H NONE bs now a r0 Hbs E0) as (Hc & A1 & A2 & A3 & A4). rewrite <-A1, <-A2, <-A3, <-A4. clear E0 A1 A2 A3 A4.
  revert r0 Hc E. induction chunks as [|t chunks IH]; intros r0 Hc E; cbn [foldM concat] in *; [injection E as <-; by rewrite app_nil_r|]. apply bind_Ok in E as (r1 & E1 & E).
  destruct (append_chained H NONE bs r0 t r1 Hbs Hc E1) as (Hc1 & B1 & B2 & B3 & B4). destruct (IH r1 Hc1 E) as (Hc2 & C1 & C2 & C3 & C4). rewrite app_assoc, <-B1. split_and!; congruence.
Qed.

(** The hashes of a text request are those of all its full blocks. *)
Lemma text_built H NONE bs now a r0 chunks : ra_mm_features a = [] -> (0 < bs)%nat -> request_init now None a = Ok r0 ->
  exists r, built H NONE bs now a chunks = Ok r /\ hashes_ok H NONE bs r /\ all_token_ids r = ra_prompt_token_ids a ++ concat chunks /\ output_token_ids r = concat chunks.
Proof.
  intros Hmm Hbs H0. unfold built. set (hf := request_block_hasher H NONE (Z.of_nat bs)).
  destruct (request_init_hashes_ok H NONE bs now a Hmm Hbs r0 H0) as (r1 & E1 & Hok & Hm & Ha & Ho).
  fold hf in E1. rewrite E1. cbn [mbind result_bind]. clear E1 H0. enough (exists r, foldM (fun r t => append_output_token_ids (Some hf) t r) r1 chunks = Ok r /\ hashes_ok H NONE bs r /\ all_token_ids r = all_token_ids r1 ++ concat chunks /\ output_token_ids r = output_token_ids r1 ++ concat chunks) as (r & X1 & X2 & X3 & X4) by (exists r; rewrite Ha in X3; rewrite Ho in X4; done).
  clear Ha Ho. revert r1 Hok Hm. induction chunks as [|t chunks IH]; intros r1 Hok Hm.
  - exists r1. cbn. by rewrite !app_nil_r.
  - cbn [foldM concat].
    destruct (append_hashes_ok H NONE bs r1 t Hm Hbs Hok) as (r2 & E2 & Hok2 & Hm2 & Ha2 & Ho2).
    fold hf in E2. rewrite E2. cbn [mbind result_bind].
    destruct (IH r2 Hok2 Hm2) as (r & Er & Eh & Ea & Eo). exists r.
    rewrite !app_assoc, <-Ha2, <-Ho2. done.
Qed.

(** C32: Incremental hashing of text requests: a request without multi-modal inputs,
    built by [__init__] and extended by any sequence of [append_output_token_ids]
    calls, never fails to hash and carries exactly the hashes of all full blocks of
    its tokens, as computed from scratch by the reference chain. (With multi-modal
    inputs it need not, see [mm_item_dropped].) *)
Theorem incremental_hashes H NONE bs now a r0 chunks :
  ra_mm_features a = [] -> (0 < bs)%nat -> request_init now None a = Ok r0 ->
  let hf := request_block_hasher H NONE (Z.of_nat bs) in
  exists r, (r ← request_init now (Some hf) a;
             foldM (fun r t => append_output_token_ids (Some hf) t r) r chunks) = Ok r /\
    all_token_ids r = ra_prompt_token_ids a ++ concat chunks /\
    output_token_ids r = concat chunks /\
    block_hashes r = chain_hashes H NONE bs (text_extra r) (all_token_ids r)
                       (length (all_token_ids r) / bs).
Proof. intros Hmm Hbs H0 hf. destruct (text_built H NONE bs now a r0 chunks Hmm Hbs H0) as (r & E & Hok & Ea & Eo). by exists r. Qed.

Definition demo_args : RequestArgs :=
  mkArgs "r0" [1; 2; 3] (Some (mkSampling (Some 8) false None false [] None None demo_sampler))
    false (Some 0) 0 None [] None None 0 PNone None.

Lemma incremental_hashes_witness :
  exists r, (r ← request_init 0%Qc (Some (request_block_hasher encode_hash [0] 2)) demo_args;
             foldM (fun r t => append_output_token_ids
               (Some (request_block_hasher encode_hash [0] 2)) t r) r [[4]; [5; 6]]) = Ok r /\
    all_token_ids r = [1; 2; 3; 4; 5; 6].
Proof.
  destruct (incremental_hashes encode_hash [0] 2 0%Qc demo_args
    (match request_init 0%Qc None demo_args with Ok r => r | Err _ => mkRequest "" 0 0 None false None None 0%Qc WAITING false [] None PNone PNone None ∅ 0 [] [] [] 0 [] 0 None [] 0 0 [] end)
    [[4]; [5; 6]]) as (r & E & Ea & _ & _).
  - reflexivity.
  - lia.
  - reflexivity.
  - exists r. split; [exact E|]. rewrite Ea. reflexivity.
Defined.

Lemma chained_lookup H NONE bs r i h : chained H NONE bs r -> block_hashes r !! i = Some h -> exists extra, (forall k, keys_of r (extra k)) /\ h = chain_hash H NONE bs extra (all_token_ids r) i /\
  (S i * bs <= length (all_token_ids r))%nat.
Proof.
  intros (extra & Hk & Eb) Hi. exists extra. split; [done|]. rewrite Eb in Hi. unfold chain_hashes in Hi. apply list_lookup_fmap_Some in Hi as (j & -> & Hj). apply lookup_seq in Hj as [-> Hj]. split; [done|].
  pose proof (Nat.Div0.mul_div_le (length (all_token_ids r)) bs). nia.
Qed.

(** Equal keys of a block have the same LoRA id. *)
Lemma keys_of_lora r1 r2 e : keys_of r1 e -> keys_of r2 e -> lora_int_id <$> lora_request r1 = lora_int_id <$> lora_request r2.
Proof.
  intros [k1 E1] [k2 E2]. rewrite E1 in E2. clear E1. unfold gen_lora_extra_hash_keys in *. destruct (lora_request r1) as [l1|], (lora_request r2) as [l2|]; cbn in *; [by injection E2 as -> _|by destruct k2|by destruct k1|done].
Qed.

Lemma wrap_text_salt r1 r2 : text_extra r1 0 = text_extra r2 0 -> lora_int_id <$> lora_request r1 = lora_int_id <$> lora_request r2 -> cache_salt_keys r1 0 = cache_salt_keys r2 0.
Proof.
  unfold text_extra, gen_lora_extra_hash_keys. intros E EL. change (Z.of_nat 0) with 0 in E. destruct (lora_request r1), (lora_request r2); try done; cbn in *; [by injection E as _ E|].
  by destruct (cache_salt_keys r1 0), (cache_salt_keys r2 0); simplify_eq.
Qed.

Lemma init_without_hasher now hf a r : request_init now (Some hf) a = Ok r -> exists r0, request_init now None a = Ok r0.
Proof. unfold request_init. intros E. apply bind_Ok in E as (x & -> & _). destruct x as [[mt st] uso]. by eexists. Qed.

Lemma text_lookup H NONE bs now a chunks r i h : ra_mm_features a = [] -> (0 < bs)%nat -> built H NONE bs now a chunks = Ok r -> block_hashes r !! i = Some h ->
  h = chain_hash H NONE bs (text_extra r) (all_token_ids r) i.
Proof.
  intros Hmm Hbs E Hi. pose proof E as E'. unfold built in E'. apply bind_Ok in E' as (r1 & E1 & _). apply init_without_hasher in E1 as [r0 E0]. destruct (text_built H NONE bs now a r0 chunks Hmm Hbs E0) as (r' & E' & Hok & _).
  rewrite E in E'. injection E' as <-. rewrite Hok in Hi. unfold chain_hashes in Hi. apply list_lookup_fmap_Some in Hi as (k & -> & Hk). by apply lookup_seq in Hk as [-> _].
Qed.

(** C28: Soundness of the prefix-cache key, for the hashes that the hasher gives to
    requests: under an ideal hash function (collision free, and [NONE_HASH] is no
    block's hash), if two requests, with or without multi-modal inputs, whose tokens
    came in whatever portions, have the same hash among their block hashes, then it is
    at the same position, all tokens up to the end of this block are the same, and so
    is the LoRA id; for text requests also the cache salt. *)
Theorem block_hash_identifies_prefix H NONE `{!IdealHash H NONE} bs now1 now2 a1 a2 chunks1 chunks2 r1 r2 i j h : (0 < bs)%nat ->
  built H NONE bs now1 a1 chunks1 = Ok r1 -> built H NONE bs now2 a2 chunks2 = Ok r2 -> block_hashes r1 !! i = Some h -> block_hashes r2 !! j = Some h ->
  i = j /\ (S i * bs <= length (ra_prompt_token_ids a1 ++ concat chunks1))%nat /\
  take (S i * bs) (ra_prompt_token_ids a1 ++ concat chunks1) = take (S i * bs) (ra_prompt_token_ids a2 ++ concat chunks2) /\
  lora_int_id <$> ra_lora_request a1 = lora_int_id <$> ra_lora_request a2 /\
  (ra_mm_features a1 = [] -> ra_mm_features a2 = [] -> cache_salt_keys r1 0 = cache_salt_keys r2 0).
Proof.
  intros Hbs B1 B2 Hi Hj. destruct (built_chained H NONE bs now1 a1 chunks1 r1 Hbs B1) as (C1 & T1 & L1 & _). destruct (built_chained H NONE bs now2 a2 chunks2 r2 Hbs B2) as (C2 & T2 & L2 & _).
  destruct (chained_lookup H NONE bs r1 i h C1 Hi) as (e1 & K1 & E1 & Hlen). destruct (chained_lookup H NONE bs r2 j h C2 Hj) as (e2 & K2 & E2 & _). pose proof E2 as E. rewrite E1 in E.
  destruct (chain_hash_inj H NONE _ _ _ _ _ _ _ E) as [<- Hk]. rewrite <-T1, <-T2, <-L1, <-L2. split_and!; [done|done|by eapply prefix_of_chain_hash| |].
  - apply (keys_of_lora r1 r2 (e1 0%nat)); [done|]. destruct (Hk 0%nat ltac:(lia)) as [_ ->]. done.
  - intros M1 M2. pose proof (text_lookup H NONE bs now1 a1 chunks1 r1 i h M1 Hbs B1 Hi) as X1. pose proof (text_lookup H NONE bs now2 a2 chunks2 r2 i h M2 Hbs B2 Hj) as X2. rewrite X1 in X2.
    destruct (chain_hash_inj H NONE _ _ _ _ _ _ _ X2) as [_ Hx]. destruct (Hx 0%nat ltac:(lia)) as [_ Hx0]. apply (wrap_text_salt r1 r2 Hx0).
    apply (keys_of_lora r1 r2 (e1 0%nat)); [done|]. destruct (Hk 0%nat ltac:(lia)) as [_ ->]. done.
Qed.

Lemma block_hash_identifies_prefix_witness : exists r1 r2, built encode_hash (init_none_hash encode_hash [] (Some "7"%string)) 2 0%Qc demo_args [[4]; [5; 6]] = Ok r1 /\
  built encode_hash (init_none_hash encode_hash [] (Some "7"%string)) 2 0%Qc demo_args [[4; 9]] = Ok r2 /\ block_hashes r1 !! 1%nat = block_hashes r2 !! 1%nat /\ take 4 (all_token_ids r1) = take 4 (all_token_ids r2).
Proof.
  set (N := init_none_hash encode_hash [] (Some "7"%string)). assert (HI : IdealHash encode_hash N) by (apply seeded_ideal; [apply (ideal_inj (NONE_HASH := [0]))|done]).
  destruct (text_built encode_hash N 2 0%Qc demo_args (match request_init 0%Qc None demo_args with Ok r => r | Err _ => mkRequest "" 0 0 None false None None 0%Qc WAITING false [] None PNone PNone None ∅ 0 [] [] [] 0 [] 0 None [] 0 0 [] end) [[4]; [5; 6]])
    as (r1 & B1 & H1 & A1 & _); [reflexivity|lia|reflexivity|].
  destruct (text_built encode_hash N 2 0%Qc demo_args (match request_init 0%Qc None demo_args with Ok r => r | Err _ => mkRequest "" 0 0 None false None None 0%Qc WAITING false [] None PNone PNone None ∅ 0 [] [] [] 0 [] 0 None [] 0 0 [] end) [[4; 9]])
    as (r2 & B2 & H2 & A2 & _); [reflexivity|lia|reflexivity|].
  assert (Heq : exists h, block_hashes r1 !! 1%nat = Some h /\ block_hashes r2 !! 1%nat = Some h).
  { rewrite H1, H2, A1, A2. assert (X1 : text_extra r1 = text_extra r2) by (destruct (built_chained encode_hash N 2 0%Qc demo_args _ r1 ltac:(lia) B1) as (_ & _ & P1 & P2 & _); destruct (built_chained encode_hash N 2 0%Qc demo_args _ r2 ltac:(lia) B2) as (_ & _ & P3 & P4 & _);
      unfold text_extra, gen_lora_extra_hash_keys, cache_salt_keys; by rewrite P1, P2, P3, P4). rewrite X1. eexists. split; [reflexivity|]. reflexivity. }
  destruct Heq as (h & Hh1 & Hh2). exists r1, r2. split; [exact B1|]. split; [exact B2|]. split; [by rewrite Hh1, Hh2|]. rewrite A1, A2.
  apply (block_hash_identifies_prefix encode_hash N 2 0%Qc 0%Qc demo_args demo_args [[4]; [5; 6]] [[4; 9]] r1 r2 1 1 h); [lia|exact B1|exact B2|exact Hh1|exact Hh2].
Defined.

(** ** Multi-modal items of a block that generated tokens complete *)

(** A prompt of six tokens with an image each for the last two; the first image is
    [img]. *)
Definition image_args (img : string) : RequestArgs :=
  mkArgs "r0" [1; 2; 3; 4; 5; 5] (Some (mkSampling (Some 8) false None false [] None None demo_sampler)) false (Some 0) 0 None
    [mkFeature (mkRange 4 1) img; mkFeature (mkRange 5 1) "last"] None None 0 PNone None.

(** For a block that generated tokens complete the hasher looks at the last
    multi-modal input only: when two inputs begin in the block, requests that differ
    in the first of them have the same hash, and not that of the same tokens as a
    prompt. *)
Theorem mm_item_dropped : exists r1 r2 r3, built encode_hash [0] 4 0%Qc (image_args "x") [[7; 8]] = Ok r1 /\ built encode_hash [0] 4 0%Qc (image_args "y") [[7; 8]] = Ok r2 /\
  built encode_hash [0] 4 0%Qc (mkArgs "r0" [1; 2; 3; 4; 5; 5; 7; 8] (ra_sampling_params (image_args "x")) false (Some 0) 0 None (ra_mm_features (image_args "x")) None None 0 PNone None) [] = Ok r3 /\
  length (block_hashes r1) = 2%nat /\ block_hashes r1 = block_hashes r2 /\ all_token_ids r3 = all_token_ids r1 /\ block_hashes r3 ≠ block_hashes r1.
Proof.
  eexists _, _, _. split; [vm_compute; reflexivity|]. split; [vm_compute; reflexivity|]. split; [vm_compute; reflexivity|]. cbn. split_and!; [reflexivity|reflexivity|reflexivity|]. intros E. vm_compute in E. discriminate E.
Qed.
