(* ===== verification/BlockPool.v ===== *)
(** The block pool of src/vllm/v1/core/block_pool.py: reference counts, the
    free queue in eviction order, and the prefix-cache map from packed block
    hashes to the blocks that hold them. *)
From Stdlib Require Import ZArith Lia Ascii String QArith Qcanon.
From stdpp Require Import numbers gmap strings list.
From S2P Require Import Prelude FreeQueue Request BlockHash.

Open Scope Z_scope.

(** ** KV cache events (src/vllm/distributed/kv_events.py) *)

Inductive KVCacheEvent :=
| BlockStored (block_hashes : list ExternalBlockHash) (parent_block_hash : option ExternalBlockHash)
    (token_ids : list Z) (block_size : Z) (lora_id : option Z)
| BlockRemoved (block_hashes : list ExternalBlockHash)
| AllBlocksCleared.

(** ** State *)

(** [cached_block_hash_to_block] maps a key to an insertion-ordered dict from
    block id to block. The dict is kept as the list of its blocks in insertion
    order: the key of an entry is the [block_id] of its block. *)
Record BlockPool := mkPool {
  num_gpu_blocks : Z;
  enable_caching : bool;
  free_block_queue : FreeKVCacheBlockQueue;
  cached_block_hash_to_block : gmap BlockHashWithGroupId (list bptr);
  null_block : bptr;
  enable_kv_cache_events : bool;
  kv_event_queue : list KVCacheEvent;
  use_int_block_hashes : bool
}.

Definition pheap (P : BlockPool) : heap := fq_heap (free_block_queue P).
Definition set_queue (q : FreeKVCacheBlockQueue) (P : BlockPool) : BlockPool :=
  mkPool (num_gpu_blocks P) (enable_caching P) q (cached_block_hash_to_block P) (null_block P)
    (enable_kv_cache_events P) (kv_event_queue P) (use_int_block_hashes P).
Definition set_cached (c : gmap BlockHashWithGroupId (list bptr)) (P : BlockPool) : BlockPool :=
  mkPool (num_gpu_blocks P) (enable_caching P) (free_block_queue P) c (null_block P)
    (enable_kv_cache_events P) (kv_event_queue P) (use_int_block_hashes P).
Definition set_kv_events (es : list KVCacheEvent) (P : BlockPool) : BlockPool :=
  mkPool (num_gpu_blocks P) (enable_caching P) (free_block_queue P) (cached_block_hash_to_block P)
    (null_block P) (enable_kv_cache_events P) es (use_int_block_hashes P).

(** An attribute write on one block object. *)
Definition upd_block (p : bptr) (f : KVCacheBlock -> KVCacheBlock) (P : BlockPool) : BlockPool :=
  set_queue (mkQueue (alter f p (pheap P)) (num_free_blocks (free_block_queue P))) P.

(** Dict insertion (an existing key keeps its position) and [dict.pop(k, None)]. *)
Definition odict_add (p : bptr) (l : list bptr) : list bptr :=
  if decide (p ∈ l) then l else l ++ [p].
Definition odict_pop (p : bptr) (l : list bptr) : list bptr := filter (fun x => x ≠ p) l.

(** [BlockPool.__init__]. *)
Definition pool_init (num_blocks : Z) (caching events use_int : bool) : result BlockPool :=
  _ ← assert_ (0 <? num_blocks);
  let n := Z.to_nat num_blocks in
  let q := queue_init n (alloc_blocks n) in
  '(null, q) ← popleft q;
  Ok (upd_block null (with_null true) (mkPool num_blocks caching q ∅ null events [] use_int)).

(** ** Operations *)

(** The loop of [get_cached_block]; [None] is a cache miss. *)
Fixpoint get_cached_loop (P : BlockPool) (block_hash : BlockHash) (gids : list Z)
  (cached_blocks : list bptr) : result (option (list bptr)) :=
  match gids with
  | [] => Ok (Some cached_blocks)
  | g :: gids' =>
      key ← make_block_hash_with_group_id block_hash g;
      match cached_block_hash_to_block P !! key with
      | None | Some [] => Ok None
      | Some (first_block :: _) =>
          get_cached_loop P block_hash gids' (cached_blocks ++ [first_block])
      end
  end.

Definition get_cached_block (P : BlockPool) (block_hash : BlockHash) (kv_cache_group_ids : list Z)
  : result (option (list bptr)) :=
  get_cached_loop P block_hash kv_cache_group_ids [].

(** One iteration of the loop of [cache_full_blocks]. *)
Definition cache_one (gid : Z) (new_block_hashes : list BlockHash)
  (s : BlockPool * list ExternalBlockHash) (ib : nat * bptr)
  : result (BlockPool * list ExternalBlockHash) :=
  let '(P, new_hashes) := s in
  let '(i, blk) := ib in
  b ← load (pheap P) blk;
  _ ← assert_ (bool_decide (block_hash b = None));
  bh ← pyindex new_block_hashes (Z.of_nat i);
  key ← make_block_hash_with_group_id bh gid;
  b' ← set_block_hash key b;
  let P := upd_block blk (fun _ => b') P in
  let inner := default [] (cached_block_hash_to_block P !! key) in
  let P := set_cached (<[key := odict_add blk inner]> (cached_block_hash_to_block P)) P in
  Ok (P, if enable_kv_cache_events P
         then new_hashes ++ [maybe_convert_block_hash (use_int_block_hashes P) bh]
         else new_hashes).

(** The event published by [cache_full_blocks]. [request.lora_request.id] is
    an attribute [LoRARequest] (src/vllm/lora/request.py) does not have. *)
Definition stored_event (r : Request) (P : BlockPool) (blocks : list bptr)
  (num_cached_blocks num_full_blocks block_size : Z) (new_hashes : list ExternalBlockHash)
  : result KVCacheEvent :=
  parent ←
    (if num_cached_blocks =? 0 then Ok None else
     parent_block ← pyindex blocks (num_cached_blocks - 1);
     b ← load (pheap P) parent_block;
     key ← get_or AssertionError (block_hash b);
     Ok (Some (maybe_convert_block_hash (use_int_block_hashes P) (get_block_hash key))));
  lora_id ← match lora_request r with None => Ok None | Some _ => Err AttributeError end;
  Ok (BlockStored new_hashes parent
        (pyslice (num_cached_blocks * block_size) (num_full_blocks * block_size) (all_token_ids r))
        block_size lora_id).

Definition cache_full_blocks (r : Request) (blocks : list bptr)
  (num_cached_blocks num_full_blocks block_size kv_cache_group_id : Z) (P : BlockPool)
  : result BlockPool :=
  if num_cached_blocks =? num_full_blocks then Ok P else
  let new_full_blocks := pyslice num_cached_blocks num_full_blocks blocks in
  _ ← assert_ (num_full_blocks <=? zlen (block_hashes r));
  let new_block_hashes := pydrop num_cached_blocks (block_hashes r) in
  '(P, new_hashes) ← foldM (cache_one kv_cache_group_id new_block_hashes) (P, [])
                      (zip (seq 0 (length new_full_blocks)) new_full_blocks);
  if enable_kv_cache_events P then
    ev ← stored_event r P blocks num_cached_blocks num_full_blocks block_size new_hashes;
    Ok (set_kv_events (kv_event_queue P ++ [ev]) P)
  else Ok P.

Definition get_num_free_blocks (P : BlockPool) : Z := num_free_blocks (free_block_queue P).

Definition maybe_evict_cached_block (p : bptr) (P : BlockPool) : result (bool * BlockPool) :=
  b ← load (pheap P) p;
  match block_hash b with
  | None => Ok (false, P)
  | Some key =>
      match cached_block_hash_to_block P !! key with
      | None => Ok (false, P)
      | Some blocks_by_id =>
          let P := upd_block p reset_hash P in
          let blocks_by_id := odict_pop p blocks_by_id in
          let c := cached_block_hash_to_block P in
          let P := set_cached (if decide (blocks_by_id = []) then delete key c
                               else <[key := blocks_by_id]> c) P in
          let P := if enable_kv_cache_events P then
            set_kv_events (kv_event_queue P ++
              [BlockRemoved [maybe_convert_block_hash (use_int_block_hashes P) (get_block_hash key)]]) P
            else P in
          Ok (true, P)
      end
  end.

(** The body of the allocation loop, with and without caching. *)
Definition take_block (P : BlockPool) (p : bptr) : result BlockPool :=
  P ← (if enable_caching P then '(_, P) ← maybe_evict_cached_block p P; Ok P else Ok P);
  b ← load (pheap P) p;
  _ ← assert_ (ref_cnt b =? 0);
  Ok (upd_block p (with_ref (ref_cnt b + 1)) P).

Definition get_new_blocks (num_blocks : Z) (P : BlockPool) : result (list bptr * BlockPool) :=
  _ ← raise_if (get_num_free_blocks P <? num_blocks) ValueError;
  '(ret, q) ← popleft_n num_blocks (free_block_queue P);
  P ← foldM take_block (set_queue q P) ret;
  Ok (ret, P).

Definition touch_block (P : BlockPool) (p : bptr) : result BlockPool :=
  b ← load (pheap P) p;
  P ← (if (ref_cnt b =? 0) && negb (is_null b) then
         q ← remove p (free_block_queue P); Ok (set_queue q P)
       else Ok P);
  Ok (upd_block p (with_ref (ref_cnt b + 1)) P).

Definition touch (blocks : list (list bptr)) (P : BlockPool) : result BlockPool :=
  foldM (fun P blocks_per_group => foldM touch_block P blocks_per_group) P blocks.

Definition release_block (P : BlockPool) (p : bptr) : result BlockPool :=
  b ← load (pheap P) p;
  Ok (upd_block p (with_ref (ref_cnt b - 1)) P).

(** [block.ref_cnt == 0 and not block.is_null] of the comprehension in
    [free_blocks]. *)
Definition evictable (P : BlockPool) (p : bptr) : bool :=
  match pheap P !! p with
  | Some b => (ref_cnt b =? 0) && negb (is_null b)
  | None => false
  end.

Definition free_blocks (ordered_blocks : list bptr) (P : BlockPool) : result BlockPool :=
  P ← foldM release_block P ordered_blocks;
  q ← append_n (filter (fun p => evictable P p = true) ordered_blocks) (free_block_queue P);
  Ok (set_queue q P).

Definition reset_prefix_cache (P : BlockPool) : bool * BlockPool :=
  let num_used_blocks := num_gpu_blocks P - get_num_free_blocks P in
  if negb (num_used_blocks =? 1) then (false, P) else
  let P := set_cached ∅ P in
  let P := foldl (fun P i => upd_block (PBlk i) reset_hash P) P (seq 0 (Z.to_nat (num_gpu_blocks P))) in
  (true, if enable_kv_cache_events P then set_kv_events (kv_event_queue P ++ [AllBlocksCleared]) P
         else P).

(** [get_usage]: a float division, as an exact rational. *)
Definition get_usage (P : BlockPool) : Qc :=
  let total_gpu_blocks := num_gpu_blocks P - 1 in
  if total_gpu_blocks =? 0 then 0%Qc
  else (1 - Qc_of_Z (get_num_free_blocks P) / Qc_of_Z total_gpu_blocks)%Qc.

Definition take_kv_events (P : BlockPool) : list KVCacheEvent * BlockPool :=
  if negb (enable_kv_cache_events P) then ([], P)
  else (kv_event_queue P, set_kv_events [] P).

(** * Invariant *)

(** Identifier, reference count, hash and null flag of block [i]. *)
Definition bd (P : BlockPool) (i : nat) : option (Z * Z * option BlockHashWithGroupId * bool) :=
  data <$> pheap P !! PBlk i.

(** Reference count and hash of a block of the pool. *)
Definition refc (P : BlockPool) (i : nat) : Z :=
  match bd P i with Some (_, c, _, _) => c | None => 0 end.
Definition hashof (P : BlockPool) (i : nat) : option BlockHashWithGroupId :=
  match bd P i with Some (_, _, h, _) => h | None => None end.

Definition cached_at (P : BlockPool) (k : BlockHashWithGroupId) : list bptr :=
  default [] (cached_block_hash_to_block P !! k).

(** Consistency of the block data and the prefix-cache map. Block 0 is the
    null block, which is never cached; a block is filed under exactly the key
    it carries. *)
Record pool_core (P : BlockPool) : Prop := mkPoolCore {
  pc_pos : 0 < num_gpu_blocks P;
  pc_dom : forall i, is_Some (bd P i) <-> (i < Z.to_nat (num_gpu_blocks P))%nat;
  pc_data : forall i k c h nl, bd P i = Some (k, c, h, nl) ->
    k = Z.of_nat i /\ nl = bool_decide (i = 0%nat) /\ (i = 0%nat -> h = None);
  pc_null : null_block P = PBlk 0;
  pc_cache : forall k i, PBlk i ∈ cached_at P k <-> hashof P i = Some k;
  pc_cache_wf : forall k ps, cached_block_hash_to_block P !! k = Some ps ->
    ps ≠ [] /\ NoDup ps /\ Forall (fun p => exists i, p = PBlk i) ps;
  pc_nocache : enable_caching P = false -> cached_block_hash_to_block P = ∅
}.

(** The pool invariant: [l] is the free list in eviction order, and a block
    is free exactly when it is not the null block and nobody references it. *)
Record pool_inv (P : BlockPool) (l : list nat) : Prop := mkPoolInv {
  pi_core : pool_core P;
  pi_queue : is_queue (free_block_queue P) l;
  pi_ref : forall i, i ≠ 0%nat -> 0 <= refc P i;
  pi_free : forall i, (i < Z.to_nat (num_gpu_blocks P))%nat -> i ∈ l <-> i ≠ 0%nat /\ refc P i = 0
}.

(** The parts of the pool no operation changes. *)
Definition same_config (P P' : BlockPool) : Prop :=
  num_gpu_blocks P' = num_gpu_blocks P /\ enable_caching P' = enable_caching P /\
  null_block P' = null_block P /\ enable_kv_cache_events P' = enable_kv_cache_events P.

#[export] Instance same_config_preorder : PreOrder same_config.
Proof. unfold same_config. split; [done|]. intros P1 P2 P3. naive_solver congruence. Qed.

(** ** Elementary facts *)

(** A pointer to a block of the pool. *)
Definition valid (P : BlockPool) (p : bptr) : Prop :=
  exists i, p = PBlk i /\ (i < Z.to_nat (num_gpu_blocks P))%nat.

Lemma core_load P i :
  pool_core P -> (i < Z.to_nat (num_gpu_blocks P))%nat ->
  exists b, pheap P !! PBlk i = Some b /\ load (pheap P) (PBlk i) = Ok b /\
    block_id b = Z.of_nat i /\ ref_cnt b = refc P i /\ block_hash b = hashof P i /\
    is_null b = bool_decide (i = 0%nat) /\ bd P i = Some (data b).
Proof.
  intros HI Hi. destruct (proj2 (pc_dom _ HI i) Hi) as [[[[k c] h] nl] Hd].
  assert (Hd' := Hd). unfold bd in Hd'.
  destruct (pheap P !! PBlk i) as [b|] eqn:Hb; [|done]. cbn in Hd'. unfold data in Hd'.
  injection Hd' as <- <- <- <-. exists b. unfold load, refc, hashof. rewrite Hb, Hd.
  destruct (pc_data _ HI _ _ _ _ _ Hd) as (? & ? & _). done.
Qed.

Lemma pool_free_valid P l i : pool_inv P l -> i ∈ l -> (i < Z.to_nat (num_gpu_blocks P))%nat.
Proof.
  intros HI Hi. apply (pc_dom _ (pi_core _ _ HI)).
  pose proof (is_queue_alloc _ _ (PBlk i) (pi_queue _ _ HI)) as Ha.
  rewrite elem_of_nodes_blk in Ha. destruct (Ha Hi) as [b Hb]. unfold bd, pheap. rewrite Hb. by eexists.
Qed.

Lemma pool_free_num P l : pool_inv P l -> get_num_free_blocks P = zlen l.
Proof. intros HI. apply (pi_queue _ _ HI). Qed.

Lemma core_hash_null P : pool_core P -> hashof P 0 = None.
Proof.
  intros HI. unfold hashof. destruct (bd P 0) as [[[[k c] h] nl]|] eqn:Hd; [|done].
  destruct (pc_data _ HI _ _ _ _ _ Hd) as (_ & _ & H). auto.
Qed.

Lemma core_hash_valid P i k : pool_core P -> hashof P i = Some k ->
  (i < Z.to_nat (num_gpu_blocks P))%nat /\ i ≠ 0%nat.
Proof.
  intros HI Hh. split.
  - apply (pc_dom _ HI). unfold hashof in Hh. destruct (bd P i); [by eexists|done].
  - intros ->. by rewrite core_hash_null in Hh.
Qed.

Lemma cached_hash P k p :
  pool_core P -> p ∈ cached_at P k ->
  exists i, p = PBlk i /\ hashof P i = Some k.
Proof.
  intros HI Hp. assert (Hp' := Hp). unfold cached_at in Hp.
  destruct (cached_block_hash_to_block P !! k) as [ps|] eqn:E; [|by apply elem_of_nil in Hp].
  cbn in Hp. destruct (pc_cache_wf _ HI _ _ E) as (_ & _ & Hf).
  rewrite Forall_forall in Hf. destruct (Hf p Hp) as [i ->].
  exists i. split; [done|]. by apply (pc_cache _ HI).
Qed.

Lemma core_nocache_hash P i : pool_core P -> enable_caching P = false -> hashof P i = None.
Proof.
  intros HI Hc. destruct (hashof P i) as [k|] eqn:E; [|done].
  apply (pc_cache _ HI) in E. unfold cached_at in E.
  rewrite (pc_nocache _ HI Hc), lookup_empty in E. by apply elem_of_nil in E.
Qed.

(** [bd] after the elementary updates. *)
Lemma bd_upd P p f i :
  bd (upd_block p f P) i =
    if decide (p = PBlk i) then data ∘ f <$> pheap P !! PBlk i else bd P i.
Proof.
  unfold bd, upd_block, pheap. cbn. rewrite lookup_alter. case_decide; subst; [|done].
  by destruct (fq_heap (free_block_queue P) !! PBlk i).
Qed.

Lemma bd_set_queue P q i : data_eq (fq_heap q) (pheap P) -> bd (set_queue q P) i = bd P i.
Proof. intros H. unfold bd, pheap. cbn. apply H. Qed.

(** Writing a non-link attribute leaves the queue alone. *)
Lemma is_queue_alter q l p f :
  is_queue q l ->
  (forall b, prev_free_block (f b) = prev_free_block b /\ next_free_block (f b) = next_free_block b) ->
  is_queue (mkQueue (alter f p (fq_heap q)) (num_free_blocks q)) l.
Proof.
  intros Hq Hf.
  assert (Hn : forall r, nxt (alter f p (fq_heap q)) r = nxt (fq_heap q) r).
  { intros r. unfold nxt. rewrite lookup_alter. case_decide; subst; [|done].
    destruct (fq_heap q !! r) as [b|]; [|done]. cbn. apply Hf. }
  assert (Hp : forall r, prv (alter f p (fq_heap q)) r = prv (fq_heap q) r).
  { intros r. unfold prv. rewrite lookup_alter. case_decide; subst; [|done].
    destruct (fq_heap q !! r) as [b|]; [|done]. cbn. apply Hf. }
  destruct Hq as [Hc Hnd Hnum Htl Hout]. split; cbn [fq_heap num_free_blocks]; try done.
  - change (PHead :: (PBlk <$> l) ++ [PTail]) with ((PHead :: (PBlk <$> l)) ++ [PTail]) in *.
    apply chain_frame with (fq_heap q); [auto..|done].
  - by rewrite Hn.
  - intros i Hi. rewrite Hn, Hp. auto.
Qed.

(** The same for overwriting a block with a copy that has the same links. *)
Lemma is_queue_alter_const q l p (b b' : KVCacheBlock) :
  is_queue q l -> fq_heap q !! p = Some b ->
  prev_free_block b' = prev_free_block b -> next_free_block b' = next_free_block b ->
  is_queue (mkQueue (alter (fun _ => b') p (fq_heap q)) (num_free_blocks q)) l.
Proof.
  intros Hq Hb Hp Hn.
  replace (alter (fun _ => b') p (fq_heap q))
    with (alter (fun x => mkBlock (block_id b') (ref_cnt b') (block_hash b') (prev_free_block x)
                   (next_free_block x) (is_null b')) p (fq_heap q)).
  - by apply is_queue_alter.
  - apply map_eq. intros r. rewrite !lookup_alter. case_decide; subst; [|done].
    rewrite Hb. cbn. rewrite <-Hp, <-Hn. by destruct b'.
Qed.

(** ** Changing reference counts *)

(** Occurrences of block [i] in a list of references. *)
Fixpoint occ (i : nat) (ps : list bptr) : Z :=
  match ps with
  | [] => 0
  | p :: ps' => (if decide (p = PBlk i) then 1 else 0) + occ i ps'
  end.

(** [P'] is [P] with [f i] added to the reference count of every block [i]. *)
Definition bump (f : nat -> Z) (P P' : BlockPool) : Prop :=
  same_config P P' /\ cached_block_hash_to_block P' = cached_block_hash_to_block P /\
  kv_event_queue P' = kv_event_queue P /\
  forall i, bd P' i = (fun '(k, c, h, nl) => (k, c + f i, h, nl)) <$> bd P i.

Lemma occ_nonneg i ps : 0 <= occ i ps.
Proof. induction ps; cbn; [lia|]. case_decide; lia. Qed.

Lemma occ_app i ps1 ps2 : occ i (ps1 ++ ps2) = occ i ps1 + occ i ps2.
Proof. induction ps1; cbn; [done|]. lia. Qed.

Lemma occ_pos i ps : 0 < occ i ps <-> PBlk i ∈ ps.
Proof.
  induction ps as [|p ps IH]; cbn; [by rewrite elem_of_nil|].
  rewrite elem_of_cons, <-IH. pose proof (occ_nonneg i ps). case_decide; naive_solver lia.
Qed.

Lemma occ_zero i ps : PBlk i ∉ ps -> occ i ps = 0.
Proof. rewrite <-occ_pos. pose proof (occ_nonneg i ps). lia. Qed.

Lemma occ_rev i ps : occ i (reverse ps) = occ i ps.
Proof.
  induction ps as [|p ps IH]; [done|]. rewrite reverse_cons, occ_app, IH. cbn. lia.
Qed.

Lemma bump_refl P : bump (fun _ => 0) P P.
Proof.
  split; [done|]. split; [done|]. split; [done|]. intros i.
  destruct (bd P i) as [[[[k c] h] nl]|]; [|done]. cbn. by rewrite Z.add_0_r.
Qed.

Lemma bump_trans f g h P1 P2 P3 :
  bump f P1 P2 -> bump g P2 P3 -> (forall i, h i = f i + g i) -> bump h P1 P3.
Proof.
  intros (S1 & C1 & E1 & B1) (S2 & C2 & E2 & B2) Hh.
  split; [by etransitivity|]. split; [congruence|]. split; [congruence|].
  intros i. rewrite B2, B1, Hh. destruct (bd P1 i) as [[[[k c] hh] nl]|]; [|done].
  cbn. by rewrite Z.add_assoc.
Qed.

Lemma bump_refc f P P' i : bump f P P' -> is_Some (bd P i) -> refc P' i = refc P i + f i.
Proof.
  intros (_ & _ & _ & B) [[[[k c] h] nl] Hd]. unfold refc. rewrite B, Hd. done.
Qed.

Lemma bump_hashof f P P' i : bump f P P' -> hashof P' i = hashof P i.
Proof.
  intros (_ & _ & _ & B). unfold hashof. rewrite B.
  by destruct (bd P i) as [[[[k c] h] nl]|].
Qed.

Lemma bump_core f P P' : bump f P P' -> pool_core P -> pool_core P'.
Proof.
  intros HB HC. pose proof (fun i => bump_hashof f P P' i HB) as Hh.
  destruct HB as ((S1 & S2 & S3 & S4) & C & E & B). destruct HC as [? Hdom Hdata Hnull Hcache Hwf Hnc].
  split; rewrite ?S1, ?S2, ?S3, ?C; try done.
  - intros i. rewrite B, fmap_is_Some. apply Hdom.
  - intros i k c h nl Hd. rewrite B in Hd.
    destruct (bd P i) as [[[[k' c'] h'] nl']|] eqn:E'; [|done].
    cbn in Hd. injection Hd as <- <- <- <-. by eapply Hdata.
  - intros k i. unfold cached_at. rewrite C, Hh. apply Hcache.
Qed.

Lemma bump_valid f P P' p : bump f P P' -> valid P' p <-> valid P p.
Proof. intros ((S1 & _) & _). unfold valid. by rewrite S1. Qed.

(** Re-establishing the invariant after a bump. *)
Lemma bump_inv f P P' l l' :
  bump f P P' -> pool_inv P l -> is_queue (free_block_queue P') l' ->
  (forall i, (i < Z.to_nat (num_gpu_blocks P))%nat -> i ≠ 0%nat -> 0 <= refc P i + f i) ->
  (forall i, (i < Z.to_nat (num_gpu_blocks P))%nat ->
     i ∈ l' <-> i ≠ 0%nat /\ refc P i + f i = 0) ->
  pool_inv P' l'.
Proof.
  intros HB HI Hq Hpos Hfree. pose proof (pi_core _ _ HI) as HC.
  assert (Hn : num_gpu_blocks P' = num_gpu_blocks P) by apply HB.
  split; [by eapply bump_core|done| |].
  - intros i Hi. destruct (decide (i < Z.to_nat (num_gpu_blocks P))%nat) as [Hv|Hv].
    + rewrite (bump_refc _ _ _ _ HB); [auto|]. by apply (pc_dom _ HC).
    + unfold refc. destruct (bd P' i) eqn:E; [|lia].
      exfalso. apply Hv. rewrite <-Hn. apply (pc_dom _ (bump_core _ _ _ HB HC)). by rewrite E.
  - intros i Hi. rewrite Hn in Hi. rewrite (bump_refc _ _ _ _ HB); [auto|]. by apply (pc_dom _ HC).
Qed.

Lemma upd_ref_bump P i b d :
  pheap P !! PBlk i = Some b ->
  bump (fun j => if decide (i = j) then d else 0) P (upd_block (PBlk i) (with_ref (ref_cnt b + d)) P).
Proof.
  intros Hb. split; [done|]. split; [done|]. split; [done|]. intros j. rewrite bd_upd.
  destruct (decide (i = j)) as [->|Hij].
  - rewrite decide_True by done. unfold bd. rewrite Hb. done.
  - rewrite decide_False by congruence. destruct (bd P j) as [[[[k c] h] nl]|]; [|done].
    cbn. by rewrite Z.add_0_r.
Qed.

Lemma upd_ref_queue P p c l :
  is_queue (free_block_queue P) l -> is_queue (free_block_queue (upd_block p (with_ref c) P)) l.
Proof. intros Hq. apply is_queue_alter; done. Qed.

(** ** [touch] *)

Lemma touch_block_step P l i :
  pool_inv P l -> (i < Z.to_nat (num_gpu_blocks P))%nat ->
  exists P', touch_block P (PBlk i) = Ok P' /\
    pool_inv P' (filter (fun j => j ≠ i) l) /\ bump (fun j => if decide (i = j) then 1 else 0) P P'.
Proof.
  intros HI Hi. pose proof (pi_core _ _ HI) as HC.
  destruct (core_load P i HC Hi) as (b & Hb & Hl & _ & Hr & _ & Hnl & _).
  unfold touch_block. rewrite Hl. cbn [mbind result_bind].
  assert (Hrefs : forall j, (j < Z.to_nat (num_gpu_blocks P))%nat -> j ≠ 0%nat ->
    0 <= refc P j + (if decide (i = j) then 1 else 0)).
  { intros j _ Hj0. pose proof (pi_ref _ _ HI j Hj0). destruct (decide (i = j)); lia. }
  assert (Hfree : forall j, (j < Z.to_nat (num_gpu_blocks P))%nat ->
    j ∈ filter (fun j => j ≠ i) l <-> j ≠ 0%nat /\ refc P j + (if decide (i = j) then 1 else 0) = 0).
  { intros j Hj. rewrite list_elem_of_filter, (pi_free _ _ HI j Hj).
    destruct (decide (i = j)) as [<-|Hij].
    - split; [naive_solver|]. intros [H0 Hc]. pose proof (pi_ref _ _ HI i H0). lia.
    - rewrite Z.add_0_r. naive_solver. }
  destruct ((ref_cnt b =? 0) && negb (is_null b)) eqn:Hev.
  - apply andb_true_iff in Hev as [H0 Hn]. apply Z.eqb_eq in H0. rewrite Hnl in Hn.
    apply negb_true_iff, bool_decide_eq_false in Hn.
    assert (Hin : i ∈ l) by (apply (pi_free _ _ HI); [done|split; [done|lia]]).
    apply list_elem_of_split in Hin as (l1 & l2 & ->).
    destruct (remove_step _ _ _ _ (pi_queue _ _ HI)) as (q & Eq & Hq & Hdata).
    rewrite Eq. cbn [mbind result_bind]. eexists. split; [reflexivity|].
    assert (Hnd := iq_nodup _ _ (pi_queue _ _ HI)). apply NoDup_app in Hnd as (Hn1 & Hd1 & Hn2).
    apply NoDup_cons in Hn2 as [Hx2 _].
    assert (Hfl : filter (fun j => j ≠ i) (l1 ++ i :: l2) = l1 ++ l2).
    { rewrite filter_app, filter_cons_False by naive_solver.
      rewrite !filter_all; [done| |]; intros y Hy ->; [done|]. by eapply Hd1; [exact Hy|set_solver]. }
    assert (HB : bump (fun j => if decide (i = j) then 1 else 0) P
      (upd_block (PBlk i) (with_ref (ref_cnt b + 1)) (set_queue q P))).
    { destruct (data_eq_lookup (pheap P) (fq_heap q) (PBlk i) b) as (b' & Hb' & Hdb);
        [by symmetry|done|].
      assert (ref_cnt b = ref_cnt b') as -> by (unfold data in Hdb; congruence).
      eapply bump_trans; [|by apply upd_ref_bump|].
      - split; [done|]. split; [done|]. split; [done|]. intros j. rewrite bd_set_queue by done.
        instantiate (1 := fun _ => 0). destruct (bd P j) as [[[[? c] ?] ?]|]; [|done].
        cbn. by rewrite Z.add_0_r.
      - intros j. done. }
    split; [|done]. eapply bump_inv; [exact HB|exact HI| |exact Hrefs|exact Hfree].
    rewrite Hfl. by apply upd_ref_queue.
  - cbn [mbind result_bind]. eexists. split; [reflexivity|].
    assert (Hnin : i ∉ l).
    { intros Hin. apply (pi_free _ _ HI) in Hin as [H0 Hc]; [|done].
      rewrite Hr, Hc, Hnl in Hev. rewrite bool_decide_false in Hev by done. done. }
    assert (Hfl : filter (fun j => j ≠ i) l = l) by (apply filter_all; naive_solver).
    split; [|by apply upd_ref_bump].
    eapply bump_inv; [by apply upd_ref_bump|exact HI| |exact Hrefs|exact Hfree].
    rewrite Hfl. apply upd_ref_queue, HI.
Qed.

Lemma touch_list P l ps :
  pool_inv P l -> (forall p, p ∈ ps -> valid P p) ->
  exists P', foldM touch_block P ps = Ok P' /\
    pool_inv P' (filter (fun j => PBlk j ∉ ps) l) /\ bump (fun i => occ i ps) P P'.
Proof.
  revert P l. induction ps as [|p ps IH]; intros P l HI Hv.
  - exists P. split; [done|]. split; [|apply bump_refl].
    rewrite filter_all; [done|]. intros x _. apply not_elem_of_nil.
  - destruct (Hv p) as (i & -> & Hi); [rewrite elem_of_cons; by left|].
    destruct (touch_block_step P l i HI Hi) as (P1 & E1 & HI1 & HB1).
    destruct (IH P1 _ HI1) as (P2 & E2 & HI2 & HB2).
    { intros p Hp. apply (bump_valid _ _ _ _ HB1). apply Hv. rewrite elem_of_cons. by right. }
    exists P2. cbn [foldM]. rewrite E1. cbn [mbind result_bind]. split; [done|]. split.
    + rewrite filter_filter in HI2.
      erewrite filter_ext_in; [exact HI2|]. intros j _. cbn.
      rewrite not_elem_of_cons. naive_solver.
    + eapply bump_trans; [exact HB1|exact HB2|]. intros j. cbn.
      destruct (decide (i = j)), (decide (PBlk i = PBlk j)); congruence || lia.
Qed.

(** ** [free_blocks] *)

Lemma release_list P l ps :
  pool_core P -> is_queue (free_block_queue P) l -> (forall p, p ∈ ps -> valid P p) ->
  exists P', foldM release_block P ps = Ok P' /\ is_queue (free_block_queue P') l /\
    bump (fun i => - occ i ps) P P'.
Proof.
  revert P. induction ps as [|p ps IH]; intros P HC Hq Hv.
  { exists P. split; [done|]. split; [done|]. apply bump_refl. }
  destruct (Hv p) as (i & -> & Hi); [rewrite elem_of_cons; by left|].
  destruct (core_load P i HC Hi) as (b & Hb & Hl & _).
  assert (E1 : release_block P (PBlk i) = Ok (upd_block (PBlk i) (with_ref (ref_cnt b + -1)) P)).
  { unfold release_block. by rewrite Hl. }
  cbn [foldM]. rewrite E1. cbn [mbind result_bind].
  pose proof (upd_ref_bump P i b (-1) Hb) as HB1.
  destruct (IH (upd_block (PBlk i) (with_ref (ref_cnt b + -1)) P)) as (P2 & E2 & Hq2 & HB2).
  - by eapply bump_core.
  - by apply upd_ref_queue.
  - intros p Hp. apply (bump_valid _ _ _ _ HB1). apply Hv. rewrite elem_of_cons. by right.
  - exists P2. split; [done|]. split; [done|]. eapply bump_trans; [exact HB1|exact HB2|].
    intros j. cbn. destruct (decide (i = j)), (decide (PBlk i = PBlk j)); congruence || lia.
Qed.

(** The blocks of a list of references, as identifiers. *)
Definition blk_ids (ps : list bptr) : list nat :=
  omap (fun p => match p with PBlk i => Some i | _ => None end) ps.

(** The blocks of [ps] whose last reference is dropped, in order. *)
Definition freed_ids (P : BlockPool) (ps : list bptr) : list nat :=
  filter (fun i => i ≠ 0%nat /\ refc P i = 1) (blk_ids ps).

Lemma elem_of_blk_ids ps i : i ∈ blk_ids ps <-> PBlk i ∈ ps.
Proof.
  unfold blk_ids. rewrite list_elem_of_omap. split.
  - intros (p & Hp & E). destruct p; naive_solver.
  - intros Hp. by exists (PBlk i).
Qed.

Lemma filter_blk_ids (Q : bptr -> Prop) `{!forall p, Decision (Q p)} ps :
  (forall p, p ∈ ps -> exists i, p = PBlk i) ->
  filter Q ps = PBlk <$> filter (fun i => Q (PBlk i)) (blk_ids ps).
Proof.
  induction ps as [|p ps IH]; intros Hp; [done|].
  destruct (Hp p) as [i ->]; [rewrite elem_of_cons; by left|].
  cbn [blk_ids omap list_omap]. rewrite !filter_cons.
  rewrite IH by (intros q Hq; apply Hp; rewrite elem_of_cons; by right).
  destruct (decide (Q (PBlk i))); done.
Qed.

Lemma freed_NoDup (Q : nat -> Prop) `{!forall i, Decision (Q i)} ps :
  (forall i, Q i -> occ i ps <= 1) -> NoDup (filter Q (blk_ids ps)).
Proof.
  induction ps as [|p ps IH]; intros Ho; [constructor|].
  assert (IH' : NoDup (filter Q (blk_ids ps))).
  { apply IH. intros i Hi. specialize (Ho i Hi). cbn in Ho.
    destruct (decide (p = PBlk i)); lia. }
  destruct p as [| |i]; try done.
  cbn [blk_ids omap list_omap]. fold (blk_ids ps). rewrite filter_cons.
  destruct (decide (Q i)) as [Hq|Hq]; [|done].
  apply NoDup_cons. split; [|done].
  rewrite list_elem_of_filter, elem_of_blk_ids, <-occ_pos. intros [_ Hi].
  specialize (Ho i Hq). cbn in Ho. rewrite decide_True in Ho by done. lia.
Qed.

Lemma free_blocks_step P l ps :
  pool_inv P l -> (forall p, p ∈ ps -> valid P p) ->
  (forall i, i ≠ 0%nat -> occ i ps <= 1 /\ occ i ps <= refc P i) ->
  exists P', free_blocks ps P = Ok P' /\ pool_inv P' (l ++ freed_ids P ps) /\
    bump (fun i => - occ i ps) P P'.
Proof.
  intros HI Hv Ho. pose proof (pi_core _ _ HI) as HC.
  destruct (release_list P l ps HC (pi_queue _ _ HI) Hv) as (P1 & E1 & Hq1 & HB1).
  unfold free_blocks. rewrite E1. cbn [mbind result_bind].
  pose proof (bump_core _ _ _ HB1 HC) as HC1.
  assert (Hn1 : num_gpu_blocks P1 = num_gpu_blocks P) by apply HB1.
  assert (Hev : filter (fun p => evictable P1 p = true) ps = PBlk <$> freed_ids P ps).
  { rewrite filter_blk_ids by (intros p Hp; destruct (Hv p Hp) as (i & -> & _); eauto).
    f_equal. apply filter_ext_in. intros i Hi. apply elem_of_blk_ids in Hi.
    destruct (Hv _ Hi) as (? & [= <-] & Hlt).
    destruct (core_load P1 i HC1) as (b & Hb & _ & _ & Hr & _ & Hnl & _); [by rewrite Hn1|].
    unfold evictable. rewrite Hb, Hnl, Hr.
    rewrite (bump_refc _ _ _ _ HB1) by (by apply (pc_dom _ HC)).
    apply occ_pos in Hi. rewrite andb_true_iff, Z.eqb_eq, negb_true_iff, bool_decide_eq_false.
    split; intros [H1 H2]; [specialize (Ho i H2)|specialize (Ho i H1)]; split; try done; lia. }
  rewrite Hev.
  assert (Hval : forall i, i ∈ freed_ids P ps -> i ≠ 0%nat /\ refc P i = 1 /\ PBlk i ∈ ps /\
            (i < Z.to_nat (num_gpu_blocks P))%nat).
  { intros i. unfold freed_ids. rewrite list_elem_of_filter, elem_of_blk_ids. intros [[H0 H1] Hin].
    destruct (Hv _ Hin) as (? & [= <-] & ?). done. }
  destruct (append_n_step _ l (freed_ids P ps) Hq1) as (q & Eq & Hq & Hdata).
  - apply NoDup_app. split; [apply (iq_nodup _ _ Hq1)|]. split.
    + intros i Hi Hf. apply Hval in Hf as (_ & H1 & _ & Hlt).
      apply (pi_free _ _ HI) in Hi; [|done]. lia.
    + apply freed_NoDup. intros i [H0 _]. by apply Ho.
  - intros i Hi. apply Hval in Hi as (_ & _ & _ & Hlt).
    destruct (core_load P1 i HC1) as (b & Hb & _); [by rewrite Hn1|]. unfold pheap in Hb. eauto.
  - rewrite Eq. cbn [mbind result_bind]. eexists. split; [reflexivity|].
    assert (HB : bump (fun i => - occ i ps) P (set_queue q P1)).
    { destruct HB1 as (? & ? & ? & B). split; [done|]. split; [done|]. split; [done|].
      intros i. by rewrite bd_set_queue. }
    split; [|done]. eapply bump_inv; [exact HB|exact HI|exact Hq| |].
    + intros i Hi H0. specialize (Ho i H0). lia.
    + intros i Hi. rewrite elem_of_app, (pi_free _ _ HI i Hi).
      unfold freed_ids. rewrite list_elem_of_filter, elem_of_blk_ids, <-occ_pos.
      pose proof (occ_nonneg i ps).
      destruct (decide (i = 0%nat)) as [->|H0]; [naive_solver|].
      specialize (Ho i H0). pose proof (pi_ref _ _ HI i H0). naive_solver lia.
Qed.

(** ** Eviction and allocation *)

(** [P'] is [P] with the blocks of [ps] stripped of their hash, removed from
    the prefix cache and given reference count [c]. *)
Definition taken (c : Z) (ps : list bptr) (P P' : BlockPool) : Prop :=
  same_config P P' /\
  (forall i, bd P' i = if decide (PBlk i ∈ ps)
     then (fun '(k, _, _, nl) => (k, c, None, nl)) <$> bd P i else bd P i) /\
  (forall key, cached_at P' key = filter (fun p => p ∉ ps) (cached_at P key)).

Lemma hashof_taken c ps P P' i :
  taken c ps P P' -> hashof P' i = if decide (PBlk i ∈ ps) then None else hashof P i.
Proof.
  intros (_ & B & _). unfold hashof. rewrite B.
  destruct (bd P i) as [[[[? ?] ?] ?]|]; by destruct (decide (PBlk i ∈ ps)).
Qed.

Lemma refc_taken c ps P P' i :
  taken c ps P P' -> is_Some (bd P i) ->
  refc P' i = if decide (PBlk i ∈ ps) then c else refc P i.
Proof.
  intros (_ & B & _) [[[[k c'] h] nl] Hd]. unfold refc. rewrite B, Hd.
  by destruct (decide (PBlk i ∈ ps)).
Qed.

Lemma odict_pop_spec (p : bptr) (ps : list bptr) (key : BlockHashWithGroupId) (m : gmap BlockHashWithGroupId (list bptr)) :
  m !! key = Some ps ->
  (forall k : BlockHashWithGroupId, default [] ((if decide (odict_pop p ps = []) then delete key m
                          else <[key := odict_pop p ps]> m) !! k) =
             if decide (k = key) then odict_pop p ps else default [] (m !! k)) /\
  (forall (k : BlockHashWithGroupId) qs, (if decide (odict_pop p ps = []) then delete key m
                 else <[key := odict_pop p ps]> m) !! k = Some qs ->
     (k = key /\ qs = odict_pop p ps /\ qs ≠ []) \/ (k ≠ key /\ m !! k = Some qs)).
Proof.
  intros Hm. split; intros k.
  - destruct (decide (odict_pop p ps = [])) as [E|E]; destruct (decide (k = key)) as [->|Hk].
    + by rewrite lookup_delete_eq, E.
    + by rewrite lookup_delete_ne.
    + by rewrite lookup_insert_eq.
    + by rewrite lookup_insert_ne.
  - intros qs. destruct (decide (odict_pop p ps = [])) as [E|E]; destruct (decide (k = key)) as [->|Hk].
    + by rewrite lookup_delete_eq.
    + rewrite lookup_delete_ne by done. auto.
    + rewrite lookup_insert_eq. intros [= <-]. auto.
    + rewrite lookup_insert_ne by done. auto.
Qed.

(** A single key's dict loses exactly the evicted block. *)
Lemma cached_filter_other P i key k :
  pool_core P -> hashof P i = Some key -> k ≠ key ->
  filter (fun p => p ≠ PBlk i) (cached_at P k) = cached_at P k.
Proof.
  intros HC Hh Hk. apply filter_all. intros p Hp ->.
  apply (pc_cache _ HC) in Hp. congruence.
Qed.

Lemma core_after_evict P P' i key ps :
  pool_core P -> (i < Z.to_nat (num_gpu_blocks P))%nat -> hashof P i = Some key ->
  cached_block_hash_to_block P !! key = Some ps ->
  same_config P P' ->
  cached_block_hash_to_block P' =
    (if decide (odict_pop (PBlk i) ps = []) then delete key (cached_block_hash_to_block P)
     else <[key := odict_pop (PBlk i) ps]> (cached_block_hash_to_block P)) ->
  (forall j, bd P' j = if decide (PBlk i = PBlk j)
     then (fun '(k, c, _, nl) => (k, c, None, nl)) <$> bd P j else bd P j) ->
  pool_core P' /\ (forall k, cached_at P' k = filter (fun p => p ≠ PBlk i) (cached_at P k)).
Proof.
  intros HC Hi Hh Hps (S1 & S2 & S3 & S4) Hcache HB.
  destruct (odict_pop_spec (PBlk i) ps key _ Hps) as [Hlk Hwf].
  assert (Hat : forall k, cached_at P' k = filter (fun p => p ≠ PBlk i) (cached_at P k)).
  { intros k. unfold cached_at at 1. rewrite Hcache, Hlk.
    destruct (decide (k = key)) as [->|Hk].
    - unfold cached_at. rewrite Hps. done.
    - symmetry. by eapply cached_filter_other. }
  split; [|done]. split.
  - rewrite S1. apply HC.
  - intros j. rewrite S1, HB, <-(pc_dom _ HC j). destruct (decide (PBlk i = PBlk j)); [|done].
    by rewrite fmap_is_Some.
  - intros j k c h nl Hd. rewrite HB in Hd. destruct (decide (PBlk i = PBlk j)).
    + destruct (bd P j) as [[[[k' c'] h'] nl']|] eqn:E; [|done]. cbn in Hd. injection Hd as <- <- <- <-.
      destruct (pc_data _ HC _ _ _ _ _ E) as (? & ? & _). done.
    + by eapply (pc_data _ HC).
  - rewrite S3. apply HC.
  - intros k j. rewrite Hat, list_elem_of_filter, (pc_cache _ HC).
    unfold hashof at 2. rewrite HB. destruct (decide (PBlk i = PBlk j)) as [E|E].
    + destruct (bd P j) as [[[[? ?] ?] ?]|]; cbn; naive_solver.
    + fold (hashof P j). naive_solver.
  - intros k qs Hk. rewrite Hcache in Hk. apply Hwf in Hk as [(-> & -> & Hne)|[Hne Hk]].
    + destruct (pc_cache_wf _ HC _ _ Hps) as (_ & Hnd & Hf). split; [done|].
      split; [by apply NoDup_filter|].
      rewrite Forall_forall in *. intros p Hp. apply Hf. by apply list_elem_of_filter in Hp as [_ ?].
    + by apply (pc_cache_wf _ HC) in Hk.
  - rewrite S2. intros Hc. rewrite (core_nocache_hash _ _ HC Hc) in Hh. done.
Qed.

Lemma evict_step P l i :
  pool_core P -> is_queue (free_block_queue P) l -> (i < Z.to_nat (num_gpu_blocks P))%nat ->
  exists P', maybe_evict_cached_block (PBlk i) P = Ok (bool_decide (is_Some (hashof P i)), P') /\
    pool_core P' /\ is_queue (free_block_queue P') l /\ taken (refc P i) [PBlk i] P P'.
Proof.
  intros HC Hq Hi. destruct (core_load P i HC Hi) as (b & Hb & Hl & _ & Hr & Hh & Hnl & Hbd).
  unfold maybe_evict_cached_block. rewrite Hl. cbn [mbind result_bind].
  rewrite Hh. destruct (hashof P i) as [key|] eqn:E.
  - assert (Hin : PBlk i ∈ cached_at P key) by (by apply (pc_cache _ HC)).
    unfold cached_at in Hin.
    destruct (cached_block_hash_to_block P !! key) as [ps|] eqn:Ec; [|by apply elem_of_nil in Hin].
    rewrite bool_decide_true by (by eexists).
    set (P1 := upd_block (PBlk i) reset_hash P).
    set (c1 := if decide (odict_pop (PBlk i) ps = []) then _ else _).
    set (P2 := set_cached c1 P1).
    assert (HB : forall P', same_config P P' -> pheap P' = pheap P1 ->
      cached_block_hash_to_block P' = c1 ->
      pool_core P' /\ taken (refc P i) [PBlk i] P P').
    { intros P' Hs Hp Hc'.
      assert (HBd : forall j, bd P' j = if decide (PBlk i = PBlk j)
         then (fun '(k, c, _, nl) => (k, c, None, nl)) <$> bd P j else bd P j).
      { intros j. unfold bd at 1. rewrite Hp. fold (bd P1 j). unfold P1. rewrite bd_upd.
        destruct (decide (PBlk i = PBlk j)); [|done]. unfold bd.
        by destruct (pheap P !! PBlk j). }
      destruct (core_after_evict P P' i key ps HC Hi E Ec Hs Hc' HBd) as [Hcore Hat].
      split; [done|]. split; [done|]. split.
      - intros j. rewrite HBd. destruct (decide (PBlk i = PBlk j)) as [Hij|Hij].
        + injection Hij as <-. rewrite decide_True by set_solver. rewrite Hbd. cbn. by rewrite Hr.
        + rewrite decide_False by set_solver. done.
      - intros k. rewrite Hat. apply filter_ext_in. set_solver. }
    assert (Hq' : forall P', pheap P' = pheap P1 ->
      num_free_blocks (free_block_queue P') = num_free_blocks (free_block_queue P) ->
      is_queue (free_block_queue P') l).
    { intros P' Hp Hn. destruct P' as [? ? [? ?]]. cbn in *. subst. apply is_queue_alter; done. }
    eexists. split; [reflexivity|].
    match goal with |- pool_core ?Q /\ _ => destruct (HB Q) as [? ?] end;
      [by destruct (enable_kv_cache_events P2)..|].
    split; [done|]. split; [|done]. apply Hq'; by destruct (enable_kv_cache_events P2).
  - rewrite bool_decide_false by (by intros [? ?]).
    exists P. split; [done|]. split; [done|]. split; [done|].
    split; [done|]. split.
    + intros j. destruct (decide (PBlk j ∈ [PBlk i])) as [Hj|Hj]; [|done].
      assert (j = i) as -> by set_solver. rewrite Hbd. unfold data. cbn. by rewrite Hr, Hh.
    + intros key. symmetry. apply filter_all. intros p Hp Hpi.
      assert (p = PBlk i) as -> by set_solver. apply (pc_cache _ HC) in Hp. congruence.
Qed.

Lemma taken_valid c ps P P' p : taken c ps P P' -> valid P' p <-> valid P p.
Proof. intros ((S1 & _) & _). unfold valid. by rewrite S1. Qed.

Lemma take_block_step P l i :
  pool_core P -> is_queue (free_block_queue P) l -> (i < Z.to_nat (num_gpu_blocks P))%nat ->
  refc P i = 0 ->
  exists P', take_block P (PBlk i) = Ok P' /\ pool_core P' /\ is_queue (free_block_queue P') l /\
    taken 1 [PBlk i] P P'.
Proof.
  intros HC Hq Hi Hr.
  assert (exists P1, (if enable_caching P then '(_, P) ← maybe_evict_cached_block (PBlk i) P; Ok P
                      else Ok P) = Ok P1 /\ pool_core P1 /\ is_queue (free_block_queue P1) l /\
                     taken 0 [PBlk i] P P1) as (P1 & E1 & HC1 & Hq1 & HT1).
  { destruct (enable_caching P) eqn:Ec.
    - destruct (evict_step P l i HC Hq Hi) as (P1 & E1 & HC1 & Hq1 & HT1). rewrite Hr in HT1.
      exists P1. by rewrite E1.
    - exists P. split; [done|]. split; [done|]. split; [done|]. split; [done|].
      pose proof (core_nocache_hash P i HC Ec) as Hh.
      destruct (core_load P i HC Hi) as (b & _ & _ & _ & Hrb & Hhb & _ & Hbd). split.
      + intros j. destruct (decide (PBlk j ∈ [PBlk i])); [|done].
        assert (j = i) as -> by set_solver. rewrite Hbd. unfold data. cbn. by rewrite Hrb, Hhb, Hr, Hh.
      + intros key. unfold cached_at. by rewrite (pc_nocache _ HC Ec), lookup_empty. }
  unfold take_block. rewrite E1. cbn [mbind result_bind].
  assert (Hn1 : num_gpu_blocks P1 = num_gpu_blocks P) by apply HT1.
  destruct (core_load P1 i HC1) as (b & Hb & Hl & _ & Hrb & _ & _ & Hbd); [by rewrite Hn1|].
  rewrite Hl. cbn [mbind result_bind].
  assert (Hr1 : refc P1 i = 0).
  { rewrite (refc_taken _ _ _ _ _ HT1) by (by apply (pc_dom _ HC)). rewrite decide_True; [done|set_solver]. }
  rewrite Hrb, Hr1. cbn [Z.eqb assert_ mbind result_bind]. eexists. split; [reflexivity|].
  pose proof (upd_ref_bump P1 i b 1 Hb) as HB. rewrite Hrb, Hr1 in HB.
  split; [by eapply bump_core|]. split; [by apply upd_ref_queue|].
  destruct HT1 as (S1 & B1 & C1). destruct HB as (S2 & C2 & _ & B2).
  split; [by etransitivity|]. split.
  - intros j. rewrite B2, B1. destruct (decide (i = j)) as [<-|Hij].
    + rewrite !decide_True by set_solver. by destruct (bd P i) as [[[[? ?] ?] ?]|].
    + rewrite !decide_False by set_solver.
      destruct (bd P j) as [[[[? ?] ?] ?]|]; [|done]. cbn. by rewrite Z.add_0_r.
  - intros key. rewrite <-C1. unfold cached_at. by rewrite C2.
Qed.

Lemma taken_cons c p ps P P1 P2 :
  taken c [p] P P1 -> taken c ps P1 P2 -> taken c (p :: ps) P P2.
Proof.
  intros (S1 & B1 & C1) (S2 & B2 & C2). split; [by etransitivity|]. split.
  - intros i. rewrite B2, B1.
    destruct (decide (PBlk i ∈ ps)), (decide (PBlk i ∈ [p])), (decide (PBlk i ∈ p :: ps));
      try set_solver; by destruct (bd P i) as [[[[? ?] ?] ?]|].
  - intros key. rewrite C2, C1, filter_filter. apply filter_ext_in. set_solver.
Qed.

Lemma take_list P l ps :
  pool_core P -> is_queue (free_block_queue P) l -> NoDup ps ->
  (forall p, p ∈ ps -> valid P p) -> (forall i, PBlk i ∈ ps -> refc P i = 0) ->
  exists P', foldM take_block P ps = Ok P' /\ pool_core P' /\ is_queue (free_block_queue P') l /\
    taken 1 ps P P'.
Proof.
  revert P. induction ps as [|p ps IH]; intros P HC Hq Hnd Hv Hr.
  { exists P. split; [done|]. split; [done|]. split; [done|]. split; [done|]. split; [done|].
    intros key. symmetry. apply filter_all. set_solver. }
  apply NoDup_cons in Hnd as [Hp Hnd].
  destruct (Hv p) as (i & -> & Hi); [set_solver|].
  destruct (take_block_step P l i HC Hq Hi) as (P1 & E1 & HC1 & Hq1 & HT1); [apply Hr; set_solver|].
  destruct (IH P1 HC1 Hq1 Hnd) as (P2 & E2 & HC2 & Hq2 & HT2).
  - intros p Hp'. apply (taken_valid _ _ _ _ _ HT1). apply Hv. set_solver.
  - intros j Hj. destruct (Hv (PBlk j)) as (? & [= <-] & Hlt); [set_solver|].
    rewrite (refc_taken _ _ _ _ _ HT1) by (by apply (pc_dom _ HC)).
    rewrite decide_False by set_solver. apply Hr. set_solver.
  - exists P2. cbn [foldM]. rewrite E1. cbn [mbind result_bind]. split; [done|]. split; [done|].
    split; [done|]. by eapply taken_cons.
Qed.

Lemma get_new_blocks_step P l n :
  pool_inv P l -> 0 <= n <= zlen l ->
  let ids := take (Z.to_nat n) l in
  exists P', get_new_blocks n P = Ok (PBlk <$> ids, P') /\
    pool_inv P' (drop (Z.to_nat n) l) /\ taken 1 (PBlk <$> ids) P P'.
Proof.
  intros HI Hn ids. pose proof (pi_core _ _ HI) as HC.
  unfold get_new_blocks. rewrite (pool_free_num _ _ HI).
  replace (zlen l <? n) with false by (symmetry; apply Z.ltb_ge; lia). cbn [raise_if mbind result_bind].
  destruct (popleft_n_step _ _ n (pi_queue _ _ HI) Hn) as (q & Eq & Hq & Hd).
  rewrite Eq. cbn [mbind result_bind]. fold ids.
  assert (HB0 : bump (fun _ => 0) P (set_queue q P)).
  { split; [done|]. split; [done|]. split; [done|]. intros i. rewrite bd_set_queue by done.
    destruct (bd P i) as [[[[? ?] ?] ?]|]; [|done]. cbn. by rewrite Z.add_0_r. }
  assert (Hids : forall i, i ∈ ids -> i ∈ l).
  { intros i Hi. by eapply elem_of_take in Hi as (j & Hj & _); eapply list_elem_of_lookup_2. }
  assert (Hnd := iq_nodup _ _ (pi_queue _ _ HI)).
  assert (Hdisj : forall i, i ∈ ids -> i ∉ drop (Z.to_nat n) l).
  { rewrite <-(take_drop (Z.to_nat n) l) in Hnd. by apply NoDup_app in Hnd as (_ & ? & _). }
  destruct (take_list (set_queue q P) (drop (Z.to_nat n) l) (PBlk <$> ids)) as (P' & E' & HC' & Hq' & HT').
  - by eapply bump_core.
  - done.
  - apply NoDup_fmap; [by intros ?? [=]|]. rewrite <-(take_drop (Z.to_nat n) l) in Hnd.
    by apply NoDup_app in Hnd as (? & _).
  - intros p (i & -> & Hi)%list_elem_of_fmap. exists i. split; [done|].
    apply (pool_free_valid P l); auto.
  - intros i (j & [= <-] & Hi)%list_elem_of_fmap. apply Hids in Hi.
    pose proof (pool_free_valid _ _ _ HI Hi) as Hlt.
    rewrite (bump_refc _ _ _ _ HB0) by (by apply (pc_dom _ HC)).
    apply (pi_free _ _ HI) in Hi as [_ ->]; done.
  - rewrite E'. cbn [mbind result_bind]. eexists. split; [reflexivity|].
    assert (HT : taken 1 (PBlk <$> ids) P P').
    { destruct HT' as (S & B & C). split; [done|]. split; [|done].
      intros i. rewrite B. by rewrite bd_set_queue. }
    split; [|done].
    assert (Hn' : num_gpu_blocks P' = num_gpu_blocks P) by apply HT.
    assert (Hmem : forall i, PBlk i ∈ PBlk <$> ids <-> i ∈ ids).
    { intros i. rewrite list_elem_of_fmap. split; [by intros (? & [= <-] & ?)|eauto]. }
    split; [done|done| |].
    + intros i Hi. destruct (bd P i) as [d|] eqn:E.
      * rewrite (refc_taken _ _ _ _ _ HT) by (by rewrite E).
        destruct (decide _); [lia|]. by apply (pi_ref _ _ HI).
      * unfold refc. destruct HT as (_ & B & _). rewrite B, E. by destruct (decide _).
    + intros i Hi. rewrite Hn' in Hi.
      rewrite (refc_taken _ _ _ _ _ HT) by (by apply (pc_dom _ HC)).
      destruct (decide (PBlk i ∈ PBlk <$> ids)) as [Hin|Hin].
      * rewrite Hmem in Hin. split; [|lia]. intros Hdr. by apply Hdisj in Hin.
      * rewrite <-(pi_free _ _ HI i Hi). rewrite Hmem in Hin.
        rewrite <-(take_drop (Z.to_nat n) l) at 2. rewrite elem_of_app. tauto.
Qed.

(** ** [cache_full_blocks] *)

(** [P'] is [P] with hashes added to the blocks of [blks]: block number [j]
    of the list carries key number [j]. *)
Definition filed (blks : list bptr) (keys : list BlockHashWithGroupId) (P P' : BlockPool) : Prop :=
  same_config P P' /\ length keys = length blks /\
  (forall i, refc P' i = refc P i /\ (is_Some (bd P' i) <-> is_Some (bd P i))) /\
  (forall i, PBlk i ∉ blks -> hashof P' i = hashof P i) /\
  (forall j i, blks !! j = Some (PBlk i) -> hashof P' i = keys !! j).

Lemma filed_valid blks keys P P' p : filed blks keys P P' -> valid P' p <-> valid P p.
Proof. intros ((S1 & _) & _). unfold valid. by rewrite S1. Qed.

Lemma set_hash_core P i b key :
  pool_core P -> (i < Z.to_nat (num_gpu_blocks P))%nat -> i ≠ 0%nat -> hashof P i = None ->
  enable_caching P = true -> pheap P !! PBlk i = Some b ->
  let P1 := upd_block (PBlk i) (fun _ => with_hash (Some key) b) P in
  let P2 := set_cached (<[key := odict_add (PBlk i) (cached_at P key)]> (cached_block_hash_to_block P)) P1 in
  pool_core P2 /\ filed [PBlk i] [key] P P2.
Proof.
  intros HC Hi H0 Hh Hc Hb P1 P2.
  assert (Hnin : PBlk i ∉ cached_at P key) by (rewrite (pc_cache _ HC); congruence).
  assert (Hbd : forall j, bd P2 j = if decide (i = j)
    then (fun '(k, c, _, nl) => (k, c, Some key, nl)) <$> bd P j else bd P j).
  { intros j. change (bd P2 j) with (bd P1 j). unfold P1. rewrite bd_upd.
    destruct (decide (i = j)) as [<-|Hij]; [|by rewrite decide_False by congruence].
    rewrite decide_True by done. unfold bd. rewrite Hb. done. }
  assert (Hdom : forall j, is_Some (bd P2 j) <-> is_Some (bd P j)).
  { intros j. rewrite Hbd. destruct (decide (i = j)); [by rewrite fmap_is_Some|done]. }
  assert (Hhash : forall j, hashof P2 j = if decide (i = j) then Some key else hashof P j).
  { intros j. unfold hashof. rewrite Hbd. destruct (decide (i = j)) as [<-|]; [|done].
    destruct (core_load P i HC Hi) as (b' & _ & _ & _ & _ & _ & _ & ->). done. }
  assert (Hat : forall k, cached_at P2 k = if decide (k = key) then cached_at P key ++ [PBlk i]
                                           else cached_at P k).
  { intros k. unfold cached_at at 1, P2. cbn. unfold odict_add. rewrite decide_False by done.
    destruct (decide (k = key)) as [->|Hk]; [by rewrite lookup_insert_eq|].
    by rewrite lookup_insert_ne. }
  split.
  - split; try (by apply HC).
    + intros j. rewrite Hdom. apply HC.
    + intros j k c h nl Hd. rewrite Hbd in Hd. destruct (decide (i = j)) as [<-|].
      * destruct (bd P i) as [[[[k' c'] h'] nl']|] eqn:E; [|done].
        cbn in Hd. injection Hd as <- <- <- <-.
        destruct (pc_data _ HC _ _ _ _ _ E) as (? & ? & _). done.
      * by eapply (pc_data _ HC).
    + intros k j. rewrite Hat, Hhash. destruct (decide (k = key)) as [->|Hk].
      * rewrite elem_of_app, list_elem_of_singleton, (pc_cache _ HC).
        destruct (decide (i = j)) as [<-|]; naive_solver.
      * rewrite (pc_cache _ HC). destruct (decide (i = j)) as [<-|]; [|done].
        rewrite Hh. naive_solver.
    + intros k ps. unfold P2. cbn. unfold odict_add. rewrite decide_False by done.
      destruct (decide (k = key)) as [->|Hk].
      * rewrite lookup_insert_eq. intros [= <-]. split; [by destruct (cached_at P key)|].
        assert (NoDup (cached_at P key) /\ Forall (fun p => exists i, p = PBlk i) (cached_at P key)) as [Hnd Hf].
        { unfold cached_at. destruct (cached_block_hash_to_block P !! key) eqn:E; cbn.
          - by apply (pc_cache_wf _ HC) in E as (_ & ? & ?).
          - split; constructor. }
        split; [|apply Forall_app; split; [done|]; constructor; [eauto|constructor]].
        apply NoDup_app. split; [done|]. split; [set_solver|apply NoDup_singleton].
      * rewrite lookup_insert_ne by done. by apply HC.
    + intros Hc'. exfalso. change (enable_caching P2) with (enable_caching P) in Hc'. congruence.
  - split; [done|]. split; [done|]. split; [|split].
    + intros j. split; [|apply Hdom]. unfold refc. rewrite Hbd.
      destruct (decide (i = j)); [|done]. by destruct (bd P j) as [[[[? ?] ?] ?]|].
    + intros j Hj. rewrite Hhash, decide_False; [done|]. set_solver.
    + intros [|j] j' Hj; [|done]. injection Hj as <-. rewrite Hhash. by rewrite decide_True.
Qed.

Lemma filed_cons p ps k ks P P1 P2 :
  filed [p] [k] P P1 -> filed ps ks P1 P2 -> p ∉ ps -> filed (p :: ps) (k :: ks) P P2.
Proof.
  intros (S1 & _ & R1 & N1 & H1) (S2 & L2 & R2 & N2 & H2) Hp.
  split; [by etransitivity|]. split; [cbn; by rewrite L2|]. split; [|split].
  - intros i. destruct (R1 i) as [? ?], (R2 i) as [? ?]. split; [congruence|]. by etransitivity.
  - intros i Hi. rewrite N2 by set_solver. apply N1. set_solver.
  - intros [|j] i Hj.
    + injection Hj as ->. rewrite N2 by done. by apply (H1 0%nat).
    + by apply H2.
Qed.

(** The keys filed for a list of new blocks. *)
Definition keys_for (gid : Z) (hs : list BlockHash) : list BlockHashWithGroupId :=
  (fun h => h ++ be_split 4 gid) <$> hs.

Lemma cache_loop_step P l gid hs blks start nh :
  pool_core P -> is_queue (free_block_queue P) l -> enable_caching P = true ->
  0 <= gid < 2 ^ 32 -> NoDup blks ->
  (forall i, PBlk i ∈ blks -> hashof P i = None) ->
  (forall p, p ∈ blks -> valid P p /\ p ≠ PBlk 0) ->
  (start + length blks <= length hs)%nat ->
  exists P' nh', foldM (cache_one gid hs) (P, nh) (zip (seq start (length blks)) blks) = Ok (P', nh') /\
    pool_core P' /\ is_queue (free_block_queue P') l /\
    filed blks (keys_for gid (take (length blks) (drop start hs))) P P' /\
    kv_event_queue P' = kv_event_queue P.
Proof.
  intros HC Hq Hc Hg. revert P start nh HC Hq Hc.
  induction blks as [|p blks IH]; intros P start nh HC Hq Hc Hnd Hh Hv Hlen.
  { exists P, nh. cbn. do 3 (split; [done|]). split; [|done].
    split; [done|]. split; [done|]. split; [done|]. split; done. }
  apply NoDup_cons in Hnd as [Hp Hnd].
  destruct (Hv p) as [(i & -> & Hi) H0]; [set_solver|]. cbn in Hlen.
  destruct (core_load P i HC Hi) as (b & Hb & Hl & _ & _ & Hhb & _).
  assert (Hhi : hashof P i = None) by (apply Hh; set_solver).
  destruct (lookup_lt_is_Some_2 hs start) as [h Eh]; [lia|].
  set (key := h ++ be_split 4 gid).
  destruct (set_hash_core P i b key HC Hi ltac:(congruence) Hhi Hc Hb) as [HC2 HF2].
  set (P2 := set_cached _ _) in HC2, HF2.
  assert (E1 : exists nh1, cache_one gid hs (P, nh) (start, PBlk i) = Ok (P2, nh1)).
  { unfold cache_one. rewrite Hl. cbn [mbind result_bind]. rewrite Hhb, Hhi.
    rewrite bool_decide_true by done. cbn [assert_ mbind result_bind].
    unfold pyindex. replace (Z.of_nat start <? 0) with false by (symmetry; apply Z.ltb_ge; lia).
    cbv zeta. replace (Z.of_nat start <? 0) with false by (symmetry; apply Z.ltb_ge; lia).
    rewrite Nat2Z.id, Eh. cbn [get_or mbind result_bind].
    rewrite (proj2 (make_block_hash_with_group_id_Ok h gid key)) by done. cbn [mbind result_bind].
    unfold set_block_hash. rewrite Hhb, Hhi, bool_decide_true by done.
    cbn [assert_ mbind result_bind]. eexists. reflexivity. }
  destruct E1 as [nh1 E1].
  destruct (IH P2 (S start) nh1) as (P' & nh' & E' & HC' & Hq' & HF' & Hev').
  - done.
  - by apply (is_queue_alter_const _ _ _ b).
  - done.
  - done.
  - intros j Hj. destruct HF2 as (_ & _ & _ & N & _). rewrite N by set_solver. apply Hh. set_solver.
  - intros q Hq'. rewrite (filed_valid _ _ _ _ _ HF2). apply Hv. set_solver.
  - lia.
  - exists P', nh'. cbn [length seq zip zip_with foldM]. rewrite E1. cbn [mbind result_bind].
    split; [exact E'|]. split; [done|]. split; [done|]. split; [|by rewrite Hev'].
    rewrite (drop_S _ h) by done. cbn [take keys_for fmap list_fmap].
    by eapply filed_cons.
Qed.

(** The event part succeeds when the request has no LoRA adapter and the
    parent block carries a hash. *)
Definition event_ok (r : Request) (P : BlockPool) (blocks : list bptr) (num_cached : nat) : Prop :=
  enable_kv_cache_events P = true -> lora_request r = None /\
    (num_cached = 0%nat \/ exists i, blocks !! (num_cached - 1)%nat = Some (PBlk i) /\
       (i < Z.to_nat (num_gpu_blocks P))%nat /\ is_Some (hashof P i)).

Lemma stored_event_ok r P blocks nc nf bs nh :
  pool_core P -> event_ok r P blocks nc -> enable_kv_cache_events P = true ->
  exists ev, stored_event r P blocks (Z.of_nat nc) nf bs nh = Ok ev.
Proof.
  intros HC Hev He. destruct (Hev He) as [Hl Hp]. unfold stored_event. rewrite Hl.
  destruct Hp as [->|(i & Hbl & Hi & Hh)]; [cbn; eauto|].
  destruct (Z.eqb_spec (Z.of_nat nc) 0) as [E|E]; [cbn; eauto|].
  destruct (core_load P i HC Hi) as (b & _ & Hld & _ & _ & Hhb & _).
  unfold pyindex. replace (Z.of_nat nc - 1 <? 0) with false by (symmetry; apply Z.ltb_ge; lia).
  cbv zeta. replace (Z.of_nat nc - 1 <? 0) with false by (symmetry; apply Z.ltb_ge; lia).
  replace (Z.to_nat (Z.of_nat nc - 1)) with (nc - 1)%nat by lia. rewrite Hbl.
  cbn [get_or mbind result_bind]. rewrite Hld. cbn [mbind result_bind]. rewrite Hhb.
  destruct Hh as [k ->]. cbn. eauto.
Qed.

Lemma cache_full_blocks_step r blocks (nc nf : nat) bs gid P l :
  pool_inv P l -> enable_caching P = true -> 0 <= gid < 2 ^ 32 ->
  (nc <= nf <= length blocks)%nat -> (nf <= length (block_hashes r))%nat ->
  let news := take (nf - nc) (drop nc blocks) in
  NoDup news -> (forall i, PBlk i ∈ news -> hashof P i = None) ->
  (forall p, p ∈ news -> valid P p /\ p ≠ PBlk 0) ->
  event_ok r P blocks nc ->
  exists P', cache_full_blocks r blocks (Z.of_nat nc) (Z.of_nat nf) bs gid P = Ok P' /\
    pool_inv P' l /\ filed news (keys_for gid (take (nf - nc) (drop nc (block_hashes r)))) P P'.
Proof.
  intros HI Hc Hg Hn Hlen news Hnd Hh Hv Hev. unfold cache_full_blocks.
  destruct (Z.eqb_spec (Z.of_nat nc) (Z.of_nat nf)) as [E|E].
  { exists P. split; [done|]. split; [done|]. unfold news.
    replace (nf - nc)%nat with 0%nat by lia. cbn. split; [done|]. split; [done|]. by split. }
  replace (pyslice (Z.of_nat nc) (Z.of_nat nf) blocks) with news
    by (unfold news; rewrite pyslice_in by lia; done).
  replace (Z.of_nat nf <=? zlen (block_hashes r)) with true
    by (symmetry; apply Z.leb_le; unfold zlen; lia). cbn [assert_ mbind result_bind].
  assert (Hln : length news = (nf - nc)%nat) by (unfold news; rewrite length_take, length_drop; lia).
  replace (pydrop (Z.of_nat nc) (block_hashes r)) with (drop nc (block_hashes r))
    by (unfold pydrop; rewrite slice_bound_in by (unfold zlen; lia); by rewrite Nat2Z.id).
  destruct (cache_loop_step P l gid (drop nc (block_hashes r)) news 0 [])
    as (P' & nh & E' & HC' & Hq' & HF & Hkv); try done.
  { apply HI. } { apply HI. } { rewrite Hln, length_drop. lia. }
  rewrite E'. cbn [mbind result_bind]. rewrite drop_0, Hln in HF.
  assert (Hinv : pool_inv P' l).
  { destruct HF as ((S1 & _) & _ & R & _). split; [done|done| |].
    - intros i Hi. destruct (R i) as [-> _]. by apply HI.
    - intros i. rewrite S1. destruct (R i) as [-> _]. apply HI. }
  destruct (enable_kv_cache_events P') eqn:He.
  - destruct (stored_event_ok r P' blocks nc (Z.of_nat nf) bs nh HC') as [ev Eev]; [|done|].
    + intros _. destruct HF as ((S1 & S2 & S3 & S4) & _ & _ & N & _).
      destruct (Hev ltac:(congruence)) as [Hlo Hpa]. split; [done|].
      destruct Hpa as [?|(i & Hb & Hi & Hhi)]; [by left|]. right. exists i. rewrite S1.
      split; [done|]. split; [done|]. rewrite N; [done|]. intros Hin. rewrite Hh in Hhi by done.
      by destruct Hhi.
    + rewrite Eev. cbn [mbind result_bind]. eexists. split; [reflexivity|].
      split; [|exact HF]. destruct Hinv as [HCi Hqi Hri Hfi]. by split; [destruct HCi| | |].
  - eexists. split; [reflexivity|]. done.
Qed.

(** ** Initialisation and reset *)

Lemma pool_init_inv n caching events use_int :
  (0 < n)%nat ->
  exists P, pool_init (Z.of_nat n) caching events use_int = Ok P /\ pool_inv P (seq 1 (n - 1)) /\
    (forall i, hashof P i = None /\ refc P i = 0) /\ enable_caching P = caching /\
    num_gpu_blocks P = Z.of_nat n /\ enable_kv_cache_events P = events /\ kv_event_queue P = [].
Proof.
  intros Hn. unfold pool_init. replace (0 <? Z.of_nat n) with true by (symmetry; apply Z.ltb_lt; lia).
  cbn [assert_ mbind result_bind]. rewrite Nat2Z.id.
  pose proof (queue_init_is_queue n Hn) as Hq.
  assert (Hd0 : forall i, data <$> fq_heap (queue_init n (alloc_blocks n)) !! PBlk i =
    if decide (i < n)%nat then Some (Z.of_nat i, 0, None, false) else None).
  { intros i. rewrite queue_init_lookup by done. by destruct (decide (i < n)%nat). }
  destruct n as [|n]; [lia|]. cbn [seq] in Hq.
  destruct (popleft_step _ _ _ Hq) as (q & Eq & Hq' & Hdata). rewrite Eq. cbn [mbind result_bind].
  eexists. split; [reflexivity|]. set (P := upd_block _ _ _).
  assert (Hbd : forall i, bd P i = if decide (i < S n)%nat
    then Some (Z.of_nat i, 0, None, bool_decide (i = 0%nat)) else None).
  { intros i. unfold P. rewrite bd_upd. cbn [pheap free_block_queue].
    pose proof (Hdata (PBlk i)) as Hi. rewrite Hd0 in Hi.
    destruct (decide (PBlk 0 = PBlk i)) as [[= <-]|Hne].
    - change (pheap _) with (fq_heap q).
      destruct (fq_heap q !! PBlk 0) as [b|]; cbn in Hi |- *.
      + destruct (decide (0 < S n)%nat); [|lia]. unfold data in *.
        cbn. injection Hi as H1 H2 H3 H4. by rewrite H1, H2, H3.
      + destruct (decide (0 < S n)%nat); [done|lia].
    - unfold bd. change (pheap _) with (fq_heap q). rewrite Hi.
      destruct (decide (i < S n)%nat); [|done]. rewrite bool_decide_false by congruence. done. }
  assert (Hhr : forall i, hashof P i = None /\ refc P i = 0).
  { intros i. unfold hashof, refc. rewrite Hbd. by destruct (decide _). }
  split; [|split; [done|]; by repeat split].
  assert (Hnum : num_gpu_blocks P = Z.of_nat (S n)) by done.
  split.
  - split.
    + rewrite Hnum. lia.
    + intros i. rewrite Hnum, Nat2Z.id, Hbd.
      destruct (decide _); split; intros Hx; try done; lia.
    + intros i k c h nl. rewrite Hbd. destruct (decide _); [|done]. by intros [= <- <- <- <-].
    + done.
    + intros k i. rewrite (proj1 (Hhr i)). split; [|done]. unfold cached_at. cbn.
      rewrite lookup_empty. by intros ?%elem_of_nil.
    + intros k ps. cbn. by rewrite lookup_empty.
    + done.
  - replace (S n - 1)%nat with n by lia. by apply is_queue_alter.
  - intros i _. by rewrite (proj2 (Hhr i)).
  - intros i. rewrite Hnum, Nat2Z.id. intros Hi. rewrite (proj2 (Hhr i)), elem_of_seq. lia.
Qed.

Lemma reset_hashes_bd P n :
  let P' := foldl (fun P i => upd_block (PBlk i) reset_hash P) P (seq 0 n) in
  (forall i, bd P' i = if decide (i < n)%nat
     then (fun '(k, c, _, nl) => (k, c, None, nl)) <$> bd P i else bd P i) /\
  same_config P P' /\ cached_block_hash_to_block P' = cached_block_hash_to_block P /\
  kv_event_queue P' = kv_event_queue P /\
  (forall l, is_queue (free_block_queue P) l -> is_queue (free_block_queue P') l).
Proof.
  induction n as [|n IH]; [by split|].
  rewrite seq_S, foldl_app. cbn [foldl plus]. cbv zeta in *.
  destruct IH as (B & HS & C & K & Q). set (P1 := foldl _ _ _) in *.
  split; [|split; [done|]; split; [done|]; split; [done|]].
  - intros i. rewrite bd_upd. destruct (decide (PBlk n = PBlk i)) as [[= <-]|Hne].
    + specialize (B n). unfold bd in B at 1. rewrite decide_False in B by lia. rewrite decide_True by lia.
      rewrite <-B. by destruct (pheap P1 !! PBlk n).
    + rewrite B. destruct (decide (i < n)%nat), (decide (i < S n)%nat); try done; try lia.
      exfalso. apply Hne. f_equal. lia.
  - intros l Hq. apply is_queue_alter; auto.
Qed.

(** [reset_prefix_cache] succeeds exactly when every block but the null block
    is free, and then forgets every hash. *)
Lemma reset_prefix_cache_step P l :
  pool_inv P l ->
  exists P', reset_prefix_cache P = (bool_decide (zlen l = num_gpu_blocks P - 1), P') /\ pool_inv P' l /\
    same_config P P' /\
    (if decide (zlen l = num_gpu_blocks P - 1)
     then (forall i, hashof P' i = None) /\ cached_block_hash_to_block P' = ∅ else P' = P) /\
    (forall i, refc P' i = refc P i).
Proof.
  intros HI. unfold reset_prefix_cache. rewrite (pool_free_num _ _ HI).
  destruct (decide (zlen l = num_gpu_blocks P - 1)) as [He|Hne].
  - rewrite bool_decide_true by done.
    replace (num_gpu_blocks P - zlen l =? 1) with true by (symmetry; apply Z.eqb_eq; lia). cbn [negb].
    change (num_gpu_blocks (set_cached ∅ P)) with (num_gpu_blocks P).
    destruct (reset_hashes_bd (set_cached ∅ P) (Z.to_nat (num_gpu_blocks P))) as (B & S & C & K & Q).
    cbv zeta in *. set (P1 := foldl _ _ _) in *.
    assert (Hh : forall i, hashof P1 i = None).
    { intros i. unfold hashof. rewrite B. change (bd (set_cached ∅ P) i) with (bd P i).
      destruct (decide _) as [Hi|Hi]; [by destruct (bd P i) as [[[[? ?] ?] ?]|]|].
      destruct (bd P i) as [x|] eqn:E; [|done].
      exfalso. apply Hi, (pc_dom _ (pi_core _ _ HI)). by rewrite E. }
    assert (Hr : forall i, refc P1 i = refc P i /\ (is_Some (bd P1 i) <-> is_Some (bd P i))).
    { intros i. unfold refc. rewrite B. change (bd (set_cached ∅ P) i) with (bd P i).
      destruct (decide _); [|done]. destruct (bd P i) as [[[[? ?] ?] ?]|]; [|done].
      cbn. split; [done|]. split; intros; by eexists. }
    destruct S as (S1 & S2 & S3 & S4). destruct HI as [HC Hq Hrf Hf].
    assert (HI1 : pool_inv P1 l).
    { split; [split| | |].
      - rewrite S1. apply HC.
      - intros i. rewrite S1, (proj2 (Hr i)). apply HC.
      - intros i k c h nl Hi. assert (Hh' := Hh i). unfold hashof in Hh'. rewrite Hi in Hh'. subst h.
        rewrite B in Hi. change (bd (set_cached ∅ P) i) with (bd P i) in Hi.
        destruct (bd P i) as [[[[k0 c0] h0] nl0]|] eqn:E; [|by destruct (decide _)].
        destruct (pc_data _ HC _ _ _ _ _ E) as (? & ? & _).
        destruct (decide _); cbn in Hi; by simplify_eq.
      - rewrite S3. apply HC.
      - intros k i. rewrite Hh. unfold cached_at. rewrite C. cbn. rewrite lookup_empty. cbn.
        rewrite elem_of_nil. done.
      - intros k ps. rewrite C. cbn. by rewrite lookup_empty.
      - intros _. by rewrite C.
      - by apply Q.
      - intros i Hi. rewrite (proj1 (Hr i)). by apply Hrf.
      - intros i. rewrite S1, (proj1 (Hr i)). apply Hf. }
    assert (HS : same_config P P1) by done.
    destruct (enable_kv_cache_events P1); (eexists; split; [reflexivity|]; split; [|split; [done|split; [by split|intros i; apply Hr]]]).
    + destruct HI1 as [HC1 ? ? ?]; by split; [destruct HC1| | |].
    + done.
  - rewrite bool_decide_false by done.
    replace (num_gpu_blocks P - zlen l =? 1) with false by (symmetry; apply Z.eqb_neq; lia). cbn [negb].
    by eexists.
Qed.

(** ** Cache lookups *)

(** The key under which a block hash is filed for a KV cache group. *)
Definition hkey (gid : Z) (h : BlockHash) : BlockHashWithGroupId := h ++ be_split 4 gid.

Lemma get_cached_loop_spec P h gids acc :
  pool_core P -> Forall (fun g => 0 <= g < 2 ^ 32) gids ->
  get_cached_loop P h gids acc = Ok
    (if decide (Forall (fun g => cached_at P (hkey g h) ≠ []) gids)
     then Some (acc ++ omap (fun g => head (cached_at P (hkey g h))) gids) else None).
Proof.
  intros HC. revert acc. induction gids as [|g gids IH]; intros acc Hg.
  - cbn. rewrite decide_True by constructor. by rewrite app_nil_r.
  - apply Forall_cons in Hg as [Hg0 Hg]. cbn [get_cached_loop].
    rewrite (proj2 (make_block_hash_with_group_id_Ok h g (hkey g h))) by done.
    cbn [mbind result_bind]. cbn [omap list_omap].
    destruct (cached_block_hash_to_block P !! hkey g h) as [[|p ps]|] eqn:E.
    + by destruct (pc_cache_wf _ HC _ _ E).
    + assert (Hc : cached_at P (hkey g h) = p :: ps) by (unfold cached_at; by rewrite E).
      rewrite IH by done. rewrite Hc. cbn [head]. rewrite <-app_assoc. cbn [app]. f_equal.
      destruct (decide (Forall (fun g => cached_at P (hkey g h) ≠ []) gids)) as [Hf|Hf].
      * rewrite decide_True; [done|]. constructor; [by rewrite Hc|done].
      * rewrite decide_False; [done|]. by intros [_ ?]%Forall_cons.
    + rewrite decide_False; [done|]. intros [Hn _]%Forall_cons. apply Hn. unfold cached_at. by rewrite E.
Qed.

Lemma get_cached_block_single P h gid :
  pool_core P -> 0 <= gid < 2 ^ 32 ->
  get_cached_block P h [gid] = Ok ((fun p => [p]) <$> head (cached_at P (hkey gid h))).
Proof.
  intros HC Hg. unfold get_cached_block. rewrite get_cached_loop_spec by (done || by apply Forall_singleton).
  f_equal. destruct (decide (Forall _ _)) as [Hf|Hf]; cbn.
  - apply Forall_cons in Hf as [Hf _]. by destruct (cached_at P (hkey gid h)).
  - destruct (cached_at P (hkey gid h)) eqn:E; [done|]. exfalso. apply Hf, Forall_singleton. by rewrite E.
Qed.

Lemma head_cached_hash P gid h i :
  pool_core P -> head (cached_at P (hkey gid h)) = Some (PBlk i) -> hashof P i = Some (hkey gid h).
Proof.
  intros HC Hh. apply (pc_cache _ HC). destruct (cached_at P (hkey gid h)); [done|].
  injection Hh as ->. rewrite elem_of_cons. by left.
Qed.

(** * Properties *)

(** The operations other components perform on the pool, and the contract
    each of them has to respect. *)
Inductive pool_op :=
| OpAlloc (n : Z)
| OpTouch (blocks : list (list bptr))
| OpFree (ordered_blocks : list bptr)
| OpCache (r : Request) (blocks : list bptr) (num_cached num_full : nat) (bs gid : Z)
| OpReset
| OpTakeEvents.

Definition pool_exec (P : BlockPool) (op : pool_op) : result BlockPool :=
  match op with
  | OpAlloc n => '(_, P) ← get_new_blocks n P; Ok P
  | OpTouch pss => touch pss P
  | OpFree ps => free_blocks ps P
  | OpCache r blocks nc nf bs gid => cache_full_blocks r blocks (Z.of_nat nc) (Z.of_nat nf) bs gid P
  | OpReset => Ok (reset_prefix_cache P).2
  | OpTakeEvents => Ok (take_kv_events P).2
  end.

(** What [cache_full_blocks] expects: the new full blocks are blocks of the
    pool that carry no hash yet and the request has hashed their tokens. *)
Definition cache_pre (r : Request) (blocks : list bptr) (nc nf : nat) (gid : Z) (P : BlockPool) : Prop :=
  enable_caching P = true /\ 0 <= gid < 2 ^ 32 /\ (nc <= nf <= length blocks)%nat /\
  (nf <= length (block_hashes r))%nat /\
  let news := take (nf - nc) (drop nc blocks) in
  NoDup news /\ (forall i, PBlk i ∈ news -> hashof P i = None) /\
  (forall p, p ∈ news -> valid P p /\ p ≠ PBlk 0) /\ event_ok r P blocks nc.

Definition pool_pre (op : pool_op) (P : BlockPool) : Prop :=
  match op with
  | OpAlloc n => 0 <= n <= get_num_free_blocks P
  | OpTouch pss => forall p, p ∈ concat pss -> valid P p
  | OpFree ps => (forall p, p ∈ ps -> valid P p) /\
      (forall i, PBlk i ∈ ps -> i ≠ 0%nat -> occ i ps <= 1 /\ 1 <= refc P i)
  | OpCache r blocks nc nf bs gid => cache_pre r blocks nc nf gid P
  | OpReset | OpTakeEvents => True
  end.

(** A sequence of operations each of which respects its contract when its
    turn comes. *)
Fixpoint admissible (ops : list pool_op) (P : BlockPool) : Prop :=
  match ops with
  | [] => True
  | op :: ops' => pool_pre op P /\ forall P', pool_exec P op = Ok P' -> admissible ops' P'
  end.

Lemma free_pre_occ P l ps :
  pool_inv P l -> (forall i, PBlk i ∈ ps -> i ≠ 0%nat -> occ i ps <= 1 /\ 1 <= refc P i) ->
  forall i, i ≠ 0%nat -> occ i ps <= 1 /\ occ i ps <= refc P i.
Proof.
  intros HI Ho i Hi. destruct (decide (PBlk i ∈ ps)) as [Hin|Hin].
  - specialize (Ho i Hin Hi). lia.
  - rewrite occ_zero by done. pose proof (pi_ref _ _ HI i Hi). lia.
Qed.

Lemma pool_exec_inv P l op :
  pool_inv P l -> pool_pre op P ->
  exists P' l', pool_exec P op = Ok P' /\ pool_inv P' l' /\ same_config P P'.
Proof.
  intros HI. destruct op; cbn [pool_exec pool_pre]; intros Hpre.
  - rewrite (pool_free_num _ _ HI) in Hpre.
    destruct (get_new_blocks_step _ _ _ HI Hpre) as (P' & E & HI' & HT). rewrite E. cbn.
    eexists _, _. split; [done|]. split; [done|]. apply HT.
  - unfold touch. rewrite foldM_concat. destruct (touch_list _ _ _ HI Hpre) as (P' & E & HI' & HB).
    eexists _, _. split; [done|]. split; [done|]. apply HB.
  - destruct Hpre as [Hv Ho].
    destruct (free_blocks_step _ _ _ HI Hv (free_pre_occ _ _ _ HI Ho)) as (P' & E & HI' & HB).
    eexists _, _. split; [done|]. split; [done|]. apply HB.
  - destruct Hpre as (Hc & Hg & Hn & Hh & Hnd & Hu & Hv & Hev).
    destruct (cache_full_blocks_step r blocks _ _ bs _ _ _ HI Hc Hg Hn Hh Hnd Hu Hv Hev)
      as (P' & E & HI' & HF).
    eexists _, _. split; [done|]. split; [done|]. apply HF.
  - destruct (reset_prefix_cache_step _ _ HI) as (P' & E & HI' & HS & _). rewrite E. cbn. eauto.
  - unfold take_kv_events. destruct (enable_kv_cache_events P) eqn:E; cbn; eexists _, l;
      (split; [done|]); split; try done.
    destruct HI as [HC ? ? ?]. by split; [destruct HC| | |].
Qed.

(** C14: Started from [__init__], any admissible sequence of allocations, touches,
    releases, cache insertions and resets runs to completion without raising
    and leaves a pool that satisfies the invariant: a block sits in the free
    queue exactly when it is not the null block and its reference count is 0,
    reference counts are never negative, the queue length is the free
    counter, and the prefix cache maps a key to exactly the blocks that carry
    it. *)
Theorem pool_run_safe (n : nat) (caching events use_int : bool) (P : BlockPool) (ops : list pool_op) :
  pool_init (Z.of_nat n) caching events use_int = Ok P -> admissible ops P ->
  exists P' l, foldM pool_exec P ops = Ok P' /\ pool_inv P' l /\ num_gpu_blocks P' = Z.of_nat n.
Proof.
  intros Hini Hadm.
  assert (Hn : (0 < n)%nat).
  { destruct n; [|lia]. by unfold pool_init in Hini. }
  destruct (pool_init_inv n caching events use_int Hn) as (P0 & E0 & HI & _ & _ & HN & _).
  rewrite E0 in Hini. injection Hini as ->.
  clear E0. revert P HI HN Hadm. generalize (seq 1 (n - 1)) as l.
  induction ops as [|op ops IH]; intros l P HI HN Hadm; cbn [foldM]; [by exists P, l|].
  destruct Hadm as [Hpre Hadm]. destruct (pool_exec_inv _ _ _ HI Hpre) as (P1 & l1 & E & HI1 & HS).
  rewrite E. cbn [mbind result_bind]. eapply IH; [exact HI1| |auto].
  destruct HS as [-> _]. done.
Qed.

Lemma pool_run_safe_witness :
  exists P P' l,
    pool_init 4 true true false = Ok P /\
    foldM pool_exec P [OpAlloc 2; OpTouch [[PBlk 1]; [PBlk 1]]; OpFree [PBlk 2; PBlk 1]; OpReset] = Ok P' /\
    pool_inv P' l.
Proof.
  destruct (pool_init 4 true true false) as [P|] eqn:E; [|by vm_compute in E].
  destruct (pool_run_safe 4 true true false P
    [OpAlloc 2; OpTouch [[PBlk 1]; [PBlk 1]]; OpFree [PBlk 2; PBlk 1]; OpReset]) as (P' & l & E' & HI & _).
  - exact E.
  - vm_compute in E. injection E as <-. cbn [admissible].
    split; [by vm_compute|]. intros P1 E1. vm_compute in E1. injection E1 as <-.
    split.
    { intros p Hp. cbn in Hp. exists 1%nat. split; [|vm_compute; lia].
      rewrite !elem_of_cons, elem_of_nil in Hp. naive_solver. }
    intros P2 E2. vm_compute in E2. injection E2 as <-.
    split; [|by split].
    split.
    { intros p [-> | [-> | ?%elem_of_nil]%elem_of_cons]%elem_of_cons; [| |done];
        (eexists; split; [done|vm_compute; lia]). }
    intros i [[= ->] | [[= ->] | ?%elem_of_nil]%elem_of_cons]%elem_of_cons _; [| |done]; vm_compute; split; congruence.
  - by exists P, P', l.
Defined.

(** [get_new_blocks] fails with ValueError when fewer than [n] blocks are
    free; otherwise it hands out the [n] blocks at the front of the eviction
    order, each with reference count 1, without hash and gone from the prefix
    cache, and leaves every other block, and every other cache entry, as it
    was. *)
Theorem get_new_blocks_spec (P : BlockPool) (l : list nat) (n : Z) :
  pool_inv P l -> 0 <= n ->
  (zlen l < n -> get_new_blocks n P = Err ValueError) /\
  (n <= zlen l ->
   let ids := take (Z.to_nat n) l in
   exists P', get_new_blocks n P = Ok (PBlk <$> ids, P') /\ pool_inv P' (drop (Z.to_nat n) l) /\
     get_num_free_blocks P' = get_num_free_blocks P - n /\
     (forall i, i ∈ ids -> refc P' i = 1 /\ hashof P' i = None) /\
     (forall i, i ∉ ids -> bd P' i = bd P i) /\
     (forall k, cached_at P' k = filter (fun p => p ∉ PBlk <$> ids) (cached_at P k))).
Proof.
  intros HI Hn. split; intros Hl.
  - unfold get_new_blocks. rewrite (pool_free_num _ _ HI).
    by replace (zlen l <? n) with true by (symmetry; apply Z.ltb_lt; lia).
  - intros ids. destruct (get_new_blocks_step P l n HI ltac:(lia)) as (P' & E & HI' & HT).
    exists P'. split; [done|]. split; [done|].
    assert (Hin : forall i, PBlk i ∈ PBlk <$> ids <-> i ∈ ids).
    { intros i. rewrite list_elem_of_fmap. naive_solver. }
    split; [|split; [|split]].
    + rewrite (pool_free_num _ _ HI), (pool_free_num _ _ HI'). unfold zlen in *. rewrite length_drop. lia.
    + intros i Hi. rewrite (hashof_taken _ _ _ _ _ HT), (refc_taken _ _ _ _ _ HT).
      * rewrite !decide_True by (by apply Hin). done.
      * apply (pc_dom _ (pi_core _ _ HI)), (pool_free_valid _ _ _ HI).
        by apply subseteq_take in Hi.
    + intros i Hi. destruct HT as (_ & -> & _). rewrite decide_False; [done|]. by intros ?%Hin.
    + apply HT.
Qed.

Lemma get_new_blocks_spec_witness :
  exists P P' : BlockPool,
    pool_init 4 true false false = Ok P /\ get_new_blocks 2 P = Ok ([PBlk 1; PBlk 2], P') /\
    get_new_blocks 4 P = Err ValueError /\ refc P' 2 = 1.
Proof.
  destruct (pool_init_inv 4 true false false ltac:(lia)) as (P & E & HI & _).
  destruct (get_new_blocks_spec P _ 4 HI ltac:(lia)) as [Herr _].
  destruct (get_new_blocks_spec P _ 2 HI ltac:(lia)) as [_ Hok].
  destruct (Hok ltac:(vm_compute; congruence)) as (P' & E' & _ & _ & Hids & _).
  exists P, P'. split; [done|]. split; [done|]. split; [by apply Herr|].
  apply Hids. apply list_elem_of_lookup_2 with 1%nat. reflexivity.
Defined.

(** After [cache_full_blocks] every newly cached block hash is found again by
    [get_cached_block], the block returned carries that very hash, and it is
    the request's own block when the hash was not cached before and the
    request's hashes are pairwise distinct. *)
Theorem cache_then_lookup (P P' : BlockPool) (l : list nat) (r : Request) (blocks : list bptr)
  (nc nf j : nat) (bs gid : Z) (h : BlockHash) :
  pool_inv P l -> cache_pre r blocks nc nf gid P ->
  cache_full_blocks r blocks (Z.of_nat nc) (Z.of_nat nf) bs gid P = Ok P' ->
  (nc <= j < nf)%nat -> block_hashes r !! j = Some h ->
  exists i, get_cached_block P' h [gid] = Ok (Some [PBlk i]) /\ hashof P' i = Some (hkey gid h) /\
    (cached_at P (hkey gid h) = [] -> NoDup (block_hashes r) -> blocks !! j = Some (PBlk i)).
Proof.
  intros HI (Hc & Hg & Hn & Hh & Hnd & Hu & Hv & Hev) E Hj Hjh.
  destruct (cache_full_blocks_step r blocks _ _ bs _ _ _ HI Hc Hg Hn Hh Hnd Hu Hv Hev)
    as (P1 & E1 & HI' & (HS & _ & _ & Hold & Hnew)).
  rewrite E1 in E. injection E as ->. pose proof (pi_core _ _ HI') as HC.
  assert (Hlook : forall m, (m < nf - nc)%nat -> take (nf - nc) (drop nc blocks) !! m = blocks !! (nc + m)%nat).
  { intros m Hm. rewrite lookup_take_lt, lookup_drop by done. done. }
  destruct (blocks !! j) as [p|] eqn:Hp; [|apply lookup_ge_None in Hp; lia].
  assert (Hpn : p ∈ take (nf - nc) (drop nc blocks)).
  { apply list_elem_of_lookup. exists (j - nc)%nat. rewrite Hlook by lia.
    by replace (nc + (j - nc))%nat with j by lia. }
  destruct (Hv p Hpn) as [(i0 & -> & _) _].
  assert (Hkey : forall m, (m < nf - nc)%nat ->
    keys_for gid (take (nf - nc) (drop nc (block_hashes r))) !! m = hkey gid <$> block_hashes r !! (nc + m)%nat).
  { intros m Hm. unfold keys_for. rewrite list_lookup_fmap, lookup_take_lt, lookup_drop by done. done. }
  assert (H0 : hashof P' i0 = Some (hkey gid h)).
  { rewrite (Hnew (j - nc)%nat i0).
    - rewrite Hkey by lia. replace (nc + (j - nc))%nat with j by lia. by rewrite Hjh.
    - rewrite Hlook by lia. by replace (nc + (j - nc))%nat with j by lia. }
  pose proof (proj2 (pc_cache _ HC _ _) H0) as Hin.
  rewrite get_cached_block_single by done.
  destruct (cached_at P' (hkey gid h)) as [|q qs] eqn:Eq; [by apply elem_of_nil in Hin|].
  destruct (cached_hash P' (hkey gid h) q HC) as (i & -> & Hi); [rewrite Eq, elem_of_cons; by left|].
  exists i. split; [done|]. split; [done|]. intros Hempty Hdis.
  destruct (decide (PBlk i ∈ take (nf - nc) (drop nc blocks))) as [Hx|Hx].
  - apply list_elem_of_lookup in Hx as [m Hm].
    assert (m < nf - nc)%nat by (apply lookup_lt_Some in Hm; rewrite length_take in Hm; lia).
    rewrite (Hnew _ _ Hm), Hkey in Hi by done. rewrite Hlook in Hm by done.
    destruct (block_hashes r !! (nc + m)%nat) as [h'|] eqn:Eh; [|done]. cbn in Hi.
    injection Hi as Hi. apply app_inv_tail in Hi. subst h'.
    rewrite <-(NoDup_lookup _ _ _ _ Hdis Eh Hjh), Hm in Hp. done.
  - rewrite Hold in Hi by done. apply (pc_cache _ (pi_core _ _ HI)) in Hi. rewrite Hempty in Hi.
    by apply elem_of_nil in Hi.
Qed.

Lemma cache_then_lookup_witness :
  exists P P' i,
    cache_full_blocks (demo_request "r" [1; 2] [[7]]) [PBlk 1] 0 1 2 0 P = Ok P' /\
    get_cached_block P' [7] [0] = Ok (Some [PBlk i]).
Proof.
  destruct (pool_init_inv 4 true false false ltac:(lia)) as (P0 & E0 & HI0 & _).
  destruct (get_new_blocks_step P0 _ 1 HI0) as (P & E & HI & _); [vm_compute; split; congruence|].
  destruct (cache_full_blocks (demo_request "r" [1; 2] [[7]]) [PBlk 1] 0 1 2 0 P) as [P'|] eqn:E';
    [|exfalso; vm_compute in E0; injection E0 as <-; vm_compute in E; injection E as <-; vm_compute in E'; discriminate].
  destruct (cache_then_lookup P P' _ (demo_request "r" [1; 2] [[7]]) [PBlk 1] 0 1 0 2 0 [7] HI) as (i & Hi & _).
  - vm_compute in E0. injection E0 as <-. vm_compute in E. injection E as <-.
    split; [done|]. split; [lia|]. split; [cbn; lia|]. split; [cbn; lia|]. cbn. split.
    { apply NoDup_singleton. }
    split; [|split; [|done]].
    + intros i [= ->]%list_elem_of_singleton. reflexivity.
    + intros p ->%list_elem_of_singleton. split; [|done]. exists 1%nat. split; [done|vm_compute; lia].
  - exact E'.
  - lia.
  - reflexivity.
  - by exists P, P', i.
Defined.

(** Freeing appends the blocks whose last reference goes away to the end of
    the eviction order, in the order given; so as long as no more blocks are
    allocated than were free before, every one of them keeps its hash, stays
    in the prefix cache and can be reused. *)
Theorem freed_blocks_evicted_last (P : BlockPool) (l : list nat) (ps : list bptr) (n : Z) :
  pool_inv P l -> pool_pre (OpFree ps) P -> 0 <= n <= zlen l ->
  exists P1 P2 ids, free_blocks ps P = Ok P1 /\ pool_inv P1 (l ++ freed_ids P ps) /\
    get_new_blocks n P1 = Ok (ids, P2) /\
    (forall i, i ∈ freed_ids P ps -> PBlk i ∉ ids /\ hashof P2 i = hashof P i /\ refc P2 i = 0).
Proof.
  intros HI [Hv Ho] Hn.
  destruct (free_blocks_step P l ps HI Hv (free_pre_occ _ _ _ HI Ho)) as (P1 & E1 & HI1 & HB).
  destruct (get_new_blocks_step P1 (l ++ freed_ids P ps) n HI1) as (P2 & E2 & HI2 & HT).
  { rewrite zlen_app. pose proof (zlen_nonneg (freed_ids P ps)). lia. }
  eexists P1, P2, _. split; [done|]. split; [done|]. split; [done|].
  intros i Hi. rewrite take_app_le in HT |- * by (unfold zlen in Hn; lia).
  assert (Hni : PBlk i ∉ PBlk <$> take (Z.to_nat n) l).
  { intros (j & [= <-] & Hj%subseteq_take)%list_elem_of_fmap.
    apply list_elem_of_filter in Hi as [[_ Hr] _].
    apply (pi_free _ _ HI) in Hj as [_ ?]; [lia|]. by apply (pool_free_valid _ _ _ HI). }
  assert (Hval : (i < Z.to_nat (num_gpu_blocks P))%nat).
  { apply list_elem_of_filter in Hi as [_ Hi]. rewrite elem_of_blk_ids in Hi.
    by destruct (Hv _ Hi) as (? & [= ->] & ?). }
  split; [done|]. rewrite (hashof_taken _ _ _ _ _ HT), decide_False by done.
  rewrite (bump_hashof _ _ _ _ HB). split; [done|].
  assert (Hs : is_Some (bd P i)) by (by apply (pc_dom _ (pi_core _ _ HI))).
  rewrite (refc_taken _ _ _ _ _ HT), decide_False; [|done|].
  - rewrite (bump_refc _ _ _ _ HB Hs). apply list_elem_of_filter in Hi as [[Hi0 Hr] Hin].
    rewrite elem_of_blk_ids in Hin. pose proof (proj2 (occ_pos i ps) Hin).
    specialize (Ho i Hin Hi0). lia.
  - apply (pc_dom _ (pi_core _ _ HI1)). destruct HB as ((-> & _) & _). done.
Qed.

Lemma freed_blocks_evicted_last_witness :
  exists P P1 P2 ids, free_blocks [PBlk 2; PBlk 1] P = Ok P1 /\ get_new_blocks 1 P1 = Ok (ids, P2) /\
    PBlk 2 ∉ ids.
Proof.
  destruct (pool_init_inv 4 true false false ltac:(lia)) as (P0 & E0 & HI0 & _).
  destruct (get_new_blocks_step P0 _ 2 HI0) as (P & E & HI & _); [vm_compute; split; congruence|].
  destruct (freed_blocks_evicted_last P _ [PBlk 2; PBlk 1] 1 HI) as (P1 & P2 & ids & E1 & _ & E2 & Hk).
  - vm_compute in E0. injection E0 as <-. vm_compute in E. injection E as <-. split.
    + intros p [-> | [-> | ?%elem_of_nil]%elem_of_cons]%elem_of_cons; [| |done];
        (eexists; split; [done|vm_compute; lia]).
    + intros i [[= ->] | [[= ->] | ?%elem_of_nil]%elem_of_cons]%elem_of_cons _; [| |done];
        vm_compute; split; congruence.
  - vm_compute. split; congruence.
  - exists P, P1, P2, ids. split; [done|]. split; [done|]. apply Hk.
    apply list_elem_of_lookup_2 with 0%nat.
    vm_compute in E0. injection E0 as <-. vm_compute in E. injection E as <-. reflexivity.
Defined.

(** With KV cache events enabled, caching the first full blocks of a request
    that has a LoRA adapter raises AttributeError: the event reads
    [request.lora_request.id], an attribute LoRARequest does not define. *)
Theorem lora_event_attribute_error (P : BlockPool) (l : list nat) (r : Request) (blocks : list bptr)
  (nf : nat) (bs gid : Z) (lora : LoRARequest) :
  pool_inv P l -> enable_caching P = true -> 0 <= gid < 2 ^ 32 -> (0 < nf <= length blocks)%nat ->
  (nf <= length (block_hashes r))%nat -> NoDup (take nf blocks) ->
  (forall i, PBlk i ∈ take nf blocks -> hashof P i = None) ->
  (forall p, p ∈ take nf blocks -> valid P p /\ p ≠ PBlk 0) ->
  enable_kv_cache_events P = true -> lora_request r = Some lora ->
  cache_full_blocks r blocks 0 (Z.of_nat nf) bs gid P = Err AttributeError.
Proof.
  intros HI Hc Hg Hn Hh Hnd Hu Hv He Hl. unfold cache_full_blocks.
  replace (0 =? Z.of_nat nf) with false by (symmetry; apply Z.eqb_neq; lia).
  change (pyslice 0) with (@pyslice bptr (Z.of_nat 0)).
  rewrite pyslice_in, Nat.sub_0_r, drop_0 by lia.
  replace (Z.of_nat nf <=? zlen (block_hashes r)) with true by (symmetry; apply Z.leb_le; unfold zlen; lia).
  cbn [assert_ mbind result_bind]. unfold pydrop. rewrite slice_bound_in by (pose proof (zlen_nonneg (block_hashes r)); lia).
  change (drop (Z.to_nat 0) (block_hashes r)) with (block_hashes r).
  destruct (cache_loop_step P l gid (block_hashes r) (take nf blocks) 0 [])
    as (P' & nh & -> & _ & _ & HF & _); try done; [apply HI|apply HI|rewrite length_take; lia|].
  cbn [mbind result_bind]. destruct HF as ((_ & _ & _ & ->) & _). rewrite He.
  unfold stored_event. by rewrite Hl.
Qed.

Lemma lora_event_attribute_error_witness :
  exists P, cache_full_blocks (set_lora (Some (mkLora "a" 1)) (demo_request "r" [1; 2] [[7]]))
    [PBlk 1] 0 1 2 0 P = Err AttributeError.
Proof.
  destruct (pool_init_inv 4 true true false ltac:(lia)) as (P0 & E0 & HI0 & _).
  destruct (get_new_blocks_step P0 _ 1 HI0) as (P & E & HI & _); [vm_compute; split; congruence|].
  exists P.
  apply (lora_event_attribute_error P _ (set_lora (Some (mkLora "a" 1)) (demo_request "r" [1; 2] [[7]]))
           [PBlk 1] 1 2 0 (mkLora "a" 1) HI);
    vm_compute in E0; injection E0 as <-; vm_compute in E; injection E as <-;
    try done; try (cbn; lia); cbn.
  - apply NoDup_singleton.
  - by intros i [= ->]%list_elem_of_singleton.
  - intros p ->%list_elem_of_singleton. split; [|done]. exists 1%nat. split; [done|vm_compute; lia].
Defined.
