(* ===== verification/KVSpec.v ===== *)
(** The KV cache specifications of src/vllm/v1/kv_cache_interface.py: the
    format of one layer's cache, its page size, the memory it may need and the
    merge of the specifications of a group of layers. *)
From Stdlib Require Import ZArith Lia Ascii String.
From stdpp Require Import numbers gmap strings list.
From S2P Require Import Prelude.

Open Scope Z_scope.

(** ** Data *)

(** A torch dtype: its name and [element_size()]. *)
Record dtype := mkDtype { dt_name : string; dt_size : Z }.

#[export] Instance dtype_eq_dec : EqDecision dtype.
Proof. solve_decision. Defined.

(** The fields [AttentionSpec] adds to [block_size]. *)
Record AttentionFields := mkAttn {
  num_kv_heads : Z;
  head_size : Z;
  at_dtype : dtype;
  use_mla : bool
}.

#[export] Instance AttentionFields_eq_dec : EqDecision AttentionFields.
Proof. solve_decision. Defined.

(** The dataclass hierarchy, one constructor per concrete class; the first
    argument is [block_size]. *)
Inductive KVCacheSpec :=
| FullAttentionSpec (bs : Z) (a : AttentionFields) (sliding_window attention_chunk_size : option Z)
| ChunkedLocalAttentionSpec (bs : Z) (a : AttentionFields) (attention_chunk_size : Z)
| SlidingWindowSpec (bs : Z) (a : AttentionFields) (sliding_window : Z)
| MambaSpec (bs : Z) (shapes : list (list Z)) (dtypes : list dtype) (page_size_padded : option Z)
    (mamba_type : string) (num_speculative_blocks : Z)
| EncoderOnlyAttentionSpec (bs : Z) (a : AttentionFields)
| CrossAttentionSpec (bs : Z) (a : AttentionFields).

#[export] Instance KVCacheSpec_eq_dec : EqDecision KVCacheSpec.
Proof. solve_decision. Defined.

Definition spec_block_size (s : KVCacheSpec) : Z :=
  match s with
  | FullAttentionSpec bs _ _ _ | ChunkedLocalAttentionSpec bs _ _ | SlidingWindowSpec bs _ _
  | MambaSpec bs _ _ _ _ _ | EncoderOnlyAttentionSpec bs _ | CrossAttentionSpec bs _ => bs
  end.

(** [SlidingWindowSpec.__post_init__] rejects MLA. *)
Definition SlidingWindowSpec_init (bs : Z) (a : AttentionFields) (w : Z) : result KVCacheSpec :=
  _ ← assert_ (negb (use_mla a));
  Ok (SlidingWindowSpec bs a w).

(** The parts of [VllmConfig] the specifications read; [max_encoder_len] is
    the value of [MULTIMODAL_REGISTRY.get_encdec_max_encoder_len]. *)
Record SpecConfig := mkSpecConfig {
  sc_max_model_len : Z;
  sc_max_num_batched_tokens : Z;
  decode_context_parallel_size : Z;
  max_encoder_len : Z
}.

(** ** Page sizes *)

Definition attn_page_size (bs : Z) (a : AttentionFields) : Z :=
  (if use_mla a then 1 else 2) * bs * num_kv_heads a * head_size a * dt_size (at_dtype a).

Definition prod (l : list Z) : Z := foldr Z.mul 1 l.

Definition mamba_page_size (shapes : list (list Z)) (dtypes : list dtype) (padded : option Z) : result Z :=
  let page_size := foldr Z.add 0 (zip_with (fun shape d => prod shape * dt_size d) shapes dtypes) in
  match padded with
  | Some p => _ ← assert_ (page_size <=? p); Ok p
  | None => Ok page_size
  end.

Definition page_size_bytes (s : KVCacheSpec) : result Z :=
  match s with
  | FullAttentionSpec bs a _ _ | ChunkedLocalAttentionSpec bs a _ | SlidingWindowSpec bs a _
  | EncoderOnlyAttentionSpec bs a | CrossAttentionSpec bs a => Ok (attn_page_size bs a)
  | MambaSpec _ shapes dtypes padded _ _ => mamba_page_size shapes dtypes padded
  end.

(** ** Worst-case memory of one request *)

Definition full_max_memory (c : SpecConfig) (bs : Z) (a : AttentionFields) : Z :=
  let max_model_len := if 1 <? decode_context_parallel_size c
    then cdiv (sc_max_model_len c) (decode_context_parallel_size c) else sc_max_model_len c in
  cdiv max_model_len bs * attn_page_size bs a.

Definition chunked_max_memory (c : SpecConfig) (bs : Z) (a : AttentionFields) (chunk : Z) : Z :=
  let num_tokens := Z.min (chunk + sc_max_num_batched_tokens c) (sc_max_model_len c) in
  cdiv num_tokens bs * attn_page_size bs a.

Definition sliding_max_memory (c : SpecConfig) (bs : Z) (a : AttentionFields) (w : Z) : result Z :=
  _ ← assert_ (decode_context_parallel_size c =? 1);
  let num_tokens := Z.min (w - 1 + sc_max_num_batched_tokens c) (sc_max_model_len c) in
  Ok ((cdiv num_tokens bs + 1) * attn_page_size bs a).

Definition max_memory_usage_bytes (c : SpecConfig) (s : KVCacheSpec) : result Z :=
  match s with
  | FullAttentionSpec bs a _ _ => Ok (full_max_memory c bs a)
  | ChunkedLocalAttentionSpec bs a chunk => Ok (chunked_max_memory c bs a chunk)
  | SlidingWindowSpec bs a w => sliding_max_memory c bs a w
  | MambaSpec _ shapes dtypes padded _ _ => mamba_page_size shapes dtypes padded
  | EncoderOnlyAttentionSpec _ _ => Ok 0
  | CrossAttentionSpec bs a => Ok (cdiv (max_encoder_len c) bs * attn_page_size bs a)
  end.

(** ** Merging *)

(** [window_sizes] is a set: a duplicate-free list. *)
Definition merge_window_sizes (window_sizes : list Z) : result (option Z) :=
  match window_sizes with
  | [] => Ok None
  | [w] => Ok (Some w)
  | _ => Err ValueError
  end.

Definition is_full (s : KVCacheSpec) : bool :=
  match s with FullAttentionSpec _ _ _ _ => true | _ => false end.

(** The fields of [AttentionSpec], inherited [block_size] included. *)
Definition attn_fields (s : KVCacheSpec) : option (Z * AttentionFields) :=
  match s with
  | FullAttentionSpec bs a _ _ | ChunkedLocalAttentionSpec bs a _ | SlidingWindowSpec bs a _
  | EncoderOnlyAttentionSpec bs a | CrossAttentionSpec bs a => Some (bs, a)
  | MambaSpec _ _ _ _ _ _ => None
  end.

Definition full_window (s : KVCacheSpec) : option Z :=
  match s with FullAttentionSpec _ _ w _ => w | _ => None end.
Definition full_chunk (s : KVCacheSpec) : option Z :=
  match s with FullAttentionSpec _ _ _ c => c | _ => None end.

Definition merge_full (specs : list KVCacheSpec) : result KVCacheSpec :=
  _ ← assert_ (forallb is_full specs);
  s0 ← pyindex specs 0;
  fields0 ← get_or AttributeError (attn_fields s0);
  w ← merge_window_sizes (remove_dups (omap full_window specs));
  c ← merge_window_sizes (remove_dups (omap full_chunk specs));
  _ ← assert_ (forallb (fun s => bool_decide (attn_fields s = Some fields0)) specs);
  _ ← assert_ (Z.b2z (bool_decide (is_Some w)) + Z.b2z (bool_decide (is_Some c)) <=? 1);
  Ok (FullAttentionSpec fields0.1 fields0.2 w c).

Definition merge_same (specs : list KVCacheSpec) : result KVCacheSpec :=
  s0 ← (_ ← assert_ (forallb (fun s => bool_decide (Some s = head specs)) (tail specs)); pyindex specs 0);
  Ok s0.

(** [specs[0].merge(specs)]: the class of the first element decides. *)
Definition merge (specs : list KVCacheSpec) : result KVCacheSpec :=
  s0 ← pyindex specs 0;
  if is_full s0 then merge_full specs else merge_same specs.

(** ** Groups and configurations *)

Record KVCacheTensor := mkTensor { tensor_size : Z; shared_by : list string }.

Record KVCacheGroupSpec := mkGroup { layer_names : list string; kv_cache_spec : KVCacheSpec }.

Record KVCacheConfig := mkConfig {
  num_blocks : Z;
  kv_cache_tensors : list KVCacheTensor;
  kv_cache_groups : list KVCacheGroupSpec
}.

(** * Properties *)

Lemma merge_window_sizes_agree ws o w :
  merge_window_sizes (remove_dups ws) = Ok o -> w ∈ ws -> o = Some w.
Proof.
  intros E Hw. apply elem_of_remove_dups in Hw.
  destruct (remove_dups ws) as [|x [|y l]]; cbn in E; [by apply elem_of_nil in Hw| |done].
  apply list_elem_of_singleton in Hw as ->. congruence.
Qed.

Lemma merge_window_sizes_some ws o w :
  merge_window_sizes (remove_dups ws) = Ok o -> o = Some w -> w ∈ ws.
Proof.
  intros E ->. apply elem_of_remove_dups.
  destruct (remove_dups ws) as [|x [|y l]]; cbn in E; [done| |done].
  injection E as ->. by apply list_elem_of_singleton.
Qed.

Lemma forallb_elem {A} (f : A -> bool) l x : forallb f l = true -> x ∈ l -> f x = true.
Proof. rewrite forallb_forall. intros Hl Hx. by apply Hl, list_elem_of_In. Qed.

(** A merged group specification describes each of its members: the merged
    specification of full-attention layers has the block size, the page size
    and the attention fields of every layer, every window or chunk size a
    layer has is the merged one, and not both are set; for the other classes
    all layers are the same specification. *)
Theorem merge_sound (specs : list KVCacheSpec) (m : KVCacheSpec) :
  merge specs = Ok m ->
  Forall (fun s => spec_block_size s = spec_block_size m /\ page_size_bytes s = page_size_bytes m /\
    attn_fields s = attn_fields m /\
    (is_full m = false -> s = m) /\
    (forall w, full_window s = Some w -> full_window m = Some w /\ full_chunk m = None) /\
    (forall c, full_chunk s = Some c -> full_chunk m = Some c /\ full_window m = None)) specs.
Proof.
  unfold merge. intros E. destruct specs as [|s0 specs]; [done|]. cbn [pyindex] in E.
  change (pyindex (s0 :: specs) 0) with (Ok s0) in E. cbn [mbind result_bind] in E.
  destruct (is_full s0) eqn:Hf.
  - unfold merge_full in E. change (pyindex (s0 :: specs) 0) with (Ok s0) in E. inv_ok.
    apply Forall_forall. intros s Hs.
    pose proof (forallb_elem _ _ _ E0 Hs) as Hfs.
    pose proof (forallb_elem _ _ _ E5 Hs) as Hat. apply bool_decide_eq_true in Hat.
    destruct s; try done. cbn in Hat. injection Hat as -> ->. cbn.
    split; [done|]. split; [done|]. split; [done|]. split; [done|].
    apply Z.leb_le in E6. split.
    + intros w ->. assert (a2 = Some w) as ->.
      { eapply merge_window_sizes_agree; [exact E3|].
        apply list_elem_of_omap. by eexists; split; [exact Hs|]. }
      split; [done|]. destruct a3; [by cbn in E6|done].
    + intros w ->. assert (a3 = Some w) as ->.
      { eapply merge_window_sizes_agree; [exact E4|].
        apply list_elem_of_omap. by eexists; split; [exact Hs|]. }
      split; [done|]. destruct a2; [by cbn in E6|done].
  - unfold merge_same in E. cbn [tail head] in E.
    change (pyindex (s0 :: specs) 0) with (Ok s0) in E. inv_ok. subst.
    apply Forall_forall. intros s Hs.
    assert (s = m) as ->.
    { apply elem_of_cons in Hs as [->|Hs]; [done|].
      pose proof (forallb_elem _ _ _ E1 Hs) as Hx. apply bool_decide_eq_true in Hx. congruence. }
    destruct m; try done; naive_solver.
Qed.

Definition demo_attn : AttentionFields := mkAttn 8 128 (mkDtype "bfloat16" 2) false.

Lemma merge_sound_witness :
  merge [FullAttentionSpec 16 demo_attn None None; FullAttentionSpec 16 demo_attn (Some 4096) None] =
    Ok (FullAttentionSpec 16 demo_attn (Some 4096) None) /\
  page_size_bytes (FullAttentionSpec 16 demo_attn None None) =
    page_size_bytes (FullAttentionSpec 16 demo_attn (Some 4096) None).
Proof.
  assert (E : merge [FullAttentionSpec 16 demo_attn None None; FullAttentionSpec 16 demo_attn (Some 4096) None] =
    Ok (FullAttentionSpec 16 demo_attn (Some 4096) None)) by reflexivity.
  split; [exact E|]. pose proof (merge_sound _ _ E) as H. apply Forall_cons in H as [H _]. apply H.
Defined.
