(* ===== verification/KVConfig.v ===== *)
(** How the memory left for the KV cache becomes blocks: the second half of
    src/vllm/v1/core/kv_cache_utils.py for one worker (memory check, model
    length estimate, layer groups, tensors). *)
From Stdlib Require Import ZArith Lia Ascii String QArith Qcanon.
From stdpp Require Import numbers gmap strings list.
From S2P Require Import Prelude KVSpec.

Open Scope Z_scope.

(** ** Data *)

(** The parts of [VllmConfig] the functions read. *)
Record CacheSetup := mkCacheSetup {
  cs_spec : SpecConfig;
  num_gpu_blocks_override : option Z;
  disable_hybrid_kv_cache_manager : bool
}.

(** [dict[str, KVCacheSpec]], in insertion order. *)
Abbreviation spec_dict := (list (string * KVCacheSpec)).

Fixpoint spec_of (d : spec_dict) (layer : string) : result KVCacheSpec :=
  match d with
  | [] => Err KeyError
  | (name, spec) :: d' => if decide (name = layer) then Ok spec else spec_of d' layer
  end.

(** Python's [//], [min] and [max]. *)
Definition floordiv (a b : Z) : result Z := _ ← raise_if (b =? 0) ZeroDivisionError; Ok (a / b).
Definition py_min (l : list Z) : result Z := match l with [] => Err ValueError | x :: l => Ok (foldr Z.min x l) end.
Definition py_max (l : list Z) : result Z := match l with [] => Err ValueError | x :: l => Ok (foldr Z.max x l) end.

(** ** Memory check *)

Definition total_max_memory (c : SpecConfig) (specs : list KVCacheSpec) : result Z :=
  foldM (fun acc s => m ← max_memory_usage_bytes c s; Ok (acc + m)) 0 specs.

Definition set_max_model_len (n : Z) (c : SpecConfig) : SpecConfig :=
  mkSpecConfig n (sc_max_num_batched_tokens c) (decode_context_parallel_size c) (max_encoder_len c).

(** [fits_in_memory] writes the length it tries into the configuration. *)
Definition fits_in_memory (specs : list KVCacheSpec) (available_memory model_len : Z) (c : SpecConfig) : result (bool * SpecConfig) :=
  let c := set_max_model_len model_len c in
  m ← total_max_memory c specs;
  Ok (m <=? available_memory, c).

Fixpoint search_loop (fuel : nat) (specs : list KVCacheSpec) (available_memory left right res : Z) (c : SpecConfig)
  : result (Z * SpecConfig) :=
  match fuel with
  | O => Err OutOfFuel
  | S fuel =>
      if left <=? right then
        let mid := (left + right) / 2 in
        '(fits, c) ← fits_in_memory specs available_memory mid c;
        if (fits : bool) then search_loop fuel specs available_memory (mid + 1) right mid c
        else search_loop fuel specs available_memory left (mid - 1) res c
      else Ok (res, c)
  end.

Definition estimate_max_model_len (c : SpecConfig) (specs : list KVCacheSpec) (available_memory : Z) : result (Z * SpecConfig) :=
  let current_max := sc_max_model_len c in
  '(fits, c) ← fits_in_memory specs available_memory 1 c;
  if negb fits then Ok (0, c)
  else search_loop (S (Z.to_nat current_max)) specs available_memory 1 current_max 1 c.

Definition check_enough_kv_cache_memory (c : SpecConfig) (d : spec_dict) (available_memory : Z) : result unit :=
  match d with
  | [] => Ok tt
  | _ =>
      _ ← raise_if (available_memory <=? 0) ValueError;
      needed_memory ← total_max_memory c d.*2;
      if available_memory <? needed_memory then
        _ ← estimate_max_model_len c d.*2 available_memory;
        Err ValueError
      else Ok tt
  end.

(** ** Groups *)

Definition create_kv_cache_group_specs (d : spec_dict) (grouped_layer_names : list (list string)) : result (list KVCacheGroupSpec) :=
  mapM_res (fun names =>
    layer_specs ← mapM_res (spec_of d) names;
    merged ← merge layer_specs;
    Ok (mkGroup names merged)) grouped_layer_names.

(** Only [AssertionError] is caught. *)
Definition is_kv_cache_type_uniform (d : spec_dict) : result bool :=
  match merge d.*2 with
  | Ok _ => Ok true
  | Err AssertionError => Ok false
  | Err e => Err e
  end.

Definition get_max_concurrency_for_kv_cache_config (c : SpecConfig) (kc : KVCacheConfig) : result Qc :=
  num_layer_per_group ← py_max ((fun g => zlen (layer_names g)) <$> kv_cache_groups kc);
  m ← total_max_memory c (kv_cache_spec <$> kv_cache_groups kc);
  g0 ← pyindex (kv_cache_groups kc) 0;
  page ← page_size_bytes (kv_cache_spec g0);
  let memory_per_block := page * num_layer_per_group in
  _ ← raise_if (memory_per_block =? 0) ZeroDivisionError;
  let num_block_per_request := cdiv (num_layer_per_group * m) memory_per_block in
  _ ← raise_if (num_block_per_request =? 0) ZeroDivisionError;
  Ok (Q2Qc (inject_Z (num_blocks kc)) / Q2Qc (inject_Z num_block_per_request))%Qc.

Definition get_num_blocks (override : option Z) (num_layers available_memory page_size : Z) : result Z :=
  n ← floordiv available_memory page_size;
  n ← floordiv n num_layers;
  Ok (match override with Some o => o | None => Z.max n 0 end).

Definition page_sizes (d : spec_dict) : result (list Z) :=
  sizes ← mapM_res page_size_bytes d.*2;
  Ok (remove_dups sizes).

Definition get_uniform_page_size (d : spec_dict) : result Z :=
  sizes ← page_sizes d;
  match sizes with
  | [p] => Ok p
  | _ => Err AssertionError
  end.

Definition is_kv_cache_page_size_uniform (d : spec_dict) : result bool :=
  sizes ← page_sizes d;
  Ok (zlen sizes =? 1).

Definition is_kv_cache_type_attention_free (d : spec_dict) : bool :=
  match d with [] => true | _ => false end.

(** ** One configuration *)

(** [_get_kv_cache_config_uniform_type]; the concurrency is only logged. *)
Definition get_kv_cache_config_uniform_type (cs : CacheSetup) (d : spec_dict) (available_memory : Z) : result KVCacheConfig :=
  page_size ← get_uniform_page_size d;
  n ← get_num_blocks (num_gpu_blocks_override cs) (zlen d) available_memory page_size;
  let per_layer_size := page_size * n in
  groups ← create_kv_cache_group_specs d [d.*1];
  let kc := mkConfig n ((fun layer => mkTensor per_layer_size [layer]) <$> d.*1) groups in
  _ ← get_max_concurrency_for_kv_cache_config (cs_spec cs) kc;
  Ok kc.

(** [same_type_layers[spec].append(name)] on the [defaultdict]. *)
Fixpoint same_type_add (spec : KVCacheSpec) (name : string) (t : list (KVCacheSpec * list string)) : list (KVCacheSpec * list string) :=
  match t with
  | [] => [(spec, [name])]
  | (spec', names) :: t' => if decide (spec = spec') then (spec', names ++ [name]) :: t' else (spec', names) :: same_type_add spec name t'
  end.

Definition same_type_layers (d : spec_dict) : list (KVCacheSpec * list string) :=
  foldl (fun t p => same_type_add p.2 p.1 t) [] d.

(** [layers[i:i + group_size] for i in range(0, len(layers), group_size)]. *)
Definition split_layers (group_size : Z) (layers : list string) : list (list string) :=
  (fun i : nat => pyslice (Z.of_nat i * group_size) (Z.of_nat i * group_size + group_size) layers)
    <$> seq 0 (Z.to_nat (cdiv (zlen layers) group_size)).

(** [_get_kv_cache_config_uniform_page_size]. *)
Definition get_kv_cache_config_uniform_page_size (cs : CacheSetup) (d : spec_dict) (available_memory : Z) : result KVCacheConfig :=
  let types := (same_type_layers d).*2 in
  group_size ← py_min (zlen <$> types);
  let grouped_layers := concat (split_layers group_size <$> types) in
  groups ← create_kv_cache_group_specs d grouped_layers;
  page_size ← get_uniform_page_size d;
  n ← get_num_blocks (num_gpu_blocks_override cs) group_size available_memory page_size;
  let per_memory_pool_size := page_size * n in
  let tensors := (fun i => mkTensor per_memory_pool_size (omap (fun layers => layers !! i) grouped_layers))
    <$> seq 0 (Z.to_nat group_size) in
  let kc := mkConfig n tensors groups in
  _ ← get_max_concurrency_for_kv_cache_config (cs_spec cs) kc;
  Ok kc.

Definition get_kv_cache_config_attention_free : KVCacheConfig := mkConfig 1 [] [].

(** The conversion of one layer in [unify_hybrid_kv_cache_specs]. *)
Definition as_full_attention (s : KVCacheSpec) : KVCacheSpec :=
  match s with
  | SlidingWindowSpec bs a w => FullAttentionSpec bs a (Some w) None
  | ChunkedLocalAttentionSpec bs a chunk => FullAttentionSpec bs a None (Some chunk)
  | _ => s
  end.

Definition is_sliding (s : KVCacheSpec) : bool := match s with SlidingWindowSpec _ _ _ => true | _ => false end.
Definition is_chunked (s : KVCacheSpec) : bool := match s with ChunkedLocalAttentionSpec _ _ _ => true | _ => false end.

Definition unify_hybrid_kv_cache_specs (d : spec_dict) : result spec_dict :=
  uniform ← is_kv_cache_type_uniform d;
  if (uniform : bool) then Ok d
  else
    let has_full_attention := existsb is_full d.*2 in
    let has_sliding_window := existsb is_sliding d.*2 in
    let has_chunked_local_attention := existsb is_chunked d.*2 in
    let d := if has_full_attention && (has_sliding_window || has_chunked_local_attention)
             then prod_map id as_full_attention <$> d else d in
    uniform ← is_kv_cache_type_uniform d;
    _ ← raise_if (negb uniform) ValueError;
    Ok d.

Definition get_kv_cache_config (cs : CacheSetup) (d : spec_dict) (available_memory : Z) : result KVCacheConfig :=
  _ ← check_enough_kv_cache_memory (cs_spec cs) d available_memory;
  d ← (if disable_hybrid_kv_cache_manager cs then unify_hybrid_kv_cache_specs d else Ok d);
  if is_kv_cache_type_attention_free d then Ok get_kv_cache_config_attention_free
  else
    uniform ← is_kv_cache_type_uniform d;
    if (uniform : bool) then get_kv_cache_config_uniform_type cs d available_memory
    else
      same_page ← is_kv_cache_page_size_uniform d;
      if (same_page : bool) then get_kv_cache_config_uniform_page_size cs d available_memory
      else Err NotImplementedError.

(** * The estimate of the model length *)

(** What the specifications of real layers satisfy: positive blocks, no
    negative sizes, a padded Mamba page that covers the state, no sliding window
    under context parallelism. *)
Definition spec_wf (c : SpecConfig) (s : KVCacheSpec) : Prop :=
  0 < spec_block_size s /\ 1 <= decode_context_parallel_size c /\ (exists p, page_size_bytes s = Ok p /\ 0 < p) /\
  (is_sliding s = true -> decode_context_parallel_size c = 1).

(** A sequence of [n] tokens fits. *)
Definition fits (c : SpecConfig) (specs : list KVCacheSpec) (available_memory n : Z) : Prop :=
  exists m, total_max_memory (set_max_model_len n c) specs = Ok m /\ m <= available_memory.

Lemma total_acc c l acc :
  foldM (fun acc s => m ← max_memory_usage_bytes c s; Ok (acc + m)) acc l = (t ← total_max_memory c l; Ok (acc + t)).
Proof.
  unfold total_max_memory. revert acc. induction l as [|s l IH]; intros acc; cbn [foldM mbind result_bind]; [by rewrite Z.add_0_r|].
  destruct (max_memory_usage_bytes c s) as [m|]; cbn [mbind result_bind]; [|done]. rewrite (IH (acc + m)), (IH (0 + m)).
  destruct (foldM _ 0 l) as [t|]; cbn; [|done]. f_equal. lia.
Qed.

Lemma total_cons c s l : total_max_memory c (s :: l) = (m ← max_memory_usage_bytes c s; t ← total_max_memory c l; Ok (m + t)).
Proof.
  unfold total_max_memory at 1. cbn. destruct (max_memory_usage_bytes c s) as [m|]; cbn; [|done]. apply total_acc.
Qed.

Lemma memory_mono c s n n' : spec_wf c s -> n <= n' -> exists m m',
  max_memory_usage_bytes (set_max_model_len n c) s = Ok m /\ max_memory_usage_bytes (set_max_model_len n' c) s = Ok m' /\ m <= m'.
Proof.
  intros (Hbs & Hdcp & (p & Hp & Hpos) & Hsw) Hn. destruct s as [bs a w ch|bs a ch|bs a w|bs sh dt pad ty sp|bs a|bs a]; cbn in *; simplify_eq; eauto with lia.
  - eexists _, _. split_and!; [done..|]. unfold full_max_memory. cbn. apply Z.mul_le_mono_nonneg_r; [lia|]. apply cdiv_mono; [done|].
    destruct (1 <? _) eqn:E; [|done]. apply cdiv_mono; lia.
  - eexists _, _. split_and!; [done..|]. unfold chunked_max_memory. cbn. apply Z.mul_le_mono_nonneg_r; [lia|]. apply cdiv_mono; lia.
  - unfold sliding_max_memory. cbn. rewrite (Hsw eq_refl). cbn. eexists _, _. split_and!; [done..|].
    apply Z.mul_le_mono_nonneg_r; [lia|]. apply Zplus_le_compat_r. apply cdiv_mono; lia.
Qed.

Lemma total_mono c l n n' : Forall (spec_wf c) l -> n <= n' -> exists m m',
  total_max_memory (set_max_model_len n c) l = Ok m /\ total_max_memory (set_max_model_len n' c) l = Ok m' /\ m <= m'.
Proof.
  intros Hl Hn. induction Hl as [|s l Hs Hl (t & t' & E & E' & Ht)]; [by exists 0, 0|].
  destruct (memory_mono c s n n' Hs Hn) as (m & m' & Em & Em' & Hm). rewrite !total_cons, Em, Em', E, E'. cbn.
  eexists _, _. split_and!; [done..|lia].
Qed.

Section Estimate.
Context (c : SpecConfig) (specs : list KVCacheSpec) (available_memory : Z).
Hypothesis Hwf : Forall (spec_wf c) specs.
Notation fits := (fits c specs available_memory).

Lemma fits_total n c' : (exists k, c' = set_max_model_len k c) ->
  exists b, fits_in_memory specs available_memory n c' = Ok (b, set_max_model_len n c) /\ (b = true <-> fits n).
Proof using Hwf.
  intros [k ->]. unfold fits_in_memory. change (set_max_model_len n (set_max_model_len k c)) with (set_max_model_len n c).
  destruct (total_mono c specs n n Hwf ltac:(lia)) as (m & _ & E & _ & _). rewrite E. cbn. eexists. split; [done|]. rewrite Z.leb_le.
  split; [by exists m|]. intros (m' & E' & Hm). congruence.
Qed.

Lemma fits_down n n' : n <= n' -> fits n' -> fits n.
Proof using Hwf.
  intros Hn (m' & E' & Hm'). destruct (total_mono c specs n n' Hwf Hn) as (m & m1 & E & E1 & Hm). exists m. split; [done|].
  rewrite E' in E1. injection E1 as <-. lia.
Qed.

Lemma search_correct top fuel : forall left right res c',
  (Z.to_nat (right - left + 1) < fuel)%nat -> (exists k, c' = set_max_model_len k c) -> 1 <= left -> right <= top -> 1 <= res <= top -> left <= res + 1 ->
  fits res -> (forall m, right < m <= top -> ~ fits m) ->
  exists n c'', search_loop fuel specs available_memory left right res c' = Ok (n, c'') /\
    1 <= n <= top /\ fits n /\ (forall m, n < m <= top -> ~ fits m).
Proof using Hwf.
  induction fuel as [|fuel IH]; intros left right res c' Hf Hc H1 Hrt Hr Hl Hfit Hno; [lia|]. cbn [search_loop].
  destruct (Z.leb_spec left right) as [Hle|Hgt].
  - set (mid := (left + right) / 2).
    assert (Hmid : left <= mid <= right) by (subst mid; split; [apply Z.div_le_lower_bound|apply Z.div_le_upper_bound]; lia).
    destruct (fits_total mid c' Hc) as (b & -> & Hb). cbn [mbind result_bind]. destruct b.
    + apply IH; try done; try lia; [by eexists|by apply Hb].
    + apply IH; try done; try lia; [by eexists|]. intros m Hm Hfm. destruct (decide (right < m)); [exact (Hno m ltac:(lia) Hfm)|].
      enough (false = true) by done. apply Hb, (fits_down mid m); [lia|done].
  - eexists _, _. split; [done|]. split; [lia|]. split; [done|]. intros m Hm. apply Hno. lia.
Qed.
End Estimate.

(** C22: The binary search for the longest sequence that fits into the memory
    terminates and is right: for well-formed layers it returns a length between
    0 and the configured maximum such that a sequence of this length fits and
    none that is longer (up to the maximum) does; 0 when not even one token
    fits. *)
Theorem estimate_max_model_len_correct (c : SpecConfig) (specs : list KVCacheSpec) (available_memory : Z) :
  1 <= sc_max_model_len c -> Forall (spec_wf c) specs ->
  exists n c', estimate_max_model_len c specs available_memory = Ok (n, c') /\ 0 <= n <= sc_max_model_len c /\
    (0 < n -> fits c specs available_memory n) /\
    (forall m, n < m <= sc_max_model_len c -> ~ fits c specs available_memory m).
Proof.
  intros H1 Hwf. unfold estimate_max_model_len.
  destruct (fits_total c specs available_memory Hwf 1 c) as (b & -> & Hb); [exists (sc_max_model_len c); by destruct c|].
  cbn [mbind result_bind]. destruct b; cbn [negb].
  - destruct (search_correct c specs available_memory Hwf (sc_max_model_len c) (S (Z.to_nat (sc_max_model_len c))) 1 (sc_max_model_len c) 1
      (set_max_model_len 1 c)) as (n & c' & -> & Hn & Hf & Hno); try lia; [by eexists|by apply Hb|].
    exists n, c'. split; [done|]. split; [lia|]. by split.
  - eexists _, _. split; [done|]. split; [lia|]. split; [lia|]. intros m Hm Hf. enough (false = true) by done.
    apply Hb, (fits_down c specs available_memory Hwf 1 m); [lia|done].
Qed.

Lemma estimate_max_model_len_correct_witness :
  let c := mkSpecConfig 100 8 1 0 in
  exists n c', estimate_max_model_len c [FullAttentionSpec 2 demo_attn None None] 90000 = Ok (n, c') /\ n = 20 /\
    ~ fits c [FullAttentionSpec 2 demo_attn None None] 90000 21.
Proof.
  intros c. destruct (estimate_max_model_len_correct c [FullAttentionSpec 2 demo_attn None None] 90000) as (n & c' & E & _ & _ & Hno).
  - cbn. lia.
  - repeat constructor; cbn; try lia; try done. by eexists.
  - exists n, c'. split; [done|]. assert (Hn : n = 20) by (vm_compute in E; by injection E as <- _). split; [done|]. apply Hno. subst n. cbn. lia.
Defined.

(** * Groups and tensors *)

(** ** Splitting the layers of one type *)

Lemma split_layers_take (g : nat) (l : list string) i : (i * g <= length l)%nat ->
  pyslice (Z.of_nat i * Z.of_nat g) (Z.of_nat i * Z.of_nat g + Z.of_nat g) l = take g (drop (i * g) l).
Proof.
  intros Hi. unfold pyslice, slice_bound, zlen.
  destruct (Z.ltb_spec (Z.of_nat i * Z.of_nat g) 0); [lia|]. destruct (Z.ltb_spec (Z.of_nat i * Z.of_nat g + Z.of_nat g) 0); [lia|].
  rewrite (Z.min_l (Z.of_nat i * Z.of_nat g)), !Z.max_r by lia. replace (Z.to_nat (Z.of_nat i * Z.of_nat g)) with (i * g)%nat by lia.
  destruct (decide (i * g + g <= length l)%nat).
  - f_equal. lia.
  - by rewrite !take_ge by (rewrite length_drop; lia).
Qed.

Lemma concat_chunks {A} (g k : nat) (l : list A) : concat ((fun i => take g (drop (i * g) l)) <$> seq 0 k) = take (k * g) l.
Proof.
  induction k as [|k IH]; [done|]. rewrite seq_S, fmap_app, concat_app, IH. cbn. rewrite app_nil_r.
  rewrite take_take_drop. f_equal. lia.
Qed.

Lemma split_layers_spec (g : nat) (l : list string) : (0 < g)%nat ->
  concat (split_layers (Z.of_nat g) l) = l /\ Forall (fun b => (0 < length b <= g)%nat) (split_layers (Z.of_nat g) l).
Proof.
  intros Hg. unfold split_layers. destruct (cdiv_spec (zlen l) (Z.of_nat g) ltac:(lia)) as [H1 H2].
  pose proof (cdiv_nonneg (zlen l) (Z.of_nat g) ltac:(lia) (zlen_nonneg l)) as H0. unfold zlen in *.
  set (q := cdiv (Z.of_nat (length l)) (Z.of_nat g)) in *. set (k := Z.to_nat q). assert (Hkq : q = Z.of_nat k) by lia.
  clearbody k q. subst q.
  assert (Hk : forall i, (i < k)%nat -> (i * g < length l)%nat) by (intros i Hi; nia).
  assert (E : (fun i : nat => pyslice (Z.of_nat i * Z.of_nat g) (Z.of_nat i * Z.of_nat g + Z.of_nat g) l) <$> seq 0 k =
    (fun i => take g (drop (i * g) l)) <$> seq 0 k).
  { apply list_fmap_ext. intros j i Hi. apply lookup_seq in Hi as [-> Hj]. apply split_layers_take. specialize (Hk j Hj). cbn. lia. }
  rewrite E. split.
  - rewrite concat_chunks. apply take_ge. nia.
  - apply Forall_fmap, Forall_forall. intros i Hi. apply elem_of_seq in Hi. cbn. rewrite length_take, length_drop.
    specialize (Hk i ltac:(lia)). lia.
Qed.

(** ** Grouping by type *)

Lemma same_type_add_perm s n t : concat (same_type_add s n t).*2 ≡ₚ n :: concat t.*2.
Proof.
  induction t as [|[s' ns] t IH]; [done|]. cbn. destruct (decide (s = s')); cbn.
  - rewrite <-app_assoc. symmetry. apply Permutation_middle.
  - rewrite IH. symmetry. apply Permutation_middle.
Qed.

Lemma same_type_add_elem s n t s' ns' : (s', ns') ∈ same_type_add s n t ->
  (s', ns') ∈ t \/ (s' = s /\ exists ns, ns' = ns ++ [n] /\ ((s, ns) ∈ t \/ ns = [])).
Proof.
  induction t as [|[s0 ns0] t IH]; cbn.
  - intros [= -> ->]%list_elem_of_singleton. right. split; [done|]. exists []. split; [done|]. by right.
  - destruct (decide (s = s0)) as [<-|Hne]; intros [[= -> ->]|Hin]%elem_of_cons.
    + right. split; [done|]. exists ns0. split; [done|]. left. by left.
    + left. by right.
    + left. by left.
    + destruct (IH Hin) as [H|(-> & ns & -> & [H|H])]; [left; by right| |].
      * right. split; [done|]. exists ns. split; [done|]. left. by right.
      * right. split; [done|]. exists ns. split; [done|]. by right.
Qed.

Lemma same_types (d : spec_dict) : forall t, concat (foldl (fun t p => same_type_add p.2 p.1 t) t d).*2 ≡ₚ concat t.*2 ++ d.*1.
Proof.
  induction d as [|[n s] d IH]; intros t; cbn; [by rewrite app_nil_r|]. rewrite IH, same_type_add_perm. cbn.
  apply Permutation_middle.
Qed.

(** Every entry of [same_type_layers] is a non-empty list of layers with this
    specification. *)
Definition types_of (d : spec_dict) (t : list (KVCacheSpec * list string)) : Prop :=
  forall s ns, (s, ns) ∈ t -> ns ≠ [] /\ forall n, n ∈ ns -> (n, s) ∈ d.

Lemma types_foldl (all d : spec_dict) : forall t, types_of all t -> (forall p, p ∈ d -> p ∈ all) ->
  types_of all (foldl (fun t p => same_type_add p.2 p.1 t) t d).
Proof.
  induction d as [|[n s] d IH]; intros t Ht Hd; cbn; [done|]. apply IH; [|intros p Hp; apply Hd; by right].
  intros s' ns' [H|(-> & ns & -> & Hns)]%same_type_add_elem; [by apply Ht|]. split; [by destruct ns|].
  intros n' [Hn'|Hn']%elem_of_app; [|apply list_elem_of_singleton in Hn' as ->; apply Hd; by left].
  destruct Hns as [Hns| ->]; [|by apply elem_of_nil in Hn']. by apply (Ht s ns).
Qed.

Lemma same_type_layers_spec d : types_of d (same_type_layers d) /\ concat (same_type_layers d).*2 ≡ₚ d.*1.
Proof.
  split; [|apply (same_types d [])]. apply types_foldl; [|done]. by intros s ns ?%elem_of_nil.
Qed.

(** ** Tensors *)

Lemma concat_zip_app {A} (f g : nat -> list A) l : concat ((fun i => f i ++ g i) <$> l) ≡ₚ concat (f <$> l) ++ concat (g <$> l).
Proof.
  induction l as [|i l IH]; [done|]. cbn. rewrite IH, <-!app_assoc. apply Permutation_app_head.
  rewrite !app_assoc. apply Permutation_app_tail, Permutation_app_comm.
Qed.

Lemma concat_option_list {A} (l : list A) : forall g, (length l <= g)%nat -> concat ((fun i => option_list (l !! i)) <$> seq 0 g) = l.
Proof.
  induction l as [|x l IH]; intros g Hg.
  - clear Hg. generalize 0%nat. induction g as [|g IH]; intros n; [done|]. cbn. by rewrite lookup_nil, IH.
  - destruct g as [|g]; [cbn in Hg; lia|]. cbn. f_equal. rewrite <-fmap_S_seq, <-list_fmap_compose. apply IH. cbn in Hg. lia.
Qed.

(** Every layer has one tensor. *)
Lemma tensors_cover {A} (g : nat) (ls : list (list A)) : Forall (fun l => (length l <= g)%nat) ls ->
  concat ((fun i => omap (fun l => l !! i) ls) <$> seq 0 g) ≡ₚ concat ls.
Proof.
  induction 1 as [|l ls Hl Hls IH].
  - cbn. generalize (seq 0 g). intros l. induction l as [|i l IH]; [done|]. exact IH.
  - cbn [concat]. rewrite <-IH, <-(concat_option_list l g Hl) at 1. rewrite <-concat_zip_app.
    apply reflexive_eq. f_equal. apply list_fmap_ext. intros j i _. cbn. by destruct (l !! i).
Qed.

Lemma NoDup_concat_owner {A} (ls : list (list A)) l1 l2 x : NoDup (concat ls) -> l1 ∈ ls -> l2 ∈ ls -> x ∈ l1 -> x ∈ l2 -> l1 = l2.
Proof.
  induction ls as [|l ls IH]; [by intros _ ?%elem_of_nil|]. cbn. intros (_ & Hd & Hnd)%NoDup_app H1 H2 Hx1 Hx2.
  assert (Hin : forall l', l' ∈ ls -> x ∈ l' -> x ∈ concat ls) by (intros l' Hl' Hx'; apply list_elem_of_In, in_concat; exists l'; by rewrite <-!list_elem_of_In).
  apply elem_of_cons in H1 as [->|H1], H2 as [->|H2]; [done| | |by apply IH]; exfalso; by eapply Hd; eauto.
Qed.

(** Two layers that share a tensor are in different groups. *)
Lemma tensor_one_per_group {A} (ls : list (list A)) i l x y :
  NoDup (concat ls) -> l ∈ ls -> x ∈ omap (fun l => l !! i) ls -> y ∈ omap (fun l => l !! i) ls -> x ∈ l -> y ∈ l -> x = y.
Proof.
  intros Hnd Hl (lx & Hlx & Hx)%list_elem_of_omap (ly & Hly & Hy)%list_elem_of_omap Hxl Hyl.
  assert (lx = l) as -> by (eapply NoDup_concat_owner; eauto using list_elem_of_lookup_2).
  assert (ly = l) as -> by (eapply NoDup_concat_owner; eauto using list_elem_of_lookup_2). congruence.
Qed.

(** ** The layout *)

(** The specification [m] of a group fits its member [s]. *)
Definition describes (s m : KVCacheSpec) : Prop :=
  spec_block_size s = spec_block_size m /\ page_size_bytes s = page_size_bytes m /\ attn_fields s = attn_fields m.

Record cache_layout (d : spec_dict) (kc : KVCacheConfig) : Prop := mkLayout {
  cl_groups : concat (layer_names <$> kv_cache_groups kc) ≡ₚ d.*1;
  cl_specs : forall g n, g ∈ kv_cache_groups kc -> n ∈ layer_names g -> exists s, spec_of d n = Ok s /\ describes s (kv_cache_spec g);
  cl_tensors : concat (shared_by <$> kv_cache_tensors kc) ≡ₚ d.*1;
  cl_shared : forall t g x y, t ∈ kv_cache_tensors kc -> g ∈ kv_cache_groups kc -> x ∈ shared_by t -> y ∈ shared_by t ->
    x ∈ layer_names g -> y ∈ layer_names g -> x = y;
  cl_size : exists p, (forall s, s ∈ d.*2 -> page_size_bytes s = Ok p) /\
    Forall (fun t => tensor_size t = p * num_blocks kc) (kv_cache_tensors kc)
}.

Lemma groups_created d grouped groups : create_kv_cache_group_specs d grouped = Ok groups ->
  layer_names <$> groups = grouped /\
  forall g n, g ∈ groups -> n ∈ layer_names g -> exists s, spec_of d n = Ok s /\ describes s (kv_cache_spec g).
Proof.
  intros HF%mapM_Forall2. induction HF as [|names g grouped groups E HF (IH1 & IH2)]; [split; [done|by intros ? ? ?%elem_of_nil]|].
  apply bind_Ok in E as (specs & Es & E). apply bind_Ok in E as (m & Em & E). injection E as <-. cbn. split; [by f_equal|].
  intros g n [->|Hg]%elem_of_cons Hn; [|by apply IH2]. cbn in Hn |- *. apply mapM_Forall2 in Es.
  apply list_elem_of_lookup in Hn as [i Hi]. destruct (Forall2_lookup_l _ _ _ _ _ Es Hi) as (s & Hs & Hsp). exists s. split; [done|].
  pose proof (merge_sound _ _ Em) as Hm. rewrite Forall_lookup in Hm. destruct (Hm _ _ Hs) as (H1 & H2 & H3 & _). by split_and!.
Qed.

Lemma uniform_page d p : get_uniform_page_size d = Ok p -> forall s, s ∈ d.*2 -> page_size_bytes s = Ok p.
Proof.
  unfold get_uniform_page_size, page_sizes. intros E s Hs. apply bind_Ok in E as (sizes & E1 & E).
  apply bind_Ok in E1 as (all & E2 & E1). injection E1 as <-. apply mapM_Forall2 in E2.
  apply list_elem_of_lookup in Hs as [i Hi]. destruct (Forall2_lookup_l _ _ _ _ _ E2 Hi) as (q & Hq & Eq). rewrite Eq. f_equal.
  assert (Hin : q ∈ remove_dups all) by (apply elem_of_remove_dups; by eapply list_elem_of_lookup_2).
  destruct (remove_dups all) as [|x [|y l]]; [done| |done]. injection E as <-. by apply list_elem_of_singleton in Hin.
Qed.

Lemma num_blocks_bound num_layers available_memory p n : 0 < p -> 0 < num_layers -> 0 <= available_memory ->
  get_num_blocks None num_layers available_memory p = Ok n ->
  n = available_memory / p / num_layers /\ 0 <= n /\ num_layers * (p * n) <= available_memory.
Proof.
  intros Hp Hl Ha E. unfold get_num_blocks, floordiv in E. inv_ok.
  pose proof (Z.div_pos available_memory p Ha Hp) as H0. pose proof (Z.div_pos _ num_layers H0 Hl) as H1.
  pose proof (Z.mul_div_le available_memory p Hp). pose proof (Z.mul_div_le (available_memory / p) num_layers Hl).
  rewrite Z.max_l by done. split_and!; [done|done|nia].
Qed.

Definition total_size (kc : KVCacheConfig) : Z := foldr Z.add 0 (tensor_size <$> kv_cache_tensors kc).

Lemma total_size_same kc sz : Forall (fun t => tensor_size t = sz) (kv_cache_tensors kc) -> total_size kc = zlen (kv_cache_tensors kc) * sz.
Proof. unfold total_size. induction 1 as [|t l Ht Hl IH]; [done|]. cbn. rewrite IH, Ht, zlen_cons. lia. Qed.

(** The blocks come from dividing the memory by the pages of one layer of each
    tensor. *)
Definition blocks_from (override : option Z) (d : spec_dict) (available_memory : Z) (kc : KVCacheConfig) : Prop :=
  exists p, (forall s, s ∈ d.*2 -> page_size_bytes s = Ok p) /\
    get_num_blocks override (zlen (kv_cache_tensors kc)) available_memory p = Ok (num_blocks kc) /\
    Forall (fun t => tensor_size t = p * num_blocks kc) (kv_cache_tensors kc).

Lemma uniform_type_layout cs d available_memory kc :
  get_kv_cache_config_uniform_type cs d available_memory = Ok kc ->
  cache_layout d kc /\ blocks_from (num_gpu_blocks_override cs) d available_memory kc /\ (layer_names <$> kv_cache_groups kc) = [d.*1].
Proof.
  unfold get_kv_cache_config_uniform_type. intros E. apply bind_Ok in E as (p & Ep & E). apply bind_Ok in E as (n & En & E).
  cbv zeta in E. apply bind_Ok in E as (groups & Eg & E). apply bind_Ok in E as (mc & _ & E). injection E as <-.
  apply groups_created in Eg as [Hnames Hspecs]. pose proof (uniform_page _ _ Ep) as Hp.
  assert (Hsz : Forall (fun t => tensor_size t = p * n) ((fun layer => mkTensor (p * n) [layer]) <$> d.*1)) by (by apply Forall_fmap, Forall_true).
  split_and!; [split; cbn; [|done| | |by exists p]|exists p; cbn; split_and!; try done|done].
  - rewrite Hnames. cbn. by rewrite app_nil_r.
  - rewrite <-list_fmap_compose. unfold compose. cbn. clear. induction d as [|[x s] d IH]; [done|]. cbn. by rewrite IH.
  - intros t g x y (l & -> & _)%list_elem_of_fmap _ ->%list_elem_of_singleton ->%list_elem_of_singleton. done.
  - unfold zlen in *. by rewrite length_fmap, length_fmap.
Qed.

Lemma py_min_in l m : py_min l = Ok m -> m ∈ l /\ Forall (fun x => m <= x) l.
Proof.
  destruct l as [|x l]; [done|]. cbn. intros [= <-]. induction l as [|y l [IH1 IH2]]; cbn; [split; [by left|by repeat constructor]|].
  apply Forall_cons in IH2 as [Hx IH2]. split.
  - destruct (Z.min_spec y (foldr Z.min x l)) as [[_ ->]|[_ ->]]; [right; by left|]. apply elem_of_cons in IH1 as [->|?]; [by left|right; by right].
  - repeat constructor; [lia|lia|]. eapply Forall_impl; [exact IH2|]. cbn. lia.
Qed.

(** The groups of a hybrid model: the layers of each type in runs of
    [group_size]. *)
Lemma hybrid_groups d g : py_min (zlen <$> (same_type_layers d).*2) = Ok g ->
  0 < g /\ concat (concat (split_layers g <$> (same_type_layers d).*2)) ≡ₚ d.*1 /\
  Forall (fun l => (length l <= Z.to_nat g)%nat) (concat (split_layers g <$> (same_type_layers d).*2)).
Proof.
  intros Hg. apply py_min_in in Hg as [Hin _]. destruct (same_type_layers_spec d) as [Ht Hp].
  assert (H0 : 0 < g).
  { apply list_elem_of_fmap in Hin as (ns & -> & ([s ns'] & -> & Hns)%list_elem_of_fmap). destruct (Ht s ns' Hns) as [Hne _].
    cbn. destruct ns'; [done|]. unfold zlen. cbn. lia. }
  split; [done|]. rewrite <-Hp. clear Hin Hp Ht. replace g with (Z.of_nat (Z.to_nat g)) by lia. rewrite Nat2Z.id.
  generalize (same_type_layers d).*2. intros l. induction l as [|ns l [IH1 IH2]]; [split; [done|constructor]|].
  destruct (split_layers_spec (Z.to_nat g) ns ltac:(lia)) as [E Hlen]. cbn. rewrite concat_app, E. split; [by rewrite IH1|].
  apply Forall_app. split; [|done]. eapply Forall_impl; [exact Hlen|]. cbn. lia.
Qed.

Lemma page_size_layout cs d available_memory kc : NoDup d.*1 ->
  get_kv_cache_config_uniform_page_size cs d available_memory = Ok kc ->
  cache_layout d kc /\ blocks_from (num_gpu_blocks_override cs) d available_memory kc /\
  exists g, py_min (zlen <$> (same_type_layers d).*2) = Ok g /\ zlen (kv_cache_tensors kc) = g /\
    layer_names <$> kv_cache_groups kc = concat (split_layers g <$> (same_type_layers d).*2).
Proof.
  intros Hnd. unfold get_kv_cache_config_uniform_page_size. cbv zeta. intros E. apply bind_Ok in E as (g & Hg & E).
  apply bind_Ok in E as (groups & Eg & E). apply bind_Ok in E as (p & Ep & E). apply bind_Ok in E as (n & En & E).
  apply bind_Ok in E as (mc & _ & E). injection E as <-.
  apply groups_created in Eg as [Hnames Hspecs]. pose proof (uniform_page _ _ Ep) as Hp.
  destruct (hybrid_groups d g Hg) as (H0 & Hperm & Hlen). set (grouped := concat (split_layers g <$> (same_type_layers d).*2)) in *.
  assert (Hz : zlen ((fun i => mkTensor (p * n) (omap (fun layers : list string => layers !! i) grouped)) <$> seq 0 (Z.to_nat g)) = g).
  { unfold zlen. rewrite length_fmap, length_seq. lia. }
  assert (Hsz : Forall (fun t => tensor_size t = p * n)
    ((fun i => mkTensor (p * n) (omap (fun layers : list string => layers !! i) grouped)) <$> seq 0 (Z.to_nat g))) by (by apply Forall_fmap, Forall_true).
  split_and!; [split; cbn; [|done| | |by exists p]|exists p; cbn; split_and!; try done|exists g; by split_and!].
  - by rewrite Hnames.
  - rewrite <-list_fmap_compose. unfold compose. cbn. by rewrite tensors_cover.
  - intros t gr x y (i & -> & _)%list_elem_of_fmap Hgr Hx Hy. apply (tensor_one_per_group grouped i); try done; [by rewrite Hperm|].
    rewrite <-Hnames. by apply list_elem_of_fmap_2.
  - by rewrite Hz.
Qed.

(** ** The conversion to one type *)

Lemma as_full_describes s m : describes (as_full_attention s) m <-> describes s m.
Proof. by destruct s. Qed.

Lemma spec_of_map f (d : spec_dict) n : spec_of (prod_map id f <$> d) n = (s ← spec_of d n; Ok (f s)).
Proof. induction d as [|[x s] d IH]; [done|]. cbn. destruct (decide (x = n)); [done|]. apply IH. Qed.

(** The unified layers: the same names, and each layer's old or converted
    specification. *)
Lemma unified_specs d d' : unify_hybrid_kv_cache_specs d = Ok d' -> d' = d \/ d' = prod_map id as_full_attention <$> d.
Proof.
  unfold unify_hybrid_kv_cache_specs. intros E. apply bind_Ok in E as (u & _ & E). destruct u; [injection E as <-; by left|].
  cbv zeta in E. apply bind_Ok in E as (u & _ & E). apply bind_Ok in E as ([] & _ & E). injection E as <-. destruct (_ && _); auto.
Qed.

Lemma layout_converted d kc : cache_layout (prod_map id as_full_attention <$> d) kc -> cache_layout d kc.
Proof.
  assert (Hk : (prod_map id as_full_attention <$> d).*1 = d.*1) by (rewrite <-list_fmap_compose; by apply list_fmap_ext).
  intros [H1 H2 H3 H4 (p & Hp & Hsz)]. rewrite Hk in H1, H3. split; try done.
  - intros g n Hg Hn. destruct (H2 g n Hg Hn) as (s & Hs & Hd). rewrite spec_of_map in Hs. apply bind_Ok in Hs as (s0 & Hs & E). injection E as <-.
    exists s0. split; [done|]. by apply as_full_describes.
  - exists p. split; [|done]. intros s (q & -> & Hq)%list_elem_of_fmap. rewrite <-(Hp (as_full_attention q.2)); [by destruct q.2|].
    apply list_elem_of_fmap. exists (prod_map id as_full_attention q). split; [done|]. by apply list_elem_of_fmap_2.
Qed.

Lemma blocks_converted o d a kc : blocks_from o (prod_map id as_full_attention <$> d) a kc -> blocks_from o d a kc.
Proof.
  intros (p & Hp & H). exists p. split; [|done]. intros s (q & -> & Hq)%list_elem_of_fmap. rewrite <-(Hp (as_full_attention q.2)); [by destruct q.2|].
  apply list_elem_of_fmap. exists (prod_map id as_full_attention q). split; [done|]. by apply list_elem_of_fmap_2.
Qed.

Lemma config_layout cs d available_memory kc : NoDup d.*1 -> d ≠ [] -> get_kv_cache_config cs d available_memory = Ok kc ->
  0 < available_memory /\ cache_layout d kc /\ blocks_from (num_gpu_blocks_override cs) d available_memory kc.
Proof.
  intros Hnd Hne E. unfold get_kv_cache_config in E. apply bind_Ok in E as ([] & Ec & E). apply bind_Ok in E as (d' & Ed & E).
  assert (Ha : 0 < available_memory) by (destruct d; [done|]; unfold check_enough_kv_cache_memory in Ec; inv_ok; lia). split; [done|].
  assert (H : d' = d \/ d' = prod_map id as_full_attention <$> d) by (destruct (disable_hybrid_kv_cache_manager cs); [by apply unified_specs|injection Ed as <-; by left]).
  assert (Hd' : d' ≠ [] /\ NoDup d'.*1).
  { destruct H as [->| ->]; [done|]. split; [by destruct d|]. rewrite <-list_fmap_compose. by erewrite list_fmap_ext; [exact Hnd|]. }
  assert (HL : cache_layout d' kc /\ blocks_from (num_gpu_blocks_override cs) d' available_memory kc).
  { destruct Hd' as [Hne' Hnd']. assert (Hf : is_kv_cache_type_attention_free d' = false) by (by destruct d'). rewrite Hf in E.
    apply bind_Ok in E as (u & _ & E). destruct u; [by destruct (uniform_type_layout _ _ _ _ E) as (? & ? & _)|].
    apply bind_Ok in E as (u & _ & E). destruct u; [|done]. by destruct (page_size_layout _ _ _ _ Hnd' E) as (? & ? & _). }
  destruct HL as [HL HB]. destruct H as [->| ->]; [by split|]. split; [by apply layout_converted|by apply blocks_converted].
Qed.

(** C21: The generated KV cache layout is sound for every model, uniform or hybrid,
    converted or not: each layer is in exactly one group and in exactly one
    tensor; the specification of a group has the block size, page size and
    attention fields of each of its layers; layers that share a tensor are in
    different groups, so that their blocks never overlap; each tensor has room
    for one page per block; and unless the number of blocks is overridden the
    tensors together fit into the available memory. *)
Theorem kv_cache_layout_sound (cs : CacheSetup) (d : spec_dict) (available_memory : Z) (kc : KVCacheConfig) :
  NoDup d.*1 -> d ≠ [] -> Forall (spec_wf (cs_spec cs)) d.*2 -> get_kv_cache_config cs d available_memory = Ok kc ->
  cache_layout d kc /\ (num_gpu_blocks_override cs = None -> total_size kc <= available_memory).
Proof.
  intros Hnd Hne Hwf E. destruct (config_layout _ _ _ _ Hnd Hne E) as (Ha & HL & (p & Hp & Hn & Hsz)). split; [done|]. intros Ho. rewrite Ho in Hn.
  rewrite (total_size_same kc _ Hsz). assert (H0 : 0 < p).
  { destruct d as [|[x s] d]; [done|]. apply Forall_cons in Hwf as [(_ & _ & (q & Hq & Hpos) & _) _].
    cbn in Hq. rewrite (Hp s) in Hq by (by left). by injection Hq as ->. }
  assert (H1 : 0 < zlen (kv_cache_tensors kc)).
  { pose proof (cl_tensors _ _ HL) as Hperm. destruct (kv_cache_tensors kc); [|unfold zlen; cbn; lia]. destruct d; [done|]. by apply Permutation_nil in Hperm. }
  destruct (num_blocks_bound _ _ _ _ H0 H1 (Z.lt_le_incl _ _ Ha) Hn) as (_ & _ & H). lia.
Qed.

Definition demo_hybrid : spec_dict :=
  [("f0", FullAttentionSpec 2 demo_attn None None); ("s0", SlidingWindowSpec 2 demo_attn 4); ("f1", FullAttentionSpec 2 demo_attn None None);
   ("s1", SlidingWindowSpec 2 demo_attn 4); ("s2", SlidingWindowSpec 2 demo_attn 4)]%string.

Definition demo_setup : CacheSetup := mkCacheSetup (mkSpecConfig 16 8 1 0) None false.

Lemma demo_hybrid_wf : Forall (spec_wf (cs_spec demo_setup)) demo_hybrid.*2.
Proof. repeat constructor; cbn; try lia; try done; by eexists. Qed.

Lemma kv_cache_layout_sound_witness :
  exists kc, get_kv_cache_config demo_setup demo_hybrid 1000000 = Ok kc /\
    (layer_names <$> kv_cache_groups kc) = [["f0"; "f1"]; ["s0"; "s1"]; ["s2"]]%string /\
    (shared_by <$> kv_cache_tensors kc) = [["f0"; "s0"; "s2"]; ["f1"; "s1"]]%string /\
    cache_layout demo_hybrid kc /\ total_size kc <= 1000000.
Proof.
  destruct (get_kv_cache_config demo_setup demo_hybrid 1000000) as [kc|] eqn:E; [|by vm_compute in E]. exists kc.
  destruct (kv_cache_layout_sound demo_setup demo_hybrid 1000000 kc) as [HL Hs]; [|done|apply demo_hybrid_wf|done|].
  { apply (bool_decide_unpack (NoDup demo_hybrid.*1)). vm_compute. exact I. }
  split; [done|]. observe E (fun kc => (layer_names <$> kv_cache_groups kc, shared_by <$> kv_cache_tensors kc))
    ([["f0"; "f1"]; ["s0"; "s1"]; ["s2"]], [["f0"; "s0"; "s2"]; ["f1"; "s1"]])%string.
  injection Hobs as -> ->. split_and!; [done|done|done|by apply Hs].
Defined.

(** * What the memory check guarantees *)

Definition memory_of (c : SpecConfig) (s : KVCacheSpec) : Z := match max_memory_usage_bytes c s with Ok m => m | Err _ => 0 end.

Definition sum (l : list Z) : Z := foldr Z.add 0 l.

Lemma sum_cons x l : sum (x :: l) = x + sum l.
Proof. done. Qed.

Lemma sum_app l1 l2 : sum (l1 ++ l2) = sum l1 + sum l2.
Proof. unfold sum. induction l1 as [|x l1 IH]; [done|]. cbn. rewrite IH. lia. Qed.

#[export] Instance sum_perm : Proper ((≡ₚ) ==> (=)) sum.
Proof. unfold sum. induction 1; cbn; lia. Qed.

Lemma total_sum c l : Forall (fun s => is_Some (match max_memory_usage_bytes c s with Ok m => Some m | Err _ => None end)) l ->
  total_max_memory c l = Ok (sum (memory_of c <$> l)).
Proof.
  induction 1 as [|s l [m Hm] Hl IH]; [done|]. rewrite total_cons, IH. unfold memory_of in *. cbn.
  by destruct (max_memory_usage_bytes c s); [|done].
Qed.

Lemma wf_memory c s : spec_wf c s -> exists p b, page_size_bytes s = Ok p /\ 0 < p /\ max_memory_usage_bytes c s = Ok (b * p).
Proof.
  intros (Hbs & Hdcp & (p & Hp & Hpos) & Hsw). exists p. destruct s as [bs a w ch|bs a ch|bs a w|bs sh dt pad ty sp|bs a|bs a]; cbn in *; simplify_eq.
  - by eexists.
  - by eexists.
  - unfold sliding_max_memory. rewrite (Hsw eq_refl). by eexists.
  - exists 1. by rewrite Z.mul_1_l.
  - exists 0. by rewrite Z.mul_0_l.
  - by eexists.
Qed.

(** A group needs per layer what each of its layers needs. *)
Lemma group_memory c d grouped groups : create_kv_cache_group_specs d grouped = Ok groups ->
  forall g n, g ∈ groups -> n ∈ layer_names g -> exists s, spec_of d n = Ok s /\ max_memory_usage_bytes c s = max_memory_usage_bytes c (kv_cache_spec g).
Proof.
  intros HF%mapM_Forall2. induction HF as [|names g grouped groups E HF IH]; [by intros ? ? ?%elem_of_nil|].
  apply bind_Ok in E as (specs & Es & E). apply bind_Ok in E as (m & Em & E). injection E as <-.
  intros g n [->|Hg]%elem_of_cons Hn; [|by apply IH]. cbn in Hn |- *. apply mapM_Forall2 in Es.
  apply list_elem_of_lookup in Hn as [i Hi]. destruct (Forall2_lookup_l _ _ _ _ _ Es Hi) as (s & Hs & Hsp). exists s. split; [done|].
  pose proof (merge_sound _ _ Em) as Hm. rewrite Forall_lookup in Hm. destruct (Hm _ _ Hs) as (_ & _ & Hat & Hsame & _).
  destruct (is_full m) eqn:Hf; [|by rewrite Hsame].
  assert (Hfs : is_full s = true).
  { unfold merge in Em. apply bind_Ok in Em as (s0 & E0 & Em). destruct (is_full s0) eqn:H0.
    - unfold merge_full in Em. apply bind_Ok in Em as ([] & Ha & _). apply assert_Ok in Ha. eapply forallb_elem; [exact Ha|by eapply list_elem_of_lookup_2].
    - unfold merge_same in Em. apply bind_Ok in Em as (s1 & Em & E1). injection E1 as ->. apply bind_Ok in Em as (? & _ & Em).
      congruence. }
  destruct m; try done. destruct s; try done. cbn in *. by simplify_eq.
Qed.

Lemma spec_of_elem (d : spec_dict) n s : NoDup d.*1 -> (n, s) ∈ d -> spec_of d n = Ok s.
Proof.
  induction d as [|[x t] d IH]; [by intros _ ?%elem_of_nil|]. cbn. intros [Hx Hnd]%NoDup_cons [[= -> ->]|Hin]%elem_of_cons; [by rewrite decide_True|].
  rewrite decide_False; [by apply IH|]. intros ->. apply Hx. by apply (list_elem_of_fmap_2 fst _ (n, s)).
Qed.

Lemma spec_of_in (d : spec_dict) n s : spec_of d n = Ok s -> s ∈ d.*2.
Proof.
  induction d as [|[x t] d IH]; [done|]. cbn. destruct (decide (x = n)); [intros [= ->]; by left|]. right. by apply IH.
Qed.

(** The memory of a layer by its name. *)
Definition layer_memory (c : SpecConfig) (d : spec_dict) (n : string) : Z := match spec_of d n with Ok s => memory_of c s | Err _ => 0 end.

Lemma layers_sum c d : NoDup d.*1 -> sum (memory_of c <$> d.*2) = sum (layer_memory c d <$> d.*1).
Proof.
  intros Hnd. f_equal. rewrite <-!list_fmap_compose. apply list_fmap_ext. intros i [n s] Hi. cbn. unfold layer_memory.
  by rewrite (spec_of_elem d n s Hnd (list_elem_of_lookup_2 _ _ _ Hi)).
Qed.

Lemma groups_sum c d T groups : (forall g n, g ∈ groups -> n ∈ layer_names g -> exists s, spec_of d n = Ok s /\
    max_memory_usage_bytes c s = max_memory_usage_bytes c (kv_cache_spec g)) ->
  Forall (fun g => zlen (layer_names g) = T) groups ->
  sum (layer_memory c d <$> concat (layer_names <$> groups)) = T * sum (memory_of c <$> (kv_cache_spec <$> groups)).
Proof.
  intros Hm. induction 1 as [|g groups Hg Hl IH]; [unfold sum; cbn; lia|]. rewrite !fmap_cons, sum_cons. cbn [concat].
  rewrite fmap_app, sum_app, IH by (intros g' n Hg'; apply Hm; by right). rewrite Z.mul_add_distr_l. f_equal. rewrite <-Hg.
  assert (Hn : forall n, n ∈ layer_names g -> layer_memory c d n = memory_of c (kv_cache_spec g)).
  { intros n Hn. destruct (Hm g n ltac:(by left) Hn) as (s & Hs & E). unfold layer_memory, memory_of. by rewrite Hs, E. }
  clear -Hn. induction (layer_names g) as [|n l IH]; [done|]. rewrite fmap_cons, sum_cons, IH by (intros m Hm; apply Hn; by right).
  rewrite Hn by (by left). rewrite zlen_cons. lia.
Qed.

Lemma pages_sum c p l : (forall s, s ∈ l -> exists b, max_memory_usage_bytes c s = Ok (b * p)) -> exists B, sum (memory_of c <$> l) = B * p.
Proof.
  induction l as [|s l IH]; intros Hl; [by exists 0|]. destruct (Hl s) as [b Hb]; [by left|]. destruct IH as [B HB]; [intros t Ht; apply Hl; by right|].
  exists (b + B). unfold sum in *. cbn. rewrite HB. unfold memory_of. rewrite Hb. lia.
Qed.

Lemma config_groups cs d available_memory kc : disable_hybrid_kv_cache_manager cs = false -> d ≠ [] ->
  get_kv_cache_config cs d available_memory = Ok kc -> exists grouped, create_kv_cache_group_specs d grouped = Ok (kv_cache_groups kc).
Proof.
  intros Hh Hne E. unfold get_kv_cache_config in E. apply bind_Ok in E as ([] & _ & E). rewrite Hh in E. cbn [mbind result_bind] in E.
  assert (Hf : is_kv_cache_type_attention_free d = false) by (by destruct d). rewrite Hf in E.
  apply bind_Ok in E as (u & _ & E). destruct u.
  - unfold get_kv_cache_config_uniform_type in E. cbv zeta in E. inv_ok. eauto.
  - apply bind_Ok in E as (u & _ & E). destruct u; [|done]. unfold get_kv_cache_config_uniform_page_size in E. cbv zeta in E. inv_ok. eauto.
Qed.

(** With memory for the layers of one request and [x] more pages in each tensor,
    the pool has the blocks of the request in all groups and [x] more. *)
Lemma config_capacity cs d available_memory kc x m : NoDup d.*1 -> d ≠ [] -> Forall (spec_wf (cs_spec cs)) d.*2 ->
  num_gpu_blocks_override cs = None -> disable_hybrid_kv_cache_manager cs = false ->
  get_kv_cache_config cs d available_memory = Ok kc ->
  Forall (fun g => zlen (layer_names g) = zlen (kv_cache_tensors kc)) (kv_cache_groups kc) ->
  total_max_memory (cs_spec cs) d.*2 = Ok m ->
  exists p n, (forall s, s ∈ d.*2 -> page_size_bytes s = Ok p) /\ 0 < p /\
    total_max_memory (cs_spec cs) (kv_cache_spec <$> kv_cache_groups kc) = Ok n /\
    (m + x * p * zlen (kv_cache_tensors kc) <= available_memory -> n + x * p <= num_blocks kc * p).
Proof.
  intros Hnd Hne Hwf Ho Hh E Hpad Em. destruct (config_layout _ _ _ _ Hnd Hne E) as (Ha & HL & (p & Hp & Hn & _)). rewrite Ho in Hn.
  destruct (config_groups _ _ _ _ Hh Hne E) as [grouped Eg]. pose proof (group_memory (cs_spec cs) _ _ _ Eg) as Hmem.
  assert (Hpages : forall s, s ∈ d.*2 -> exists b, max_memory_usage_bytes (cs_spec cs) s = Ok (b * p) /\ 0 < p).
  { intros s Hs. rewrite Forall_forall in Hwf. destruct (wf_memory _ _ (Hwf s Hs)) as (q & b & Hq & H0 & Hb).
    rewrite (Hp s Hs) in Hq. injection Hq as ->. eauto. }
  assert (H0 : 0 < p) by (destruct d as [|q d]; [done|]; by destruct (Hpages q.2) as (? & _ & ?); [by left|]).
  assert (HT : 0 < zlen (kv_cache_tensors kc)).
  { pose proof (cl_tensors _ _ HL) as Hperm. destruct (kv_cache_tensors kc); [|unfold zlen; cbn; lia]. destruct d; [done|]. by apply Permutation_nil in Hperm. }
  assert (Hgp : forall s, s ∈ kv_cache_spec <$> kv_cache_groups kc -> exists b, max_memory_usage_bytes (cs_spec cs) s = Ok (b * p)).
  { intros s (g & -> & Hg)%list_elem_of_fmap. rewrite Forall_forall in Hpad. specialize (Hpad g Hg).
    destruct (layer_names g) as [|n l] eqn:El; [unfold zlen in *; cbn in *; lia|]. destruct (Hmem g n Hg ltac:(rewrite El; by left)) as (s & Hs & <-).
    destruct (Hpages s) as (b & Hb & _); [by eapply spec_of_in|by exists b]. }
  destruct (pages_sum _ p _ Hgp) as [B HB]. exists p, (B * p). split; [done|]. split; [done|]. split.
  { rewrite <-HB. apply total_sum, Forall_forall. intros s Hs. destruct (Hgp s Hs) as [b ->]. by eexists. }
  intros Hroom. rewrite total_sum in Em by (apply Forall_forall; intros s Hs; destruct (Hpages s Hs) as (b & -> & _); by eexists).
  injection Em as Em. rewrite (layers_sum _ _ Hnd), <-(cl_groups _ _ HL), (groups_sum _ _ _ _ Hmem Hpad), HB in Em.
  destruct (num_blocks_bound _ _ _ _ H0 HT (Z.lt_le_incl _ _ Ha) Hn) as (E1 & _ & _).
  rewrite <-Z.mul_add_distr_r. apply Z.mul_le_mono_nonneg_r; [lia|]. rewrite E1. apply Z.div_le_lower_bound; [done|].
  apply Z.div_le_lower_bound; [done|]. nia.
Qed.

(** The memory check does its job up to the null block: for a model whose
    groups all have the same number of layers (with the hybrid manager enabled
    and no override of the block count), a configuration is only returned when
    the pool's blocks, all of them together, are enough for one request of the
    maximal length in every group. *)
Theorem checked_memory_holds_request (cs : CacheSetup) (d : spec_dict) (available_memory : Z) (kc : KVCacheConfig) :
  NoDup d.*1 -> d ≠ [] -> Forall (spec_wf (cs_spec cs)) d.*2 ->
  num_gpu_blocks_override cs = None -> disable_hybrid_kv_cache_manager cs = false ->
  get_kv_cache_config cs d available_memory = Ok kc ->
  Forall (fun g => zlen (layer_names g) = zlen (kv_cache_tensors kc)) (kv_cache_groups kc) ->
  exists p n, (forall s, s ∈ d.*2 -> page_size_bytes s = Ok p) /\
    total_max_memory (cs_spec cs) (kv_cache_spec <$> kv_cache_groups kc) = Ok n /\ n <= num_blocks kc * p.
Proof.
  intros Hnd Hne Hwf Ho Hh E Hpad.
  assert (Hc : exists m, total_max_memory (cs_spec cs) d.*2 = Ok m /\ m <= available_memory).
  { unfold get_kv_cache_config in E. apply bind_Ok in E as ([] & Ec & _). destruct d as [|q d]; [done|]. unfold check_enough_kv_cache_memory in Ec.
    apply bind_Ok in Ec as (? & _ & Ec). apply bind_Ok in Ec as (m & Em & Ec). exists m. split; [done|].
    destruct (Z.ltb_spec available_memory m); [|done]. apply bind_Ok in Ec as (? & _ & Ec). done. }
  destruct Hc as (m & Em & Hm). destruct (config_capacity cs d available_memory kc 0 m Hnd Hne Hwf Ho Hh E Hpad Em) as (p & n & H1 & _ & H2 & H3).
  exists p, n. split_and!; try done. specialize (H3 ltac:(lia)). lia.
Qed.

Lemma checked_memory_holds_request_witness :
  let d := [("l0", FullAttentionSpec 2 demo_attn None None); ("l1", FullAttentionSpec 2 demo_attn None None)]%string in
  exists kc p n, get_kv_cache_config demo_setup d 131072 = Ok kc /\ num_blocks kc = 8 /\
    total_max_memory (cs_spec demo_setup) (kv_cache_spec <$> kv_cache_groups kc) = Ok n /\ n <= num_blocks kc * p.
Proof.
  intros d. destruct (get_kv_cache_config demo_setup d 131072) as [kc|] eqn:E; [|by vm_compute in E].
  observe E num_blocks 8. observe E (fun kc => (zlen ∘ layer_names <$> kv_cache_groups kc, zlen (kv_cache_tensors kc))) ([2], 2).
  injection Hobs0 as Hg Ht.
  destruct (checked_memory_holds_request demo_setup d 131072 kc) as (p & n & _ & H1 & H2); try done.
  - apply (bool_decide_unpack (NoDup d.*1)). vm_compute. exact I.
  - repeat constructor; cbn; try lia; try done; by eexists.
  - rewrite Ht. destruct (kv_cache_groups kc) as [|g [|]]; [done| |done]. cbn in Hg. injection Hg as Hg. by repeat constructor.
  - by exists kc, p, n.
Defined.

(** * Where the check falls short *)

(** A model without attention layers cannot be started with the hybrid manager
    disabled (which KV transfer and KV events do): the conversion looks at the
    first layer. With the hybrid manager the same model gets its one block. *)
Theorem attention_free_needs_hybrid_manager (c : SpecConfig) (override : option Z) (available_memory : Z) :
  get_kv_cache_config (mkCacheSetup c override true) [] available_memory = Err IndexError /\
  get_kv_cache_config (mkCacheSetup c override false) [] available_memory = Ok (mkConfig 1 [] []).
Proof. done. Qed.

Definition small_setup (disable : bool) : CacheSetup := mkCacheSetup (mkSpecConfig 64 8 1 0) None disable.

(** The memory check can pass although the pool cannot hold one request of the
    maximal length: with the hybrid manager disabled, because the check runs
    before sliding-window layers are converted to full attention; with it
    enabled, because the check does not count the padding of the groups. *)
Theorem check_misses_conversion_and_padding :
  (exists kc n, get_kv_cache_config (small_setup true)
      [("f", FullAttentionSpec 2 demo_attn None None); ("s", SlidingWindowSpec 2 demo_attn 4)]%string (39 * 8192) = Ok kc /\
    total_max_memory (cs_spec (small_setup true)) (kv_cache_spec <$> kv_cache_groups kc) = Ok n /\ num_blocks kc * 8192 < n) /\
  (exists kc n, get_kv_cache_config demo_setup demo_hybrid (37 * 8192) = Ok kc /\
    total_max_memory (cs_spec demo_setup) (kv_cache_spec <$> kv_cache_groups kc) = Ok n /\ num_blocks kc * 8192 < n).
Proof. split; eexists _, _; (split; [vm_compute; reflexivity|]); (split; [vm_compute; reflexivity|]); by vm_compute. Qed.
