(* ===== verification/KVWorkers.v ===== *)
(** One KV cache configuration for all workers: [unify_kv_cache_configs] of
    src/vllm/v1/core/kv_cache_utils.py and [_initialize_kv_caches] of
    src/vllm/v1/engine/core.py. *)
From Stdlib Require Import ZArith Lia Ascii String Sorted.
From stdpp Require Import numbers gmap strings list sorting.
From S2P Require Import Prelude KVSpec KVConfig.

Open Scope Z_scope.

(** An element of [astuple(spec)]; a bool compares as an integer. *)
Inductive key_atom :=
| KInt (n : Z)
| KNone
| KStr (s : string)
| KDtypes (l : list dtype)
| KShapes (l : list (list Z)).

Definition opt_atom (o : option Z) : key_atom := match o with Some n => KInt n | None => KNone end.

Definition attn_atoms (bs : Z) (a : AttentionFields) : list key_atom :=
  [KInt bs; KInt (num_kv_heads a); KInt (head_size a); KDtypes [at_dtype a]; KInt (Z.b2z (use_mla a))].

(** The sort key: the class name and the fields. *)
Definition spec_key (s : KVCacheSpec) : list key_atom :=
  match s with
  | FullAttentionSpec bs a w c => KStr "FullAttentionSpec" :: attn_atoms bs a ++ [opt_atom w; opt_atom c]
  | ChunkedLocalAttentionSpec bs a c => KStr "ChunkedLocalAttentionSpec" :: attn_atoms bs a ++ [KInt c]
  | SlidingWindowSpec bs a w => KStr "SlidingWindowSpec" :: attn_atoms bs a ++ [KInt w]
  | MambaSpec bs shapes dtypes padded ty n =>
      [KStr "MambaSpec"; KInt bs; KShapes shapes; KDtypes dtypes; opt_atom padded; KStr ty; KInt n]
  | EncoderOnlyAttentionSpec bs a => KStr "EncoderOnlyAttentionSpec" :: attn_atoms bs a
  | CrossAttentionSpec bs a => KStr "CrossAttentionSpec" :: attn_atoms bs a
  end.

(** The comparison of two tuples: at the first difference the elements decide,
    with [TypeError] where they have no order; else the lengths. *)
Fixpoint lex {A} (cmp : A -> A -> result comparison) (l1 l2 : list A) : result comparison :=
  match l1, l2 with
  | [], [] => Ok Eq
  | [], _ :: _ => Ok Lt
  | _ :: _, [] => Ok Gt
  | x :: l1, y :: l2 => c ← cmp x y; match c with Eq => lex cmp l1 l2 | _ => Ok c end
  end.

(** A torch dtype has equality and no order. *)
Definition dtype_cmp (x y : dtype) : result comparison := if decide (x = y) then Ok Eq else Err TypeError.
Definition int_cmp (x y : Z) : result comparison := Ok (x ?= y).

Definition atom_cmp (x y : key_atom) : result comparison :=
  match x, y with
  | KInt n, KInt m => int_cmp n m
  | KNone, KNone => Ok Eq
  | KStr s, KStr t => Ok (String.compare s t)
  | KDtypes l, KDtypes l' => lex dtype_cmp l l'
  | KShapes l, KShapes l' => lex (lex int_cmp) l l'
  | _, _ => Err TypeError
  end.

Definition key_cmp (k1 k2 : list key_atom) : result comparison := lex atom_cmp k1 k2.

(** [list.sort]: stable. A comparison sort compares every two elements that end
    up next to each other, so it raises when two keys have no order; else the
    result does not depend on the algorithm. *)
Definition comparable (k1 k2 : list key_atom) : bool := match key_cmp k1 k2 with Ok _ => true | Err _ => false end.

Definition group_key (g : KVCacheGroupSpec) : list key_atom := spec_key (kv_cache_spec g).

Definition group_before (g1 g2 : KVCacheGroupSpec) : bool :=
  match key_cmp (group_key g1) (group_key g2) with Ok Gt => false | Ok _ => true | Err _ => false end.

Fixpoint insert_group (g : KVCacheGroupSpec) (l : list KVCacheGroupSpec) : list KVCacheGroupSpec :=
  match l with
  | [] => [g]
  | g' :: l' => if group_before g g' then g :: l else g' :: insert_group g l'
  end.

Definition sort_groups (l : list KVCacheGroupSpec) : result (list KVCacheGroupSpec) :=
  if forallb (fun g1 => forallb (fun g2 => comparable (group_key g1) (group_key g2)) l) l then Ok (foldr insert_group [] l)
  else Err TypeError.

Definition set_groups (gs : list KVCacheGroupSpec) (kc : KVCacheConfig) : KVCacheConfig :=
  mkConfig (num_blocks kc) (kv_cache_tensors kc) gs.
Definition set_num_blocks (n : Z) (kc : KVCacheConfig) : KVCacheConfig :=
  mkConfig n (kv_cache_tensors kc) (kv_cache_groups kc).

Definition unify_kv_cache_configs (l : list KVCacheConfig) : result (list KVCacheConfig) :=
  l ← mapM_res (fun kc => gs ← sort_groups (kv_cache_groups kc); Ok (set_groups gs kc)) l;
  _ ← foldM (fun _ kc =>
        kc0 ← pyindex l 0;
        assert_ (forallb (fun p => bool_decide (kv_cache_spec p.1 = kv_cache_spec p.2)) (zip (kv_cache_groups kc0) (kv_cache_groups kc))))
      tt (drop 1 l);
  min_num_blocks ← py_min (num_blocks <$> l);
  Ok (set_num_blocks min_num_blocks <$> l).

(** [_initialize_kv_caches]: [specs] are the layers of each worker, [profiled]
    is what [determine_available_memory] reports per worker. The workers get
    all configurations, the scheduler the first. *)
Definition initialize_kv_caches (cs : CacheSetup) (specs : list spec_dict) (profiled : list Z) : result (list KVCacheConfig * KVCacheConfig) :=
  let has_kv_cache := existsb (fun d => negb (is_kv_cache_type_attention_free d)) specs in
  let available := if has_kv_cache then profiled else replicate (length specs) 0 in
  _ ← assert_ (Nat.eqb (length specs) (length available));
  configs ← mapM_res (fun p => get_kv_cache_config cs p.1 p.2) (zip specs available);
  configs ← unify_kv_cache_configs configs;
  _ ← foldM (fun _ kc => kc0 ← pyindex configs 0; assert_ (num_blocks kc =? num_blocks kc0)) tt configs;
  kc0 ← pyindex configs 0;
  Ok (configs, kc0).

(** * The order of groups *)

(** A comparison that may raise: equality is exact, and where it does not raise
    it is a strict order. *)
Class PartialCmp {A} (cmp : A -> A -> result comparison) : Prop := {
  cmp_eq x y : cmp x y = Ok Eq <-> x = y;
  cmp_flip x y : cmp x y = Ok Lt <-> cmp y x = Ok Gt;
  cmp_trans x y z : cmp x y = Ok Lt -> cmp y z = Ok Lt -> cmp x z = Ok Lt
}.

Lemma cmp_refl {A} cmp `{!PartialCmp cmp} (x : A) : cmp x x = Ok Eq.
Proof. by apply cmp_eq. Qed.

#[export] Instance lex_cmp {A} (cmp : A -> A -> result comparison) `{!PartialCmp cmp} : PartialCmp (lex cmp).
Proof.
  split.
  - intros x. induction x as [|a x IH]; intros [|b y]; cbn; try done. split.
    + intros E. apply bind_Ok in E as (c & Ec & E). destruct c; try done. apply cmp_eq in Ec as ->. apply IH in E as ->. done.
    + intros [= -> ->]. rewrite (cmp_refl cmp b). cbn. by apply IH.
  - intros x. induction x as [|a x IH]; intros [|b y]; cbn; try done. split; intros E; apply bind_Ok in E as (c & Ec & E); destruct c; try done.
    + apply cmp_eq in Ec as ->. rewrite (cmp_refl cmp b). cbn. by apply IH.
    + apply cmp_flip in Ec. by rewrite Ec.
    + apply cmp_eq in Ec as ->. rewrite (cmp_refl cmp a). cbn. by apply IH.
    + apply cmp_flip in Ec. by rewrite Ec.
  - intros x. induction x as [|a x IH]; intros [|b y] [|c z]; cbn; try done. intros E1 E2.
    apply bind_Ok in E1 as (o1 & C1 & E1). apply bind_Ok in E2 as (o2 & C2 & E2). destruct o1, o2; try done.
    + apply cmp_eq in C1 as ->, C2 as ->. rewrite (cmp_refl cmp c). cbn. by eapply IH.
    + apply cmp_eq in C1 as ->. by rewrite C2.
    + apply cmp_eq in C2 as ->. by rewrite C1.
    + by rewrite (cmp_trans _ _ _ C1 C2).
Qed.

#[export] Instance int_cmp_ok : PartialCmp int_cmp.
Proof.
  split; unfold int_cmp.
  - intros x y. rewrite <-Z.compare_eq_iff. split; [by intros [= ->]|by intros ->].
  - intros x y. rewrite (Z.compare_antisym x y). by destruct (x ?= y).
  - intros x y z H1 H2. injection H1 as H1. injection H2 as H2. f_equal. rewrite Z.compare_lt_iff in *. lia.
Qed.

#[export] Instance dtype_cmp_ok : PartialCmp dtype_cmp.
Proof. unfold dtype_cmp. split; intros x y; [|by case_decide; case_decide|by case_decide]. by case_decide. Qed.

Lemma string_lt_trans s : forall t u, String.compare s t = Lt -> String.compare t u = Lt -> String.compare s u = Lt.
Proof.
  induction s as [|a s IH]; intros [|b t] [|c u]; cbn; try done.
  unfold Ascii.compare. destruct (N.compare_spec (N_of_ascii a) (N_of_ascii b)) as [E1|E1|], (N.compare_spec (N_of_ascii b) (N_of_ascii c)) as [E2|E2|]; try done.
  - intros H1 H2. rewrite E1, E2, N.compare_refl. eauto.
  - intros _ _. rewrite E1. by apply N.compare_lt_iff in E2 as ->.
  - intros _ _. rewrite <-E2. by apply N.compare_lt_iff in E1 as ->.
  - intros _ _. by rewrite (proj2 (N.compare_lt_iff _ _) (N.lt_trans _ _ _ E1 E2)).
Qed.

#[export] Instance atom_cmp_ok : PartialCmp atom_cmp.
Proof.
  split.
  - intros [n| |s|l|l] [m| |t|l'|l']; cbn; try (split; by intros); rewrite ?cmp_eq; try naive_solver.
    split; [intros E; injection E as E; by apply String.compare_eq_iff in E as ->|intros E; injection E as ->; f_equal].
    pose proof (String.compare_antisym t t). by destruct (String.compare t t).
  - intros [n| |s|l|l] [m| |t|l'|l']; cbn; try (split; by intros); try apply cmp_flip.
    rewrite (String.compare_antisym s t). by destruct (String.compare t s).
  - intros [n| |s|l|l] [m| |t|l'|l'] [k| |u|l''|l'']; cbn; try done; try apply cmp_trans.
    intros [= H1] [= H2]. f_equal. by eapply string_lt_trans.
Qed.

#[export] Instance key_cmp_ok : PartialCmp key_cmp.
Proof. exact (lex_cmp atom_cmp). Qed.

#[export] Instance spec_key_inj : Inj (=) (=) spec_key.
Proof.
  intros s t E. destruct s as [? [? ? ? m] w c|? [? ? ? m] ?|? [? ? ? m] ?|? ? ? p ? ?|? [? ? ? m]|? [? ? ? m]],
    t as [? [? ? ? m'] w' c'|? [? ? ? m'] ?|? [? ? ? m'] ?|? ? ? p' ? ?|? [? ? ? m']|? [? ? ? m']]; cbn in E; simplify_eq; try (destruct m, m'; simplify_eq; done).
  - destruct m, m', w, w', c, c'; by simplify_eq.
  - destruct p, p'; by simplify_eq.
Qed.

(** [s] comes before [t] or is equal. *)
Definition spec_le (s t : KVCacheSpec) : Prop := key_cmp (spec_key s) (spec_key t) = Ok Lt \/ s = t.

#[export] Instance spec_le_trans : Transitive spec_le.
Proof. intros s t u [H1| ->] [H2| ->]; try (by left); [|by right]. left. exact (cmp_trans (cmp := key_cmp) _ _ _ H1 H2). Qed.

#[export] Instance spec_le_antisymm : AntiSymm (=) spec_le.
Proof.
  intros s t [H1| ->] [H2|H2]; try done. pose proof (cmp_trans (cmp := key_cmp) _ _ _ H1 H2) as H. by rewrite (cmp_refl key_cmp) in H.
Qed.

Definition group_le (g1 g2 : KVCacheGroupSpec) : Prop := spec_le (kv_cache_spec g1) (kv_cache_spec g2).

Lemma group_before_spec g1 g2 : comparable (group_key g1) (group_key g2) = true ->
  if group_before g1 g2 then group_le g1 g2 else group_le g2 g1.
Proof.
  unfold comparable, group_before, group_le, spec_le, group_key. destruct (key_cmp _ _) as [[| |]|] eqn:E; [|by left| |done]; intros _.
  - right. apply (cmp_eq (cmp := key_cmp)) in E. by apply (inj spec_key).
  - left. by apply (cmp_flip (cmp := key_cmp)).
Qed.

Lemma insert_group_perm g l : insert_group g l ≡ₚ g :: l.
Proof. induction l as [|g' l IH]; [done|]. cbn. destruct (group_before g g'); [done|]. rewrite IH. apply perm_swap. Qed.

Lemma insert_group_sorted g l : (forall g', g' ∈ l -> comparable (group_key g) (group_key g') = true) -> Sorted group_le l -> Sorted group_le (insert_group g l).
Proof.
  intros Hc Hl. induction Hl as [|g' l Hl IH Hh]; [by repeat constructor|]. cbn. pose proof (group_before_spec g g' (Hc g' ltac:(by left))) as Hb.
  destruct (group_before g g'); [by constructor; [constructor|constructor]|]. constructor; [apply IH; intros x Hx; apply Hc; by right|].
  destruct l as [|x l]; cbn; [by constructor|]. destruct (group_before g x); [by constructor|]. apply HdRel_inv in Hh. by constructor.
Qed.

(** Sorting gives the same groups, in the order of their specifications. *)
Lemma sort_groups_spec l l' : sort_groups l = Ok l' -> l' ≡ₚ l /\ Sorted group_le l'.
Proof.
  unfold sort_groups. destruct (forallb _ l) eqn:Hall; [|done]. intros [= <-].
  assert (Hc : forall g1 g2, g1 ∈ l -> g2 ∈ l -> comparable (group_key g1) (group_key g2) = true).
  { intros g1 g2 H1 H2. pose proof (forallb_elem _ _ _ Hall H1) as H. by apply (forallb_elem _ _ _ H). }
  clear Hall. induction l as [|g l IH]; [by split|]. destruct IH as [IH1 IH2]; [intros; apply Hc; by right|]. cbn. split; [by rewrite insert_group_perm, IH1|].
  apply insert_group_sorted; [|done]. intros g' Hg'. rewrite IH1 in Hg'. apply Hc; [by left|by right].
Qed.

Lemma sorted_specs l : Sorted group_le l -> Sorted spec_le (kv_cache_spec <$> l).
Proof.
  induction 1 as [|g l Hl IH Hh]; [done|]. cbn. constructor; [done|]. destruct Hh; by constructor.
Qed.

(** The order in which a worker found its groups does not matter. *)
Lemma sort_specs_unique l1 l2 s1 s2 : sort_groups l1 = Ok s1 -> sort_groups l2 = Ok s2 ->
  (kv_cache_spec <$> l1) ≡ₚ (kv_cache_spec <$> l2) -> kv_cache_spec <$> s1 = kv_cache_spec <$> s2.
Proof.
  intros [P1 S1]%sort_groups_spec [P2 S2]%sort_groups_spec Hp. apply (Sorted_unique spec_le); [by apply sorted_specs|by apply sorted_specs|].
  by rewrite P1, P2.
Qed.

(** * All workers *)

(** What unification does to one worker's configuration. *)
Definition unified_from (n : Z) (kc kc' : KVCacheConfig) : Prop :=
  num_blocks kc' = n /\ n <= num_blocks kc /\ kv_cache_tensors kc' = kv_cache_tensors kc /\
  sort_groups (kv_cache_groups kc) = Ok (kv_cache_groups kc').

(** The positions both workers have hold the same specification. *)
Definition same_specs (kc kc' : KVCacheConfig) : Prop :=
  forall i g g', kv_cache_groups kc !! i = Some g -> kv_cache_groups kc' !! i = Some g' -> kv_cache_spec g = kv_cache_spec g'.

Lemma zip_specs l l' : forallb (fun p => bool_decide (kv_cache_spec p.1 = kv_cache_spec p.2)) (zip l l') = true ->
  forall i g g', l !! i = Some g -> l' !! i = Some g' -> kv_cache_spec g = kv_cache_spec g'.
Proof.
  intros H i g g' Hg Hg'. assert (Hin : (g, g') ∈ zip l l') by (apply list_elem_of_lookup; exists i; by apply lookup_zip_Some).
  pose proof (forallb_elem _ _ _ H Hin) as Hx. by apply bool_decide_eq_true in Hx.
Qed.

Lemma foldM_each {A} (f : A -> result unit) l : (foldM (fun _ x => f x) tt l = Ok tt) <-> Forall (fun x => f x = Ok tt) l.
Proof.
  induction l as [|x l IH]; [by split|]. cbn. rewrite Forall_cons, <-IH. destruct (f x) as [[]|]; cbn; naive_solver.
Qed.

Lemma unify_spec l l' : unify_kv_cache_configs l = Ok l' ->
  exists n kc0, head l' = Some kc0 /\ Forall2 (unified_from n) l l' /\ Forall (same_specs kc0) l' /\ n ∈ num_blocks <$> l.
Proof.
  unfold unify_kv_cache_configs. intros E. apply bind_Ok in E as (l1 & E1 & E). apply bind_Ok in E as ([] & E2 & E).
  apply bind_Ok in E as (n & En & E). injection E as <-. apply mapM_Forall2 in E1. apply py_min_in in En as [Hin Hmin].
  destruct l1 as [|kc0 l1]; [by apply elem_of_nil in Hin|]. exists n, (set_num_blocks n kc0). split; [done|].
  apply (foldM_each (fun kc => kc0' ← pyindex (kc0 :: l1) 0; assert_ _)) in E2.
  assert (Hnb : forall kc kc', (gs ← sort_groups (kv_cache_groups kc); Ok (set_groups gs kc)) = Ok kc' ->
    num_blocks kc' = num_blocks kc /\ kv_cache_tensors kc' = kv_cache_tensors kc /\ sort_groups (kv_cache_groups kc) = Ok (kv_cache_groups kc')).
  { intros kc kc' E. apply bind_Ok in E as (gs & Hs & E). injection E as <-. by rewrite Hs. }
  split_and!.
  - apply Forall2_fmap_r. clear E2 Hin. revert Hmin. generalize dependent (kc0 :: l1). intros l2 HF Hmin.
    induction HF as [|kc kc' l l2 E HF IH]; [constructor|]. apply Forall_cons in Hmin as [Hle Hmin]. destruct (Hnb _ _ E) as (H1 & H2 & H3).
    constructor; [|by apply IH]. split_and!; [done|cbn in *; lia|done|done].
  - apply Forall_fmap. constructor; [intros i g g' Hg Hg'; cbn in *; congruence|]. eapply Forall_impl; [exact E2|]. intros kc Hk. cbn in Hk.
    apply assert_Ok in Hk. intros i g g' Hg Hg'. by eapply zip_specs.
  - assert (Hsame : num_blocks <$> kc0 :: l1 = num_blocks <$> l); [|by rewrite <-Hsame].
    clear -E1 Hnb. induction E1 as [|kc kc' l l2 E HF IH]; [done|]. destruct (Hnb _ _ E) as (H1 & _). rewrite !fmap_cons. by f_equal.
Qed.

Lemma init_configs cs specs profiled configs kc0 : initialize_kv_caches cs specs profiled = Ok (configs, kc0) ->
  head configs = Some kc0 /\ (exists own, unify_kv_cache_configs own = Ok configs /\
    Forall2 (fun d kc => exists available_memory, get_kv_cache_config cs d available_memory = Ok kc) specs own).
Proof.
  unfold initialize_kv_caches. cbv zeta. intros E. set (available := if existsb _ _ then _ else _) in E.
  apply bind_Ok in E as ([] & Hlen & E). apply bind_Ok in E as (own & Eo & E). apply bind_Ok in E as (u & Eu & E).
  apply bind_Ok in E as (? & _ & E). apply bind_Ok in E as (kc & Ek & E). injection E as <- <-.
  split; [destruct u; [done|]; by injection Ek as ->|]. exists own. split; [done|]. apply assert_Ok, Nat.eqb_eq in Hlen. apply mapM_Forall2 in Eo.
  revert Eo Hlen. generalize available. clear. intros available HF. remember (zip specs available) as z eqn:Ez. revert specs available Ez.
  induction HF as [|p kc z own E HF IH]; intros [|d specs] [|a available] Ez Hlen; try done.
  injection Ez as -> Ez. constructor; [by exists a|]. by apply (IH specs available); [|injection Hlen].
Qed.

(** All workers get one consistent cache: when the engine starts, every worker's
    configuration is its own, with its groups in the common order, its tensors
    kept, and the number of blocks lowered to the smallest among the workers;
    at each group position a worker has the specification the scheduler uses;
    and a worker that found the same specifications as the first one, in
    whatever order, ends up with exactly the same list. *)
Theorem worker_configs_consistent (cs : CacheSetup) (specs : list spec_dict) (profiled : list Z) (configs : list KVCacheConfig) (kc0 : KVCacheConfig) :
  initialize_kv_caches cs specs profiled = Ok (configs, kc0) ->
  head configs = Some kc0 /\
  Forall2 (fun d kc' => exists available_memory kc, get_kv_cache_config cs d available_memory = Ok kc /\ unified_from (num_blocks kc0) kc kc') specs configs /\
  Forall (same_specs kc0) configs /\
  Forall (fun kc' => (kv_cache_spec <$> kv_cache_groups kc') ≡ₚ (kv_cache_spec <$> kv_cache_groups kc0) ->
    kv_cache_spec <$> kv_cache_groups kc' = kv_cache_spec <$> kv_cache_groups kc0) configs.
Proof.
  intros E. destruct (init_configs _ _ _ _ _ E) as (Hh & own & Eu & HF). destruct (unify_spec _ _ Eu) as (n & kc & Hh' & HU & HS & _).
  rewrite Hh in Hh'. injection Hh' as <-.
  assert (Hn : num_blocks kc0 = n) by (destruct HU as [|? ? ? ? (? & _) _]; [done|]; by injection Hh as <-).
  assert (Hs : Forall (fun kc' => Sorted spec_le (kv_cache_spec <$> kv_cache_groups kc')) configs).
  { clear -HU. induction HU as [|kc kc' l l' (_ & _ & _ & E) HU IH]; [done|]. constructor; [|done]. apply sort_groups_spec in E as [_ E]. by apply sorted_specs. }
  rewrite Hn. split_and!; [done| |done|].
  - clear -HF HU. revert configs HU. induction HF as [|d kc l own (a & Ea) HF IH]; intros configs HU; inversion HU; subst; constructor; eauto.
  - assert (Hs0 : Sorted spec_le (kv_cache_spec <$> kv_cache_groups kc0)) by (destruct Hs; [done|]; by injection Hh as <-).
    eapply Forall_impl; [exact Hs|]. intros kc' Hk Hp. by apply (Sorted_unique spec_le).
Qed.

Lemma worker_configs_consistent_witness :
  exists configs kc0, initialize_kv_caches demo_setup
      [demo_hybrid; reverse demo_hybrid] [1000000; 800000] = Ok (configs, kc0) /\
    num_blocks kc0 = 48 /\ Forall (same_specs kc0) configs.
Proof.
  destruct (initialize_kv_caches demo_setup [demo_hybrid; reverse demo_hybrid] [1000000; 800000]) as [[configs kc0]|] eqn:E; [|by vm_compute in E].
  exists configs, kc0. observe E (fun x : list KVCacheConfig * KVCacheConfig => num_blocks x.2) 48.
  split; [reflexivity|]. split; [exact Hobs|]. by apply (worker_configs_consistent demo_setup _ _ _ _ E).
Defined.

Lemma unify_ok_intro (l l1 : list KVCacheConfig) kc0 :
  Forall2 (fun kc kc' => (gs ← sort_groups (kv_cache_groups kc); Ok (set_groups gs kc)) = Ok kc') l l1 -> head l1 = Some kc0 ->
  Forall (fun kc => kv_cache_spec <$> kv_cache_groups kc = kv_cache_spec <$> kv_cache_groups kc0) l1 ->
  exists l', unify_kv_cache_configs l = Ok l'.
Proof.
  intros HF Hh Hs. unfold unify_kv_cache_configs.
  assert (E : mapM_res (fun kc => gs ← sort_groups (kv_cache_groups kc); Ok (set_groups gs kc)) l = Ok l1).
  { clear -HF. induction HF as [|kc kc' l l1 E HF IH]; [done|]. cbn [mapM_res]. by rewrite E, IH. }
  rewrite E. cbn [mbind result_bind]. destruct l1 as [|kc1 l1]; [done|]. injection Hh as ->. change (pyindex (kc0 :: l1) 0) with (Ok kc0). cbn [mbind result_bind].
  rewrite (proj2 (foldM_each (fun kc => assert_ _) _)); [cbn; by eexists|]. cbn. apply Forall_cons in Hs as [_ Hs]. eapply Forall_impl; [exact Hs|].
  intros kc Hk. apply assert_Ok, forallb_forall. intros [g g'] Hin. apply list_elem_of_In, list_elem_of_lookup in Hin as [i Hi].
  apply lookup_zip_Some in Hi as [H1 H2]. cbn. apply bool_decide_eq_true.
  assert (E1 : (kv_cache_spec <$> kv_cache_groups kc) !! i = Some (kv_cache_spec g')) by (by rewrite list_lookup_fmap, H2).
  rewrite Hk, list_lookup_fmap, H1 in E1. by injection E1.
Qed.

(** Unification succeeds when it should: workers that found the same
    specifications, in whatever order, are accepted, as long as the
    specifications can be ordered. *)
Theorem unify_accepts_reordered (l : list KVCacheConfig) :
  l ≠ [] -> Forall (fun kc => exists gs, sort_groups (kv_cache_groups kc) = Ok gs) l ->
  (forall kc kc', kc ∈ l -> kc' ∈ l -> (kv_cache_spec <$> kv_cache_groups kc) ≡ₚ (kv_cache_spec <$> kv_cache_groups kc')) ->
  exists l', unify_kv_cache_configs l = Ok l'.
Proof.
  intros Hne Hs Hp. destruct l as [|kc l]; [done|]. apply Forall_cons in Hs as [[gs Hgs] Hs].
  assert (H : exists l1, Forall2 (fun kc kc' => (gs ← sort_groups (kv_cache_groups kc); Ok (set_groups gs kc)) = Ok kc') l l1 /\
    Forall (fun kc' => kv_cache_spec <$> kv_cache_groups kc' = kv_cache_spec <$> gs) l1).
  { assert (Hp' : forall kc', kc' ∈ l -> (kv_cache_spec <$> kv_cache_groups kc') ≡ₚ (kv_cache_spec <$> kv_cache_groups kc)) by (intros kc' Hk; apply Hp; [by right|by left]).
    clear Hp. induction Hs as [|kc' l [gs' E] Hs IH]; [by exists []|]. destruct IH as (l1 & H1 & H2); [done|intros x Hx; apply Hp'; by right|].
    exists (set_groups gs' kc' :: l1). split; constructor; try done; [by rewrite E|]. cbn. eapply sort_specs_unique; [exact E|exact Hgs|]. apply Hp'. by left. }
  destruct H as (l1 & HF & Hl1). apply (unify_ok_intro _ (set_groups gs kc :: l1) (set_groups gs kc)); [|done|by constructor].
  constructor; [by rewrite Hgs|done].
Qed.
