(* ===== verification/SingleType.v ===== *)
(** The per-group block managers of
    src/vllm/v1/core/single_type_kv_cache_manager.py: full attention, sliding
    window, chunked local attention, Mamba and cross attention. All managers
    share the block pool, which is passed along explicitly. *)
From Stdlib Require Import ZArith Lia Ascii String.
From stdpp Require Import numbers gmap strings list.
From S2P Require Import Prelude FreeQueue Request BlockHash BlockPool KVSpec.

Open Scope Z_scope.

(** ** State *)

(** The manager classes; [spec_manager_map] picks one from the type of the
    specification and has no entry for encoder-only attention. *)
Inductive ManagerClass :=
| FullAttentionManager
| SlidingWindowManager
| ChunkedLocalAttentionManager
| MambaManager
| CrossAttentionManager.

#[export] Instance ManagerClass_eq_dec : EqDecision ManagerClass.
Proof. solve_decision. Defined.

Definition spec_manager_map (s : KVCacheSpec) : option ManagerClass :=
  match s with
  | FullAttentionSpec _ _ _ _ => Some FullAttentionManager
  | SlidingWindowSpec _ _ _ => Some SlidingWindowManager
  | ChunkedLocalAttentionSpec _ _ _ => Some ChunkedLocalAttentionManager
  | MambaSpec _ _ _ _ _ _ => Some MambaManager
  | CrossAttentionSpec _ _ => Some CrossAttentionManager
  | EncoderOnlyAttentionSpec _ _ => None
  end.

(** [req_to_blocks] is a defaultdict: an absent key reads as the empty list,
    and whether a read has created an empty entry is not observable. *)
Record SingleTypeKVCacheManager := mkManager {
  mgr_class : ManagerClass;
  mgr_block_size : Z;
  mgr_spec : KVCacheSpec;
  mgr_dcp_world_size : Z;
  req_to_blocks : gmap string (list bptr);
  num_cached_block : gmap string Z;
  kv_cache_group_id : Z
}.

Definition set_req_blocks (rid : string) (bs : list bptr) (m : SingleTypeKVCacheManager)
  : SingleTypeKVCacheManager :=
  mkManager (mgr_class m) (mgr_block_size m) (mgr_spec m) (mgr_dcp_world_size m)
    (<[rid := bs]> (req_to_blocks m)) (num_cached_block m) (kv_cache_group_id m).
Definition set_num_cached (rid : string) (n : Z) (m : SingleTypeKVCacheManager)
  : SingleTypeKVCacheManager :=
  mkManager (mgr_class m) (mgr_block_size m) (mgr_spec m) (mgr_dcp_world_size m)
    (req_to_blocks m) (<[rid := n]> (num_cached_block m)) (kv_cache_group_id m).
Definition pop_req (rid : string) (m : SingleTypeKVCacheManager) : SingleTypeKVCacheManager :=
  mkManager (mgr_class m) (mgr_block_size m) (mgr_spec m) (mgr_dcp_world_size m)
    (delete rid (req_to_blocks m)) (delete rid (num_cached_block m)) (kv_cache_group_id m).

Definition req_blocks (m : SingleTypeKVCacheManager) (rid : string) : list bptr :=
  default [] (req_to_blocks m !! rid).

(** [SingleTypeKVCacheManager.__init__] through [get_manager_for_kv_cache_spec]. *)
Definition get_manager_for_kv_cache_spec (s : KVCacheSpec) (gid dcp_world_size : Z)
  : result SingleTypeKVCacheManager :=
  cls ← get_or KeyError (spec_manager_map s);
  let bs := if 1 <? dcp_world_size then spec_block_size s * dcp_world_size else spec_block_size s in
  Ok (mkManager cls bs s dcp_world_size ∅ ∅ gid).

(** [kv_cache_spec.sliding_window], [.attention_chunk_size] and
    [.num_speculative_blocks], attributes of the specification of their class. *)
Definition spec_sliding_window (s : KVCacheSpec) : result Z :=
  match s with SlidingWindowSpec _ _ w => Ok w | _ => Err AttributeError end.
Definition spec_chunk_size (s : KVCacheSpec) : result Z :=
  match s with ChunkedLocalAttentionSpec _ _ c => Ok c | _ => Err AttributeError end.

(** ** Allocation *)

(** [sum(blk.ref_cnt == 0 and not blk.is_null for blk in new_computed_blocks)]. *)
Definition num_evictable (P : BlockPool) (blks : list bptr) : Z :=
  zlen (filter (fun p => evictable P p = true) blks).

(** The Mamba manager reserves blocks for speculative tokens. *)
Definition mamba_tokens (m : SingleTypeKVCacheManager) (num_tokens : Z) : result Z :=
  match mgr_class m with
  | MambaManager =>
      match mgr_spec m with
      | MambaSpec bs _ _ _ _ num_spec => Ok (if 0 <? num_spec then num_tokens + bs * num_spec else num_tokens)
      | _ => Err AssertionError
      end
  | _ => Ok num_tokens
  end.

Definition get_num_blocks_to_allocate (m : SingleTypeKVCacheManager) (P : BlockPool) (rid : string)
  (num_tokens : Z) (new_computed_blocks : list bptr) : result Z :=
  num_tokens ← mamba_tokens m num_tokens;
  let num_required_blocks := cdiv num_tokens (mgr_block_size m) in
  let num_new_blocks := num_required_blocks - zlen new_computed_blocks - zlen (req_blocks m rid) in
  Ok (num_new_blocks + num_evictable P new_computed_blocks).

Definition save_new_computed_blocks (rid : string) (new_computed_blocks : list bptr)
  (m : SingleTypeKVCacheManager) : result SingleTypeKVCacheManager :=
  match mgr_class m with
  | CrossAttentionManager => _ ← assert_ (zlen new_computed_blocks =? 0); Ok m
  | _ =>
      match num_cached_block m !! rid with
      | None =>
          _ ← assert_ (zlen (req_blocks m rid) =? 0);
          let m := set_req_blocks rid (req_blocks m rid ++ new_computed_blocks) m in
          Ok (set_num_cached rid (zlen new_computed_blocks) m)
      | Some _ => _ ← assert_ (zlen new_computed_blocks =? 0); Ok m
      end
  end.

Definition allocate_new_blocks (rid : string) (num_tokens : Z) (m : SingleTypeKVCacheManager)
  (P : BlockPool) : result (list bptr * SingleTypeKVCacheManager * BlockPool) :=
  num_tokens ← mamba_tokens m num_tokens;
  let num_required_blocks := cdiv num_tokens (mgr_block_size m) in
  let num_new_blocks := num_required_blocks - zlen (req_blocks m rid) in
  if num_new_blocks <=? 0 then Ok ([], m, P) else
  '(new_blocks, P) ← get_new_blocks num_new_blocks P;
  Ok (new_blocks, set_req_blocks rid (req_blocks m rid ++ new_blocks) m, P).

Definition cache_blocks (r : Request) (num_tokens : Z) (m : SingleTypeKVCacheManager) (P : BlockPool)
  : result (SingleTypeKVCacheManager * BlockPool) :=
  match mgr_class m with
  | CrossAttentionManager => Err ValueError
  | _ =>
      num_cached_blocks ← get_or KeyError (num_cached_block m !! request_id r);
      let num_full_blocks := num_tokens / mgr_block_size m in
      P ← cache_full_blocks r (req_blocks m (request_id r)) num_cached_blocks num_full_blocks
            (mgr_block_size m) (kv_cache_group_id m) P;
      Ok (set_num_cached (request_id r) num_full_blocks m, P)
  end.

Definition free (rid : string) (m : SingleTypeKVCacheManager) (P : BlockPool)
  : result (SingleTypeKVCacheManager * BlockPool) :=
  P ← free_blocks (reverse (req_blocks m rid)) P;
  Ok (pop_req rid m, P).

(** ** Common prefix *)

Fixpoint count_common (P : BlockPool) (num_running_requests : Z) (blks : list bptr) : result Z :=
  match blks with
  | [] => Ok 0
  | p :: blks' =>
      b ← load (pheap P) p;
      if ref_cnt b =? num_running_requests then
        n ← count_common P num_running_requests blks'; Ok (1 + n)
      else Ok 0
  end.

Definition get_num_common_prefix_blocks (rid : string) (num_running_requests : Z)
  (m : SingleTypeKVCacheManager) (P : BlockPool) : result Z :=
  match mgr_class m with
  | FullAttentionManager => count_common P num_running_requests (req_blocks m rid)
  | _ => Ok 0
  end.

(** ** Skipped blocks *)

(** [for i in range(n - 1, -1, -1)]: replace blocks by the null block until
    one is null already. *)
Fixpoint remove_skipped_loop (null : bptr) (n : nat) (blocks removed : list bptr)
  : result (list bptr * list bptr) :=
  match n with
  | O => Ok (blocks, removed)
  | S i =>
      p ← pyindex blocks (Z.of_nat i);
      if decide (p = null) then Ok (blocks, removed)
      else remove_skipped_loop null i (<[i := null]> blocks) (removed ++ [p])
  end.

Definition remove_skipped_until (rid : string) (first_useful_block : Z) (m : SingleTypeKVCacheManager)
  (P : BlockPool) : result (SingleTypeKVCacheManager * BlockPool) :=
  '(blocks, removed) ← remove_skipped_loop (null_block P) (Z.to_nat first_useful_block) (req_blocks m rid) [];
  P ← free_blocks removed P;
  Ok (set_req_blocks rid blocks m, P).

(** The first block the sliding window still covers. *)
Definition sw_first_useful_block (window block_size num_computed_tokens : Z) : Z :=
  (num_computed_tokens - window + 1) / block_size.

(** The first block of the current chunk, keeping the last cached block. *)
Definition chunk_first_useful_block (chunk block_size num_cached num_computed_tokens : Z) : Z :=
  let first := num_computed_tokens / chunk * chunk / block_size in
  if 0 <? num_cached then Z.min first (num_cached - 1) else first.

Definition remove_skipped_blocks (rid : string) (num_computed_tokens : Z) (m : SingleTypeKVCacheManager)
  (P : BlockPool) : result (SingleTypeKVCacheManager * BlockPool) :=
  match mgr_class m with
  | SlidingWindowManager =>
      w ← spec_sliding_window (mgr_spec m);
      remove_skipped_until rid (sw_first_useful_block w (mgr_block_size m) num_computed_tokens) m P
  | ChunkedLocalAttentionManager =>
      c ← spec_chunk_size (mgr_spec m);
      let num_cached := default 0 (num_cached_block m !! rid) in
      remove_skipped_until rid
        (chunk_first_useful_block c (mgr_block_size m) num_cached num_computed_tokens) m P
  | _ => Ok (m, P)
  end.

(** ** Prefix-cache lookups *)

(** [for computed, cached in zip(computed_blocks, cached_block):
    computed.append(cached)]; groups beyond the shorter list are kept. *)
Fixpoint append_hits (computed : list (list bptr)) (cached : list bptr) : list (list bptr) :=
  match computed, cached with
  | c :: computed', p :: cached' => (c ++ [p]) :: append_hits computed' cached'
  | _, _ => computed
  end.

(** The lookup loop of full and chunked attention: stop at the first miss.
    An empty hit list (no groups) counts as a miss. *)
Fixpoint hit_loop (P : BlockPool) (gids : list Z) (hashes : list BlockHash) (computed : list (list bptr))
  : result (list (list bptr)) :=
  match hashes with
  | [] => Ok computed
  | h :: hashes' =>
      o ← get_cached_block P h gids;
      match o with
      | Some ((_ :: _) as cached) => hit_loop P gids hashes' (append_hits computed cached)
      | _ => Ok computed
      end
  end.

(** [if use_eagle and computed_blocks[0]: pop the last block of every group]. *)
Definition eagle_drop (use_eagle : bool) (computed : list (list bptr)) : result (list (list bptr)) :=
  if use_eagle then
    c0 ← pyindex computed 0;
    if decide (c0 = []) then Ok computed else
    mapM_res (fun c => if decide (c = []) then Err IndexError else Ok (take (length c - 1) c)) computed
  else Ok computed.

Definition full_find_longest_cache_hit (hashes : list BlockHash) (max_length : Z) (gids : list Z)
  (P : BlockPool) (s : KVCacheSpec) (use_eagle : bool) (dcp_world_size : Z) : result (list (list bptr)) :=
  _ ← assert_ (match s with FullAttentionSpec _ _ _ _ | ChunkedLocalAttentionSpec _ _ _ => true | _ => false end);
  let block_size := if 1 <? dcp_world_size then spec_block_size s * dcp_world_size else spec_block_size s in
  let max_num_blocks := max_length / block_size in
  _ ← raise_if (max_num_blocks <? 0) ValueError;
  computed ← hit_loop P gids (take (Z.to_nat max_num_blocks) hashes) (replicate (length gids) []);
  eagle_drop use_eagle computed.

(** [for computed, cached in zip(computed_blocks, cached_block):
    computed[i] = cached]. *)
Fixpoint set_hits (i : nat) (computed : list (list bptr)) (cached : list bptr) : list (list bptr) :=
  match computed, cached with
  | c :: computed', p :: cached' => <[i := p]> c :: set_hits i computed' cached'
  | _, _ => computed
  end.

(** The right-to-left search of the sliding-window lookup, from block
    [n - 1] down; the last component is [match_found]. *)
Fixpoint sw_loop (P : BlockPool) (gids : list Z) (hashes : list BlockHash) (contiguous : Z) (n : nat)
  (num_contiguous : Z) (computed : list (list bptr)) : result (list (list bptr) * Z * bool) :=
  match n with
  | O => Ok (computed, num_contiguous, false)
  | S i =>
      h ← pyindex hashes (Z.of_nat i);
      o ← get_cached_block P h gids;
      match o with
      | Some ((_ :: _) as cached) =>
          let computed := set_hits i computed cached in
          let num_contiguous := num_contiguous + 1 in
          if contiguous <=? num_contiguous
          then Ok (pytake (Z.of_nat i + num_contiguous) <$> computed, num_contiguous, true)
          else sw_loop P gids hashes contiguous i num_contiguous computed
      | _ => sw_loop P gids hashes contiguous i 0 computed
      end
  end.

Definition sw_contiguous_blocks (window block_size : Z) (use_eagle : bool) : Z :=
  cdiv (window - 1) block_size + (if use_eagle then 1 else 0).

Definition sw_find_longest_cache_hit (hashes : list BlockHash) (max_length : Z) (gids : list Z)
  (P : BlockPool) (s : KVCacheSpec) (use_eagle : bool) (dcp_world_size : Z) : result (list (list bptr)) :=
  match s with
  | SlidingWindowSpec bs _ w =>
      _ ← assert_ (dcp_world_size =? 1);
      let max_num_blocks := Z.to_nat (max_length / bs) in
      found ←
        sw_loop P gids hashes (sw_contiguous_blocks w bs use_eagle) max_num_blocks 0
          (replicate (length gids) (replicate max_num_blocks (null_block P)));
      let '(computed, num_contiguous, match_found) := (found : list (list bptr) * Z * bool) in
      let computed := if match_found then computed else pytake num_contiguous <$> computed in
      eagle_drop use_eagle computed
  | _ => Err AssertionError
  end.

(** [for i in range(start, start + n)] of the chunked lookup. *)
Fixpoint chunk_loop (P : BlockPool) (gids : list Z) (hashes : list BlockHash) (i : Z) (n : nat)
  (computed : list (list bptr)) : result (list (list bptr)) :=
  match n with
  | O => Ok computed
  | S n' =>
      h ← pyindex hashes i;
      o ← get_cached_block P h gids;
      match o with
      | Some ((_ :: _) as cached) => chunk_loop P gids hashes (i + 1) n' (append_hits computed cached)
      | _ => Ok computed
      end
  end.

Definition chunked_find_longest_cache_hit (hashes : list BlockHash) (max_length : Z) (gids : list Z)
  (P : BlockPool) (s : KVCacheSpec) (use_eagle : bool) (dcp_world_size : Z) : result (list (list bptr)) :=
  match s with
  | ChunkedLocalAttentionSpec bs _ chunk =>
      _ ← assert_ (negb use_eagle);
      _ ← assert_ (dcp_world_size =? 1);
      let max_num_blocks := max_length / bs in
      let start_idx := if 0 <? max_length then max_length / chunk * chunk else 0 in
      let start_block := start_idx / bs in
      chunk_loop P gids hashes start_block (Z.to_nat (max_num_blocks - start_block))
        (replicate (length gids) (replicate (Z.to_nat start_block) (null_block P)))
  | _ => Err AssertionError
  end.

Definition find_longest_cache_hit (cls : ManagerClass) (hashes : list BlockHash) (max_length : Z)
  (gids : list Z) (P : BlockPool) (s : KVCacheSpec) (use_eagle : bool) (dcp_world_size : Z)
  : result (list (list bptr)) :=
  match cls with
  | FullAttentionManager => full_find_longest_cache_hit hashes max_length gids P s use_eagle dcp_world_size
  | SlidingWindowManager => sw_find_longest_cache_hit hashes max_length gids P s use_eagle dcp_world_size
  | ChunkedLocalAttentionManager =>
      chunked_find_longest_cache_hit hashes max_length gids P s use_eagle dcp_world_size
  | MambaManager =>
      match s with
      | MambaSpec _ _ _ _ _ _ => _ ← assert_ (dcp_world_size =? 1); Ok (replicate (length gids) [])
      | _ => Err AssertionError
      end
  | CrossAttentionManager =>
      match s with CrossAttentionSpec _ _ => Err NotImplementedError | _ => Err AssertionError end
  end.

(** * Invariants *)

(** ** References held by a manager *)

(** How often the block tables of the manager mention block [i]. *)
Definition mrefs (m : SingleTypeKVCacheManager) (i : nat) : Z :=
  map_fold (fun _ bs acc => occ i bs + acc) 0 (req_to_blocks m).

Lemma fold_occ_delete (i : nat) (rid : string) (M : gmap string (list bptr)) :
  map_fold (fun _ bs acc => occ i bs + acc) 0 M =
    occ i (default [] (M !! rid)) + map_fold (fun _ bs acc => occ i bs + acc) 0 (delete rid M).
Proof.
  destruct (M !! rid) as [bs|] eqn:E; cbn.
  - apply (map_fold_delete_L (fun _ bs acc => occ i bs + acc) 0 rid bs); [|done]. intros. lia.
  - by rewrite delete_id.
Qed.

Lemma mrefs_set rid bs m i :
  mrefs (set_req_blocks rid bs m) i = mrefs m i - occ i (req_blocks m rid) + occ i bs.
Proof.
  unfold mrefs, req_blocks. cbn. rewrite (fold_occ_delete i rid (req_to_blocks m)).
  rewrite (fold_occ_delete i rid (<[rid := bs]> (req_to_blocks m))).
  rewrite lookup_insert, decide_True by done. cbn. rewrite delete_insert_eq. lia.
Qed.

Lemma mrefs_pop rid m i : mrefs (pop_req rid m) i = mrefs m i - occ i (req_blocks m rid).
Proof.
  unfold mrefs, req_blocks. cbn. rewrite (fold_occ_delete i rid (req_to_blocks m)). lia.
Qed.

Lemma fold_occ_nonneg (i : nat) (M : gmap string (list bptr)) :
  0 <= map_fold (fun _ bs acc => occ i bs + acc) 0 M.
Proof.
  apply (map_fold_weak_ind (fun r _ => 0 <= r)); [done|]. intros. pose proof (occ_nonneg i x). lia.
Qed.

Lemma occ_le_mrefs rid m i : occ i (req_blocks m rid) <= mrefs m i.
Proof.
  unfold mrefs. rewrite (fold_occ_delete i rid). unfold req_blocks.
  pose proof (fold_occ_nonneg i (delete rid (req_to_blocks m))). lia.
Qed.

Lemma mrefs_nonneg m i : 0 <= mrefs m i.
Proof. apply fold_occ_nonneg. Qed.

Lemma req_blocks_set rid bs m rid' :
  req_blocks (set_req_blocks rid bs m) rid' = if decide (rid = rid') then bs else req_blocks m rid'.
Proof. unfold req_blocks. cbn. rewrite lookup_insert. by destruct (decide (rid = rid')). Qed.

Lemma req_blocks_pop rid m rid' :
  req_blocks (pop_req rid m) rid' = if decide (rid = rid') then [] else req_blocks m rid'.
Proof. unfold req_blocks. cbn. rewrite lookup_delete. by destruct (decide (rid = rid')). Qed.

(** ** Well-formed managers *)

Definition spec_ok (s : KVCacheSpec) : Prop :=
  match s with
  | SlidingWindowSpec _ _ w => 0 < w
  | ChunkedLocalAttentionSpec _ _ c => 0 < c
  | MambaSpec bs _ _ _ _ n => 0 < bs /\ 0 <= n
  | _ => True
  end.

(** The block tables refer to blocks of the pool; a table mentions a block at
    most once and its null entries come first; a request without a cached
    count has no blocks; with prefix caching, the blocks beyond the cached
    count are real blocks without a hash. *)
Record mgr_ok (P : BlockPool) (m : SingleTypeKVCacheManager) : Prop := mkMgrOk {
  mo_bs : 0 < mgr_block_size m;
  mo_gid : 0 <= kv_cache_group_id m < 2 ^ 32;
  mo_class : spec_manager_map (mgr_spec m) = Some (mgr_class m);
  mo_spec : spec_ok (mgr_spec m);
  mo_valid : forall rid p, p ∈ req_blocks m rid -> valid P p;
  mo_once : forall rid i, i ≠ 0%nat -> occ i (req_blocks m rid) <= 1;
  mo_prefix : forall rid j k, (j <= k)%nat -> req_blocks m rid !! k = Some (PBlk 0) ->
    req_blocks m rid !! j = Some (PBlk 0);
  mo_new : forall rid, num_cached_block m !! rid = None -> mgr_class m ≠ CrossAttentionManager ->
    req_blocks m rid = [];
  mo_cached : forall rid n, num_cached_block m !! rid = Some n -> 0 <= n <= zlen (req_blocks m rid);
  mo_tail : enable_caching P = true -> forall rid n j p,
    num_cached_block m !! rid = Some n -> n <= Z.of_nat j -> req_blocks m rid !! j = Some p ->
    exists i, p = PBlk i /\ i ≠ 0%nat /\ hashof P i = None
}.

(** A block without a hash has at most one user: only cached blocks are
    shared. *)
Definition unshared (P : BlockPool) : Prop :=
  forall i, i ≠ 0%nat -> hashof P i = None -> refc P i <= 1.

(** What one manager may rely on, and what one of its operations guarantees
    to the others: reference counts change exactly as its block tables do, and
    an unhashed block somebody else uses keeps having no hash. *)
Record mgr_pre (P : BlockPool) (l : list nat) (m : SingleTypeKVCacheManager) : Prop := mkMgrPre {
  mp_pool : pool_inv P l;
  mp_ok : mgr_ok P m;
  mp_unshared : unshared P;
  mp_refs : forall i, i ≠ 0%nat -> mrefs m i <= refc P i
}.

Record mgr_step (P : BlockPool) (m : SingleTypeKVCacheManager) (P' : BlockPool) (l' : list nat)
  (m' : SingleTypeKVCacheManager) : Prop := mkMgrStep {
  ms_pool : pool_inv P' l';
  ms_config : same_config P P';
  ms_ok : mgr_ok P' m';
  ms_unshared : unshared P';
  ms_refs : forall i, i ≠ 0%nat -> refc P' i = refc P i + mrefs m' i - mrefs m i;
  ms_frame : forall i, i ≠ 0%nat -> hashof P i = None -> mrefs m i < refc P i -> hashof P' i = None
}.

(** The well-formedness of a manager only depends on the hashes of the blocks
    in its tables. *)
Lemma mgr_ok_frame P P' m :
  mgr_ok P m -> same_config P P' ->
  (forall i, i ≠ 0%nat -> 0 < mrefs m i -> hashof P i = None -> hashof P' i = None) -> mgr_ok P' m.
Proof.
  intros [] (S1 & S2 & _) HF. split; try done.
  - intros rid p Hp. destruct (mo_valid0 rid p Hp) as (i & -> & ?). exists i. by rewrite S1.
  - intros Hc rid n j p Hn Hj Hp. destruct (mo_tail0 ltac:(congruence) rid n j p Hn Hj Hp) as (i & -> & Hi & Hh).
    exists i. split; [done|]. split; [done|]. apply HF; [done| |done].
    pose proof (occ_le_mrefs rid m i). apply list_elem_of_lookup_2, occ_pos in Hp. lia.
Qed.

Lemma refc_bump_ge f P P' i :
  bump f P P' -> pool_core P -> i ≠ 0%nat -> (f i = 0 \/ (i < Z.to_nat (num_gpu_blocks P))%nat) ->
  refc P' i = refc P i + f i.
Proof.
  intros HB HC Hi [Hf|Hlt].
  - destruct (bd P i) as [x|] eqn:E.
    + rewrite (bump_refc _ _ _ _ HB); [done|by rewrite E].
    + destruct HB as (_ & _ & _ & B). unfold refc. rewrite B, E. cbn. lia.
  - apply (bump_refc _ _ _ _ HB). by apply HC.
Qed.

(** ** Removing skipped blocks *)

(** The loop turns a segment of the table that ends at [n] into null blocks;
    the block before the segment, if any, was null already. *)
Lemma remove_skipped_loop_spec null n blocks removed :
  (n <= length blocks)%nat ->
  exists k, (k <= n)%nat /\
    remove_skipped_loop null n blocks removed =
      Ok (take k blocks ++ replicate (n - k) null ++ drop n blocks,
          removed ++ reverse (take (n - k) (drop k blocks))) /\
    null ∉ take (n - k) (drop k blocks) /\
    (k = 0%nat \/ blocks !! (k - 1)%nat = Some null).
Proof.
  revert blocks removed. induction n as [|i IH]; intros blocks removed Hn.
  { exists 0%nat. cbn. rewrite app_nil_r. split; [lia|]. split; [done|]. split; [apply not_elem_of_nil|by left]. }
  cbn [remove_skipped_loop]. unfold pyindex.
  replace (Z.of_nat i <? 0) with false by (symmetry; apply Z.ltb_ge; lia).
  cbv zeta. replace (Z.of_nat i <? 0) with false by (symmetry; apply Z.ltb_ge; lia). rewrite Nat2Z.id.
  destruct (blocks !! i) as [p|] eqn:Hp; [|apply lookup_ge_None in Hp; lia].
  cbn [get_or mbind result_bind]. destruct (decide (p = null)) as [->|Hne].
  - exists (S i). rewrite Nat.sub_diag. cbn [replicate app].
    rewrite take_drop, app_nil_r. cbn. rewrite Nat.sub_0_r.
    split; [lia|]. split; [done|]. split; [apply not_elem_of_nil|by right].
  - destruct (IH (<[i := null]> blocks) (removed ++ [p])) as (k & Hk & E & Hnn & Hprev).
    { rewrite length_insert. lia. }
    exists k. split; [lia|]. rewrite E.
    assert (Hmid : forall j, (j <= i)%nat -> take (i - j) (drop j (<[i := null]> blocks)) = take (i - j) (drop j blocks)).
    { intros j Hj.
      apply list_eq. intros x. destruct (decide (x < i - j)%nat).
      - rewrite !lookup_take_lt, !lookup_drop, list_lookup_insert_ne by lia. done.
      - rewrite !lookup_take_ge by lia. done. }
    rewrite Hmid in E, Hnn by done. rewrite Hmid by done.
    assert (Hseg : take (S i - k) (drop k blocks) = take (i - k) (drop k blocks) ++ [p]).
    { replace (S i - k)%nat with (S (i - k)) by lia. apply take_S_r. rewrite lookup_drop.
      by replace (k + (i - k))%nat with i by lia. }
    rewrite Hseg. split; [|split].
    + f_equal. f_equal.
      * rewrite (take_insert_ge _ k i) by lia. f_equal.
        replace (S i - k)%nat with ((i - k) + 1)%nat by lia.
        rewrite replicate_add, <-app_assoc. f_equal. cbn.
        rewrite <-(take_drop i (<[i := null]> blocks)) at 1.
        rewrite drop_app_length' by (rewrite length_take, length_insert; lia).
        rewrite (drop_S (<[i := null]> blocks) null) by (by rewrite list_lookup_insert_eq by lia).
        f_equal. apply drop_insert_lt. lia.
      * rewrite reverse_app, <-app_assoc. done.
    + rewrite elem_of_app, list_elem_of_singleton. intros [?|?]; [done|congruence].
    + destruct Hprev as [->|Hprev]; [by left|]. destruct (decide (k = 0%nat)); [by left|]. right.
      by rewrite list_lookup_insert_ne in Hprev by lia.
Qed.

(** Giving references back: the block table loses the entries [ps]. *)
Lemma mgr_release P l m ps m' :
  mgr_pre P l m -> (forall p, p ∈ ps -> valid P p) ->
  (forall i, i ≠ 0%nat -> occ i ps <= 1 /\ mrefs m' i = mrefs m i - occ i ps) ->
  (forall P', same_config P P' -> (forall i, hashof P' i = hashof P i) -> mgr_ok P' m') ->
  exists P', free_blocks ps P = Ok P' /\ mgr_step P m P' (l ++ freed_ids P ps) m' /\
    (forall i, hashof P' i = hashof P i).
Proof.
  intros [HI Hok Hun Href] Hv Hocc Hok'.
  destruct (free_blocks_step P l ps HI Hv) as (P' & E & HI' & HB).
  { intros i Hi. destruct (Hocc i Hi). pose proof (mrefs_nonneg m' i). specialize (Href i Hi). lia. }
  assert (Hh : forall i, hashof P' i = hashof P i) by (intros i; apply (bump_hashof _ _ _ _ HB)).
  assert (Hr : forall i, i ≠ 0%nat -> refc P' i = refc P i - occ i ps).
  { intros i Hi. rewrite (refc_bump_ge _ _ _ i HB (pi_core _ _ HI) Hi); [lia|].
    destruct (decide (PBlk i ∈ ps)) as [Hin|Hin]; [right|left; rewrite occ_zero by done; lia].
    by destruct (Hv _ Hin) as (? & [= ->] & ?). }
  exists P'. split; [done|]. split; [|done]. split; try done.
  - apply HB.
  - apply Hok'; [apply HB|done].
  - intros i Hi. rewrite Hh, Hr by done. intros Hn. specialize (Hun i Hi Hn). pose proof (occ_nonneg i ps). lia.
  - intros i Hi. rewrite Hr by done. destruct (Hocc i Hi) as [_ ->]. lia.
  - intros i _ Hn _. by rewrite Hh.
Qed.

Lemma occ_replicate_null i n : i ≠ 0%nat -> occ i (replicate n (PBlk 0)) = 0.
Proof. intros Hi. induction n; cbn; [done|]. rewrite decide_False by congruence. lia. Qed.

Lemma occ_take_drop i n bs : occ i (take n bs) + occ i (drop n bs) = occ i bs.
Proof. by rewrite <-occ_app, take_drop. Qed.

(** A table whose first [n] entries are replaced by the null block. *)
Definition nulled (n : nat) (bs : list bptr) : list bptr := replicate n (PBlk 0) ++ drop n bs.

Lemma nulled_lookup n bs j :
  (n <= length bs)%nat -> nulled n bs !! j = if decide (j < n)%nat then Some (PBlk 0) else bs !! j.
Proof.
  intros Hn. unfold nulled. destruct (decide (j < n)%nat).
  - rewrite lookup_app_l by (rewrite length_replicate; lia). by apply lookup_replicate_2.
  - rewrite lookup_app_r by (rewrite length_replicate; lia). rewrite length_replicate, lookup_drop. f_equal. lia.
Qed.

Lemma nulled_after n bs j : (n <= j)%nat -> nulled n bs !! j = bs !! j.
Proof. intros Hj. unfold nulled. rewrite lookup_app_r by (rewrite length_replicate; lia). rewrite length_replicate, lookup_drop. f_equal. lia. Qed.

Lemma nulled_length n bs : (n <= length bs)%nat -> length (nulled n bs) = length bs.
Proof. intros Hn. unfold nulled. rewrite length_app, length_replicate, length_drop. lia. Qed.

Lemma mgr_ok_nulled P m rid n :
  mgr_ok P m -> (n <= length (req_blocks m rid))%nat -> 0 < num_gpu_blocks P ->
  (enable_caching P = true -> forall c, num_cached_block m !! rid = Some c -> Z.of_nat n <= c) ->
  mgr_ok P (set_req_blocks rid (nulled n (req_blocks m rid)) m).
Proof.
  intros [] Hn HP Hc. split; try done.
  - intros rid' p. rewrite req_blocks_set. destruct (decide (rid = rid')) as [<-|]; [|apply mo_valid0].
    unfold nulled. rewrite elem_of_app. intros [[-> _]%elem_of_replicate|Hp].
    + exists 0%nat. split; [done|lia].
    + apply (mo_valid0 rid). by apply subseteq_drop in Hp.
  - intros rid' i Hi. rewrite req_blocks_set. destruct (decide (rid = rid')) as [<-|]; [|by apply mo_once0].
    unfold nulled. rewrite occ_app, occ_replicate_null by done.
    pose proof (occ_take_drop i n (req_blocks m rid)). pose proof (occ_nonneg i (take n (req_blocks m rid))).
    specialize (mo_once0 rid i Hi). lia.
  - intros rid' j k. rewrite req_blocks_set. destruct (decide (rid = rid')) as [<-|]; [|by apply mo_prefix0].
    rewrite !nulled_lookup by done. intros Hjk Hk.
    destruct (decide (j < n)%nat); [done|]. rewrite decide_False in Hk by lia. by eapply mo_prefix0.
  - intros rid' Hnc Hcl. rewrite req_blocks_set. destruct (decide (rid = rid')) as [<-|]; [|by apply mo_new0].
    rewrite (mo_new0 rid Hnc Hcl) in Hn |- *. by destruct n; [|cbn in Hn; lia].
  - intros rid' c. rewrite req_blocks_set. cbn. destruct (decide (rid = rid')) as [<-|]; [|by apply mo_cached0].
    unfold zlen. rewrite nulled_length by done. apply mo_cached0.
  - intros He rid' c j p Hnc Hj. rewrite req_blocks_set.
    destruct (decide (rid = rid')) as [<-|]; [|by apply (mo_tail0 He _ c)].
    rewrite nulled_lookup by done. cbn in Hnc. specialize (Hc He c Hnc).
    rewrite decide_False by lia. by apply (mo_tail0 He _ c).
Qed.

Lemma null_prefix P m rid k :
  mgr_ok P m -> (k = 0%nat \/ req_blocks m rid !! (k - 1)%nat = Some (PBlk 0)) ->
  take k (req_blocks m rid) = replicate (min k (length (req_blocks m rid))) (PBlk 0).
Proof.
  intros Hok [->|Hk]; [done|]. apply list_eq. intros j.
  assert (k - 1 < length (req_blocks m rid))%nat by (by eapply lookup_lt_Some).
  destruct (decide (j < k)%nat).
  - rewrite lookup_take_lt, lookup_replicate_2 by lia. apply (mo_prefix _ _ Hok rid j (k - 1)); [lia|done].
  - rewrite lookup_take_ge by lia. symmetry. apply lookup_replicate_None. lia.
Qed.

(** Removing the blocks before [n] frees exactly the non-null ones, last
    first, and leaves null blocks in their place. *)
Lemma remove_skipped_until_step P l m rid n :
  mgr_pre P l m -> n <= zlen (req_blocks m rid) ->
  (enable_caching P = true -> forall c, num_cached_block m !! rid = Some c -> n <= c) ->
  exists P' l', remove_skipped_until rid n m P =
      Ok (set_req_blocks rid (nulled (Z.to_nat n) (req_blocks m rid)) m, P') /\
    mgr_step P m P' l' (set_req_blocks rid (nulled (Z.to_nat n) (req_blocks m rid)) m) /\
    (forall i, hashof P' i = hashof P i) /\ zlen l <= zlen l'.
Proof.
  intros Hpre Hn Hc. unfold remove_skipped_until. set (bs := req_blocks m rid) in *.
  pose proof (mp_pool _ _ _ Hpre) as HI. pose proof (mp_ok _ _ _ Hpre) as Hok.
  assert (Hn' : (Z.to_nat n <= length bs)%nat) by (unfold zlen in Hn; lia).
  rewrite (pc_null _ (pi_core _ _ HI)).
  destruct (remove_skipped_loop_spec (PBlk 0) (Z.to_nat n) bs [] Hn') as (k & Hk & -> & Hnn & Hprev).
  cbn [mbind result_bind app].
  assert (Htk : take k bs = replicate k (PBlk 0)).
  { unfold bs. rewrite (null_prefix P m rid k Hok Hprev). f_equal. fold bs. lia. }
  rewrite Htk.
  rewrite app_assoc, <-replicate_add. replace (k + (Z.to_nat n - k))%nat with (Z.to_nat n) by lia.
  fold (nulled (Z.to_nat n) bs). set (ps := reverse _).
  assert (Hps : forall i, i ≠ 0%nat -> occ i ps = occ i bs - occ i (nulled (Z.to_nat n) bs)).
  { intros i Hi. unfold ps, nulled. rewrite occ_rev, occ_app, occ_replicate_null by done.
    rewrite <-(occ_take_drop i (Z.to_nat n) bs).
    rewrite <-(occ_take_drop i k (take (Z.to_nat n) bs)).
    rewrite take_take, Nat.min_l, Htk by lia.
    rewrite occ_replicate_null by done. rewrite take_drop_commute.
    replace (k + (Z.to_nat n - k))%nat with (Z.to_nat n) by lia. lia. }
  destruct (mgr_release P l m ps (set_req_blocks rid (nulled (Z.to_nat n) bs) m) Hpre) as (P' & -> & Hstep & Hh).
  - intros p Hp. apply (mo_valid _ _ Hok rid). unfold ps in Hp. rewrite elem_of_reverse in Hp.
    by apply subseteq_take, subseteq_drop in Hp.
  - intros i Hi. rewrite mrefs_set. rewrite Hps by done. pose proof (mo_once _ _ Hok rid i Hi).
    pose proof (occ_nonneg i (nulled (Z.to_nat n) bs)). fold bs in H |- *. lia.
  - intros P' (S1 & S2 & S3) Hh. apply mgr_ok_nulled.
    + eapply mgr_ok_frame; [done|done|]. intros i _ _. by rewrite Hh.
    + done.
    + rewrite S1. apply (pi_core _ _ HI).
    + intros He c Hcc. rewrite S2 in He. specialize (Hc He c Hcc).
      pose proof (mo_cached _ _ Hok _ _ Hcc). lia.
  - cbn [mbind result_bind]. eexists P', _. split; [done|]. split; [done|]. split; [done|].
    rewrite zlen_app. pose proof (zlen_nonneg (freed_ids P ps)). lia.
Qed.

(** The parts of a manager its operations leave alone. *)
Definition mgr_same (m m' : SingleTypeKVCacheManager) : Prop :=
  mgr_class m' = mgr_class m /\ mgr_block_size m' = mgr_block_size m /\ mgr_spec m' = mgr_spec m /\
  kv_cache_group_id m' = kv_cache_group_id m.

(** Only the entry of request [rid] differs. *)
Definition other_reqs (rid : string) (m m' : SingleTypeKVCacheManager) : Prop :=
  mgr_same m m' /\ forall rid', rid ≠ rid' -> req_blocks m' rid' = req_blocks m rid' /\
    num_cached_block m' !! rid' = num_cached_block m !! rid'.

#[export] Instance other_reqs_preorder rid : PreOrder (other_reqs rid).
Proof.
  unfold other_reqs, mgr_same. split; [done|]. intros m1 m2 m3 [S1 O1] [S2 O2].
  split; [naive_solver congruence|]. intros rid' Hne. destruct (O1 rid' Hne), (O2 rid' Hne). split; congruence.
Qed.

Lemma other_reqs_set rid bs m : other_reqs rid m (set_req_blocks rid bs m).
Proof. split; [done|]. intros rid' Hne. rewrite req_blocks_set, decide_False by done. done. Qed.

(** The number of leading blocks [remove_skipped_blocks] clears. *)
Definition skip_until (m : SingleTypeKVCacheManager) (rid : string) (num_computed_tokens : Z) : Z :=
  match mgr_spec m with
  | SlidingWindowSpec _ _ w => sw_first_useful_block w (mgr_block_size m) num_computed_tokens
  | ChunkedLocalAttentionSpec _ _ c =>
      chunk_first_useful_block c (mgr_block_size m) (default 0 (num_cached_block m !! rid)) num_computed_tokens
  | _ => 0
  end.

(** The computed tokens of a request fit its blocks, and all its full
    computed blocks are cached when prefix caching is on. *)
Definition computed_ok (P : BlockPool) (m : SingleTypeKVCacheManager) (rid : string) (nct : Z) : Prop :=
  0 <= nct <= mgr_block_size m * zlen (req_blocks m rid) /\
  (enable_caching P = true -> forall c, num_cached_block m !! rid = Some c -> nct < mgr_block_size m * (c + 1)).

Lemma skip_until_le P m rid nct :
  mgr_ok P m -> computed_ok P m rid nct ->
  skip_until m rid nct <= nct / mgr_block_size m /\ nct / mgr_block_size m <= zlen (req_blocks m rid) /\
  (enable_caching P = true -> forall c, num_cached_block m !! rid = Some c -> skip_until m rid nct <= c).
Proof.
  intros Hok [Hct Hca]. pose proof (mo_bs _ _ Hok) as Hbs. pose proof (mo_spec _ _ Hok) as Hsp.
  assert (Hdiv : nct / mgr_block_size m <= zlen (req_blocks m rid)) by (apply Z.div_le_upper_bound; lia).
  assert (Hskip : skip_until m rid nct <= nct / mgr_block_size m).
  { assert (H0 : 0 <= nct / mgr_block_size m) by (apply Z.div_pos; lia).
    unfold skip_until. destruct (mgr_spec m); try done; cbn in Hsp.
    - assert (nct / attention_chunk_size * attention_chunk_size <= nct).
      { rewrite Z.mul_comm. by apply Z.mul_div_le. }
      assert (nct / attention_chunk_size * attention_chunk_size / mgr_block_size m <= nct / mgr_block_size m)
        by (by apply Z.div_le_mono).
      unfold chunk_first_useful_block. destruct (0 <? _); lia.
    - apply Z.div_le_mono; lia. }
  split; [done|]. split; [done|]. intros He c Hc. specialize (Hca He c Hc).
  assert (nct / mgr_block_size m < c + 1) by (apply Z.div_lt_upper_bound; lia). lia.
Qed.

Lemma remove_skipped_blocks_step P l m rid nct :
  mgr_pre P l m -> computed_ok P m rid nct ->
  exists P' l' m', remove_skipped_blocks rid nct m P = Ok (m', P') /\ mgr_step P m P' l' m' /\
    (forall i, hashof P' i = hashof P i) /\ zlen l <= zlen l' /\ other_reqs rid m m' /\
    num_cached_block m' = num_cached_block m /\
    req_blocks m' rid = nulled (Z.to_nat (skip_until m rid nct)) (req_blocks m rid).
Proof.
  intros Hpre Hct. pose proof (mp_ok _ _ _ Hpre) as Hok.
  destruct (skip_until_le P m rid nct Hok Hct) as (Hs1 & Hs2 & Hs3).
  assert (Hid : mgr_step P m P l m).
  { destruct Hpre. split; try done. intros. lia. }
  assert (Hrun : exists P' l' m', remove_skipped_until rid (skip_until m rid nct) m P = Ok (m', P') /\
    mgr_step P m P' l' m' /\ (forall i, hashof P' i = hashof P i) /\ zlen l <= zlen l' /\ other_reqs rid m m' /\
    num_cached_block m' = num_cached_block m /\
    req_blocks m' rid = nulled (Z.to_nat (skip_until m rid nct)) (req_blocks m rid)).
  { destruct (remove_skipped_until_step P l m rid (skip_until m rid nct) Hpre) as (P' & l' & E & Hst & Hh & Hl);
      [lia|done|]. eexists P', l', _. split; [done|]. split; [done|]. split; [done|]. split; [done|].
    split; [apply other_reqs_set|]. split; [done|]. by rewrite req_blocks_set, decide_True. }
  pose proof (mo_class _ _ Hok) as Hcl. unfold skip_until in *. unfold remove_skipped_blocks.
  destruct (mgr_spec m); cbn in Hcl; try discriminate Hcl; injection Hcl as Hcl; rewrite <-Hcl;
    cbn [spec_sliding_window spec_chunk_size mbind result_bind];
    try exact Hrun;
    (exists P, l, m; split; [done|]; split; [exact Hid|]; split; [done|]; split; [lia|];
     split; [reflexivity|]; by split).
Qed.

(** ** Releasing a request *)

Lemma mgr_ok_pop P m rid : mgr_ok P m -> mgr_ok P (pop_req rid m).
Proof.
  intros []. split; try done; cbn.
  - intros rid' p. rewrite req_blocks_pop. destruct (decide (rid = rid')); [by intros ?%elem_of_nil|apply mo_valid0].
  - intros rid' i. rewrite req_blocks_pop. destruct (decide (rid = rid')); [by cbn|apply mo_once0].
  - intros rid' j k. rewrite req_blocks_pop. destruct (decide (rid = rid')); [by rewrite !lookup_nil|apply mo_prefix0].
  - intros rid'. rewrite req_blocks_pop, lookup_delete. destruct (decide (rid = rid')); [done|apply mo_new0].
  - intros rid' n. rewrite req_blocks_pop, lookup_delete. destruct (decide (rid = rid')); [done|apply mo_cached0].
  - intros He rid' n j p. rewrite req_blocks_pop, lookup_delete. destruct (decide (rid = rid')); [done|by apply mo_tail0].
Qed.

Lemma other_reqs_pop rid m : other_reqs rid m (pop_req rid m).
Proof.
  split; [done|]. intros rid' Hne. rewrite req_blocks_pop, decide_False by done. cbn.
  by rewrite lookup_delete_ne.
Qed.

Lemma free_step P l m rid :
  mgr_pre P l m ->
  exists P' l', free rid m P = Ok (pop_req rid m, P') /\ mgr_step P m P' l' (pop_req rid m) /\
    (forall i, hashof P' i = hashof P i) /\ l' = l ++ freed_ids P (reverse (req_blocks m rid)).
Proof.
  intros Hpre. unfold free. pose proof (mp_ok _ _ _ Hpre) as Hok.
  destruct (mgr_release P l m (reverse (req_blocks m rid)) (pop_req rid m) Hpre) as (P' & -> & Hst & Hh).
  - intros p. rewrite elem_of_reverse. apply (mo_valid _ _ Hok).
  - intros i Hi. rewrite occ_rev, mrefs_pop. split; [|done]. by apply (mo_once _ _ Hok).
  - intros P' HS Hh. apply mgr_ok_pop. eapply mgr_ok_frame; [done|done|]. intros i _ _. by rewrite Hh.
  - cbn [mbind result_bind]. by eexists P', _.
Qed.

(** ** Allocating *)

Lemma occ_ids (ids : list nat) i : NoDup ids -> occ i (PBlk <$> ids) = if decide (i ∈ ids) then 1 else 0.
Proof.
  induction 1 as [|j ids Hj Hnd IH]; cbn.
  - rewrite decide_False; [done|]. apply not_elem_of_nil.
  - rewrite IH. destruct (decide (j = i)) as [->|Hne].
    + rewrite decide_True by done. rewrite decide_False by done.
      rewrite decide_True by (rewrite elem_of_cons; by left). done.
    + rewrite decide_False by congruence. destruct (decide (i ∈ ids)).
      * rewrite decide_True by (rewrite elem_of_cons; by right). done.
      * rewrite decide_False; [done|]. rewrite elem_of_cons. naive_solver.
Qed.

Lemma elem_of_ids (ids : list nat) i : PBlk i ∈ PBlk <$> ids <-> i ∈ ids.
Proof. rewrite list_elem_of_fmap. naive_solver. Qed.

(** Appending freshly allocated blocks to a table. *)
Lemma mgr_ok_append P m rid ids :
  mgr_ok P m -> NoDup ids ->
  (forall i, i ∈ ids -> i ≠ 0%nat /\ (i < Z.to_nat (num_gpu_blocks P))%nat /\ hashof P i = None /\ mrefs m i = 0) ->
  (is_Some (num_cached_block m !! rid) \/ mgr_class m = CrossAttentionManager) ->
  mgr_ok P (set_req_blocks rid (req_blocks m rid ++ (PBlk <$> ids)) m).
Proof.
  intros [] Hnd Hids Hnc. split; try done; cbn.
  - intros rid' p. rewrite req_blocks_set. destruct (decide (rid = rid')) as [<-|]; [|apply mo_valid0].
    rewrite elem_of_app. intros [?|(i & -> & Hi)%list_elem_of_fmap]; [by eapply mo_valid0|].
    exists i. split; [done|]. by apply Hids.
  - intros rid' i Hi. rewrite req_blocks_set. destruct (decide (rid = rid')) as [<-|]; [|by apply mo_once0].
    rewrite occ_app, occ_ids by done. specialize (mo_once0 rid i Hi).
    destruct (decide (i ∈ ids)) as [Hin|]; [|lia].
    pose proof (occ_le_mrefs rid m i). pose proof (occ_nonneg i (req_blocks m rid)).
    destruct (Hids i Hin) as (_ & _ & _ & ?). lia.
  - intros rid' j k Hjk. rewrite req_blocks_set. destruct (decide (rid = rid')) as [<-|]; [|by apply mo_prefix0].
    intros [Hk|[Hk Hk']]%lookup_app_Some.
    + rewrite lookup_app_l; [by eapply mo_prefix0|]. apply lookup_lt_Some in Hk. lia.
    + apply list_elem_of_lookup_2, elem_of_ids in Hk'. by destruct (Hids 0%nat Hk').
  - intros rid' H1 H2. rewrite req_blocks_set. destruct (decide (rid = rid')) as [<-|]; [|by apply mo_new0].
    destruct Hnc as [[? ?]|?]; [congruence|done].
  - intros rid' n Hn. rewrite req_blocks_set. destruct (decide (rid = rid')) as [<-|]; [|by apply mo_cached0].
    rewrite zlen_app. pose proof (zlen_nonneg (PBlk <$> ids)). specialize (mo_cached0 rid n Hn). lia.
  - intros He rid' n j p Hn Hj. rewrite req_blocks_set.
    destruct (decide (rid = rid')) as [<-|]; [|by apply (mo_tail0 He rid' n)].
    intros [Hp|[Hle Hp]]%lookup_app_Some; [by apply (mo_tail0 He rid n j)|].
    apply list_elem_of_lookup_2, list_elem_of_fmap in Hp as (i & -> & Hi).
    exists i. split; [done|]. by destruct (Hids i Hi) as (? & _ & ? & _).
Qed.

(** How many blocks [allocate_new_blocks] takes from the pool. *)
Definition blocks_short (m : SingleTypeKVCacheManager) (rid : string) (num_tokens : Z) : Z :=
  cdiv num_tokens (mgr_block_size m) - zlen (req_blocks m rid).

(** A block that one table has, once. *)
Definition sole (P : BlockPool) (p : bptr) : Prop := exists i, p = PBlk i /\ i ≠ 0%nat /\ refc P i = 1.

Lemma allocate_new_blocks_step P l m rid nt nt' :
  mgr_pre P l m -> mamba_tokens m nt = Ok nt' ->
  Z.max 0 (blocks_short m rid nt') <= zlen l ->
  (is_Some (num_cached_block m !! rid) \/ mgr_class m = CrossAttentionManager) ->
  exists P' l' m' news, allocate_new_blocks rid nt m P = Ok (news, m', P') /\ mgr_step P m P' l' m' /\
    zlen l' = zlen l - Z.max 0 (blocks_short m rid nt') /\ other_reqs rid m m' /\
    num_cached_block m' = num_cached_block m /\ req_blocks m' rid = req_blocks m rid ++ news /\
    zlen news = Z.max 0 (blocks_short m rid nt') /\
    (forall i, i ≠ 0%nat -> 0 < refc P i -> hashof P' i = hashof P i /\ refc P' i = refc P i) /\ Forall (sole P') news.
Proof.
  intros Hpre Hnt Hl Hnc. destruct Hpre as [HI Hok Hun Href]. unfold allocate_new_blocks. rewrite Hnt.
  cbn [mbind result_bind]. fold (blocks_short m rid nt').
  destruct (Z.leb_spec (blocks_short m rid nt') 0) as [Hle|Hgt].
  { exists P, l, m, []. split; [done|]. split; [by split; try done; intros; lia|].
    split; [lia|]. split; [done|]. split; [done|]. rewrite app_nil_r. split; [done|]. split; [by rewrite Z.max_l by lia|]. done. }
  destruct (get_new_blocks_step P l (blocks_short m rid nt') HI ltac:(lia)) as (P' & E & HI' & HT).
  rewrite E. cbn [mbind result_bind]. set (ids := take _ l) in *.
  assert (Hnd : NoDup ids).
  { eapply sublist_NoDup; [apply (iq_nodup _ _ (pi_queue _ _ HI))|]. apply sublist_take. }
  assert (Hids : forall i, i ∈ ids -> i ≠ 0%nat /\ (i < Z.to_nat (num_gpu_blocks P))%nat /\ refc P i = 0).
  { intros i Hi%subseteq_take. pose proof (pool_free_valid _ _ _ HI Hi) as Hv.
    apply (pi_free _ _ HI) in Hi; [|done]. naive_solver. }
  assert (Hh : forall i, hashof P' i = if decide (i ∈ ids) then None else hashof P i).
  { intros i. rewrite (hashof_taken _ _ _ _ _ HT).
    destruct (decide (i ∈ ids)) as [Hi|Hi]; [rewrite decide_True by (by apply elem_of_ids)|
      rewrite decide_False by (by rewrite elem_of_ids)]; done. }
  assert (Hr : forall i, refc P' i = refc P i + occ i (PBlk <$> ids)).
  { intros i. rewrite occ_ids by done. destruct HT as (_ & B & _). unfold refc at 1. rewrite B.
    destruct (decide (i ∈ ids)) as [Hi|Hi].
    - rewrite decide_True by (by apply elem_of_ids). destruct (Hids i Hi) as (_ & Hv & ->).
      apply (pc_dom _ (pi_core _ _ HI)) in Hv as [[[[? ?] ?] ?] ->]. done.
    - rewrite decide_False by (by rewrite elem_of_ids). unfold refc. lia. }
  exists P', (drop (Z.to_nat (blocks_short m rid nt')) l), (set_req_blocks rid (req_blocks m rid ++ (PBlk <$> ids)) m), (PBlk <$> ids).
  split; [done|].
  assert (Hlen : zlen (PBlk <$> ids) = blocks_short m rid nt').
  { unfold zlen in *. unfold ids. rewrite length_fmap, length_take. lia. }
  split; [split|].
  - done.
  - apply HT.
  - apply mgr_ok_append; [|done| |done].
    + eapply mgr_ok_frame; [done|apply HT|]. intros i _ _ Hn. rewrite Hh. by destruct (decide _).
    + intros i Hi. destruct (Hids i Hi) as (H1 & H2 & H3). split; [done|]. split.
      * destruct HT as ((-> & _) & _). done.
      * rewrite Hh, decide_True by done. split; [done|]. specialize (Href i H1).
        pose proof (mrefs_nonneg m i). lia.
  - intros i Hi. rewrite Hh, Hr, occ_ids by done. destruct (decide (i ∈ ids)) as [Hin|].
    + destruct (Hids i Hin) as (_ & _ & ->). lia.
    + intros Hn. specialize (Hun i Hi Hn). lia.
  - intros i Hi. rewrite mrefs_set, occ_app, Hr. lia.
  - intros i Hi Hn _. rewrite Hh. by destruct (decide _).
  - split; [unfold zlen in *; rewrite length_drop; lia|].
    split; [apply other_reqs_set|]. split; [done|]. split; [by rewrite req_blocks_set, decide_True|].
    split; [lia|]. split.
    + intros i Hi Hpos. assert (Hni : i ∉ ids) by (intros Hin; destruct (Hids i Hin) as (_ & _ & ?); lia).
      rewrite Hr, occ_ids, Hh, !decide_False by done. split; [done|lia].
    + apply Forall_fmap, Forall_forall. intros i Hin. exists i. destruct (Hids i Hin) as (H1 & _ & H3). rewrite Hr, occ_ids, decide_True by done. split_and!; [done|done|lia].
Qed.

(** ** Caching full blocks *)

Lemma occ_two_requests rid rid' m i :
  rid ≠ rid' -> occ i (req_blocks m rid) + occ i (req_blocks m rid') <= mrefs m i.
Proof.
  intros Hne. unfold mrefs. rewrite (fold_occ_delete i rid), (fold_occ_delete i rid' (delete rid _)).
  rewrite lookup_delete_ne by done. unfold req_blocks.
  pose proof (fold_occ_nonneg i (delete rid' (delete rid (req_to_blocks m)))). lia.
Qed.

Lemma occ_once_lookup (i j k : nat) bs :
  occ i bs <= 1 -> bs !! j = Some (PBlk i) -> bs !! k = Some (PBlk i) -> j = k.
Proof.
  revert j k. induction bs as [|p bs IH]; intros j k Ho Hj Hk; [by rewrite lookup_nil in Hj|].
  cbn in Ho. destruct j as [|j], k as [|k]; cbn in Hj, Hk; try done.
  - injection Hj as ->. rewrite decide_True in Ho by done.
    apply list_elem_of_lookup_2, occ_pos in Hk. lia.
  - injection Hk as ->. rewrite decide_True in Ho by done.
    apply list_elem_of_lookup_2, occ_pos in Hj. lia.
  - f_equal. apply IH; try done. destruct (decide (p = PBlk i)); lia.
Qed.

Lemma occ_once_NoDup bs :
  (forall i, PBlk i ∈ bs -> occ i bs <= 1) -> (forall p, p ∈ bs -> exists i, p = PBlk i) -> NoDup bs.
Proof.
  intros Ho Hb. apply NoDup_alt. intros j k p Hj Hk.
  destruct (Hb p) as [i ->]; [by eapply list_elem_of_lookup_2|].
  apply (occ_once_lookup i j k bs); [|done|done]. apply Ho. by eapply list_elem_of_lookup_2.
Qed.

Lemma occ_sub_le i n k bs : occ i (take n (drop k bs)) <= occ i bs.
Proof.
  pose proof (occ_take_drop i k bs). pose proof (occ_take_drop i n (drop k bs)).
  pose proof (occ_nonneg i (take k bs)). pose proof (occ_nonneg i (drop n (drop k bs))). lia.
Qed.

Lemma lookup_segment {A} (bs : list A) (c n : nat) p :
  p ∈ take n (drop c bs) <-> exists j, (c <= j < c + n)%nat /\ bs !! j = Some p.
Proof.
  rewrite list_elem_of_lookup. split.
  - intros [x Hx]. apply lookup_take_Some in Hx as [Hx Hlt]. rewrite lookup_drop in Hx.
    exists (c + x)%nat. split; [lia|done].
  - intros (j & Hj & Hb). exists (j - c)%nat. rewrite lookup_take_lt, lookup_drop by lia.
    by replace (c + (j - c))%nat with j by lia.
Qed.

Section cache_step.
Context (P : BlockPool) (l : list nat) (m : SingleTypeKVCacheManager) (r : Request) (c nf : nat).
Let rid := request_id r.
Let bs := req_blocks m rid.
Let news := take (nf - c) (drop c bs).
Hypothesis Hpre : mgr_pre P l m.
Hypothesis Hcaching : enable_caching P = true.
Hypothesis Hcached : num_cached_block m !! rid = Some (Z.of_nat c).

Lemma news_fresh p : p ∈ news ->
  exists i, p = PBlk i /\ i ≠ 0%nat /\ hashof P i = None /\ refc P i = 1 /\ mrefs m i = 1.
Proof.
  intros (j & Hj & Hp)%lookup_segment. destruct Hpre as [HI Hok Hun Href].
  destruct (mo_tail _ _ Hok Hcaching rid _ j p Hcached) as (i & -> & Hi & Hh); [lia|done|].
  exists i. split; [done|]. split; [done|]. split; [done|].
  specialize (Hun i Hi Hh). specialize (Href i Hi). pose proof (occ_le_mrefs rid m i).
  apply list_elem_of_lookup_2, occ_pos in Hp. fold bs in H. lia.
Qed.

Lemma news_other i rid' : PBlk i ∈ news -> rid ≠ rid' -> PBlk i ∉ req_blocks m rid'.
Proof.
  intros Hin Hne Hx. destruct (news_fresh _ Hin) as (? & [= <-] & _ & _ & _ & Hm).
  pose proof (occ_two_requests rid rid' m i Hne). apply occ_pos in Hx.
  apply lookup_segment in Hin as (j & _ & Hj%list_elem_of_lookup_2%occ_pos). fold bs in H. lia.
Qed.

Lemma news_NoDup : NoDup news.
Proof.
  apply occ_once_NoDup.
  - intros i Hi. destruct (news_fresh _ Hi) as (? & [= <-] & Hi0 & _).
    pose proof (mo_once _ _ (mp_ok _ _ _ Hpre) rid i Hi0). pose proof (occ_sub_le i (nf - c) c bs).
    unfold news. fold bs in H. lia.
  - intros p Hp. destruct (news_fresh _ Hp) as (i & -> & _). by exists i.
Qed.

Lemma filed_mgr_step P' keys :
  (c <= nf <= length bs)%nat -> pool_inv P' l -> filed news keys P P' ->
  mgr_step P m P' l (set_num_cached rid (Z.of_nat nf) m).
Proof.
  intros Hn HI' (HS & Hlen & Hr & Hold & Hnew). destruct Hpre as [HI Hok Hun Href].
  assert (Hh : forall i, hashof P' i = None -> hashof P i = None).
  { intros i Hi. destruct (decide (PBlk i ∈ news)) as [Hin|Hin]; [|by rewrite <-Hold].
    exfalso. apply list_elem_of_lookup in Hin as [j Hj]. rewrite (Hnew _ _ Hj) in Hi.
    apply lookup_ge_None in Hi. apply lookup_lt_Some in Hj. lia. }
  split; try done.
  - assert (Hok' := Hok). destruct Hok' as [? ? ? ? Hval ? ? Hnew' ? Htail]. destruct HS as (S1 & S2 & _).
    split; try done; cbn.
    + intros rid' p Hp. destruct (Hval rid' p Hp) as (i & -> & ?). exists i. by rewrite S1.
    + intros rid'. rewrite lookup_insert. destruct (decide (rid = rid')) as [<-|]; [done|apply Hnew'].
    + intros rid' n. rewrite lookup_insert. destruct (decide (rid = rid')) as [<-|].
      * intros [= <-]. fold bs. change (req_blocks (set_num_cached rid (Z.of_nat nf) m) rid) with bs.
        unfold zlen. lia.
      * apply (mo_cached _ _ Hok).
    + intros He rid' n j p. rewrite lookup_insert.
      change (req_blocks (set_num_cached rid (Z.of_nat nf) m) rid') with (req_blocks m rid').
      destruct (decide (rid = rid')) as [<-|Hne].
      * intros [= <-] Hj Hp. destruct (Htail Hcaching rid _ j p Hcached) as (i & -> & Hi & Hi'); [lia|done|].
        exists i. split; [done|]. split; [done|]. rewrite Hold; [done|].
        intros (k & Hk & Hk')%lookup_segment.
        pose proof (occ_once_lookup i j k bs (mo_once _ _ Hok rid i Hi) Hp Hk'). lia.
      * intros Hn' Hj Hp. destruct (Htail Hcaching rid' n j p Hn' Hj Hp) as (i & -> & Hi & Hi').
        exists i. split; [done|]. split; [done|]. rewrite Hold; [done|].
        intros Hin. apply (news_other i rid' Hin Hne). by eapply list_elem_of_lookup_2.
  - intros i Hi Hni. destruct (Hr i) as [-> _]. auto.
  - intros i Hi. destruct (Hr i) as [-> _].
    change (mrefs (set_num_cached rid (Z.of_nat nf) m) i) with (mrefs m i). lia.
  - intros i Hi Hni Hlt. rewrite Hold; [done|]. intros Hin.
    destruct (news_fresh _ Hin) as (? & [= <-] & _ & _ & ? & ?). lia.
Qed.
End cache_step.

Lemma cache_blocks_step P l m r nt (c : Z) :
  mgr_pre P l m -> enable_caching P = true -> enable_kv_cache_events P = false ->
  mgr_class m ≠ CrossAttentionManager -> num_cached_block m !! request_id r = Some c ->
  c <= nt / mgr_block_size m <= zlen (req_blocks m (request_id r)) ->
  nt / mgr_block_size m <= zlen (block_hashes r) ->
  exists P', cache_blocks r nt m P = Ok (set_num_cached (request_id r) (nt / mgr_block_size m) m, P') /\
    mgr_step P m P' l (set_num_cached (request_id r) (nt / mgr_block_size m) m) /\
    (forall (j i : nat), c <= Z.of_nat j < nt / mgr_block_size m ->
       req_blocks m (request_id r) !! j = Some (PBlk i) ->
       hashof P' i = hkey (kv_cache_group_id m) <$> block_hashes r !! j) /\
    (forall i h, hashof P i = Some h -> hashof P' i = Some h).
Proof.
  intros Hpre Hc Hev Hcl Hnc Hn Hh. pose proof (mp_ok _ _ _ Hpre) as Hok.
  destruct (mo_cached _ _ Hok _ _ Hnc) as [Hc0 _].
  rewrite <-(Z2Nat.id c) in Hnc by lia. set (cn := Z.to_nat c) in *.
  set (nf := Z.to_nat (nt / mgr_block_size m)).
  assert (Hnf : nt / mgr_block_size m = Z.of_nat nf) by (unfold nf; lia).
  assert (Hb : (cn <= nf <= length (req_blocks m (request_id r)))%nat) by (unfold cn, zlen in *; lia).
  unfold cache_blocks. rewrite Hnf, Hnc. unfold zlen in Hh.
  destruct (cache_full_blocks_step r (req_blocks m (request_id r)) cn nf (mgr_block_size m)
    (kv_cache_group_id m) P l (mp_pool _ _ _ Hpre) Hc (mo_gid _ _ Hok) Hb) as (P' & E & HI' & HF).
  - lia.
  - by eapply news_NoDup.
  - intros i Hi. by destruct (news_fresh P l m r cn nf Hpre Hc Hnc _ Hi) as (? & [= <-] & _ & ? & _).
  - intros p Hp. destruct (news_fresh P l m r cn nf Hpre Hc Hnc _ Hp) as (i & -> & Hi & _).
    split; [|congruence]. apply (mo_valid _ _ Hok (request_id r)).
    apply lookup_segment in Hp as (j & _ & Hj). by eapply list_elem_of_lookup_2.
  - intros He. congruence.
  - exists P'. cbn [get_or mbind result_bind]. rewrite E. split; [by destruct (mgr_class m)|].
    split; [by eapply filed_mgr_step|]. split; [|intros i h Hih; destruct HF as (_ & _ & _ & Hold & _);
      rewrite Hold; [done|intros Hin; destruct (news_fresh P l m r cn nf Hpre Hc Hnc _ Hin) as (? & [= <-] & _ & ? & _); congruence]].
    intros j i Hj Hi. destruct HF as (_ & _ & _ & _ & Hnew).
    rewrite (Hnew (j - cn)%nat i).
    + unfold keys_for. rewrite list_lookup_fmap, lookup_take_lt, lookup_drop by (unfold cn in *; lia).
      by replace (cn + (j - cn))%nat with j by (unfold cn in *; lia).
    + rewrite lookup_take_lt, lookup_drop by (unfold cn in *; lia).
      by replace (cn + (j - cn))%nat with j by (unfold cn in *; lia).
Qed.

(** * Prefix-cache hits *)

(** The blocks that hold hash [h], one for every group of [gids]; [None] when
    some group misses. *)
Definition hit_at (P : BlockPool) (gids : list Z) (h : BlockHash) : option (list bptr) :=
  if decide (Forall (fun g => cached_at P (hkey g h) ≠ []) gids)
  then Some (omap (fun g => head (cached_at P (hkey g h))) gids) else None.

Section hits.
Context (P : BlockPool) (gids : list Z).
Hypothesis HC : pool_core P.
Hypothesis Hg : Forall (fun g => 0 <= g < 2 ^ 32) gids.
Hypothesis Hne : gids ≠ [].

Lemma get_cached_hit h : get_cached_block P h gids = Ok (hit_at P gids h).
Proof. unfold get_cached_block. by rewrite get_cached_loop_spec. Qed.

Lemma hit_at_lookup h col k :
  hit_at P gids h = Some col ->
  length col = length gids /\
  forall g, gids !! k = Some g -> exists i, col !! k = Some (PBlk i) /\ hashof P i = Some (hkey g h) /\ i ≠ 0%nat.
Proof.
  unfold hit_at. destruct (decide (Forall _ gids)) as [Hf|]; [|done]. intros [= <-].
  clear Hg Hne. revert k. induction gids as [|g gs IH]; intros k; [by split|].
  apply Forall_cons in Hf as [Hf0 Hf]. destruct (IH Hf (pred k)) as [IH1 IH2]. cbn [omap list_omap].
  destruct (cached_at P (hkey g h)) as [|p ps] eqn:E; [done|]. cbn [head]. split; [cbn; congruence|].
  intros g' Hk. destruct k as [|k]; [|by apply IH2].
  injection Hk as <-. destruct (cached_hash P (hkey g h) p HC) as (i & -> & Hi); [rewrite E, elem_of_cons; by left|].
  exists i. split; [done|]. split; [done|]. by apply (core_hash_valid P i _ HC Hi).
Qed.

Lemma hit_at_nonempty h col : hit_at P gids h = Some col -> exists p col', col = p :: col'.
Proof.
  intros Hh. destruct (hit_at_lookup h col 0 Hh) as [Hl _]. destruct col; [|eauto].
  destruct gids; done.
Qed.

(** The columns of consecutive hits. *)
Fixpoint hit_cols (hashes : list BlockHash) : list (list bptr) :=
  match hashes with
  | [] => []
  | h :: hs => match hit_at P gids h with Some col => col :: hit_cols hs | None => [] end
  end.

Lemma hit_loop_cols hashes computed :
  hit_loop P gids hashes computed = Ok (foldl append_hits computed (hit_cols hashes)).
Proof.
  revert computed. induction hashes as [|h hs IH]; intros computed; [done|].
  cbn [hit_loop hit_cols]. rewrite get_cached_hit. cbn [mbind result_bind].
  destruct (hit_at P gids h) as [col|] eqn:E; [|done].
  destruct (hit_at_nonempty h col E) as (p & col' & ->). apply IH.
Qed.

Lemma hit_cols_spec hashes :
  (length (hit_cols hashes) <= length hashes)%nat /\
  (forall j col, hit_cols hashes !! j = Some col -> exists h, hashes !! j = Some h /\ hit_at P gids h = Some col) /\
  (forall h, hashes !! length (hit_cols hashes) = Some h -> hit_at P gids h = None).
Proof.
  induction hashes as [|h hs (IH1 & IH2 & IH3)]; cbn [hit_cols]; [by repeat split|].
  destruct (hit_at P gids h) as [col|] eqn:E.
  - split; [cbn; lia|]. split; [|done]. intros [|j] col' Hj; [|by apply IH2].
    injection Hj as <-. by exists h.
  - split; [cbn; lia|]. split; [done|]. intros h' [= <-]. done.
Qed.

Lemma append_hits_lookup computed col k :
  append_hits computed col !! k = (fun c => c ++ option_list (col !! k)) <$> computed !! k.
Proof.
  revert col k. induction computed as [|c cs IH]; intros [|p col] k; cbn [append_hits].
  - done.
  - done.
  - rewrite lookup_nil. cbn [option_list]. destruct ((c :: cs) !! k); cbn; [by rewrite app_nil_r|done].
  - destruct k as [|k]; [done|]. apply IH.
Qed.

Lemma fold_append_hits cols computed k :
  foldl append_hits computed cols !! k = (fun c => c ++ omap (.!! k) cols) <$> computed !! k.
Proof.
  revert computed. induction cols as [|col cols IH]; intros computed; cbn [foldl].
  - destruct (computed !! k); cbn; [by rewrite app_nil_r|done].
  - rewrite IH, append_hits_lookup. destruct (computed !! k) as [c|]; [|done]. cbn.
    rewrite <-app_assoc. by destruct (col !! k).
Qed.
End hits.

(** One group's hit list: [n] entries, the first [nulls] of them the null
    block and every other one a block that carries the request's own hash at
    that position. *)
Definition hit_row (P : BlockPool) (g : Z) (hashes : list BlockHash) (nulls n : nat) (blks : list bptr) : Prop :=
  length blks = n /\ forall j p, blks !! j = Some p ->
    if decide (j < nulls)%nat then p = PBlk 0
    else exists i h, p = PBlk i /\ i ≠ 0%nat /\ hashes !! j = Some h /\ hashof P i = Some (hkey g h).

Definition hit_rows (P : BlockPool) (gids : list Z) (hashes : list BlockHash) (nulls n : nat)
  (hits : list (list bptr)) : Prop :=
  length hits = length gids /\ forall k g, gids !! k = Some g ->
    exists blks, hits !! k = Some blks /\ hit_row P g hashes nulls n blks.

(** Every group has a block for [h]. *)
Definition is_hit (P : BlockPool) (gids : list Z) (h : BlockHash) : Prop :=
  Forall (fun g => cached_at P (hkey g h) ≠ []) gids.

Lemma hit_at_None P gids h : hit_at P gids h = None <-> ~ is_hit P gids h.
Proof. unfold hit_at, is_hit. destruct (decide (Forall _ gids)); naive_solver. Qed.

Lemma hit_rows_take P gids hashes nulls n m hits :
  hit_rows P gids hashes nulls n hits -> hit_rows P gids hashes nulls (min m n) (take m <$> hits).
Proof.
  intros [Hl Hk]. split; [by rewrite length_fmap|]. intros k g Hg.
  destruct (Hk k g Hg) as (blks & Hb & Hn & Hj). exists (take m blks). rewrite list_lookup_fmap, Hb.
  split; [done|]. split; [rewrite length_take; lia|]. intros j p [Hp _]%lookup_take_Some. by apply Hj.
Qed.

Lemma mapM_res_map {A B} (f : A -> result B) (g : A -> B) l :
  (forall x, x ∈ l -> f x = Ok (g x)) -> mapM_res f l = Ok (g <$> l).
Proof.
  induction l as [|x l IH]; intros Hf; [done|]. cbn.
  rewrite Hf by (rewrite elem_of_cons; by left). cbn. rewrite IH; [done|].
  intros y Hy. apply Hf. rewrite elem_of_cons. by right.
Qed.

Lemma hit_rows_lengths P gids hashes nulls n hits c :
  hit_rows P gids hashes nulls n hits -> c ∈ hits -> length c = n.
Proof.
  intros [Hl Hk] [k Hc]%list_elem_of_lookup.
  destruct (gids !! k) as [g|] eqn:Hg.
  - destruct (Hk k g Hg) as (? & ? & ? & _). by simplify_eq.
  - apply lookup_ge_None in Hg. apply lookup_lt_Some in Hc. lia.
Qed.

(** Dropping the last hit for EAGLE. *)
Lemma eagle_drop_rows P gids hashes nulls n hits use_eagle :
  gids ≠ [] -> hit_rows P gids hashes nulls n hits ->
  exists hits', eagle_drop use_eagle hits = Ok hits' /\
    hit_rows P gids hashes nulls (if use_eagle then n - 1 else n)%nat hits'.
Proof.
  intros Hne Hr. unfold eagle_drop. destruct use_eagle; [|by exists hits].
  destruct hits as [|c0 cs]; [destruct Hr; by destruct gids|].
  change (pyindex (c0 :: cs) 0) with (Ok c0). cbn [mbind result_bind].
  pose proof (hit_rows_lengths _ _ _ _ _ _ c0 Hr ltac:(rewrite elem_of_cons; by left)) as Hc0.
  destruct (decide (c0 = [])) as [->|Hc].
  - exists ([] :: cs). split; [done|]. cbn in Hc0. subst n. done.
  - rewrite (mapM_res_map _ (take (n - 1))).
    + eexists. split; [done|]. replace (n - 1)%nat with (min (n - 1) n) at 1 by lia. by apply hit_rows_take.
    + intros c Hin. pose proof (hit_rows_lengths _ _ _ _ _ _ c Hr Hin) as Hcn.
      destruct c0; [done|]. cbn in Hc0. rewrite decide_False; [by rewrite Hcn|].
      intros ->. cbn in Hcn. lia.
Qed.

Lemma omap_cols_lookup (cols : list (list bptr)) k n :
  (forall c, c ∈ cols -> length c = n) -> (k < n)%nat ->
  length (omap (.!! k) cols) = length cols /\
  (forall j, omap (.!! k) cols !! j = cols !! j ≫= (.!! k)).
Proof.
  intros Hl Hk. induction cols as [|c cols IH]; [done|].
  destruct IH as [IH1 IH2]; [intros; apply Hl; rewrite elem_of_cons; by right|].
  assert (length c = n) by (apply Hl; rewrite elem_of_cons; by left). cbn [omap list_omap].
  destruct (c !! k) as [p|] eqn:E; [|apply lookup_ge_None in E; lia].
  split; [cbn; by rewrite IH1|]. intros [|j]; [by cbn|apply IH2].
Qed.

Section find_hits.
Context (P : BlockPool) (gids : list Z).
Hypothesis HC : pool_core P.
Hypothesis Hg : Forall (fun g => 0 <= g < 2 ^ 32) gids.
Hypothesis Hne : gids ≠ [].

Lemma cols_rows (hs1 hs2 : list BlockHash) :
  hit_rows P gids (hs1 ++ hs2) (length hs1) (length hs1 + length (hit_cols P gids hs2))
    (foldl append_hits (replicate (length gids) (replicate (length hs1) (PBlk 0))) (hit_cols P gids hs2)).
Proof.
  set (cols := hit_cols P gids hs2).
  destruct (hit_cols_spec P gids hs2) as (_ & Hcols & _). fold cols in Hcols.
  assert (Hlen : forall c, c ∈ cols -> length c = length gids).
  { intros c [j Hj]%list_elem_of_lookup. destruct (Hcols j c Hj) as (h & _ & Hh).
    by apply (hit_at_lookup P gids HC h c 0). }
  split.
  { clear -cols. revert cols. generalize (replicate (length hs1) (PBlk 0)) as x. intros x cols.
    rewrite <-(length_replicate (length gids) x) at 2.
    generalize (replicate (length gids) x) as comp. induction cols as [|c cols IH]; intros comp; [done|].
    cbn. rewrite IH. clear. revert c. induction comp; intros [|? ?]; cbn; auto. }
  intros k g Hk. assert (k < length gids)%nat by (by eapply lookup_lt_Some).
  destruct (omap_cols_lookup cols k (length gids) Hlen ltac:(done)) as [Hl1 Hl2].
  rewrite fold_append_hits, lookup_replicate_2 by done.
  eexists. split; [done|]. split; [by rewrite length_app, length_replicate, Hl1|].
  intros j p. destruct (decide (j < length hs1)%nat).
  - rewrite lookup_app_l by (by rewrite length_replicate). by intros [-> _]%lookup_replicate_1.
  - rewrite lookup_app_r, length_replicate, Hl2 by (rewrite length_replicate; lia).
    destruct (cols !! (j - length hs1)%nat) as [col|] eqn:Ec; [|done]. cbn. intros Hp.
    destruct (Hcols _ _ Ec) as (h & Hh & Hat).
    destruct (proj2 (hit_at_lookup P gids HC h col k Hat) g Hk) as (i & Hi & Hhi & Hi0). rewrite Hp in Hi.
    injection Hi as ->. exists i, h. split; [done|]. split; [done|]. split; [|done].
    rewrite lookup_app_r by lia. done.
Qed.
End find_hits.

(** The block size a lookup uses under decode context parallelism. *)
Definition hit_block_size (s : KVCacheSpec) (dcp : Z) : Z :=
  if 1 <? dcp then spec_block_size s * dcp else spec_block_size s.

Section lookups.
Context (P : BlockPool) (gids : list Z) (hashes : list BlockHash) (max_length : Z).
Hypothesis HC : pool_core P.
Hypothesis Hg : Forall (fun g => 0 <= g < 2 ^ 32) gids.
Hypothesis Hne : gids ≠ [].
Hypothesis Hmax : 0 <= max_length.

Lemma full_lookup s use_eagle dcp :
  0 < hit_block_size s dcp -> is_full s = true ->
  exists hits n, full_find_longest_cache_hit hashes max_length gids P s use_eagle dcp = Ok hits /\
    hit_rows P gids hashes 0 (if use_eagle then n - 1 else n)%nat hits /\
    Z.of_nat n <= max_length / hit_block_size s dcp /\ (n <= length hashes)%nat /\
    (forall h, Z.of_nat n < max_length / hit_block_size s dcp -> hashes !! n = Some h -> ~ is_hit P gids h).
Proof.
  intros Hbs Hs. unfold full_find_longest_cache_hit. fold (hit_block_size s dcp).
  destruct s; try done. cbn [assert_ mbind result_bind].
  assert (H0 : 0 <= max_length / hit_block_size (FullAttentionSpec bs a sliding_window attention_chunk_size) dcp)
    by (by apply Z.div_pos).
  set (mx := max_length / _) in *. replace (mx <? 0) with false by (symmetry; apply Z.ltb_ge; lia).
  cbn [raise_if mbind result_bind]. rewrite hit_loop_cols by done. cbn [mbind result_bind].
  pose proof (cols_rows P gids HC [] (take (Z.to_nat mx) hashes)) as Hr.
  destruct (hit_cols_spec P gids (take (Z.to_nat mx) hashes)) as (Hlen & _ & Hmiss).
  cbn [length app replicate plus] in Hr. set (n := length (hit_cols P gids _)) in *.
  rewrite length_take in Hlen.
  destruct (eagle_drop_rows P gids hashes 0 n (foldl append_hits (replicate (length gids) [])
    (hit_cols P gids (take (Z.to_nat mx) hashes))) use_eagle Hne) as (hits & -> & Hr').
  { destruct Hr as [Hr1 Hr2]. split; [done|]. intros k g Hk. destruct (Hr2 k g Hk) as (blks & Hb & Hn & Hj).
    exists blks. split; [done|]. split; [done|]. intros j p Hp. specialize (Hj j p Hp).
    destruct (decide (j < 0)%nat); [lia|]. destruct Hj as (i & h & ? & ? & Hh & ?).
    apply lookup_take_Some in Hh as [Hh _]. eauto 10. }
  exists hits, n. split; [done|]. split; [done|]. split; [lia|]. split; [lia|].
  intros h Hn Hh. apply hit_at_None, Hmiss. rewrite lookup_take_lt by lia. done.
Qed.

Lemma chunk_loop_hit i n computed :
  (i + n <= length hashes)%nat ->
  chunk_loop P gids hashes (Z.of_nat i) n computed = hit_loop P gids (take n (drop i hashes)) computed.
Proof.
  revert i computed. induction n as [|n IH]; intros i computed Hn; [done|].
  destruct (hashes !! i) as [h|] eqn:E; [|apply lookup_ge_None in E; lia].
  cbn [chunk_loop]. unfold pyindex. replace (Z.of_nat i <? 0) with false by (symmetry; apply Z.ltb_ge; lia).
  cbv zeta. replace (Z.of_nat i <? 0) with false by (symmetry; apply Z.ltb_ge; lia).
  rewrite Nat2Z.id, E, (drop_S _ _ _ E). cbn [get_or mbind result_bind take hit_loop].
  destruct (get_cached_block P h gids) as [[[|p col]|]|]; cbn [mbind result_bind]; try done.
  replace (Z.of_nat i + 1) with (Z.of_nat (S i)) by lia. apply IH. lia.
Qed.

(** First block of the chunk that contains the next token. *)
Definition chunk_start_block (chunk bs max_length : Z) : Z :=
  (if 0 <? max_length then max_length / chunk * chunk else 0) / bs.

Lemma chunked_lookup bs a chunk :
  0 < bs -> 0 < chunk -> max_length / bs <= zlen hashes ->
  exists hits n, chunked_find_longest_cache_hit hashes max_length gids P
      (ChunkedLocalAttentionSpec bs a chunk) false 1 = Ok hits /\
    hit_rows P gids hashes (Z.to_nat (chunk_start_block chunk bs max_length)) n hits /\
    chunk_start_block chunk bs max_length <= Z.of_nat n <= max_length / bs /\
    (forall h, Z.of_nat n < max_length / bs -> hashes !! n = Some h -> ~ is_hit P gids h).
Proof.
  intros Hbs Hch Hlen. unfold chunked_find_longest_cache_hit. cbn [negb assert_ mbind result_bind Z.eqb].
  change (1 =? 1) with true. cbn [assert_ mbind result_bind]. cbv zeta.
  fold (chunk_start_block chunk bs max_length).
  assert (Hst : 0 <= chunk_start_block chunk bs max_length <= max_length / bs).
  { unfold chunk_start_block. destruct (Z.ltb_spec 0 max_length).
    - pose proof (Z.mul_div_le max_length chunk Hch). pose proof (Z.div_pos max_length chunk ltac:(lia) Hch).
      split; [apply Z.div_pos; nia|apply Z.div_le_mono; lia].
    - rewrite Z.div_0_l by lia. split; [lia|]. apply Z.div_pos; lia. }
  set (st := Z.to_nat (chunk_start_block chunk bs max_length)).
  replace (chunk_start_block chunk bs max_length) with (Z.of_nat st) by (unfold st; lia).
  set (nn := Z.to_nat (max_length / bs - Z.of_nat st)).
  assert (Hsum : Z.of_nat (st + nn) = max_length / bs) by (unfold nn, st in *; lia).
  rewrite (pc_null _ HC), chunk_loop_hit by (unfold zlen in Hlen; lia). rewrite hit_loop_cols by done.
  pose proof (cols_rows P gids HC (take st hashes) (take nn (drop st hashes))) as Hr.
  destruct (hit_cols_spec P gids (take nn (drop st hashes))) as (Hl & _ & Hmiss).
  assert (Htk : length (take st hashes) = st) by (rewrite length_take; unfold zlen in Hlen; lia).
  rewrite Htk in Hr. rewrite length_take, length_drop in Hl. set (n := length (hit_cols P gids _)) in *.
  exists (foldl append_hits (replicate (length gids) (replicate st (PBlk 0))) (hit_cols P gids (take nn (drop st hashes)))).
  exists (st + n)%nat. split; [done|]. split; [|split; [lia|]].
  - destruct Hr as [Hr1 Hr2]. split; [done|]. intros k g Hk. destruct (Hr2 k g Hk) as (blks & Hb & Hn & Hj).
    exists blks. split; [done|]. split; [done|]. intros j p Hp. specialize (Hj j p Hp).
    destruct (decide (j < st)%nat); [done|]. destruct Hj as (i & h & ? & ? & Hh & ?).
    exists i, h. split; [done|]. split; [done|]. split; [|done].
    rewrite lookup_app_r, Htk in Hh by lia. apply lookup_take_Some in Hh as [Hh _].
    rewrite lookup_drop in Hh. by replace (st + (j - st))%nat with j in Hh by lia.
  - intros h Hn Hh. apply hit_at_None, Hmiss. rewrite lookup_take_lt, lookup_drop by lia. done.
Qed.
End lookups.

(** ** The sliding-window search *)

Section sw_search.
Context (P : BlockPool) (gids : list Z) (hashes : list BlockHash) (M need : nat).
Hypothesis HC : pool_core P.
Hypothesis Hg : Forall (fun g => 0 <= g < 2 ^ 32) gids.
Hypothesis Hne : gids ≠ [].
Hypothesis HM : (M <= length hashes)%nat.
Hypothesis Hneed : (0 < need)%nat.

(** A prefix of [n] blocks can be reused when the last [need] of them, those
    the window reaches, are all cached. *)
Definition window_cached (n : nat) : Prop :=
  forall j h, (n - need <= j < n)%nat -> hashes !! j = Some h -> is_hit P gids h.

(** State of the right-to-left search at block [n]: the entries below [n] are
    null, the [c] entries from [n] on are hits, and no longer prefix works. *)
Record sw_inv (n c : nat) (computed : list (list bptr)) : Prop := mkSwInv {
  sw_run : (c < need)%nat /\ (n + c <= M)%nat;
  sw_hits : forall j h, (n <= j < n + c)%nat -> hashes !! j = Some h -> is_hit P gids h;
  sw_max : forall n', (n + c < n' <= M)%nat -> ~ window_cached n';
  sw_rows : hit_rows P gids hashes n (n + c) (take (n + c) <$> computed);
  sw_len : forall row, row ∈ computed -> length row = M
}.

Lemma set_hits_lookup i computed col k :
  (length computed <= length col)%nat ->
  set_hits i computed col !! k = (fun c => match col !! k with Some p => <[i := p]> c | None => c end) <$> computed !! k.
Proof.
  revert col k. induction computed as [|c cs IH]; intros [|p col] k Hl; cbn in Hl; try done; try lia.
  destruct k as [|k]; [done|]. cbn. apply IH. lia.
Qed.

Lemma sw_hit_step i c h col computed :
  sw_inv (S i) c computed -> hashes !! i = Some h -> hit_at P gids h = Some col ->
  hit_rows P gids hashes i (i + S c) (take (i + S c) <$> set_hits i computed col) /\
  (forall row, row ∈ set_hits i computed col -> length row = M) /\
  (forall j h, (i <= j < i + S c)%nat -> hashes !! j = Some h -> is_hit P gids h) /\
  (forall n', (i + S c < n' <= M)%nat -> ~ window_cached n').
Proof.
  intros [Hr Hh Hmx [Hl Hrow] Hlen] Hi Hcol.
  destruct (hit_at_lookup P gids HC h col 0 Hcol) as [Hcl _].
  rewrite length_fmap in Hl.
  pose proof (fun k => set_hits_lookup i computed col k ltac:(lia)) as Hset.
  assert (Hsl : length (set_hits i computed col) = length computed).
  { clear -computed. revert col. induction computed; intros [|? ?]; cbn; auto. }
  split; [split|split; [|split]].
  - by rewrite length_fmap, Hsl.
  - intros k g Hk. destruct (Hrow k g Hk) as (blks & Hb & Hbl & Hj). rewrite list_lookup_fmap in Hb |- *.
    rewrite Hset. destruct (computed !! k) as [row|] eqn:Er; [|done]. injection Hb as <-. cbn.
    destruct (proj2 (hit_at_lookup P gids HC h col k Hcol) g Hk) as (x & Hx & Hhx & Hx0). rewrite Hx.
    assert (Hrl : length row = M) by (apply Hlen; by eapply list_elem_of_lookup_2).
    eexists. split; [done|]. split; [rewrite length_take, length_insert; lia|].
    intros j p [Hp Hlt]%lookup_take_Some. destruct (decide (j = i)) as [->|Hji].
    + rewrite list_lookup_insert_eq in Hp by lia. injection Hp as <-.
      rewrite decide_False by lia. exists x, h. done.
    + rewrite list_lookup_insert_ne in Hp by done. specialize (Hj j p).
      rewrite lookup_take_lt in Hj by lia. specialize (Hj Hp).
      destruct (decide (j < S i)%nat), (decide (j < i)%nat); try done; lia.
  - intros row [k Hk]%list_elem_of_lookup. rewrite Hset in Hk.
    destruct (computed !! k) as [row'|] eqn:Er; [|done]. cbn in Hk.
    assert (length row' = M) by (apply Hlen; by eapply list_elem_of_lookup_2).
    destruct (col !! k); injection Hk as <-; [by rewrite length_insert|done].
  - intros j h' Hj Hh'. destruct (decide (j = i)) as [->|]; [|apply (Hh j); [lia|done]].
    rewrite Hi in Hh'. injection Hh' as <-. destruct (decide (is_hit P gids h)); [done|].
    by rewrite (proj2 (hit_at_None P gids h)) in Hcol.
  - intros n' Hn'. apply Hmx. lia.
Qed.

Lemma sw_miss_step i c h computed :
  sw_inv (S i) c computed -> hashes !! i = Some h -> hit_at P gids h = None -> sw_inv i 0 computed.
Proof.
  intros [Hr Hh Hmx [Hl Hrow] Hlen] Hi Hn. apply hit_at_None in Hn. split; try done; try lia.
  - intros n' Hn' Hw. destruct (decide (S i + c < n')%nat).
    + apply (Hmx n'); [lia|done].
    + apply Hn, (Hw i h); [lia|done].
  - split; [by rewrite length_fmap in Hl |- *|]. intros k g Hk. destruct (Hrow k g Hk) as (blks & Hb & Hbl & Hj).
    rewrite list_lookup_fmap in Hb |- *. destruct (computed !! k) as [row|] eqn:Er; [|done]. injection Hb as <-.
    assert (Hrl : length row = M) by (apply Hlen; by eapply list_elem_of_lookup_2).
    eexists. split; [done|]. split; [rewrite length_take; lia|].
    intros j p [Hp Hlt]%lookup_take_Some. specialize (Hj j p). rewrite lookup_take_lt in Hj by lia.
    specialize (Hj Hp). destruct (decide (j < S i)%nat), (decide (j < i)%nat); try done; lia.
Qed.

(** Outcome of the search: the longest prefix whose window is cached. *)
Lemma sw_loop_spec contiguous n c computed :
  need = Z.to_nat (Z.max 1 contiguous) -> sw_inv n c computed ->
  exists computed' c' found len,
    sw_loop P gids hashes contiguous n (Z.of_nat c) computed = Ok (computed', c', found) /\
    hit_rows P gids hashes (len - need) len (if found then computed' else pytake c' <$> computed') /\
    (len <= M)%nat /\ window_cached len /\ (forall n', (len < n' <= M)%nat -> ~ window_cached n').
Proof.
  intros Hnd. revert c computed. induction n as [|i IH]; intros c computed Hinv.
  - exists computed, (Z.of_nat c), false, c. split; [done|]. destruct Hinv as [Hr Hh Hmx Hrows Hlen].
    split; [|split; [lia|split]].
    + replace (c - need)%nat with 0%nat by lia. cbn [plus] in Hrows.
      replace (pytake (Z.of_nat c) <$> computed) with (take c <$> computed); [done|].
      apply list_fmap_ext. intros k row Hk. unfold pytake.
      assert (length row = M) by (apply Hlen; by eapply list_elem_of_lookup_2).
      rewrite slice_bound_in by (unfold zlen; lia). by rewrite Nat2Z.id.
    + intros j h Hj. apply Hh. lia.
    + intros n' Hn'. apply Hmx. lia.
  - assert (Hi : (i < length hashes)%nat) by (destruct Hinv; lia).
    destruct (hashes !! i) as [h|] eqn:E; [|apply lookup_ge_None in E; lia].
    cbn [sw_loop]. unfold pyindex. replace (Z.of_nat i <? 0) with false by (symmetry; apply Z.ltb_ge; lia).
    cbv zeta. replace (Z.of_nat i <? 0) with false by (symmetry; apply Z.ltb_ge; lia).
    rewrite Nat2Z.id, E. cbn [get_or mbind result_bind]. rewrite get_cached_hit by done. cbn [mbind result_bind].
    destruct (hit_at P gids h) as [col|] eqn:Eh.
    + destruct (hit_at_nonempty P gids HC Hg Hne h col Eh) as (p & col' & Ecol).
      destruct (sw_hit_step i c h col computed Hinv E Eh) as (H1 & H2 & H3 & H4).
      destruct Hinv as [Hr _ _ _ _]. clear Eh. subst col.
      destruct (Z.leb_spec contiguous (Z.of_nat c + 1)) as [Hle|Hgt].
      * eexists _, _, true, (i + S c)%nat. split; [reflexivity|].
        split; [|split; [lia|split; [|done]]].
        -- replace (i + S c - need)%nat with i by lia.
           replace (pytake (Z.of_nat i + (Z.of_nat c + 1)) <$> set_hits i computed (p :: col'))
             with (take (i + S c) <$> set_hits i computed (p :: col')); [done|].
           apply list_fmap_ext. intros k row Hk. unfold pytake.
           assert (length row = M) by (apply H2; by eapply list_elem_of_lookup_2).
           rewrite slice_bound_in by (unfold zlen; lia). f_equal. lia.
        -- intros j h' Hj. apply H3. lia.
      * replace (Z.of_nat c + 1) with (Z.of_nat (S c)) by lia. apply IH. split; try done. lia.
    + change 0 with (Z.of_nat 0). apply IH. by eapply sw_miss_step.
Qed.
End sw_search.

(** The number of trailing blocks a sliding-window hit needs. *)
Definition sw_need (w bs : Z) (use_eagle : bool) : nat := Z.to_nat (Z.max 1 (sw_contiguous_blocks w bs use_eagle)).

Lemma sw_lookup P gids hashes max_length bs a w use_eagle :
  pool_core P -> Forall (fun g => 0 <= g < 2 ^ 32) gids -> gids ≠ [] ->
  0 < bs -> 0 <= max_length -> max_length / bs <= zlen hashes ->
  exists hits len, sw_find_longest_cache_hit hashes max_length gids P (SlidingWindowSpec bs a w) use_eagle 1 = Ok hits /\
    hit_rows P gids hashes (len - sw_need w bs use_eagle) (if use_eagle then len - 1 else len)%nat hits /\
    Z.of_nat len <= max_length / bs /\ window_cached P gids hashes (sw_need w bs use_eagle) len /\
    (forall n', Z.of_nat len < Z.of_nat n' <= max_length / bs ->
       ~ window_cached P gids hashes (sw_need w bs use_eagle) n').
Proof.
  intros HC Hg Hne Hbs Hml Hlen. unfold sw_find_longest_cache_hit. cbv beta iota.
  change (1 =? 1) with true. cbn [assert_ mbind result_bind]. cbv zeta.
  assert (Hm0 : 0 <= max_length / bs) by (by apply Z.div_pos). set (M := Z.to_nat (max_length / bs)) in *.
  assert (HM : (M <= length hashes)%nat) by (unfold zlen in Hlen; lia).
  destruct (sw_loop_spec P gids hashes M (sw_need w bs use_eagle) HC Hg Hne HM ltac:(unfold sw_need; lia)
    (sw_contiguous_blocks w bs use_eagle) M 0 (replicate (length gids) (replicate M (PBlk 0))))
    as (computed & c & found & len & E & Hrows & Hle & Hw & Hmx); [done| |].
  { split.
    - unfold sw_need. lia.
    - intros j h Hj. lia.
    - intros n' Hn'. lia.
    - split; [by rewrite length_fmap, length_replicate|]. intros k g Hk.
      rewrite list_lookup_fmap, lookup_replicate_2 by (by eapply lookup_lt_Some). cbn.
      eexists. split; [done|]. split; [rewrite length_take, length_replicate; lia|].
      intros j p [Hp Hj]%lookup_take_Some. rewrite decide_True by lia. by apply lookup_replicate_1 in Hp as [-> _].
    - intros row Hrow. apply elem_of_replicate in Hrow as [-> _]. by rewrite length_replicate. }
  rewrite (pc_null _ HC). change (Z.of_nat 0) with 0 in E. rewrite E. cbn [mbind result_bind].
  destruct (eagle_drop_rows _ _ _ _ _ _ use_eagle Hne Hrows) as (hits & -> & Hr).
  exists hits, len. split; [done|]. split; [done|]. split; [lia|]. split; [done|].
  intros n' Hn'. apply Hmx. lia.
Qed.

(** ** New requests *)

(** A list of hit blocks a request can start from. *)
Definition hits_ok (P : BlockPool) (blks : list bptr) : Prop :=
  (forall p, p ∈ blks -> valid P p) /\ (forall i, i ≠ 0%nat -> occ i blks <= 1) /\
  (forall j k, (j <= k)%nat -> blks !! k = Some (PBlk 0) -> blks !! j = Some (PBlk 0)) /\
  (forall i, i ≠ 0%nat -> PBlk i ∈ blks -> is_Some (hashof P i)).

Lemma hits_ok_nil P : hits_ok P [].
Proof.
  split; [by intros ? ?%elem_of_nil|]. split; [done|].
  split; [by intros j k _; rewrite lookup_nil|by intros ? _ ?%elem_of_nil].
Qed.

Lemma mgr_ok_save P m rid blks :
  mgr_ok P m -> num_cached_block m !! rid = None -> hits_ok P blks ->
  mgr_ok P (set_num_cached rid (zlen blks) (set_req_blocks rid blks m)).
Proof.
  intros [] Hnc (Hv & Ho & Hp & _).
  assert (Hrb : forall rid', req_blocks (set_num_cached rid (zlen blks) (set_req_blocks rid blks m)) rid' =
    if decide (rid = rid') then blks else req_blocks m rid').
  { intros rid'. by rewrite <-req_blocks_set. }
  split; try done; setoid_rewrite Hrb; cbn [num_cached_block set_num_cached set_req_blocks].
  - intros rid' p. destruct (decide (rid = rid')); [apply Hv|apply mo_valid0].
  - intros rid' i. destruct (decide (rid = rid')); [apply Ho|apply mo_once0].
  - intros rid' j k. destruct (decide (rid = rid')); [apply Hp|apply mo_prefix0].
  - intros rid'. rewrite lookup_insert. destruct (decide (rid = rid')); [done|apply mo_new0].
  - intros rid' n. rewrite lookup_insert. destruct (decide (rid = rid')); [|apply mo_cached0].
    intros [= <-]. pose proof (zlen_nonneg blks). lia.
  - intros He rid' n j p. rewrite lookup_insert. destruct (decide (rid = rid')) as [<-|]; [|by apply mo_tail0].
    intros [= <-] Hj Hl. apply lookup_lt_Some in Hl. unfold zlen in Hj. lia.
Qed.

Lemma mrefs_save rid blks m i :
  mrefs (set_num_cached rid (zlen blks) (set_req_blocks rid blks m)) i = mrefs m i - occ i (req_blocks m rid) + occ i blks.
Proof. apply mrefs_set. Qed.

(** A manager just created is well formed. *)
Lemma get_manager_ok P s gid dcp m :
  get_manager_for_kv_cache_spec s gid dcp = Ok m -> 0 < spec_block_size s -> spec_ok s -> 0 <= gid < 2 ^ 32 ->
  mgr_ok P m /\ (forall i, mrefs m i = 0) /\ mgr_spec m = s /\ mgr_block_size m = hit_block_size s dcp /\
  num_cached_block m = ∅.
Proof.
  unfold get_manager_for_kv_cache_spec. intros E Hbs Hs Hg. inv_ok.
  assert (Hrb : forall r, req_blocks (mkManager a (hit_block_size s dcp) s dcp ∅ ∅ gid) r = []).
  { intros r. unfold req_blocks. cbn. by rewrite lookup_empty. }
  fold (hit_block_size s dcp). split; [|by repeat split].
  split; try done; try (intros ? ?; rewrite Hrb); cbn [num_cached_block]; try (intros ? ?; by rewrite ?lookup_empty).
  - cbn. unfold hit_block_size. destruct (Z.ltb_spec 1 dcp); lia.
  - by intros ?%elem_of_nil.
Qed.

(** * Properties *)

(** Full attention: [find_longest_cache_hit] returns, for every group, the
    cached blocks of the longest prefix of the request's block hashes (up to
    [max_length] tokens) that every group has cached: entry [j] carries the
    hash of block [j] for that group, and the next block, if there is one
    within the limit, misses in some group. With EAGLE the last hit is
    dropped. *)
Theorem full_attention_longest_hit (P : BlockPool) (gids : list Z) (hashes : list BlockHash)
  (max_length : Z) (s : KVCacheSpec) (use_eagle : bool) (dcp : Z) :
  pool_core P -> Forall (fun g => 0 <= g < 2 ^ 32) gids -> gids ≠ [] -> 0 <= max_length ->
  0 < hit_block_size s dcp -> is_full s = true ->
  exists hits n,
    find_longest_cache_hit FullAttentionManager hashes max_length gids P s use_eagle dcp = Ok hits /\
    hit_rows P gids hashes 0 (if use_eagle then n - 1 else n)%nat hits /\
    Z.of_nat n <= max_length / hit_block_size s dcp /\ (n <= length hashes)%nat /\
    (forall h, Z.of_nat n < max_length / hit_block_size s dcp -> hashes !! n = Some h -> ~ is_hit P gids h).
Proof. intros. by apply full_lookup. Qed.

(** C29: Sliding window: the right-to-left search returns the longest prefix whose
    trailing blocks, the ones the window of the next token reaches, are cached
    for every group; the blocks before them are null blocks, the others carry
    the request's hashes. *)
Theorem sliding_window_longest_hit (P : BlockPool) (gids : list Z) (hashes : list BlockHash)
  (max_length bs w : Z) (a : AttentionFields) (use_eagle : bool) :
  pool_core P -> Forall (fun g => 0 <= g < 2 ^ 32) gids -> gids ≠ [] ->
  0 < bs -> 0 <= max_length -> max_length / bs <= zlen hashes ->
  let need := sw_need w bs use_eagle in
  exists hits len,
    find_longest_cache_hit SlidingWindowManager hashes max_length gids P (SlidingWindowSpec bs a w) use_eagle 1 = Ok hits /\
    hit_rows P gids hashes (len - need) (if use_eagle then len - 1 else len)%nat hits /\
    Z.of_nat len <= max_length / bs /\ window_cached P gids hashes need len /\
    (forall n', Z.of_nat len < Z.of_nat n' <= max_length / bs -> ~ window_cached P gids hashes need n').
Proof. intros. by apply sw_lookup. Qed.

(** Chunked local attention: every block before the current chunk counts as
    computed (null block), followed by the longest run of cached blocks from
    the start of the chunk. *)
Theorem chunked_local_longest_hit (P : BlockPool) (gids : list Z) (hashes : list BlockHash)
  (max_length bs chunk : Z) (a : AttentionFields) :
  pool_core P -> Forall (fun g => 0 <= g < 2 ^ 32) gids -> gids ≠ [] -> 0 <= max_length ->
  0 < bs -> 0 < chunk -> max_length / bs <= zlen hashes ->
  exists hits n,
    find_longest_cache_hit ChunkedLocalAttentionManager hashes max_length gids P
      (ChunkedLocalAttentionSpec bs a chunk) false 1 = Ok hits /\
    hit_rows P gids hashes (Z.to_nat (chunk_start_block chunk bs max_length)) n hits /\
    chunk_start_block chunk bs max_length <= Z.of_nat n <= max_length / bs /\
    (forall h, Z.of_nat n < max_length / bs -> hashes !! n = Some h -> ~ is_hit P gids h).
Proof. intros. by apply chunked_lookup. Qed.

Lemma mgr_step_pre P l m P' l' m' : mgr_pre P l m -> mgr_step P m P' l' m' -> mgr_pre P' l' m'.
Proof.
  intros [] []. split; try done. intros i Hi. rewrite ms_refs0 by done. specialize (mp_refs0 i Hi). lia.
Qed.

Lemma window_blocks_bound b nct new w :
  0 < b -> 0 < w -> 0 < new -> 0 <= nct ->
  cdiv (nct + new) b - Z.max 0 ((nct - w + 1) / b) <= cdiv (w - 1 + new) b + 1.
Proof.
  intros Hb Hw Hnew Hnct. pose proof (cdiv_spec (nct + new) b Hb). pose proof (cdiv_spec (w - 1 + new) b Hb).
  pose proof (Z.div_mod (nct - w + 1) b ltac:(lia)). pose proof (Z.mod_pos_bound (nct - w + 1) b Hb).
  destruct (Z.le_gt_cases 0 ((nct - w + 1) / b)); nia.
Qed.

Lemma nonnull_nulled n bs :
  (n <= length bs)%nat -> zlen (filter (fun p => p ≠ PBlk 0) (nulled n bs)) <= zlen bs - Z.of_nat n.
Proof.
  intros Hn. unfold nulled. rewrite filter_app, zlen_app.
  rewrite filter_none by (intros x [-> _]%elem_of_replicate; auto).
  pose proof (length_filter (fun p => p ≠ PBlk 0) (drop n bs)). rewrite length_drop in H.
  unfold zlen. cbn [length]. lia.
Qed.

(** The memory estimate of sliding-window layers is safe: after clearing the
    blocks outside the window and allocating the next chunk of at most
    [max_num_batched_tokens] tokens, the request occupies no more pages than
    [max_memory_usage_bytes] accounts for. *)
Theorem sliding_window_memory_bound (P : BlockPool) (l : list nat) (m : SingleTypeKVCacheManager)
  (rid : string) (nct new bs w : Z) (a : AttentionFields) (cfg : SpecConfig) (mem : Z) :
  mgr_pre P l m -> mgr_spec m = SlidingWindowSpec bs a w -> mgr_block_size m = bs ->
  is_Some (num_cached_block m !! rid) -> computed_ok P m rid nct ->
  zlen (req_blocks m rid) <= cdiv (nct + new) bs <= zlen (req_blocks m rid) + zlen l ->
  0 < new <= sc_max_num_batched_tokens cfg -> nct + new <= sc_max_model_len cfg ->
  0 <= attn_page_size bs a -> max_memory_usage_bytes cfg (mgr_spec m) = Ok mem ->
  exists m1 P1 news m2 P2,
    remove_skipped_blocks rid nct m P = Ok (m1, P1) /\
    allocate_new_blocks rid (nct + new) m1 P1 = Ok (news, m2, P2) /\
    zlen (req_blocks m2 rid) = cdiv (nct + new) bs /\
    zlen (filter (fun p => p ≠ PBlk 0) (req_blocks m2 rid)) * attn_page_size bs a <= mem.
Proof.
  intros Hpre Hspec Hbs Hnc Hct Hlen Hnew Hmml Hpage Hmem. pose proof (mp_ok _ _ _ Hpre) as Hok.
  destruct (remove_skipped_blocks_step P l m rid nct Hpre Hct)
    as (P1 & l1 & m1 & E1 & Hst1 & _ & Hl1 & [(Hcl & Hb & Hsp & _) _] & Hnc1 & Hblk1).
  destruct (skip_until_le P m rid nct Hok Hct) as (Hs1 & Hs2 & _).
  pose proof (mo_bs _ _ Hok) as Hpos. pose proof (mo_spec _ _ Hok) as Hw. rewrite Hspec in Hw. cbn in Hw.
  pose proof (mo_class _ _ Hok) as Hclass. rewrite Hspec in Hclass. injection Hclass as Hclass.
  set (sk := skip_until m rid nct) in *.
  assert (Hsk : sk = (nct - w + 1) / bs) by (unfold sk, skip_until; rewrite Hspec, Hbs; done).
  assert (Hskl : (Z.to_nat sk <= length (req_blocks m rid))%nat) by (unfold zlen in *; lia).
  assert (Hbl1 : zlen (req_blocks m1 rid) = zlen (req_blocks m rid)).
  { rewrite Hblk1. unfold zlen. by rewrite nulled_length. }
  assert (Hshort : blocks_short m1 rid (nct + new) = cdiv (nct + new) bs - zlen (req_blocks m rid)).
  { unfold blocks_short. rewrite Hb, Hbs, Hbl1. done. }
  destruct (allocate_new_blocks_step P1 l1 m1 rid (nct + new) (nct + new)
    (mgr_step_pre _ _ _ _ _ _ Hpre Hst1)) as (P2 & l2 & m2 & news & E2 & _ & _ & _ & _ & Hblk2 & Hnl & _).
  - unfold mamba_tokens. by rewrite Hcl, <-Hclass.
  - rewrite Hshort. lia.
  - left. by rewrite Hnc1.
  - exists m1, P1, news, m2, P2. split; [done|]. split; [done|].
    rewrite Hshort in Hnl.
    split; [rewrite Hblk2, zlen_app, Hnl, Hbl1; lia|].
    rewrite Hspec in Hmem. cbn [max_memory_usage_bytes] in Hmem. unfold sliding_max_memory in Hmem.
    inv_ok. apply Z.mul_le_mono_nonneg_r; [done|].
    rewrite Hblk2, Hblk1, filter_app, zlen_app.
    pose proof (nonnull_nulled (Z.to_nat sk) _ Hskl) as Hnn.
    pose proof (length_filter (fun p => p ≠ PBlk 0) news) as Hfn.
    assert (zlen (filter (fun p => p ≠ PBlk 0) news) <= zlen news) by (unfold zlen; lia).
    destruct Hct as [[Hn0 _] _].
    pose proof (window_blocks_bound (mgr_block_size m) nct new w Hpos Hw ltac:(lia) Hn0) as Hwb.
    pose proof (cdiv_mono (w - 1 + new) (w - 1 + sc_max_num_batched_tokens cfg) _ Hpos ltac:(lia)).
    pose proof (cdiv_mono (nct + new) (sc_max_model_len cfg) _ Hpos ltac:(lia)).
    destruct (Z.min_spec (w - 1 + sc_max_num_batched_tokens cfg) (sc_max_model_len cfg)) as [[_ ->]|[_ ->]]; lia.
Qed.

(** ** Concrete runs *)

(** A pool of six blocks in which a request has cached three blocks. *)
Definition demo_hashes : list BlockHash := [[1]; [2]; [3]].

Definition demo_cached_pool : result BlockPool :=
  P ← pool_init 6 true false false;
  '(blks, P) ← get_new_blocks 3 P;
  cache_full_blocks (demo_request "a" [1; 2; 3; 4; 5; 6] demo_hashes) blks 0 3 2 0 P.

Lemma demo_cached_pool_ok : exists P l, demo_cached_pool = Ok P /\ pool_inv P l.
Proof.
  destruct (pool_init_inv 6 true false false ltac:(lia)) as (P0 & E0 & HI0 & _).
  destruct (get_new_blocks_step P0 _ 3 HI0) as (P1 & E1 & HI1 & _); [vm_compute; split; congruence|].
  destruct demo_cached_pool as [P|] eqn:E; [|by vm_compute in E].
  destruct (pool_exec_inv P1 _ (OpCache (demo_request "a" [1; 2; 3; 4; 5; 6] demo_hashes)
    [PBlk 1; PBlk 2; PBlk 3] 0 3 2 0) HI1) as (P2 & l & E2 & HI2 & _).
  - vm_compute in E0. injection E0 as <-. vm_compute in E1. injection E1 as <-.
    split; [done|]. split; [lia|]. split; [cbn; lia|]. split; [cbn; lia|]. cbn. split; [|split; [|split; [|done]]].
    + apply NoDup_ListNoDup. repeat constructor; cbn; naive_solver.
    + intros i Hi. rewrite !elem_of_cons, elem_of_nil in Hi.
      destruct Hi as [[= ->]|[[= ->]|[[= ->]|[]]]]; reflexivity.
    + intros p Hp. rewrite !elem_of_cons, elem_of_nil in Hp.
      destruct Hp as [->|[->|[->|[]]]]; (split; [eexists; split; [done|vm_compute; lia]|done]).
  - exists P, l. split; [done|]. unfold demo_cached_pool in E. change (pool_init 6) with (pool_init (Z.of_nat 6)) in E.
    rewrite E0 in E. cbn [mbind result_bind] in E. rewrite E1 in E. cbn [mbind result_bind] in E.
    cbn [pool_exec] in E2. change (Z.of_nat 0) with 0 in E2. change (Z.of_nat 3) with 3 in E2.
    change (PBlk <$> take (Z.to_nat 3) (seq 1 (6 - 1))) with [PBlk 1; PBlk 2; PBlk 3] in E.
    rewrite E in E2. by injection E2 as <-.
Qed.

Lemma full_attention_longest_hit_witness :
  exists P n, demo_cached_pool = Ok P /\
    find_longest_cache_hit FullAttentionManager [[1]; [2]; [9]] 6 [0] P
      (FullAttentionSpec 2 demo_attn None None) false 1 = Ok [[PBlk 1; PBlk 2]] /\
    hit_rows P [0] [[1]; [2]; [9]] 0 n [[PBlk 1; PBlk 2]].
Proof.
  destruct demo_cached_pool_ok as (P & l & E & HI).
  assert (Ef : find_longest_cache_hit FullAttentionManager [[1]; [2]; [9]] 6 [0] P
    (FullAttentionSpec 2 demo_attn None None) false 1 = Ok [[PBlk 1; PBlk 2]]).
  { vm_compute in E. injection E as <-. reflexivity. }
  destruct (full_attention_longest_hit P [0] [[1]; [2]; [9]] 6 (FullAttentionSpec 2 demo_attn None None) false 1)
    as (hits & n & E' & Hr & _).
  - apply HI.
  - by apply Forall_singleton.
  - done.
  - lia.
  - reflexivity.
  - reflexivity.
  - exists P, n. split; [done|]. split; [done|]. rewrite Ef in E'. by injection E' as <-.
Defined.

Lemma sliding_window_longest_hit_witness :
  exists P len, demo_cached_pool = Ok P /\
    find_longest_cache_hit SlidingWindowManager [[8]; [2]; [3]; [9]] 8 [0] P
      (SlidingWindowSpec 2 demo_attn 4) false 1 = Ok [[PBlk 0; PBlk 2; PBlk 3]] /\
    window_cached P [0] [[8]; [2]; [3]; [9]] 2 len.
Proof.
  destruct demo_cached_pool_ok as (P & l & E & HI).
  destruct (sliding_window_longest_hit P [0] [[8]; [2]; [3]; [9]] 8 2 4 demo_attn false)
    as (hits & len & _ & _ & _ & Hw & _).
  - apply HI.
  - by apply Forall_singleton.
  - done.
  - lia.
  - lia.
  - vm_compute. congruence.
  - exists P, len. split; [done|]. split; [|exact Hw].
    vm_compute in E. injection E as <-. reflexivity.
Defined.

Lemma chunked_local_longest_hit_witness :
  exists P n, demo_cached_pool = Ok P /\
    find_longest_cache_hit ChunkedLocalAttentionManager [[8]; [2]; [3]; [9]] 7 [0] P
      (ChunkedLocalAttentionSpec 2 demo_attn 4) false 1 = Ok [[PBlk 0; PBlk 0; PBlk 3]] /\
    hit_rows P [0] [[8]; [2]; [3]; [9]] 2 n [[PBlk 0; PBlk 0; PBlk 3]].
Proof.
  destruct demo_cached_pool_ok as (P & l & E & HI).
  assert (Ef : find_longest_cache_hit ChunkedLocalAttentionManager [[8]; [2]; [3]; [9]] 7 [0] P
      (ChunkedLocalAttentionSpec 2 demo_attn 4) false 1 = Ok [[PBlk 0; PBlk 0; PBlk 3]]).
  { vm_compute in E. injection E as <-. reflexivity. }
  destruct (chunked_local_longest_hit P [0] [[8]; [2]; [3]; [9]] 7 2 4 demo_attn) as (hits & n & E' & Hr & _).
  - apply HI.
  - by apply Forall_singleton.
  - done.
  - lia.
  - lia.
  - lia.
  - vm_compute. congruence.
  - exists P, n. split; [done|]. split; [done|]. rewrite Ef in E'. injection E' as <-. exact Hr.
Defined.

Lemma sliding_window_memory_bound_witness :
  exists m P m1 P1 news m2 P2,
    remove_skipped_blocks "r" 0 m P = Ok (m1, P1) /\ allocate_new_blocks "r" 4 m1 P1 = Ok (news, m2, P2) /\
    zlen (req_blocks m2 "r") = 2.
Proof.
  destruct (pool_init_inv 6 true false false ltac:(lia)) as (P & E & HI & Hz & _).
  destruct (get_manager_for_kv_cache_spec (SlidingWindowSpec 2 demo_attn 4) 0 1) as [m0|] eqn:E0;
    [|by vm_compute in E0].
  destruct (get_manager_ok P _ _ _ _ E0) as (Hok & Hr & Hsp & Hb & Hn); [cbn; lia|cbn; lia|lia|].
  vm_compute in E0. injection E0 as <-.
  match type of Hok with mgr_ok _ ?m0 =>
    set (m := set_num_cached "r" (zlen (@nil bptr)) (set_req_blocks "r" [] m0)) end.
  assert (Hrefs : forall i, mrefs m i = 0).
  { intros i. unfold m. rewrite mrefs_save, Hr. reflexivity. }
  assert (Hpre : mgr_pre P (seq 1 (6 - 1)) m).
  { split; [done| | |].
    - apply mgr_ok_save; [done|by rewrite Hn|apply hits_ok_nil].
    - intros i _ _. rewrite (proj2 (Hz i)). lia.
    - intros i _. by rewrite Hrefs, (proj2 (Hz i)). }
  destruct (sliding_window_memory_bound P (seq 1 (6 - 1)) m "r" 0 4 2 4 demo_attn (mkSpecConfig 16 8 1 0)
    ((cdiv 11 2 + 1) * attn_page_size 2 demo_attn) Hpre) as (m1 & P1 & news & m2 & P2 & H1 & H2 & H3 & _).
  - exact Hsp.
  - exact Hb.
  - by eexists.
  - split; [vm_compute; split; congruence|]. intros _ c Hc. vm_compute in Hc. injection Hc as <-. reflexivity.
  - vm_compute; split; congruence.
  - cbn; lia.
  - cbn; lia.
  - vm_compute; congruence.
  - reflexivity.
  - exists m, P, m1, P1, news, m2, P2. split; [exact H1|]. split; [exact H2|]. rewrite H3. reflexivity.
Defined.
