(* ===== verification/Coordinator.v ===== *)
(** The KV cache coordinators of src/vllm/v1/core/kv_cache_coordinator.py:
    they run the managers of all KV cache groups over the shared block pool
    and combine their prefix-cache hits. *)
From Stdlib Require Import ZArith Lia Ascii String.
From stdpp Require Import numbers gmap strings list.
From S2P Require Import Prelude FreeQueue Request BlockHash BlockPool KVSpec SingleType.

Open Scope Z_scope.

(** ** State *)

(** What [HybridKVCacheCoordinator.verify_and_split_kv_cache_groups] computes. *)
Record HybridInfo := mkHybrid {
  full_attention_group_ids : list Z;
  other_group_ids : list Z;
  full_attention_spec : KVCacheSpec;
  other_spec : KVCacheSpec;
  other_attention_cls : ManagerClass;
  full_attn_first : bool
}.

(** The three concrete coordinators. *)
Inductive CoordKind :=
| NoPrefixCache
| Unitary (spec : KVCacheSpec) (block_size dcp_world_size : Z)
| Hybrid (info : HybridInfo).

Record KVCacheCoordinator := mkCoord {
  coord_kind : CoordKind;
  coord_groups : list KVCacheGroupSpec;
  coord_max_model_len : Z;
  coord_enable_caching : bool;
  coord_use_eagle : bool;
  block_pool : BlockPool;
  single_type_managers : list SingleTypeKVCacheManager
}.

Definition set_state (ms : list SingleTypeKVCacheManager) (P : BlockPool) (c : KVCacheCoordinator)
  : KVCacheCoordinator :=
  mkCoord (coord_kind c) (coord_groups c) (coord_max_model_len c) (coord_enable_caching c)
    (coord_use_eagle c) P ms.

(** ** Construction *)

(** One iteration of the group split: the specifications seen so far and the
    identifiers of the groups of each type. *)
Definition split_group (s : option KVCacheSpec * option KVCacheSpec * list Z * list Z)
  (ig : Z * KVCacheGroupSpec) : result (option KVCacheSpec * option KVCacheSpec * list Z * list Z) :=
  let '(full, other, full_ids, other_ids) := s in
  let '(i, g) := ig in
  if is_full (kv_cache_spec g) then
    _ ← match full with None => Ok tt | Some f => assert_ (bool_decide (f = kv_cache_spec g)) end;
    Ok (Some (default (kv_cache_spec g) full), other, full_ids ++ [i], other_ids)
  else
    _ ← match other with None => Ok tt | Some f => assert_ (bool_decide (f = kv_cache_spec g)) end;
    Ok (full, Some (default (kv_cache_spec g) other), full_ids, other_ids ++ [i]).

Definition enumerate {A} (l : list A) : list (Z * A) :=
  zip (Z.of_nat <$> seq 0 (length l)) l.

Definition list_max (l : list Z) : Z := match l with [] => 0 | x :: l' => foldr Z.max x l' end.
Definition list_min (l : list Z) : Z := match l with [] => 0 | x :: l' => foldr Z.min x l' end.

(** [verify_and_split_kv_cache_groups]. *)
Definition verify_and_split_kv_cache_groups (groups : list KVCacheGroupSpec)
  (ms : list SingleTypeKVCacheManager) (caching : bool) : result HybridInfo :=
  split ← foldM split_group (None, None, [], []) (enumerate groups);
  let '(full, other, full_ids, other_ids) :=
    (split : option KVCacheSpec * option KVCacheSpec * list Z * list Z) in
  full ← get_or AssertionError full;
  other ← get_or AssertionError other;
  first_other ← pyindex other_ids 0;
  m ← pyindex ms first_other;
  _ ← (if caching then assert_ (spec_block_size other mod spec_block_size full =? 0) else Ok tt);
  first ← (if list_max full_ids <? list_min other_ids then Ok true
           else if list_max other_ids <? list_min full_ids then Ok false
           else Err ValueError);
  Ok (mkHybrid full_ids other_ids full other (mgr_class m) first).

(** [get_kv_cache_coordinator] with the constructors it calls. *)
Definition get_kv_cache_coordinator (cfg : KVCacheConfig) (max_model_len : Z)
  (use_eagle caching events use_int : bool) (dcp_world_size : Z) : result KVCacheCoordinator :=
  let groups := kv_cache_groups cfg in
  P ← pool_init (num_blocks cfg) caching events use_int;
  ms ← mapM_res (fun ig => get_manager_for_kv_cache_spec (kv_cache_spec ig.2) ig.1 dcp_world_size)
         (enumerate groups);
  kind ←
    (if negb caching then Ok NoPrefixCache
     else match groups with
     | [g] =>
         let bs := spec_block_size (kv_cache_spec g) in
         Ok (Unitary (kv_cache_spec g) (if 1 <? dcp_world_size then bs * dcp_world_size else bs) dcp_world_size)
     | _ =>
         _ ← assert_ (dcp_world_size =? 1);
         info ← verify_and_split_kv_cache_groups groups ms caching;
         Ok (Hybrid info)
     end);
  Ok (mkCoord kind groups max_model_len caching use_eagle P ms).

(** ** Operations over all managers *)

Definition is_cross (m : SingleTypeKVCacheManager) : bool :=
  bool_decide (mgr_class m = CrossAttentionManager).

(** [get_num_blocks_to_allocate]: the sum over the managers; cross attention
    counts encoder tokens and no computed blocks. *)
Definition coord_num_blocks (rid : string) (num_tokens : Z) (new_computed_blocks : list (list bptr))
  (num_encoder_tokens : Z) (c : KVCacheCoordinator) : result Z :=
  foldM (fun total im =>
    n ← (if is_cross im.2 then
           SingleType.get_num_blocks_to_allocate im.2 (block_pool c) rid num_encoder_tokens []
         else
           blks ← pyindex new_computed_blocks im.1;
           SingleType.get_num_blocks_to_allocate im.2 (block_pool c) rid num_tokens blks);
    Ok (total + n)) 0 (enumerate (single_type_managers c)).

(** Run an operation of every manager in turn, threading the pool. *)
Fixpoint each_manager (f : SingleTypeKVCacheManager -> BlockPool -> result (SingleTypeKVCacheManager * BlockPool))
  (ms : list SingleTypeKVCacheManager) (P : BlockPool) : result (list SingleTypeKVCacheManager * BlockPool) :=
  match ms with
  | [] => Ok ([], P)
  | m :: ms' =>
      '(m, P) ← f m P;
      '(ms', P) ← each_manager f ms' P;
      Ok (m :: ms', P)
  end.

Definition coord_each (f : SingleTypeKVCacheManager -> BlockPool -> result (SingleTypeKVCacheManager * BlockPool))
  (c : KVCacheCoordinator) : result KVCacheCoordinator :=
  '(ms, P) ← each_manager f (single_type_managers c) (block_pool c);
  Ok (set_state ms P c).

Definition coord_save (rid : string) (new_computed_blocks : list (list bptr)) (c : KVCacheCoordinator)
  : result KVCacheCoordinator :=
  ms ← mapM_res (fun im =>
         blks ← pyindex new_computed_blocks im.1;
         SingleType.save_new_computed_blocks rid blks im.2) (enumerate (single_type_managers c));
  Ok (set_state ms (block_pool c) c).

Fixpoint allocate_each (rid : string) (num_tokens num_encoder_tokens : Z)
  (ms : list SingleTypeKVCacheManager) (P : BlockPool)
  : result (list (list bptr) * list SingleTypeKVCacheManager * BlockPool) :=
  match ms with
  | [] => Ok ([], [], P)
  | m :: ms' =>
      one ← SingleType.allocate_new_blocks rid (if is_cross m then num_encoder_tokens else num_tokens) m P;
      let '(new, m, P) := (one : list bptr * SingleTypeKVCacheManager * BlockPool) in
      rest ← allocate_each rid num_tokens num_encoder_tokens ms' P;
      let '(news, ms', P) := (rest : list (list bptr) * list SingleTypeKVCacheManager * BlockPool) in
      Ok (new :: news, m :: ms', P)
  end.

Definition coord_allocate (rid : string) (num_tokens num_encoder_tokens : Z) (c : KVCacheCoordinator)
  : result (list (list bptr) * KVCacheCoordinator) :=
  all ← allocate_each rid num_tokens num_encoder_tokens (single_type_managers c) (block_pool c);
  let '(news, ms, P) := (all : list (list bptr) * list SingleTypeKVCacheManager * BlockPool) in
  Ok (news, set_state ms P c).

Definition coord_cache_blocks (r : Request) (num_computed_tokens : Z) : KVCacheCoordinator -> result KVCacheCoordinator :=
  coord_each (SingleType.cache_blocks r num_computed_tokens).

Definition coord_free (rid : string) : KVCacheCoordinator -> result KVCacheCoordinator :=
  coord_each (SingleType.free rid).

Definition coord_remove_skipped (rid : string) (num_computed_tokens : Z)
  : KVCacheCoordinator -> result KVCacheCoordinator :=
  coord_each (SingleType.remove_skipped_blocks rid num_computed_tokens).

Definition coord_num_common_prefix (rid : string) (num_running_requests : Z) (c : KVCacheCoordinator)
  : result (list Z) :=
  match coord_kind c with
  | NoPrefixCache => Ok (replicate (length (single_type_managers c)) 0)
  | _ => mapM_res (fun m => SingleType.get_num_common_prefix_blocks rid num_running_requests m (block_pool c))
           (single_type_managers c)
  end.

Definition coord_get_blocks (rid : string) (c : KVCacheCoordinator) : list (list bptr) :=
  (fun m => req_blocks m rid) <$> single_type_managers c.

(** ** Longest cache hit *)

(** [HybridKVCacheCoordinator.find_longest_cache_hit]. *)
Definition hybrid_find_longest_cache_hit (h : HybridInfo) (use_eagle : bool) (P : BlockPool)
  (hashes : list BlockHash) (max_cache_hit_length : Z) : result (list (list bptr) * Z) :=
  let full_bs := spec_block_size (full_attention_spec h) in
  let other_bs := spec_block_size (other_spec h) in
  hit_full ← full_find_longest_cache_hit hashes max_cache_hit_length (full_attention_group_ids h) P
               (full_attention_spec h) use_eagle 1;
  full0 ← pyindex hit_full 0;
  hit_other ← find_longest_cache_hit (other_attention_cls h) hashes (zlen full0 * full_bs)
                (other_group_ids h) P (other_spec h) use_eagle 1;
  other0 ← pyindex hit_other 0;
  let hit_length := zlen other0 * other_bs in
  _ ← assert_ (hit_length mod full_bs =? 0);
  let hit_full := pytake (hit_length / full_bs) <$> hit_full in
  Ok (if full_attn_first h then hit_full ++ hit_other else hit_other ++ hit_full, hit_length).

Definition coord_find_longest_cache_hit (hashes : list BlockHash) (max_cache_hit_length : Z)
  (c : KVCacheCoordinator) : result (list (list bptr) * Z) :=
  match coord_kind c with
  | NoPrefixCache => Ok (replicate (length (single_type_managers c)) [], 0)
  | Unitary spec bs dcp =>
      m ← pyindex (single_type_managers c) 0;
      hit ← find_longest_cache_hit (mgr_class m) hashes max_cache_hit_length [0] (block_pool c)
              spec (coord_use_eagle c) dcp;
      hit0 ← pyindex hit 0;
      Ok (hit, zlen hit0 * bs)
  | Hybrid h => hybrid_find_longest_cache_hit h (coord_use_eagle c) (block_pool c) hashes max_cache_hit_length
  end.

(** * Invariant *)

(** References to block [i] held by all managers together. *)
Definition total_refs (ms : list SingleTypeKVCacheManager) (i : nat) : Z :=
  foldr (fun m acc => mrefs m i + acc) 0 ms.

(** The pool and the managers agree: every reference counted in the pool is
    an entry of exactly one block table. *)
Record kv_inv (ms : list SingleTypeKVCacheManager) (P : BlockPool) (l : list nat) : Prop := mkKvInv {
  kv_pool : pool_inv P l;
  kv_managers : Forall (mgr_ok P) ms;
  kv_unshared : unshared P;
  kv_refs : forall i, i ≠ 0%nat -> refc P i = total_refs ms i
}.

Lemma total_refs_app ms1 ms2 i : total_refs (ms1 ++ ms2) i = total_refs ms1 i + total_refs ms2 i.
Proof. induction ms1 as [|m ms1 IH]; [done|]. cbn. unfold total_refs in *. lia. Qed.

Lemma total_refs_nonneg ms i : 0 <= total_refs ms i.
Proof. induction ms as [|m ms IH]; [done|]. cbn. pose proof (mrefs_nonneg m i). unfold total_refs in IH. lia. Qed.

Lemma total_refs_mid ms1 m ms2 i :
  total_refs (ms1 ++ m :: ms2) i = total_refs ms1 i + mrefs m i + total_refs ms2 i.
Proof. rewrite total_refs_app. unfold total_refs at 2. cbn. fold (total_refs ms2 i). lia. Qed.

(** Focus on one manager, and put it back after one of its operations. *)
Lemma kv_focus ms1 m ms2 P l : kv_inv (ms1 ++ m :: ms2) P l -> mgr_pre P l m.
Proof.
  intros [HI Hms Hun Hr]. split; try done.
  - rewrite Forall_app, Forall_cons in Hms. naive_solver.
  - intros i Hi. rewrite Hr, total_refs_mid by done.
    pose proof (total_refs_nonneg ms1 i). pose proof (total_refs_nonneg ms2 i). lia.
Qed.

Lemma kv_unfocus ms1 m ms2 P l P' l' m' :
  kv_inv (ms1 ++ m :: ms2) P l -> mgr_step P m P' l' m' -> kv_inv (ms1 ++ m' :: ms2) P' l'.
Proof.
  intros [HI Hms Hun Hr] [HI' HS Hok' Hun' Hr' Hfr]. split; try done.
  - rewrite Forall_app, Forall_cons in Hms |- *. destruct Hms as (H1 & _ & H2).
    assert (Hframe : forall ms, (forall i, i ≠ 0%nat -> 0 < total_refs ms i -> mrefs m i < refc P i) ->
      Forall (mgr_ok P) ms -> Forall (mgr_ok P') ms).
    { intros ms Hlt. induction ms as [|m0 ms IH]; intros HF; [done|].
      apply Forall_cons in HF as [Hm0 HF]. apply Forall_cons. unfold total_refs in Hlt. cbn in Hlt.
      fold (total_refs ms) in Hlt. split.
      - eapply mgr_ok_frame; [done|done|]. intros i Hi Hpos Hn. apply Hfr; [done|done|].
        apply Hlt; [done|]. pose proof (total_refs_nonneg ms i). unfold total_refs in H. lia.
      - apply IH; [|done]. intros i Hi Hpos. apply Hlt; [done|].
        pose proof (mrefs_nonneg m0 i). unfold total_refs in Hpos. lia. }
    split; [|split; [done|]]; apply Hframe; try done; intros i Hi Hpos; rewrite Hr, total_refs_mid by done.
    + pose proof (total_refs_nonneg ms2 i). lia.
    + pose proof (total_refs_nonneg ms1 i). lia.
  - intros i Hi. rewrite Hr', Hr, !total_refs_mid by done. lia.
Qed.

Lemma same_config_trans P1 P2 P3 : same_config P1 P2 -> same_config P2 P3 -> same_config P1 P3.
Proof. apply same_config_preorder. Qed.

(** An operation that every manager performs in turn. *)
Section each.
Context (f : SingleTypeKVCacheManager -> BlockPool -> result (SingleTypeKVCacheManager * BlockPool)).
Context (pre : BlockPool -> SingleTypeKVCacheManager -> Prop).
Context (Q : SingleTypeKVCacheManager -> SingleTypeKVCacheManager -> Prop).
Context (R : BlockPool * list nat -> BlockPool * list nat -> Prop) `{!PreOrder R}.
Hypothesis Hpre : forall P P' m, same_config P P' -> pre P m -> pre P' m.
Hypothesis Hf : forall P l m, mgr_pre P l m -> pre P m ->
  exists P' l' m', f m P = Ok (m', P') /\ mgr_step P m P' l' m' /\ Q m m' /\ R (P, l) (P', l').

Lemma each_manager_ok ms2 : forall ms1 P l,
  kv_inv (ms1 ++ ms2) P l -> Forall (pre P) ms2 ->
  exists ms2' P' l', each_manager f ms2 P = Ok (ms2', P') /\ kv_inv (ms1 ++ ms2') P' l' /\
    Forall2 Q ms2 ms2' /\ R (P, l) (P', l') /\ same_config P P'.
Proof.
  induction ms2 as [|m ms2 IH]; intros ms1 P l HK HF.
  { exists [], P, l. split; [done|]. split; [done|]. split; [constructor|]. split; [reflexivity|done]. }
  apply Forall_cons in HF as [Hm HF]. cbn [each_manager].
  destruct (Hf P l m (kv_focus _ _ _ _ _ HK) Hm) as (P1 & l1 & m1 & E1 & Hst & HQ & HR).
  rewrite E1. cbn [mbind result_bind].
  pose proof (kv_unfocus _ _ _ _ _ _ _ _ HK Hst) as HK1. pose proof (ms_config _ _ _ _ _ Hst) as HS.
  destruct (IH (ms1 ++ [m1]) P1 l1) as (ms2' & P' & l' & E & HK' & HQ' & HR' & HS').
  - by rewrite <-app_assoc.
  - eapply Forall_impl; [exact HF|]. intros m' Hm'. by eapply Hpre.
  - rewrite E. cbn [mbind result_bind]. exists (m1 :: ms2'), P', l'. split; [done|].
    split; [by rewrite <-app_assoc in HK'|]. split; [by constructor|].
    split; [by etransitivity|by eapply same_config_trans].
Qed.

End each.

(** Hashes are kept and no block is taken from the free list. *)
Definition only_frees (x y : BlockPool * list nat) : Prop :=
  (forall i, hashof y.1 i = hashof x.1 i) /\ zlen x.2 <= zlen y.2.

#[export] Instance only_frees_preorder : PreOrder only_frees.
Proof.
  split; [done|]. intros x y z [H1 H2] [H3 H4]. split; [intros i; by rewrite H3|lia].
Qed.

Lemma coord_remove_skipped_step c l rid nct :
  kv_inv (single_type_managers c) (block_pool c) l ->
  Forall (fun m => computed_ok (block_pool c) m rid nct) (single_type_managers c) ->
  exists c' l', coord_remove_skipped rid nct c = Ok c' /\
    c' = set_state (single_type_managers c') (block_pool c') c /\
    kv_inv (single_type_managers c') (block_pool c') l' /\
    only_frees (block_pool c, l) (block_pool c', l') /\ same_config (block_pool c) (block_pool c') /\
    Forall2 (fun m m' => other_reqs rid m m' /\ num_cached_block m' = num_cached_block m /\
      req_blocks m' rid = nulled (Z.to_nat (skip_until m rid nct)) (req_blocks m rid) /\
      zlen (req_blocks m' rid) = zlen (req_blocks m rid))
      (single_type_managers c) (single_type_managers c').
Proof.
  intros HK Hct. unfold coord_remove_skipped, coord_each.
  destruct (each_manager_ok (remove_skipped_blocks rid nct) (fun P m => computed_ok P m rid nct)
    (fun m m' => other_reqs rid m m' /\ num_cached_block m' = num_cached_block m /\
      req_blocks m' rid = nulled (Z.to_nat (skip_until m rid nct)) (req_blocks m rid) /\
      zlen (req_blocks m' rid) = zlen (req_blocks m rid)) only_frees) with
    (ms2 := single_type_managers c) (ms1 := @nil SingleTypeKVCacheManager) (P := block_pool c) (l := l)
    as (ms' & P' & l' & E & HK' & HQ & HR & HS); [| |done|done|].
  - intros P P' m (_ & He & _) [H1 H2]. split; [done|]. by rewrite He.
  - intros P l0 m Hm Hc. destruct (remove_skipped_blocks_step P l0 m rid nct Hm Hc)
      as (P' & l' & m' & E & Hst & Hh & Hl & Ho & Hn & Hb).
    exists P', l', m'. split; [done|]. split; [done|]. split; [|done]. split; [done|]. split; [done|].
    split; [done|]. rewrite Hb. destruct (skip_until_le P m rid nct (mp_ok _ _ _ Hm) Hc) as (? & ? & _).
    unfold zlen in *. rewrite nulled_length; lia.
  - rewrite E. cbn [mbind result_bind]. exists (set_state ms' P' c), l'. done.
Qed.

(** Freeing a request never fails, and takes it out of every manager. *)
Lemma coord_free_step c l rid :
  kv_inv (single_type_managers c) (block_pool c) l ->
  exists c' l', coord_free rid c = Ok c' /\
    c' = set_state (single_type_managers c') (block_pool c') c /\
    kv_inv (single_type_managers c') (block_pool c') l' /\
    only_frees (block_pool c, l) (block_pool c', l') /\ same_config (block_pool c) (block_pool c') /\
    single_type_managers c' = pop_req rid <$> single_type_managers c.
Proof.
  intros HK. unfold coord_free, coord_each.
  destruct (each_manager_ok (free rid) (fun _ _ => True) (fun m m' => m' = pop_req rid m) only_frees) with
    (ms2 := single_type_managers c) (ms1 := @nil SingleTypeKVCacheManager) (P := block_pool c) (l := l)
    as (ms' & P' & l' & E & HK' & HQ & HR & HS); [done| |done|by apply Forall_true|].
  - intros P l0 m Hm _. destruct (free_step P l0 m rid Hm) as (P' & l' & E & Hst & Hh & ->).
    eexists P', _, _. split; [done|]. split; [done|]. split; [done|]. split; [done|].
    cbn. rewrite zlen_app. pose proof (zlen_nonneg (freed_ids P (reverse (req_blocks m rid)))). lia.
  - rewrite E. cbn [mbind result_bind]. exists (set_state ms' P' c), l'. do 5 (split; [done|]). cbn.
    clear -HQ. induction HQ; [done|]. cbn. by subst.
Qed.

(** ** Saving the hits of a new request *)

(** [for i, x in enumerate(xs)] reading [ys[i]] is a traversal of the pairs. *)
Lemma mapM_enumerate {A B C} (f : B -> A -> result C) (xs : list A) (ys : list B) :
  length xs = length ys ->
  mapM_res (fun ix => y ← pyindex ys ix.1; f y ix.2) (enumerate xs) = mapM_res (fun p => f p.1 p.2) (zip ys xs).
Proof.
  intros Hl. unfold enumerate.
  assert (H : forall pre ys', ys = pre ++ ys' -> length ys' = length xs ->
    mapM_res (fun ix => y ← pyindex ys ix.1; f y ix.2) (zip (Z.of_nat <$> seq (length pre) (length xs)) xs) =
    mapM_res (fun p => f p.1 p.2) (zip ys' xs)).
  { clear Hl. induction xs as [|x xs IH]; intros pre [|y ys'] Hys Hl; try done.
    cbn [length seq fmap list_fmap zip zip_with mapM_res fst snd].
    rewrite pyindex_nat, Hys, lookup_app_r, Nat.sub_diag by lia. cbn [lookup list_lookup get_or mbind result_bind].
    rewrite <-Hys. destruct (f y x); [|done]. cbn [mbind result_bind].
    replace (S (length pre)) with (length (pre ++ [y])) by (rewrite length_app; cbn; lia).
    rewrite (IH (pre ++ [y]) ys'); [done| |by injection Hl]. by rewrite <-app_assoc. }
  apply (H [] ys); [done|by symmetry].
Qed.

(** What a manager does with the hits of its group. *)
Definition saved (rid : string) (blks : list bptr) (m : SingleTypeKVCacheManager) : SingleTypeKVCacheManager :=
  match mgr_class m, num_cached_block m !! rid with
  | CrossAttentionManager, _ | _, Some _ => m
  | _, None => set_num_cached rid (zlen blks) (set_req_blocks rid blks m)
  end.

(** Hits are only saved for a request the manager does not know yet. *)
Definition save_pre (rid : string) (blks : list bptr) (m : SingleTypeKVCacheManager) : Prop :=
  blks = [] \/ (mgr_class m ≠ CrossAttentionManager /\ num_cached_block m !! rid = None).

Lemma save_new_computed_blocks_ok P rid blks m :
  mgr_ok P m -> save_pre rid blks m -> save_new_computed_blocks rid blks m = Ok (saved rid blks m).
Proof.
  intros Hok Hs. unfold save_new_computed_blocks, saved.
  assert (Hempty : blks ≠ [] -> mgr_class m ≠ CrossAttentionManager /\ num_cached_block m !! rid = None).
  { destruct Hs as [->|?]; naive_solver. }
  assert (Hz : (zlen blks =? 0) = true \/ blks ≠ []) by (destruct blks; [by left|by right]).
  destruct (num_cached_block m !! rid) as [n|] eqn:En.
  - destruct Hz as [->|Hz]; [by destruct (mgr_class m)|]. by destruct (Hempty Hz).
  - destruct (decide (mgr_class m = CrossAttentionManager)) as [Ec|Ec].
    + rewrite Ec. destruct Hz as [->|Hz]; [done|]. by destruct (Hempty Hz).
    + rewrite (mo_new _ _ Hok rid En Ec). by destruct (mgr_class m).
Qed.

Lemma saved_ok P rid blks m : mgr_ok P m -> hits_ok P blks -> mgr_ok P (saved rid blks m).
Proof.
  intros Hok Hh. unfold saved. destruct (num_cached_block m !! rid) eqn:E; [by destruct (mgr_class m)|].
  destruct (mgr_class m); try done; by apply mgr_ok_save.
Qed.

Lemma saved_refs P rid blks m i :
  mgr_ok P m -> save_pre rid blks m -> mrefs (saved rid blks m) i = mrefs m i + occ i blks.
Proof.
  intros Hok Hs. unfold saved. destruct (num_cached_block m !! rid) as [n|] eqn:E.
  - destruct Hs as [->|[_ ?]]; [|congruence]. cbn. destruct (mgr_class m); lia.
  - destruct (decide (mgr_class m = CrossAttentionManager)) as [Ec|Ec].
    + rewrite Ec. destruct Hs as [->|[? _]]; [|done]. cbn. lia.
    + assert (Hx : mrefs (set_num_cached rid (zlen blks) (set_req_blocks rid blks m)) i = mrefs m i + occ i blks).
      { rewrite mrefs_save, (mo_new _ _ Hok rid E Ec). cbn. lia. }
      by destruct (mgr_class m).
Qed.

Lemma saved_blocks P rid blks m :
  mgr_ok P m -> save_pre rid blks m -> req_blocks (saved rid blks m) rid = req_blocks m rid ++ blks.
Proof.
  intros Hok Hs. unfold saved. destruct (num_cached_block m !! rid) as [n|] eqn:E.
  - destruct Hs as [->|[_ ?]]; [|congruence]. rewrite app_nil_r. by destruct (mgr_class m).
  - destruct (decide (mgr_class m = CrossAttentionManager)) as [Ec|Ec].
    + rewrite Ec. destruct Hs as [->|[? _]]; [|done]. by rewrite app_nil_r.
    + assert (Hx : req_blocks (set_num_cached rid (zlen blks) (set_req_blocks rid blks m)) rid = req_blocks m rid ++ blks).
      { rewrite (mo_new _ _ Hok rid E Ec). cbn. unfold req_blocks. cbn. by rewrite lookup_insert_eq. }
      by destruct (mgr_class m).
Qed.

Lemma saved_other rid blks m : other_reqs rid m (saved rid blks m).
Proof.
  assert (H : other_reqs rid m (set_num_cached rid (zlen blks) (set_req_blocks rid blks m))).
  { split; [done|]. intros rid' Hne. unfold req_blocks. cbn. by rewrite !lookup_insert_ne. }
  unfold saved. destruct (mgr_class m), (num_cached_block m !! rid); (exact H || reflexivity).
Qed.

Lemma saved_total P rid lists ms i :
  Forall (mgr_ok P) ms -> Forall2 (save_pre rid) lists ms ->
  total_refs (zip_with (saved rid) lists ms) i = total_refs ms i + occ i (concat lists).
Proof.
  intros Hok HF. induction HF as [|blks m lists ms Hs HF IH]; [cbn; lia|].
  apply Forall_cons in Hok as [Hm Hok]. cbn. rewrite occ_app, (saved_refs P) by done.
  specialize (IH Hok). unfold total_refs in IH. rewrite IH. unfold total_refs. lia.
Qed.

Lemma evictable_free P l i :
  pool_inv P l -> (i < Z.to_nat (num_gpu_blocks P))%nat -> evictable P (PBlk i) = true <-> i ∈ l.
Proof.
  intros HI Hi. destruct (core_load P i (pi_core _ _ HI) Hi) as (b & Hb & _ & _ & Hr & _ & Hn & _).
  unfold evictable. rewrite Hb, Hr, Hn, (pi_free _ _ HI i Hi), andb_true_iff, negb_true_iff, Z.eqb_eq.
  rewrite bool_decide_eq_false. naive_solver.
Qed.

Lemma filter_remove_length (l : list nat) i : NoDup l -> i ∈ l -> zlen (filter (fun j => j ≠ i) l) = zlen l - 1.
Proof.
  induction 1 as [|x l Hx Hnd IH]; intros Hi; [by apply elem_of_nil in Hi|].
  rewrite filter_cons. destruct (decide (x = i)) as [->|Hne].
  - destruct (decide (i ≠ i)); [done|]. rewrite zlen_cons, filter_all; [lia|]. intros y Hy ->. done.
  - rewrite decide_True by done. rewrite !zlen_cons, IH; [lia|]. apply elem_of_cons in Hi. naive_solver.
Qed.

(** Touching distinct blocks removes exactly the evictable ones from the free
    list. *)
Lemma touched_free P l ps :
  pool_inv P l -> (forall p, p ∈ ps -> valid P p) -> (forall i, i ≠ 0%nat -> occ i ps <= 1) ->
  zlen (filter (fun j => PBlk j ∉ ps) l) = zlen l - num_evictable P ps.
Proof.
  intros HI Hv Ho. unfold num_evictable. induction ps as [|p ps IH].
  { rewrite filter_all by (intros; apply not_elem_of_nil). cbn. change (zlen []) with 0. lia. }
  assert (Hps : zlen (filter (fun j => PBlk j ∉ ps) l) = zlen l - zlen (filter (fun p => evictable P p = true) ps)).
  { apply IH; [intros; apply Hv; rewrite elem_of_cons; by right|]. intros i Hi. specialize (Ho i Hi). cbn in Ho.
    destruct (decide (p = PBlk i)); lia. }
  destruct (Hv p) as (i & -> & Hi); [rewrite elem_of_cons; by left|].
  rewrite (filter_ext_in _ (fun j => j ≠ i /\ PBlk j ∉ ps)) by (intros j _; rewrite elem_of_cons; naive_solver congruence).
  rewrite <-filter_filter, filter_cons.
  destruct (decide (evictable P (PBlk i) = true)) as [He|He].
  - apply (evictable_free P l i HI Hi) in He as Hin.
    assert (Hi0 : i ≠ 0%nat) by (by apply (pi_free _ _ HI) in Hin as [? _]).
    assert (Hni : PBlk i ∉ ps).
    { intros Hx%occ_pos. specialize (Ho i Hi0). cbn in Ho. rewrite decide_True in Ho by done. lia. }
    rewrite filter_remove_length, Hps, zlen_cons; [lia| |].
    + apply NoDup_filter, (iq_nodup _ _ (pi_queue _ _ HI)).
    + by apply list_elem_of_filter.
  - rewrite filter_all; [done|]. intros j [_ Hj]%list_elem_of_filter ->. apply He. by apply (evictable_free P l).
Qed.

Definition sum_evictable (P : BlockPool) (lists : list (list bptr)) : Z :=
  foldr (fun blks acc => num_evictable P blks + acc) 0 lists.

Lemma sum_evictable_concat P lists : sum_evictable P lists = num_evictable P (concat lists).
Proof.
  induction lists as [|x lists IH]; [done|]. cbn [sum_evictable foldr concat]. fold (sum_evictable P lists).
  rewrite IH. unfold num_evictable. by rewrite filter_app, zlen_app.
Qed.

Lemma touch_save_step ms P l lists rid :
  kv_inv ms P l -> Forall2 (save_pre rid) lists ms -> Forall (hits_ok P) lists ->
  (forall i, i ≠ 0%nat -> occ i (concat lists) <= 1) ->
  exists P', touch lists P = Ok P' /\
    kv_inv (zip_with (saved rid) lists ms) P' (filter (fun j => PBlk j ∉ concat lists) l) /\
    same_config P P' /\ (forall i, hashof P' i = hashof P i) /\
    zlen (filter (fun j => PBlk j ∉ concat lists) l) = zlen l - sum_evictable P lists.
Proof.
  intros [HI Hms Hun Hr] HF Hh Ho.
  assert (Hin : forall p, p ∈ concat lists -> exists blks, blks ∈ lists /\ p ∈ blks /\ hits_ok P blks).
  { intros p (blks & Hp & Hb)%list_elem_of_In%in_concat. apply list_elem_of_In in Hp, Hb.
    exists blks. split; [done|]. split; [done|]. rewrite Forall_forall in Hh. auto. }
  assert (Hv : forall p, p ∈ concat lists -> valid P p).
  { intros p Hp. destruct (Hin p Hp) as (blks & _ & Hpb & Hok). by apply Hok. }
  destruct (touch_list P l (concat lists) HI Hv) as (P' & E & HI' & HB).
  assert (Hhash : forall i, hashof P' i = hashof P i) by (intros i; apply (bump_hashof _ _ _ _ HB)).
  assert (Hrc : forall i, i ≠ 0%nat -> refc P' i = refc P i + occ i (concat lists)).
  { intros i Hi. apply (refc_bump_ge _ _ _ i HB (pi_core _ _ HI) Hi).
    destruct (decide (PBlk i ∈ concat lists)) as [Hx|Hx]; [right|left; by apply occ_zero].
    by destruct (Hv _ Hx) as (? & [= ->] & ?). }
  exists P'. split; [by unfold touch; rewrite foldM_concat|]. split; [|split; [apply HB|split; [done|]]].
  - split; [done| | |].
    + assert (Hms' : Forall (mgr_ok P') ms).
      { eapply Forall_impl; [exact Hms|]. intros m Hm. eapply mgr_ok_frame; [done|apply HB|].
        intros i _ _. by rewrite Hhash. }
      assert (Hh' : Forall (hits_ok P') lists).
      { eapply Forall_impl; [exact Hh|]. intros blks (H1 & H2 & H3 & H4). split; [|split; [done|split; [done|]]].
        - intros p Hp. destruct (H1 p Hp) as (i & -> & ?). exists i. destruct HB as ((-> & _) & _). done.
        - intros i Hi Hb. rewrite Hhash. auto. }
      clear -HF Hms' Hh'. induction HF as [|blks m lists ms Hs HF IH]; [constructor|].
      apply Forall_cons in Hms' as [? ?], Hh' as [? ?]. cbn. constructor; [by apply saved_ok|auto].
    + intros i Hi. rewrite Hhash, Hrc by done. intros Hn. rewrite occ_zero; [specialize (Hun i Hi Hn); lia|].
      intros Hx. destruct (Hin _ Hx) as (blks & _ & Hb & (_ & _ & _ & H4)). destruct (H4 i Hi Hb). congruence.
    + intros i Hi. rewrite Hrc, (saved_total P), Hr by done. done.
  - by rewrite sum_evictable_concat, <-(touched_free P l).
Qed.

(** ** Allocating in every manager *)

(** The tokens a manager needs slots for: encoder tokens for cross attention,
    and the speculative blocks of Mamba on top. *)
Definition slot_tokens (m : SingleTypeKVCacheManager) (nt enc : Z) : Z :=
  let t := if is_cross m then enc else nt in
  match mgr_spec m with
  | MambaSpec bs _ _ _ _ n => if 0 <? n then t + bs * n else t
  | _ => t
  end.

Lemma mamba_tokens_slot P m nt enc :
  mgr_ok P m -> mamba_tokens m (if is_cross m then enc else nt) = Ok (slot_tokens m nt enc).
Proof.
  intros Hok. pose proof (mo_class _ _ Hok) as Hc. unfold mamba_tokens, slot_tokens, is_cross.
  destruct (mgr_spec m); cbn in Hc; try discriminate Hc; injection Hc as <-; done.
Qed.

Lemma slot_tokens_same m m' nt enc : mgr_same m m' -> slot_tokens m' nt enc = slot_tokens m nt enc.
Proof. intros (H1 & H2 & H3 & _). unfold slot_tokens, is_cross. by rewrite H1, H3. Qed.

(** Blocks missing in a manager's table. *)
Definition deficit (rid : string) (nt enc : Z) (m : SingleTypeKVCacheManager) : Z :=
  blocks_short m rid (slot_tokens m nt enc).

Definition sum_deficit (rid : string) (nt enc : Z) (ms : list SingleTypeKVCacheManager) : Z :=
  foldr (fun m acc => Z.max 0 (deficit rid nt enc m) + acc) 0 ms.

Lemma sum_deficit_nonneg rid nt enc ms : 0 <= sum_deficit rid nt enc ms.
Proof. induction ms as [|m ms IH]; [done|]. cbn. unfold sum_deficit in IH. lia. Qed.

(** What allocation does to a manager. *)
Definition grown (rid : string) (nt enc : Z) (m : SingleTypeKVCacheManager)
  (nm : list bptr * SingleTypeKVCacheManager) : Prop :=
  other_reqs rid m nm.2 /\ num_cached_block nm.2 = num_cached_block m /\
  req_blocks nm.2 rid = req_blocks m rid ++ nm.1 /\ zlen nm.1 = Z.max 0 (deficit rid nt enc m).

(** Blocks in use keep their hash. *)
Definition keeps_used (P P' : BlockPool) : Prop :=
  forall i, i ≠ 0%nat -> 0 < refc P i -> hashof P' i = hashof P i /\ refc P' i = refc P i.

Lemma keeps_sole P P' p : keeps_used P P' -> sole P p -> sole P' p.
Proof. intros Hk (i & -> & Hi & Hr). exists i. destruct (Hk i Hi) as [_ ->]; [lia|]. done. Qed.

Lemma allocate_each_ok rid nt enc ms2 : forall ms1 P l,
  kv_inv (ms1 ++ ms2) P l ->
  Forall (fun m => is_Some (num_cached_block m !! rid) \/ mgr_class m = CrossAttentionManager) ms2 ->
  sum_deficit rid nt enc ms2 <= zlen l ->
  exists news ms2' P' l', allocate_each rid nt enc ms2 P = Ok (news, ms2', P') /\
    kv_inv (ms1 ++ ms2') P' l' /\ same_config P P' /\ zlen l' = zlen l - sum_deficit rid nt enc ms2 /\
    length news = length ms2' /\ Forall2 (grown rid nt enc) ms2 (zip news ms2') /\ keeps_used P P' /\ Forall (sole P') (concat news).
Proof.
  induction ms2 as [|m ms2 IH]; intros ms1 P l HK HF Hsum.
  { exists [], [], P, l. split; [done|]. split; [done|]. split; [done|]. split; [cbn; lia|].
    split; [done|]. split; [constructor|]. split; [done|constructor]. }
  apply Forall_cons in HF as [Hm HF]. cbn [allocate_each]. cbn in Hsum.
  fold (sum_deficit rid nt enc ms2) in Hsum. pose proof (sum_deficit_nonneg rid nt enc ms2).
  pose proof (kv_focus _ _ _ _ _ HK) as Hpre.
  destruct (allocate_new_blocks_step P l m rid (if is_cross m then enc else nt) (slot_tokens m nt enc) Hpre)
    as (P1 & l1 & m1 & new & E1 & Hst & Hl1 & Ho & Hn & Hb & Hnl & Hk & Hsole); [|unfold deficit in Hsum; lia|done|].
  { by apply (mamba_tokens_slot P), (mp_ok _ _ _ Hpre). }
  rewrite E1. cbn [mbind result_bind].
  pose proof (kv_unfocus _ _ _ _ _ _ _ _ HK Hst) as HK1. pose proof (ms_config _ _ _ _ _ Hst) as HS.
  destruct (IH (ms1 ++ [m1]) P1 l1) as (news & ms2' & P' & l' & E & HK' & HS' & Hl' & Hlen & HG & Hk' & Hsole').
  - by rewrite <-app_assoc.
  - done.
  - unfold deficit in Hsum. lia.
  - rewrite E. cbn [mbind result_bind]. exists (new :: news), (m1 :: ms2'), P', l'. split; [done|].
    split; [by rewrite <-app_assoc in HK'|]. split; [by eapply same_config_trans|].
    split; [cbn; fold (sum_deficit rid nt enc ms2); unfold deficit in *; lia|].
    split; [cbn; by rewrite Hlen|]. split; [cbn; constructor; [|done]; by repeat split; try apply Ho|].
    split.
    + intros i Hi Hpos. destruct (Hk i Hi Hpos) as [<- <-]. apply Hk'; [done|]. destruct (Hk i Hi Hpos) as [_ ->]. done.
    + apply Forall_app. split; [|done]. eapply Forall_impl; [exact Hsole|]. intros p. by apply keeps_sole.
Qed.

(** ** The number of blocks an allocation needs *)

Lemma foldM_enumerate_sum {A B} (g : Z -> Z * A -> result Z) (h : B -> A -> Z) (xs : list A) (ys : list B) s :
  length xs = length ys ->
  (forall s k x y, xs !! k = Some x -> ys !! k = Some y -> g s (Z.of_nat k, x) = Ok (s + h y x)) ->
  foldM g s (enumerate xs) = Ok (s + foldr Z.add 0 (zip_with h ys xs)).
Proof.
  intros Hl Hg. unfold enumerate.
  assert (H : forall n xs ys s, length xs = length ys ->
    (forall s k x y, xs !! k = Some x -> ys !! k = Some y -> g s (Z.of_nat (n + k), x) = Ok (s + h y x)) ->
    foldM g s (zip (Z.of_nat <$> seq n (length xs)) xs) = Ok (s + foldr Z.add 0 (zip_with h ys xs))).
  { clear. intros n xs. revert n. induction xs as [|x xs IH]; intros n [|y ys] s Hl Hg; try done.
    { cbn. by rewrite Z.add_0_r. }
    cbn [length seq fmap list_fmap zip zip_with foldM foldr].
    specialize (Hg s 0%nat x y eq_refl eq_refl) as Hg0. rewrite Nat.add_0_r in Hg0. rewrite Hg0.
    cbn [mbind result_bind]. rewrite (IH (S n) ys).
    - f_equal. lia.
    - by injection Hl.
    - intros s' k x' y' Hx Hy. replace (S n + k)%nat with (n + S k)%nat by lia. by apply Hg. }
  apply (H 0%nat); [done|]. intros. by apply Hg.
Qed.

Definition need_of (P : BlockPool) (rid : string) (nt enc : Z) (blks : list bptr) (m : SingleTypeKVCacheManager) : Z :=
  deficit rid nt enc m - zlen blks + num_evictable P blks.

(** The count of [get_num_blocks_to_allocate]. *)
Definition sum_need (P : BlockPool) (rid : string) (nt enc : Z) (lists : list (list bptr))
  (ms : list SingleTypeKVCacheManager) : Z :=
  foldr Z.add 0 (zip_with (need_of P rid nt enc) lists ms).

Lemma coord_num_blocks_ok c lists rid nt enc :
  Forall (mgr_ok (block_pool c)) (single_type_managers c) ->
  Forall2 (save_pre rid) lists (single_type_managers c) ->
  coord_num_blocks rid nt lists enc c = Ok (sum_need (block_pool c) rid nt enc lists (single_type_managers c)).
Proof.
  intros Hok HF. unfold coord_num_blocks.
  rewrite (foldM_enumerate_sum _ (need_of (block_pool c) rid nt enc) (single_type_managers c) lists).
  - f_equal.
  - symmetry. by eapply Forall2_length.
  - intros s k m blks Hm Hb. cbn [fst snd].
    assert (Hmk : mgr_ok (block_pool c) m) by (rewrite Forall_lookup in Hok; eauto).
    destruct (Forall2_lookup_lr _ _ _ _ _ _ HF Hb Hm) as [->|[Hcr _]].
    + pose proof (mamba_tokens_slot _ m nt enc Hmk) as Ht. unfold get_num_blocks_to_allocate.
      destruct (is_cross m) eqn:E.
      * rewrite Ht. cbn [mbind result_bind]. unfold need_of, deficit, blocks_short. f_equal. lia.
      * rewrite pyindex_nat, Hb. cbn [get_or mbind result_bind]. rewrite Ht. cbn [mbind result_bind].
        unfold need_of, deficit, blocks_short. f_equal. lia.
    + pose proof (mamba_tokens_slot _ m nt enc Hmk) as Ht. unfold is_cross in Ht |- *.
      rewrite bool_decide_false in Ht |- * by done. rewrite pyindex_nat, Hb. cbn [get_or mbind result_bind].
      unfold get_num_blocks_to_allocate. rewrite Ht. cbn [mbind result_bind].
      unfold need_of, deficit, blocks_short. f_equal. lia.
Qed.

(** After saving the hits, what is still missing. *)
Lemma deficit_saved P rid nt enc blks m :
  mgr_ok P m -> save_pre rid blks m -> deficit rid nt enc (saved rid blks m) = deficit rid nt enc m - zlen blks.
Proof.
  intros Hok Hs. destruct (saved_other rid blks m) as [Hsame _]. unfold deficit.
  rewrite (slot_tokens_same m _ nt enc Hsame). unfold blocks_short.
  rewrite (saved_blocks P) by done. destruct Hsame as (_ & -> & _). rewrite zlen_app. lia.
Qed.

(** No group is short of blocks while another one has blocks to spare. *)
Definition balanced (rid : string) (nt enc : Z) (ms : list SingleTypeKVCacheManager) : Prop :=
  Forall (fun m => 0 <= deficit rid nt enc m) ms \/ Forall (fun m => deficit rid nt enc m <= 0) ms.

Lemma balanced_sum rid nt enc ms :
  balanced rid nt enc ms ->
  sum_deficit rid nt enc ms = Z.max 0 (foldr Z.add 0 (deficit rid nt enc <$> ms)).
Proof.
  intros [H|H].
  - assert (sum_deficit rid nt enc ms = foldr Z.add 0 (deficit rid nt enc <$> ms)).
    { induction H as [|m ms Hm H IH]; [done|]. cbn. unfold sum_deficit in IH. rewrite IH. lia. }
    pose proof (sum_deficit_nonneg rid nt enc ms). lia.
  - assert (sum_deficit rid nt enc ms = 0 /\ foldr Z.add 0 (deficit rid nt enc <$> ms) <= 0) as [-> ?].
    { induction H as [|m ms Hm H [IH1 IH2]]; [done|]. cbn. unfold sum_deficit in IH1. rewrite IH1. lia. }
    lia.
Qed.

Lemma sum_need_split P rid nt enc lists ms :
  Forall (mgr_ok P) ms -> Forall2 (save_pre rid) lists ms ->
  sum_need P rid nt enc lists ms =
    foldr Z.add 0 (deficit rid nt enc <$> zip_with (saved rid) lists ms) + sum_evictable P lists.
Proof.
  intros Hok HF. unfold sum_need, sum_evictable. induction HF as [|blks m lists ms Hs HF IH]; [done|].
  apply Forall_cons in Hok as [Hm Hok]. cbn. rewrite IH, (deficit_saved P) by done. unfold need_of. lia.
Qed.

(** ** Caching in every manager *)

Definition cacheable (r : Request) (nt : Z) (P : BlockPool) (m : SingleTypeKVCacheManager) : Prop :=
  enable_caching P = true /\ enable_kv_cache_events P = false /\ mgr_class m ≠ CrossAttentionManager /\
  exists c, num_cached_block m !! request_id r = Some c /\
    c <= nt / mgr_block_size m <= zlen (req_blocks m (request_id r)) /\
    nt / mgr_block_size m <= zlen (block_hashes r).

(** The free list is the same and hashes are only added. *)
Definition same_free (x y : BlockPool * list nat) : Prop :=
  y.2 = x.2 /\ forall i h, hashof x.1 i = Some h -> hashof y.1 i = Some h.

#[export] Instance same_free_preorder : PreOrder same_free.
Proof. unfold same_free. split; [done|]. intros x y z [H1 H2] [H3 H4]. split; [congruence|auto]. Qed.

Lemma coord_cache_blocks_step c l r nt :
  kv_inv (single_type_managers c) (block_pool c) l ->
  Forall (cacheable r nt (block_pool c)) (single_type_managers c) ->
  exists c', coord_cache_blocks r nt c = Ok c' /\
    c' = set_state (single_type_managers c') (block_pool c') c /\
    kv_inv (single_type_managers c') (block_pool c') l /\ same_config (block_pool c) (block_pool c') /\
    single_type_managers c' =
      (fun m => set_num_cached (request_id r) (nt / mgr_block_size m) m) <$> single_type_managers c /\
    (forall i h, hashof (block_pool c) i = Some h -> hashof (block_pool c') i = Some h).
Proof.
  intros HK Hca. unfold coord_cache_blocks, coord_each.
  destruct (each_manager_ok (cache_blocks r nt) (cacheable r nt)
    (fun m m' => m' = set_num_cached (request_id r) (nt / mgr_block_size m) m) same_free) with
    (ms2 := single_type_managers c) (ms1 := @nil SingleTypeKVCacheManager) (P := block_pool c) (l := l)
    as (ms' & P' & l' & E & HK' & HQ & HR & HS); [| |done|done|].
  - intros P P' m (_ & He & _ & Hv) (H1 & H2 & H3). split; [by rewrite He|]. by rewrite Hv.
  - intros P l0 m Hm (H1 & H2 & H3 & n & H4 & H5 & H6).
    destruct (cache_blocks_step P l0 m r nt n Hm H1 H2 H3 H4 H5 H6) as (P' & E & Hst & _ & Hk).
    by eexists P', l0, _.
  - rewrite E. cbn [mbind result_bind]. exists (set_state ms' P' c). split; [done|]. split; [done|].
    destruct HR as [HR1 HR2]. cbn in HR1, HR2. subst l'. split; [done|]. split; [done|]. split; [|done].
    clear -HQ. cbn. induction HQ; [done|]. cbn. by subst.
Qed.
