(* ===== verification/KVCacheManager.v ===== *)
(** The KV cache manager of src/vllm/v1/core/kv_cache_manager.py, the
    interface the scheduler allocates through. *)
From Stdlib Require Import ZArith Lia Ascii String QArith Qcanon.
From stdpp Require Import numbers gmap strings list.
From S2P Require Import Prelude FreeQueue Request BlockHash BlockPool KVSpec SingleType Coordinator.

Open Scope Z_scope.

(** ** Allocation results *)

(** [KVCacheBlocks]: the blocks of every KV cache group. *)
Record KVCacheBlocks := mkBlocks { kv_blocks : list (list bptr) }.

Definition blocks_add (x y : KVCacheBlocks) : KVCacheBlocks :=
  mkBlocks (zip_with (++) (kv_blocks x) (kv_blocks y)).

(** [get_block_ids(allow_none)]; the identifiers are read from the heap. *)
Definition get_block_ids (P : BlockPool) (allow_none : bool) (b : KVCacheBlocks)
  : result (option (list (list Z))) :=
  if allow_none && forallb (fun g => zlen g =? 0) (kv_blocks b) then Ok None else
  ids ← mapM_res (fun g => mapM_res (fun p => b ← load (pheap P) p; Ok (block_id b)) g) (kv_blocks b);
  Ok (Some ids).

Definition get_unhashed_block_ids (P : BlockPool) (b : KVCacheBlocks) : result (list Z) :=
  _ ← assert_ (zlen (kv_blocks b) =? 1);
  g ← pyindex (kv_blocks b) 0;
  bs ← mapM_res (fun p => load (pheap P) p) g;
  Ok (block_id <$> filter (fun b => block_hash b = None) (bs : list KVCacheBlock)).

Definition new_empty (b : KVCacheBlocks) : KVCacheBlocks :=
  mkBlocks (replicate (length (kv_blocks b)) []).

(** ** State *)

Record PrefixCacheStats := mkStats { st_reset : bool; st_requests : Z; st_queries : Z; st_hits : Z }.

Record KVCacheManager := mkKVM {
  kvm_max_model_len : Z;
  kvm_enable_caching : bool;
  kvm_log_stats : bool;
  prefix_cache_stats : option PrefixCacheStats;
  kvm_block_size : option Z;
  coordinator : KVCacheCoordinator;
  num_kv_cache_groups : Z
}.

Definition set_coord (c : KVCacheCoordinator) (k : KVCacheManager) : KVCacheManager :=
  mkKVM (kvm_max_model_len k) (kvm_enable_caching k) (kvm_log_stats k) (prefix_cache_stats k)
    (kvm_block_size k) c (num_kv_cache_groups k).
Definition set_stats (s : option PrefixCacheStats) (k : KVCacheManager) : KVCacheManager :=
  mkKVM (kvm_max_model_len k) (kvm_enable_caching k) (kvm_log_stats k) s
    (kvm_block_size k) (coordinator k) (num_kv_cache_groups k).

Definition kvm_pool (k : KVCacheManager) : BlockPool := block_pool (coordinator k).

Definition kvm_init (cfg : KVCacheConfig) (max_model_len : Z)
  (caching use_eagle log_stats events use_int : bool) (dcp_world_size : Z) : result KVCacheManager :=
  let groups := kv_cache_groups cfg in
  bs ←
    (if caching then
       _ ← assert_ (zlen (remove_dups ((fun g => spec_block_size (kv_cache_spec g)) <$> groups)) =? 1);
       g0 ← pyindex groups 0;
       let bs := spec_block_size (kv_cache_spec g0) in
       if 1 <? dcp_world_size then
         _ ← assert_ (zlen groups =? 1); Ok (Some (bs * dcp_world_size))
       else Ok (Some bs)
     else Ok None);
  c ← get_kv_cache_coordinator cfg max_model_len use_eagle caching events use_int dcp_world_size;
  Ok (mkKVM max_model_len caching log_stats (if log_stats then Some (mkStats false 0 0 0) else None)
        bs c (zlen groups)).

(** ** Operations *)

Definition usage (k : KVCacheManager) : Qc := get_usage (kvm_pool k).

Definition make_prefix_cache_stats (k : KVCacheManager) : option PrefixCacheStats * KVCacheManager :=
  if negb (kvm_log_stats k) then (None, k)
  else (prefix_cache_stats k, set_stats (Some (mkStats false 0 0 0)) k).

Definition create_empty_block_list (k : KVCacheManager) : KVCacheBlocks :=
  mkBlocks (replicate (Z.to_nat (num_kv_cache_groups k)) []).

Definition wants_prompt_logprobs (r : Request) : bool :=
  match sampling_params r with
  | Some sp => bool_decide (is_Some (prompt_logprobs sp))
  | None => false
  end.

Definition get_computed_blocks (r : Request) (k : KVCacheManager)
  : result (KVCacheBlocks * Z * KVCacheManager) :=
  if negb (kvm_enable_caching k) || wants_prompt_logprobs r
  then Ok (create_empty_block_list k, 0, k) else
  let max_cache_hit_length := num_tokens r - 1 in
  '(computed, n) ← coord_find_longest_cache_hit (block_hashes r) max_cache_hit_length (coordinator k);
  k ← (if kvm_log_stats k then
         s ← get_or AssertionError (prefix_cache_stats k);
         Ok (set_stats (Some (mkStats (st_reset s) (st_requests s + 1)
                                (st_queries s + num_tokens r) (st_hits s + n))) k)
       else Ok k);
  Ok (mkBlocks computed, n, k).

(** The slots needed by [allocate_slots], lookahead included. *)
Definition tokens_need_slot (r : Request) (num_new_tokens num_new_computed_tokens num_lookahead_tokens : Z)
  (k : KVCacheManager) : Z :=
  Z.min (num_computed_tokens r + num_new_computed_tokens + num_new_tokens + num_lookahead_tokens)
    (kvm_max_model_len k).

(** [allocate_slots]; [None] means the request cannot be scheduled now. *)
Definition allocate_slots (r : Request) (num_new_tokens num_new_computed_tokens : Z)
  (new_computed_blocks : option KVCacheBlocks) (num_lookahead_tokens : Z) (delay_cache_blocks : bool)
  (num_encoder_tokens : Z) (k : KVCacheManager) : result (option KVCacheBlocks * KVCacheManager) :=
  _ ← raise_if (num_new_tokens =? 0) ValueError;
  let computed_list := match new_computed_blocks with
                       | Some b => kv_blocks b
                       | None => replicate (length (coord_groups (coordinator k))) []
                       end in
  let rid := request_id r in
  c ← coord_remove_skipped rid (num_computed_tokens r) (coordinator k);
  let need_slot := tokens_need_slot r num_new_tokens num_new_computed_tokens num_lookahead_tokens k in
  num_blocks_to_allocate ← coord_num_blocks rid need_slot computed_list num_encoder_tokens c;
  if get_num_free_blocks (block_pool c) <? num_blocks_to_allocate then Ok (None, set_coord c k) else
  c ← (if kvm_enable_caching k then
         P ← touch computed_list (block_pool c); Ok (set_state (single_type_managers c) P c)
       else _ ← assert_ (forallb (fun g => zlen g =? 0) computed_list); Ok c);
  c ← coord_save rid computed_list c;
  '(new_blocks, c) ← coord_allocate rid need_slot num_encoder_tokens c;
  if negb (kvm_enable_caching k) || delay_cache_blocks
  then Ok (Some (mkBlocks new_blocks), set_coord c k) else
  let num_tokens_to_cache :=
    Z.min (num_computed_tokens r + num_new_computed_tokens + num_new_tokens) (num_tokens r) in
  c ← coord_cache_blocks r num_tokens_to_cache c;
  Ok (Some (mkBlocks new_blocks), set_coord c k).

Definition kvm_free (r : Request) (k : KVCacheManager) : result KVCacheManager :=
  c ← coord_free (request_id r) (coordinator k);
  Ok (set_coord c k).

Definition kvm_reset_prefix_cache (k : KVCacheManager) : result (bool * KVCacheManager) :=
  let '(ok, P) := reset_prefix_cache (kvm_pool k) in
  let k := set_coord (set_state (single_type_managers (coordinator k)) P (coordinator k)) k in
  if negb ok then Ok (false, k) else
  if kvm_log_stats k then
    s ← get_or AssertionError (prefix_cache_stats k);
    Ok (true, set_stats (Some (mkStats true (st_requests s) (st_queries s) (st_hits s))) k)
  else Ok (true, k).

Definition kvm_num_common_prefix (r : Request) (num_running_requests : Z) (k : KVCacheManager)
  : result (list Z) :=
  _ ← assert_ (bool_decide (status r = RUNNING));
  coord_num_common_prefix (request_id r) num_running_requests (coordinator k).

Definition kvm_take_events (k : KVCacheManager) : list KVCacheEvent * KVCacheManager :=
  let '(es, P) := take_kv_events (kvm_pool k) in
  (es, set_coord (set_state (single_type_managers (coordinator k)) P (coordinator k)) k).

Definition kvm_get_blocks (rid : string) (k : KVCacheManager) : KVCacheBlocks :=
  mkBlocks (coord_get_blocks rid (coordinator k)).

Definition kvm_get_block_ids (rid : string) (k : KVCacheManager) : result (option (list (list Z))) :=
  get_block_ids (kvm_pool k) false (kvm_get_blocks rid k).

Definition kvm_cache_blocks (r : Request) (num_computed_tokens : Z) (k : KVCacheManager)
  : result KVCacheManager :=
  if kvm_enable_caching k then
    c ← coord_cache_blocks r num_computed_tokens (coordinator k); Ok (set_coord c k)
  else Ok k.

(** * Invariant *)

Definition managers (k : KVCacheManager) : list SingleTypeKVCacheManager := single_type_managers (coordinator k).

(** The KV cache manager is consistent: reference counts are the block-table
    entries, and the caching flags of the layers agree. *)
Definition kvm_inv (k : KVCacheManager) (l : list nat) : Prop :=
  kv_inv (managers k) (kvm_pool k) l /\ kvm_enable_caching k = enable_caching (kvm_pool k).

(** The cached count of the request once its hits are saved. *)
Definition cached_after (rid : string) (blks : list bptr) (m : SingleTypeKVCacheManager) : Z :=
  default (zlen blks) (num_cached_block m !! rid).

Definition tokens_to_cache (r : Request) (num_new_tokens num_new_computed_tokens : Z) : Z :=
  Z.min (num_computed_tokens r + num_new_computed_tokens + num_new_tokens) (num_tokens r).

(** What the scheduler guarantees when it calls [allocate_slots]: the computed
    tokens are backed by (cached) blocks, hits are only passed for a request
    that has no blocks yet, and the tokens to cache are hashed and extend what
    is cached already. *)
Record alloc_pre (k : KVCacheManager) (l : list nat) (r : Request) (num_new num_new_computed : Z)
  (lists : list (list bptr)) (lookahead : Z) (delay : bool) (enc : Z) : Prop := mkAllocPre {
  ap_inv : kvm_inv k l;
  ap_new : num_new ≠ 0;
  ap_computed : Forall (fun m => computed_ok (kvm_pool k) m (request_id r) (num_computed_tokens r)) (managers k);
  ap_save : Forall2 (save_pre (request_id r)) lists (managers k);
  ap_hits : Forall (hits_ok (kvm_pool k)) lists;
  ap_once : forall i, i ≠ 0%nat -> occ i (concat lists) <= 1;
  ap_nocache : kvm_enable_caching k = false -> Forall (fun blks => blks = []) lists;
  ap_balanced : balanced (request_id r) (tokens_need_slot r num_new num_new_computed lookahead k) enc
    (zip_with (saved (request_id r)) lists (managers k));
  ap_cache : kvm_enable_caching k = true -> delay = false ->
    enable_kv_cache_events (kvm_pool k) = false /\
    tokens_to_cache r num_new num_new_computed <= tokens_need_slot r num_new num_new_computed lookahead k /\
    Forall2 (fun blks m => mgr_class m ≠ CrossAttentionManager /\
      mgr_block_size m * cached_after (request_id r) blks m <= tokens_to_cache r num_new num_new_computed /\
      tokens_to_cache r num_new num_new_computed / mgr_block_size m <= zlen (block_hashes r)) lists (managers k)
}.

Lemma hits_ok_frame P P' blks :
  same_config P P' -> (forall i, hashof P' i = hashof P i) -> hits_ok P blks -> hits_ok P' blks.
Proof.
  intros (S1 & _) Hh (H1 & H2 & H3 & H4). split; [|split; [done|split; [done|]]].
  - intros p Hp. destruct (H1 p Hp) as (i & -> & ?). exists i. by rewrite S1.
  - intros i Hi Hb. rewrite Hh. auto.
Qed.

Lemma hits_hashed P lists i :
  Forall (hits_ok P) lists -> i ≠ 0%nat -> PBlk i ∈ concat lists -> is_Some (hashof P i).
Proof.
  intros Hh Hi (blks & Hp & Hb)%list_elem_of_In%in_concat. apply list_elem_of_In in Hp, Hb.
  rewrite Forall_forall in Hh. destruct (Hh _ Hp) as (_ & _ & _ & H4). by apply H4.
Qed.

(** Clearing skipped blocks changes neither the hits nor the deficits. *)
Section after_removal.
Context (rid : string) (ms ms1 : list SingleTypeKVCacheManager).
Hypothesis Hrem : Forall2 (fun m m' => other_reqs rid m m' /\ num_cached_block m' = num_cached_block m /\
  zlen (req_blocks m' rid) = zlen (req_blocks m rid)) ms ms1.

Lemma save_pre_removed lists : Forall2 (save_pre rid) lists ms -> Forall2 (save_pre rid) lists ms1.
Proof.
  intros HF. revert lists HF. induction Hrem as [|m m1 ms' ms1' (Ho & Hn & _) HR IH]; intros lists HF; [done|].
  inversion HF; subst. constructor; [|by apply IH].
  unfold save_pre in *. rewrite Hn. destruct Ho as [(-> & _) _]. done.
Qed.

Lemma deficit_removed nt enc lists P P1 :
  Forall (mgr_ok P) ms -> Forall (mgr_ok P1) ms1 -> Forall2 (save_pre rid) lists ms ->
  balanced rid nt enc (zip_with (saved rid) lists ms) -> balanced rid nt enc (zip_with (saved rid) lists ms1).
Proof.
  intros H1 H2 HF Hbal.
  assert (Heq : deficit rid nt enc <$> zip_with (saved rid) lists ms1 = deficit rid nt enc <$> zip_with (saved rid) lists ms).
  { clear Hbal. revert lists HF H1 H2. induction Hrem as [|m m1 ms' ms1' (Ho & Hn & Hz) HR IH]; intros lists HF H1 H2.
    { by inversion HF. }
    inversion HF as [|blks ? lists' ? Hs HF']; subst.
    apply Forall_cons in H1 as [? ?], H2 as [? ?]. cbn. f_equal; [|by apply IH].
    assert (Hs1 : save_pre rid blks m1).
    { unfold save_pre in *. rewrite Hn. destruct Ho as [(-> & _) _]. done. }
    rewrite (deficit_saved P1), (deficit_saved P) by done. unfold deficit.
    destruct Ho as [Hsame _]. rewrite (slot_tokens_same m m1 nt enc Hsame). unfold blocks_short.
    destruct Hsame as (_ & -> & _). lia. }
  destruct Hbal as [Hb|Hb]; [left|right].
  - rewrite <-(Forall_fmap (deficit rid nt enc) (fun z => 0 <= z)). rewrite Heq. by apply Forall_fmap.
  - rewrite <-(Forall_fmap (deficit rid nt enc) (fun z => z <= 0)). rewrite Heq. by apply Forall_fmap.
Qed.
End after_removal.

Lemma saved_known rid blks m :
  is_Some (num_cached_block (saved rid blks m) !! rid) \/ mgr_class (saved rid blks m) = CrossAttentionManager.
Proof.
  unfold saved. destruct (mgr_class m) eqn:Ec, (num_cached_block m !! rid) eqn:En; cbn;
    rewrite ?En, ?lookup_insert_eq; eauto.
Qed.

Lemma coord_save_ok c lists rid P :
  Forall (mgr_ok P) (single_type_managers c) -> Forall2 (save_pre rid) lists (single_type_managers c) ->
  coord_save rid lists c = Ok (set_state (zip_with (saved rid) lists (single_type_managers c)) (block_pool c) c).
Proof.
  intros Hok HF. unfold coord_save.
  rewrite (mapM_enumerate (save_new_computed_blocks rid)) by (symmetry; by eapply Forall2_length).
  assert (H : mapM_res (fun p => save_new_computed_blocks rid p.1 p.2) (zip lists (single_type_managers c)) =
    Ok (zip_with (saved rid) lists (single_type_managers c))).
  { induction HF as [|blks m lists' ms Hs HF IH]; [done|]. apply Forall_cons in Hok as [Hm Hok].
    cbn [zip zip_with mapM_res fst snd]. rewrite (save_new_computed_blocks_ok P) by done.
    cbn [mbind result_bind]. by rewrite (IH Hok). }
  by rewrite H.
Qed.

(** Touching the hits, or checking that there are none. *)
Definition touch_hits (caching : bool) (lists : list (list bptr)) (c : KVCacheCoordinator) : result KVCacheCoordinator :=
  if caching then P ← touch lists (block_pool c); Ok (set_state (single_type_managers c) P c)
  else _ ← assert_ (forallb (fun g => zlen g =? 0) lists); Ok c.

Lemma touch_hits_nil lists c :
  Forall (fun blks => blks = []) lists ->
  touch lists (block_pool c) = Ok (block_pool c) /\ touch_hits false lists c = Ok c.
Proof.
  intros HF. unfold touch, touch_hits. induction HF as [|? lists -> HF [IH1 IH2]]; [done|].
  split; [by cbn|]. cbn. cbn in IH2. by destruct (forallb _ lists).
Qed.

Lemma set_state_id c : set_state (single_type_managers c) (block_pool c) c = c.
Proof. by destruct c. Qed.

(** The commit part of [allocate_slots]: with enough free blocks, touching,
    saving and allocating succeed. *)
Lemma coord_commit c l lists rid nt enc caching :
  kv_inv (single_type_managers c) (block_pool c) l ->
  Forall2 (save_pre rid) lists (single_type_managers c) -> Forall (hits_ok (block_pool c)) lists ->
  (forall i, i ≠ 0%nat -> occ i (concat lists) <= 1) ->
  (caching = false -> Forall (fun blks => blks = []) lists) ->
  balanced rid nt enc (zip_with (saved rid) lists (single_type_managers c)) ->
  sum_need (block_pool c) rid nt enc lists (single_type_managers c) <= zlen l ->
  exists c1 c2 news c3 l3, touch_hits caching lists c = Ok c1 /\ coord_save rid lists c1 = Ok c2 /\
    coord_allocate rid nt enc c2 = Ok (news, c3) /\
    c3 = set_state (single_type_managers c3) (block_pool c3) c /\
    kv_inv (single_type_managers c3) (block_pool c3) l3 /\ same_config (block_pool c) (block_pool c3) /\
    length news = length (single_type_managers c3) /\
    Forall2 (grown rid nt enc) (zip_with (saved rid) lists (single_type_managers c))
      (zip news (single_type_managers c3)) /\
    (forall i, i ≠ 0%nat -> PBlk i ∈ concat lists -> hashof (block_pool c3) i = hashof (block_pool c) i) /\
    Forall (sole (block_pool c3)) (concat news).
Proof.
  intros HK HF Hh Ho Hnc Hbal Hneed.
  destruct (touch_save_step _ _ _ _ _ HK HF Hh Ho) as (P1 & Et & HK1 & HS1 & Hh1 & Hl1).
  assert (Ec : touch_hits caching lists c = Ok (set_state (single_type_managers c) P1 c)).
  { unfold touch_hits. destruct caching; [by rewrite Et|].
    destruct (touch_hits_nil lists c (Hnc eq_refl)) as [E1 E2]. rewrite E1 in Et. injection Et as <-.
    unfold touch_hits in E2. rewrite E2, set_state_id. done. }
  exists (set_state (single_type_managers c) P1 c),
    (set_state (zip_with (saved rid) lists (single_type_managers c)) P1 c). rewrite Ec.
  rewrite (sum_need_split _ _ _ _ _ _ (kv_managers _ _ _ HK) HF) in Hneed.
  set (ms1 := zip_with (saved rid) lists (single_type_managers c)) in *.
  destruct (allocate_each_ok rid nt enc ms1 [] P1 (filter (fun j => PBlk j ∉ concat lists) l)) as
    (news & ms3 & P3 & l3 & E3 & HK3 & HS3 & _ & Hlen & HG & Hkeep & Hsole).
  - exact HK1.
  - unfold ms1. apply Forall_lookup. intros k m' Hm'. apply lookup_zip_with_Some in Hm' as (blks & m & -> & _).
    apply saved_known.
  - rewrite (balanced_sum rid nt enc ms1 Hbal), Hl1.
    pose proof (pool_free_num _ _ (kv_pool _ _ _ HK1)). pose proof (zlen_nonneg (filter (fun j => PBlk j ∉ concat lists) l)).
    lia.
  - exists news, (set_state ms3 P3 c), l3. split; [done|].
    split; [by rewrite (coord_save_ok (set_state (single_type_managers c) P1 c) _ _ (block_pool c)
      (kv_managers _ _ _ HK) HF)|].
    split; [unfold coord_allocate; cbn [single_type_managers set_state block_pool]; by rewrite E3|].
    split; [done|]. split; [done|]. split; [by eapply same_config_trans|]. split; [done|]. split; [done|]. split; [|done].
    intros i Hi Hin. cbn [block_pool set_state]. destruct (Hkeep i Hi) as [-> _]; [|apply Hh1].
    rewrite (kv_refs _ _ _ HK1 i Hi). unfold ms1.
    rewrite (saved_total (block_pool c)) by (apply HK || done).
    pose proof (total_refs_nonneg (single_type_managers c) i). apply occ_pos in Hin. lia.
Qed.

(** Outcome of a successful allocation in one group: the request's table is
    its old one (blocks outside the attention window cleared), the hits and
    the new blocks, it has a slot for every token and no more blocks than that
    takes, and no other request is affected. *)
Definition allocated (rid : string) (nct nt enc : Z) (m : SingleTypeKVCacheManager) (blks new : list bptr)
  (m' : SingleTypeKVCacheManager) : Prop :=
  other_reqs rid m m' /\
  req_blocks m' rid = nulled (Z.to_nat (skip_until m rid nct)) (req_blocks m rid) ++ blks ++ new /\
  slot_tokens m nt enc <= mgr_block_size m * zlen (req_blocks m' rid) /\
  zlen (req_blocks m' rid) = Z.max (zlen (req_blocks m rid) + zlen blks) (cdiv (slot_tokens m nt enc) (mgr_block_size m)).

Lemma grown_allocated P P1 rid nct nt enc m m1 blks new m3 :
  mgr_ok P m -> mgr_ok P1 m1 -> save_pre rid blks m1 ->
  other_reqs rid m m1 -> req_blocks m1 rid = nulled (Z.to_nat (skip_until m rid nct)) (req_blocks m rid) ->
  zlen (req_blocks m1 rid) = zlen (req_blocks m rid) ->
  grown rid nt enc (saved rid blks m1) (new, m3) -> allocated rid nct nt enc m blks new m3.
Proof.
  intros Hok Hok1 Hs Ho Hb Hz (Ho3 & _ & Hb3 & Hn). cbn in *. rewrite (saved_blocks P1) in Hb3 by done.
  pose proof (saved_other rid blks m1) as Hos.
  assert (Hall : other_reqs rid m m3) by (etransitivity; [exact Ho|etransitivity; [exact Hos|done]]).
  split; [done|]. split; [by rewrite Hb3, <-app_assoc, Hb|].
  assert (Hlen : zlen (req_blocks m3 rid) = Z.max (zlen (req_blocks m rid) + zlen blks) (cdiv (slot_tokens m nt enc) (mgr_block_size m))).
  { rewrite Hb3, !zlen_app, Hn, (deficit_saved P1), Hz by done. unfold deficit. destruct Ho as [Hsame _].
    rewrite (slot_tokens_same m m1 nt enc Hsame). unfold blocks_short. destruct Hsame as (_ & -> & _). lia. }
  split; [|exact Hlen]. apply cdiv_le_iff; [apply (mo_bs _ _ Hok)|]. lia.
Qed.

(** Fields that caching does not change. *)
Lemma allocated_cached rid nct nt enc m blks new m' n :
  allocated rid nct nt enc m blks new m' -> allocated rid nct nt enc m blks new (set_num_cached rid n m').
Proof.
  intros ([Hs Ho] & Hb & Hc & Hl). split; [|done]. split; [done|]. intros rid' Hne. cbn.
  rewrite lookup_insert_ne by done. by apply Ho.
Qed.

Lemma slot_tokens_ge P m nt enc :
  mgr_ok P m -> mgr_class m ≠ CrossAttentionManager -> nt <= slot_tokens m nt enc.
Proof.
  intros Hok Hcl. unfold slot_tokens, is_cross. rewrite bool_decide_false by done.
  pose proof (mo_spec _ _ Hok) as Hsp. destruct (mgr_spec m); try lia.
  cbn in Hsp. destruct (Z.ltb_spec 0 num_speculative_blocks); nia.
Qed.

(** The tables are large enough to cache the computed tokens. *)
Lemma grown_cacheable P P3 r nt enc ttc blks m1 new m3 :
  enable_caching P3 = true -> enable_kv_cache_events P3 = false ->
  mgr_ok P m1 -> mgr_class m1 ≠ CrossAttentionManager -> save_pre (request_id r) blks m1 -> ttc <= nt ->
  mgr_block_size m1 * cached_after (request_id r) blks m1 <= ttc ->
  ttc / mgr_block_size m1 <= zlen (block_hashes r) ->
  grown (request_id r) nt enc (saved (request_id r) blks m1) (new, m3) -> cacheable r ttc P3 m3.
Proof.
  intros Hc Hev Hok Hcl Hs Ht Hcc Hh (Ho3 & Hn3 & Hb3 & Hnl). cbn in *.
  destruct (saved_other (request_id r) blks m1) as [Hsame _]. destruct Ho3 as [Hsame3 _].
  pose proof (mo_bs _ _ Hok) as Hbs.
  assert (Hbs3 : mgr_block_size m3 = mgr_block_size m1).
  { destruct Hsame as (_ & E1 & _), Hsame3 as (_ & E2 & _). congruence. }
  assert (Hcl3 : mgr_class m3 = mgr_class m1).
  { destruct Hsame as (E1 & _), Hsame3 as (E2 & _). congruence. }
  unfold cacheable. rewrite Hbs3, Hcl3. split; [done|]. split; [done|]. split; [done|].
  exists (cached_after (request_id r) blks m1). split; [|split; [split|done]].
  - rewrite Hn3. unfold saved, cached_after. destruct (num_cached_block m1 !! request_id r) eqn:E.
    + by destruct (mgr_class m1).
    + destruct (mgr_class m1); cbn; try (by rewrite lookup_insert_eq); done.
  - apply Z.div_le_lower_bound; lia.
  - transitivity (cdiv nt (mgr_block_size m1)).
    + pose proof (cdiv_mono ttc nt _ Hbs Ht). pose proof (cdiv_spec ttc _ Hbs).
      pose proof (Z.mul_div_le ttc _ Hbs). nia.
    + rewrite Hb3, (saved_blocks P), !zlen_app, Hnl, (deficit_saved P) by done. unfold deficit, blocks_short.
      pose proof (cdiv_mono nt _ _ Hbs (slot_tokens_ge P m1 nt enc Hok Hcl)). lia.
Qed.

(** * Properties *)

Lemma lookup_grown rid nt enc lists ms news ms3 j m blks :
  Forall2 (grown rid nt enc) (zip_with (saved rid) lists ms) (zip news ms3) -> length news = length ms3 ->
  ms !! j = Some m -> lists !! j = Some blks ->
  exists new m3, news !! j = Some new /\ ms3 !! j = Some m3 /\ grown rid nt enc (saved rid blks m) (new, m3).
Proof.
  intros HG Hlen Hm Hb.
  assert (Hz : zip_with (saved rid) lists ms !! j = Some (saved rid blks m)).
  { rewrite lookup_zip_with, Hb. cbn. by rewrite Hm. }
  destruct (Forall2_lookup_l _ _ _ _ _ HG Hz) as ([new m3] & Hnm & Hg).
  apply lookup_zip_with_Some in Hnm as (? & ? & [= <- <-] & H1 & H2). eauto.
Qed.

Section allocate.
Context (k : KVCacheManager) (l : list nat) (r : Request) (num_new num_new_computed : Z)
  (lists : list (list bptr)) (lookahead : Z) (delay : bool) (enc : Z).
Hypothesis Hpre : alloc_pre k l r num_new num_new_computed lists lookahead delay enc.
Let rid := request_id r.
Let nct := num_computed_tokens r.
Let nt := tokens_need_slot r num_new num_new_computed lookahead k.

(** After the skipped blocks are cleared everything the commit needs holds. *)
Lemma alloc_after_removal : exists c1 l1,
  coord_remove_skipped rid nct (coordinator k) = Ok c1 /\
  c1 = set_state (single_type_managers c1) (block_pool c1) (coordinator k) /\
  kv_inv (single_type_managers c1) (block_pool c1) l1 /\ same_config (kvm_pool k) (block_pool c1) /\
  (forall i, hashof (block_pool c1) i = hashof (kvm_pool k) i) /\
  Forall2 (fun m m' => other_reqs rid m m' /\ num_cached_block m' = num_cached_block m /\
    req_blocks m' rid = nulled (Z.to_nat (skip_until m rid nct)) (req_blocks m rid) /\
    zlen (req_blocks m' rid) = zlen (req_blocks m rid)) (managers k) (single_type_managers c1) /\
  Forall2 (save_pre rid) lists (single_type_managers c1) /\ Forall (hits_ok (block_pool c1)) lists /\
  balanced rid nt enc (zip_with (saved rid) lists (single_type_managers c1)).
Proof.
  destruct Hpre as [[HK Hcf] Hnew Hct Hsv Hh Ho Hnc Hbal Hca].
  destruct (coord_remove_skipped_step (coordinator k) l rid nct HK Hct) as (c1 & l1 & E1 & Ec1 & HK1 & [Hh1 _] & HS1 & HQ1).
  assert (HQ : Forall2 (fun m m' => other_reqs rid m m' /\ num_cached_block m' = num_cached_block m /\
    zlen (req_blocks m' rid) = zlen (req_blocks m rid)) (managers k) (single_type_managers c1)).
  { eapply Forall2_impl; [exact HQ1|]. naive_solver. }
  pose proof (save_pre_removed rid _ _ HQ lists Hsv) as Hsv1.
  exists c1, l1. do 6 (split; [done|]). split; [done|]. split.
  - eapply Forall_impl; [exact Hh|]. intros blks. by apply hits_ok_frame.
  - eapply (deficit_removed rid _ _ HQ nt enc lists); [apply HK|apply HK1|done|done].
Qed.

Lemma alloc_table_ok c1 l1 c3 news P3 :
  kv_inv (single_type_managers c1) (block_pool c1) l1 -> 
  Forall2 (fun m m' => other_reqs rid m m' /\ num_cached_block m' = num_cached_block m /\
    req_blocks m' rid = nulled (Z.to_nat (skip_until m rid nct)) (req_blocks m rid) /\
    zlen (req_blocks m' rid) = zlen (req_blocks m rid)) (managers k) (single_type_managers c1) ->
  Forall2 (save_pre rid) lists (single_type_managers c1) ->
  Forall2 (grown rid nt enc) (zip_with (saved rid) lists (single_type_managers c1)) (zip news (single_type_managers c3)) ->
  length news = length (single_type_managers c3) ->
  (forall j m blks, managers k !! j = Some m -> lists !! j = Some blks -> exists new m',
     news !! j = Some new /\ single_type_managers c3 !! j = Some m' /\ allocated rid nct nt enc m blks new m') /\
  (enable_caching P3 = true -> enable_kv_cache_events P3 = false -> kvm_enable_caching k = true -> delay = false ->
   Forall (cacheable r (tokens_to_cache r num_new num_new_computed) P3) (single_type_managers c3)).
Proof.
  intros HK1 HQ1 Hsv1 HG Hlen. destruct Hpre as [[HK Hcf] Hnew Hct Hsv Hh Ho Hnc Hbal Hca]. split.
  - intros j m blks Hm Hb.
    destruct (Forall2_lookup_l _ _ _ _ _ HQ1 Hm) as (m1 & Hm1 & Ho1 & Hn1 & Hb1 & Hz1).
    pose proof (Forall2_lookup_lr _ _ _ _ _ _ Hsv1 Hb Hm1) as Hs1.
    destruct (lookup_grown rid nt enc lists _ news _ j m1 blks HG Hlen Hm1 Hb) as (new & m3 & H1 & H2 & H3).
    exists new, m3. split; [done|]. split; [done|].
    pose proof (proj1 (Forall_lookup _ _) (kv_managers _ _ _ HK) _ _ Hm).
    pose proof (proj1 (Forall_lookup _ _) (kv_managers _ _ _ HK1) _ _ Hm1).
    by eapply (grown_allocated (kvm_pool k) (block_pool c1)).
  - intros Hc3 He3 Hcg Hd. destruct (Hca Hcg Hd) as (_ & Htt & HF).
    apply Forall_lookup. intros j m3 Hm3.
    assert (Hj : (j < length (single_type_managers c3))%nat) by (by eapply lookup_lt_Some).
    pose proof (Forall2_length _ _ _ HG) as HGl. rewrite !length_zip_with in HGl.
    pose proof (Forall2_length _ _ _ Hsv1) as Hl1. pose proof (Forall2_length _ _ _ HQ1) as Hl2.
    destruct (lists !! j) as [blks|] eqn:Hb; [|apply lookup_ge_None in Hb; lia].
    destruct (managers k !! j) as [m|] eqn:Hm; [|apply lookup_ge_None in Hm; lia].
    destruct (Forall2_lookup_l _ _ _ _ _ HQ1 Hm) as (m1 & Hm1 & Ho1 & Hn1 & Hb1 & Hz1).
    destruct (Forall2_lookup_lr _ _ _ _ _ _ HF Hb Hm) as (Hcl & Hcc & Hhh).
    pose proof (Forall2_lookup_lr _ _ _ _ _ _ Hsv1 Hb Hm1) as Hs1.
    pose proof (proj1 (Forall_lookup _ _) (kv_managers _ _ _ HK1) _ _ Hm1) as Hok1.
    destruct (lookup_grown rid nt enc lists _ news _ j m1 blks HG Hlen Hm1 Hb) as (new & m3' & _ & H2 & Hgr).
    rewrite Hm3 in H2. injection H2 as <-. destruct Ho1 as [(E1 & E2 & _) _].
    eapply (grown_cacheable (block_pool c1) P3 r nt enc); try done; try (by rewrite E1); try (by rewrite E2).
    unfold cached_after. rewrite E2, Hn1. exact Hcc.
Qed.
End allocate.

(** What [allocate_slots] leaves behind. Refused: fewer blocks are free than
    needed, and only blocks outside the attention window were released.
    Accepted: every group has the table described by [allocated], the hits are
    still cached, and nobody else uses the new blocks. *)
Definition slots_result (k : KVCacheManager) (r : Request) (nt enc : Z) (lists : list (list bptr))
  (res : option KVCacheBlocks) (k' : KVCacheManager) (l' : list nat) : Prop :=
  let rid := request_id r in
  let nct := num_computed_tokens r in
  match res with
  | None =>
      zlen l' < sum_need (kvm_pool k') rid nt enc lists (managers k') /\
      Forall2 (fun m m' => other_reqs rid m m' /\
        req_blocks m' rid = nulled (Z.to_nat (skip_until m rid nct)) (req_blocks m rid)) (managers k) (managers k')
  | Some news =>
      length (kv_blocks news) = length (managers k) /\ length (managers k') = length (managers k) /\
      (forall j m blks, managers k !! j = Some m -> lists !! j = Some blks -> exists new m',
         kv_blocks news !! j = Some new /\ managers k' !! j = Some m' /\
         allocated rid nct nt enc m blks new m') /\
      (forall i, i ≠ 0%nat -> PBlk i ∈ concat lists -> hashof (kvm_pool k') i = hashof (kvm_pool k) i) /\
      Forall (sole (kvm_pool k')) (concat (kv_blocks news))
  end.

(** Only the managers and the pool of [k] changed. *)
Definition same_setup (k k' : KVCacheManager) : Prop :=
  exists ms P, k' = set_coord (set_state ms P (coordinator k)) k /\ same_config (kvm_pool k) P.

(** The request's cached-block count after [allocate_slots]. *)
Definition counts_result (k : KVCacheManager) (r : Request) (ttc : Z) (delay : bool) (lists : list (list bptr))
  (res : option KVCacheBlocks) (k' : KVCacheManager) : Prop :=
  forall j m blks, managers k !! j = Some m -> lists !! j = Some blks -> mgr_class m ≠ CrossAttentionManager ->
    exists m', managers k' !! j = Some m' /\
    match res with
    | None => num_cached_block m' = num_cached_block m
    | Some _ => num_cached_block m' !! request_id r =
        Some (if kvm_enable_caching k && negb delay then ttc / mgr_block_size m else cached_after (request_id r) blks m)
    end.

Lemma saved_count rid blks m :
  mgr_class m ≠ CrossAttentionManager -> num_cached_block (saved rid blks m) !! rid = Some (cached_after rid blks m).
Proof.
  intros Hcl. unfold saved, cached_after. destruct (num_cached_block m !! rid) eqn:E.
  - by destruct (mgr_class m).
  - destruct (mgr_class m); cbn; rewrite ?lookup_insert_eq; done.
Qed.

Lemma total_refs_cached rid (n : SingleTypeKVCacheManager -> Z) ms i : total_refs ((fun m => set_num_cached rid (n m) m) <$> ms) i = total_refs ms i.
Proof. unfold total_refs. induction ms as [|m ms IH]; [done|]. cbn. rewrite IH. done. Qed.

Lemma allocate_slots_ok (k : KVCacheManager) (l : list nat) (r : Request)
  (num_new num_new_computed : Z) (lists : list (list bptr)) (lookahead : Z) (delay : bool) (enc : Z) :
  alloc_pre k l r num_new num_new_computed lists lookahead delay enc ->
  exists res k' l',
    allocate_slots r num_new num_new_computed (Some (mkBlocks lists)) lookahead delay enc k = Ok (res, k') /\
    kvm_inv k' l' /\
    slots_result k r (tokens_need_slot r num_new num_new_computed lookahead k) enc lists res k' l' /\
    same_setup k k' /\ counts_result k r (tokens_to_cache r num_new num_new_computed) delay lists res k'.
Proof.
  intros Hpre. unfold slots_result, counts_result. cbv zeta. assert (Hpre' := Hpre). destruct Hpre' as [[HK Hcf] Hnew Hct Hsv Hh Ho Hnc Hbal Hca].
  destruct (alloc_after_removal k l r num_new num_new_computed lists lookahead delay enc Hpre)
    as (c1 & l1 & E1 & Ec1 & HK1 & HS1 & Hh1 & HQ1 & Hsv1 & Hhit1 & Hbal1).
  unfold allocate_slots. destruct (Z.eqb_spec num_new 0) as [|_]; [done|].
  cbn [raise_if mbind result_bind kv_blocks].
  fold (tokens_need_slot r num_new num_new_computed lookahead k). rewrite E1. cbn [mbind result_bind].
  rewrite (coord_num_blocks_ok c1 lists (request_id r) (tokens_need_slot r num_new num_new_computed lookahead k) enc (kv_managers _ _ _ HK1) Hsv1). cbn [mbind result_bind].
  rewrite (pool_free_num _ _ (kv_pool _ _ _ HK1)).
  assert (Hcf1 : kvm_enable_caching k = enable_caching (block_pool c1)).
  { rewrite Hcf. destruct HS1 as (_ & -> & _). done. }
  destruct (Z.ltb_spec (zlen l1) (sum_need (block_pool c1) (request_id r)
    (tokens_need_slot r num_new num_new_computed lookahead k) enc lists (single_type_managers c1))) as [Hlt|Hge].
  { exists None, (set_coord c1 k), l1. split; [done|]. split; [done|]. split; [split; [done|]|split].
    - eapply Forall2_impl; [exact HQ1|]. naive_solver.
    - exists (single_type_managers c1), (block_pool c1). by rewrite <-Ec1.
    - intros j m blks Hm _ _. destruct (Forall2_lookup_l _ _ _ _ _ HQ1 Hm) as (m1 & Hm1 & _ & Hn1 & _). by exists m1. }
  destruct (coord_commit c1 l1 lists (request_id r) (tokens_need_slot r num_new num_new_computed lookahead k) enc (kvm_enable_caching k) HK1 Hsv1 Hhit1 Ho Hnc Hbal1 Hge)
    as (c2 & c3 & news & c4 & l4 & E2 & E3 & E4 & Ec4 & HK4 & HS4 & Hlen & HG & Hkeep & Hsole).
  fold (touch_hits (kvm_enable_caching k) lists c1). rewrite E2. cbn [mbind result_bind]. rewrite E3.
  cbn [mbind result_bind]. rewrite E4. cbn [mbind result_bind].
  destruct (alloc_table_ok k l r num_new num_new_computed lists lookahead delay enc Hpre c1 l1 c4 news
    (block_pool c4) HK1 HQ1 Hsv1 HG Hlen) as [Htab Hcab].
  assert (Hcf4 : kvm_enable_caching k = enable_caching (block_pool c4)).
  { rewrite Hcf1. destruct HS4 as (_ & -> & _). done. }
  assert (Hlen' : length news = length (managers k)).
  { pose proof (Forall2_length _ _ _ HG) as H1. pose proof (Forall2_length _ _ _ HQ1) as H2. pose proof (Forall2_length _ _ _ Hsv1) as H3.
    rewrite !length_zip_with in H1. lia. }
  assert (Ec4' : c4 = set_state (single_type_managers c4) (block_pool c4) (coordinator k)) by (rewrite Ec4; cbn; by rewrite Ec1).
  assert (HS4' : same_config (kvm_pool k) (block_pool c4)) by (by eapply same_config_trans).
  assert (Hcnt : forall j m blks, managers k !! j = Some m -> lists !! j = Some blks -> mgr_class m ≠ CrossAttentionManager ->
    exists m', single_type_managers c4 !! j = Some m' /\ mgr_block_size m' = mgr_block_size m /\
      num_cached_block m' !! request_id r = Some (cached_after (request_id r) blks m)).
  { intros j m blks Hm Hb Hcl. destruct (Forall2_lookup_l _ _ _ _ _ HQ1 Hm) as (m1 & Hm1 & [(Ecl & Ebs & _) _] & Hn1 & _).
    destruct (lookup_grown (request_id r) _ enc lists _ news _ j m1 blks HG Hlen Hm1 Hb) as (new & m3 & _ & H2 & [(_ & Hg2 & _) _] & Hg & _).
    exists m3. split; [done|]. cbn in Hg, Hg2. destruct (saved_other (request_id r) blks m1) as [(_ & Hs2 & _) _].
    split; [congruence|]. rewrite Hg, saved_count by (by rewrite Ecl). unfold cached_after. by rewrite Hn1. }
  destruct (negb (kvm_enable_caching k) || delay) eqn:Hb.
  { exists (Some (mkBlocks news)), (set_coord c4 k), l4. split; [done|]. split; [done|]. split; [split; [done|split; [by rewrite <-Hlen'|split; [done|split; [|done]]]]|split].
    - intros i Hi Hin. cbn. rewrite Hkeep by done. apply Hh1.
    - exists (single_type_managers c4), (block_pool c4). by rewrite <-Ec4'.
    - intros j m blks Hm Hbl Hcl. destruct (Hcnt j m blks Hm Hbl Hcl) as (m' & H1 & _ & H2). exists m'. split; [done|].
      by replace (kvm_enable_caching k && negb delay) with false by (by destruct (kvm_enable_caching k), delay). }
  apply orb_false_iff in Hb as [Hb1%negb_false_iff Hb2].
  destruct (Hca Hb1 Hb2) as (Hev & _).
  destruct (coord_cache_blocks_step c4 l4 r (tokens_to_cache r num_new num_new_computed) HK4)
    as (c5 & E5 & Ec5 & HK5 & HS5 & Hms5 & Hk5).
  { apply Hcab; [by rewrite <-Hcf4| |done|done].
    destruct HS4 as (_ & _ & _ & ->), HS1 as (_ & _ & _ & ->). done. }
  fold (tokens_to_cache r num_new num_new_computed). rewrite E5. cbn [mbind result_bind].
  exists (Some (mkBlocks news)), (set_coord c5 k), l4. split; [done|].
  split; [split; [done|]; change (kvm_enable_caching k = enable_caching (block_pool c5)); rewrite Hcf4; by destruct HS5 as (_ & -> & _)|].
  split; [split; [done|split; [|split; [|split]]]|split].
  - unfold managers at 1. cbn. rewrite Hms5, length_fmap. congruence.
  - intros j m blks Hm Hbl. destruct (Htab j m blks Hm Hbl) as (new & m' & H1 & H2 & H3).
    exists new, (set_num_cached (request_id r) (tokens_to_cache r num_new num_new_computed / mgr_block_size m') m').
    split; [done|]. split; [|by apply allocated_cached].
    unfold managers. cbn. rewrite Hms5, list_lookup_fmap, H2. done.
  - intros i Hi Hin. destruct (hits_hashed _ _ _ Hhit1 Hi Hin) as [h Hih].
    change (kvm_pool (set_coord c5 k)) with (block_pool c5).
    rewrite (Hk5 i h); [by rewrite <-Hh1|]. by rewrite Hkeep.
  - eapply Forall_impl; [exact Hsole|]. intros p (i & -> & Hi & Hr). exists i. split_and!; [done|done|].
    change (refc (block_pool c5) i = 1). rewrite (kv_refs _ _ _ HK5 i Hi), Hms5, <-Hr, (kv_refs _ _ _ HK4 i Hi). by rewrite total_refs_cached.
  - exists (single_type_managers c5), (block_pool c5). split; [|by eapply same_config_trans].
    rewrite Ec5 at 1. rewrite Ec4'. done.
  - intros j m blks Hm Hbl Hcl. destruct (Hcnt j m blks Hm Hbl Hcl) as (m' & H1 & Hbs & H2).
    eexists. split; [unfold managers; cbn; rewrite Hms5, list_lookup_fmap, H1; reflexivity|].
    cbn. rewrite Hb1, Hb2, lookup_insert_eq, Hbs. done.
Qed.

(** C13: [allocate_slots] called under its contract never raises. It either
    reports that too few blocks are free, having only released blocks outside
    the attention window, or gives every KV cache group a slot for each
    computed, new and lookahead token; the hits stay cached, no other request
    is affected, and the reference counts keep matching the block tables. *)
Theorem allocate_slots_correct (k : KVCacheManager) (l : list nat) (r : Request)
  (num_new num_new_computed : Z) (lists : list (list bptr)) (lookahead : Z) (delay : bool) (enc : Z) :
  alloc_pre k l r num_new num_new_computed lists lookahead delay enc ->
  exists res k' l',
    allocate_slots r num_new num_new_computed (Some (mkBlocks lists)) lookahead delay enc k = Ok (res, k') /\
    kvm_inv k' l' /\
    slots_result k r (tokens_need_slot r num_new num_new_computed lookahead k) enc lists res k' l'.
Proof.
  intros Hpre. destruct (allocate_slots_ok k l r num_new num_new_computed lists lookahead delay enc Hpre) as (res & k' & l' & ? & ? & ? & _).
  by exists res, k', l'.
Qed.

(** ** Initialisation, release and reset *)

Lemma foldr_zero_refs ms i : (forall m, m ∈ ms -> mrefs m i = 0) -> total_refs ms i = 0.
Proof.
  induction ms as [|m ms IH]; intros Hz; [done|]. cbn. rewrite Hz by (rewrite elem_of_cons; by left).
  fold (total_refs ms i). rewrite IH; [done|]. intros m' Hm'. apply Hz. rewrite elem_of_cons. by right.
Qed.

Definition group_ok (g : KVCacheGroupSpec) : Prop := 0 < spec_block_size (kv_cache_spec g) /\ spec_ok (kv_cache_spec g).

Lemma managers_init P groups dcp ms n :
  Forall group_ok groups -> Z.of_nat (n + length groups) <= 2 ^ 32 ->
  mapM_res (fun ig => get_manager_for_kv_cache_spec (kv_cache_spec ig.2) ig.1 dcp)
    (zip (Z.of_nat <$> seq n (length groups)) groups) = Ok ms ->
  Forall (mgr_ok P) ms /\ (forall m i, m ∈ ms -> mrefs m i = 0) /\ length ms = length groups.
Proof.
  revert n ms. induction groups as [|g groups IH]; intros n ms Hg Hn E.
  { cbn in E. injection E as <-. split; [constructor|]. split; [by intros ? ? ?%elem_of_nil|done]. }
  apply Forall_cons in Hg as [[Hg1 Hg2] Hg].
  cbn [length seq fmap list_fmap zip zip_with mapM_res fst snd] in E, Hn. inv_ok.
  destruct (get_manager_ok P _ _ _ _ E0 Hg1 Hg2 ltac:(lia)) as (Hm & Hz & _).
  destruct (IH (S n) _ Hg ltac:(lia) E1) as (H1 & H2 & H3). split; [by constructor|]. split.
  - intros m i [->|Hm']%elem_of_cons; auto.
  - cbn. by rewrite H3.
Qed.

Lemma kvm_init_ok cfg max_model_len caching use_eagle log_stats events use_int dcp k :
  kvm_init cfg max_model_len caching use_eagle log_stats events use_int dcp = Ok k ->
  Forall group_ok (kv_cache_groups cfg) -> zlen (kv_cache_groups cfg) <= 2 ^ 32 ->
  kvm_inv k (seq 1 (Z.to_nat (num_blocks cfg) - 1)) /\ enable_kv_cache_events (kvm_pool k) = events /\
  length (managers k) = length (kv_cache_groups cfg) /\ kvm_max_model_len k = max_model_len /\
  coord_groups (coordinator k) = kv_cache_groups cfg /\ num_gpu_blocks (kvm_pool k) = num_blocks cfg.
Proof.
  intros E Hg Hlen. unfold kvm_init in E. apply bind_Ok in E as (bs & _ & E). inv_ok.
  rename E0 into Hc. unfold get_kv_cache_coordinator in Hc.
  apply bind_Ok in Hc as (P & EP & Hc). apply bind_Ok in Hc as (ms & Ems & Hc).
  apply bind_Ok in Hc as (kind & _ & Hc). injection Hc as <-.
  assert (Hn : 0 < num_blocks cfg).
  { unfold pool_init in EP. apply bind_Ok in EP as (u & Ha & _). apply assert_Ok, Z.ltb_lt in Ha. done. }
  rewrite <-(Z2Nat.id (num_blocks cfg)) in EP by lia.
  destruct (pool_init_inv (Z.to_nat (num_blocks cfg)) caching events use_int ltac:(lia))
    as (P0 & EP0 & HI & Hz & Hc0 & Hnum & Hev & _).
  rewrite EP0 in EP. injection EP as ->.
  destruct (managers_init P (kv_cache_groups cfg) dcp ms 0 Hg ltac:(unfold zlen in Hlen; lia) Ems) as (H1 & H2 & H3).
  unfold kvm_inv, managers, kvm_pool. cbn [coordinator single_type_managers block_pool kvm_enable_caching].
  split; [|split; [done|]; split; [done|]; split; [done|]; split; [done|]; rewrite Hnum; lia].
  split; [|done]. split; [done|done| |].
  - intros i _ _. rewrite (proj2 (Hz i)). lia.
  - intros i _. rewrite (proj2 (Hz i)). symmetry. apply foldr_zero_refs. auto.
Qed.

(** Without block-table entries nothing is in use. *)
Lemma all_free P l : pool_inv P l -> (forall i, i ≠ 0%nat -> refc P i = 0) -> zlen l = num_gpu_blocks P - 1.
Proof.
  intros HI Hz. set (n := Z.to_nat (num_gpu_blocks P)). pose proof (pc_pos _ (pi_core _ _ HI)) as Hpos.
  assert (Hp : l ≡ₚ seq 1 (n - 1)).
  { apply NoDup_Permutation.
    - apply (iq_nodup _ _ (pi_queue _ _ HI)).
    - apply NoDup_seq.
    - intros i. rewrite elem_of_seq. split.
      + intros Hi. pose proof (pool_free_valid _ _ _ HI Hi) as Hv. apply (pi_free _ _ HI) in Hi; [|done]. unfold n. lia.
      + intros Hi. apply (pi_free _ _ HI); [unfold n in Hi; lia|]. split; [lia|]. apply Hz. lia. }
  unfold zlen. rewrite Hp, length_seq. unfold n. lia.
Qed.

Lemma all_unused P l : pool_inv P l -> zlen l = num_gpu_blocks P - 1 -> forall i, i ≠ 0%nat -> refc P i = 0.
Proof.
  intros HI Hz i Hi. set (n := Z.to_nat (num_gpu_blocks P)). pose proof (pc_pos _ (pi_core _ _ HI)) as Hpos.
  destruct (decide (i < n)%nat) as [Hv|Hv].
  - assert (Hp : l ≡ₚ seq 1 (n - 1)).
    { apply submseteq_length_Permutation; [|rewrite length_seq; unfold n, zlen in *; lia].
      apply NoDup_submseteq; [apply (iq_nodup _ _ (pi_queue _ _ HI))|]. intros j Hj. pose proof (pool_free_valid _ _ _ HI Hj) as Hjv.
      apply (pi_free _ _ HI) in Hj; [|done]. rewrite elem_of_seq. unfold n. lia. }
    apply (pi_free _ _ HI i Hv). rewrite Hp, elem_of_seq. lia.
  - unfold refc. destruct (bd P i) eqn:E; [|done]. exfalso. apply Hv. apply (pc_dom _ (pi_core _ _ HI)). by rewrite E.
Qed.

(** Freeing a request succeeds in every state, removes its blocks from every
    group, touches no other request and never shrinks the free list; once the
    last request is gone every block but the null block is free again and
    [reset_prefix_cache] succeeds. *)
Theorem free_releases_everything (k : KVCacheManager) (l : list nat) (r : Request) :
  kvm_inv k l ->
  exists k' l', kvm_free r k = Ok k' /\ kvm_inv k' l' /\ zlen l <= zlen l' /\
    managers k' = pop_req (request_id r) <$> managers k /\
    ((forall m rid, m ∈ managers k -> rid ≠ request_id r -> req_blocks m rid = []) ->
      zlen l' = num_gpu_blocks (kvm_pool k') - 1 /\
      exists P', reset_prefix_cache (kvm_pool k') = (true, P')).
Proof.
  intros [HK Hcf]. unfold kvm_free.
  destruct (coord_free_step (coordinator k) l (request_id r) HK) as (c' & l' & E & Ec & HK' & [_ Hl] & HS & Hms).
  rewrite E. cbn [mbind result_bind]. exists (set_coord c' k), l'. split; [done|].
  split; [split; [done|]; change (kvm_enable_caching k = enable_caching (block_pool c')); by destruct HS as (_ & -> & _)|].
  split; [done|]. split; [done|]. intros Hempty. change (kvm_pool (set_coord c' k)) with (block_pool c').
  assert (Hz : forall i, i ≠ 0%nat -> refc (block_pool c') i = 0).
  { intros i Hi. rewrite (kv_refs _ _ _ HK' i Hi). apply foldr_zero_refs. intros m' Hm'. rewrite Hms in Hm'.
    apply list_elem_of_fmap in Hm' as (m & -> & Hm). unfold mrefs.
    apply (map_fold_weak_ind (fun z M => (forall rid bs, M !! rid = Some bs -> bs = []) -> z = 0)); [done| |].
    - intros rid bs M z HM IH Hall. rewrite (Hall rid bs) by (by rewrite lookup_insert_eq). cbn.
      apply IH. intros rid' bs' H'. apply (Hall rid'). rewrite lookup_insert_ne; [done|congruence].
    - intros rid bs Hb. cbn in Hb. destruct (decide (rid = request_id r)) as [->|Hne].
      + by rewrite lookup_delete_eq in Hb.
      + rewrite lookup_delete_ne in Hb by done. specialize (Hempty m rid Hm Hne).
        unfold req_blocks in Hempty. by rewrite Hb in Hempty. }
  assert (Hfull : zlen l' = num_gpu_blocks (block_pool c') - 1) by (apply all_free; [apply HK'|done]).
  split; [done|]. destruct (reset_prefix_cache_step _ _ (kv_pool _ _ _ HK')) as (P' & Er & _).
  exists P'. rewrite Er, bool_decide_true by done. done.
Qed.

(** ** Prefix-cache hits of a request *)

Lemma hkey_inj g h g' h' :
  0 <= g < 2 ^ 32 -> 0 <= g' < 2 ^ 32 -> hkey g h = hkey g' h' -> g = g' /\ h = h'.
Proof.
  intros Hg Hg' E. unfold hkey in E. apply app_inj_2 in E as [-> E]; [|by rewrite !be_split_length].
  split; [|done]. rewrite <-(be_combine_split 4 g), <-(be_combine_split 4 g'); [by rewrite E|done|done].
Qed.

Lemma occ_le_one i ps :
  (forall j j', ps !! j = Some (PBlk i) -> ps !! j' = Some (PBlk i) -> j = j') -> occ i ps <= 1.
Proof.
  induction ps as [|p ps IH]; intros Hu; [by cbn|]. cbn. destruct (decide (p = PBlk i)) as [->|].
  - rewrite occ_zero; [done|]. intros [j Hj]%list_elem_of_lookup. by specialize (Hu 0%nat (S j) eq_refl Hj).
  - specialize (IH ltac:(intros j j' H1 H2; specialize (Hu (S j) (S j') H1 H2); lia)). lia.
Qed.

Lemma occ_concat_le_one i (ls : list (list bptr)) :
  (forall row, row ∈ ls -> occ i row <= 1) ->
  (forall k k' row row', ls !! k = Some row -> ls !! k' = Some row' -> PBlk i ∈ row -> PBlk i ∈ row' -> k = k') ->
  occ i (concat ls) <= 1.
Proof.
  induction ls as [|row ls IH]; intros H1 H2; [by cbn|]. cbn. rewrite occ_app.
  specialize (IH ltac:(intros r Hr; apply H1; rewrite elem_of_cons; by right)
    ltac:(intros k k' r r' Hk Hk' Hr Hr'; specialize (H2 (S k) (S k') r r' Hk Hk' Hr Hr'); lia)).
  specialize (H1 row ltac:(rewrite elem_of_cons; by left)).
  destruct (decide (PBlk i ∈ row)) as [Hin|Hin]; [|rewrite (occ_zero i row Hin); lia].
  rewrite (occ_zero i (concat ls)); [lia|]. intros (r & Hr & Hir)%list_elem_of_In%in_concat.
  apply list_elem_of_In in Hr, Hir. apply list_elem_of_lookup in Hr as [k Hk].
  by specialize (H2 0%nat (S k) row r eq_refl Hk Hin Hir).
Qed.

(** A block of a hit list is labelled with the group and one of the hashes. *)
Definition labelled (P : BlockPool) (gids : list Z) (hashes : list BlockHash) (hits : list (list bptr)) : Prop :=
  length hits = length gids /\
  forall k row, hits !! k = Some row -> exists g, gids !! k = Some g /\
    (forall j1 j2, (j1 <= j2)%nat -> row !! j2 = Some (PBlk 0) -> row !! j1 = Some (PBlk 0)) /\
    forall j p, row !! j = Some p -> exists i, p = PBlk i /\
      (i ≠ 0%nat -> exists h, hashes !! j = Some h /\ hashof P i = Some (hkey g h)).

Lemma hit_rows_labelled P gids hashes nulls n hits :
  hit_rows P gids hashes nulls n hits -> labelled P gids hashes hits /\ (forall row, row ∈ hits -> length row = n).
Proof.
  intros Hr. split; [|intros row; by eapply hit_rows_lengths].
  destruct Hr as [Hl Hk]. split; [done|]. intros k row Hrow.
  destruct (gids !! k) as [g|] eqn:Hg; [|apply lookup_ge_None in Hg; apply lookup_lt_Some in Hrow; lia].
  destruct (Hk k g Hg) as (blks & Hb & Hn & Hj). rewrite Hrow in Hb. injection Hb as <-.
  exists g. split; [done|]. split.
  - intros j1 j2 Hle H2. pose proof (Hj j2 _ H2) as Hx.
    destruct (row !! j1) as [p|] eqn:H1; [|apply lookup_ge_None in H1; apply lookup_lt_Some in H2; lia].
    pose proof (Hj j1 p H1) as Hy. destruct (decide (j2 < nulls)%nat).
    + rewrite decide_True in Hy by lia. by subst.
    + destruct Hx as (i & h & [= <-] & Hne & _). done.
  - intros j p Hp. pose proof (Hj j p Hp) as Hx. destruct (decide (j < nulls)%nat).
    + exists 0%nat. by split.
    + destruct Hx as (i & h & -> & _ & Hh & Hhi). exists i. split; [done|]. eauto.
Qed.

Lemma labelled_ok P gids hashes hits :
  pool_core P -> NoDup hashes -> NoDup gids -> Forall (fun g => 0 <= g < 2 ^ 32) gids ->
  labelled P gids hashes hits ->
  Forall (hits_ok P) hits /\ (forall i, i ≠ 0%nat -> occ i (concat hits) <= 1).
Proof.
  intros HC Hnh Hng Hg [Hl Hk].
  assert (Hkey : forall k row i, hits !! k = Some row -> i ≠ 0%nat -> PBlk i ∈ row ->
    exists j g h, row !! j = Some (PBlk i) /\ gids !! k = Some g /\ hashes !! j = Some h /\ hashof P i = Some (hkey g h)).
  { intros k row i Hrow Hi [j Hj]%list_elem_of_lookup. destruct (Hk k row Hrow) as (g & Hgk & _ & Hlab).
    destruct (Hlab j _ Hj) as (i' & [= <-] & Hh). destruct (Hh Hi) as (h & ? & ?). eauto 10. }
  assert (Hrow1 : forall k row i, hits !! k = Some row -> i ≠ 0%nat -> occ i row <= 1).
  { intros k row i Hrow Hi. destruct (Hk k row Hrow) as (g & Hgk & _ & Hlab). apply occ_le_one.
    intros j j' H1 H2. destruct (Hlab j _ H1) as (? & [= <-] & Hh). destruct (Hlab j' _ H2) as (? & [= <-] & Hh').
    destruct (Hh Hi) as (h & E1 & E2), (Hh' Hi) as (h' & E1' & E2'). rewrite E2 in E2'. injection E2' as E2'.
    rewrite Forall_lookup in Hg. specialize (Hg _ _ Hgk).
    apply hkey_inj in E2' as [_ <-]; [|done|done]. exact (NoDup_lookup hashes j j' h Hnh E1 E1'). }
  split.
  - apply Forall_lookup. intros k row Hrow. destruct (Hk k row Hrow) as (g & Hgk & Hpre & Hlab).
    split; [|split; [intros i Hi; by eapply Hrow1|split; [done|]]].
    + intros p [j Hj]%list_elem_of_lookup. destruct (Hlab j p Hj) as (i & -> & Hh). exists i. split; [done|].
      destruct (decide (i = 0%nat)) as [->|Hi]; [pose proof (pc_pos _ HC); lia|].
      destruct (Hh Hi) as (h & _ & Hhi). by apply (core_hash_valid P i _ HC Hhi).
    + intros i Hi Hin. destruct (Hkey k row i Hrow Hi Hin) as (j & g' & h & _ & _ & _ & ->). eauto.
  - intros i Hi. apply occ_concat_le_one.
    + intros row [k Hrow]%list_elem_of_lookup. by eapply Hrow1.
    + intros k k' row row' H1 H2 H3 H4.
      destruct (Hkey k row i H1 Hi H3) as (j & g & h & _ & Eg & _ & E).
      destruct (Hkey k' row' i H2 Hi H4) as (j' & g' & h' & _ & Eg' & _ & E').
      rewrite E in E'. injection E' as E'. rewrite Forall_lookup in Hg.
      apply hkey_inj in E' as [<- _]; [|by eapply Hg|by eapply Hg]. exact (NoDup_lookup gids k k' g Hng Eg Eg').
Qed.

(** The specifications whose lookup is supported. *)
Definition lookup_supported (s : KVCacheSpec) (dcp : Z) (use_eagle : bool) : Prop :=
  0 < spec_block_size s /\ spec_ok s /\ (is_full s = true \/ dcp = 1) /\
  match s with
  | ChunkedLocalAttentionSpec _ _ _ => use_eagle = false
  | CrossAttentionSpec _ _ | EncoderOnlyAttentionSpec _ _ => False
  | _ => True
  end.

Lemma find_hits_sound P s cls gids hashes max_length use_eagle dcp :
  pool_core P -> Forall (fun g => 0 <= g < 2 ^ 32) gids -> gids ≠ [] -> 0 <= max_length ->
  spec_manager_map s = Some cls -> lookup_supported s dcp use_eagle ->
  max_length / hit_block_size s dcp <= zlen hashes ->
  exists hits n, find_longest_cache_hit cls hashes max_length gids P s use_eagle dcp = Ok hits /\
    labelled P gids hashes hits /\ (forall row, row ∈ hits -> length row = n) /\
    hit_block_size s dcp * Z.of_nat n <= max_length.
Proof.
  intros HC Hg Hne Hml Hcls (Hbs & Hso & Hdcp & Hsup) Hlen.
  assert (Hb : 0 < hit_block_size s dcp) by (unfold hit_block_size; destruct (Z.ltb_spec 1 dcp); nia).
  assert (Hmul : forall n : nat, Z.of_nat n <= max_length / hit_block_size s dcp -> hit_block_size s dcp * Z.of_nat n <= max_length).
  { intros n Hn. pose proof (Z.mul_div_le max_length _ Hb). nia. }
  destruct s; cbn in Hcls; try discriminate Hcls; injection Hcls as <-; cbn in Hsup; try done.
  - destruct (full_lookup P gids hashes max_length HC Hg Hne Hml _ use_eagle dcp Hb eq_refl)
      as (hits & n & E & Hr & Hn & _). destruct (hit_rows_labelled _ _ _ _ _ _ Hr) as [H1 H2].
    eexists hits, _. split; [done|]. split; [done|]. split; [exact H2|]. apply Hmul. destruct use_eagle; lia.
  - destruct Hdcp as [?| ->]; [done|]. subst use_eagle. cbn in Hso.
    destruct (chunked_lookup P gids hashes max_length HC Hg Hne Hml bs a attention_chunk_size Hbs Hso Hlen)
      as (hits & n & E & Hr & Hn & _). destruct (hit_rows_labelled _ _ _ _ _ _ Hr) as [H1 H2].
    eexists hits, n. split; [done|]. split; [done|]. split; [exact H2|]. apply Hmul. cbn. lia.
  - destruct Hdcp as [?| ->]; [done|].
    destruct (sw_lookup P gids hashes max_length bs a sliding_window use_eagle HC Hg Hne Hbs Hml Hlen)
      as (hits & n & E & Hr & Hn & _). destruct (hit_rows_labelled _ _ _ _ _ _ Hr) as [H1 H2].
    eexists hits, _. split; [done|]. split; [done|]. split; [exact H2|]. apply Hmul.
    change (hit_block_size _ 1) with bs. destruct use_eagle; lia.
  - destruct Hdcp as [?| ->]; [done|]. exists (replicate (length gids) []), 0%nat. split; [done|].
    split; [|split; [by intros row [-> _]%elem_of_replicate|lia]].
    split; [by rewrite length_replicate|]. intros k row [-> Hk]%lookup_replicate_1.
    destruct (gids !! k) as [g|] eqn:Eg; [|apply lookup_ge_None in Eg; lia]. by exists g.
Qed.

(** The coordinator's lookup data fits its managers; [bs] is the common block
    size. *)
Definition coord_wf (c : KVCacheCoordinator) (bs : Z) : Prop :=
  let ms := single_type_managers c in
  0 < bs /\ Forall (fun m => mgr_block_size m = bs) ms /\ zlen ms <= 2 ^ 32 /\
  match coord_kind c with
  | NoPrefixCache => True
  | Unitary s b dcp => length ms = 1%nat /\ b = bs /\ bs = hit_block_size s dcp /\
      lookup_supported s dcp (coord_use_eagle c) /\ Forall (fun m => spec_manager_map s = Some (mgr_class m)) ms
  | Hybrid h =>
      (if full_attn_first h then full_attention_group_ids h ++ other_group_ids h
       else other_group_ids h ++ full_attention_group_ids h) = Z.of_nat <$> seq 0 (length ms) /\
      full_attention_group_ids h ≠ [] /\ other_group_ids h ≠ [] /\
      is_full (full_attention_spec h) = true /\ spec_manager_map (other_spec h) = Some (other_attention_cls h) /\
      spec_block_size (full_attention_spec h) = bs /\ spec_block_size (other_spec h) = bs /\
      lookup_supported (other_spec h) 1 (coord_use_eagle c)
  end.

Lemma seq_ids n : Z.of_nat n <= 2 ^ 32 ->
  NoDup (Z.of_nat <$> seq 0 n) /\ Forall (fun g => 0 <= g < 2 ^ 32) (Z.of_nat <$> seq 0 n).
Proof.
  intros Hn. split.
  - apply NoDup_fmap_2; [intros x y; lia|apply NoDup_seq].
  - apply Forall_forall. intros g (x & -> & Hx%elem_of_seq)%list_elem_of_fmap. lia.
Qed.

Lemma labelled_app P g1 g2 hashes h1 h2 :
  labelled P g1 hashes h1 -> labelled P g2 hashes h2 -> labelled P (g1 ++ g2) hashes (h1 ++ h2).
Proof.
  intros [L1 K1] [L2 K2]. split; [rewrite !length_app; lia|]. intros k row Hk.
  apply lookup_app_Some in Hk as [Hk|[Hge Hk]].
  - destruct (K1 k row Hk) as (g & Hg & Hr). exists g. split; [by apply lookup_app_l_Some|done].
  - destruct (K2 _ row Hk) as (g & Hg & Hr). exists g. split; [|done].
    rewrite lookup_app_r by lia. by rewrite <-L1.
Qed.

Lemma labelled_take P gids hashes hits n :
  labelled P gids hashes hits -> labelled P gids hashes (take n <$> hits).
Proof.
  intros [L K]. split; [by rewrite length_fmap|]. intros k row Hk. rewrite list_lookup_fmap in Hk.
  destruct (hits !! k) as [row0|] eqn:E; [|done]. injection Hk as <-. destruct (K k row0 E) as (g & Hg & Hp & Hr).
  exists g. split; [done|]. split.
  - intros j1 j2 Hle [H1 H2]%lookup_take_Some. rewrite lookup_take_lt by lia. by eapply Hp.
  - intros j p [Hj _]%lookup_take_Some. by apply Hr.
Qed.

Lemma pyindex0 {A} (l : list A) x : pyindex (x :: l) 0 = Ok x.
Proof. done. Qed.

Lemma hybrid_hits_sound P h use_eagle hashes max_length bs :
  pool_core P -> 0 <= max_length -> 0 < bs -> max_length / bs <= zlen hashes ->
  Forall (fun g => 0 <= g < 2 ^ 32) (full_attention_group_ids h) ->
  Forall (fun g => 0 <= g < 2 ^ 32) (other_group_ids h) ->
  full_attention_group_ids h ≠ [] -> other_group_ids h ≠ [] ->
  is_full (full_attention_spec h) = true -> spec_manager_map (other_spec h) = Some (other_attention_cls h) ->
  spec_block_size (full_attention_spec h) = bs -> spec_block_size (other_spec h) = bs ->
  lookup_supported (other_spec h) 1 use_eagle ->
  exists hits n, hybrid_find_longest_cache_hit h use_eagle P hashes max_length = Ok (hits, bs * Z.of_nat n) /\
    labelled P (if full_attn_first h then full_attention_group_ids h ++ other_group_ids h
                else other_group_ids h ++ full_attention_group_ids h) hashes hits /\
    (forall row, row ∈ hits -> length row = n) /\ bs * Z.of_nat n <= max_length.
Proof.
  intros HC Hml Hbs Hlen Hg1 Hg2 Hn1 Hn2 Hfull Hcls Hb1 Hb2 Hsup. unfold hybrid_find_longest_cache_hit.
  assert (Hhb1 : hit_block_size (full_attention_spec h) 1 = bs) by (unfold hit_block_size; by rewrite Hb1).
  assert (Hhb2 : hit_block_size (other_spec h) 1 = bs) by (unfold hit_block_size; by rewrite Hb2).
  destruct (full_lookup P _ hashes max_length HC Hg1 Hn1 Hml (full_attention_spec h) use_eagle 1)
    as (hf & nf0 & Ef & Hrf & Hnf & Hnl & _); [lia|done|]. rewrite Ef. cbn [mbind result_bind].
  destruct (hit_rows_labelled _ _ _ _ _ _ Hrf) as [Hlf Hsf]. set (nf := (if use_eagle then nf0 - 1 else nf0)%nat) in *.
  rewrite Hhb1 in Hnf. assert (Hnf' : (nf <= nf0)%nat) by (unfold nf; destruct use_eagle; lia).
  destruct hf as [|f0 hf]; [destruct Hlf as [L _]; by destruct (full_attention_group_ids h)|].
  rewrite pyindex0. cbn [mbind result_bind]. rewrite Hb1.
  assert (Hf0 : zlen f0 = Z.of_nat nf) by (unfold zlen; rewrite (Hsf f0); [done|rewrite elem_of_cons; by left]).
  rewrite Hf0.
  destruct (find_hits_sound P (other_spec h) (other_attention_cls h) (other_group_ids h) hashes
    (Z.of_nat nf * bs) use_eagle 1 HC Hg2 Hn2 ltac:(nia) Hcls Hsup) as (ho & n & Eo & Hlo & Hso & Hno).
  { rewrite Hhb2, Z.div_mul by lia. unfold zlen. lia. }
  rewrite Eo. cbn [mbind result_bind]. rewrite Hhb2 in Hno.
  destruct ho as [|o0 ho]; [destruct Hlo as [L _]; by destruct (other_group_ids h)|].
  rewrite pyindex0. cbn [mbind result_bind]. rewrite Hb2.
  assert (Ho0 : zlen o0 = Z.of_nat n) by (unfold zlen; rewrite (Hso o0); [done|rewrite elem_of_cons; by left]).
  rewrite Ho0. rewrite Z.mod_mul by lia. change (0 =? 0) with true. cbn [assert_ mbind result_bind].
  rewrite Z.div_mul by lia.
  assert (Hnn : (n <= nf)%nat) by nia.
  assert (Htk : pytake (Z.of_nat n) <$> f0 :: hf = take n <$> f0 :: hf).
  { apply list_fmap_ext. intros k row Hk. unfold pytake.
    assert (length row = nf) by (apply Hsf; by eapply list_elem_of_lookup_2).
    rewrite slice_bound_in by (unfold zlen; lia). by rewrite Nat2Z.id. }
  rewrite Htk. pose proof (labelled_take P _ hashes _ n Hlf) as Hlt.
  assert (Hst : forall row, row ∈ take n <$> f0 :: hf -> length row = n).
  { intros row (x & -> & Hx)%list_elem_of_fmap. rewrite length_take, (Hsf x Hx). lia. }
  eexists _, n. split; [by rewrite (Z.mul_comm bs)|]. split; [|split].
  - destruct (full_attn_first h); by apply labelled_app.
  - intros row Hrow. destruct (full_attn_first h); apply elem_of_app in Hrow as [?|?]; auto.
  - pose proof (Z.mul_div_le max_length bs Hbs). nia.
Qed.

Lemma coord_hits_sound c bs hashes max_length :
  pool_core (block_pool c) -> coord_wf c bs -> 0 <= max_length -> max_length / bs <= zlen hashes -> NoDup hashes ->
  exists hits n, coord_find_longest_cache_hit hashes max_length c = Ok (hits, bs * Z.of_nat n) /\
    length hits = length (single_type_managers c) /\ (forall row, row ∈ hits -> length row = n) /\
    bs * Z.of_nat n <= max_length /\ Forall (hits_ok (block_pool c)) hits /\
    (forall i, i ≠ 0%nat -> occ i (concat hits) <= 1).
Proof.
  intros HC (Hbs & Hm & Hn32 & Hk) Hml Hlen Hnd. unfold coord_find_longest_cache_hit.
  destruct (coord_kind c) as [|s b dcp|h].
  - exists (replicate (length (single_type_managers c)) []), 0%nat. rewrite Z.mul_0_r. split; [done|].
    split; [by rewrite length_replicate|]. split; [by intros row [-> _]%elem_of_replicate|]. split; [done|]. split.
    + apply Forall_forall. intros row [-> _]%elem_of_replicate. apply hits_ok_nil.
    + intros i _. generalize (length (single_type_managers c)) as x. intros x. induction x; cbn in *; lia.
  - destruct Hk as (Hl1 & -> & Hb & Hsup & Hcl). destruct (single_type_managers c) as [|m [|? ?]]; try done.
    apply Forall_cons in Hcl as [Hcl _]. rewrite pyindex0. cbn [mbind result_bind].
    assert (Hg0 : Forall (fun g => 0 <= g < 2 ^ 32) [0]) by (by apply Forall_singleton).
    destruct (find_hits_sound (block_pool c) s (mgr_class m) [0] hashes max_length (coord_use_eagle c) dcp
      HC Hg0 ltac:(done) Hml Hcl Hsup) as (hits & n & E & Hlab & Hrow & Hn); [by rewrite <-Hb|].
    rewrite E. cbn [mbind result_bind].
    destruct (labelled_ok _ _ _ _ HC Hnd ltac:(apply NoDup_singleton) Hg0 Hlab) as [H1 H2].
    destruct Hlab as [L _]. destruct hits as [|h0 [|? ?]]; try done.
    rewrite pyindex0. cbn [mbind result_bind]. exists [h0], n. rewrite <-Hb in Hn.
    split; [|by repeat split]. unfold zlen. rewrite (Hrow h0) by (by apply list_elem_of_singleton).
    by rewrite Z.mul_comm.
  - destruct Hk as (Hids & Hn1 & Hn2 & Hf & Hcls & Hb1 & Hb2 & Hsup).
    destruct (seq_ids (length (single_type_managers c)) ltac:(unfold zlen in Hn32; lia)) as [Hnd' Hr].
    rewrite <-Hids in Hnd', Hr.
    assert (HG : Forall (fun g => 0 <= g < 2 ^ 32) (full_attention_group_ids h) /\
      Forall (fun g => 0 <= g < 2 ^ 32) (other_group_ids h)).
    { destruct (full_attn_first h); apply Forall_app in Hr; naive_solver. }
    destruct (hybrid_hits_sound (block_pool c) h (coord_use_eagle c) hashes max_length bs HC Hml Hbs Hlen
      (proj1 HG) (proj2 HG) Hn1 Hn2 Hf Hcls Hb1 Hb2 Hsup) as (hits & n & E & Hlab & Hrow & Hn).
    exists hits, n. split; [done|]. destruct (labelled_ok _ _ _ _ HC Hnd Hnd' Hr Hlab) as [H1 H2].
    destruct Hlab as [L _]. rewrite L, Hids, length_fmap, length_seq. by repeat split.
Qed.

(** Hits that can be handed to [allocate_slots]: one list per group, all for
    the same [n] tokens, with cached blocks of the pool, none of them twice. *)
Definition usable_hits (k : KVCacheManager) (bs n : Z) (lists : list (list bptr)) : Prop :=
  length lists = length (managers k) /\ (forall row, row ∈ lists -> bs * zlen row = n) /\
  Forall (hits_ok (kvm_pool k)) lists /\ (forall i, i ≠ 0%nat -> occ i (concat lists) <= 1).

Lemma computed_blocks_ok (k : KVCacheManager) (l : list nat) (r : Request) (bs : Z) :
  kvm_inv k l -> coord_wf (coordinator k) bs -> num_kv_cache_groups k = zlen (managers k) ->
  (kvm_log_stats k = true -> is_Some (prefix_cache_stats k)) ->
  0 < num_tokens r ->
  (kvm_enable_caching k = true -> (num_tokens r - 1) / bs <= zlen (block_hashes r) /\ NoDup (block_hashes r)) ->
  exists b n k', get_computed_blocks r k = Ok (b, n, k') /\ kvm_inv k' l /\ coordinator k' = coordinator k /\
    kvm_max_model_len k' = kvm_max_model_len k /\ kvm_enable_caching k' = kvm_enable_caching k /\
    (kvm_enable_caching k = false -> n = 0) /\
    0 <= n < num_tokens r /\ usable_hits k bs n (kv_blocks b).
Proof.
  intros [HK Hcf] Hwf Hng Hst Hnt Hhs. unfold get_computed_blocks.
  destruct (negb (kvm_enable_caching k) || wants_prompt_logprobs r) eqn:Hcase.
  { exists (create_empty_block_list k), 0, k. split; [done|]. split; [done|]. split; [done|].
    unfold create_empty_block_list. rewrite Hng. unfold zlen. rewrite Nat2Z.id. cbn [kv_blocks].
    do 3 (split; [done|]). split; [lia|]. split; [by rewrite length_replicate|].
    split; [intros row [-> _]%elem_of_replicate; change (zlen []) with 0; lia|]. split.
    - apply Forall_forall. intros row [-> _]%elem_of_replicate. apply hits_ok_nil.
    - intros i _. generalize (length (managers k)) as x. intros x. induction x; cbn in *; lia. }
  destruct Hhs as [Hlen Hnd]; [by destruct (kvm_enable_caching k)|].
  destruct (coord_hits_sound (coordinator k) bs (block_hashes r) (num_tokens r - 1)
    (pi_core _ _ (kv_pool _ _ _ HK)) Hwf ltac:(lia) Hlen Hnd) as (hits & n & E & Hl & Hrow & Hn & Hh & Ho).
  assert (Hcon : kvm_enable_caching k = false -> bs * Z.of_nat n = 0).
  { intros Hc. by rewrite Hc in Hcase. }
  cbv zeta. rewrite E. cbn [mbind result_bind]. destruct Hwf as (Hbs & _).
  assert (Hrow' : forall row, row ∈ hits -> bs * zlen row = bs * Z.of_nat n).
  { intros row Hr. unfold zlen. by rewrite (Hrow row Hr). }
  destruct (kvm_log_stats k) eqn:Hlog.
  - destruct (Hst eq_refl) as [s ->]. cbn [get_or mbind result_bind].
    eexists (mkBlocks hits), _, _. do 6 (split; [done|]). split; [nia|]. by repeat split.
  - eexists (mkBlocks hits), _, _. do 6 (split; [done|]). split; [nia|]. by repeat split.
Qed.

(** C15: [get_computed_blocks] never raises and never reports the whole request as
    computed: at least one token is left to run. All groups report the same
    number of tokens, the reported blocks are cached blocks of the pool, no
    block is reported twice, and the hits can be handed to [allocate_slots]. *)
Theorem computed_blocks_sound (k : KVCacheManager) (l : list nat) (r : Request) (bs : Z) :
  kvm_inv k l -> coord_wf (coordinator k) bs -> num_kv_cache_groups k = zlen (managers k) ->
  (kvm_log_stats k = true -> is_Some (prefix_cache_stats k)) ->
  0 < num_tokens r -> (num_tokens r - 1) / bs <= zlen (block_hashes r) -> NoDup (block_hashes r) ->
  exists b n k', get_computed_blocks r k = Ok (b, n, k') /\ kvm_inv k' l /\ coordinator k' = coordinator k /\
    0 <= n < num_tokens r /\ usable_hits k bs n (kv_blocks b).
Proof.
  intros H1 H2 H3 H4 H5 H6 H7.
  destruct (computed_blocks_ok k l r bs H1 H2 H3 H4 H5 (fun _ => conj H6 H7)) as (b & n & k' & ? & ? & ? & _ & _ & _ & ?). eauto 10.
Qed.

(** ** Admitting a new request *)

(** The contract of [allocate_slots] for a request the manager does not know,
    with the hits [get_computed_blocks] found. *)
Lemma fresh_alloc_pre k l r bs lists n num_new lookahead delay :
  kvm_inv k l -> coord_wf (coordinator k) bs ->
  Forall (fun m => num_cached_block m !! request_id r = None /\ mgr_class m ≠ CrossAttentionManager) (managers k) ->
  enable_kv_cache_events (kvm_pool k) = false ->
  num_computed_tokens r = 0 -> 0 < num_new -> 0 <= n -> n + num_new <= num_tokens r ->
  num_tokens r <= kvm_max_model_len k -> 0 <= lookahead ->
  (kvm_enable_caching k = true -> num_tokens r / bs <= zlen (block_hashes r)) ->
  length lists = length (managers k) -> (forall row, row ∈ lists -> bs * zlen row = n) ->
  Forall (hits_ok (kvm_pool k)) lists -> (forall i, i ≠ 0%nat -> occ i (concat lists) <= 1) ->
  (kvm_enable_caching k = false -> n = 0) ->
  alloc_pre k l r num_new n lists lookahead delay 0.
Proof.
  intros HI (Hbs & Hmbs & _) Hnew Hev Hct Hnn Hn0 Hsum Hmml Hla Hhs Hlen Hrow Hh Ho Hnc.
  assert (HK := proj1 HI).
  assert (Hper : forall j m blks, managers k !! j = Some m -> lists !! j = Some blks ->
    mgr_ok (kvm_pool k) m /\ num_cached_block m !! request_id r = None /\ mgr_class m ≠ CrossAttentionManager /\
    mgr_block_size m = bs /\ bs * zlen blks = n).
  { intros j m blks Hm Hb. rewrite Forall_lookup in Hnew, Hmbs. destruct (Hnew _ _ Hm).
    pose proof (proj1 (Forall_lookup _ _) (kv_managers _ _ _ HK) _ _ Hm).
    do 3 (split; [done|]). split; [by eapply Hmbs|]. apply Hrow. by eapply list_elem_of_lookup_2. }
  assert (Hsv : Forall2 (save_pre (request_id r)) lists (managers k)).
  { apply Forall2_same_length_lookup. split; [done|]. intros j blks m Hb Hm.
    destruct (Hper j m blks Hm Hb) as (_ & ? & ? & _). by right. }
  split; try done.
  - lia.
  - apply Forall_lookup. intros j m Hm. rewrite Hct. rewrite Forall_lookup in Hnew, Hmbs.
    destruct (Hnew _ _ Hm) as [Hnone Hcl]. unfold computed_ok. rewrite (Hmbs _ _ Hm).
    split; [pose proof (zlen_nonneg (req_blocks m (request_id r))); nia|]. intros _ c. by rewrite Hnone.
  - intros Hc. apply Forall_forall. intros row Hr. specialize (Hrow row Hr). rewrite (Hnc Hc) in Hrow.
    unfold zlen in Hrow. destruct row; [done|cbn in Hrow; nia].
  - left. apply Forall_lookup. intros j m' Hm'. apply lookup_zip_with_Some in Hm' as (blks & m & -> & Hb & Hm).
    destruct (Hper j m blks Hm Hb) as (Hok & Hnone & Hcl & Hb' & Hz).
    rewrite (deficit_saved (kvm_pool k)) by (done || by right). unfold deficit, blocks_short.
    rewrite (mo_new _ _ Hok _ Hnone Hcl), Hb'. change (zlen []) with 0.
    set (nt := tokens_need_slot _ _ _ _ _).
    assert (Hnt : n <= nt) by (unfold nt, tokens_need_slot; lia).
    pose proof (slot_tokens_ge (kvm_pool k) m nt 0 Hok Hcl) as Hst.
    pose proof (cdiv_spec (slot_tokens m nt 0) bs Hbs). nia.
  - intros Hc _. split; [done|]. unfold tokens_to_cache, tokens_need_slot. rewrite Hct. split; [lia|].
    apply Forall2_same_length_lookup. split; [done|]. intros j blks m Hb Hm.
    destruct (Hper j m blks Hm Hb) as (Hok & Hnone & Hcl & Hb' & Hz). split; [done|].
    unfold cached_after. rewrite Hnone, Hb'. cbn [default]. split; [cbn; lia|].
    etransitivity; [|exact (Hhs Hc)]. apply Z.div_le_mono; lia.
Qed.

(** Scheduling a new request: looking up its cached prefix and allocating
    slots for its first chunk never raises, whatever the mix of attention
    types; the request is either refused for lack of blocks or gets slots for
    the hit tokens, the chunk and the lookahead in every group. *)
Theorem new_request_admitted (k : KVCacheManager) (l : list nat) (r : Request) (bs chunk lookahead : Z) (delay : bool) :
  kvm_inv k l -> coord_wf (coordinator k) bs -> num_kv_cache_groups k = zlen (managers k) ->
  (kvm_log_stats k = true -> is_Some (prefix_cache_stats k)) ->
  Forall (fun m => num_cached_block m !! request_id r = None /\ mgr_class m ≠ CrossAttentionManager) (managers k) ->
  enable_kv_cache_events (kvm_pool k) = false -> num_computed_tokens r = 0 ->
  0 < num_tokens r <= kvm_max_model_len k -> num_tokens r / bs <= zlen (block_hashes r) ->
  NoDup (block_hashes r) -> 0 < chunk -> 0 <= lookahead ->
  exists b n k1 res k2 l2,
    get_computed_blocks r k = Ok (b, n, k1) /\ 0 <= n < num_tokens r /\
    allocate_slots r (Z.min chunk (num_tokens r - n)) n (Some b) lookahead delay 0 k1 = Ok (res, k2) /\
    kvm_inv k2 l2 /\
    match res with
    | None => Forall2 (other_reqs (request_id r)) (managers k) (managers k2)
    | Some news => forall j m, managers k !! j = Some m -> exists m', managers k2 !! j = Some m' /\
        other_reqs (request_id r) m m' /\
        Z.min (n + Z.min chunk (num_tokens r - n) + lookahead) (kvm_max_model_len k) <=
          bs * zlen (req_blocks m' (request_id r))
    end.
Proof.
  intros HI Hwf Hng Hst Hnew Hev Hct Hnt Hhs Hnd Hch Hla. pose proof (proj1 Hwf) as Hbs.
  destruct (computed_blocks_ok k l r bs HI Hwf Hng Hst ltac:(lia)) as
    (b & n & k1 & E1 & HI1 & Hco & Hf1 & Hf2 & Hf3 & Hn & Hlen & Hrow & Hh & Ho).
  { intros _. split; [|done]. etransitivity; [|exact Hhs]. apply Z.div_le_mono; lia. }
  assert (Hm1 : managers k1 = managers k) by (unfold managers; by rewrite Hco).
  assert (Hp1 : kvm_pool k1 = kvm_pool k) by (unfold kvm_pool; by rewrite Hco).
  set (chunk' := Z.min chunk (num_tokens r - n)).
  assert (Hpre : alloc_pre k1 l r chunk' n (kv_blocks b) lookahead delay 0).
  { apply (fresh_alloc_pre k1 l r bs); rewrite ?Hm1, ?Hp1, ?Hf1, ?Hf2, ?Hco; try done; try lia. }
  destruct (allocate_slots_ok k1 l r chunk' n (kv_blocks b) lookahead delay 0 Hpre) as (res & k2 & l2 & E2 & HI2 & Hres & _).
  exists b, n, k1, res, k2, l2. split; [done|]. split; [done|]. split; [by destruct b|]. split; [done|].
  unfold slots_result in Hres. rewrite Hm1 in Hres. destruct res as [news|].
  - destruct Hres as (_ & _ & Htab & _). intros j m Hm.
    destruct (kv_blocks b !! j) as [blks|] eqn:Hb; [|apply lookup_ge_None in Hb; apply lookup_lt_Some in Hm; lia].
    destruct (Htab j m blks Hm Hb) as (new & m' & _ & Hm' & Hoth & _ & Hslots & _). exists m'. split; [done|].
    split; [done|]. destruct Hwf as (_ & Hmbs & _). rewrite Forall_lookup in Hmbs, Hnew.
    rewrite (Hmbs _ _ Hm) in Hslots. etransitivity; [|exact Hslots].
    unfold tokens_need_slot. rewrite Hct, Hf1. fold chunk'.
    pose proof (proj1 (Forall_lookup _ _) (kv_managers _ _ _ (proj1 HI)) _ _ Hm) as Hok.
    destruct (Hnew _ _ Hm) as [_ Hcl]. pose proof (slot_tokens_ge (kvm_pool k) m
      (Z.min (0 + n + chunk' + lookahead) (kvm_max_model_len k)) 0 Hok Hcl). lia.
  - destruct Hres as [_ HF]. eapply Forall2_impl; [exact HF|]. naive_solver.
Qed.

(** ** Common prefix blocks *)

Lemma fold_occ_owners i (owners : list string) : NoDup owners -> forall M : gmap string (list bptr),
  (forall rid, rid ∉ owners -> default [] (M !! rid) = []) ->
  map_fold (fun _ bs acc => occ i bs + acc) 0 M =
    foldr (fun rid acc => occ i (default [] (M !! rid)) + acc) 0 owners.
Proof.
  induction 1 as [|rid owners Hnin Hnd IH]; intros M HM.
  - apply (map_fold_weak_ind (fun z M => (forall rid : string, default [] (M !! rid) = []) -> z = 0)); [done| |].
    + intros rid bs M' z HM' IH' Hall. specialize (Hall rid) as Hr. rewrite lookup_insert_eq in Hr. cbn in Hr.
      subst bs. cbn. apply IH'. intros rid'. specialize (Hall rid'). destruct (decide (rid = rid')) as [<-|].
      * by rewrite HM'.
      * by rewrite lookup_insert_ne in Hall.
    + intros rid. apply HM, not_elem_of_nil.
  - rewrite (fold_occ_delete i rid), IH.
    + cbn. f_equal. clear -Hnin. induction owners as [|r owners IH]; [done|]. cbn.
      rewrite lookup_delete_ne by (intros ->; apply Hnin; rewrite elem_of_cons; by left).
      f_equal. apply IH. intros Hx. apply Hnin. rewrite elem_of_cons. by right.
    + intros rid' Hr'. destruct (decide (rid = rid')) as [<-|Hne]; [by rewrite lookup_delete_eq|].
      rewrite lookup_delete_ne by done. apply HM. rewrite elem_of_cons. naive_solver.
Qed.

Lemma sum_all_ones (f : string -> Z) (owners : list string) :
  (forall x, x ∈ owners -> f x <= 1) -> foldr (fun x acc => f x + acc) 0 owners = zlen owners ->
  forall x, x ∈ owners -> f x = 1.
Proof.
  intros Hle.
  assert (Hub : forall l, (forall x, x ∈ l -> f x <= 1) -> foldr (fun x acc => f x + acc) 0 l <= zlen l).
  { induction l as [|y l IH]; intros Hl; [by cbn|]. cbn. rewrite zlen_cons.
    specialize (Hl y ltac:(rewrite elem_of_cons; by left)) as Hy.
    specialize (IH ltac:(intros x Hx; apply Hl; rewrite elem_of_cons; by right)). lia. }
  induction owners as [|y owners IH]; intros Hs x Hx; [by apply elem_of_nil in Hx|].
  cbn in Hs. rewrite zlen_cons in Hs. specialize (Hle y ltac:(rewrite elem_of_cons; by left)) as Hy.
  assert (Hle' : forall x, x ∈ owners -> f x <= 1) by (intros z Hz; apply Hle; rewrite elem_of_cons; by right).
  specialize (Hub owners Hle'). apply elem_of_cons in Hx as [->|Hx]; [lia|]. apply IH; [done|lia|done].
Qed.

Lemma count_common_spec P blks num :
  pool_core P -> (forall p, p ∈ blks -> valid P p) ->
  exists n, count_common P num blks = Ok (Z.of_nat n) /\ (n <= length blks)%nat /\
    forall j i, (j < n)%nat -> blks !! j = Some (PBlk i) -> refc P i = num.
Proof.
  intros HC. induction blks as [|p blks IH]; intros Hv; [by exists 0%nat; repeat split; [lia|intros; lia]|].
  destruct (Hv p) as (i & -> & Hi); [rewrite elem_of_cons; by left|].
  destruct (core_load P i HC Hi) as (b & _ & Hld & _ & Hr & _).
  cbn [count_common]. rewrite Hld. cbn [mbind result_bind].
  destruct (Z.eqb_spec (ref_cnt b) num) as [He|He].
  - destruct IH as (n & -> & Hn & Hall); [intros q Hq; apply Hv; rewrite elem_of_cons; by right|].
    exists (S n). cbn [mbind result_bind]. split; [f_equal; lia|]. split; [cbn; lia|].
    intros [|j] i' Hj Hb; [injection Hb as <-; congruence|]. apply (Hall j); [lia|done].
  - exists 0%nat. split; [done|]. split; [lia|]. intros. lia.
Qed.

(** The common-prefix count is right when the running requests are the only
    ones that hold blocks: each counted block of the request is then in the
    block table of every running request. *)
Theorem common_prefix_blocks_shared (m : SingleTypeKVCacheManager) (P : BlockPool) (l : list nat)
  (rid : string) (running : list string) :
  kv_inv [m] P l -> mgr_class m = FullAttentionManager -> NoDup running -> rid ∈ running ->
  (forall rid', rid' ∉ running -> req_blocks m rid' = []) -> PBlk 0 ∉ req_blocks m rid ->
  exists n, get_num_common_prefix_blocks rid (zlen running) m P = Ok (Z.of_nat n) /\
    (n <= length (req_blocks m rid))%nat /\
    forall j p rid', (j < n)%nat -> req_blocks m rid !! j = Some p -> rid' ∈ running -> p ∈ req_blocks m rid'.
Proof.
  intros HK Hcl Hnd Hin Hown Hnull. unfold get_num_common_prefix_blocks. rewrite Hcl.
  pose proof (kv_focus [] m [] P l HK) as Hpre. pose proof (mp_ok _ _ _ Hpre) as Hok.
  destruct (count_common_spec P (req_blocks m rid) (zlen running) (pi_core _ _ (kv_pool _ _ _ HK))
    ltac:(intros p; apply (mo_valid _ _ Hok))) as (n & E & Hn & Hall).
  exists n. split; [done|]. split; [done|]. intros j p rid' Hj Hp Hrun.
  destruct (mo_valid _ _ Hok rid p) as (i & -> & _); [by eapply list_elem_of_lookup_2|].
  assert (Hi : i ≠ 0%nat) by (intros ->; apply Hnull; by eapply list_elem_of_lookup_2).
  specialize (Hall j i Hj Hp). rewrite (kv_refs _ _ _ HK i Hi) in Hall. cbn in Hall. rewrite Z.add_0_r in Hall.
  unfold mrefs in Hall. rewrite (fold_occ_owners i running Hnd) in Hall; [|exact Hown].
  apply occ_pos. rewrite (sum_all_ones (fun x => occ i (req_blocks m x)) running); [done| |done|done].
  intros x _. by apply (mo_once _ _ Hok).
Qed.

(** ** Concrete runs *)

(** A hybrid model: one full-attention group and one sliding-window group. *)
Definition demo_config : KVCacheConfig :=
  mkConfig 10 [] [mkGroup ["layers.0"%string] (FullAttentionSpec 2 demo_attn None None);
                  mkGroup ["layers.1"%string] (SlidingWindowSpec 2 demo_attn 3)].

Definition demo_kvm : result KVCacheManager := kvm_init demo_config 16 true false true false false 1.

Definition demo_req : Request := demo_request "a" [1; 2; 3; 4; 5] [[1]; [2]].

Lemma demo_kvm_ok : exists k l, demo_kvm = Ok k /\ kvm_inv k l /\ coord_wf (coordinator k) 2 /\
  num_kv_cache_groups k = zlen (managers k) /\ is_Some (prefix_cache_stats k) /\ kvm_max_model_len k = 16 /\
  Forall (fun m => num_cached_block m !! "a"%string = None /\ mgr_class m ≠ CrossAttentionManager /\
    req_blocks m "b" = []) (managers k) /\
  enable_kv_cache_events (kvm_pool k) = false.
Proof.
  destruct demo_kvm as [k|] eqn:E; [|by vm_compute in E]. eexists k, _. split; [done|].
  destruct (kvm_init_ok _ _ _ _ _ _ _ _ _ E) as (HI & Hev & _ & Hmml & _).
  { repeat constructor. }
  { vm_compute. congruence. }
  split; [exact HI|]. vm_compute in E. injection E as <-.
  split.
  { split; [lia|]. split; [repeat constructor|]. split; [vm_compute; congruence|]. cbn.
    split; [done|]. split; [done|]. split; [done|]. split; [done|]. split; [done|]. split; [done|].
    split; [done|]. split; [cbn; lia|]. split; [cbn; lia|]. split; [by right|done]. }
  split; [done|]. split; [by eexists|]. split; [done|]. split; [|done].
  repeat constructor; done.
Qed.

Lemma new_request_admitted_witness :
  exists k b n k1 res k2 l2, demo_kvm = Ok k /\ get_computed_blocks demo_req k = Ok (b, n, k1) /\
    allocate_slots demo_req (Z.min 4 (5 - n)) n (Some b) 1 false 0 k1 = Ok (res, k2) /\ kvm_inv k2 l2.
Proof.
  destruct demo_kvm_ok as (k & l & E & HI & Hwf & Hng & Hst & Hmml & Hnew & Hev).
  destruct (new_request_admitted k l demo_req 2 4 1 false HI Hwf Hng) as (b & n & k1 & res & k2 & l2 & H1 & _ & H2 & H3 & _).
  - intros _. exact Hst.
  - eapply Forall_impl; [exact Hnew|]. naive_solver.
  - exact Hev.
  - reflexivity.
  - rewrite Hmml. split; vm_compute; congruence.
  - vm_compute. congruence.
  - apply NoDup_ListNoDup. repeat constructor; cbn; naive_solver.
  - lia.
  - lia.
  - exists k, b, n, k1, res, k2, l2. split; [exact E|]. split; [exact H1|]. split; [exact H2|exact H3].
Defined.

Lemma computed_blocks_sound_witness :
  exists k b n k', demo_kvm = Ok k /\ get_computed_blocks demo_req k = Ok (b, n, k') /\ 0 <= n < 5.
Proof.
  destruct demo_kvm_ok as (k & l & E & HI & Hwf & Hng & Hst & _ & _).
  destruct (computed_blocks_sound k l demo_req 2 HI Hwf Hng) as (b & n & k' & H1 & _ & _ & H2 & _).
  - intros _. exact Hst.
  - reflexivity.
  - vm_compute. congruence.
  - apply NoDup_ListNoDup. repeat constructor; cbn; naive_solver.
  - exists k, b, n, k'. split; [exact E|]. split; [exact H1|exact H2].
Defined.

Lemma allocate_slots_correct_witness :
  exists k res k' l', demo_kvm = Ok k /\
    allocate_slots demo_req 5 0 (Some (mkBlocks [[]; []])) 0 false 0 k = Ok (res, k') /\ kvm_inv k' l'.
Proof.
  destruct demo_kvm_ok as (k & l & E & HI & Hwf & Hng & Hst & Hmml & Hnew & Hev).
  destruct (allocate_slots_correct k l demo_req 5 0 [[]; []] 0 false 0) as (res & k' & l' & H1 & H2 & _).
  - apply (fresh_alloc_pre k l demo_req 2); try done; try lia.
    + eapply Forall_impl; [exact Hnew|]. naive_solver.
    + rewrite Hmml. vm_compute. congruence.
    + vm_compute in E. injection E as <-. reflexivity.
    + intros row [->|[->|?%elem_of_nil]%elem_of_cons]%elem_of_cons; done.
    + apply Forall_cons. split; [apply hits_ok_nil|]. apply Forall_singleton, hits_ok_nil.
  - exists k, res, k', l'. split; [exact E|]. split; [exact H1|exact H2].
Defined.

Lemma free_releases_everything_witness :
  exists k k' P', demo_kvm = Ok k /\ kvm_free demo_req k = Ok k' /\ reset_prefix_cache (kvm_pool k') = (true, P').
Proof.
  destruct demo_kvm_ok as (k & l & E & HI & _).
  destruct (free_releases_everything k l demo_req HI) as (k' & l' & H1 & _ & _ & _ & H2).
  destruct H2 as (_ & P' & H3).
  - intros m rid Hm _. vm_compute in E. injection E as <-. unfold managers in Hm. cbn in Hm.
    rewrite !elem_of_cons, elem_of_nil in Hm. destruct Hm as [->|[->|[]]]; reflexivity.
  - exists k, k', P'. split; [exact E|]. split; [exact H1|exact H3].
Defined.

(** One full-attention group of block size 2. *)
Definition demo_single : result KVCacheManager :=
  kvm_init (mkConfig 10 [] [mkGroup ["layers.0"%string] (FullAttentionSpec 2 demo_attn None None)])
    16 true false false false false 1.

(** Admit a request the way the scheduler does. *)
Definition admit_request (r : Request) (k : KVCacheManager) : result KVCacheManager :=
  res ← get_computed_blocks r k;
  let '(b, n, k) := (res : KVCacheBlocks * Z * KVCacheManager) in
  '(_, k) ← allocate_slots r (num_tokens r - n) n (Some b) 0 false 0 k;
  Ok k.

Lemma admit_request_inv k l r bs k' :
  kvm_inv k l -> coord_wf (coordinator k) bs -> num_kv_cache_groups k = zlen (managers k) -> kvm_log_stats k = false ->
  Forall (fun m => num_cached_block m !! request_id r = None /\ mgr_class m ≠ CrossAttentionManager) (managers k) ->
  enable_kv_cache_events (kvm_pool k) = false -> num_computed_tokens r = 0 ->
  0 < num_tokens r <= kvm_max_model_len k -> num_tokens r / bs <= zlen (block_hashes r) ->
  NoDup (block_hashes r) -> admit_request r k = Ok k' -> exists l', kvm_inv k' l'.
Proof.
  intros HI Hwf Hng Hst Hnew Hev Hct Hnt Hhs Hnd E. pose proof (proj1 Hwf) as Hbs.
  destruct (computed_blocks_ok k l r bs HI Hwf Hng ltac:(congruence) ltac:(lia)) as
    (b & n & k1 & E1 & HI1 & Hco & Hf1 & Hf2 & Hf3 & Hn & Hlen & Hrow & Hh & Ho).
  { intros _. split; [|done]. etransitivity; [|exact Hhs]. apply Z.div_le_mono; lia. }
  assert (Hm1 : managers k1 = managers k) by (unfold managers; by rewrite Hco).
  assert (Hp1 : kvm_pool k1 = kvm_pool k) by (unfold kvm_pool; by rewrite Hco).
  assert (Hpre : alloc_pre k1 l r (num_tokens r - n) n (kv_blocks b) 0 false 0).
  { apply (fresh_alloc_pre k1 l r bs); rewrite ?Hm1, ?Hp1, ?Hf1, ?Hf2, ?Hco; try done; try lia. }
  destruct (allocate_slots_ok _ _ _ _ _ _ _ _ _ Hpre) as (res & k2 & l2 & E2 & HI2 & _).
  unfold admit_request in E. rewrite E1 in E. cbn [mbind result_bind] in E.
  replace (mkBlocks (kv_blocks b)) with b in E2 by (by destruct b). rewrite E2 in E. cbn in E.
  injection E as <-. eauto.
Qed.

(** One running request with a full block and a partial one. *)
Definition demo_running : result KVCacheManager :=
  k ← demo_single; admit_request (demo_request "a" [1; 2; 3] [[1]]) k.

Lemma demo_running_ok : exists k l, demo_running = Ok k /\ kvm_inv k l.
Proof.
  destruct demo_running as [k1|] eqn:E; [|by vm_compute in E]. assert (E' := E). unfold demo_running in E'.
  destruct demo_single as [k0|] eqn:E0; [|discriminate]. cbn [mbind result_bind] in E'.
  destruct (kvm_init_ok _ _ _ _ _ _ _ _ _ E0) as (HI0 & Hev & _ & Hml & _).
  { repeat constructor. }
  { vm_compute. congruence. }
  observe E0 (fun k => coord_kind (coordinator k)) (Unitary (FullAttentionSpec 2 demo_attn None None) 2 1).
  observe E0 (fun k => (mgr_class <$> managers k, mgr_block_size <$> managers k, (.!! "a"%string) ∘ num_cached_block <$> managers k,
    num_kv_cache_groups k, kvm_log_stats k, coord_use_eagle (coordinator k)))
    ([FullAttentionManager], [2], [@None Z], 1, false, false).
  destruct (managers k0) as [|m [|? ?]] eqn:Em; try discriminate. injection Hobs0 as H1 H2 H3 H4 H5 H6.
  destruct (admit_request_inv k0 _ (demo_request "a" [1; 2; 3] [[1]]) 2 k1 HI0) as [l1 HI1];
    [| | | | | | | | |exact E'|by exists k1, l1]; rewrite ?Em; try done.
  - unfold coord_wf. change (single_type_managers (coordinator k0)) with (managers k0). rewrite Em, Hobs, H6.
    split; [lia|]. split; [by apply Forall_singleton|]. split; [vm_compute; congruence|].
    do 3 (split; [done|]). split; [|by apply Forall_singleton; rewrite H1].
    split; [cbn; lia|]. split; [done|]. split; [by left|done].
  - apply Forall_singleton. split; [exact H3|]. by rewrite H1.
  - rewrite Hml. split; vm_compute; congruence.
  - apply NoDup_singleton.
Qed.

Lemma common_prefix_blocks_shared_witness :
  exists k m n, demo_running = Ok k /\ managers k = [m] /\
    get_num_common_prefix_blocks "a" 1 m (kvm_pool k) = Ok (Z.of_nat n) /\
    (n <= length (req_blocks m "a"))%nat.
Proof.
  destruct demo_running_ok as (k & l & E & [HK _]).
  observe E (fun k => (mgr_class <$> managers k, req_to_blocks <$> managers k))
    ([FullAttentionManager], [{[ "a"%string := [PBlk 1; PBlk 2] ]} : gmap string (list bptr)]).
  destruct (managers k) as [|m [|? ?]] eqn:Em; try discriminate. injection Hobs as H1 H2.
  destruct (common_prefix_blocks_shared m (kvm_pool k) l "a" ["a"%string]) as (n & H3 & H4 & _).
  - exact HK.
  - exact H1.
  - apply NoDup_singleton.
  - by apply list_elem_of_singleton.
  - intros rid' Hr. rewrite list_elem_of_singleton in Hr. unfold req_blocks. rewrite H2.
    by rewrite lookup_singleton_ne.
  - unfold req_blocks. rewrite H2. rewrite lookup_singleton_eq. cbn.
    intros H. repeat (apply elem_of_cons in H as [H|H]; [discriminate|]). by apply elem_of_nil in H.
  - exists k, m, n. done.
Defined.

(** Requests "p", "a" and "b" hold blocks; "p" and "a" share their first
    block. The common prefix of "a" is computed for two running requests, and
    compared with the block table of "b". *)
Definition held_scenario : result (list Z * bool) :=
  k ← demo_single;
  k ← admit_request (demo_request "p" [1; 2; 3] [[1]]) k;
  k ← admit_request (demo_request "a" [1; 2; 5] [[1]]) k;
  k ← admit_request (demo_request "b" [7; 8; 9] [[7]]) k;
  n ← kvm_num_common_prefix (set_status RUNNING (demo_request "a" [1; 2; 5] [[1]])) 2 k;
  let first := concat (take 1 <$> coord_get_blocks "a" (coordinator k)) in
  Ok (n, bool_decide (Forall (fun p => p ∈ concat (coord_get_blocks "b" (coordinator k))) first)).

(** A request that keeps its blocks without running (a finished request whose
    KV cache is pinned) breaks the reference-count test for common prefixes:
    with "a" and "b" running and "p" held, one block of "a" is reported as
    common to all running requests although "b" does not have it. *)
Theorem held_blocks_break_common_prefix : held_scenario = Ok ([1], false).
Proof. vm_compute. reflexivity. Qed.
