(* ===== verification/KVBacking.v ===== *)
(** How the KV cache backs the tokens of a request over its life: a request
    without blocks, a request whose first [t] tokens have slots, and what
    [allocate_slots], [get_computed_blocks] and [free] of
    src/vllm/v1/core/kv_cache_manager.py do to that, for every mix of
    self-attention types with one block size. *)
From Stdlib Require Import ZArith Lia.
From stdpp Require Import numbers gmap strings list.
From S2P Require Import Prelude FreeQueue Request BlockHash BlockPool KVSpec SingleType Coordinator KVCacheManager.

Open Scope Z_scope.

(** ** Frames *)

(** Only the managers, the pool and the statistics differ. *)
Record kvm_like (k k' : KVCacheManager) : Prop := mkLike {
  kl_coord : exists ms P, coordinator k' = set_state ms P (coordinator k);
  kl_pool : same_config (kvm_pool k) (kvm_pool k');
  kl_caching : kvm_enable_caching k' = kvm_enable_caching k;
  kl_len : kvm_max_model_len k' = kvm_max_model_len k;
  kl_groups : num_kv_cache_groups k' = num_kv_cache_groups k;
  kl_log : kvm_log_stats k' = kvm_log_stats k;
  kl_stats : is_Some (prefix_cache_stats k) -> is_Some (prefix_cache_stats k')
}.

#[export] Instance kvm_like_preorder : PreOrder kvm_like.
Proof.
  split.
  - intros k. split; try done. exists (managers k), (kvm_pool k). by destruct k as [? ? ? ? ? []].
  - intros k1 k2 k3 [(ms & P & E1) A1 A2 A3 A4 A5 A6] [(ms' & P' & E2) B1 B2 B3 B4 B5 B6].
    split; try congruence; [|by etransitivity|auto]. exists ms', P'. by rewrite E2, E1.
Qed.

Lemma same_setup_like k k' : same_setup k k' -> kvm_like k k'.
Proof. intros (ms & P & -> & HS). split; try done. by exists ms, P. Qed.

(** Only the entries of request [rid] changed in the block tables. *)
Definition kv_frame (rid : string) (k k' : KVCacheManager) : Prop :=
  kvm_like k k' /\ Forall2 (other_reqs rid) (managers k) (managers k').

#[export] Instance kv_frame_preorder rid : PreOrder (kv_frame rid).
Proof.
  split.
  - intros k. split; [done|]. by apply Forall2_same_length_lookup_2; [|intros i x y ? ?; simplify_eq].
  - intros k1 k2 k3 [L1 F1] [L2 F2]. split; [by etransitivity|]. revert F2. generalize (managers k3). induction F1 as [|m1 m2 ms1 ms2 Hm F1 IH]; intros ms3 F2; inversion F2; subst; [done|].
    constructor; [by etransitivity|by apply IH].
Qed.

Section Backing.
(** The block size, the lookahead of the scheduler and [max_model_len]. *)
Context (bs L maxlen : Z).

(** A manager for self-attention groups, without KV cache events. *)
Record kv_setup (k : KVCacheManager) : Prop := mkSetup {
  ks_wf : coord_wf (coordinator k) bs;
  ks_groups : num_kv_cache_groups k = zlen (managers k);
  ks_length : length (coord_groups (coordinator k)) = length (managers k);
  ks_stats : kvm_log_stats k = true -> is_Some (prefix_cache_stats k);
  ks_class : Forall (fun m => mgr_class m ≠ CrossAttentionManager) (managers k);
  ks_events : enable_kv_cache_events (kvm_pool k) = false;
  ks_len : kvm_max_model_len k = maxlen
}.

(** In one manager the first [t] tokens of the request have slots, all their
    full blocks are cached, the table is not longer than the lookahead accounts
    for, and later tokens have real blocks. *)
Definition mgr_backed (caching : bool) (m : SingleTypeKVCacheManager) (rid : string) (t : Z) : Prop :=
  exists c, num_cached_block m !! rid = Some c /\ 0 <= t <= bs * zlen (req_blocks m rid) /\
    (caching = true -> c = t / bs) /\
    zlen (req_blocks m rid) <= cdiv (slot_tokens m (Z.min (t + L) maxlen) 0) bs /\
    forall i : nat, t / bs <= Z.of_nat i -> req_blocks m rid !! i ≠ Some (PBlk 0).

Definition backed (k : KVCacheManager) (rid : string) (t : Z) : Prop :=
  Forall (fun m => mgr_backed (kvm_enable_caching k) m rid t) (managers k).

(** The managers do not know the request. *)
Definition unbacked (k : KVCacheManager) (rid : string) : Prop :=
  Forall (fun m => num_cached_block m !! rid = None) (managers k).

Lemma setup_frame rid k k' : kv_frame rid k k' -> kv_setup k -> kv_setup k'.
Proof.
  intros [[(ms & P & Ec) (_ & _ & _ & Hev) Hca Hl Hg Hlog Hst] HF] [(Hbs & Hmbs & Hz & Hk) S2 S3 S4 S5 S6 S7].
  assert (Hms : forall Q : SingleTypeKVCacheManager -> Prop, (forall m m', mgr_same m m' -> Q m -> Q m') ->
    Forall Q (managers k) -> Forall Q (managers k')).
  { intros Q HQ HQk. clear -HF HQ HQk. induction HF as [|m m' ms ms' [Hm _] HF IH]; [done|].
    apply Forall_cons in HQk as [? ?]. constructor; [by eapply HQ|by apply IH]. }
  pose proof (Forall2_length _ _ _ HF) as Hlen. unfold managers in Hlen, Hms.
  split; [| | |by intros E; apply Hst, S4; rewrite <-Hlog| | |by rewrite Hl].
  - split; [done|]. split; [apply Hms; [|exact Hmbs]; intros m m' (_ & -> & _); done|].
    split; [unfold zlen in *; by rewrite <-Hlen|]. replace (coord_kind (coordinator k')) with (coord_kind (coordinator k)) by (by rewrite Ec).
    replace (coord_use_eagle (coordinator k')) with (coord_use_eagle (coordinator k)) by (by rewrite Ec).
    destruct (coord_kind (coordinator k)); [done| |by rewrite <-Hlen].
    destruct Hk as (H1 & H2 & H3 & H4 & H5). rewrite <-Hlen. do 4 (split; [done|]). apply Hms; [|exact H5]. intros m m' (-> & _). done.
  - unfold zlen, managers in *. by rewrite Hg, S2, <-Hlen.
  - rewrite Ec at 1. cbn. unfold managers in *. by rewrite S3, Hlen.
  - apply (Hms (fun m => mgr_class m ≠ CrossAttentionManager)); [|exact S5]. intros m m' (-> & _). done.
  - by rewrite Hev.
Qed.

Lemma mgr_backed_other rid rid' ca m m' t :
  rid ≠ rid' -> other_reqs rid m m' -> mgr_backed ca m rid' t -> mgr_backed ca m' rid' t.
Proof.
  intros Hne [Hs Ho] (c & H1 & H2 & H3 & H4 & H5). destruct (Ho rid' Hne) as [E1 E2]. exists c.
  rewrite E1, E2, (slot_tokens_same m m' _ _ Hs). done.
Qed.

Lemma backed_frame rid rid' k k' t : kv_frame rid k k' -> rid ≠ rid' -> backed k rid' t -> backed k' rid' t.
Proof.
  intros [HL HF] Hne HB. unfold backed in *. rewrite (kl_caching _ _ HL).
  induction HF as [|m m' ms ms' Hm HF IH]; [done|]. apply Forall_cons in HB as [? ?].
  constructor; [by eapply mgr_backed_other|by apply IH].
Qed.

Lemma unbacked_frame rid rid' k k' : kv_frame rid k k' -> rid ≠ rid' -> unbacked k rid' -> unbacked k' rid'.
Proof.
  intros [_ HF] Hne HU. unfold unbacked in *. induction HF as [|m m' ms ms' [_ Hm] HF IH]; [done|].
  apply Forall_cons in HU as [? ?]. constructor; [|by apply IH]. destruct (Hm rid' Hne) as [_ ->]. done.
Qed.

Lemma valid_frame k k' p : kvm_like k k' -> valid (kvm_pool k) p -> valid (kvm_pool k') p.
Proof. intros HL (i & -> & Hi). exists i. destruct (kl_pool _ _ HL) as (-> & _). done. Qed.

(** ** Release *)

Lemma free_backing k l r :
  kvm_inv k l -> exists k' l', kvm_free r k = Ok k' /\ kvm_inv k' l' /\ kv_frame (request_id r) k k' /\ unbacked k' (request_id r).
Proof.
  intros [HK Hcf]. unfold kvm_free.
  destruct (coord_free_step (coordinator k) l (request_id r) HK) as (c' & l' & E & Ec & HK' & _ & HS & Hms).
  rewrite E. cbn [mbind result_bind]. exists (set_coord c' k), l'. split; [done|].
  split; [split; [done|]; change (kvm_enable_caching k = enable_caching (block_pool c')); by destruct HS as (_ & -> & _)|].
  split; [split|].
  - apply same_setup_like. exists (single_type_managers c'), (block_pool c'). by rewrite <-Ec.
  - change (managers (set_coord c' k)) with (single_type_managers c'). rewrite Hms. apply Forall2_fmap_r.
    apply Forall2_same_length_lookup_2; [done|]. intros j m m' Hm Hm'. unfold managers in Hm. simplify_eq. split; [done|].
    intros rid' Hne. rewrite req_blocks_pop, decide_False by done. split; [done|]. cbn. by rewrite lookup_delete_ne.
  - unfold unbacked. change (managers (set_coord c' k)) with (single_type_managers c'). rewrite Hms.
    apply Forall_fmap, Forall_forall. intros m _. cbn. by rewrite lookup_delete_eq.
Qed.

(** ** Allocation *)

Lemma slot_tokens_mono m t t' : t <= t' -> slot_tokens m t 0 <= slot_tokens m t' 0.
Proof. intros Ht. unfold slot_tokens. destruct (is_cross m), (mgr_spec m); try lia; destruct (0 <? _); lia. Qed.

Lemma frame_of_slots k k' l' r nt lists res :
  same_setup k k' -> slots_result k r nt 0 lists res k' l' -> length lists = length (managers k) ->
  kv_frame (request_id r) k k'.
Proof.
  intros HS Hres Hlen. split; [by apply same_setup_like|]. unfold slots_result in Hres. destruct res as [b|].
  - destruct Hres as (_ & Hl & Htab & _). apply Forall2_same_length_lookup_2; [done|]. intros j m m' Hm Hm'.
    destruct (lists !! j) as [blks|] eqn:Hb; [|apply lookup_ge_None in Hb; apply lookup_lt_Some in Hm; lia].
    destruct (Htab j m blks Hm Hb) as (new & m1 & _ & Hm1 & Hal & _). by simplify_eq.
  - destruct Hres as (_ & HF). eapply Forall2_impl; [exact HF|]. naive_solver.
Qed.

(** The new blocks of each group are blocks of the pool. *)
Definition blocks_valid (k : KVCacheManager) (b : KVCacheBlocks) : Prop :=
  Forall (fun g => Forall (valid (kvm_pool k)) g) (kv_blocks b).

(** What an allocation for a request up to token [t] leaves behind: with a
    refusal [before] still holds, otherwise the first [t] tokens have slots. *)
Definition alloc_outcome (before : KVCacheManager -> Prop) (rid : string) (t : Z) (res : option KVCacheBlocks)
  (k' : KVCacheManager) : Prop :=
  match res with
  | None => before k'
  | Some b => backed k' rid t /\ length (kv_blocks b) = length (managers k') /\ blocks_valid k' b
  end.

(** After a refusal only blocks outside the attention window are gone. *)
Definition refused (k : KVCacheManager) (r : Request) (k' : KVCacheManager) : Prop :=
  Forall2 (fun m m' => other_reqs (request_id r) m m' /\ num_cached_block m' = num_cached_block m /\
    req_blocks m' (request_id r) =
      nulled (Z.to_nat (skip_until m (request_id r) (num_computed_tokens r))) (req_blocks m (request_id r)))
    (managers k) (managers k').

Lemma refused_backed k l r k' t :
  kvm_inv k l -> kvm_like k k' ->
  Forall (fun m => computed_ok (kvm_pool k) m (request_id r) (num_computed_tokens r)) (managers k) ->
  0 < bs -> Forall (fun m => mgr_block_size m = bs) (managers k) -> num_computed_tokens r <= t ->
  refused k r k' -> backed k (request_id r) t -> backed k' (request_id r) t.
Proof.
  intros [HK _] HL Hct Hbs Hmbs Ht HR HB. unfold backed in *. rewrite (kl_caching _ _ HL). pose proof (kv_managers _ _ _ HK) as Hok.
  clear HK. unfold refused in HR. induction HR as [|m m' ms ms' ([Hs _] & Hn & Hb) HR IH]; [done|].
  apply Forall_cons in HB as [(c & H1 & H2 & H3 & H4 & H5) HB], Hct as [Hc Hct], Hok as [Hm Hok], Hmbs as [Eb Hmbs]. constructor; [|by apply IH].
  destruct (skip_until_le _ m _ _ Hm Hc) as (S1 & S2 & _).
  assert (Hz : zlen (req_blocks m' (request_id r)) = zlen (req_blocks m (request_id r))).
  { rewrite Hb. unfold zlen in *. rewrite nulled_length; [done|]. lia. }
  exists c. rewrite Hn, Hz, (slot_tokens_same m m' _ _ Hs). split_and!; try done; try lia. intros i Hi. rewrite Eb in S1. pose proof (Z.div_le_mono _ _ bs Hbs Ht).
  rewrite Hb, nulled_after by lia. by apply H5.
Qed.

Lemma refused_unbacked k r k' rid : refused k r k' -> unbacked k rid -> unbacked k' rid.
Proof.
  unfold unbacked, refused. intros HR HU. induction HR as [|m m' ms ms' (_ & Hn & _) HR IH]; [done|].
  apply Forall_cons in HU as [? ?]. constructor; [by rewrite Hn|by apply IH].
Qed.

Section Slots.
Context (k : KVCacheManager) (l : list nat) (r : Request) (n n0 la : Z) (lists : list (list bptr)).
Let rid := request_id r.
Let nct := num_computed_tokens r.
Hypothesis (Hpre : alloc_pre k l r n n0 lists la false 0) (Hset : kv_setup k) (Hla : 0 <= la <= L)
  (Hpos : 0 <= nct + n0 + n) (Htok : nct + n0 + n <= num_tokens r) (Hmax : num_tokens r <= maxlen)
  (Hlen : length lists = length (managers k))
  (Hfit : forall j m blks, managers k !! j = Some m -> lists !! j = Some blks ->
    zlen (req_blocks m rid) + zlen blks <= cdiv (slot_tokens m (tokens_need_slot r n n0 la k) 0) bs)
  (Hreal : forall j m blks, managers k !! j = Some m -> lists !! j = Some blks -> forall i : nat, (nct + n0 + n) / bs <= Z.of_nat i ->
    (nulled (Z.to_nat (skip_until m rid nct)) (req_blocks m rid) ++ blks) !! i ≠ Some (PBlk 0)).

Lemma allocated_backed k' l' m blks new m' :
  kvm_inv k' l' -> mgr_block_size m = bs -> mgr_class m ≠ CrossAttentionManager -> mgr_ok (kvm_pool k) m ->
  allocated rid nct (tokens_need_slot r n n0 la k) 0 m blks new m' ->
  zlen (req_blocks m rid) + zlen blks <= cdiv (slot_tokens m (tokens_need_slot r n n0 la k) 0) bs ->
  num_cached_block m' !! rid = Some (if kvm_enable_caching k && negb false then tokens_to_cache r n n0 / mgr_block_size m
     else cached_after rid blks m) ->
  (forall i : nat, (nct + n0 + n) / bs <= Z.of_nat i -> (nulled (Z.to_nat (skip_until m rid nct)) (req_blocks m rid) ++ blks) !! i ≠ Some (PBlk 0)) ->
  Forall (sole (kvm_pool k')) new -> mgr_backed (kvm_enable_caching k) m' rid (nct + n0 + n).
Proof using Hset Hla Hpos Htok Hmax.
  clear Hpre Hlen Hfit Hreal. intros HI' Hb Hcl Hok ([Hs _] & Htab & Hslots & Hz) Hf Hn Hre Hso. rewrite Hb in *.
  pose proof (proj1 (ks_wf _ Hset)) as Hbs. pose proof (ks_len _ Hset) as Hml.
  assert (Hnt : tokens_need_slot r n n0 la k = Z.min (nct + n0 + n + la) maxlen) by (unfold tokens_need_slot, nct; lia).
  pose proof (slot_tokens_ge (kvm_pool k) m (tokens_need_slot r n n0 la k) 0 Hok Hcl) as Hge.
  eexists. split; [exact Hn|]. split; [lia|]. split.
  - intros ->. cbn. f_equal. unfold tokens_to_cache. fold nct. lia.
  - split; [rewrite Hz, Z.max_r by done; apply cdiv_mono; [done|]; rewrite (slot_tokens_same m m' _ _ Hs); apply slot_tokens_mono; lia|].
    intros i Hi E. rewrite Htab, app_assoc in E. apply lookup_app_Some in E as [E|[_ E]]; [by apply (Hre i Hi)|].
    rewrite Forall_forall in Hso. apply list_elem_of_lookup_2, Hso in E as (x & [= <-] & ? & _). done.
Qed.

Lemma slots_backed : exists res k' l',
  allocate_slots r n n0 (Some (mkBlocks lists)) la false 0 k = Ok (res, k') /\ kvm_inv k' l' /\ kv_frame rid k k' /\
  alloc_outcome (refused k r) rid (nct + n0 + n) res k'.
Proof using Hpre Hset Hla Hpos Htok Hmax Hlen Hfit Hreal.
  destruct (allocate_slots_ok k l r n n0 lists la false 0 Hpre) as (res & k' & l' & E & HI' & Hres & HS & Hcnt).
  exists res, k', l'. split; [done|]. split; [done|].
  pose proof (frame_of_slots _ _ _ _ _ _ _ HS Hres Hlen) as HF. split; [done|].
  pose proof (proj1 (ap_inv _ _ _ _ _ _ _ _ _ Hpre)) as HK.
  assert (Hblk : forall j m, managers k !! j = Some m -> exists blks, lists !! j = Some blks /\ mgr_class m ≠ CrossAttentionManager /\
    mgr_block_size m = bs /\ mgr_ok (kvm_pool k) m).
  { intros j m Hm. destruct (lists !! j) as [blks|] eqn:Hb; [|apply lookup_ge_None in Hb; apply lookup_lt_Some in Hm; lia].
    exists blks. split; [done|]. pose proof (ks_class _ Hset) as H1. destruct (ks_wf _ Hset) as (_ & H2 & _).
    pose proof (kv_managers _ _ _ HK) as H3. rewrite Forall_lookup in H1, H2, H3.
    split; [by eapply H1|]. split; [by eapply H2|by eapply H3]. }
  destruct res as [b|]; cbn [alloc_outcome].
  - destruct Hres as (Hl1 & Hl2 & Htab & _ & Hsole).
    assert (Hj : forall j m', managers k' !! j = Some m' -> exists m blks new, managers k !! j = Some m /\ lists !! j = Some blks /\
      kv_blocks b !! j = Some new /\ allocated rid nct (tokens_need_slot r n n0 la k) 0 m blks new m').
    { intros j m' Hm'. destruct (managers k !! j) as [m|] eqn:Hm; [|apply lookup_ge_None in Hm; apply lookup_lt_Some in Hm'; lia].
      destruct (Hblk j m Hm) as (blks & Hb & _). destruct (Htab j m blks Hm Hb) as (new & m1 & ? & Hm1 & ?).
      rewrite Hm' in Hm1. injection Hm1 as <-. eauto 10. }
    split; [|split; [lia|]].
    + unfold backed. apply Forall_lookup. intros j m' Hm'. destruct (Hj j m' Hm') as (m & blks & new & Hm & Hb & Hnew & Hal).
      assert (Hso : Forall (sole (kvm_pool k')) new) by (apply Forall_forall; intros p Hp; rewrite Forall_forall in Hsole; apply Hsole, elem_of_concat; exists new; split; [by eapply list_elem_of_lookup_2|done]).
      destruct (Hblk j m Hm) as (blks' & Hb' & Hcl & Hbs & Hok). rewrite Hb in Hb'. injection Hb' as <-.
      destruct (Hcnt j m blks Hm Hb Hcl) as (m1 & Hm1 & Hc). rewrite Hm' in Hm1. injection Hm1 as <-.
      rewrite (kl_caching _ _ (proj1 HF)). by eapply allocated_backed; eauto.
    + apply Forall_lookup. intros j new Hnew.
      destruct (managers k' !! j) as [m'|] eqn:Hm'; [|apply lookup_ge_None in Hm'; apply lookup_lt_Some in Hnew; lia].
      destruct (Hj j m' Hm') as (m & blks & new' & _ & _ & Hn' & _ & Hbl & _). rewrite Hnew in Hn'. injection Hn' as <-.
      pose proof (kv_managers _ _ _ (proj1 HI')) as Hok'. rewrite Forall_lookup in Hok'.
      apply Forall_forall. intros p Hp. apply (mo_valid _ _ (Hok' _ _ Hm') rid). rewrite Hbl, !elem_of_app. auto.
  - destruct Hres as [_ HF2]. unfold refused. apply Forall2_same_length_lookup_2; [by eapply Forall2_length|].
    intros j m m' Hm Hm'. destruct (Hblk j m Hm) as (blks & Hb & Hcl & _).
    destruct (Forall2_lookup_lr _ _ _ _ _ _ HF2 Hm Hm') as [Ho Hb'].
    destruct (Hcnt j m blks Hm Hb Hcl) as (m1 & Hm1 & Hc). rewrite Hm' in Hm1. by injection Hm1 as <-.
Qed.
End Slots.

(** The contract of [allocate_slots] for the next tokens of a running request. *)
Definition no_hits (k : KVCacheManager) : list (list bptr) := replicate (length (managers k)) [].

Lemma running_fit k l r n j m :
  kvm_inv k l -> kv_setup k -> backed k (request_id r) (num_computed_tokens r) -> 0 < n -> managers k !! j = Some m ->
  zlen (req_blocks m (request_id r)) <= cdiv (slot_tokens m (tokens_need_slot r n 0 L k) 0) bs.
Proof.
  intros HI Hset HB Hn Hm. unfold backed in HB. rewrite Forall_lookup in HB. destruct (HB _ _ Hm) as (c & _ & _ & _ & Hz & _).
  etransitivity; [exact Hz|]. apply cdiv_mono; [apply (ks_wf _ Hset)|]. apply slot_tokens_mono.
  unfold tokens_need_slot. rewrite (ks_len _ Hset). lia.
Qed.

Lemma running_alloc_pre k l r n :
  kvm_inv k l -> kv_setup k -> backed k (request_id r) (num_computed_tokens r) -> 0 < n -> 0 <= L ->
  0 <= num_computed_tokens r -> num_computed_tokens r + n <= num_tokens r -> num_tokens r <= maxlen ->
  (kvm_enable_caching k = true -> num_tokens r / bs <= zlen (block_hashes r)) ->
  alloc_pre k l r n 0 (no_hits k) L false 0.
Proof.
  intros HI Hset HB Hn HL H0 Hsum Hmax Hhs.
  assert (Hb : forall j m, managers k !! j = Some m -> mgr_ok (kvm_pool k) m /\ mgr_block_size m = bs /\
    mgr_class m ≠ CrossAttentionManager /\ mgr_backed (kvm_enable_caching k) m (request_id r) (num_computed_tokens r)).
  { intros j m Hm. destruct (ks_wf _ Hset) as (_ & H2 & _). pose proof (ks_class _ Hset) as H3. unfold backed in HB.
    pose proof (kv_managers _ _ _ (proj1 HI)) as H1. rewrite Forall_lookup in H1, H2, H3, HB.
    split; [by eapply H1|]. split; [by eapply H2|]. split; [by eapply H3|by eapply HB]. }
  pose proof (proj1 (ks_wf _ Hset)) as Hbs. pose proof (ks_len _ Hset) as Hml.
  assert (Hnt : tokens_need_slot r n 0 L k = Z.min (num_computed_tokens r + n + L) maxlen) by (unfold tokens_need_slot; lia).
  assert (Hrow : forall row, row ∈ no_hits k -> row = []) by (by intros row [-> _]%elem_of_replicate).
  split; try done; try lia.
  - apply Forall_lookup. intros j m Hm. destruct (Hb j m Hm) as (_ & Hmb & _ & c & Hc & Ht & Hcc & _). split; [by rewrite Hmb|].
    rewrite <-(proj2 HI), Hmb. intros Hca c' Hc'. rewrite Hc in Hc'. injection Hc' as <-. rewrite (Hcc Hca).
    pose proof (Z.mod_pos_bound (num_computed_tokens r) bs Hbs). pose proof (Z.div_mod (num_computed_tokens r) bs ltac:(lia)). lia.
  - apply Forall2_same_length_lookup_2; [by unfold no_hits; rewrite length_replicate|]. intros j row m [-> _]%lookup_replicate _. by left.
  - apply Forall_forall. intros row ->%Hrow. apply hits_ok_nil.
  - intros i _. unfold no_hits. generalize (length (managers k)) as x. intros x. induction x; cbn in *; lia.
  - intros _. apply Forall_forall. exact Hrow.
  - left. apply Forall_lookup. intros j m' (blks & m & -> & Hl & Hm)%lookup_zip_with_Some.
    destruct (Hb j m Hm) as (Hok & Hmb & _). pose proof (running_fit k l r n j m HI Hset HB Hn Hm). apply lookup_replicate in Hl as [-> _].
    rewrite (deficit_saved (kvm_pool k)) by (done || by left). unfold deficit, blocks_short. rewrite Hmb. change (zlen []) with 0. lia.
  - intros Hca _. split; [apply (ks_events _ Hset)|]. unfold tokens_to_cache. split; [lia|].
    apply Forall2_same_length_lookup_2; [by unfold no_hits; rewrite length_replicate|].
    intros j row m _ Hm. destruct (Hb j m Hm) as (_ & Hmb & Hcl & c & Hc & Ht & Hcc & _). split; [done|].
    unfold cached_after. rewrite Hc, Hmb, (Hcc Hca). cbn [default].
    pose proof (Z.mul_div_le (num_computed_tokens r) bs Hbs). split; [cbn; lia|].
    etransitivity; [|exact (Hhs Hca)]. apply Z.div_le_mono; lia.
Qed.

Lemma allocate_no_hits k r n la d e :
  kv_setup k -> allocate_slots r n 0 None la d e k = allocate_slots r n 0 (Some (mkBlocks (no_hits k))) la d e k.
Proof. intros Hset. unfold allocate_slots, no_hits. cbn [kv_blocks]. by rewrite (ks_length _ Hset). Qed.

(** Slots for the next tokens of a running request. *)
Lemma running_alloc k l r n :
  kvm_inv k l -> kv_setup k -> backed k (request_id r) (num_computed_tokens r) -> 0 < n -> 0 <= L ->
  0 <= num_computed_tokens r ->
  num_computed_tokens r + n <= num_tokens r -> num_tokens r <= maxlen ->
  (kvm_enable_caching k = true -> num_tokens r / bs <= zlen (block_hashes r)) ->
  exists res k' l', allocate_slots r n 0 None L false 0 k = Ok (res, k') /\ kvm_inv k' l' /\
    kv_frame (request_id r) k k' /\
    alloc_outcome (fun k' => backed k' (request_id r) (num_computed_tokens r)) (request_id r) (num_computed_tokens r + n) res k'.
Proof.
  intros HI Hset HB Hn HL H0 Hsum Hmax Hhs. pose proof (running_alloc_pre k l r n HI Hset HB Hn HL H0 Hsum Hmax Hhs) as Hpre.
  destruct (slots_backed k l r n 0 L (no_hits k) Hpre Hset) as (res & k' & l' & E & HI' & HF & Hout); try done; try lia.
  { by unfold no_hits; rewrite length_replicate. }
  { intros j m blks Hm [-> _]%lookup_replicate. change (zlen []) with 0. rewrite Z.add_0_r. by eapply running_fit. }
  { intros j m blks Hm [-> _]%lookup_replicate i Hi. rewrite app_nil_r. unfold backed in HB. rewrite Forall_lookup in HB. destruct (HB _ _ Hm) as (c & _ & _ & _ & _ & Hnz).
    assert (Hi' : num_computed_tokens r / bs <= Z.of_nat i) by (etransitivity; [|exact Hi]; apply Z.div_le_mono; [apply (ks_wf _ Hset)|lia]).
    pose proof (ap_computed _ _ _ _ _ _ _ _ _ Hpre) as Hct. pose proof (kv_managers _ _ _ (proj1 HI)) as Hok. destruct (ks_wf _ Hset) as (_ & Hmb & _).
    rewrite Forall_lookup in Hct, Hok, Hmb. destruct (skip_until_le _ m _ _ (Hok _ _ Hm) (Hct _ _ Hm)) as (S1 & _). rewrite (Hmb _ _ Hm) in S1. rewrite nulled_after by lia. by apply Hnz. }
  exists res, k', l'. rewrite Z.add_0_r in Hout. rewrite allocate_no_hits by done.
  split; [done|]. split; [done|]. split; [done|].
  destruct res; [done|]. exact (refused_backed _ _ _ _ _ HI (proj1 HF) (ap_computed _ _ _ _ _ _ _ _ _ Hpre) (proj1 (ks_wf _ Hset)) (proj1 (proj2 (ks_wf _ Hset))) (Z.le_refl _) Hout HB).
Qed.

(** ** Admission *)

Lemma computed_blocks_stats r k b n k' :
  get_computed_blocks r k = Ok (b, n, k') ->
  exists st, k' = set_stats st k /\ (is_Some (prefix_cache_stats k) -> is_Some st).
Proof.
  unfold get_computed_blocks. destruct (_ || _).
  { intros E. inv_ok. exists (prefix_cache_stats k'). by destruct k'. }
  intros E. apply bind_Ok in E as ([? ?] & _ & E). apply bind_Ok in E as (k1 & E1 & E). inv_ok.
  destruct (kvm_log_stats k); inv_ok; [by eexists|]. exists (prefix_cache_stats k'). by destruct k'.
Qed.

Lemma hits_backing k l r :
  kvm_inv k l -> kv_setup k -> 0 < num_tokens r ->
  (kvm_enable_caching k = true -> num_tokens r / bs <= zlen (block_hashes r) /\ NoDup (block_hashes r)) ->
  exists b n0 k', get_computed_blocks r k = Ok (b, n0, k') /\ kvm_inv k' l /\ coordinator k' = coordinator k /\
    (forall rid, kv_frame rid k k') /\ (kvm_enable_caching k' = false -> n0 = 0) /\ 0 <= n0 < num_tokens r /\
    usable_hits k' bs n0 (kv_blocks b).
Proof.
  intros HI Hset Hnt Hhs. pose proof (proj1 (ks_wf _ Hset)) as Hbs.
  destruct (computed_blocks_ok k l r bs HI (ks_wf _ Hset) (ks_groups _ Hset) (ks_stats _ Hset) Hnt)
    as (b & n0 & k' & E & HI' & Hco & _ & Hca & Hz & Hn & Hus).
  { intros Hca. destruct (Hhs Hca) as [H1 H2]. split; [|done]. etransitivity; [|exact H1]. apply Z.div_le_mono; lia. }
  destruct (computed_blocks_stats _ _ _ _ _ E) as (st & Ek & Hst).
  exists b, n0, k'. split; [done|]. split; [done|]. split; [done|]. split; [|split; [by rewrite Hca|split; [done|]]].
  - intros rid. split.
    + rewrite Ek. split; try done. exists (managers k), (kvm_pool k). symmetry. apply set_state_id.
    + unfold managers. rewrite Hco. apply Forall2_same_length_lookup_2; [done|]. intros j m m' ? ?. by simplify_eq.
  - unfold usable_hits, managers, kvm_pool in *. by rewrite Hco.
Qed.

Lemma admit_alloc_pre k l r b n n0 :
  kvm_inv k l -> kv_setup k -> unbacked k (request_id r) -> usable_hits k bs n0 (kv_blocks b) ->
  (kvm_enable_caching k = false -> n0 = 0) -> num_computed_tokens r = 0 -> 0 < n -> 0 <= n0 ->
  n0 + n <= num_tokens r -> num_tokens r <= maxlen ->
  (kvm_enable_caching k = true -> num_tokens r / bs <= zlen (block_hashes r)) -> alloc_pre k l r n n0 (kv_blocks b) 0 false 0.
Proof.
  intros HI Hset HU (Hlen & Hrow & Hh & Ho) Hnc H0 Hn Hn0 Hsum Hmax Hhs. pose proof (ks_len _ Hset) as Hml.
  apply (fresh_alloc_pre k l r bs); try done; try lia; [apply Hset| |apply (ks_events _ Hset)].
  apply Forall_and. split; [exact HU|apply (ks_class _ Hset)].
Qed.

Lemma admit_alloc k l r b n n0 :
  kvm_inv k l -> kv_setup k -> unbacked k (request_id r) -> usable_hits k bs n0 (kv_blocks b) ->
  (kvm_enable_caching k = false -> n0 = 0) -> num_computed_tokens r = 0 -> 0 < n -> 0 <= n0 -> 0 <= L ->
  n0 + n <= num_tokens r -> num_tokens r <= maxlen ->
  (kvm_enable_caching k = true -> num_tokens r / bs <= zlen (block_hashes r)) ->
  exists res k' l', allocate_slots r n n0 (Some b) 0 false 0 k = Ok (res, k') /\ kvm_inv k' l' /\
    kv_frame (request_id r) k k' /\ alloc_outcome (fun k' => unbacked k' (request_id r)) (request_id r) (n0 + n) res k'.
Proof.
  intros HI Hset HU (Hlen & Hrow & Hh & Ho) Hnc H0 Hn Hn0 HL Hsum Hmax Hhs.
  pose proof (proj1 (ks_wf _ Hset)) as Hbs. pose proof (ks_len _ Hset) as Hml.
  pose proof (admit_alloc_pre k l r b n n0 HI Hset HU (conj Hlen (conj Hrow (conj Hh Ho))) Hnc H0 Hn Hn0 Hsum Hmax Hhs) as Hpre.
  assert (Hnew : forall j m, managers k !! j = Some m -> mgr_ok (kvm_pool k) m /\ req_blocks m (request_id r) = [] /\
    mgr_class m ≠ CrossAttentionManager).
  { intros j m Hm. pose proof (ks_class _ Hset) as H3. unfold unbacked in HU.
    pose proof (kv_managers _ _ _ (proj1 HI)) as H1. rewrite Forall_lookup in H1, H3, HU.
    pose proof (H1 _ _ Hm) as Hok. pose proof (H3 _ _ Hm). split; [done|]. split; [|done]. by apply (mo_new _ _ Hok); [eapply HU|]. }
  destruct (slots_backed k l r n n0 0 (kv_blocks b) Hpre Hset) as (res & k' & l' & E & HI' & HF & Hout); try done; try lia.
  { intros j m blks Hm Hb. destruct (Hnew j m Hm) as (Hok & -> & Hcl). change (zlen []) with 0.
    specialize (Hrow blks ltac:(by eapply list_elem_of_lookup_2)).
    pose proof (slot_tokens_ge (kvm_pool k) m (tokens_need_slot r n n0 0 k) 0 Hok Hcl) as Hst.
    assert (n0 <= tokens_need_slot r n n0 0 k) by (unfold tokens_need_slot; lia).
    pose proof (cdiv_spec (slot_tokens m (tokens_need_slot r n n0 0 k) 0) bs Hbs). nia. }
  { intros j m blks Hm Hb i Hi. destruct (Hnew j m Hm) as (Hok & -> & _). specialize (Hrow blks ltac:(by eapply list_elem_of_lookup_2)). rewrite H0 in Hi.
    assert (Hsk : skip_until m (request_id r) (num_computed_tokens r) <= 0).
    { pose proof (ap_computed _ _ _ _ _ _ _ _ _ Hpre) as Hct. rewrite Forall_lookup in Hct. destruct (skip_until_le _ m _ _ Hok (Hct _ _ Hm)) as (S1 & _). rewrite H0 in S1 |- *. rewrite Z.div_0_l in S1; [lia|]. pose proof (mo_bs _ _ Hok). lia. }
    rewrite H0 in *. replace (Z.to_nat (skip_until m (request_id r) 0)) with 0%nat by lia. cbn. rewrite lookup_ge_None_2; [done|].
    assert (zlen blks <= (0 + n0 + n) / bs) by (apply Z.div_le_lower_bound; lia). unfold zlen in *. lia. }
  exists res, k', l'. rewrite H0 in Hout. split; [by destruct b|]. split; [done|]. split; [done|].
  destruct res; [done|]. cbn in *. by eapply refused_unbacked.
Qed.

(** ** Reading the tables *)

Lemma block_ids_valid k l allow b :
  kvm_inv k l -> blocks_valid k b -> exists ids, get_block_ids (kvm_pool k) allow b = Ok ids /\ (allow = false -> is_Some ids).
Proof.
  intros [HK _] Hb. unfold get_block_ids. destruct (allow && _) eqn:Ea; [exists None; by destruct allow|].
  assert (H : exists ids, mapM_res (fun g => mapM_res (fun p => b ← load (pheap (kvm_pool k)) p; Ok (block_id b)) g) (kv_blocks b) = Ok ids).
  { unfold blocks_valid in Hb. clear Ea. induction Hb as [|g gs Hg Hgs (ids & IH)]; [by exists []|].
    assert (exists xs, mapM_res (fun p => b ← load (pheap (kvm_pool k)) p; Ok (block_id b)) g = Ok xs) as [xs Ex].
    { induction Hg as [|p g (i & -> & Hi) Hg (xs & IH')]; [by exists []|].
      destruct (core_load _ i (pi_core _ _ (kv_pool _ _ _ HK)) Hi) as (blk & _ & Hld & _).
      cbn [mapM_res]. rewrite Hld. cbn [mbind result_bind]. rewrite IH'. by eexists. }
    cbn [mapM_res]. rewrite Ex. cbn [mbind result_bind]. rewrite IH. by eexists. }
  destruct H as [ids ->]. by exists (Some ids).
Qed.

Lemma table_valid k l rid : kvm_inv k l -> blocks_valid k (kvm_get_blocks rid k).
Proof.
  intros [HK _]. unfold blocks_valid, kvm_get_blocks, coord_get_blocks. cbn. apply Forall_fmap, Forall_forall. intros m Hm.
  pose proof (kv_managers _ _ _ HK) as Hok. rewrite Forall_forall in Hok. apply Forall_forall. intros p. by apply (mo_valid _ _ (Hok _ Hm)).
Qed.

Lemma common_prefix_ok k l r n :
  kvm_inv k l -> status r = RUNNING -> exists ns, kvm_num_common_prefix r n k = Ok ns.
Proof.
  intros [HK _] Hst. unfold kvm_num_common_prefix. rewrite bool_decide_true by done. cbn [assert_ mbind result_bind].
  unfold coord_num_common_prefix.
  assert (H : exists ns, mapM_res (fun m => get_num_common_prefix_blocks (request_id r) n m (kvm_pool k)) (managers k) = Ok ns).
  { pose proof (kv_managers _ _ _ HK) as Hok. pose proof (pi_core _ _ (kv_pool _ _ _ HK)) as HC. clear HK. induction Hok as [|m ms Hm Hok (ns & IH)]; [by exists []|]. cbn [mapM_res].
    assert (exists x, get_num_common_prefix_blocks (request_id r) n m (kvm_pool k) = Ok x) as [x ->].
    { unfold get_num_common_prefix_blocks. destruct (mgr_class m); try (by eexists).
      destruct (count_common_spec (kvm_pool k) (req_blocks m (request_id r)) n HC) as (x & -> & _); [|by eexists].
      intros p. apply (mo_valid _ _ Hm). }
    cbn [mbind result_bind]. rewrite IH. by eexists. }
  destruct (coord_kind (coordinator k)); by eauto.
Qed.

Lemma take_events_same k l : kvm_inv k l -> kv_setup k -> exists es, kvm_take_events k = (es, k).
Proof.
  intros HI Hset. unfold kvm_take_events, take_kv_events. rewrite (ks_events _ Hset). cbn. exists [].
  f_equal. by destruct k as [? ? ? ? ? []].
Qed.

(** Resetting the prefix cache always returns and touches no block table. *)
Lemma reset_backing k l : kvm_inv k l -> kv_setup k ->
  exists ok k', kvm_reset_prefix_cache k = Ok (ok, k') /\ kvm_inv k' l /\ (forall rid, kv_frame rid k k').
Proof.
  intros [HK Hc] Hset. unfold kvm_reset_prefix_cache.
  destruct (reset_prefix_cache_step _ _ (kv_pool _ _ _ HK)) as (P' & E & HP & HS & Hcase & Href). rewrite E. cbn [mbind result_bind].
  set (k1 := set_coord (set_state (single_type_managers (coordinator k)) P' (coordinator k)) k).
  assert (HI1 : kvm_inv k1 l).
  { split; [|change (kvm_enable_caching k = enable_caching P'); rewrite Hc; by destruct HS as (_ & -> & _)]. destruct HK as [H1 H2 H3 H4]. split; try done.
    - eapply Forall_impl; [exact H2|]. intros m Hm. eapply mgr_ok_frame; [exact Hm|done|]. intros i _ _ Hh. change (hashof P' i = None). destruct (decide _); [apply Hcase|by rewrite Hcase].
    - change (unshared P'). destruct (decide (zlen l = num_gpu_blocks (kvm_pool k) - 1)) as [Hz|]; [|by rewrite Hcase].
      intros i Hi _. rewrite (all_unused P' l HP); [lia| |done]. by destruct HS as (-> & _).
    - intros i Hi. change (refc P' i = total_refs (managers k) i). rewrite Href. by apply H4. }
  assert (HF : forall st rid, (is_Some (prefix_cache_stats k) -> is_Some st) -> kv_frame rid k (set_stats st k1)).
  { intros st rid Hst. split; [split; try done; by eexists _, _|]. exact (proj2 (reflexivity k : kv_frame rid k k)). }
  change (kvm_log_stats k1) with (kvm_log_stats k). change (prefix_cache_stats k1) with (prefix_cache_stats k).
  destruct (negb _); [exists false, k1; split_and!; try done; intros rid; by apply (HF (prefix_cache_stats k) rid)|].
  destruct (kvm_log_stats k) eqn:El; [|exists true, k1; split_and!; try done; intros rid; by apply (HF (prefix_cache_stats k) rid)].
  destruct (ks_stats _ Hset El) as [st ->]. cbn [get_or mbind result_bind]. eexists true, _. split_and!; [done|done|]. intros rid. apply HF. by eexists.
Qed.
End Backing.
