(* ===== verification/KVStart.v ===== *)
(** Construction of the KV cache manager: how
    src/vllm/v1/core/kv_cache_coordinator.py splits the groups of a hybrid model,
    and that [KVCacheManager.__init__] sets up what the scheduler relies on. *)
From Stdlib Require Import ZArith Lia Ascii String.
From stdpp Require Import numbers gmap strings list sorting.
From S2P Require Import Prelude FreeQueue Request BlockHash BlockPool KVSpec SingleType Coordinator KVCacheManager KVBacking.

Open Scope Z_scope.

(** ** The groups of a hybrid model *)

(** The identifiers chosen by a test, in order. *)
Definition ids_where (f : KVCacheGroupSpec -> bool) (n : nat) (groups : list KVCacheGroupSpec) : list Z :=
  fst <$> filter (fun ig => f ig.2 = true) (zip (Z.of_nat <$> seq n (length groups)) groups).

Lemma ids_where_cons f n g groups :
  ids_where f n (g :: groups) = (if f g then [Z.of_nat n] else []) ++ ids_where f (S n) groups.
Proof.
  unfold ids_where. cbn [length seq fmap list_fmap zip zip_with]. rewrite filter_cons. cbn [fst snd].
  destruct (f g); [by rewrite decide_True|by rewrite decide_False].
Qed.

Lemma ids_where_range f n groups x : x ∈ ids_where f n groups -> Z.of_nat n <= x < Z.of_nat (n + length groups).
Proof.
  revert n. induction groups as [|g groups IH]; intros n; [by intros ?%elem_of_nil|].
  rewrite ids_where_cons, elem_of_app. intros [Hx|Hx%IH]; [|cbn; lia]. destruct (f g); [|by apply elem_of_nil in Hx].
  apply list_elem_of_singleton in Hx as ->. cbn. lia.
Qed.

Lemma ids_where_sorted f n groups : StronglySorted Z.lt (ids_where f n groups).
Proof.
  revert n. induction groups as [|g groups IH]; intros n; [constructor|]. rewrite ids_where_cons.
  destruct (f g); [|apply IH]. cbn. constructor; [apply IH|]. apply List.Forall_forall. intros x Hx%list_elem_of_In%ids_where_range. lia.
Qed.

Lemma ids_where_perm f n groups :
  ids_where f n groups ++ ids_where (negb ∘ f) n groups ≡ₚ Z.of_nat <$> seq n (length groups).
Proof.
  revert n. induction groups as [|g groups IH]; intros n; [done|]. rewrite !ids_where_cons. cbn.
  destruct (f g); cbn; [by rewrite IH|]. by rewrite <-Permutation_middle, IH.
Qed.

(** The first of the specifications chosen by a test. *)
Definition spec_where (f : KVCacheGroupSpec -> bool) (groups : list KVCacheGroupSpec) : option KVCacheSpec :=
  kv_cache_spec <$> head (filter (fun g => f g = true) groups).

Lemma spec_where_cons f g groups :
  spec_where f (g :: groups) = if f g then Some (kv_cache_spec g) else spec_where f groups.
Proof. unfold spec_where. rewrite filter_cons. destruct (f g); [by rewrite decide_True|by rewrite decide_False]. Qed.

Definition full_group (g : KVCacheGroupSpec) : bool := is_full (kv_cache_spec g).

Lemma split_groups_spec groups : forall n full other fi oi full' other' fi' oi',
  foldM split_group (full, other, fi, oi) (zip (Z.of_nat <$> seq n (length groups)) groups) = Ok (full', other', fi', oi') ->
  fi' = fi ++ ids_where full_group n groups /\ oi' = oi ++ ids_where (negb ∘ full_group) n groups /\
  full' = union full (spec_where full_group groups) /\ other' = union other (spec_where (negb ∘ full_group) groups).
Proof.
  induction groups as [|g groups IH]; intros n full other fi oi full' other' fi' oi' E.
  { cbn in E. injection E as <- <- <- <-. unfold ids_where, spec_where. cbn. rewrite !app_nil_r. by destruct full, other. }
  cbn [length seq fmap list_fmap zip zip_with foldM] in E. apply bind_Ok in E as ([[[f1 o1] fi1] oi1] & E1 & E).
  apply IH in E as (-> & -> & -> & ->). rewrite !ids_where_cons. unfold split_group in E1.
  change (is_full (kv_cache_spec g)) with (full_group g) in E1.
  rewrite !spec_where_cons. unfold compose.
  destruct (full_group g) eqn:Eg; cbn [negb]; apply bind_Ok in E1 as (u & Eu & E1); injection E1 as <- <- <- <-;
    rewrite ?app_nil_l, <-?app_assoc; cbn [negb]; split_and!; try done;
    destruct full, other, (spec_where full_group groups), (spec_where (fun x => negb (full_group x)) groups); done.
Qed.

Lemma list_max_ge x l : x ∈ l -> x <= list_max l.
Proof.
  destruct l as [|y l]; [by intros ?%elem_of_nil|]. cbn. revert y. induction l as [|z l IH]; intros y Hx.
  - apply list_elem_of_singleton in Hx as ->. cbn. lia.
  - cbn. rewrite !elem_of_cons in Hx. destruct Hx as [->|[->|Hx]]; [|lia|].
    + specialize (IH y ltac:(by left)). lia.
    + specialize (IH y ltac:(by right)). lia.
Qed.

Lemma list_min_le x l : x ∈ l -> list_min l <= x.
Proof.
  destruct l as [|y l]; [by intros ?%elem_of_nil|]. cbn. revert y. induction l as [|z l IH]; intros y Hx.
  - apply list_elem_of_singleton in Hx as ->. cbn. lia.
  - cbn. rewrite !elem_of_cons in Hx. destruct Hx as [->|[->|Hx]]; [|lia|].
    + specialize (IH y ltac:(by left)). lia.
    + specialize (IH y ltac:(by right)). lia.
Qed.

(** Two sorted runs, one before the other, that make up [range(n)]. *)
Lemma runs_range l1 l2 n :
  StronglySorted Z.lt l1 -> StronglySorted Z.lt l2 -> list_max l1 < list_min l2 ->
  l1 ++ l2 ≡ₚ Z.of_nat <$> seq 0 n -> l1 ++ l2 = Z.of_nat <$> seq 0 n.
Proof.
  intros H1 H2 Hlt Hp. apply (StronglySorted_unique_strong Z.lt); [intros; lia| | |done].
  - apply StronglySorted_app_2; [|done|done]. intros x y Hx%list_max_ge Hy%list_min_le. lia.
  - clear. generalize 0%nat as m. induction n as [|n IH]; intros m; cbn; [constructor|]. constructor; [apply IH|].
    apply List.Forall_forall. intros x (y & -> & Hy%elem_of_seq)%list_elem_of_In%list_elem_of_fmap. lia.
Qed.

(** [verify_and_split_kv_cache_groups]: the groups are split by their type,
    each type's groups come first or last as one run, and the two lists
    together are all group ids in order. *)
Lemma split_covers groups ms caching info :
  verify_and_split_kv_cache_groups groups ms caching = Ok info ->
  full_attention_group_ids info = ids_where full_group 0 groups /\
  other_group_ids info = ids_where (negb ∘ full_group) 0 groups /\
  Some (full_attention_spec info) = spec_where full_group groups /\
  Some (other_spec info) = spec_where (negb ∘ full_group) groups /\
  (exists i m, other_group_ids info !! 0%nat = Some i /\ pyindex ms i = Ok m /\ other_attention_cls info = mgr_class m) /\
  (if full_attn_first info then full_attention_group_ids info ++ other_group_ids info
   else other_group_ids info ++ full_attention_group_ids info) = Z.of_nat <$> seq 0 (length groups).
Proof.
  intros E. unfold verify_and_split_kv_cache_groups in E. apply bind_Ok in E as ([[[full other] fi] oi] & Es & E).
  apply split_groups_spec in Es as (-> & -> & -> & ->). cbn [app] in E. rewrite !(left_id_L None union) in E.
  cbv beta iota in E. inv_ok. cbn.
  set (fi := ids_where full_group 0 groups) in *. set (oi := ids_where (negb ∘ full_group) 0 groups) in *.
  split_and!; try done.
  - exists a1, a2. split_and!; try done. unfold pyindex in E2. cbn in E2. by apply get_or_Ok in E2.
  - pose proof (ids_where_perm full_group 0 groups) as Hp. fold fi oi in Hp.
    pose proof (ids_where_sorted full_group 0 groups) as S1. pose proof (ids_where_sorted (negb ∘ full_group) 0 groups) as S2.
    destruct (Z.ltb_spec (list_max fi) (list_min oi)); [injection E5 as <-; by apply runs_range|].
    destruct (Z.ltb_spec (list_max oi) (list_min fi)); [|done]. injection E5 as <-. apply runs_range; try done.
    by rewrite Permutation_app_comm.
Qed.

(** ** Initial state *)

Lemma managers_fresh groups dcp ms n :
  mapM_res (fun ig => get_manager_for_kv_cache_spec (kv_cache_spec ig.2) ig.1 dcp)
    (zip (Z.of_nat <$> seq n (length groups)) groups) = Ok ms ->
  Forall2 (fun g m => num_cached_block m = ∅ /\ mgr_block_size m = hit_block_size (kv_cache_spec g) dcp /\
    spec_manager_map (kv_cache_spec g) = Some (mgr_class m)) groups ms.
Proof.
  revert n ms. induction groups as [|g groups IH]; intros n ms E; [cbn in E; injection E as <-; constructor|].
  cbn [length seq fmap list_fmap zip zip_with mapM_res fst snd] in E. inv_ok. constructor; [|by eapply IH].
  unfold get_manager_for_kv_cache_spec in E0. by inv_ok.
Qed.

Lemma spec_where_group f groups s : Some s = spec_where f groups -> exists g, g ∈ groups /\ f g = true /\ kv_cache_spec g = s.
Proof.
  unfold spec_where. intros E. destruct (filter _ groups) as [|g l] eqn:Ef; [done|]. injection E as ->.
  assert (Hg : g ∈ filter (fun g => f g = true) groups) by (rewrite Ef; by left). apply list_elem_of_filter in Hg as [? ?]. eauto.
Qed.

Lemma ids_where_head f groups : forall n i, ids_where f n groups !! 0%nat = Some i ->
  exists j g, i = Z.of_nat (n + j) /\ groups !! j = Some g /\ spec_where f groups = Some (kv_cache_spec g).
Proof.
  induction groups as [|g groups IH]; intros n i Hi; [done|]. rewrite ids_where_cons in Hi. rewrite spec_where_cons. destruct (f g).
  - injection Hi as <-. exists 0%nat, g. split; [f_equal; lia|done].
  - destruct (IH _ _ Hi) as (j & g' & -> & ? & ?). exists (S j), g'. split; [f_equal; lia|done].
Qed.

Lemma ids_where_some f groups n s : Some s = spec_where f groups -> ids_where f n groups ≠ [].
Proof.
  revert n. induction groups as [|g groups IH]; intros n; [done|]. rewrite spec_where_cons, ids_where_cons. destruct (f g); [done|]. cbn. apply IH.
Qed.

Section Start.
Context (bs maxlen : Z) (kc : KVCacheConfig) (caching eagle log use_int : bool) (dcp : Z) (k : KVCacheManager).
Hypothesis (Hinit : kvm_init kc maxlen caching eagle log false use_int dcp = Ok k) (Hbs : 0 < bs)
  (Hgroups : Forall (fun g => lookup_supported (kv_cache_spec g) dcp eagle /\ hit_block_size (kv_cache_spec g) dcp = bs) (kv_cache_groups kc))
  (Hmany : zlen (kv_cache_groups kc) <= 2 ^ 32).

Lemma start_kind ms kind :
  Forall2 (fun g m => num_cached_block m = ∅ /\ mgr_block_size m = hit_block_size (kv_cache_spec g) dcp /\
    spec_manager_map (kv_cache_spec g) = Some (mgr_class m)) (kv_cache_groups kc) ms ->
  (match kv_cache_groups kc with
     | [g] =>
         let bs := spec_block_size (kv_cache_spec g) in
         Ok (Unitary (kv_cache_spec g) (if 1 <? dcp then bs * dcp else bs) dcp)
     | _ => _ ← assert_ (dcp =? 1); info ← verify_and_split_kv_cache_groups (kv_cache_groups kc) ms true; Ok (Hybrid info)
     end) = Ok kind ->
  match kind with
  | NoPrefixCache => True
  | Unitary s b dcp => length ms = 1%nat /\ b = bs /\ bs = hit_block_size s dcp /\
      lookup_supported s dcp eagle /\ Forall (fun m => spec_manager_map s = Some (mgr_class m)) ms
  | Hybrid h =>
      (if full_attn_first h then full_attention_group_ids h ++ other_group_ids h
       else other_group_ids h ++ full_attention_group_ids h) = Z.of_nat <$> seq 0 (length ms) /\
      full_attention_group_ids h ≠ [] /\ other_group_ids h ≠ [] /\
      is_full (full_attention_spec h) = true /\ spec_manager_map (other_spec h) = Some (other_attention_cls h) /\
      spec_block_size (full_attention_spec h) = bs /\ spec_block_size (other_spec h) = bs /\
      lookup_supported (other_spec h) 1 eagle
  end.
Proof using Hgroups.
  clear Hinit Hmany Hbs. intros HF E. rewrite <-(Forall2_length _ _ _ HF).
  assert (Hhyb : forall info, dcp = 1 -> verify_and_split_kv_cache_groups (kv_cache_groups kc) ms true = Ok info ->
     (if full_attn_first info then full_attention_group_ids info ++ other_group_ids info
       else other_group_ids info ++ full_attention_group_ids info) = Z.of_nat <$> seq 0 (length (kv_cache_groups kc)) /\
      full_attention_group_ids info ≠ [] /\ other_group_ids info ≠ [] /\
      is_full (full_attention_spec info) = true /\ spec_manager_map (other_spec info) = Some (other_attention_cls info) /\
      spec_block_size (full_attention_spec info) = bs /\ spec_block_size (other_spec info) = bs /\
      lookup_supported (other_spec info) 1 eagle).
  { intros info -> Ev. pose proof Ev as (E1 & E2 & E3 & E4 & (i & m & Hi & Em & Ecl) & Hids)%split_covers.
    destruct (spec_where_group _ _ _ E3) as (gf & Hgf & Hff & Esf), (spec_where_group _ _ _ E4) as (go & Hgo & Hfo & Eso).
    rewrite Forall_forall in Hgroups. destruct (Hgroups gf Hgf) as [_ Hbf], (Hgroups go Hgo) as [Hso Hbo].
    rewrite Esf in Hbf. rewrite Eso in Hbo, Hso. split_and!; try done.
    - rewrite E1. by eapply ids_where_some.
    - rewrite E2. by eapply ids_where_some.
    - by rewrite <-Esf.
    - rewrite E2 in Hi. apply ids_where_head in Hi as (j & g & -> & Hgj & Esg). rewrite <-E4 in Esg. injection Esg as ->.
      destruct (Forall2_lookup_l _ _ _ _ _ HF Hgj) as (m' & Hm' & _ & _ & Hc). rewrite Ecl, Hc. unfold pyindex in Em.
      destruct (Z.ltb_spec (Z.of_nat (0 + j)) 0); [lia|]. destruct (Z.ltb_spec (Z.of_nat (0 + j)) 0); [lia|].
      rewrite Nat2Z.id in Em. apply get_or_Ok in Em. cbn in Em. congruence. }
  destruct (kv_cache_groups kc) as [|g [|g2 gs]] eqn:Eg.
  - apply bind_Ok in E as (u & Ha & E). apply assert_Ok, Z.eqb_eq in Ha. inv_ok. by apply Hhyb.
  - injection E as <-. inversion HF as [|? m ? ms' (_ & _ & Hc) HF']; subst. inversion HF'; subst.
    apply Forall_cons in Hgroups as [[Hs Hb] _]. split; [done|]. split; [done|]. split; [done|]. split; [done|]. by apply Forall_singleton.
  - apply bind_Ok in E as (u & Ha & E). apply assert_Ok, Z.eqb_eq in Ha. inv_ok. by apply Hhyb.
Qed.

(** A manager initialised for supported groups with one block size has
    everything the scheduler relies on, and holds nothing. *)
Lemma kvm_init_setup :
  (exists l, kvm_inv k l) /\ kv_setup bs maxlen k /\ (forall rid, unbacked k rid) /\
  kvm_enable_caching k = caching /\ kvm_log_stats k = log.
Proof.
  assert (Hg : Forall group_ok (kv_cache_groups kc)).
  { eapply Forall_impl; [exact Hgroups|]. intros g [(? & ? & _) _]. by split. }
  destruct (kvm_init_ok _ _ _ _ _ _ _ _ _ Hinit Hg Hmany) as (HI & Hev & Hlen & Hml & Hcg & _).
  assert (E := Hinit). unfold kvm_init in E. apply bind_Ok in E as (b & _ & E). apply bind_Ok in E as (c & Ec & E). injection E as Ek.
  unfold get_kv_cache_coordinator in Ec. apply bind_Ok in Ec as (P & EP & Ec). apply bind_Ok in Ec as (ms & Ems & Ec).
  apply bind_Ok in Ec as (kind & Ekind & Ec). injection Ec as Ec.
  apply managers_fresh in Ems. assert (Hms : managers k = ms) by (by rewrite <-Ek, <-Ec).
  assert (Hkind : coord_kind (coordinator k) = kind /\ coord_use_eagle (coordinator k) = eagle) by (by rewrite <-Ek, <-Ec).
  destruct Hkind as [Hkind Heagle].
  assert (Hm : Forall (fun m => num_cached_block m = ∅ /\ mgr_block_size m = bs /\ mgr_class m ≠ CrossAttentionManager) ms).
  { apply Forall_lookup. intros j m Hj. destruct (Forall2_lookup_r _ _ _ _ _ Ems Hj) as (g & Hgj & H1 & H2 & H3).
    rewrite Forall_lookup in Hgroups. destruct (Hgroups _ _ Hgj) as [(_ & _ & _ & Hs) Hb]. split_and!; [done|congruence|].
    intros Hc. rewrite Hc in H3. by destruct (kv_cache_spec g). }
  assert (Hlg : length (kv_cache_groups kc) = length ms) by (by eapply Forall2_length).
  split; [by eexists|]. split; [|split; [|by rewrite <-Ek]].
  - split; try done.
    + unfold coord_wf. change (single_type_managers (coordinator k)) with (managers k). rewrite Hms, Hkind, Heagle. split; [done|].
      split; [eapply Forall_impl; [exact Hm|]; naive_solver|]. split; [unfold zlen in *; lia|].
      destruct caching; [|by injection Ekind as <-]. cbn [negb] in Ekind. by eapply start_kind.
    + rewrite <-Ek. cbn. unfold managers, zlen. cbn. rewrite <-Ec. cbn. by rewrite Hlg.
    + by rewrite Hcg, Hms.
    + rewrite <-Ek. cbn. intros ->. by eexists.
    + rewrite Hms. eapply Forall_impl; [exact Hm|]. naive_solver.
  - intros rid. unfold unbacked. rewrite Hms. eapply Forall_impl; [exact Hm|]. intros m (-> & _). apply lookup_empty.
Qed.
End Start.
