(* ===== verification/Capacity.v ===== *)
(** A pool that can hold one sequence of the maximal length never refuses the
    only request that holds blocks
    (src/vllm/v1/core/kv_cache_manager.py, [allocate_slots]). *)
From Stdlib Require Import ZArith Lia Ascii String.
From stdpp Require Import numbers gmap strings list.
From S2P Require Import Prelude FreeQueue Request BlockHash BlockPool KVSpec SingleType Coordinator KVCacheManager KVBacking.

Open Scope Z_scope.

Definition zsum (l : list Z) : Z := foldr Z.add 0 l.

Lemma zsum_le {A} (f g : A -> Z) l : (forall x, x ∈ l -> f x <= g x) -> zsum (f <$> l) <= zsum (g <$> l).
Proof.
  induction l as [|x l IH]; intros Hl; [done|]. unfold zsum in *. cbn. specialize (Hl x ltac:(by left)) as Hx.
  specialize (IH ltac:(intros y Hy; apply Hl; by right)). lia.
Qed.

Lemma zsum_zlen {A B} (f : A -> list B) l : zsum ((fun x => zlen (f x)) <$> l) = zlen (concat (f <$> l)).
Proof. unfold zsum. induction l as [|x l IH]; [done|]. cbn. by rewrite IH, zlen_app. Qed.

Lemma length_filter_compl {A} (P Q : A -> Prop) `{!forall x, Decision (P x), !forall x, Decision (Q x)} (l : list A) :
  (forall x, x ∈ l -> P x <-> ~ Q x) -> (length (filter P l) + length (filter Q l))%nat = length l.
Proof.
  induction l as [|x l IH]; intros Hl; [done|]. rewrite !filter_cons. specialize (Hl x ltac:(by left)) as Hx.
  specialize (IH ltac:(intros y Hy; apply Hl; by right)).
  destruct (decide (P x)), (decide (Q x)); cbn; try lia; exfalso; tauto.
Qed.

Section Capacity.
Context (bs L maxlen : Z).
Notation kv_setup := (KVBacking.kv_setup bs maxlen).

(** The blocks of one sequence of the maximal length, in all groups together,
    fit into the pool. *)
Definition capacity (k : KVCacheManager) : Prop :=
  zsum ((fun m => cdiv (slot_tokens m maxlen 0) bs) <$> managers k) <= num_gpu_blocks (kvm_pool k) - 1.

(** The blocks such a sequence leaves over. *)
Definition room_of (k : KVCacheManager) : Z :=
  num_gpu_blocks (kvm_pool k) - 1 - zsum ((fun m => cdiv (slot_tokens m maxlen 0) bs) <$> managers k).

Lemma capacity_room k : capacity k <-> 0 <= room_of k.
Proof. unfold capacity, room_of. lia. Qed.

(** No other request holds blocks. *)
Definition alone (k : KVCacheManager) (rid : string) : Prop := forall rid', rid' ≠ rid -> unbacked k rid'.

Lemma room_frame rid k k' : kv_frame rid k k' -> room_of k' = room_of k.
Proof.
  intros [HL HF]. unfold room_of. destruct (kl_pool _ _ HL) as (-> & _). f_equal. unfold zsum.
  induction HF as [|m m' ms ms' [Hs _] HF IH]; [done|]. cbn. rewrite IH. by rewrite (slot_tokens_same m m' _ _ Hs).
Qed.

Lemma capacity_frame rid k k' : kv_frame rid k k' -> capacity k -> capacity k'.
Proof. intros HF. rewrite !capacity_room. by rewrite (room_frame _ _ _ HF). Qed.

Lemma alone_frame rid k k' : kv_frame rid k k' -> alone k rid -> alone k' rid.
Proof. intros HF Ha rid' Hne. eapply unbacked_frame; [exact HF|done|]. by apply Ha. Qed.

Section Alone.
Context (k : KVCacheManager) (l : list nat) (rid : string).
Hypothesis (HI : kvm_inv k l) (Hset : kv_setup k) (Ha : alone k rid).

Lemma alone_refs i : i ≠ 0%nat -> 0 < refc (kvm_pool k) i -> PBlk i ∈ concat ((fun m => req_blocks m rid) <$> managers k).
Proof using HI Hset Ha.
  intros Hi Hr. rewrite (kv_refs _ _ _ (proj1 HI) i Hi) in Hr.
  pose proof (kv_managers _ _ _ (proj1 HI)) as Hok. pose proof (ks_class _ _ _ Hset) as Hcl.
  assert (Hun : Forall (fun m => forall rid', rid' ≠ rid -> num_cached_block m !! rid' = None) (managers k)).
  { apply Forall_forall. intros m Hm rid' Hne. specialize (Ha rid' Hne). unfold unbacked in Ha. rewrite Forall_forall in Ha. auto. }
  induction (managers k) as [|m ms IH]; [by cbn in Hr|]. apply Forall_cons in Hok as [Hm Hok], Hcl as [Hc Hcl], Hun as [Hu Hun].
  cbn. rewrite elem_of_app. cbn in Hr. unfold mrefs in Hr at 1. rewrite (fold_occ_owners i [rid]) in Hr.
  - cbn in Hr. fold (total_refs ms i) in Hr. destruct (decide (PBlk i ∈ req_blocks m rid)) as [|Hn]; [by left|right].
    apply IH; try done. pose proof (occ_zero i _ Hn) as Hz. unfold req_blocks in Hz. rewrite Hz in Hr. lia.
  - apply NoDup_singleton.
  - intros rid' Hne. rewrite list_elem_of_singleton in Hne. by apply (mo_new _ _ Hm); [apply Hu|].
Qed.

(** Every block that is not free is in one of the request's tables. *)
Lemma used_bound : num_gpu_blocks (kvm_pool k) - 1 - zlen l <= zsum ((fun m => zlen (req_blocks m rid)) <$> managers k).
Proof using HI Hset Ha.
  destruct HI as [[HP _ _ _] _]. pose proof (pc_pos _ (pi_core _ _ HP)) as Hpos. set (n := Z.to_nat (num_gpu_blocks (kvm_pool k))).
  set (free := filter (fun i => refc (kvm_pool k) i = 0) (seq 1 (n - 1))). set (used := filter (fun i => 0 < refc (kvm_pool k) i) (seq 1 (n - 1))).
  assert (Hl : l ≡ₚ free).
  { apply NoDup_Permutation; [apply (iq_nodup _ _ (pi_queue _ _ HP))|apply NoDup_filter, NoDup_seq|].
    intros i. unfold free. rewrite list_elem_of_filter, elem_of_seq. split.
    - intros Hi. pose proof (pool_free_valid _ _ _ HP Hi) as Hv. apply (pi_free _ _ HP) in Hi as [? ?]; [|done]. split; [done|]. unfold n. lia.
    - intros [Hz Hi]. apply (pi_free _ _ HP); [unfold n in Hi; lia|]. split; [lia|done]. }
  assert (Hcount : (length free + length used)%nat = (n - 1)%nat).
  { unfold free, used. rewrite length_filter_compl, length_seq; [done|]. intros i Hi%elem_of_seq.
    pose proof (pi_ref _ _ HP i ltac:(lia)). split; [lia|]. intros. lia. }
  assert (Hused : (length used <= length (concat ((fun m => req_blocks m rid) <$> managers k)))%nat).
  { rewrite <-(length_fmap PBlk used). apply submseteq_length, NoDup_submseteq.
    - apply NoDup_fmap_2; [by intros x y [=]|]. apply NoDup_filter, NoDup_seq.
    - intros p (i & -> & Hi)%list_elem_of_fmap. apply list_elem_of_filter in Hi as [Hr Hi%elem_of_seq]. apply alone_refs; [lia|done]. }
  rewrite zsum_zlen. unfold zlen. rewrite Hl. unfold n in *. lia.
Qed.
End Alone.

Lemma sum_need_le P rid nt lists ms :
  sum_need P rid nt 0 lists ms <= zsum (zip_with (fun _ m => deficit rid nt 0 m) lists ms).
Proof.
  unfold sum_need, zsum. revert ms. induction lists as [|blks lists IH]; intros [|m ms]; cbn; [done..|]. specialize (IH ms).
  enough (need_of P rid nt 0 blks m <= deficit rid nt 0 m) by lia.
  unfold need_of, num_evictable, zlen. pose proof (length_filter (fun p => evictable P p = true) blks). lia.
Qed.

Lemma zip_right {A B} (f : B -> Z) (l1 : list A) (l2 : list B) : length l1 = length l2 -> zip_with (fun _ y => f y) l1 l2 = f <$> l2.
Proof. revert l2. induction l1 as [|x l1 IH]; intros [|y l2] Hl; try done. cbn. f_equal. apply IH. by injection Hl. Qed.

(** The only holder of blocks is never refused. *)
Lemma never_refused k l r n n0 la lists :
  alloc_pre k l r n n0 lists la false 0 -> kv_setup k -> alone k (request_id r) -> capacity k -> length lists = length (managers k) ->
  exists b k', allocate_slots r n n0 (Some (mkBlocks lists)) la false 0 k = Ok (Some b, k').
Proof.
  intros Hpre Hset Ha Hcap Hlen. destruct (allocate_slots_ok k l r n n0 lists la false 0 Hpre) as (res & k' & l' & E & HI' & Hres & HS & _).
  destruct res as [b|]; [by eexists _, _|]. exfalso.
  pose proof (frame_of_slots _ _ _ _ _ _ _ HS Hres Hlen) as HF. destruct Hres as [Hshort _].
  pose proof (setup_frame _ _ _ _ _ HF Hset) as Hset'.
  pose proof (used_bound k' l' (request_id r) HI' Hset' (alone_frame _ _ _ HF Ha)) as Hused.
  pose proof (capacity_frame _ _ _ HF Hcap) as Hcap'. unfold capacity in Hcap'.
  set (nt := tokens_need_slot r n n0 la k) in *. pose proof (sum_need_le (kvm_pool k') (request_id r) nt lists (managers k')) as Hle.
  assert (Hlen' : length lists = length (managers k')) by (rewrite Hlen; apply (Forall2_length _ _ _ (proj2 HF))).
  rewrite zip_right in Hle by done.
  assert (Hsum : zsum (deficit (request_id r) nt 0 <$> managers k') + zsum ((fun m => zlen (req_blocks m (request_id r))) <$> managers k') <=
    zsum ((fun m => cdiv (slot_tokens m maxlen 0) bs) <$> managers k')).
  { destruct (ks_wf _ _ _ Hset') as (Hbs & Hmb & _). assert (Hnt : nt <= maxlen) by (unfold nt, tokens_need_slot; rewrite (ks_len _ _ _ Hset); lia).
    clear -Hbs Hmb Hnt. change (single_type_managers (coordinator k')) with (managers k') in Hmb. unfold zsum.
    induction Hmb as [|m ms Hm Hmb IH]; cbn; [done|]. unfold deficit, blocks_short in *. rewrite Hm.
    pose proof (cdiv_mono _ _ bs Hbs (slot_tokens_mono m nt maxlen Hnt)). lia. }
  lia.
Qed.
End Capacity.
