(* ===== verification/EncoderCache.v ===== *)
(** The encoder cache of src/vllm/v1/core/encoder_cache_manager.py: sharing of
    multimodal encoder outputs between requests, with eviction of unreferenced
    entries at allocation time, and the budget computation. *)
From Stdlib Require Import ZArith Lia Ascii String QArith Qcanon.
From stdpp Require Import numbers gmap strings list.
From S2P Require Import Prelude Request.

Open Scope Z_scope.

(** ** State *)

(** [freeable] is an OrderedDict, oldest entry first. *)
Record EncoderCacheManager := mkEnc {
  cache_size : Z;
  num_free_slots : Z;
  num_freeable_slots : Z;
  cached : gmap string (gset string);
  freeable : list (string * Z);
  freed : list string
}.

Definition enc_init (size : Z) : EncoderCacheManager := mkEnc size size size ∅ [] [].

(** [freeable.pop(mm_hash)]. *)
Fixpoint fpop (h : string) (l : list (string * Z)) : result (Z * list (string * Z)) :=
  match l with
  | [] => Err KeyError
  | (h', n) :: l' => if decide (h = h') then Ok (n, l') else '(m, l'') ← fpop h l'; Ok (m, (h', n) :: l'')
  end.

(** [freeable[mm_hash] = n]: an existing key keeps its position. *)
Fixpoint fset (h : string) (n : Z) (l : list (string * Z)) : list (string * Z) :=
  match l with
  | [] => [(h, n)]
  | (h', n') :: l' => if decide (h = h') then (h', n) :: l' else (h', n') :: fset h n l'
  end.

(** ** Operations *)

Definition check_and_update_cache (r : Request) (input_id : Z) (e : EncoderCacheManager)
  : result (bool * EncoderCacheManager) :=
  mm_hash ← pyindex (mm_hashes r) input_id;
  match cached e !! mm_hash with
  | None => Ok (false, e)
  | Some refs =>
      e ← (if decide (refs = ∅) then
             '(n, fl) ← fpop mm_hash (freeable e);
             Ok (mkEnc (cache_size e) (num_free_slots e) (num_freeable_slots e - n) (cached e) fl (freed e))
           else Ok e);
      Ok (true, mkEnc (cache_size e) (num_free_slots e) (num_freeable_slots e)
                  (<[mm_hash := {[ request_id r ]} ∪ refs]> (cached e)) (freeable e) (freed e))
  end.

(** The eviction loop of [can_allocate]: pop the oldest freeable entries
    until [num_tokens] fit. [popitem] on an empty dict raises KeyError. *)
Fixpoint evict_loop (num_tokens free : Z) (c : gmap string (gset string)) (fl : list (string * Z))
  (fr : list string) : result (Z * gmap string (gset string) * list (string * Z) * list string) :=
  if num_tokens <=? free then Ok (free, c, fl, fr) else
  match fl with
  | [] => Err KeyError
  | (h, n) :: fl' =>
      match c !! h with
      | None => Err KeyError
      | Some _ => evict_loop num_tokens (free + n) (delete h c) fl' (fr ++ [h])
      end
  end.

Definition can_allocate (r : Request) (input_id encoder_compute_budget num_tokens_to_schedule : Z)
  (e : EncoderCacheManager) : result (bool * EncoderCacheManager) :=
  num_tokens ← get_num_encoder_tokens r input_id;
  if encoder_compute_budget <? num_tokens then Ok (false, e) else
  let num_tokens := num_tokens + num_tokens_to_schedule in
  if num_tokens <=? num_free_slots e then Ok (true, e) else
  if num_freeable_slots e <? num_tokens then Ok (false, e) else
  out ← evict_loop num_tokens (num_free_slots e) (cached e) (freeable e) (freed e);
  let '(free, c, fl, fr) := (out : Z * gmap string (gset string) * list (string * Z) * list string) in
  Ok (true, mkEnc (cache_size e) free (num_freeable_slots e) c fl fr).

Definition allocate (r : Request) (input_id : Z) (e : EncoderCacheManager) : result EncoderCacheManager :=
  mm_hash ← pyindex (mm_hashes r) input_id;
  let refs := default ∅ (cached e !! mm_hash) in
  num_encoder_tokens ← get_num_encoder_tokens r input_id;
  _ ← assert_ (num_encoder_tokens <=? num_free_slots e);
  _ ← assert_ (num_encoder_tokens <=? num_freeable_slots e);
  Ok (mkEnc (cache_size e) (num_free_slots e - num_encoder_tokens) (num_freeable_slots e - num_encoder_tokens)
        (<[mm_hash := {[ request_id r ]} ∪ refs]> (cached e)) (freeable e) (freed e)).

(** The set of input ids, in increasing order. *)
Definition get_cached_input_ids (r : Request) (e : EncoderCacheManager) : list Z :=
  Z.of_nat <$> filter (fun i => is_Some (mm_hashes r !! i ≫= fun h => cached e !! h)) (seq 0 (length (mm_hashes r))).

Definition free_encoder_input (r : Request) (input_id : Z) (e : EncoderCacheManager) : result EncoderCacheManager :=
  mm_hash ← pyindex (mm_hashes r) input_id;
  let refs := default ∅ (cached e !! mm_hash) in
  if decide (refs = ∅) then Ok e else
  let refs := refs ∖ {[ request_id r ]} in
  let c := <[mm_hash := refs]> (cached e) in
  if decide (refs = ∅) then
    num_tokens ← get_num_encoder_tokens r input_id;
    Ok (mkEnc (cache_size e) (num_free_slots e) (num_freeable_slots e + num_tokens) c
          (fset mm_hash num_tokens (freeable e)) (freed e))
  else Ok (mkEnc (cache_size e) (num_free_slots e) (num_freeable_slots e) c (freeable e) (freed e)).

Definition enc_free (r : Request) (e : EncoderCacheManager) : result EncoderCacheManager :=
  foldM (fun e i => free_encoder_input r i e) e (get_cached_input_ids r e).

Definition get_freed_mm_hashes (e : EncoderCacheManager) : list string * EncoderCacheManager :=
  (freed e, mkEnc (cache_size e) (num_free_slots e) (num_freeable_slots e) (cached e) (freeable e) []).

(** ** Budgets *)

(** The attributes of [SchedulerConfig] the budget reads. *)
Record EncBudgetConfig := mkBudgetCfg {
  max_num_encoder_input_tokens : Z;
  encoder_cache_size : Z;
  disable_chunked_mm_input : bool;
  bc_max_num_batched_tokens : Z
}.

Definition compute_text_encoder_budget (c : EncBudgetConfig) : Z * Z := (0, 0).

(** [max_tokens_by_modality] as the list of its values. *)
Definition compute_mm_encoder_budget (c : EncBudgetConfig) (max_tokens_by_modality : list Z) : result (Z * Z) :=
  match max_tokens_by_modality with
  | [] => Ok (0, 0)
  | x :: l =>
      let m := foldr Z.max x l in
      if disable_chunked_mm_input c && (bc_max_num_batched_tokens c <? m) then Err ValueError
      else Ok (Z.max (max_num_encoder_input_tokens c) m, Z.max (encoder_cache_size c) m)
  end.

(** [supports] and [max_tokens] are what the multimodal registry answers. *)
Definition compute_encoder_budget (c : EncBudgetConfig) (supports : bool) (max_tokens : list Z) : result (Z * Z) :=
  if supports then compute_mm_encoder_budget c max_tokens else Ok (compute_text_encoder_budget c).

(** * Invariant *)

Section invariant.
(** An [mm_hash] identifies the multimodal item, hence its encoder length. *)
Context (size : string -> Z).
Hypothesis size_pos : forall h, 0 < size h.

(** The request's items have the sizes their hashes stand for. *)
Definition sized (r : Request) : Prop :=
  forall f, f ∈ mm_features r -> pr_length (mm_position f) = size (identifier f).

Definition used (c : gmap string (gset string)) : Z := map_fold (fun h _ acc => size h + acc) 0 c.
Definition fsum (l : list (string * Z)) : Z := foldr (fun x acc => x.2 + acc) 0 l.

(** Free slots are what the cached entries leave; the freeable entries are
    exactly the cached ones without a reference, and they account for the
    difference between free and freeable slots. *)
Record enc_inv (e : EncoderCacheManager) : Prop := mkEncInv {
  ei_free : num_free_slots e = cache_size e - used (cached e);
  ei_freeable : num_freeable_slots e = num_free_slots e + fsum (freeable e);
  ei_pos : 0 <= num_free_slots e;
  ei_keys : NoDup (freeable e).*1;
  ei_refs : forall h, h ∈ (freeable e).*1 <-> cached e !! h = Some ∅;
  ei_sizes : forall h n, (h, n) ∈ freeable e -> n = size h
}.

Lemma used_insert c h refs :
  used (<[h := refs]> c) = used c + (if decide (is_Some (c !! h)) then 0 else size h).
Proof.
  unfold used. destruct (decide (is_Some (c !! h))) as [[x Hx]|Hn].
  - rewrite <-(insert_delete_eq c h refs).
    rewrite (map_fold_insert_L _ _ h) by (first [intros; cbv beta; lia|apply lookup_delete_eq]).
    rewrite (map_fold_delete_L (fun h _ acc => size h + acc) 0 h x c) by (first [intros; cbv beta; lia|done]).
    cbv beta. lia.
  - rewrite (map_fold_insert_L _ _ h); [cbv beta; lia|intros; cbv beta; lia|]. by apply eq_None_not_Some.
Qed.

Lemma used_delete c h refs : c !! h = Some refs -> used (delete h c) = used c - size h.
Proof.
  intros Hh. unfold used. rewrite (map_fold_delete_L (fun h _ acc => size h + acc) 0 h refs c); [cbv beta; lia|intros; cbv beta; lia|done].
Qed.

Lemma fpop_spec h l :
  NoDup l.*1 -> h ∈ l.*1 ->
  exists n l', fpop h l = Ok (n, l') /\ (h, n) ∈ l /\ fsum l' = fsum l - n /\ NoDup l'.*1 /\
    (forall x, x ∈ l'.*1 <-> x ∈ l.*1 /\ x ≠ h) /\ (forall x, x ∈ l' -> x ∈ l).
Proof.
  induction l as [|[h' n'] l IH]; cbn; intros Hnd Hin; [by apply elem_of_nil in Hin|].
  apply NoDup_cons in Hnd as [Hh' Hnd]. destruct (decide (h = h')) as [->|Hne].
  - exists n', l. split; [done|]. split; [rewrite elem_of_cons; by left|]. split; [unfold fsum in *; cbn; lia|]. split; [done|].
    split; [|intros x Hx; rewrite elem_of_cons; by right].
    intros x. rewrite elem_of_cons. split; [|naive_solver]. intros Hx. split; [by right|]. intros ->. done.
  - apply elem_of_cons in Hin as [?|Hin]; [done|].
    destruct (IH Hnd Hin) as (n & l' & -> & H1 & H2 & H3 & H4 & H5). cbn.
    exists n, ((h', n') :: l'). split; [done|]. split; [rewrite elem_of_cons; by right|]. split; [unfold fsum in *; cbn; lia|].
    split; [cbn; apply NoDup_cons; split; [rewrite H4; naive_solver|done]|]. split.
    + intros x. cbn. rewrite !elem_of_cons, H4. naive_solver.
    + intros x. rewrite !elem_of_cons. naive_solver.
Qed.

Lemma fset_absent h n l : h ∉ l.*1 -> fset h n l = l ++ [(h, n)].
Proof.
  induction l as [|[h' n'] l IH]; cbn; intros Hn; [done|]. rewrite elem_of_cons in Hn.
  rewrite decide_False by naive_solver. rewrite IH by naive_solver. done.
Qed.

Lemma fsum_app l1 l2 : fsum (l1 ++ l2) = fsum l1 + fsum l2.
Proof. unfold fsum. induction l1 as [|x l1 IH]; cbn; [done|]. lia. Qed.

(** Indexing the features of a request. *)
Lemma feature_lookup r i f :
  mm_features r !! i = Some f ->
  pyindex (mm_hashes r) (Z.of_nat i) = Ok (identifier f) /\
  get_num_encoder_tokens r (Z.of_nat i) = Ok (pr_length (mm_position f)).
Proof.
  intros Hf. unfold get_num_encoder_tokens, mm_hashes, mm_positions, zlen, pyindex.
  assert (i < length (mm_features r))%nat by (by eapply lookup_lt_Some).
  replace (Z.of_nat i <? 0) with false by (symmetry; apply Z.ltb_ge; lia). cbv zeta.
  replace (Z.of_nat i <? 0) with false by (symmetry; apply Z.ltb_ge; lia).
  rewrite length_fmap, Nat2Z.id, !list_lookup_fmap, Hf.
  replace (Z.of_nat i <? Z.of_nat (length (mm_features r))) with true by (symmetry; apply Z.ltb_lt; lia). done.
Qed.

(** ** Operations *)

Lemma fsum_nonneg l : (forall h n, (h, n) ∈ l -> n = size h) -> 0 <= fsum l.
Proof.
  unfold fsum. induction l as [|[h n] l IH]; cbn; intros Hs; [done|].
  specialize (IH ltac:(intros h' n' Hx; apply Hs; rewrite elem_of_cons; by right)).
  pose proof (Hs h n ltac:(rewrite elem_of_cons; by left)). pose proof (size_pos h). lia.
Qed.

(** Eviction frees enough slots, in order, and only unreferenced entries. *)
Lemma evict_loop_spec n fl : forall free c fr,
  NoDup fl.*1 -> (forall h, h ∈ fl.*1 <-> c !! h = Some ∅) -> (forall h m, (h, m) ∈ fl -> m = size h) ->
  n <= free + fsum fl ->
  exists free' c' gone fl', evict_loop n free c fl fr = Ok (free', c', fl', fr ++ gone.*1) /\
    fl = gone ++ fl' /\ n <= free' /\ free' = free + fsum gone /\
    used c' = used c - fsum gone /\
    (forall h, c' !! h = if decide (h ∈ gone.*1) then None else c !! h).
Proof.
  induction fl as [|[h m] fl IH]; intros free c fr Hnd Hrefs Hsz Hn.
  - cbn in Hn. unfold fsum in Hn. cbn in Hn. exists free, c, [], []. cbn.
    replace (n <=? free) with true by (symmetry; apply Z.leb_le; lia). rewrite app_nil_r.
    split; [done|]. split; [done|]. split; [lia|]. split; [unfold fsum; cbn; lia|].
    split; [unfold fsum; cbn; lia|]. intros h. rewrite decide_False; [done|]. apply not_elem_of_nil.
  - cbn [evict_loop]. destruct (Z.leb_spec n free) as [Hle|Hgt].
    { exists free, c, [], ((h, m) :: fl). cbn. rewrite app_nil_r.
      split; [done|]. split; [done|]. split; [lia|]. split; [unfold fsum; cbn; lia|].
      split; [unfold fsum; cbn; lia|]. intros x. rewrite decide_False; [done|]. apply not_elem_of_nil. }
    cbn in Hnd. apply NoDup_cons in Hnd as [Hh Hnd].
    assert (Hc : c !! h = Some ∅) by (apply Hrefs; cbn; rewrite elem_of_cons; by left). rewrite Hc.
    assert (Hm : m = size h) by (apply Hsz; rewrite elem_of_cons; by left).
    destruct (IH (free + m) (delete h c) (fr ++ [h])) as (free' & c' & gone & fl' & E & -> & H1 & H2 & H3 & H4).
    + done.
    + intros x. rewrite lookup_delete. destruct (decide (h = x)) as [<-|Hne]; [naive_solver|].
      rewrite <-Hrefs. cbn. rewrite elem_of_cons. naive_solver.
    + intros x k Hx. apply Hsz. rewrite elem_of_cons. by right.
    + unfold fsum in *. cbn in Hn. lia.
    + exists free', c', ((h, m) :: gone), fl'. rewrite E. cbn. rewrite <-app_assoc.
      split; [done|]. split; [done|]. split; [done|]. unfold fsum in *. cbn. split; [lia|].
      rewrite (used_delete c h ∅ Hc) in H3. split; [lia|].
      intros x. rewrite H4, lookup_delete. destruct (decide (x ∈ gone.*1)) as [Hg|Hg].
      * rewrite decide_True by (rewrite elem_of_cons; by right). done.
      * destruct (decide (h = x)) as [->|Hne].
        -- rewrite decide_True by (rewrite elem_of_cons; by left). done.
        -- rewrite decide_False by (rewrite elem_of_cons; naive_solver). done.
Qed.

(** [can_allocate]: refused exactly when the item exceeds the compute budget
    or the reclaimable space; otherwise there is room afterwards, referenced
    entries are kept and evicted ones are reported once. *)
Lemma can_allocate_step r i f e budget sched :
  enc_inv e -> sized r -> mm_features r !! i = Some f ->
  exists ok e', can_allocate r (Z.of_nat i) budget sched e = Ok (ok, e') /\ enc_inv e' /\
    cache_size e' = cache_size e /\
    (ok = true <-> size (identifier f) <= budget /\ size (identifier f) + sched <= num_freeable_slots e) /\
    (ok = true -> size (identifier f) + sched <= num_free_slots e' /\ num_freeable_slots e' = num_freeable_slots e) /\
    exists gone, freeable e = gone ++ freeable e' /\ freed e' = freed e ++ gone.*1 /\
      (forall h, cached e' !! h = if decide (h ∈ gone.*1) then None else cached e !! h).
Proof.
  intros [H1 H2 H3 H4 H5 H6] Hs Hf. destruct (feature_lookup r i f Hf) as [_ Hn].
  unfold can_allocate. rewrite Hn, (Hs f) by (by eapply list_elem_of_lookup_2). cbn [mbind result_bind].
  set (n := size (identifier f)).
  assert (Hsame : exists gone, freeable e = gone ++ freeable e /\ freed e = freed e ++ gone.*1 /\
      (forall h, cached e !! h = if decide (h ∈ gone.*1) then None else cached e !! h)).
  { exists []. rewrite app_nil_r. split; [done|]. split; [done|]. intros h. rewrite decide_False; [done|]. apply not_elem_of_nil. }
  destruct (Z.ltb_spec budget n) as [Hb|Hb].
  { exists false, e. split; [done|]. split; [done|]. split; [done|]. split; [split; [done|lia]|]. by split. }
  destruct (Z.leb_spec (n + sched) (num_free_slots e)) as [Hfr|Hfr].
  { pose proof (fsum_nonneg _ H6). exists true, e. split; [done|]. split; [done|]. split; [done|].
    split; [split; [split; lia|done]|]. by split. }
  destruct (Z.ltb_spec (num_freeable_slots e) (n + sched)) as [Hfa|Hfa].
  { exists false, e. split; [done|]. split; [done|]. split; [done|]. split; [split; [done|lia]|]. by split. }
  destruct (evict_loop_spec (n + sched) (freeable e) (num_free_slots e) (cached e) (freed e) H4 H5 H6 ltac:(lia))
    as (free' & c' & gone & fl' & E & Efl & Hle & Hfree & Hused & Hc').
  rewrite E. cbn [mbind result_bind]. eexists true, _. split; [done|].
  rewrite Efl in H4, H5, H6, H2. rewrite fmap_app in H4, H5. apply NoDup_app in H4 as (Hg1 & Hg2 & Hg3).
  rewrite fsum_app in H2.
  split; [|split; [done|split; [split; [split; lia|done]|split; [cbn; split; [lia|done]|exists gone; done]]]].
  split; cbn [cache_size num_free_slots num_freeable_slots cached freeable freed]; try done.
  - lia.
  - lia.
  - pose proof (fsum_nonneg gone ltac:(intros h m Hx; apply H6, elem_of_app; by left)). lia.
  - intros h. rewrite Hc'. destruct (decide (h ∈ gone.*1)) as [Hx|Hx].
    + split; [intros Hy; by destruct (Hg2 h Hx)|done].
    + rewrite <-H5, elem_of_app. naive_solver.
  - intros h m Hx. apply H6, elem_of_app. by right.
Qed.

(** [allocate] after a positive [can_allocate] for an item not yet cached. *)
Lemma allocate_step r i f e :
  enc_inv e -> sized r -> mm_features r !! i = Some f -> cached e !! identifier f = None ->
  size (identifier f) <= num_free_slots e ->
  exists e', allocate r (Z.of_nat i) e = Ok e' /\ enc_inv e' /\ cache_size e' = cache_size e /\
    num_free_slots e' = num_free_slots e - size (identifier f) /\ freeable e' = freeable e /\
    cached e' = <[identifier f := {[ request_id r ]}]> (cached e).
Proof.
  intros [H1 H2 H3 H4 H5 H6] Hs Hf Hc Hfit. destruct (feature_lookup r i f Hf) as [Hh Hn].
  unfold allocate. rewrite Hh. cbn [mbind result_bind]. rewrite Hn, (Hs f) by (by eapply list_elem_of_lookup_2).
  cbn [mbind result_bind]. pose proof (fsum_nonneg _ H6) as Hfs.
  replace (size (identifier f) <=? num_free_slots e) with true by (symmetry; apply Z.leb_le; lia).
  replace (size (identifier f) <=? num_freeable_slots e) with true by (symmetry; apply Z.leb_le; lia).
  cbn [assert_ mbind result_bind]. rewrite Hc. cbn [default]. eexists. split; [reflexivity|].
  replace ({[request_id r]} ∪ ∅) with ({[request_id r]} : gset string) by (apply leibniz_equiv; set_solver).
  split; [|by repeat split]. split; cbn [cache_size num_free_slots num_freeable_slots cached freeable freed]; try done; try lia.
  - rewrite used_insert, decide_False by (rewrite Hc; by intros [? ?]). lia.
  - intros h. rewrite lookup_insert. destruct (decide (identifier f = h)) as [<-|]; [|apply H5].
    rewrite H5, Hc. split; [done|]. intros Hx%(inj Some). exfalso. set_solver.
Qed.

(** A cache hit takes the entry out of the reclaimable set. *)
Lemma check_and_update_step r i f e :
  enc_inv e -> mm_features r !! i = Some f ->
  exists e', check_and_update_cache r (Z.of_nat i) e = Ok (bool_decide (is_Some (cached e !! identifier f)), e') /\
    enc_inv e' /\ cache_size e' = cache_size e /\
    cached e' = (if decide (is_Some (cached e !! identifier f))
                 then <[identifier f := {[ request_id r ]} ∪ default ∅ (cached e !! identifier f)]> (cached e)
                 else cached e).
Proof.
  intros [H1 H2 H3 H4 H5 H6] Hf. destruct (feature_lookup r i f Hf) as [Hh _].
  unfold check_and_update_cache. rewrite Hh. cbn [mbind result_bind].
  destruct (cached e !! identifier f) as [refs|] eqn:Hc.
  2:{ exists e. rewrite bool_decide_false, decide_False by (by intros [? ?]). done. }
  rewrite bool_decide_true by (by eexists).
  rewrite (decide_True (P := is_Some (Some refs))) by (by eexists). cbn [default].
  destruct (decide (refs = ∅)) as [->|Hne].
  - destruct (fpop_spec (identifier f) (freeable e) H4) as (n & fl & Ep & Hin & Hsum & Hnd & Hk & Hsub); [by apply H5|].
    rewrite Ep. cbn. eexists. split; [reflexivity|]. split; [|done].
    rewrite (H6 _ _ Hin) in Hsum. split; cbn [cache_size num_free_slots num_freeable_slots cached freeable freed]; try done.
    + rewrite used_insert, decide_True by (rewrite Hc; by eexists). lia.
    + rewrite (H6 _ _ Hin). lia.
    + intros h. rewrite lookup_insert, Hk, H5. destruct (decide (identifier f = h)) as [<-|]; [|naive_solver].
      split; [naive_solver|]. intros Hx%(inj Some). exfalso. set_solver.
    + intros h m Hx. auto.
  - cbn. eexists. split; [reflexivity|]. split; [|done]. split; cbn [cache_size num_free_slots num_freeable_slots cached freeable freed]; try done.
    + rewrite used_insert, decide_True by (rewrite Hc; by eexists). lia.
    + intros h. rewrite lookup_insert, H5. destruct (decide (identifier f = h)) as [<-|]; [|done].
      rewrite Hc. split; [naive_solver|]. intros Hx%(inj Some). exfalso. set_solver.
Qed.

(** Dropping a reference; the last one makes the entry reclaimable. *)
Lemma free_encoder_input_step r i f e :
  enc_inv e -> sized r -> mm_features r !! i = Some f ->
  exists e', free_encoder_input r (Z.of_nat i) e = Ok e' /\ enc_inv e' /\ cache_size e' = cache_size e /\
    cached e' = alter (fun refs => refs ∖ {[ request_id r ]}) (identifier f) (cached e) /\
    freed e' = freed e /\ num_free_slots e' = num_free_slots e.
Proof.
  intros [H1 H2 H3 H4 H5 H6] Hs Hf. destruct (feature_lookup r i f Hf) as [Hh Hn].
  unfold free_encoder_input. rewrite Hh. cbn [mbind result_bind].
  destruct (cached e !! identifier f) as [refs|] eqn:Hc; cbn [default].
  2:{ rewrite decide_True by done. exists e. split; [done|]. split; [done|]. split; [done|]. split; [|done].
      symmetry. by apply alter_id; intros ? ?; congruence. }
  change (id refs) with refs.
  destruct (decide (refs = ∅)) as [->|Hne].
  { exists e. split; [done|]. split; [done|]. split; [done|]. split; [|done]. symmetry. apply alter_id.
    intros x Hx. rewrite Hc in Hx. injection Hx as <-. apply leibniz_equiv. set_solver. }
  assert (Halt : alter (fun refs => refs ∖ {[ request_id r ]}) (identifier f) (cached e) =
    <[identifier f := refs ∖ {[ request_id r ]}]> (cached e)).
  { apply map_eq. intros h. rewrite lookup_alter, lookup_insert. destruct (decide (identifier f = h)) as [<-|]; [|done].
    by rewrite Hc. }
  assert (Hnin : identifier f ∉ (freeable e).*1) by (rewrite H5, Hc; congruence).
  destruct (decide (refs ∖ {[ request_id r ]} = ∅)) as [He|He].
  - rewrite Hn, (Hs f) by (by eapply list_elem_of_lookup_2). cbn [mbind result_bind]. eexists.
    split; [reflexivity|]. rewrite Halt. split; [|done]. rewrite fset_absent by done.
    split; cbn [cache_size num_free_slots num_freeable_slots cached freeable freed]; try done; rewrite ?fmap_app, ?fsum_app.
    + rewrite used_insert, decide_True by (rewrite Hc; by eexists). lia.
    + unfold fsum in *. cbn. lia.
    + apply NoDup_app. split; [done|]. split; [|apply NoDup_singleton].
      intros x Hx ->%list_elem_of_singleton. done.
    + intros h. rewrite elem_of_app, lookup_insert. cbn. rewrite list_elem_of_singleton.
      destruct (decide (identifier f = h)) as [<-|]; [rewrite He; naive_solver|]. rewrite H5. naive_solver.
    + intros h m [Hx|[= -> ->]%list_elem_of_singleton]%elem_of_app; [auto|done].
  - eexists. split; [reflexivity|]. rewrite Halt. split; [|done]. split; cbn [cache_size num_free_slots num_freeable_slots cached freeable freed]; try done.
    + rewrite used_insert, decide_True by (rewrite Hc; by eexists). lia.
    + intros h. rewrite lookup_insert, H5. destruct (decide (identifier f = h)) as [<-|]; [|done].
      rewrite Hc. split; congruence.
Qed.

Lemma enc_free_step r e :
  enc_inv e -> sized r ->
  exists e', enc_free r e = Ok e' /\ enc_inv e' /\ cache_size e' = cache_size e /\
    num_free_slots e' = num_free_slots e /\ freed e' = freed e.
Proof.
  intros He Hs. unfold enc_free.
  assert (Hids : forall i, i ∈ get_cached_input_ids r e -> exists k f, i = Z.of_nat k /\ mm_features r !! k = Some f).
  { intros i (k & -> & Hk)%list_elem_of_fmap. apply list_elem_of_filter in Hk as [_ Hk%elem_of_seq].
    unfold mm_hashes in Hk. rewrite length_fmap in Hk.
    destruct (mm_features r !! k) as [f|] eqn:Hf; [eauto|]. apply lookup_ge_None in Hf. lia. }
  generalize dependent (get_cached_input_ids r e). intros ids. revert e He.
  induction ids as [|i ids IH]; intros e He Hids; [by exists e|]. cbn [foldM].
  destruct (Hids i) as (k & f & -> & Hf); [rewrite elem_of_cons; by left|].
  destruct (free_encoder_input_step r k f e He Hs Hf) as (e1 & -> & He1 & Hc1 & _ & Hf1 & Hn1). cbn [mbind result_bind].
  destruct (IH e1 He1) as (e2 & E2 & He2 & Hc2 & Hn2 & Hf2);
    [intros i Hi; apply Hids; rewrite elem_of_cons; by right|].
  exists e2. split; [done|]. split; [done|]. split; [congruence|]. split; congruence.
Qed.

(** What happens to one multimodal item when it is scheduled: reuse the
    cached output, or make room and allocate, or give up. *)
Definition admit_item (r : Request) (i budget : Z) (e : EncoderCacheManager) : result EncoderCacheManager :=
  '(hit, e) ← check_and_update_cache r i e;
  if (hit : bool) then Ok e else
  '(ok, e) ← can_allocate r i budget 0 e;
  if (ok : bool) then allocate r i e else Ok e.

Inductive enc_op :=
| EncAdmit (r : Request) (i : nat) (budget : Z)
| EncFreeInput (r : Request) (i : nat)
| EncFree (r : Request)
| EncTakeFreed.

Definition enc_exec (e : EncoderCacheManager) (op : enc_op) : result EncoderCacheManager :=
  match op with
  | EncAdmit r i budget => admit_item r (Z.of_nat i) budget e
  | EncFreeInput r i => free_encoder_input r (Z.of_nat i) e
  | EncFree r => enc_free r e
  | EncTakeFreed => Ok (get_freed_mm_hashes e).2
  end.

Definition enc_op_ok (op : enc_op) : Prop :=
  match op with
  | EncAdmit r i _ | EncFreeInput r i => sized r /\ (i < length (mm_features r))%nat
  | EncFree r => sized r
  | EncTakeFreed => True
  end.

Lemma admit_item_step r i f e budget :
  enc_inv e -> sized r -> mm_features r !! i = Some f ->
  exists e', admit_item r (Z.of_nat i) budget e = Ok e' /\ enc_inv e' /\ cache_size e' = cache_size e /\
    (is_Some (cached e !! identifier f) ->
       exists refs, cached e' !! identifier f = Some refs /\ request_id r ∈ refs).
Proof.
  intros He Hs Hf. unfold admit_item.
  destruct (check_and_update_step r i f e He Hf) as (e1 & -> & He1 & Hc1 & Hcd). cbn [mbind result_bind].
  destruct (decide (is_Some (cached e !! identifier f))) as [Hin|Hin].
  - rewrite bool_decide_true by done. exists e1. split; [done|]. split; [done|]. split; [done|].
    intros _. rewrite Hcd, lookup_insert_eq. eexists. split; [done|]. set_solver.
  - rewrite bool_decide_false by done.
    destruct (can_allocate_step r i f e1 budget 0 He1 Hs Hf) as (ok & e2 & -> & He2 & Hc2 & _ & Hfit & gone & _ & _ & Hcd2).
    cbn [mbind result_bind]. destruct ok.
    + destruct (allocate_step r i f e2 He2 Hs Hf) as (e3 & -> & He3 & Hc3 & _).
      * rewrite Hcd2, Hcd. destruct (decide (identifier f ∈ gone.*1)); [done|]. by apply eq_None_not_Some.
      * destruct (Hfit eq_refl). lia.
      * exists e3. split; [done|]. split; [done|]. split; [congruence|done].
    + exists e2. split; [done|]. split; [done|]. split; [congruence|done].
Qed.

Lemma enc_exec_inv e op :
  enc_inv e -> enc_op_ok op -> exists e', enc_exec e op = Ok e' /\ enc_inv e' /\ cache_size e' = cache_size e.
Proof.
  intros He Hok. destruct op; cbn [enc_exec enc_op_ok] in *.
  - destruct Hok as [Hs Hi]. destruct (lookup_lt_is_Some_2 _ _ Hi) as [f Hf].
    destruct (admit_item_step r i f e budget He Hs Hf) as (e' & ? & ? & ? & _). eauto.
  - destruct Hok as [Hs Hi]. destruct (lookup_lt_is_Some_2 _ _ Hi) as [f Hf].
    destruct (free_encoder_input_step r i f e He Hs Hf) as (e' & ? & ? & ? & _). eauto.
  - destruct (enc_free_step r e He Hok) as (e' & ? & ? & ? & _). eauto.
  - eexists. split; [done|]. split; [|done]. by destruct He.
Qed.

Lemma enc_init_inv n : 0 <= n -> enc_inv (enc_init n).
Proof.
  intros Hn. split; cbn [cache_size num_free_slots num_freeable_slots cached freeable freed enc_init]; try done.
  - unfold used. rewrite map_fold_empty. lia.
  - unfold fsum. cbn. lia.
  - constructor.
  - intros h. cbn. rewrite elem_of_nil, lookup_empty. done.
  - by intros h m ?%elem_of_nil.
Qed.
End invariant.

(** * Properties *)

(** C30: Any sequence of admissions, releases and drains of the freed list runs
    without raising (the assertions of [allocate] and the [popitem] and [pop]
    calls never fail) and keeps the accounting exact: the cached outputs never
    exceed the cache size, the free counter is the remaining space, and the
    freeable entries are exactly the unreferenced ones. *)
Theorem encoder_cache_safe (size : string -> Z) (n : Z) (ops : list enc_op) :
  (forall h, 0 < size h) -> 0 <= n -> Forall (enc_op_ok size) ops ->
  exists e, foldM enc_exec (enc_init n) ops = Ok e /\ enc_inv size e /\ used size (cached e) <= n.
Proof.
  intros Hsz Hn Hops.
  assert (H : forall e, enc_inv size e -> exists e', foldM enc_exec e ops = Ok e' /\ enc_inv size e' /\
    cache_size e' = cache_size e).
  { induction Hops as [|op ops Hop Hops IH]; intros e He; [by exists e|]. cbn [foldM].
    destruct (enc_exec_inv size Hsz e op He Hop) as (e1 & -> & He1 & Hc1). cbn [mbind result_bind].
    destruct (IH e1 He1) as (e2 & ? & ? & ?). exists e2. split; [done|]. split; [done|congruence]. }
  destruct (H (enc_init n) (enc_init_inv size n Hn)) as (e & E & He & Hc).
  exists e. split; [done|]. split; [done|]. destruct He. cbn in Hc. lia.
Qed.

Definition demo_mm (id : string) (items : list (Z * Z * string)) : Request :=
  set_mm ((fun '(o, n, h) => mkFeature (mkRange o n) h) <$> items) (demo_request id [1; 2; 3; 4; 5; 6; 7; 8] []).

(** The encoder length of the items used below. *)
Definition demo_size (h : string) : Z := if decide (h = "img2"%string) then 3 else 2.

Lemma encoder_cache_safe_witness :
  exists e, foldM enc_exec (enc_init 4)
    [EncAdmit (demo_mm "a" [(0, 2, "img1"%string)]) 0 8; EncFree (demo_mm "a" [(0, 2, "img1"%string)]);
     EncAdmit (demo_mm "b" [(1, 3, "img2"%string)]) 0 8] = Ok e /\
    freed e = ["img1"%string] /\ num_free_slots e = 1 /\ used demo_size (cached e) <= 4.
Proof.
  destruct (encoder_cache_safe demo_size 4
    [EncAdmit (demo_mm "a" [(0, 2, "img1"%string)]) 0 8; EncFree (demo_mm "a" [(0, 2, "img1"%string)]);
     EncAdmit (demo_mm "b" [(1, 3, "img2"%string)]) 0 8]) as (e & E & _ & Hu).
  - intros h. unfold demo_size. destruct (decide _); lia.
  - lia.
  - assert (Ha : sized demo_size (demo_mm "a" [(0, 2, "img1"%string)])) by (intros f ->%list_elem_of_singleton; reflexivity).
    assert (Hb : sized demo_size (demo_mm "b" [(1, 3, "img2"%string)])) by (intros f ->%list_elem_of_singleton; reflexivity).
    repeat constructor; (exact Ha || exact Hb || (cbn; lia)).
  - exists e. split; [exact E|]. observe E (fun e => (freed e, num_free_slots e)) (["img1"%string], 1).
    injection Hobs as -> ->. done.
Defined.

(** The budget covers the largest item: when chunked multimodal input is
    disabled such an item must also fit one batch. *)
Theorem encoder_budget_covers_items (c : EncBudgetConfig) (max_tokens : list Z) (compute space : Z) :
  compute_encoder_budget c true max_tokens = Ok (compute, space) ->
  forall n, n ∈ max_tokens -> n <= compute /\ n <= space /\
    (disable_chunked_mm_input c = true -> n <= bc_max_num_batched_tokens c).
Proof.
  cbn. unfold compute_mm_encoder_budget. destruct max_tokens as [|x l]; [by intros _ n ?%elem_of_nil|].
  assert (Hmax : forall n, n ∈ x :: l -> n <= foldr Z.max x l).
  { induction l as [|y l IH]; intros n Hn; [apply list_elem_of_singleton in Hn as ->; by cbn|].
    cbn. rewrite !elem_of_cons in Hn. destruct Hn as [->|[->|Hn]]; [|lia|].
    - specialize (IH x). rewrite elem_of_cons in IH. specialize (IH (or_introl eq_refl)). lia.
    - specialize (IH n). rewrite elem_of_cons in IH. specialize (IH (or_intror Hn)). lia. }
  destruct (disable_chunked_mm_input c) eqn:Hd; cbn [andb];
    [destruct (Z.ltb_spec (bc_max_num_batched_tokens c) (foldr Z.max x l)); [done|]|];
    intros [= <- <-] n Hn; specialize (Hmax n Hn); (split; [lia|]); (split; [lia|]); intros; (lia || done).
Qed.

Lemma encoder_budget_covers_items_witness :
  compute_encoder_budget (mkBudgetCfg 100 100 true 600) true [576; 144] = Ok (576, 576) /\ 144 <= 576.
Proof.
  assert (E : compute_encoder_budget (mkBudgetCfg 100 100 true 600) true [576; 144] = Ok (576, 576)) by reflexivity.
  split; [exact E|]. refine (proj1 (encoder_budget_covers_items _ _ _ _ E 144 _)).
  apply list_elem_of_lookup_2 with 1%nat. reflexivity.
Defined.
