(* ===== verification/RequestQueue.v ===== *)
(** The waiting queues of src/vllm/v1/core/sched/request_queue.py: a FIFO
    deque and a binary heap ordered by (priority, arrival time), with the
    operations of Python's [heapq] they are built on. Requests are objects;
    a queue holds object identities, and the priority queue the key it read
    when the request was added. *)
From Stdlib Require Import ZArith Lia Ascii String QArith Qcanon Sorted.
From stdpp Require Import numbers gmap strings list sorting.
From S2P Require Import Prelude Request.

Open Scope Z_scope.

(** ** Policies *)

Inductive SchedulingPolicy := FCFS | PRIORITY | MIMIR.

#[export] Instance SchedulingPolicy_eq_dec : EqDecision SchedulingPolicy.
Proof. solve_decision. Defined.

(** ** Heap entries *)

(** [(request.priority, request.arrival_time, request)]. *)
Record entry := mkEntry { e_prio : Z; e_time : Qc; e_obj : nat }.

#[export] Instance entry_eq_dec : EqDecision entry.
Proof. solve_decision. Defined.

(** Tuple comparison: the first component that differs decides; Request
    defines no order, so comparing two different requests raises. *)
Definition entry_lt (x y : entry) : result bool :=
  if decide (e_prio x = e_prio y) then
    if decide (e_time x = e_time y) then
      if decide (e_obj x = e_obj y) then Ok false else Err TypeError
    else Ok (bool_decide (e_time x < e_time y)%Qc)
  else Ok (e_prio x <? e_prio y).

(** ** heapq *)

(** [heapq._siftdown(heap, startpos, pos)] with [newitem] in the hole. *)
Fixpoint siftdown (fuel : nat) (h : list entry) (startpos pos : nat) (newitem : entry) : result (list entry) :=
  match fuel with
  | O => Err OutOfFuel
  | S fuel =>
      if decide (startpos < pos)%nat then
        let parentpos := ((pos - 1) / 2)%nat in
        parent ← get_or IndexError (h !! parentpos);
        b ← entry_lt newitem parent;
        if (b : bool) then siftdown fuel (<[pos := parent]> h) startpos parentpos newitem
        else Ok (<[pos := newitem]> h)
      else Ok (<[pos := newitem]> h)
  end.

(** The loop of [heapq._siftup]: move the smaller child up until a leaf is
    reached; returns the heap and the position of the hole. *)
Fixpoint siftup_loop (fuel : nat) (h : list entry) (pos : nat) : result (list entry * nat) :=
  match fuel with
  | O => Err OutOfFuel
  | S fuel =>
      let childpos := (2 * pos + 1)%nat in
      if decide (childpos < length h)%nat then
        child ← get_or IndexError (h !! childpos);
        '(child, childpos) ←
          (match h !! (childpos + 1)%nat with
           | Some rchild => b ← entry_lt child rchild;
                           Ok (if (b : bool) then (child, childpos) else (rchild, (childpos + 1)%nat))
           | None => Ok (child, childpos)
           end);
        siftup_loop fuel (<[pos := child]> h) childpos
      else Ok (h, pos)
  end.

Definition siftup (h : list entry) (pos : nat) : result (list entry) :=
  newitem ← get_or IndexError (h !! pos);
  '(h, leaf) ← siftup_loop (S (length h)) h pos;
  siftdown (S (length h)) h pos leaf newitem.

Definition heappush (h : list entry) (x : entry) : result (list entry) :=
  siftdown (S (length h)) (h ++ [x]) 0 (length h) x.

Definition heappop (h : list entry) : result (entry * list entry) :=
  match last h with
  | None => Err IndexError
  | Some lastelt =>
      match take (length h - 1) h with
      | [] => Ok (lastelt, [])
      | returnitem :: rest =>
          h' ← siftup (lastelt :: rest) 0;
          Ok (returnitem, h')
      end
  end.

Definition heapify (h : list entry) : result (list entry) :=
  foldM (fun h i => siftup h i) h (reverse (seq 0 (length h / 2))).

(** ** Queues *)

Inductive RequestQueue :=
| FCFSRequestQueue (q : list nat)
| PriorityRequestQueue (heap : list entry).

Definition create_request_queue (p : SchedulingPolicy) : RequestQueue :=
  match p with
  | PRIORITY => PriorityRequestQueue []
  | FCFS | MIMIR => FCFSRequestQueue []
  end.

(** The requests of the store, by object identity. *)
Abbreviation store := (gmap nat Request).

Definition entry_of (st : store) (o : nat) : result entry :=
  r ← get_or KeyError (st !! o);
  Ok (mkEntry (priority r) (arrival_time r) o).

Definition add_request (st : store) (o : nat) (q : RequestQueue) : result RequestQueue :=
  match q with
  | FCFSRequestQueue l => Ok (FCFSRequestQueue (l ++ [o]))
  | PriorityRequestQueue h => e ← entry_of st o; h ← heappush h e; Ok (PriorityRequestQueue h)
  end.

Definition pop_request (q : RequestQueue) : result (nat * RequestQueue) :=
  match q with
  | FCFSRequestQueue [] => Err IndexError
  | FCFSRequestQueue (o :: l) => Ok (o, FCFSRequestQueue l)
  | PriorityRequestQueue h => '(e, h) ← heappop h; Ok (e_obj e, PriorityRequestQueue h)
  end.

Definition peek_request (q : RequestQueue) : result nat :=
  match q with
  | FCFSRequestQueue l => get_or IndexError (head l)
  | PriorityRequestQueue h => e ← get_or IndexError (head h); Ok (e_obj e)
  end.

(** [prepend_request]: a priority queue has no front. *)
Definition prepend_request (st : store) (o : nat) (q : RequestQueue) : result RequestQueue :=
  match q with
  | FCFSRequestQueue l => Ok (FCFSRequestQueue (o :: l))
  | PriorityRequestQueue _ => add_request st o q
  end.

(** Iteration order: a priority queue pops a copy of its heap. *)
Fixpoint pop_all (fuel : nat) (h : list entry) : result (list nat) :=
  match h, fuel with
  | [], _ => Ok []
  | _, O => Err OutOfFuel
  | _, S fuel => '(e, h) ← heappop h; l ← pop_all fuel h; Ok (e_obj e :: l)
  end.

Definition queue_iter (q : RequestQueue) : result (list nat) :=
  match q with
  | FCFSRequestQueue l => Ok l
  | PriorityRequestQueue h => pop_all (length h) h
  end.

(** [__reversed__]. *)
Definition queue_reversed (q : RequestQueue) : result (list nat) :=
  l ← queue_iter q; Ok (reverse l).

Definition prepend_requests (st : store) (q' : RequestQueue) (q : RequestQueue) : result RequestQueue :=
  match q with
  | FCFSRequestQueue l =>
      l' ← queue_reversed q';
      Ok (FCFSRequestQueue (foldl (fun l o => o :: l) l l'))
  | PriorityRequestQueue _ =>
      l' ← queue_iter q';
      foldM (fun q o => add_request st o q) q l'
  end.

(** [remove_request]: a deque removes the first occurrence or raises. *)
Definition remove_request (o : nat) (q : RequestQueue) : result RequestQueue :=
  match q with
  | FCFSRequestQueue l =>
      if decide (o ∈ l) then Ok (FCFSRequestQueue (remove_first o l)) else Err ValueError
  | PriorityRequestQueue h =>
      h ← heapify (filter (fun e => e_obj e ≠ o) h); Ok (PriorityRequestQueue h)
  end.

Definition remove_requests (os : list nat) (q : RequestQueue) : result RequestQueue :=
  match q with
  | FCFSRequestQueue l => Ok (FCFSRequestQueue (filter (fun o => o ∉ os) l))
  | PriorityRequestQueue h =>
      h ← heapify (filter (fun e => e_obj e ∉ os) h); Ok (PriorityRequestQueue h)
  end.

Definition queue_len (q : RequestQueue) : Z :=
  match q with
  | FCFSRequestQueue l => zlen l
  | PriorityRequestQueue h => zlen h
  end.

Definition queue_bool (q : RequestQueue) : bool := negb (queue_len q =? 0).

(** The requests in the queue, in storage order. *)
Definition queue_objs (q : RequestQueue) : list nat :=
  match q with
  | FCFSRequestQueue l => l
  | PriorityRequestQueue h => e_obj <$> h
  end.

(** * The heap invariant *)

Definition par (i : nat) : nat := ((i - 1) / 2)%nat.

Lemma par_spec i : (0 < i -> 2 * par i + 1 <= i <= 2 * par i + 2)%nat.
Proof.
  intros Hi. unfold par. pose proof (Nat.div_mod_eq (i - 1) 2). pose proof (Nat.mod_upper_bound (i - 1) 2 ltac:(lia)). lia.
Qed.

Lemma par_child i c : (0 < c -> par c = i <-> c = 2 * i + 1 \/ c = 2 * i + 2)%nat.
Proof. intros Hc. pose proof (par_spec c Hc). lia. Qed.

(** Ordering by (priority, arrival time). *)
Definition kle (x y : entry) : Prop :=
  e_prio x < e_prio y \/ (e_prio x = e_prio y /\ (e_time x <= e_time y)%Qc).

#[export] Instance kle_dec x y : Decision (kle x y).
Proof. unfold kle. apply _. Defined.

#[export] Instance kle_preorder : PreOrder kle.
Proof.
  split.
  - intros x. right. split; [done|]. apply Qcle_refl.
  - intros x y z [H|[H1 H2]] [H'|[H1' H2']]; unfold kle; try (left; lia).
    right. split; [lia|]. by eapply Qcle_trans.
Qed.

Lemma kle_total x y : kle x y \/ kle y x.
Proof.
  unfold kle. destruct (Z.lt_trichotomy (e_prio x) (e_prio y)) as [H|[H|H]]; [auto| |auto].
  destruct (Qclt_le_dec (e_time x) (e_time y)) as [H'|H']; [left|right]; right; (split; [lia|]);
    [by apply Qclt_le_weak|done].
Qed.

(** No two different requests have the same priority and arrival time. *)
Definition untied (h : list entry) : Prop :=
  forall x y, x ∈ h -> y ∈ h -> e_prio x = e_prio y -> e_time x = e_time y -> e_obj x = e_obj y.

#[export] Instance untied_perm : Proper ((≡ₚ) ==> iff) untied.
Proof. intros h h' Hp. unfold untied. split; intros H x y Hx Hy; apply H; (by rewrite Hp || by rewrite <-Hp). Qed.

Lemma entry_lt_untied h x y :
  untied h -> x ∈ h -> y ∈ h -> entry_lt x y = Ok (bool_decide (~ kle y x)).
Proof.
  intros Hu Hx Hy. specialize (Hu x y Hx Hy). unfold entry_lt, kle.
  destruct (decide (e_prio x = e_prio y)) as [Ep|Ep].
  - destruct (decide (e_time x = e_time y)) as [Et|Et].
    + rewrite decide_True by auto. f_equal. symmetry. apply bool_decide_eq_false. intros Hn. apply Hn.
      right. split; [done|]. rewrite Et. apply Qcle_refl.
    + f_equal. apply bool_decide_ext. split.
      * intros Hlt [?|[_ Hle]]; [lia|]. by apply (Qclt_not_le _ _ Hlt).
      * intros Hn. apply Qcnot_le_lt. intros Hle. apply Hn. by right.
  - f_equal. destruct (Z.ltb_spec (e_prio x) (e_prio y)); symmetry.
    + apply bool_decide_eq_true. intros [?|[? _]]; lia.
    + apply bool_decide_eq_false. intros Hn. apply Hn. left. lia.
Qed.

(** Entry [i] is not smaller than its parent. *)
Definition edge (h : list entry) (i : nat) : Prop :=
  forall a b, h !! par i = Some a -> h !! i = Some b -> kle a b.

(** The heap property for the nodes whose parent is at [s] or later. *)
Definition hp (s : nat) (h : list entry) : Prop := forall i, (0 < i)%nat -> (s <= par i)%nat -> edge h i.

(** [pos] lies in the subtree rooted at [s]. *)
Inductive desc (s : nat) : nat -> Prop :=
| desc_refl : desc s s
| desc_child pos : (0 < pos)%nat -> desc s (par pos) -> desc s pos.

Lemma desc_le s pos : desc s pos -> (s <= pos)%nat.
Proof. induction 1 as [|pos Hp _ IH]; [done|]. pose proof (par_spec pos Hp). lia. Qed.

Lemma desc_par s pos : desc s pos -> (s < pos)%nat -> desc s (par pos).
Proof. intros H Hlt. inversion H; subst; [lia|done]. Qed.

Lemma desc_root n : desc 0 n.
Proof.
  induction n as [n IH] using lt_wf_ind. destruct (decide (n = 0%nat)) as [->|]; [constructor|].
  pose proof (par_spec n ltac:(lia)). apply desc_child; [lia|]. apply IH. lia.
Qed.

Lemma perm_insert {A} (l : list A) i a x : l !! i = Some a -> x :: l ≡ₚ a :: <[i := x]> l.
Proof.
  revert i. induction l as [|y l IH]; intros [|i] Hi; try done; cbn in Hi |- *.
  - injection Hi as ->. constructor.
  - rewrite (Permutation_swap y x), (IH i Hi). constructor.
Qed.

(** Moving the entry at [j] to the hole at [i] and the hole to [j]. *)
Lemma perm_move {A} (h : list A) i j v x :
  i ≠ j -> (i < length h)%nat -> h !! j = Some v -> <[j := x]> (<[i := v]> h) ≡ₚ <[i := x]> h.
Proof.
  intros Hne Hi Hj. destruct (lookup_lt_is_Some_2 _ _ Hi) as [y0 Hy].
  assert (Hj' : <[i := v]> h !! j = Some v) by (by rewrite list_lookup_insert_ne).
  pose proof (perm_insert _ _ _ x Hj') as H1. pose proof (perm_insert _ _ _ v Hy) as H2.
  pose proof (perm_insert _ _ _ x Hy) as H3.
  apply (Permutation_cons_inv (a := v)). apply (Permutation_cons_inv (a := y0)).
  rewrite <-H1, (Permutation_swap x y0), <-H2, (Permutation_swap v x), H3. by rewrite (Permutation_swap v y0).
Qed.

(** Values after the move. *)
Lemma move_lookup (h : list entry) i j v x k :
  i ≠ j -> (i < length h)%nat -> (j < length h)%nat ->
  <[j := x]> (<[i := v]> h) !! k = if decide (k = j) then Some x else if decide (k = i) then Some v else h !! k.
Proof.
  intros Hne Hi Hj. destruct (decide (k = j)) as [->|]; [by rewrite list_lookup_insert_eq by (rewrite length_insert; lia)|].
  rewrite list_lookup_insert_ne by done. destruct (decide (k = i)) as [->|].
  - by rewrite list_lookup_insert_eq by lia.
  - by rewrite list_lookup_insert_ne.
Qed.

Lemma put_lookup (h : list entry) i x k :
  (i < length h)%nat -> <[i := x]> h !! k = if decide (k = i) then Some x else h !! k.
Proof.
  intros Hi. destruct (decide (k = i)) as [->|]; [by rewrite list_lookup_insert_eq|by rewrite list_lookup_insert_ne].
Qed.

(** ** Sifting *)

Lemma siftdown_spec fuel : forall h s pos x,
  (pos < fuel)%nat -> (pos < length h)%nat -> desc s pos -> untied (<[pos := x]> h) ->
  (forall i, (0 < i)%nat -> (s <= par i)%nat -> i ≠ pos -> edge (<[pos := x]> h) i) ->
  ((s < pos)%nat -> forall c a b, (0 < c)%nat -> par c = pos ->
     h !! par pos = Some a -> h !! c = Some b -> kle a b) ->
  exists h', siftdown fuel h s pos x = Ok h' /\ h' ≡ₚ <[pos := x]> h /\ hp s h'.
Proof.
  induction fuel as [|fuel IH]; intros h s pos x Hf Hpos Hd Hu Ha Hb; [lia|]. cbn [siftdown].
  destruct (decide (s < pos)%nat) as [Hlt|Hge].
  2:{ exists (<[pos := x]> h). split; [done|]. split; [done|]. intros i Hi Hs.
      pose proof (desc_le _ _ Hd). pose proof (par_spec i Hi). apply Ha; lia. }
  fold (par pos). pose proof (par_spec pos ltac:(lia)) as Hp. set (pp := par pos) in *.
  destruct (lookup_lt_is_Some_2 h pp ltac:(lia)) as [p Hpv]. rewrite Hpv. cbn [get_or mbind result_bind].
  assert (Hin : forall k v, <[pos := x]> h !! k = Some v -> v ∈ <[pos := x]> h) by (intros k v; apply list_elem_of_lookup_2).
  rewrite (entry_lt_untied _ x p Hu); [|apply (Hin pos); rewrite put_lookup, decide_True by done; done|
    apply (Hin pp); rewrite put_lookup, decide_False by lia; done].
  cbn [mbind result_bind]. destruct (decide (kle p x)) as [Hle|Hgt].
  { rewrite bool_decide_false by tauto. exists (<[pos := x]> h). split; [done|]. split; [done|].
    intros i Hi Hs. destruct (decide (i = pos)) as [->|]; [|by apply Ha].
    intros a b. fold pp. rewrite !put_lookup by done. rewrite decide_False, decide_True by lia. rewrite Hpv. congruence. }
  rewrite bool_decide_true by done.
  assert (Hxp : kle x p) by (destruct (kle_total x p); [done|tauto]).
  destruct (IH (<[pos := p]> h) s pp x) as (h' & E & Hperm & Hhp).
  - lia.
  - rewrite length_insert. lia.
  - by apply desc_par.
  - by rewrite perm_move by (done || lia).
  - intros i Hi Hs Hne a b. pose proof (par_spec i Hi).
    rewrite !move_lookup by lia. rewrite (decide_False (P := i = pp)) by done.
    destruct (decide (i = pos)) as [->|Hip].
    + fold pp. rewrite decide_True by done. congruence.
    + destruct (decide (par i = pp)) as [Epp|Epp].
      * intros [= <-] Hb'. transitivity p; [done|]. apply (Ha i Hi Hs Hip p b).
        -- rewrite put_lookup, decide_False by lia. by rewrite Epp.
        -- by rewrite put_lookup, decide_False by lia.
      * destruct (decide (par i = pos)) as [Epos|Epos].
        -- intros [= <-] Hb'. by apply (Hb Hlt i p b).
        -- intros Ha' Hb'. apply (Ha i Hi Hs Hip); by rewrite put_lookup, decide_False by lia.
  - intros Hs c a b Hc Ec. pose proof (par_spec pp ltac:(lia)).
    assert (Hdp : desc s (par pp)) by (apply desc_par; [by apply desc_par|lia]).
    pose proof (desc_le _ _ Hdp). rewrite list_lookup_insert_ne by lia. intros Ha' Hb'.
    assert (Hap : kle a p).
    { apply (Ha pp ltac:(lia) ltac:(lia) ltac:(lia)); rewrite put_lookup, decide_False by lia; done. }
    destruct (decide (c = pos)) as [->|Hcp].
    + rewrite list_lookup_insert_eq in Hb' by lia. by simplify_eq.
    + rewrite list_lookup_insert_ne in Hb' by done. transitivity p; [done|].
      apply (Ha c Hc ltac:(pose proof (desc_le _ _ (desc_par _ _ Hd Hlt)); lia) Hcp).
      * rewrite put_lookup, decide_False by lia. by rewrite Ec.
      * by rewrite put_lookup, decide_False by lia.
  - exists h'. split; [done|]. split; [|done]. rewrite Hperm. apply perm_move; [lia|done|done].
Qed.

Lemma siftup_loop_spec fuel : forall h s pos x,
  (length h - pos < fuel)%nat -> (pos < length h)%nat -> desc s pos -> untied (<[pos := x]> h) ->
  (forall i, (0 < i)%nat -> (s <= par i)%nat -> i ≠ pos -> par i ≠ pos -> edge h i) ->
  ((s < pos)%nat -> forall c a b, (0 < c)%nat -> par c = pos -> h !! par pos = Some a -> h !! c = Some b -> kle a b) ->
  exists h' leaf, siftup_loop fuel h pos = Ok (h', leaf) /\ <[leaf := x]> h' ≡ₚ <[pos := x]> h /\
    (leaf < length h')%nat /\ desc s leaf /\ length h' = length h /\
    (forall i, (0 < i)%nat -> (s <= par i)%nat -> i ≠ leaf -> edge (<[leaf := x]> h') i) /\
    (forall c, (0 < c)%nat -> par c = leaf -> h' !! c = None).
Proof.
  induction fuel as [|fuel IH]; intros h s pos x Hf Hpos Hd Hu Ha Hb; [lia|]. cbn [siftup_loop].
  destruct (decide (2 * pos + 1 < length h)%nat) as [Hch|Hleaf].
  2:{ exists h, pos. split; [done|]. split; [done|]. split; [done|]. split; [done|]. split; [done|].
      assert (Hnone : forall c, (0 < c)%nat -> par c = pos -> h !! c = None).
      { intros c Hc Ec. apply lookup_ge_None. apply (par_child pos c Hc) in Ec. lia. }
      split; [|done]. intros i Hi Hs Hne a b. rewrite !put_lookup by done.
      rewrite (decide_False (P := i = pos)) by done. destruct (decide (par i = pos)) as [Ep|Ep].
      - rewrite (Hnone i Hi Ep). done.
      - intros ? ?. by apply (Ha i Hi Hs Hne Ep). }
  destruct (lookup_lt_is_Some_2 h (2 * pos + 1)%nat Hch) as [v Hv]. rewrite Hv. cbn [get_or mbind result_bind].
  (* the chosen child *)
  assert (Hsel : exists cv cp, (match h !! (2 * pos + 1 + 1)%nat with
      | Some rchild => b ← entry_lt v rchild; Ok (if (b : bool) then (v, (2 * pos + 1)%nat) else (rchild, (2 * pos + 1 + 1)%nat))
      | None => Ok (v, (2 * pos + 1)%nat) end) = Ok (cv, cp) /\
    (0 < cp)%nat /\ par cp = pos /\ h !! cp = Some cv /\ forall c b, (0 < c)%nat -> par c = pos -> h !! c = Some b -> kle cv b).
  { assert (Hp1 : par (2 * pos + 1) = pos) by (apply par_child; lia).
    assert (Hp2 : par (2 * pos + 1 + 1) = pos) by (apply par_child; lia).
    destruct (h !! (2 * pos + 1 + 1)%nat) as [w|] eqn:Hw.
    - assert (Hin : forall k y, k ≠ pos -> h !! k = Some y -> y ∈ <[pos := x]> h).
      { intros k y Hk Hy. apply list_elem_of_lookup_2 with k. by rewrite put_lookup, decide_False. }
      rewrite (entry_lt_untied _ v w Hu (Hin (2 * pos + 1)%nat v ltac:(lia) Hv) (Hin (2 * pos + 1 + 1)%nat w ltac:(lia) Hw)). cbn [mbind result_bind].
      destruct (decide (kle w v)) as [Hle|Hgt].
      + rewrite bool_decide_false by tauto. eexists _, _. split; [done|]. split; [lia|]. split; [done|]. split; [done|].
        intros c b Hc Ec Hcb. apply (par_child pos c Hc) in Ec as [-> | ->]; [by simplify_eq|].
        replace (2 * pos + 2)%nat with (2 * pos + 1 + 1)%nat in Hcb by lia. by simplify_eq.
      + rewrite bool_decide_true by done. eexists _, _. split; [done|]. split; [lia|]. split; [done|]. split; [done|].
        assert (kle v w) by (destruct (kle_total v w); tauto).
        intros c b Hc Ec Hcb. apply (par_child pos c Hc) in Ec as [-> | ->]; [by simplify_eq|].
        replace (2 * pos + 2)%nat with (2 * pos + 1 + 1)%nat in Hcb by lia. by simplify_eq.
    - eexists _, _. split; [done|]. split; [lia|]. split; [done|]. split; [done|].
      intros c b Hc Ec Hcb. apply (par_child pos c Hc) in Ec as [-> | ->]; [by simplify_eq|].
      replace (2 * pos + 2)%nat with (2 * pos + 1 + 1)%nat in Hcb by lia. congruence. }
  destruct Hsel as (cv & cp & -> & Hcp0 & Hcp & Hcv & Hmin). cbn [mbind result_bind].
  pose proof (par_spec cp Hcp0) as Hspec. assert (Hcl : (cp < length h)%nat) by (by eapply lookup_lt_Some).
  destruct (IH (<[pos := cv]> h) s cp x) as (h' & leaf & E & Hperm & Hl & Hd' & Hlen & He & Hn).
  - rewrite length_insert. lia.
  - by rewrite length_insert.
  - apply desc_child; [done|]. by rewrite Hcp.
  - by rewrite perm_move by (done || lia).
  - intros i Hi Hs Hne Hpi a b. rewrite !put_lookup by done. pose proof (par_spec i Hi).
    destruct (decide (i = pos)) as [->|Hip].
    + rewrite decide_False by lia. intros Ha' [= <-]. apply (Hb ltac:(pose proof (desc_le _ _ Hd); lia) cp a cv); done.
    + destruct (decide (par i = pos)) as [Ep|Ep].
      * intros [= <-] Hb'. by apply (Hmin i).
      * intros ? ?. by apply (Ha i Hi Hs Hip Ep).
  - intros Hs c a b Hc Ec. pose proof (par_spec c Hc). rewrite Hcp, !put_lookup by done.
    rewrite decide_True by done. rewrite decide_False by lia. intros [= <-] Hcb.
    apply (Ha c Hc ltac:(pose proof (desc_le _ _ Hd); lia) ltac:(lia) ltac:(lia)); by rewrite ?Ec.
  - exists h', leaf. split; [done|]. split; [rewrite Hperm; apply perm_move; [lia|done|done]|].
    split; [done|]. split; [done|]. split; [by rewrite Hlen, length_insert|]. done.
Qed.

Lemma siftup_spec h s :
  (s < length h)%nat -> untied h -> hp (S s) h ->
  exists h', siftup h s = Ok h' /\ h' ≡ₚ h /\ hp s h'.
Proof.
  intros Hs Hu Hh. unfold siftup. destruct (lookup_lt_is_Some_2 h s Hs) as [x Hx]. rewrite Hx.
  cbn [get_or mbind result_bind].
  destruct (siftup_loop_spec (S (length h)) h s s x) as (h1 & leaf & -> & Hperm & Hl & Hd & Hlen & He & Hn).
  - lia.
  - done.
  - constructor.
  - by rewrite list_insert_id.
  - intros i Hi Hsi _ Hps. apply Hh; [done|lia].
  - lia.
  - rewrite (list_insert_id h) in Hperm by done. cbn [mbind result_bind].
    destruct (siftdown_spec (S (length h1)) h1 s leaf x) as (h' & -> & Hp & Hhp); try done; try lia.
    + by rewrite Hperm.
    + intros _ c a b Hc Ec _ Hcb. by rewrite (Hn c Hc Ec) in Hcb.
    + exists h'. split; [done|]. split; [by rewrite Hp|done].
Qed.

Lemma heappush_spec h x :
  untied (h ++ [x]) -> hp 0 h -> exists h', heappush h x = Ok h' /\ h' ≡ₚ x :: h /\ hp 0 h'.
Proof.
  intros Hu Hh. unfold heappush.
  assert (Hput : <[length h := x]> (h ++ [x]) = h ++ [x]).
  { apply list_insert_id. rewrite lookup_app_r, Nat.sub_diag by lia. done. }
  pose proof (desc_root (length h)) as Hd.
  destruct (siftdown_spec (S (length h)) (h ++ [x]) 0 (length h) x) as (h' & E & Hp & Hhp).
  - lia.
  - rewrite length_app. cbn. lia.
  - done.
  - by rewrite Hput.
  - intros i Hi _ Hne a b. rewrite Hput. intros H1 H2.
    assert (i < length (h ++ [x]))%nat as Hlt by (by eapply lookup_lt_Some). rewrite length_app in Hlt. cbn in Hlt.
    pose proof (par_spec i Hi). rewrite lookup_app_l in H1, H2 by lia. by apply (Hh i Hi ltac:(lia)).
  - intros _ c a b Hc Ec _ Hcb. apply lookup_lt_Some in Hcb. rewrite length_app in Hcb. cbn in Hcb.
    pose proof (par_spec c Hc). lia.
  - exists h'. split; [done|]. split; [|done]. rewrite Hp, Hput. by rewrite Permutation_app_comm.
Qed.

(** The root of a heap is a minimum. *)
Lemma heap_root h x : hp 0 h -> head h = Some x -> forall y, y ∈ h -> kle x y.
Proof.
  intros Hh Hx y [i Hi]%list_elem_of_lookup. revert y Hi.
  induction i as [i IH] using lt_wf_ind. intros y Hi. destruct (decide (i = 0%nat)) as [->|Hne].
  - destruct h; [done|]. by simplify_eq/=.
  - pose proof (par_spec i ltac:(lia)). assert (i < length h)%nat by (by eapply lookup_lt_Some).
    destruct (lookup_lt_is_Some_2 h (par i) ltac:(lia)) as [p Hp].
    transitivity p; [apply (IH (par i)); [lia|done]|]. by apply (Hh i ltac:(lia) ltac:(lia)).
Qed.

Lemma heappop_spec h :
  h ≠ [] -> untied h -> hp 0 h ->
  exists x h', heappop h = Ok (x, h') /\ x :: h' ≡ₚ h /\ hp 0 h' /\ head h = Some x /\ (forall y, y ∈ h -> kle x y).
Proof.
  intros Hne Hu Hh. unfold heappop. destruct (last h) as [z|] eqn:Hz; [|by apply last_None in Hz].
  apply last_Some in Hz as [h0 ->]. rewrite length_app. cbn [length].
  replace (length h0 + 1 - 1)%nat with (length h0) by lia. rewrite take_app_length.
  destruct h0 as [|x rest].
  - exists z, []. split; [done|]. split; [done|]. split; [by intros i _ _ a b|]. split; [done|].
    intros y ->%list_elem_of_singleton. reflexivity.
  - assert (Hperm : x :: z :: rest ≡ₚ (x :: rest) ++ [z]).
    { cbn. constructor. by rewrite Permutation_app_comm. }
    destruct (siftup_spec (z :: rest) 0) as (h' & -> & Hp & Hhp).
    + cbn. lia.
    + intros a b Ha Hb. apply Hu; rewrite <-Hperm, elem_of_cons; by right.
    + intros i Hi Hs a b Ha Hb. pose proof (par_spec i Hi).
      destruct i as [|i]; [lia|]. destruct (par (S i)) as [|k] eqn:Ek; [lia|]. cbn in Ha, Hb.
      apply (Hh (S i) ltac:(lia) ltac:(lia)).
      * rewrite Ek. by apply (lookup_app_l_Some (x :: rest)).
      * by apply (lookup_app_l_Some (x :: rest)).
    + exists x, h'. split; [done|]. split; [by rewrite Hp|]. split; [done|]. split; [done|].
      by apply (heap_root _ _ Hh).
Qed.

Lemma heapify_spec h : untied h -> exists h', heapify h = Ok h' /\ h' ≡ₚ h /\ hp 0 h'.
Proof.
  intros Hu. unfold heapify.
  assert (H : forall n h0, (2 * n <= length h0)%nat -> untied h0 -> hp n h0 ->
    exists h', foldM (fun h i => siftup h i) h0 (reverse (seq 0 n)) = Ok h' /\ h' ≡ₚ h0 /\ hp 0 h').
  { clear h Hu. induction n as [|n IH]; intros h0 Hn Hu Hh; [by exists h0|].
    rewrite seq_S, reverse_app. cbn.
    destruct (siftup_spec h0 n ltac:(lia) Hu Hh) as (h1 & -> & Hp & Hh1). cbn [mbind result_bind].
    destruct (IH h1) as (h' & E & Hp' & Hh'); [rewrite Hp; lia|by rewrite Hp|done|].
    exists h'. split; [done|]. split; [by rewrite Hp'|done]. }
  apply H; [pose proof (Nat.div_mod_eq (length h) 2); lia|done|].
  intros i Hi Hs a b Ha Hb. pose proof (par_spec i Hi). apply lookup_lt_Some in Hb.
  pose proof (Nat.div_mod_eq (length h) 2). pose proof (Nat.mod_upper_bound (length h) 2 ltac:(lia)). lia.
Qed.

Lemma pop_all_spec n : forall h,
  (length h <= n)%nat -> untied h -> hp 0 h ->
  exists es, pop_all n h = Ok (e_obj <$> es) /\ es ≡ₚ h /\ StronglySorted kle es.
Proof.
  induction n as [|n IH]; intros h Hl Hu Hh.
  - destruct h; [|cbn in Hl; lia]. exists []. split; [done|]. split; [done|constructor].
  - destruct h as [|y h]; [exists []; split; [done|]; split; [done|constructor]|].
    destruct (heappop_spec (y :: h) ltac:(done) Hu Hh) as (x & h' & E & Hp & Hh' & _ & Hmin).
    cbn [pop_all]. rewrite E. cbn [mbind result_bind].
    assert (Hlen : length (x :: h') = length (y :: h)) by (by rewrite Hp).
    destruct (IH h') as (es & -> & Hpe & Hs); [cbn in *; lia| |done|].
    { intros a b Ha Hb. apply Hu; rewrite <-Hp, elem_of_cons; by right. }
    exists (x :: es). split; [done|]. split; [by rewrite Hpe|]. constructor; [done|].
    apply Forall_forall. intros a Ha. apply Hmin. rewrite <-Hp, elem_of_cons. right. by rewrite <-Hpe.
Qed.

(** ** Contents of the queues *)

(** Whatever the order of the entries, an operation that returns has moved
    exactly the entries it should. *)
Lemma siftdown_perm fuel : forall h s pos x h',
  (pos < length h)%nat -> siftdown fuel h s pos x = Ok h' -> h' ≡ₚ <[pos := x]> h.
Proof.
  induction fuel as [|fuel IH]; intros h s pos x h' Hpos E; [done|]. cbn [siftdown] in E.
  destruct (decide (s < pos)%nat) as [Hlt|]; [|by inv_ok]. inv_ok. fold (par pos) in *. pose proof (par_spec pos ltac:(lia)).
  destruct a0; [|by inv_ok]. apply IH in E; [|rewrite length_insert; lia]. rewrite E. apply perm_move; [lia|done|done].
Qed.

Lemma siftup_loop_perm fuel : forall h pos x h' leaf,
  (pos < length h)%nat -> siftup_loop fuel h pos = Ok (h', leaf) ->
  <[leaf := x]> h' ≡ₚ <[pos := x]> h /\ (leaf < length h')%nat.
Proof.
  induction fuel as [|fuel IH]; intros h pos x h' leaf Hpos E; [done|]. cbn [siftup_loop] in E.
  destruct (decide _) as [Hlt|]; [|by inv_ok]. inv_ok.
  assert (Hc : h !! n = Some e /\ n ≠ pos /\ (n < length h)%nat).
  { destruct (h !! (2 * pos + 1 + 1)%nat) as [rc|] eqn:Erc.
    - apply lookup_lt_Some in Erc as Hl. inv_ok. destruct a0; simplify_eq; split_and!; try done; lia.
    - inv_ok. simplify_eq. split_and!; try done; lia. }
  destruct Hc as (Hc & Hne & Hl). apply (IH _ _ x) in E; [|by rewrite length_insert].
  destruct E as [E Hl']. split; [|done]. rewrite E. apply perm_move; [done|done|done].
Qed.

Lemma siftup_perm h pos h' : siftup h pos = Ok h' -> h' ≡ₚ h.
Proof.
  unfold siftup. intros E. inv_ok. assert (pos < length h)%nat by (by eapply lookup_lt_Some).
  destruct (siftup_loop_perm _ _ _ a _ _ ltac:(done) E1) as [Hp Hl].
  apply siftdown_perm in E; [|done]. by rewrite E, Hp, list_insert_id.
Qed.

Lemma heappush_perm h x h' : heappush h x = Ok h' -> h' ≡ₚ x :: h.
Proof.
  unfold heappush. intros E%siftdown_perm; [|rewrite length_app; cbn; lia]. rewrite E, list_insert_id.
  - by rewrite Permutation_app_comm.
  - by rewrite lookup_app_r, Nat.sub_diag by lia.
Qed.

Lemma heappop_perm h x h' : heappop h = Ok (x, h') -> h ≡ₚ x :: h' /\ head h = Some x.
Proof.
  unfold heappop. destruct (last h) as [z|] eqn:Hz; [|done]. apply last_Some in Hz as [h0 ->].
  rewrite length_app. cbn [length]. replace (length h0 + 1 - 1)%nat with (length h0) by lia. rewrite take_app_length.
  destruct h0 as [|y rest]; intros E; inv_ok; [done|]. apply siftup_perm in E0. split; [|done].
  cbn. constructor. by rewrite E0, Permutation_app_comm.
Qed.

Lemma heapify_perm h h' : heapify h = Ok h' -> h' ≡ₚ h.
Proof.
  unfold heapify. generalize (reverse (seq 0 (length h / 2))). intros l. revert h.
  induction l as [|i l IH]; intros h E; cbn in E; inv_ok; [done|]. apply IH in E. by rewrite E, (siftup_perm _ _ _ E0).
Qed.

Lemma entry_of_obj st o e : entry_of st o = Ok e -> e_obj e = o.
Proof. unfold entry_of. intros E. by inv_ok. Qed.

Lemma add_objs st o q q' : add_request st o q = Ok q' -> queue_objs q' ≡ₚ o :: queue_objs q.
Proof.
  destruct q as [l|h]; cbn; intros E; inv_ok; cbn.
  - by rewrite Permutation_app_comm.
  - rewrite (heappush_perm _ _ _ E1). cbn. by rewrite (entry_of_obj _ _ _ E0).
Qed.

Lemma prepend_objs st o q q' : prepend_request st o q = Ok q' -> queue_objs q' ≡ₚ o :: queue_objs q.
Proof. destruct q as [l|h]; [cbn; intros E; by inv_ok|]. apply add_objs. Qed.

Lemma pop_objs q o q' : pop_request q = Ok (o, q') -> queue_objs q ≡ₚ o :: queue_objs q' /\ peek_request q = Ok o.
Proof.
  destruct q as [[|x l]|h]; cbn; intros E; inv_ok; [done|].
  destruct (heappop_perm _ _ _ E0) as [Hp ->]. by rewrite Hp.
Qed.

Lemma pop_all_objs n : forall h l, pop_all n h = Ok l -> l ≡ₚ e_obj <$> h.
Proof.
  induction n as [|n IH]; intros h l E; destruct h as [|y h]; cbn [pop_all] in E; inv_ok; [done..|].
  destruct (heappop_perm _ _ _ E0) as [Hp _]. rewrite Hp. cbn. constructor. by apply IH.
Qed.

Lemma iter_objs q l : queue_iter q = Ok l -> l ≡ₚ queue_objs q.
Proof. destruct q; cbn; intros E; [by inv_ok|by eapply pop_all_objs]. Qed.

Lemma add_all_objs st l : forall q q', foldM (fun q o => add_request st o q) q l = Ok q' -> queue_objs q' ≡ₚ l ++ queue_objs q.
Proof.
  induction l as [|o l IH]; intros q q' E; cbn in E; inv_ok; [done|].
  rewrite (IH _ _ E), (add_objs _ _ _ _ E0). cbn. by rewrite Permutation_middle.
Qed.

(** [extendleft]. *)
Lemma extendleft_spec (l : list nat) : forall l0, foldl (fun l o => o :: l) l0 l = reverse l ++ l0.
Proof. induction l as [|x l IH]; intros l0; [done|]. cbn [foldl]. by rewrite IH, reverse_cons, <-app_assoc. Qed.

Lemma prepend_requests_objs st q' q q'' :
  prepend_requests st q' q = Ok q'' -> queue_objs q'' ≡ₚ queue_objs q' ++ queue_objs q.
Proof.
  destruct q as [l|h]; cbn [prepend_requests]; intros E; inv_ok.
  - unfold queue_reversed in E0. inv_ok. apply iter_objs in E. cbn. rewrite <-E.
    by rewrite extendleft_spec, reverse_involutive.
  - apply add_all_objs in E. by rewrite E, (iter_objs _ _ E0).
Qed.

Lemma remove_requests_objs os q q' : remove_requests os q = Ok q' -> queue_objs q' ≡ₚ filter (fun o => o ∉ os) (queue_objs q).
Proof.
  destruct q as [l|h]; cbn; intros E; inv_ok; [done|]. cbn. rewrite (heapify_perm _ _ E0). clear E0.
  induction h as [|e h IH]; [done|]. cbn [fmap list_fmap]. rewrite !filter_cons.
  destruct (decide (e_obj e ∉ os)); cbn; [by rewrite IH|done].
Qed.

Lemma queue_len_objs q : queue_len q = zlen (queue_objs q).
Proof. destruct q; cbn; [done|]. unfold zlen. by rewrite length_fmap. Qed.

(** * The abstract waiting queue *)

(** An abstract queue is the list of requests in service order. *)
Definition precedes (st : store) (x y : nat) : bool :=
  match entry_of st x, entry_of st y with
  | Ok ex, Ok ey => bool_decide (kle ex ey)
  | _, _ => false
  end.

(** Insertion behind every request that may be served earlier. *)
Fixpoint ins (st : store) (o : nat) (l : list nat) : list nat :=
  match l with
  | [] => [o]
  | y :: l' => if precedes st y o then y :: ins st o l' else o :: l
  end.

Inductive queue_op := QAdd (o : nat) | QPop | QPeek | QPrepend (o : nat) | QPrependAll (os : list nat) | QRemove (o : nat) | QRemoveAll (os : list nat).

Definition is_heap (q : RequestQueue) : bool :=
  match q with FCFSRequestQueue _ => false | PriorityRequestQueue _ => true end.

(** A request goes behind those that may be served earlier, or to the end. *)
Definition spec_add (st : store) (heap : bool) (l : list nat) (o : nat) : list nat := if heap then ins st o l else l ++ [o].

(** An empty queue of the same policy, as [schedule] creates one for the requests it
    skips. *)
Definition empty_like (q : RequestQueue) : RequestQueue :=
  match q with FCFSRequestQueue _ => FCFSRequestQueue [] | PriorityRequestQueue _ => PriorityRequestQueue [] end.

(** What each operation promises; [heap] tells a priority queue. [QPrependAll] is
    [prepend_requests] with another queue to which [os] were added. *)
Definition spec_exec (st : store) (heap : bool) (l : list nat) (op : queue_op) : result (option nat * list nat) :=
  match op with
  | QAdd o => Ok (None, spec_add st heap l o)
  | QPop => match l with [] => Err IndexError | o :: l => Ok (Some o, l) end
  | QPeek => match l with [] => Err IndexError | o :: _ => Ok (Some o, l) end
  | QPrepend o => Ok (None, if heap then ins st o l else o :: l)
  | QPrependAll os =>
      let other := foldl (spec_add st heap) [] os in
      Ok (None, if heap then foldl (spec_add st heap) l other else other ++ l)
  | QRemove o =>
      if heap then Ok (None, filter (fun x => x ≠ o) l)
      else if decide (o ∈ l) then Ok (None, remove_first o l) else Err ValueError
  | QRemoveAll os => Ok (None, filter (fun x => x ∉ os) l)
  end.

Definition queue_exec (st : store) (q : RequestQueue) (op : queue_op) : result (option nat * RequestQueue) :=
  match op with
  | QAdd o => q ← add_request st o q; Ok (None, q)
  | QPop => '(o, q) ← pop_request q; Ok (Some o, q)
  | QPeek => o ← peek_request q; Ok (Some o, q)
  | QPrepend o => q ← prepend_request st o q; Ok (None, q)
  | QPrependAll os =>
      other ← foldM (fun q o => add_request st o q) (empty_like q) os;
      q ← prepend_requests st other q;
      Ok (None, q)
  | QRemove o => q ← remove_request o q; Ok (None, q)
  | QRemoveAll os => q ← remove_requests os q; Ok (None, q)
  end.

(** Runs a sequence; an operation that raises leaves the queue as it was, as
    a caller that handles the error would see it. *)
Fixpoint run_ops {Q} (step : Q -> queue_op -> result (option nat * Q)) (q : Q) (ops : list queue_op)
    : list (result (option nat)) * Q :=
  match ops with
  | [] => ([], q)
  | op :: ops =>
      match step q op with
      | Ok (r, q') => let '(rs, q'') := run_ops step q' ops in (Ok r :: rs, q'')
      | Err e => let '(rs, q'') := run_ops step q ops in (Err e :: rs, q'')
      end
  end.

Definition entry_ok (st : store) (e : entry) : Prop := entry_of st (e_obj e) = Ok e.

(** The queue [q] holds the requests [l], to be served in that order. *)
Definition represents (st : store) (q : RequestQueue) (l : list nat) : Prop :=
  match q with
  | FCFSRequestQueue q => q = l
  | PriorityRequestQueue h =>
      hp 0 h /\ Forall (entry_ok st) h /\ exists es, l = e_obj <$> es /\ es ≡ₚ h /\ StronglySorted kle es
  end.

(** No two requests agree in priority and arrival time. *)
Definition store_untied (st : store) : Prop :=
  forall o o' r r', st !! o = Some r -> st !! o' = Some r' ->
    priority r = priority r' -> arrival_time r = arrival_time r' -> o = o'.

Definition op_known (st : store) (op : queue_op) : Prop :=
  match op with QAdd o | QPrepend o => is_Some (st !! o) | QPrependAll os => Forall (fun o => is_Some (st !! o)) os | _ => True end.

Lemma filter_objs (P : nat -> Prop) `{!forall x, Decision (P x)} (es : list entry) :
  filter P (e_obj <$> es) = e_obj <$> filter (fun e => P (e_obj e)) es.
Proof.
  induction es as [|e es IH]; [done|]. cbn [fmap list_fmap]. rewrite !filter_cons.
  destruct (decide (P (e_obj e))); cbn; by rewrite IH.
Qed.

Section Refinement.
Context (st : store) (Hst : store_untied st).

Lemma entries_untied h : Forall (entry_ok st) h -> untied h.
Proof using Hst.
  rewrite Forall_forall. intros Hf x y Hx%Hf Hy%Hf Hp Ht. unfold entry_ok, entry_of in Hx, Hy.
  destruct (st !! e_obj x) as [rx|] eqn:Ex; [|done]. destruct (st !! e_obj y) as [ry|] eqn:Ey; [|done].
  cbn in Hx, Hy. injection Hx as Hx. injection Hy as Hy. apply (Hst _ _ _ _ Ex Ey).
  - rewrite <-Hx, <-Hy in Hp. exact Hp.
  - rewrite <-Hx, <-Hy in Ht. exact Ht.
Qed.

Lemma entry_ok_inj x y : entry_ok st x -> entry_ok st y -> kle x y -> kle y x -> x = y.
Proof using Hst.
  intros Hx Hy Hxy Hyx.
  assert (e_obj x = e_obj y) as Eo.
  { apply (entries_untied [x; y]); [by repeat constructor|set_solver..| |].
    - unfold kle in *. lia.
    - unfold kle in *. destruct Hxy as [?|[? H1]]; [lia|]. destruct Hyx as [?|[? H2]]; [lia|]. by apply Qcle_antisym. }
  unfold entry_ok in *. rewrite Eo in Hx. congruence.
Qed.

Lemma sorted_unique es es' :
  Forall (entry_ok st) es -> es ≡ₚ es' -> StronglySorted kle es -> StronglySorted kle es' -> es = es'.
Proof using Hst.
  intros Hf Hp H1 H2. apply (StronglySorted_unique_strong kle); [|done..].
  rewrite Forall_forall in Hf. intros x y Hx Hy. rewrite <-Hp in Hy. apply entry_ok_inj; by apply Hf.
Qed.

Lemma represents_iter q l : represents st q l -> queue_iter q = Ok l.
Proof using Hst.
  destruct q as [q|h]; cbn; [by intros ->|]. intros (Hh & Hf & es & -> & Hp & Hs).
  destruct (pop_all_spec (length h) h) as (es' & -> & Hp' & Hs'); [lia|by apply entries_untied|done|].
  do 2 f_equal. apply sorted_unique; [by rewrite Hp'|by rewrite Hp, Hp'|done..].
Qed.

(** A heap with the entries of a sorted list represents it. *)
Lemma represents_heap h es :
  hp 0 h -> Forall (entry_ok st) h -> es ≡ₚ h -> StronglySorted kle es -> represents st (PriorityRequestQueue h) (e_obj <$> es).
Proof. intros. split; [done|]. split; [done|]. by exists es. Qed.

Lemma ins_entries es e :
  Forall (entry_ok st) es -> entry_ok st e -> StronglySorted kle es ->
  exists es', ins st (e_obj e) (e_obj <$> es) = e_obj <$> es' /\ es' ≡ₚ e :: es /\ StronglySorted kle es'.
Proof.
  intros Hf He Hs. induction es as [|y es IH]; [exists [e]; repeat constructor|]. cbn [fmap list_fmap ins].
  apply Forall_cons in Hf as [Hy Hf]. apply StronglySorted_inv in Hs as [Hs Hys].
  unfold precedes. rewrite Hy, He. destruct (bool_decide_reflect (kle y e)) as [Hle|Hgt].
  - destruct (IH Hf Hs) as (es' & -> & Hp & Hs'). exists (y :: es'). split; [done|].
    split; [rewrite Hp; constructor|]. constructor; [done|]. rewrite Hp. by constructor.
  - assert (Hle : kle e y) by (destruct (kle_total e y); tauto).
    exists (e :: y :: es). split; [done|]. split; [done|]. constructor; [by constructor|]. constructor; [done|].
    eapply Forall_impl; [exact Hys|]. intros z Hz. by transitivity y.
Qed.

Lemma add_represents q l o :
  represents st q l -> is_Some (st !! o) ->
  exists q', add_request st o q = Ok q' /\ represents st q' (spec_add st (is_heap q) l o) /\ is_heap q' = is_heap q.
Proof using Hst.
  intros Hr [r Ho]. destruct q as [q|h]; [cbn in *; subst; by eexists|].
  destruct Hr as (Hh & Hf & es & -> & Hp & Hs). set (e := mkEntry (priority r) (arrival_time r) o).
  assert (He : entry_ok st e) by (unfold entry_ok, entry_of; cbn; by rewrite Ho).
  cbn [add_request]. change o with (e_obj e). rewrite He. cbn [mbind result_bind].
  assert (Hf' : Forall (entry_ok st) (e :: h)) by (by constructor).
  destruct (heappush_spec h e) as (h' & -> & Hp' & Hh'); [|done|].
  { rewrite Permutation_app_comm. cbn. by apply entries_untied. }
  destruct (ins_entries es e) as (es' & E & Hpe & Hse); [by rewrite Hp|done|done|].
  eexists. split; [done|]. cbn [is_heap spec_add]. rewrite E. split; [|done].
  apply represents_heap; [done|by rewrite Hp'|by rewrite Hpe, Hp', Hp|done].
Qed.

Lemma add_all_represents os : forall q l, represents st q l -> Forall (fun o => is_Some (st !! o)) os ->
  exists q', foldM (fun q o => add_request st o q) q os = Ok q' /\ represents st q' (foldl (spec_add st (is_heap q)) l os) /\ is_heap q' = is_heap q.
Proof using Hst.
  induction os as [|o os IH]; intros q l Hr Hk; [by exists q|]. apply Forall_cons in Hk as [Ho Hk]. cbn [foldM foldl].
  destruct (add_represents q l o Hr Ho) as (q1 & -> & Hr1 & E1). cbn [mbind result_bind]. destruct (IH q1 _ Hr1 Hk) as (q2 & -> & Hr2 & E2). rewrite E1 in Hr2, E2. by exists q2.
Qed.

Lemma empty_represents q : represents st (empty_like q) [].
Proof. destruct q; [done|]. split; [by intros i _ _ a b|]. split; [constructor|]. exists []. split; [done|]. split; [done|constructor]. Qed.

Lemma represents_known h l : represents st (PriorityRequestQueue h) l -> Forall (fun o => is_Some (st !! o)) l.
Proof.
  intros (_ & Hf & es & -> & Hp & _). rewrite <-Hp in Hf. apply Forall_fmap. eapply Forall_impl; [exact Hf|]. intros e He. unfold entry_ok, entry_of in He. cbn. destruct (st !! e_obj e); [by eexists|done].
Qed.

Lemma prepend_all_represents q l other l' : represents st q l -> represents st other l' -> is_heap other = is_heap q ->
  exists q', prepend_requests st other q = Ok q' /\ represents st q' (if is_heap q then foldl (spec_add st true) l l' else l' ++ l) /\ is_heap q' = is_heap q.
Proof using Hst.
  intros Hr Ho Eh. destruct q as [q|h], other as [q'|h']; try done; cbn [is_heap].
  - cbn in Hr, Ho. subst. unfold prepend_requests, queue_reversed, queue_iter. cbn. rewrite extendleft_spec, reverse_involutive. by eexists.
  - cbn [prepend_requests]. rewrite (represents_iter _ _ Ho). cbn [mbind result_bind]. by apply add_all_represents, (represents_known h').
Qed.

Lemma filter_represents h l (P : nat -> Prop) `{!forall x, Decision (P x)} :
  represents st (PriorityRequestQueue h) l ->
  exists h', heapify (filter (fun e => P (e_obj e)) h) = Ok h' /\
    represents st (PriorityRequestQueue h') (filter P l).
Proof using Hst.
  intros (Hh & Hf & es & -> & Hp & Hs).
  assert (Hf' : Forall (entry_ok st) (filter (fun e => P (e_obj e)) h)) by (apply Forall_forall; rewrite Forall_forall in Hf; intros e [_ He]%list_elem_of_filter; by apply Hf).
  destruct (heapify_spec _ (entries_untied _ Hf')) as (h' & -> & Hp' & Hh'). exists h'. split; [done|].
  rewrite filter_objs. apply represents_heap.
  - done.
  - by rewrite Hp'.
  - rewrite Hp'. by rewrite Hp.
  - clear -Hs. induction Hs as [|x es Hs IH Hx]; [constructor|]. rewrite filter_cons.
    destruct (decide _); [|done]. constructor; [done|].
    rewrite Forall_forall in Hx |- *. intros y [_ Hy]%list_elem_of_filter. by apply Hx.
Qed.

Lemma pop_represents h l :
  represents st (PriorityRequestQueue h) l ->
  match l with
  | [] => h = []
  | o :: l' => exists e h', heappop h = Ok (e, h') /\ head h = Some e /\ e_obj e = o /\ represents st (PriorityRequestQueue h') l'
  end.
Proof using Hst.
  intros (Hh & Hf & es & -> & Hp & Hs). destruct es as [|e es]; [by apply Permutation_nil_l in Hp|].
  cbn [fmap list_fmap]. assert (Hne : h ≠ []) by (intros ->; by apply Permutation_nil_r in Hp).
  destruct (heappop_spec h Hne (entries_untied _ Hf) Hh) as (x & h' & -> & Hp' & Hh' & Hhd & Hmin).
  apply StronglySorted_inv in Hs as [Hs He].
  assert (Hx : x ∈ h) by (rewrite <-Hp'; set_solver).
  assert (x = e) as ->.
  { rewrite Forall_forall in Hf, He. assert (Hei : e ∈ h) by (rewrite <-Hp; set_solver).
    apply entry_ok_inj; [by apply Hf|by apply Hf|by apply Hmin|].
    rewrite <-Hp in Hx. apply elem_of_cons in Hx as [-> | Hx]; [reflexivity|by apply He]. }
  exists e, h'. split; [done|]. split; [done|]. split; [done|].
  rewrite <-Hp' in Hp, Hf. apply Permutation_cons_inv in Hp. apply represents_heap; [done| |done|done].
  by apply Forall_cons in Hf as [_ Hf].
Qed.

Ltac yields := first [done | eexists; split; [reflexivity|split; done]].

Lemma queue_exec_refines q l op :
  represents st q l -> op_known st op ->
  match spec_exec st (is_heap q) l op with
  | Ok (r, l') => exists q', queue_exec st q op = Ok (r, q') /\ represents st q' l' /\ is_heap q' = is_heap q
  | Err e => queue_exec st q op = Err e
  end.
Proof using Hst.
  intros Hr Hk. destruct op as [o| | |o|os|o|os]; cbn [spec_exec queue_exec op_known] in *.
  - destruct (add_represents q l o Hr Hk) as (q' & -> & Hr' & ?). by exists q'.
  - destruct q as [q|h]; [cbn in Hr; subst; destruct l; cbn; yields|].
    apply pop_represents in Hr. destruct l as [|o l]; [by subst|].
    destruct Hr as (e & h' & E & _ & <- & Hr'). cbn [pop_request]. rewrite E. cbn. yields.
  - destruct q as [q|h]; [cbn in Hr; subst; destruct l; cbn; yields|].
    pose proof Hr as Hr0. apply pop_represents in Hr. destruct l as [|o l]; [by subst|].
    destruct Hr as (e & h' & _ & E & <- & _). cbn [peek_request]. rewrite E. cbn [get_or mbind result_bind]. yields.
  - destruct q as [q|h]; [cbn in *; subst; yields|].
    destruct (add_represents _ l o Hr Hk) as (q' & E & Hr' & ?). cbn [prepend_request]. rewrite E. by exists q'.
  - destruct (add_all_represents os (empty_like q) [] (empty_represents q) Hk) as (other & -> & Hr1 & E1). cbn [mbind result_bind].
    assert (Eq : is_heap (empty_like q) = is_heap q) by (by destruct q). rewrite Eq in Hr1, E1. destruct (prepend_all_represents q l other _ Hr Hr1 E1) as (q' & -> & Hr2 & E2). cbn [mbind result_bind]. exists q'. split; [done|].
    by destruct (is_heap q).
  - destruct q as [q|h]; cbn [is_heap].
    + cbn in *; subst. destruct (decide _); cbn; yields.
    + destruct (filter_represents h l (fun x => x ≠ o) Hr) as (h' & E & Hr').
      cbn [remove_request]. rewrite E. cbn. yields.
  - destruct q as [q|h]; cbn [is_heap]; [cbn in *; subst; yields|].
    destruct (filter_represents h l (fun x => x ∉ os) Hr) as (h' & E & Hr').
    cbn [remove_requests]. rewrite E. cbn. yields.
Qed.

Lemma run_ops_refines ops : forall q l, represents st q l -> Forall (op_known st) ops ->
  let '(rs, l') := run_ops (fun l => spec_exec st (is_heap q) l) l ops in
  exists q', run_ops (queue_exec st) q ops = (rs, q') /\ represents st q' l'.
Proof using Hst.
  induction ops as [|op ops IH]; intros q l Hr Hk; [by exists q|].
  apply Forall_cons in Hk as [Hop Hk]. pose proof (queue_exec_refines q l op Hr Hop) as H. cbn [run_ops].
  destruct (spec_exec st (is_heap q) l op) as [[r l']|e].
  - destruct H as (q' & -> & Hr' & Eh). specialize (IH q' l' Hr' Hk). rewrite Eh in IH.
    destruct (run_ops _ l' ops) as [rs l'']. destruct IH as (q'' & -> & ?). by exists q''.
  - rewrite H. specialize (IH q l Hr Hk). destruct (run_ops _ l ops) as [rs l'']. destruct IH as (q'' & -> & ?). by exists q''.
Qed.
End Refinement.

Lemma fcfs_run st ops : forall l,
  let '(rs, l') := run_ops (fun l => spec_exec st false l) l ops in
  run_ops (queue_exec st) (FCFSRequestQueue l) ops = (rs, FCFSRequestQueue l').
Proof.
  induction ops as [|op ops IH]; intros l; [done|]. cbn [run_ops].
  assert (Hstep : queue_exec st (FCFSRequestQueue l) op =
    match spec_exec st false l op with Ok (r, l') => Ok (r, FCFSRequestQueue l') | Err e => Err e end).
  { destruct op as [| | | |os| |]; cbn -[foldM]; try done; [destruct l; cbn; done..| |by destruct (decide _)].
    assert (Ha : forall l0, foldM (fun q o => add_request st o q) (FCFSRequestQueue l0) os = Ok (FCFSRequestQueue (foldl (spec_add st false) l0 os))) by (induction os as [|o os IHo]; intros l0; [done|apply IHo]).
    rewrite Ha. cbn. by rewrite extendleft_spec, reverse_involutive. }
  rewrite Hstep. destruct (spec_exec st false l op) as [[r l']|e].
  - specialize (IH l'). destruct (run_ops _ l' ops). by rewrite IH.
  - specialize (IH l). destruct (run_ops _ l ops). by rewrite IH.
Qed.

(** * Properties *)

(** C23: The waiting queues implement the abstract queue: whatever policy creates
    the queue, and whatever sequence of add, pop, peek, prepend and remove
    operations, of one request, of another queue of requests ([prepend_requests]) or
    of a set of requests ([remove_requests]), is run on it (raising operations
    included), every operation returns, or raises, exactly what the abstract queue says, and iterating
    over the final queue yields the abstract queue in service order. That
    order is arrival order for FCFS and MIMIR, and (priority, arrival time)
    for PRIORITY, provided no two requests agree in both. *)
Theorem queue_refines (st : store) (p : SchedulingPolicy) (ops : list queue_op) :
  (p = PRIORITY -> store_untied st) -> Forall (op_known st) ops ->
  let '(rs, l) := run_ops (fun l => spec_exec st (bool_decide (p = PRIORITY)) l) [] ops in
  exists q, run_ops (queue_exec st) (create_request_queue p) ops = (rs, q) /\ queue_iter q = Ok l.
Proof.
  intros Hst Hk. destruct (decide (p = PRIORITY)) as [->|Hp].
  - pose proof (empty_represents st (PriorityRequestQueue [])) as H0.
    pose proof (run_ops_refines st (Hst eq_refl) ops _ _ H0 Hk) as H. cbn [is_heap] in H.
    rewrite bool_decide_true by done. destruct (run_ops _ [] ops) as [rs l]. destruct H as (q & E & Hr).
    exists q. split; [done|]. by apply (represents_iter st (Hst eq_refl)).
  - rewrite bool_decide_false by done. replace (create_request_queue p) with (FCFSRequestQueue []) by (by destruct p).
    pose proof (fcfs_run st ops []) as H. destruct (run_ops _ [] ops) as [rs l]. by exists (FCFSRequestQueue l).
Qed.

(** Three requests with their scheduling keys. *)
Definition keyed (id : string) (prio : Z) (t : Qc) : Request :=
  mkRequest id 0 prio (Some demo_sampling) false None None t WAITING false [] None PNone PNone None ∅
    16 [1] [] [1] 0 [] 0 None [] (-1) 0 [].

Definition demo_store : store :=
  {[ 0%nat := keyed "a" 5 (Q2Qc 1); 1%nat := keyed "b" 1 (Q2Qc 2); 2%nat := keyed "c" 1 (Q2Qc 1) ]}.

Lemma queue_refines_witness :
  let '(rs, l) := run_ops (fun l => spec_exec demo_store true l) [] [QAdd 0; QPop; QPop; QAdd 0; QPrependAll [1; 2]; QRemove 1]%nat in
  rs = [Ok None; Ok (Some 0%nat); Err IndexError; Ok None; Ok None; Ok None] /\ l = [2; 0]%nat /\
  exists q, run_ops (queue_exec demo_store) (create_request_queue PRIORITY)
      [QAdd 0; QPop; QPop; QAdd 0; QPrependAll [1; 2]; QRemove 1]%nat = (rs, q) /\ queue_iter q = Ok l.
Proof.
  pose proof (queue_refines demo_store PRIORITY [QAdd 0; QPop; QPop; QAdd 0; QPrependAll [1; 2]; QRemove 1]%nat) as H.
  split; [vm_compute; reflexivity|]. split; [vm_compute; reflexivity|]. apply H.
  - intros _ o o' r r' Ho Ho'. unfold demo_store in Ho, Ho'.
    rewrite !lookup_insert_Some, lookup_singleton_Some in Ho, Ho'.
    destruct Ho as [[<- <-]|(_ & [[<- <-]|(_ & <- & <-)])];
      destruct Ho' as [[<- <-]|(_ & [[<- <-]|(_ & <- & <-)])]; cbn; intros Hp Ht; try reflexivity; try discriminate Hp;
      apply (f_equal this) in Ht; vm_compute in Ht; discriminate Ht.
  - repeat constructor; eexists; reflexivity.
Defined.

(** Without that proviso the priority queue fails: two waiting requests that
    agree in priority and arrival time make the heap compare the request
    objects, which define no order, and adding the second one raises
    TypeError. *)
Theorem equal_keys_raise (st : store) (o o' : nat) (r r' : Request) :
  st !! o = Some r -> st !! o' = Some r' -> o ≠ o' ->
  priority r = priority r' -> arrival_time r = arrival_time r' ->
  (q ← add_request st o (create_request_queue PRIORITY); add_request st o' q) = Err TypeError.
Proof.
  intros Ho Ho' Hne Hp Ht. unfold create_request_queue, add_request, entry_of. rewrite Ho, Ho'.
  cbn [get_or mbind result_bind]. set (e := mkEntry _ _ o). set (e' := mkEntry _ _ o').
  assert (Hlt : entry_lt e' e = Err TypeError).
  { unfold entry_lt. by rewrite !decide_True, decide_False by (cbn; congruence). }
  change (heappush [] e) with (Ok [e]). cbn [get_or mbind result_bind].
  replace (heappush [e] e') with (Err TypeError : result (list entry)); [done|].
  unfold heappush. cbn [siftdown length]. rewrite decide_True by lia.
  change (((1 - 1) / 2)%nat) with 0%nat. cbn [app lookup list_lookup get_or mbind result_bind]. by rewrite Hlt.
Qed.

Lemma equal_keys_raise_witness :
  let st : store := {[ 0%nat := keyed "a" 3 (Q2Qc 1); 1%nat := keyed "b" 3 (Q2Qc 1) ]} in
  (q ← add_request st 0 (create_request_queue PRIORITY); add_request st 1 q) = Err TypeError.
Proof.
  intros st. apply (equal_keys_raise st 0 1 (keyed "a" 3 (Q2Qc 1)) (keyed "b" 3 (Q2Qc 1))); done.
Defined.
