(* ===== verification/SchedState.v ===== *)
(** The state of the scheduler (src/vllm/v1/core/sched/scheduler.py): its
    configuration, the objects it owns, the data it hands to the workers
    (src/vllm/v1/core/sched/output.py), and the interfaces of the two
    components it calls but whose implementation is chosen by configuration,
    the KV connector and the structured output manager.

    Requests are shared mutable objects: the queues, the running list, the
    pin list and the [requests] dict hold object identities, and the
    attributes live in one store. *)
From Stdlib Require Import ZArith Lia Ascii String QArith Qcanon.
From stdpp Require Import numbers gmap strings list.
From S2P Require Import Prelude FreeQueue Request BlockPool KVCacheManager EncoderCache RequestQueue.

Open Scope Z_scope.

(** ** Configuration *)

(** The attributes the scheduler reads from the engine configuration.
    [max_loras] is [None] without a LoRA configuration, [encdec_len] is what
    the multimodal registry answers for an encoder-decoder model, and
    [async_scheduling] selects the AsyncScheduler subclass. *)
Record SchedConfig := mkSchedConfig {
  policy : SchedulingPolicy;
  max_num_running_reqs : Z;
  max_num_scheduled_tokens : Z;
  max_model_len : Z;
  long_prefill_token_threshold : Z;
  chunked_prefill_enabled : bool;
  chunked_mm_disabled : bool;
  max_encoder_input_tokens : Z;
  is_encoder_decoder : bool;
  is_whisper : bool;
  encdec_len : Z;
  max_loras : option Z;
  num_spec_tokens : Z;
  num_lookahead_tokens : Z;
  sched_block_size : Z;
  num_groups : Z;
  use_pp : bool;
  log_stats : bool;
  async_scheduling : bool;
  mimir_pin_ttl : Qc
}.

(** ** Dictionaries whose order matters *)

(** [d[k] = v]: an existing key keeps its position. *)
Fixpoint dset {K V} `{EqDecision K} (k : K) (v : V) (d : list (K * V)) : list (K * V) :=
  match d with
  | [] => [(k, v)]
  | (k', v') :: d' => if decide (k = k') then (k', v) :: d' else (k', v') :: dset k v d'
  end.

Fixpoint dget {K V} `{EqDecision K} (k : K) (d : list (K * V)) : option V :=
  match d with
  | [] => None
  | (k', v) :: d' => if decide (k = k') then Some v else dget k d'
  end.

Definition sum_values {K} (d : list (K * Z)) : Z := foldr (fun kv acc => kv.2 + acc) 0 d.

(** ** What is sent to the workers *)

Record NewRequestData := mkNew {
  nr_req_id : string;
  nr_prompt_token_ids : list Z;
  nr_mm_hashes : list string;
  nr_mm_positions : list PlaceholderRange;
  nr_sampling_params : option SamplingParams;
  nr_pooling_params : bool;
  nr_block_ids : list (list Z);
  nr_num_computed_tokens : Z;
  nr_lora_request : option LoRARequest
}.

Definition from_request (r : Request) (block_ids : list (list Z)) : NewRequestData :=
  mkNew (request_id r) (prompt_token_ids r) (mm_hashes r) (mm_positions r) (sampling_params r)
    (pooling_params r) block_ids (num_computed_tokens r) (lora_request r).

Record CachedRequestData := mkCached {
  cr_req_ids : list string;
  cr_resumed_from_preemption : list bool;
  cr_new_token_ids : list (list Z);
  cr_new_block_ids : list (option (list (list Z)));
  cr_num_computed_tokens : list Z
}.

Definition cr_num_reqs (c : CachedRequestData) : Z := zlen (cr_req_ids c).
Definition make_empty : CachedRequestData := mkCached [] [] [] [] [].

Record SchedulerOutput := mkOutput {
  so_new_reqs : list NewRequestData;
  so_cached_reqs : CachedRequestData;
  so_num_scheduled_tokens : list (string * Z);
  so_total_num_scheduled_tokens : Z;
  so_spec_decode_tokens : gmap string (list Z);
  so_encoder_inputs : gmap string (list Z);
  so_num_common_prefix_blocks : list Z;
  so_finished_req_ids : gset string;
  so_free_encoder_mm_hashes : list string;
  so_structured_output_request_ids : gmap string Z
}.

(** ** Interfaces *)

(** The scheduler side of a KV connector (KVConnectorBase_V1) with state [C]:
    the operations the scheduler calls, each of which may raise. A count of
    [None] says that the match is not known yet. *)
Record KVConnectorOutput := mkConnOutput { finished_sending : list string; finished_recving : list string }.

Class KVConnector (C : Type) := {
  ConnMeta : Type;
  get_num_new_matched_tokens : Request -> Z -> C -> result (option Z * bool * C);
  update_state_after_alloc : Request -> KVCacheBlocks -> Z -> C -> result C;
  build_connector_meta : SchedulerOutput -> C -> result (ConnMeta * C);
  request_finished : Request -> list Z -> C -> result (bool * pyval * C);
  conn_take_events : C -> list KVCacheEvent * C;
  update_connector_output : KVConnectorOutput -> C -> result C
}.

(** The structured output manager with state [G]: whether a request's grammar
    is compiled, whether its state machine is to be advanced, and the
    advance and validation of tokens. *)
Class StructuredOutput (G : Type) := {
  grammar_ready : Request -> G -> bool;
  should_advance : Request -> G -> bool * G;
  accept_tokens : string -> list Z -> G -> result G;
  validate_tokens : string -> list Z -> G -> result (list Z);
  compute_bitmask : gmap string Z -> gmap string (list Z) -> G -> result G
}.

(** ** State *)

Section State.
Context {C G : Type}.

Record Scheduler := mkSched {
  sched_store : store;
  requests : gmap string nat;
  waiting : RequestQueue;
  running : list nat;
  pinned_requests : list (nat * Qc);
  job_tool_history : gmap pyval (list Qc);
  finished_req_ids : gset string;
  finished_req_ids_dict : option (list (Z * gset string));
  finished_recving_kv_req_ids : gset string;
  encoder_cache_manager : EncoderCacheManager;
  kv_cache_manager : KVCacheManager;
  connector : option C;
  structured_output_manager : G
}.

Definition set_sched_store (x : store) (s : Scheduler) : Scheduler :=
  mkSched x (requests s) (waiting s) (running s) (pinned_requests s) (job_tool_history s) (finished_req_ids s) (finished_req_ids_dict s) (finished_recving_kv_req_ids s) (encoder_cache_manager s) (kv_cache_manager s) (connector s) (structured_output_manager s).
Definition set_requests (x : gmap string nat) (s : Scheduler) : Scheduler :=
  mkSched (sched_store s) x (waiting s) (running s) (pinned_requests s) (job_tool_history s) (finished_req_ids s) (finished_req_ids_dict s) (finished_recving_kv_req_ids s) (encoder_cache_manager s) (kv_cache_manager s) (connector s) (structured_output_manager s).
Definition set_waiting (x : RequestQueue) (s : Scheduler) : Scheduler :=
  mkSched (sched_store s) (requests s) x (running s) (pinned_requests s) (job_tool_history s) (finished_req_ids s) (finished_req_ids_dict s) (finished_recving_kv_req_ids s) (encoder_cache_manager s) (kv_cache_manager s) (connector s) (structured_output_manager s).
Definition set_running (x : list nat) (s : Scheduler) : Scheduler :=
  mkSched (sched_store s) (requests s) (waiting s) x (pinned_requests s) (job_tool_history s) (finished_req_ids s) (finished_req_ids_dict s) (finished_recving_kv_req_ids s) (encoder_cache_manager s) (kv_cache_manager s) (connector s) (structured_output_manager s).
Definition set_pinned_requests (x : list (nat * Qc)) (s : Scheduler) : Scheduler :=
  mkSched (sched_store s) (requests s) (waiting s) (running s) x (job_tool_history s) (finished_req_ids s) (finished_req_ids_dict s) (finished_recving_kv_req_ids s) (encoder_cache_manager s) (kv_cache_manager s) (connector s) (structured_output_manager s).
Definition set_job_tool_history (x : gmap pyval (list Qc)) (s : Scheduler) : Scheduler :=
  mkSched (sched_store s) (requests s) (waiting s) (running s) (pinned_requests s) x (finished_req_ids s) (finished_req_ids_dict s) (finished_recving_kv_req_ids s) (encoder_cache_manager s) (kv_cache_manager s) (connector s) (structured_output_manager s).
Definition set_finished_req_ids (x : gset string) (s : Scheduler) : Scheduler :=
  mkSched (sched_store s) (requests s) (waiting s) (running s) (pinned_requests s) (job_tool_history s) x (finished_req_ids_dict s) (finished_recving_kv_req_ids s) (encoder_cache_manager s) (kv_cache_manager s) (connector s) (structured_output_manager s).
Definition set_finished_req_ids_dict (x : option (list (Z * gset string))) (s : Scheduler) : Scheduler :=
  mkSched (sched_store s) (requests s) (waiting s) (running s) (pinned_requests s) (job_tool_history s) (finished_req_ids s) x (finished_recving_kv_req_ids s) (encoder_cache_manager s) (kv_cache_manager s) (connector s) (structured_output_manager s).
Definition set_finished_recving_kv_req_ids (x : gset string) (s : Scheduler) : Scheduler :=
  mkSched (sched_store s) (requests s) (waiting s) (running s) (pinned_requests s) (job_tool_history s) (finished_req_ids s) (finished_req_ids_dict s) x (encoder_cache_manager s) (kv_cache_manager s) (connector s) (structured_output_manager s).
Definition set_encoder_cache_manager (x : EncoderCacheManager) (s : Scheduler) : Scheduler :=
  mkSched (sched_store s) (requests s) (waiting s) (running s) (pinned_requests s) (job_tool_history s) (finished_req_ids s) (finished_req_ids_dict s) (finished_recving_kv_req_ids s) x (kv_cache_manager s) (connector s) (structured_output_manager s).
Definition set_kv_cache_manager (x : KVCacheManager) (s : Scheduler) : Scheduler :=
  mkSched (sched_store s) (requests s) (waiting s) (running s) (pinned_requests s) (job_tool_history s) (finished_req_ids s) (finished_req_ids_dict s) (finished_recving_kv_req_ids s) (encoder_cache_manager s) x (connector s) (structured_output_manager s).
Definition set_connector (x : option C) (s : Scheduler) : Scheduler :=
  mkSched (sched_store s) (requests s) (waiting s) (running s) (pinned_requests s) (job_tool_history s) (finished_req_ids s) (finished_req_ids_dict s) (finished_recving_kv_req_ids s) (encoder_cache_manager s) (kv_cache_manager s) x (structured_output_manager s).
Definition set_structured_output_manager (x : G) (s : Scheduler) : Scheduler :=
  mkSched (sched_store s) (requests s) (waiting s) (running s) (pinned_requests s) (job_tool_history s) (finished_req_ids s) (finished_req_ids_dict s) (finished_recving_kv_req_ids s) (encoder_cache_manager s) (kv_cache_manager s) (connector s) x.

(** Reading and writing the attributes of a request object. *)
Definition get_req (o : nat) (s : Scheduler) : result Request := get_or AttributeError (sched_store s !! o).

Definition upd_req (o : nat) (f : Request -> Request) (s : Scheduler) : Scheduler :=
  set_sched_store (alter f o (sched_store s)) s.

(** A dict of requests read by request id. *)
Definition lookup_req (rid : string) (s : Scheduler) : option nat := requests s !! rid.
End State.
Arguments Scheduler : clear implicits.
