(* ===== verification/Scheduler.v ===== *)
(** The scheduling step of src/vllm/v1/core/sched/scheduler.py: [schedule] with
    its two loops (running requests with preemption, waiting requests with
    admission), the encoder input reservation, the output construction and the
    state update after a step. *)
From Stdlib Require Import ZArith Lia Ascii String QArith Qcanon.
From stdpp Require Import numbers gmap strings list.
From S2P Require Import Prelude FreeQueue Request BlockPool KVCacheManager EncoderCache RequestQueue SchedState.

Open Scope Z_scope.

(** ** Encoder inputs *)

(** The loop of [_try_schedule_encoder_inputs] over [enumerate(mm_positions)].
    Local state: the inputs chosen, the token count, the compute budget, the
    hashes chosen in this step and their total size. *)
Fixpoint encoder_inputs_loop (cfg : SchedConfig) (r : Request) (num_computed : Z) (l : list PlaceholderRange) (i : Z)
  (chosen : list Z) (num_new budget : Z) (hashes : gset string) (to_schedule : Z) (e : EncoderCacheManager)
  : result (list Z * Z * Z * EncoderCacheManager) :=
  match l with
  | [] => Ok (chosen, num_new, budget, e)
  | pos :: l =>
      let start_pos := pr_offset pos in
      let n := pr_length pos in
      let next := encoder_inputs_loop cfg r num_computed l (i + 1) in
      if num_computed + num_new <=? start_pos then Ok (chosen, num_new, budget, e) else
      if is_encoder_decoder cfg && (0 <? num_computed) then
        _ ← assert_ (start_pos =? 0);
        next chosen num_new budget hashes to_schedule e
      else if start_pos + n <=? num_computed then next chosen num_new budget hashes to_schedule e else
      mm_hash ← pyindex (mm_hashes r) i;
      '(skip, e) ←
        (if is_encoder_decoder cfg then Ok (false, e)
         else if decide (mm_hash ∈ hashes) then Ok (true, e)
         else check_and_update_cache r i e);
      if (skip : bool) then next chosen num_new budget hashes to_schedule e else
      if chunked_mm_disabled cfg && (num_computed <? start_pos) && (num_computed + num_new <? start_pos + n)
      then Ok (chosen, start_pos - num_computed, budget, e) else
      '(ok, e) ← can_allocate r i budget to_schedule e;
      if negb ok then Ok (chosen, if num_computed <? start_pos then start_pos - num_computed else 0, budget, e)
      else next (chosen ++ [i]) num_new (budget - n) ({[ mm_hash ]} ∪ hashes) (to_schedule + n) e
  end.

Definition try_schedule_encoder_inputs (cfg : SchedConfig) (r : Request) (num_computed num_new budget : Z)
  (e : EncoderCacheManager) : result (list Z * Z * Z * EncoderCacheManager) :=
  if (num_new =? 0) || negb (has_encoder_inputs r) then Ok ([], num_new, budget, e) else
  _ ← assert_ (0 <? zlen (mm_positions r));
  encoder_inputs_loop cfg r num_computed (mm_positions r) 0 [] num_new budget ∅ 0 e.

(** ** The local state of a step *)

Record Step := mkStep {
  scheduled_new_reqs : list nat;
  scheduled_resumed_reqs : list nat;
  scheduled_running_reqs : list nat;
  preempted_reqs : list nat;
  req_to_new_blocks : gmap string KVCacheBlocks;
  num_scheduled_tokens : list (string * Z);
  token_budget : Z;
  scheduled_encoder_inputs : gmap string (list Z);
  encoder_compute_budget : Z;
  scheduled_spec_decode_tokens : gmap string (list Z);
  scheduled_loras : gset Z;
  skipped_waiting_requests : RequestQueue
}.

Definition step_init (cfg : SchedConfig) : Step :=
  mkStep [] [] [] [] ∅ [] (max_num_scheduled_tokens cfg) ∅ (max_encoder_input_tokens cfg) ∅ ∅
    (create_request_queue (policy cfg)).

Definition set_preempted (o : nat) (sched : list nat) (a : Step) : Step :=
  mkStep (scheduled_new_reqs a) (scheduled_resumed_reqs a) sched (preempted_reqs a ++ [o])
    (req_to_new_blocks a) (num_scheduled_tokens a) (token_budget a) (scheduled_encoder_inputs a)
    (encoder_compute_budget a) (scheduled_spec_decode_tokens a) (scheduled_loras a) (skipped_waiting_requests a).
Definition set_loras (x : gset Z) (a : Step) : Step :=
  mkStep (scheduled_new_reqs a) (scheduled_resumed_reqs a) (scheduled_running_reqs a) (preempted_reqs a)
    (req_to_new_blocks a) (num_scheduled_tokens a) (token_budget a) (scheduled_encoder_inputs a)
    (encoder_compute_budget a) (scheduled_spec_decode_tokens a) x (skipped_waiting_requests a).
Definition set_skipped (x : RequestQueue) (a : Step) : Step :=
  mkStep (scheduled_new_reqs a) (scheduled_resumed_reqs a) (scheduled_running_reqs a) (preempted_reqs a)
    (req_to_new_blocks a) (num_scheduled_tokens a) (token_budget a) (scheduled_encoder_inputs a)
    (encoder_compute_budget a) (scheduled_spec_decode_tokens a) (scheduled_loras a) x.

(** Records an allocation: blocks, token count, encoder inputs; an empty list
    of encoder inputs leaves the encoder budget as it is. *)
Definition set_scheduled (new resumed run : list nat) (rid : string) (blocks : KVCacheBlocks) (n : Z)
  (enc : list Z) (enc_budget : Z) (a : Step) : Step :=
  mkStep new resumed run (preempted_reqs a) (<[rid := blocks]> (req_to_new_blocks a))
    (dset rid n (num_scheduled_tokens a)) (token_budget a - n)
    (if decide (enc = []) then scheduled_encoder_inputs a else <[rid := enc]> (scheduled_encoder_inputs a))
    (if decide (enc = []) then encoder_compute_budget a else enc_budget)
    (scheduled_spec_decode_tokens a) (scheduled_loras a) (skipped_waiting_requests a).
Definition set_spec (rid : string) (toks : list Z) (a : Step) : Step :=
  mkStep (scheduled_new_reqs a) (scheduled_resumed_reqs a) (scheduled_running_reqs a) (preempted_reqs a)
    (req_to_new_blocks a) (num_scheduled_tokens a) (token_budget a) (scheduled_encoder_inputs a)
    (encoder_compute_budget a) (<[rid := toks]> (scheduled_spec_decode_tokens a)) (scheduled_loras a)
    (skipped_waiting_requests a).

(** [0 < threshold < n]. *)
Definition cap_prefill (cfg : SchedConfig) (n : Z) : Z :=
  if (0 <? long_prefill_token_threshold cfg) && (long_prefill_token_threshold cfg <? n)
  then long_prefill_token_threshold cfg else n.

Section Schedule.
Context {C G : Type} `{!KVConnector C, !StructuredOutput G}.
Context (cfg : SchedConfig).

Abbreviation Sched := (Scheduler C G).

(** ** Running requests *)

Definition running_new_tokens (r : Request) (budget : Z) : Z :=
  let n := num_tokens_with_spec r + num_output_placeholders r - num_computed_tokens r in
  let n := Z.min (cap_prefill cfg n) budget in
  Z.min n (max_model_len cfg - 1 - num_computed_tokens r).

(** [max(self.running, key=...)]: the first request with the largest
    (priority, arrival time). *)
Definition later (x y : entry) : bool :=
  (e_prio y <? e_prio x) || ((e_prio y =? e_prio x) && bool_decide (e_time y < e_time x)%Qc).

Definition pick_victim (s : Sched) : result nat :=
  es ← mapM_res (entry_of (sched_store s)) (running s);
  match es with
  | [] => Err ValueError
  | e :: es => Ok (e_obj (foldl (fun best x => if later x best then x else best) e es))
  end.

(** The request to preempt and the running and scheduled lists without it. *)
Definition take_victim (sched : list nat) (s : Sched) : result (nat * list nat * list nat) :=
  match policy cfg with
  | PRIORITY =>
      v ← pick_victim s;
      Ok (v, remove_first v (running s), if decide (v ∈ sched) then remove_first v sched else sched)
  | _ =>
      v ← get_or IndexError (last (running s));
      Ok (v, take (length (running s) - 1) (running s), sched)
  end.

Definition preempt_one (ts : Qc) (a : Step) (s : Sched) : result (nat * Step * Sched) :=
  out ← take_victim (scheduled_running_reqs a) s;
  let '(v, run, sched) := (out : nat * list nat * list nat) in
  r ← get_req v s;
  k ← kvm_free r (kv_cache_manager s);
  e ← enc_free r (encoder_cache_manager s);
  let s := set_encoder_cache_manager e (set_kv_cache_manager k (set_running run s)) in
  let s := upd_req v (fun r => let r := set_num_computed_tokens 0 (set_status PREEMPTED r) in
                               if log_stats cfg then record_event EV_PREEMPTED ts r else r) s in
  w ← prepend_request (sched_store s) v (waiting s);
  Ok (v, set_preempted v sched a, set_waiting w s).

(** The [while True] loop around [allocate_slots]; [None] when the request
    itself had to be preempted. *)
Fixpoint alloc_loop (fuel : nat) (ts : Qc) (o : nat) (n : Z) (a : Step) (s : Sched)
  : result (option KVCacheBlocks * Step * Sched) :=
  match fuel with
  | O => Err OutOfFuel
  | S fuel =>
      r ← get_req o s;
      '(nb, k) ← allocate_slots r n 0 None (num_lookahead_tokens cfg) false 0 (kv_cache_manager s);
      let s := set_kv_cache_manager k s in
      match nb with
      | Some b => Ok (Some b, a, s)
      | None =>
          out ← preempt_one ts a s;
          let '(v, a, s) := (out : nat * Step * Sched) in
          if decide (v = o) then Ok (None, a, s) else alloc_loop fuel ts o n a s
      end
  end.

(** Speculative tokens beyond the scheduled ones are dropped from the request. *)
Definition schedule_spec (o : nat) (r : Request) (n : Z) (a : Step) (s : Sched) : Step * Sched :=
  if decide (spec_token_ids r = []) then (a, s) else
  let k := n + num_computed_tokens r - num_tokens r in
  if 0 <? k then
    let toks := pytake k (spec_token_ids r) in
    (set_spec (request_id r) toks a, upd_req o (set_spec_token_ids toks) s)
  else (a, s).

Definition encoder_allocate (r : Request) (inputs : list Z) (s : Sched) : result Sched :=
  e ← foldM (fun e i => allocate r i e) (encoder_cache_manager s) inputs;
  Ok (set_encoder_cache_manager e s).

(** One iteration of the running loop: the next index, or [None] to stop. *)
Definition running_step (ts : Qc) (idx : nat) (a : Step) (s : Sched) : result (option nat * Step * Sched) :=
  o ← get_or IndexError (running s !! idx);
  r ← get_req o s;
  let n := running_new_tokens r (token_budget a) in
  out ← (if has_encoder_inputs r
         then try_schedule_encoder_inputs cfg r (num_computed_tokens r) n (encoder_compute_budget a) (encoder_cache_manager s)
         else Ok ([], n, encoder_compute_budget a, encoder_cache_manager s));
  let '(inputs, n, enc_budget, e) := (out : list Z * Z * Z * EncoderCacheManager) in
  let s := set_encoder_cache_manager e s in
  if n =? 0 then Ok (Some (S idx), a, s) else
  out ← alloc_loop (S (length (running s))) ts o n a s;
  let '(nb, a, s) := (out : option KVCacheBlocks * Step * Sched) in
  match nb with
  | None => Ok (None, a, s)
  | Some b =>
      let a := set_scheduled (scheduled_new_reqs a) (scheduled_resumed_reqs a) (scheduled_running_reqs a ++ [o])
                 (request_id r) b n inputs enc_budget a in
      let '(a, s) := schedule_spec o r n a s in
      s ← encoder_allocate r inputs s;
      Ok (Some (S idx), a, s)
  end.

Fixpoint running_loop (fuel : nat) (ts : Qc) (idx : nat) (a : Step) (s : Sched) : result (Step * Sched) :=
  if negb ((idx <? length (running s))%nat && (0 <? token_budget a)) then Ok (a, s) else
  match fuel with
  | O => Err OutOfFuel
  | S fuel =>
      out ← running_step ts idx a s;
      let '(next, a, s) := (out : option nat * Step * Sched) in
      match next with
      | Some idx => running_loop fuel ts idx a s
      | None => Ok (a, s)
      end
  end.

(** The LoRA ids of the scheduled running requests. *)
Definition record_loras (a : Step) (s : Sched) : result Step :=
  match max_loras cfg with
  | None => Ok a
  | Some m =>
      rs ← mapM_res (fun o => get_req o s) (scheduled_running_reqs a);
      let ids := omap (fun r => match lora_request r with
                                | Some l => if 0 <? lora_int_id l then Some (lora_int_id l) else None
                                | None => None end) rs in
      let loras : gset Z := list_to_set ids in
      _ ← assert_ (Z.of_nat (size loras) <=? m);
      Ok (set_loras loras a)
  end.

(** ** Waiting requests *)

(** [_update_waiting_for_remote_kv]. *)
Definition update_waiting_for_remote_kv (o : nat) (s : Sched) : result (bool * Sched) :=
  _ ← assert_ (bool_decide (is_Some (connector s)));
  r ← get_req o s;
  if decide (request_id r ∉ finished_recving_kv_req_ids s) then Ok (false, s) else
  ids ← kvm_get_block_ids (request_id r) (kv_cache_manager s);
  block_ids ← (match ids with Some [ids] => Ok ids | _ => Err ValueError end);
  let n := Z.min (zlen block_ids * sched_block_size cfg) (num_tokens r) in
  let n := if n =? num_tokens r then n - 1 else n in
  k ← kvm_cache_blocks r n (kv_cache_manager s);
  let s := upd_req o (set_num_computed_tokens n) (set_kv_cache_manager k s) in
  Ok (true, set_finished_recving_kv_req_ids (finished_recving_kv_req_ids s ∖ {[ request_id r ]}) s).

(** The tests before any work is done: remote KVs, grammar compilation, LoRA
    slots. [false] means that the request is skipped in this step. *)
Definition waiting_ready (o : nat) (a : Step) (s : Sched) : result (bool * Sched) :=
  r ← get_req o s;
  '(ready, s) ←
    (if decide (status r = WAITING_FOR_REMOTE_KVS) then
       '(ok, s) ← update_waiting_for_remote_kv o s;
       Ok (ok, if (ok : bool) then upd_req o (set_status WAITING) s else s)
     else Ok (true, s));
  if negb ready then Ok (false, s) else
  r ← get_req o s;
  let '(ready, s) :=
    (if decide (status r = WAITING_FOR_FSM) then
       if grammar_ready r (structured_output_manager s) then (true, upd_req o (set_status WAITING) s)
       else (false, s)
     else (true, s)) in
  if negb ready then Ok (false, s) else
  match max_loras cfg, lora_request r with
  | Some m, Some l =>
      if (Z.of_nat (size (scheduled_loras a)) =? m) && bool_decide (lora_int_id l ∉ scheduled_loras a)
      then Ok (false, s) else Ok (true, s)
  | _, _ => Ok (true, s)
  end.

(** The tokens a waiting request already has: local hits, external hits and
    whether the external ones load asynchronously. [None] skips the request. *)
Record Computed := mkComputed {
  c_blocks : KVCacheBlocks;
  c_local : Z;
  c_external : Z;
  c_total : Z;
  c_async : bool
}.

Definition waiting_computed (r : Request) (s : Sched) : result (option Computed * Sched) :=
  if num_computed_tokens r =? 0 then
    out ← get_computed_blocks r (kv_cache_manager s);
    let '(blocks, local, k) := (out : KVCacheBlocks * Z * KVCacheManager) in
    let s := set_kv_cache_manager k s in
    match connector s with
    | None => Ok (Some (mkComputed blocks local 0 local false), s)
    | Some c =>
        out ← get_num_new_matched_tokens r local c;
        let '(ext, load_async, c) := (out : option Z * bool * C) in
        let s := set_connector (Some c) s in
        match ext with
        | None => Ok (None, s)
        | Some ext => Ok (Some (mkComputed blocks local ext (local + ext) load_async), s)
        end
    end
  else Ok (Some (mkComputed (create_empty_block_list (kv_cache_manager s)) 0 0 (num_computed_tokens r) false), s).

(** How many tokens to schedule: skip, stop the loop, or a count with the
    encoder inputs to run. *)
Inductive WaitTokens :=
| WTSkip
| WTStop
| WTGo (n : Z) (inputs : list Z) (enc_budget : Z).

Definition waiting_tokens (r : Request) (c : Computed) (a : Step) (s : Sched) : result (WaitTokens * Sched) :=
  if c_async c then
    _ ← assert_ (0 <? c_external c);
    Ok (WTGo 0 [] (encoder_compute_budget a), s)
  else
    let n := cap_prefill cfg (num_tokens r - c_total c) in
    if negb (chunked_prefill_enabled cfg) && (token_budget a <? n) then Ok (WTSkip, s) else
    let n := Z.min n (token_budget a) in
    _ ← assert_ (0 <? n);
    if has_encoder_inputs r then
      out ← try_schedule_encoder_inputs cfg r (c_total c) n (encoder_compute_budget a) (encoder_cache_manager s);
      let '(inputs, n, enc_budget, e) := (out : list Z * Z * Z * EncoderCacheManager) in
      let s := set_encoder_cache_manager e s in
      if n =? 0 then Ok (WTStop, s) else Ok (WTGo n inputs enc_budget, s)
    else Ok (WTGo n [] (encoder_compute_budget a), s).

Definition waiting_encoder_tokens (r : Request) : result Z :=
  if is_encoder_decoder cfg && has_encoder_inputs r then
    _ ← assert_ (is_whisper cfg); Ok (encdec_len cfg)
  else Ok 0.

(** The slots of an admitted request, and the connector told about them. *)
Definition waiting_alloc (r : Request) (c : Computed) (n : Z) (s : Sched) : result (option KVCacheBlocks * Sched) :=
  let lookahead := if num_computed_tokens r =? 0 then 0 else num_lookahead_tokens cfg in
  enc ← waiting_encoder_tokens r;
  '(nb, k) ← allocate_slots r (n + c_external c) (c_local c) (Some (c_blocks c)) lookahead (c_async c) enc (kv_cache_manager s);
  let s := set_kv_cache_manager k s in
  match nb, connector s with
  | Some b, Some conn =>
      conn ← update_state_after_alloc r (blocks_add (c_blocks c) b) (c_external c) conn;
      Ok (Some b, set_connector (Some conn) s)
  | _, _ => Ok (nb, s)
  end.

(** Moves the admitted request to the running list. *)
Definition waiting_commit (ts : Qc) (o : nat) (c : Computed) (n : Z) (inputs : list Z) (enc_budget : Z)
  (a : Step) (s : Sched) : result (Step * Sched) :=
  let s := set_running (running s ++ [o]) s in
  let s := if log_stats cfg then upd_req o (record_event SCHEDULED ts) s else s in
  r ← get_req o s;
  '(new, resumed) ←
    (match status r with
     | WAITING => Ok (scheduled_new_reqs a ++ [o], scheduled_resumed_reqs a)
     | PREEMPTED => Ok (scheduled_new_reqs a, scheduled_resumed_reqs a ++ [o])
     | _ => Err RuntimeError
     end);
  let a := match max_loras cfg, lora_request r with
           | Some _, Some l => set_loras ({[ lora_int_id l ]} ∪ scheduled_loras a) a
           | _, _ => a
           end in
  let a := set_scheduled new resumed (scheduled_running_reqs a) (request_id r)
             (kvm_get_blocks (request_id r) (kv_cache_manager s)) n inputs enc_budget a in
  let s := upd_req o (fun r =>
             let r := set_num_computed_tokens (c_total c) (set_status RUNNING r) in
             if num_cached_tokens r <? 0 then set_num_cached_tokens (c_total c) r else r) s in
  s ← encoder_allocate r inputs s;
  Ok (a, s).

(** [self.waiting.pop_request(); skipped_waiting_requests.prepend_request(r)]. *)
Definition skip_waiting (o : nat) (a : Step) (s : Sched) : result (Step * Sched) :=
  '(_, w) ← pop_request (waiting s);
  sk ← prepend_request (sched_store s) o (skipped_waiting_requests a);
  Ok (set_skipped sk a, set_waiting w s).

(** One iteration of the waiting loop; [false] stops the loop. *)
Definition waiting_step (ts : Qc) (a : Step) (s : Sched) : result (bool * Step * Sched) :=
  o ← peek_request (waiting s);
  '(ready, s) ← waiting_ready o a s;
  if negb ready then '(a, s) ← skip_waiting o a s; Ok (true, a, s) else
  r ← get_req o s;
  '(oc, s) ← waiting_computed r s;
  match oc with
  | None => '(a, s) ← skip_waiting o a s; Ok (true, a, s)
  | Some c =>
      '(wt, s) ← waiting_tokens r c a s;
      match wt with
      | WTSkip => '(a, s) ← skip_waiting o a s; Ok (true, a, s)
      | WTStop => Ok (false, a, s)
      | WTGo n inputs enc_budget =>
          '(nb, s) ← waiting_alloc r c n s;
          match nb with
          | None => Ok (false, a, s)
          | Some _ =>
              '(o', w) ← pop_request (waiting s);
              let s := set_waiting w s in
              if c_async c then
                sk ← prepend_request (sched_store s) o' (skipped_waiting_requests a);
                Ok (true, set_skipped sk a, upd_req o' (set_status WAITING_FOR_REMOTE_KVS) s)
              else
                '(a, s) ← waiting_commit ts o' c n inputs enc_budget a s;
                Ok (true, a, s)
          end
      end
  end.

Fixpoint waiting_loop (fuel : nat) (ts : Qc) (a : Step) (s : Sched) : result (Step * Sched) :=
  if negb (queue_bool (waiting s) && (0 <? token_budget a)) then Ok (a, s) else
  if zlen (running s) =? max_num_running_reqs cfg then Ok (a, s) else
  match fuel with
  | O => Err OutOfFuel
  | S fuel =>
      out ← waiting_step ts a s;
      let '(go, a, s) := (out : bool * Step * Sched) in
      if go then waiting_loop fuel ts a s else Ok (a, s)
  end.

(** Both loops, and the skipped requests put back at the head. *)
Definition schedule_loops (ts : Qc) (s : Sched) : result (Step * Sched) :=
  '(a, s) ← running_loop (S (length (running s))) ts 0 (step_init cfg) s;
  a ← record_loras a s;
  '(a, s) ← (if decide (preempted_reqs a = []) then waiting_loop (S (Z.to_nat (queue_len (waiting s)))) ts a s else Ok (a, s));
  if queue_bool (skipped_waiting_requests a) then
    w ← prepend_requests (sched_store s) (skipped_waiting_requests a) (waiting s);
    Ok (a, set_waiting w s)
  else Ok (a, s).

(** ** Output *)

(** The assertions after the loops. *)
Definition check_constraints (a : Step) (s : Sched) : result Z :=
  let total := sum_values (num_scheduled_tokens a) in
  _ ← assert_ (total <=? max_num_scheduled_tokens cfg);
  _ ← assert_ (0 <=? token_budget a);
  _ ← assert_ (zlen (running s) <=? max_num_running_reqs cfg);
  _ ← assert_ (zlen (scheduled_new_reqs a) + zlen (scheduled_resumed_reqs a) + zlen (scheduled_running_reqs a)
               <=? zlen (running s));
  Ok total.

Definition common_prefix (s : Sched) : result (list Z) :=
  match running s with
  | [] => Ok (replicate (Z.to_nat (num_groups cfg)) 0)
  | o :: _ => r ← get_req o s; kvm_num_common_prefix r (zlen (running s)) (kv_cache_manager s)
  end.

Definition block_ids_of (allow_none : bool) (rid : string) (a : Step) (s : Sched) : result (option (list (list Z))) :=
  b ← get_or KeyError (req_to_new_blocks a !! rid);
  get_block_ids (kvm_pool (kv_cache_manager s)) allow_none b.

Definition make_new_request_data (a : Step) (s : Sched) : result (list NewRequestData) :=
  mapM_res (fun o =>
    r ← get_req o s;
    ids ← block_ids_of false (request_id r) a s;
    ids ← get_or AssertionError ids;
    Ok (from_request r ids)) (scheduled_new_reqs a).

(** [_make_cached_request_data]. *)
Definition cached_entry (a : Step) (s : Sched) (d : CachedRequestData) (o : nat) : result CachedRequestData :=
  r ← get_req o s;
  let rid := request_id r in
  n ← get_or KeyError (dget rid (num_scheduled_tokens a));
  let n := n - zlen (default [] (scheduled_spec_decode_tokens a !! rid)) in
  let toks := if use_pp cfg then [pyslice (num_computed_tokens r) (num_computed_tokens r + n) (all_token_ids r)]
              else if decide (is_Some (connector s)) then [[]] else [] in
  ids ← block_ids_of true rid a s;
  Ok (mkCached (cr_req_ids d ++ [rid]) (cr_resumed_from_preemption d) (cr_new_token_ids d ++ toks)
        (cr_new_block_ids d ++ [ids]) (cr_num_computed_tokens d ++ [num_computed_tokens r])).

Definition make_cached_request_data (a : Step) (s : Sched) : result CachedRequestData :=
  d ← foldM (cached_entry a s) make_empty (scheduled_running_reqs a ++ scheduled_resumed_reqs a);
  Ok (mkCached (cr_req_ids d)
        (replicate (length (scheduled_running_reqs a)) false ++ replicate (length (scheduled_resumed_reqs a)) true)
        (cr_new_token_ids d) (cr_new_block_ids d) (cr_num_computed_tokens d)).

(** [get_grammar_bitmask]: the batch index of each request that uses
    structured output; the mask itself is left to the manager. *)
Fixpoint structured_ids (i : Z) (l : list nat) (s : Sched) (acc : gmap string Z) : result (gmap string Z) :=
  match l with
  | [] => Ok acc
  | o :: l =>
      r ← get_req o s;
      structured_ids (i + 1) l s (if use_structured_output r then <[request_id r := i]> acc else acc)
  end.

Definition get_grammar_bitmask (a : Step) (s : Sched) : result (gmap string Z * Sched) :=
  ids ← structured_ids 0 (running s) s ∅;
  if decide (ids = ∅) then Ok (ids, s) else
  g ← compute_bitmask ids (scheduled_spec_decode_tokens a) (structured_output_manager s);
  Ok (ids, set_structured_output_manager g s).

Definition make_output (total : Z) (a : Step) (s : Sched) : result (SchedulerOutput * Sched) :=
  prefix ← common_prefix s;
  new ← make_new_request_data a s;
  cached ← make_cached_request_data a s;
  '(so_ids, s) ← get_grammar_bitmask a s;
  let '(freed, e) := get_freed_mm_hashes (encoder_cache_manager s) in
  Ok (mkOutput new cached (num_scheduled_tokens a) total (scheduled_spec_decode_tokens a)
        (scheduled_encoder_inputs a) prefix (finished_req_ids s) freed so_ids,
      set_encoder_cache_manager e s).

(** Connector metadata, and the KV cache events of the manager and of the
    connector, which are published as one batch. *)
Definition collect_events (out : SchedulerOutput) (s : Sched) : result (option ConnMeta * list KVCacheEvent * Sched) :=
  '(meta, s) ←
    (match connector s with
     | None => Ok (None, s)
     | Some c => '(m, c) ← build_connector_meta out c; Ok (Some m, set_connector (Some c) s)
     end);
  let '(events, k) := kvm_take_events (kv_cache_manager s) in
  let s := set_kv_cache_manager k s in
  match connector s with
  | None => Ok (meta, events, s)
  | Some c => let '(ce, c) := conn_take_events c in Ok (meta, events ++ ce, set_connector (Some c) s)
  end.

(** ** After the step *)

(** [_free_encoder_inputs]. *)
Definition free_encoder_inputs (o : nat) (s : Sched) : result Sched :=
  r ← get_req o s;
  e ← foldM (fun e i =>
        pos ← pyindex (mm_positions r) i;
        if (is_encoder_decoder cfg && (0 <? num_computed_tokens r))
           || (pr_offset pos + pr_length pos <=? num_computed_tokens r)
        then free_encoder_input r i e else Ok e)
      (encoder_cache_manager s) (get_cached_input_ids r (encoder_cache_manager s));
  Ok (set_encoder_cache_manager e s).

Definition advance_request (s : Sched) (kv : string * Z) : result Sched :=
  o ← get_or KeyError (requests s !! kv.1);
  let s := upd_req o (fun r => set_num_computed_tokens (num_computed_tokens r + kv.2) r) s in
  r ← get_req o s;
  if has_encoder_inputs r then free_encoder_inputs o s else Ok s.

(** AsyncScheduler: a request whose tokens are all scheduled will produce a
    token in this step. *)
Definition add_placeholder (s : Sched) (kv : string * Z) : result Sched :=
  o ← get_or KeyError (requests s !! kv.1);
  r ← get_req o s;
  if num_computed_tokens r =? num_tokens r + num_output_placeholders r
  then Ok (upd_req o (set_num_output_placeholders (num_output_placeholders r + 1)) s) else Ok s.

Definition update_after_schedule (out : SchedulerOutput) (s : Sched) : result Sched :=
  s ← foldM advance_request s (so_num_scheduled_tokens out);
  let s := set_finished_req_ids ∅ s in
  if async_scheduling cfg then foldM add_placeholder s (so_num_scheduled_tokens out) else Ok s.

(** ** Pinned requests *)

(** [_free_blocks]. *)
Definition free_blocks_of (o : nat) (s : Sched) : result Sched :=
  r ← get_req o s;
  _ ← assert_ (is_finished r);
  k ← kvm_free r (kv_cache_manager s);
  let s := set_kv_cache_manager k s in
  _ ← get_or KeyError (requests s !! request_id r);
  Ok (set_requests (delete (request_id r) (requests s)) s).

(** [_mimir_expire_pins]; [now] is [time.time()]. *)
Definition expire_one (now : Qc) (acc : list (nat * Qc) * Sched) (p : nat * Qc) : result (list (nat * Qc) * Sched) :=
  let '(still, s) := acc in
  if decide (p.2 <= now)%Qc then
    r ← get_req p.1 s;
    if decide (is_Some (requests s !! request_id r)) then s ← free_blocks_of p.1 s; Ok (still, s)
    else Ok (still, s)
  else Ok (still ++ [p], s).

Definition mimir_expire_pins (now : Qc) (s : Sched) : result Sched :=
  '(still, s) ← foldM (expire_one now) ([], s) (pinned_requests s);
  Ok (set_pinned_requests still s).

(** ** The step *)

(** [schedule]; [now] is [time.time()], [ts] is [time.monotonic()]. Returns
    what is sent to the workers and the published KV cache events. *)
Definition schedule (now ts : Qc) (s : Sched)
  : result (SchedulerOutput * option ConnMeta * list KVCacheEvent * Sched) :=
  s ← (if decide (policy cfg = MIMIR) then mimir_expire_pins now s else Ok s);
  '(a, s) ← schedule_loops ts s;
  total ← check_constraints a s;
  '(out, s) ← make_output total a s;
  res ← collect_events out s;
  let '(meta, events, s) := (res : option ConnMeta * list KVCacheEvent * Sched) in
  s ← update_after_schedule out s;
  Ok (out, meta, events, s).
End Schedule.
