(* ===== verification/SchedulerUpdate.v ===== *)
(** The other entry points of src/vllm/v1/core/sched/scheduler.py: adding and
    finishing requests, the pin decision for agent steps, processing the model
    output (with the overrides of async_scheduler.py), draft tokens, KV
    transfer completion and statistics. *)
From Stdlib Require Import ZArith Lia Ascii String QArith Qcanon.
From stdpp Require Import numbers gmap strings list.
From S2P Require Import Prelude FreeQueue Request BlockPool KVCacheManager EncoderCache RequestQueue SchedState Scheduler.

Open Scope Z_scope.

(** ** Model output *)

(** The attributes of [ModelRunnerOutput] the scheduler reads. Tensors are
    opaque; [mo_logprobs] is whether logprobs were returned. *)
Record ModelRunnerOutput := mkModelOutput {
  req_id_to_index : gmap string Z;
  sampled_token_ids : list (list Z);
  mo_logprobs : bool;
  prompt_logprobs_dict : gmap string Z;
  pooler_outputs : list (option Z);
  mo_num_nans : option (gmap string Z);
  kv_connector_output : option KVConnectorOutput
}.

Record EngineCoreOutput := mkCoreOutput {
  eo_request_id : string;
  eo_new_token_ids : list Z;
  eo_finish_reason : option FinishReason;
  eo_new_logprobs : option (Z * Z);
  eo_prompt_logprobs : option Z;
  eo_pooling_output : option Z;
  eo_stop_reason : option Z;
  eo_events : option (list (EngineCoreEventType * Qc));
  eo_kv_transfer_params : pyval;
  eo_num_cached_tokens : Z
}.

(** ** Statistics *)

Record SpecDecodingStats := mkSpecStats {
  ss_num_spec_tokens : Z;
  num_drafts : Z;
  ss_num_draft_tokens : Z;
  ss_num_accepted_tokens : Z;
  num_accepted_tokens_per_pos : list Z
}.

Definition spec_stats_new (n : Z) : SpecDecodingStats := mkSpecStats n 0 0 0 (replicate (Z.to_nat n) 0).

(** [for i in range(n): per_pos[i] += 1]. *)
Fixpoint count_positions (n : nat) (l : list Z) : result (list Z) :=
  match n, l with
  | O, _ => Ok l
  | S _, [] => Err IndexError
  | S n, x :: l => l ← count_positions n l; Ok (x + 1 :: l)
  end.

Definition observe_draft (num_draft num_accepted : Z) (st : SpecDecodingStats) : result SpecDecodingStats :=
  _ ← assert_ (num_accepted <=? ss_num_spec_tokens st);
  pos ← count_positions (Z.to_nat num_accepted) (num_accepted_tokens_per_pos st);
  Ok (mkSpecStats (ss_num_spec_tokens st) (num_drafts st + 1) (ss_num_draft_tokens st + num_draft)
        (ss_num_accepted_tokens st + num_accepted) pos).

Record SchedulerStats := mkSchedStats {
  num_running_reqs : Z;
  num_waiting_reqs : Z;
  kv_cache_usage : Qc;
  stats_prefix_cache : PrefixCacheStats;
  stats_spec_decoding : option SpecDecodingStats;
  num_corrupted_reqs : Z
}.

Record EngineCoreOutputs := mkCoreOutputs {
  eco_outputs : list EngineCoreOutput;
  eco_finished_requests : option (gset string);
  eco_scheduler_stats : option SchedulerStats
}.

Section Update.
Context {C G : Type} `{!KVConnector C, !StructuredOutput G}.
Context (cfg : SchedConfig).
(** The hash function of the requests' blocks, and [float(s)] for strings
    ([None]: ValueError). *)
Context (block_hasher : option hasher) (float_of_string : string -> option Qc).

Abbreviation Sched := (Scheduler C G).

(** ** Adding requests *)

(** [add_request]: [o] is the new request object. *)
Definition sched_add_request (now : Qc) (o : nat) (s : Sched) : result Sched :=
  w ← add_request (sched_store s) o (waiting s);
  r ← get_req o s;
  let s := set_requests (<[request_id r := o]> (requests s)) (set_waiting w s) in
  Ok (if log_stats cfg then upd_req o (record_event QUEUED now) s else s).

(** ** Pinning *)

(** [float(v)]. *)
Definition py_float (v : pyval) : result Qc :=
  match v with
  | PInt z => Ok (Q2Qc (inject_Z z))
  | PFloat q => Ok q
  | PBool b => Ok (if b then 1 else 0)%Qc
  | PStr s => get_or ValueError (float_of_string s)
  | PNone | POther _ => Err TypeError
  end.

Definition qc_sum (l : list Qc) : Qc := foldr Qcplus 0%Qc l.

Definition mean (l : list Qc) : Qc :=
  match l with [] => 0%Qc | _ => (qc_sum l / Q2Qc (inject_Z (zlen l)))%Qc end.

(** [_set_up_pin]: the TTL, and the job's updated tool-duration history. *)
Definition set_up_pin (r : Request) (s : Sched) : result (Qc * Sched) :=
  let meta := extra_args_meta r in
  if negb (py_truth (dict_get meta "has_tool_call")) then Ok (0%Qc, s) else
  let tool_dur := dict_get meta "tool_duration" in
  s ← (if is_none tool_dur || is_none (job_id r) then Ok s else
       d ← py_float tool_dur;
       let hist := default [] (job_tool_history s !! job_id r) in
       Ok (set_job_tool_history (<[job_id r := hist ++ [d]]> (job_tool_history s)) s));
  let avg := mean (default [] (job_tool_history s !! job_id r)) in
  if decide (mimir_pin_ttl cfg < avg)%Qc then Ok (0%Qc, s) else Ok (mimir_pin_ttl cfg, s).

(** [_pin_request]. *)
Definition pin_request (now : Qc) (o : nat) (ttl : Qc) (s : Sched) : Sched :=
  set_pinned_requests (pinned_requests s ++ [(o, (now + ttl)%Qc)]) s.

(** ** Freeing *)

(** [_connector_finished]. *)
Definition connector_finished (r : Request) (s : Sched) : result (bool * pyval * Sched) :=
  match connector s with
  | None => Ok (false, PNone, s)
  | Some c =>
      ids ← kvm_get_block_ids (request_id r) (kv_cache_manager s);
      block_ids ← (match ids with Some [ids] => Ok ids | _ => Err ValueError end);
      out ← request_finished r block_ids c;
      let '(delay, params, c) := (out : bool * pyval * C) in
      Ok (delay, params, set_connector (Some c) s)
  end.

Definition note_finished (r : Request) (s : Sched) : Sched :=
  let s := set_finished_req_ids ({[ request_id r ]} ∪ finished_req_ids s) s in
  match finished_req_ids_dict s with
  | None => s
  | Some d =>
      let ids := default ∅ (dget (client_index r) d) in
      set_finished_req_ids_dict (Some (dset (client_index r) ({[ request_id r ]} ∪ ids) d)) s
  end.

(** Whether [_free_request] considers pinning. *)
Definition may_pin (r : Request) (delay : bool) : bool :=
  bool_decide (policy cfg = MIMIR) && negb (is_none (job_id r)) && negb (default false (is_last_step r)) && negb delay.

(** [_free_request]. *)
Definition free_request (now : Qc) (o : nat) (s : Sched) : result (pyval * Sched) :=
  r ← get_req o s;
  _ ← assert_ (is_finished r);
  out ← connector_finished r s;
  let '(delay, params, s) := (out : bool * pyval * Sched) in
  e ← enc_free r (encoder_cache_manager s);
  let s := note_finished r (set_encoder_cache_manager e s) in
  '(ttl, s) ← (if may_pin r delay then set_up_pin r s else Ok (0%Qc, s));
  if decide (0 < ttl)%Qc then Ok (params, pin_request now o ttl s) else
  s ← (if delay then Ok s else free_blocks_of o s);
  Ok (params, s).

(** [finish_requests]: [request_ids] without duplicates, in iteration order. *)
Definition finish_requests (now : Qc) (request_ids : list string) (st : RequestStatus) (s : Sched) : result Sched :=
  _ ← assert_ (status_is_finished st);
  let valid := omap (fun rid => requests s !! rid) request_ids in
  rs ← mapM_res (fun o => r ← get_req o s; Ok (o, status r)) valid;
  let run := (filter (fun p => p.2 = RUNNING) (rs : list (nat * RequestStatus))).*1 in
  let wait := (filter (fun p => p.2 ≠ RUNNING) (rs : list (nat * RequestStatus))).*1 in
  let s := match run with [] => s | _ => set_running (remove_all (running s) (list_to_set run)) s end in
  s ← (match wait with [] => Ok s | _ => w ← remove_requests wait (waiting s); Ok (set_waiting w s) end);
  foldM (fun s o => '(_, s) ← free_request now o (upd_req o (set_status st) s); Ok s) s valid.

(** ** Processing the model output *)

(** The loop of [_update_request_with_output]: tokens are appended one by one
    until the request stops; the rest is dropped. *)
Fixpoint append_until_stop (toks : list Z) (r : Request) : result (list Z * bool * Request) :=
  match toks with
  | [] => Ok ([], false, r)
  | t :: toks =>
      r ← append_output_token_ids block_hasher [t] r;
      '(stopped, r) ← check_stop r (max_model_len cfg) false;
      if (stopped : bool) then Ok ([t], true, r) else
      out ← append_until_stop toks r;
      let '(kept, stopped, r) := (out : list Z * bool * Request) in
      Ok (t :: kept, stopped, r)
  end.

(** [_update_request_with_output], with the AsyncScheduler override. *)
Definition update_request_with_output (o : nat) (toks : list Z) (s : Sched) : result (list Z * bool * Sched) :=
  r0 ← get_req o s;
  out ← append_until_stop toks r0;
  let '(kept, stopped, r) := (out : list Z * bool * Request) in
  if async_scheduling cfg then
    let ph := num_output_placeholders r - zlen kept in
    let r := set_num_output_placeholders ph r in
    _ ← assert_ (0 <=? ph);
    let s := upd_req o (fun _ => r) s in
    if decide (status r0 = RUNNING) then
      k ← kvm_cache_blocks r (num_computed_tokens r - ph) (kv_cache_manager s);
      Ok (kept, stopped, set_kv_cache_manager k s)
    else Ok (kept, stopped, s)
  else Ok (kept, stopped, upd_req o (fun _ => r) s).

Definition make_spec_decoding_stats (st : option SpecDecodingStats) (num_draft num_accepted : Z)
  : result (option SpecDecodingStats) :=
  if negb (log_stats cfg) then Ok None else
  st ← observe_draft num_draft num_accepted (default (spec_stats_new (num_spec_tokens cfg)) st);
  Ok (Some st).

(** Local state of [update_from_output]. *)
Record Upd := mkUpd {
  u_outputs : list (Z * list EngineCoreOutput);
  u_spec_stats : option SpecDecodingStats;
  stopped_running_reqs : gset nat;
  stopped_preempted_reqs : gset nat
}.

(** Rejected draft tokens are taken back from the computed tokens. *)
Definition reject_drafts (o : nat) (out : SchedulerOutput) (rid : string) (generated : list Z)
  (st : option SpecDecodingStats) (s : Sched) : result (option SpecDecodingStats * Sched) :=
  match so_spec_decode_tokens out !! rid with
  | Some ((_ :: _) as drafts) =>
      let num_accepted := zlen generated - 1 in
      let num_rejected := zlen drafts - num_accepted in
      let s := upd_req o (fun r => set_num_computed_tokens (num_computed_tokens r - num_rejected) r) s in
      st ← make_spec_decoding_stats st (zlen drafts) num_accepted;
      Ok (st, s)
  | _ => Ok (st, s)
  end.

(** The stop checks of generated tokens and of the pooler output. *)
Definition stop_checks (o : nat) (idx : Z) (generated : list Z) (mo : ModelRunnerOutput) (s : Sched)
  : result (list Z * bool * option Z * Sched) :=
  out ← (match generated with
         | [] => Ok ([], false, s)
         | _ => update_request_with_output o generated s
         end);
  let '(toks, stopped, s) := (out : list Z * bool * Sched) in
  match pooler_outputs mo with
  | [] => Ok (toks, stopped, None, s)
  | ps =>
      p ← pyindex ps idx;
      r ← get_req o s;
      '(stopped, r) ← check_stop r (max_model_len cfg) (bool_decide (is_Some p));
      Ok (toks, stopped, p, upd_req o (fun _ => r) s)
  end.

(** Advances the grammar and records NaN counts. *)
Definition post_process (o : nat) (rid : string) (toks : list Z) (mo : ModelRunnerOutput) (s : Sched) : result Sched :=
  r ← get_req o s;
  s ← (match toks with
       | [] => Ok s
       | _ =>
           let '(adv, g) := should_advance r (structured_output_manager s) in
           g ← (if (adv : bool) then accept_tokens rid toks g else Ok g);
           Ok (set_structured_output_manager g s)
       end);
  match mo_num_nans mo with
  | Some d => match d !! rid with
              | Some n => Ok (upd_req o (set_num_nans_in_logits n) s)
              | None => Ok s
              end
  | None => Ok s
  end.

Definition emit_output (o : nat) (rid : string) (idx : Z) (toks : list Z) (pooled : option Z) (params : pyval)
  (mo : ModelRunnerOutput) (outs : list (Z * list EngineCoreOutput)) (s : Sched)
  : result (list (Z * list EngineCoreOutput) * Sched) :=
  r ← get_req o s;
  let lp := match sampling_params r with
            | Some sp => if bool_decide (is_Some (logprobs sp)) && mo_logprobs mo then Some (idx, idx + 1) else None
            | None => None
            end in
  let plp := prompt_logprobs_dict mo !! rid in
  if negb (zlen toks =? 0) || bool_decide (is_Some pooled) || py_truth params then
    let '(evs, r') := take_events r in
    let eo := mkCoreOutput rid toks (get_finished_reason r) lp plp pooled (stop_reason r) evs params (num_cached_tokens r) in
    let prev := default [] (dget (client_index r) outs) in
    Ok (dset (client_index r) (prev ++ [eo]) outs, upd_req o (fun _ => r') s)
  else
    _ ← assert_ (bool_decide (plp = None));
    Ok (outs, s).

Definition output_step (now : Qc) (out : SchedulerOutput) (mo : ModelRunnerOutput) (acc : Upd * Sched) (kv : string * Z)
  : result (Upd * Sched) :=
  let '(u, s) := acc in
  let rid := kv.1 in
  _ ← assert_ (0 <? kv.2);
  match requests s !! rid with
  | None => Ok (u, s)
  | Some o =>
      idx ← get_or KeyError (req_id_to_index mo !! rid);
      generated ← (match sampled_token_ids mo with [] => Ok [] | l => pyindex l idx end);
      '(st, s) ← reject_drafts o out rid generated (u_spec_stats u) s;
      r ← get_req o s;
      let status_before_stop := status r in
      res ← stop_checks o idx generated mo s;
      let '(toks, stopped, pooled, s) := (res : list Z * bool * option Z * Sched) in
      '(params, s) ← (if stopped then free_request now o s else Ok (PNone, s));
      s ← post_process o rid toks mo s;
      '(outs, s) ← emit_output o rid idx toks pooled params mo (u_outputs u) s;
      let is_run := bool_decide (status_before_stop = RUNNING) in
      Ok (mkUpd outs st
            (if stopped && is_run then {[ o ]} ∪ stopped_running_reqs u else stopped_running_reqs u)
            (if stopped && negb is_run then {[ o ]} ∪ stopped_preempted_reqs u else stopped_preempted_reqs u), s)
  end.

(** [_update_from_kv_xfer_finished]. *)
Definition update_from_kv_xfer_finished (co : KVConnectorOutput) (s : Sched) : result Sched :=
  s ← (match connector s with
       | None => Ok s
       | Some c => c ← update_connector_output co c; Ok (set_connector (Some c) s)
       end);
  let s := set_finished_recving_kv_req_ids (list_to_set (finished_recving co) ∪ finished_recving_kv_req_ids s) s in
  foldM (fun s rid => o ← get_or KeyError (requests s !! rid); free_blocks_of o s) s (finished_sending co).

Definition make_stats (st : option SpecDecodingStats) (s : Sched) : result (option SchedulerStats * Sched) :=
  if negb (log_stats cfg) then Ok (None, s) else
  let '(ps, k) := make_prefix_cache_stats (kv_cache_manager s) in
  ps ← get_or AssertionError ps;
  rs ← mapM_res (fun o => get_req o s) (running s);
  let s := set_kv_cache_manager k s in
  Ok (Some (mkSchedStats (zlen (running s)) (queue_len (waiting s)) (usage k) ps st
              (zlen (filter (fun r => is_output_corrupted r = true) (rs : list Request)))), s).

(** The per-client outputs with the finished sets and the statistics. *)
Definition assemble_outputs (u : Upd) (s : Sched) : result (list (Z * EngineCoreOutputs) * Sched) :=
  let ecos := (fun p => (p.1, mkCoreOutputs p.2 None None)) <$> u_outputs u in
  let '(ecos, s) :=
    (match finished_req_ids_dict s with
     | Some ((_ :: _) as d) =>
         (foldl (fun ecos p =>
            let eco := default (mkCoreOutputs [] None None) (dget p.1 ecos) in
            dset p.1 (mkCoreOutputs (eco_outputs eco) (Some p.2) (eco_scheduler_stats eco)) ecos) ecos d,
          set_finished_req_ids_dict (Some []) s)
     | _ => (ecos, s)
     end) in
  '(stats, s) ← make_stats (u_spec_stats u) s;
  match stats with
  | None => Ok (ecos, s)
  | Some st =>
      match ecos with
      | [] => Ok ([(0, mkCoreOutputs [] None (Some st))], s)
      | (c, eco) :: rest => Ok ((c, mkCoreOutputs (eco_outputs eco) (eco_finished_requests eco) (Some st)) :: rest, s)
      end
  end.

Definition update_from_output (now : Qc) (out : SchedulerOutput) (mo : ModelRunnerOutput) (s : Sched)
  : result (list (Z * EngineCoreOutputs) * Sched) :=
  '(u, s) ← foldM (output_step now out mo) (mkUpd [] None ∅ ∅, s) (so_num_scheduled_tokens out);
  let s := if decide (stopped_running_reqs u = ∅) then s
           else set_running (remove_all (running s) (stopped_running_reqs u)) s in
  s ← (if decide (stopped_preempted_reqs u = ∅) then Ok s
       else w ← remove_requests (elements (stopped_preempted_reqs u)) (waiting s); Ok (set_waiting w s));
  s ← (match kv_connector_output mo with
       | None => Ok s
       | Some co => update_from_kv_xfer_finished co s
       end);
  assemble_outputs u s.

(** ** Draft tokens *)

Definition update_draft_one (s : Sched) (p : string * list Z) : result Sched :=
  match requests s !! p.1 with
  | None => Ok s
  | Some o =>
      r ← get_req o s;
      if is_finished r then Ok s else
      match p.2 with
      | [] => Ok (upd_req o (set_spec_token_ids []) s)
      | toks =>
          let '(adv, g) := should_advance r (structured_output_manager s) in
          let s := set_structured_output_manager g s in
          toks ← (if (adv : bool) then validate_tokens (request_id r) toks g else Ok toks);
          Ok (upd_req o (set_spec_token_ids toks) s)
      end
  end.

Definition update_draft_token_ids (req_ids : list string) (drafts : list (list Z)) (s : Sched) : result Sched :=
  foldM update_draft_one s (zip req_ids drafts).

(** ** Queries *)

Definition get_request_counts (s : Sched) : Z * Z := (zlen (running s), queue_len (waiting s)).
Definition get_num_unfinished_requests (s : Sched) : Z := queue_len (waiting s) + zlen (running s).
Definition has_finished_requests (s : Sched) : bool := negb (bool_decide (finished_req_ids s = ∅)).

Definition sched_reset_prefix_cache (s : Sched) : result (bool * Sched) :=
  '(ok, k) ← kvm_reset_prefix_cache (kv_cache_manager s);
  Ok (ok, set_kv_cache_manager k s).
End Update.
