(* ===== verification/Lifecycle.v ===== *)
(** The life of a request in the scheduler: every unfinished request the
    scheduler knows is in exactly one of the waiting queue and the running
    list, according to its status, and a scheduling step respects its token
    and request limits. *)
From Stdlib Require Import ZArith Lia Ascii String QArith Qcanon.
From stdpp Require Import numbers gmap strings list.
From S2P Require Import Prelude FreeQueue Request BlockPool KVCacheManager EncoderCache RequestQueue SchedState Scheduler SchedulerUpdate.

Open Scope Z_scope.

(** * The lifecycle invariant *)

Definition is_waiting (st : RequestStatus) : Prop :=
  match st with
  | WAITING | WAITING_FOR_FSM | WAITING_FOR_REMOTE_KVS | PREEMPTED => True
  | _ => False
  end.

#[export] Instance is_waiting_dec st : Decision (is_waiting st).
Proof. destruct st; cbn; apply _. Defined.

(** [W] are the requests waiting, [run] the running ones. *)
Record life (st : store) (reqs : gmap string nat) (W run : list nat) : Prop := mkLife {
  lf_run : forall o, o ∈ run -> exists r, st !! o = Some r /\ status r = RUNNING /\ reqs !! request_id r = Some o;
  lf_wait : forall o, o ∈ W -> exists r, st !! o = Some r /\ is_waiting (status r) /\ reqs !! request_id r = Some o;
  lf_nodup_run : NoDup run;
  lf_nodup_wait : NoDup W;
  lf_reg : forall rid o, reqs !! rid = Some o -> exists r, st !! o = Some r /\ request_id r = rid /\
    (status r = RUNNING -> o ∈ run) /\ (is_waiting (status r) -> o ∈ W)
}.

#[export] Instance life_perm st reqs : Proper ((≡ₚ) ==> (≡ₚ) ==> iff) (life st reqs).
Proof.
  assert (H : forall W W' run run', W ≡ₚ W' -> run ≡ₚ run' -> life st reqs W run -> life st reqs W' run').
  { intros W W' run run' HW Hr [H1 H2 H3 H4 H5]. split.
    - intros o Ho. apply H1. by rewrite Hr.
    - intros o Ho. apply H2. by rewrite HW.
    - by rewrite <-Hr.
    - by rewrite <-HW.
    - intros rid o Ho. destruct (H5 rid o Ho) as (r & ? & ? & ? & ?). exists r. rewrite <-HW, <-Hr. done. }
  intros W W' HW run run' Hr. split; by apply H.
Qed.

Section Moves.
Context (st : store) (reqs : gmap string nat) (W run : list nat).
Hypothesis HL : life st reqs W run.

Lemma life_disjoint o : o ∈ W -> o ∈ run -> False.
Proof using HL.
  intros (r & E & Hw & _)%(lf_wait _ _ _ _ HL) (r' & E' & Hs & _)%(lf_run _ _ _ _ HL).
  simplify_eq. by rewrite Hs in Hw.
Qed.

(** Two registered objects with the same request id are the same. *)
Lemma life_same_id o o' r r' :
  o ∈ W ++ run -> o' ∈ W ++ run -> st !! o = Some r -> st !! o' = Some r' -> request_id r = request_id r' -> o = o'.
Proof using HL.
  assert (Hreg : forall o, o ∈ W ++ run -> exists r, st !! o = Some r /\ reqs !! request_id r = Some o).
  { intros x [Hx|Hx]%elem_of_app.
    - destruct (lf_wait _ _ _ _ HL x Hx) as (rx & ? & _ & ?). by exists rx.
    - destruct (lf_run _ _ _ _ HL x Hx) as (rx & ? & _ & ?). by exists rx. }
  intros (r1 & E1 & R1)%Hreg (r2 & E2 & R2)%Hreg Ho Ho' Hid. simplify_eq. congruence.
Qed.

(** Writing attributes other than the id and the status. *)
Lemma life_upd o f :
  (forall r, st !! o = Some r -> request_id (f r) = request_id r /\ status (f r) = status r) -> life (alter f o st) reqs W run.
Proof using HL.
  intros Hf. destruct HL as [H1 H2 H3 H4 H5].
  assert (Hlk : forall x r, st !! x = Some r -> exists r', alter f o st !! x = Some r' /\ request_id r' = request_id r /\ status r' = status r).
  { intros x r Hx. destruct (decide (o = x)) as [<-|Hne].
    - rewrite lookup_alter_eq, Hx. cbn. eexists. split; [done|]. by apply Hf.
    - rewrite lookup_alter_ne by done. by exists r. }
  split; [| |done|done|].
  - intros x (r & Hx & Hs & Hr)%H1. destruct (Hlk x r Hx) as (r' & ? & E1 & E2). exists r'. by rewrite E1, E2.
  - intros x (r & Hx & Hs & Hr)%H2. destruct (Hlk x r Hx) as (r' & ? & E1 & E2). exists r'. by rewrite E1, E2.
  - intros rid x (r & Hx & Hid & Hs & Hw)%H5. destruct (Hlk x r Hx) as (r' & ? & E1 & E2). exists r'. by rewrite E1, E2.
Qed.
End Moves.

(** A request that is in neither list changes lists with its status. *)
Definition life_but (o : nat) (st : store) (reqs : gmap string nat) (W run : list nat) : Prop :=
  exists r, st !! o = Some r /\ reqs !! request_id r = Some o /\ o ∉ W /\ o ∉ run /\
  (status r = RUNNING \/ is_waiting (status r)) /\
  (forall f, (forall r, request_id (f r) = request_id r) ->
     (status (f r) = RUNNING -> life (alter f o st) reqs W (o :: run)) /\
     (is_waiting (status (f r)) -> life (alter f o st) reqs (o :: W) run)).

Lemma life_take st reqs W run o :
  (life st reqs (o :: W) run \/ life st reqs W (o :: run)) -> life_but o st reqs W run.
Proof.
  intros HL.
  assert (exists r, st !! o = Some r /\ reqs !! request_id r = Some o /\ o ∉ W /\ o ∉ run /\
    (status r = RUNNING \/ is_waiting (status r))) as (r & Hr & Hreg & HW & Hrun & Hlive).
  { destruct HL as [HL|HL].
    - destruct (lf_wait _ _ _ _ HL o ltac:(by left)) as (r & ? & ? & ?). exists r.
      pose proof (lf_nodup_wait _ _ _ _ HL) as [? ?]%NoDup_cons. split_and!; try done; [|by right].
      intros Ho. by apply (life_disjoint _ _ _ _ HL o); [left|].
    - destruct (lf_run _ _ _ _ HL o ltac:(by left)) as (r & ? & ? & ?). exists r.
      pose proof (lf_nodup_run _ _ _ _ HL) as [? ?]%NoDup_cons. split_and!; try done; [|by left].
      intros Ho. by apply (life_disjoint _ _ _ _ HL o); [|left]. }
  assert (H1 : forall x, x ∈ run -> exists r, st !! x = Some r /\ status r = RUNNING /\ reqs !! request_id r = Some x).
  { intros x Hx. destruct HL as [HL|HL]; apply (lf_run _ _ _ _ HL); [done|by right]. }
  assert (H2 : forall x, x ∈ W -> exists r, st !! x = Some r /\ is_waiting (status r) /\ reqs !! request_id r = Some x).
  { intros x Hx. destruct HL as [HL|HL]; apply (lf_wait _ _ _ _ HL); [by right|done]. }
  assert (N1 : NoDup run) by (destruct HL as [HL|HL]; pose proof (lf_nodup_run _ _ _ _ HL) as H; [done|by apply NoDup_cons in H as [_ H]]).
  assert (N2 : NoDup W) by (destruct HL as [HL|HL]; pose proof (lf_nodup_wait _ _ _ _ HL) as H; [by apply NoDup_cons in H as [_ H]|done]).
  assert (H5 : forall rid x, reqs !! rid = Some x -> x ≠ o -> exists r, st !! x = Some r /\ request_id r = rid /\
    (status r = RUNNING -> x ∈ run) /\ (is_waiting (status r) -> x ∈ W)).
  { intros rid x Hx Hne. destruct HL as [HL|HL]; destruct (lf_reg _ _ _ _ HL rid x Hx) as (rx & ? & ? & Ha & Hb);
      exists rx; split_and!; try done; intros Hs.
    - specialize (Hb Hs). by apply elem_of_cons in Hb as [?|?].
    - specialize (Ha Hs). by apply elem_of_cons in Ha as [?|?]. }
  assert (H6 : forall rid, reqs !! rid = Some o -> request_id r = rid).
  { intros rid Ho. destruct HL as [HL|HL]; destruct (lf_reg _ _ _ _ HL rid o Ho) as (rx & ? & ? & _); by simplify_eq. }
  exists r. split_and!; try done. intros f Hf.
  assert (Ho : alter f o st !! o = Some (f r)) by (by rewrite lookup_alter_eq, Hr).
  assert (Hx : forall x, x ≠ o -> alter f o st !! x = st !! x) by (intros x ?; by rewrite lookup_alter_ne).
  split; intros Hs; split; try done.
  - intros x [-> |Hin]%elem_of_cons; [exists (f r); by rewrite Hf|]. rewrite Hx by (by intros ->). by apply H1.
  - intros x Hin. rewrite Hx by (by intros ->). by apply H2.
  - by apply NoDup_cons.
  - intros rid x Hreg'. destruct (decide (x = o)) as [->|Hne].
    + exists (f r). rewrite Hf. split_and!; [done|by apply H6|intros; by left|]. by rewrite Hs.
    + rewrite Hx by done. destruct (H5 rid x Hreg' Hne) as (rx & ? & ? & Ha & Hb). exists rx. split_and!; try done.
      intros. right. by apply Ha.
  - intros x Hin. rewrite Hx by (by intros ->). by apply H1.
  - intros x [-> |Hin]%elem_of_cons; [exists (f r); by rewrite Hf|]. rewrite Hx by (by intros ->). by apply H2.
  - by apply NoDup_cons.
  - intros rid x Hreg'. destruct (decide (x = o)) as [->|Hne].
    + exists (f r). rewrite Hf. split_and!; [done|by apply H6|intros Hs'; by rewrite Hs' in Hs|intros; by left].
    + rewrite Hx by done. destruct (H5 rid x Hreg' Hne) as (rx & ? & ? & Ha & Hb). exists rx. split_and!; try done.
      intros. right. by apply Hb.
Qed.

(** * Victims *)

Lemma remove_first_perm {A} `{EqDecision A} (x : A) l : x ∈ l -> l ≡ₚ x :: remove_first x l.
Proof.
  induction l as [|y l IH]; [by intros ?%elem_of_nil|]. intros Hx. cbn. destruct (decide (x = y)) as [->|Hne]; [done|].
  apply elem_of_cons in Hx as [?|Hx]; [done|]. rewrite (IH Hx) at 1. constructor.
Qed.

Lemma remove_first_drop {A} `{EqDecision A} (x : A) l k y : y ∈ drop k (remove_first x l) -> y ∈ drop k l.
Proof.
  revert k. induction l as [|z l IH]; intros k; [done|]. cbn. destruct (decide (x = z)) as [->|Hne].
  - destruct k as [|k]; cbn; [by right|].
    intros (i & Hi)%list_elem_of_lookup. rewrite lookup_drop in Hi. apply list_elem_of_lookup.
    exists (S i). rewrite lookup_drop. by replace (k + S i)%nat with (S k + i)%nat by lia.
  - destruct k as [|k]; cbn; [|apply IH]. intros [-> |Hy]%elem_of_cons; [by left|]. right. by apply (IH 0%nat).
Qed.

Lemma mapM_entries st l es : mapM_res (entry_of st) l = Ok es -> e_obj <$> es = l /\ Forall (entry_ok st) es.
Proof.
  revert es. induction l as [|o l IH]; intros es E; cbn in E; inv_ok; [done|]. destruct (IH _ E1) as [<- ?].
  pose proof (entry_of_obj _ _ _ E0) as Ho. cbn. rewrite Ho. split; [done|]. constructor; [|done]. unfold entry_ok. by rewrite Ho.
Qed.

Lemma later_spec x y : later x y = true <-> ~ kle x y.
Proof.
  unfold later, kle. rewrite orb_true_iff, andb_true_iff, Z.ltb_lt, Z.eqb_eq, bool_decide_eq_true. split.
  - intros [?|[? Hlt]] [?|[? Hle]]; try lia. by apply (Qclt_not_le _ _ Hlt).
  - intros Hn. destruct (Z.lt_trichotomy (e_prio x) (e_prio y)) as [?|[?|?]]; [tauto| |auto].
    right. split; [done|]. apply Qcnot_le_lt. tauto.
Qed.

Lemma fold_later_max es : forall e, let m := foldl (fun best x => if later x best then x else best) e es in
  m ∈ e :: es /\ forall x, x ∈ e :: es -> kle x m.
Proof.
  induction es as [|x es IH]; intros e; cbn.
  - split; [by left|]. intros y ->%list_elem_of_singleton. reflexivity.
  - specialize (IH (if later x e then x else e)). destruct (later x e) eqn:El; cbn in IH; destruct IH as [Hin Hmax].
    + split; [apply elem_of_cons; by right|]. intros y Hy. apply later_spec in El.
      assert (Hex : kle e x) by (destruct (kle_total e x); tauto).
      apply elem_of_cons in Hy as [->|Hy]; [|by apply Hmax].
      transitivity x; [done|]. apply Hmax. by left.
    + split; [apply elem_of_cons in Hin as [-> |Hin]; [by left|do 2 right; done]|].
      intros y Hy. assert (Hxe : kle x e).
      { destruct (decide (kle x e)); [done|]. assert (later x e = true) by (by apply later_spec). congruence. }
      apply elem_of_cons in Hy as [-> |Hy]; [apply Hmax; by left|]. apply elem_of_cons in Hy as [-> |Hy]; [|apply Hmax; by right].
      transitivity e; [done|]. apply Hmax. by left.
Qed.

(** [x] is not served later than [y]. *)
Definition serves_before (st : store) (x y : nat) : Prop :=
  exists ex ey, entry_of st x = Ok ex /\ entry_of st y = Ok ey /\ kle ex ey.

Section Victims.
Context {C G : Type} (cfg : SchedConfig).
Abbreviation Sched := (Scheduler C G).

Lemma pick_victim_spec (s : Sched) v :
  pick_victim s = Ok v -> v ∈ running s /\ forall o, o ∈ running s -> serves_before (sched_store s) o v.
Proof.
  unfold pick_victim. intros E. inv_ok. destruct (mapM_entries _ _ _ E0) as [Hobj Hok].
  destruct a as [|e es]; [done|]. inv_ok. destruct (fold_later_max es e) as [Hin Hmax]. cbn zeta in *.
  set (m := foldl _ e es) in *. rewrite Forall_forall in Hok. rewrite <-Hobj. split; [by apply list_elem_of_fmap_2|].
  intros o (x & -> & Hx)%list_elem_of_fmap. exists x, m. split; [by apply Hok|]. split; [by apply Hok|by apply Hmax].
Qed.

Lemma take_victim_spec idx o sched (s : Sched) v run sched' :
  take_victim cfg sched s = Ok (v, run, sched') -> NoDup (running s) -> NoDup sched ->
  (forall x, x ∈ drop idx (running s) -> x ∉ sched) -> (policy cfg ≠ PRIORITY -> running s !! idx = Some o) ->
  running s ≡ₚ v :: run /\ (forall k x, x ∈ drop k run -> x ∈ drop k (running s)) /\
  NoDup sched' /\ (forall x, x ∈ sched' <-> x ∈ sched /\ x ≠ v) /\
  (policy cfg ≠ PRIORITY -> v ≠ o -> run !! idx = Some o).
Proof.
  intros E Hnd Hnds Hfresh Hidx. unfold take_victim in E. destruct (decide (policy cfg = PRIORITY)) as [Hp|Hp].
  - rewrite Hp in E. inv_ok. apply pick_victim_spec in E0 as [Hv _].
    split; [by apply remove_first_perm|]. split; [intros k x; apply remove_first_drop|].
    split; [|split; [|done]]; destruct (decide (v ∈ sched)) as [Hin|Hin].
    + rewrite (remove_first_perm v sched Hin) in Hnds. by apply NoDup_cons in Hnds as [_ ?].
    + done.
    + intros x. pose proof (remove_first_perm v sched Hin) as Hp'. rewrite Hp' in Hnds.
      apply NoDup_cons in Hnds as [Hn _]. rewrite Hp' at 2. rewrite elem_of_cons. naive_solver.
    + intros x. split; [|naive_solver]. intros Hx. split; [done|]. by intros ->.
  - assert (E' : exists v', last (running s) = Some v' /\ (v', take (length (running s) - 1) (running s), sched) = (v, run, sched')).
    { destruct (policy cfg); [|done|]; inv_ok; eauto. }
    destruct E' as (v' & Hl & Heq). simplify_eq. specialize (Hidx Hp).
    apply last_Some in Hl as [l Hl]. rewrite Hl in *. rewrite length_app. cbn [length].
    replace (length l + 1 - 1)%nat with (length l) by lia. rewrite take_app_length.
    assert (Hlen : (idx < length (l ++ [v]))%nat) by (by eapply lookup_lt_Some). rewrite length_app in Hlen. cbn in Hlen.
    split; [by rewrite Permutation_app_comm|]. split; [|split; [done|split]].
    + intros k x (i & Hi)%list_elem_of_lookup. rewrite lookup_drop in Hi. apply list_elem_of_lookup. exists i.
      rewrite lookup_drop. by apply lookup_app_l_Some.
    + intros x. split; [|naive_solver]. intros Hx. split; [done|]. intros ->. apply (Hfresh v); [|done].
      apply list_elem_of_lookup. exists (length l - idx)%nat. rewrite lookup_drop.
      replace (idx + (length l - idx))%nat with (length l) by lia. by rewrite lookup_app_r, Nat.sub_diag by lia.
    + intros _ Hne. destruct (decide (idx = length l)) as [->|]; [|by rewrite lookup_app_l in Hidx by lia].
      rewrite lookup_app_r, Nat.sub_diag in Hidx by lia. cbn in Hidx. congruence.
Qed.
End Victims.

(** * Pinned requests *)

(** Pinned requests are finished, and their id has not been given to another
    request. *)
Definition pins_ok (st : store) (reqs : gmap string nat) (pins : list (nat * Qc)) : Prop :=
  forall p, p ∈ pins -> exists r, st !! p.1 = Some r /\ is_finished r = true /\
    (forall o, reqs !! request_id r = Some o -> o = p.1).

Lemma pins_upd st reqs pins o f :
  (forall r, st !! o = Some r -> request_id (f r) = request_id r /\ (is_finished r = true -> is_finished (f r) = true)) ->
  pins_ok st reqs pins -> pins_ok (alter f o st) reqs pins.
Proof.
  intros Hf Hp p (r & Hr & Hfin & Hreg)%Hp. destruct (decide (o = p.1)) as [->|Hne].
  - exists (f r). destruct (Hf r Hr) as [Hid Hf']. rewrite lookup_alter_eq, Hr, Hid. auto.
  - exists r. by rewrite lookup_alter_ne.
Qed.

Lemma live_unfinished r : status r = RUNNING \/ is_waiting (status r) -> is_finished r = false.
Proof. unfold is_finished. destruct (status r); cbn; naive_solver. Qed.

Lemma pins_move st reqs pins o f r :
  st !! o = Some r -> status r = RUNNING \/ is_waiting (status r) -> (forall r, request_id (f r) = request_id r) ->
  pins_ok st reqs pins -> pins_ok (alter f o st) reqs pins.
Proof.
  intros Ho Hl Hf. apply pins_upd. intros r' Hr'. simplify_eq. split; [apply Hf|].
  rewrite live_unfinished by done. done.
Qed.

(** * The loops of a step *)

(** Everything scheduled so far in this step. *)
Definition scheduled_all (a : Step) : list nat :=
  scheduled_new_reqs a ++ scheduled_resumed_reqs a ++ scheduled_running_reqs a.

Lemma dset_fresh {V} (k : string) (v : V) d : k ∉ d.*1 -> dset k v d = d ++ [(k, v)].
Proof.
  induction d as [|[k' v'] d IH]; cbn; intros Hk; [done|]. rewrite elem_of_cons in Hk.
  rewrite decide_False by tauto. rewrite IH by tauto. done.
Qed.

Arguments sum_values {K} d : simpl never.

Lemma sum_values_app {K} (d d' : list (K * Z)) : sum_values (d ++ d') = sum_values d + sum_values d'.
Proof. unfold sum_values. induction d as [|x d IH]; cbn; [done|]. lia. Qed.

Section Steps.
Context {C G : Type} `{!KVConnector C, !StructuredOutput G} (cfg : SchedConfig).
Abbreviation Sched := (Scheduler C G).

Record step_inv (a : Step) (s : Sched) : Prop := mkStepInv {
  sv_life : life (sched_store s) (requests s) (queue_objs (waiting s) ++ queue_objs (skipped_waiting_requests a)) (running s);
  sv_sum : sum_values (num_scheduled_tokens a) + token_budget a = max_num_scheduled_tokens cfg;
  sv_budget : 0 <= token_budget a;
  sv_keys : forall rid, rid ∈ (num_scheduled_tokens a).*1 -> exists o r, sched_store s !! o = Some r /\ request_id r = rid /\
    o ∈ scheduled_all a ++ preempted_reqs a;
  sv_sub : forall o, o ∈ scheduled_all a -> o ∈ running s;
  sv_nodup : NoDup (scheduled_all a);
  sv_preempted : forall o, o ∈ preempted_reqs a -> o ∈ queue_objs (waiting s);
  sv_width : zlen (running s) <= max_num_running_reqs cfg;
  sv_pins : pins_ok (sched_store s) (requests s) (pinned_requests s)
}.

(** The parts of the state the loops' bookkeeping looks at. *)
Definition same_core (s s' : Sched) : Prop :=
  sched_store s' = sched_store s /\ requests s' = requests s /\ waiting s' = waiting s /\ running s' = running s /\
  pinned_requests s' = pinned_requests s.

Lemma step_inv_core a s s' : same_core s s' -> step_inv a s -> step_inv a s'.
Proof. intros (E1 & E2 & E3 & E4 & E5) [H1 H2 H3 H4 H5 H6 H7 H8 H9]. split; rewrite ?E1, ?E2, ?E3, ?E4, ?E5; done. Qed.

(** Writing attributes other than the id and the status. *)
Lemma step_inv_upd a s o f :
  (forall r, request_id (f r) = request_id r /\ status (f r) = status r) -> step_inv a s -> step_inv a (upd_req o f s).
Proof.
  intros Hf [H1 H2 H3 H4 H5 H6 H7 H8 H9]. split; try done.
  - apply life_upd; auto.
  - intros rid (x & r & Hx & Hid & Hin)%H4. cbn. destruct (decide (o = x)) as [->|Hne].
    + exists x, (f r). rewrite lookup_alter_eq, Hx. split; [done|]. split; [|done]. rewrite <-Hid. apply Hf.
    + exists x, r. by rewrite lookup_alter_ne.
  - apply pins_upd; [|done]. intros r _. destruct (Hf r) as [? E]. unfold is_finished. by rewrite E.
Qed.

(** The request id of a scheduled key is not that of another live request. *)
Lemma key_fresh a s o r :
  step_inv a s -> sched_store s !! o = Some r -> o ∈ queue_objs (waiting s) ++ queue_objs (skipped_waiting_requests a) ++ running s ->
  o ∉ scheduled_all a ++ preempted_reqs a -> request_id r ∉ (num_scheduled_tokens a).*1.
Proof.
  intros HI Ho Hin Hn (x & rx & Hx & Hid & Hxin)%(sv_keys _ _ HI). apply Hn.
  enough (o = x) as -> by done. rewrite app_assoc in Hin.
  apply (life_same_id _ _ _ _ (sv_life _ _ HI) o x r rx); try done. rewrite !elem_of_app.
  apply elem_of_app in Hxin as [Hxin%(sv_sub _ _ HI)|Hxin%(sv_preempted _ _ HI)]; auto.
Qed.

Lemma preempt_one_spec ts idx o a s v a' s' :
  preempt_one cfg ts a s = Ok (v, a', s') -> step_inv a s -> queue_objs (skipped_waiting_requests a) = [] ->
  scheduled_new_reqs a = [] -> scheduled_resumed_reqs a = [] ->
  (forall x, x ∈ drop idx (running s) -> x ∉ scheduled_all a) -> (policy cfg ≠ PRIORITY -> running s !! idx = Some o) ->
  step_inv a' s' /\ running s ≡ₚ v :: running s' /\
  (forall k x, x ∈ drop k (running s') -> x ∈ drop k (running s)) /\
  (forall x, x ∈ scheduled_all a' <-> x ∈ scheduled_all a /\ x ≠ v) /\
  (policy cfg ≠ PRIORITY -> v ≠ o -> running s' !! idx = Some o) /\
  (forall x, x ≠ v -> sched_store s' !! x = sched_store s !! x) /\
  a' = set_preempted v (scheduled_running_reqs a') a.
Proof.
  intros E HI Hskip Hnew Hres Hfresh Hidx. unfold preempt_one in E. inv_ok.
  pose proof (sv_life _ _ HI) as HL. pose proof (sv_nodup _ _ HI) as Hnd.
  unfold scheduled_all in *. rewrite Hnew, Hres, Hskip, ?app_nil_r in *. cbn in Hnd.
  destruct (take_victim_spec cfg idx o _ _ _ _ _ E0 (lf_nodup_run _ _ _ _ HL) Hnd Hfresh Hidx)
    as (Hperm & Hdrop & Hnd' & Hs' & Hrun'). cbn [waiting set_running set_kv_cache_manager set_encoder_cache_manager upd_req set_sched_store] in E4.
  rewrite Hperm in HL. destruct (life_take _ _ _ _ _ (or_intror HL)) as (r & Hr & Hreg & HW & Hrn & Hlive & Hmove).
  pose proof (prepend_objs _ _ _ _ E4) as Hw. cbn.
  set (f := fun r => if log_stats cfg then record_event EV_PREEMPTED ts (set_num_computed_tokens 0 (set_status PREEMPTED r))
                     else set_num_computed_tokens 0 (set_status PREEMPTED r)) in *.
  assert (Hf : forall r, request_id (f r) = request_id r /\ is_waiting (status (f r))) by (intros r'; unfold f; by destruct (log_stats cfg)).
  destruct (Hmove f ltac:(apply Hf)) as [_ Hmove']. specialize (Hmove' (proj2 (Hf r))).
  split; [|split_and!; try done; [by rewrite Hnew, Hres|intros x Hx; by rewrite lookup_alter_ne]].
  split; cbn; unfold scheduled_all; cbn; rewrite ?Hnew, ?Hres; cbn.
  - rewrite Hskip, app_nil_r. by rewrite Hw.
  - apply (sv_sum _ _ HI).
  - apply (sv_budget _ _ HI).
  - intros rid (x & rx & Hx & Hid & Hin)%(sv_keys _ _ HI). unfold scheduled_all in Hin. rewrite Hnew, Hres in Hin. cbn in Hin.
    assert (Hin' : x ∈ l ++ preempted_reqs a ++ [v]).
    { rewrite !elem_of_app in *. rewrite list_elem_of_singleton, Hs'. destruct (decide (x = v)); naive_solver. }
    destruct (decide (v = x)) as [->|Hne].
    + exists x, (f rx). rewrite lookup_alter_eq, Hx. split; [done|]. split; [|done]. rewrite <-Hid. apply Hf.
    + exists x, rx. by rewrite lookup_alter_ne.
  - intros x [Hx Hne]%Hs'. assert (Hin : x ∈ running s) by (apply (sv_sub _ _ HI); unfold scheduled_all; by rewrite Hnew, Hres).
    rewrite Hperm in Hin. by apply elem_of_cons in Hin as [?|?].
  - done.
  - intros x. rewrite Hw, elem_of_app, !elem_of_cons.
    intros [Hx%(sv_preempted _ _ HI)|[Hx|Hx]]; auto. by apply elem_of_nil in Hx.
  - pose proof (sv_width _ _ HI) as Hwd. unfold zlen in *. rewrite Hperm in Hwd. cbn in Hwd. lia.
  - eapply pins_move; [done|done|apply Hf|]. apply (sv_pins _ _ HI).
Qed.

(** The allocation loop keeps the invariant, and leaves the request it
    allocates for untouched. *)
Lemma alloc_loop_spec ts idx o n fuel : forall a s nb a' s',
  alloc_loop cfg fuel ts o n a s = Ok (nb, a', s') -> step_inv a s -> queue_objs (skipped_waiting_requests a) = [] ->
  scheduled_new_reqs a = [] -> scheduled_resumed_reqs a = [] -> o ∈ running s ->
  (forall x, x ∈ drop idx (running s) -> x ∉ scheduled_all a) -> (policy cfg ≠ PRIORITY -> running s !! idx = Some o) ->
  step_inv a' s' /\ (forall x, x ∈ scheduled_all a' -> x ∈ scheduled_all a) /\
  skipped_waiting_requests a' = skipped_waiting_requests a /\ scheduled_new_reqs a' = [] /\ scheduled_resumed_reqs a' = [] /\
  token_budget a' = token_budget a /\ num_scheduled_tokens a' = num_scheduled_tokens a /\
  (forall k x, x ∈ drop k (running s') -> x ∈ drop k (running s)) /\
  (is_Some nb -> o ∈ running s' /\ sched_store s' !! o = sched_store s !! o).
Proof.
  induction fuel as [|fuel IH]; intros a s nb a' s' E HI Hskip Hnew Hres Ho Hfresh Hidx; [done|].
  cbn [alloc_loop] in E. inv_ok. destruct o0 as [b|].
  { inv_ok. split; [by apply (step_inv_core _ s)|]. by split_and!. }
  apply bind_Ok in E as ([[v a1] s1] & Ep & E).
  apply (step_inv_core _ _ (set_kv_cache_manager k s)) in HI; [|by split_and!].
  destruct (preempt_one_spec ts idx o _ _ _ _ _ Ep HI Hskip Hnew Hres Hfresh Hidx)
    as (HI1 & Hperm & Hdrop & Hall & Hidx1 & Hst & Ea). cbn in Hperm, Hdrop, Hst.
  assert (Efr : skipped_waiting_requests a1 = skipped_waiting_requests a /\ scheduled_new_reqs a1 = [] /\
    scheduled_resumed_reqs a1 = [] /\ token_budget a1 = token_budget a /\ num_scheduled_tokens a1 = num_scheduled_tokens a)
    by (rewrite Ea; by split_and!).
  destruct Efr as (F1 & F2 & F3 & F4 & F5).
  destruct (decide (v = o)) as [->|Hne].
  { inv_ok. split_and!; try done. by intros x [? _]%Hall. }
  assert (Ho1 : o ∈ running s1).
  { rewrite Hperm in Ho. by apply elem_of_cons in Ho as [?|?]. }
  destruct (IH _ _ _ _ _ E HI1) as (H1 & H2 & H3 & H4 & H5 & H6 & H7 & H8 & H9).
  - by rewrite F1.
  - done.
  - done.
  - done.
  - intros x Hx%Hdrop [Hx' _]%Hall. by apply (Hfresh x).
  - auto.
  - split_and!; try done; try congruence.
    + intros x Hx%H2. by apply Hall in Hx as [? _].
    + intros k' x Hx%H8. by apply Hdrop.
    + intros Hnb. destruct (H9 Hnb) as [? ->]. split; [done|]. by apply Hst.
Qed.

Lemma encoder_loop_tokens r nc : forall l i chosen n b hs t e chosen' n' b' e',
  encoder_inputs_loop cfg r nc l i chosen n b hs t e = Ok (chosen', n', b', e') -> n' <= Z.max 0 n.
Proof.
  induction l as [|pos l IH]; intros i chosen n b hs t e chosen' n' b' e' E; cbn [encoder_inputs_loop] in E; [inv_ok; lia|].
  destruct (Z.leb_spec (nc + n) (pr_offset pos)); [inv_ok; lia|].
  destruct (is_encoder_decoder cfg && (0 <? nc)); [inv_ok; by eapply IH|].
  destruct (pr_offset pos + pr_length pos <=? nc); [by eapply IH|].
  apply bind_Ok in E as (h & _ & E). apply bind_Ok in E as ([skip e1] & _ & E).
  destruct skip; [by eapply IH|].
  destruct (chunked_mm_disabled cfg && (nc <? pr_offset pos) && _); [inv_ok; lia|].
  apply bind_Ok in E as ([ok e2] & _ & E). destruct ok; cbn [negb] in E; [by eapply IH|].
  inv_ok. destruct (nc <? pr_offset pos); lia.
Qed.

Lemma encoder_tokens r nc n b e inputs n' b' e' :
  try_schedule_encoder_inputs cfg r nc n b e = Ok (inputs, n', b', e') -> n' <= Z.max 0 n.
Proof.
  unfold try_schedule_encoder_inputs. destruct ((n =? 0) || negb (has_encoder_inputs r)); intros E; inv_ok; [lia|].
  by eapply encoder_loop_tokens.
Qed.

(** Recording a scheduled request. *)
Lemma step_inv_scheduled a s o r new resumed run b n enc eb :
  step_inv a s -> sched_store s !! o = Some r -> o ∈ running s -> o ∉ scheduled_all a -> n <= token_budget a ->
  new ++ resumed ++ run ≡ₚ o :: scheduled_all a -> preempted_reqs a = [] \/ o ∉ preempted_reqs a ->
  step_inv (set_scheduled new resumed run (request_id r) b n enc eb a) s.
Proof.
  intros HI Ho Hin Hn Hle Hall Hpre.
  assert (Hpo : o ∉ preempted_reqs a).
  { destruct Hpre as [->|?]; [apply not_elem_of_nil|done]. }
  assert (Hk : request_id r ∉ (num_scheduled_tokens a).*1).
  { apply (key_fresh a s o r HI Ho); [rewrite !elem_of_app; auto|]. rewrite elem_of_app. tauto. }
  destruct HI as [H1 H2 H3 H4 H5 H6 H7 H8 H9]. split; unfold scheduled_all in *; cbn; try done.
  - rewrite dset_fresh, sum_values_app by done. unfold sum_values at 2. cbn. lia.
  - lia.
  - intros rid. rewrite dset_fresh, fmap_app, elem_of_app by done. cbn. rewrite list_elem_of_singleton.
    setoid_rewrite Hall. intros [(x & rx & ? & ? & Hx)%H4| ->].
    + exists x, rx. split; [done|]. split; [done|]. rewrite elem_of_app in *. rewrite elem_of_cons. tauto.
    + exists o, r. split; [done|]. split; [done|]. by left.
  - intros x. rewrite Hall, elem_of_cons. intros [-> |?]; auto.
  - rewrite Hall. by apply NoDup_cons.
Qed.

Lemma preempted_not_running a s o : step_inv a s -> o ∈ running s -> o ∉ preempted_reqs a.
Proof.
  intros HI Ho Hp%(sv_preempted _ _ HI). apply (life_disjoint _ _ _ _ (sv_life _ _ HI) o); [|done].
  rewrite elem_of_app. by left.
Qed.

Lemma running_tokens_le r budget : running_new_tokens cfg r budget <= budget.
Proof. unfold running_new_tokens. lia. Qed.

(** The bookkeeping of the running loop before iteration [idx]. *)
Record run_inv (idx : nat) (a : Step) (s : Sched) : Prop := mkRunInv {
  rv_step : step_inv a s;
  rv_skip : queue_objs (skipped_waiting_requests a) = [];
  rv_new : scheduled_new_reqs a = [];
  rv_resumed : scheduled_resumed_reqs a = [];
  rv_fresh : forall x, x ∈ drop idx (running s) -> x ∉ scheduled_all a
}.

Lemma drop_S_elem {A} k (l : list A) x : x ∈ drop (S k) l -> x ∈ drop k l.
Proof.
  intros (i & Hi)%list_elem_of_lookup. rewrite lookup_drop in Hi. apply list_elem_of_lookup. exists (S i).
  rewrite lookup_drop. by replace (k + S i)%nat with (S k + i)%nat by lia.
Qed.

Lemma running_step_spec ts idx a s next a' s' :
  running_step cfg ts idx a s = Ok (next, a', s') -> run_inv idx a s -> 0 < token_budget a ->
  match next with Some j => j = S idx /\ run_inv j a' s' | None => run_inv (length (running s')) a' s' end.
Proof.
  intros E [HI Hskip Hnew Hres Hfresh] Hb. unfold running_step in E.
  apply bind_Ok in E as (o & Eo & E). apply get_or_Ok in Eo. apply bind_Ok in E as (r & Er & E). apply get_or_Ok in Er.
  apply bind_Ok in E as ([[[inputs n] eb] e] & Ee & E). cbv beta iota zeta in E.
  assert (Hn : n <= token_budget a).
  { pose proof (running_tokens_le r (token_budget a)). destruct (has_encoder_inputs r).
    - apply encoder_tokens in Ee. lia.
    - inv_ok. lia. }
  apply (step_inv_core _ _ (set_encoder_cache_manager e s)) in HI; [|by split_and!].
  destruct (n =? 0).
  { inv_ok. split; [done|]. split; try done. cbn. intros x Hx. by apply Hfresh, drop_S_elem. }
  apply bind_Ok in E as ([[nb a1] s1] & Ea & E). cbv beta iota in E.
  assert (Hin : o ∈ running s) by (by eapply list_elem_of_lookup_2).
  destruct (alloc_loop_spec ts idx o n _ _ _ _ _ _ Ea HI Hskip Hnew Hres Hin Hfresh (fun _ => Eo))
    as (HI1 & Hall & Hsk & Hnew1 & Hres1 & Hbud & Hnum & Hdrop & Hsome).
  assert (Hfresh1 : forall x, x ∈ drop idx (running s1) -> x ∉ scheduled_all a1).
  { intros x Hx%Hdrop Hx'%Hall. by apply (Hfresh x). }
  destruct nb as [b|]; [|inv_ok; split; try done; [by rewrite Hsk|]; rewrite drop_ge by done; by intros x ?%elem_of_nil].
  destruct (Hsome ltac:(done)) as [Ho1 Hst]. cbn in Hst.
  set (a2 := set_scheduled _ _ _ _ _ _ _ _ a1) in E.
  assert (Hno : o ∉ scheduled_all a1).
  { intros Hx%Hall. apply (Hfresh o); [|done]. apply list_elem_of_lookup. exists 0%nat. by rewrite lookup_drop, Nat.add_0_r. }
  assert (Hp2 : scheduled_all a2 ≡ₚ o :: scheduled_all a1).
  { unfold a2, scheduled_all. cbn. rewrite Hnew1, Hres1. cbn. by rewrite Permutation_app_comm. }
  assert (HI2 : step_inv a2 s1).
  { apply (step_inv_scheduled a1 s1 o r); try done; [by rewrite Hst|lia|].
    right. by apply (preempted_not_running a1 s1). }
  assert (Hfresh2 : forall x, x ∈ drop (S idx) (running s1) -> x ∉ scheduled_all a2).
  { intros x Hx. rewrite Hp2, elem_of_cons. intros [-> |Hx']; [|by apply (Hfresh1 x), Hx'; apply drop_S_elem].
    apply Hdrop in Hx. cbn in Hx. pose proof (lf_nodup_run _ _ _ _ (sv_life _ _ HI)) as Hnd. cbn in Hnd.
    apply list_elem_of_lookup in Hx as (i & Hi). rewrite lookup_drop in Hi.
    pose proof (NoDup_lookup _ _ _ _ Hnd Eo Hi). lia. }
  destruct (schedule_spec o r n a2 s1) as [a3 s2] eqn:Es. apply bind_Ok in E as (s3 & Eenc & E). simplify_eq. split; [done|].
  assert (HI3 : step_inv a' s2 /\ running s2 = running s1 /\ scheduled_all a' = scheduled_all a2 /\
    skipped_waiting_requests a' = skipped_waiting_requests a2 /\ scheduled_new_reqs a' = [] /\ scheduled_resumed_reqs a' = []).
  { unfold schedule_spec in Es. destruct (decide _); [simplify_eq; by split_and!|].
    destruct (0 <? _); simplify_eq; split_and!; try done. apply step_inv_upd; [done|].
    destruct HI2 as [G1 G2 G3 G4 G5 G6 G7 G8 G9]. by split. }
  destruct HI3 as (HI3 & R1 & R2 & R3 & R4 & R5).
  unfold encoder_allocate in Eenc. inv_ok. split; try done.
  - by apply (step_inv_core _ s2).
  - rewrite R3. unfold a2. cbn. by rewrite Hsk.
  - cbn. rewrite R1, R2. done.
Qed.

Lemma running_loop_spec ts fuel : forall idx a s a' s',
  running_loop cfg fuel ts idx a s = Ok (a', s') -> run_inv idx a s -> exists idx', run_inv idx' a' s'.
Proof.
  induction fuel as [|fuel IH]; intros idx a s a' s' E HI; cbn [running_loop] in E;
    destruct (negb _) eqn:Ec; try (inv_ok; by exists idx).
  apply bind_Ok in E as ([[next a1] s1] & Es & E). cbv beta iota in E.
  assert (Hb : 0 < token_budget a) by (apply negb_false_iff, andb_true_iff in Ec as [_ ?]; lia).
  pose proof (running_step_spec _ _ _ _ _ _ _ Es HI Hb) as H. destruct next as [j|].
  - destruct H as [_ H]. by eapply IH.
  - inv_ok. by eexists.
Qed.

(** ** Waiting requests *)

#[export] Instance same_core_preorder : PreOrder same_core.
Proof. split; [by intros s|]. intros s1 s2 s3 (A1 & A2 & A3 & A4 & A5) (B1 & B2 & B3 & B4 & B5). split_and!; congruence. Qed.

Lemma waiting_computed_core r s oc s' : waiting_computed r s = Ok (oc, s') -> same_core s s'.
Proof.
  unfold waiting_computed. destruct (num_computed_tokens r =? 0); intros E; [|inv_ok; by split_and!].
  apply bind_Ok in E as ([[b l] k] & _ & E). cbn in E. destruct (connector s) as [c|]; [|inv_ok; by split_and!].
  apply bind_Ok in E as ([[ext la] c'] & _ & E). destruct ext; inv_ok; by split_and!.
Qed.

Lemma waiting_tokens_core r c a s wt s' :
  waiting_tokens cfg r c a s = Ok (wt, s') -> 0 < token_budget a ->
  same_core s s' /\ match wt with WTGo n _ _ => n <= token_budget a | _ => True end.
Proof.
  unfold waiting_tokens. intros E Hb. destruct (c_async c); [inv_ok; split; [by split_and!|lia]|]. cbv zeta in E.
  destruct (negb _ && _); [inv_ok; by split_and!|]. apply bind_Ok in E as (_ & _ & E).
  destruct (has_encoder_inputs r); [|inv_ok; split; [by split_and!|lia]].
  apply bind_Ok in E as ([[[inputs n] eb] e] & Ee & E). apply encoder_tokens in Ee. cbv beta iota zeta in E.
  destruct (n =? 0); inv_ok; split; try done; lia.
Qed.

Lemma waiting_alloc_core r c n s nb s' : waiting_alloc cfg r c n s = Ok (nb, s') -> same_core s s'.
Proof.
  unfold waiting_alloc. intros E. inv_ok. destruct o as [b|]; [|inv_ok; by split_and!].
  destruct (connector _) as [conn|]; inv_ok; by split_and!.
Qed.

(** A waiting request may change its status to another waiting one. *)
Lemma step_inv_restatus a s o f :
  step_inv a s -> o ∈ queue_objs (waiting s) -> (forall r, request_id (f r) = request_id r) ->
  (forall r, sched_store s !! o = Some r -> is_waiting (status (f r))) -> step_inv a (upd_req o f s).
Proof.
  intros HI Ho Hf Hs. destruct HI as [H1 H2 H3 H4 H5 H6 H7 H8 H9].
  assert (Hperm : queue_objs (waiting s) ++ queue_objs (skipped_waiting_requests a) ≡ₚ
    o :: remove_first o (queue_objs (waiting s) ++ queue_objs (skipped_waiting_requests a))).
  { apply remove_first_perm. rewrite elem_of_app. by left. }
  rewrite Hperm in H1. destruct (life_take _ _ _ _ _ (or_introl H1)) as (r & Hr & _ & _ & _ & Hlive & Hmove).
  split; cbn; try done; [|..|by eapply pins_move].
  - rewrite Hperm. by apply (Hmove f); [|apply Hs].
  - intros rid (x & rx & Hx & Hid & Hin)%H4. destruct (decide (o = x)) as [->|Hne].
    + exists x, (f rx). rewrite lookup_alter_eq, Hx, Hf. done.
    + exists x, rx. by rewrite lookup_alter_ne.
Qed.

Lemma remote_ready_spec a o s ok s' :
  update_waiting_for_remote_kv cfg o s = Ok (ok, s') -> step_inv a s -> step_inv a s' /\ waiting s' = waiting s /\ running s' = running s.
Proof.
  unfold update_waiting_for_remote_kv. intros E HI. apply bind_Ok in E as (_ & _ & E). apply bind_Ok in E as (r & _ & E).
  destruct (decide _); [by inv_ok|]. inv_ok. split; [|done].
  match goal with |- step_inv a (set_finished_recving_kv_req_ids _ (upd_req _ ?f _)) =>
    apply (step_inv_core a (upd_req o f s)); [by split_and!|by apply step_inv_upd] end.
Qed.

Lemma waiting_ready_spec o a s ok s' :
  waiting_ready cfg o a s = Ok (ok, s') -> step_inv a s -> o ∈ queue_objs (waiting s) ->
  step_inv a s' /\ waiting s' = waiting s /\ running s' = running s.
Proof.
  unfold waiting_ready. intros E HI Ho. apply bind_Ok in E as (r & Er & E). apply get_or_Ok in Er.
  apply bind_Ok in E as ([ready s1] & E1 & E). cbv beta iota in E.
  assert (H1 : step_inv a s1 /\ waiting s1 = waiting s /\ running s1 = running s).
  { destruct (decide _); [|by inv_ok]. apply bind_Ok in E1 as ([ok1 s2] & Ek & E1).
    apply (remote_ready_spec a) in Ek as (HI2 & Hw & Hr); [|done]. destruct ok1; inv_ok; [|done].
    split; [|done]. apply step_inv_restatus; [done|by rewrite Hw|done|done]. }
  destruct H1 as (HI1 & Hw1 & Hr1). destruct ready; cbn [negb] in E; [|by inv_ok].
  apply bind_Ok in E as (r1 & Er1 & E). apply get_or_Ok in Er1.
  destruct (if decide (status r1 = WAITING_FOR_FSM) then _ else _) as [ready s2] eqn:E2.
  assert (H2 : step_inv a s2 /\ waiting s2 = waiting s /\ running s2 = running s).
  { destruct (decide (status r1 = WAITING_FOR_FSM)); [|by injection E2 as <- <-].
    destruct (grammar_ready _ _); injection E2 as <- <-; [|done]. split; [|done]. apply step_inv_restatus; [done|by rewrite Hw1|done|done]. }
  destruct ready; cbn [negb] in E; [|by inv_ok]. destruct (max_loras cfg), (lora_request r1); try (by inv_ok).
  destruct (_ && _); by inv_ok.
Qed.

Lemma skip_waiting_spec o a s a' s' :
  skip_waiting o a s = Ok (a', s') -> peek_request (waiting s) = Ok o -> step_inv a s -> preempted_reqs a = [] ->
  step_inv a' s' /\ preempted_reqs a' = [] /\ running s' = running s.
Proof.
  unfold skip_waiting. intros E Hpeek HI Hpre. inv_ok. apply pop_objs in E0 as [Hp Hpk].
  assert (n = o) as -> by congruence. apply prepend_objs in E1.
  destruct HI as [H1 H2 H3 H4 H5 H6 H7 H8 H9]. split; [|done]. split; cbn; try done.
  - rewrite E1. rewrite Hp in H1. by rewrite <-Permutation_middle.
  - rewrite Hpre. by intros x ?%elem_of_nil.
Qed.

(** Admission: from the waiting queue to the running list. *)
Lemma waiting_commit_spec ts o c n inputs eb a s w a' s' :
  waiting_commit cfg ts o c n inputs eb a (set_waiting w s) = Ok (a', s') ->
  queue_objs (waiting s) ≡ₚ o :: queue_objs w -> step_inv a s -> preempted_reqs a = [] -> n <= token_budget a ->
  zlen (running s) < max_num_running_reqs cfg ->
  step_inv a' s' /\ preempted_reqs a' = [] /\ running s' = running s ++ [o].
Proof.
  intros E Hw HI Hpre Hn Hwd. unfold waiting_commit in E. cbv zeta in E.
  set (s1 := if log_stats cfg then _ else _) in E.
  apply bind_Ok in E as (r & Er & E). apply get_or_Ok in Er. apply bind_Ok in E as ([new resumed] & Enr & E). cbv beta iota in E.
  set (f := fun r0 : Request => _) in E. set (a0 := match max_loras cfg with Some _ => _ | None => a end) in E.
  set (a2 := set_scheduled _ _ _ _ _ _ _ _ a0) in E. unfold encoder_allocate in E. inv_ok.
  assert (Hf : forall r, request_id (f r) = request_id r /\ status (f r) = RUNNING).
  { intros r0. unfold f. cbv zeta. by destruct (_ <? 0). }
  (* the intermediate state: moved, not yet recorded *)
  assert (Hs1 : step_inv a (if log_stats cfg then upd_req o (record_event SCHEDULED ts) s else s)).
  { destruct (log_stats cfg); [by apply step_inv_upd|done]. }
  assert (Hst : sched_store s1 = sched_store (if log_stats cfg then upd_req o (record_event SCHEDULED ts) s else s) /\
    requests s1 = requests s /\ waiting s1 = w /\ running s1 = running s ++ [o] /\ pinned_requests s1 = pinned_requests s) by (unfold s1; by destruct (log_stats cfg)).
  set (s0 := if log_stats cfg then _ else s) in *.
  assert (H0 : requests s0 = requests s /\ waiting s0 = waiting s /\ running s0 = running s /\ pinned_requests s0 = pinned_requests s) by (unfold s0; by destruct (log_stats cfg)).
  destruct H0 as (Q1 & Q2 & Q3 & Q5), Hst as (R1 & R2 & R3 & R4 & R5). clearbody s1 s0. rewrite R1 in Er.
  assert (Hrun : o ∉ running s0).
  { intros Ho. apply (life_disjoint _ _ _ _ (sv_life _ _ Hs1) o); [|done]. rewrite elem_of_app, Q2, Hw. left. by left. }
  assert (HI2 : step_inv a (upd_req o f s1)).
  { destruct Hs1 as [H1 H2 H3 H4 H5 H6 H7 H8 H9]. split; cbn; rewrite ?R1, ?R2, ?R3, ?R4; rewrite ?Q1, ?Q2, ?Q3, ?Q5 in *; try done.
    - rewrite Hw in H1. cbn in H1. destruct (life_take _ _ _ _ _ (or_introl H1)) as (r' & _ & _ & _ & _ & _ & Hmove).
      rewrite (Permutation_app_comm (running s)). cbn. apply (Hmove f); apply Hf.
    - intros rid (x & rx & Hx & Hid & Hin)%H4. destruct (decide (o = x)) as [->|Hne].
      + exists x, (f rx). rewrite lookup_alter_eq, Hx. split; [done|]. split; [|done]. rewrite <-Hid. apply Hf.
      + exists x, rx. by rewrite lookup_alter_ne.
    - intros x Hx%H5. rewrite elem_of_app. by left.
    - rewrite Hpre. by intros x ?%elem_of_nil.
    - unfold zlen in *. rewrite length_app. cbn. lia.
    - rewrite Hw in H1. cbn in H1. destruct (life_take _ _ _ _ _ (or_introl H1)) as (r' & Hr' & _ & _ & _ & Hlive & _).
      rewrite R5. eapply pins_move; [done|done|apply Hf|done]. }
  assert (Ha0 : step_inv a0 (upd_req o f s1) /\ scheduled_all a0 = scheduled_all a /\ preempted_reqs a0 = [] /\ token_budget a0 = token_budget a /\
    scheduled_running_reqs a0 = scheduled_running_reqs a).
  { unfold a0. destruct (max_loras cfg), (lora_request r); try done. split; [|done]. destruct HI2 as [G1 G2 G3 G4 G5 G6 G7 G8 G9]. by split. }
  destruct Ha0 as (HI3 & Hall & Hpre0 & Hbud & Hrun0).
  assert (Hsched : scheduled_all a2 ≡ₚ o :: scheduled_all a).
  { unfold a2, scheduled_all. cbn. rewrite Hrun0. destruct (status r); inv_ok; simplify_eq; rewrite <-app_assoc; cbn;
      by rewrite <-!Permutation_middle. }
  split; [|split].
  - apply (step_inv_core a2 (upd_req o f s1)); [by split_and!|]. unfold a2.
    replace (request_id r) with (request_id (f r)) by apply Hf.
    apply (step_inv_scheduled a0 (upd_req o f s1) o (f r)); try done.
    + cbn. by rewrite lookup_alter_eq, R1, Er.
    + cbn. rewrite R4, elem_of_app. right. by left.
    + rewrite Hall. intros Hx%(sv_sub _ _ Hs1). done.
    + lia.
    + by rewrite Hall.
    + by left.
  - done.
  - done.
Qed.

Lemma peek_head q o : peek_request q = Ok o -> o ∈ queue_objs q.
Proof.
  destruct q as [[|x l]|[|e h]]; cbn; intros E; inv_ok; try done; apply elem_of_cons; by left.
Qed.

Lemma waiting_step_spec ts a s go a' s' :
  waiting_step cfg ts a s = Ok (go, a', s') -> step_inv a s -> preempted_reqs a = [] -> 0 < token_budget a ->
  zlen (running s) < max_num_running_reqs cfg -> step_inv a' s' /\ preempted_reqs a' = [].
Proof.
  intros E HI Hpre Hb Hwd. unfold waiting_step in E. apply bind_Ok in E as (o & Epk & E).
  apply bind_Ok in E as ([ready s1] & Erd & E). cbv beta iota in E.
  apply (waiting_ready_spec o a) in Erd as (HI1 & Hw1 & Hr1); [|done|by apply peek_head].
  assert (Hpk1 : peek_request (waiting s1) = Ok o) by (by rewrite Hw1).
  assert (Hskip : forall s2 aa ss, same_core s1 s2 -> skip_waiting o a s2 = Ok (aa, ss) -> step_inv aa ss /\ preempted_reqs aa = []).
  { intros s2 aa ss Hc Es. destruct (skip_waiting_spec o a s2 aa ss) as (? & ? & _); try done.
    - destruct Hc as (_ & _ & -> & _). done.
    - by eapply step_inv_core. }
  destruct ready; cbn [negb] in E; [|inv_ok; by eapply (Hskip s1)].
  apply bind_Ok in E as (r & _ & E). apply bind_Ok in E as ([oc s2] & Ec & E). cbv beta iota in E.
  apply waiting_computed_core in Ec. destruct oc as [c|]; [|inv_ok; by eapply (Hskip s2)].
  apply bind_Ok in E as ([wt s3] & Et & E). cbv beta iota in E. apply waiting_tokens_core in Et as [Hc3 Hn]; [|done].
  assert (Hc13 : same_core s1 s3) by (by etrans).
  destruct wt as [| |n inputs eb]; [inv_ok; by eapply (Hskip s3)|inv_ok; split; [by eapply step_inv_core|done]|].
  apply bind_Ok in E as ([nb s4] & Ea & E). cbv beta iota in E. apply waiting_alloc_core in Ea.
  assert (Hc14 : same_core s1 s4) by (by etrans). assert (HI4 : step_inv a s4) by (by eapply step_inv_core).
  destruct nb as [b|]; [|by inv_ok]. apply bind_Ok in E as ([o' w] & Epop & E). cbv beta iota in E.
  apply pop_objs in Epop as [Hperm Hpk4]. destruct Hc14 as (Q1 & Q2 & Q3 & Q4 & Q5).
  destruct (c_async c).
  - inv_ok. apply prepend_objs in E0. split; [|done].
    assert (HI5 : step_inv (set_skipped a0 a) (set_waiting w s4)).
    { destruct HI4 as [H1 H2 H3 H4 H5 H6 H7 H8 H9]. split; cbn; try done.
      - rewrite E0. rewrite Hperm in H1. by rewrite <-Permutation_middle.
      - rewrite Hpre. by intros x ?%elem_of_nil. }
    (* the popped request is now among the skipped ones *)
    pose proof (sv_life _ _ HI5) as HL. cbn in HL. rewrite E0, <-Permutation_middle in HL.
    destruct (life_take _ _ _ _ _ (or_introl HL)) as (r0 & Hr0 & _ & _ & _ & Hlive & Hmove).
    destruct HI5 as [H1 H2 H3 H4 H5 H6 H7 H8 H9]. split; cbn in *; try done.
    + rewrite E0, <-Permutation_middle. by apply (Hmove (set_status WAITING_FOR_REMOTE_KVS)).
    + intros rid (x & rx & Hx & Hid & Hin)%H4. destruct (decide (o' = x)) as [->|Hne].
      * exists x, (set_status WAITING_FOR_REMOTE_KVS rx). by rewrite lookup_alter_eq, Hx.
      * exists x, rx. by rewrite lookup_alter_ne.
    + by eapply pins_move.
  - inv_ok. destruct (waiting_commit_spec _ _ _ _ _ _ _ _ _ _ _ E0 Hperm HI4 Hpre Hn) as (? & ? & _); [by rewrite Q4, Hr1|done].
Qed.

Lemma waiting_loop_spec ts fuel : forall a s a' s',
  waiting_loop cfg fuel ts a s = Ok (a', s') -> step_inv a s -> preempted_reqs a = [] -> step_inv a' s'.
Proof.
  induction fuel as [|fuel IH]; intros a s a' s' E HI Hpre; cbn [waiting_loop] in E;
    destruct (negb _) eqn:Ec; try (by inv_ok); destruct (Z.eqb_spec (zlen (running s)) (max_num_running_reqs cfg)); try (by inv_ok).
  apply bind_Ok in E as ([[go a1] s1] & Es & E). cbv beta iota in E.
  assert (Hb : 0 < token_budget a) by (apply negb_false_iff, andb_true_iff in Ec as [_ ?]; lia).
  pose proof (sv_width _ _ HI).
  destruct (waiting_step_spec _ _ _ _ _ _ Es HI Hpre Hb) as [HI1 Hpre1]; [lia|].
  destruct go; [by eapply IH|by inv_ok].
Qed.

(** The state between steps. *)
Record sched_inv (s : Sched) : Prop := mkSchedInv {
  sc_life : life (sched_store s) (requests s) (queue_objs (waiting s)) (running s);
  sc_width : zlen (running s) <= max_num_running_reqs cfg;
  sc_pins : pins_ok (sched_store s) (requests s) (pinned_requests s)
}.

Lemma sched_inv_core s s' : same_core s s' -> sched_inv s -> sched_inv s'.
Proof. intros (E1 & E2 & E3 & E4 & E5) [H1 H2 H3]. split; by rewrite ?E1, ?E2, ?E3, ?E4, ?E5. Qed.

Lemma step_init_inv s : 0 <= max_num_scheduled_tokens cfg -> sched_inv s -> run_inv 0 (step_init cfg) s.
Proof.
  intros Hm [HL Hwd Hpins].
  assert (Hq : queue_objs (create_request_queue (policy cfg)) = []) by (by destruct (policy cfg)).
  split; [|done..|by intros x _ ?%elem_of_nil]. split; cbn; try done; try (by intros x ?%elem_of_nil).
  - by rewrite Hq, app_nil_r.
  - constructor.
Qed.

Lemma record_loras_spec a s a' : record_loras cfg a s = Ok a' -> step_inv a s ->
  step_inv a' s /\ preempted_reqs a' = preempted_reqs a.
Proof.
  unfold record_loras. intros E HI. destruct (max_loras cfg); inv_ok; [|done]. split; [|done].
  destruct HI as [H1 H2 H3 H4 H5 H6 H7 H8 H9]. by split.
Qed.

Lemma schedule_loops_spec ts s a s' :
  schedule_loops cfg ts s = Ok (a, s') -> 0 <= max_num_scheduled_tokens cfg -> sched_inv s ->
  sched_inv s' /\ sum_values (num_scheduled_tokens a) + token_budget a = max_num_scheduled_tokens cfg /\
  0 <= token_budget a /\ NoDup (scheduled_all a) /\ (forall o, o ∈ scheduled_all a -> o ∈ running s') /\
  (forall rid, rid ∈ (num_scheduled_tokens a).*1 -> exists o r, sched_store s' !! o = Some r /\ request_id r = rid /\
    o ∈ scheduled_all a ++ preempted_reqs a).
Proof.
  intros E Hm HI. unfold schedule_loops in E. apply bind_Ok in E as ([a1 s1] & E1 & E). cbv beta iota in E.
  apply running_loop_spec in E1 as (idx & [HI1 _ _ _ _]); [|by apply step_init_inv].
  apply bind_Ok in E as (a2 & E2 & E). apply (record_loras_spec a1 s1) in E2 as [HI2 Hp2]; [|done].
  apply bind_Ok in E as ([a3 s3] & E3 & E). cbv beta iota in E.
  assert (HI3 : step_inv a3 s3).
  { destruct (decide (preempted_reqs a2 = [])); [by eapply waiting_loop_spec|by inv_ok]. }
  assert (H : sched_store s' = sched_store s3 /\ requests s' = requests s3 /\ running s' = running s3 /\ a = a3 /\ pinned_requests s' = pinned_requests s3 /\
    queue_objs (waiting s') ≡ₚ queue_objs (waiting s3) ++ queue_objs (skipped_waiting_requests a3)).
  { destruct (queue_bool (skipped_waiting_requests a3)) eqn:Eb; inv_ok.
    - apply prepend_requests_objs in E0. by rewrite E0, Permutation_app_comm.
    - unfold queue_bool in Eb. rewrite queue_len_objs in Eb. apply negb_false_iff, Z.eqb_eq in Eb.
      destruct (queue_objs (skipped_waiting_requests a)); [|done]. by rewrite app_nil_r. }
  destruct H as (Q1 & Q2 & Q3 & -> & Q5 & Q4). destruct HI3 as [H1 H2 H3 H4 H5 H6 H7 H8 H9].
  split; [split; [by rewrite Q1, Q2, Q3, Q4|by rewrite Q3|by rewrite Q1, Q2, Q5]|]. rewrite Q1, Q3. done.
Qed.

(** ** The rest of a step *)

Lemma make_output_core total a s out s' :
  make_output cfg total a s = Ok (out, s') ->
  same_core s s' /\ so_num_scheduled_tokens out = num_scheduled_tokens a /\ so_total_num_scheduled_tokens out = total /\
  zlen (so_new_reqs out) = zlen (scheduled_new_reqs a).
Proof.
  unfold make_output, get_grammar_bitmask. intros E.
  apply bind_Ok in E as (pre & _ & E). apply bind_Ok in E as (new & En & E). apply bind_Ok in E as (cached & _ & E).
  apply bind_Ok in E as ([ids s1] & Eg & E). apply bind_Ok in Eg as (ids' & _ & Eg). cbn in E.
  assert (Hlen : zlen new = zlen (scheduled_new_reqs a)).
  { unfold make_new_request_data in En. clear -En. revert new En. induction (scheduled_new_reqs a) as [|o l IH]; intros new En; cbn in En; inv_ok; [done|].
    rewrite !zlen_cons. by rewrite (IH _ E0). }
  destruct (decide (ids' = ∅)); inv_ok; split_and!; done.
Qed.

Lemma collect_events_core out s meta ev s' : collect_events out s = Ok (meta, ev, s') -> same_core s s'.
Proof.
  unfold collect_events. intros E. apply bind_Ok in E as ([m s1] & E1 & E). cbv beta iota in E.
  assert (same_core s s1) by (destruct (connector s); inv_ok; by split_and!).
  destruct (kvm_take_events (kv_cache_manager s1)) as [evs k]. cbn in E. destruct (connector s1) as [c|]; [|inv_ok; etrans; [done|by split_and!]].
  destruct (conn_take_events c) as [ce c']. inv_ok. etrans; [done|by split_and!].
Qed.

Lemma sched_inv_upd s o f :
  (forall r, request_id (f r) = request_id r /\ status (f r) = status r) -> sched_inv s -> sched_inv (upd_req o f s).
Proof.
  intros Hf [H1 H2 H3]. split; [apply life_upd; auto|done|]. apply pins_upd; [|done].
  intros r _. destruct (Hf r) as [? E]. unfold is_finished. by rewrite E.
Qed.

Lemma free_encoder_inputs_core o s s' : free_encoder_inputs cfg o s = Ok s' -> same_core s s'.
Proof. unfold free_encoder_inputs. intros E. inv_ok. by split_and!. Qed.

Lemma update_after_schedule_inv out s s' : update_after_schedule cfg out s = Ok s' -> sched_inv s -> sched_inv s'.
Proof.
  unfold update_after_schedule. intros E HI. apply bind_Ok in E as (s1 & E1 & E).
  assert (HI1 : sched_inv s1).
  { revert E1. apply foldM_inv; [|done]. intros s0 kv s2 _ HI0 E0. unfold advance_request in E0.
    apply bind_Ok in E0 as (o & _ & E0). apply bind_Ok in E0 as (r & _ & E0).
    assert (H : sched_inv (upd_req o (fun r => set_num_computed_tokens (num_computed_tokens r + kv.2) r) s0)) by (by apply sched_inv_upd).
    destruct (has_encoder_inputs r); [|by inv_ok]. by eapply sched_inv_core; [eapply free_encoder_inputs_core|]. }
  assert (HI2 : sched_inv (set_finished_req_ids ∅ s1)) by (by eapply sched_inv_core; [|exact HI1]; split_and!).
  destruct (async_scheduling cfg); [|by inv_ok]. revert E. apply foldM_inv; [|done].
  intros s0 kv s2 _ HI0 E0. unfold add_placeholder in E0. apply bind_Ok in E0 as (o & _ & E0). apply bind_Ok in E0 as (r & _ & E0).
  destruct (_ =? _); inv_ok; [by apply sched_inv_upd|done].
Qed.

(** ** Unregistering a finished request *)

Lemma life_unregister st reqs W run rid o r :
  life st reqs W run -> reqs !! rid = Some o -> st !! o = Some r -> is_finished r = true -> life st (delete rid reqs) W run.
Proof.
  intros [H1 H2 H3 H4 H5] Hreg Ho Hfin.
  assert (Hne : forall x rx, st !! x = Some rx -> status rx = RUNNING \/ is_waiting (status rx) -> reqs !! request_id rx = Some x ->
    delete rid reqs !! request_id rx = Some x).
  { intros x rx Hx Hl Hr. destruct (decide (rid = request_id rx)) as [->|]; [|by rewrite lookup_delete_ne].
    exfalso. simplify_eq. by rewrite live_unfinished in Hfin. }
  split; try done.
  - intros x (rx & ? & ? & ?)%H1. exists rx. split_and!; try done. apply Hne; auto.
  - intros x (rx & ? & ? & ?)%H2. exists rx. split_and!; try done. apply Hne; auto.
  - intros rid' x [_ Hx]%lookup_delete_Some. by apply H5.
Qed.

Lemma free_blocks_of_spec o (s s' : Sched) :
  free_blocks_of o s = Ok s' -> exists r k, sched_store s !! o = Some r /\ is_finished r = true /\ is_Some (requests s !! request_id r) /\
    kvm_free r (kv_cache_manager s) = Ok k /\
    s' = set_requests (delete (request_id r) (requests s)) (set_kv_cache_manager k s).
Proof. unfold free_blocks_of, get_req. intros E. inv_ok. eexists _, _. by split_and!. Qed.

Lemma free_blocks_of_inv o (s s' : Sched) r :
  free_blocks_of o s = Ok s' -> sched_inv s -> sched_store s !! o = Some r ->
  (forall o', requests s !! request_id r = Some o' -> o' = o) -> sched_inv s'.
Proof.
  intros (r' & k & Hr & Hfin & [o' Ho'] & _ & ->)%free_blocks_of_spec [H1 H2 H3] Hr' Hown. simplify_eq.
  pose proof (Hown o' Ho') as ->. split; [by eapply life_unregister|done|].
  intros p (rp & ? & ? & Hp)%H3. exists rp. cbn. split_and!; try done. by intros x [_ ?%Hp]%lookup_delete_Some.
Qed.

Lemma expire_pins_inv now (s s' : Sched) : mimir_expire_pins now s = Ok s' -> sched_inv s -> sched_inv s'.
Proof.
  unfold mimir_expire_pins. intros E HI. apply bind_Ok in E as ([still s1] & E1 & E). inv_ok.
  assert (H : sched_inv s1 /\ (forall p, p ∈ still -> p ∈ pinned_requests s1)).
  { assert (Hfold : forall l still0 s0, sched_inv s0 -> (forall p, p ∈ still0 -> p ∈ pinned_requests s0) ->
      (forall p, p ∈ l -> p ∈ pinned_requests s0) -> foldM (expire_one now) (still0, s0) l = Ok (still, s1) ->
      sched_inv s1 /\ (forall p, p ∈ still -> p ∈ pinned_requests s1)).
    { induction l as [|p l IH]; intros still0 s0 HI0 Hst Hl E; cbn in E; [by inv_ok|].
      assert (Hl' : forall q, q ∈ l -> q ∈ pinned_requests s0) by (intros q Hq; apply Hl; by right).
      destruct (decide (p.2 <= now)%Qc).
      - apply bind_Ok in E as ([st2 s2] & E2 & E). apply bind_Ok in E2 as (r & Er & E2). apply get_or_Ok in Er.
        destruct (decide (is_Some _)); [|injection E2 as <- <-; exact (IH _ _ HI0 Hst Hl' E)]. apply bind_Ok in E2 as (s3 & E3 & E2). injection E2 as <- <-.
        destruct (sc_pins _ HI0 p) as (rp & Hrp & _ & Hown); [apply Hl; by left|]. simplify_eq.
        pose proof (free_blocks_of_spec _ _ _ E3) as (r' & k & _ & _ & _ & _ & Es3).
        assert (HI3 : sched_inv s3) by (by eapply free_blocks_of_inv).
        refine (IH _ _ HI3 _ _ E); by rewrite Es3.
      - cbn in E. eapply IH; [exact HI0| |exact Hl'|exact E].
        intros q [Hq| ->%list_elem_of_singleton]%elem_of_app; [by apply Hst|]. apply Hl. by left. }
    eapply Hfold; [exact HI| | |exact E1]; [by intros p ?%elem_of_nil|done]. }
  destruct H as [[H1 H2 H3] Hsub]. split; [done|done|]. intros p Hp. apply H3. by apply Hsub.
Qed.

Lemma constraints_hold a s :
  sched_inv s -> sum_values (num_scheduled_tokens a) + token_budget a = max_num_scheduled_tokens cfg -> 0 <= token_budget a ->
  NoDup (scheduled_all a) -> (forall o, o ∈ scheduled_all a -> o ∈ running s) ->
  check_constraints cfg a s = Ok (sum_values (num_scheduled_tokens a)).
Proof.
  intros [_ Hwd _] Hsum Hb Hnd Hsub. unfold check_constraints.
  assert (Hlen : (length (scheduled_all a) <= length (running s))%nat) by (apply submseteq_length, NoDup_submseteq; done).
  unfold scheduled_all in Hlen. rewrite !length_app in Hlen.
  replace (sum_values _ <=? _) with true by (symmetry; apply Z.leb_le; lia).
  replace (0 <=? _) with true by (symmetry; apply Z.leb_le; lia).
  replace (zlen (running s) <=? _) with true by (symmetry; apply Z.leb_le; lia).
  replace (_ + _ + _ <=? _) with true by (symmetry; apply Z.leb_le; unfold zlen; lia). done.
Qed.

(** What a scheduling step guarantees. *)
Lemma schedule_ok now ts s :
  0 <= max_num_scheduled_tokens cfg -> sched_inv s ->
  (forall s0 a s1, (if decide (policy cfg = MIMIR) then mimir_expire_pins now s else Ok s) = Ok s0 ->
     schedule_loops cfg ts s0 = Ok (a, s1) -> exists total, check_constraints cfg a s1 = Ok total) /\
  (forall out meta ev s', schedule cfg now ts s = Ok (out, meta, ev, s') ->
     sched_inv s' /\ so_total_num_scheduled_tokens out = sum_values (so_num_scheduled_tokens out) /\
     so_total_num_scheduled_tokens out <= max_num_scheduled_tokens cfg).
Proof.
  intros Hm HI.
  assert (Hexp : forall s0, (if decide (policy cfg = MIMIR) then mimir_expire_pins now s else Ok s) = Ok s0 -> sched_inv s0).
  { intros s0 E. destruct (decide _); [by eapply expire_pins_inv|by inv_ok]. }
  split.
  - intros s0 a s1 E0 E1. destruct (schedule_loops_spec _ _ _ _ E1 Hm (Hexp _ E0)) as (HI1 & H2 & H3 & H4 & H5 & _).
    eexists. by apply constraints_hold.
  - intros out meta ev s' E. unfold schedule in E. apply bind_Ok in E as (s0 & E0 & E). apply bind_Ok in E as ([a s1] & E1 & E).
    destruct (schedule_loops_spec _ _ _ _ E1 Hm (Hexp _ E0)) as (HI1 & H2 & H3 & H4 & H5 & _). cbv beta iota in E.
    rewrite (constraints_hold a s1) in E by done. cbn [mbind result_bind] in E.
    apply bind_Ok in E as ([out' s2] & E2 & E). apply make_output_core in E2 as (Hc & Hn & Ht & _). cbv beta iota in E.
    apply bind_Ok in E as ([[m e] s3] & E3 & E). apply collect_events_core in E3. cbv beta iota in E. inv_ok.
    split; [|rewrite Hn, Ht; split; [done|lia]]. eapply update_after_schedule_inv; [eassumption|]. eapply sched_inv_core; [|exact HI1]. by etrans.
Qed.
End Steps.
