(* ===== verification/SchedTerm.v ===== *)
(** Termination of the scheduler's loops. The [while] loops of [schedule] are
    given a second meaning without fuel, as derivations; a loop that runs
    forever has none. The fuel of the executable definitions is shown to be
    enough: what they return is what the loop derives. *)
From Stdlib Require Import ZArith Lia Ascii String QArith Qcanon.
From stdpp Require Import numbers gmap strings list.
From S2P Require Import Prelude FreeQueue Request BlockPool KVCacheManager EncoderCache RequestQueue SchedState Scheduler SchedulerUpdate Lifecycle.

Open Scope Z_scope.

Section Termination.
Context {C G : Type} `{!KVConnector C, !StructuredOutput G} (cfg : SchedConfig).
Abbreviation Sched := (Scheduler C G).

(** [while True: new_blocks = allocate_slots(...); ...; preempt]. *)
Inductive alloc_run (ts : Qc) (o : nat) (n : Z) : Step -> Sched -> result (option KVCacheBlocks * Step * Sched) -> Prop :=
| ar_raise a s e r :
    get_req o s = Ok r ->
    allocate_slots r n 0 None (num_lookahead_tokens cfg) false 0 (kv_cache_manager s) = Err e -> alloc_run ts o n a s (Err e)
| ar_missing a s e : get_req o s = Err e -> alloc_run ts o n a s (Err e)
| ar_done a s r b k :
    get_req o s = Ok r ->
    allocate_slots r n 0 None (num_lookahead_tokens cfg) false 0 (kv_cache_manager s) = Ok (Some b, k) ->
    alloc_run ts o n a s (Ok (Some b, a, set_kv_cache_manager k s))
| ar_preempt_raise a s r k e :
    get_req o s = Ok r ->
    allocate_slots r n 0 None (num_lookahead_tokens cfg) false 0 (kv_cache_manager s) = Ok (None, k) ->
    preempt_one cfg ts a (set_kv_cache_manager k s) = Err e -> alloc_run ts o n a s (Err e)
| ar_preempt_self a s r k a' s' :
    get_req o s = Ok r ->
    allocate_slots r n 0 None (num_lookahead_tokens cfg) false 0 (kv_cache_manager s) = Ok (None, k) ->
    preempt_one cfg ts a (set_kv_cache_manager k s) = Ok (o, a', s') -> alloc_run ts o n a s (Ok (None, a', s'))
| ar_preempt a s r k v a' s' res :
    get_req o s = Ok r ->
    allocate_slots r n 0 None (num_lookahead_tokens cfg) false 0 (kv_cache_manager s) = Ok (None, k) ->
    preempt_one cfg ts a (set_kv_cache_manager k s) = Ok (v, a', s') -> v ≠ o ->
    alloc_run ts o n a' s' res -> alloc_run ts o n a s res.

(** [while req_index < len(self.running) and token_budget > 0: ...]. *)
Inductive running_run (ts : Qc) : nat -> Step -> Sched -> result (Step * Sched) -> Prop :=
| rr_exit idx a s :
    (idx <? length (running s))%nat && (0 <? token_budget a) = false -> running_run ts idx a s (Ok (a, s))
| rr_raise idx a s e :
    (idx <? length (running s))%nat && (0 <? token_budget a) = true -> running_step cfg ts idx a s = Err e ->
    running_run ts idx a s (Err e)
| rr_break idx a s a' s' :
    (idx <? length (running s))%nat && (0 <? token_budget a) = true -> running_step cfg ts idx a s = Ok (None, a', s') ->
    running_run ts idx a s (Ok (a', s'))
| rr_next idx a s j a' s' res :
    (idx <? length (running s))%nat && (0 <? token_budget a) = true -> running_step cfg ts idx a s = Ok (Some j, a', s') ->
    running_run ts j a' s' res -> running_run ts idx a s res.

(** [while self.waiting and token_budget > 0: ...]. *)
Inductive waiting_run (ts : Qc) : Step -> Sched -> result (Step * Sched) -> Prop :=
| wr_exit a s :
    queue_bool (waiting s) && (0 <? token_budget a) = false -> waiting_run ts a s (Ok (a, s))
| wr_full a s :
    queue_bool (waiting s) && (0 <? token_budget a) = true -> zlen (running s) = max_num_running_reqs cfg ->
    waiting_run ts a s (Ok (a, s))
| wr_raise a s e :
    queue_bool (waiting s) && (0 <? token_budget a) = true -> zlen (running s) ≠ max_num_running_reqs cfg ->
    waiting_step cfg ts a s = Err e -> waiting_run ts a s (Err e)
| wr_break a s a' s' :
    queue_bool (waiting s) && (0 <? token_budget a) = true -> zlen (running s) ≠ max_num_running_reqs cfg ->
    waiting_step cfg ts a s = Ok (false, a', s') -> waiting_run ts a s (Ok (a', s'))
| wr_next a s a' s' res :
    queue_bool (waiting s) && (0 <? token_budget a) = true -> zlen (running s) ≠ max_num_running_reqs cfg ->
    waiting_step cfg ts a s = Ok (true, a', s') -> waiting_run ts a' s' res -> waiting_run ts a s res.

(** ** Measures *)

(** A preemption shortens the running list by one. *)
Lemma preempt_one_length ts a (s : Sched) v a' s' :
  preempt_one cfg ts a s = Ok (v, a', s') -> length (running s) = S (length (running s')).
Proof.
  unfold preempt_one. intros E. apply bind_Ok in E as ([[v' run] sched] & Ev & E). cbv beta iota in E.
  assert (Hlen : length (running s) = S (length run)).
  { unfold take_victim in Ev. destruct (decide (policy cfg = PRIORITY)) as [Hp|Hp].
    - rewrite Hp in Ev. apply bind_Ok in Ev as (w & Ew & Ev). injection Ev as <- <- <-. apply pick_victim_spec in Ew as [Hv _].
      by rewrite (remove_first_perm w (running s) Hv) at 1.
    - assert (H : exists w, last (running s) = Some w /\ take (length (running s) - 1) (running s) = run).
      { destruct (policy cfg); [|done|]; apply bind_Ok in Ev as (w & Hl & Ev); apply get_or_Ok in Hl; injection Ev as <- <- <-; eauto. }
      destruct H as (w & Hl & <-). destruct (running s); [done|]. rewrite length_take. cbn. lia. }
  inv_ok. by cbn.
Qed.

Lemma alloc_loop_length ts o n fuel : forall a (s : Sched) nb a' s',
  alloc_loop cfg fuel ts o n a s = Ok (nb, a', s') -> (length (running s') <= length (running s))%nat.
Proof.
  induction fuel as [|fuel IH]; intros a s nb a' s' E; [done|]. cbn [alloc_loop] in E.
  apply bind_Ok in E as (r & _ & E). apply bind_Ok in E as ([[b|] k] & _ & E); cbv beta iota zeta in E; [by inv_ok|].
  apply bind_Ok in E as ([[v a1] s1] & Ep & E). cbv beta iota in E. apply preempt_one_length in Ep. cbn in Ep.
  destruct (decide (v = o)); [inv_ok; lia|]. apply IH in E. lia.
Qed.

Lemma running_step_length ts idx a (s : Sched) j a' s' :
  running_step cfg ts idx a s = Ok (Some j, a', s') -> j = S idx /\ (length (running s') <= length (running s))%nat.
Proof.
  unfold running_step. intros E. apply bind_Ok in E as (o & _ & E). apply bind_Ok in E as (r & _ & E).
  apply bind_Ok in E as ([[[inputs n] eb] e] & _ & E). cbv beta iota zeta in E. destruct (n =? 0); [by inv_ok|].
  apply bind_Ok in E as ([[nb a1] s1] & Ea & E). cbv beta iota in E. apply alloc_loop_length in Ea. cbn in Ea.
  destruct nb as [b|]; [|by inv_ok]. destruct (schedule_spec o r n _ s1) as [a2 s2] eqn:Es.
  assert (running s2 = running s1) as Hr.
  { unfold schedule_spec in Es. destruct (decide _); [by simplify_eq|]. destruct (0 <? _); by simplify_eq. }
  unfold encoder_allocate in E. inv_ok. cbn. by rewrite Hr.
Qed.

Lemma waiting_ready_queue o a (s : Sched) ready s1 : waiting_ready cfg o a s = Ok (ready, s1) -> waiting s1 = waiting s.
Proof.
  intros Er. unfold waiting_ready in Er. apply bind_Ok in Er as (r & _ & Er). apply bind_Ok in Er as ([rd s2] & Erm & Er). cbv beta iota in Er.
  assert (Hw2 : waiting s2 = waiting s).
  { destruct (decide _); [|by inv_ok]. apply bind_Ok in Erm as ([ok s3] & Eu & Erm). cbv beta iota in Erm.
    assert (waiting s3 = waiting s) by (unfold update_waiting_for_remote_kv in Eu; inv_ok; destruct (decide _); by inv_ok).
    injection Erm as <- <-. by destruct ok. }
  destruct rd; cbn [negb] in Er; [|by inv_ok]. apply bind_Ok in Er as (r2 & _ & Er).
  destruct (if decide (status r2 = WAITING_FOR_FSM) then _ else _) as [rd s3] eqn:E3.
  assert (waiting s3 = waiting s).
  { destruct (decide (status r2 = WAITING_FOR_FSM)); [|by injection E3 as <- <-].
    destruct (grammar_ready _ _); by injection E3 as <- <-. }
  destruct rd; cbn [negb] in Er; [|by inv_ok]. destruct (max_loras cfg), (lora_request r2); try (by inv_ok). destruct (_ && _); by inv_ok.
Qed.

Lemma waiting_tokens_queue r c a (s : Sched) wt s' : waiting_tokens cfg r c a s = Ok (wt, s') -> waiting s' = waiting s.
Proof.
  unfold waiting_tokens. intros Et. destruct (c_async c); [by inv_ok|]. cbv zeta in Et. destruct (negb _ && _); [by inv_ok|].
  apply bind_Ok in Et as (u & _ & Et). destruct (has_encoder_inputs r); [|by inv_ok].
  apply bind_Ok in Et as ([[[inputs n] eb] e] & _ & Et). cbv beta iota zeta in Et. destruct (n =? 0); by inv_ok.
Qed.

(** An iteration that goes on takes one request from the waiting queue. *)
Lemma waiting_step_length ts a (s : Sched) a' s' :
  waiting_step cfg ts a s = Ok (true, a', s') -> length (queue_objs (waiting s)) = S (length (queue_objs (waiting s'))).
Proof.
  unfold waiting_step. intros E. apply bind_Ok in E as (o & _ & E). apply bind_Ok in E as ([ready s1] & Er & E). cbv beta iota in E.
  apply waiting_ready_queue in Er as Hw.
  assert (Hpop : forall (s2 : Sched) q o', waiting s2 = waiting s -> pop_request (waiting s2) = Ok (o', q) ->
    length (queue_objs (waiting s)) = S (length (queue_objs q))).
  { intros s2 q o' Hs2 [Hp _]%pop_objs. by rewrite <-Hs2, Hp. }
  assert (Hskip : forall (s2 : Sched) a2 s3, waiting s2 = waiting s -> skip_waiting o a s2 = Ok (a2, s3) ->
    length (queue_objs (waiting s)) = S (length (queue_objs (waiting s3)))).
  { intros s2 a2 s3 Hs2 Es. unfold skip_waiting in Es. inv_ok. by eapply (Hpop s2). }
  destruct ready; cbn [negb] in E; [|inv_ok; by eapply (Hskip s1)]. apply bind_Ok in E as (r & _ & E).
  apply bind_Ok in E as ([oc s2] & Ec & E). cbv beta iota in E. apply waiting_computed_core in Ec as (_ & _ & Hw2 & _).
  destruct oc as [c|]; [|inv_ok; eapply (Hskip s2); [congruence|done]].
  apply bind_Ok in E as ([wt s3] & Et & E). cbv beta iota in E.
  assert (Hw3 : waiting s3 = waiting s) by (apply waiting_tokens_queue in Et; congruence).
  destruct wt as [| |n inputs eb]; [inv_ok; by eapply (Hskip s3)|done|].
  apply bind_Ok in E as ([nb s4] & Ea & E). cbv beta iota in E. apply waiting_alloc_core in Ea as (_ & _ & Hw4 & _).
  destruct nb as [b|]; [|done]. apply bind_Ok in E as ([o' w] & Epop & E). cbv beta iota zeta in E.
  apply (Hpop s4) in Epop; [|congruence]. destruct (c_async c); [by inv_ok|].
  apply bind_Ok in E as ([a5 s5] & E5 & E). inv_ok. unfold waiting_commit in E5. cbv zeta in E5.
  apply bind_Ok in E5 as (r5 & _ & E5). apply bind_Ok in E5 as ([new res] & _ & E5). unfold encoder_allocate in E5. inv_ok. cbn.
  by destruct (log_stats cfg).
Qed.

(** ** The fuel is enough *)

Lemma alloc_loop_runs ts o n fuel : forall a (s : Sched),
  (length (running s) < fuel)%nat -> alloc_run ts o n a s (alloc_loop cfg fuel ts o n a s).
Proof.
  induction fuel as [|fuel IH]; intros a s Hf; [lia|]. cbn [alloc_loop].
  destruct (get_req o s) as [r|e] eqn:Er; [|by apply ar_missing]. cbn [mbind result_bind].
  destruct (allocate_slots r n 0 None _ false 0 _) as [[[b|] k]|e] eqn:Ea; cbn [mbind result_bind];
    [by eapply ar_done| |by eapply ar_raise].
  destruct (preempt_one cfg ts a _) as [[[v a1] s1]|e] eqn:Ep; cbn [mbind result_bind]; [|by eapply ar_preempt_raise].
  destruct (decide (v = o)) as [->|Hne]; [by eapply ar_preempt_self|]. eapply ar_preempt; try done.
  apply IH. apply preempt_one_length in Ep. cbn in Ep. lia.
Qed.

Lemma running_loop_runs ts fuel : forall idx a (s : Sched),
  (length (running s) - idx < fuel)%nat -> running_run ts idx a s (running_loop cfg fuel ts idx a s).
Proof.
  induction fuel as [|fuel IH]; intros idx a s Hf; [lia|]. cbn [running_loop].
  destruct ((idx <? length (running s))%nat && (0 <? token_budget a)) eqn:Eg; cbn [negb]; [|by apply rr_exit].
  destruct (running_step cfg ts idx a s) as [[[[j|] a1] s1]|e] eqn:Es; cbn [mbind result_bind].
  - eapply rr_next; try done. apply running_step_length in Es as [-> ?]. apply IH.
    apply andb_true_iff in Eg as [Hlt%Nat.ltb_lt _]. lia.
  - by eapply rr_break.
  - by eapply rr_raise.
Qed.

Lemma waiting_loop_runs ts fuel : forall a (s : Sched),
  (length (queue_objs (waiting s)) < fuel)%nat -> waiting_run ts a s (waiting_loop cfg fuel ts a s).
Proof.
  induction fuel as [|fuel IH]; intros a s Hf; [lia|]. cbn [waiting_loop].
  destruct (queue_bool (waiting s) && (0 <? token_budget a)) eqn:Eg; cbn [negb]; [|by apply wr_exit].
  destruct (Z.eqb_spec (zlen (running s)) (max_num_running_reqs cfg)); [by apply wr_full|].
  destruct (waiting_step cfg ts a s) as [[[[|] a1] s1]|e] eqn:Es; cbn [mbind result_bind].
  - eapply wr_next; try done. apply IH. apply waiting_step_length in Es. lia.
  - by eapply wr_break.
  - by eapply wr_raise.
Qed.

End Termination.

(** C24: The three loops of a scheduling step terminate, for every state, every
    connector and every grammar manager: the preemption loop after at most one
    preemption per running request, the running loop after at most one
    iteration per running request, the waiting loop after at most one per
    waiting request. What the executable loops return with that much fuel is
    what the unbounded loops derive, errors included. *)
Theorem schedule_loops_terminate {C G : Type} `{!KVConnector C, !StructuredOutput G} (cfg : SchedConfig)
    (ts : Qc) (o : nat) (n : Z) (a : Step) (s : Scheduler C G) :
  alloc_run cfg ts o n a s (alloc_loop cfg (S (length (running s))) ts o n a s) /\
  running_run cfg ts 0 a s (running_loop cfg (S (length (running s))) ts 0 a s) /\
  waiting_run cfg ts a s (waiting_loop cfg (S (Z.to_nat (queue_len (waiting s)))) ts a s).
Proof.
  split; [apply alloc_loop_runs; lia|]. split; [apply running_loop_runs; lia|].
  apply waiting_loop_runs. rewrite queue_len_objs. unfold zlen. lia.
Qed.
