(* ===== verification/LifecycleOps.v ===== *)
(** The lifecycle invariant under the scheduler's other entry points, and the
    scheduler as a state machine: every state reachable by any sequence of
    calls satisfies the invariant. *)
From Stdlib Require Import ZArith Lia Ascii String QArith Qcanon.
From stdpp Require Import numbers gmap strings list.
From S2P Require Import Prelude FreeQueue Request BlockPool KVCacheManager EncoderCache RequestQueue SchedState Scheduler SchedulerUpdate Lifecycle.

Open Scope Z_scope.

(** * Finishing *)

(** A request that finishes leaves both lists. *)
Lemma life_finish st reqs W run o f :
  life st reqs W run -> (forall r, st !! o = Some r -> request_id (f r) = request_id r /\ is_finished (f r) = true) ->
  life (alter f o st) reqs (filter (fun x => x ≠ o) W) (filter (fun x => x ≠ o) run).
Proof.
  intros [H1 H2 H3 H4 H5] Hf.
  assert (Hx : forall x, x ≠ o -> alter f o st !! x = st !! x) by (intros x ?; by rewrite lookup_alter_ne).
  split.
  - intros x [Hne Hin]%list_elem_of_filter. rewrite Hx by done. by apply H1.
  - intros x [Hne Hin]%list_elem_of_filter. rewrite Hx by done. by apply H2.
  - by apply NoDup_filter.
  - by apply NoDup_filter.
  - intros rid x (r & Hr & Hid & Ha & Hb)%H5. destruct (decide (x = o)) as [->|Hne].
    + destruct (Hf r Hr) as [Hid' Hfin]. exists (f r). rewrite lookup_alter_eq, Hr, Hid'. split_and!; try done.
      * intros Hs. by rewrite live_unfinished in Hfin by (by left).
      * intros Hs. by rewrite live_unfinished in Hfin by (by right).
    + exists r. rewrite Hx by done. split_and!; try done; intros Hs; apply list_elem_of_filter; auto.
Qed.

(** A finished request is in neither list. *)
Lemma life_finished_out st reqs W run o r :
  life st reqs W run -> st !! o = Some r -> is_finished r = true -> o ∉ W /\ o ∉ run.
Proof.
  intros HL Ho Hfin. split; intros Hin.
  - destruct (lf_wait _ _ _ _ HL o Hin) as (r' & ? & ? & _). simplify_eq. by rewrite live_unfinished in Hfin by (by right).
  - destruct (lf_run _ _ _ _ HL o Hin) as (r' & ? & ? & _). simplify_eq. by rewrite live_unfinished in Hfin by (by left).
Qed.

Lemma remove_all_filter l (s : gset nat) : NoDup l -> remove_all l s = filter (fun x => x ∉ s) l.
Proof.
  intros Hnd. unfold remove_all. destruct (elements s) as [|x [|y l']] eqn:E; [| |done].
  - apply elements_empty_inv in E. symmetry. apply filter_all. set_solver.
  - assert (Hs : forall z, z ∈ s <-> z = x) by (intros z; rewrite <-elem_of_elements, E; apply list_elem_of_singleton).
    rewrite (filter_ext_in (fun z => z ∉ s) (fun z => z ≠ x)) by (intros z _; by rewrite Hs).
    clear E Hs. induction l as [|z l IH]; [done|]. apply NoDup_cons in Hnd as [Hz Hnd]. cbn [remove_first]. rewrite filter_cons.
    destruct (decide (x = z)) as [->|Hne].
    + rewrite decide_False by tauto. symmetry. apply filter_all. intros w Hw ->. done.
    + rewrite decide_True by congruence. by rewrite IH.
Qed.

Section Ops.
Context {C G : Type} `{!KVConnector C, !StructuredOutput G} (cfg : SchedConfig).
Context (block_hasher : option hasher) (float_of_string : string -> option Qc).
Abbreviation Sched := (Scheduler C G).

(** The invariant while some requests [sp], [sr] that finished are still in
    the waiting queue or the running list. *)
Record mid_inv (sp sr : gset nat) (s : Sched) : Prop := mkMid {
  md_life : life (sched_store s) (requests s) (filter (fun x => x ∉ sp) (queue_objs (waiting s))) (filter (fun x => x ∉ sr) (running s));
  md_width : zlen (running s) <= max_num_running_reqs cfg;
  md_pins : pins_ok (sched_store s) (requests s) (pinned_requests s);
  md_nodup : NoDup (running s)
}.

Lemma mid_inv_core sp sr (s s' : Sched) : same_core s s' -> mid_inv sp sr s -> mid_inv sp sr s'.
Proof. intros (E1 & E2 & E3 & E4 & E5) [H1 H2 H3 H4]. split; by rewrite ?E1, ?E2, ?E3, ?E4, ?E5. Qed.

Lemma mid_inv_upd sp sr (s : Sched) o f :
  (forall r, sched_store s !! o = Some r -> request_id (f r) = request_id r /\ status (f r) = status r) ->
  mid_inv sp sr s -> mid_inv sp sr (upd_req o f s).
Proof.
  intros Hf [H1 H2 H3 H4]. split; [by apply life_upd|done| |done]. apply pins_upd; [|done].
  intros r Hr. destruct (Hf r Hr) as [? E]. unfold is_finished. by rewrite E.
Qed.

Lemma mid_inv_start s : sched_inv cfg s -> mid_inv ∅ ∅ s.
Proof.
  intros [H1 H2 H3]. split; [|done|done|apply (lf_nodup_run _ _ _ _ H1)].
  rewrite !filter_all by set_solver. done.
Qed.

(** Writes that may finish the request; the lists it is in are updated later. *)
Lemma mid_inv_finish sp sr (s : Sched) o r f :
  mid_inv sp sr s -> sched_store s !! o = Some r -> request_id (f r) = request_id r -> is_finished (f r) = true ->
  mid_inv (if decide (status r = RUNNING) then sp else {[ o ]} ∪ sp) (if decide (status r = RUNNING) then {[ o ]} ∪ sr else sr)
    (upd_req o f s).
Proof.
  intros [H1 H2 H3 H4] Ho Hf Hfin. split; cbn; [|done| |done].
  - assert (HL := life_finish _ _ _ _ o f H1 ltac:(intros; by simplify_eq)). rewrite !filter_filter in HL.
    assert (Hout : (status r = RUNNING -> o ∉ filter (fun x => x ∉ sp) (queue_objs (waiting s))) /\
      (status r ≠ RUNNING -> o ∉ filter (fun x => x ∉ sr) (running s))).
    { split; intros Hs Hin.
      - destruct (lf_wait _ _ _ _ H1 o Hin) as (r' & ? & Hw & _). simplify_eq. by rewrite Hs in Hw.
      - destruct (lf_run _ _ _ _ H1 o Hin) as (r' & ? & ? & _). by simplify_eq. }
    destruct Hout as [Hw Hr]. destruct (decide (status r = RUNNING)) as [Hs|Hs].
    + rewrite (filter_ext_in (fun x => x ∉ {[ o ]} ∪ sr) (fun x => x ≠ o /\ x ∉ sr)) by set_solver.
      rewrite (filter_ext_in (fun x => x ∉ sp) (fun x => x ≠ o /\ x ∉ sp)); [done|].
      intros x Hx. split; [|tauto]. intros Hsp. split; [|done]. intros ->. apply (Hw Hs). by apply list_elem_of_filter.
    + rewrite (filter_ext_in (fun x => x ∉ {[ o ]} ∪ sp) (fun x => x ≠ o /\ x ∉ sp)) by set_solver.
      rewrite (filter_ext_in (fun x => x ∉ sr) (fun x => x ≠ o /\ x ∉ sr)); [done|].
      intros x Hx. split; [|tauto]. intros Hsp. split; [|done]. intros ->. apply (Hr Hs). by apply list_elem_of_filter.
  - apply pins_upd; [|done]. intros r' Hr'. simplify_eq. by split.
Qed.

Lemma set_up_pin_core r (s : Sched) ttl s' : set_up_pin cfg float_of_string r s = Ok (ttl, s') -> same_core s s'.
Proof.
  unfold set_up_pin. intros E. destruct (negb _); [inv_ok; by split_and!|].
  apply bind_Ok in E as (s1 & E1 & E). assert (same_core s s1) by (destruct (_ || _); inv_ok; by split_and!).
  cbv zeta in E. destruct (decide (_ < _)%Qc); by inv_ok.
Qed.

Lemma note_finished_core r (s : Sched) : same_core s (note_finished r s).
Proof. unfold note_finished. cbn. destruct (finished_req_ids_dict s); by split_and!. Qed.

Lemma connector_finished_core r (s : Sched) d p s' : connector_finished r s = Ok (d, p, s') -> same_core s s'.
Proof. unfold connector_finished. intros E. destruct (connector s); [|inv_ok; by split_and!]. inv_ok. by split_and!. Qed.

(** The effect of [_free_request] on the scheduler's own state: the request
    is pinned, released, or kept for the connector. *)
Lemma free_request_effect now o (s : Sched) params s' :
  free_request cfg float_of_string now o s = Ok (params, s') ->
  exists r, sched_store s !! o = Some r /\ is_finished r = true /\
    sched_store s' = sched_store s /\ waiting s' = waiting s /\ running s' = running s /\
    ((requests s' = requests s /\ exists t, pinned_requests s' = pinned_requests s ++ [(o, t)]) \/
     (requests s' = requests s /\ pinned_requests s' = pinned_requests s) \/
     (requests s' = delete (request_id r) (requests s) /\ is_Some (requests s !! request_id r) /\
        pinned_requests s' = pinned_requests s)).
Proof.
  intros E. unfold free_request in E. apply bind_Ok in E as (r & Er & E). apply get_or_Ok in Er.
  apply bind_Ok in E as (u & Hfin & E). apply assert_Ok in Hfin.
  apply bind_Ok in E as ([[delay p] s1] & E1 & E). apply connector_finished_core in E1. cbv beta iota in E.
  apply bind_Ok in E as (e & _ & E). apply bind_Ok in E as ([ttl s2] & E2 & E). cbv beta iota in E.
  assert (Hc : same_core s s2).
  { etrans; [exact E1|]. etrans; [|destruct (may_pin cfg r delay); [by eapply set_up_pin_core|by inv_ok]].
    etrans; [|apply note_finished_core]. by split_and!. }
  destruct Hc as (Q1 & Q2 & Q3 & Q4 & Q5). exists r. split; [done|]. split; [done|].
  destruct (decide (0 < ttl)%Qc).
  - inv_ok. cbn. split_and!; try done. left. rewrite Q5. split; [done|by eexists].
  - apply bind_Ok in E as (s3 & E3 & E). inv_ok. destruct delay; [inv_ok; split_and!; try done; auto|].
    apply free_blocks_of_spec in E3 as (r' & k & Hr' & _ & Hs & _ & ->). rewrite Q1 in Hr'. simplify_eq. cbn.
    rewrite Q2 in Hs |- *. split_and!; try done. auto.
Qed.

Lemma pins_app st reqs pins o t r :
  pins_ok st reqs pins -> st !! o = Some r -> is_finished r = true -> (forall o', reqs !! request_id r = Some o' -> o' = o) ->
  pins_ok st reqs (pins ++ [(o, t)]).
Proof. intros H Ho Hf Hown pn [Hq%H| ->%list_elem_of_singleton]%elem_of_app; [done|]. by exists r. Qed.

Lemma pins_delete st reqs pins rid : pins_ok st reqs pins -> pins_ok st (delete rid reqs) pins.
Proof. intros H pn (r & ? & ? & Hq)%H. exists r. split_and!; try done. by intros x [_ ?%Hq]%lookup_delete_Some. Qed.

Lemma free_request_inv sp sr now o (s : Sched) params s' :
  free_request cfg float_of_string now o s = Ok (params, s') -> mid_inv sp sr s ->
  (forall r o', sched_store s !! o = Some r -> requests s !! request_id r = Some o' -> o' = o) ->
  mid_inv sp sr s' /\ sched_store s' = sched_store s /\ waiting s' = waiting s /\ running s' = running s.
Proof.
  intros (r & Hr & Hfin & Q1 & Q2 & Q3 & Hcase)%free_request_effect [H1 H2 H3 H4] Hown. split; [|done].
  destruct Hcase as [(R1 & t & R2)|[(R1 & R2)|(R1 & [o' Ho'] & R2)]]; split; rewrite ?Q1, ?Q2, ?Q3, ?R1, ?R2; try done.
  - eapply pins_app; try done. intros o'. by apply Hown.
  - pose proof (Hown r o' Hr Ho') as ->. by eapply life_unregister.
  - by apply pins_delete.
Qed.

(** ** Aborting requests *)

(** The invariant while the requests [X], already taken out of the lists,
    are still to be finished. *)
Record pend_inv (X : list nat) (s : Sched) : Prop := mkPend {
  pd_run : forall o, o ∈ running s -> o ∉ X /\ exists r, sched_store s !! o = Some r /\ status r = RUNNING /\ requests s !! request_id r = Some o;
  pd_wait : forall o, o ∈ queue_objs (waiting s) -> o ∉ X /\ exists r, sched_store s !! o = Some r /\ is_waiting (status r) /\ requests s !! request_id r = Some o;
  pd_nodup_run : NoDup (running s);
  pd_nodup_wait : NoDup (queue_objs (waiting s));
  pd_reg : forall rid o, requests s !! rid = Some o -> exists r, sched_store s !! o = Some r /\ request_id r = rid /\
    (o ∈ X \/ ((status r = RUNNING -> o ∈ running s) /\ (is_waiting (status r) -> o ∈ queue_objs (waiting s))));
  pd_pending : forall o, o ∈ X -> exists r, sched_store s !! o = Some r /\ requests s !! request_id r = Some o;
  pd_nodup : NoDup X;
  pd_width : zlen (running s) <= max_num_running_reqs cfg;
  pd_pins : pins_ok (sched_store s) (requests s) (pinned_requests s)
}.

Lemma pend_done s : pend_inv [] s -> sched_inv cfg s.
Proof.
  intros [H1 H2 H3 H4 H5 _ _ H6 H7]. split; [|done|done]. split; try done.
  - intros o Ho. by apply H1.
  - intros o Ho. by apply H2.
  - intros rid o (r & ? & ? & [Hn|[? ?]])%H5; [by apply elem_of_nil in Hn|]. by exists r.
Qed.

Lemma finish_one_inv now st o X (s : Sched) params s' :
  status_is_finished st = true -> pend_inv (o :: X) s ->
  free_request cfg float_of_string now o (upd_req o (set_status st) s) = Ok (params, s') -> pend_inv X s'.
Proof.
  intros Hst [H1 H2 H3 H4 H5 H8 H9 H6 H7] (r & Hr & Hfin & Q1 & Q2 & Q3 & Hcase)%free_request_effect. cbn in Hr, Q1, Q2, Q3, Hcase.
  destruct (H8 o ltac:(by left)) as (r0 & Hr0 & Hreg0). rewrite lookup_alter_eq, Hr0 in Hr. cbn in Hr. injection Hr as <-. cbn in Hcase.
  apply NoDup_cons in H9 as [HoX HX].
  assert (Hx : forall x, x ≠ o -> sched_store s' !! x = sched_store s !! x) by (intros x ?; rewrite Q1; by rewrite lookup_alter_ne).
  assert (Hreg : forall rid x, x ≠ o -> requests s !! rid = Some x -> requests s' !! rid = Some x).
  { intros rid x Hne Hrid. destruct Hcase as [(-> & _)|[(-> & _)|(-> & _)]]; [done|done|].
    rewrite lookup_delete_ne; [done|]. intros <-. congruence. }
  assert (Hsub : forall rid x, requests s' !! rid = Some x -> requests s !! rid = Some x).
  { intros rid x. destruct Hcase as [(-> & _)|[(-> & _)|(-> & _)]]; try done. by intros [_ ?]%lookup_delete_Some. }
  split; rewrite ?Q2, ?Q3; try done.
  - intros x (Hn & rx & ? & ? & ?)%H1. rewrite elem_of_cons in Hn. split; [tauto|]. exists rx. rewrite Hx by tauto. split_and!; auto.
  - intros x (Hn & rx & ? & ? & ?)%H2. rewrite elem_of_cons in Hn. split; [tauto|]. exists rx. rewrite Hx by tauto. split_and!; auto.
  - intros rid x (rx & Hrx & Hid & Hc)%Hsub%H5. destruct (decide (x = o)) as [->|Hne].
    + simplify_eq. exists (set_status st r0). rewrite Q1, lookup_alter_eq, Hr0. split_and!; try done. right.
      split; intros Hs; exfalso; by rewrite live_unfinished in Hfin by (cbn; auto).
    + exists rx. rewrite Hx by done. split_and!; try done. rewrite elem_of_cons in Hc. tauto.
  - intros x Hin. destruct (H8 x ltac:(by right)) as (rx & ? & ?). assert (x ≠ o) by (by intros ->).
    exists rx. rewrite Hx by done. auto.
  - assert (Hp : pins_ok (sched_store s') (requests s) (pinned_requests s)).
    { rewrite Q1. apply pins_upd; [|done]. intros rx _. split; [done|]. intros _. exact Hst. }
    assert (Hso : sched_store s' !! o = Some (set_status st r0)) by (by rewrite Q1, lookup_alter_eq, Hr0).
    destruct Hcase as [(-> & t & ->)|[(-> & ->)|(-> & _ & ->)]]; [|done|by apply pins_delete].
    eapply pins_app; try done. cbn. intros o' Ho'. congruence.
Qed.

Lemma finish_all_inv now st l : forall (s s' : Sched),
  status_is_finished st = true -> pend_inv l s ->
  foldM (fun s o => '(_, s) ← free_request cfg float_of_string now o (upd_req o (set_status st) s); Ok s) s l = Ok s' ->
  pend_inv [] s'.
Proof.
  induction l as [|o l IH]; intros s s' Hst HP E; cbn in E; [by inv_ok|].
  apply bind_Ok in E as (s1 & E1 & E). apply bind_Ok in E1 as ([p s2] & E1 & E2). cbv beta iota in E2. injection E2 as ->.
  eapply IH; [done| |exact E]. by eapply finish_one_inv.
Qed.

(** The requests to finish, grouped by where they are. *)
Lemma statuses_spec (s : Sched) l rs :
  mapM_res (fun o => r ← get_req o s; Ok (o, status r)) l = Ok rs ->
  forall o st, (o, st) ∈ rs <-> o ∈ l /\ exists r, sched_store s !! o = Some r /\ status r = st.
Proof.
  revert rs. induction l as [|x l IH]; intros rs E; cbn in E; inv_ok; intros o st.
  - split; [by intros ?%elem_of_nil|by intros [?%elem_of_nil _]].
  - apply get_or_Ok in E2. rewrite elem_of_cons, (IH _ E1), elem_of_cons. split; [|naive_solver].
    intros [[= -> ->]|[? ?]]; [split; [by left|by eexists]|auto].
Qed.

Lemma valid_nodup (s : Sched) ids :
  NoDup ids -> (forall rid o, requests s !! rid = Some o -> exists r, sched_store s !! o = Some r /\ request_id r = rid) ->
  NoDup (omap (fun rid => requests s !! rid) ids).
Proof.
  intros Hnd Hreg. induction Hnd as [|rid ids Hn Hnd IH]; [constructor|]. cbn. destruct (requests s !! rid) as [o|] eqn:Eo; [|done].
  apply NoDup_cons. split; [|done]. intros (rid' & Hin & Ho)%list_elem_of_omap.
  destruct (Hreg _ _ Eo) as (r & ? & ?), (Hreg _ _ Ho) as (r' & ? & ?). by simplify_eq.
Qed.

Lemma filter_fst_elem (rs : list (nat * RequestStatus)) (P : RequestStatus -> Prop) `{!forall x, Decision (P x)} o :
  o ∈ (filter (fun p => P p.2) rs).*1 <-> exists st, (o, st) ∈ rs /\ P st.
Proof.
  rewrite list_elem_of_fmap. split.
  - intros ([o' st] & -> & [? ?]%list_elem_of_filter). by exists st.
  - intros (st & ? & ?). exists (o, st). split; [done|]. by apply list_elem_of_filter.
Qed.

Lemma pend_start (s s1 : Sched) (valid run wait : list nat) (rs : list (nat * RequestStatus)) :
  sched_inv cfg s -> (forall o, o ∈ valid -> exists r, sched_store s !! o = Some r /\ requests s !! request_id r = Some o) -> NoDup valid ->
  (forall o st, (o, st) ∈ rs <-> o ∈ valid /\ exists r, sched_store s !! o = Some r /\ status r = st) ->
  (forall o, o ∈ run <-> exists st, (o, st) ∈ rs /\ st = RUNNING) -> (forall o, o ∈ wait <-> exists st, (o, st) ∈ rs /\ st ≠ RUNNING) ->
  sched_store s1 = sched_store s -> requests s1 = requests s -> pinned_requests s1 = pinned_requests s ->
  running s1 = filter (fun x => x ∉ run) (running s) ->
  queue_objs (waiting s1) ≡ₚ filter (fun x => x ∉ wait) (queue_objs (waiting s)) -> pend_inv valid s1.
Proof.
  intros [[H1 H2 H3 H4 H5] Hwd Hpins] Hval Hndv Hrs Hrun Hwait E1 E2 E3 E4 E5.
  assert (Hout : forall o r, sched_store s !! o = Some r -> (status r = RUNNING /\ o ∉ run) \/ (status r ≠ RUNNING /\ o ∉ wait) -> o ∉ valid).
  { intros o r Hr Hc Hv. assert (Hin : (o, status r) ∈ rs) by (apply Hrs; eauto).
    destruct Hc as [[Hs Hn]|[Hs Hn]]; apply Hn; [apply Hrun|apply Hwait]; eauto. }
  split; rewrite ?E1, ?E2, ?E3; try done.
  - intros o. rewrite E4. intros [Hn Ho]%list_elem_of_filter. destruct (H1 o Ho) as (r & Hr & Hs & ?).
    split; [|by exists r]. apply (Hout o r Hr). auto.
  - intros o. rewrite E5. intros [Hn Ho]%list_elem_of_filter. destruct (H2 o Ho) as (r & Hr & Hs & ?).
    split; [|by exists r]. apply (Hout o r Hr). right. split; [|done]. intros Hx. by rewrite Hx in Hs.
  - rewrite E4. by apply NoDup_filter.
  - rewrite E5. by apply NoDup_filter.
  - intros rid o (r & Hr & Hid & Ha & Hb)%H5. exists r. split_and!; try done.
    destruct (decide (o ∈ valid)) as [?|Hn]; [by left|right]. split; intros Hs.
    + rewrite E4. apply list_elem_of_filter. split; [|auto]. intros (st & [? _]%Hrs & _)%Hrun. done.
    + rewrite E5. apply list_elem_of_filter. split; [|auto]. intros (st & [? _]%Hrs & _)%Hwait. done.
  - rewrite E4. unfold zlen in *. pose proof (length_filter (fun x => x ∉ run) (running s)). lia.
Qed.

Lemma finish_requests_inv now ids st (s s' : Sched) :
  finish_requests cfg float_of_string now ids st s = Ok s' -> NoDup ids -> sched_inv cfg s -> sched_inv cfg s'.
Proof.
  unfold finish_requests. intros E Hids HI. apply bind_Ok in E as (u & Hst & E). apply assert_Ok in Hst. cbv zeta in E.
  apply bind_Ok in E as (rs & Ers & E). apply bind_Ok in E as (s1 & E1 & E).
  apply pend_done. eapply finish_all_inv; [exact Hst| |exact E]. clear E s'.
  pose proof (sc_life _ _ HI) as HL.
  assert (Hreg : forall rid o, requests s !! rid = Some o -> exists r, sched_store s !! o = Some r /\ request_id r = rid).
  { intros rid o (r & ? & ? & _)%(lf_reg _ _ _ _ HL). by exists r. }
  assert (Hval : forall o, o ∈ omap (fun rid => requests s !! rid) ids -> exists r, sched_store s !! o = Some r /\ requests s !! request_id r = Some o).
  { intros o (rid & _ & Ho)%list_elem_of_omap. destruct (Hreg _ _ Ho) as (r & Hr & Hid). exists r. by rewrite Hid. }
  pose proof (filter_fst_elem rs (fun st => st = RUNNING)) as Hr. pose proof (filter_fst_elem rs (fun st => st ≠ RUNNING)) as Hw. cbv beta in Hr, Hw.
  set (run := (filter (fun p => p.2 = RUNNING) rs).*1) in *. set (wait := (filter (fun p => p.2 ≠ RUNNING) rs).*1) in *.
  assert (Hrun : match run with [] => s | _ => set_running (remove_all (running s) (list_to_set run)) s end =
    set_running (filter (fun x => x ∉ run) (running s)) s).
  { clear -HL. destruct run as [|x l]; [rewrite filter_all by (intros; apply not_elem_of_nil); by destruct s|].
    f_equal. rewrite remove_all_filter by apply (lf_nodup_run _ _ _ _ HL). apply filter_ext_in. intros y _.
    by rewrite elem_of_list_to_set. }
  rewrite Hrun in E1. clearbody run wait.
  apply (pend_start s s1 _ run wait rs HI Hval); [by apply valid_nodup|by apply statuses_spec|exact Hr|exact Hw|..]; clear Hr Hw Ers.
  1-4: destruct wait; inv_ok; done.
  destruct wait as [|x l]; inv_ok; cbn.
  - by rewrite filter_all by (intros; apply not_elem_of_nil).
  - by apply remove_requests_objs in E.
Qed.

(** ** Adding requests *)

Lemma add_request_inv now o r (s s' : Sched) :
  sched_add_request cfg now o s = Ok s' -> sched_inv cfg s -> sched_store s !! o = Some r -> is_waiting (status r) ->
  requests s !! request_id r = None -> (forall rid, requests s !! rid ≠ Some o) ->
  (forall p rp, p ∈ pinned_requests s -> sched_store s !! p.1 = Some rp -> request_id rp ≠ request_id r) -> sched_inv cfg s'.
Proof.
  unfold sched_add_request. intros E [HL Hwd Hpins] Ho Hw Hid Hnew Hpin. apply bind_Ok in E as (w & Ew & E). apply bind_Ok in E as (r' & Er & E).
  apply get_or_Ok in Er. rewrite Ho in Er. injection Er as <-. apply add_objs in Ew.
  assert (HI : sched_inv cfg (set_requests (<[request_id r := o]> (requests s)) (set_waiting w s))).
  { destruct HL as [H1 H2 H3 H4 H5].
    assert (Hother : forall x rx, sched_store s !! x = Some rx -> requests s !! request_id rx = Some x ->
      <[request_id r := o]> (requests s) !! request_id rx = Some x).
    { intros x rx Hx Hreg. rewrite lookup_insert_ne; [done|]. intros Eid. by rewrite <-Eid, Hid in Hreg. }
    split; cbn; [|done|].
    - rewrite Ew. split; try done.
      + intros x (rx & ? & ? & ?)%H1. exists rx. auto.
      + intros x [-> |(rx & ? & ? & ?)%H2]%elem_of_cons; [|exists rx; auto]. exists r. by rewrite lookup_insert_eq.
      + apply NoDup_cons. split; [|done]. intros (rx & ? & ? & ?)%H2. by eapply Hnew.
      + intros rid x Hx. destruct (decide (rid = request_id r)) as [->|Hne].
        * rewrite lookup_insert_eq in Hx. injection Hx as <-. exists r. split_and!; try done; [by intros Hs; rewrite Hs in Hw|intros; by left].
        * rewrite lookup_insert_ne in Hx by done. destruct (H5 rid x Hx) as (rx & ? & ? & ? & ?). exists rx. split_and!; try done.
          intros; right; auto.
    - intros p Hp. destruct (Hpins p Hp) as (rp & Hrp & ? & ?). exists rp. split_and!; try done.
      rewrite lookup_insert_ne; [done|]. intros Eid. by eapply Hpin. }
  destruct (log_stats cfg); inv_ok; [by apply sched_inv_upd|done].
Qed.

(** ** Model output *)

Lemma check_stop_status r m p stopped r' :
  check_stop r m p = Ok (stopped, r') ->
  request_id r' = request_id r /\ if stopped then is_finished r' = true else r' = r.
Proof.
  unfold check_stop. intros E. destruct (_ || _); [by inv_ok|]. destruct (pooling_params r); [destruct p; by inv_ok|].
  apply bind_Ok in E as (sp & _ & E). apply bind_Ok in E as (t & _ & E).
  destruct (_ && _); [by inv_ok|]. destruct (bool_decide _); by inv_ok.
Qed.

Lemma append_status toks r r' :
  append_output_token_ids block_hasher toks r = Ok r' -> request_id r' = request_id r /\ status r' = status r.
Proof. unfold append_output_token_ids. intros E. destruct block_hasher; inv_ok; done. Qed.

Lemma append_until_stop_status toks : forall r kept stopped r',
  append_until_stop cfg block_hasher toks r = Ok (kept, stopped, r') ->
  request_id r' = request_id r /\ if stopped then is_finished r' = true else status r' = status r.
Proof.
  induction toks as [|t toks IH]; intros r kept stopped r' E; cbn in E; [by inv_ok|].
  apply bind_Ok in E as (r1 & E1 & E). apply append_status in E1 as [Hid1 Hst1]. apply bind_Ok in E as ([st r2] & E2 & E). cbv beta iota in E.
  apply check_stop_status in E2 as [Hid2 Hst2]. destruct st; [inv_ok; split; [congruence|done]|]. subst r2.
  apply bind_Ok in E as ([[k st] r3] & E3 & E). apply IH in E3 as [Hid3 Hst3]. cbv beta iota in E. inv_ok.
  split; [congruence|]. destruct stopped; congruence.
Qed.

(** A model output carries generated tokens or pooled values, not both. *)
Definition output_ok (mo : ModelRunnerOutput) : Prop := pooler_outputs mo = [] \/ sampled_token_ids mo = [].

(** Replaces the object [o]; the rest of the bookkeeping is unchanged. *)
Definition replaces (o : nat) (r r' : Request) (s s' : Sched) : Prop :=
  same_core (upd_req o (fun _ => r') s) s' /\ request_id r' = request_id r.

Lemma update_request_spec o toks (s : Sched) kept stopped s' r :
  update_request_with_output cfg block_hasher o toks s = Ok (kept, stopped, s') -> sched_store s !! o = Some r ->
  exists r', replaces o r r' s s' /\ if stopped then is_finished r' = true else status r' = status r.
Proof.
  unfold update_request_with_output. intros E Hr. apply bind_Ok in E as (r0 & Er & E). apply get_or_Ok in Er. rewrite Hr in Er. injection Er as <-.
  apply bind_Ok in E as ([[k st] r1] & E1 & E). apply append_until_stop_status in E1 as [Hid Hst]. cbv beta iota zeta in E.
  destruct (async_scheduling cfg).
  - apply bind_Ok in E as (u & _ & E). exists (set_num_output_placeholders (num_output_placeholders r1 - zlen k) r1).
    destruct (decide (status r = RUNNING)); inv_ok; (split; [split; [by split_and!|done]|done]).
  - inv_ok. exists r1. split; [split; [by split_and!|done]|done].
Qed.

Lemma stop_checks_spec o idx gen mo (s : Sched) toks stopped pooled s' r :
  stop_checks cfg block_hasher o idx gen mo s = Ok (toks, stopped, pooled, s') -> sched_store s !! o = Some r ->
  pooler_outputs mo = [] \/ gen = [] ->
  exists r', replaces o r r' s s' /\ if stopped then is_finished r' = true else status r' = status r.
Proof.
  unfold stop_checks. intros E Hr Hok. apply bind_Ok in E as ([[tk st] s1] & E1 & E). cbv beta iota in E.
  destruct (pooler_outputs mo) as [|p ps] eqn:Ep.
  - inv_ok. destruct gen as [|g gen]; [|by eapply update_request_spec]. inv_ok. exists r. split; [|done]. split; [|done].
    split_and!; try done. cbn. symmetry. apply alter_id. congruence.
  - destruct Hok as [?| ->]; [done|]. injection E1 as <- <- <-. apply bind_Ok in E as (pv & _ & E). apply bind_Ok in E as (r0 & Er & E).
    apply get_or_Ok in Er. rewrite Hr in Er. injection Er as <-. apply bind_Ok in E as ([st' r'] & E2 & E). cbv beta iota in E.
    injection E as <- <- <- <-. apply check_stop_status in E2 as [Hid Hst].
    exists r'. split; [split; [by split_and!|done]|]. destruct st'; [done|congruence].
Qed.

Lemma post_process_spec o rid toks mo (s s' : Sched) sp sr :
  post_process o rid toks mo s = Ok s' -> mid_inv sp sr s ->
  mid_inv sp sr s' /\ running s' = running s /\ waiting s' = waiting s.
Proof.
  unfold post_process. intros E HI. apply bind_Ok in E as (r & _ & E). apply bind_Ok in E as (s1 & E1 & E).
  assert (Hc : same_core s s1).
  { destruct toks; [inv_ok; by split_and!|]. destruct (should_advance r _) as [adv g]. destruct adv; inv_ok; by split_and!. }
  pose proof (mid_inv_core _ _ _ _ Hc HI) as HI1. destruct Hc as (_ & _ & Q3 & Q4 & _).
  destruct (mo_num_nans mo) as [d|]; [destruct (d !! rid)|]; inv_ok; try done.
  split; [by apply mid_inv_upd|done].
Qed.

Lemma take_events_status r evs r' : take_events r = (evs, r') -> request_id r' = request_id r /\ status r' = status r.
Proof. unfold take_events. destruct (events r); intros E; by simplify_eq. Qed.

Lemma emit_output_spec o rid idx toks pooled params mo outs (s : Sched) outs' s' sp sr :
  emit_output o rid idx toks pooled params mo outs s = Ok (outs', s') -> mid_inv sp sr s ->
  mid_inv sp sr s' /\ running s' = running s /\ waiting s' = waiting s.
Proof.
  unfold emit_output. intros E HI. apply bind_Ok in E as (r & Er & E). apply get_or_Ok in Er. cbv zeta in E.
  destruct (_ || _ || _).
  - destruct (take_events r) as [evs r'] eqn:Et. apply take_events_status in Et as [? ?]. inv_ok. split; [|done].
    apply mid_inv_upd; [|done]. intros r0 Hr0. by simplify_eq.
  - apply bind_Ok in E as (u & _ & E). by inv_ok.
Qed.

Lemma output_step_inv now out mo u (s : Sched) kv u' s' :
  output_step cfg block_hasher float_of_string now out mo (u, s) kv = Ok (u', s') -> output_ok mo ->
  mid_inv (stopped_preempted_reqs u) (stopped_running_reqs u) s ->
  mid_inv (stopped_preempted_reqs u') (stopped_running_reqs u') s'.
Proof.
  intros E Hmo HI. unfold output_step in E. apply bind_Ok in E as (x & _ & E).
  destruct (requests s !! kv.1) as [o|] eqn:Eo; [|by inv_ok].
  destruct (lf_reg _ _ _ _ (md_life _ _ _ HI) _ _ Eo) as (r & Hr & Hid & _ & _).
  apply bind_Ok in E as (idx & _ & E). apply bind_Ok in E as (gen & Egen & E). apply bind_Ok in E as ([st s1] & E1 & E). cbv beta iota in E.
  assert (Hgen : pooler_outputs mo = [] \/ gen = []).
  { destruct Hmo as [?|Hs]; [by left|right]. rewrite Hs in Egen. by inv_ok. }
  assert (H1 : exists r1, sched_store s1 !! o = Some r1 /\ request_id r1 = request_id r /\ mid_inv (stopped_preempted_reqs u) (stopped_running_reqs u) s1 /\
    requests s1 = requests s).
  { unfold reject_drafts in E1. destruct (so_spec_decode_tokens out !! kv.1) as [[|d ds]|]; [inv_ok; by exists r| |inv_ok; by exists r].
    apply bind_Ok in E1 as (st' & _ & E1). inv_ok. eexists. cbn. rewrite lookup_alter_eq, Hr. split_and!; try done. by apply mid_inv_upd. }
  destruct H1 as (r1 & Hr1 & Hid1 & HI1 & Hreq1). apply bind_Ok in E as (r2 & Er2 & E). apply get_or_Ok in Er2. rewrite Hr1 in Er2. injection Er2 as <-.
  apply bind_Ok in E as ([[[toks stopped] pooled] s2] & E2 & E). cbv beta iota in E.
  destruct (stop_checks_spec _ _ _ _ _ _ _ _ _ _ E2 Hr1 Hgen) as (r2 & [Hc Hid2] & Hst).
  apply bind_Ok in E as ([params s3] & E3 & E). cbv beta iota in E. apply bind_Ok in E as (s4 & E4 & E). apply bind_Ok in E as ([outs s5] & E5 & E).
  cbv beta iota in E. injection E as <- <-. cbn [stopped_preempted_reqs stopped_running_reqs].
  enough (H3 : mid_inv (if stopped && negb (bool_decide (status r1 = RUNNING)) then {[ o ]} ∪ stopped_preempted_reqs u else stopped_preempted_reqs u)
    (if stopped && bool_decide (status r1 = RUNNING) then {[ o ]} ∪ stopped_running_reqs u else stopped_running_reqs u) s3).
  { eapply emit_output_spec; [exact E5|]. by eapply post_process_spec. }
  destruct stopped; cbn [andb].
  - pose proof (mid_inv_finish _ _ s1 o r1 (fun _ => r2) HI1 Hr1 Hid2 Hst) as HI2. pose proof (mid_inv_core _ _ _ _ Hc HI2) as HI3.
    destruct Hc as (Q1 & Q2 & _). cbn in Q1, Q2.
    apply (free_request_inv _ _ _ _ _ _ _ E3) in HI3 as [HI3 _].
    + rewrite bool_decide_decide. by destruct (decide (status r1 = RUNNING)).
    + intros rx o'. rewrite Q1, Q2, lookup_alter_eq, Hr1, Hreq1. cbn. intros [= <-] Ho'. congruence.
  - injection E3 as _ <-. eapply mid_inv_core; [exact Hc|]. apply mid_inv_upd; [|done]. intros rx Hrx. by simplify_eq.
Qed.

(** The lists are cut down to the invariant's at the end of the loop. *)
Lemma mid_inv_end sp sr (s s' : Sched) :
  mid_inv sp sr s -> sched_store s' = sched_store s -> requests s' = requests s -> pinned_requests s' = pinned_requests s ->
  running s' = filter (fun x => x ∉ sr) (running s) -> queue_objs (waiting s') ≡ₚ filter (fun x => x ∉ sp) (queue_objs (waiting s)) ->
  sched_inv cfg s'.
Proof.
  intros [H1 H2 H3 H4] E1 E2 E3 E4 E5. split; [by rewrite E1, E2, E4, E5| |by rewrite E1, E2, E3].
  rewrite E4. unfold zlen in *. pose proof (length_filter (fun x => x ∉ sr) (running s)). lia.
Qed.

Lemma kv_xfer_inv co (s s' : Sched) : update_from_kv_xfer_finished co s = Ok s' -> sched_inv cfg s -> sched_inv cfg s'.
Proof.
  unfold update_from_kv_xfer_finished. intros E HI. apply bind_Ok in E as (s1 & E1 & E). cbv zeta in E.
  assert (Hc : same_core s s1) by (destruct (connector s); inv_ok; by split_and!).
  assert (HI1 : sched_inv cfg (set_finished_recving_kv_req_ids (list_to_set (finished_recving co) ∪ finished_recving_kv_req_ids s1) s1)).
  { eapply sched_inv_core; [|by eapply sched_inv_core]. by split_and!. }
  revert E. apply foldM_inv; [|exact HI1]. intros s0 rid s2 _ HI0 E0. apply bind_Ok in E0 as (o & Eo & E0). apply get_or_Ok in Eo.
  destruct (lf_reg _ _ _ _ (sc_life _ _ HI0) _ _ Eo) as (r & Hr & Hid & _). eapply free_blocks_of_inv; [exact E0|done|exact Hr|].
  intros o'. rewrite Hid, Eo. congruence.
Qed.

Lemma assemble_core u (s : Sched) outs s' : assemble_outputs cfg u s = Ok (outs, s') -> same_core s s'.
Proof.
  unfold assemble_outputs. intros E. cbv zeta in E.
  destruct (match finished_req_ids_dict s with Some (_ :: _ as d) => _ | _ => _ end) as [ecos s1] eqn:E0.
  assert (Hc : same_core s s1) by (destruct (finished_req_ids_dict s) as [[|? ?]|]; simplify_eq; by split_and!).
  apply bind_Ok in E as ([st s2] & E2 & E). cbv beta iota in E.
  assert (Hc2 : same_core s1 s2).
  { unfold make_stats in E2. destruct (negb _); [inv_ok; by split_and!|]. destruct (make_prefix_cache_stats _). inv_ok. by split_and!. }
  etrans; [exact Hc|]. destruct st; [|by inv_ok]. destruct ecos as [|[c e] rest]; by inv_ok.
Qed.

(** The stopped requests leave the running list and the waiting queue. *)
Lemma cut_stopped_inv sp sr (s1 s2 s3 : Sched) :
  mid_inv sp sr s1 -> s2 = (if decide (sr = ∅) then s1 else set_running (remove_all (running s1) sr) s1) ->
  (if decide (sp = ∅) then Ok s2 else w ← remove_requests (elements sp) (waiting s2); Ok (set_waiting w s2)) = Ok s3 -> sched_inv cfg s3.
Proof.
  intros HI1 -> E3. set (s2 := if decide _ then s1 else _) in E3.
  assert (H2 : sched_store s2 = sched_store s1 /\ requests s2 = requests s1 /\ pinned_requests s2 = pinned_requests s1 /\
    running s2 = filter (fun x => x ∉ sr) (running s1) /\ waiting s2 = waiting s1).
  { unfold s2. destruct (decide _) as [He|]; cbn; split_and!; try done.
    - rewrite He. symmetry. apply filter_all. set_solver.
    - apply remove_all_filter. by destruct HI1. }
  clearbody s2. destruct H2 as (Q1 & Q2 & Q3 & Q4 & Q5). destruct (decide (sp = ∅)) as [He|].
  - injection E3 as <-. apply (mid_inv_end _ _ _ _ HI1); try done. rewrite Q5, He. rewrite filter_all by set_solver. done.
  - apply bind_Ok in E3 as (w & Ew & E3). injection E3 as <-. apply (mid_inv_end _ _ _ _ HI1); try done. cbn.
    apply remove_requests_objs in Ew. rewrite Ew, Q5. apply reflexive_eq, filter_ext_in. intros x _. by rewrite elem_of_elements.
Qed.

Lemma update_from_output_inv now out mo (s : Sched) outs s' :
  update_from_output cfg block_hasher float_of_string now out mo s = Ok (outs, s') -> output_ok mo ->
  sched_inv cfg s -> sched_inv cfg s'.
Proof.
  intros E Hmo HI. unfold update_from_output in E. apply bind_Ok in E as ([u s1] & E1 & E). cbv beta iota zeta in E.
  assert (HI1 : mid_inv (stopped_preempted_reqs u) (stopped_running_reqs u) s1).
  { pose proof (foldM_inv (fun us : Upd * Sched => mid_inv (stopped_preempted_reqs us.1) (stopped_running_reqs us.1) us.2)
      (output_step cfg block_hasher float_of_string now out mo) (so_num_scheduled_tokens out)) as Hinv.
    apply (Hinv ltac:(intros [u0 s0] kv [u2 s2] _ H0 E0; by eapply output_step_inv) (mkUpd [] None ∅ ∅, s) (u, s1)); [|exact E1].
    by apply mid_inv_start. }
  apply bind_Ok in E as (s3 & E3 & E). pose proof (cut_stopped_inv _ _ _ _ _ HI1 eq_refl E3) as HI3.
  apply bind_Ok in E as (s4 & E4 & E). apply (sched_inv_core _ s4); [by eapply assemble_core|].
  destruct (kv_connector_output mo); [by eapply kv_xfer_inv|by inv_ok].
Qed.

Lemma update_draft_inv ids drafts (s s' : Sched) : update_draft_token_ids ids drafts s = Ok s' -> sched_inv cfg s -> sched_inv cfg s'.
Proof.
  unfold update_draft_token_ids. intros E HI. revert E. apply foldM_inv; [|done]. intros s0 p s1 _ HI0 E. unfold update_draft_one in E.
  destruct (requests s0 !! p.1) as [o|]; [|by inv_ok]. apply bind_Ok in E as (r & _ & E).
  destruct (is_finished r); [by inv_ok|]. destruct p.2 as [|t ts]; [inv_ok; by apply sched_inv_upd|].
  destruct (should_advance r _) as [adv g]. apply bind_Ok in E as (toks & _ & E). inv_ok. apply sched_inv_upd; [done|].
  eapply sched_inv_core; [|exact HI0]. by split_and!.
Qed.

(** * The scheduler as a state machine *)

(** A call of the engine on the scheduler that returns normally. A new request
    is a fresh object in status WAITING or WAITING_FOR_FSM whose id is not in
    use; the times, the scheduler output and the model output are arbitrary. *)
Inductive sched_call : Sched -> Sched -> Prop :=
| call_add now o r s s' :
    sched_store s !! o = None -> requests s !! request_id r = None -> is_waiting (status r) ->
    (forall p rp, p ∈ pinned_requests s -> sched_store s !! p.1 = Some rp -> request_id rp ≠ request_id r) ->
    sched_add_request cfg now o (set_sched_store (<[o := r]> (sched_store s)) s) = Ok s' -> sched_call s s'
| call_schedule now ts s out meta ev s' : schedule cfg now ts s = Ok (out, meta, ev, s') -> sched_call s s'
| call_update now out mo s outs s' :
    output_ok mo -> update_from_output cfg block_hasher float_of_string now out mo s = Ok (outs, s') -> sched_call s s'
| call_finish now ids st s s' :
    NoDup ids -> finish_requests cfg float_of_string now ids st s = Ok s' -> sched_call s s'
| call_drafts ids drafts s s' : update_draft_token_ids ids drafts s = Ok s' -> sched_call s s'
| call_reset s ok s' : sched_reset_prefix_cache s = Ok (ok, s') -> sched_call s s'.

Inductive reachable (s0 : Sched) : Sched -> Prop :=
| reach_start : reachable s0 s0
| reach_step s s' : reachable s0 s -> sched_call s s' -> reachable s0 s'.

Lemma sched_inv_alloc o r (s : Sched) :
  sched_store s !! o = None -> sched_inv cfg s -> sched_inv cfg (set_sched_store (<[o := r]> (sched_store s)) s).
Proof.
  intros Ho [[H1 H2 H3 H4 H5] Hwd Hpins].
  assert (Hx : forall x rx, sched_store s !! x = Some rx -> <[o := r]> (sched_store s) !! x = Some rx).
  { intros x rx Hx. rewrite lookup_insert_ne; [done|]. by intros ->; rewrite Ho in Hx. }
  split; [split|done|]; cbn; try done.
  - intros x (rx & ? & ? & ?)%H1. exists rx. auto.
  - intros x (rx & ? & ? & ?)%H2. exists rx. auto.
  - intros rid x (rx & ? & ? & ? & ?)%H5. exists rx. auto.
  - intros p (rp & ? & ? & ?)%Hpins. exists rp. auto.
Qed.

Lemma sched_call_inv (s s' : Sched) : 0 <= max_num_scheduled_tokens cfg -> sched_call s s' -> sched_inv cfg s -> sched_inv cfg s'.
Proof.
  intros Hm Hc HI. destruct Hc as [now o r s s' Ho Hid Hw Hpin E|now ts s out meta ev s' E|now out mo s outs s' Hok E|now ids st s s' Hnd E|ids drafts s s' E|s ok s' E].
  - eapply add_request_inv; [exact E|by apply sched_inv_alloc|cbn; by rewrite lookup_insert_eq|done|done| |].
    + intros rid Hreg. destruct (lf_reg _ _ _ _ (sc_life _ _ HI) _ _ Hreg) as (rx & Hrx & _). by rewrite Ho in Hrx.
    + intros p rp Hp Hrp. cbn in Hp, Hrp. apply (Hpin p rp); [done|]. destruct (sc_pins _ _ HI p Hp) as (r0 & Hr0 & _).
      rewrite lookup_insert_ne in Hrp; [done|]. intros ->. by rewrite Ho in Hr0.
  - destruct (schedule_ok cfg now ts s Hm HI) as [_ H]. by destruct (H _ _ _ _ E) as [? _].
  - by eapply update_from_output_inv.
  - by eapply finish_requests_inv.
  - by eapply update_draft_inv.
  - unfold sched_reset_prefix_cache in E. inv_ok. eapply sched_inv_core; [|exact HI]. by split_and!.
Qed.

Lemma reachable_inv (s0 s : Sched) : 0 <= max_num_scheduled_tokens cfg -> sched_inv cfg s0 -> reachable s0 s -> sched_inv cfg s.
Proof. intros Hm H0 HR. induction HR as [|s s' _ IH Hc]; [done|]. by eapply sched_call_inv. Qed.

(** The scheduler with no requests. *)
Definition sched_start (st : store) (w : RequestQueue) (fd : option (list (Z * gset string))) (e : EncoderCacheManager)
  (k : KVCacheManager) (c : option C) (g : G) : Sched := mkSched st ∅ w [] [] ∅ ∅ fd ∅ e k c g.

Lemma sched_start_inv st fd e k c g :
  0 <= max_num_running_reqs cfg -> sched_inv cfg (sched_start st (create_request_queue (policy cfg)) fd e k c g).
Proof.
  intros Hm. split; cbn; [|done|by intros p ?%elem_of_nil].
  replace (queue_objs _) with ([] : list nat) by (by destruct (policy cfg)).
  split; try (by intros x ?%elem_of_nil); try constructor. intros rid o Ho. by rewrite lookup_empty in Ho.
Qed.
End Ops.
