(* ===== verification/Progress.v ===== *)
(** Progress of the scheduler (src/vllm/v1/core/sched/scheduler.py): for text
    requests on one engine without a connector, the calls of the engine never
    raise. This file has the invariant that ties each request's computed
    tokens to the slots it holds, and the steps of [schedule]. *)
From Stdlib Require Import ZArith Lia Ascii String QArith Qcanon.
From stdpp Require Import numbers gmap strings list.
From S2P Require Import Prelude FreeQueue Request BlockHash BlockPool KVCacheManager KVBacking Capacity EncoderCache RequestQueue SchedState Scheduler SchedulerUpdate Lifecycle SchedTerm LifecycleOps.

Open Scope Z_scope.

(** ** What the scheduler relies on in other components *)

(** The attributes a request's block hashes depend on. *)
Definition same_content (r r' : Request) : Prop :=
  all_token_ids r' = all_token_ids r /\ block_hashes r' = block_hashes r /\ lora_request r' = lora_request r /\
  cache_salt r' = cache_salt r /\ mm_features r' = mm_features r.

(** The block hasher: appending tokens never raises, and with prefix caching
    every full block of a hashed request has a hash, all of them different. *)
Class BlockHasher (bh : option hasher) (bs : Z) (caching : bool) := {
  hashed : Request -> Prop;
  hashed_append r toks : hashed r -> exists r', append_output_token_ids bh toks r = Ok r' /\ hashed r';
  hashed_content r r' : same_content r r' -> hashed r -> hashed r';
  hashed_blocks r : caching = true -> hashed r -> num_tokens r / bs <= zlen (block_hashes r) /\ NoDup (block_hashes r)
}.

(** Without prefix caching no hasher is installed. *)
#[export] Instance no_hasher bs : BlockHasher None bs false.
Proof.
  refine {| hashed := fun _ => True |}; [|done|done]. intros r toks _. by eexists.
Defined.

(** The hasher of kv_cache_utils.py over an ideal hash function. *)
#[export] Instance chain_hasher H NONE `{!IdealHash H NONE} bs `{!TCEq (0 <? bs)%nat true} caching :
  BlockHasher (Some (request_block_hasher H NONE (Z.of_nat bs))) (Z.of_nat bs) caching.
Proof.
  assert (Hbs : (0 < bs)%nat) by (apply Nat.ltb_lt, TCEq_eq; apply _).
  refine {| hashed := fun r => mm_features r = [] /\ hashes_ok H NONE bs r |}.
  - intros r toks [Hmm Hok]. destruct (append_hashes_ok H NONE bs r toks Hmm Hbs Hok) as (r' & ? & ? & ? & _). eauto.
  - intros r r' (E1 & E2 & E3 & E4 & E5) [Hmm Hok]. split; [congruence|]. unfold hashes_ok in *. rewrite E1, E2, Hok.
    unfold chain_hashes. apply list_fmap_ext. intros i x _. f_equal. unfold text_extra, gen_lora_extra_hash_keys, cache_salt_keys.
    by rewrite E3, E4.
  - intros r _ [_ Hok]. rewrite Hok. split; [|apply chain_hashes_NoDup; done].
    unfold chain_hashes, zlen, num_tokens. rewrite length_fmap, length_seq. unfold zlen. by rewrite Nat2Z.inj_div.
Defined.

(** The structured output manager does not advance requests without a grammar. *)
Class NoGrammarNoAdvance (G : Type) `{!StructuredOutput G} : Prop :=
  no_advance : forall r g, use_structured_output r = false -> (should_advance r g).1 = false.

(** ** The configuration *)

(** One engine, synchronous, FCFS or MIMIR, without LoRA slots. *)
Record plain_config (cfg : SchedConfig) : Prop := mkPlainConfig {
  pc_policy : policy cfg ≠ PRIORITY;
  pc_loras : max_loras cfg = None;
  pc_sync : async_scheduling cfg = false;
  pc_lookahead : 0 <= num_lookahead_tokens cfg;
  pc_tokens : 0 <= max_num_scheduled_tokens cfg;
  pc_reqs : 0 <= max_num_running_reqs cfg
}.

Definition is_fcfs (q : RequestQueue) : Prop := exists l, q = FCFSRequestQueue l.

Section Progress.
Context {C G : Type} `{!KVConnector C, !StructuredOutput G, !NoGrammarNoAdvance G}.
Context (cfg : SchedConfig) (fs : string -> option Qc).
Context (bh : option hasher) (bs : Z) (caching : bool) `{!BlockHasher bh bs caching} (room : Z).
Hypothesis Hcfg : plain_config cfg.

Abbreviation Sched := (Scheduler C G).
Notation maxlen := (max_model_len cfg).
Notation look := (num_lookahead_tokens cfg).
Notation backed := (KVBacking.backed bs look maxlen).
Notation kv_setup := (KVBacking.kv_setup bs maxlen).

(** A text request that samples tokens, without drafts and grammar; a tool
    duration, when given, is a number. *)
Record plain_req (r : Request) : Prop := mkPlain {
  pl_text : mm_features r = [];
  pl_drafts : spec_token_ids r = [];
  pl_placeholders : num_output_placeholders r = 0;
  pl_sampling : is_Some (sampling_params r);
  pl_pooling : pooling_params r = false;
  pl_grammar : use_structured_output r = false;
  pl_tokens : 0 < num_tokens r;
  pl_tool : is_none (dict_get (extra_args_meta r) "tool_duration") = true \/
    exists q, py_float fs (dict_get (extra_args_meta r) "tool_duration") = Ok q;
  pl_hashed : hashed (bh := bh) (bs := bs) (caching := caching) r
}.

(** The slots of a request: a running one has a slot for every computed token
    and for the [p] tokens scheduled in the current step, a waiting one has
    none. *)
Record req_ok (p : option Z) (k : KVCacheManager) (rid : string) (r : Request) : Prop := mkReqOk {
  ro_plain : plain_req r;
  ro_running : status r = RUNNING -> 0 <= num_computed_tokens r /\ 0 <= default 0 p /\
    num_computed_tokens r + default 0 p <= num_tokens r < maxlen /\ backed k rid (num_computed_tokens r + default 0 p);
  ro_waiting : is_waiting (status r) -> (status r = WAITING \/ status r = PREEMPTED) /\ num_computed_tokens r = 0 /\
    p = None /\ num_tokens r < maxlen /\ unbacked k rid
}.

(** The scheduler's view of the KV cache; [pend] are the tokens scheduled but
    not yet counted as computed. *)
Record kv_ok (pend : list (string * Z)) (s : Sched) : Prop := mkKvOk {
  ko_inv : exists l, kvm_inv (kv_cache_manager s) l;
  ko_setup : kv_setup (kv_cache_manager s);
  ko_caching : kvm_enable_caching (kv_cache_manager s) = caching;
  ko_stats : kvm_log_stats (kv_cache_manager s) = log_stats cfg;
  ko_room : room_of bs maxlen (kv_cache_manager s) = room;
  ko_reqs : forall rid o r, requests s !! rid = Some o -> sched_store s !! o = Some r ->
    req_ok (dget rid pend) (kv_cache_manager s) rid r;
  ko_free : forall rid, requests s !! rid = None -> unbacked (kv_cache_manager s) rid;
  ko_connector : connector s = None;
  ko_queue : is_fcfs (waiting s)
}.

Lemma kv_ok_core pend (s s' : Sched) :
  kv_ok pend s -> sched_store s' = sched_store s -> requests s' = requests s -> kv_cache_manager s' = kv_cache_manager s ->
  connector s' = None -> is_fcfs (waiting s') -> kv_ok pend s'.
Proof. intros [H1 H2 H3 H4 HR H5 H6 H7 H8] E1 E2 E3 E4 E5. split; rewrite ?E1, ?E2, ?E3; done. Qed.

Lemma req_ok_frame p rid rid' k k' r : kv_frame rid k k' -> rid ≠ rid' -> req_ok p k rid' r -> req_ok p k' rid' r.
Proof.
  intros HF Hne [H1 H2 H3]. split; [done| |].
  - intros Hs. destruct (H2 Hs) as (? & ? & ? & ?). split_and!; try lia. by eapply backed_frame.
  - intros Hw. destruct (H3 Hw) as (? & ? & ? & ? & ?). split_and!; try done. by eapply unbacked_frame.
Qed.

(** One request and its blocks change. *)
Lemma kv_ok_change pend pend' rid o r' (s s' : Sched) :
  kv_ok pend s -> requests s' = requests s -> (forall rid', requests s !! rid' = Some o -> rid' = rid) ->
  (forall x, x ≠ o -> sched_store s' !! x = sched_store s !! x) -> sched_store s' !! o = Some r' ->
  kv_frame rid (kv_cache_manager s) (kv_cache_manager s') -> (exists l, kvm_inv (kv_cache_manager s') l) ->
  (forall rid', rid' ≠ rid -> dget rid' pend' = dget rid' pend) -> requests s !! rid = Some o ->
  req_ok (dget rid pend') (kv_cache_manager s') rid r' -> connector s' = None -> is_fcfs (waiting s') -> kv_ok pend' s'.
Proof.
  intros [H1 H2 H3 H4 HR H5 H6 H7 H8] Ereq Hinj Hst Ho HF HI Hp Hreg Hr Hc Hq. split; try done.
  - by eapply setup_frame.
  - by rewrite (kl_caching _ _ (proj1 HF)).
  - by rewrite (kl_log _ _ (proj1 HF)).
  - by rewrite (room_frame _ _ _ _ _ HF).
  - intros rid' x rx. rewrite Ereq. intros Hx Hrx. destruct (decide (x = o)) as [->|Hne].
    + pose proof (Hinj rid' Hx) as ->. by simplify_eq.
    + rewrite Hst in Hrx by done. assert (rid ≠ rid') by (intros ->; congruence). rewrite Hp by done.
      eapply req_ok_frame; [done|done|]. by eapply H5.
  - intros rid'. rewrite Ereq. intros Hn. eapply unbacked_frame; [done|by intros ->; rewrite Hreg in Hn|by apply H6].
Qed.

(** ** The running loop *)

(** What is recorded of the requests scheduled so far. *)
Record out_ok (a : Step) (s : Sched) : Prop := mkOutOk {
  oo_sched : forall o, o ∈ scheduled_all a -> exists r b n, sched_store s !! o = Some r /\
    req_to_new_blocks a !! request_id r = Some b /\ blocks_valid (kv_cache_manager s) b /\
    dget (request_id r) (num_scheduled_tokens a) = Some n;
  oo_pos : Forall (fun kv => 0 < kv.2) (num_scheduled_tokens a);
  oo_keys : forall rid, rid ∈ (num_scheduled_tokens a).*1 -> exists o, requests s !! rid = Some o /\ o ∈ scheduled_all a;
  oo_nodup : NoDup (num_scheduled_tokens a).*1;
  oo_drafts : scheduled_spec_decode_tokens a = ∅;
  oo_skipped : is_fcfs (skipped_waiting_requests a)
}.

Lemma dget_none {V} (k : string) (d : list (string * V)) : k ∉ d.*1 -> dget k d = None.
Proof.
  induction d as [|[k' v] d IH]; cbn; [done|]. rewrite not_elem_of_cons. intros [? ?]. rewrite decide_False by done. auto.
Qed.

Lemma dget_dset {V} (k : string) (v : V) d : dget k (dset k v d) = Some v.
Proof. induction d as [|[k' v'] d IH]; cbn; [by rewrite decide_True|]. destruct (decide (k = k')) eqn:E; cbn; by rewrite E. Qed.

Lemma dget_dset_ne {V} (k k' : string) (v : V) d : k' ≠ k -> dget k' (dset k v d) = dget k' d.
Proof.
  intros Hne. induction d as [|[x v'] d IH]; cbn; [by rewrite decide_False|].
  destruct (decide (k = x)) as [<-|]; cbn; [by rewrite !decide_False|]. by rewrite IH.
Qed.

(** The registered object of a live request has one id. *)
Lemma live_id a (s : Sched) o r rid :
  step_inv cfg a s -> sched_store s !! o = Some r -> requests s !! rid = Some o -> rid = request_id r.
Proof.
  intros HI Ho Hreg. destruct (lf_reg _ _ _ _ (sv_life _ _ _ HI) _ _ Hreg) as (r' & Hr' & Hid & _). by simplify_eq.
Qed.

Lemma unscheduled_key a (s : Sched) o r :
  out_ok a s -> sched_store s !! o = Some r -> requests s !! request_id r = Some o -> o ∉ scheduled_all a ->
  request_id r ∉ (num_scheduled_tokens a).*1.
Proof. intros HO Ho Hreg Hn (o' & Ho' & Hin)%(oo_keys _ _ HO). by simplify_eq. Qed.

Lemma text_no_inputs r e : mm_features r = [] -> get_cached_input_ids r e = [].
Proof. intros Hm. unfold get_cached_input_ids, mm_hashes. by rewrite Hm. Qed.

(** Victims are taken from the end of the running list, behind every request
    scheduled in this step. *)
Lemma preempt_one_returns ts idx o a (s : Sched) :
  run_inv cfg idx a s -> kv_ok (num_scheduled_tokens a) s -> out_ok a s -> running s !! idx = Some o ->
  exists v a' s', preempt_one cfg ts a s = Ok (v, a', s') /\ kv_ok (num_scheduled_tokens a') s' /\ out_ok a' s' /\
    num_scheduled_tokens a' = num_scheduled_tokens a /\ requests s' = requests s /\
    exists rid, kv_frame rid (kv_cache_manager s) (kv_cache_manager s').
Proof using Hcfg.
  intros [HI Hskip Hnew Hres Hfresh] HK HO Hidx.
  destruct (last (running s)) as [v|] eqn:Hl; [|apply last_None in Hl; by rewrite Hl in Hidx].
  assert (Hvd : v ∈ drop idx (running s)).
  { apply last_Some in Hl as [l Hl]. rewrite Hl in *. apply lookup_lt_Some in Hidx. rewrite length_app in Hidx. cbn in Hidx.
    rewrite drop_app_le by lia. rewrite elem_of_app. right. by left. }
  assert (Hv : v ∈ running s) by (by eapply elem_of_drop_inv || (apply last_Some in Hl as [l ->]; rewrite elem_of_app; right; by left)).
  destruct (lf_run _ _ _ _ (sv_life _ _ _ HI) v Hv) as (r & Hr & Hst & Hreg).
  pose proof (unscheduled_key a s v r HO Hr Hreg (Hfresh v Hvd)) as Hkey.
  pose proof (ko_reqs _ _ HK _ _ _ Hreg Hr) as Hro.
  destruct (ko_inv _ _ HK) as [l HI0].
  destruct (free_backing (kv_cache_manager s) l r HI0) as (k' & l' & Ek & HI' & HF & HU).
  destruct (ko_queue _ _ HK) as [q Hq].
  assert (Etv : take_victim cfg (scheduled_running_reqs a) s = Ok (v, take (length (running s) - 1) (running s), scheduled_running_reqs a)).
  { unfold take_victim. rewrite Hl. destruct (policy cfg) eqn:Ep; try done. by destruct (pc_policy _ Hcfg). }
  assert (Ep : exists a' s', preempt_one cfg ts a s = Ok (v, a', s') /\ num_scheduled_tokens a' = num_scheduled_tokens a /\
    requests s' = requests s /\ kv_cache_manager s' = k' /\ connector s' = None /\ is_fcfs (waiting s') /\
    (forall x, x ≠ v -> sched_store s' !! x = sched_store s !! x) /\
    (exists r', sched_store s' !! v = Some r' /\ status r' = PREEMPTED /\ num_computed_tokens r' = 0 /\ plain_req r' /\ num_tokens r' = num_tokens r) /\
    scheduled_all a' = scheduled_all a /\ req_to_new_blocks a' = req_to_new_blocks a /\
    scheduled_spec_decode_tokens a' = scheduled_spec_decode_tokens a /\ skipped_waiting_requests a' = skipped_waiting_requests a).
  { unfold preempt_one. rewrite Etv. cbn [mbind result_bind]. unfold get_req. rewrite Hr. cbn [get_or mbind result_bind].
    rewrite Ek. cbn [mbind result_bind]. unfold enc_free. rewrite text_no_inputs by apply Hro. cbn [foldM mbind result_bind].
    cbn [waiting upd_req set_sched_store set_encoder_cache_manager set_kv_cache_manager set_running]. rewrite Hq. cbn [prepend_request mbind result_bind].
    eexists _, _. split; [reflexivity|]. cbn. rewrite (ko_connector _ _ HK). split_and!; try done; [by eexists| |].
    - intros x Hx. by rewrite lookup_alter_ne.
    - eexists. split; [by rewrite lookup_alter_eq, Hr|]. destruct (ro_plain _ _ _ _ Hro) as [P1 P2 P3 P4 P5 P6 P7 P8 P9].
      destruct (log_stats cfg); split_and!; try done; split; try done; eapply hashed_content; try exact P9; done. }
  destruct Ep as (a' & s' & Ep & En & Er & Ekk & Ec & Ew & Est & (r' & Hr' & S1 & S2 & S3 & S4) & Eall & Eb & Ed & Es).
  exists v, a', s'. split; [done|]. destruct (ro_running _ _ _ _ Hro Hst) as (_ & _ & Hnt & _).
  split; [|split; [|split; [done|split; [done|]]]].
  - rewrite En. eapply (kv_ok_change _ _ (request_id r) v r' s); try done.
    + intros rid' Hx. by eapply live_id.
    + by rewrite Ekk.
    + rewrite Ekk. by exists l'.
    + rewrite dget_none by done. split; [done|by rewrite S1|]. intros _. rewrite Ekk. split_and!; try done; [by right|lia].
  - destruct HO as [O1 O2 O3 O4 O5 O6]. split; rewrite ?En, ?Ed, ?Es, ?Eall, ?Er, ?Eb, ?Ekk; try done.
    intros x Hx. destruct (O1 x Hx) as (rx & b & n & X1 & X2 & X3 & X4). exists rx, b, n.
    split; [rewrite Est; [done|]; intros ->; by apply (Hfresh v)|]. split; [done|]. split; [|done].
    eapply Forall_impl; [exact X3|]. intros g Hg. eapply Forall_impl; [exact Hg|]. intros pp. apply valid_frame, HF.
  - rewrite Ekk. by eexists.
Qed.

Lemma hash_ready pend (s : Sched) r : kv_ok pend s -> plain_req r ->
  kvm_enable_caching (kv_cache_manager s) = true -> num_tokens r / bs <= zlen (block_hashes r) /\ NoDup (block_hashes r).
Proof. intros HK Hp. rewrite (ko_caching _ _ HK). intros Hc. by apply (hashed_blocks r Hc), Hp. Qed.

Lemma blocks_valid_frame k k' b : kvm_like k k' -> blocks_valid k b -> blocks_valid k' b.
Proof. intros HL Hb. eapply Forall_impl; [exact Hb|]. intros g Hg. eapply Forall_impl; [exact Hg|]. intros p. by apply valid_frame. Qed.

Lemma out_ok_kv a (s : Sched) k : kvm_like (kv_cache_manager s) k -> out_ok a s -> out_ok a (set_kv_cache_manager k s).
Proof.
  intros HL [O1 O2 O3 O4 O5 O6]. split; try done. intros o Ho. destruct (O1 o Ho) as (r & b & n & ? & ? & ? & ?).
  exists r, b, n. split_and!; try done. by eapply blocks_valid_frame.
Qed.

(** Slots for a running request, with what that does to the scheduler. *)
Lemma running_alloc_returns n a (s : Sched) o r :
  kv_ok (num_scheduled_tokens a) s -> sched_store s !! o = Some r -> requests s !! request_id r = Some o ->
  (forall rid', requests s !! rid' = Some o -> rid' = request_id r) -> status r = RUNNING -> 0 < n ->
  num_computed_tokens r + n <= num_tokens r -> dget (request_id r) (num_scheduled_tokens a) = None ->
  exists nb k, allocate_slots r n 0 None look false 0 (kv_cache_manager s) = Ok (nb, k) /\
    kv_frame (request_id r) (kv_cache_manager s) k /\
    match nb with
    | None => kv_ok (num_scheduled_tokens a) (set_kv_cache_manager k s)
    | Some b => kv_ok (dset (request_id r) n (num_scheduled_tokens a)) (set_kv_cache_manager k s) /\ blocks_valid k b
    end.
Proof using Hcfg.
  intros HK Ho Hreg Hinj Hst Hn Hsum Hd. pose proof (ko_reqs _ _ HK _ _ _ Hreg Ho) as Hro.
  destruct (ro_running _ _ _ _ Hro Hst) as (H0 & _ & Hnt & Hb). rewrite Hd in Hb, Hnt. cbn in Hb, Hnt. rewrite Z.add_0_r in Hb.
  destruct (ko_inv _ _ HK) as [l HI].
  destruct (running_alloc bs look maxlen (kv_cache_manager s) l r n HI (ko_setup _ _ HK) Hb Hn (pc_lookahead _ Hcfg) H0 Hsum ltac:(lia))
    as (nb & k & l' & E & HI' & HF & Hout).
  { intros Hc. by apply (hash_ready _ _ r HK (ro_plain _ _ _ _ Hro)). }
  exists nb, k. split; [done|]. split; [done|].
  assert (Hchg : forall p', req_ok (dget (request_id r) p') k (request_id r) r ->
    (forall rid', rid' ≠ request_id r -> dget rid' p' = dget rid' (num_scheduled_tokens a)) -> kv_ok p' (set_kv_cache_manager k s)).
  { intros p' Hr' Hp'. eapply (kv_ok_change _ _ (request_id r) o r s); try done; [by exists l'|apply HK|apply HK]. }
  destruct nb as [b|]; cbn [alloc_outcome] in Hout.
  - destruct Hout as (Hb' & _ & Hv). split; [|done]. apply Hchg; [|intros; by apply dget_dset_ne].
    rewrite dget_dset. split; [apply Hro| |by rewrite Hst]. intros _. cbn. split_and!; try done; lia.
  - apply Hchg; [|done]. rewrite Hd. split; [apply Hro| |by rewrite Hst]. intros _. cbn. rewrite Z.add_0_r. split_and!; try done; lia.
Qed.

Lemma run_inv_core idx a (s s' : Sched) : same_core s s' -> run_inv cfg idx a s -> run_inv cfg idx a s'.
Proof. intros Hc [H1 H2 H3 H4 H5]. split; try done; [by eapply step_inv_core|]. destruct Hc as (_ & _ & _ & -> & _). done. Qed.

(** Request [o], the next of the running list, wants slots for [n] tokens. *)
Record wants (idx o : nat) (n : Z) (a : Step) (s : Sched) : Prop := mkWants {
  wa_run : run_inv cfg idx a s;
  wa_kv : kv_ok (num_scheduled_tokens a) s;
  wa_out : out_ok a s;
  wa_idx : running s !! idx = Some o;
  wa_pos : 0 < n;
  wa_sum : forall r, sched_store s !! o = Some r -> num_computed_tokens r + n <= num_tokens r
}.

Lemma wants_request idx o n a (s : Sched) : wants idx o n a s -> exists r, sched_store s !! o = Some r /\ status r = RUNNING /\
  requests s !! request_id r = Some o /\ request_id r ∉ (num_scheduled_tokens a).*1 /\
  (forall rid', requests s !! rid' = Some o -> rid' = request_id r).
Proof.
  intros [HI HK HO Hidx _ _]. assert (Hin : o ∈ running s) by (by eapply list_elem_of_lookup_2).
  destruct (lf_run _ _ _ _ (sv_life _ _ _ (rv_step _ _ _ _ HI)) o Hin) as (r & Hr & Hst & Hreg). exists r. split_and!; try done.
  - apply (unscheduled_key a s o); try done. apply (rv_fresh _ _ _ _ HI), list_elem_of_lookup. exists 0%nat. by rewrite lookup_drop, Nat.add_0_r.
  - intros rid' Hx. by eapply live_id; [apply HI| |].
Qed.

Lemma wants_alloc idx o n a (s : Sched) : wants idx o n a s -> exists r nb k, get_req o s = Ok r /\
  allocate_slots r n 0 None look false 0 (kv_cache_manager s) = Ok (nb, k) /\ kv_frame (request_id r) (kv_cache_manager s) k /\
  match nb with
  | None => wants idx o n a (set_kv_cache_manager k s)
  | Some b => blocks_valid k b /\ out_ok a (set_kv_cache_manager k s) /\ sched_store s !! o = Some r /\
      kv_ok (dset (request_id r) n (num_scheduled_tokens a)) (set_kv_cache_manager k s)
  end.
Proof using Hcfg.
  intros HW. destruct (wants_request _ _ _ _ _ HW) as (r & Hr & Hst & Hreg & Hkey & Hinj). destruct HW as [HI HK HO Hidx Hn Hsum].
  destruct (running_alloc_returns n a s o r HK Hr Hreg Hinj Hst Hn (Hsum _ Hr) (dget_none _ _ Hkey)) as (nb & k & E & HF & Hnb).
  exists r, nb, k. unfold get_req. rewrite Hr. split_and!; try done. destruct nb as [b|].
  - destruct Hnb. split_and!; try done. by apply out_ok_kv; [apply HF|].
  - split; try done; [by apply (run_inv_core _ _ s)|]. by apply out_ok_kv; [apply HF|].
Qed.

Lemma wants_preempt ts idx o n a (s : Sched) : wants idx o n a s -> exists v a' s', preempt_one cfg ts a s = Ok (v, a', s') /\
  kv_ok (num_scheduled_tokens a') s' /\ out_ok a' s' /\ num_scheduled_tokens a' = num_scheduled_tokens a /\ requests s' = requests s /\
  (exists rid, kv_frame rid (kv_cache_manager s) (kv_cache_manager s')) /\ (v ≠ o -> wants idx o n a' s').
Proof using Hcfg.
  intros [HI HK HO Hidx Hn Hsum]. destruct (preempt_one_returns ts idx o a s HI HK HO Hidx) as (v & a' & s' & E & HK' & HO' & En & Er & HF).
  exists v, a', s'. split_and!; try done. intros Hne. destruct HI as [H1 H2 H3 H4 H5].
  destruct (preempt_one_spec cfg ts idx o _ _ _ _ _ E H1 H2 H3 H4 H5 (fun _ => Hidx)) as (HI1 & Hperm & Hdrop & Hall & Hidx1 & Hstore & Ea).
  split; try done.
  - split; [done|by rewrite Ea|by rewrite Ea|by rewrite Ea|]. intros x Hx%Hdrop [Hx' _]%Hall. by apply (H5 x).
  - by apply Hidx1; [apply Hcfg|].
  - intros rx Hrx. rewrite Hstore in Hrx by done. by apply Hsum.
Qed.

(** The allocation loop returns; a request that keeps its slot is recorded as
    pending. *)
Lemma alloc_run_returns ts idx o n a (s : Sched) res :
  alloc_run cfg ts o n a s res -> wants idx o n a s ->
  exists nb a' s', res = Ok (nb, a', s') /\ out_ok a' s' /\ num_scheduled_tokens a' = num_scheduled_tokens a /\
    match nb with
    | None => kv_ok (num_scheduled_tokens a') s'
    | Some b => blocks_valid (kv_cache_manager s') b /\
        forall r, sched_store s' !! o = Some r -> kv_ok (dset (request_id r) n (num_scheduled_tokens a')) s'
    end.
Proof using Hcfg.
  intros HR. induction HR as [a s e r Er Ea|a s e Er|a s r b k Er Ea|a s r k e Er Ea Ep|a s r k a' s' Er Ea Ep|a s r k v a' s' res Er Ea Ep Hne HR IH];
    intros HW; destruct (wants_alloc _ _ _ _ _ HW) as (r0 & nb & k0 & Er0 & Ea0 & _ & Hnb); rewrite Er0 in Er; simplify_eq; rewrite ?Ea0 in Ea; simplify_eq;
    try (destruct (wants_preempt ts _ _ _ _ _ Hnb) as (v0 & a0 & s0 & Ep0 & HK0 & HO0 & En0 & _ & _ & HW0); rewrite Ep0 in Ep; simplify_eq).
  - destruct Hnb as (Hv & HO1 & Hr & HK1). eexists _, _, _. split_and!; try done. split; [done|]. cbn. intros rx Hrx. by simplify_eq.
  - by eexists _, _, _.
  - destruct (IH (HW0 Hne)) as (nb & a2 & s2 & -> & HO2 & En2 & Hout). eexists _, _, _. split_and!; try done. congruence.
Qed.

Lemma dget_key {V} (k : string) (v : V) d : dget k d = Some v -> k ∈ d.*1.
Proof. induction d as [|[k' v'] d IH]; cbn; [done|]. destruct (decide (k = k')) as [->|]; [by left|]. intros. right. auto. Qed.

(** Recording a scheduled request. *)
Lemma out_ok_scheduled a (s : Sched) o r new resumed run b n enc eb :
  out_ok a s -> sched_store s !! o = Some r -> requests s !! request_id r = Some o ->
  new ++ resumed ++ run ≡ₚ o :: scheduled_all a -> 0 < n -> blocks_valid (kv_cache_manager s) b ->
  request_id r ∉ (num_scheduled_tokens a).*1 -> out_ok (set_scheduled new resumed run (request_id r) b n enc eb a) s.
Proof.
  intros [O1 O2 O3 O4 O5 O6] Ho Hreg Hall Hn Hb Hk.
  split; unfold scheduled_all; cbn; rewrite ?dset_fresh by done; try done.
  - intros x. rewrite Hall, elem_of_cons. intros [->|Hx].
    + exists r, b, n. rewrite lookup_insert_eq. split_and!; try done. rewrite <-dset_fresh by done. apply dget_dset.
    + destruct (O1 x Hx) as (rx & bx & nx & X1 & X2 & X3 & X4). exists rx, bx, nx.
      assert (request_id rx ≠ request_id r) by (intros E; rewrite E in X4; by apply Hk, (dget_key _ nx)).
      rewrite lookup_insert_ne by done. split_and!; try done. rewrite <-dset_fresh by done. by rewrite dget_dset_ne.
  - apply Forall_app. split; [done|]. by apply Forall_singleton.
  - intros rid. rewrite fmap_app, elem_of_app. cbn. rewrite list_elem_of_singleton. setoid_rewrite Hall. setoid_rewrite elem_of_cons.
    intros [(x & ? & ?)%O3| ->]; eauto.
  - rewrite fmap_app. apply NoDup_app. split; [done|]. split; [|apply NoDup_singleton].
    intros x Hx. cbn. rewrite list_elem_of_singleton. by intros ->.
Qed.

Lemma running_tokens_bounds r budget :
  plain_req r -> 0 <= num_computed_tokens r <= num_tokens r -> num_tokens r < maxlen -> 0 < budget ->
  0 <= running_new_tokens cfg r budget /\ num_computed_tokens r + running_new_tokens cfg r budget <= num_tokens r.
Proof.
  intros Hp H1 H2 H3. unfold running_new_tokens, cap_prefill, num_tokens_with_spec. rewrite (pl_drafts _ Hp), (pl_placeholders _ Hp).
  fold (num_tokens r). change (zlen []) with 0. destruct (Z.ltb_spec 0 (long_prefill_token_threshold cfg)); cbn [andb]; [|lia].
  destruct (Z.ltb_spec (long_prefill_token_threshold cfg) (num_tokens r + 0 + 0 - num_computed_tokens r)); lia.
Qed.

Lemma has_no_inputs r : plain_req r -> has_encoder_inputs r = false.
Proof. intros Hp. unfold has_encoder_inputs, num_encoder_inputs. by rewrite (pl_text _ Hp). Qed.

(** What is scheduled stays scheduled for the rest of the step. *)
Notation keeps a a' := (num_scheduled_tokens a ≠ [] -> num_scheduled_tokens a' ≠ []).

Lemma dset_nonempty {V} (k : string) (v : V) d : dset k v d ≠ [].
Proof. destruct d as [|[? ?] ?]; cbn; [done|]. by destruct (decide _). Qed.

Lemma running_step_returns ts idx a (s : Sched) :
  run_inv cfg idx a s -> kv_ok (num_scheduled_tokens a) s -> out_ok a s -> (idx < length (running s))%nat -> 0 < token_budget a ->
  exists next a' s', running_step cfg ts idx a s = Ok (next, a', s') /\ kv_ok (num_scheduled_tokens a') s' /\ out_ok a' s' /\
    keeps a a' /\
    forall o r, running s !! idx = Some o -> sched_store s !! o = Some r -> running_new_tokens cfg r (token_budget a) ≠ 0 ->
      (forall a1 s1, alloc_loop cfg (S (length (running s))) ts o (running_new_tokens cfg r (token_budget a)) a
         (set_encoder_cache_manager (encoder_cache_manager s) s) ≠ Ok (None, a1, s1)) -> num_scheduled_tokens a' ≠ [].
Proof using Hcfg.
  intros HI HK HO Hidx Hb. destruct (running s !! idx) as [o|] eqn:Eo; [|apply lookup_ge_None in Eo; lia].
  assert (Hin : o ∈ running s) by (by eapply list_elem_of_lookup_2).
  destruct (lf_run _ _ _ _ (sv_life _ _ _ (rv_step _ _ _ _ HI)) o Hin) as (r & Hr & Hst & Hreg).
  assert (Hno : o ∉ scheduled_all a) by (apply (rv_fresh _ _ _ _ HI), list_elem_of_lookup; exists 0%nat; by rewrite lookup_drop, Nat.add_0_r).
  pose proof (unscheduled_key a s o r HO Hr Hreg Hno) as Hkey.
  pose proof (ko_reqs _ _ HK _ _ _ Hreg Hr) as Hro. pose proof (ro_plain _ _ _ _ Hro) as Hp.
  destruct (ro_running _ _ _ _ Hro Hst) as (H0 & _ & Hnt & _). rewrite (dget_none _ _ Hkey) in Hnt. cbn in Hnt.
  destruct (running_tokens_bounds r (token_budget a) Hp ltac:(lia) ltac:(lia) Hb) as [Hn0 Hn].
  unfold running_step, get_req. rewrite Eo. cbn [get_or mbind result_bind]. rewrite Hr. cbn [get_or mbind result_bind]. cbv zeta. rewrite (has_no_inputs r Hp). cbn [mbind result_bind].
  set (n := running_new_tokens cfg r (token_budget a)) in *.
  set (s0 := set_encoder_cache_manager (encoder_cache_manager s) s).
  assert (HK0 : kv_ok (num_scheduled_tokens a) s0) by (by apply (kv_ok_core _ s); try done; apply HK).
  assert (HO0 : out_ok a s0) by (by destruct HO; split).
  destruct (Z.eqb_spec n 0) as [En0|En0].
  { eexists _, _, _. split; [done|]. split; [done|]. split; [done|]. split; [done|]. intros o' r' [= <-] Hr' Hn'.
    rewrite Hr in Hr'. by injection Hr' as <-. }
  assert (HI0 : run_inv cfg idx a s0) by (by apply (run_inv_core _ _ s)).
  assert (HW : wants idx o n a s0) by (split; try done; [lia|]; intros rx Hrx; cbn in Hrx; by simplify_eq).
  destruct (alloc_run_returns ts idx o n a s0 _ (alloc_loop_runs cfg ts o n (S (length (running s0))) a s0 ltac:(lia)) HW)
    as (nb & a1 & s1 & E1 & HO1 & En & Hout).
  rewrite E1. cbn [mbind result_bind]. cbv beta iota. destruct nb as [b|].
  2:{ eexists _, _, _. split; [done|]. split; [done|]. split; [done|]. split; [by rewrite En|].
      intros o' r' [= <-] Hr' _ Hne. rewrite Hr in Hr'. injection Hr' as <-. by destruct (Hne _ _ E1). }
  destruct HI0 as [J1 J2 J3 J4 J5].
  destruct (alloc_loop_spec cfg ts idx o n _ _ _ _ _ _ E1 J1 J2 J3 J4 Hin J5 (fun _ => Eo))
    as (HI1 & Hall & _ & Hnew1 & Hres1 & _ & _ & _ & Hsome). destruct (Hsome ltac:(done)) as [Ho1 Hs1]. cbn in Hs1.
  destruct Hout as [Hv Hk1]. rewrite Hr in Hs1. specialize (Hk1 r Hs1).
  destruct (lf_run _ _ _ _ (sv_life _ _ _ HI1) o Ho1) as (r1 & Hr1 & _ & Hreg1). rewrite Hs1 in Hr1. injection Hr1 as <-.
  unfold schedule_spec. rewrite (pl_drafts _ Hp), decide_True by done. unfold encoder_allocate. cbn [foldM mbind result_bind].
  eexists _, _, _. split; [reflexivity|]. split; [|split].
  - apply (kv_ok_core _ s1); try done; apply Hk1.
  - assert (HO2 : out_ok (set_scheduled (scheduled_new_reqs a1) (scheduled_resumed_reqs a1) (scheduled_running_reqs a1 ++ [o])
      (request_id r) b n [] (encoder_compute_budget a) a1) s1).
    { apply (out_ok_scheduled a1 s1 o r); try done; [|lia|by rewrite En]. unfold scheduled_all. rewrite Hnew1, Hres1. cbn.
      by rewrite Permutation_app_comm. }
    by destruct HO2; split.
  - split; [intros _|intros _ _ _ _ _ _]; apply dset_nonempty.
Qed.

Lemma running_run_returns ts idx a (s : Sched) res :
  running_run cfg ts idx a s res -> run_inv cfg idx a s -> kv_ok (num_scheduled_tokens a) s -> out_ok a s ->
  exists a' s', res = Ok (a', s') /\ kv_ok (num_scheduled_tokens a') s' /\ out_ok a' s' /\ keeps a a'.
Proof using Hcfg.
  intros HR. induction HR as [idx a s Hc|idx a s e Hc E|idx a s a' s' Hc E|idx a s j a' s' res Hc E HR IH]; intros HI HK HO; [by eexists _, _|..];
    apply andb_true_iff in Hc as [Hc1%Nat.ltb_lt Hc2%Z.ltb_lt];
    destruct (running_step_returns ts idx a s HI HK HO Hc1 Hc2) as (nx & a1 & s1 & E1 & HK1 & HO1 & Hk1 & _); rewrite E1 in E; try discriminate E.
  - injection E as -> -> ->. by eexists _, _.
  - injection E as -> -> ->. pose proof (running_step_spec cfg _ _ _ _ _ _ _ E1 HI Hc2) as [_ HI1].
    destruct (IH HI1 HK1 HO1) as (a2 & s2 & -> & ? & ? & Hk2). eexists _, _. split_and!; try done. intros Hne. by apply Hk2, Hk1.
Qed.

(** ** The waiting loop *)

(** Attribute writes that keep a request plain. *)
Definition same_plain (r r' : Request) : Prop :=
  request_id r' = request_id r /\ same_content r r' /\ spec_token_ids r' = spec_token_ids r /\
  num_output_placeholders r' = num_output_placeholders r /\ sampling_params r' = sampling_params r /\
  pooling_params r' = pooling_params r /\ use_structured_output r' = use_structured_output r /\
  extra_args_meta r' = extra_args_meta r.

Lemma plain_same r r' : same_plain r r' -> plain_req r -> plain_req r'.
Proof.
  intros (_ & Hc & E1 & E2 & E3 & E4 & E5 & E6) [P1 P2 P3 P4 P5 P6 P7 P8 P9].
  split; rewrite ?E1, ?E2, ?E3, ?E4, ?E5, ?E6; try done.
  - destruct Hc as (_ & _ & _ & _ & ->). done.
  - unfold num_tokens. destruct Hc as (-> & _). done.
  - by eapply hashed_content.
Qed.

(** The head of the waiting queue. *)
Record head_of (a : Step) (s : Sched) (o : nat) (q : list nat) (r : Request) : Prop := mkHead {
  hd_queue : waiting s = FCFSRequestQueue (o :: q);
  hd_store : sched_store s !! o = Some r;
  hd_reg : requests s !! request_id r = Some o;
  hd_inj : forall rid, requests s !! rid = Some o -> rid = request_id r;
  hd_plain : plain_req r;
  hd_status : status r = WAITING \/ status r = PREEMPTED;
  hd_zero : num_computed_tokens r = 0;
  hd_len : num_tokens r < maxlen;
  hd_free : unbacked (kv_cache_manager s) (request_id r);
  hd_key : request_id r ∉ (num_scheduled_tokens a).*1
}.

Lemma waiting_head a (s : Sched) :
  step_inv cfg a s -> kv_ok (num_scheduled_tokens a) s -> out_ok a s -> queue_bool (waiting s) = true -> exists o q r, head_of a s o q r.
Proof.
  intros HI HK HO Hq. destruct (ko_queue _ _ HK) as [[|o q] Eq]; rewrite Eq in Hq; [done|].
  destruct (lf_wait _ _ _ _ (sv_life _ _ _ HI) o) as (r & Hr & Hw & Hreg); [rewrite Eq; cbn; by left|].
  pose proof (ko_reqs _ _ HK _ _ _ Hreg Hr) as Hro. destruct (ro_waiting _ _ _ _ Hro Hw) as (H1 & H2 & H3 & H4 & H5).
  exists o, q, r. split; try done; [|apply Hro|].
  - intros rid Hx. by eapply live_id.
  - apply (unscheduled_key a s o r HO Hr Hreg). intros Hx%(sv_sub _ _ _ HI). apply (life_disjoint _ _ _ _ (sv_life _ _ _ HI) o); [|done].
    rewrite Eq. cbn. by left.
Qed.

Section Head.
Context (a : Step) (s : Sched) (o : nat) (q : list nat) (r : Request).
Hypothesis (HH : head_of a s o q r) (HK : kv_ok (num_scheduled_tokens a) s) (HO : out_ok a s) (Hb : 0 < token_budget a).

Lemma head_ready : waiting_ready cfg o a s = Ok (true, s).
Proof using HH Hcfg.
  unfold waiting_ready, get_req. rewrite (hd_store _ _ _ _ _ HH). cbn [get_or mbind result_bind].
  rewrite decide_False by (destruct (hd_status _ _ _ _ _ HH) as [->| ->]; done). cbn [mbind result_bind negb].
  rewrite (hd_store _ _ _ _ _ HH). cbn [get_or mbind result_bind].
  rewrite decide_False by (destruct (hd_status _ _ _ _ _ HH) as [->| ->]; done). cbn [negb].
  by rewrite (pc_loras _ Hcfg).
Qed.

(** The state once the cached prefix is known, up to the manager [k]. *)
Lemma head_state k : kv_frame (request_id r) (kv_cache_manager s) k -> (exists l, kvm_inv k l) -> unbacked k (request_id r) ->
  kv_ok (num_scheduled_tokens a) (set_kv_cache_manager k s) /\ out_ok a (set_kv_cache_manager k s).
Proof using HH HK HO.
  intros HF HI HU. split; [|by apply out_ok_kv; [apply HF|]]. destruct HH as [H1 H2 H3 H4 H5 H6 H7 H8 H9 H10].
  eapply (kv_ok_change _ _ (request_id r) o r s); try done; [|apply HK|apply HK].
  rewrite dget_none by done. split; [done|by intros Hs; destruct H6 as [E|E]; rewrite E in Hs|]. intros _. done.
Qed.

Lemma head_computed : exists b n0 k l, waiting_computed r s = Ok (Some (mkComputed b n0 0 n0 false), set_kv_cache_manager k s) /\
  kvm_inv k l /\ kv_frame (request_id r) (kv_cache_manager s) k /\ unbacked k (request_id r) /\ 0 <= n0 < num_tokens r /\
  usable_hits k bs n0 (kv_blocks b) /\ (kvm_enable_caching k = false -> n0 = 0).
Proof using HH HK.
  destruct (ko_inv _ _ HK) as [l HI].
  destruct (hits_backing bs maxlen (kv_cache_manager s) l r HI (ko_setup _ _ HK) (pl_tokens _ (hd_plain _ _ _ _ _ HH)))
    as (b & n0 & k & E & HI' & Hco & HF & Hnc & Hn & Hus).
  { apply (hash_ready _ _ r HK), HH. }
  exists b, n0, k, l. unfold waiting_computed. rewrite (hd_zero _ _ _ _ _ HH). change (0 =? 0) with true. rewrite E. cbn [mbind result_bind].
  cbn [connector set_kv_cache_manager]. rewrite (ko_connector _ _ HK). split; [done|]. split; [done|]. split; [apply HF|].
  split; [|done]. unfold unbacked, managers. rewrite Hco. apply HH.
Qed.

Lemma head_tokens c (s1 : Sched) :
  c_async c = false -> c_total c < num_tokens r -> exists wt, waiting_tokens cfg r c a s1 = Ok (wt, s1) /\
    match wt with
    | WTSkip => chunked_prefill_enabled cfg = false
    | WTStop => False
    | WTGo n inputs _ => 0 < n /\ c_total c + n <= num_tokens r /\ inputs = []
    end.
Proof using HH Hb.
  intros Hc Ht. unfold waiting_tokens. rewrite Hc. cbv zeta.
  assert (Hcap : 0 < cap_prefill cfg (num_tokens r - c_total c) <= num_tokens r - c_total c).
  { unfold cap_prefill. destruct (Z.ltb_spec 0 (long_prefill_token_threshold cfg)); cbn [andb]; [|lia].
    destruct (Z.ltb_spec (long_prefill_token_threshold cfg) (num_tokens r - c_total c)); lia. }
  destruct (negb _ && _) eqn:Esk; [exists WTSkip; split; [done|]; by destruct (chunked_prefill_enabled cfg)|].
  replace (0 <? Z.min _ (token_budget a)) with true by (symmetry; apply Z.ltb_lt; lia). cbn [assert_ mbind result_bind].
  rewrite (has_no_inputs r) by apply HH. eexists. split; [done|]. cbn. split_and!; try done; lia.
Qed.

Lemma head_alloc b n0 n k l :
  kvm_inv k l -> kv_frame (request_id r) (kv_cache_manager s) k -> unbacked k (request_id r) -> 0 <= n0 ->
  usable_hits k bs n0 (kv_blocks b) -> (kvm_enable_caching k = false -> n0 = 0) -> 0 < n -> n0 + n <= num_tokens r ->
  exists nb k', waiting_alloc cfg r (mkComputed b n0 0 n0 false) n (set_kv_cache_manager k s) = Ok (nb, set_kv_cache_manager k' s) /\
    (exists l', kvm_inv k' l') /\ kv_frame (request_id r) (kv_cache_manager s) k' /\
    match nb with None => unbacked k' (request_id r) | Some _ => backed k' (request_id r) (n0 + n) end /\
    (alone k (request_id r) -> capacity bs maxlen k -> is_Some nb).
Proof using HH HK Hcfg.
  intros HI HF HU Hn0 Hus Hnc Hn Hsum. pose proof (hd_plain _ _ _ _ _ HH) as Hp. pose proof (hd_len _ _ _ _ _ HH) as Hlen.
  destruct (admit_alloc bs look maxlen k l r b n n0 HI (setup_frame _ _ _ _ _ HF (ko_setup _ _ HK)) HU Hus Hnc (hd_zero _ _ _ _ _ HH) Hn
    ltac:(lia) (pc_lookahead _ Hcfg) Hsum ltac:(lia)) as (nb & k' & l' & E & HI' & HF' & Hout).
  { rewrite (kl_caching _ _ (proj1 HF)). intros Hc. by apply (hash_ready _ _ r HK Hp). }
  exists nb, k'. assert (Hsome : alone k (request_id r) -> capacity bs maxlen k -> is_Some nb).
  { intros Ha Hcap. assert (Hset : kv_setup k) by (exact (setup_frame _ _ _ _ _ HF (ko_setup _ _ HK))).
    destruct (never_refused bs maxlen k l r n n0 0 (kv_blocks b)) as (b1 & k1 & E1); try done; [|apply Hus|].
    - apply (admit_alloc_pre bs maxlen); try done; try lia; [apply HH|].
      rewrite (kl_caching _ _ (proj1 HF)). intros Hc. by apply (hash_ready _ _ r HK Hp).
    - destruct b as [lists]. cbn in E1. rewrite E1 in E. injection E as <- _. by eexists. }
  unfold waiting_alloc, waiting_encoder_tokens. rewrite (has_no_inputs r Hp), andb_false_r, (hd_zero _ _ _ _ _ HH).
  change (0 =? 0) with true. cbn [c_external c_local c_blocks c_async mbind result_bind kv_cache_manager set_kv_cache_manager].
  rewrite Z.add_0_r, E. cbn [mbind result_bind connector set_kv_cache_manager]. rewrite (ko_connector _ _ HK).
  split; [by destruct nb|]. split; [by eexists|]. split; [by etrans|]. split; [|done]. destruct nb; [apply Hout|done].
Qed.

(** The record of the admitted request. *)
Lemma head_commit ts n0 n b inputs eb k :
  kv_frame (request_id r) (kv_cache_manager s) k -> (exists l, kvm_inv k l) -> backed k (request_id r) (n0 + n) ->
  0 <= n0 -> 0 < n -> n0 + n <= num_tokens r -> inputs = [] ->
  exists a' s', waiting_commit cfg ts o (mkComputed b n0 0 n0 false) n inputs eb a (set_waiting (FCFSRequestQueue q) (set_kv_cache_manager k s)) = Ok (a', s') /\
    kv_ok (num_scheduled_tokens a') s' /\ out_ok a' s' /\ num_scheduled_tokens a' ≠ [].
Proof using HH HK HO Hcfg.
  intros HF [l HI] Hbk Hn0 Hn Hsum ->. destruct HH as [H1 H2 H3 H4 H5 H6 H7 H8 H9 H10].
  unfold waiting_commit. cbv zeta. set (s1 := if log_stats cfg then _ else _).
  assert (Hs1 : exists r1, sched_store s1 !! o = Some r1 /\ same_plain r r1 /\ status r1 = status r /\
    requests s1 = requests s /\ kv_cache_manager s1 = k /\ connector s1 = None /\ waiting s1 = FCFSRequestQueue q /\
    (forall x, x ≠ o -> sched_store s1 !! x = sched_store s !! x)).
  { unfold s1. pose proof (ko_connector _ _ HK). destruct (log_stats cfg); cbn.
    - eexists. split; [by rewrite lookup_alter_eq, H2|]. split_and!; try done. intros x Hx. by rewrite lookup_alter_ne.
    - exists r. by split_and!. }
  destruct Hs1 as (r1 & E1 & Hsame & Hst & Er & Ek & Ec & Ew & Est). clearbody s1.
  unfold get_req. rewrite E1. cbn [get_or mbind result_bind]. rewrite Hst.
  assert (Hnr : exists new resumed, (match status r with
     | WAITING => Ok (scheduled_new_reqs a ++ [o], scheduled_resumed_reqs a)
     | PREEMPTED => Ok (scheduled_new_reqs a, scheduled_resumed_reqs a ++ [o])
     | _ => Err RuntimeError end) = Ok (new, resumed) /\ new ++ resumed ++ scheduled_running_reqs a ≡ₚ o :: scheduled_all a).
  { destruct H6 as [->| ->]; eexists _, _; (split; [reflexivity|]); unfold scheduled_all; rewrite <-?app_assoc; cbn; by rewrite <-!Permutation_middle. }
  destruct Hnr as (new & resumed & -> & Hperm). cbn [mbind result_bind]. rewrite (pc_loras _ Hcfg).
  unfold encoder_allocate. cbn [foldM mbind result_bind]. eexists _, _. split; [reflexivity|].
  assert (Hid : request_id r1 = request_id r) by apply Hsame. rewrite Hid.
  set (f := fun r0 : Request => if num_cached_tokens _ <? 0 then _ else _).
  assert (Hf : same_plain r (f r1) /\ status (f r1) = RUNNING /\ num_computed_tokens (f r1) = n0).
  { unfold f. cbv zeta. destruct (_ <? 0); split; try done; exact Hsame. }
  destruct Hf as (Hf1 & Hf2 & Hf3). set (s2 := upd_req o f s1).
  assert (Hs2 : sched_store s2 !! o = Some (f r1)) by (cbn; by rewrite lookup_alter_eq, E1).
  assert (Hs2' : forall x, x ≠ o -> sched_store s2 !! x = sched_store s !! x) by (intros x Hx; cbn; rewrite lookup_alter_ne by done; by apply Est).
  split; [|split; [|apply dset_nonempty]].
  - cbn [num_scheduled_tokens set_scheduled].
    assert (HK2 : kv_ok (dset (request_id r) n (num_scheduled_tokens a)) s2).
    { eapply (kv_ok_change _ _ (request_id r) o (f r1) s); try done.
      - by rewrite <-Ek in HF.
      - cbn. rewrite Ek. by exists l.
      - intros; by apply dget_dset_ne.
      - rewrite dget_dset. split; [by eapply plain_same|intros _|by rewrite Hf2]. cbn. rewrite Ek, Hf3.
        unfold num_tokens. destruct Hf1 as (_ & (-> & _) & _). fold (num_tokens r). split_and!; try done; lia.
      - cbn. rewrite Ew. by eexists. }
    apply (kv_ok_core _ s2); try done; apply HK2.
  - assert (HO2 : out_ok (set_scheduled new resumed (scheduled_running_reqs a) (request_id r)
      (kvm_get_blocks (request_id r) (kv_cache_manager s1)) n [] eb a) s2).
    { rewrite <-(proj1 Hf1). eapply (out_ok_scheduled a s2 o (f r1)); try done.
      - destruct HO as [O1 O2 O3 O4 O5 O6]. split; try done; [|cbn; by rewrite Er].
        intros x Hx. destruct (O1 x Hx) as (rx & bx & nx & X1 & X2 & X3 & X4). exists rx, bx, nx.
        assert (x ≠ o). { intros ->. simplify_eq. by apply H10, (dget_key _ nx). }
        rewrite Hs2' by done. split_and!; try done. cbn. rewrite Ek. by eapply blocks_valid_frame; [apply HF|].
      - cbn. by rewrite Er, (proj1 Hf1).
      - cbn. rewrite Ek. by eapply table_valid.
      - by rewrite (proj1 Hf1). }
    by destruct HO2; split.
Qed.

Lemma head_skip k :
  kv_frame (request_id r) (kv_cache_manager s) k -> (exists l, kvm_inv k l) -> unbacked k (request_id r) ->
  exists a' s', skip_waiting o a (set_kv_cache_manager k s) = Ok (a', s') /\ kv_ok (num_scheduled_tokens a') s' /\ out_ok a' s' /\ keeps a a'.
Proof using HH HK HO.
  intros HF HI HU. destruct (head_state k HF HI HU) as [HK1 HO1]. unfold skip_waiting. cbn [waiting set_kv_cache_manager].
  rewrite (hd_queue _ _ _ _ _ HH). cbn [pop_request mbind result_bind]. destruct (oo_skipped _ _ HO) as [sk ->].
  cbn [prepend_request mbind result_bind]. eexists _, _. split; [reflexivity|]. split; [|split; [|done]].
  - apply (kv_ok_core _ (set_kv_cache_manager k s)); try done; [apply HK1|by eexists].
  - destruct HO1 as [O1 O2 O3 O4 O5 O6]. split; try done. by eexists.
Qed.

Lemma head_step ts :
  exists go a' s', waiting_step cfg ts a s = Ok (go, a', s') /\ kv_ok (num_scheduled_tokens a') s' /\ out_ok a' s' /\ keeps a a' /\
    (chunked_prefill_enabled cfg = true -> alone (kv_cache_manager s) (request_id r) -> capacity bs maxlen (kv_cache_manager s) ->
     num_scheduled_tokens a' ≠ []).
Proof using HH HK HO Hb Hcfg.
  unfold waiting_step. rewrite (hd_queue _ _ _ _ _ HH). cbn [peek_request head get_or mbind result_bind].
  rewrite head_ready. cbn [mbind result_bind negb]. unfold get_req. rewrite (hd_store _ _ _ _ _ HH). cbn [get_or mbind result_bind].
  destruct head_computed as (b & n0 & k & l & -> & HI & HF & HU & Hn0 & Hus & Hnc). cbn [mbind result_bind].
  destruct (head_tokens (mkComputed b n0 0 n0 false) (set_kv_cache_manager k s) eq_refl ltac:(cbn; lia)) as (wt & -> & Hwt). cbn [mbind result_bind].
  destruct wt as [| |n inputs eb]; [|done|].
  - destruct (head_skip k HF (ex_intro _ l HI) HU) as (a' & s' & -> & ? & ? & ?). eexists _, _, _. split_and!; try done. by rewrite Hwt.
  - destruct Hwt as (Hn & Hsum & ->). cbn in Hsum.
    destruct (head_alloc b n0 n k l HI HF HU ltac:(lia) Hus Hnc Hn Hsum) as (nb & k' & -> & HI' & HF' & Hout & Hfit). cbn [mbind result_bind].
    destruct nb as [b'|].
    + cbn [waiting set_kv_cache_manager]. rewrite (hd_queue _ _ _ _ _ HH). cbn [pop_request mbind result_bind c_async].
      destruct (head_commit ts n0 n b [] eb k' HF' HI' Hout ltac:(lia) Hn Hsum eq_refl) as (a' & s' & -> & ? & ? & ?). by eexists _, _, _.
    + destruct (head_state k' HF' HI' Hout). eexists _, _, _. split_and!; try done. intros _ Ha Hc.
      destruct (Hfit (alone_frame _ _ _ HF Ha) (capacity_frame _ _ _ _ _ HF Hc)) as [? ?]. done.
Qed.
End Head.

Lemma waiting_run_returns ts a (s : Sched) res :
  waiting_run cfg ts a s res -> step_inv cfg a s -> preempted_reqs a = [] -> kv_ok (num_scheduled_tokens a) s -> out_ok a s ->
  exists a' s', res = Ok (a', s') /\ kv_ok (num_scheduled_tokens a') s' /\ out_ok a' s' /\ keeps a a'.
Proof using Hcfg.
  intros HR. induction HR as [a s Hc|a s Hc Hf|a s e Hc Hf E|a s a' s' Hc Hf E|a s a' s' res Hc Hf E HR IH]; intros HI Hpre HK HO;
    [by eexists _, _|by eexists _, _|..]; apply andb_true_iff in Hc as [Hc1 Hc2%Z.ltb_lt];
    destruct (waiting_head a s HI HK HO Hc1) as (o & q & r & HH); destruct (head_step a s o q r HH HK HO Hc2 ts) as (go & a1 & s1 & E1 & HK1 & HO1 & Hk1 & _);
    rewrite E1 in E; try discriminate E; injection E as -> -> ->; [by eexists _, _|].
  pose proof (sv_width _ _ _ HI). destruct (waiting_step_spec cfg _ _ _ _ _ _ E1 HI Hpre Hc2 ltac:(lia)) as [HI1 Hpre1].
  destruct (IH HI1 Hpre1 HK1 HO1) as (a2 & s2 & -> & ? & ? & Hk2). eexists _, _. split_and!; try done. intros Hne. by apply Hk2, Hk1.
Qed.

(** ** The whole step *)

Lemma start_out_ok (s : Sched) : out_ok (step_init cfg) s.
Proof using Hcfg.
  assert (Hq : create_request_queue (policy cfg) = FCFSRequestQueue []).
  { pose proof (pc_policy _ Hcfg). by destruct (policy cfg). }
  split; cbn; try done; [by intros x ?%elem_of_nil|by intros x ?%elem_of_nil|constructor|by rewrite Hq; eexists].
Qed.

Lemma schedule_loops_returns ts (s : Sched) :
  sched_inv cfg s -> kv_ok [] s -> exists a s', schedule_loops cfg ts s = Ok (a, s') /\ kv_ok (num_scheduled_tokens a) s' /\ out_ok a s'.
Proof using Hcfg.
  intros HI HK. pose proof (step_init_inv cfg s (pc_tokens _ Hcfg) HI) as HR.
  pose proof (start_out_ok s) as HO. unfold schedule_loops.
  destruct (running_run_returns ts 0 _ s _ (running_loop_runs cfg ts (S (length (running s))) 0 (step_init cfg) s ltac:(lia)) HR HK HO)
    as (a1 & s1 & E1 & HK1 & HO1 & _). rewrite E1. cbn [mbind result_bind].
  destruct (running_loop_spec cfg _ _ _ _ _ _ _ E1 HR) as (j & [HI1 _ _ _ _]).
  unfold record_loras. rewrite (pc_loras _ Hcfg). cbn [mbind result_bind].
  assert (H : exists a2 s2, (if decide (preempted_reqs a1 = []) then waiting_loop cfg (S (Z.to_nat (queue_len (waiting s1)))) ts a1 s1
    else Ok (a1, s1)) = Ok (a2, s2) /\ kv_ok (num_scheduled_tokens a2) s2 /\ out_ok a2 s2).
  { destruct (decide (preempted_reqs a1 = [])) as [Hp|]; [|by eexists _, _].
    destruct (waiting_run_returns ts a1 s1 _ (waiting_loop_runs cfg ts (S (Z.to_nat (queue_len (waiting s1)))) a1 s1
      ltac:(rewrite queue_len_objs; unfold zlen; lia)) HI1 Hp HK1 HO1) as (a2 & s2 & ? & ? & ? & _). eauto. }
  destruct H as (a2 & s2 & -> & HK2 & HO2). cbn [mbind result_bind].
  destruct (queue_bool _); [|by eexists _, _]. destruct (ko_queue _ _ HK2) as [w ->], (oo_skipped _ _ HO2) as [sk Hsk].
  rewrite Hsk. cbn [prepend_requests queue_reversed queue_iter mbind result_bind]. eexists _, _. split; [done|]. split.
  - apply (kv_ok_core _ s2); try done; [apply HK2|by eexists].
  - destruct HO2 as [O1 O2 O3 O4 O5 O6]. by split.
Qed.

Lemma mapM_returns {A B} (f : A -> result B) l : (forall x, x ∈ l -> exists y, f x = Ok y) -> exists ys, mapM_res f l = Ok ys.
Proof.
  induction l as [|x l IH]; intros Hl; [by eexists|]. destruct (Hl x) as [y Hy]; [by left|].
  destruct IH as [ys IH]; [intros z Hz; apply Hl; by right|]. cbn. rewrite Hy. cbn. rewrite IH. by eexists.
Qed.

Lemma foldM_returns {A S} (P : list A -> S -> Prop) (f : S -> A -> result S) l :
  (forall x l' s, P (x :: l') s -> exists s', f s x = Ok s' /\ P l' s') -> forall s, P l s -> exists s', foldM f s l = Ok s' /\ P [] s'.
Proof.
  intros Hf. induction l as [|x l IH]; intros s Hs; [by eexists|]. destruct (Hf _ _ _ Hs) as (s1 & E & H1). cbn. rewrite E. by apply IH.
Qed.

Section Output.
Context (a : Step) (s : Sched).
Hypothesis (HI : sched_inv cfg s) (HK : kv_ok (num_scheduled_tokens a) s) (HO : out_ok a s).

Lemma common_prefix_returns : exists ns, common_prefix cfg s = Ok ns.
Proof using HI HK.
  unfold common_prefix. destruct (running s) as [|o l] eqn:E; [by eexists|].
  destruct (lf_run _ _ _ _ (sc_life _ _ HI) o ltac:(rewrite E; by left)) as (r & Hr & Hst & _).
  unfold get_req. rewrite Hr. cbn [get_or mbind result_bind]. destruct (ko_inv _ _ HK) as [lf HV]. by eapply common_prefix_ok.
Qed.

Lemma block_ids_return allow o r : o ∈ scheduled_all a -> sched_store s !! o = Some r ->
  exists ids, block_ids_of allow (request_id r) a s = Ok ids /\ (allow = false -> is_Some ids).
Proof using HK HO.
  intros Ho Hr. destruct (oo_sched _ _ HO o Ho) as (r' & b & n & Hr' & Hb & Hv & _). rewrite Hr in Hr'. injection Hr' as <-.
  unfold block_ids_of. rewrite Hb. cbn [get_or mbind result_bind]. destruct (ko_inv _ _ HK) as [l HV]. by apply (block_ids_valid _ l).
Qed.

Lemma new_data_returns : exists l, make_new_request_data a s = Ok l.
Proof using HK HO.
  apply mapM_returns. intros o Ho. assert (Hin : o ∈ scheduled_all a) by (unfold scheduled_all; rewrite elem_of_app; by left).
  destruct (oo_sched _ _ HO o Hin) as (r & _ & _ & Hr & _). unfold get_req. rewrite Hr. cbn [get_or mbind result_bind].
  destruct (block_ids_return false o r Hin Hr) as (ids & -> & [x ->]); [done|]. by eexists.
Qed.

Lemma cached_data_returns : exists d, make_cached_request_data cfg a s = Ok d.
Proof using HK HO.
  unfold make_cached_request_data.
  destruct (foldM_returns (fun l _ => forall o, o ∈ l -> o ∈ scheduled_all a) (cached_entry cfg a s)
    (scheduled_running_reqs a ++ scheduled_resumed_reqs a)) with (s := make_empty) as (d & -> & _); [| |by eexists].
  - intros o l' d Hl. assert (Hin : o ∈ scheduled_all a) by (apply Hl; by left).
    destruct (oo_sched _ _ HO o Hin) as (r & _ & n & Hr & _ & _ & Hn). unfold cached_entry, get_req. rewrite Hr. cbn [get_or mbind result_bind].
    rewrite Hn. cbn [get_or mbind result_bind]. destruct (block_ids_return true o r Hin Hr) as (ids & -> & _). cbn [mbind result_bind].
    eexists. split; [done|]. intros x Hx. apply Hl. by right.
  - intros o. unfold scheduled_all. rewrite !elem_of_app. tauto.
Qed.

Lemma no_structured l : forall i acc, (forall o, o ∈ l -> o ∈ running s) -> structured_ids i l s acc = Ok acc.
Proof using HI HK.
  induction l as [|o l IH]; intros i acc Hl; [done|]. destruct (lf_run _ _ _ _ (sc_life _ _ HI) o ltac:(apply Hl; by left)) as (r & Hr & _ & Hreg).
  cbn [structured_ids]. unfold get_req. rewrite Hr. cbn [get_or mbind result_bind].
  rewrite (pl_grammar _ (ro_plain _ _ _ _ (ko_reqs _ _ HK _ _ _ Hreg Hr))). apply IH. intros x Hx. apply Hl. by right.
Qed.

(** The output of a step can be processed later: the token counts are
    positive, and there are no drafts. *)
Definition output_wf (out : SchedulerOutput) : Prop :=
  Forall (fun kv => 0 < kv.2) (so_num_scheduled_tokens out) /\ so_spec_decode_tokens out = ∅.

Lemma make_output_returns total : exists out s', make_output cfg total a s = Ok (out, s') /\ kv_ok (num_scheduled_tokens a) s' /\
  output_wf out /\ so_num_scheduled_tokens out = num_scheduled_tokens a.
Proof using HI HK HO.
  unfold make_output, get_grammar_bitmask. destruct common_prefix_returns as [ns ->], new_data_returns as [l ->], cached_data_returns as [d ->].
  cbn [mbind result_bind]. rewrite no_structured by done. cbn [mbind result_bind]. rewrite decide_True by done.
  cbn [mbind result_bind get_freed_mm_hashes]. eexists _, _. split; [reflexivity|]. split; [|split; [split; apply HO|done]].
  apply (kv_ok_core _ s); try done; apply HK.
Qed.
End Output.

(** The scheduled tokens become computed tokens. *)
Lemma advance_returns kv pend (s : Sched) :
  NoDup (kv.1 :: pend.*1) -> sched_inv cfg s -> kv_ok (kv :: pend) s ->
  (exists o r, requests s !! kv.1 = Some o /\ sched_store s !! o = Some r /\ status r = RUNNING) ->
  exists s', advance_request cfg s kv = Ok s' /\ sched_inv cfg s' /\ kv_ok pend s' /\ requests s' = requests s /\
    (forall x rx, sched_store s !! x = Some rx -> exists rx', sched_store s' !! x = Some rx' /\ status rx' = status rx).
Proof.
  intros [Hnk Hnd]%NoDup_cons HI HK (o & r & Ho & Hr & Hst). unfold advance_request. rewrite Ho. cbn [get_or mbind result_bind]. unfold get_req.
  cbn [sched_store upd_req set_sched_store]. rewrite lookup_alter_eq, Hr. cbn [fmap option_fmap option_map get_or mbind result_bind].
  set (f := fun r0 : Request => set_num_computed_tokens (num_computed_tokens r0 + kv.2) r0).
  pose proof (ko_reqs _ _ HK _ _ _ Ho Hr) as Hro.
  destruct (lf_reg _ _ _ _ (sc_life _ _ HI) _ _ Ho) as (r' & Hr' & Hid & _). rewrite Hr in Hr'. injection Hr' as <-.
  assert (Hp : plain_req (f r)) by (eapply plain_same; [|apply Hro]; done).
  replace (has_encoder_inputs _) with false by (symmetry; exact (has_no_inputs (f r) Hp)). eexists. split; [done|]. split; [by apply sched_inv_upd|]. split; [|split; [done|]].
  - eapply (kv_ok_change _ _ kv.1 o (f r) s); try done.
    + intros rid' Hx. destruct (lf_reg _ _ _ _ (sc_life _ _ HI) _ _ Hx) as (r'' & Hr'' & Hid' & _). congruence.
    + intros x Hx. cbn. by rewrite lookup_alter_ne.
    + cbn. by rewrite lookup_alter_eq, Hr.
    + apply HK.
    + intros rid' Hne. destruct kv as [rid n]. cbn in *. by rewrite decide_False.
    + destruct (ro_running _ _ _ _ Hro Hst) as (H0 & H1 & H2 & H3). destruct kv as [rid n]. cbn in *.
      rewrite decide_True in H1, H2, H3 by done. cbn in *. rewrite (dget_none rid pend) by done.
      split; [done| |intros Hw; cbn in Hw; by rewrite Hst in Hw]. intros _. change (num_tokens (f r)) with (num_tokens r).
      cbn. rewrite Z.add_0_r. split_and!; try done; lia.
    + apply HK.
    + apply HK.
  - intros x rx Hx. cbn. destruct (decide (o = x)) as [->|].
    + rewrite lookup_alter_eq, Hx. cbn. by eexists.
    + rewrite lookup_alter_ne by done. eauto.
Qed.

Lemma advance_all_returns l (s : Sched) :
  NoDup l.*1 -> sched_inv cfg s -> kv_ok l s ->
  (forall rid, rid ∈ l.*1 -> exists o r, requests s !! rid = Some o /\ sched_store s !! o = Some r /\ status r = RUNNING) ->
  exists s', foldM (advance_request cfg) s l = Ok s' /\ sched_inv cfg s' /\ kv_ok [] s'.
Proof.
  intros Hnd HI HK Hrun.
  destruct (foldM_returns (fun l s => NoDup l.*1 /\ sched_inv cfg s /\ kv_ok l s /\
    forall rid, rid ∈ l.*1 -> exists o r, requests s !! rid = Some o /\ sched_store s !! o = Some r /\ status r = RUNNING)
    (advance_request cfg) l) with (s := s) as (s' & E & _ & ? & ? & _); [|by split_and!|by exists s'].
  intros kv l' s0 (Hn & HI0 & HK0 & Hr0). destruct (advance_returns kv l' s0) as (s1 & E1 & HI1 & HK1 & Er & Est); try done.
  { apply Hr0. by left. }
  exists s1. split; [done|]. split; [by apply NoDup_cons in Hn as [_ ?]|]. split; [done|]. split; [done|].
  intros rid Hrid. destruct (Hr0 rid) as (o & r & X1 & X2 & X3); [by right|]. destruct (Est _ _ X2) as (r' & X4 & X5).
  exists o, r'. rewrite Er. split_and!; try done. congruence.
Qed.

(** ** Releasing a finished request *)

Lemma free_blocks_returns pend o r (s : Sched) :
  kv_ok pend s -> sched_store s !! o = Some r -> is_finished r = true -> requests s !! request_id r = Some o ->
  exists s', free_blocks_of o s = Ok s' /\ kv_ok pend s'.
Proof.
  intros HK Hr Hfin Hreg. unfold free_blocks_of, get_req. rewrite Hr. cbn [get_or mbind result_bind]. rewrite Hfin. cbn [assert_ mbind result_bind].
  destruct (ko_inv _ _ HK) as [l HI]. destruct (free_backing _ l r HI) as (k & l' & E & HI' & HF & HU). rewrite E. cbn [mbind result_bind].
  cbn [requests set_kv_cache_manager]. rewrite Hreg. cbn [get_or mbind result_bind]. eexists. split; [done|].
  destruct HK as [H1 H2 H3 H4 HR H5 H6 H7 H8]. split; cbn; try done.
  - by exists l'.
  - by eapply setup_frame.
  - by rewrite (kl_caching _ _ (proj1 HF)).
  - by rewrite (kl_log _ _ (proj1 HF)).
  - by rewrite (room_frame _ _ _ _ _ HF).
  - intros rid x rx [Hne Hx]%lookup_delete_Some Hrx. eapply req_ok_frame; [done|done|]. by eapply H5.
  - intros rid Hx. destruct (decide (request_id r = rid)) as [<-|]; [done|]. rewrite lookup_delete_ne in Hx by done.
    eapply unbacked_frame; [done|done|]. by apply H6.
Qed.

Lemma expire_returns now (s : Sched) : sched_inv cfg s -> kv_ok [] s -> exists s', mimir_expire_pins now s = Ok s' /\ kv_ok [] s'.
Proof.
  intros HI HK. unfold mimir_expire_pins.
  destruct (foldM_returns (fun l (acc : list (nat * Qc) * Sched) => sched_inv cfg acc.2 /\ kv_ok [] acc.2 /\
    forall p, p ∈ l -> p ∈ pinned_requests acc.2) (expire_one now) (pinned_requests s)) with (s := (@nil (nat * Qc), s))
    as ([still s'] & E & _ & HK' & _); [|done|].
  - intros p l [st0 s0] (HI0 & HK0 & Hl). cbn [snd] in *. unfold expire_one. destruct (decide (p.2 <= now)%Qc) as [Hle|Hle].
    + destruct (sc_pins _ _ HI0 p) as (r & Hr & Hfin & Hown); [apply Hl; by left|]. unfold get_req. rewrite Hr. cbn [get_or mbind result_bind].
      destruct (decide (is_Some (requests s0 !! request_id r))) as [[o Ho]|].
      * pose proof (Hown o Ho) as ->. destruct (free_blocks_returns [] p.1 r s0 HK0 Hr Hfin Ho) as (s1 & E1 & HK1). rewrite E1. cbn [mbind result_bind].
        eexists. split; [done|]. cbn [snd]. split; [by eapply free_blocks_of_inv|]. split; [done|].
        destruct (free_blocks_of_spec _ _ _ E1) as (r' & k & _ & _ & _ & _ & ->). intros q Hq. apply Hl. by right.
      * eexists. split; [done|]. split_and!; try done. intros q Hq. apply Hl. by right.
    + eexists. split; [done|]. split_and!; try done. intros q Hq. apply Hl. by right.
  - rewrite E. cbn [mbind result_bind]. eexists. split; [done|]. apply (kv_ok_core _ s'); try done; apply HK'.
Qed.

(** [schedule] returns, keeps the invariants, and its output can be processed. *)
Lemma schedule_returns now ts (s : Sched) :
  sched_inv cfg s -> kv_ok [] s ->
  exists out meta ev s', schedule cfg now ts s = Ok (out, meta, ev, s') /\ sched_inv cfg s' /\ kv_ok [] s' /\ output_wf out.
Proof using Hcfg.
  intros HI HK. unfold schedule.
  assert (H0 : exists s0, (if decide (policy cfg = MIMIR) then mimir_expire_pins now s else Ok s) = Ok s0 /\ sched_inv cfg s0 /\ kv_ok [] s0).
  { destruct (decide _); [|by eexists]. destruct (expire_returns now s HI HK) as (s0 & E & HK0). exists s0. split; [done|]. split; [|done]. by eapply expire_pins_inv. }
  destruct H0 as (s0 & -> & HI0 & HK0). cbn [mbind result_bind].
  destruct (schedule_loops_returns ts s0 HI0 HK0) as (a & s1 & E1 & HK1 & HO1). rewrite E1. cbn [mbind result_bind].
  destruct (schedule_loops_spec cfg _ _ _ _ E1 (pc_tokens _ Hcfg) HI0) as (HI1 & H2 & H3 & H4 & H5 & _).
  rewrite (constraints_hold cfg a s1) by done. cbn [mbind result_bind].
  destruct (make_output_returns a s1 HI1 HK1 HO1 (sum_values (num_scheduled_tokens a))) as (out & s2 & E2 & HK2 & Hwf & Hn). rewrite E2. cbn [mbind result_bind].
  destruct (make_output_core cfg _ _ _ _ _ E2) as (Hc2 & _). pose proof (sched_inv_core cfg _ _ Hc2 HI1) as HI2.
  unfold collect_events. rewrite (ko_connector _ _ HK2). cbn [mbind result_bind]. destruct (ko_inv _ _ HK2) as [l HV].
  destruct (take_events_same _ _ _ l HV (ko_setup _ _ HK2)) as [es ->]. cbn [connector set_kv_cache_manager]. rewrite (ko_connector _ _ HK2). cbn [mbind result_bind].
  set (s3 := set_kv_cache_manager _ s2). assert (HK3 : kv_ok (num_scheduled_tokens a) s3) by (apply (kv_ok_core _ s2); try done; apply HK2).
  assert (HI3 : sched_inv cfg s3) by (by eapply sched_inv_core; [|exact HI2]).
  unfold update_after_schedule. rewrite Hn.
  destruct (advance_all_returns (num_scheduled_tokens a) s3 (oo_nodup _ _ HO1) HI3 HK3) as (s4 & -> & HI4 & HK4).
  { intros rid (o & Ho & Hin)%(oo_keys _ _ HO1). destruct (lf_run _ _ _ _ (sc_life _ _ HI1) o (H5 o Hin)) as (r & Hr & Hst & _).
    destruct Hc2 as (Q1 & Q2 & _). exists o, r. cbn. rewrite Q1, Q2. done. }
  cbn [mbind result_bind]. rewrite (pc_sync _ Hcfg). eexists _, _, _, _. split; [done|]. split; [by eapply sched_inv_core; [|exact HI4]|].
  split; [|done]. apply (kv_ok_core _ s4); try done; apply HK4.
Qed.
End Progress.
