(* ===== verification/EngineRuns.v ===== *)
(** Runs of the engine on the scheduler: the other entry points of
    src/vllm/v1/core/sched/scheduler.py return as well, and no run of an engine
    that schedules, executes, updates, adds and aborts text requests raises. *)
From Stdlib Require Import ZArith Lia Ascii String QArith Qcanon.
From stdpp Require Import numbers gmap strings list.
From S2P Require Import Prelude FreeQueue Request BlockHash BlockPool KVSpec SingleType Coordinator KVCacheManager KVBacking KVStart Capacity EncoderCache RequestQueue SchedState Scheduler SchedulerUpdate Lifecycle SchedTerm LifecycleOps Progress.

Open Scope Z_scope.

Section Runs.
Context {C G : Type} `{!KVConnector C, !StructuredOutput G, !NoGrammarNoAdvance G}.
Context (cfg : SchedConfig) (fs : string -> option Qc).
Context (bh : option hasher) (bs : Z) (caching : bool) `{!BlockHasher bh bs caching} (room : Z).
Hypothesis Hcfg : plain_config cfg.

Abbreviation Sched := (Scheduler C G).
Notation maxlen := (max_model_len cfg).
Notation plain_req := (Progress.plain_req fs bh bs caching).
Notation req_ok := (Progress.req_ok cfg fs bh bs caching).
Notation kv_ok := (Progress.kv_ok cfg fs bh bs caching room).

(** Attribute writes that the invariant does not see. *)
Lemma kv_ok_upd pend o f (s : Sched) :
  (forall r, sched_store s !! o = Some r -> same_plain r (f r) /\ status (f r) = status r /\ num_computed_tokens (f r) = num_computed_tokens r) ->
  kv_ok pend s -> kv_ok pend (upd_req o f s).
Proof.
  intros Hf [H1 H2 H3 H4 HRm H5 H6 H7 H8]. split; try done. cbn. intros rid x rx Hx Hrx. destruct (decide (o = x)) as [->|Hne].
  - rewrite lookup_alter_eq in Hrx. destruct (sched_store s !! x) as [r|] eqn:Hr; [|done]. injection Hrx as <-.
    destruct (Hf r eq_refl) as (Hsame & Hst & Hn). destruct (H5 _ _ _ Hx Hr) as [R1 R2 R3].
    assert (Ht : num_tokens (f r) = num_tokens r) by (unfold num_tokens; by destruct Hsame as (_ & (-> & _) & _)).
    split; [by eapply plain_same| |]; by rewrite Hst, Hn, Ht.
  - rewrite lookup_alter_ne in Hrx by done. by eapply H5.
Qed.

(** A request gets new tokens or finishes; its blocks stay. *)
Lemma kv_ok_replace pend o r r' (s : Sched) :
  kv_ok pend s -> sched_store s !! o = Some r -> plain_req r' -> num_computed_tokens r' = num_computed_tokens r ->
  num_tokens r <= num_tokens r' ->
  (is_finished r' = true \/ status r' = status r /\ (num_tokens r < maxlen -> num_tokens r' < maxlen)) -> kv_ok pend (upd_req o (fun _ => r') s).
Proof.
  intros [H1 H2 H3 H4 HRm H5 H6 H7 H8] Hr Hp Hn Hle Hcase. split; try done. cbn. intros rid x rx Hx Hrx.
  destruct (decide (o = x)) as [->|Hne]; [|rewrite lookup_alter_ne in Hrx by done; by eapply H5].
  rewrite lookup_alter_eq, Hr in Hrx. injection Hrx as <-. destruct (H5 _ _ _ Hx Hr) as [R1 R2 R3].
  destruct Hcase as [Hfin|[Hst Hlen]].
  - split; [done| |]; intros Hs; exfalso; assert (is_finished r' = false) by (apply live_unfinished; auto); congruence.
  - split; [done| |]; rewrite Hst, Hn.
    + intros Hs. destruct (R2 Hs) as (? & ? & ? & ?). split_and!; try done; lia.
    + intros Hw. destruct (R3 Hw) as (? & ? & ? & ? & ?). split_and!; try done; lia.
Qed.

(** ** Releasing *)

Lemma set_up_pin_returns r (s : Sched) :
  plain_req r -> exists ttl s', set_up_pin cfg fs r s = Ok (ttl, s') /\ same_core s s' /\ kv_cache_manager s' = kv_cache_manager s /\ connector s' = connector s.
Proof.
  intros Hp. unfold set_up_pin. destruct (negb _); [by eexists _, _|]. cbv zeta.
  destruct (is_none (dict_get (extra_args_meta r) "tool_duration") || is_none (job_id r)) eqn:E.
  - cbn [mbind result_bind]. destruct (decide _); by eexists _, _.
  - apply orb_false_iff in E as [E _]. destruct (pl_tool _ _ _ _ _ Hp) as [Ht|[d ->]]; [congruence|]. cbn [mbind result_bind].
    destruct (decide _); by eexists _, _.
Qed.

Lemma free_request_returns now o r (s : Sched) :
  kv_ok [] s -> sched_store s !! o = Some r -> is_finished r = true -> requests s !! request_id r = Some o ->
  exists params s', free_request cfg fs now o s = Ok (params, s') /\ kv_ok [] s'.
Proof.
  intros HK Hr Hfin Hreg. pose proof (ro_plain _ _ _ _ _ _ _ _ _ (ko_reqs _ _ _ _ _ _ _ _ HK _ _ _ Hreg Hr)) as Hp.
  unfold free_request, get_req. rewrite Hr. cbn [get_or mbind result_bind]. rewrite Hfin. cbn [assert_ mbind result_bind].
  unfold connector_finished. rewrite (ko_connector _ _ _ _ _ _ _ _ HK). cbn [mbind result_bind]. unfold enc_free.
  rewrite (text_no_inputs r _ (pl_text _ _ _ _ _ Hp)). cbn [foldM mbind result_bind].
  set (s1 := note_finished r _).
  assert (H1 : same_core s s1 /\ kv_cache_manager s1 = kv_cache_manager s /\ connector s1 = connector s).
  { unfold s1, note_finished. cbn. destruct (finished_req_ids_dict s); by split_and!. }
  destruct H1 as (Hc1 & Ek1 & Ec1).
  assert (H2 : exists ttl s2, (if may_pin cfg r false then set_up_pin cfg fs r s1 else Ok (0%Qc, s1)) = Ok (ttl, s2) /\
    same_core s s2 /\ kv_cache_manager s2 = kv_cache_manager s /\ connector s2 = connector s).
  { destruct (may_pin cfg r false); [|by eexists _, _]. destruct (set_up_pin_returns r s1 Hp) as (ttl & s2 & ? & ? & ? & ?).
    exists ttl, s2. split_and!; [done|by etrans|congruence|congruence]. }
  destruct H2 as (ttl & s2 & -> & (Q1 & Q2 & Q3 & _) & Ek2 & Ec2). cbn [mbind result_bind].
  assert (HK2 : kv_ok [] s2).
  { apply (kv_ok_core _ _ _ _ _ _ _ s); try done; [rewrite Ec2; apply HK|rewrite Q3; apply HK]. }
  destruct (decide _).
  - eexists _, _. split; [done|]. apply (kv_ok_core _ _ _ _ _ _ _ s2); try done; apply HK2.
  - destruct (free_blocks_returns cfg fs bh bs caching room [] o r s2 HK2) as (s3 & -> & HK3); [by rewrite Q1|done|by rewrite Q2|].
    cbn [mbind result_bind]. by eexists _, _.
Qed.

(** ** New tokens *)

Lemma append_fields toks r r' :
  append_output_token_ids bh toks r = Ok r' ->
  all_token_ids r' = all_token_ids r ++ toks /\ output_token_ids r' = output_token_ids r ++ toks /\ request_id r' = request_id r /\
  status r' = status r /\ num_computed_tokens r' = num_computed_tokens r /\ mm_features r' = mm_features r /\
  spec_token_ids r' = spec_token_ids r /\ num_output_placeholders r' = num_output_placeholders r /\
  sampling_params r' = sampling_params r /\ pooling_params r' = pooling_params r /\
  use_structured_output r' = use_structured_output r /\ extra_args_meta r' = extra_args_meta r.
Proof. unfold append_output_token_ids. intros E. destruct bh; inv_ok; by split_and!. Qed.

(** What new tokens do to a request. *)
Record extends (r r' : Request) (stopped : bool) : Prop := mkExtends {
  ex_plain : plain_req r';
  ex_id : request_id r' = request_id r;
  ex_computed : num_computed_tokens r' = num_computed_tokens r;
  ex_tokens : num_tokens r <= num_tokens r';
  ex_go : stopped = false -> status r' = status r /\ (num_tokens r < maxlen -> num_tokens r' < maxlen);
  ex_stop : stopped = true -> is_finished r' = true
}.

Lemma append_plain toks r : plain_req r -> exists r', append_output_token_ids bh toks r = Ok r' /\ plain_req r'.
Proof.
  intros [P1 P2 P3 P4 P5 P6 P7 P8 P9]. destruct (hashed_append r toks P9) as (r' & E & Hh). exists r'. split; [done|].
  destruct (append_fields _ _ _ E) as (E1 & E2 & E3 & E4 & E5 & E6 & E7 & E8 & E9 & E10 & E11 & E12).
  split; rewrite ?E6, ?E7, ?E8, ?E9, ?E10, ?E11, ?E12; try done. unfold num_tokens in *. rewrite E1, zlen_app. pose proof (zlen_nonneg toks). lia.
Qed.

(** Statuses and the stop reason do not matter for being plain. *)
Lemma check_stop_returns r t outs :
  plain_req r -> output_token_ids r = outs ++ [t] ->
  exists stopped r', check_stop r maxlen false = Ok (stopped, r') /\ same_plain r r' /\ num_computed_tokens r' = num_computed_tokens r /\
    (if stopped then is_finished r' = true else r' = r /\ num_tokens r < maxlen).
Proof.
  intros Hp Ho. unfold check_stop.
  destruct ((maxlen <=? num_tokens r) || (max_tokens r <=? num_output_tokens r)) eqn:Ec; [by eexists true, _|].
  apply orb_false_iff in Ec as [Ec%Z.leb_gt _]. rewrite (pl_pooling _ _ _ _ _ Hp). destruct (pl_sampling _ _ _ _ _ Hp) as [sp ->].
  cbn [get_or mbind result_bind].
  assert (Hl : pyindex (output_token_ids r) (-1) = Ok t).
  { rewrite Ho. unfold pyindex. cbn [Z.ltb Z.compare]. rewrite zlen_app. change (zlen [t]) with 1. pose proof (zlen_nonneg outs).
    destruct (Z.ltb_spec (-1 + (zlen outs + 1)) 0); [lia|]. replace (Z.to_nat (-1 + (zlen outs + 1))) with (length outs) by (unfold zlen; lia).
    by rewrite lookup_app_r, Nat.sub_diag by lia. }
  rewrite Hl. cbn [mbind result_bind]. destruct (negb _ && _); [by eexists true, _|]. destruct (bool_decide _); [by eexists true, _|].
  exists false, r. by split_and!.
Qed.

Lemma append_until_stop_returns toks : forall r, plain_req r ->
  exists kept stopped r', append_until_stop cfg bh toks r = Ok (kept, stopped, r') /\ extends r r' stopped /\ (toks ≠ [] -> kept ≠ []).
Proof.
  induction toks as [|t toks IH]; intros r Hp; cbn [append_until_stop].
  - exists [], false, r. split; [done|]. split; [|done]. by split.
  - destruct (append_plain [t] r Hp) as (r1 & E1 & Hp1). rewrite E1. cbn [mbind result_bind].
    destruct (append_fields _ _ _ E1) as (F1 & F2 & F3 & F4 & F5 & _).
    assert (Hle : num_tokens r <= num_tokens r1) by (unfold num_tokens; rewrite F1, zlen_app; pose proof (zlen_nonneg [t]); lia).
    destruct (check_stop_returns r1 t (output_token_ids r) Hp1 F2) as (stopped & r2 & -> & Hs & Hn & Hst). cbn [mbind result_bind].
    assert (Hp2 : plain_req r2) by (by eapply plain_same).
    assert (Ht : num_tokens r2 = num_tokens r1) by (unfold num_tokens; by destruct Hs as (_ & (-> & _) & _)).
    destruct stopped.
    + exists [t], true, r2. split; [done|]. split; [|done]. split; try done; [by rewrite (proj1 Hs)|congruence|lia].
    + destruct Hst as [-> Hlt]. destruct (IH r1 Hp1) as (kept & st & r3 & -> & [X1 X2 X3 X4 X5 X6] & _). cbn [mbind result_bind].
      exists (t :: kept), st, r3. split; [done|]. split; [|done]. split; try done; try congruence; try lia.
      intros Hst. destruct (X5 Hst) as [-> Hx]. split; [done|]. intros _. by apply Hx.
Qed.

(** ** Model output *)

(** What the model runner returns for a scheduler output: an index into the
    sampled tokens for every scheduled request, and prompt logprobs only
    together with a token. Nothing is pooled or transferred. *)
Definition model_output_wf (out : SchedulerOutput) (mo : ModelRunnerOutput) : Prop :=
  pooler_outputs mo = [] /\ kv_connector_output mo = None /\
  forall kv, kv ∈ so_num_scheduled_tokens out -> exists idx toks, req_id_to_index mo !! kv.1 = Some idx /\
    (match sampled_token_ids mo with [] => Ok [] | l => pyindex l idx end) = Ok toks /\
    (toks = [] -> prompt_logprobs_dict mo !! kv.1 = None).

Lemma stop_checks_returns o idx gen mo r (s : Sched) :
  pooler_outputs mo = [] -> kv_ok [] s -> sched_store s !! o = Some r -> plain_req r ->
  exists toks stopped s' r', stop_checks cfg bh o idx gen mo s = Ok (toks, stopped, None, s') /\ kv_ok [] s' /\
    sched_store s' !! o = Some r' /\ extends r r' stopped /\ requests s' = requests s /\ (toks = [] -> gen = [] /\ stopped = false).
Proof using Hcfg.
  intros Hpo HK Hr Hp. unfold stop_checks. destruct gen as [|t gen].
  { cbn [mbind result_bind]. rewrite Hpo. exists [], false, s, r. by split_and!. }
  unfold update_request_with_output, get_req. rewrite Hr. cbn [get_or mbind result_bind].
  destruct (append_until_stop_returns (t :: gen) r Hp) as (kept & stopped & r' & -> & Hx & Hk). cbn [mbind result_bind].
  rewrite (pc_sync _ Hcfg). cbn [mbind result_bind]. rewrite Hpo. eexists kept, stopped, _, r'. split; [done|].
  destruct Hx as [X1 X2 X3 X4 X5 X6]. split; [|split; [cbn; by rewrite lookup_alter_eq, Hr|split; [by split|split; [done|]]]].
  - eapply kv_ok_replace; [done|exact Hr|done..|]. destruct stopped; [left|right]; auto.
  - intros ->. by destruct Hk.
Qed.

Lemma post_process_returns o rid toks mo r (s : Sched) :
  kv_ok [] s -> sched_store s !! o = Some r -> use_structured_output r = false ->
  exists s' r', post_process o rid toks mo s = Ok s' /\ kv_ok [] s' /\ sched_store s' !! o = Some r'.
Proof using NoGrammarNoAdvance0.
  intros HK Hr Hg. unfold post_process, get_req. rewrite Hr. cbn [get_or mbind result_bind].
  set (x := match toks with [] => Ok s | _ => _ end).
  assert (H1 : exists s1, x = Ok s1 /\ kv_ok [] s1 /\ sched_store s1 = sched_store s).
  { unfold x. destruct toks; [by eexists|]. pose proof (no_advance r (structured_output_manager s) Hg) as Hna.
    destruct (should_advance r (structured_output_manager s)) as [adv g]. cbn in Hna. subst adv. cbn [mbind result_bind].
    eexists. split; [done|]. split; [|done]. apply (kv_ok_core _ _ _ _ _ _ _ s); try done; apply HK. }
  destruct H1 as (s1 & -> & HK1 & E1). cbn [mbind result_bind]. rewrite <-E1 in Hr. destruct (mo_num_nans mo) as [d|]; [|by eexists _, _].
  destruct (d !! rid) as [n|]; [|by eexists _, _]. eexists _, _. split; [done|]. split; [|cbn; by rewrite lookup_alter_eq, Hr].
  by apply kv_ok_upd.
Qed.

Lemma emit_output_returns o rid idx toks params mo outs r (s : Sched) :
  kv_ok [] s -> sched_store s !! o = Some r -> (toks = [] -> prompt_logprobs_dict mo !! rid = None) ->
  exists outs' s', emit_output o rid idx toks None params mo outs s = Ok (outs', s') /\ kv_ok [] s'.
Proof.
  intros HK Hr Hplp. unfold emit_output, get_req. rewrite Hr. cbn [get_or mbind result_bind]. cbv zeta.
  destruct (negb (zlen toks =? 0) || bool_decide (is_Some (@None Z)) || py_truth params) eqn:Ec.
  - destruct (take_events r) as [evs r'] eqn:Et. eexists _, _. split; [done|]. apply kv_ok_upd; [|done]. intros rx Hrx. simplify_eq.
    unfold take_events in Et. destruct (events r); simplify_eq; by split_and!.
  - assert (toks = []) as ->.
    { destruct toks as [|t toks]; [done|]. apply orb_false_iff in Ec as [Ec _]. apply orb_false_iff in Ec as [Ec _].
      rewrite zlen_cons in Ec. pose proof (zlen_nonneg toks). apply negb_false_iff, Z.eqb_eq in Ec. lia. }
    rewrite (Hplp eq_refl), bool_decide_true by done. cbn [assert_ mbind result_bind]. by eexists _, _.
Qed.

Lemma output_step_returns now out mo u (s : Sched) kv sp sr :
  output_wf out -> model_output_wf out mo -> kv ∈ so_num_scheduled_tokens out -> mid_inv cfg sp sr s -> kv_ok [] s ->
  exists u' s', output_step cfg bh fs now out mo (u, s) kv = Ok (u', s') /\ kv_ok [] s'.
Proof using Hcfg NoGrammarNoAdvance0.
  intros [Hpos Hdr] (Hpo & _ & Hmo) Hkv HI HK. rewrite Forall_forall in Hpos. specialize (Hpos kv Hkv).
  unfold output_step. destruct (Z.ltb_spec 0 kv.2) as [_|]; [|lia]. cbn [assert_ mbind result_bind].
  destruct (requests s !! kv.1) as [o|] eqn:Ereg; [|by eexists _, _].
  destruct (Hmo kv Hkv) as (idx & gen & Hi & Hg & Hplp). rewrite Hi. cbn [get_or mbind result_bind]. rewrite Hg. cbn [mbind result_bind].
  unfold reject_drafts. rewrite Hdr, lookup_empty. cbn [mbind result_bind].
  destruct (lf_reg _ _ _ _ (md_life _ _ _ _ HI) _ _ Ereg) as (r & Hr & Hid & _). unfold get_req at 1. rewrite Hr. cbn [get_or mbind result_bind].
  pose proof (ro_plain _ _ _ _ _ _ _ _ _ (ko_reqs _ _ _ _ _ _ _ _ HK _ _ _ Ereg Hr)) as Hp.
  destruct (stop_checks_returns o idx gen mo r s Hpo HK Hr Hp) as (toks & stopped & s1 & r1 & -> & HK1 & Hr1 & [X1 X2 X3 X4 X5 X6] & Er & Htoks).
  cbn [mbind result_bind].
  assert (H2 : exists params s2, (if stopped then free_request cfg fs now o s1 else Ok (PNone, s1)) = Ok (params, s2) /\ kv_ok [] s2 /\
    sched_store s2 = sched_store s1).
  { destruct stopped; [|by eexists _, _]. destruct (free_request_returns now o r1 s1 HK1 Hr1 (X6 eq_refl)) as (params & s2 & E2 & HK2).
    - by rewrite Er, X2, Hid.
    - exists params, s2. split; [done|]. split; [done|]. destruct (free_request_effect cfg fs _ _ _ _ _ E2) as (? & _ & _ & ? & _). done. }
  destruct H2 as (params & s2 & -> & HK2 & Es2). cbn [mbind result_bind]. rewrite <-Es2 in Hr1.
  destruct (post_process_returns o kv.1 toks mo r1 s2 HK2 Hr1 (pl_grammar _ _ _ _ _ X1)) as (s3 & r3 & -> & HK3 & Hr3). cbn [mbind result_bind].
  destruct (emit_output_returns o kv.1 idx toks params mo (u_outputs u) r3 s3 HK3 Hr3) as (outs & s4 & -> & HK4).
  { intros Ht. apply Hplp. by apply Htoks. }
  cbn [mbind result_bind]. by eexists _, _.
Qed.

Lemma kv_ok_stats pend (s : Sched) st :
  is_Some st -> kv_ok pend s -> kv_ok pend (set_kv_cache_manager (set_stats st (kv_cache_manager s)) s).
Proof.
  intros Hst [H1 H2 H3 H4 HRm H5 H6 H7 H8]. split; try done.
  - destruct H2 as [S1 S2 S3 S4 S5 S6 S7]. by split.
  - intros rid o r Ho Hr. destruct (H5 rid o r Ho Hr) as [R1 R2 R3]. by split.
Qed.

Lemma assemble_returns u (s : Sched) :
  sched_inv cfg s -> kv_ok [] s -> exists outs s', assemble_outputs cfg u s = Ok (outs, s') /\ kv_ok [] s'.
Proof.
  intros HI HK. unfold assemble_outputs. cbv zeta.
  destruct (match finished_req_ids_dict s with Some (_ :: _ as d) => _ | _ => _ end) as [ecos s1] eqn:E1.
  assert (H1 : same_core s s1 /\ kv_cache_manager s1 = kv_cache_manager s /\ connector s1 = connector s).
  { destruct (finished_req_ids_dict s) as [[|? ?]|]; simplify_eq; by split_and!. }
  destruct H1 as (Hc & Ek & Ec). assert (HI1 : sched_inv cfg s1) by (by eapply sched_inv_core).
  destruct Hc as (Q1 & Q2 & Q3 & _). assert (HK1 : kv_ok [] s1).
  { apply (kv_ok_core _ _ _ _ _ _ _ s); try done; [rewrite Ec; apply HK|rewrite Q3; apply HK]. }
  clear E1 Q1 Q2 Q3 Ek Ec HI HK.
  assert (H2 : exists st s2, make_stats cfg (u_spec_stats u) s1 = Ok (st, s2) /\ kv_ok [] s2).
  { unfold make_stats, make_prefix_cache_stats. rewrite (ko_stats _ _ _ _ _ _ _ _ HK1). destruct (log_stats cfg) eqn:El; cbn [negb]; [|by eexists _, _].
    destruct (ks_stats _ _ _ (ko_setup _ _ _ _ _ _ _ _ HK1)) as [ps ->]; [by rewrite (ko_stats _ _ _ _ _ _ _ _ HK1)|]. cbn [get_or mbind result_bind].
    destruct (mapM_returns (fun o => get_req o s1) (running s1)) as [rs ->].
    { intros o Ho. destruct (lf_run _ _ _ _ (sc_life _ _ HI1) o Ho) as (r & Hr & _). exists r. unfold get_req. by rewrite Hr. }
    cbn [mbind result_bind]. eexists _, _. split; [done|]. by apply kv_ok_stats. }
  destruct H2 as (st & s2 & -> & HK2). cbn [mbind result_bind]. destruct st; [|by eexists _, _]. destruct ecos as [|[? ?] ?]; by eexists _, _.
Qed.

(** [update_from_output] returns for the output of any earlier step. *)
Lemma update_returns now out mo (s : Sched) :
  output_wf out -> model_output_wf out mo -> sched_inv cfg s -> kv_ok [] s ->
  exists outs s', update_from_output cfg bh fs now out mo s = Ok (outs, s') /\ sched_inv cfg s' /\ kv_ok [] s'.
Proof using Hcfg NoGrammarNoAdvance0.
  intros Hout Hmo HI HK. assert (Hok : output_ok mo) by (left; apply Hmo).
  enough (exists outs s', update_from_output cfg bh fs now out mo s = Ok (outs, s') /\ kv_ok [] s') as (outs & s' & E & HK').
  { exists outs, s'. split; [done|]. split; [|done]. by eapply update_from_output_inv. }
  unfold update_from_output.
  destruct (foldM_returns (fun l (us : Upd * Sched) => (forall kv, kv ∈ l -> kv ∈ so_num_scheduled_tokens out) /\
    mid_inv cfg (stopped_preempted_reqs us.1) (stopped_running_reqs us.1) us.2 /\ kv_ok [] us.2)
    (output_step cfg bh fs now out mo) (so_num_scheduled_tokens out)) with (s := (mkUpd [] None ∅ ∅, s)) as ([u s1] & E1 & _ & HI1 & HK1).
  - intros kv l [u0 s0] (Hl & HI0 & HK0). cbn [fst snd] in *.
    destruct (output_step_returns now out mo u0 s0 kv _ _ Hout Hmo ltac:(apply Hl; by left) HI0 HK0) as (u' & s' & E & HK').
    exists (u', s'). split; [done|]. split; [intros x Hx; apply Hl; by right|]. split; [|done]. by eapply output_step_inv.
  - split; [done|]. split; [by apply mid_inv_start|done].
  - rewrite E1. cbn [mbind result_bind fst snd] in *. set (s2 := if decide _ then s1 else _).
    assert (HK2 : kv_ok [] s2) by (unfold s2; destruct (decide _); [done|]; apply (kv_ok_core _ _ _ _ _ _ _ s1); try done; apply HK1).
    assert (H3 : exists s3, (if decide (stopped_preempted_reqs u = ∅) then Ok s2
      else w ← remove_requests (elements (stopped_preempted_reqs u)) (waiting s2); Ok (set_waiting w s2)) = Ok s3 /\ kv_ok [] s3).
    { destruct (decide (stopped_preempted_reqs u = ∅)); [by eexists|]. destruct (ko_queue _ _ _ _ _ _ _ _ HK2) as [q ->]. cbn [remove_requests mbind result_bind].
      eexists. split; [done|]. apply (kv_ok_core _ _ _ _ _ _ _ s2); try done; [apply HK2|by eexists]. }
    destruct H3 as (s3 & E3 & HK3). pose proof (cut_stopped_inv cfg _ _ _ _ _ HI1 eq_refl E3) as HI3.
    rewrite E3. cbn [mbind result_bind]. destruct Hmo as (_ & -> & _). cbn [mbind result_bind]. by apply assemble_returns.
Qed.

(** ** Adding and aborting requests *)

(** A new request as the front end makes it. *)
Record new_request (r : Request) : Prop := mkNewRequest {
  nw_plain : plain_req r;
  nw_status : status r = WAITING;
  nw_zero : num_computed_tokens r = 0;
  nw_len : num_tokens r < maxlen
}.

Lemma add_returns now o r (s : Sched) :
  new_request r -> sched_store s !! o = None -> requests s !! request_id r = None ->
  (forall p rp, p ∈ pinned_requests s -> sched_store s !! p.1 = Some rp -> request_id rp ≠ request_id r) ->
  sched_inv cfg s -> kv_ok [] s ->
  exists s', sched_add_request cfg now o (set_sched_store (<[o := r]> (sched_store s)) s) = Ok s' /\ sched_inv cfg s' /\ kv_ok [] s'.
Proof using Hcfg KVConnector0 StructuredOutput0.
  intros [N1 N2 N3 N4] Ho Hid Hpin HI HK.
  enough (exists s', sched_add_request cfg now o (set_sched_store (<[o := r]> (sched_store s)) s) = Ok s' /\ kv_ok [] s') as (s' & E & HK').
  { exists s'. split; [done|]. split; [|done]. eapply (sched_call_inv cfg bh fs s); [apply (pc_tokens _ Hcfg)| |done].
    eapply call_add; try done. by rewrite N2. }
  unfold sched_add_request. cbn [waiting set_sched_store]. destruct (ko_queue _ _ _ _ _ _ _ _ HK) as [q ->]. cbn [add_request mbind result_bind].
  unfold get_req. cbn [sched_store set_sched_store]. rewrite lookup_insert_eq. cbn [get_or mbind result_bind]. eexists. split; [done|].
  match goal with |- kv_ok [] (if _ then upd_req _ _ ?x else _) => assert (HK1 : kv_ok [] x) end.
  { destruct HK as [H1 H2 H3 H4 HRm H5 H6 H7 H8]. split; cbn; try done; [| |by eexists].
    - intros rid x rx. destruct (decide (request_id r = rid)) as [<-|Hne].
      + rewrite lookup_insert_eq. intros [= <-]. rewrite lookup_insert_eq. intros [= <-].
        split; [done|by rewrite N2|]. intros _. split_and!; auto.
      + rewrite lookup_insert_ne by done. intros Hx Hrx. destruct (decide (x = o)) as [->|Hxo].
        * destruct (lf_reg _ _ _ _ (sc_life _ _ HI) _ _ Hx) as (r' & Hr' & _). by rewrite Ho in Hr'.
        * rewrite lookup_insert_ne in Hrx by done. by eapply H5.
    - intros rid [Hx _]%lookup_insert_None. by apply H6. }
  destruct (log_stats cfg); [by apply kv_ok_upd|done].
Qed.

(** The requests still to be freed are registered. *)
Definition to_free (l : list nat) (s : Sched) : Prop :=
  NoDup l /\ forall o, o ∈ l -> exists r, sched_store s !! o = Some r /\ requests s !! request_id r = Some o.

Lemma free_one_returns now st o l (s : Sched) :
  status_is_finished st = true -> to_free (o :: l) s -> kv_ok [] s ->
  exists s', ('(_, s) ← free_request cfg fs now o (upd_req o (set_status st) s); Ok s) = Ok s' /\ to_free l s' /\ kv_ok [] s'.
Proof.
  intros Hst [[Hno Hnd]%NoDup_cons Hreg] HK. destruct (Hreg o) as (r & Hr & Ho); [by left|].
  pose proof (ro_plain _ _ _ _ _ _ _ _ _ (ko_reqs _ _ _ _ _ _ _ _ HK _ _ _ Ho Hr)) as Hp.
  set (s1 := upd_req o (set_status st) s). assert (Hr1 : sched_store s1 !! o = Some (set_status st r)) by (cbn; by rewrite lookup_alter_eq, Hr).
  assert (HK1 : kv_ok [] s1).
  { assert (Hp' : plain_req (set_status st r)) by (eapply plain_same; [|exact Hp]; done).
    destruct HK as [H1 H2 H3 H4 HRm H5 H6 H7 H8]. split; try done. intros rid x rx Hx Hrx. destruct (decide (x = o)) as [->|Hne].
    - rewrite Hr1 in Hrx. injection Hrx as <-. split; [done|..]; intros Hs; exfalso; destruct st; cbn in *; try done; try discriminate.
    - cbn in Hrx. rewrite lookup_alter_ne in Hrx by done. by eapply H5. }
  destruct (free_request_returns now o (set_status st r) s1 HK1 Hr1 Hst Ho) as (params & s2 & E2 & HK2). rewrite E2. cbn [mbind result_bind].
  exists s2. split; [done|]. split; [|done]. split; [done|]. intros x Hx. assert (Hxo : x ≠ o) by (by intros ->).
  destruct (Hreg x) as (rx & Hrx & Hox); [by right|].
  destruct (free_request_effect cfg fs _ _ _ _ _ E2) as (r' & Hr' & _ & Est & _ & _ & Hcase). rewrite Hr1 in Hr'. injection Hr' as <-.
  exists rx. split; [rewrite Est; cbn; by rewrite lookup_alter_ne|].
  destruct Hcase as [(-> & _)|[(-> & _)|(-> & _)]]; try done. cbn. rewrite lookup_delete_ne; [done|]. intros E. rewrite E, Hox in Ho. congruence.
Qed.

Lemma finish_returns now ids st (s : Sched) :
  status_is_finished st = true -> NoDup ids -> sched_inv cfg s -> kv_ok [] s ->
  exists s', finish_requests cfg fs now ids st s = Ok s' /\ sched_inv cfg s' /\ kv_ok [] s'.
Proof.
  intros Hst Hnd HI HK.
  enough (exists s', finish_requests cfg fs now ids st s = Ok s' /\ kv_ok [] s') as (s' & E & HK').
  { exists s'. split; [done|]. split; [|done]. by eapply finish_requests_inv. }
  unfold finish_requests. rewrite Hst. cbn [assert_ mbind result_bind]. cbv zeta.
  set (valid := omap _ ids).
  assert (Hreg : forall o, o ∈ valid -> exists r, sched_store s !! o = Some r /\ requests s !! request_id r = Some o).
  { intros o (rid & _ & Ho)%list_elem_of_omap. destruct (lf_reg _ _ _ _ (sc_life _ _ HI) _ _ Ho) as (r & Hr & Hid & _). exists r. by rewrite Hid. }
  destruct (mapM_returns (fun o => r ← get_req o s; Ok (o, status r)) valid) as [rs ->].
  { intros o (r & Hr & _)%Hreg. unfold get_req. rewrite Hr. by eexists. }
  cbn [mbind result_bind].
  set (s1 := match _ with [] => s | _ => set_running _ s end).
  assert (H1 : sched_store s1 = sched_store s /\ requests s1 = requests s /\ kv_ok [] s1).
  { unfold s1. destruct (_.*1); [done|]. split_and!; try done. apply (kv_ok_core _ _ _ _ _ _ _ s); try done; apply HK. }
  destruct H1 as (E1 & E2 & HK1).
  assert (H2 : exists s2, (match (filter (fun p : nat * RequestStatus => p.2 ≠ RUNNING) rs).*1 with
      | [] => Ok s1 | _ :: _ => w ← remove_requests (filter (fun p : nat * RequestStatus => p.2 ≠ RUNNING) rs).*1 (waiting s1); Ok (set_waiting w s1) end) = Ok s2 /\
      sched_store s2 = sched_store s /\ requests s2 = requests s /\ kv_ok [] s2).
  { clearbody s1. destruct (_.*1) as [|? ?]; [by eexists|]. destruct (ko_queue _ _ _ _ _ _ _ _ HK1) as [q ->]. cbn [remove_requests mbind result_bind].
    eexists. split; [done|]. split_and!; try done. apply (kv_ok_core _ _ _ _ _ _ _ s1); try done; [apply HK1|by eexists]. }
  destruct H2 as (s2 & -> & E3 & E4 & HK2). cbn [mbind result_bind].
  destruct (foldM_returns (fun l s => to_free l s /\ kv_ok [] s)
    (fun s o => '(_, s) ← free_request cfg fs now o (upd_req o (set_status st) s); Ok s) valid) with (s := s2) as (s' & E & _ & HK').
  - intros o l s0 [Hf HK0]. destruct (free_one_returns now st o l s0 Hst Hf HK0) as (s0' & ? & ? & ?). eauto.
  - split; [|done]. split; [|by rewrite E3, E4]. apply (valid_nodup s); [done|]. intros rid o Ho.
    destruct (lf_reg _ _ _ _ (sc_life _ _ HI) _ _ Ho) as (r & Hr & Hid & _). eauto.
  - rewrite E. by eexists.
Qed.

Lemma reset_returns (s : Sched) : sched_inv cfg s -> kv_ok [] s ->
  exists ok s', sched_reset_prefix_cache s = Ok (ok, s') /\ sched_inv cfg s' /\ kv_ok [] s'.
Proof.
  intros HI HK. destruct (ko_inv _ _ _ _ _ _ _ _ HK) as [l HV].
  destruct (reset_backing bs maxlen _ l HV (ko_setup _ _ _ _ _ _ _ _ HK)) as (ok & k' & E & HV' & HF).
  unfold sched_reset_prefix_cache. rewrite E. cbn [mbind result_bind]. eexists _, _. split; [done|].
  split; [eapply sched_inv_core; [|exact HI]; by split_and!|].
  assert (Hne : forall rid : string, ("x" ++ rid)%string ≠ rid) by (intros rid E'; apply (f_equal String.length) in E'; change (S (String.length rid) = String.length rid) in E'; lia).
  destruct HK as [H1 H2 H3 H4 HRm H5 H6 H7 H8]. destruct (HF ""%string) as [HL _]. split; cbn; try done.
  - by exists l.
  - eapply setup_frame; [apply (HF ""%string)|done].
  - by rewrite (kl_caching _ _ HL).
  - by rewrite (kl_log _ _ HL).
  - by rewrite (room_frame _ _ _ _ _ (HF ""%string)).
  - intros rid o r Ho Hr. eapply req_ok_frame; [apply (HF ("x" ++ rid)%string)|done|by eapply H5].
  - intros rid Hn. eapply unbacked_frame; [apply (HF ("x" ++ rid)%string)|done|by apply H6].
Qed.

(** ** Runs *)

(** The states an engine reaches, with the outputs of [schedule] that are still
    to be processed, oldest first. With one output at a time this is the
    synchronous engine loop, with several the batch queue of pipeline
    parallelism; requests come and go in between. *)
Inductive engine_run (s0 : Sched) : list SchedulerOutput -> Sched -> Prop :=
| run_start : engine_run s0 [] s0
| run_add outs s now o r s' :
    engine_run s0 outs s -> new_request r -> sched_store s !! o = None -> requests s !! request_id r = None ->
    (forall p rp, p ∈ pinned_requests s -> sched_store s !! p.1 = Some rp -> request_id rp ≠ request_id r) ->
    sched_add_request cfg now o (set_sched_store (<[o := r]> (sched_store s)) s) = Ok s' -> engine_run s0 outs s'
| run_schedule outs s now ts out meta ev s' :
    engine_run s0 outs s -> schedule cfg now ts s = Ok (out, meta, ev, s') -> engine_run s0 (outs ++ [out]) s'
| run_update out outs s now mo res s' :
    engine_run s0 (out :: outs) s -> model_output_wf out mo ->
    update_from_output cfg bh fs now out mo s = Ok (res, s') -> engine_run s0 outs s'
| run_finish outs s now ids st s' :
    engine_run s0 outs s -> NoDup ids -> status_is_finished st = true ->
    finish_requests cfg fs now ids st s = Ok s' -> engine_run s0 outs s'
| run_reset outs s ok s' :
    engine_run s0 outs s -> sched_reset_prefix_cache s = Ok (ok, s') -> engine_run s0 outs s'.

Lemma engine_run_inv s0 outs s :
  sched_inv cfg s0 -> kv_ok [] s0 -> engine_run s0 outs s -> sched_inv cfg s /\ kv_ok [] s /\ Forall output_wf outs.
Proof using Hcfg NoGrammarNoAdvance0.
  intros HI0 HK0 HR.
  induction HR as [|outs s now o r s' HR (HI & HK & HO) Hn Ho Hid Hpin E|outs s now ts out meta ev s' HR (HI & HK & HO) E
    |out outs s now mo res s' HR (HI & HK & HO) Hmo E|outs s now ids st s' HR (HI & HK & HO) Hnd Hst E
    |outs s ok s' HR (HI & HK & HO) E]; [done|..].
  - destruct (add_returns now o r s Hn Ho Hid Hpin HI HK) as (s1 & E1 & ? & ?). rewrite E1 in E. by injection E as <-.
  - destruct (schedule_returns cfg fs bh bs caching room Hcfg now ts s HI HK) as (out1 & meta1 & ev1 & s1 & E1 & ? & ? & ?).
    rewrite E1 in E. injection E as <- <- <- <-. split; [done|]. split; [done|]. apply Forall_app. split; [done|]. by apply Forall_singleton.
  - apply Forall_cons in HO as [Ho HO]. destruct (update_returns now out mo s Ho Hmo HI HK) as (res1 & s1 & E1 & ? & ?).
    rewrite E1 in E. injection E as <- <-. done.
  - destruct (finish_returns now ids st s Hst Hnd HI HK) as (s1 & E1 & ? & ?). rewrite E1 in E. by injection E as <-.
  - destruct (reset_returns s HI HK) as (ok1 & s1 & E1 & ? & ?). rewrite E1 in E. by injection E as _ <-.
Qed.

(** The scheduler of a freshly started engine. *)
Lemma start_kv_ok kc eagle use_int dcp k fd e g :
  kvm_init kc maxlen caching eagle (log_stats cfg) false use_int dcp = Ok k -> 0 < bs ->
  Forall (fun g => lookup_supported (kv_cache_spec g) dcp eagle /\ hit_block_size (kv_cache_spec g) dcp = bs) (kv_cache_groups kc) ->
  zlen (kv_cache_groups kc) <= 2 ^ 32 -> room_of bs maxlen k = room ->
  kv_ok [] (sched_start ∅ (create_request_queue (policy cfg)) fd e k None g : Sched).
Proof using Hcfg.
  intros E Hbs Hg Hmany Hroom. destruct (kvm_init_setup bs maxlen kc caching eagle (log_stats cfg) use_int dcp k E Hbs Hg Hmany) as (H1 & H2 & H3 & H4 & H5).
  split; try done; cbn. pose proof (pc_policy _ Hcfg). exists []. by destruct (policy cfg).
Qed.
End Runs.
