(* ===== verification/Liveness.v ===== *)
(** No scheduling step of src/vllm/v1/core/sched/scheduler.py is wasted: with
    work to do, a pool that can hold one sequence of the maximal length and
    chunked prefill, [schedule] schedules at least one token. *)
From Stdlib Require Import ZArith Lia Ascii String QArith Qcanon.
From stdpp Require Import numbers gmap strings list.
From S2P Require Import Prelude FreeQueue Request BlockHash BlockPool KVSpec SingleType Coordinator KVCacheManager KVBacking KVStart Capacity EncoderCache RequestQueue SchedState Scheduler SchedulerUpdate Lifecycle SchedTerm LifecycleOps Progress EngineRuns.

Open Scope Z_scope.

Section Liveness.
Context {C G : Type} `{!KVConnector C, !StructuredOutput G, !NoGrammarNoAdvance G}.
Context (cfg : SchedConfig) (fs : string -> option Qc).
Context (bh : option hasher) (bs : Z) (caching : bool) `{!BlockHasher bh bs caching} (room : Z).
Hypothesis (Hcfg : plain_config cfg) (Hroom : 0 <= room).

Abbreviation Sched := (Scheduler C G).
Notation maxlen := (max_model_len cfg).
Notation kv_ok := (Progress.kv_ok cfg fs bh bs caching room).
Notation wants := (Progress.wants cfg fs bh bs caching room).
Notation out_ok := (Progress.out_ok).

(** Every known request is running or waiting: no finished request is kept for
    its KV cache. *)
Definition all_live (s : Sched) : Prop :=
  forall rid o r, requests s !! rid = Some o -> sched_store s !! o = Some r -> is_finished r = false.

Lemma has_capacity pend (s : Sched) : kv_ok pend s -> capacity bs maxlen (kv_cache_manager s).
Proof using Hroom. intros HK. apply capacity_room. by rewrite (ko_room _ _ _ _ _ _ _ _ HK). Qed.

(** Only running requests hold blocks. *)
Lemma alone_if pend (s : Sched) W rid :
  life (sched_store s) (requests s) W (running s) -> kv_ok pend s -> all_live s ->
  (forall o r, o ∈ running s -> sched_store s !! o = Some r -> request_id r = rid) -> alone (kv_cache_manager s) rid.
Proof.
  intros HL HK Hlive Hrun rid' Hne. destruct (requests s !! rid') as [o|] eqn:Ho; [|by eapply (ko_free _ _ _ _ _ _ _ _ HK)].
  destruct (lf_reg _ _ _ _ HL _ _ Ho) as (r & Hr & Hid & Hrn & Hw). pose proof (ko_reqs _ _ _ _ _ _ _ _ HK _ _ _ Ho Hr) as Hro.
  specialize (Hlive _ _ _ Ho Hr). destruct (decide (status r = RUNNING)) as [Hs|Hs].
  - specialize (Hrun o r (Hrn Hs) Hr). congruence.
  - apply (ro_waiting _ _ _ _ _ _ _ _ _ Hro). unfold is_finished in Hlive. by destruct (status r).
Qed.

Lemma preempt_victim ts a (s : Sched) v a' s' : preempt_one cfg ts a s = Ok (v, a', s') -> last (running s) = Some v.
Proof using Hcfg.
  unfold preempt_one. intros E. apply bind_Ok in E as ([[v' run] sched] & Ev & E). cbv beta iota in E. inv_ok.
  pose proof (pc_policy _ Hcfg). unfold take_victim in Ev. destruct (policy cfg); [|done|]; by inv_ok.
Qed.

(** The first running request is never preempted by itself. *)
Lemma alloc_run_keeps ts o n a (s : Sched) res :
  alloc_run cfg ts o n a s res -> wants 0 o n a s -> all_live s -> forall a' s', res ≠ Ok (None, a', s').
Proof using Hcfg Hroom.
  intros HR. induction HR as [a s e r Er Ea|a s e Er|a s r b k Er Ea|a s r k e Er Ea Ep|a s r k a' s' Er Ea Ep|a s r k v a' s' res Er Ea Ep Hne HR IH];
    intros HW Hlive; try done.
  - exfalso. destruct (wants_request _ _ _ _ _ _ _ _ _ _ _ HW) as (r0 & Hr0 & Hst & Hreg & Hkey & _).
    unfold get_req in Er. rewrite Hr0 in Er. injection Er as ->.
    pose proof (preempt_victim _ _ _ _ _ _ Ep) as Hl. cbn in Hl. destruct HW as [HI HK HO Hidx Hn Hsum].
    pose proof (sv_life _ _ _ (rv_step _ _ _ _ HI)) as HL.
    assert (Hone : running s = [o]).
    { pose proof (lf_nodup_run _ _ _ _ HL) as Hnd. destruct (running s) as [|x l]; [done|]. injection Hidx as ->.
      destruct l as [|y l]; [done|]. rewrite last_cons in Hl. destruct (last (y :: l)) as [z|] eqn:Ez; [|by apply last_None in Ez]. injection Hl as ->.
      apply NoDup_cons in Hnd as [Hn' _]. destruct Hn'. apply last_Some in Ez as [l' ->]. rewrite elem_of_app. right. by left. }
    pose proof (ko_reqs _ _ _ _ _ _ _ _ HK _ _ _ Hreg Hr0) as Hro. destruct (ro_running _ _ _ _ _ _ _ _ _ Hro Hst) as (H0 & _ & Hnt & Hb).
    rewrite (dget_none _ _ Hkey) in Hb, Hnt. cbn in Hb, Hnt. rewrite Z.add_0_r in Hb.
    destruct (ko_inv _ _ _ _ _ _ _ _ HK) as [l HV]. pose proof (ko_setup _ _ _ _ _ _ _ _ HK) as Hset.
    assert (Hhash : kvm_enable_caching (kv_cache_manager s) = true -> num_tokens r / bs <= zlen (block_hashes r)).
    { intros Hc. apply (hash_ready _ _ _ _ _ _ _ _ r HK (ro_plain _ _ _ _ _ _ _ _ _ Hro) Hc). }
    pose proof (running_alloc_pre bs _ maxlen _ l r n HV Hset Hb Hn (pc_lookahead _ Hcfg) H0 (Hsum _ Hr0) ltac:(lia) Hhash) as Hpre.
    destruct (never_refused bs maxlen _ l r n 0 _ _ Hpre Hset) as (b & k1 & E1).
    + eapply alone_if; try done. intros x rx Hx Hrx. rewrite Hone, list_elem_of_singleton in Hx. subst x. congruence.
    + by eapply has_capacity.
    + unfold no_hits. by rewrite length_replicate.
    + rewrite (allocate_no_hits bs maxlen) in Ea by done. congruence.
  - destruct (wants_alloc _ _ _ _ _ _ Hcfg _ _ _ _ _ HW) as (r0 & nb & k0 & Er0 & Ea0 & _ & Hnb). rewrite Er0 in Er. injection Er as ->.
    rewrite Ea0 in Ea. injection Ea as -> ->.
    destruct (wants_preempt _ _ _ _ _ _ Hcfg ts _ _ _ _ _ Hnb) as (v0 & a0 & s0 & Ep0 & HK0 & HO0 & En0 & Er1 & _ & HW0).
    rewrite Ep0 in Ep. injection Ep as -> -> ->. apply IH; [by apply HW0|].
    (* the victim is waiting now *)
    specialize (HW0 Hne). pose proof (sv_life _ _ _ (rv_step _ _ _ _ (wa_run _ _ _ _ _ _ _ _ _ _ _ HW0))) as HL.
    destruct Hnb as [[H1 H2 H3 H4 H5] HKk _ Hidx _ _].
    destruct (preempt_one_spec cfg ts 0 o _ _ _ _ _ Ep0 H1 H2 H3 H4 H5 (fun _ => Hidx)) as (HI1 & _ & _ & _ & _ & Hstore & Ea').
    intros rid x rx Hx Hrx. rewrite Er1 in Hx. destruct (decide (x = v)) as [->|Hxv].
    + destruct (lf_wait _ _ _ _ HL v) as (rv & Hrv & Hw & _).
      { rewrite elem_of_app. left. apply (sv_preempted _ _ _ HI1). rewrite Ea'. cbn. rewrite elem_of_app. right. by left. }
      rewrite Hrx in Hrv. injection Hrv as <-. apply live_unfinished. by right.
    + rewrite Hstore in Hrx by done. by apply (Hlive rid x rx).
Qed.

(** ** The loops *)

Lemma running_first ts (s : Sched) o l a s' :
  sched_inv cfg s -> kv_ok [] s -> all_live s -> 0 < max_num_scheduled_tokens cfg -> running s = o :: l ->
  (forall r, sched_store s !! o = Some r -> num_computed_tokens r < num_tokens r) ->
  running_loop cfg (S (length (running s))) ts 0 (step_init cfg) s = Ok (a, s') -> num_scheduled_tokens a ≠ [].
Proof using Hcfg Hroom.
  intros HI HK Hlive Hm Hrun Hwork E. pose proof (step_init_inv cfg s (pc_tokens _ Hcfg) HI) as HRI.
  pose proof (start_out_ok cfg Hcfg s) as HO.
  assert (Hidx : running s !! 0%nat = Some o) by (by rewrite Hrun).
  destruct (lf_run _ _ _ _ (sc_life _ _ HI) o ltac:(rewrite Hrun; by left)) as (r & Hr & Hst & Hreg).
  pose proof (ko_reqs _ _ _ _ _ _ _ _ HK _ _ _ Hreg Hr) as Hro. specialize (Hwork r Hr).
  destruct (ro_running _ _ _ _ _ _ _ _ _ Hro Hst) as (H0 & _ & Hnt & _). cbn in Hnt.
  set (n := running_new_tokens cfg r (token_budget (step_init cfg))).
  destruct (running_tokens_bounds cfg fs bh bs caching r (token_budget (step_init cfg)) (ro_plain _ _ _ _ _ _ _ _ _ Hro) ltac:(lia) ltac:(lia) Hm) as [Hn0 Hsum].
  assert (Hn : n ≠ 0).
  { unfold n, running_new_tokens, num_tokens_with_spec. destruct (ro_plain _ _ _ _ _ _ _ _ _ Hro) as [_ -> -> _ _ _ _ _ _].
    fold (num_tokens r). change (zlen []) with 0. cbn. unfold cap_prefill. destruct (Z.ltb_spec 0 (long_prefill_token_threshold cfg)); cbn [andb]; [|lia].
    destruct (Z.ltb_spec (long_prefill_token_threshold cfg) (num_tokens r + 0 + 0 - num_computed_tokens r)); lia. }
  set (s0 := set_encoder_cache_manager (encoder_cache_manager s) s).
  assert (HW : wants 0 o n (step_init cfg) s0).
  { split; try done; [by apply (run_inv_core cfg _ _ s)| | |unfold n in *; lia|].
    - apply (kv_ok_core _ _ _ _ _ _ _ s); try done; apply HK.
    - by destruct HO; split.
    - intros rx Hrx. cbn in Hrx. rewrite Hr in Hrx. by injection Hrx as <-. }
  assert (Hkeep : forall a1 s1, alloc_loop cfg (S (length (running s))) ts o n (step_init cfg) s0 ≠ Ok (None, a1, s1)).
  { apply (alloc_run_keeps ts o n (step_init cfg) s0); [|done|done]. apply alloc_loop_runs. cbn. lia. }
  destruct (running_step_returns cfg fs bh bs caching room Hcfg ts 0 (step_init cfg) s HRI HK HO ltac:(rewrite Hrun; cbn; lia) Hm)
    as (nx & a1 & s1 & E1 & HK1 & HO1 & _ & Hsch). specialize (Hsch o r Hidx Hr Hn Hkeep).
  pose proof (running_step_spec cfg _ _ _ _ _ _ _ E1 HRI Hm) as Hspec.
  pose proof (running_loop_runs cfg ts (S (length (running s))) 0 (step_init cfg) s ltac:(lia)) as HR. rewrite E in HR.
  inversion HR as [? ? ? Hc|? ? ? ? Hc Es|? ? ? ? ? Hc Es|? ? ? j a2 s2 ? Hc Es HR' Hx1 Hx2 Hx3]; subst.
  - rewrite Hrun in Hc. cbn in Hc. apply Z.ltb_ge in Hc. lia.
  - rewrite E1 in Es. by injection Es as _ <- _.
  - rewrite E1 in Es. injection Es as -> -> ->. destruct Hspec as [_ HI2].
    destruct (running_run_returns cfg fs bh bs caching room Hcfg _ _ _ _ _ HR' HI2 HK1 HO1) as (a3 & s3 & E3 & _ & _ & Hk). injection E3 as <- <-. auto.
Qed.

Lemma waiting_first ts (s : Sched) a s' :
  sched_inv cfg s -> kv_ok [] s -> all_live s -> 0 < max_num_scheduled_tokens cfg -> 0 < max_num_running_reqs cfg ->
  chunked_prefill_enabled cfg = true -> running s = [] -> queue_bool (waiting s) = true ->
  waiting_loop cfg (S (Z.to_nat (queue_len (waiting s)))) ts (step_init cfg) s = Ok (a, s') -> num_scheduled_tokens a ≠ [].
Proof using Hcfg Hroom.
  intros HI HK Hlive Hm Hreqs Hch Hrun Hq E. pose proof (step_init_inv cfg s (pc_tokens _ Hcfg) HI) as HRI.
  pose proof (start_out_ok cfg Hcfg s) as HO. pose proof (rv_step _ _ _ _ HRI) as HS.
  destruct (waiting_head cfg fs bh bs caching room (step_init cfg) s HS HK HO Hq) as (o & q & r & HH).
  destruct (head_step cfg fs bh bs caching room Hcfg (step_init cfg) s o q r HH HK HO Hm ts) as (go & a1 & s1 & E1 & HK1 & HO1 & _ & Hsch).
  specialize (Hsch Hch). assert (Hne : num_scheduled_tokens a1 ≠ []).
  { apply Hsch; [|by eapply has_capacity]. eapply alone_if; [apply (sc_life _ _ HI)|done|done|]. rewrite Hrun. by intros x rx ?%elem_of_nil. }
  pose proof (waiting_loop_runs cfg ts (S (Z.to_nat (queue_len (waiting s)))) (step_init cfg) s ltac:(rewrite queue_len_objs; unfold zlen; lia)) as HR.
  rewrite E in HR. assert (Hc : queue_bool (waiting s) && (0 <? token_budget (step_init cfg)) = true) by (rewrite Hq; cbn; by apply Z.ltb_lt).
  inversion HR as [? ? Hc'|? ? Hc' Hf|? ? ? Hc' Hf Es|? ? ? ? Hc' Hf Es|? ? a2 s2 ? Hc' Hf Es HR' Hx1 Hx2]; subst.
  - congruence.
  - rewrite Hrun in Hf. change (zlen []) with 0 in Hf. lia.
  - rewrite E1 in Es. by injection Es as _ <- _.
  - rewrite E1 in Es. injection Es as -> -> ->.
    destruct (waiting_step_spec cfg _ _ _ _ _ _ E1 HS eq_refl Hm) as [HI2 Hp2]; [by rewrite Hrun|].
    destruct (waiting_run_returns cfg fs bh bs caching room Hcfg _ _ _ _ HR' HI2 Hp2 HK1 HO1) as (a3 & s3 & E3 & _ & _ & Hk). injection E3 as <- <-. auto.
Qed.

(** There is something to do: the first running request has tokens that are not
    computed yet, or nothing runs and a request is waiting. *)
Definition has_work (s : Sched) : Prop :=
  match running s with
  | o :: _ => forall r, sched_store s !! o = Some r -> num_computed_tokens r < num_tokens r
  | [] => queue_bool (waiting s) = true
  end.

Hypotheses (Htok : 0 < max_num_scheduled_tokens cfg) (Hreqs : 0 < max_num_running_reqs cfg)
  (Hchunk : chunked_prefill_enabled cfg = true).

Lemma loops_progress ts (s : Sched) a s' :
  sched_inv cfg s -> kv_ok [] s -> all_live s -> has_work s -> schedule_loops cfg ts s = Ok (a, s') -> num_scheduled_tokens a ≠ [].
Proof using Hcfg Hroom Htok Hreqs Hchunk.
  intros HI HK Hlive Hw E. pose proof (step_init_inv cfg s (pc_tokens _ Hcfg) HI) as HR. pose proof (start_out_ok cfg Hcfg s) as HO.
  unfold schedule_loops in E. apply bind_Ok in E as ([a1 s1] & E1 & E). cbv beta iota in E.
  unfold record_loras in E. rewrite (pc_loras _ Hcfg) in E. cbn [mbind result_bind] in E.
  apply bind_Ok in E as ([a2 s2] & E2 & E). cbv beta iota in E.
  assert (Ha : num_scheduled_tokens a2 ≠ []); [|destruct (queue_bool (skipped_waiting_requests a2)); by inv_ok].
  unfold has_work in Hw. destruct (running s) as [|o l] eqn:Hrun.
  - cbn in E1. rewrite Hrun in E1. cbn in E1. injection E1 as <- <-. rewrite decide_True in E2 by done.
    eapply waiting_first; [exact HI|..]; done.
  - rewrite <-Hrun in E1. assert (Ha1 : num_scheduled_tokens a1 ≠ []) by (eapply running_first; [exact HI|..]; done).
    destruct (decide (preempted_reqs a1 = [])) as [Hp|]; [|by injection E2 as <- <-].
    destruct (running_run_returns cfg fs bh bs caching room Hcfg ts 0 _ s _ (running_loop_runs cfg ts (S (length (running s))) 0 (step_init cfg) s ltac:(lia)) HR HK HO)
      as (a3 & s3 & E3 & HK1 & HO1 & _). rewrite E1 in E3. injection E3 as <- <-.
    destruct (running_loop_spec cfg _ _ _ _ _ _ _ E1 HR) as (j & [HI1 _ _ _ _]).
    destruct (waiting_run_returns cfg fs bh bs caching room Hcfg ts a1 s1 _ (waiting_loop_runs cfg ts (S (Z.to_nat (queue_len (waiting s1)))) a1 s1
      ltac:(rewrite queue_len_objs; unfold zlen; lia)) HI1 Hp HK1 HO1) as (a4 & s4 & E4 & _ & _ & Hk). rewrite E2 in E4. injection E4 as <- <-. auto.
Qed.

(** Without finished requests the expiry of pins frees nothing. *)
Lemma expire_live now (s s' : Sched) : sched_inv cfg s -> all_live s -> mimir_expire_pins now s = Ok s' ->
  exists pins, s' = set_pinned_requests pins s.
Proof.
  intros HI Hlive E. unfold mimir_expire_pins in E. apply bind_Ok in E as ([still s1] & E & E1). cbv beta iota in E1. injection E1 as <-.
  exists still. f_equal. apply (foldM_inv (fun acc : list (nat * Qc) * Sched => acc.2 = s) (expire_one now)) in E; [done| |done].
  intros [st s0] p [st' s2] Hp Es. cbn [snd] in Es. subst s0. unfold expire_one. destruct (decide _); [|by intros [= _ <-]]. intros E2.
  apply bind_Ok in E2 as (r & Hr & E2). destruct (sc_pins _ _ HI p Hp) as (r' & Hr' & Hfin & Hown). unfold get_req in Hr. cbn [snd] in *.
  rewrite Hr' in Hr. injection Hr as <-. destruct (decide (is_Some _)) as [[o Ho]|]; [|by injection E2 as _ <-].
  pose proof (Hown o Ho) as ->. specialize (Hlive _ _ _ Ho Hr'). congruence.
Qed.

Lemma sum_positive l : Forall (fun kv : string * Z => 0 < kv.2) l -> l ≠ [] -> 0 < sum_values l.
Proof.
  intros Hl Hne. assert (Hge : forall l, Forall (fun kv : string * Z => 0 < kv.2) l -> 0 <= sum_values l).
  { induction 1 as [|kv m Hkv Hm IH]; [done|]. unfold sum_values in *. cbn. lia. }
  destruct Hl as [|kv l Hkv Hl]; [done|]. unfold sum_values in *. cbn. specialize (Hge l Hl). lia.
Qed.

Lemma schedule_progress now ts (s : Sched) :
  sched_inv cfg s -> kv_ok [] s -> all_live s -> has_work s ->
  exists out meta ev s', schedule cfg now ts s = Ok (out, meta, ev, s') /\ 0 < so_total_num_scheduled_tokens out.
Proof using Hcfg Hroom Htok Hreqs Hchunk.
  intros HI HK Hlive Hw. destruct (schedule_returns cfg fs bh bs caching room Hcfg now ts s HI HK) as (out & meta & ev & s' & E & _ & _ & Hwf & _).
  exists out, meta, ev, s'. split; [done|]. destruct (schedule_ok cfg now ts s (pc_tokens _ Hcfg) HI) as [_ H]. destruct (H _ _ _ _ E) as (_ & -> & _).
  apply sum_positive; [done|]. clear H. unfold schedule in E. apply bind_Ok in E as (s0 & E0 & E). apply bind_Ok in E as ([a s1] & E1 & E). cbv beta iota in E.
  apply bind_Ok in E as (total & _ & E). apply bind_Ok in E as ([out' s2] & E2 & E). apply make_output_core in E2 as (_ & Hn & _). cbv beta iota in E.
  apply bind_Ok in E as ([[m e] s3] & _ & E). cbv beta iota in E. apply bind_Ok in E as (s4 & _ & E). injection E as <- _ _ _. rewrite Hn.
  assert (H0 : exists pins, s0 = set_pinned_requests pins s).
  { destruct (decide _); [by eapply expire_live|]. injection E0 as <-. exists (pinned_requests s). by destruct s. }
  assert (HI0 : sched_inv cfg s0) by (destruct (decide _); [by eapply expire_pins_inv|by injection E0 as <-]).
  destruct H0 as [pins ->]. eapply loops_progress; [exact HI0| |done|done|exact E1]. apply (kv_ok_core _ _ _ _ _ _ _ s); try done; apply HK.
Qed.
End Liveness.

(** Every run of an engine with room for one sequence makes progress. *)
Lemma run_progress {C G : Type} `{!KVConnector C, !StructuredOutput G, !NoGrammarNoAdvance G} (cfg : SchedConfig)
  (fs : string -> option Qc) (bh : option hasher) (bs : Z) (caching : bool) `{!BlockHasher bh bs caching}
  (kc : KVCacheConfig) (eagle use_int : bool) (dcp : Z) (k : KVCacheManager) (fd : option (list (Z * gset string)))
  (e : EncoderCacheManager) (g : G) (outs : list SchedulerOutput) (s : Scheduler C G) (now ts : Qc) :
  plain_config cfg -> 0 < max_num_scheduled_tokens cfg -> 0 < max_num_running_reqs cfg -> chunked_prefill_enabled cfg = true -> 0 < bs ->
  kvm_init kc (max_model_len cfg) caching eagle (log_stats cfg) false use_int dcp = Ok k ->
  Forall (fun g => lookup_supported (kv_cache_spec g) dcp eagle /\ hit_block_size (kv_cache_spec g) dcp = bs) (kv_cache_groups kc) ->
  zlen (kv_cache_groups kc) <= 2 ^ 32 -> 0 <= room_of bs (max_model_len cfg) k ->
  engine_run cfg fs bh bs caching (sched_start ∅ (create_request_queue (policy cfg)) fd e k None g) outs s ->
  all_live s -> has_work s ->
  exists out meta ev s', schedule cfg now ts s = Ok (out, meta, ev, s') /\ 0 < so_total_num_scheduled_tokens out.
Proof.
  intros Hcfg Htok Hreqs Hch Hbs Hk Hg Hmany Hroom HR Hlive Hw. set (room := room_of bs (max_model_len cfg) k) in *.
  pose proof (start_kv_ok (C := C) cfg fs bh bs caching room Hcfg kc eagle use_int dcp k fd e g Hk Hbs Hg Hmany eq_refl) as HK0.
  pose proof (sched_start_inv (C := C) cfg ∅ fd e k None g (pc_reqs _ Hcfg)) as HI0.
  destruct (engine_run_inv cfg fs bh bs caching room Hcfg _ outs s HI0 HK0 HR) as (HI & HK & _).
  by eapply schedule_progress.
Qed.
