(* ===== verification/SchedProps.v ===== *)
(** What the scheduler guarantees: the lifecycle of requests, the limits of a
    step, the termination of its loops, the choice of preemption victims, the
    retention of pinned KV blocks, the stop conditions, and two places where
    the code does not do what it says. *)
From Stdlib Require Import ZArith Lia Ascii String QArith Qcanon.
From stdpp Require Import numbers gmap strings list.
From S2P Require Import Prelude FreeQueue Request BlockPool KVSpec SingleType Coordinator KVCacheManager EncoderCache RequestQueue SchedState Scheduler SchedulerUpdate Lifecycle LifecycleOps.

Open Scope Z_scope.

(** * Concrete schedulers *)

(** No KV connector is configured. *)
#[export] Instance no_connector : KVConnector Empty_set := {|
  ConnMeta := unit;
  get_num_new_matched_tokens := fun _ _ (c : Empty_set) => match c with end;
  update_state_after_alloc := fun _ _ _ (c : Empty_set) => match c with end;
  build_connector_meta := fun _ (c : Empty_set) => match c with end;
  request_finished := fun _ _ (c : Empty_set) => match c with end;
  conn_take_events := fun (c : Empty_set) => match c with end;
  update_connector_output := fun _ (c : Empty_set) => match c with end
|}.

(** Grammars by the ids of the requests whose grammar is compiled. *)
#[export] Instance demo_grammars : StructuredOutput (gset string) := {|
  grammar_ready := fun r g => bool_decide (request_id r ∈ g);
  should_advance := fun _ g => (false, g);
  accept_tokens := fun _ _ g => Ok g;
  validate_tokens := fun _ toks _ => Ok toks;
  compute_bitmask := fun _ _ g => Ok g
|}.

Definition demo_cfg (p : SchedulingPolicy) (budget : Z) : SchedConfig :=
  mkSchedConfig p 4 budget 64 0 true false 0 false false 0 None 0 0 2 1 false false false (Q2Qc 2).

(** A KV cache of [n] blocks of two tokens, without prefix caching. *)
Definition demo_cache (n : Z) : result KVCacheManager :=
  kvm_init (mkConfig n [] [mkGroup ["layers.0"%string] (FullAttentionSpec 2 demo_attn None None)])
    64 false false false false false 1.

Definition demo_sched (p : SchedulingPolicy) (n : Z) : result (Scheduler Empty_set (gset string)) :=
  k ← demo_cache n; Ok (sched_start ∅ (create_request_queue p) None (enc_init 0) k None ∅).

Definition put_request (cfg : SchedConfig) (o : nat) (r : Request) (s : Scheduler Empty_set (gset string))
  : result (Scheduler Empty_set (gset string)) :=
  sched_add_request cfg 0%Qc o (set_sched_store (<[o := r]> (sched_store s)) s).

Definition run_step (cfg : SchedConfig) (now : Qc) (s : Scheduler Empty_set (gset string))
  : result (SchedulerOutput * Scheduler Empty_set (gset string)) :=
  match schedule cfg now 0%Qc s with
  | Ok (o, _, _, s) => Ok (o, s)
  | Err e => Err e
  end.

Lemma run_step_schedule cfg now s out s' :
  run_step cfg now s = Ok (out, s') -> exists meta ev, schedule cfg now 0%Qc s = Ok (out, meta, ev, s').
Proof.
  unfold run_step. destruct (schedule cfg now 0%Qc s) as [[[[o m] ev] s1]|]; [|done]. intros [= <- <-]. by exists m, ev.
Qed.

(** The model returns these tokens for these requests. *)
Definition model_output (l : list (string * list Z)) : ModelRunnerOutput :=
  mkModelOutput (list_to_map (zip l.*1 (Z.of_nat <$> seq 0 (length l)))) l.*2 false ∅ [] None None.

Definition run_update (cfg : SchedConfig) (now : Qc) (out : SchedulerOutput) (l : list (string * list Z))
  (s : Scheduler Empty_set (gset string)) : result (Scheduler Empty_set (gset string)) :=
  '(_, s) ← update_from_output cfg None (fun _ => None) now out (model_output l) s; Ok s.

(** * Lifecycle *)

(** C5: Every state the engine can reach is consistent: starting from the empty
    scheduler, after any sequence of calls that return (adding requests with
    unused ids, scheduling, processing model output, aborting, draft tokens,
    cache resets), each request the scheduler knows is finished (kept for a
    pin or for the connector) or is in exactly one place: the running list if
    its status is RUNNING, the waiting queue otherwise. No request is listed
    twice, none is lost, at most [max_num_seqs] requests run, and every pinned
    request is finished. *)
Theorem reachable_states_consistent {C G : Type} `{!KVConnector C, !StructuredOutput G} (cfg : SchedConfig)
    (bh : option hasher) (fs : string -> option Qc) (e : EncoderCacheManager) (k : KVCacheManager) (c : option C) (g : G)
    (fd : option (list (Z * gset string))) (s : Scheduler C G) :
  0 <= max_num_scheduled_tokens cfg -> 0 <= max_num_running_reqs cfg ->
  reachable cfg bh fs (sched_start ∅ (create_request_queue (policy cfg)) fd e k c g) s ->
  zlen (running s) <= max_num_running_reqs cfg /\ NoDup (running s) /\ NoDup (queue_objs (waiting s)) /\
  (forall rid o, requests s !! rid = Some o -> exists r, sched_store s !! o = Some r /\ request_id r = rid /\
     (is_finished r = true /\ o ∉ running s /\ o ∉ queue_objs (waiting s) \/
      status r = RUNNING /\ o ∈ running s /\ o ∉ queue_objs (waiting s) \/
      is_waiting (status r) /\ o ∉ running s /\ o ∈ queue_objs (waiting s))) /\
  (forall o, o ∈ running s ++ queue_objs (waiting s) -> exists r, sched_store s !! o = Some r /\ requests s !! request_id r = Some o) /\
  (forall p, p ∈ pinned_requests s -> exists r, sched_store s !! p.1 = Some r /\ is_finished r = true).
Proof.
  intros Hm Hn HR. pose proof (reachable_inv cfg bh fs _ s Hm (sched_start_inv cfg ∅ fd e k c g Hn) HR) as [HL Hwd Hp].
  split; [done|]. split; [apply (lf_nodup_run _ _ _ _ HL)|]. split; [apply (lf_nodup_wait _ _ _ _ HL)|]. split; [|split].
  - intros rid o Hreg. destruct (lf_reg _ _ _ _ HL rid o Hreg) as (r & Hr & Hid & Ha & Hb). exists r. split; [done|]. split; [done|].
    destruct (decide (is_finished r = true)) as [Hf|Hf].
    + left. split; [done|]. destruct (life_finished_out _ _ _ _ o r HL Hr Hf). done.
    + right. assert (Hlive : status r = RUNNING \/ is_waiting (status r)) by (unfold is_finished in Hf; destruct (status r); cbn in *; auto).
      destruct Hlive as [Hs|Hs]; [left|right]; (split; [done|]).
      * split; [auto|]. intros Hw. apply (life_disjoint _ _ _ _ HL o); auto.
      * split; [|auto]. intros Hw. apply (life_disjoint _ _ _ _ HL o); auto.
  - intros o [Ho|Ho]%elem_of_app.
    + destruct (lf_run _ _ _ _ HL o Ho) as (r & ? & _ & ?). by exists r.
    + destruct (lf_wait _ _ _ _ HL o Ho) as (r & ? & _ & ?). by exists r.
  - intros p (r & ? & ? & _)%Hp. by exists r.
Qed.

(** A request added to the empty scheduler and scheduled. *)
Definition demo_text (id : string) (toks : list Z) : Request := demo_request id toks [].

Lemma reachable_states_consistent_witness :
  exists s1 s2 : Scheduler Empty_set (gset string),
    (s ← demo_sched FCFS 5; put_request (demo_cfg FCFS 100) 0 (demo_text "a" [1; 2; 3]) s) = Ok s1 /\
    (exists out, run_step (demo_cfg FCFS 100) 0%Qc s1 = Ok (out, s2)) /\ running s2 = [0%nat] /\ NoDup (running s2).
Proof.
  destruct (demo_cache 5) as [k|] eqn:Ek; [|by vm_compute in Ek].
  set (s0 := sched_start ∅ (create_request_queue FCFS) None (enc_init 0) k None ∅ : Scheduler Empty_set (gset string)).
  destruct (put_request (demo_cfg FCFS 100) 0 (demo_text "a" [1; 2; 3]) s0) as [s1|] eqn:E1; [|by cbn in E1].
  assert (E01 : (s ← demo_sched FCFS 5; put_request (demo_cfg FCFS 100) 0 (demo_text "a" [1; 2; 3]) s) = Ok s1).
  { unfold demo_sched. rewrite Ek. exact E1. }
  destruct (run_step (demo_cfg FCFS 100) 0%Qc s1) as [[out s2]|] eqn:E2.
  2:{ exfalso. assert (H : (s ← (s ← demo_sched FCFS 5; put_request (demo_cfg FCFS 100) 0 (demo_text "a" [1; 2; 3]) s);
        run_step (demo_cfg FCFS 100) 0%Qc s) = Err e) by (rewrite E01; exact E2). vm_compute in H. discriminate H. }
  assert (E02 : (s ← (s ← demo_sched FCFS 5; put_request (demo_cfg FCFS 100) 0 (demo_text "a" [1; 2; 3]) s);
        run_step (demo_cfg FCFS 100) 0%Qc s) = Ok (out, s2)) by (rewrite E01; exact E2).
  observe E02 (fun x : SchedulerOutput * Scheduler Empty_set (gset string) => running x.2) [0%nat]. cbn in Hobs.
  exists s1, s2. split; [done|]. split; [by exists out|]. split; [done|].
  destruct (run_step_schedule _ _ _ _ _ E2) as (m & ev & Es).
  apply (reachable_states_consistent (demo_cfg FCFS 100) None (fun _ => None) (enc_init 0) k None ∅ None s2); [cbn; lia|cbn; lia|].
  apply reach_step with s1; [|by eapply call_schedule].
  apply reach_step with s0; [apply reach_start|]. eapply (call_add _ _ _ 0%Qc 0 (demo_text "a" [1; 2; 3])); [done|done|done| |exact E1].
  by intros p rp ?%elem_of_nil.
Defined.

(** * Limits *)

(** C16: A scheduling step never exceeds its limits, and the assertions it makes
    about them cannot fail: in every consistent state, whenever the two loops
    return, the check of the token budget, of the number of running requests
    and of the number of scheduled requests passes; the number of scheduled
    tokens reported to the workers is the sum over the requests and at most
    [max_num_batched_tokens]; and the state is consistent again. *)
Theorem schedule_respects_limits {C G : Type} `{!KVConnector C, !StructuredOutput G} (cfg : SchedConfig) (now ts : Qc) (s : Scheduler C G) :
  0 <= max_num_scheduled_tokens cfg -> sched_inv cfg s ->
  (forall s0 a s1, (if decide (policy cfg = MIMIR) then mimir_expire_pins now s else Ok s) = Ok s0 ->
     schedule_loops cfg ts s0 = Ok (a, s1) -> exists total, check_constraints cfg a s1 = Ok total) /\
  (forall out meta ev s', schedule cfg now ts s = Ok (out, meta, ev, s') ->
     sched_inv cfg s' /\ so_total_num_scheduled_tokens out = sum_values (so_num_scheduled_tokens out) /\
     so_total_num_scheduled_tokens out <= max_num_scheduled_tokens cfg).
Proof. apply schedule_ok. Qed.

Lemma schedule_respects_limits_witness :
  exists (s : Scheduler Empty_set (gset string)) out s',
    (s ← demo_sched FCFS 9; s ← put_request (demo_cfg FCFS 4) 0 (demo_text "a" [1; 2; 3]) s;
     put_request (demo_cfg FCFS 4) 1 (demo_text "b" [4; 5; 6]) s) = Ok s /\
    run_step (demo_cfg FCFS 4) 0%Qc s = Ok (out, s') /\ so_num_scheduled_tokens out = [("a"%string, 3); ("b"%string, 1)] /\
    so_total_num_scheduled_tokens out <= 4 /\ sched_inv (demo_cfg FCFS 4) s'.
Proof.
  set (cfg := demo_cfg FCFS 4). destruct (demo_cache 9) as [k|] eqn:Ek; [|by vm_compute in Ek].
  set (s0 := sched_start ∅ (create_request_queue FCFS) None (enc_init 0) k None ∅ : Scheduler Empty_set (gset string)).
  destruct (put_request cfg 0 (demo_text "a" [1; 2; 3]) s0) as [s1|] eqn:E1; [|by cbn in E1].
  destruct (put_request cfg 1 (demo_text "b" [4; 5; 6]) s1) as [s|] eqn:E2; [|exfalso; injection E1 as <-; by cbn in E2].
  assert (E : (s ← demo_sched FCFS 9; s ← put_request cfg 0 (demo_text "a" [1; 2; 3]) s;
     put_request cfg 1 (demo_text "b" [4; 5; 6]) s) = Ok s).
  { unfold demo_sched. rewrite Ek. cbn [mbind result_bind]. fold s0. rewrite E1. exact E2. }
  assert (HI : sched_inv cfg s).
  { apply (reachable_inv cfg None (fun _ => None) s0); [cbn; lia|apply sched_start_inv; cbn; lia|].
    apply reach_step with s1; [apply reach_step with s0; [apply reach_start|]|].
    - eapply (call_add _ _ _ 0%Qc 0 (demo_text "a" [1; 2; 3])); [done|done|done| |exact E1]. by intros p rp ?%elem_of_nil.
    - eapply (call_add _ _ _ 0%Qc 1 (demo_text "b" [4; 5; 6])); [| |done| |exact E2]; injection E1 as <-; [done|done|].
      by intros p rp ?%elem_of_nil. }
  destruct (run_step cfg 0%Qc s) as [[out s']|e] eqn:E3.
  2:{ exfalso. assert (H : ((s ← (s ← demo_sched FCFS 9; s ← put_request cfg 0 (demo_text "a" [1; 2; 3]) s;
       put_request cfg 1 (demo_text "b" [4; 5; 6]) s); run_step cfg 0%Qc s) = Err e)) by (rewrite E; exact E3).
     vm_compute in H. discriminate H. }
  assert (E' : ((s ← (s ← demo_sched FCFS 9; s ← put_request cfg 0 (demo_text "a" [1; 2; 3]) s;
       put_request cfg 1 (demo_text "b" [4; 5; 6]) s); run_step cfg 0%Qc s) = Ok (out, s'))) by (rewrite E; exact E3).
  observe E' (fun x : SchedulerOutput * Scheduler Empty_set (gset string) => so_num_scheduled_tokens x.1) [("a"%string, 3); ("b"%string, 1)].
  cbn [fst snd] in Hobs. exists s, out, s'. split; [done|]. split; [done|]. split; [done|].
  destruct (run_step_schedule _ _ _ _ _ E3) as (m & ev & Es).
  destruct (schedule_respects_limits cfg 0%Qc 0%Qc s) as [_ H]; [cbn; lia|done|].
  destruct (H _ _ _ _ Es) as (H1 & _ & H2). split; [exact H2|exact H1].
Defined.

(** * Pinned KV blocks *)

Lemma kvm_free_ok k l r :
  kvm_inv k l -> exists k' l', kvm_free r k = Ok k' /\ kvm_inv k' l' /\ managers k' = pop_req (request_id r) <$> managers k.
Proof.
  intros [HK Hcf]. unfold kvm_free.
  destruct (coord_free_step (coordinator k) l (request_id r) HK) as (c' & l' & E & Ec & HK' & _ & HS & Hms).
  rewrite E. cbn [mbind result_bind]. exists (set_coord c' k), l'. split; [done|]. split; [|done].
  split; [done|]. change (kvm_enable_caching k = enable_caching (block_pool c')). by destruct HS as (_ & -> & _).
Qed.

(** The blocks of a request in every group. *)
Definition blocks_of (rid : string) (k : KVCacheManager) : list (list bptr) := (fun m => req_blocks m rid) <$> managers k.

Lemma blocks_of_free k k' r rid :
  managers k' = pop_req (request_id r) <$> managers k ->
  blocks_of rid k' = if decide (request_id r = rid) then (fun _ => []) <$> managers k else blocks_of rid k.
Proof.
  intros Hm. unfold blocks_of. rewrite Hm, <-list_fmap_compose. destruct (decide (request_id r = rid)) as [He|Hne];
    apply list_fmap_ext; intros i m _; cbn; rewrite req_blocks_pop; by destruct (decide _).
Qed.

Section Expiry.
Context {C G : Type} (now : Qc).
Abbreviation Sched := (Scheduler C G).

(** The pin [p] has expired and its request is still registered under [rid]. *)
Definition expires (s : Sched) (p : nat * Qc) (rid : string) : Prop :=
  (p.2 <= now)%Qc /\ exists r, sched_store s !! p.1 = Some r /\ request_id r = rid.

Definition no_blocks (rid : string) (s : Sched) : Prop := Forall (fun b => b = []) (blocks_of rid (kv_cache_manager s)).

(** What expiring the pins [pins] did to the state. *)
Record expired (pins : list (nat * Qc)) (s s' : Sched) : Prop := mkExpired {
  ex_frame : sched_store s' = sched_store s /\ pinned_requests s' = pinned_requests s /\ waiting s' = waiting s /\ running s' = running s;
  ex_sub : forall rid o, requests s' !! rid = Some o -> requests s !! rid = Some o;
  ex_keep : forall rid, (forall p, p ∈ pins -> ~ expires s p rid) ->
    requests s' !! rid = requests s !! rid /\ blocks_of rid (kv_cache_manager s') = blocks_of rid (kv_cache_manager s);
  ex_gone : forall rid p, p ∈ pins -> expires s p rid -> requests s' !! rid = None /\ (is_Some (requests s !! rid) -> no_blocks rid s');
  ex_none : forall rid, no_blocks rid s -> no_blocks rid s'
}.

Lemma expired_skip p pins (s s' : Sched) :
  (forall rid, expires s p rid -> requests s !! rid = None) -> expired pins s s' -> expired (p :: pins) s s'.
Proof.
  intros Hn [H1 H2 H3 H4 H5]. split; try done.
  - intros rid Hex. apply H3. intros q Hq. apply Hex. by right.
  - intros rid q [-> |Hq]%elem_of_cons He; [|by eapply H4]. pose proof (Hn rid He) as Hr.
    split; [|rewrite Hr; by intros [? ?]]. destruct (requests s' !! rid) eqn:E; [|done]. apply H2 in E. congruence.
Qed.

Lemma expired_free p pins r k' (s s' : Sched) :
  sched_store s !! p.1 = Some r -> (p.2 <= now)%Qc -> managers k' = pop_req (request_id r) <$> managers (kv_cache_manager s) ->
  expired pins (set_requests (delete (request_id r) (requests s)) (set_kv_cache_manager k' s)) s' -> expired (p :: pins) s s'.
Proof.
  intros Hr Hle Hms. set (s1 := set_requests _ _). intros [H1 H2 H3 H4 H5].
  pose proof (fun rid => blocks_of_free _ k' r rid Hms) as Hblk. change k' with (kv_cache_manager s1) in Hblk.
  assert (Hex : forall rid, expires s p rid <-> rid = request_id r).
  { intros rid. unfold expires. split; [|intros ->; by eauto]. intros (_ & r' & ? & <-). by simplify_eq. }
  assert (Hz : no_blocks (request_id r) s1).
  { unfold no_blocks. rewrite Hblk, decide_True by done. by apply Forall_fmap, Forall_true. }
  assert (Hreq : forall rid, rid ≠ request_id r -> requests s1 !! rid = requests s !! rid) by (intros rid ?; cbn; by rewrite lookup_delete_ne).
  split; [done| | | |].
  - intros rid o Ho%H2. cbn in Ho. by apply lookup_delete_Some in Ho as [_ ?].
  - intros rid Hn. assert (Hne : rid ≠ request_id r) by (intros ->; apply (Hn p ltac:(by left)); by apply Hex).
    destruct (H3 rid) as [R1 R2]; [intros q Hq; apply Hn; by right|].
    by rewrite R1, R2, Hblk, decide_False, Hreq by done.
  - intros rid q [-> |Hq]%elem_of_cons He.
    + apply Hex in He as ->. split; [|intros _; by apply H5].
      destruct (requests s' !! request_id r) eqn:E; [|done]. apply H2 in E. cbn in E. by rewrite lookup_delete_eq in E.
    + destruct (H4 rid q Hq He) as [R1 R2]. split; [done|]. intros Hs. destruct (decide (rid = request_id r)) as [->|Hne]; [by apply H5|].
      apply R2. by rewrite Hreq.
  - intros rid Hn. apply H5. unfold no_blocks. rewrite Hblk. destruct (decide _); [by apply Forall_fmap, Forall_true|done].
Qed.

Lemma expire_loop pins : forall still (s : Sched) l,
  kvm_inv (kv_cache_manager s) l -> pins_ok (sched_store s) (requests s) pins ->
  exists s' l', foldM (expire_one now) (still, s) pins = Ok (still ++ filter (fun p => (now < p.2)%Qc) pins, s') /\
    kvm_inv (kv_cache_manager s') l' /\ expired pins s s'.
Proof.
  induction pins as [|p pins IH]; intros still s l HK Hp.
  { exists s, l. cbn. rewrite app_nil_r. split; [done|]. split; [done|]. split; try done. by intros rid p ?%elem_of_nil. }
  assert (Hp' : pins_ok (sched_store s) (requests s) pins) by (intros q Hq; apply Hp; by right).
  destruct (Hp p ltac:(by left)) as (r & Hr & Hfin & Hown). cbn [foldM expire_one].
  destruct (decide (p.2 <= now)%Qc) as [Hle|Hgt].
  - rewrite filter_cons_False by (intros Hlt; by apply (Qclt_not_le _ _ Hlt)).
    unfold get_req. rewrite Hr. cbn [get_or mbind result_bind].
    destruct (decide (is_Some (requests s !! request_id r))) as [[o Ho]|Hno].
    + destruct (kvm_free_ok _ l r HK) as (k' & l1 & Ek & HK1 & Hms).
      unfold free_blocks_of, get_req. rewrite Hr. cbn [get_or mbind result_bind]. rewrite Hfin. cbn [assert_ mbind result_bind].
      rewrite Ek. cbn [mbind result_bind requests set_kv_cache_manager]. rewrite Ho. cbn [get_or mbind result_bind].
      destruct (IH still (set_requests (delete (request_id r) (requests s)) (set_kv_cache_manager k' s)) l1) as (s' & l' & E & HK' & He); [done| |].
      { intros q Hq. destruct (Hp' q Hq) as (rq & ? & ? & Hrq). exists rq. split_and!; try done. cbn. by intros x [_ ?%Hrq]%lookup_delete_Some. }
      exists s', l'. split; [done|]. split; [done|]. by eapply expired_free.
    + destruct (IH still s l HK Hp') as (s' & l' & E & HK' & He). exists s', l'. split; [done|]. split; [done|].
      apply expired_skip; [|done]. intros rid (_ & r' & ? & <-). simplify_eq. by apply eq_None_not_Some.
  - rewrite filter_cons_True by (by apply Qcnot_le_lt). destruct (IH (still ++ [p]) s l HK Hp') as (s' & l' & E & HK' & He).
    cbn [mbind result_bind]. rewrite <-app_assoc in E. exists s', l'. split; [done|]. split; [done|].
    apply expired_skip; [|done]. intros rid [? _]. done.
Qed.
End Expiry.

(** C25: Pinned KV blocks are kept exactly as long as their TTL says. Expiring pins
    at time [now] always succeeds in a consistent state; it keeps exactly the
    pins whose expiry lies in the future, in order; a request without an
    expired pin keeps its registration and all its blocks in every KV cache
    group; a registered request with an expired pin loses both. *)
Theorem pins_kept_until_expiry {C G : Type} (now : Qc) (s : Scheduler C G) (l : list nat) :
  kvm_inv (kv_cache_manager s) l -> pins_ok (sched_store s) (requests s) (pinned_requests s) ->
  exists s' l', mimir_expire_pins now s = Ok s' /\ kvm_inv (kv_cache_manager s') l' /\
    pinned_requests s' = filter (fun p => (now < p.2)%Qc) (pinned_requests s) /\
    waiting s' = waiting s /\ running s' = running s /\ sched_store s' = sched_store s /\
    (forall rid, (forall p, p ∈ pinned_requests s -> ~ expires now s p rid) ->
       requests s' !! rid = requests s !! rid /\ blocks_of rid (kv_cache_manager s') = blocks_of rid (kv_cache_manager s)) /\
    (forall rid p, p ∈ pinned_requests s -> expires now s p rid -> requests s' !! rid = None /\
       (is_Some (requests s !! rid) -> no_blocks rid s')).
Proof.
  intros HK Hp. unfold mimir_expire_pins.
  destruct (expire_loop now (pinned_requests s) [] s l HK Hp) as (s1 & l1 & E & HK1 & [(Q1 & Q2 & Q3 & Q4) _ H3 H4 _]).
  rewrite E. cbn [mbind result_bind app]. eexists _, l1. split; [reflexivity|]. cbn. by split_and!.
Qed.

(** Two pinned requests, one of them with blocks, at time 3. *)
Definition finished_request (id : string) : Request := set_status FINISHED_STOPPED (demo_request id [1; 2; 3] [[1]]).

Definition demo_pins (k : KVCacheManager) : Scheduler Empty_set (gset string) :=
  mkSched {[ 0%nat := finished_request "a"; 1%nat := finished_request "b" ]} {[ "a"%string := 0%nat; "b"%string := 1%nat ]}
    (FCFSRequestQueue []) [] [(0%nat, Q2Qc 1); (1%nat, Q2Qc 5)] ∅ ∅ None ∅ (enc_init 0) k None ∅.

Lemma pins_kept_until_expiry_witness :
  exists k s', demo_running = Ok k /\ blocks_of "a" k ≠ [[]] /\ mimir_expire_pins (Q2Qc 3) (demo_pins k) = Ok s' /\
    pinned_requests s' = [(1%nat, Q2Qc 5)] /\ requests s' !! "a"%string = None /\ no_blocks "a" s'.
Proof.
  destruct demo_running_ok as (k & l & E & HK).
  observe E (blocks_of "a") [[PBlk 1; PBlk 2]].
  destruct (pins_kept_until_expiry (Q2Qc 3) (demo_pins k) l) as (s' & l' & E' & _ & Hpin & _ & _ & _ & _ & Hgone).
  - exact HK.
  - intros p [-> |[-> |?%elem_of_nil]%elem_of_cons]%elem_of_cons; [| |done]; eexists; (split; [reflexivity|]);
      (split; [reflexivity|]); intros o Ho; vm_compute in Ho; by injection Ho as <-.
  - exists k, s'. split; [exact E|]. split; [rewrite Hobs; discriminate|]. split; [exact E'|]. split; [rewrite Hpin; vm_compute; reflexivity|].
    destruct (Hgone "a"%string (0%nat, Q2Qc 1)) as [H1 H2].
    + by left.
    + split; [vm_compute; discriminate|]. eexists. split; reflexivity.
    + split; [exact H1|]. apply H2. by eexists.
Defined.

(** * The pin decision *)

(** The job's tool durations once this step's duration is recorded. *)
Definition durations (r : Request) (d : option Qc) (h : gmap pyval (list Qc)) : list Qc :=
  default [] (h !! job_id r) ++ match d with Some d => [d] | None => [] end.

(** C26: Finishing a non-final step of an agent's job that called a tool, under the
    MIMIR policy without a connector: if the job's mean tool duration, this
    step's included, is at most the TTL, the request is pinned until
    [now + ttl], and its registration and KV blocks are untouched; if the mean
    exceeds the TTL, its blocks are freed and it is forgotten. Either way the
    duration is recorded and the workers are told that it finished. *)
Theorem pin_decision {C G : Type} `{!KVConnector C} (cfg : SchedConfig) (fs : string -> option Qc) (now : Qc) (o : nat)
    (s : Scheduler C G) (r : Request) (d : option Qc) (e : EncoderCacheManager) (k : KVCacheManager) :
  policy cfg = MIMIR -> (0 < mimir_pin_ttl cfg)%Qc -> connector s = None ->
  sched_store s !! o = Some r -> is_finished r = true -> requests s !! request_id r = Some o ->
  job_id r ≠ PNone -> is_last_step r ≠ Some true -> py_truth (dict_get (extra_args_meta r) "has_tool_call") = true ->
  match d with Some d => dict_get (extra_args_meta r) "tool_duration" ≠ PNone /\ py_float fs (dict_get (extra_args_meta r) "tool_duration") = Ok d
             | None => dict_get (extra_args_meta r) "tool_duration" = PNone end ->
  enc_free r (encoder_cache_manager s) = Ok e -> kvm_free r (kv_cache_manager s) = Ok k ->
  exists s', free_request cfg fs now o s = Ok (PNone, s') /\ request_id r ∈ finished_req_ids s' /\
    default [] (job_tool_history s' !! job_id r) = durations r d (job_tool_history s) /\
    if decide (mimir_pin_ttl cfg < mean (durations r d (job_tool_history s)))%Qc
    then pinned_requests s' = pinned_requests s /\ requests s' = delete (request_id r) (requests s) /\ kv_cache_manager s' = k
    else pinned_requests s' = pinned_requests s ++ [(o, (now + mimir_pin_ttl cfg)%Qc)] /\ requests s' = requests s /\
         kv_cache_manager s' = kv_cache_manager s.
Proof.
  intros Hpol Httl Hconn Hr Hfin Hreg Hjob Hlast Htool Hd He Hk. unfold free_request, get_req. rewrite Hr. cbn [get_or mbind result_bind].
  rewrite Hfin. cbn [assert_ mbind result_bind]. unfold connector_finished. rewrite Hconn. cbn [mbind result_bind]. rewrite He. cbn [mbind result_bind].
  set (s1 := note_finished r _).
  assert (Hs1 : job_tool_history s1 = job_tool_history s /\ pinned_requests s1 = pinned_requests s /\ requests s1 = requests s /\
    kv_cache_manager s1 = kv_cache_manager s /\ sched_store s1 = sched_store s /\ request_id r ∈ finished_req_ids s1).
  { unfold s1, note_finished. cbn. destruct (finished_req_ids_dict s); cbn; split_and!; try done; set_solver. }
  clearbody s1. destruct Hs1 as (Q1 & Q2 & Q3 & Q4 & Q5 & Q6).
  replace (may_pin cfg r false) with true.
  2:{ unfold may_pin. rewrite bool_decide_true by done. destruct (job_id r), (is_last_step r) as [[|]|]; done. }
  assert (Hup : exists s2, set_up_pin cfg fs r s1 =
      Ok (if decide (mimir_pin_ttl cfg < mean (durations r d (job_tool_history s)))%Qc then 0%Qc else mimir_pin_ttl cfg, s2) /\
    default [] (job_tool_history s2 !! job_id r) = durations r d (job_tool_history s) /\ pinned_requests s2 = pinned_requests s /\
    requests s2 = requests s /\ kv_cache_manager s2 = kv_cache_manager s /\ sched_store s2 = sched_store s /\ request_id r ∈ finished_req_ids s2).
  { unfold set_up_pin, durations. rewrite Htool. cbn [negb]. destruct d as [d|].
    - destruct Hd as [Hne Hd]. replace (is_none _ || is_none (job_id r)) with false
        by (destruct (dict_get (extra_args_meta r) "tool_duration"), (job_id r); done).
      rewrite Hd. cbn [mbind result_bind job_tool_history set_job_tool_history]. rewrite lookup_insert_eq, Q1. cbn [default].
      eexists. destruct (decide _); (split; [reflexivity|]); cbn; rewrite lookup_insert_eq; by split_and!.
    - rewrite Hd. cbn [is_none orb mbind result_bind]. rewrite Q1, app_nil_r. exists s1. rewrite Q1.
      destruct (decide _); (split; [reflexivity|]); by split_and!. }
  destruct Hup as (s2 & -> & Hh & R2 & R3 & R4 & R5 & R6). cbn [mbind result_bind].
  destruct (decide (mimir_pin_ttl cfg < _)%Qc).
  - destruct (decide (0 < 0)%Qc) as [H0|_]; [by apply Qclt_not_eq in H0|]. unfold free_blocks_of, get_req. rewrite R5, Hr. cbn [get_or mbind result_bind].
    rewrite Hfin. cbn [assert_ mbind result_bind]. rewrite R4, Hk. cbn [mbind result_bind requests set_kv_cache_manager]. rewrite R3, Hreg.
    cbn [get_or mbind result_bind]. eexists. split; [reflexivity|]. cbn. by rewrite R2.
  - rewrite decide_True by done. eexists. split; [reflexivity|]. cbn. by rewrite R2, R3, R4.
Qed.

(** A tool of 1.5 seconds, with a TTL of 2 seconds. *)
Definition agent_request : Request :=
  mkRequest "a" 0 0 (Some demo_sampling) false None None 0%Qc FINISHED_STOPPED false [] None PNone (PStr "job") (Some false)
    {[ "has_tool_call"%string := PBool true; "tool_duration"%string := PFloat (Q2Qc (3 # 2)) ]}
    16 [1; 2; 3] [] [1; 2; 3] 0 [] 0 None [] (-1) 0 [[1]].

Lemma pin_decision_witness :
  exists k s', demo_running = Ok k /\
    let s : Scheduler Empty_set (gset string) := mkSched {[ 0%nat := agent_request ]} {[ "a"%string := 0%nat ]} (FCFSRequestQueue []) [] []
      ∅ ∅ None ∅ (enc_init 0) k None ∅ in
    free_request (demo_cfg MIMIR 100) (fun _ => None) (Q2Qc 10) 0 s = Ok (PNone, s') /\
    kv_cache_manager s' = k /\ requests s' !! "a"%string = Some 0%nat /\ pinned_requests s' = [(0%nat, (Q2Qc 10 + Q2Qc 2)%Qc)].
Proof.
  destruct demo_running_ok as (k & l & E & HK). destruct (kvm_free_ok k l agent_request HK) as (k' & l' & Ek & _).
  set (s := mkSched {[ 0%nat := agent_request ]} {[ "a"%string := 0%nat ]} (FCFSRequestQueue []) [] []
      ∅ ∅ None ∅ (enc_init 0) k None ∅ : Scheduler Empty_set (gset string)).
  destruct (pin_decision (demo_cfg MIMIR 100) (fun _ => None) (Q2Qc 10) 0 s agent_request (Some (Q2Qc (3 # 2))) (enc_init 0) k')
    as (s' & E' & _ & _ & H); try reflexivity; try discriminate; try exact Ek.
  - split; [discriminate|reflexivity].
  - exists k, s'. split; [exact E|]. split; [exact E'|].
    destruct (decide _) as [Hlt|_]; [vm_compute in Hlt; discriminate Hlt|]. destruct H as (H1 & H2 & H3).
    split; [exact H3|]. split; [by rewrite H2|exact H1].
Defined.

(** * Stop conditions *)

(** Stopping after [k] new tokens, the last of which is [t]. *)
Definition stops_at (cfg : SchedConfig) (r : Request) (sp : SamplingParams) (k : nat) (t : Z) : bool :=
  (max_model_len cfg <=? num_tokens r + Z.of_nat k) || (max_tokens r <=? num_output_tokens r + Z.of_nat k) ||
  (negb (ignore_eos sp) && bool_decide (Some t = eos_token_id r)) || bool_decide (t ∈ stop_token_ids sp).

(** The number of tokens up to and including the first that stops. *)
Fixpoint stop_index (cfg : SchedConfig) (r : Request) (sp : SamplingParams) (k : nat) (toks : list Z) : option nat :=
  match toks with
  | [] => None
  | t :: toks => if stops_at cfg r sp k t then Some k else stop_index cfg r sp (S k) toks
  end.

Definition same_limits (r r' : Request) : Prop :=
  request_id r' = request_id r /\ sampling_params r' = sampling_params r /\ pooling_params r' = pooling_params r /\
  max_tokens r' = max_tokens r /\ eos_token_id r' = eos_token_id r.

Section Stop.
Context (cfg : SchedConfig) (bh : option hasher).
Hypothesis hasher_total : forall hf r, bh = Some hf -> exists hs, hf r = Ok hs.

Lemma append_total r t : exists r', append_output_token_ids bh [t] r = Ok r' /\ same_limits r r' /\ status r' = status r /\
  output_token_ids r' = output_token_ids r ++ [t] /\ all_token_ids r' = all_token_ids r ++ [t].
Proof using hasher_total.
  unfold append_output_token_ids. destruct bh as [hf|] eqn:Eb.
  - destruct (hasher_total hf (set_tokens (output_token_ids r ++ [t]) (all_token_ids r ++ [t]) r) eq_refl) as [hs ->].
    cbn [mbind result_bind]. eexists. split; [reflexivity|]. by split_and!.
  - eexists. split; [reflexivity|]. by split_and!.
Qed.

Lemma check_stop_sampling r sp outs t :
  pooling_params r = false -> sampling_params r = Some sp -> output_token_ids r = outs ++ [t] ->
  exists r', check_stop r (max_model_len cfg) false = Ok (stops_at cfg r sp 0 t, r') /\ same_limits r r' /\
    output_token_ids r' = output_token_ids r /\ all_token_ids r' = all_token_ids r /\
    (if stops_at cfg r sp 0 t then is_finished r' = true else r' = r).
Proof.
  intros Hp Hs Ho. unfold check_stop, stops_at. rewrite Hp, Hs, !Z.add_0_r. cbn [get_or mbind result_bind].
  replace (pyindex (output_token_ids r) (-1)) with (Ok t : result Z).
  2:{ rewrite Ho. unfold pyindex. change (-1 <? 0) with true. cbv iota zeta. rewrite zlen_app. change (zlen [t]) with 1.
      pose proof (zlen_nonneg outs). replace (-1 + (zlen outs + 1) <? 0) with false by (symmetry; apply Z.ltb_ge; lia).
      replace (Z.to_nat (-1 + (zlen outs + 1))) with (length outs) by (unfold zlen; lia).
      by rewrite lookup_app_r, Nat.sub_diag by lia. }
  cbn [mbind result_bind]. destruct (_ || _); cbn [orb]; [eexists; split; [reflexivity|]; by split_and!|].
  destruct (_ && _); cbn [orb]; [eexists; split; [reflexivity|]; by split_and!|].
  destruct (bool_decide _); eexists; (split; [reflexivity|]); by split_and!.
Qed.

Lemma stops_at_shift r r1 sp k t :
  same_limits r r1 -> num_tokens r1 = num_tokens r + 1 -> num_output_tokens r1 = num_output_tokens r + 1 ->
  stops_at cfg r1 sp k t = stops_at cfg r sp (S k) t.
Proof.
  intros (_ & _ & _ & E1 & E2) E3 E4. unfold stops_at. rewrite E1, E2, E3, E4.
  by replace (num_tokens r + 1 + Z.of_nat k) with (num_tokens r + Z.of_nat (S k)) by lia;
     replace (num_output_tokens r + 1 + Z.of_nat k) with (num_output_tokens r + Z.of_nat (S k)) by lia.
Qed.

Lemma stop_index_shift r r1 sp toks : forall k,
  same_limits r r1 -> num_tokens r1 = num_tokens r + 1 -> num_output_tokens r1 = num_output_tokens r + 1 ->
  stop_index cfg r sp (S k) toks = S <$> stop_index cfg r1 sp k toks.
Proof.
  induction toks as [|t toks IH]; intros k HL E1 E2; [done|]. cbn [stop_index]. rewrite (stops_at_shift r r1) by done.
  destruct (stops_at _ _ _ _ _); [done|]. by apply IH.
Qed.

Lemma append_until_stop_ok toks : forall r sp,
  pooling_params r = false -> sampling_params r = Some sp ->
  exists r', append_until_stop cfg bh toks r =
      Ok (take (default (length toks) (stop_index cfg r sp 1 toks)) toks, bool_decide (is_Some (stop_index cfg r sp 1 toks)), r') /\
    same_limits r r' /\ output_token_ids r' = output_token_ids r ++ take (default (length toks) (stop_index cfg r sp 1 toks)) toks /\
    all_token_ids r' = all_token_ids r ++ take (default (length toks) (stop_index cfg r sp 1 toks)) toks /\
    (if decide (is_Some (stop_index cfg r sp 1 toks)) then is_finished r' = true else status r' = status r).
Proof using hasher_total.
  induction toks as [|t toks IH]; intros r sp Hp Hs; cbn [append_until_stop stop_index].
  { exists r. cbn. rewrite !app_nil_r. by split_and!. }
  destruct (append_total r t) as (r1 & -> & HL1 & Hst1 & Ho1 & Ha1). cbn [mbind result_bind].
  pose proof HL1 as (Hid & Hs1 & Hp1 & _). rewrite <-Hp1 in Hp. rewrite <-Hs1 in Hs.
  assert (N1 : num_tokens r1 = num_tokens r + 1) by (unfold num_tokens; by rewrite Ha1, zlen_app).
  assert (N2 : num_output_tokens r1 = num_output_tokens r + 1) by (unfold num_output_tokens; by rewrite Ho1, zlen_app).
  destruct (check_stop_sampling r1 sp (output_token_ids r) t Hp Hs Ho1) as (r2 & -> & HL2 & Ho2 & Ha2 & Hst2). cbn [mbind result_bind].
  rewrite (stops_at_shift r r1) by done. rewrite (stops_at_shift r r1) in Hst2 by done. destruct (stops_at cfg r sp 1 t).
  - exists r2. rewrite bool_decide_true, decide_True by (by eexists).
    change (take (default (length (t :: toks)) (Some 1%nat)) (t :: toks)) with [t]. split; [done|]. split; [|split_and!; [congruence..|done]]. destruct HL1 as (? & ? & ? & ? & ?), HL2 as (? & ? & ? & ? & ?). split_and!; congruence.
  - subst r2. destruct (IH r1 sp Hp Hs) as (r' & -> & HL3 & Ho3 & Ha3 & Hst3). cbn [mbind result_bind].
    rewrite (stop_index_shift r r1 sp toks 1) by done. exists r'.
    destruct (stop_index cfg r1 sp 1 toks) as [n|]; cbn [from_option id fmap option_fmap option_map take length].
    + rewrite !bool_decide_true by (by eexists). rewrite decide_True in Hst3 by (by eexists). rewrite decide_True by (by eexists).
      split; [done|]. split; [destruct HL1 as (? & ? & ? & ? & ?), HL3 as (? & ? & ? & ? & ?); split_and!; congruence|].
      rewrite Ho3, Ha3, Ho1, Ha1, <-!app_assoc. done.
    + rewrite !bool_decide_false by (by intros [? ?]). rewrite decide_False in Hst3 by (by intros [? ?]). rewrite decide_False by (by intros [? ?]).
      split; [done|]. split; [destruct HL1 as (? & ? & ? & ? & ?), HL3 as (? & ? & ? & ? & ?); split_and!; congruence|].
      rewrite Ho3, Ha3, Ho1, Ha1, <-!app_assoc. split_and!; try done. congruence.
Qed.
End Stop.

Lemma stop_index_bounds cfg r sp toks : forall k n, stop_index cfg r sp k toks = Some n -> (k <= n < k + length toks)%nat /\
  (forall i t, (k + i < n)%nat -> toks !! i = Some t -> stops_at cfg r sp (k + i) t = false).
Proof.
  induction toks as [|t toks IH]; intros k n E; cbn in E; [done|]. destruct (stops_at cfg r sp k t) eqn:Es.
  - injection E as <-. split; [cbn; lia|]. intros i; lia.
  - apply IH in E as [Hb Hn]. split; [cbn; lia|]. intros [|i] t' Hi Ht; cbn in Ht; [simplify_eq; by rewrite Nat.add_0_r|].
    replace (k + S i)%nat with (S k + i)%nat by lia. apply Hn; [lia|done].
Qed.

Lemma stop_index_none cfg r sp toks : forall k, stop_index cfg r sp k toks = None ->
  forall i t, toks !! i = Some t -> stops_at cfg r sp (k + i) t = false.
Proof.
  induction toks as [|t toks IH]; intros k E; cbn in E; [done|]. destruct (stops_at cfg r sp k t) eqn:Es; [done|].
  intros [|i] t' Ht; cbn in Ht; [simplify_eq; by rewrite Nat.add_0_r|].
  replace (k + S i)%nat with (S k + i)%nat by lia. by apply IH.
Qed.

(** C27: Appending the sampled tokens of a text request always succeeds, keeps
    exactly the tokens up to and including the first one that hits a stop
    condition (end of sequence, stop token, length or token limit), reports a
    stop iff there is one, and then marks the request finished. A request
    that was below [max_model_len] never exceeds it, nor its own
    [max_tokens]. *)
Theorem tokens_until_stop (cfg : SchedConfig) (bh : option hasher) (toks : list Z) (r : Request) (sp : SamplingParams) :
  (forall hf r, bh = Some hf -> exists hs, hf r = Ok hs) -> pooling_params r = false -> sampling_params r = Some sp ->
  num_tokens r < max_model_len cfg -> num_output_tokens r < max_tokens r ->
  exists n stopped r', append_until_stop cfg bh toks r = Ok (take n toks, stopped, r') /\ (n <= length toks)%nat /\
    output_token_ids r' = output_token_ids r ++ take n toks /\ all_token_ids r' = all_token_ids r ++ take n toks /\
    num_tokens r' <= max_model_len cfg /\ num_output_tokens r' <= max_tokens r' /\
    (forall i t, (S i < n)%nat -> toks !! i = Some t -> stops_at cfg r sp (S i) t = false) /\
    (if stopped then is_finished r' = true /\ exists t, toks !! pred n = Some t /\ (0 < n)%nat /\ stops_at cfg r sp n t = true
     else n = length toks /\ status r' = status r /\ forall i t, toks !! i = Some t -> stops_at cfg r sp (S i) t = false).
Proof.
  intros Hh Hp Hs Hlt Hlt'. destruct (append_until_stop_ok cfg bh Hh toks r sp Hp Hs) as (r' & E & (_ & _ & _ & Hm & _) & Ho & Ha & Hst).
  assert (Hlast : forall k n, stop_index cfg r sp k toks = Some n -> exists t, toks !! (n - k)%nat = Some t /\ stops_at cfg r sp n t = true).
  { clear. induction toks as [|t toks IH]; intros k n E; cbn in E; [done|]. destruct (stops_at cfg r sp k t) eqn:Es.
    - injection E as <-. exists t. by rewrite Nat.sub_diag.
    - pose proof (stop_index_bounds _ _ _ _ _ _ E) as [[? _] _]. destruct (IH _ _ E) as (t' & ? & ?). exists t'.
      by replace (n - k)%nat with (S (n - S k)) by lia. }
  assert (Hlen : forall n, (forall i t, (S i < n)%nat -> toks !! i = Some t -> stops_at cfg r sp (S i) t = false) -> (n <= length toks)%nat ->
    num_tokens r + Z.of_nat n <= max_model_len cfg /\ num_output_tokens r + Z.of_nat n <= max_tokens r).
  { intros [|[|n]] Hn Hl; [lia|lia|]. destruct (lookup_lt_is_Some_2 toks n ltac:(lia)) as [t Ht].
    specialize (Hn n t ltac:(lia) Ht). unfold stops_at in Hn. rewrite !orb_false_iff, !Z.leb_gt in Hn. lia. }
  set (m := default (length toks) (stop_index cfg r sp 1 toks)) in *. exists m, (bool_decide (is_Some (stop_index cfg r sp 1 toks))), r'.
  assert (Hmin : (m <= length toks)%nat /\ (forall i t, (S i < m)%nat -> toks !! i = Some t -> stops_at cfg r sp (S i) t = false)).
  { unfold m. destruct (stop_index cfg r sp 1 toks) as [n|] eqn:En; cbn [from_option id].
    - destruct (stop_index_bounds _ _ _ _ _ _ En) as [? Hn]. split; [lia|]. exact Hn.
    - split; [done|]. intros i t _. by apply (stop_index_none _ _ _ _ 1). }
  destruct Hmin as [Hml Hmin]. destruct (Hlen m Hmin Hml) as [L1 L2].
  assert (Ht : zlen (take m toks) = Z.of_nat m) by (unfold zlen; rewrite length_take; lia).
  split; [done|]. split; [done|]. split; [done|]. split; [done|]. unfold num_tokens, num_output_tokens in *. rewrite Ha, Ho, !zlen_app, Ht, Hm.
  split; [lia|]. split; [lia|]. split; [done|]. unfold m in *. destruct (stop_index cfg r sp 1 toks) as [n|] eqn:En; cbn [from_option id] in *.
  - rewrite bool_decide_true by (by eexists). rewrite decide_True in Hst by (by eexists). split; [done|].
    destruct (Hlast 1%nat n En) as (t & ? & ?). destruct (stop_index_bounds _ _ _ _ _ _ En) as [? _]. exists t.
    replace (pred n) with (n - 1)%nat by lia. split_and!; try done. lia.
  - rewrite bool_decide_false by (by intros [? ?]). rewrite decide_False in Hst by (by intros [? ?]).
    split_and!; try done. by apply (stop_index_none _ _ _ _ 1).
Qed.

Lemma tokens_until_stop_witness :
  let r := mkRequest "a" 0 0 (Some demo_sampling) false (Some 7) None 0%Qc RUNNING false [] None PNone PNone None ∅
    16 [1; 2] [] [1; 2] 0 [] 2 None [] (-1) 0 [] in
  exists n stopped r', append_until_stop (demo_cfg FCFS 100) None [5; 7; 9] r = Ok (take n [5; 7; 9], stopped, r') /\
    n = 2%nat /\ stopped = true /\ is_finished r' = true.
Proof.
  intros r. destruct (tokens_until_stop (demo_cfg FCFS 100) None [5; 7; 9] r demo_sampling) as (n & stopped & r' & E & H); try (vm_compute; done).
  assert (E' := E). vm_compute in E'. injection E' as E1 E2 _. subst stopped.
  assert (n = 2%nat) as -> by (destruct n as [|[|[|[|n]]]]; done). exists 2%nat, true, r'. split; [exact E|]. split; [done|]. split; [done|]. apply H.
Defined.

(** * Preemption *)

(** Under the PRIORITY policy the preempted request is one that no running
    request comes after in (priority, arrival time): the victim exists
    whenever a request is running, is itself running, and every running
    request may be served before it. *)
Theorem victim_has_lowest_priority {C G : Type} (s : Scheduler C G) :
  running s ≠ [] -> (forall o, o ∈ running s -> is_Some (sched_store s !! o)) ->
  exists v, pick_victim s = Ok v /\ v ∈ running s /\ forall o, o ∈ running s -> serves_before (sched_store s) o v.
Proof.
  intros Hne Hst. assert (Hes : exists es, mapM_res (entry_of (sched_store s)) (running s) = Ok es).
  { clear Hne. induction (running s) as [|o l IH]; [by exists []|]. cbn [mapM_res]. destruct (Hst o ltac:(by left)) as [r Hr].
    assert (entry_of (sched_store s) o = Ok (mkEntry (priority r) (arrival_time r) o)) as -> by (unfold entry_of; by rewrite Hr).
    destruct IH as [es ->]; [intros; apply Hst; by right|]. by eexists. }
  destruct Hes as [es Hes]. destruct (pick_victim s) as [v|e] eqn:Ev.
  - exists v. split; [done|]. by apply pick_victim_spec.
  - unfold pick_victim in Ev. rewrite Hes in Ev. cbn in Ev. destruct es; [|done].
    apply mapM_entries in Hes as [Hes _]. by rewrite <-Hes in Hne.
Qed.

Lemma victim_has_lowest_priority_witness :
  exists k v, demo_cache 5 = Ok k /\
    pick_victim (mkSched demo_store ∅ (FCFSRequestQueue []) [2; 0; 1]%nat [] ∅ ∅ None ∅ (enc_init 0) k None ∅
                 : Scheduler Empty_set (gset string)) = Ok v /\ v = 0%nat /\ serves_before demo_store 1 v.
Proof.
  destruct (demo_cache 5) as [k|] eqn:Ek; [|by vm_compute in Ek].
  set (s := mkSched demo_store ∅ (FCFSRequestQueue []) [2; 0; 1]%nat [] ∅ ∅ None ∅ (enc_init 0) k None ∅ : Scheduler Empty_set (gset string)).
  destruct (victim_has_lowest_priority s) as (v & Ev & _ & H).
  - discriminate.
  - intros o [-> |[-> |[-> |?%elem_of_nil]%elem_of_cons]%elem_of_cons]%elem_of_cons; [..|done]; eexists; reflexivity.
  - exists k, v. split; [done|]. split; [exact Ev|]. split; [vm_compute in Ev; by injection Ev as <-|]. apply H. cbn. do 2 right. by left.
Defined.

(** A request with a priority (also its arrival time). *)
Definition prio_request (id : string) (prio : Z) (toks : list Z) : Request :=
  mkRequest id 0 prio (Some demo_sampling) false None None (Q2Qc (inject_Z prio)) WAITING false [] None PNone PNone None ∅
    16 toks [] toks 0 [] 0 None [] (-1) 0 [].

(** Four usable blocks of two tokens; "low" is running when "high" arrives,
    both run for a step, and in the third step "low" is scheduled first and
    "high" then needs a block. *)
Definition priority_scenario : result (SchedulerOutput * Scheduler Empty_set (gset string)) :=
  let cfg := demo_cfg PRIORITY 100 in
  s ← demo_sched PRIORITY 5;
  s ← put_request cfg 0 (prio_request "low" 9 [1; 2; 3; 4]) s;
  '(out, s) ← run_step cfg 0%Qc s;
  s ← run_update cfg 0%Qc out [("low"%string, [5])] s;
  s ← put_request cfg 1 (prio_request "high" 1 [6; 7]) s;
  '(out, s) ← run_step cfg 0%Qc s;
  s ← run_update cfg 0%Qc out [("low"%string, [8]); ("high"%string, [9])] s;
  run_step cfg 0%Qc s.

(** Under the PRIORITY policy a request that was already scheduled in the step
    can still be preempted. It is removed from the scheduled requests but not
    from [num_scheduled_tokens]: the workers are told of a token for a request
    they are not given, and the update after the step advances the computed
    tokens of the preempted request, which were just reset to 0. The request
    is then waiting with one computed token and no KV block, so it will resume
    with the KV of its first token missing. *)
Theorem preempted_after_scheduling :
  exists out s, priority_scenario = Ok (out, s) /\
    so_num_scheduled_tokens out = [("low"%string, 1); ("high"%string, 1)] /\
    cr_req_ids (so_cached_reqs out) = ["high"%string] /\ so_new_reqs out = [] /\
    running s = [1%nat] /\ queue_objs (waiting s) = [0%nat] /\
    (exists r, sched_store s !! 0%nat = Some r /\ status r = PREEMPTED /\ num_computed_tokens r = 1) /\
    blocks_of "low" (kv_cache_manager s) = [[]].
Proof.
  destruct priority_scenario as [[out s]|e] eqn:E; [|exfalso; vm_compute in E; discriminate E]. exists out, s. split; [reflexivity|].
  observe E (fun x : SchedulerOutput * Scheduler Empty_set (gset string) =>
    (so_num_scheduled_tokens x.1, cr_req_ids (so_cached_reqs x.1), length (so_new_reqs x.1), running x.2, queue_objs (waiting x.2),
     (fun r => (status r, num_computed_tokens r)) <$> (sched_store x.2 !! 0%nat), blocks_of "low" (kv_cache_manager x.2)))
    ([("low"%string, 1); ("high"%string, 1)], ["high"%string], 0%nat, [1%nat], [0%nat], Some (PREEMPTED, 1), [[] : list bptr]).
  clear E. cbn [fst snd] in Hobs. injection Hobs as H1 H2 H3 H4 H5 H6 H7. split; [done|]. split; [done|].
  split; [by destruct (so_new_reqs out)|]. split; [done|]. split; [done|]. split; [|done].
  destruct (sched_store s !! 0%nat) as [r|]; [|done]. exists r. cbn in H6. by injection H6 as <- <-.
Qed.

(** Two requests that wait for their grammar, then one that does not. *)
Definition skip_scenario : result (Scheduler Empty_set (gset string)) :=
  let cfg := demo_cfg FCFS 100 in
  s ← demo_sched FCFS 5;
  s ← put_request cfg 0 (set_status WAITING_FOR_FSM (demo_text "a" [1; 2])) s;
  s ← put_request cfg 1 (set_status WAITING_FOR_FSM (demo_text "b" [1; 2])) s;
  s ← put_request cfg 2 (demo_text "c" [1]) s;
  '(_, s) ← run_step cfg 0%Qc s;
  Ok s.

(** Requests skipped in a step are put back at the head of the waiting queue
    in reverse order: each one is prepended to the list of skipped requests,
    and that list is then put back as it is. Under FCFS the request that
    arrived second is now served first. *)
Theorem skipped_requests_reversed : exists s, skip_scenario = Ok s /\ running s = [2%nat] /\ queue_objs (waiting s) = [1; 0]%nat.
Proof.
  destruct skip_scenario as [s|e] eqn:E; [|exfalso; vm_compute in E; discriminate E]. exists s. split; [reflexivity|].
  observe E (fun s : Scheduler Empty_set (gset string) => (running s, queue_objs (waiting s))) ([2%nat], [1; 0]%nat).
  clear E. by injection Hobs as -> ->.
Qed.
