(* ===== verification/EngineProps.v ===== *)
(** The engine as a whole, over every run from a freshly started scheduler: no
    call raises, and no step is wasted. *)
From Stdlib Require Import ZArith Lia Ascii String QArith Qcanon.
From stdpp Require Import numbers gmap strings list.
From S2P Require Import Prelude FreeQueue Request BlockHash BlockPool KVSpec SingleType Coordinator KVCacheManager KVBacking KVStart Capacity EncoderCache RequestQueue SchedState Scheduler SchedulerUpdate Lifecycle SchedTerm LifecycleOps Progress EngineRuns Liveness SchedProps.

Open Scope Z_scope.

(** * A concrete engine *)

(** MIMIR, at most eight tokens a step, sequences of at most 64 tokens. *)
Definition engine_cfg : SchedConfig := demo_cfg MIMIR 8.

Definition engine_kv : KVCacheConfig := mkConfig 40 [] [mkGroup ["layers.0"%string] (FullAttentionSpec 2 demo_attn None None)].

(** Prefix caching is on: requests arrive with the hashes of their blocks. *)
Definition engine_hasher : hasher := request_block_hasher encode_hash [0] 2.

Definition engine_request (id : string) (toks : list Z) : Request :=
  demo_request id toks (chain_hashes encode_hash [0] 2 (fun _ => None) toks (length toks / 2)).

#[export] Instance demo_grammars_quiet : NoGrammarNoAdvance (gset string).
Proof. by intros r g _. Defined.

#[export] Instance engine_chain : BlockHasher (Some engine_hasher) 2 true := chain_hasher encode_hash [0] 2 true.

Lemma engine_cfg_plain : plain_config engine_cfg.
Proof. by split; vm_compute. Qed.

Lemma engine_groups : Forall (fun g => lookup_supported (kv_cache_spec g) 1 false /\ hit_block_size (kv_cache_spec g) 1 = 2) (kv_cache_groups engine_kv).
Proof. by repeat constructor. Qed.

Lemma engine_request_new :
  new_request engine_cfg (fun _ => None) (Some engine_hasher) 2 true (engine_request "a" [1; 2; 3; 4; 5]).
Proof.
  split; [|done|done|by vm_compute]. split; try done; by left.
Qed.

Definition engine_start (k : KVCacheManager) : Scheduler Empty_set (gset string) :=
  sched_start ∅ (create_request_queue MIMIR) None (enc_init 0) k None ∅.

Lemma engine_add_run k s : put_request engine_cfg 0 (engine_request "a" [1; 2; 3; 4; 5]) (engine_start k) = Ok s ->
  engine_run engine_cfg (fun _ => None) (Some engine_hasher) 2 true (engine_start k) [] s.
Proof.
  intros E. apply (run_add _ _ _ _ _ _ [] (engine_start k) 0%Qc 0 (engine_request "a" [1; 2; 3; 4; 5])); try done; [apply run_start|].
  apply engine_request_new.
Qed.

Lemma engine_add_state k : exists s, put_request engine_cfg 0 (engine_request "a" [1; 2; 3; 4; 5]) (engine_start k) = Ok s /\
  requests s = <["a"%string := 0%nat]> ∅ /\ sched_store s = <[0%nat := engine_request "a" [1; 2; 3; 4; 5]]> ∅ /\
  running s = [] /\ queue_bool (waiting s) = true.
Proof. eexists. split; [reflexivity|]. split_and!; reflexivity. Qed.

(** One request arrives and is scheduled. *)
Definition engine_demo : result (SchedulerOutput * Scheduler Empty_set (gset string)) :=
  k ← kvm_init engine_kv 64 true false false false false 1;
  s ← put_request engine_cfg 0 (engine_request "a" [1; 2; 3; 4; 5]) (engine_start k);
  run_step engine_cfg 0%Qc s.

Lemma engine_demo_run out s : engine_demo = Ok (out, s) ->
  exists k s1, kvm_init engine_kv 64 true false false false false 1 = Ok k /\
    engine_run engine_cfg (fun _ => None) (Some engine_hasher) 2 true (engine_start k) [] s1 /\
    engine_run engine_cfg (fun _ => None) (Some engine_hasher) 2 true (engine_start k) [out] s.
Proof.
  intros E. unfold engine_demo in E. apply bind_Ok in E as (k & Ek & E). apply bind_Ok in E as (s1 & E1 & E).
  exists k, s1. pose proof (engine_add_run _ _ E1). split_and!; [done|done|]. destruct (run_step_schedule _ _ _ _ _ E) as (m & ev & Es). by apply (run_schedule _ _ _ _ _ _ [] s1 0%Qc 0%Qc out m ev).
Qed.

(** The engine never raises: from a freshly started engine, whatever requests
    arrive, whatever tokens the model samples and in whatever order the steps
    are interleaved, every next call of the scheduler returns normally. *)
Theorem engine_never_raises {C G : Type} `{!KVConnector C, !StructuredOutput G, !NoGrammarNoAdvance G} (cfg : SchedConfig)
  (fs : string -> option Qc) (bh : option hasher) (bs : Z) (caching : bool) `{!BlockHasher bh bs caching}
  (kc : KVCacheConfig) (eagle use_int : bool) (dcp : Z) (k : KVCacheManager) (fd : option (list (Z * gset string)))
  (e : EncoderCacheManager) (g : G) (outs : list SchedulerOutput) (s : Scheduler C G) :
  plain_config cfg -> 0 < bs ->
  kvm_init kc (max_model_len cfg) caching eagle (log_stats cfg) false use_int dcp = Ok k ->
  Forall (fun g => lookup_supported (kv_cache_spec g) dcp eagle /\ hit_block_size (kv_cache_spec g) dcp = bs) (kv_cache_groups kc) ->
  zlen (kv_cache_groups kc) <= 2 ^ 32 ->
  engine_run cfg fs bh bs caching (sched_start ∅ (create_request_queue (policy cfg)) fd e k None g) outs s ->
  (forall now ts, exists out meta ev s', schedule cfg now ts s = Ok (out, meta, ev, s')) /\
  (forall now out rest mo, outs = out :: rest -> model_output_wf out mo ->
     exists res s', update_from_output cfg bh fs now out mo s = Ok (res, s')) /\
  (forall now o r, new_request cfg fs bh bs caching r -> sched_store s !! o = None -> requests s !! request_id r = None ->
     (forall p rp, p ∈ pinned_requests s -> sched_store s !! p.1 = Some rp -> request_id rp ≠ request_id r) ->
     exists s', sched_add_request cfg now o (set_sched_store (<[o := r]> (sched_store s)) s) = Ok s') /\
  (forall now ids st, NoDup ids -> status_is_finished st = true -> exists s', finish_requests cfg fs now ids st s = Ok s') /\
  (exists ok s', sched_reset_prefix_cache s = Ok (ok, s')).
Proof.
  intros Hcfg Hbs Hk Hg Hmany HR. set (room := room_of bs (max_model_len cfg) k).
  pose proof (start_kv_ok (C := C) cfg fs bh bs caching room Hcfg kc eagle use_int dcp k fd e g Hk Hbs Hg Hmany eq_refl) as HK0.
  pose proof (sched_start_inv (C := C) cfg ∅ fd e k None g (pc_reqs _ Hcfg)) as HI0.
  destruct (engine_run_inv cfg fs bh bs caching room Hcfg _ outs s HI0 HK0 HR) as (HI & HK & HO). split_and!.
  - intros now ts. destruct (schedule_returns cfg fs bh bs caching room Hcfg now ts s HI HK) as (? & ? & ? & ? & ? & _). eauto.
  - intros now out rest mo -> Hmo. apply Forall_cons in HO as [Ho _].
    destruct (update_returns cfg fs bh bs caching room Hcfg now out mo s Ho Hmo HI HK) as (? & ? & ? & _). eauto.
  - intros now o r Hn Ho Hid Hpin. destruct (add_returns cfg fs bh bs caching room Hcfg now o r s Hn Ho Hid Hpin HI HK) as (? & ? & _). eauto.
  - intros now ids st Hnd Hst. destruct (finish_returns cfg fs bh bs caching room now ids st s Hst Hnd HI HK) as (? & ? & _). eauto.
  - destruct (reset_returns cfg fs bh bs caching room s HI HK) as (? & ? & ? & _). eauto.
Qed.

Lemma engine_never_raises_witness :
  exists out s res s', engine_demo = Ok (out, s) /\ so_num_scheduled_tokens out = [("a"%string, 5)] /\
    update_from_output engine_cfg (Some engine_hasher) (fun _ => None) 0%Qc out (model_output [("a"%string, [6; 7])]) s = Ok (res, s').
Proof.
  destruct engine_demo as [[out s]|] eqn:E; [|by vm_compute in E]. exists out, s.
  observe E (fun x : SchedulerOutput * Scheduler Empty_set (gset string) => so_num_scheduled_tokens x.1) [("a"%string, 5)]. cbn in Hobs.
  destruct (engine_demo_run _ _ E) as (k & s1 & Ek & _ & HR).
  destruct (engine_never_raises engine_cfg (fun _ => None) (Some engine_hasher) 2 true engine_kv false false 1 k None (enc_init 0) ∅ [out] s
    engine_cfg_plain ltac:(lia) Ek engine_groups ltac:(by vm_compute) HR) as (_ & Hupd & _).
  destruct (Hupd 0%Qc out [] (model_output [("a"%string, [6; 7])]) eq_refl) as (res & s' & Eu).
  - clear E Ek HR. split_and!; [reflexivity..|]. rewrite Hobs. intros kv ->%list_elem_of_singleton. exists 0, [6; 7].
    split_and!; [reflexivity..|discriminate].
  - exists res, s'. split_and!; [reflexivity|exact Hobs|exact Eu].
Defined.

(** C6: No step is wasted. For an engine with the FCFS or MIMIR policy (not
    PRIORITY), synchronous scheduling, LoRA, KV connector and speculative
    decoding not configured, with chunked prefill and positive limits, with KV
    cache groups of supported attention types and one block size, a
    collision-free block hasher when prefix caching is on, that serves
    text-generation requests without drafts, multi-modal inputs or structured
    output, with a fresh id, at least one and fewer than max_model_len tokens,
    and a tool_duration that is absent or converts to a number, with a pool that
    can hold one sequence of the maximal length: in every state it reaches in
    which no finished request is kept for its KV cache and there is work to do
    (the first running request has uncomputed tokens, or nothing runs and a
    request waits), the next [schedule] returns and schedules at least one
    token, whatever was preempted before. *)
Theorem schedule_makes_progress {C G : Type} `{!KVConnector C, !StructuredOutput G, !NoGrammarNoAdvance G} (cfg : SchedConfig)
  (fs : string -> option Qc) (bh : option hasher) (bs : Z) (caching : bool) `{!BlockHasher bh bs caching}
  (kc : KVCacheConfig) (eagle use_int : bool) (dcp : Z) (k : KVCacheManager) (fd : option (list (Z * gset string)))
  (e : EncoderCacheManager) (g : G) (outs : list SchedulerOutput) (s : Scheduler C G) (now ts : Qc) :
  plain_config cfg -> 0 < max_num_scheduled_tokens cfg -> 0 < max_num_running_reqs cfg -> chunked_prefill_enabled cfg = true -> 0 < bs ->
  kvm_init kc (max_model_len cfg) caching eagle (log_stats cfg) false use_int dcp = Ok k ->
  Forall (fun g => lookup_supported (kv_cache_spec g) dcp eagle /\ hit_block_size (kv_cache_spec g) dcp = bs) (kv_cache_groups kc) ->
  zlen (kv_cache_groups kc) <= 2 ^ 32 -> 0 <= room_of bs (max_model_len cfg) k ->
  engine_run cfg fs bh bs caching (sched_start ∅ (create_request_queue (policy cfg)) fd e k None g) outs s ->
  all_live s -> has_work s ->
  exists out meta ev s', schedule cfg now ts s = Ok (out, meta, ev, s') /\ 0 < so_total_num_scheduled_tokens out.
Proof. apply run_progress. Qed.

Lemma schedule_makes_progress_witness :
  exists s out meta ev s',
    (k ← kvm_init engine_kv 64 true false false false false 1;
     put_request engine_cfg 0 (engine_request "a" [1; 2; 3; 4; 5]) (engine_start k)) = Ok s /\ running s = [] /\
    schedule engine_cfg 0%Qc 0%Qc s = Ok (out, meta, ev, s') /\ 0 < so_total_num_scheduled_tokens out.
Proof.
  destruct (kvm_init engine_kv 64 true false false false false 1) as [k|] eqn:Ek; [|by vm_compute in Ek].
  destruct (engine_add_state k) as (s & E & Hreg & Hstore & Hrun & Hq). cbn [mbind result_bind]. exists s.
  destruct (schedule_makes_progress engine_cfg (fun _ => None) (Some engine_hasher) 2 true engine_kv false false 1 k None (enc_init 0) ∅ [] s 0%Qc 0%Qc
    engine_cfg_plain ltac:(by vm_compute) ltac:(by vm_compute) eq_refl ltac:(lia) Ek engine_groups ltac:(by vm_compute)) as (out & meta & ev & s' & Es & Hpos).
  - observe Ek (room_of 2 64) 7. change (max_model_len engine_cfg) with 64. rewrite Hobs. lia.
  - apply engine_add_run. exact E.
  - intros rid o r Ho Hr. rewrite Hreg in Ho. rewrite Hstore in Hr. apply lookup_insert_Some in Ho as [[_ <-]|[_ Ho]]; [|by rewrite lookup_empty in Ho].
    rewrite lookup_insert_eq in Hr. by injection Hr as <-.
  - unfold has_work. rewrite Hrun. exact Hq.
  - exists out, meta, ev, s'. split_and!; [exact E|exact Hrun|exact Es|exact Hpos].
Defined.
