(* ===== verification/EngineCore.v ===== *)
(** The engine core of src/vllm/v1/engine/core.py: [EngineCore] (requests in,
    one scheduling step, the batch queue of pipeline parallelism) and the busy
    loop of [EngineCoreProc]. *)
From Stdlib Require Import ZArith Lia Ascii String QArith Qcanon.
From stdpp Require Import numbers gmap strings list.
From S2P Require Import Prelude FreeQueue Request BlockHash BlockPool KVSpec SingleType Coordinator KVCacheManager KVBacking KVStart Capacity EncoderCache RequestQueue SchedState Scheduler SchedulerUpdate Lifecycle SchedTerm LifecycleOps Progress EngineRuns Liveness SchedProps EngineProps.

Open Scope Z_scope.

(** ** The executor *)

(** What the engine core uses of the model executor (the workers): running a
    batch and waiting for it, or submitting a batch and asking for its result
    later ([Fut] is the type of futures); the pooling tasks it supports; the
    draft tokens of the last batch. *)
Class ModelExecutor (X Fut : Type) := {
  supports_pooling : Request -> X -> bool;
  execute_model : SchedulerOutput -> X -> result (ModelRunnerOutput * X);
  submit_model : SchedulerOutput -> X -> Fut * X;
  future_result : Fut -> result ModelRunnerOutput;
  take_draft_token_ids : X -> option (list string * list (list Z)) * X
}.

(** [DraftTokenIds] come as two lists, request ids and tokens. *)

Section Core.
Context {C G X Fut : Type} `{!KVConnector C, !StructuredOutput G, !ModelExecutor X Fut}.
Context (cfg : SchedConfig) (block_hasher : option hasher) (float_of_string : string -> option Qc).

Abbreviation Sched := (Scheduler C G).

(** ** State *)

(** [batch_queue] is [None] unless several batches may be in flight; the
    leftmost entry is the newest. *)
Record EngineCore := mkCore {
  ec_scheduler : Sched;
  model_executor : X;
  batch_queue_size : Z;
  batch_queue : option (list (Fut * SchedulerOutput));
  use_spec_decode : bool;
  engines_running : bool;
  output_queue : list (Z * EngineCoreOutputs)
}.

Definition set_scheduler (s : Sched) (e : EngineCore) : EngineCore :=
  mkCore s (model_executor e) (batch_queue_size e) (batch_queue e) (use_spec_decode e) (engines_running e) (output_queue e).
Definition set_executor (x : X) (e : EngineCore) : EngineCore :=
  mkCore (ec_scheduler e) x (batch_queue_size e) (batch_queue e) (use_spec_decode e) (engines_running e) (output_queue e).
Definition set_batch_queue (q : list (Fut * SchedulerOutput)) (e : EngineCore) : EngineCore :=
  mkCore (ec_scheduler e) (model_executor e) (batch_queue_size e) (Some q) (use_spec_decode e) (engines_running e) (output_queue e).
Definition put_outputs (l : list (Z * EngineCoreOutputs)) (e : EngineCore) : EngineCore :=
  mkCore (ec_scheduler e) (model_executor e) (batch_queue_size e) (batch_queue e) (use_spec_decode e) (engines_running e) (output_queue e ++ l).

(** [__init__]: [n] is the executor's [max_concurrent_batches]. *)
Definition core_init (s : Sched) (x : X) (n : Z) (spec : bool) : EngineCore :=
  mkCore s x n (if 1 <? n then Some [] else None) spec false [].

(** ** Requests *)

(** [add_request]: [o] is the new request object [r]. *)
Definition core_add_request (now : Qc) (o : nat) (r : Request) (e : EngineCore) : result EngineCore :=
  _ ← raise_if (pooling_params r && negb (supports_pooling r (model_executor e))) ValueError;
  s ← sched_add_request cfg now o (set_sched_store (<[o := r]> (sched_store (ec_scheduler e))) (ec_scheduler e));
  Ok (set_scheduler s e).

(** [abort_requests]; [finish_requests] makes a set of the ids. *)
Definition core_abort_requests (now : Qc) (ids : list string) (e : EngineCore) : result EngineCore :=
  s ← finish_requests cfg float_of_string now (remove_dups ids) FINISHED_ABORTED (ec_scheduler e);
  Ok (set_scheduler s e).

(** ** Steps *)

Definition has_unfinished_requests (s : Sched) : bool := 0 <? get_num_unfinished_requests s.
Definition has_requests (s : Sched) : bool := has_unfinished_requests s || has_finished_requests s.

(** The clock readings of a step: [time.time()] and [time.monotonic()] in
    [schedule], [time.time()] in [update_from_output]. *)
Record Clock := mkClock { wall : Qc; monotonic : Qc; wall_after : Qc }.

(** [step]. *)
Definition step (t : Clock) (e : EngineCore) : result (option (list (Z * EngineCoreOutputs)) * bool * EngineCore) :=
  if negb (has_requests (ec_scheduler e)) then Ok (Some [], false, e) else
  res ← schedule cfg (wall t) (monotonic t) (ec_scheduler e);
  let '(out, _, _, s) := (res : SchedulerOutput * option ConnMeta * list KVCacheEvent * Sched) in
  '(mo, x) ← execute_model out (model_executor e);
  '(outs, s) ← update_from_output cfg block_hasher float_of_string (wall_after t) out mo s;
  Ok (Some outs, 0 <? so_total_num_scheduled_tokens out, set_executor x (set_scheduler s e)).

(** The end of [step_with_batch_queue]: wait for the oldest batch. *)
Definition finish_batch (t : Clock) (executed : bool) (q : list (Fut * SchedulerOutput)) (e : EngineCore)
  : result (option (list (Z * EngineCoreOutputs)) * bool * EngineCore) :=
  p ← get_or IndexError (last q);
  let q := take (length q - 1) q in
  mo ← future_result p.1;
  '(outs, s) ← update_from_output cfg block_hasher float_of_string (wall_after t) p.2 mo (ec_scheduler e);
  Ok (Some outs, executed, set_batch_queue q (set_scheduler s e)).

(** [step_with_batch_queue]; [done] is whether the oldest batch has finished
    when the step asks. *)
Definition step_with_batch_queue (t : Clock) (done : bool) (e : EngineCore)
  : result (option (list (Z * EngineCoreOutputs)) * bool * EngineCore) :=
  q ← get_or AssertionError (batch_queue e);
  _ ← assert_ (zlen q <? batch_queue_size e);
  if has_requests (ec_scheduler e) then
    res ← schedule cfg (wall t) (monotonic t) (ec_scheduler e);
    let '(out, _, _, s) := (res : SchedulerOutput * option ConnMeta * list KVCacheEvent * Sched) in
    let '(f, x) := submit_model out (model_executor e) in
    let q := (f, out) :: q in
    let e := set_batch_queue q (set_executor x (set_scheduler s e)) in
    let model_executed := 0 <? so_total_num_scheduled_tokens out in
    if model_executed && (zlen q <? batch_queue_size e) && negb done then Ok (None, true, e)
    else finish_batch t model_executed q e
  else match q with
  | [] => Ok (None, false, e)
  | _ => finish_batch t false q e
  end.

Definition post_step (model_executed : bool) (e : EngineCore) : result EngineCore :=
  if use_spec_decode e && model_executed then
    let '(drafts, x) := take_draft_token_ids (model_executor e) in
    let e := set_executor x e in
    match drafts with
    | None => Ok e
    | Some (ids, toks) => s ← update_draft_token_ids ids toks (ec_scheduler e); Ok (set_scheduler s e)
    end
  else Ok e.

(** ** The busy loop *)

(** [_process_engine_step] with [step_fn]. *)
Definition process_engine_step (t : Clock) (done : bool) (e : EngineCore) : result (bool * EngineCore) :=
  res ← (match batch_queue e with None => step t e | Some _ => step_with_batch_queue t done e end);
  let '(outs, executed, e) := (res : option (list (Z * EngineCoreOutputs)) * bool * EngineCore) in
  let e := put_outputs (default [] outs) e in
  e ← post_step executed e;
  Ok (executed, e).

(** Messages from the clients. A utility call that does not touch the scheduler
    is [OtherUtility]. *)
Inductive ClientRequest :=
| ADD (now : Qc) (o : nat) (r : Request)
| ABORT (now : Qc) (ids : list string)
| ResetPrefixCache
| OtherUtility
| EXECUTOR_FAILED.

(** [_handle_client_request]; a utility method's exception is sent back and
    does not reach the loop. *)
Definition handle_client_request (e : EngineCore) (req : ClientRequest) : result EngineCore :=
  match req with
  | ADD now o r => core_add_request now o r e
  | ABORT now ids => core_abort_requests now ids e
  | ResetPrefixCache =>
      match sched_reset_prefix_cache (ec_scheduler e) with
      | Ok (_, s) => Ok (set_scheduler s e)
      | Err _ => Ok e
      end
  | OtherUtility => Ok e
  | EXECUTOR_FAILED => Err RuntimeError
  end.

(** The condition under which [_process_input_queue] does not block. *)
Definition has_work_to_do (e : EngineCore) : bool :=
  engines_running e || has_requests (ec_scheduler e) || match batch_queue e with Some (_ :: _) => true | _ => false end.

(** One iteration of [run_busy_loop], with the messages that arrive in it: all
    are handled, in order; without work the loop blocks until the next message. *)
Definition busy_iteration (inputs : list ClientRequest) (t : Clock) (done : bool) (e : EngineCore) : result EngineCore :=
  e ← foldM handle_client_request e inputs;
  if has_work_to_do e then '(_, e) ← process_engine_step t done e; Ok e else Ok e.
End Core.
Arguments EngineCore C G X Fut : clear implicits.

(** * The core never dies *)

(** What the engine core relies on: a batch the scheduler made is executed, and
    the answer covers the scheduled requests. *)
Class ExecutorWf (X Fut : Type) `{!ModelExecutor X Fut} : Prop := {
  execute_wf out x : output_wf out -> exists mo x', execute_model out x = Ok (mo, x') /\ model_output_wf out mo;
  submit_wf out x : output_wf out -> exists mo, future_result (submit_model out x).1 = Ok mo /\ model_output_wf out mo
}.

Section Runs.
Context {C G X Fut : Type} `{!KVConnector C, !StructuredOutput G, !NoGrammarNoAdvance G, !ModelExecutor X Fut, !ExecutorWf X Fut}.
Context (cfg : SchedConfig) (fs : string -> option Qc) (bh : option hasher) (bs : Z) (caching : bool) `{!BlockHasher bh bs caching} (room : Z).
Hypothesis Hcfg : plain_config cfg.
Context (s0 : Scheduler C G).
Hypotheses (HI0 : sched_inv cfg s0) (HK0 : Progress.kv_ok cfg fs bh bs caching room [] s0).

Abbreviation Core := (EngineCore C G X Fut).
Notation engine_run := (EngineRuns.engine_run cfg fs bh bs caching s0).

(** The batches in flight, oldest first. *)
Definition in_flight (e : Core) : list SchedulerOutput :=
  match batch_queue e with None => [] | Some q => reverse q.*2 end.

(** A message the client may send in this state: new requests have fresh ids. *)
Definition admissible (req : ClientRequest) (e : Core) : Prop :=
  match req with
  | ADD now o r => new_request cfg fs bh bs caching r /\ sched_store (ec_scheduler e) !! o = None /\
      requests (ec_scheduler e) !! request_id r = None /\
      (forall p rp, p ∈ pinned_requests (ec_scheduler e) -> sched_store (ec_scheduler e) !! p.1 = Some rp -> request_id rp ≠ request_id r)
  | EXECUTOR_FAILED => False
  | _ => True
  end.

(** The states of a core that was started with scheduler [s0]. *)
Inductive core_run (x0 : X) (n : Z) : Core -> Prop :=
| core_start : core_run x0 n (core_init s0 x0 n false)
| core_input e req e' : core_run x0 n e -> admissible req e -> handle_client_request cfg fs e req = Ok e' -> core_run x0 n e'
| core_step e t done b e' : core_run x0 n e -> process_engine_step cfg bh fs t done e = Ok (b, e') -> core_run x0 n e'.

Record core_ok (e : Core) : Prop := mkCoreOk {
  co_run : engine_run (in_flight e) (ec_scheduler e);
  co_futures : forall q f out, batch_queue e = Some q -> (f, out) ∈ q -> exists mo, future_result f = Ok mo /\ model_output_wf out mo;
  co_size : forall q, batch_queue e = Some q -> zlen q < batch_queue_size e;
  co_spec : use_spec_decode e = false
}.

Lemma run_facts outs s : engine_run outs s -> sched_inv cfg s /\ Progress.kv_ok cfg fs bh bs caching room [] s /\ Forall output_wf outs.
Proof using Hcfg HI0 HK0 NoGrammarNoAdvance0. apply engine_run_inv; done. Qed.

(** A new state with the same queue. *)
Lemma core_ok_sched (e : Core) s : core_ok e -> engine_run (in_flight e) s -> core_ok (set_scheduler s e).
Proof. intros [H1 H2 H3 H4] HR. by split. Qed.

Lemma handle_returns (e : Core) req : core_ok e -> admissible req e -> exists e', handle_client_request cfg fs e req = Ok e' /\ core_ok e'.
Proof using Hcfg HI0 HK0 NoGrammarNoAdvance0.
  intros HC Ha. pose proof (co_run _ HC) as HR. destruct (run_facts _ _ HR) as (HI & HK & _). destruct req as [now o r|now ids| | |]; cbn [handle_client_request]; try done; [| | |by exists e].
  - destruct Ha as (Hn & Ho & Hid & Hp). unfold core_add_request.
    rewrite (pl_pooling _ _ _ _ _ (nw_plain _ _ _ _ _ _ Hn)). cbn [andb raise_if mbind result_bind].
    destruct (add_returns cfg fs bh bs caching room Hcfg now o r _ Hn Ho Hid Hp HI HK) as (s' & E & _). rewrite E. cbn [mbind result_bind].
    eexists. split; [done|]. apply core_ok_sched; [done|]. by eapply run_add.
  - unfold core_abort_requests. destruct (finish_returns cfg fs bh bs caching room now (remove_dups ids) FINISHED_ABORTED _ eq_refl (NoDup_remove_dups ids) HI HK) as (s' & E & _).
    rewrite E. cbn [mbind result_bind]. eexists. split; [done|]. apply core_ok_sched; [done|]. eapply run_finish; [done|apply (NoDup_remove_dups ids)| |exact E]. done.
  - destruct (reset_returns cfg fs bh bs caching room _ HI HK) as (ok & s' & E & _). rewrite E. eexists. split; [done|].
    apply core_ok_sched; [done|]. by eapply run_reset.
Qed.

Lemma step_returns t (e : Core) : core_ok e -> batch_queue e = None -> exists r b e', step cfg bh fs t e = Ok (r, b, e') /\ core_ok e' .
Proof using Hcfg HI0 HK0 NoGrammarNoAdvance0 ExecutorWf0.
  intros HC Hq. pose proof (co_run _ HC) as HR. destruct (run_facts _ _ HR) as (HI & HK & _). unfold step.
  destruct (negb _); [by eexists _, _, _|].
  destruct (schedule_returns cfg fs bh bs caching room Hcfg (wall t) (monotonic t) _ HI HK) as (out & meta & ev & s1 & E1 & HI1 & HK1 & Hwf). rewrite E1. cbn [mbind result_bind].
  destruct (execute_wf out (model_executor e) Hwf) as (mo & x' & E2 & Hmo). rewrite E2. cbn [mbind result_bind].
  destruct (update_returns cfg fs bh bs caching room Hcfg (wall_after t) out mo s1 Hwf Hmo HI1 HK1) as (outs & s2 & E3 & _). rewrite E3. cbn [mbind result_bind].
  eexists _, _, _. split; [done|]. destruct HC as [H1 H2 H3 H4]. unfold in_flight in H1. rewrite Hq in H1.
  split; cbn; try done. unfold in_flight. cbn. rewrite Hq. eapply EngineRuns.run_update; [|exact Hmo|exact E3]. eapply (EngineRuns.run_schedule _ _ _ _ _ _ []); [exact H1|exact E1].
Qed.

(** Waiting for the oldest batch. *)
Lemma finish_batch_returns t b q (e : Core) : batch_queue e = Some q -> q ≠ [] -> use_spec_decode e = false -> zlen q <= batch_queue_size e ->
  engine_run (reverse q.*2) (ec_scheduler e) -> (forall f out, (f, out) ∈ q -> exists mo, future_result f = Ok mo /\ model_output_wf out mo) ->
  exists r e', finish_batch cfg bh fs t b q e = Ok (r, b, e') /\ core_ok e' /\ (exists q', batch_queue e' = Some q').
Proof using Hcfg HI0 HK0 NoGrammarNoAdvance0.
  intros Hq Hne Hsp Hsz HR Hf. destruct (exists_last Hne) as (q' & [f out] & ->). unfold finish_batch. rewrite last_snoc. cbn [get_or mbind result_bind fst snd].
  destruct (Hf f out) as (mo & E & Hmo); [apply elem_of_app; right; by left|]. rewrite E. cbn [mbind result_bind].
  rewrite fmap_app, reverse_app in HR. cbn in HR. destruct (run_facts _ _ HR) as (HI & HK & Hwf). apply Forall_cons in Hwf as [Hwf _].
  destruct (update_returns cfg fs bh bs caching room Hcfg (wall_after t) out mo _ Hwf Hmo HI HK) as (outs & s2 & E3 & _). rewrite E3. cbn [mbind result_bind].
  eexists _, _. split; [done|]. rewrite length_app, Nat.add_sub, take_app_length. split; [|by eexists]. rewrite zlen_app in Hsz. split; cbn; try done.
  - unfold in_flight. cbn. by eapply EngineRuns.run_update.
  - intros q f' out' [= <-] Hin. apply Hf. apply elem_of_app. by left.
  - intros q [= <-]. unfold zlen in *. cbn in Hsz. lia.
Qed.

Lemma batch_step_returns t done (e : Core) q : core_ok e -> batch_queue e = Some q ->
  exists r b e', step_with_batch_queue cfg bh fs t done e = Ok (r, b, e') /\ core_ok e' /\ (exists q', batch_queue e' = Some q').
Proof using Hcfg HI0 HK0 NoGrammarNoAdvance0 ExecutorWf0.
  intros HC Hq. pose proof (co_run _ HC) as HR. destruct (run_facts _ _ HR) as (HI & HK & _). unfold in_flight in HR. rewrite Hq in HR.
  pose proof (co_size _ HC q Hq) as Hsz. unfold step_with_batch_queue. rewrite Hq. cbn [get_or mbind result_bind].
  replace (zlen q <? batch_queue_size e) with true by (symmetry; by apply Z.ltb_lt). cbn [assert_ mbind result_bind].
  destruct (has_requests (ec_scheduler e)).
  - destruct (schedule_returns cfg fs bh bs caching room Hcfg (wall t) (monotonic t) _ HI HK) as (out & meta & ev & s1 & E1 & HI1 & HK1 & Hwf). rewrite E1. cbn [mbind result_bind].
    destruct (submit_model out (model_executor e)) as [f x] eqn:Es. destruct (submit_wf out (model_executor e) Hwf) as (mo & Ef & Hmo). rewrite Es in Ef.
    set (e1 := set_batch_queue ((f, out) :: q) (set_executor x (set_scheduler s1 e))).
    assert (HR1 : engine_run (reverse ((f, out) :: q).*2) s1) by (rewrite fmap_cons, reverse_cons; by eapply EngineRuns.run_schedule).
    assert (Hf1 : forall f' out', (f', out') ∈ (f, out) :: q -> exists mo, future_result f' = Ok mo /\ model_output_wf out' mo).
    { intros f' out' [[= -> ->]|Hin]%elem_of_cons; [by exists mo|]. by eapply (co_futures _ HC). }
    destruct (_ && _ && _) eqn:Ec.
    + eexists _, _, _. split; [done|]. split; [|by eexists]. apply andb_prop in Ec as [Ec _]. apply andb_prop in Ec as [_ Ec]. apply Z.ltb_lt in Ec.
      split; cbn; try done; [by intros q' f' out' [= <-]; apply Hf1|by intros q' [= <-]|apply HC].
    + destruct (finish_batch_returns t (0 <? so_total_num_scheduled_tokens out) ((f, out) :: q) e1) as (r & e' & E & ?); try done; [apply HC|rewrite zlen_cons; cbn; lia|].
      eexists _, _, _. by split.
  - destruct q as [|p q]; [by eexists _, _, _; split; [done|split; [done|by eexists]]|].
    destruct (finish_batch_returns t false (p :: q) e) as (r & e' & E & ?); try done; [apply HC|lia|intros f out; by eapply (co_futures _ HC)|].
    eexists _, _, _. by split.
Qed.

Lemma process_returns t done (e : Core) : core_ok e -> exists b e', process_engine_step cfg bh fs t done e = Ok (b, e') /\ core_ok e'.
Proof using Hcfg HI0 HK0 NoGrammarNoAdvance0 ExecutorWf0.
  intros HC. unfold process_engine_step.
  assert (H : exists r b e1, (match batch_queue e with None => step cfg bh fs t e | Some _ => step_with_batch_queue cfg bh fs t done e end) = Ok (r, b, e1) /\ core_ok e1).
  { destruct (batch_queue e) as [q|] eqn:Hq; [|by apply step_returns]. destruct (batch_step_returns t done e q HC Hq) as (r & b & e1 & ? & ? & _). eauto. }
  destruct H as (r & b & e1 & -> & HC1). cbn [mbind result_bind]. unfold post_step. cbn [use_spec_decode put_outputs]. rewrite (co_spec _ HC1). cbn [andb mbind result_bind].
  eexists _, _. split; [done|]. destruct HC1 as [H1 H2 H3 H4]. by split.
Qed.

Lemma core_init_ok x0 n : core_ok (core_init s0 x0 n false).
Proof.
  unfold core_init. split; cbn.
  - unfold in_flight. cbn. destruct (1 <? n); apply run_start.
  - destruct (1 <? n); [|done]. intros q f out [= <-]. by intros ?%elem_of_nil.
  - destruct (Z.ltb_spec 1 n); [|done]. intros q [= <-]. change (0 < n). lia.
  - done.
Qed.

Lemma core_run_ok x0 n e : core_run x0 n e -> core_ok e.
Proof using Hcfg HI0 HK0 NoGrammarNoAdvance0 ExecutorWf0.
  induction 1 as [|e req e' HR IH Ha E|e t done b e' HR IH E]; [apply core_init_ok|..].
  - destruct (handle_returns e req IH Ha) as (e1 & E1 & ?). rewrite E1 in E. by injection E as <-.
  - destruct (process_returns t done e IH) as (b1 & e1 & E1 & ?). rewrite E1 in E. by injection E as _ <-.
Qed.
End Runs.

(** ** Going idle *)

Section Idle.
Context {C G : Type} `{!KVConnector C, !StructuredOutput G}.
Context (cfg : SchedConfig) (fs : string -> option Qc) (bh : option hasher).
Hypothesis Hcfg : plain_config cfg.
Abbreviation Sched := (Scheduler C G).

(** Nothing runs or waits. *)
Definition empty_queues (s : Sched) : Prop := running s = [] /\ queue_len (waiting s) = 0.

Lemma unfinished_zero (s : Sched) : get_num_unfinished_requests s = 0 <-> empty_queues s.
Proof.
  unfold get_num_unfinished_requests, empty_queues. rewrite queue_len_objs. unfold zlen. destruct (running s), (queue_objs (waiting s)); cbn; split; try naive_solver lia.
Qed.

Lemma expire_queues now (s s' : Sched) : mimir_expire_pins now s = Ok s' -> running s' = running s /\ waiting s' = waiting s.
Proof.
  unfold mimir_expire_pins. intros E. apply bind_Ok in E as ([still s1] & E & E1). injection E1 as <-. cbn.
  apply (foldM_inv (fun acc : list (nat * Qc) * Sched => running acc.2 = running s /\ waiting acc.2 = waiting s) (expire_one now)) in E; [done| |done].
  intros [st s0] p [st' s2] _ [H1 H2] Ep. cbn [snd] in *. unfold expire_one in Ep. destruct (decide _); [|by injection Ep as _ <-].
  apply bind_Ok in Ep as (r & _ & Ep). destruct (decide _); [|by injection Ep as _ <-]. apply bind_Ok in Ep as (s3 & E3 & Ep). injection Ep as _ <-.
  destruct (free_blocks_of_spec _ _ _ E3) as (r' & k & _ & _ & _ & _ & ->). done.
Qed.

(** A step without requests schedules nothing and forgets the finished ids. *)
Lemma schedule_idle now ts (s : Sched) out meta ev s' : empty_queues s -> schedule cfg now ts s = Ok (out, meta, ev, s') ->
  empty_queues s' /\ finished_req_ids s' = ∅ /\ so_num_scheduled_tokens out = [] /\ so_total_num_scheduled_tokens out = 0.
Proof using Hcfg.
  intros He E. unfold schedule in E. apply bind_Ok in E as (s0 & E0 & E).
  assert (He0 : empty_queues s0).
  { destruct (decide _); [|by injection E0 as <-]. destruct (expire_queues _ _ _ E0) as [H1 H2]. unfold empty_queues. by rewrite H1, H2. }
  destruct He0 as [Hr Hw]. apply bind_Ok in E as ([a s1] & E1 & E). cbv beta iota in E.
  assert (Hl : a = step_init cfg /\ s1 = s0).
  { unfold schedule_loops in E1. rewrite Hr in E1. cbn [length running_loop] in E1. rewrite Hr in E1. cbn [Nat.ltb Nat.leb length andb negb mbind result_bind] in E1.
    unfold record_loras in E1. rewrite (pc_loras _ Hcfg), Hw in E1. cbn [mbind result_bind] in E1. rewrite decide_True in E1 by done.
    cbn [waiting_loop Z.to_nat] in E1.
    assert (Hb : queue_bool (waiting s0) = false) by (unfold queue_bool; by rewrite Hw). rewrite Hb in E1. cbn [negb andb mbind result_bind] in E1.
    assert (Hq : queue_bool (skipped_waiting_requests (step_init cfg)) = false) by (by unfold queue_bool, step_init; cbn; destruct (policy cfg)).
    rewrite Hq in E1. by injection E1 as <- <-. }
  destruct Hl as [-> ->].
  apply bind_Ok in E as (total & Et & E). apply bind_Ok in E as ([out' s2] & E2 & E). cbv beta iota in E.
  assert (Htot : total = 0) by (unfold check_constraints in Et; inv_ok; done). subst total.
  destruct (make_output_core cfg _ _ _ _ _ E2) as (Hc2 & Hn & Ht & _). apply bind_Ok in E as ([[m e] s3] & E3 & E). cbv beta iota in E.
  apply collect_events_core in E3. apply bind_Ok in E as (s4 & E4 & E). injection E as <- <- <- <-.
  unfold update_after_schedule in E4. rewrite Hn, (pc_sync _ Hcfg) in E4. cbn in E4. injection E4 as <-.
  destruct Hc2 as (_ & _ & H3 & H4 & _), E3 as (_ & _ & H5 & H6 & _). unfold empty_queues. cbn. rewrite H5, H6, H3, H4. done.
Qed.

Lemma update_idle now out mo (s : Sched) outs s' : so_num_scheduled_tokens out = [] -> kv_connector_output mo = None ->
  update_from_output cfg bh fs now out mo s = Ok (outs, s') -> running s' = running s /\ waiting s' = waiting s /\ finished_req_ids s' = finished_req_ids s.
Proof.
  intros Ho Hc E. unfold update_from_output in E. rewrite Ho, Hc in E. cbn [foldM mbind result_bind stopped_running_reqs stopped_preempted_reqs] in E.
  rewrite !decide_True in E by done. cbn [mbind result_bind] in E. unfold assemble_outputs in E.
  destruct (match finished_req_ids_dict s with Some ((_ :: _) as d) => _ | _ => _ end) as [ecos s1] eqn:E1.
  assert (H1 : running s1 = running s /\ waiting s1 = waiting s /\ finished_req_ids s1 = finished_req_ids s).
  { destruct (finished_req_ids_dict s) as [[|x d]|]; by injection E1 as _ <-. }
  apply bind_Ok in E as ([stats s2] & E2 & E). cbv beta iota in E.
  assert (s' = s2) as -> by (destruct stats as [st|]; [|by injection E]; destruct ecos as [|[c eco] rest]; by injection E).
  unfold make_stats in E2. destruct (negb _); [by injection E2 as _ <-|]. destruct (make_prefix_cache_stats _) as [ps k].
  apply bind_Ok in E2 as (ps' & _ & E2). apply bind_Ok in E2 as (rs & _ & E2). by injection E2 as _ <-.
Qed.
End Idle.

(** C7: The engine core does not die of plain requests. For an engine with the
    FCFS or MIMIR policy (not PRIORITY), synchronous scheduling, LoRA, KV
    connector and speculative decoding not configured, KV cache groups of
    supported attention types and one block size, a collision-free block hasher
    when prefix caching is on, and an executor that does not fail and answers
    for the scheduled requests: from a fresh start, with or without a batch
    queue, over every sequence of steps and of client messages other than an
    executor failure whose new requests are text-generation requests without
    drafts, multi-modal inputs or structured output, with a fresh id, at least
    one and fewer than max_model_len tokens, and a tool_duration that is absent
    or converts to a number, and whether or not the oldest batch is done when a
    step asks, the next such message and the next step of the busy loop return
    normally. The batch queue never exceeds its bound, and the batches in
    flight, oldest first, are exactly the outputs the scheduler still waits for:
    they are processed in the order they were scheduled. *)
Theorem engine_core_never_dies {C G X Fut : Type} `{!KVConnector C, !StructuredOutput G, !NoGrammarNoAdvance G, !ModelExecutor X Fut, !ExecutorWf X Fut}
  (cfg : SchedConfig) (fs : string -> option Qc) (bh : option hasher) (bs : Z) (caching : bool) `{!BlockHasher bh bs caching}
  (kc : KVCacheConfig) (eagle use_int : bool) (dcp : Z) (k : KVCacheManager) (fd : option (list (Z * gset string)))
  (enc : EncoderCacheManager) (g : G) (x0 : X) (n : Z) (e : EngineCore C G X Fut) :
  plain_config cfg -> 0 < bs ->
  kvm_init kc (max_model_len cfg) caching eagle (log_stats cfg) false use_int dcp = Ok k ->
  Forall (fun g => lookup_supported (kv_cache_spec g) dcp eagle /\ hit_block_size (kv_cache_spec g) dcp = bs) (kv_cache_groups kc) ->
  zlen (kv_cache_groups kc) <= 2 ^ 32 ->
  let s0 := sched_start ∅ (create_request_queue (policy cfg)) fd enc k None g in
  core_run cfg fs bh bs caching s0 x0 n e ->
  EngineRuns.engine_run cfg fs bh bs caching s0 (in_flight e) (ec_scheduler e) /\
  (forall q, batch_queue e = Some q -> zlen q < batch_queue_size e) /\
  (forall req, admissible cfg fs bh bs caching req e -> exists e', handle_client_request cfg fs e req = Ok e') /\
  (forall t done, exists b e', process_engine_step cfg bh fs t done e = Ok (b, e')).
Proof.
  intros Hcfg Hbs Hk Hg Hmany s0 HR. set (room := room_of bs (max_model_len cfg) k).
  pose proof (start_kv_ok (C := C) cfg fs bh bs caching room Hcfg kc eagle use_int dcp k fd enc g Hk Hbs Hg Hmany eq_refl) as HK0.
  pose proof (sched_start_inv (C := C) cfg ∅ fd enc k None g (pc_reqs _ Hcfg)) as HI0.
  pose proof (core_run_ok cfg fs bh bs caching room Hcfg s0 HI0 HK0 x0 n e HR) as HC. split_and!.
  - apply HC.
  - apply HC.
  - intros req Ha. destruct (handle_returns cfg fs bh bs caching room Hcfg s0 HI0 HK0 e req HC Ha) as (? & ? & _). eauto.
  - intros t done. destruct (process_returns cfg fs bh bs caching room Hcfg s0 HI0 HK0 t done e HC) as (? & ? & ? & _). eauto.
Qed.

(** An executor that samples the token 7 for every request. *)
Definition sevens (out : SchedulerOutput) : ModelRunnerOutput :=
  mkModelOutput (gset_to_gmap 0 (list_to_set (so_num_scheduled_tokens out).*1)) [[7]] false ∅ [] None None.

#[export] Instance demo_executor : ModelExecutor unit ModelRunnerOutput := {|
  supports_pooling := fun _ _ => false;
  execute_model := fun out x => Ok (sevens out, x);
  submit_model := fun out x => (sevens out, x);
  future_result := fun f => Ok f;
  take_draft_token_ids := fun x => (None, x)
|}.

Lemma sevens_wf out : model_output_wf out (sevens out).
Proof.
  split; [done|]. split; [done|]. intros kv Hkv. exists 0, [7]. split_and!; try done. cbn. apply lookup_gset_to_gmap_Some. split; [|done].
  apply elem_of_list_to_set. by apply list_elem_of_fmap_2.
Qed.

#[export] Instance demo_executor_wf : ExecutorWf unit ModelRunnerOutput.
Proof.
  split; intros out x _; [exists (sevens out), x|exists (sevens out)]; (split; [done|apply sevens_wf]).
Qed.

(** A core with room for two batches, after one message and one step. *)
Definition core_demo : result (bool * EngineCore Empty_set (gset string) unit ModelRunnerOutput) :=
  k ← kvm_init engine_kv 64 true false false false false 1;
  e ← handle_client_request engine_cfg (fun _ => None) (core_init (engine_start k) tt 2 false) (ADD 0%Qc 0 (engine_request "a" [1; 2; 3; 4; 5]));
  process_engine_step engine_cfg (Some engine_hasher) (fun _ => None) (mkClock 0%Qc 0%Qc 0%Qc) false e.

Lemma engine_core_never_dies_witness :
  exists b e b' e', core_demo = Ok (b, e) /\ option_map (@length _) (batch_queue e) = Some 1%nat /\
    process_engine_step engine_cfg (Some engine_hasher) (fun _ => None) (mkClock 1%Qc 1%Qc 1%Qc) true e = Ok (b', e').
Proof.
  destruct core_demo as [[b e]|] eqn:E; [|by vm_compute in E]. exists b, e.
  observe E (fun x : bool * EngineCore Empty_set (gset string) unit ModelRunnerOutput => option_map (@length _) (batch_queue x.2)) (Some 1%nat).
  assert (H : exists k, kvm_init engine_kv 64 true false false false false 1 = Ok k /\
    core_run engine_cfg (fun _ => None) (Some engine_hasher) 2 true (engine_start k) tt 2 e).
  { unfold core_demo in E. apply bind_Ok in E as (k & Ek & E). apply bind_Ok in E as (e1 & E1 & E). exists k. split; [exact Ek|]. clear Hobs.
    eapply core_step; [|exact E]. eapply core_input; [apply core_start| |exact E1]. split; [apply engine_request_new|].
    split; [reflexivity|]. split; [reflexivity|]. by intros p rp ?%elem_of_nil. }
  destruct H as (k & Ek & HR).
  destruct (engine_core_never_dies engine_cfg (fun _ => None) (Some engine_hasher) 2 true engine_kv false false 1 k None (enc_init 0) ∅ tt 2 e
    engine_cfg_plain ltac:(lia) Ek engine_groups ltac:(by vm_compute) HR) as (_ & _ & _ & Hstep).
  destruct (Hstep (mkClock 1%Qc 1%Qc 1%Qc) true) as (b' & e' & Es). exists b', e'. split_and!; [reflexivity|exact Hobs|exact Es].
Defined.

(** The scheduler is done after a step on [out]. *)
Lemma idle_requests {C G : Type} (s s' : Scheduler C G) : empty_queues s -> finished_req_ids s = ∅ ->
  running s' = running s /\ waiting s' = waiting s /\ finished_req_ids s' = finished_req_ids s -> has_requests s' = false.
Proof.
  intros [H1 H2] H3 (E1 & E2 & E3). unfold has_requests, has_unfinished_requests, has_finished_requests.
  rewrite E3, H3, bool_decide_true by done. replace (get_num_unfinished_requests s') with 0; [done|]. symmetry. apply unfinished_zero.
  unfold empty_queues. by rewrite E1, E2.
Qed.

(** The engine goes idle: when no request is left running or waiting and no batch
    is in flight, the next step (which still tells the workers about the
    finished requests) executes nothing, and afterwards the scheduler has no
    requests and the queue no batches, so that the busy loop blocks until the
    next message. *)
Theorem engine_goes_idle {C G X Fut : Type} `{!KVConnector C, !StructuredOutput G, !ModelExecutor X Fut}
  (cfg : SchedConfig) (fs : string -> option Qc) (bh : option hasher) (t : Clock) (done b : bool) (e e' : EngineCore C G X Fut) :
  plain_config cfg ->
  (forall out x mo x', execute_model out x = Ok (mo, x') -> kv_connector_output mo = None) ->
  (forall out x mo, future_result (submit_model out x).1 = Ok mo -> kv_connector_output mo = None) ->
  get_num_unfinished_requests (ec_scheduler e) = 0 -> in_flight e = [] -> use_spec_decode e = false ->
  process_engine_step cfg bh fs t done e = Ok (b, e') ->
  b = false /\ has_requests (ec_scheduler e') = false /\ in_flight e' = [] /\ has_work_to_do e' = engines_running e.
Proof.
  intros Hcfg Hx Hf Hu Hq Hsp E. apply unfinished_zero in Hu. unfold process_engine_step in E.
  apply bind_Ok in E as ([[outs b1] e1] & E1 & E). cbv beta iota in E.
  enough (H : b1 = false /\ has_requests (ec_scheduler e1) = false /\ in_flight e1 = [] /\ engines_running e1 = engines_running e /\ use_spec_decode e1 = false).
  { destruct H as (-> & H1 & H2 & H3 & H4). unfold post_step in E. cbn [use_spec_decode put_outputs] in E. rewrite H4 in E. cbn in E. injection E as <- <-.
    split_and!; try done. unfold has_work_to_do. cbn. rewrite H1, H3. unfold in_flight in H2. destruct (batch_queue e1) as [[|p q]|]; [by rewrite !orb_false_r| |by rewrite !orb_false_r].
    exfalso. rewrite fmap_cons, reverse_cons in H2. by apply app_nil in H2 as [_ ?]. }
  assert (Hidle : has_requests (ec_scheduler e) = false -> b1 = false -> e1 = e ->
    b1 = false /\ has_requests (ec_scheduler e1) = false /\ in_flight e1 = [] /\ engines_running e1 = engines_running e /\ use_spec_decode e1 = false) by (by intros ? -> ->).
  destruct (batch_queue e) as [q|] eqn:Eq.
  - assert (q = []) as ->.
    { unfold in_flight in Hq. rewrite Eq in Hq. destruct q as [|p q]; [done|]. rewrite fmap_cons, reverse_cons in Hq. by apply app_nil in Hq as [_ ?]. }
    unfold step_with_batch_queue in E1. rewrite Eq in E1. cbn [get_or mbind result_bind] in E1. apply bind_Ok in E1 as ([] & _ & E1).
    destruct (has_requests (ec_scheduler e)) eqn:Eh; [|injection E1 as <- <- <-; by apply Hidle].
    apply bind_Ok in E1 as ([[[out m] ev] s1] & Es & E1). cbv beta iota in E1.
    destruct (schedule_idle cfg Hcfg _ _ _ _ _ _ _ Hu Es) as (He1 & Hfin & Hn & Ht). rewrite Ht in E1.
    destruct (submit_model out (model_executor e)) as [f x] eqn:Esub. cbn [Z.ltb Z.compare andb] in E1. unfold finish_batch in E1. cbn [last get_or mbind result_bind length take fst snd] in E1.
    apply bind_Ok in E1 as (mo & Emo & E1). apply bind_Ok in E1 as ([outs1 s2] & Eu & E1). cbv beta iota in E1. injection E1 as <- <- <-.
    pose proof (Hf out (model_executor e) mo ltac:(by rewrite Esub)) as Hc. pose proof (update_idle cfg fs bh _ _ _ _ _ _ Hn Hc Eu) as Hup.
    split_and!; try done. by eapply idle_requests.
  - unfold step in E1. destruct (has_requests (ec_scheduler e)) eqn:Eh; cbn [negb] in E1; [|injection E1 as <- <- <-; by apply Hidle].
    apply bind_Ok in E1 as ([[[out m] ev] s1] & Es & E1). cbv beta iota in E1.
    destruct (schedule_idle cfg Hcfg _ _ _ _ _ _ _ Hu Es) as (He1 & Hfin & Hn & Ht). rewrite Ht in E1.
    apply bind_Ok in E1 as ([mo x] & Emo & E1). cbv beta iota in E1. apply bind_Ok in E1 as ([outs1 s2] & Eu & E1). cbv beta iota in E1. injection E1 as <- <- <-.
    pose proof (update_idle cfg fs bh _ _ _ _ _ _ Hn (Hx _ _ _ _ Emo) Eu) as Hup.
    split_and!; try done. by eapply idle_requests.
Qed.

(** A request is aborted before its first step. *)
Definition aborted_demo : result (EngineCore Empty_set (gset string) unit ModelRunnerOutput) :=
  k ← kvm_init engine_kv 64 true false false false false 1;
  foldM (handle_client_request engine_cfg (fun _ => None)) (core_init (engine_start k) tt 1 false)
    [ADD 0%Qc 0 (engine_request "a" [1; 2; 3; 4; 5]); ABORT 0%Qc ["a"; "a"]%string].

Lemma engine_goes_idle_witness :
  exists e b e', aborted_demo = Ok e /\ has_requests (ec_scheduler e) = true /\
    process_engine_step engine_cfg (Some engine_hasher) (fun _ => None) (mkClock 0%Qc 0%Qc 0%Qc) true e = Ok (b, e') /\ has_work_to_do e' = false.
Proof.
  destruct aborted_demo as [e|] eqn:E; [|by vm_compute in E]. exists e.
  observe E (fun e : EngineCore Empty_set (gset string) unit ModelRunnerOutput =>
    (has_requests (ec_scheduler e), get_num_unfinished_requests (ec_scheduler e), in_flight e, use_spec_decode e, engines_running e)) (true, 0, @nil SchedulerOutput, false, false).
  injection Hobs as H1 H2 H3 H4 H5.
  destruct (process_engine_step engine_cfg (Some engine_hasher) (fun _ => None) (mkClock 0%Qc 0%Qc 0%Qc) true e) as [[b e']|] eqn:Es.
  2:{ exfalso. assert (H : (e ← aborted_demo; process_engine_step engine_cfg (Some engine_hasher) (fun _ => None) (mkClock 0%Qc 0%Qc 0%Qc) true e) = Err e0)
        by (rewrite E; exact Es). vm_compute in H. discriminate H. }
  exists b, e'. split; [reflexivity|]. split; [exact H1|]. split; [reflexivity|].
  destruct (engine_goes_idle engine_cfg (fun _ => None) (Some engine_hasher) (mkClock 0%Qc 0%Qc 0%Qc) true b e e' engine_cfg_plain) as (_ & _ & _ & Hw).
  - by intros out x mo x' [= <- _].
  - by intros out x mo [= <-].
  - exact H2.
  - exact H3.
  - exact H4.
  - exact Es.
  - rewrite Hw. exact H5.
Defined.
