(* ===== verification/EngineMemory.v ===== *)
(** From the memory left for the KV cache to progress: the configuration of
    src/vllm/v1/core/kv_cache_utils.py, the pool it gives, and the runs of the
    scheduler over this pool. *)
From Stdlib Require Import ZArith Lia Ascii String QArith Qcanon.
From stdpp Require Import numbers gmap strings list.
From S2P Require Import Prelude FreeQueue Request BlockHash BlockPool KVSpec KVConfig SingleType Coordinator KVCacheManager KVBacking KVStart Capacity EncoderCache RequestQueue SchedState Scheduler SchedulerUpdate Lifecycle SchedTerm LifecycleOps Progress EngineRuns Liveness SchedProps EngineProps.

Open Scope Z_scope.

(** ** The pool of a configuration *)

Lemma managers_specs groups dcp ms n :
  mapM_res (fun ig => get_manager_for_kv_cache_spec (kv_cache_spec ig.2) ig.1 dcp)
    (zip (Z.of_nat <$> seq n (length groups)) groups) = Ok ms ->
  Forall2 (fun g m => mgr_spec m = kv_cache_spec g /\ spec_manager_map (kv_cache_spec g) = Some (mgr_class m)) groups ms.
Proof.
  revert n ms. induction groups as [|g groups IH]; intros n ms E; [cbn in E; injection E as <-; constructor|].
  cbn [length seq fmap list_fmap zip zip_with mapM_res fst snd] in E. inv_ok. constructor; [|by eapply IH].
  unfold get_manager_for_kv_cache_spec in E0. by inv_ok.
Qed.

(** What a full-attention model leaves of the pool. *)
Lemma start_room bs maxlen kc caching eagle log events use_int dcp k :
  kvm_init kc maxlen caching eagle log events use_int dcp = Ok k -> Forall (fun g => is_full (kv_cache_spec g) = true) (kv_cache_groups kc) ->
  room_of bs maxlen k = num_blocks kc - 1 - zlen (kv_cache_groups kc) * cdiv maxlen bs.
Proof.
  intros E Hfull. unfold kvm_init in E. apply bind_Ok in E as (b & _ & E). apply bind_Ok in E as (c & Ec & E). injection E as <-.
  unfold get_kv_cache_coordinator in Ec. apply bind_Ok in Ec as (P & EP & Ec). apply bind_Ok in Ec as (ms & Ems & Ec).
  apply bind_Ok in Ec as (kind & _ & Ec). injection Ec as <-. apply managers_specs in Ems.
  unfold pool_init in EP. apply bind_Ok in EP as ([] & _ & EP). apply bind_Ok in EP as ([null q] & _ & EP). injection EP as <-.
  unfold room_of. cbn. f_equal. clear -Ems Hfull. induction Ems as [|g m groups ms [Hs Hc] HF IH]; [done|].
  apply Forall_cons in Hfull as [Hg Hfull]. unfold zsum in *. cbn. rewrite IH, zlen_cons by done.
  assert (Hx : slot_tokens m maxlen 0 = maxlen); [|rewrite Hx; lia].
  unfold slot_tokens, is_cross. rewrite Hs. destruct (kv_cache_spec g); try done. cbn in Hc. by injection Hc as <-.
Qed.

(** What one request needs in a full-attention model. *)
Lemma full_memory c p groups n : decode_context_parallel_size c = 1 ->
  Forall (fun g => is_full (kv_cache_spec g) = true /\ page_size_bytes (kv_cache_spec g) = Ok p) groups ->
  (forall bs, Forall (fun g => spec_block_size (kv_cache_spec g) = bs) groups ->
   total_max_memory c (kv_cache_spec <$> groups) = Ok n -> n = zlen groups * cdiv (sc_max_model_len c) bs * p).
Proof.
  intros Hd Hg bs. revert n. induction Hg as [|g groups [Hf Hp] Hg IH]; intros n Hbs E; [cbn in E; by injection E as <-|].
  apply Forall_cons in Hbs as [Hb Hbs]. rewrite fmap_cons, total_cons in E. apply bind_Ok in E as (m & Em & E). apply bind_Ok in E as (t & Et & E).
  injection E as <-. rewrite (IH t Hbs Et), zlen_cons. destruct (kv_cache_spec g); try done. cbn in *. simplify_eq.
  unfold full_max_memory. rewrite Hd. cbn. lia.
Qed.

(** C8: From memory to progress. For a full-attention model with equal pages and
    groups of equal size, configured by [get_kv_cache_config] with the hybrid
    manager enabled, without context parallelism and without an override of the
    number of blocks, from a memory with one page per tensor to spare beyond
    what the memory check asks for (the null block takes it), and an engine as
    in C6 (plain configuration, chunked prefill, plain text requests, no
    connector): in every state its runs reach without retained finished requests
    and with work to do, the next [schedule] returns and schedules a token. *)
Theorem configured_engine_progress {C G : Type} `{!KVConnector C, !StructuredOutput G, !NoGrammarNoAdvance G} (cfg : SchedConfig)
  (fs : string -> option Qc) (bh : option hasher) (bs : Z) (caching : bool) `{!BlockHasher bh bs caching}
  (cs : CacheSetup) (d : spec_dict) (available_memory m p : Z) (kc : KVCacheConfig)
  (eagle use_int : bool) (k : KVCacheManager) (fd : option (list (Z * gset string)))
  (e : EncoderCacheManager) (g : G) (outs : list SchedulerOutput) (s : Scheduler C G) (now ts : Qc) :
  plain_config cfg -> 0 < max_num_scheduled_tokens cfg -> 0 < max_num_running_reqs cfg -> chunked_prefill_enabled cfg = true -> 0 < bs ->
  (* the memory *)
  NoDup d.*1 -> d ≠ [] -> Forall (spec_wf (cs_spec cs)) d.*2 -> num_gpu_blocks_override cs = None ->
  disable_hybrid_kv_cache_manager cs = false -> decode_context_parallel_size (cs_spec cs) = 1 ->
  sc_max_model_len (cs_spec cs) = max_model_len cfg ->
  Forall (fun s => page_size_bytes s = Ok p) d.*2 -> total_max_memory (cs_spec cs) d.*2 = Ok m ->
  get_kv_cache_config cs d available_memory = Ok kc ->
  Forall (fun g => zlen (layer_names g) = zlen (kv_cache_tensors kc)) (kv_cache_groups kc) ->
  m + p * zlen (kv_cache_tensors kc) <= available_memory ->
  Forall (fun g => is_full (kv_cache_spec g) = true) (kv_cache_groups kc) ->
  (* the engine *)
  kvm_init kc (max_model_len cfg) caching eagle (log_stats cfg) false use_int 1 = Ok k ->
  Forall (fun g => lookup_supported (kv_cache_spec g) 1 eagle /\ hit_block_size (kv_cache_spec g) 1 = bs) (kv_cache_groups kc) ->
  zlen (kv_cache_groups kc) <= 2 ^ 32 ->
  engine_run cfg fs bh bs caching (sched_start ∅ (create_request_queue (policy cfg)) fd e k None g) outs s ->
  all_live s -> has_work s ->
  exists out meta ev s', schedule cfg now ts s = Ok (out, meta, ev, s') /\ 0 < so_total_num_scheduled_tokens out.
Proof.
  intros Hcfg Htok Hreqs Hch Hbs Hnd Hne Hwf Ho Hh Hdcp Hlen Hpage Em E Hpad Hspare Hfull Hk Hgr Hmany HR Hlive Hw.
  eapply run_progress; try done. rewrite (start_room _ _ _ _ _ _ _ _ _ _ Hk Hfull).
  destruct (config_capacity cs d available_memory kc 1 m Hnd Hne Hwf Ho Hh E Hpad Em) as (q & n & Hq & H0 & Hn & Hroom).
  assert (q = p) as ->.
  { destruct d as [|x d]; [done|]. apply Forall_cons in Hpage as [Hx _]. rewrite (Hq x.2) in Hx by (by left). by injection Hx. }
  specialize (Hroom ltac:(lia)). destruct (config_layout _ _ _ _ Hnd Hne E) as (_ & HL & _).
  assert (Hgp : Forall (fun g => is_full (kv_cache_spec g) = true /\ page_size_bytes (kv_cache_spec g) = Ok p) (kv_cache_groups kc)).
  { apply Forall_forall. intros gr Hin. split; [by eapply Forall_forall in Hfull|]. rewrite Forall_forall in Hpad. specialize (Hpad gr Hin).
    destruct (layer_names gr) as [|x l] eqn:El.
    { exfalso. pose proof (cl_tensors _ _ HL) as Hc. destruct (kv_cache_tensors kc); [|done]. destruct d; [done|]. by apply Permutation_nil in Hc. }
    destruct (cl_specs _ _ HL gr x Hin ltac:(rewrite El; by left)) as (sp & Hsp & _ & <- & _). apply Hq. by eapply spec_of_in. }
  assert (Hgb : Forall (fun g => spec_block_size (kv_cache_spec g) = bs) (kv_cache_groups kc)) by (eapply Forall_impl; [exact Hgr|]; by intros ? [_ ?]).
  rewrite (full_memory _ _ _ _ Hdcp Hgp bs Hgb Hn) in Hroom. rewrite Hlen in Hroom. nia.
Qed.

Definition memory_layers : spec_dict := [("layers.0"%string, FullAttentionSpec 2 demo_attn None None)].
Definition memory_setup (maxlen : Z) : CacheSetup := mkCacheSetup (mkSpecConfig maxlen 8 1 0) None false.
Definition memory_kv (n : Z) : KVCacheConfig :=
  mkConfig n [mkTensor (8192 * n) ["layers.0"%string]] [mkGroup ["layers.0"%string] (FullAttentionSpec 2 demo_attn None None)].

Lemma memory_layers_wf maxlen : Forall (spec_wf (cs_spec (memory_setup maxlen))) memory_layers.*2.
Proof. repeat constructor; cbn; try lia; try done; by eexists. Qed.

Lemma configured_engine_progress_witness :
  get_kv_cache_config (memory_setup 64) memory_layers (33 * 8192) = Ok (memory_kv 33) /\
  exists s out meta ev s',
    (k ← kvm_init (memory_kv 33) 64 true false false false false 1;
     put_request engine_cfg 0 (engine_request "a" [1; 2; 3; 4; 5]) (engine_start k)) = Ok s /\
    schedule engine_cfg 0%Qc 0%Qc s = Ok (out, meta, ev, s') /\ 0 < so_total_num_scheduled_tokens out.
Proof.
  assert (Ec : get_kv_cache_config (memory_setup 64) memory_layers (33 * 8192) = Ok (memory_kv 33)) by (vm_compute; reflexivity).
  split; [exact Ec|]. destruct (kvm_init (memory_kv 33) 64 true false false false false 1) as [k|] eqn:Ek; [|by vm_compute in Ek].
  destruct (engine_add_state k) as (s & E & Hreg & Hstore & Hrun & Hq). cbn [mbind result_bind]. exists s.
  destruct (configured_engine_progress engine_cfg (fun _ => None) (Some engine_hasher) 2 true (memory_setup 64) memory_layers (33 * 8192) (32 * 8192) 8192
    (memory_kv 33) false false k None (enc_init 0) ∅ [] s 0%Qc 0%Qc engine_cfg_plain) as (out & meta & ev & s' & Es & Hpos).
  all: try (cbn; lia). all: try reflexivity. all: try (repeat constructor; fail). all: try (cbn; repeat constructor; fail).
  - apply (bool_decide_unpack (NoDup memory_layers.*1)). vm_compute. exact I.
  - discriminate.
  - apply memory_layers_wf.
  - exact Ek.
  - by vm_compute.
  - apply engine_add_run. exact E.
  - intros rid o r Ho Hr. rewrite Hreg in Ho. rewrite Hstore in Hr. apply lookup_insert_Some in Ho as [[_ <-]|[_ Ho]]; [|by rewrite lookup_empty in Ho].
    rewrite lookup_insert_eq in Hr. by injection Hr as <-.
  - unfold has_work. rewrite Hrun. exact Hq.
  - exists out, meta, ev, s'. split_and!; [exact E|exact Es|exact Hpos].
Defined.

(** ** One block short *)

(** The engine of [engine_cfg] for sequences of at most four tokens. *)
Definition starved_cfg : SchedConfig :=
  mkSchedConfig FCFS 4 8 4 0 true false 0 false false 0 None 0 0 2 1 false false false (Q2Qc 2).

(** A request of three tokens arrives at an engine with [n] blocks. *)
Definition starved_start (n : Z) : result (Scheduler Empty_set (gset string)) :=
  k ← kvm_init (memory_kv n) 4 false false false false false 1;
  put_request starved_cfg 0 (demo_text "a" [1; 2; 3]) (sched_start ∅ (create_request_queue FCFS) None (enc_init 0) k None ∅).

(** The memory check is one block short: an engine with exactly the memory that the
    check asks for accepts a request that it can never schedule.
    With blocks of two tokens and sequences of at most four, two pages pass the
    check, but one of the two blocks is the null block: a request of three
    tokens stays in the waiting queue, and each step schedules nothing and
    leaves the scheduler in the very same state. *)
Example exact_fit_starves :
  get_kv_cache_config (memory_setup 4) memory_layers (2 * 8192) = Ok (memory_kv 2) /\
  exists s out, starved_start 2 = Ok s /\ queue_objs (waiting s) = [0%nat] /\
    run_step starved_cfg 0%Qc s = Ok (out, s) /\ so_total_num_scheduled_tokens out = 0.
Proof.
  split; [vm_compute; reflexivity|]. eexists _, _. split; [vm_compute; reflexivity|]. split; [vm_compute; reflexivity|].
  split; [vm_compute; reflexivity|]. reflexivity.
Qed.
