(* ===== verification/BlockTable.v ===== *)
(** The block tables of a worker (src/vllm/v1/worker/block_table.py): for each KV
    cache group a matrix with one row of block ids per request of the batch, and
    the slot mapping, which says where the keys and values of each scheduled
    token are written.

    A NumPy matrix is a list of rows. Writing a slice follows NumPy: the slice is
    cut to the row, and the values must have its length, except that a single
    value is broadcast. The copies of the tables on the device are made from
    these by [commit_block_table] and [commit_slot_mapping] and not
    represented. *)
From Stdlib Require Import ZArith Lia.
From stdpp Require Import numbers list.
From S2P Require Import Prelude.

Open Scope Z_scope.

(** * NumPy arrays *)

(** [row[start:start + len(vals)] = vals]. *)
Definition np_write {A} (start : nat) (vals row : list A) : result (list A) :=
  if (start + length vals <=? length row)%nat then Ok (take start row ++ vals ++ drop (start + length vals) row)
  else match vals with
       | [] | [_] => Ok row
       | _ => Err ValueError
       end.

(** [f] applied to the entry at an index, which must be in range. *)
Definition np_alter {A} (i : nat) (f : A -> result A) (l : list A) : result (list A) :=
  x ← get_or IndexError (l !! i);
  y ← f x;
  Ok (<[i := y]> l).

(** Elementwise operations pair the entries of two arrays of the same length; an
    array of one entry is broadcast. *)
Definition np_zip {A B} (a : list A) (b : list B) : result (list (A * B)) :=
  if (length a =? length b)%nat then Ok (zip a b)
  else match a, b with
       | [x], _ => Ok (pair x <$> b)
       | _, [y] => Ok ((fun x => (x, y)) <$> a)
       | _, _ => Err ValueError
       end.

Definition np_op {A B C} (f : A -> B -> C) (a : list A) (b : list B) : result (list C) :=
  ps ← np_zip a b;
  Ok (map (fun p => f p.1 p.2) ps).

(** The sum of two numbers in an [int32] array. *)
Definition int32 (x : Z) : Z := (x + 2 ^ 31) mod 2 ^ 32 - 2 ^ 31.

(** * One group *)

Record BlockTable := mkTable {
  bt_block_size : Z;
  max_num_blocks_per_req : nat;
  max_num_batched_tokens : nat;
  block_table_np : list (list Z);
  num_blocks_per_row : list nat;
  dcp_world_size : Z;
  dcp_rank : Z
}.

Definition set_table (rows : list (list Z)) (nums : list nat) (t : BlockTable) : BlockTable :=
  mkTable (bt_block_size t) (max_num_blocks_per_req t) (max_num_batched_tokens t) rows nums (dcp_world_size t) (dcp_rank t).

Definition table_init (bs : Z) (max_num_reqs max_blocks max_tokens : nat) (world rank : Z) : BlockTable :=
  mkTable bs max_blocks max_tokens (replicate max_num_reqs (replicate max_blocks 0)) (replicate max_num_reqs 0%nat) world rank.

Definition append_row (block_ids : list Z) (row_idx : nat) (t : BlockTable) : result BlockTable :=
  match block_ids with
  | [] => Ok t
  | _ =>
      start ← get_or IndexError (num_blocks_per_row t !! row_idx);
      let nums := <[row_idx := (start + length block_ids)%nat]> (num_blocks_per_row t) in
      rows ← np_alter row_idx (np_write start block_ids) (block_table_np t);
      Ok (set_table rows nums t)
  end.

Definition add_row (block_ids : list Z) (row_idx : nat) (t : BlockTable) : result BlockTable :=
  nums ← np_alter row_idx (fun _ => Ok 0%nat) (num_blocks_per_row t);
  append_row block_ids row_idx (set_table (block_table_np t) nums t).

Definition move_row (src tgt : nat) (t : BlockTable) : result BlockTable :=
  num_blocks ← get_or IndexError (num_blocks_per_row t !! src);
  row ← get_or IndexError (block_table_np t !! src);
  rows ← np_alter tgt (np_write 0 (take num_blocks row)) (block_table_np t);
  Ok (set_table rows (<[tgt := num_blocks]> (num_blocks_per_row t)) t).

(** Two entries of an array exchanged. *)
Definition np_swap {A} (i j : nat) (l : list A) : result (list A) :=
  x ← get_or IndexError (l !! i);
  y ← get_or IndexError (l !! j);
  Ok (<[j := x]> (<[i := y]> l)).

Definition swap_row (src tgt : nat) (t : BlockTable) : result BlockTable :=
  nums ← np_swap src tgt (num_blocks_per_row t);
  rows ← np_swap src tgt (block_table_np t);
  Ok (set_table rows nums t).

(** [compute_slot_mapping]: the slot of each token, given by the row of its
    request and its position. The product of block number and block size is
    taken in the table's [int32]. *)
Definition slot_of (t : BlockTable) (req_index pos : Z) : result Z :=
  if 1 <? dcp_world_size t then
    let virtual_block_size := bt_block_size t * dcp_world_size t in
    block_number ← pyindex (concat (block_table_np t)) (req_index * Z.of_nat (max_num_blocks_per_req t) + pos / virtual_block_size);
    let virtual_block_offset := pos mod virtual_block_size in
    Ok (if virtual_block_offset mod dcp_world_size t =? dcp_rank t
        then int32 (block_number * bt_block_size t) + virtual_block_offset / dcp_world_size t else -1)
  else
    block_number ← pyindex (concat (block_table_np t)) (req_index * Z.of_nat (max_num_blocks_per_req t) + pos / bt_block_size t);
    Ok (int32 (block_number * bt_block_size t) + pos mod bt_block_size t).

Definition compute_slot_mapping (req_indices positions : list Z) (t : BlockTable) : result (list Z) :=
  ps ← np_zip req_indices positions;
  slots ← mapM_res (fun p => slot_of t p.1 p.2) ps;
  _ ← raise_if (negb (length slots =? Nat.min (length req_indices) (max_num_batched_tokens t))%nat) ValueError;
  Ok slots.

(** * All groups *)

(** [block_ids[i]] for each table. *)
Fixpoint each_table (f : list Z -> BlockTable -> result BlockTable) (block_ids : list (list Z)) (ts : list BlockTable)
  : result (list BlockTable) :=
  match ts, block_ids with
  | [], _ => Ok []
  | _ :: _, [] => Err IndexError
  | t :: ts, ids :: block_ids =>
      t ← f ids t;
      ts ← each_table f block_ids ts;
      Ok (t :: ts)
  end.

Definition multi_append_row (block_ids : list (list Z)) (row_idx : nat) : list BlockTable -> result (list BlockTable) :=
  each_table (fun ids => append_row ids row_idx) block_ids.
Definition multi_add_row (block_ids : list (list Z)) (row_idx : nat) : list BlockTable -> result (list BlockTable) :=
  each_table (fun ids => add_row ids row_idx) block_ids.
Definition multi_move_row (src tgt : nat) : list BlockTable -> result (list BlockTable) := mapM_res (move_row src tgt).
Definition multi_swap_row (src tgt : nat) : list BlockTable -> result (list BlockTable) := mapM_res (swap_row src tgt).
Definition multi_compute_slot_mapping (req_indices positions : list Z) : list BlockTable -> result (list (list Z)) :=
  mapM_res (compute_slot_mapping req_indices positions).

(** [MultiGroupBlockTable.__init__]. *)
Definition multi_init (max_num_reqs : nat) (max_model_len : Z) (max_tokens : nat) (block_sizes : list Z) (num_speculative_tokens world rank : Z)
  : list BlockTable :=
  (fun bs => table_init bs max_num_reqs (Z.to_nat (Z.max (cdiv max_model_len (bs * world)) (1 + num_speculative_tokens))) max_tokens world rank)
    <$> block_sizes.

(** * The table as a list of block ids per row *)

(** A table of [n] rows of full width. *)
Record table_ok (n : nat) (t : BlockTable) : Prop := {
  to_rows : length (block_table_np t) = n;
  to_nums : length (num_blocks_per_row t) = n;
  to_width : Forall (fun row => length row = max_num_blocks_per_req t) (block_table_np t)
}.

(** Row [i] of the table is [ids]: so many blocks are counted, and they are at
    the start of the row. *)
Definition row_is (t : BlockTable) (i : nat) (ids : list Z) : Prop :=
  num_blocks_per_row t !! i = Some (length ids) /\ exists row, block_table_np t !! i = Some row /\ ids `prefix_of` row.

(** What a table never changes. *)
Definition same_shape (t t' : BlockTable) : Prop :=
  bt_block_size t' = bt_block_size t /\ max_num_blocks_per_req t' = max_num_blocks_per_req t /\
  max_num_batched_tokens t' = max_num_batched_tokens t /\ dcp_world_size t' = dcp_world_size t /\ dcp_rank t' = dcp_rank t.

#[export] Instance same_shape_preorder : PreOrder same_shape.
Proof. split; [by intros t|]. intros t u v (?&?&?&?&?) (?&?&?&?&?). unfold same_shape. split_and!; congruence. Qed.

Lemma np_zip_ok {A B} (a : list A) (b : list B) : length a = length b -> np_zip a b = Ok (zip a b).
Proof. intros E. unfold np_zip. by rewrite E, Nat.eqb_refl. Qed.

Lemma np_op_ok {A B C} (f : A -> B -> C) a b : length a = length b -> np_op f a b = Ok (zip_with f a b).
Proof. intros E. unfold np_op. rewrite np_zip_ok by done. cbn. f_equal.
  symmetry. rewrite zip_with_zip. apply list_fmap_ext. by intros ? []. Qed.

Lemma np_write_ok {A} (start : nat) (vals row : list A) : (start + length vals <= length row)%nat ->
  np_write start vals row = Ok (take start row ++ vals ++ drop (start + length vals) row).
Proof. intros H. unfold np_write. by rewrite (proj2 (Nat.leb_le _ _) H). Qed.

Lemma np_write_length {A} (start : nat) (vals row : list A) : (start + length vals <= length row)%nat ->
  length (take start row ++ vals ++ drop (start + length vals) row) = length row.
Proof. intros H. rewrite !length_app, length_take, length_drop. lia. Qed.

(** Writing after a prefix extends the prefix. *)
Lemma np_write_prefix {A} (xs vals row : list A) : xs `prefix_of` row ->
  (xs ++ vals) `prefix_of` (take (length xs) row ++ vals ++ drop (length xs + length vals) row).
Proof. intros [k ->]. rewrite take_app_length. rewrite app_assoc. by eexists. Qed.

Lemma np_alter_ok {A} i (f : A -> result A) l x y : l !! i = Some x -> f x = Ok y -> np_alter i f l = Ok (<[i := y]> l).
Proof. intros E1 E2. unfold np_alter. rewrite E1. cbn. by rewrite E2. Qed.

Lemma prefix_room {A} (xs row : list A) : xs `prefix_of` row -> (length xs <= length row)%nat.
Proof. apply prefix_length. Qed.

(** Changing row [i] leaves the other rows alone. *)
Definition others_kept (i : nat) (t t' : BlockTable) : Prop := forall j ids, j ≠ i -> row_is t j ids -> row_is t' j ids.

(** A new row [row] with [m] blocks at index [i]. *)
Lemma set_row_ok n t i row m : table_ok n t -> length row = max_num_blocks_per_req t ->
  table_ok n (set_table (<[i := row]> (block_table_np t)) (<[i := m]> (num_blocks_per_row t)) t) /\
  others_kept i t (set_table (<[i := row]> (block_table_np t)) (<[i := m]> (num_blocks_per_row t)) t).
Proof.
  intros [H1 H2 H3] Hr. split.
  - split; cbn; rewrite ?length_insert; try done. apply Forall_insert; [done|by rewrite Hr].
  - intros j ids Hj (E1 & r & E2 & Hp). split; cbn; [by rewrite list_lookup_insert_ne|]. exists r. by rewrite list_lookup_insert_ne.
Qed.

Lemma set_row_is n t i row ids : table_ok n t -> (i < n)%nat -> ids `prefix_of` row ->
  row_is (set_table (<[i := row]> (block_table_np t)) (<[i := length ids]> (num_blocks_per_row t)) t) i ids.
Proof.
  intros [H1 H2 H3] Hi Hp. split; cbn; [by rewrite list_lookup_insert_eq by lia|]. exists row. by rewrite list_lookup_insert_eq by lia.
Qed.

Lemma row_is_lt n t i ids : table_ok n t -> row_is t i ids -> (i < n)%nat /\ (length ids <= max_num_blocks_per_req t)%nat.
Proof.
  intros [H1 H2 H3] (E & row & Er & Hp). apply lookup_lt_Some in E. split; [lia|].
  rewrite <-(proj1 (Forall_lookup _ _) H3 _ _ Er). by apply prefix_room.
Qed.

(** What an operation on one row promises: the table keeps its form, the other
    rows stay, and row [i] becomes [ids]. *)
Definition row_set (n i : nat) (ids : list Z) (t : BlockTable) (m : result BlockTable) : Prop :=
  exists t', m = Ok t' /\ table_ok n t' /\ same_shape t t' /\ row_is t' i ids /\ others_kept i t t'.

Lemma append_row_spec n t i ids new : table_ok n t -> row_is t i ids -> (length ids + length new <= max_num_blocks_per_req t)%nat ->
  row_set n i (ids ++ new) t (append_row new i t).
Proof.
  intros Ht Hr Hroom. destruct (row_is_lt _ _ _ _ Ht Hr) as [Hi _]. destruct Hr as (E & row & Er & Hp).
  pose proof (proj1 (Forall_lookup _ _) (to_width _ _ Ht) _ _ Er) as Hw. cbn in Hw.
  unfold append_row. destruct new as [|b new]; [exists t; rewrite app_nil_r; split_and!; [done..| |by intros j xs]; split; [done|by exists row]|].
  revert Hroom. set (vals := b :: new). intros Hroom. rewrite E. cbn [get_or mbind result_bind].
  rewrite (np_alter_ok _ _ _ row _ Er (np_write_ok (length ids) vals row ltac:(lia))). cbn [mbind result_bind].
  eexists. split; [done|]. set (row' := take (length ids) row ++ _).
  destruct (set_row_ok n t i row' (length ids + length vals) Ht) as [H1 H2]; [unfold row'; by rewrite np_write_length by lia|].
  pose proof (set_row_is n t i row' (ids ++ vals) Ht Hi ltac:(by apply np_write_prefix)) as H3. rewrite length_app in H3. by split_and!.
Qed.

Lemma add_row_spec n t i ids : table_ok n t -> (i < n)%nat -> (length ids <= max_num_blocks_per_req t)%nat ->
  row_set n i ids t (add_row ids i t).
Proof.
  intros Ht Hi Hroom. unfold add_row. destruct (lookup_lt_is_Some_2 (num_blocks_per_row t) i) as [m Em]; [by rewrite (to_nums _ _ Ht)|].
  rewrite (np_alter_ok _ _ _ m 0%nat Em eq_refl). cbn [mbind result_bind].
  destruct (lookup_lt_is_Some_2 (block_table_np t) i) as [row Er]; [by rewrite (to_rows _ _ Ht)|].
  pose proof (proj1 (Forall_lookup _ _) (to_width _ _ Ht) _ _ Er) as Hw. cbn in Hw.
  destruct (set_row_ok n t i row 0 Ht Hw) as [H1 H2]. rewrite (list_insert_id _ _ _ Er) in H1, H2.
  pose proof (set_row_is n t i row [] Ht Hi (prefix_nil _)) as H3. rewrite (list_insert_id _ _ _ Er) in H3.
  destruct (append_row_spec n _ i [] ids H1 H3 Hroom) as (t' & E & H4 & H5 & H6 & H7). exists t'. split_and!; try done.
  intros j xs Hj Hx. by apply H7, H2.
Qed.

Lemma move_row_spec n t src tgt ids : table_ok n t -> row_is t src ids -> (tgt < n)%nat -> row_set n tgt ids t (move_row src tgt t).
Proof.
  intros Ht Hr Hi. destruct (row_is_lt _ _ _ _ Ht Hr) as [_ Hlen]. destruct Hr as (E & row & Er & Hp).
  destruct (lookup_lt_is_Some_2 (block_table_np t) tgt) as [row' Er']; [by rewrite (to_rows _ _ Ht)|].
  pose proof (proj1 (Forall_lookup _ _) (to_width _ _ Ht) _ _ Er') as Hw. cbn in Hw. unfold move_row. rewrite E, Er. cbn [get_or mbind result_bind].
  assert (Hids : take (length ids) row = ids) by (destruct Hp as [k ->]; apply take_app_length). rewrite Hids.
  rewrite (np_alter_ok _ _ _ row' _ Er' (np_write_ok 0 ids row' ltac:(cbn; lia))). cbn [mbind result_bind take app Nat.add].
  destruct (set_row_ok n t tgt (ids ++ drop (length ids) row') (length ids) Ht) as [H1 H2].
  { rewrite length_app, length_drop. lia. }
  eexists. split; [done|]. split_and!; try done. apply (set_row_is n); [done..|]. by eexists.
Qed.

Lemma np_swap_ok {A} i j (l : list A) x y : l !! i = Some x -> l !! j = Some y -> np_swap i j l = Ok (<[j := x]> (<[i := y]> l)).
Proof. intros E1 E2. unfold np_swap. by rewrite E1, E2. Qed.

Lemma np_swap_lookup {A} i j (l : list A) x y k : l !! i = Some x -> l !! j = Some y ->
  <[j := x]> (<[i := y]> l) !! k = if decide (k = j) then Some x else if decide (k = i) then Some y else l !! k.
Proof.
  intros E1 E2. apply lookup_lt_Some in E1, E2. destruct (decide (k = j)) as [-> |Hj]; [by rewrite list_lookup_insert_eq by (rewrite length_insert; lia)|].
  rewrite list_lookup_insert_ne by done. destruct (decide (k = i)) as [-> |Hi]; [by rewrite list_lookup_insert_eq by lia|by rewrite list_lookup_insert_ne].
Qed.

Lemma swap_row_spec n t i j a b : table_ok n t -> row_is t i a -> row_is t j b ->
  exists t', swap_row i j t = Ok t' /\ table_ok n t' /\ same_shape t t' /\ row_is t' i b /\ row_is t' j a /\
    (forall k ids, k ≠ i -> k ≠ j -> row_is t k ids -> row_is t' k ids).
Proof.
  intros Ht (Ea & ra & Era & Ha) (Eb & rb & Erb & Hb). unfold swap_row. rewrite (np_swap_ok _ _ _ _ _ Ea Eb). cbn [mbind result_bind].
  rewrite (np_swap_ok _ _ _ _ _ Era Erb). cbn [mbind result_bind]. eexists. split; [done|].
  assert (HN : forall k, <[j := length a]> (<[i := length b]> (num_blocks_per_row t)) !! k =
    if decide (k = j) then Some (length a) else if decide (k = i) then Some (length b) else num_blocks_per_row t !! k) by (intros k; by apply np_swap_lookup).
  assert (HR : forall k, <[j := ra]> (<[i := rb]> (block_table_np t)) !! k =
    if decide (k = j) then Some ra else if decide (k = i) then Some rb else block_table_np t !! k) by (intros k; by apply np_swap_lookup).
  destruct Ht as [H1 H2 H3]. pose proof (proj1 (Forall_lookup _ _) H3) as Hw. split_and!; try done.
  - split; cbn; rewrite ?length_insert; try done. apply Forall_insert; [apply Forall_insert; [done|by apply (Hw j)]|by apply (Hw i)].
  - destruct (decide (i = j)) as [-> |Hij]; [simplify_eq|].
    + split; cbn; [rewrite HN, decide_True by done; congruence|exists ra; by rewrite HR, decide_True].
    + split; cbn; [by rewrite HN, decide_False, decide_True|exists rb; by rewrite HR, decide_False, decide_True].
  - split; cbn; [by rewrite HN, decide_True|exists ra; by rewrite HR, decide_True].
  - intros k ids Hi Hj (Ek & rk & Erk & Hk). split; cbn; [by rewrite HN, !decide_False|exists rk; by rewrite HR, !decide_False].
Qed.

(** ** All groups at once *)

(** Row [i] of the tables is [idss], one list of block ids per group. *)
Definition rows_are (ts : list BlockTable) (i : nat) (idss : list (list Z)) : Prop := Forall2 (fun t ids => row_is t i ids) ts idss.

(** Each list has room in the rows of its table. *)
Definition rows_fit (ts : list BlockTable) (idss : list (list Z)) : Prop :=
  Forall2 (fun t ids => (length ids <= max_num_blocks_per_req t)%nat) ts idss.

Definition tables_kept (i : nat) (ts ts' : list BlockTable) : Prop := forall j idss, j ≠ i -> rows_are ts j idss -> rows_are ts' j idss.

Definition rows_set (n i : nat) (idss : list (list Z)) (ts : list BlockTable) (m : result (list BlockTable)) : Prop :=
  exists ts', m = Ok ts' /\ Forall (table_ok n) ts' /\ Forall2 same_shape ts ts' /\ rows_are ts' i idss /\ tables_kept i ts ts'.

Lemma tables_kept_cons i t t' ts ts' : others_kept i t t' -> tables_kept i ts ts' -> tables_kept i (t :: ts) (t' :: ts').
Proof. intros H1 H2 j idss Hj HF. apply Forall2_cons_inv_l in HF as (ids & idss' & Hr & HF & ->). constructor; [by apply H1|by apply H2]. Qed.

Lemma tables_kept_refl i ts : tables_kept i ts ts.
Proof. by intros j idss _ H. Qed.

(** An operation that sets row [i] of each table sets it in all tables. *)
Lemma each_table_spec n i (f : list Z -> BlockTable -> result BlockTable) ts : forall args idss,
  Forall (table_ok n) ts -> Forall3 (fun t a ids => row_set n i ids t (f a t)) ts args idss -> rows_set n i idss ts (each_table f args ts).
Proof.
  induction ts as [|t ts IH]; intros args idss Hok HF; inversion HF as [|? a ids ? args' idss' Hrow HF']; subst.
  { exists []. split; [done|]. split; [constructor|]. split; [constructor|]. split; [constructor|]. apply tables_kept_refl. }
  apply Forall_cons in Hok as [Ht Hok]. destruct (IH _ _ Hok HF') as (ts' & E & H1 & H2 & H3 & H4).
  destruct Hrow as (t' & Et & T1 & T2 & T3 & T4).
  exists (t' :: ts'). cbn. rewrite Et. cbn. rewrite E. split_and!; try done; [by constructor..|by apply tables_kept_cons].
Qed.

Lemma mapM_tables_spec n i (f : BlockTable -> result BlockTable) ts idss :
  Forall (table_ok n) ts -> Forall2 (fun t ids => row_set n i ids t (f t)) ts idss -> rows_set n i idss ts (mapM_res f ts).
Proof.
  intros Hok HF. revert Hok. induction HF as [|t ids ts idss (t' & Et & T1 & T2 & T3 & T4) HF IH]; intros Hok.
  { exists []. by split_and!; [..|apply tables_kept_refl]; constructor. }
  apply Forall_cons in Hok as [Ht Hok]. destruct (IH Hok) as (ts' & E & H1 & H2 & H3 & H4).
  exists (t' :: ts'). cbn. rewrite Et. cbn. rewrite E. split_and!; try done; [by constructor..|by apply tables_kept_cons].
Qed.

Lemma multi_add_row_spec n ts i idss : Forall (table_ok n) ts -> (i < n)%nat -> rows_fit ts idss -> rows_set n i idss ts (multi_add_row idss i ts).
Proof.
  intros Hok Hi Hfit. apply each_table_spec; [done|]. revert Hok. induction Hfit; intros Hok; constructor; apply Forall_cons in Hok as [Ht Hok]; auto.
  by apply add_row_spec.
Qed.

Lemma multi_append_row_spec n ts i idss news : Forall (table_ok n) ts -> rows_are ts i idss -> length news = length idss ->
  rows_fit ts (zip_with app idss news) -> rows_set n i (zip_with app idss news) ts (multi_append_row news i ts).
Proof.
  intros Hok Hr Hlen Hfit. apply each_table_spec; [done|]. revert Hok Hr news Hlen Hfit. revert idss.
  induction ts as [|t ts IH]; intros idss Hok Hr news Hlen Hfit.
  { inversion Hr; subst. destruct news; [constructor|done]. }
  apply Forall2_cons_inv_l in Hr as (ids & idss' & Hrow & Hr & ->). destruct news as [|new news]; [done|].
  apply Forall_cons in Hok as [Ht Hok]. cbn in Hfit. apply Forall2_cons in Hfit as [Hf Hfit]. constructor.
  - apply append_row_spec; [done..|]. by rewrite length_app in Hf.
  - by apply IH; [..|injection Hlen|].
Qed.

Lemma multi_move_row_spec n ts src tgt idss : Forall (table_ok n) ts -> rows_are ts src idss -> (tgt < n)%nat ->
  rows_set n tgt idss ts (multi_move_row src tgt ts).
Proof.
  intros Hok Hr Hi. apply mapM_tables_spec; [done|]. revert Hok. induction Hr; intros Hok; constructor; apply Forall_cons in Hok as [Ht Hok]; auto.
  by apply move_row_spec.
Qed.

Lemma multi_swap_row_spec n ts i j : forall a b, Forall (table_ok n) ts -> rows_are ts i a -> rows_are ts j b ->
  exists ts', multi_swap_row i j ts = Ok ts' /\ Forall (table_ok n) ts' /\ Forall2 same_shape ts ts' /\ rows_are ts' i b /\ rows_are ts' j a /\
    (forall k idss, k ≠ i -> k ≠ j -> rows_are ts k idss -> rows_are ts' k idss).
Proof.
  induction ts as [|t ts IH]; intros a b Hok Ha Hb.
  { inversion Ha; inversion Hb; subst. exists []. by split_and!; try constructor. }
  apply Forall_cons in Hok as [Ht Hok]. apply Forall2_cons_inv_l in Ha as (xa & a' & Hxa & Ha & ->), Hb as (xb & b' & Hxb & Hb & ->).
  destruct (IH _ _ Hok Ha Hb) as (ts' & E & H1 & H2 & H3 & H4 & H5). destruct (swap_row_spec _ _ _ _ _ _ Ht Hxa Hxb) as (t' & Et & T1 & T2 & T3 & T4 & T5).
  exists (t' :: ts'). unfold multi_swap_row in *. cbn. rewrite Et. cbn. rewrite E. split_and!; try done; try by constructor.
  intros k idss Hi Hj Hk. apply Forall2_cons_inv_l in Hk as (x & idss' & Hx & Hk & ->). constructor; [by apply T5|by apply H5].
Qed.

(** * Slots *)

Lemma concat_row {A} (w : nat) (rows : list (list A)) : forall i k row, Forall (fun r => length r = w) rows -> rows !! i = Some row -> (k < w)%nat ->
  concat rows !! (i * w + k)%nat = row !! k.
Proof.
  induction rows as [|r rows IH]; intros i k row Hw E Hk; [done|]. apply Forall_cons in Hw as [Hr Hw]. destruct i as [|i]; cbn in E |- *.
  - injection E as ->. by rewrite lookup_app_l by lia.
  - rewrite lookup_app_r by (cbn; lia). rewrite <-(IH i k row Hw E Hk). f_equal. cbn. lia.
Qed.

(** The entry of the flattened table for block [k] of row [i]. *)
Lemma table_entry n t i ids k b : table_ok n t -> row_is t i ids -> ids !! k = Some b ->
  pyindex (concat (block_table_np t)) (Z.of_nat i * Z.of_nat (max_num_blocks_per_req t) + Z.of_nat k) = Ok b.
Proof.
  intros Ht Hr Hk. destruct (row_is_lt _ _ _ _ Ht Hr) as [_ Hlen]. destruct Hr as (E & row & Er & [rest ->]).
  pose proof (lookup_lt_Some _ _ _ Hk) as Hlt. pose proof (concat_row _ _ i k _ (to_width _ _ Ht) Er ltac:(lia)) as Hc.
  rewrite lookup_app_l, Hk in Hc by lia. rewrite <-Nat2Z.inj_mul, <-Nat2Z.inj_add. unfold pyindex. rewrite (proj2 (Z.ltb_ge (Z.of_nat _) 0)) by lia.
  rewrite (proj2 (Z.ltb_ge (Z.of_nat _) 0)) by lia. by rewrite Nat2Z.id, Hc.
Qed.

Lemma int32_small x : - 2 ^ 31 <= x < 2 ^ 31 -> int32 x = x.
Proof. intros H. unfold int32. rewrite Z.mod_small; lia. Qed.

(** The slot of the token at a position of a request. *)
Definition token_slot (bs : Z) (ids : list Z) (pos : Z) : option Z :=
  (fun b => b * bs + pos mod bs) <$> ids !! Z.to_nat (pos / bs).

Definition blocks_small (t : BlockTable) (ids : list Z) : Prop :=
  Forall (fun b => 0 <= b /\ b * bt_block_size t < 2 ^ 31) ids.

Lemma slot_of_spec n t i ids pos slot : table_ok n t -> row_is t i ids -> dcp_world_size t = 1 -> 0 < bt_block_size t -> blocks_small t ids -> 0 <= pos ->
  token_slot (bt_block_size t) ids pos = Some slot -> slot_of t (Z.of_nat i) pos = Ok slot.
Proof.
  intros Ht Hr Hd Hbs Hsm Hpos E. unfold token_slot in E. apply fmap_Some in E as (b & Eb & ->). unfold slot_of. rewrite Hd. cbn.
  pose proof (table_entry _ _ _ _ _ _ Ht Hr Eb) as He. rewrite Z2Nat.id in He by (apply Z.div_pos; lia). rewrite He. cbn.
  destruct (proj1 (Forall_lookup _ _) Hsm _ _ Eb) as [H1 H2]. rewrite int32_small; [done|]. nia.
Qed.

(** Different positions of a request have different slots, and slots of requests
    that share no block are different. *)
Lemma token_slot_inj bs ids ids' pos pos' slot : 0 < bs -> 0 <= pos -> 0 <= pos' -> token_slot bs ids pos = Some slot -> token_slot bs ids' pos' = Some slot ->
  exists b, ids !! Z.to_nat (pos / bs) = Some b /\ ids' !! Z.to_nat (pos' / bs) = Some b /\ pos mod bs = pos' mod bs.
Proof.
  intros Hbs Hp Hp' E E'. apply fmap_Some in E as (b & Eb & ->), E' as (b' & Eb' & E').
  pose proof (Z.mod_pos_bound pos bs Hbs). pose proof (Z.mod_pos_bound pos' bs Hbs). assert (b = b') as -> by nia. exists b'. split_and!; try done. nia.
Qed.

(** With decode context parallelism the tokens are spread over the ranks: the
    token at [pos] has a slot on the rank [pos mod world] and on no other, inside
    the block that covers the position, and no two tokens of a block share one. *)
Lemma dcp_slot_spec n t i ids pos b : table_ok n t -> row_is t i ids -> 1 < dcp_world_size t -> 0 < bt_block_size t -> blocks_small t ids -> 0 <= pos ->
  ids !! Z.to_nat (pos / (bt_block_size t * dcp_world_size t)) = Some b ->
  slot_of t (Z.of_nat i) pos =
    Ok (if pos mod dcp_world_size t =? dcp_rank t
        then b * bt_block_size t + pos mod (bt_block_size t * dcp_world_size t) / dcp_world_size t else -1).
Proof.
  intros Ht Hr Hd Hbs Hsm Hpos Eb. unfold slot_of. rewrite (proj2 (Z.ltb_lt _ _) Hd).
  pose proof (table_entry _ _ _ _ _ _ Ht Hr Eb) as He. rewrite Z2Nat.id in He by (apply Z.div_pos; nia). rewrite He. cbn [mbind result_bind].
  destruct (proj1 (Forall_lookup _ _) Hsm _ _ Eb) as [H1 H2]. rewrite int32_small by nia.
  replace ((pos mod (bt_block_size t * dcp_world_size t)) mod dcp_world_size t) with (pos mod dcp_world_size t); [done|].
  rewrite (Z.mul_comm (bt_block_size t)), Z.rem_mul_r by lia. rewrite Z.add_mod, Z.mul_comm, Z.mod_mul, Z.add_0_r, !Z.mod_mod by lia. done.
Qed.
