(* ===== verification/InputBatch.v ===== *)
(** The persistent batch of a worker (src/vllm/v1/worker/gpu_input_batch.py): one
    row per request in a set of NumPy arrays, with the rows of departing
    requests refilled by arriving ones and the remaining gaps closed by moving
    the last rows down ([condense]). The changes of a step are collected for the
    logits processors by a [BatchUpdateBuilder]
    (src/vllm/v1/sample/logits_processor/state.py).

    The entries of the arrays at one index form a [Row]. A request's list of
    output tokens is shared between its cached state, the batch and the logits
    processors; it is a reference into a store of lists. Tensors on the device
    and the sampling metadata that is copied from these arrays are not
    represented. *)
From Stdlib Require Import ZArith Lia String QArith Qcanon.
From stdpp Require Import numbers gmap strings list sorting.
From S2P Require Import Prelude Request BlockTable.

Open Scope Z_scope.

(** * Requests as the worker caches them *)

(** The pooling parameters after the updates of the model's pooler. *)
Record PoolingParams := mkPooling { requires_token_ids : bool }.

(** [CachedRequestState]; [rs_output_token_ids] refers to the shared list, and a
    generator is identified by its seed. *)
Record CachedRequestState := mkState {
  rs_req_id : string;
  rs_prompt_token_ids : list Z;
  rs_mm_hashes : list string;
  rs_mm_positions : list PlaceholderRange;
  rs_sampling_params : option SamplingParams;
  rs_pooling_params : option PoolingParams;
  rs_generator : option Z;
  rs_block_ids : list (list Z);
  rs_num_computed_tokens : Z;
  rs_output_token_ids : nat;
  rs_lora_request : option LoRARequest
}.

Definition set_rs_computed (n : Z) (c : CachedRequestState) : CachedRequestState :=
  mkState (rs_req_id c) (rs_prompt_token_ids c) (rs_mm_hashes c) (rs_mm_positions c) (rs_sampling_params c) (rs_pooling_params c)
    (rs_generator c) (rs_block_ids c) n (rs_output_token_ids c) (rs_lora_request c).
Definition set_rs_blocks (ids : list (list Z)) (c : CachedRequestState) : CachedRequestState :=
  mkState (rs_req_id c) (rs_prompt_token_ids c) (rs_mm_hashes c) (rs_mm_positions c) (rs_sampling_params c) (rs_pooling_params c)
    (rs_generator c) ids (rs_num_computed_tokens c) (rs_output_token_ids c) (rs_lora_request c).

Inductive SamplingType := GREEDY | RANDOM | RANDOM_SEED.

#[export] Instance sampling_type_eq_dec : EqDecision SamplingType.
Proof. solve_decision. Defined.

Definition SAMPLING_EPS : Qc := Q2Qc (1 # 100000).

#[export] Instance Qclt_dec (x y : Qc) : Decision (x < y)%Qc.
Proof. destruct (Qclt_le_dec x y) as [H|H]; [by left|right]. by apply Qcle_not_lt. Defined.

Definition sampling_type (p : SamplerParams) : SamplingType :=
  if decide (temperature p < SAMPLING_EPS)%Qc then GREEDY
  else match seed p with
       | Some _ => RANDOM_SEED
       | None => RANDOM
       end.

(** * The changes of a step *)

Inductive MoveDirectionality := UNIDIRECTIONAL | SWAP.

Record AddedRequest := mkAdded { ad_index : nat; ad_params : SamplingParams; ad_prompt : list Z; ad_output : nat }.

Record BatchUpdate := mkUpdate {
  bu_batch_size : nat;
  bu_removed : list nat;
  bu_added : list AddedRequest;
  bu_moved : list (nat * nat * MoveDirectionality)
}.

Record BatchUpdateBuilder := mkBuilder {
  removed_ : list nat;
  is_removed_sorted : bool;
  moved : list (nat * nat * MoveDirectionality);
  added : list AddedRequest;
  batch_changed : bool
}.

Definition builder_init : BatchUpdateBuilder := mkBuilder [] false [] [] false.

(** [sort(reverse=True)]. *)
Definition sort_desc (l : list nat) : list nat := reverse (merge_sort Nat.le l).

Definition ensure_removed_sorted (u : BatchUpdateBuilder) : BatchUpdateBuilder :=
  if is_removed_sorted u then u else mkBuilder (sort_desc (removed_ u)) true (moved u) (added u) (batch_changed u).

Definition removed_append (i : nat) (u : BatchUpdateBuilder) : result BatchUpdateBuilder :=
  _ ← raise_if (is_removed_sorted u) RuntimeError;
  Ok (mkBuilder (removed_ u ++ [i]) (is_removed_sorted u) (moved u) (added u) true).

Definition peek_removed (u : BatchUpdateBuilder) : option nat * BatchUpdateBuilder :=
  match removed_ u with
  | [] => (None, u)
  | _ => let u := ensure_removed_sorted u in (last (removed_ u), u)
  end.

Definition pop_removed (u : BatchUpdateBuilder) : option nat * BatchUpdateBuilder :=
  match removed_ u with
  | [] => (None, u)
  | _ =>
      let u := ensure_removed_sorted u in
      (last (removed_ u), mkBuilder (take (length (removed_ u) - 1) (removed_ u)) (is_removed_sorted u) (moved u) (added u) (batch_changed u))
  end.

Definition note_added (a : option AddedRequest) (u : BatchUpdateBuilder) : BatchUpdateBuilder :=
  mkBuilder (removed_ u) (is_removed_sorted u) (moved u) (added u ++ option_list a) true.

Definition note_moved (m : nat * nat * MoveDirectionality) (u : BatchUpdateBuilder) : BatchUpdateBuilder :=
  mkBuilder (removed_ u) (is_removed_sorted u) (moved u ++ [m]) (added u) (batch_changed u).

(** [reset], for pooling models. *)
Definition builder_reset (u : BatchUpdateBuilder) : bool * BatchUpdateBuilder := (batch_changed u, builder_init).

Definition get_and_reset (batch_size : nat) (u : BatchUpdateBuilder) : option BatchUpdate * BatchUpdateBuilder :=
  match removed_ u, moved u, added u with
  | [], [], [] => (None, builder_init)
  | _, _, _ => (Some (mkUpdate batch_size (removed_ u) (added u) (moved u)), builder_init)
  end.

(** * The arrays *)

Record SamplingRow := mkSampRow {
  temperature_cpu : Qc;
  top_p_cpu : Qc;
  top_k_cpu : Z;
  frequency_penalties_cpu : Qc;
  presence_penalties_cpu : Qc;
  repetition_penalties_cpu : Qc
}.

Record Row := mkRow {
  token_ids_cpu : list Z;
  row_num_tokens : nat;
  num_tokens_no_spec : nat;
  row_num_prompt_tokens : nat;
  num_computed_tokens_cpu : Z;
  request_lora_mapping : Z;
  sampling_row : SamplingRow;
  num_accepted_tokens_cpu : Z;
  logits_processing_needs_token_ids : bool
}.

(** The sets of request ids that have some sampling feature, by name. *)
Inductive SetName :=
| greedy_reqs | random_reqs | top_p_reqs | top_k_reqs | spec_decode_unsupported_reqs
| frequency_penalties_reqs | presence_penalties_reqs | repetition_penalties_reqs | has_allowed_token_ids.

Record SamplingState := mkSampling' {
  req_sets : SetName -> gset string;
  generators : gmap nat Z;
  num_logprobs : gmap string Z;
  num_prompt_logprobs : gmap string Z;
  allowed_token_ids_mask : option (list (list bool));
  bad_words : gmap nat (list (list Z))
}.

Record LoraState := mkLoraState {
  lora_id_to_request_ids : gmap Z (gset string);
  lora_id_to_lora_request : gmap Z LoRARequest
}.

Record BatchConfig := mkBatchConfig {
  max_num_reqs : nat;
  batch_max_model_len : nat;
  vocab_size : Z;
  is_pooling_model : bool;
  is_spec_decode : bool
}.

Record InputBatch := mkBatch {
  req_ids_ : list (option string);
  req_id_to_index : gmap string nat;
  rows : list Row;
  block_table : list BlockTable;
  req_output_token_ids : list (option nat);
  sampling_state : SamplingState;
  lora_state : LoraState;
  batch_pooling_params : gmap string PoolingParams;
  batch_update_builder : BatchUpdateBuilder
}.

Definition set_slots (ids : list (option string)) (m : gmap string nat) (outs : list (option nat)) (b : InputBatch) : InputBatch :=
  mkBatch ids m (rows b) (block_table b) outs (sampling_state b) (lora_state b) (batch_pooling_params b) (batch_update_builder b).
Definition set_rows (rs : list Row) (ts : list BlockTable) (b : InputBatch) : InputBatch :=
  mkBatch (req_ids_ b) (req_id_to_index b) rs ts (req_output_token_ids b) (sampling_state b) (lora_state b) (batch_pooling_params b) (batch_update_builder b).
Definition set_sampling_state (x : SamplingState) (b : InputBatch) : InputBatch :=
  mkBatch (req_ids_ b) (req_id_to_index b) (rows b) (block_table b) (req_output_token_ids b) x (lora_state b) (batch_pooling_params b) (batch_update_builder b).
Definition set_lora_state (x : LoraState) (b : InputBatch) : InputBatch :=
  mkBatch (req_ids_ b) (req_id_to_index b) (rows b) (block_table b) (req_output_token_ids b) (sampling_state b) x (batch_pooling_params b) (batch_update_builder b).
Definition set_pooling (x : gmap string PoolingParams) (b : InputBatch) : InputBatch :=
  mkBatch (req_ids_ b) (req_id_to_index b) (rows b) (block_table b) (req_output_token_ids b) (sampling_state b) (lora_state b) x (batch_update_builder b).
Definition set_builder (x : BatchUpdateBuilder) (b : InputBatch) : InputBatch :=
  mkBatch (req_ids_ b) (req_id_to_index b) (rows b) (block_table b) (req_output_token_ids b) (sampling_state b) (lora_state b) (batch_pooling_params b) x.

Definition num_reqs (b : InputBatch) : nat := size (req_id_to_index b).

Definition zero_row (len : nat) (garbage : SamplingRow) : Row :=
  mkRow (replicate len 0) 0 0 0 0 0 garbage 1 false.

Definition batch_init (cfg : BatchConfig) (tables : list BlockTable) (garbage : SamplingRow) : InputBatch :=
  mkBatch [] ∅ (replicate (max_num_reqs cfg) (zero_row (batch_max_model_len cfg) garbage)) tables []
    (mkSampling' (fun _ => ∅) ∅ ∅ ∅ None ∅) (mkLoraState ∅ ∅) ∅ builder_init.

Section Batch.
Context (cfg : BatchConfig).

(** * Adding a request *)

Definition is_spec_decode_unsupported (sp : SamplingParams) : bool :=
  let p := sampler sp in
  bool_decide (frequency_penalty p ≠ 0%Qc) || bool_decide (presence_penalty p ≠ 0%Qc) || bool_decide (repetition_penalty p ≠ 1%Qc) ||
  bool_decide (SAMPLING_EPS < min_p p)%Qc || bool_decide (logprobs sp ≠ None).

(** Which sets a request is put into. *)
Definition in_set (sp : SamplingParams) (n : SetName) : bool :=
  let p := sampler sp in
  match n with
  | greedy_reqs => bool_decide (sampling_type p = GREEDY)
  | random_reqs => negb (bool_decide (sampling_type p = GREEDY))
  | top_p_reqs => bool_decide (top_p p < 1)%Qc
  | top_k_reqs => (0 <? top_k p) && (top_k p <? vocab_size cfg)
  | spec_decode_unsupported_reqs => is_spec_decode cfg && is_spec_decode_unsupported sp
  | frequency_penalties_reqs => bool_decide (frequency_penalty p ≠ 0%Qc)
  | presence_penalties_reqs => bool_decide (presence_penalty p ≠ 0%Qc)
  | repetition_penalties_reqs => bool_decide (repetition_penalty p ≠ 1%Qc)
  | has_allowed_token_ids => match allowed_token_ids p with Some (_ :: _) => true | _ => false end
  end.

Definition sampling_row_of (p : SamplerParams) : SamplingRow :=
  mkSampRow (if decide (sampling_type p = GREEDY) then (- (1))%Qc else temperature p) (top_p p)
    (if (0 <? top_k p) && (top_k p <? vocab_size cfg) then top_k p else vocab_size cfg)
    (frequency_penalty p) (presence_penalty p) (repetition_penalty p).

(** A number of logprobs, where -1 stands for the whole vocabulary. *)
Definition logprobs_of (n : Z) : Z := if n =? -1 then vocab_size cfg else n.

Definition set_opt {K V M} `{Insert K V M} (k : K) (v : option V) (m : M) : M :=
  match v with
  | Some v => <[k := v]> m
  | None => m
  end.

(** The row of the mask for [allowed_token_ids]: [False] for allowed tokens. *)
Definition allow (row : list bool) (tok : Z) : result (list bool) :=
  let j := if tok <? 0 then tok + zlen row else tok in
  _ ← raise_if ((j <? 0) || (zlen row <=? j)) IndexError;
  Ok (<[Z.to_nat j := false]> row).

Definition mask_row (toks : list Z) : result (list bool) :=
  foldM allow (replicate (Z.to_nat (vocab_size cfg)) true) toks.

Definition add_mask (i : nat) (p : SamplerParams) (mask : option (list (list bool))) : result (option (list (list bool))) :=
  match allowed_token_ids p with
  | Some ((_ :: _) as toks) =>
      let mask := default (replicate (max_num_reqs cfg) (replicate (Z.to_nat (vocab_size cfg)) false)) mask in
      row ← mask_row toks;
      mask ← np_alter i (fun _ => Ok row) mask;
      Ok (Some mask)
  | _ => Ok mask
  end.

Definition add_sampling (i : nat) (id : string) (sp : SamplingParams) (gen : option Z) (x : SamplingState) : result SamplingState :=
  mask ← add_mask i (sampler sp) (allowed_token_ids_mask x);
  Ok (mkSampling' (fun n => if in_set sp n then {[id]} ∪ req_sets x n else req_sets x n)
        (set_opt i gen (generators x))
        (set_opt id (logprobs_of <$> logprobs sp) (num_logprobs x))
        (set_opt id (logprobs_of <$> prompt_logprobs sp) (num_prompt_logprobs x))
        mask
        (match bad_words_token_ids (sampler sp) with
         | Some ((_ :: _) as l) => <[i := l]> (bad_words x)
         | _ => bad_words x
         end)).

Definition add_lora (id : string) (l : option LoRARequest) (x : LoraState) : LoraState :=
  match l with
  | Some l =>
      mkLoraState (<[lora_int_id l := {[id]} ∪ default ∅ (lora_id_to_request_ids x !! lora_int_id l)]> (lora_id_to_request_ids x))
        (<[lora_int_id l := l]> (lora_id_to_lora_request x))
  | None => x
  end.

Definition register_add_request (c : CachedRequestState) (b : InputBatch) : result (nat * InputBatch) :=
  let '(o, u) := pop_removed (batch_update_builder b) in
  let i := default (num_reqs b) o in
  _ ← assert_ (i <? max_num_reqs cfg)%nat;
  let a := (fun sp => mkAdded i sp (rs_prompt_token_ids c) (rs_output_token_ids c)) <$> rs_sampling_params c in
  Ok (i, set_builder (note_added a u) b).

(** The row of a request that is added with output tokens [out]. *)
Definition fill_row (c : CachedRequestState) (out : list Z) (r : Row) : result Row :=
  let n := length (rs_prompt_token_ids c) in
  toks ← np_write 0 (rs_prompt_token_ids c) (token_ids_cpu r);
  toks ← np_write n out toks;
  Ok (mkRow toks (n + length out) (n + length out) n (rs_num_computed_tokens c)
        (match rs_lora_request c with Some l => lora_int_id l | None => 0 end)
        (match rs_sampling_params c with Some sp => sampling_row_of (sampler sp) | None => sampling_row r end)
        1
        (match rs_sampling_params c, rs_pooling_params c with
         | None, Some p => requires_token_ids p
         | _, _ => logits_processing_needs_token_ids r
         end)).

(** [l[i] = x], where [i] may be the length of the list. *)
Definition put_at {A} (i : nat) (x : A) (l : list A) : result (list A) :=
  if (i =? length l)%nat then Ok (l ++ [x])
  else if (i <? length l)%nat then Ok (<[i := x]> l) else Err IndexError.

Definition batch_add_request (out : list Z) (c : CachedRequestState) (b : InputBatch) : result (nat * InputBatch) :=
  '(i, b) ← register_add_request c b;
  let id := rs_req_id c in
  ids ← put_at i (Some id) (req_ids_ b);
  outs ← put_at i (Some (rs_output_token_ids c)) (req_output_token_ids b);
  let b := set_slots ids (<[id := i]> (req_id_to_index b)) outs b in
  rs ← np_alter i (fill_row c out) (rows b);
  ts ← multi_add_row (rs_block_ids c) i (block_table b);
  let b := set_rows rs ts b in
  b ← (match rs_sampling_params c, rs_pooling_params c with
       | Some sp, _ => x ← add_sampling i id sp (rs_generator c) (sampling_state b); Ok (set_sampling_state x b)
       | None, Some p => Ok (set_pooling (<[id := p]> (batch_pooling_params b)) b)
       | None, None => Err NotImplementedError
       end);
  Ok (i, set_lora_state (add_lora id (rs_lora_request c) (lora_state b)) b).

(** * Removing a request *)

Definition remove_lora (id : string) (lora_id : Z) (x : LoraState) : result LoraState :=
  if lora_id =? 0 then Ok x else
  ids ← get_or (A := gset string) KeyError (lora_id_to_request_ids x !! lora_id);
  let ids := (ids : gset string) ∖ {[id]} in
  if decide (ids = ∅) then
    _ ← get_or KeyError (lora_id_to_lora_request x !! lora_id);
    Ok (mkLoraState (delete lora_id (lora_id_to_request_ids x)) (delete lora_id (lora_id_to_lora_request x)))
  else Ok (mkLoraState (<[lora_id := ids]> (lora_id_to_request_ids x)) (lora_id_to_lora_request x)).

Definition remove_sampling (i : nat) (id : string) (x : SamplingState) : result SamplingState :=
  mask ← (match allowed_token_ids_mask x with
          | Some m => m ← np_alter i (fun row => Ok (replicate (length row) false)) m; Ok (Some m)
          | None => Ok None
          end);
  Ok (mkSampling' (fun n => req_sets x n ∖ {[id]}) (delete i (generators x)) (delete id (num_logprobs x))
        (delete id (num_prompt_logprobs x)) mask (delete i (bad_words x))).

Definition set_row_lora (l : Z) (r : Row) : Row :=
  mkRow (token_ids_cpu r) (row_num_tokens r) (num_tokens_no_spec r) (row_num_prompt_tokens r) (num_computed_tokens_cpu r) l (sampling_row r)
    (num_accepted_tokens_cpu r) (logits_processing_needs_token_ids r).

Definition batch_remove_request (id : string) (b : InputBatch) : result (option nat * InputBatch) :=
  match req_id_to_index b !! id with
  | None => Ok (None, b)
  | Some i =>
      u ← removed_append i (batch_update_builder b);
      ids ← np_alter i (fun _ => Ok None) (req_ids_ b);
      outs ← np_alter i (fun _ => Ok None) (req_output_token_ids b);
      let b := set_builder u (set_slots ids (delete id (req_id_to_index b)) outs b) in
      row ← get_or IndexError (rows b !! i);
      l ← remove_lora id (request_lora_mapping row) (lora_state b);
      let b := set_lora_state l (set_rows (<[i := set_row_lora 0 row]> (rows b)) (block_table b) b) in
      if is_pooling_model cfg then Ok (Some i, set_pooling (delete id (batch_pooling_params b)) b)
      else x ← remove_sampling i id (sampling_state b); Ok (Some i, set_sampling_state x b)
  end.

(** * Moving rows *)

(** The row [dst] after the arrays of [src] were copied to it, with the token ids
    given; sampling state is left out for pooling models. *)
Definition copy_row (toks : list Z) (src dst : Row) : Row :=
  mkRow toks (row_num_tokens src) (num_tokens_no_spec src) (row_num_prompt_tokens src) (num_computed_tokens_cpu src) (request_lora_mapping src)
    (if is_pooling_model cfg then sampling_row dst else sampling_row src)
    (if is_pooling_model cfg then num_accepted_tokens_cpu dst else num_accepted_tokens_cpu src)
    (logits_processing_needs_token_ids dst).

(** [swap_dict_values]. *)
Definition swap_dict_values {V} (i j : nat) (m : gmap nat V) : gmap nat V :=
  let v1 := m !! i in
  let v2 := m !! j in
  let m := match v1 with Some v => <[j := v]> m | None => delete j m end in
  match v2 with Some v => <[i := v]> m | None => delete i m end.

(** [mask[i], mask[j] = mask[j], mask[i]] on a tensor: the right-hand sides are
    views of the rows, so the second assignment reads the row the first one has
    overwritten. *)
Definition swap_mask (i j : nat) (m : list (list bool)) : result (list (list bool)) :=
  _ ← get_or IndexError (m !! i);
  rj ← get_or IndexError (m !! j);
  let m := <[i := rj]> m in
  ri ← get_or IndexError (m !! i);
  Ok (<[j := ri]> m).

Definition swap_sampling (i j : nat) (x : SamplingState) : result SamplingState :=
  mask ← (match allowed_token_ids_mask x with
          | Some m => m ← swap_mask i j m; Ok (Some m)
          | None => Ok None
          end);
  Ok (mkSampling' (req_sets x) (swap_dict_values i j (generators x)) (num_logprobs x) (num_prompt_logprobs x) mask
        (swap_dict_values i j (bad_words x))).

Definition swap_states (i1 i2 : nat) (b : InputBatch) : result InputBatch :=
  o1 ← get_or IndexError (req_ids_ b !! i1);
  o2 ← get_or IndexError (req_ids_ b !! i2);
  ids ← np_swap i1 i2 (req_ids_ b);
  outs ← np_swap i1 i2 (req_output_token_ids b);
  id1 ← get_or AssertionError o1;
  id2 ← get_or AssertionError o2;
  x1 ← get_or KeyError (req_id_to_index b !! id1);
  x2 ← get_or KeyError (req_id_to_index b !! id2);
  let b := set_slots ids (<[id2 := x1]> (<[id1 := x2]> (req_id_to_index b))) outs b in
  r1 ← get_or IndexError (rows b !! i1);
  r2 ← get_or IndexError (rows b !! i2);
  ts ← multi_swap_row i1 i2 (block_table b);
  let b := set_rows (<[i2 := copy_row (token_ids_cpu r1) r1 r2]> (<[i1 := copy_row (token_ids_cpu r2) r2 r1]> (rows b))) ts b in
  if is_pooling_model cfg then Ok b else
  x ← swap_sampling i1 i2 (sampling_state b);
  Ok (set_sampling_state x (set_builder (note_moved (i1, i2, SWAP) (batch_update_builder b)) b)).

(** * Closing the gaps *)

(** [dict.pop(i, None)] and storing the value under [j]. *)
Definition move_key {V} (i j : nat) (m : gmap nat V) : gmap nat V := set_opt j (m !! i) (delete i m).

Definition move_sampling (i j : nat) (x : SamplingState) : result SamplingState :=
  mask ← (match allowed_token_ids_mask x with
          | Some m => row ← get_or IndexError (m !! i); m ← np_alter j (fun _ => Ok row) m; Ok (Some m)
          | None => Ok None
          end);
  Ok (mkSampling' (req_sets x) (move_key i j (generators x)) (num_logprobs x) (num_prompt_logprobs x) mask (move_key i j (bad_words x))).

(** One move of [condense]: the request in row [last] moves to the empty row
    [e]. *)
Definition move_request (last e : nat) (b : InputBatch) : result InputBatch :=
  o ← get_or IndexError (req_ids_ b !! last);
  out ← get_or IndexError (req_output_token_ids b !! last);
  id ← get_or AssertionError o;
  ids ← np_alter e (fun _ => Ok o) (req_ids_ b);
  outs ← np_alter e (fun _ => Ok out) (req_output_token_ids b);
  let b := set_slots (<[last := None]> ids) (<[id := e]> (req_id_to_index b)) (<[last := None]> outs) b in
  src ← get_or IndexError (rows b !! last);
  dst ← get_or IndexError (rows b !! e);
  toks ← np_write 0 (take (row_num_tokens src) (token_ids_cpu src)) (token_ids_cpu dst);
  ts ← multi_move_row last e (block_table b);
  let b := set_rows (<[e := copy_row toks src dst]> (rows b)) ts b in
  if is_pooling_model cfg then Ok b else
  x ← move_sampling last e (sampling_state b);
  Ok (set_sampling_state x (set_builder (note_moved (last, e, UNIDIRECTIONAL) (batch_update_builder b)) b)).

(** [while last_req_index in empty_req_indices: last_req_index -= 1], from
    [last_req_index = n - 1]; [None] is -1. *)
Fixpoint last_active (n : nat) (empty : list nat) : option nat :=
  match n with
  | O => None
  | S m => if decide (m ∈ empty) then last_active m empty else Some m
  end.

Fixpoint condense_loop (fuel n : nat) (b : InputBatch) : result InputBatch :=
  match fuel with
  | O => Err OutOfFuel
  | S fuel =>
      let empty := removed_ (batch_update_builder b) in
      match peek_removed (batch_update_builder b) with
      | (None, _) => Ok b
      | (Some e, u) =>
          match last_active n empty with
          | None => Ok (set_builder u b)
          | Some l =>
              if (l <=? e)%nat then Ok (set_builder u b) else
              b ← move_request l e (set_builder (pop_removed u).2 b);
              condense_loop fuel l b
          end
      end
  end.

Definition condense (b : InputBatch) : result InputBatch :=
  let n := num_reqs b in
  let b := set_builder (ensure_removed_sorted (batch_update_builder b)) b in
  let empty := removed_ (batch_update_builder b) in
  match empty with
  | [] => Ok b
  | _ =>
      if (n =? 0)%nat then Ok (set_slots [] (req_id_to_index b) [] b) else
      b ← condense_loop (S (length empty)) (n + length empty) b;
      Ok (set_slots (take n (req_ids_ b)) (req_id_to_index b) (take n (req_output_token_ids b)) b)
  end.

(** [refresh_metadata]: the changes of the step for the logits processors. *)
Definition refresh_metadata (b : InputBatch) : option BatchUpdate * InputBatch :=
  if is_pooling_model cfg then (None, set_builder (builder_reset (batch_update_builder b)).2 b)
  else let '(u, bd) := get_and_reset (num_reqs b) (batch_update_builder b) in (u, set_builder bd b).
End Batch.
