(* ===== verification/BatchInv.v ===== *)
(** The persistent batch refines a map from request ids to what the worker knows
    of them: whatever requests leave, arrive, move or are exchanged, each request
    of the batch has one row, with exactly its tokens, block ids, computed count
    and sampling parameters, and after [condense] the rows are the first ones.

    The properties are stated for a view [V] that gives each request id its
    cached state, its output tokens and the draft tokens of this step; the rows
    are related to [V], and the caller relates [V] to the runner's dictionary. *)
From Stdlib Require Import ZArith Lia String QArith Qcanon.
From stdpp Require Import numbers gmap strings list sorting.
From S2P Require Import Prelude Request BlockTable InputBatch.

Open Scope Z_scope.

(** * The lowest gap *)

Lemma sort_desc_perm l : sort_desc l ≡ₚ l.
Proof. unfold sort_desc. by rewrite reverse_Permutation, merge_sort_Permutation. Qed.

Lemma sorted_rev_ge (l : list nat) : StronglySorted Nat.le l -> StronglySorted ge (reverse l).
Proof.
  induction 1 as [|x l Hs IH HF]; [constructor|]. rewrite reverse_cons. apply StronglySorted_app; split_and!; [|exact IH|repeat constructor].
  intros y z Hy Hz. apply list_elem_of_singleton in Hz as ->. rewrite elem_of_reverse in Hy. rewrite Forall_forall in HF. specialize (HF y Hy). lia.
Qed.

Lemma sort_desc_sorted l : StronglySorted ge (sort_desc l).
Proof. apply sorted_rev_ge. apply StronglySorted_merge_sort; intros ?; lia. Qed.

(** The removed indices are distinct, and in descending order once they were
    read. *)
Record removed_ok (u : BatchUpdateBuilder) : Prop := {
  rk_nodup : NoDup (removed_ u);
  rk_sorted : is_removed_sorted u = true -> StronglySorted ge (removed_ u)
}.

Lemma ensure_sorted_spec u : removed_ok u ->
  removed_ok (ensure_removed_sorted u) /\ is_removed_sorted (ensure_removed_sorted u) = true /\
  removed_ (ensure_removed_sorted u) ≡ₚ removed_ u /\ moved (ensure_removed_sorted u) = moved u /\ added (ensure_removed_sorted u) = added u.
Proof.
  intros [H1 H2]. unfold ensure_removed_sorted. destruct (is_removed_sorted u) eqn:E; [by split_and!; try done; split; [|auto]|]. cbn.
  split_and!; try done; [|apply sort_desc_perm]. split; cbn; [by rewrite sort_desc_perm|intros _; apply sort_desc_sorted].
Qed.

(** The last of a descending list is its smallest element. *)
Lemma sorted_ge_last (l : list nat) x y : StronglySorted ge (l ++ [x]) -> y ∈ l ++ [x] -> (x <= y)%nat.
Proof.
  intros Hs Hy. apply elem_of_app in Hy as [Hy|Hy%list_elem_of_singleton]; [|lia].
  apply (StronglySorted_app_1_elem_of _ _ _ y x) in Hs; [lia|done|by left].
Qed.

Lemma pop_removed_spec u : removed_ok u ->
  match pop_removed u with
  | (None, u') => u' = u /\ removed_ u = []
  | (Some i, u') => removed_ u ≡ₚ i :: removed_ u' /\ (forall j, j ∈ removed_ u -> (i <= j)%nat) /\ removed_ok u' /\
      moved u' = moved u /\ added u' = added u
  end.
Proof.
  intros Hok. unfold pop_removed. destruct (removed_ u) as [|x l] eqn:E; [done|]. assert (Hne : removed_ u ≠ []) by (by rewrite E). rewrite <-E. clear x l E.
  destruct (ensure_sorted_spec u Hok) as ([K1 K2] & Hs & Hp & Hm & Ha). set (v := ensure_removed_sorted u) in *.
  specialize (K2 Hs). assert (Hl : removed_ v = [] \/ exists l y, removed_ v = l ++ [y]).
  { destruct (removed_ v) as [|y l] using rev_ind; [by left|right; by eexists _, _]. }
  destruct Hl as [Hl|(l & y & Hl)]; rewrite Hl in *; cbn [last].
  { by apply Permutation_nil_l in Hp. }
  rewrite last_snoc, length_app, Nat.add_sub, take_app_length. cbn [removed_ is_removed_sorted moved added].
  split; [rewrite <-Hp; apply Permutation_sym, Permutation_cons_append|]. split_and!; try done.
  - intros j Hj. rewrite <-Hp in Hj. by eapply sorted_ge_last.
  - split; cbn; [by apply NoDup_app in K1 as (? & _)|]. intros _. by apply StronglySorted_app in K2 as (_ & ? & _).
Qed.

Lemma peek_removed_spec u : removed_ok u ->
  peek_removed u = ((pop_removed u).1, if decide (removed_ u = []) then u else ensure_removed_sorted u).
Proof. intros Hok. unfold peek_removed, pop_removed. by destruct (removed_ u) eqn:E. Qed.

(** * Rows and requests *)

Record Slot := mkSlot { sl_state : CachedRequestState; sl_out : list Z; sl_spec : list Z }.

Definition slot_tokens (s : Slot) : list Z := rs_prompt_token_ids (sl_state s) ++ sl_out s.

Definition lora_of (c : CachedRequestState) : Z := match rs_lora_request c with Some l => lora_int_id l | None => 0 end.

Section Inv.
Context (cfg : BatchConfig).

(** Generation models have sampling parameters, pooling models pooling
    parameters. *)
Definition right_kind (c : CachedRequestState) : Prop :=
  if is_pooling_model cfg then rs_sampling_params c = None /\ is_Some (rs_pooling_params c) else is_Some (rs_sampling_params c).

Record row_ok (s : Slot) (r : Row) : Prop := {
  ro_tokens : (slot_tokens s ++ sl_spec s) `prefix_of` token_ids_cpu r;
  ro_num_tokens : row_num_tokens r = length (slot_tokens s ++ sl_spec s);
  ro_no_spec : num_tokens_no_spec r = length (slot_tokens s);
  ro_prompt : row_num_prompt_tokens r = length (rs_prompt_token_ids (sl_state s));
  ro_computed : num_computed_tokens_cpu r = rs_num_computed_tokens (sl_state s);
  ro_lora : request_lora_mapping r = lora_of (sl_state s);
  ro_sampling : forall sp, rs_sampling_params (sl_state s) = Some sp -> sampling_row r = sampling_row_of cfg (sampler sp)
}.

(** Row [i] of the batch belongs to request [id] with slot [s]. *)
Record slot_at (b : InputBatch) (i : nat) (id : string) (s : Slot) : Prop := {
  sa_id : rs_req_id (sl_state s) = id;
  sa_kind : right_kind (sl_state s);
  sa_row : exists r, rows b !! i = Some r /\ row_ok s r;
  sa_blocks : rows_are (block_table b) i (rs_block_ids (sl_state s));
  sa_out : req_output_token_ids b !! i = Some (Some (rs_output_token_ids (sl_state s)))
}.

Record core_inv (V : gmap string Slot) (b : InputBatch) : Prop := {
  ci_index : forall id i, req_id_to_index b !! id = Some i <-> req_ids_ b !! i = Some (Some id);
  ci_len : (length (req_ids_ b) <= max_num_reqs cfg)%nat;
  ci_outs : length (req_output_token_ids b) = length (req_ids_ b);
  ci_rows : length (rows b) = max_num_reqs cfg;
  ci_width : Forall (fun r => length (token_ids_cpu r) = batch_max_model_len cfg) (rows b);
  ci_tables : Forall (table_ok (max_num_reqs cfg)) (block_table b);
  ci_slot : forall i id, req_ids_ b !! i = Some (Some id) -> exists s, V !! id = Some s /\ slot_at b i id s
}.

(** The empty rows among the first ones are those recorded as removed. *)
Record holes_inv (b : InputBatch) : Prop := {
  hi_holes : forall i, i ∈ removed_ (batch_update_builder b) <-> req_ids_ b !! i = Some None;
  hi_ok : removed_ok (batch_update_builder b)
}.

(** No row before the end is empty. *)
Definition dense (b : InputBatch) : Prop := Forall (fun o => o ≠ None) (req_ids_ b).

(** ** Counting rows *)

Lemma index_inj V b id id' i : core_inv V b -> req_id_to_index b !! id = Some i -> req_id_to_index b !! id' = Some i -> id = id'.
Proof. intros H E1 E2. apply (ci_index _ _ H) in E1, E2. by simplify_eq. Qed.

(** The requests of the batch are as many as the occupied rows. *)
Lemma size_omap {K} `{Countable K} (l : list (option K)) (m : gmap K nat) :
  (forall k i, m !! k = Some i <-> l !! i = Some (Some k)) -> size m = length (omap id l).
Proof.
  revert m. induction l as [|o l IH] using rev_ind; intros m Hm.
  { replace m with (∅ : gmap K nat); [done|]. symmetry. apply map_empty. intros k. apply eq_None_not_Some. intros [i Hi%Hm]. done. }
  rewrite omap_app, length_app. destruct o as [k|]; cbn; [|rewrite Nat.add_0_r].
  - assert (Ek : m !! k = Some (length l)) by (apply Hm; apply lookup_snoc_Some; by right).
    rewrite <-(insert_delete_id m k _ Ek), map_size_insert_None by apply lookup_delete_eq. rewrite Nat.add_1_r. f_equal. apply IH. intros k' i.
    destruct (decide (k = k')) as [<- |Hne].
    + rewrite lookup_delete_eq. split; [done|]. intros E. assert (E' : (l ++ [Some k]) !! i = Some (Some k)) by (by apply lookup_app_l_Some).
      apply Hm in E'. rewrite Ek in E'. injection E' as <-. apply lookup_lt_Some in E. lia.
    + rewrite lookup_delete_ne by done. rewrite Hm, lookup_snoc_Some. split; [intros [[_ ?]|[_ ?]]; [done|by simplify_eq]|].
      intros E. left. split; [by eapply lookup_lt_Some|done].
  - apply IH. intros k i. rewrite Hm, lookup_snoc_Some. split; [intros [[_ ?]|[_ ?]]; done|]. intros E. left. split; [by eapply lookup_lt_Some|done].
Qed.

Lemma holes_count {K} (l : list (option K)) : forall h, NoDup h -> (forall i, i ∈ h <-> l !! i = Some None) ->
  (length (omap id l) + length h = length l)%nat.
Proof.
  induction l as [|o l IH] using rev_ind; intros h Hnd Hh.
  { destruct h as [|i h]; [done|]. by pose proof (proj1 (Hh i) ltac:(by left)). }
  rewrite omap_app, !length_app. destruct o as [k|]; cbn.
  - rewrite <-(IH h Hnd); [lia|]. intros i. rewrite Hh, lookup_snoc_Some. split; [intros [[_ ?]|[_ ?]]; done|].
    intros E. left. split; [by eapply lookup_lt_Some|done].
  - assert (Hin : length l ∈ h) by (apply Hh; apply lookup_snoc_Some; by right). apply elem_of_Permutation in Hin as [h' Hp].
    rewrite Hp in Hnd |- *. apply NoDup_cons in Hnd as [Hni Hnd]. cbn. rewrite <-(IH h' Hnd); [lia|]. intros i. split.
    + intros Hi. assert (E : (l ++ [None]) !! i = Some None) by (apply Hh; rewrite Hp; by right). apply lookup_snoc_Some in E as [[_ E]|[-> _]]; [done|]. done.
    + intros E. assert (Hi : i ∈ h) by (apply Hh; by apply lookup_app_l_Some). rewrite Hp in Hi. apply elem_of_cons in Hi as [->|Hi]; [|done].
      apply lookup_lt_Some in E. lia.
Qed.

Lemma count_rows V b : core_inv V b -> holes_inv b -> (num_reqs b + length (removed_ (batch_update_builder b)) = length (req_ids_ b))%nat.
Proof.
  intros HC HH. unfold num_reqs. rewrite (size_omap (req_ids_ b)) by apply (ci_index _ _ HC).
  apply holes_count; [apply (rk_nodup _ (hi_ok _ HH))|apply (hi_holes _ HH)].
Qed.

(** Slots of other rows survive a change of row [i]. *)
Lemma slot_at_keep b b' j id s : rows b' !! j = rows b !! j -> req_output_token_ids b' !! j = req_output_token_ids b !! j ->
  (forall idss, rows_are (block_table b) j idss -> rows_are (block_table b') j idss) -> slot_at b j id s -> slot_at b' j id s.
Proof. intros E1 E2 Ht [H1 H2 H3 H4 H5]. split; try done; [by rewrite E1|by apply Ht|by rewrite E2]. Qed.

(** ** Removing a request *)

(** What does not concern the slots: sampling, LoRA and pooling state. *)
Definition same_core (b b' : InputBatch) : Prop :=
  req_ids_ b' = req_ids_ b /\ req_id_to_index b' = req_id_to_index b /\ rows b' = rows b /\ block_table b' = block_table b /\
  req_output_token_ids b' = req_output_token_ids b.

Lemma same_core_inv V b b' : same_core b b' -> core_inv V b -> core_inv V b'.
Proof.
  intros (E1 & E2 & E3 & E4 & E5) [H1 H2 H3 H4 H5 H6 H7]. split; rewrite ?E1, ?E2, ?E3, ?E4, ?E5; try done. intros i id E.
  destruct (H7 i id E) as (s & Hs & Ha). exists s. split; [done|]. apply (slot_at_keep b); rewrite ?E3, ?E4, ?E5; done.
Qed.

Lemma same_holes b b' : req_ids_ b' = req_ids_ b -> batch_update_builder b' = batch_update_builder b -> holes_inv b -> holes_inv b'.
Proof. intros E1 E2 [H1 H2]. by split; rewrite ?E1, ?E2. Qed.

(** The core of [batch_remove_request]. *)
Definition drop_slot (i : nat) (id : string) (row : Row) (u : BatchUpdateBuilder) (b : InputBatch) : InputBatch :=
  set_rows (<[i := set_row_lora 0 row]> (rows b)) (block_table b)
    (set_builder u (set_slots (<[i := None]> (req_ids_ b)) (delete id (req_id_to_index b)) (<[i := None]> (req_output_token_ids b)) b)).

(** The request of row [i] leaves the lists. *)
Definition clear_slot (i : nat) (id : string) (b : InputBatch) : InputBatch :=
  set_slots (<[i := None]> (req_ids_ b)) (delete id (req_id_to_index b)) (<[i := None]> (req_output_token_ids b)) b.

Lemma clear_slot_core V b i id : core_inv V b -> req_id_to_index b !! id = Some i -> core_inv V (clear_slot i id b).
Proof.
  intros HC Ei. pose proof (proj1 (ci_index _ _ HC id i) Ei) as Eo. destruct HC as [H1 H2 H3 H4 H5 H6 H7].
  pose proof (lookup_lt_Some _ _ _ Eo) as Hlt. split; cbn; rewrite ?length_insert; try done.
  - intros id' j. destruct (decide (id = id')) as [<- |Hne].
    + rewrite lookup_delete_eq. split; [done|]. intros E. destruct (decide (i = j)) as [<- |Hj]; [by rewrite list_lookup_insert_eq in E|].
      rewrite list_lookup_insert_ne in E by done. apply H1 in E. congruence.
    + rewrite lookup_delete_ne by done. rewrite H1. destruct (decide (i = j)) as [<- |Hj]; [|by rewrite list_lookup_insert_ne].
      rewrite list_lookup_insert_eq by done. split; [intros E|done]. by simplify_eq.
  - intros j id' E. destruct (decide (i = j)) as [<- |Hj]; [by rewrite list_lookup_insert_eq in E|]. rewrite list_lookup_insert_ne in E by done.
    destruct (H7 j id' E) as (s & Hs & Ha). exists s. split; [done|]. by apply (slot_at_keep b); cbn; rewrite ?list_lookup_insert_ne.
Qed.

(** A row without a request can hold anything. *)
Lemma free_row_core V b i r : core_inv V b -> (forall id, req_ids_ b !! i ≠ Some (Some id)) -> length (token_ids_cpu r) = batch_max_model_len cfg ->
  core_inv V (set_rows (<[i := r]> (rows b)) (block_table b) b).
Proof.
  intros [H1 H2 H3 H4 H5 H6 H7] Hfree Hr. split; cbn; rewrite ?length_insert; try done; [by apply Forall_insert|]. intros j id E.
  destruct (H7 j id E) as (s & Hs & Ha). exists s. split; [done|]. apply (slot_at_keep b); cbn; try done.
  apply list_lookup_insert_ne. intros ->. by eapply Hfree.
Qed.

Lemma drop_slot_core V b i id row u : core_inv V b -> req_id_to_index b !! id = Some i -> rows b !! i = Some row -> core_inv V (drop_slot i id row u b).
Proof.
  intros HC Ei Er. apply (same_core_inv _ (set_rows (<[i := set_row_lora 0 row]> (rows b)) (block_table b) (clear_slot i id b))); [done|].
  apply (free_row_core V (clear_slot i id b)); [by apply clear_slot_core| |by apply (proj1 (Forall_lookup _ _) (ci_width _ _ HC) _ _ Er)].
  intros id'. cbn. rewrite list_lookup_insert_eq; [done|]. apply (ci_index _ _ HC) in Ei. by eapply lookup_lt_Some.
Qed.

Lemma drop_slot_holes V b i id row : core_inv V b -> holes_inv b -> req_id_to_index b !! id = Some i ->
  is_removed_sorted (batch_update_builder b) = false ->
  exists u, removed_append i (batch_update_builder b) = Ok u /\ is_removed_sorted u = false /\ holes_inv (drop_slot i id row u b) /\
    moved u = moved (batch_update_builder b) /\ added u = added (batch_update_builder b) /\ removed_ u = removed_ (batch_update_builder b) ++ [i].
Proof.
  intros HC [K1 [K2 K3]] Ei Hs. pose proof (proj1 (ci_index _ _ HC id i) Ei) as Eo. unfold removed_append. rewrite Hs. eexists. split; [done|]. cbn.
  split; [done|]. split; [|done]. split; cbn.
  - intros j. rewrite elem_of_app, list_elem_of_singleton, K1. destruct (decide (i = j)) as [<- |Hj].
    + rewrite list_lookup_insert_eq by (by eapply lookup_lt_Some). naive_solver.
    + rewrite list_lookup_insert_ne by done. naive_solver.
  - split; cbn; [|done]. apply NoDup_app. split_and!; [done| |apply NoDup_singleton]. intros j Hj ->%list_elem_of_singleton. apply K1 in Hj. congruence.
Qed.

(** ** Adding a request *)

Lemma put_at_spec {A} i (x : A) l : (i <= length l)%nat ->
  exists l', put_at i x l = Ok l' /\ length l' = Nat.max (length l) (S i) /\ forall j, l' !! j = if decide (j = i) then Some x else l !! j.
Proof.
  intros Hi. unfold put_at. destruct (decide (i = length l)) as [-> |Hne].
  - rewrite Nat.eqb_refl. eexists. split; [done|]. rewrite length_app. cbn. split; [lia|]. intros j. destruct (decide (j = length l)) as [-> |Hj].
    + apply lookup_snoc_Some. by right.
    + destruct (decide (j < length l)%nat); [by rewrite lookup_app_l|]. rewrite lookup_app_r by lia. rewrite (lookup_ge_None_2 l j) by lia.
      destruct (j - length l)%nat eqn:E; [lia|done].
  - rewrite (proj2 (Nat.eqb_neq _ _) Hne), (proj2 (Nat.ltb_lt _ _)) by lia. eexists. split; [done|]. rewrite length_insert. split; [lia|]. intros j.
    destruct (decide (j = i)) as [-> |Hj]; [by rewrite list_lookup_insert_eq by lia|by rewrite list_lookup_insert_ne].
Qed.

Lemma fill_row_spec c out r : length (token_ids_cpu r) = batch_max_model_len cfg ->
  (length (rs_prompt_token_ids c) + length out <= batch_max_model_len cfg)%nat ->
  exists r', fill_row cfg c out r = Ok r' /\ row_ok (mkSlot c out []) r' /\ length (token_ids_cpu r') = batch_max_model_len cfg.
Proof.
  intros Hw Hlen. unfold fill_row. rewrite np_write_ok by lia. cbn [mbind result_bind]. set (toks := take 0 _ ++ _).
  assert (Ht : length toks = length (token_ids_cpu r)) by (apply np_write_length; lia). rewrite np_write_ok by lia. cbn [mbind result_bind].
  assert (Hp : rs_prompt_token_ids c `prefix_of` toks).
  { unfold toks. rewrite take_0, app_nil_l. by eexists. }
  eexists. split; [done|]. split; [|cbn; rewrite np_write_length; lia].
  split; cbn; unfold slot_tokens; cbn [sl_state sl_out]; rewrite ?app_nil_r, ?length_app; try done; [by apply np_write_prefix|].
  intros sp ->. done.
Qed.

(** The index a new request gets, and the removed indices afterwards. *)
Lemma register_spec V b c : core_inv V b -> holes_inv b -> (num_reqs b < max_num_reqs cfg)%nat ->
  exists i u, register_add_request cfg c b = Ok (i, set_builder u b) /\ (i < max_num_reqs cfg)%nat /\ (i <= length (req_ids_ b))%nat /\
    req_ids_ b !! i ≠ Some (Some (rs_req_id c)) /\ (forall id, req_ids_ b !! i ≠ Some (Some id)) /\
    (forall j, j ∈ removed_ u <-> j ∈ removed_ (batch_update_builder b) /\ j ≠ i) /\ removed_ok u /\ moved u = moved (batch_update_builder b) /\
    added u = added (batch_update_builder b) ++ option_list ((fun sp => mkAdded i sp (rs_prompt_token_ids c) (rs_output_token_ids c)) <$> rs_sampling_params c).
Proof.
  intros HC HH Hn. pose proof (count_rows _ _ HC HH) as Hcount. unfold register_add_request.
  pose proof (pop_removed_spec _ (hi_ok _ HH)) as Hpop. destruct (pop_removed (batch_update_builder b)) as [[i|] u]; cbv beta iota zeta delta [default from_option id].
  - destruct Hpop as (Hp & Hmin & Hu & Hm & Ha). assert (Hi : i ∈ removed_ (batch_update_builder b)) by (rewrite Hp; by left).
    pose proof (proj1 (hi_holes _ HH i) Hi) as Eo. pose proof (lookup_lt_Some _ _ _ Eo) as Hlt. pose proof (ci_len _ _ HC).
    rewrite (proj2 (Nat.ltb_lt i (max_num_reqs cfg))) by lia. cbn. eexists _, _. split; [done|]. rewrite Eo. split_and!; try done; [lia|lia|..].
    + cbn. intros j. rewrite Hp, elem_of_cons. pose proof (rk_nodup _ (hi_ok _ HH)) as Hnd. rewrite Hp in Hnd. apply NoDup_cons in Hnd as [Hni _].
      split; [|by intros [[->|?] ?]]. intros Hj. split; [by right|]. intros ->. done.
    + destruct Hu as [U1 U2]. by split.
    + cbn. by rewrite Ha.
  - destruct Hpop as (-> & Hnil). rewrite Hnil in *. cbn in Hcount. rewrite (proj2 (Nat.ltb_lt _ _) Hn). cbn. eexists _, _. split; [done|].
    rewrite (lookup_ge_None_2 (req_ids_ b)) by lia. split_and!; try done; [lia|..].
    + cbn. rewrite Hnil. intros j. split; [by intros ?%not_elem_of_nil|by intros [?%not_elem_of_nil _]].
    + destruct (hi_ok _ HH) as [U1 U2]. by split.
Qed.

(** The mask has a row per index, and the allowed tokens of a request are tokens
    of the vocabulary. *)
Definition mask_ok (b : InputBatch) : Prop := forall m, allowed_token_ids_mask (sampling_state b) = Some m -> length m = max_num_reqs cfg.

Definition params_ok (c : CachedRequestState) : Prop :=
  forall sp toks, rs_sampling_params c = Some sp -> allowed_token_ids (sampler sp) = Some toks -> exists row, mask_row cfg toks = Ok row.

Lemma mask_row_ok toks : Forall (fun t => 0 <= t < vocab_size cfg) toks -> exists row, mask_row cfg toks = Ok row.
Proof.
  intros H. unfold mask_row. assert (Hl : zlen (replicate (Z.to_nat (vocab_size cfg)) true) = Z.max 0 (vocab_size cfg)) by (unfold zlen; rewrite length_replicate; lia).
  revert Hl. generalize (replicate (Z.to_nat (vocab_size cfg)) true). induction H as [|t toks Ht H IH]; intros row Hl; cbn; [by eexists|].
  unfold allow. rewrite (proj2 (Z.ltb_ge t 0)) by lia. rewrite (proj2 (Z.ltb_ge t 0)), (proj2 (Z.leb_gt _ _)) by lia. cbn. apply IH.
  unfold zlen in *. by rewrite length_insert.
Qed.

Lemma add_sampling_ok b i id sp c : mask_ok b -> params_ok c -> rs_sampling_params c = Some sp -> (i < max_num_reqs cfg)%nat ->
  exists x, add_sampling cfg i id sp (rs_generator c) (sampling_state b) = Ok x /\
    forall m, allowed_token_ids_mask x = Some m -> length m = max_num_reqs cfg.
Proof.
  intros Hm Hp Esp Hi. unfold add_sampling, add_mask. destruct (allowed_token_ids (sampler sp)) as [[|t toks]|] eqn:Ea; try (eexists; split; [done|exact Hm]).
  destruct (Hp _ _ Esp Ea) as [row Er]. rewrite Er. cbn [mbind result_bind].
  set (m0 := default _ _). assert (Hl : length m0 = max_num_reqs cfg).
  { unfold m0. destruct (allowed_token_ids_mask (sampling_state b)) as [m|] eqn:E; cbn; [by apply Hm|by rewrite length_replicate]. }
  destruct (lookup_lt_is_Some_2 m0 i) as [r0 Er0]; [lia|]. rewrite (np_alter_ok _ _ _ _ row Er0 eq_refl). cbn [mbind result_bind].
  eexists. split; [done|]. cbn. intros m [= <-]. by rewrite length_insert.
Qed.

(** Row [i] belongs to request [id] now; the other rows are as before. *)
Definition slots_set (i : nat) (o : option string) (b b' : InputBatch) : Prop :=
  forall j, req_ids_ b' !! j = if decide (j = i) then Some o else req_ids_ b !! j.

(** A request is placed into a free row. *)
Record placed (i : nat) (id : string) (s : Slot) (b b' : InputBatch) : Prop := {
  pl_ids : slots_set i (Some id) b b';
  pl_len : (length (req_ids_ b') <= max_num_reqs cfg)%nat;
  pl_index : req_id_to_index b' = <[id := i]> (req_id_to_index b);
  pl_outs_len : length (req_output_token_ids b') = length (req_ids_ b');
  pl_outs : forall j, req_output_token_ids b' !! j = if decide (j = i) then Some (Some (rs_output_token_ids (sl_state s))) else req_output_token_ids b !! j;
  pl_row : exists r, rows b' = <[i := r]> (rows b) /\ row_ok s r /\ length (token_ids_cpu r) = batch_max_model_len cfg;
  pl_tables : Forall (table_ok (max_num_reqs cfg)) (block_table b');
  pl_blocks : rows_are (block_table b') i (rs_block_ids (sl_state s));
  pl_kept : tables_kept i (block_table b) (block_table b')
}.

Lemma placed_core V b b' i id s : core_inv V b -> placed i id s b b' -> (i < max_num_reqs cfg)%nat -> (forall id', req_ids_ b !! i ≠ Some (Some id')) ->
  req_id_to_index b !! id = None -> rs_req_id (sl_state s) = id -> right_kind (sl_state s) -> core_inv (<[id := s]> V) b'.
Proof.
  intros [H1 H2 H3 H4 H5 H6 H7] [P1 P2 P3 P4 P5 (r & P6 & P7 & P8) P9 P10 P11] Hi Hfree Hnew Hid Hk. split; try done.
  - intros id' j. rewrite P1, P3. destruct (decide (id' = id)) as [-> |Hne].
    + rewrite lookup_insert_eq. destruct (decide (j = i)) as [-> |Hj]; [done|]. split; [congruence|]. intros E%H1. congruence.
    + rewrite lookup_insert_ne by done. rewrite H1. destruct (decide (j = i)) as [-> |Hj]; [|done]. split; [by intros E%Hfree|congruence].
  - by rewrite P6, length_insert.
  - rewrite P6. by apply Forall_insert.
  - intros j id'. rewrite P1. destruct (decide (j = i)) as [-> |Hj].
    + intros [= <-]. exists s. rewrite lookup_insert_eq. split; [done|]. split; try done.
      * exists r. by rewrite P6, list_lookup_insert_eq by lia.
      * by rewrite P5, decide_True.
    + intros E. destruct (H7 j id' E) as (s' & Hs & Ha). exists s'. assert (id' ≠ id) by (intros ->; apply H1 in E; congruence).
      rewrite lookup_insert_ne by done. split; [done|]. apply (slot_at_keep b); try done; [by rewrite P6, list_lookup_insert_ne|by rewrite P5, decide_False|].
      intros idss. by apply P11.
Qed.

(** ** LoRA adapters *)

(** The slot of a request that is in the batch, and the slot of a row. *)
Definition held (V : gmap string Slot) (b : InputBatch) (id : string) : option Slot := _ ← req_id_to_index b !! id; V !! id.
Definition row_slot (V : gmap string Slot) (b : InputBatch) (i : nat) : option Slot := id ← mjoin (req_ids_ b !! i); V !! id.

Definition lora_wf (c : CachedRequestState) : Prop := forall l, rs_lora_request c = Some l -> lora_int_id l ≠ 0.

(** An adapter is registered as long as a request of the batch uses it, with
    exactly these requests. *)
Record lora_inv (f : string -> option Slot) (x : LoraState) : Prop := {
  li_users : forall l id, id ∈ default ∅ (lora_id_to_request_ids x !! l) <-> exists s, f id = Some s /\ lora_of (sl_state s) = l /\ l ≠ 0;
  li_nonempty : forall l X, lora_id_to_request_ids x !! l = Some X -> X ≠ ∅;
  li_dom : forall l, is_Some (lora_id_to_request_ids x !! l) <-> is_Some (lora_id_to_lora_request x !! l)
}.

Lemma add_lora_inv f f' x id s : lora_inv f x -> f id = None -> lora_wf (sl_state s) ->
  (forall id', f' id' = if decide (id' = id) then Some s else f id') -> lora_inv f' (add_lora id (rs_lora_request (sl_state s)) x).
Proof.
  intros [H1 H2 H3] Hnew Hwf Hf'. unfold add_lora. destruct (rs_lora_request (sl_state s)) as [lr|] eqn:El.
  - specialize (Hwf lr El). assert (Hl : lora_of (sl_state s) = lora_int_id lr) by (unfold lora_of; by rewrite El). split; cbn.
    + intros l id'. rewrite Hf'. destruct (decide (l = lora_int_id lr)) as [-> |Hne].
      * rewrite lookup_insert_eq. cbn. rewrite elem_of_union, elem_of_singleton, H1. destruct (decide (id' = id)) as [-> |Hid]; [naive_solver|].
        split; [by intros [?|?]|by right].
      * rewrite lookup_insert_ne, H1 by done. destruct (decide (id' = id)) as [-> |Hid]; [|done]. rewrite Hnew. split; [naive_solver|].
        intros (s' & [= <-] & Hs & _). congruence.
    + intros l X. destruct (decide (l = lora_int_id lr)) as [-> |Hne]; [rewrite lookup_insert_eq; intros [= <-]; set_solver|].
      rewrite lookup_insert_ne by done. apply H2.
    + intros l. destruct (decide (l = lora_int_id lr)) as [-> |Hne]; [by rewrite !lookup_insert_eq|]. by rewrite !lookup_insert_ne.
  - assert (Hl : lora_of (sl_state s) = 0) by (unfold lora_of; by rewrite El). split; [|done..]. intros l id'. rewrite Hf', H1.
    destruct (decide (id' = id)) as [-> |Hid]; [|done]. rewrite Hnew. naive_solver.
Qed.

Lemma remove_lora_inv f f' x id s : lora_inv f x -> f id = Some s -> (forall id', f' id' = if decide (id' = id) then None else f id') ->
  exists x', remove_lora id (lora_of (sl_state s)) x = Ok x' /\ lora_inv f' x'.
Proof.
  intros [H1 H2 H3] Hid Hf'. unfold remove_lora. destruct (Z.eqb_spec (lora_of (sl_state s)) 0) as [Hz|Hz].
  { eexists. split; [done|]. split; [|done..]. intros l id'. rewrite Hf', H1. destruct (decide (id' = id)) as [-> |Hne]; naive_solver. }
  set (l := lora_of (sl_state s)) in *. assert (Hin : id ∈ default ∅ (lora_id_to_request_ids x !! l)) by (apply H1; by exists s).
  destruct (lora_id_to_request_ids x !! l) as [X|] eqn:EX; [|cbn in Hin; set_solver]. cbn [get_or mbind result_bind default] in *.
  assert (Hother : forall id', id' ∈ X ∖ {[id]} <-> exists s', f' id' = Some s' /\ lora_of (sl_state s') = l /\ l ≠ 0).
  { intros id'. specialize (H1 l id'). rewrite EX in H1. cbn in H1. rewrite elem_of_difference, elem_of_singleton, H1, Hf'.
    destruct (decide (id' = id)); naive_solver. }
  assert (Hrest : forall l' id', l' ≠ l -> (exists s', f' id' = Some s' /\ lora_of (sl_state s') = l' /\ l' ≠ 0) <->
    (exists s', f id' = Some s' /\ lora_of (sl_state s') = l' /\ l' ≠ 0)).
  { intros l' id' Hl. rewrite Hf'. destruct (decide (id' = id)) as [-> |]; [|done]. rewrite Hid. naive_solver. }
  destruct (decide (X ∖ {[id]} = ∅)) as [He|He].
  - destruct (proj1 (H3 l)) as [lr Elr]; [by rewrite EX|]. rewrite Elr. cbn. eexists. split; [done|]. split; cbn.
    + intros l' id'. destruct (decide (l' = l)) as [-> |Hl]; [rewrite lookup_delete_eq; cbn; rewrite <-Hother; set_solver|].
      rewrite lookup_delete_ne, Hrest by done. apply H1.
    + intros l' Y E. apply lookup_delete_Some in E as [_ E]. by eapply H2.
    + intros l'. destruct (decide (l' = l)) as [-> |Hl]; [by rewrite !lookup_delete_eq|]. by rewrite !lookup_delete_ne.
  - eexists. split; [done|]. split; cbn.
    + intros l' id'. destruct (decide (l' = l)) as [-> |Hl]; [rewrite lookup_insert_eq; apply Hother|]. rewrite lookup_insert_ne, Hrest by done. apply H1.
    + intros l' Y E. apply lookup_insert_Some in E as [[_ <-]|[_ E]]; [done|by eapply H2].
    + intros l'. rewrite <-H3. destruct (decide (l' = l)) as [-> |Hl]; [rewrite lookup_insert_eq, EX; done|by rewrite lookup_insert_ne].
Qed.

(** ** Sampling parameters *)

(** A value of the request of a row, or of a request id. *)
Definition gen_of (o : option Slot) : option Z := s ← o; rs_generator (sl_state s).
Definition bad_words_of (o : option Slot) : option (list (list Z)) :=
  s ← o; sp ← rs_sampling_params (sl_state s);
  match bad_words_token_ids (sampler sp) with Some ((_ :: _) as l) => Some l | _ => None end.
Definition logprobs_of_slot (p : SamplingParams -> option Z) (o : option Slot) : option Z :=
  s ← o; sp ← rs_sampling_params (sl_state s); logprobs_of cfg <$> p sp.

(** Each set holds the requests of the batch that have its feature, and each
    dictionary has the values of the requests of the batch. *)
Record samp_inv (f : string -> option Slot) (g : nat -> option Slot) (x : SamplingState) : Prop := {
  si_sets : forall n id, id ∈ req_sets x n <-> exists s sp, f id = Some s /\ rs_sampling_params (sl_state s) = Some sp /\ in_set cfg sp n = true;
  si_generators : forall i, generators x !! i = gen_of (g i);
  si_bad_words : forall i, bad_words x !! i = bad_words_of (g i);
  si_logprobs : forall id, num_logprobs x !! id = logprobs_of_slot logprobs (f id);
  si_prompt_logprobs : forall id, num_prompt_logprobs x !! id = logprobs_of_slot prompt_logprobs (f id)
}.

Lemma set_opt_lookup {V} (i j : nat) (o : option V) (m : gmap nat V) : m !! i = None ->
  set_opt i o m !! j = if decide (j = i) then o else m !! j.
Proof.
  intros Hi. unfold set_opt. destruct (decide (j = i)) as [-> |Hj]; destruct o; rewrite ?lookup_insert_eq, ?lookup_insert_ne by done; done.
Qed.

Lemma set_opt_lookup_id {V} (i j : string) (o : option V) (m : gmap string V) : m !! i = None ->
  set_opt i o m !! j = if decide (j = i) then o else m !! j.
Proof.
  intros Hi. unfold set_opt. destruct (decide (j = i)) as [-> |Hj]; destruct o; rewrite ?lookup_insert_eq, ?lookup_insert_ne by done; done.
Qed.

Lemma add_sampling_inv f g f' g' x x' i id s sp : samp_inv f g x -> f id = None -> g i = None -> rs_sampling_params (sl_state s) = Some sp ->
  (forall id', f' id' = if decide (id' = id) then Some s else f id') -> (forall j, g' j = if decide (j = i) then Some s else g j) ->
  add_sampling cfg i id sp (rs_generator (sl_state s)) x = Ok x' -> samp_inv f' g' x'.
Proof.
  intros [H1 H2 H3 H4 H5] Hf Hg Esp Hf' Hg' E. unfold add_sampling in E. apply bind_Ok in E as (mask & _ & E). injection E as <-. split; cbn.
  - intros n id'. rewrite Hf'. specialize (H1 n id'). destruct (decide (id' = id)) as [-> |Hid].
    + rewrite Hf in H1. assert (Hout : id ∉ req_sets x n) by (rewrite H1; by intros (? & ? & ? & _)). destruct (in_set cfg sp n) eqn:En.
      * split; [intros _; by exists s, sp|intros _; set_solver].
      * split; [done|]. intros (s' & sp' & [= <-] & E1 & E2). congruence.
    + destruct (in_set cfg sp n); [|done]. rewrite elem_of_union, elem_of_singleton, <-H1. split; [by intros [?|?]|by right].
  - intros j. rewrite set_opt_lookup, Hg' by (by rewrite H2, Hg). by destruct (decide (j = i)).
  - intros j. rewrite Hg'. assert (Hn : bad_words x !! i = None) by (by rewrite H3, Hg).
    destruct (bad_words_token_ids (sampler sp)) as [[|w ws]|] eqn:Ew; destruct (decide (j = i)) as [-> |Hj];
      rewrite ?lookup_insert_eq, ?lookup_insert_ne, ?H3 by done; try done; unfold bad_words_of; cbn; rewrite ?Hg, ?Esp; cbn; by rewrite Ew.
  - intros id'. rewrite set_opt_lookup_id, Hf' by (by rewrite H4, Hf). destruct (decide (id' = id)); [|done]. unfold logprobs_of_slot. cbn. by rewrite Esp.
  - intros id'. rewrite set_opt_lookup_id, Hf' by (by rewrite H5, Hf). destruct (decide (id' = id)); [|done]. unfold logprobs_of_slot. cbn. by rewrite Esp.
Qed.

Lemma remove_sampling_inv f g f' g' x i id : samp_inv f g x -> (forall m, allowed_token_ids_mask x = Some m -> length m = max_num_reqs cfg) ->
  (i < max_num_reqs cfg)%nat -> (forall id', f' id' = if decide (id' = id) then None else f id') -> (forall j, g' j = if decide (j = i) then None else g j) ->
  exists x', remove_sampling i id x = Ok x' /\ samp_inv f' g' x' /\ (forall m, allowed_token_ids_mask x' = Some m -> length m = max_num_reqs cfg).
Proof.
  intros [H1 H2 H3 H4 H5] Hm Hi Hf' Hg'. unfold remove_sampling.
  assert (Hmask : exists mask', (match allowed_token_ids_mask x with
    | Some m => m ← np_alter i (fun row => Ok (replicate (length row) false)) m; Ok (Some m) | None => Ok None end) = Ok mask' /\
    forall m, mask' = Some m -> length m = max_num_reqs cfg).
  { destruct (allowed_token_ids_mask x) as [m|]; [|by eexists]. specialize (Hm m eq_refl). destruct (lookup_lt_is_Some_2 m i) as [r Er]; [lia|].
    rewrite (np_alter_ok _ (fun row => Ok (replicate (length row) false)) _ _ _ Er eq_refl). cbn. eexists. split; [done|]. intros m' [= <-]. by rewrite length_insert. }
  destruct Hmask as (mask' & -> & Hm'). cbn [mbind result_bind]. eexists. split; [done|]. split; [|exact Hm']. split; cbn.
  - intros n id'. rewrite elem_of_difference, elem_of_singleton, H1, Hf'. destruct (decide (id' = id)) as [-> |Hid]; [|naive_solver].
    split; [by intros [_ ?]|by intros (? & ? & ? & _)].
  - intros j. rewrite Hg'. destruct (decide (j = i)) as [-> |Hj]; [apply lookup_delete_eq|by rewrite lookup_delete_ne].
  - intros j. rewrite Hg'. destruct (decide (j = i)) as [-> |Hj]; [apply lookup_delete_eq|by rewrite lookup_delete_ne].
  - intros id'. rewrite Hf'. destruct (decide (id' = id)) as [-> |Hj]; [apply lookup_delete_eq|by rewrite lookup_delete_ne].
  - intros id'. rewrite Hf'. destruct (decide (id' = id)) as [-> |Hj]; [apply lookup_delete_eq|by rewrite lookup_delete_ne].
Qed.

Lemma move_key_lookup {V} i j (m : gmap nat V) k : i ≠ j -> m !! j = None ->
  move_key i j m !! k = if decide (k = j) then m !! i else if decide (k = i) then None else m !! k.
Proof.
  intros Hij Hj. unfold move_key. rewrite set_opt_lookup by (by rewrite lookup_delete_ne). destruct (decide (k = j)); [done|].
  destruct (decide (k = i)) as [-> |Hk]; [apply lookup_delete_eq|by rewrite lookup_delete_ne].
Qed.

Lemma move_sampling_inv f g f' g' x i j : samp_inv f g x -> (forall m, allowed_token_ids_mask x = Some m -> length m = max_num_reqs cfg) ->
  (i < max_num_reqs cfg)%nat -> (j < max_num_reqs cfg)%nat -> i ≠ j -> g j = None -> (forall id, f' id = f id) ->
  (forall k, g' k = if decide (k = j) then g i else if decide (k = i) then None else g k) ->
  exists x', move_sampling i j x = Ok x' /\ samp_inv f' g' x' /\ (forall m, allowed_token_ids_mask x' = Some m -> length m = max_num_reqs cfg).
Proof.
  intros [H1 H2 H3 H4 H5] Hm Hi Hj Hij Hg Hf' Hg'. unfold move_sampling.
  assert (Hmask : exists mask', (match allowed_token_ids_mask x with
    | Some m => row ← get_or IndexError (m !! i); m ← np_alter j (fun _ => Ok row) m; Ok (Some m) | None => Ok None end) = Ok mask' /\
    forall m, mask' = Some m -> length m = max_num_reqs cfg).
  { destruct (allowed_token_ids_mask x) as [m|]; [|by eexists]. specialize (Hm m eq_refl). destruct (lookup_lt_is_Some_2 m i) as [r Er]; [lia|].
    destruct (lookup_lt_is_Some_2 m j) as [r' Er']; [lia|]. rewrite Er. cbn. rewrite (np_alter_ok _ (fun _ => Ok r) _ _ _ Er' eq_refl). cbn. eexists. split; [done|].
    intros m' [= <-]. by rewrite length_insert. }
  destruct Hmask as (mask' & -> & Hm'). cbn [mbind result_bind]. eexists. split; [done|]. split; [|exact Hm'].
  split; cbn; [by intros n id; rewrite Hf'|..|by intros id; rewrite Hf'|by intros id; rewrite Hf'].
  - intros k. rewrite move_key_lookup, Hg', !H2 by (done || by rewrite H2, Hg). by destruct (decide (k = j)), (decide (k = i)).
  - intros k. rewrite move_key_lookup, Hg', !H3 by (done || by rewrite H3, Hg). by destruct (decide (k = j)), (decide (k = i)).
Qed.

Lemma swap_dict_lookup {V} i j (m : gmap nat V) k : i ≠ j ->
  swap_dict_values i j m !! k = if decide (k = j) then m !! i else if decide (k = i) then m !! j else m !! k.
Proof.
  intros Hij. unfold swap_dict_values. destruct (decide (k = i)) as [-> |Hi].
  - rewrite (decide_False _ _ Hij). destruct (m !! j); [apply lookup_insert_eq|apply lookup_delete_eq].
  - assert (H : forall n : gmap nat V, (match m !! j with Some v => <[i := v]> n | None => delete i n end) !! k = n !! k).
    { intros n. destruct (m !! j); [by rewrite lookup_insert_ne|by rewrite lookup_delete_ne]. }
    rewrite H. destruct (decide (k = j)) as [-> |Hj]; destruct (m !! i);
      rewrite ?lookup_insert_eq, ?lookup_delete_eq, ?lookup_insert_ne, ?lookup_delete_ne by done; done.
Qed.

Lemma swap_sampling_inv f g f' g' x i j : samp_inv f g x -> (forall m, allowed_token_ids_mask x = Some m -> length m = max_num_reqs cfg) ->
  (i < max_num_reqs cfg)%nat -> (j < max_num_reqs cfg)%nat -> i ≠ j -> (forall id, f' id = f id) ->
  (forall k, g' k = if decide (k = j) then g i else if decide (k = i) then g j else g k) ->
  exists x', swap_sampling i j x = Ok x' /\ samp_inv f' g' x' /\ (forall m, allowed_token_ids_mask x' = Some m -> length m = max_num_reqs cfg).
Proof.
  intros [H1 H2 H3 H4 H5] Hm Hi Hj Hij Hf' Hg'. unfold swap_sampling.
  assert (Hmask : exists mask', (match allowed_token_ids_mask x with Some m => m ← swap_mask i j m; Ok (Some m) | None => Ok None end) = Ok mask' /\
    forall m, mask' = Some m -> length m = max_num_reqs cfg).
  { destruct (allowed_token_ids_mask x) as [m|]; [|by eexists]. specialize (Hm m eq_refl). unfold swap_mask.
    destruct (lookup_lt_is_Some_2 m i) as [r Er]; [lia|]. destruct (lookup_lt_is_Some_2 m j) as [r' Er']; [lia|]. rewrite Er, Er'. cbn.
    rewrite list_lookup_insert_eq by lia. cbn. eexists. split; [done|]. intros m' [= <-]. by rewrite !length_insert. }
  destruct Hmask as (mask' & -> & Hm'). cbn [mbind result_bind]. eexists. split; [done|]. split; [|exact Hm'].
  split; cbn; [by intros n id; rewrite Hf'|..|by intros id; rewrite Hf'|by intros id; rewrite Hf'].
  - intros k. rewrite swap_dict_lookup, Hg', !H2 by done. by destruct (decide (k = j)), (decide (k = i)).
  - intros k. rewrite swap_dict_lookup, Hg', !H3 by done. by destruct (decide (k = j)), (decide (k = i)).
Qed.

(** ** The invariant of the batch *)

Definition pieces_inv (f : string -> option Slot) (g : nat -> option Slot) (b : InputBatch) : Prop :=
  if is_pooling_model cfg then forall id, batch_pooling_params b !! id = (s ← f id; rs_pooling_params (sl_state s))
  else samp_inv f g (sampling_state b).

Definition params_inv (V : gmap string Slot) (b : InputBatch) : Prop := pieces_inv (held V b) (row_slot V b) b.

Record batch_inv (V : gmap string Slot) (b : InputBatch) : Prop := {
  bi_core : core_inv V b;
  bi_params : params_inv V b;
  bi_mask : mask_ok b;
  bi_lora : lora_inv (held V b) (lora_state b);
  bi_lora_wf : forall id s, held V b id = Some s -> lora_wf (sl_state s)
}.

Lemma held_slot V b id i : core_inv V b -> req_id_to_index b !! id = Some i -> exists s, held V b id = Some s /\ V !! id = Some s /\ slot_at b i id s.
Proof.
  intros HC E. pose proof (proj1 (ci_index _ _ HC _ _) E) as Eo. destruct (ci_slot _ _ HC _ _ Eo) as (s & Hs & Ha). exists s.
  unfold held. by rewrite E.
Qed.

Lemma remove_request_spec V b id : batch_inv V b -> holes_inv b -> is_removed_sorted (batch_update_builder b) = false ->
  exists o b', batch_remove_request cfg id b = Ok (o, b') /\ batch_inv V b' /\ holes_inv b' /\ is_removed_sorted (batch_update_builder b') = false /\
    block_table b' = block_table b /\ req_id_to_index b' = delete id (req_id_to_index b) /\
    moved (batch_update_builder b') = moved (batch_update_builder b) /\ added (batch_update_builder b') = added (batch_update_builder b) /\
    (forall j id', req_ids_ b' !! j = Some (Some id') <-> req_ids_ b !! j = Some (Some id') /\ id' ≠ id) /\
    length (req_ids_ b') = length (req_ids_ b) /\ (forall j, j ∈ removed_ (batch_update_builder b) -> j ∈ removed_ (batch_update_builder b')).
Proof.
  intros [HC HP HM HL HW] HH Hu. unfold batch_remove_request. destruct (req_id_to_index b !! id) as [i|] eqn:Ei.
  2:{ eexists _, _. split; [done|]. split_and!; try done; [by rewrite delete_id|]. intros j id'. split; [|by intros [? _]]. intros E. split; [done|].
      intros ->. apply (ci_index _ _ HC) in E. congruence. }
  destruct (held_slot V b id i HC Ei) as (s & Hs & HVs & [A1 A2 (row & Er & Ar) A4 A5]). pose proof (proj1 (ci_index _ _ HC _ _) Ei) as Eo.
  destruct (drop_slot_holes V b i id row HC HH Ei Hu) as (u & Eu & Hu' & HH' & Hmov & Hadd & Hrem). rewrite Eu. cbn [mbind result_bind].
  rewrite (np_alter_ok _ (fun _ => Ok None) _ _ _ Eo eq_refl). cbn [mbind result_bind].
  rewrite (np_alter_ok _ (fun _ => Ok None) _ _ _ A5 eq_refl). cbn [mbind result_bind set_builder set_slots rows lora_state]. rewrite Er. cbn [get_or mbind result_bind].
  pose proof (drop_slot_core V b i id row u HC Ei Er) as HC'. set (b1 := drop_slot i id row u b) in *.
  assert (Hheld : forall id', held V b1 id' = if decide (id' = id) then None else held V b id').
  { intros id'. unfold held. cbn. destruct (decide (id' = id)) as [-> |Hne]; [by rewrite lookup_delete_eq|by rewrite lookup_delete_ne]. }
  assert (Hrow : forall j, row_slot V b1 j = if decide (j = i) then None else row_slot V b j).
  { intros j. unfold row_slot. cbn. destruct (decide (j = i)) as [-> |Hne]; [|by rewrite list_lookup_insert_ne].
    rewrite list_lookup_insert_eq; [done|by eapply lookup_lt_Some]. }
  assert (Hids : forall j id', req_ids_ b1 !! j = Some (Some id') <-> req_ids_ b !! j = Some (Some id') /\ id' ≠ id).
  { intros j id'. rewrite <-(ci_index _ _ HC'), <-(ci_index _ _ HC). cbn. rewrite lookup_delete_Some. naive_solver. }
  rewrite (ro_lora _ _ Ar). destruct (remove_lora_inv _ _ _ _ _ HL Hs Hheld) as (l & El & HL'). rewrite El. cbn [mbind result_bind].
  assert (Hsub : length (<[i := None]> (req_ids_ b)) = length (req_ids_ b) /\ forall j, j ∈ removed_ (batch_update_builder b) -> j ∈ removed_ u).
  { split; [apply length_insert|]. intros j. rewrite Hrem, elem_of_app. by left. }
  destruct Hsub as [Hlen' Hsub]. assert (HW' : forall id' s', held V b1 id' = Some s' -> lora_wf (sl_state s')).
  { intros id' s'. rewrite Hheld. destruct (decide (id' = id)); [done|apply HW]. }
  unfold params_inv, pieces_inv in HP. destruct (is_pooling_model cfg) eqn:Epool.
  - eexists _, _. split; [done|]. split_and!; try done; [|by apply (same_holes b1)]. split; try done; [by apply (same_core_inv _ b1)|].
    unfold params_inv, pieces_inv. rewrite Epool. cbn. intros id'. change (held V _ id') with (held V b1 id'). rewrite Hheld.
    destruct (decide (id' = id)) as [-> |Hne]; [apply lookup_delete_eq|by rewrite lookup_delete_ne].
  - pose proof (ci_len _ _ HC). assert (Hi : (i < max_num_reqs cfg)%nat) by (apply lookup_lt_Some in Eo; lia).
    destruct (remove_sampling_inv _ _ _ _ _ i id HP HM Hi Hheld Hrow) as (x & Ex & HX & HM').
    match goal with |- context [remove_sampling i id ?y] => change y with (sampling_state b) end.
    rewrite Ex. cbn [mbind result_bind]. eexists _, _. split; [done|].
    split_and!; try done; [|by apply (same_holes b1)]. split; try done; [by apply (same_core_inv _ b1)|]. unfold params_inv, pieces_inv. by rewrite Epool.
Qed.

(** ** Adding a request to the batch *)

Lemma pieces_ext f g b b' f' g' : (forall id, f' id = f id) -> (forall i, g' i = g i) -> sampling_state b' = sampling_state b ->
  batch_pooling_params b' = batch_pooling_params b -> pieces_inv f g b -> pieces_inv f' g' b'.
Proof.
  intros Hf Hg E1 E2. unfold pieces_inv. rewrite E1, E2. destruct (is_pooling_model cfg); [intros H id; by rewrite H, Hf|].
  intros [H1 H2 H3 H4 H5]. split; intros; rewrite ?Hf, ?Hg; eauto.
Qed.

Lemma lora_ext f f' x : (forall id, f' id = f id) -> lora_inv f x -> lora_inv f' x.
Proof. intros Hf [H1 H2 H3]. split; [|done..]. intros l id. by rewrite H1, Hf. Qed.

(** What the placement of a request means for the slots. *)
Lemma placed_view V b b' i id s : placed i id s b b' -> req_id_to_index b !! id = None -> (forall id', req_ids_ b !! i ≠ Some (Some id')) -> core_inv V b ->
  held V b id = None /\ row_slot V b i = None /\
  (forall id', held (<[id := s]> V) b' id' = if decide (id' = id) then Some s else held V b id') /\
  (forall j, row_slot (<[id := s]> V) b' j = if decide (j = i) then Some s else row_slot V b j).
Proof.
  intros [P1 _ P3 _ _ _ _ _ _] Hnew Hfree HC. unfold held, row_slot. rewrite Hnew. split; [done|]. split.
  { specialize (Hfree). destruct (req_ids_ b !! i) as [[id'|]|] eqn:E; try done. by destruct (Hfree id'). }
  split.
  - intros id'. rewrite P3. destruct (decide (id' = id)) as [-> |Hne]; [by rewrite !lookup_insert_eq|by rewrite !lookup_insert_ne].
  - intros j. rewrite P1. destruct (decide (j = i)) as [-> |Hj]; [cbn; apply lookup_insert_eq|].
    destruct (req_ids_ b !! j) as [[id'|]|] eqn:E; try done. cbn. rewrite lookup_insert_ne; [done|]. intros <-. apply (ci_index _ _ HC) in E. congruence.
Qed.

(** The parameters of the request are recorded; the slots stay. *)
Lemma add_params_ok b u i c s f g f' g' : mask_ok b -> params_ok c -> right_kind c -> (i < max_num_reqs cfg)%nat -> batch_update_builder b = u ->
  pieces_inv f g b -> sl_state s = c -> f (rs_req_id c) = None -> g i = None ->
  (forall id, f' id = if decide (id = rs_req_id c) then Some s else f id) -> (forall j, g' j = if decide (j = i) then Some s else g j) ->
  exists b', (match rs_sampling_params c, rs_pooling_params c with
    | Some sp, _ => x ← add_sampling cfg i (rs_req_id c) sp (rs_generator c) (sampling_state b); Ok (set_sampling_state x b)
    | None, Some p => Ok (set_pooling (<[rs_req_id c := p]> (batch_pooling_params b)) b)
    | None, None => Err NotImplementedError end) = Ok b' /\ same_core b b' /\ batch_update_builder b' = u /\ mask_ok b' /\
    pieces_inv f' g' b' /\ lora_state b' = lora_state b.
Proof.
  intros Hm Hp Hk Hi Hu HP Hs Hf Hg Hf' Hg'. unfold right_kind in Hk. unfold pieces_inv in *. destruct (rs_sampling_params c) as [sp|] eqn:Esp.
  - destruct (is_pooling_model cfg); [by destruct Hk|].
    destruct (add_sampling_ok b i (rs_req_id c) sp c Hm Hp Esp Hi) as (x & Ex & Hx). rewrite Ex. eexists. split; [done|]. split_and!; try done. cbn.
    eapply (add_sampling_inv f g f' g' _ _ i (rs_req_id c) s sp HP Hf Hg); [by rewrite Hs|done|done|]. by rewrite Hs.
  - destruct (is_pooling_model cfg); [|by destruct Hk]. destruct Hk as [_ [p Ep]]. rewrite Ep. eexists. split; [done|]. split_and!; try done. cbn. intros id.
    rewrite Hf'. destruct (decide (id = rs_req_id c)) as [-> |Hne]; [by rewrite lookup_insert_eq; cbn; rewrite Hs|by rewrite lookup_insert_ne].
Qed.

Lemma add_request_spec V b c out : batch_inv V b -> holes_inv b -> params_ok c -> lora_wf c ->
  req_id_to_index b !! rs_req_id c = None -> right_kind c -> rows_fit (block_table b) (rs_block_ids c) ->
  (length (rs_prompt_token_ids c) + length out <= batch_max_model_len cfg)%nat -> (num_reqs b < max_num_reqs cfg)%nat ->
  exists i b', batch_add_request cfg out c b = Ok (i, b') /\
    batch_inv (<[rs_req_id c := mkSlot c out []]> V) b' /\ holes_inv b' /\ Forall2 same_shape (block_table b) (block_table b') /\
    slots_set i (Some (rs_req_id c)) b b' /\ req_id_to_index b' = <[rs_req_id c := i]> (req_id_to_index b) /\
    (forall id, req_ids_ b !! i ≠ Some (Some id)) /\
    moved (batch_update_builder b') = moved (batch_update_builder b) /\
    (forall j, j ∈ removed_ (batch_update_builder b') <-> j ∈ removed_ (batch_update_builder b) /\ j ≠ i) /\
    added (batch_update_builder b') = added (batch_update_builder b) ++
      option_list ((fun sp => mkAdded i sp (rs_prompt_token_ids c) (rs_output_token_ids c)) <$> rs_sampling_params c).
Proof.
  intros [HC HP Hm HL HW] HH Hp Hlw Hnew Hk Hfit Hlen Hroom.
  destruct (register_spec V b c HC HH Hroom) as (i & u & Ereg & Hi & Hle & _ & Hfree & Hrem & Hu & Hmov & Hadd).
  unfold batch_add_request. rewrite Ereg. cbn [mbind result_bind]. cbn [set_builder req_ids_ req_output_token_ids].
  destruct (put_at_spec i (Some (rs_req_id c)) (req_ids_ b) Hle) as (ids & Eids & Hlids & Hids). rewrite Eids. cbn [mbind result_bind].
  destruct (put_at_spec i (Some (rs_output_token_ids c)) (req_output_token_ids b)) as (outs & Eouts & Hlouts & Houts); [by rewrite (ci_outs _ _ HC)|].
  rewrite Eouts. cbn [mbind result_bind set_slots set_builder rows block_table].
  destruct (lookup_lt_is_Some_2 (rows b) i) as [r Er]; [by rewrite (ci_rows _ _ HC)|].
  destruct (fill_row_spec c out r (proj1 (Forall_lookup _ _) (ci_width _ _ HC) _ _ Er) Hlen) as (r' & Er' & Hr' & Hw').
  rewrite (np_alter_ok _ _ _ _ _ Er Er'). cbn [mbind result_bind].
  destruct (multi_add_row_spec _ _ i _ (ci_tables _ _ HC) Hi Hfit) as (ts & Ets & T1 & T2 & T3 & T4). rewrite Ets. cbn [mbind result_bind].
  match goal with |- context [set_rows ?rs ?t ?x] => set (b1 := set_rows rs t x) end.
  assert (HPl : placed i (rs_req_id c) (mkSlot c out []) b b1).
  { split; try done; [cbn; pose proof (ci_len _ _ HC); lia|by cbn; rewrite Hlids, Hlouts, (ci_outs _ _ HC)|by exists r']. }
  pose proof (placed_core V b b1 _ _ _ HC HPl Hi Hfree Hnew eq_refl Hk) as HC1. set (s := mkSlot c out []) in *. set (V' := <[rs_req_id c := s]> V) in *.
  destruct (placed_view V b b1 i _ s HPl Hnew Hfree HC) as (Hf & Hg & Hf' & Hg').
  destruct (add_params_ok b1 u i c s _ _ (held V' b1) (row_slot V' b1) Hm Hp Hk Hi eq_refl HP eq_refl Hf Hg Hf' Hg')
    as (b2 & E2 & (S1 & S2 & S3 & S4 & S5) & Hbd & Hm2 & HP2 & Elo).
  rewrite E2. cbn [mbind result_bind]. eexists _, _. split; [done|].
  assert (Hh2 : forall id, held V' b2 id = held V' b1 id) by (intros id; unfold held; by rewrite S2).
  assert (Hg2 : forall j, row_slot V' b2 j = row_slot V' b1 j) by (intros j; unfold row_slot; by rewrite S1).
  split_and!; try by (cbn; rewrite ?Hbd, ?S2, ?S4).
  - split; [by apply (same_core_inv _ b1)| |exact Hm2|..].
    + apply (pieces_ext (held V' b1) (row_slot V' b1) b2); [done..|]. exact HP2.
    + cbn. rewrite Elo. apply (lora_ext (held V' b1)); [done|]. by apply (add_lora_inv (held V b) _ _ _ s).
    + intros id s'. change (held V' _ id) with (held V' b2 id). rewrite Hh2, Hf'. destruct (decide (id = rs_req_id c)) as [-> |]; [by intros [= <-]|apply HW].
  - apply (same_holes b2); [done..|]. split; [|by rewrite Hbd]. intros j. rewrite Hbd, S1. cbn. rewrite Hids, Hrem, (hi_holes _ HH).
    destruct (decide (j = i)) as [-> |Hj]; [|naive_solver]. split; [by intros [_ ?]|done].
  - intros j. cbn. rewrite S1. cbn. apply Hids.
Qed.

(** ** Moving a request to another row *)

Lemma row_prefix s r : row_ok s r -> take (row_num_tokens r) (token_ids_cpu r) = slot_tokens s ++ sl_spec s.
Proof. intros H. rewrite (ro_num_tokens _ _ H). destruct (ro_tokens _ _ H) as [k ->]. apply take_app_length. Qed.

Lemma copy_row_ok s toks src dst : row_ok s src -> right_kind (sl_state s) -> (slot_tokens s ++ sl_spec s) `prefix_of` toks ->
  row_ok s (copy_row cfg toks src dst).
Proof.
  intros [H1 H2 H3 H4 H5 H6 H7] Hk Hp. split; cbn; try done. intros sp Esp. unfold right_kind in Hk. destruct (is_pooling_model cfg); [|by apply H7].
  destruct Hk as [Hk _]. congruence.
Qed.

(** The batch after [move_request], up to the sampling state and the builder. *)
Lemma move_slots V b l e id s : core_inv V b -> req_ids_ b !! l = Some (Some id) -> V !! id = Some s -> slot_at b l id s -> req_ids_ b !! e = Some None ->
  exists src dst toks ts, rows b !! l = Some src /\ rows b !! e = Some dst /\
    np_write 0 (take (row_num_tokens src) (token_ids_cpu src)) (token_ids_cpu dst) = Ok toks /\ multi_move_row l e (block_table b) = Ok ts /\
    Forall2 same_shape (block_table b) ts /\
    forall b', req_ids_ b' = <[l := None]> (<[e := Some id]> (req_ids_ b)) ->
      req_output_token_ids b' = <[l := None]> (<[e := Some (rs_output_token_ids (sl_state s))]> (req_output_token_ids b)) ->
      req_id_to_index b' = <[id := e]> (req_id_to_index b) -> rows b' = <[e := copy_row cfg toks src dst]> (rows b) -> block_table b' = ts ->
      core_inv V b' /\ (forall id', held V b' id' = held V b id') /\
      (forall k, row_slot V b' k = if decide (k = e) then row_slot V b l else if decide (k = l) then None else row_slot V b k).
Proof.
  intros HC El HV Ha Ee. pose proof Ha as [A1 A2 (src & Esrc & Ar) A4 A5]. assert (Hle : l ≠ e) by congruence.
  pose proof (lookup_lt_Some _ _ _ El) as Hl. pose proof (lookup_lt_Some _ _ _ Ee) as He. pose proof (ci_len _ _ HC) as Hlen. pose proof (ci_outs _ _ HC) as Ho.
  destruct (lookup_lt_is_Some_2 (rows b) e) as [dst Edst]; [rewrite (ci_rows _ _ HC); lia|].
  pose proof (proj1 (Forall_lookup _ _) (ci_width _ _ HC) _ _ Esrc) as Wsrc. pose proof (proj1 (Forall_lookup _ _) (ci_width _ _ HC) _ _ Edst) as Wdst.
  cbn in Wsrc, Wdst. pose proof (prefix_room _ _ (ro_tokens _ _ Ar)) as Hroom. pose proof (row_prefix _ _ Ar) as Hpre.
  destruct (multi_move_row_spec _ _ l e _ (ci_tables _ _ HC) A4 ltac:(lia)) as (ts & Ets & T1 & T2 & T3 & T4).
  exists src, dst. eexists _, ts. split_and!; try done; [rewrite Hpre; apply np_write_ok; lia|]. rewrite take_0, app_nil_l. cbn [Nat.add].
  intros b' B1 B2 B3 B4 B5. pose proof (proj2 (ci_index _ _ HC _ _) El) as Ei.
  assert (HP : placed e id s (clear_slot l id b) b').
  { split; cbn; rewrite ?B1, ?B2, ?B3, ?B4, ?B5, ?length_insert; try done.
    - intros j. rewrite B1. cbn. destruct (decide (j = e)) as [-> |Hj].
      + rewrite list_lookup_insert_ne by done. by apply list_lookup_insert_eq.
      + destruct (decide (j = l)) as [-> |Hjl]; [by rewrite !list_lookup_insert_eq by (rewrite ?length_insert; lia)|by rewrite !list_lookup_insert_ne].
    - by rewrite insert_delete_eq.
    - intros j. destruct (decide (j = e)) as [-> |Hj].
      + rewrite list_lookup_insert_ne by done. apply list_lookup_insert_eq. lia.
      + destruct (decide (j = l)) as [-> |Hjl]; [by rewrite !list_lookup_insert_eq by (rewrite ?length_insert; lia)|by rewrite !list_lookup_insert_ne].
    - eexists. split; [done|]. split; [apply copy_row_ok; try done; by eexists|]. cbn. rewrite length_app, length_drop. lia. }
  assert (Hfree : forall id', req_ids_ (clear_slot l id b) !! e ≠ Some (Some id')) by (intros id'; cbn; by rewrite list_lookup_insert_ne, Ee).
  assert (Hnew : req_id_to_index (clear_slot l id b) !! id = None) by apply lookup_delete_eq.
  pose proof (clear_slot_core V b l id HC Ei) as HC0.
  pose proof (placed_core V _ b' e id s HC0 HP ltac:(lia) Hfree Hnew A1 A2) as HC'. rewrite (insert_id V id s HV) in HC'. split; [done|].
  destruct (placed_view V _ b' e id s HP Hnew Hfree HC0) as (_ & _ & Hf' & Hg'). rewrite (insert_id V id s HV) in Hf', Hg'. split.
  - intros id'. rewrite Hf'. unfold held. cbn. destruct (decide (id' = id)) as [-> |Hne]; [by rewrite Ei|by rewrite lookup_delete_ne].
  - intros k. rewrite Hg'. unfold row_slot. cbn. rewrite El. cbn. destruct (decide (k = e)); [done|].
    destruct (decide (k = l)) as [-> |Hk]; [by rewrite list_lookup_insert_eq|by rewrite list_lookup_insert_ne].
Qed.

(** The changes a step has collected, with a move added to them. *)
Definition moved_more (b : InputBatch) (m : nat * nat * MoveDirectionality) : list (nat * nat * MoveDirectionality) :=
  if is_pooling_model cfg then moved (batch_update_builder b) else moved (batch_update_builder b) ++ [m].

Lemma move_request_spec V b l e id : batch_inv V b -> req_ids_ b !! l = Some (Some id) -> req_ids_ b !! e = Some None ->
  exists b', move_request cfg l e b = Ok b' /\ batch_inv V b' /\ req_ids_ b' = <[l := None]> (<[e := Some id]> (req_ids_ b)) /\
    req_id_to_index b' = <[id := e]> (req_id_to_index b) /\ Forall2 same_shape (block_table b) (block_table b') /\
    removed_ (batch_update_builder b') = removed_ (batch_update_builder b) /\
    is_removed_sorted (batch_update_builder b') = is_removed_sorted (batch_update_builder b) /\
    moved (batch_update_builder b') = moved_more b (l, e, UNIDIRECTIONAL) /\ added (batch_update_builder b') = added (batch_update_builder b).
Proof.
  intros [HC HP Hm HL HW] El Ee. destruct (ci_slot _ _ HC _ _ El) as (s & HV & Ha).
  destruct (move_slots V b l e id s HC El HV Ha Ee) as (src & dst & toks & ts & Esrc & Edst & Et & Ets & Hsh & Hmv).
  pose proof Ha as [A1 A2 A3 A4 A5]. pose proof (ci_len _ _ HC) as Hlen. pose proof (ci_outs _ _ HC) as Ho.
  pose proof (lookup_lt_Some _ _ _ El) as Hl. pose proof (lookup_lt_Some _ _ _ Ee) as He.
  destruct (lookup_lt_is_Some_2 (req_output_token_ids b) e) as [oe Eoe]; [lia|].
  unfold move_request. rewrite El, A5. cbn [get_or mbind result_bind].
  rewrite (np_alter_ok _ (fun _ => Ok (Some id)) _ _ _ Ee eq_refl). cbn [mbind result_bind].
  rewrite (np_alter_ok _ (fun _ => Ok (Some (rs_output_token_ids (sl_state s)))) _ _ _ Eoe eq_refl). cbn [mbind result_bind set_slots rows block_table].
  rewrite Esrc, Edst. cbn [get_or mbind result_bind]. rewrite Et. cbn [mbind result_bind]. rewrite Ets. cbn [mbind result_bind].
  match goal with |- context [set_rows ?rs ?t ?x] => set (b1 := set_rows rs t x) end.
  destruct (Hmv b1 eq_refl eq_refl eq_refl eq_refl eq_refl) as (HC' & Hh & Hg).
  assert (Hstay : lora_inv (held V b1) (lora_state b) /\ forall id' s', held V b1 id' = Some s' -> lora_wf (sl_state s')).
  { split; [by apply (lora_ext (held V b))|]. intros id' s'. rewrite Hh. apply HW. }
  destruct Hstay as [HL' HW']. unfold moved_more, params_inv, pieces_inv in *. destruct (is_pooling_model cfg) eqn:Epool.
  - eexists. split; [done|]. split_and!; try done. split; try done. unfold params_inv, pieces_inv. rewrite Epool. intros id'. by rewrite Hh, <-HP.
  - destruct (move_sampling_inv _ _ (held V b1) (row_slot V b1) _ l e HP Hm ltac:(lia) ltac:(lia) ltac:(congruence)) as (x & Ex & HX & HM'); [|done|done|].
    { unfold row_slot. by rewrite Ee. }
    change (sampling_state b1) with (sampling_state b). rewrite Ex. cbn [mbind result_bind]. eexists. split; [done|]. split_and!; try done.
    split; try done; [by apply (same_core_inv _ b1)|]. unfold params_inv, pieces_inv. by rewrite Epool.
Qed.

Lemma last_active_spec n h : match last_active n h with
  | None => forall j, (j < n)%nat -> j ∈ h
  | Some l => (l < n)%nat /\ l ∉ h /\ forall j, (l < j < n)%nat -> j ∈ h
  end.
Proof.
  induction n as [|m IH]; cbn; [lia|]. destruct (decide (m ∈ h)) as [Hm|Hm]; [|split_and!; [lia|done|lia]].
  destruct (last_active m h) as [l|].
  - destruct IH as (H1 & H2 & H3). split_and!; [lia|done|]. intros j Hj. destruct (decide (j = m)) as [-> |]; [done|]. apply H3. lia.
  - intros j Hj. destruct (decide (j = m)) as [-> |]; [done|]. apply IH. lia.
Qed.

(** While gaps are closed: the rows from [n] on are empty, and the removed
    indices are the gaps below [n]. *)
Record closing (n : nat) (b : InputBatch) : Prop := {
  cl_top : (n <= length (req_ids_ b))%nat;
  cl_empty : forall j, (n <= j < length (req_ids_ b))%nat -> req_ids_ b !! j = Some None;
  cl_holes : forall j, (j < n)%nat -> j ∈ removed_ (batch_update_builder b) <-> req_ids_ b !! j = Some None;
  cl_in : forall j, j ∈ removed_ (batch_update_builder b) -> req_ids_ b !! j = Some None;
  cl_ok : removed_ok (batch_update_builder b)
}.

(** After the loop no gap is below an occupied row. *)
Definition packed (b : InputBatch) : Prop := forall i j id, (i < j)%nat -> req_ids_ b !! j = Some (Some id) -> exists id', req_ids_ b !! i = Some (Some id').

Lemma row_cases V b j : core_inv V b -> (j < length (req_ids_ b))%nat -> req_ids_ b !! j = Some None \/ exists id, req_ids_ b !! j = Some (Some id).
Proof. intros _ Hj. destruct (lookup_lt_is_Some_2 _ _ Hj) as [[id|] E]; [right; by exists id|by left]. Qed.

(** The moves that close gaps, one after the other. *)
Inductive moves : InputBatch -> InputBatch -> Prop :=
| moves_done b b' : req_ids_ b' = req_ids_ b -> removed_ (batch_update_builder b') ≡ₚ removed_ (batch_update_builder b) ->
    moved (batch_update_builder b') = moved (batch_update_builder b) -> added (batch_update_builder b') = added (batch_update_builder b) -> moves b b'
| moves_step b b1 b2 l e id : req_ids_ b !! l = Some (Some id) -> req_ids_ b !! e = Some None ->
    removed_ (batch_update_builder b) ≡ₚ e :: removed_ (batch_update_builder b1) -> req_ids_ b1 = <[l := None]> (<[e := Some id]> (req_ids_ b)) ->
    moved (batch_update_builder b1) = moved_more b (l, e, UNIDIRECTIONAL) -> added (batch_update_builder b1) = added (batch_update_builder b) ->
    moves b1 b2 -> moves b b2.

Lemma moves_pre b b0 b1 : req_ids_ b0 = req_ids_ b -> removed_ (batch_update_builder b0) ≡ₚ removed_ (batch_update_builder b) ->
  moved (batch_update_builder b0) = moved (batch_update_builder b) -> added (batch_update_builder b0) = added (batch_update_builder b) ->
  moves b0 b1 -> moves b b1.
Proof.
  intros E1 E2 E3 E4 H. inversion H as [? ? F1 F2 F3 F4|? b2 ? l e id F1 F2 F3 F4 F5 F6 F7]; subst; [apply moves_done; congruence || by rewrite F2|].
  apply (moves_step _ b2 _ l e id); try congruence; [by rewrite <-E2|]. rewrite F5. unfold moved_more. by rewrite E3.
Qed.

Lemma closing_packed V n b : core_inv V b -> closing n b -> (forall i j, i ∈ removed_ (batch_update_builder b) -> (j < n)%nat -> (i < j)%nat ->
  j ∈ removed_ (batch_update_builder b)) -> packed b.
Proof.
  intros HC [C1 C2 C3 C4 C5] H i j id Hij Ej. assert (Hj : (j < n)%nat).
  { destruct (decide (j < n)%nat); [done|]. rewrite (C2 j) in Ej; [done|]. apply lookup_lt_Some in Ej. lia. }
  destruct (row_cases V b i HC) as [Ei|Ei]; [apply lookup_lt_Some in Ej; lia| |done]. apply C3 in Ei; [|lia].
  pose proof (H i j Ei Hj Hij) as Hjr. apply C4 in Hjr. congruence.
Qed.

(** One move keeps the loop's invariant. *)
Lemma closing_move n b b' l e id : closing n b -> (l < n)%nat -> (e < l)%nat -> req_ids_ b !! l = Some (Some id) ->
  (forall j, (l < j < n)%nat -> j ∈ removed_ (batch_update_builder b)) ->
  req_ids_ b' = <[l := None]> (<[e := Some id]> (req_ids_ b)) -> removed_ (batch_update_builder b) ≡ₚ e :: removed_ (batch_update_builder b') ->
  removed_ok (batch_update_builder b') -> closing l b'.
Proof.
  intros [C1 C2 C3 C4 C5] Hl He El Hab Eids Hp Hok. assert (Hlen : length (req_ids_ b') = length (req_ids_ b)) by (by rewrite Eids, !length_insert).
  assert (Hin : forall j, j ∈ removed_ (batch_update_builder b') <-> j ∈ removed_ (batch_update_builder b) /\ j ≠ e).
  { intros j. pose proof (rk_nodup _ C5) as Hnd. rewrite Hp in Hnd |- *. apply NoDup_cons in Hnd as [Hne _]. rewrite elem_of_cons. naive_solver. }
  assert (Hlk : forall j, req_ids_ b' !! j = if decide (j = l) then Some None else if decide (j = e) then Some (Some id) else req_ids_ b !! j).
  { intros j. rewrite Eids. apply lookup_lt_Some in El. destruct (decide (j = l)) as [-> |Hj]; [by rewrite list_lookup_insert_eq by (rewrite length_insert; lia)|].
    rewrite list_lookup_insert_ne by done. destruct (decide (j = e)) as [-> |Hj']; [by rewrite list_lookup_insert_eq by lia|by rewrite list_lookup_insert_ne]. }
  split; rewrite ?Hlen; [lia|..|done].
  - intros j Hj. rewrite Hlk. destruct (decide (j = l)); [done|]. rewrite decide_False by lia. destruct (decide (j < n)%nat); [apply C4, Hab; lia|apply C2; lia].
  - intros j Hj. rewrite Hin, Hlk, decide_False by lia. destruct (decide (j = e)) as [-> |Hje]; [naive_solver|]. rewrite C3 by lia. naive_solver.
  - intros j Hj. apply Hin in Hj as [Hj Hje]. rewrite Hlk. destruct (decide (j = l)); [done|]. rewrite decide_False by done. by apply C4.
Qed.

Lemma ensure_idem v : ensure_removed_sorted (ensure_removed_sorted v) = ensure_removed_sorted v.
Proof. unfold ensure_removed_sorted. by destruct (is_removed_sorted v) eqn:E; cbn; rewrite ?E. Qed.

Lemma pop_ensure v : removed_ v ≠ [] -> removed_ok v -> pop_removed (ensure_removed_sorted v) = pop_removed v.
Proof.
  intros Hne Hok. destruct (ensure_sorted_spec v Hok) as (_ & _ & Hp & _). unfold pop_removed. rewrite ensure_idem.
  destruct (removed_ v) eqn:E; [done|]. destruct (removed_ (ensure_removed_sorted v)) eqn:E'; [|done]. by apply Permutation_nil_cons in Hp.
Qed.

(** What [condense_loop] promises. *)
Definition condensed (V : gmap string Slot) (b : InputBatch) (m : result InputBatch) : Prop :=
  exists b', m = Ok b' /\ batch_inv V b' /\ packed b' /\ moves b b' /\ length (req_ids_ b') = length (req_ids_ b) /\
    Forall2 same_shape (block_table b) (block_table b') /\ (forall id, is_Some (req_id_to_index b' !! id) <-> is_Some (req_id_to_index b !! id)).

Lemma batch_inv_builder V b u : batch_inv V b -> batch_inv V (set_builder u b).
Proof. intros [B1 B2 B3 B4 B5]. split; try done. by apply (same_core_inv _ b). Qed.

Lemma shape_trans ts1 ts2 ts3 : Forall2 same_shape ts1 ts2 -> Forall2 same_shape ts2 ts3 -> Forall2 same_shape ts1 ts3.
Proof. intros H1 H2. by transitivity ts2. Qed.

Lemma condense_stop V n b u : batch_inv V b -> closing n b -> removed_ u ≡ₚ removed_ (batch_update_builder b) -> moved u = moved (batch_update_builder b) ->
  added u = added (batch_update_builder b) ->
  (forall i j, i ∈ removed_ (batch_update_builder b) -> (j < n)%nat -> (i < j)%nat -> j ∈ removed_ (batch_update_builder b)) ->
  condensed V b (Ok (set_builder u b)).
Proof.
  intros HB HCl Hp Hm Ha Hall. exists (set_builder u b). split; [done|]. split_and!; try done.
  - by apply batch_inv_builder.
  - apply (closing_packed V n b); [apply HB|done..].
  - by apply moves_done.
Qed.

Lemma condense_loop_spec V fuel : forall n b, batch_inv V b -> closing n b -> (length (removed_ (batch_update_builder b)) < fuel)%nat ->
  condensed V b (condense_loop cfg fuel n b).
Proof.
  induction fuel as [|fuel IH]; intros n b HB HCl Hfuel; [lia|]. cbn [condense_loop]. pose proof (cl_ok _ _ HCl) as Hok.
  rewrite peek_removed_spec by done. pose proof (pop_removed_spec _ Hok) as Hpop. destruct (pop_removed (batch_update_builder b)) as [[e|] u'] eqn:Epop; cbn [fst].
  2:{ destruct Hpop as [-> Hnil]. replace b with (set_builder (batch_update_builder b) b) at 2 by (by destruct b).
      apply (condense_stop V n); try done. rewrite Hnil. by intros i j ?%not_elem_of_nil. }
  destruct Hpop as (Hp & Hmin & Hu' & Hmov & Hadd). set (h := removed_ (batch_update_builder b)) in *.
  assert (Hne : h ≠ []) by (intros Hn; rewrite Hn in Hp; by apply Permutation_nil_cons in Hp). rewrite (decide_False _ _ Hne).
  destruct (ensure_sorted_spec _ Hok) as (Hok' & Hs & Hperm & Hm2 & Ha2). rewrite (pop_ensure _ Hne Hok), Epop. cbn [snd].
  pose proof (last_active_spec n h) as Hla. destruct (last_active n h) as [l|]; [|apply (condense_stop V n); try done; intros i j _ Hj _; by apply Hla].
  destruct Hla as (Hl & Hlh & Hab). destruct (Nat.leb_spec l e) as [Hle|Hlt].
  { apply (condense_stop V n); try done. intros i j Hi Hj Hij. apply Hab. specialize (Hmin i Hi). lia. }
  assert (He : req_ids_ b !! e = Some None) by (apply (cl_in _ _ HCl); fold h; rewrite Hp; by left). pose proof (cl_top _ _ HCl) as Htop.
  assert (El : exists id, req_ids_ b !! l = Some (Some id)).
  { destruct (row_cases V b l (bi_core _ _ HB)) as [E|E]; [lia| |done]. by apply (cl_holes _ _ HCl) in E. }
  destruct El as [id El]. destruct (move_request_spec V (set_builder u' b) l e id (batch_inv_builder _ _ _ HB) El He)
    as (b1 & E1 & HB1 & Hids & Hidx & Hsh & Hr1 & Hs1 & Hm1 & Ha1). rewrite E1. cbn [mbind result_bind].
  assert (HCl1 : closing l b1).
  { apply (closing_move n b b1 l e id HCl Hl Hlt El Hab Hids); [by rewrite Hr1|]. destruct Hu' as [U1 U2]. split; [by rewrite Hr1|by rewrite Hr1, Hs1]. }
  apply Permutation_length in Hp as Hpl. cbn in Hpl. unfold h in *. destruct (IH l b1 HB1 HCl1 ltac:(rewrite Hr1; cbn; lia)) as (b' & E' & K1 & K2 & K3 & K4 & K5 & K6).
  exists b'. split; [done|]. split_and!; try done.
  - eapply (moves_step b b1 b' l e id El He); try done; [by rewrite Hr1| |by rewrite Ha1]. rewrite Hm1. unfold moved_more. cbn. by rewrite Hmov.
  - by rewrite K4, Hids, !length_insert.
  - by eapply shape_trans.
  - intros id'. rewrite K6, Hidx. destruct (decide (id' = id)) as [-> |Hid]; [|by rewrite lookup_insert_ne]. rewrite lookup_insert_eq.
    split; intros _; [|done]. apply (ci_index _ _ (bi_core _ _ HB)) in El. by rewrite El.
Qed.

Lemma packed_list {K} (l : list (option K)) : (forall i j k, (i < j)%nat -> l !! j = Some (Some k) -> exists k', l !! i = Some (Some k')) ->
  take (length (omap id l)) l = Some <$> omap id l /\ forall j k, l !! j = Some (Some k) -> (j < length (omap id l))%nat.
Proof.
  induction l as [|[x|] l IH]; intros H; [by split|..].
  - destruct IH as [H1 H2]; [intros i j k Hij E; by apply (H (S i) (S j) k); [lia|]|]. cbn. split; [by f_equal|].
    intros [|j] k E; [lia|]. cbn in E. apply H2 in E. lia.
  - assert (Hn : omap id (None :: l) = []).
    { apply elem_of_nil_inv. intros x Hx. cbn in Hx. apply list_elem_of_omap in Hx as (o & Ho & Eo). unfold id in Eo. subst o.
      apply list_elem_of_lookup in Ho as [j Ej]. by destruct (H 0%nat (S j) x ltac:(lia) Ej) as [k' Ek]. }
    rewrite Hn. split; [done|]. intros [|j] k E; [done|]. by destruct (H 0%nat (S j) k ltac:(lia) E) as [k' Ek].
Qed.

(** Cutting the lists to the occupied rows. *)
Lemma trim_inv V b n : batch_inv V b -> packed b -> num_reqs b = n ->
  batch_inv V (set_slots (take n (req_ids_ b)) (req_id_to_index b) (take n (req_output_token_ids b)) b) /\
  Forall (fun o => o ≠ None) (take n (req_ids_ b)) /\ length (take n (req_ids_ b)) = n /\
  (forall j id, req_ids_ b !! j = Some (Some id) -> (j < n)%nat).
Proof.
  intros [HC HP Hm HL HW] Hpk Hn. destruct (packed_list (req_ids_ b)) as [Ht Hj]; [intros i j k Hij E; by eapply Hpk|].
  assert (En : length (omap id (req_ids_ b)) = n) by (rewrite <-Hn; unfold num_reqs; symmetry; apply size_omap, (ci_index _ _ HC)). rewrite En in Ht, Hj.
  assert (Hlk : forall j id, take n (req_ids_ b) !! j = Some (Some id) <-> req_ids_ b !! j = Some (Some id)).
  { intros j id. rewrite lookup_take_Some. split; [by intros [? _]|]. intros E. split; [done|by eapply Hj]. }
  split.
  - split; try done.
    + destruct HC as [H1 H2 H3 H4 H5 H6 H7]. split; cbn; try done.
      * intros id i. by rewrite Hlk.
      * rewrite length_take. lia.
      * by rewrite !length_take, H3.
      * intros i id E%Hlk. destruct (H7 i id E) as (s & Hs & Ha). exists s. split; [done|]. apply (slot_at_keep b); cbn; try done.
        apply lookup_take_lt. by eapply Hj.
    + unfold params_inv in *. eapply pieces_ext; [..|exact HP]; try done. intros i. unfold row_slot. cbn.
      destruct (decide (i < n)%nat) as [Hi|Hi]; [by rewrite lookup_take_lt|]. rewrite lookup_take_ge by lia.
      destruct (req_ids_ b !! i) as [[id|]|] eqn:E; try done. by apply Hj in E.
  - rewrite Ht. split_and!; [|by rewrite length_fmap|exact Hj]. apply Forall_fmap, Forall_true. done.
Qed.

Lemma same_size (m1 m2 : gmap string nat) : (forall id, is_Some (m1 !! id) <-> is_Some (m2 !! id)) -> size m1 = size m2.
Proof. intros H. rewrite <-!size_dom. f_equal. apply set_eq. intros id. by rewrite !elem_of_dom. Qed.

(** [condense] leaves the requests in the first rows, without gaps. *)
Theorem condense_spec V b : batch_inv V b -> holes_inv b ->
  exists b' b1, condense cfg b = Ok b' /\ batch_inv V b' /\ dense b' /\ length (req_ids_ b') = num_reqs b' /\
    (forall id, is_Some (req_id_to_index b' !! id) <-> is_Some (req_id_to_index b !! id)) /\ Forall2 same_shape (block_table b) (block_table b') /\
    moves b b1 /\ batch_update_builder b' = batch_update_builder b1 /\
    (forall j id, req_ids_ b' !! j = Some (Some id) <-> req_ids_ b1 !! j = Some (Some id)).
Proof.
  intros HB HH. pose proof (count_rows V b (bi_core _ _ HB) HH) as Hcount. destruct (ensure_sorted_spec _ (hi_ok _ HH)) as (Hok & Hs & Hp & Hm & Ha).
  unfold condense. set (u := ensure_removed_sorted (batch_update_builder b)) in *. set (b0 := set_builder u b).
  assert (HB0 : batch_inv V b0) by (by apply batch_inv_builder). assert (Hmv0 : moves b b0) by (by apply moves_done).
  change (removed_ (batch_update_builder b0)) with (removed_ u). pose proof (Permutation_length Hp) as Hlen.
  assert (HH0 : holes_inv b0) by (split; [|done]; intros i; cbn; rewrite Hp; apply (hi_holes _ HH)).
  destruct (removed_ u) as [|x xs] eqn:Eu.
  { exists b0, b0. split; [done|]. cbn in Hlen. split_and!; try done; [|cbn; unfold num_reqs in *; cbn; lia].
    apply Forall_lookup. intros i o Eo ->. apply (hi_holes _ HH0) in Eo. cbn in Eo. rewrite Eu in Eo. by apply not_elem_of_nil in Eo. }
  destruct (Nat.eqb_spec (num_reqs b) 0) as [Hz|Hz].
  - assert (Hemp : req_id_to_index b = ∅) by (by apply map_size_empty_inv). eexists _, b0. split; [done|].
    assert (Hno : forall j id, req_ids_ b0 !! j ≠ Some (Some id)).
    { intros j id E. apply (ci_index _ _ (bi_core _ _ HB0)) in E. cbn in E. by rewrite Hemp in E. }
    split_and!; try done; [|by apply Forall_nil|intros j id; split; [done|by intros ?%Hno]].
    destruct HB0 as [HC HP HM HL HW]. split; try done.
    + destruct HC as [H1 H2 H3 H4 H5 H6 H7]. split; cbn; try done; [|lia]. intros id i. rewrite Hemp. done.
    + unfold params_inv in *. eapply pieces_ext; [..|exact HP]; try done. intros i. unfold row_slot. cbn.
      destruct (req_ids_ b !! i) as [[id|]|] eqn:E; try done. by apply Hno in E.
  - destruct (condense_loop_spec V (S (length (x :: xs))) (length (req_ids_ b)) b0 HB0) as (b1 & E1 & K1 & K2 & K3 & K4 & K5 & K6); [|cbn; rewrite Eu; cbn; lia|].
    { split; cbn; [lia|lia|intros j _; apply (hi_holes _ HH0)|intros j; apply (hi_holes _ HH0)|done]. }
    rewrite Hlen, Hcount. rewrite Hlen in E1. rewrite E1. cbn [mbind result_bind].
    assert (En : num_reqs b1 = num_reqs b) by (unfold num_reqs; by apply same_size).
    destruct (trim_inv V b1 _ K1 K2 En) as (T1 & T2 & T3 & T4). eexists _, b1. split; [done|]. split_and!; try done.
    + cbn. rewrite T3. by unfold num_reqs in *.
    + apply (moves_pre b b0); try done. cbn. by rewrite Eu.
    + intros j id. cbn. rewrite lookup_take_Some. split; [by intros [? _]|]. intros E. split; [done|by eapply T4].
Qed.

(** ** Exchanging two rows *)

Lemma swap_slots V b i j id1 id2 s1 s2 : core_inv V b -> i ≠ j -> req_ids_ b !! i = Some (Some id1) -> req_ids_ b !! j = Some (Some id2) ->
  V !! id1 = Some s1 -> V !! id2 = Some s2 -> slot_at b i id1 s1 -> slot_at b j id2 s2 ->
  exists r1 r2 ts, rows b !! i = Some r1 /\ rows b !! j = Some r2 /\ multi_swap_row i j (block_table b) = Ok ts /\ Forall2 same_shape (block_table b) ts /\
    forall b', req_ids_ b' = <[j := Some id1]> (<[i := Some id2]> (req_ids_ b)) ->
      req_output_token_ids b' = <[j := Some (rs_output_token_ids (sl_state s1))]> (<[i := Some (rs_output_token_ids (sl_state s2))]> (req_output_token_ids b)) ->
      req_id_to_index b' = <[id2 := i]> (<[id1 := j]> (req_id_to_index b)) ->
      rows b' = <[j := copy_row cfg (token_ids_cpu r1) r1 r2]> (<[i := copy_row cfg (token_ids_cpu r2) r2 r1]> (rows b)) -> block_table b' = ts ->
      core_inv V b'.
Proof.
  intros HC Hij E1 E2 HV1 HV2 [A1 A2 (r1 & Er1 & Ar1) A4 A5] [B1 B2 (r2 & Er2 & Br2) B4 B5].
  destruct (multi_swap_row_spec _ _ i j _ _ (ci_tables _ _ HC) A4 B4) as (ts & Ets & T1 & T2 & T3 & T4 & T5).
  exists r1, r2, ts. split_and!; try done. intros b' F1 F2 F3 F4 F5. assert (Hid : id1 ≠ id2) by (intros ->; apply Hij; apply (ci_index _ _ HC) in E1, E2; congruence).
  destruct HC as [H1 H2 H3 H4 H5 H6 H7]. pose proof (proj1 (Forall_lookup _ _) H5) as Hw.
  assert (Hlk : forall k, req_ids_ b' !! k = if decide (k = j) then Some (Some id1) else if decide (k = i) then Some (Some id2) else req_ids_ b !! k).
  { intros k. rewrite F1. by apply np_swap_lookup. }
  assert (Hrows : forall k, rows b' !! k = if decide (k = j) then Some (copy_row cfg (token_ids_cpu r1) r1 r2)
    else if decide (k = i) then Some (copy_row cfg (token_ids_cpu r2) r2 r1) else rows b !! k).
  { intros k. rewrite F4. destruct (decide (k = j)) as [-> |Hj]; [rewrite list_lookup_insert_eq by (rewrite length_insert; by eapply lookup_lt_Some); done|].
    rewrite list_lookup_insert_ne by done. destruct (decide (k = i)) as [-> |Hi]; [rewrite list_lookup_insert_eq by (by eapply lookup_lt_Some); done|by rewrite list_lookup_insert_ne]. }
  assert (Houts : forall k, req_output_token_ids b' !! k = if decide (k = j) then Some (Some (rs_output_token_ids (sl_state s1)))
    else if decide (k = i) then Some (Some (rs_output_token_ids (sl_state s2))) else req_output_token_ids b !! k).
  { intros k. rewrite F2. by apply np_swap_lookup. }
  split.
  - intros id k. rewrite F3, Hlk. destruct (decide (id = id2)) as [-> |Hn2].
    + rewrite lookup_insert_eq. destruct (decide (k = j)) as [-> |Hj]; [split; congruence|]. destruct (decide (k = i)) as [-> |Hi]; [done|].
      rewrite <-H1. split; [congruence|]. intros E. apply H1 in E2. congruence.
    + rewrite lookup_insert_ne by done. destruct (decide (id = id1)) as [-> |Hn1].
      * rewrite lookup_insert_eq. destruct (decide (k = j)) as [-> |Hj]; [done|]. destruct (decide (k = i)) as [-> |Hi]; [split; congruence|].
        rewrite <-H1. split; [congruence|]. intros E. apply H1 in E1. congruence.
      * rewrite lookup_insert_ne, H1 by done. destruct (decide (k = j)) as [-> |Hj]; [split; congruence|]. destruct (decide (k = i)) as [-> |Hi]; [split; congruence|done].
  - by rewrite F1, !length_insert.
  - by rewrite F1, F2, !length_insert.
  - by rewrite F4, !length_insert.
  - rewrite F4. apply Forall_insert; [apply Forall_insert; [done|]|]; cbn; [by apply (Hw j)|by apply (Hw i)].
  - by rewrite F5.
  - intros k id. rewrite Hlk. destruct (decide (k = j)) as [-> |Hj]; [|destruct (decide (k = i)) as [-> |Hi]].
    + intros [= <-]. exists s1. split; [done|]. split; try done; [|by rewrite F5|by rewrite Houts, decide_True].
      eexists. rewrite Hrows, decide_True by done. split; [done|]. apply copy_row_ok; try done. apply Ar1.
    + intros [= <-]. exists s2. split; [done|]. split; try done; [|by rewrite F5|by rewrite Houts, decide_False, decide_True].
      eexists. rewrite Hrows, decide_False, decide_True by done. split; [done|]. apply copy_row_ok; try done. apply Br2.
    + intros E. destruct (H7 k id E) as (s & Hs & Ha). exists s. split; [done|].
      apply (slot_at_keep b); [by rewrite Hrows, !decide_False|by rewrite Houts, !decide_False| |done]. rewrite F5. intros idss. by apply T5.
Qed.

Lemma swap_states_spec V b i j id1 id2 : batch_inv V b -> i ≠ j -> req_ids_ b !! i = Some (Some id1) -> req_ids_ b !! j = Some (Some id2) ->
  exists b', swap_states cfg i j b = Ok b' /\ batch_inv V b' /\ req_ids_ b' = <[j := Some id1]> (<[i := Some id2]> (req_ids_ b)) /\
    req_id_to_index b' = <[id2 := i]> (<[id1 := j]> (req_id_to_index b)) /\ Forall2 same_shape (block_table b) (block_table b') /\
    removed_ (batch_update_builder b') = removed_ (batch_update_builder b) /\
    moved (batch_update_builder b') = moved_more b (i, j, SWAP) /\ added (batch_update_builder b') = added (batch_update_builder b).
Proof.
  intros [HC HP Hm HL HW] Hij E1 E2. destruct (ci_slot _ _ HC _ _ E1) as (s1 & HV1 & Ha1), (ci_slot _ _ HC _ _ E2) as (s2 & HV2 & Ha2).
  destruct (swap_slots V b i j id1 id2 s1 s2 HC Hij E1 E2 HV1 HV2 Ha1 Ha2) as (r1 & r2 & ts & Er1 & Er2 & Ets & Hsh & Hcore).
  pose proof (proj2 (ci_index _ _ HC _ _) E1) as I1. pose proof (proj2 (ci_index _ _ HC _ _) E2) as I2.
  unfold swap_states. rewrite E1, E2. cbn [get_or mbind result_bind]. rewrite (np_swap_ok _ _ _ _ _ E1 E2). cbn [mbind result_bind].
  rewrite (np_swap_ok _ _ _ _ _ (sa_out _ _ _ _ Ha1) (sa_out _ _ _ _ Ha2)). cbn [get_or mbind result_bind]. rewrite I1, I2.
  cbn [get_or mbind result_bind set_slots rows block_table]. rewrite Er1, Er2. cbn [get_or mbind result_bind]. rewrite Ets. cbn [mbind result_bind].
  match goal with |- context [set_rows ?rs ?t ?x] => set (b1 := set_rows rs t x) end.
  pose proof (Hcore b1 eq_refl eq_refl eq_refl eq_refl eq_refl) as HC'.
  assert (Hid : id1 ≠ id2) by congruence.
  assert (Hh : forall id, held V b1 id = held V b id).
  { intros id. unfold held. cbn. destruct (decide (id = id2)) as [-> |Hn2]; [by rewrite lookup_insert_eq, I2|]. rewrite lookup_insert_ne by done.
    destruct (decide (id = id1)) as [-> |Hn1]; [by rewrite lookup_insert_eq, I1|by rewrite lookup_insert_ne]. }
  assert (Hg : forall k, row_slot V b1 k = if decide (k = j) then row_slot V b i else if decide (k = i) then row_slot V b j else row_slot V b k).
  { intros k. unfold row_slot. cbn. rewrite (np_swap_lookup i j (req_ids_ b) (Some id1) (Some id2) k E1 E2), E1, E2. by destruct (decide (k = j)), (decide (k = i)). }
  assert (HL' : lora_inv (held V b1) (lora_state b)) by (by apply (lora_ext (held V b))).
  assert (HW' : forall id' s', held V b1 id' = Some s' -> lora_wf (sl_state s')) by (intros id' s'; rewrite Hh; apply HW).
  pose proof (ci_len _ _ HC) as Hlen. apply lookup_lt_Some in E1 as L1, E2 as L2.
  unfold moved_more, params_inv, pieces_inv in *. destruct (is_pooling_model cfg) eqn:Epool.
  - eexists. split; [done|]. split_and!; try done. split; try done. unfold params_inv, pieces_inv. rewrite Epool. intros id'. by rewrite Hh, <-HP.
  - destruct (swap_sampling_inv _ _ (held V b1) (row_slot V b1) _ i j HP Hm ltac:(lia) ltac:(lia) Hij Hh Hg) as (x & Ex & HX & HM').
    change (sampling_state b1) with (sampling_state b). rewrite Ex. cbn [mbind result_bind]. eexists. split; [done|]. split_and!; try done.
    split; try done; [by apply (same_core_inv _ b1)|]. unfold params_inv, pieces_inv. by rewrite Epool.
Qed.
End Inv.
