(* ===== verification/LogitsProcs.v ===== *)
(** The logits processors that keep a dictionary from batch rows to per-request
    state (src/vllm/v1/sample/logits_processor/builtin.py): logit bias and
    minimum tokens. At each step they replay the changes of the batch that the
    [BatchUpdateBuilder] collected. The theorems show that after the replay each
    row has the entry of the request that is in it, and that the tensors built
    from the dictionary are rebuilt whenever it changed.

    The tensors are represented by the dictionary they were built from; applying
    them to logits is a tensor operation. *)
From Stdlib Require Import ZArith Lia String QArith Qcanon.
From stdpp Require Import numbers gmap strings list.
From S2P Require Import Prelude Request BlockTable InputBatch BatchInv.

Open Scope Z_scope.

Section Dict.
Context {T : Type} (truthy : T -> bool) (new_state : SamplingParams -> list Z -> nat -> option T).

(** * [process_dict_updates] *)

Definition process_added (p : gmap nat T * bool) (a : AddedRequest) : gmap nat T * bool :=
  let '(d, updated) := p in
  match new_state (ad_params a) (ad_prompt a) (ad_output a) with
  | Some st => (<[ad_index a := st]> d, true)
  | None => (delete (ad_index a) d, updated || bool_decide (is_Some (d !! ad_index a)))
  end.

Definition process_removed (p : gmap nat T * bool) (i : nat) : gmap nat T * bool :=
  let '(d, updated) := p in
  (delete i d, updated || match d !! i with Some v => truthy v | None => false end).

Definition process_moved (p : gmap nat T * bool) (m : nat * nat * MoveDirectionality) : gmap nat T * bool :=
  let '(d, updated) := p in
  let '(a, b, direct) := m in
  let a_entry := d !! a in
  let d := delete a d in
  let b_entry := d !! b in
  let d := delete b d in
  let d := match a_entry with Some v => <[b := v]> d | None => d end in
  let d := match b_entry, direct with Some v, SWAP => <[a := v]> d | _, _ => d end in
  (d, updated || bool_decide (is_Some a_entry) || bool_decide (is_Some b_entry)).

Definition process_dict_updates (u : option BatchUpdate) (d : gmap nat T) : gmap nat T * bool :=
  match u with
  | None => (d, false)
  | Some u =>
      let '(d, updated) := foldl process_added (d, false) (bu_added u) in
      if decide (d = ∅) then (d, updated) else
      let p := foldl process_removed (d, updated) (bu_removed u) in
      foldl process_moved p (bu_moved u)
  end.

(** ** The dictionary without the flag *)

Definition add_entry (d : gmap nat T) (a : AddedRequest) : gmap nat T :=
  match new_state (ad_params a) (ad_prompt a) (ad_output a) with
  | Some st => <[ad_index a := st]> d
  | None => delete (ad_index a) d
  end.

Definition move_entry (d : gmap nat T) (m : nat * nat * MoveDirectionality) : gmap nat T := (process_moved (d, false) m).1.

Definition drop_entry (d : gmap nat T) (i : nat) : gmap nat T := delete i d.

Lemma added_fst p l : (foldl process_added p l).1 = foldl add_entry p.1 l.
Proof.
  revert p. induction l as [|a l IH]; intros [d f]; [done|]. cbn [foldl]. rewrite IH. f_equal. cbn. unfold add_entry. by destruct (new_state _ _ _).
Qed.

Lemma removed_fst p l : (foldl process_removed p l).1 = foldl drop_entry p.1 l.
Proof. revert p. induction l as [|a l IH]; intros [d f]; [done|]. cbn [foldl]. by rewrite IH. Qed.

Lemma moved_fst p l : (foldl process_moved p l).1 = foldl move_entry p.1 l.
Proof. revert p. induction l as [|[[a b] x] l IH]; intros [d f]; [done|]. cbn [foldl]. by rewrite IH. Qed.

Lemma drop_lookup l : forall d k, foldl drop_entry d l !! k = if decide (k ∈ l) then None else d !! k.
Proof.
  induction l as [|i l IH]; intros d k; cbn [foldl]; [by rewrite decide_False by apply not_elem_of_nil|]. rewrite IH. unfold drop_entry.
  destruct (decide (k ∈ l)) as [Hk|Hk]; [by rewrite decide_True by (by right)|]. destruct (decide (k = i)) as [-> |Hi].
  - rewrite lookup_delete_eq, decide_True by (by left). done.
  - rewrite lookup_delete_ne by done. rewrite decide_False; [done|]. rewrite elem_of_cons. naive_solver.
Qed.

Lemma move_entry_lookup d a b x k : a ≠ b -> move_entry d (a, b, x) !! k =
  if decide (k = b) then d !! a else if decide (k = a) then (match x with SWAP => d !! b | UNIDIRECTIONAL => None end) else d !! k.
Proof.
  intros Hab. unfold move_entry. cbn. rewrite lookup_delete_ne by done. set (d1 := delete b (delete a d)).
  assert (Hd1 : forall k, d1 !! k = if decide (k = b) then None else if decide (k = a) then None else d !! k).
  { intros k'. unfold d1. destruct (decide (k' = b)) as [-> |Hb]; [apply lookup_delete_eq|]. rewrite lookup_delete_ne by done.
    destruct (decide (k' = a)) as [-> |Ha]; [apply lookup_delete_eq|by rewrite lookup_delete_ne]. }
  assert (Hd2 : forall k, (match d !! a with Some v => <[b := v]> d1 | None => d1 end) !! k = if decide (k = b) then d !! a else if decide (k = a) then None else d !! k).
  { intros k'. destruct (d !! a) eqn:Ea; rewrite ?lookup_insert, ?Hd1; repeat case_decide; subst; try done. }
  destruct (d !! b) as [v|] eqn:Eb, x; try (rewrite Hd2; repeat case_decide; subst; congruence).
  destruct (decide (k = a)) as [-> |Ha]; [rewrite lookup_insert_eq, decide_False by done; done|]. rewrite lookup_insert_ne, Hd2 by done. by rewrite (decide_False _ _ Ha).
Qed.

(** Moves of other rows commute with dropping entries. *)
Lemma moves_drop ms (R : list nat) : Forall (fun m => m.1.1 ≠ m.1.2 /\ m.1.1 ∉ R /\ m.1.2 ∉ R) ms -> forall d d',
  (forall k, d' !! k = if decide (k ∈ R) then None else d !! k) -> forall k, foldl move_entry d' ms !! k = if decide (k ∈ R) then None else foldl move_entry d ms !! k.
Proof.
  induction 1 as [|[[a b] x] ms (Hab & Ha & Hb) H IH]; intros d d' Hd k; [apply Hd|]. cbn [foldl]. apply IH. intros k'. cbn in Hab, Ha, Hb.
  rewrite !move_entry_lookup, !Hd by done. by repeat case_decide; subst.
Qed.
End Dict.

(** * Replaying a step *)

Section Sync.
Context (cfg : BatchConfig) {T : Type} (truthy : T -> bool) (new_state : SamplingParams -> list Z -> nat -> option T).

(** [R s o]: the entry [o] is right for the slot [s]. *)
Context (R : Slot -> option T -> Prop).

(** The dictionary [d0] of the start of the step, with the changes collected so
    far: each occupied row has a right entry, and a row that is neither occupied
    nor recorded as removed has none. *)
Record in_step (d0 : gmap nat T) (V : gmap string Slot) (b : InputBatch) : Prop := {
  is_rows : forall i id s, req_ids_ b !! i = Some (Some id) -> V !! id = Some s ->
    R s (foldl move_entry (foldl (add_entry new_state) d0 (added (batch_update_builder b))) (moved (batch_update_builder b)) !! i);
  is_none : forall i, (forall id, req_ids_ b !! i ≠ Some (Some id)) -> i ∉ removed_ (batch_update_builder b) ->
    foldl move_entry (foldl (add_entry new_state) d0 (added (batch_update_builder b))) (moved (batch_update_builder b)) !! i = None;
  is_moved : Forall (fun m => m.1.1 ≠ m.1.2 /\ m.1.1 ∉ removed_ (batch_update_builder b) /\ m.1.2 ∉ removed_ (batch_update_builder b)) (moved (batch_update_builder b));
  is_removed : forall i id, i ∈ removed_ (batch_update_builder b) -> req_ids_ b !! i ≠ Some (Some id);
  is_nodup : NoDup (removed_ (batch_update_builder b))
}.

(** Between steps: exactly the occupied rows have entries. *)
Definition in_sync (d : gmap nat T) (V : gmap string Slot) (b : InputBatch) : Prop :=
  (forall i id s, req_ids_ b !! i = Some (Some id) -> V !! id = Some s -> R s (d !! i)) /\
  (forall i, (forall id, req_ids_ b !! i ≠ Some (Some id)) -> d !! i = None).

Lemma sync_start d V b : in_sync d V b -> removed_ (batch_update_builder b) = [] -> moved (batch_update_builder b) = [] -> added (batch_update_builder b) = [] ->
  in_step d V b.
Proof.
  intros [H1 H2] E1 E2 E3. split; rewrite ?E1, ?E2, ?E3; cbn.
  - done.
  - intros i Hi _. by apply H2.
  - constructor.
  - by intros i id ?%not_elem_of_nil.
  - constructor.
Qed.

Lemma step_remove d V b b' : in_step d V b -> added (batch_update_builder b') = added (batch_update_builder b) ->
  moved (batch_update_builder b) = [] -> moved (batch_update_builder b') = [] ->
  holes_inv b' -> (forall j id, req_ids_ b' !! j = Some (Some id) -> req_ids_ b !! j = Some (Some id)) ->
  (forall j id, req_ids_ b !! j = Some (Some id) -> req_ids_ b' !! j = Some (Some id) \/ j ∈ removed_ (batch_update_builder b')) ->
  (forall j, j ∈ removed_ (batch_update_builder b) -> j ∈ removed_ (batch_update_builder b')) -> in_step d V b'.
Proof.
  intros [H1 H2 H3 H4 H5] Ea Em Em' HH Hsub Hleft Hrem. split; rewrite ?Ea, ?Em'; cbn.
  - intros i id s E Hs. apply Hsub in E. specialize (H1 i id s E Hs). by rewrite Em in H1.
  - intros i Hi Hr. specialize (H2 i). rewrite Em in H2. apply H2; [|by intros ?%Hrem]. intros id E. destruct (Hleft i id E) as [E'|E']; [by eapply Hi|done].
  - constructor.
  - intros i id Hi E. apply (hi_holes _ HH) in Hi. congruence.
  - apply (rk_nodup _ (hi_ok _ HH)).
Qed.

Lemma step_add d V b b' i id s sp : in_step d V b -> moved (batch_update_builder b) = [] -> moved (batch_update_builder b') = [] ->
  added (batch_update_builder b') = added (batch_update_builder b) ++ [mkAdded i sp (rs_prompt_token_ids (sl_state s)) (rs_output_token_ids (sl_state s))] ->
  slots_set i (Some id) b b' -> (forall j id', req_ids_ b !! j = Some (Some id') -> id' ≠ id) ->
  (forall j, j ∈ removed_ (batch_update_builder b') <-> j ∈ removed_ (batch_update_builder b) /\ j ≠ i) -> NoDup (removed_ (batch_update_builder b')) ->
  R s (new_state sp (rs_prompt_token_ids (sl_state s)) (rs_output_token_ids (sl_state s))) -> in_step d (<[id := s]> V) b'.
Proof.
  intros [H1 H2 H3 H4 H5] Em Em' Ea Hids Hnew Hrem Hnd HR. rewrite Em in H1, H2. cbn in H1, H2.
  assert (Hadd : forall j, foldl (add_entry new_state) d (added (batch_update_builder b')) !! j =
    if decide (j = i) then new_state sp (rs_prompt_token_ids (sl_state s)) (rs_output_token_ids (sl_state s))
    else foldl (add_entry new_state) d (added (batch_update_builder b)) !! j).
  { intros j. rewrite Ea, foldl_app. cbn. unfold add_entry at 1. cbn. destruct (decide (j = i)) as [-> |Hj].
    - destruct (new_state _ _ _); [apply lookup_insert_eq|apply lookup_delete_eq].
    - destruct (new_state _ _ _); [by rewrite lookup_insert_ne|by rewrite lookup_delete_ne]. }
  split; rewrite ?Em'; cbn; [| |by constructor| |done].
  - intros j id' s' E Hs'. rewrite Hids in E. rewrite Hadd. destruct (decide (j = i)) as [-> |Hj].
    + injection E as <-. rewrite lookup_insert_eq in Hs'. by injection Hs' as <-.
    + rewrite lookup_insert_ne in Hs' by (intros <-; by eapply Hnew). by eapply H1.
  - intros j Hj Hr. rewrite Hadd. destruct (decide (j = i)) as [-> |Hji]; [by destruct (Hj id); rewrite Hids, decide_True|]. apply H2.
    + intros id' E. destruct (Hj id'). by rewrite Hids, decide_False.
    + intros Hin. apply Hr, Hrem. done.
  - intros j id' Hj%Hrem E. destruct Hj as [Hj Hji]. rewrite Hids, decide_False in E by done. by eapply H4.
Qed.

(** A row whose slot changes in a way the entry does not depend on. *)
Lemma step_update d V b b' id s s' : in_step d V b -> V !! id = Some s -> (forall o, R s o -> R s' o) -> req_ids_ b' = req_ids_ b ->
  batch_update_builder b' = batch_update_builder b -> in_step d (<[id := s']> V) b'.
Proof.
  intros [H1 H2 H3 H4 H5] Hs HR E1 E2. split; rewrite ?E1, ?E2; try done. intros i id' s2 E Hs2. destruct (decide (id' = id)) as [-> |Hne].
  - rewrite lookup_insert_eq in Hs2. injection Hs2 as <-. apply HR. by eapply H1.
  - rewrite lookup_insert_ne in Hs2 by done. by eapply H1.
Qed.

Lemma step_moves d V b b' : is_pooling_model cfg = false -> moves cfg b b' -> in_step d V b -> in_step d V b'.
Proof.
  intros Hpool Hm. induction Hm as [b b' E1 E2 E3 E4|b b1 b2 l e id El Ee Hp Hids Hmv Ha Hm IH]; intros HS.
  { destruct HS as [H1 H2 H3 H4 H5]. split; rewrite ?E1, ?E3, ?E4; try done; rewrite ?E2; try done.
    - intros i Hi Hr. apply H2; [done|]. by rewrite <-E2.
    - eapply Forall_impl; [exact H3|]. intros [[x y] z]. by rewrite E2.
    - intros i id' Hi. apply H4. by rewrite <-E2. }
  apply IH. destruct HS as [H1 H2 H3 H4 H5]. unfold moved_more in Hmv. rewrite Hpool in Hmv. assert (Hle : l ≠ e) by congruence.
  pose proof H5 as Hnd. rewrite Hp in Hnd. apply NoDup_cons in Hnd as [Hne Hnd].
  assert (Hin : forall j, j ∈ removed_ (batch_update_builder b1) -> j ∈ removed_ (batch_update_builder b) /\ j ≠ e /\ j ≠ l).
  { intros j Hj. split_and!; [rewrite Hp; by right|by intros ->|]. intros ->. eapply (H4 l id); [rewrite Hp; by right|done]. }
  assert (Hlk : forall j, req_ids_ b1 !! j = if decide (j = l) then Some None else if decide (j = e) then Some (Some id) else req_ids_ b !! j).
  { intros j. rewrite Hids. apply lookup_lt_Some in El, Ee. destruct (decide (j = l)) as [-> |Hj]; [by rewrite list_lookup_insert_eq by (rewrite length_insert; lia)|].
    rewrite list_lookup_insert_ne by done. destruct (decide (j = e)) as [-> |Hj']; [by rewrite list_lookup_insert_eq by lia|by rewrite list_lookup_insert_ne]. }
  split; rewrite ?Ha, ?Hmv, ?foldl_app; cbn [foldl]; try done.
  - intros i id' s E Hs. rewrite Hlk in E. rewrite move_entry_lookup by done. destruct (decide (i = l)) as [-> |Hil]; [done|].
    destruct (decide (i = e)) as [-> |Hie]; [injection E as <-; by eapply H1|]. by eapply H1.
  - intros i Hi Hr. rewrite move_entry_lookup by done. destruct (decide (i = e)) as [-> |Hie]; [by destruct (Hi id); rewrite Hlk, decide_False, decide_True|].
    destruct (decide (i = l)) as [-> |Hil]; [done|]. apply H2.
    + intros id' E. destruct (Hi id'). by rewrite Hlk, !decide_False.
    + intros Hin'. rewrite Hp in Hin'. apply elem_of_cons in Hin' as [?|?]; done.
  - apply Forall_app. split; [|constructor; [cbn; split_and!; [done|by intros (_ & _ & ?)%Hin|by intros (_ & ? & _)%Hin]|constructor]].
    eapply Forall_impl; [exact H3|]. intros [[x y] z] (? & Hx & Hy). cbn in *. split_and!; [done|by intros (? & _)%Hin|by intros (? & _)%Hin].
  - intros i id' (Hi & Hie & Hil)%Hin. rewrite Hlk, !decide_False by done. by apply H4.
Qed.

Lemma step_swap d V b b' i j id1 id2 : is_pooling_model cfg = false -> in_step d V b -> i ≠ j -> req_ids_ b !! i = Some (Some id1) -> req_ids_ b !! j = Some (Some id2) ->
  req_ids_ b' = <[j := Some id1]> (<[i := Some id2]> (req_ids_ b)) -> removed_ (batch_update_builder b') = removed_ (batch_update_builder b) ->
  moved (batch_update_builder b') = moved_more cfg b (i, j, SWAP) -> added (batch_update_builder b') = added (batch_update_builder b) -> in_step d V b'.
Proof.
  intros Hpool [H1 H2 H3 H4 H5] Hij E1 E2 Hids Hr Hmv Ha. unfold moved_more in Hmv. rewrite Hpool in Hmv.
  assert (Hlk : forall k, req_ids_ b' !! k = if decide (k = j) then Some (Some id1) else if decide (k = i) then Some (Some id2) else req_ids_ b !! k).
  { intros k. rewrite Hids. by apply np_swap_lookup. }
  split; rewrite ?Ha, ?Hmv, ?foldl_app, ?Hr; cbn [foldl]; try done.
  - intros k id s E Hs. rewrite Hlk in E. rewrite move_entry_lookup by done. destruct (decide (k = j)) as [-> |Hj]; [injection E as <-; by eapply H1|].
    destruct (decide (k = i)) as [-> |Hi]; [injection E as <-; by eapply H1|by eapply H1].
  - intros k Hk Hrk. rewrite move_entry_lookup by done. destruct (decide (k = j)) as [-> |Hj]; [by destruct (Hk id1); rewrite Hlk, decide_True|].
    destruct (decide (k = i)) as [-> |Hi]; [by destruct (Hk id2); rewrite Hlk, decide_False, decide_True|]. apply H2; [|done].
    intros id E. destruct (Hk id). by rewrite Hlk, !decide_False.
  - apply Forall_app. split; [done|]. constructor; [|constructor]. cbn. split_and!; [done|intros Hi; by eapply (H4 i)|intros Hi; by eapply (H4 j)].
  - intros k id Hk. rewrite Hlk. destruct (decide (k = j)) as [-> |]; [by destruct (H4 j id2 Hk)|]. destruct (decide (k = i)) as [-> |]; [by destruct (H4 i id1 Hk)|by apply H4].
Qed.

Lemma move_empty (ms : list (nat * nat * MoveDirectionality)) : foldl move_entry (∅ : gmap nat T) ms = ∅.
Proof.
  induction ms as [|[[a b] x] ms IH]; [done|]. cbn [foldl]. replace (move_entry ∅ (a, b, x)) with (∅ : gmap nat T); [done|].
  unfold move_entry. cbn. by rewrite !delete_empty, !lookup_empty.
Qed.

(** Replaying the collected changes brings the dictionary up to date. *)
Lemma step_finish d V b n : in_step d V b ->
  in_sync (process_dict_updates truthy new_state (get_and_reset n (batch_update_builder b)).1 d).1 V b.
Proof.
  intros [H1 H2 H3 H4 H5]. set (bd := batch_update_builder b) in *. set (dA := foldl (add_entry new_state) d (added bd)) in *.
  assert (Hd : (process_dict_updates truthy new_state (get_and_reset n bd).1 d).1 = foldl move_entry (foldl drop_entry dA (removed_ bd)) (moved bd)).
  { unfold get_and_reset. set (u := mkUpdate n (removed_ bd) (added bd) (moved bd)).
    assert (Hu : (process_dict_updates truthy new_state (Some u) d).1 = foldl move_entry (foldl drop_entry dA (removed_ bd)) (moved bd)).
    { cbn [process_dict_updates]. pose proof (added_fst new_state (d, false) (bu_added u)) as Hadd. destruct (foldl (process_added new_state) _ _) as [d1 f1].
      cbn in Hadd. fold dA in Hadd. subst d1. destruct (decide (dA = ∅)) as [He|He]; [|by rewrite moved_fst, removed_fst].
      cbn [fst]. rewrite He. replace (foldl drop_entry ∅ (removed_ bd)) with (∅ : gmap nat T); [by rewrite move_empty|].
      apply map_eq. intros k. rewrite drop_lookup, lookup_empty. by destruct (decide _). }
    destruct (removed_ bd) eqn:Er, (moved bd) eqn:Em, (added bd) eqn:Ea; try (rewrite <-?Er, <-?Em, <-?Ea in *; exact Hu). unfold dA. done. }
  rewrite Hd. assert (Hk : forall k, foldl move_entry (foldl drop_entry dA (removed_ bd)) (moved bd) !! k =
    if decide (k ∈ removed_ bd) then None else foldl move_entry dA (moved bd) !! k).
  { apply (moves_drop _ _ H3). apply drop_lookup. }
  split.
  - intros i id s E Hs. rewrite Hk, decide_False; [by eapply H1|]. intros Hi. by eapply H4.
  - intros i Hi. rewrite Hk. destruct (decide (i ∈ removed_ bd)); [done|by apply H2].
Qed.

(** ** The flag *)

Lemma added_flag l : forall d f d', foldl (process_added new_state) (d, f) l = (d', false) -> f = false /\ d' = d.
Proof.
  induction l as [|a l IH]; intros d f d' E; cbn [foldl] in E; [by injection E as <- <-|]. cbn in E. destruct (new_state _ _ _).
  - by apply IH in E as [? _].
  - apply IH in E as [E ->]. apply orb_false_iff in E as [-> E]. apply bool_decide_eq_false in E. apply eq_None_not_Some in E. by rewrite delete_id.
Qed.

Lemma removed_flag l : forall d f d', (forall i v, d !! i = Some v -> truthy v = true) -> foldl (process_removed truthy) (d, f) l = (d', false) -> f = false /\ d' = d.
Proof.
  induction l as [|i l IH]; intros d f d' Ht E; cbn [foldl] in E; [by injection E as <- <-|]. cbn in E. apply IH in E as [E ->].
  - apply orb_false_iff in E as [-> E]. destruct (d !! i) eqn:Ei; [by rewrite (Ht _ _ Ei) in E|by rewrite delete_id].
  - intros j v Hv. apply lookup_delete_Some in Hv as [_ Hv]. by eapply Ht.
Qed.

Lemma moved_flag l : forall d f d', foldl (process_moved (T := T)) (d, f) l = (d', false) -> f = false /\ d' = d.
Proof.
  induction l as [|[[a b] x] l IH]; intros d f d' E; cbn [foldl] in E; [by injection E as <- <-|]. cbn in E. apply IH in E as [E ->].
  apply orb_false_iff in E as [E Eb]. apply orb_false_iff in E as [-> Ea]. apply bool_decide_eq_false, eq_None_not_Some in Ea, Eb. rewrite Ea, Eb.
  split; [done|]. rewrite (delete_id d a Ea) in *. by rewrite delete_id.
Qed.

Definition all_truthy (d : gmap nat T) : Prop := forall i v, d !! i = Some v -> truthy v = true.

Lemma added_truthy l : (forall sp p o v, new_state sp p o = Some v -> truthy v = true) -> forall d, all_truthy d -> all_truthy (foldl (add_entry new_state) d l).
Proof.
  intros Hn. induction l as [|a l IH]; intros d Hd; [done|]. cbn [foldl]. apply IH. unfold add_entry. intros i v.
  destruct (new_state _ _ _) eqn:En; intros E; [apply lookup_insert_Some in E as [[_ <-]|[_ E]]; eauto|apply lookup_delete_Some in E as [_ E]; eauto].
Qed.

Lemma dict_truthy u d : (forall sp p o v, new_state sp p o = Some v -> truthy v = true) -> all_truthy d -> all_truthy (process_dict_updates truthy new_state u d).1.
Proof.
  intros Hn Hd. destruct u as [u|]; [|done]. cbn. pose proof (added_fst new_state (d, false) (bu_added u)) as E1. destruct (foldl (process_added new_state) _ _) as [d1 f1].
  cbn in E1. assert (Hd1 : all_truthy d1) by (rewrite E1; by apply added_truthy). destruct (decide (d1 = ∅)); [done|]. rewrite moved_fst, removed_fst. cbn.
  assert (Hd2 : all_truthy (foldl drop_entry d1 (bu_removed u))).
  { intros i v E. rewrite drop_lookup in E. destruct (decide _); [done|by eapply Hd1]. }
  revert Hd2. generalize (foldl drop_entry d1 (bu_removed u)). induction (bu_moved u) as [|[[a b] x] ms IH]; intros d2 Hd2; [done|]. cbn [foldl]. apply IH.
  unfold move_entry. cbn. intros i v E. destruct (d2 !! a) eqn:Ea, (delete a d2 !! b) eqn:Eb, x;
    repeat (apply lookup_insert_Some in E as [[_ <-]|[_ E]] || apply lookup_delete_Some in E as [_ E]);
    repeat match goal with H : delete _ _ !! _ = Some _ |- _ => apply lookup_delete_Some in H as [_ H] end; eauto.
Qed.

(** Without the flag the dictionary did not change, so tensors built from it
    need not be rebuilt. *)
Lemma dict_flag u d d' : (forall sp p o v, new_state sp p o = Some v -> truthy v = true) -> all_truthy d ->
  process_dict_updates truthy new_state u d = (d', false) -> d' = d.
Proof.
  intros Hn Ht E. destruct u as [u|]; [|by injection E as <-]. cbn in E. pose proof (added_fst new_state (d, false) (bu_added u)) as E0.
  destruct (foldl (process_added new_state) _ _) as [d1 f1] eqn:E1. cbn in E0.
  destruct (decide (d1 = ∅)); [injection E as <- ->; by apply added_flag in E1 as [_ ->]|].
  destruct (foldl (process_removed truthy) _ _) as [d2 f2] eqn:E2. apply moved_flag in E as [-> ->].
  apply removed_flag in E2 as [-> ->]; [|intros i v; rewrite E0; by apply added_truthy]. by apply added_flag in E1 as [_ ->].
Qed.
End Sync.

(** * Logit bias *)

Record LogitBias := mkBias { biases : gmap nat (list (Z * Qc)); bias_tensors : gmap nat (list (Z * Qc)) }.

(** [params.logit_bias or None]. *)
Definition bias_state (sp : SamplingParams) (_ : list Z) (_ : nat) : option (list (Z * Qc)) :=
  match logit_bias (sampler sp) with
  | Some ((_ :: _) as l) => Some l
  | _ => None
  end.

Definition nonempty {A} (l : list A) : bool := match l with [] => false | _ => true end.

Definition bias_update_state (u : option BatchUpdate) (p : LogitBias) : LogitBias :=
  let '(d, needs_update) := process_dict_updates nonempty bias_state u (biases p) in
  mkBias d (if needs_update then d else bias_tensors p).

(** * Minimum tokens *)

Definition min_entry : Type := Z * nat * list Z.

Record MinTokens := mkMinTokens { min_toks : gmap nat min_entry; min_tensors : gmap nat min_entry }.

Section MinTokens.
(** The shared lists of output tokens. *)
Context (outs : nat -> list Z).

Definition min_state (sp : SamplingParams) (_ : list Z) (out : nat) : option min_entry :=
  let m := sp_min_tokens (sampler sp) in
  if (m =? 0) || (m <=? zlen (outs out)) then None else Some (m, out, all_stop_token_ids (sampler sp)).

Definition min_attained (e : min_entry) : bool := let '(m, out, _) := e in m <=? zlen (outs out).

Definition min_update_state (u : option BatchUpdate) (p : MinTokens) : MinTokens :=
  let '(d, needs_update) := process_dict_updates (fun _ => true) min_state u (min_toks p) in
  let d' := filter (fun kv => min_attained kv.2 = false) d in
  let needs_update := needs_update || bool_decide (d' ≠ d) in
  mkMinTokens d' (if needs_update then d' else min_tensors p).
End MinTokens.

(** * The entries are right *)

(** The bias of a row is the bias of its request. *)
Definition bias_right (s : Slot) (o : option (list (Z * Qc))) : Prop :=
  o = (sp ← rs_sampling_params (sl_state s); bias_state sp (rs_prompt_token_ids (sl_state s)) (rs_output_token_ids (sl_state s))).

Record bias_inv (V : gmap string Slot) (b : InputBatch) (p : LogitBias) : Prop := {
  bv_sync : in_sync bias_right (biases p) V b;
  bv_tensors : bias_tensors p = biases p;
  bv_nonempty : all_truthy nonempty (biases p)
}.

Lemma bias_state_nonempty sp pr o v : bias_state sp pr o = Some v -> nonempty v = true.
Proof. unfold bias_state. destruct (logit_bias (sampler sp)) as [[|x l]|]; try done. by intros [= <-]. Qed.

(** The tensors of a processor are rebuilt exactly when they have to be. *)
Lemma bias_update_spec V b p n : in_step bias_state bias_right (biases p) V b -> bias_tensors p = biases p -> all_truthy nonempty (biases p) ->
  bias_inv V b (bias_update_state (get_and_reset n (batch_update_builder b)).1 p).
Proof.
  intros HS Ht Hn. pose proof (step_finish nonempty bias_state bias_right _ _ _ n HS) as HF. unfold bias_update_state.
  pose proof (dict_truthy nonempty bias_state (get_and_reset n (batch_update_builder b)).1 _ bias_state_nonempty Hn) as Hn'.
  destruct (process_dict_updates _ _ _ _) as [d [|]] eqn:E; split; try done. cbn. apply dict_flag in E as ->; [done|exact bias_state_nonempty|done].
Qed.

Section MinRight.
Context (outs : nat -> list Z).

(** During a step: the entry is the request's, and it may only be missing when
    enough tokens were generated. *)
Definition min_right (s : Slot) (o : option min_entry) : Prop :=
  match rs_sampling_params (sl_state s) with
  | None => o = None
  | Some sp =>
      let m := sp_min_tokens (sampler sp) in
      match o with
      | Some e => e = (m, rs_output_token_ids (sl_state s), all_stop_token_ids (sampler sp))
      | None => m = 0 \/ m <= zlen (outs (rs_output_token_ids (sl_state s)))
      end
  end.

(** After a step: an entry is there exactly while tokens are missing. *)
Definition min_exact (s : Slot) (o : option min_entry) : Prop :=
  o = (sp ← rs_sampling_params (sl_state s); min_state outs sp (rs_prompt_token_ids (sl_state s)) (rs_output_token_ids (sl_state s))).

Record min_inv (V : gmap string Slot) (b : InputBatch) (p : MinTokens) : Prop := {
  mv_sync : in_sync min_exact (min_toks p) V b;
  mv_tensors : min_tensors p = min_toks p
}.

Lemma min_filter d V b : (forall i id s, req_ids_ b !! i = Some (Some id) -> V !! id = Some s -> forall sp, rs_sampling_params (sl_state s) = Some sp -> 0 <= sp_min_tokens (sampler sp)) ->
  in_sync min_right d V b -> in_sync min_exact (filter (fun kv => min_attained outs kv.2 = false) d) V b.
Proof.
  intros Hpos [H1 H2]. split.
  - intros i id s E Hs. specialize (H1 i id s E Hs). specialize (Hpos i id s E Hs). unfold min_right in H1. unfold min_exact.
    rewrite map_lookup_filter. destruct (rs_sampling_params (sl_state s)) as [sp|]; cbn; [|by rewrite H1]. specialize (Hpos sp eq_refl). unfold min_state.
    destruct (d !! i) as [e|]; cbn.
    + subst e. cbn. destruct (_ <=? zlen _) eqn:El; cbn; [by rewrite orb_true_r|]. apply Z.leb_gt in El. pose proof (zlen_nonneg (outs (rs_output_token_ids (sl_state s)))).
      by rewrite (proj2 (Z.eqb_neq _ _)) by lia.
    + destruct H1 as [->|Hle]; [done|]. rewrite (proj2 (Z.leb_le _ _) Hle). by rewrite orb_true_r.
  - intros i Hi. apply map_lookup_filter_None. left. by apply H2.
Qed.

Lemma min_update_spec V b p n : (forall i id s, req_ids_ b !! i = Some (Some id) -> V !! id = Some s -> forall sp, rs_sampling_params (sl_state s) = Some sp -> 0 <= sp_min_tokens (sampler sp)) ->
  in_step (min_state outs) min_right (min_toks p) V b -> min_tensors p = min_toks p ->
  min_inv V b (min_update_state outs (get_and_reset n (batch_update_builder b)).1 p).
Proof.
  intros Hpos HS Ht. pose proof (step_finish (fun _ => true) (min_state outs) min_right _ _ _ n HS) as HF. unfold min_update_state.
  destruct (process_dict_updates _ _ _ _) as [d f] eqn:E. cbn in HF. split; cbn; [by apply min_filter|].
  destruct f; [done|]. cbn. apply dict_flag in E as ->; [|done|done]. destruct (bool_decide _) eqn:Eb; [done|].
  apply bool_decide_eq_false, dec_stable in Eb. by rewrite Eb.
Qed.
End MinRight.
