(* ===== verification/ModelRunner.v ===== *)
(** The host side of a worker's model runner
    (src/vllm/v1/worker/gpu_model_runner.py): the cached request states, how a
    scheduler output is applied to them and to the persistent batch
    ([_update_states]), the indices the model's inputs are gathered with
    ([_prepare_inputs]), and how sampled tokens are stored
    ([_bookkeeping_sync]).

    The forward pass and the sampler are tensor programs: what they return is an
    argument. The iteration order of Python sets is arbitrary; it is given by the
    class [SetOrder]. M-RoPE positions, LoRA activation, encoder execution,
    attention metadata and asynchronous scheduling are not represented. *)
From Stdlib Require Import ZArith Lia String QArith Qcanon.
From stdpp Require Import numbers gmap strings list.
From S2P Require Import Prelude Request BlockTable InputBatch BatchInv LogitsProcs SchedState.

Open Scope Z_scope.

Record RunnerConfig := mkRunnerConfig {
  batch_config : BatchConfig;
  is_last_rank : bool;
  num_kv_cache_groups : nat;
  reorder_batch_threshold : option Z;
  runner_dcp_world_size : Z
}.

Record Runner := mkRunner {
  w_requests : gmap string CachedRequestState;
  input_batch : InputBatch;
  out_lists : list (list Z);
  encoder_cache : gset string;
  bias_proc : LogitBias;
  min_proc : MinTokens
}.

Definition set_requests (x : gmap string CachedRequestState) (w : Runner) : Runner :=
  mkRunner x (input_batch w) (out_lists w) (encoder_cache w) (bias_proc w) (min_proc w).
Definition set_batch (x : InputBatch) (w : Runner) : Runner :=
  mkRunner (w_requests w) x (out_lists w) (encoder_cache w) (bias_proc w) (min_proc w).
Definition set_out_lists (x : list (list Z)) (w : Runner) : Runner :=
  mkRunner (w_requests w) (input_batch w) x (encoder_cache w) (bias_proc w) (min_proc w).
Definition set_encoder_cache (x : gset string) (w : Runner) : Runner :=
  mkRunner (w_requests w) (input_batch w) (out_lists w) x (bias_proc w) (min_proc w).
Definition set_procs (x : LogitBias) (y : MinTokens) (w : Runner) : Runner :=
  mkRunner (w_requests w) (input_batch w) (out_lists w) (encoder_cache w) x y.

(** The list a reference points to. *)
Definition outs_at (w : Runner) (ref : nat) : list Z := default [] (out_lists w !! ref).

Section Runner.
Context `{!SetOrder} (cfg : RunnerConfig).

(** The pooling parameters of a request after the updates of the model's
    pooler. *)
Context (pooling_of : NewRequestData -> PoolingParams).

Notation bcfg := (batch_config cfg).

(** * Applying a scheduler output *)

Definition remove_from_batch (w : Runner) (id : string) : result Runner :=
  '(_, b) ← batch_remove_request bcfg id (input_batch w);
  Ok (set_batch b w).

(** A request that is scheduled for the first time. *)
Definition add_new (p : Runner * list string) (nr : NewRequestData) : result (Runner * list string) :=
  let '(w, to_add) := p in
  let gen := match nr_sampling_params nr with
             | Some sp => if decide (sampling_type (sampler sp) = RANDOM_SEED) then seed (sampler sp) else None
             | None => None
             end in
  pooling ← (if is_pooling_model bcfg then _ ← assert_ (nr_pooling_params nr); Ok (Some (pooling_of nr))
             else Ok (if nr_pooling_params nr then Some (pooling_of nr) else None));
  let c := mkState (nr_req_id nr) (nr_prompt_token_ids nr) (nr_mm_hashes nr) (nr_mm_positions nr) (nr_sampling_params nr) pooling gen
             (nr_block_ids nr) (nr_num_computed_tokens nr) (length (out_lists w)) (nr_lora_request nr) in
  Ok (set_requests (<[nr_req_id nr := c]> (w_requests w)) (set_out_lists (out_lists w ++ [[]]) w), to_add ++ [nr_req_id nr]).

(** [for block_ids, new_ids in zip(...): block_ids.extend(new_ids)]. *)
Fixpoint zip_extend (ids news : list (list Z)) : list (list Z) :=
  match ids, news with
  | a :: ids, n :: news => (a ++ n) :: zip_extend ids news
  | _, _ => ids
  end.

(** The tokens a pipeline stage other than the last appends: the sampled ones it
    does not have yet. *)
Definition new_output_tokens (num_tokens num_computed : Z) (toks : list Z) : result (list Z) :=
  let num_new := num_computed + zlen toks - num_tokens in
  if num_new =? 1 then t ← get_or IndexError (last toks); Ok [t]
  else if 0 <? num_new then Ok (pydrop (- num_new) toks) else Ok [].

Definition extend_list (ref : nat) (toks : list Z) (w : Runner) : Runner :=
  set_out_lists (alter (fun l => l ++ toks) ref (out_lists w)) w.

Definition set_row_computed (n : Z) (r : Row) : Row :=
  mkRow (token_ids_cpu r) (row_num_tokens r) (num_tokens_no_spec r) (row_num_prompt_tokens r) n (request_lora_mapping r) (sampling_row r)
    (num_accepted_tokens_cpu r) (logits_processing_needs_token_ids r).

(** Tokens written into the row at [start]; the row then has [no_spec] tokens and
    [num] with drafts. *)
Definition write_tokens (start : nat) (toks : list Z) (num no_spec : nat) (r : Row) : result Row :=
  l ← np_write start toks (token_ids_cpu r);
  Ok (mkRow l num no_spec (row_num_prompt_tokens r) (num_computed_tokens_cpu r) (request_lora_mapping r) (sampling_row r)
        (num_accepted_tokens_cpu r) (logits_processing_needs_token_ids r)).

(** The row of a request that stays in the batch. *)
Definition update_row (num_computed : Z) (toks spec : list Z) (r : Row) : result Row :=
  let r := set_row_computed num_computed r in
  r ← (if is_last_rank cfg then Ok r
       else let e := (Z.to_nat num_computed + length toks)%nat in write_tokens (Z.to_nat num_computed) toks e e r);
  match spec with
  | [] => Ok r
  | _ => write_tokens (num_tokens_no_spec r) spec (row_num_tokens r + length spec) (num_tokens_no_spec r) r
  end.

Definition update_cached (out : SchedulerOutput) (p : Runner * list string) (ix : nat * string) : result (Runner * list string) :=
  let '(w, to_add) := p in
  let '(i, id) := ix in
  let d := so_cached_reqs out in
  c ← get_or KeyError (w_requests w !! id);
  n ← get_or IndexError (cr_num_computed_tokens d !! i);
  nb ← get_or IndexError (cr_new_block_ids d !! i);
  resumed ← get_or IndexError (cr_resumed_from_preemption d !! i);
  let c := set_rs_computed n c in
  toks ← (if is_last_rank cfg then Ok [] else get_or IndexError (cr_new_token_ids d !! i));
  more ← (if is_last_rank cfg then Ok []
          else new_output_tokens (zlen (rs_prompt_token_ids c) + zlen (outs_at w (rs_output_token_ids c))) n toks);
  let w := extend_list (rs_output_token_ids c) more w in
  c ← (if (resumed : bool) then ids ← get_or AssertionError nb; Ok (set_rs_blocks ids c)
       else Ok (match nb with Some ids => set_rs_blocks (zip_extend (rs_block_ids c) ids) c | None => c end));
  let w := set_requests (<[id := c]> (w_requests w)) w in
  let b := input_batch w in
  match req_id_to_index b !! id with
  | None => Ok (w, to_add ++ [id])
  | Some ri =>
      rs ← np_alter ri (update_row n toks (default [] (so_spec_decode_tokens out !! id))) (rows b);
      ts ← (match nb with Some ids => multi_append_row ids ri (block_table b) | None => Ok (block_table b) end);
      Ok (set_batch (set_rows rs ts b) w, to_add)
  end.

Definition add_to_batch (w : Runner) (id : string) : result Runner :=
  c ← get_or KeyError (w_requests w !! id);
  '(_, b) ← batch_add_request bcfg (outs_at w (rs_output_token_ids c)) c (input_batch w);
  Ok (set_batch b w).

(** ** Reordering *)

(** [reorder_batch_to_split_decodes_and_prefills]
    (src/vllm/v1/attention/backends/utils.py). *)
Fixpoint split_batch (threshold : Z) (sched : list (string * Z)) (i : nat) (ids : list (option string)) : result (list nat * list nat) :=
  match ids with
  | [] => Ok ([], [])
  | o :: ids =>
      id ← get_or KeyError o;
      n ← get_or KeyError (dget id sched);
      '(decodes, prefills) ← split_batch threshold sched (S i) ids;
      Ok (if n <=? threshold then (i :: decodes, prefills) else (decodes, i :: prefills))
  end.

(** The exchanges: decodes from the back against prefills from the front. *)
Fixpoint swap_loop (num_decodes : nat) (pairs : list (nat * nat)) (b : InputBatch) : result InputBatch :=
  match pairs with
  | [] => Ok b
  | (decode_idx, prefill) :: pairs =>
      if (decode_idx <? num_decodes)%nat then Ok b
      else b ← swap_states bcfg prefill decode_idx b; swap_loop num_decodes pairs b
  end.

Definition reorder_batch (threshold : Z) (sched : list (string * Z)) (b : InputBatch) : result InputBatch :=
  '(decodes, prefills) ← split_batch threshold sched 0 (req_ids_ b);
  swap_loop (length decodes) (zip (reverse decodes) prefills) b.

Definition may_reorder_batch (out : SchedulerOutput) (b : InputBatch) : result InputBatch :=
  if (num_kv_cache_groups cfg =? 0)%nat then Ok b else
  match reorder_batch_threshold cfg with
  | None => Ok b
  | Some t =>
      _ ← raise_if ((1 <? runner_dcp_world_size cfg) && negb (t =? 1)) AssertionError;
      reorder_batch t (so_num_scheduled_tokens out) b
  end.

(** [refresh_metadata] with the logits processors. *)
Definition refresh (w : Runner) : Runner :=
  let '(u, b) := refresh_metadata bcfg (input_batch w) in
  let w := set_batch b w in
  if is_pooling_model bcfg then w
  else set_procs (bias_update_state u (bias_proc w)) (min_update_state (outs_at w) u (min_proc w)) w.

Definition update_states (out : SchedulerOutput) (w : Runner) : result Runner :=
  let finished := set_order (so_finished_req_ids out) in
  let w := set_requests (foldl (fun m id => delete id m) (w_requests w) finished) w in
  w ← foldM remove_from_batch w finished;
  let w := set_encoder_cache (foldl (fun X h => X ∖ {[h]}) (encoder_cache w) (so_free_encoder_mm_hashes out)) w in
  let unscheduled := dom (req_id_to_index (input_batch w)) ∖ list_to_set (so_num_scheduled_tokens out).*1 in
  w ← foldM remove_from_batch w (set_order unscheduled);
  '(w, to_add) ← foldM add_new (w, []) (so_new_reqs out);
  '(w, to_add) ← foldM (update_cached out) (w, to_add) (imap pair (cr_req_ids (so_cached_reqs out)));
  w ← foldM add_to_batch w to_add;
  b ← condense bcfg (input_batch w);
  b ← may_reorder_batch out b;
  Ok (refresh (set_batch b w)).
End Runner.
