(* ===== verification/Reorder.v ===== *)
(** Putting decodes before prefills
    ([reorder_batch_to_split_decodes_and_prefills],
    src/vllm/v1/attention/backends/utils.py): the exchanges of the loop bring the
    requests with few scheduled tokens into the first rows. This file has the
    argument on lists of rows; that the exchanges keep the batch consistent is in
    RunnerInv. *)
From Stdlib Require Import ZArith Lia String Sorted.
From stdpp Require Import numbers gmap strings list sorting.
From S2P Require Import Prelude Request BlockTable InputBatch SchedState ModelRunner.

Open Scope Z_scope.

(** The rows after the exchanges. *)
Fixpoint swap_ids {A} (num_decodes : nat) (pairs : list (nat * nat)) (l : list A) : list A :=
  match pairs with
  | [] => l
  | (d, p) :: pairs =>
      if (d <? num_decodes)%nat then l
      else swap_ids num_decodes pairs (match l !! p, l !! d with Some x, Some y => <[d := x]> (<[p := y]> l) | _, _ => l end)
  end.

(** * The two lists of rows *)

Fixpoint rows_where {A} (f : A -> bool) (i : nat) (l : list A) : list nat :=
  match l with
  | [] => []
  | x :: l => if f x then i :: rows_where f (S i) l else rows_where f (S i) l
  end.

(** A request that has at most [t] scheduled tokens. *)
Definition is_decode (t : Z) (sched : list (string * Z)) (o : option string) : bool :=
  match (id ← o; dget id sched) with Some n => n <=? t | None => false end.

Lemma split_batch_spec t sched ids : forall i, Forall (fun o => exists id n, o = Some id /\ dget id sched = Some n) ids ->
  split_batch t sched i ids = Ok (rows_where (is_decode t sched) i ids, rows_where (fun o => negb (is_decode t sched o)) i ids).
Proof.
  induction ids as [|o ids IH]; intros i H; [done|]. apply Forall_cons in H as [(id & n & -> & Hn) H]. cbn [split_batch]. cbn [get_or mbind result_bind].
  rewrite Hn. cbn [get_or mbind result_bind]. rewrite IH by done. cbn [mbind result_bind rows_where].
  assert (E : is_decode t sched (Some id) = (n <=? t)) by (unfold is_decode; cbn; by rewrite Hn). rewrite E. by destruct (n <=? t).
Qed.

Lemma rows_where_elem {A} (f : A -> bool) l : forall i k, k ∈ rows_where f i l <-> exists j x, k = (i + j)%nat /\ l !! j = Some x /\ f x = true.
Proof.
  induction l as [|x l IH]; intros i k; cbn [rows_where].
  { rewrite elem_of_nil. split; [done|]. intros (j & y & _ & E & _). by rewrite lookup_nil in E. }
  assert (H : (exists j y, k = (i + j)%nat /\ (x :: l) !! j = Some y /\ f y = true) <->
    (k = i /\ f x = true) \/ exists j y, k = (S i + j)%nat /\ l !! j = Some y /\ f y = true).
  { split.
    - intros ([|j] & y & -> & E & Hf); cbn in E; [left; split; [lia|congruence]|right; exists j, y; split_and!; [lia|done..]].
    - intros [[-> Hf]|(j & y & -> & E & Hf)]; [exists 0%nat, x; split_and!; [lia|done..]|exists (S j), y; split_and!; [lia|done..]]. }
  rewrite H. destruct (f x) eqn:Ef; rewrite ?elem_of_cons, IH; naive_solver.
Qed.

Lemma rows_where_sorted {A} (f : A -> bool) l : forall i, StronglySorted lt (rows_where f i l).
Proof.
  induction l as [|x l IH]; intros i; cbn; [constructor|]. destruct (f x); [|apply IH]. constructor; [apply IH|].
  apply Forall_forall. intros k Hk. apply rows_where_elem in Hk as (j & y & -> & _). lia.
Qed.

(** Every row is in exactly one of the two lists. *)
Lemma rows_where_split {A} (f : A -> bool) l : forall i, rows_where f i l ++ rows_where (fun x => negb (f x)) i l ≡ₚ seq i (length l).
Proof.
  induction l as [|x l IH]; intros i; [done|]. cbn. destruct (f x); cbn; [by rewrite IH|]. by rewrite <-Permutation_middle, IH.
Qed.

(** * The exchanges *)

Lemma filter_both {A} (P : A -> Prop) `{!forall x, Decision (P x)} l : (length (filter P l) + length (filter (fun x => ~ P x) l) = length l)%nat.
Proof. induction l as [|x l IH]; [done|]. rewrite !filter_cons. destruct (decide (P x)), (decide (~ P x)); try tauto; cbn; lia. Qed.

Lemma sorted_cut n l : StronglySorted lt l -> l = filter (fun k => (k < n)%nat) l ++ filter (fun k => ~ (k < n)%nat) l.
Proof.
  induction 1 as [|x l Hs IH Hx]; [done|]. rewrite !filter_cons. destruct (decide (x < n)%nat) as [H|H].
  - rewrite (decide_False (P := ~ (x < n)%nat)) by tauto. cbn. by f_equal.
  - rewrite decide_True by done. assert (E : filter (fun k => (k < n)%nat) l = []).
    { apply filter_none. intros k Hk. apply (proj1 (Forall_forall _ _) Hx) in Hk. lia. }
    rewrite E in *. cbn in *. by f_equal.
Qed.

Lemma filter_seq n m : (n <= m)%nat -> filter (fun k => (k < n)%nat) (seq 0 m) = seq 0 n.
Proof.
  intros H. replace m with (n + (m - n))%nat by lia. rewrite seq_app, filter_app.
  assert (E1 : filter (fun k => (k < n)%nat) (seq 0 n) = seq 0 n) by (apply filter_all; intros k Hk%elem_of_seq; lia).
  assert (E2 : filter (fun k => (k < n)%nat) (seq (0 + n) (m - n)) = []) by (apply filter_none; intros k Hk%elem_of_seq; lia).
  by rewrite E1, E2, app_nil_r.
Qed.

(** As many decodes are beyond the first rows as prefills are in them. *)
Lemma out_of_place (D P : list nat) m : D ++ P ≡ₚ seq 0 m ->
  length (filter (fun k => ~ (k < length D)%nat) D) = length (filter (fun k => (k < length D)%nat) P).
Proof.
  intros Hp. assert (Hm : (length D <= m)%nat).
  { pose proof (Permutation_length Hp) as E. rewrite length_app, length_seq in E. lia. }
  assert (E : length (filter (fun k => (k < length D)%nat) (D ++ P)) = length D) by (rewrite Hp, filter_seq by done; apply length_seq).
  rewrite filter_app, length_app in E. pose proof (filter_both (fun k => (k < length D)%nat) D) as E'. lia.
Qed.

Lemma swap_ids_app {A} nd ps qs (l : list A) : Forall (fun dp => (nd <= dp.1)%nat) ps -> Forall (fun dp => (dp.1 < nd)%nat) qs ->
  swap_ids nd (ps ++ qs) l = swap_ids nd ps l.
Proof.
  intros Hps Hqs. revert l. induction Hps as [|[d p] ps Hd _ IH]; intros l.
  - cbn. destruct Hqs as [|[d p] qs Hd _]; [done|]. cbn [swap_ids]. cbn in Hd. by rewrite (proj2 (Nat.ltb_lt _ _) Hd).
  - cbn [app swap_ids]. by rewrite IH.
Qed.

(** Exchanges of distinct rows: each row of a pair gets the other's entry. *)
Lemma swap_ids_lookup {A} nd ps : forall l : list A, Forall (fun dp => (nd <= dp.1)%nat) ps -> NoDup (ps.*1 ++ ps.*2) ->
  Forall (fun dp => (dp.1 < length l)%nat /\ (dp.2 < length l)%nat) ps ->
  length (swap_ids nd ps l) = length l /\
  (forall d p, (d, p) ∈ ps -> swap_ids nd ps l !! d = l !! p /\ swap_ids nd ps l !! p = l !! d) /\
  (forall k, k ∉ ps.*1 ++ ps.*2 -> swap_ids nd ps l !! k = l !! k).
Proof.
  induction ps as [|[d p] ps IH]; intros l Hd Hnd Hr; [split_and!; [done|by intros ?? ?%elem_of_nil|done]|].
  apply Forall_cons in Hd as [Hd Hds]. apply Forall_cons in Hr as [[Hr1 Hr2] Hr]. cbn in Hd, Hr1, Hr2. cbn in Hnd. rewrite <-Permutation_middle in Hnd.
  apply NoDup_cons in Hnd as [Hn1 Hnd]. apply NoDup_cons in Hnd as [Hn2 Hnd]. apply not_elem_of_cons in Hn1 as [Hdp Hn1].
  cbn [swap_ids]. rewrite (proj2 (Nat.ltb_ge _ _) Hd). destruct (lookup_lt_is_Some_2 _ _ Hr1) as [y Ey]. destruct (lookup_lt_is_Some_2 _ _ Hr2) as [x Ex].
  rewrite Ex, Ey. set (l1 := <[d := x]> (<[p := y]> l)). assert (Hl1 : forall k, l1 !! k = if decide (k = d) then Some x else if decide (k = p) then Some y else l !! k).
  { intros k. unfold l1. by apply np_swap_lookup. }
  destruct (IH l1 Hds Hnd) as (H1 & H2 & H3); [by unfold l1; rewrite !length_insert|]. rewrite H1. unfold l1 at 1. rewrite !length_insert. split; [done|]. split.
  - intros d' p' Hin. apply elem_of_cons in Hin as [[= -> ->]|Hin].
    + rewrite !H3 by done. rewrite !Hl1, decide_True, decide_False, decide_True by done. by rewrite Ex, Ey.
    + destruct (H2 d' p' Hin) as [-> ->]. assert (d' ∈ ps.*1 ++ ps.*2 /\ p' ∈ ps.*1 ++ ps.*2) as [I1 I2].
      { rewrite !elem_of_app, !list_elem_of_fmap. split; [left|right]; by exists (d', p'). }
      rewrite !Hl1, !decide_False; try done; intros ->; done.
  - intros k Hk. rewrite fmap_cons, fmap_cons in Hk. cbn in Hk. rewrite <-Permutation_middle in Hk.
    apply not_elem_of_cons in Hk as [Hk1 Hk]. apply not_elem_of_cons in Hk as [Hk2 Hk]. rewrite H3 by done. by rewrite Hl1, !decide_False.
Qed.

(** The exchanges of the loop are those of the decodes that are out of place. *)
Lemma swap_ids_zip {A} (D P : list nat) m (l : list A) : StronglySorted lt D -> StronglySorted lt P -> D ++ P ≡ₚ seq 0 m ->
  swap_ids (length D) (zip (reverse D) P) l =
  swap_ids (length D) (zip (reverse (filter (fun k => ~ (k < length D)%nat) D)) (filter (fun k => (k < length D)%nat) P)) l.
Proof.
  intros HD HP Hp. pose proof (out_of_place D P m Hp) as Hlen. set (nd := length D) in *.
  rewrite (sorted_cut nd D HD) at 1. rewrite (sorted_cut nd P HP) at 1. rewrite reverse_app, zip_with_app by (by rewrite length_reverse).
  apply swap_ids_app; apply Forall_forall; intros [d p] Hin; apply elem_of_zip_l in Hin; rewrite elem_of_reverse, list_elem_of_filter in Hin; cbn; lia.
Qed.

(** Decodes first: with [l] the rows and [f] saying which are decodes, after the
    exchanges exactly the first rows are decodes. *)
Lemma swap_ids_split {A} (f : A -> bool) (l : list A) : let D := rows_where f 0 l in let P := rows_where (fun x => negb (f x)) 0 l in
  let r := swap_ids (length D) (zip (reverse D) P) l in
  length r = length l /\ forall k x, r !! k = Some x -> f x = true <-> (k < length D)%nat.
Proof.
  intros D P r. pose proof (rows_where_split f l 0) as Hperm. fold D P in Hperm. pose proof (rows_where_sorted f l 0) as HD. fold D in HD.
  pose proof (rows_where_sorted (fun x => negb (f x)) l 0) as HP. fold P in HP. pose proof (out_of_place D P _ Hperm) as Hlen.
  unfold r. rewrite (swap_ids_zip D P _ l HD HP Hperm). clear r. set (nd := length D) in *.
  set (Dh := filter (fun k => ~ (k < nd)%nat) D) in *. set (Pl := filter (fun k => (k < nd)%nat) P) in *.
  assert (E1 : (zip (reverse Dh) Pl).*1 = reverse Dh) by (apply fst_zip; rewrite length_reverse; lia).
  assert (E2 : (zip (reverse Dh) Pl).*2 = Pl) by (apply snd_zip; rewrite length_reverse; lia).
  assert (HDf : forall k x, l !! k = Some x -> k ∈ D <-> f x = true).
  { intros k x E. unfold D. rewrite rows_where_elem. split; [intros (j & y & -> & Ey & Hf)|intros Hf; by exists k, x]. cbn in E. congruence. }
  assert (HPf : forall k x, l !! k = Some x -> k ∈ P <-> f x = false).
  { intros k x E. unfold P. rewrite rows_where_elem. split; [intros (j & y & -> & Ey & Hf)|intros Hf; exists k, x; by rewrite Hf].
    cbn in E. apply negb_true_iff in Hf. congruence. }
  assert (Hin : forall k, k ∈ Dh ++ Pl -> k ∈ D ++ P) by (intros k; rewrite !elem_of_app; unfold Dh, Pl; rewrite !list_elem_of_filter; naive_solver).
  assert (Hr : forall k, k ∈ D ++ P -> (k < length l)%nat) by (intros k Hk; rewrite Hperm in Hk; apply elem_of_seq in Hk; lia).
  assert (Hnd : NoDup (Dh ++ Pl)).
  { assert (Hall : NoDup (D ++ P)) by (rewrite Hperm; apply NoDup_seq). eapply sublist_NoDup; [exact Hall|]. apply sublist_app; apply sublist_filter. }
  destruct (swap_ids_lookup nd (zip (reverse Dh) Pl) l) as (H1 & H2 & H3).
  { apply Forall_forall. intros [d p] Hz. apply elem_of_zip_l in Hz. rewrite elem_of_reverse in Hz. apply list_elem_of_filter in Hz. cbn. lia. }
  { rewrite E1, E2. by rewrite reverse_Permutation. }
  { apply Forall_forall. intros [d p] Hz. split; cbn; apply Hr, Hin, elem_of_app; [left|right].
    - apply elem_of_zip_l in Hz. by rewrite elem_of_reverse in Hz.
    - by apply elem_of_zip_r in Hz. }
  split; [done|]. intros k x Ek. destruct (decide (k ∈ Dh ++ Pl)) as [Hk|Hk].
  - assert (Hk' : k ∈ (zip (reverse Dh) Pl).*1 ++ (zip (reverse Dh) Pl).*2) by (by rewrite E1, E2, reverse_Permutation).
    apply elem_of_app in Hk' as [Hk'|Hk']; apply list_elem_of_fmap in Hk' as ([d p] & -> & Hz); destruct (H2 d p Hz) as [Hd Hp]; cbn in Ek.
    + rewrite Hd in Ek. apply elem_of_zip_l in Hz as Hzd. apply elem_of_zip_r in Hz. rewrite elem_of_reverse in Hzd. apply list_elem_of_filter in Hzd, Hz.
      cbn. apply (HPf p) in Ek. destruct Ek as [Ek _]. rewrite Ek by tauto. split; [done|lia].
    + rewrite Hp in Ek. apply elem_of_zip_l in Hz as Hzd. apply elem_of_zip_r in Hz. rewrite elem_of_reverse in Hzd. apply list_elem_of_filter in Hzd, Hz.
      cbn. apply (HDf d) in Ek. destruct Ek as [Ek _]. rewrite Ek by tauto. split; [tauto|done].
  - rewrite H3 in Ek by (by rewrite E1, E2, reverse_Permutation). rewrite <-(HDf k x Ek). assert (Hx : k ∈ D ++ P).
    { rewrite Hperm. apply elem_of_seq. apply lookup_lt_Some in Ek. lia. }
    rewrite elem_of_app in Hk, Hx. unfold Dh, Pl in Hk. rewrite !list_elem_of_filter in Hk. split; [|tauto]. intros HkD. destruct (decide (k < nd)%nat); [done|tauto].
Qed.
