(* ===== verification/RunnerInv.v ===== *)
(** Applying a scheduler output keeps a worker consistent: after
    [update_states] the batch has exactly the scheduled requests, each in one of
    the first rows with its tokens, block ids, computed count and sampling
    parameters, and the logits processors have the entries of these requests.

    This is for the stage that samples (the last pipeline stage, or no pipeline):
    earlier stages get the sampled tokens back from the scheduler. *)
From Stdlib Require Import ZArith Lia String QArith Qcanon.
From stdpp Require Import numbers gmap strings list.
From S2P Require Import Prelude Request BlockTable InputBatch BatchInv LogitsProcs SchedState ModelRunner Reorder.

Open Scope Z_scope.

Section RunnerInv.
Context `{HSO : !SetOrder} (cfg : RunnerConfig) (pooling_of : NewRequestData -> PoolingParams).
Notation bcfg := (batch_config cfg).

(** * Views *)

(** What the runner knows of a request, with draft tokens [spec]. *)
Definition slot_of_state (w : Runner) (spec : list Z) (c : CachedRequestState) : Slot := mkSlot c (outs_at w (rs_output_token_ids c)) spec.

Definition view (S : gmap string (list Z)) (w : Runner) : gmap string Slot :=
  map_imap (fun id c => Some (slot_of_state w (default [] (S !! id)) c)) (w_requests w).

Lemma view_lookup S w id : view S w !! id = slot_of_state w (default [] (S !! id)) <$> w_requests w !! id.
Proof. unfold view. rewrite map_lookup_imap. by destruct (w_requests w !! id). Qed.

(** The batch only depends on the slots of its requests. *)
Lemma batch_inv_ext V V' b : (forall id, is_Some (req_id_to_index b !! id) -> V' !! id = V !! id) -> batch_inv bcfg V b -> batch_inv bcfg V' b.
Proof.
  intros Hext [HC HP Hm HL HW]. assert (Hh : forall id, held V' b id = held V b id).
  { intros id. unfold held. destruct (req_id_to_index b !! id) eqn:E; [|done]. cbn. apply Hext. by rewrite E. }
  assert (Hid : forall i id, req_ids_ b !! i = Some (Some id) -> V' !! id = V !! id).
  { intros i id E. apply Hext. apply (ci_index _ _ _ HC) in E. by rewrite E. }
  assert (Hg : forall i, row_slot V' b i = row_slot V b i).
  { intros i. unfold row_slot. destruct (req_ids_ b !! i) as [[id|]|] eqn:E; try done. cbn. by eapply Hid. }
  split; [|by eapply pieces_ext|done|by eapply lora_ext|intros id s; rewrite Hh; apply HW].
  destruct HC as [H1 H2 H3 H4 H5 H6 H7]. split; try done. intros i id E. rewrite (Hid i id E). by apply H7.
Qed.

Lemma in_step_ext {T} (ns : SamplingParams -> list Z -> nat -> option T) R d V V' b :
  (forall i id, req_ids_ b !! i = Some (Some id) -> V' !! id = V !! id) -> in_step ns R d V b -> in_step ns R d V' b.
Proof. intros Hext [H1 H2 H3 H4 H5]. split; try done. intros i id s E Hs. rewrite (Hext i id E) in Hs. by eapply H1. Qed.

(** * The invariant between steps *)

Definition state_ok (w : Runner) (id : string) (c : CachedRequestState) : Prop :=
  rs_req_id c = id /\ (rs_output_token_ids c < length (out_lists w))%nat /\ right_kind bcfg c /\ lora_wf c /\ params_ok bcfg c /\
  (forall sp, rs_sampling_params c = Some sp -> 0 <= sp_min_tokens (sampler sp)).

Record procs_ok (S : gmap string (list Z)) (w : Runner) : Prop := {
  pk_bias : bias_inv (view S w) (input_batch w) (bias_proc w);
  pk_min : in_sync (min_right (outs_at w)) (min_toks (min_proc w)) (view S w) (input_batch w);
  pk_min_tensors : min_tensors (min_proc w) = min_toks (min_proc w)
}.

Record runner_ok (S : gmap string (list Z)) (w : Runner) : Prop := {
  rn_batch : batch_inv bcfg (view S w) (input_batch w);
  rn_dense : dense (input_batch w);
  rn_builder : removed_ (batch_update_builder (input_batch w)) = [] /\ moved (batch_update_builder (input_batch w)) = [] /\
    added (batch_update_builder (input_batch w)) = [] /\ is_removed_sorted (batch_update_builder (input_batch w)) = false;
  rn_states : forall id c, w_requests w !! id = Some c -> state_ok w id c;
  rn_refs : forall id id' c c', w_requests w !! id = Some c -> w_requests w !! id' = Some c' -> rs_output_token_ids c = rs_output_token_ids c' -> id = id';
  rn_procs : is_pooling_model bcfg = false -> procs_ok S w
}.

(** * During a step *)

(** The batch is consistent with the view [V], and the changes collected so far,
    replayed on the processors' dictionaries, are right. *)
Record mid (V : gmap string Slot) (outs : nat -> list Z) (p : LogitBias) (q : MinTokens) (b : InputBatch) : Prop := {
  md_batch : batch_inv bcfg V b;
  md_holes : holes_inv b;
  md_moved : moved (batch_update_builder b) = [];
  md_procs : is_pooling_model bcfg = false ->
    in_step bias_state bias_right (biases p) V b /\ in_step (min_state outs) (min_right outs) (min_toks q) V b
}.

Definition unsorted (b : InputBatch) : Prop := is_removed_sorted (batch_update_builder b) = false.

(** The rows that belong to a request, before and after requests are removed. *)
Lemma mid_remove V outs p q b id : mid V outs p q b -> unsorted b ->
  exists o b', batch_remove_request bcfg id b = Ok (o, b') /\ mid V outs p q b' /\ unsorted b' /\ block_table b' = block_table b /\
    req_id_to_index b' = delete id (req_id_to_index b).
Proof.
  intros [HB HH Hm HP] Hu.
  destruct (remove_request_spec bcfg V b id HB HH Hu) as (o & b' & E & HB' & HH' & Hu' & Ht & Hidx & Hm' & Ha & Hids & Hlen & Hrem).
  exists o, b'. split_and!; try done. rewrite Hm in Hm'. split; try done. intros Hpool. destruct (HP Hpool) as [P1 P2].
  assert (Hleft : forall j id', req_ids_ b !! j = Some (Some id') -> req_ids_ b' !! j = Some (Some id') \/ j ∈ removed_ (batch_update_builder b')).
  { intros j id' Ej. destruct (decide (id' = id)) as [-> |Hne]; [right|left; by apply Hids].
    apply (hi_holes _ HH'). destruct (row_cases bcfg V b' j (bi_core _ _ _ HB')) as [?|[id' Ej']]; [rewrite Hlen; by eapply lookup_lt_Some|done|].
    apply Hids in Ej' as [Ej' Hne]. congruence. }
  split; eapply step_remove; try done; intros j id' Ej'; by apply Hids.
Qed.

Lemma remove_all V outs p q ids : forall w, mid V outs p q (input_batch w) -> unsorted (input_batch w) ->
  exists b', foldM (remove_from_batch cfg) w ids = Ok (set_batch b' w) /\ mid V outs p q b' /\ unsorted b' /\ block_table b' = block_table (input_batch w) /\
    (forall id, req_id_to_index b' !! id = if decide (id ∈ ids) then None else req_id_to_index (input_batch w) !! id).
Proof.
  induction ids as [|id ids IH]; intros w HM Hu; cbn [foldM].
  { exists (input_batch w). split; [by destruct w|]. split_and!; try done. }
  destruct (mid_remove V outs p q _ id HM Hu) as (o & b1 & E & HM1 & Hu1 & Ht & Hidx). 
  assert (E1 : remove_from_batch cfg w id = Ok (set_batch b1 w)) by (unfold remove_from_batch; by rewrite E). rewrite E1. cbn [mbind result_bind].
  destruct (IH (set_batch b1 w) HM1 Hu1) as (b' & E' & HM' & Hu' & Ht' & Hidx'). exists b'. split; [exact E'|]. split_and!; try done; [by rewrite Ht'|].
  intros id'. rewrite Hidx'. cbn. rewrite Hidx. destruct (decide (id' ∈ ids)) as [Hin|Hin]; [by rewrite decide_True by (by right)|].
  destruct (decide (id' = id)) as [-> |Hne]; [by rewrite lookup_delete_eq, decide_True by (by left)|].
  rewrite lookup_delete_ne by done. rewrite decide_False; [done|]. rewrite elem_of_cons. naive_solver.
Qed.

(** ** New requests *)

Definition new_state_of (ref : nat) (nr : NewRequestData) : CachedRequestState :=
  mkState (nr_req_id nr) (nr_prompt_token_ids nr) (nr_mm_hashes nr) (nr_mm_positions nr) (nr_sampling_params nr)
    (if nr_pooling_params nr then Some (pooling_of nr) else None)
    (sp ← nr_sampling_params nr; if decide (sampling_type (sampler sp) = RANDOM_SEED) then seed (sampler sp) else None)
    (nr_block_ids nr) (nr_num_computed_tokens nr) ref (nr_lora_request nr).

Lemma add_new_all news : forall w ids, NoDup (nr_req_id <$> news) -> (is_pooling_model bcfg = true -> Forall (fun nr => nr_pooling_params nr = true) news) ->
  exists reqs, foldM (add_new cfg pooling_of) (w, ids) news =
      Ok (set_requests reqs (set_out_lists (out_lists w ++ replicate (length news) []) w), ids ++ (nr_req_id <$> news)) /\
    (forall k nr, news !! k = Some nr -> reqs !! nr_req_id nr = Some (new_state_of (length (out_lists w) + k) nr)) /\
    (forall id, id ∉ nr_req_id <$> news -> reqs !! id = w_requests w !! id).
Proof.
  induction news as [|nr news IH]; intros w ids Hnd Hp.
  { exists (w_requests w). cbn. rewrite !app_nil_r. split; [by destruct w|]. by split. }
  apply NoDup_cons in Hnd as [Hni Hnd]. cbn [foldM].
  assert (Hp' : is_pooling_model bcfg = true -> nr_pooling_params nr = true /\ Forall (fun nr => nr_pooling_params nr = true) news).
  { intros E. specialize (Hp E). by apply Forall_cons in Hp. }
  assert (E1 : add_new cfg pooling_of (w, ids) nr = Ok (set_requests (<[nr_req_id nr := new_state_of (length (out_lists w)) nr]> (w_requests w))
    (set_out_lists (out_lists w ++ [[]]) w), ids ++ [nr_req_id nr])).
  { unfold add_new, new_state_of. destruct (is_pooling_model bcfg); [destruct Hp' as [E _]; [done|]; rewrite E; cbn|cbn];
      by destruct (nr_sampling_params nr). }
  rewrite E1. cbn [mbind result_bind].
  destruct (IH (set_requests (<[nr_req_id nr := new_state_of (length (out_lists w)) nr]> (w_requests w)) (set_out_lists (out_lists w ++ [[]]) w))
    (ids ++ [nr_req_id nr]) Hnd ltac:(intros E; by apply Hp')) as (reqs & E & H1 & H2). exists reqs. split.
  { rewrite E. cbn. by rewrite <-!app_assoc. }
  split.
  - intros [|k] nr' Ek; cbn in Ek.
    + injection Ek as <-. rewrite H2 by done. cbn. rewrite Nat.add_0_r. apply lookup_insert_eq.
    + rewrite (H1 k nr' Ek). cbn. rewrite length_app. cbn. f_equal. f_equal. lia.
  - intros id Hid. cbn in Hid. apply not_elem_of_cons in Hid as [Hne Hid]. rewrite H2 by done. cbn. by rewrite lookup_insert_ne.
Qed.

(** ** Requests that stay in the batch *)

(** The parameters of a request, which an update does not change. *)
Definition slot_params (s : Slot) : option SamplingParams * option PoolingParams * option Z * option LoRARequest :=
  (rs_sampling_params (sl_state s), rs_pooling_params (sl_state s), rs_generator (sl_state s), rs_lora_request (sl_state s)).

Lemma same_params_gen o o' : slot_params <$> o' = slot_params <$> o -> gen_of o' = gen_of o /\ bad_words_of o' = bad_words_of o /\
  forall p, logprobs_of_slot bcfg p o' = logprobs_of_slot bcfg p o.
Proof.
  destruct o as [s|], o' as [s'|]; try done. cbn. intros [= E1 E2 E3 E4]. unfold gen_of, bad_words_of, logprobs_of_slot. cbn. by rewrite E1, E3.
Qed.

Lemma pieces_params f g f' g' b b' : (forall id, slot_params <$> f' id = slot_params <$> f id) -> (forall i, slot_params <$> g' i = slot_params <$> g i) ->
  sampling_state b' = sampling_state b -> batch_pooling_params b' = batch_pooling_params b -> pieces_inv bcfg f g b -> pieces_inv bcfg f' g' b'.
Proof.
  intros Hf Hg E1 E2. unfold pieces_inv. rewrite E1, E2. destruct (is_pooling_model bcfg).
  { intros Hpp id. rewrite Hpp. specialize (Hf id). destruct (f id), (f' id); try done. cbn in *. by injection Hf as _ -> _ _. }
  assert (Hf' : forall id n, (exists s sp, f' id = Some s /\ rs_sampling_params (sl_state s) = Some sp /\ in_set bcfg sp n = true) <->
    (exists s sp, f id = Some s /\ rs_sampling_params (sl_state s) = Some sp /\ in_set bcfg sp n = true)).
  { intros id n. specialize (Hf id). destruct (f id) as [s|], (f' id) as [s'|]; try done. cbn in Hf. injection Hf as E _ _ _.
    split; intros (t & sp & [= <-] & Esp & Hin); eexists _, _; (split; [done|]); split; try done; congruence. }
  intros [H1 H2 H3 H4 H5]. split.
  - intros n id. by rewrite H1, Hf'.
  - intros i. rewrite H2. symmetry. by apply same_params_gen.
  - intros i. rewrite H3. symmetry. by apply same_params_gen.
  - intros id. rewrite H4. symmetry. by apply same_params_gen.
  - intros id. rewrite H5. symmetry. by apply same_params_gen.
Qed.

Lemma lora_params f f' x : (forall id, slot_params <$> f' id = slot_params <$> f id) -> lora_inv f x -> lora_inv f' x.
Proof.
  intros Hf [H1 H2 H3]. split; [|done..]. intros l id. rewrite H1. specialize (Hf id). destruct (f id) as [s|], (f' id) as [s'|]; try done.
  cbn in Hf. injection Hf as _ _ _ E. assert (El : lora_of (sl_state s') = lora_of (sl_state s)) by (unfold lora_of; by rewrite E).
  split; intros (t & [= <-] & Hl & Hz); eexists; (split; [done|]); split; congruence.
Qed.

(** A new slot for a request of the batch, with its row and blocks. *)
Lemma batch_update V b ri id s s' r' ts : batch_inv bcfg V b -> req_id_to_index b !! id = Some ri -> V !! id = Some s ->
  slot_params s' = slot_params s -> rs_req_id (sl_state s') = id -> rs_output_token_ids (sl_state s') = rs_output_token_ids (sl_state s) ->
  row_ok bcfg s' r' -> length (token_ids_cpu r') = batch_max_model_len bcfg ->
  Forall (table_ok (max_num_reqs bcfg)) ts -> rows_are ts ri (rs_block_ids (sl_state s')) -> tables_kept ri (block_table b) ts ->
  batch_inv bcfg (<[id := s']> V) (set_rows (<[ri := r']> (rows b)) ts b).
Proof.
  intros [HC HP Hm HL HW] Ei HV Hpar Hid Href Hr Hw Ht1 Ht2 Ht3. pose proof (proj1 (ci_index _ _ _ HC _ _) Ei) as Eo.
  destruct (ci_slot _ _ _ HC _ _ Eo) as (s0 & HV0 & [A1 A2 (r & Er & Ar) A4 A5]). rewrite HV in HV0. injection HV0 as <-.
  set (b' := set_rows _ ts b). assert (Hh : forall id', slot_params <$> held (<[id := s']> V) b' id' = slot_params <$> held V b id').
  { intros id'. unfold held. cbn. destruct (req_id_to_index b !! id') eqn:E; [|done]. cbn. destruct (decide (id' = id)) as [-> |Hne]; [|by rewrite lookup_insert_ne].
    rewrite lookup_insert_eq, HV. cbn. by rewrite Hpar. }
  assert (Hg : forall i, slot_params <$> row_slot (<[id := s']> V) b' i = slot_params <$> row_slot V b i).
  { intros i. unfold row_slot. cbn. destruct (req_ids_ b !! i) as [[id'|]|]; try done. cbn. destruct (decide (id' = id)) as [-> |Hne]; [|by rewrite lookup_insert_ne].
    rewrite lookup_insert_eq, HV. cbn. by rewrite Hpar. }
  split; [|by eapply pieces_params|done|by eapply lora_params|].
  - destruct HC as [H1 H2 H3 H4 H5 H6 H7]. split; cbn; rewrite ?length_insert; try done; [by apply Forall_insert|]. intros i id' E.
    destruct (decide (id' = id)) as [-> |Hne].
    + assert (i = ri) as -> by (apply H1 in E; congruence). exists s'. rewrite lookup_insert_eq. split; [done|]. split; cbn; try done.
      * unfold right_kind in *. unfold slot_params in Hpar. injection Hpar as E1 E2 _ _. by rewrite E1, E2.
      * exists r'. rewrite list_lookup_insert_eq by (by eapply lookup_lt_Some). done.
      * by rewrite A5, Href.
    + destruct (H7 i id' E) as (s2 & Hs2 & Ha2). exists s2. rewrite lookup_insert_ne by done. split; [done|].
      assert (i ≠ ri) by (intros ->; congruence). apply (slot_at_keep bcfg b); cbn; try done; [by apply list_lookup_insert_ne|]. intros idss. by apply Ht3.
  - intros id' s2 E. specialize (Hh id'). rewrite E in Hh. destruct (held V b id') as [s1|] eqn:E1; [|done]. cbn in Hh. injection Hh as _ _ _ El.
    intros l Hl. rewrite El in Hl. by apply (HW id' s1 E1).
Qed.

(** The requests, their states and the batch agree at a point of the step where
    nothing has moved yet. *)
Record stage (S : gmap string (list Z)) (w : Runner) : Prop := {
  sg_mid : mid (view S w) (outs_at w) (bias_proc w) (min_proc w) (input_batch w);
  sg_states : forall id c, w_requests w !! id = Some c -> state_ok w id c;
  sg_refs : forall id id' c c', w_requests w !! id = Some c -> w_requests w !! id' = Some c' -> rs_output_token_ids c = rs_output_token_ids c' -> id = id'
}.

(** The state of a request after the update of the scheduler. *)
Definition cached_after (n : Z) (nb : option (list (list Z))) (resumed : bool) (c : CachedRequestState) : CachedRequestState :=
  let c := set_rs_computed n c in
  if resumed then set_rs_blocks (default [] nb) c
  else match nb with Some ids => set_rs_blocks (zip_with app (rs_block_ids c) ids) c | None => c end.

(** The shape of a table: what its operations do not change. *)
Definition shape (t : BlockTable) : nat * nat * Z * Z * Z :=
  (max_num_blocks_per_req t, max_num_batched_tokens t, bt_block_size t, dcp_world_size t, dcp_rank t).
Definition shapes (b : InputBatch) : list (nat * nat * Z * Z * Z) := shape <$> block_table b.
Definition fits (ws : list (nat * nat * Z * Z * Z)) (idss : list (list Z)) : Prop := Forall2 (fun w ids => (length ids <= w.1.1.1.1)%nat) ws idss.

Lemma rows_fit_shapes b idss : rows_fit (block_table b) idss <-> fits (shapes b) idss.
Proof. unfold rows_fit, fits, shapes. by rewrite Forall2_fmap_l. Qed.

Lemma same_shapes b b' : Forall2 same_shape (block_table b) (block_table b') -> shapes b' = shapes b.
Proof.
  unfold shapes. induction 1 as [|t t' ts ts' (E1 & E2 & E3 & E4 & E5) _ IH]; [done|]. cbn. rewrite IH. unfold shape. by rewrite E1, E2, E3, E4, E5.
Qed.

(** What the scheduler promises of an update: with the new blocks the request
    fits into a row, and a resumed request is not in the batch. *)
Record entry_ok (b : InputBatch) (out : list Z) (c : CachedRequestState) (spec : list Z) (nb : option (list (list Z))) (resumed : bool) : Prop := {
  eo_resumed : resumed = true -> is_Some nb /\ req_id_to_index b !! rs_req_id c = None;
  eo_groups : forall ids, resumed = false -> nb = Some ids -> length ids = length (rs_block_ids c);
  eo_fits : fits (shapes b) (rs_block_ids (cached_after 0 nb resumed c));
  eo_tokens : (length (rs_prompt_token_ids c) + length out + length spec <= batch_max_model_len bcfg)%nat
}.

Lemma zip_extend_with ids : forall news, length news = length ids -> zip_extend ids news = zip_with app ids news.
Proof. induction ids as [|a ids IH]; intros [|n news] H; try done. cbn in *. by rewrite IH by lia. Qed.

Lemma extend_nil ref w : extend_list ref [] w = w.
Proof.
  unfold extend_list. assert (E : alter (fun l => l ++ []) ref (out_lists w) = out_lists w); [|rewrite E; by destruct w].
  apply list_eq. intros i. destruct (decide (i = ref)) as [-> |Hne]; [|by rewrite list_lookup_alter_ne].
  rewrite list_lookup_alter_eq. destruct (out_lists w !! ref); [|done]. cbn. by rewrite app_nil_r.
Qed.

Lemma cached_params n nb resumed c : rs_req_id (cached_after n nb resumed c) = rs_req_id c /\
  rs_prompt_token_ids (cached_after n nb resumed c) = rs_prompt_token_ids c /\ rs_sampling_params (cached_after n nb resumed c) = rs_sampling_params c /\
  rs_pooling_params (cached_after n nb resumed c) = rs_pooling_params c /\ rs_generator (cached_after n nb resumed c) = rs_generator c /\
  rs_output_token_ids (cached_after n nb resumed c) = rs_output_token_ids c /\ rs_lora_request (cached_after n nb resumed c) = rs_lora_request c /\
  rs_num_computed_tokens (cached_after n nb resumed c) = n /\ rs_block_ids (cached_after n nb resumed c) = rs_block_ids (cached_after 0 nb resumed c).
Proof. unfold cached_after. destruct resumed, nb; by split_and!. Qed.

Lemma cached_state_ok w w' id n nb resumed c : out_lists w' = out_lists w -> state_ok w id c -> state_ok w' id (cached_after n nb resumed c).
Proof.
  intros E (H1 & H2 & H3 & H4 & H5 & H6). destruct (cached_params n nb resumed c) as (E1 & E2 & E3 & E4 & E5 & E6 & E7 & _).
  unfold state_ok, right_kind, lora_wf, params_ok. rewrite E, E1, E3, E4, E6, E7. done.
Qed.

(** Replacing the state of a request. *)
Lemma stage_states S w id c c' b : w_requests w !! id = Some c -> state_ok w id c' ->
  rs_output_token_ids c' = rs_output_token_ids c -> stage S w ->
  (forall id0 c0, <[id := c']> (w_requests w) !! id0 = Some c0 -> state_ok (set_batch b (set_requests (<[id := c']> (w_requests w)) w)) id0 c0) /\
  (forall id1 id2 c1 c2, <[id := c']> (w_requests w) !! id1 = Some c1 -> <[id := c']> (w_requests w) !! id2 = Some c2 ->
    rs_output_token_ids c1 = rs_output_token_ids c2 -> id1 = id2).
Proof.
  intros Hc Hok Href [_ Hst Hrefs]. split.
  - intros id0 c0 E. apply lookup_insert_Some in E as [[<- <-]|[_ E]]; [done|]. by apply Hst.
  - assert (Hr : forall id1 c1, <[id := c']> (w_requests w) !! id1 = Some c1 -> exists c0, w_requests w !! id1 = Some c0 /\ rs_output_token_ids c0 = rs_output_token_ids c1).
    { intros id1 c1 E. apply lookup_insert_Some in E as [[<- <-]|[_ E]]; eauto. }
    intros id1 id2 c1 c2 E1 E2 Heq. destruct (Hr _ _ E1) as (d1 & D1 & R1). destruct (Hr _ _ E2) as (d2 & D2 & R2).
    apply (Hrefs id1 id2 d1 d2 D1 D2). congruence.
Qed.

Lemma update_row_ok c out spec n c' r : is_last_rank cfg = true -> row_ok bcfg (mkSlot c out []) r -> length (token_ids_cpu r) = batch_max_model_len bcfg ->
  (length (rs_prompt_token_ids c) + length out + length spec <= batch_max_model_len bcfg)%nat ->
  rs_prompt_token_ids c' = rs_prompt_token_ids c -> rs_sampling_params c' = rs_sampling_params c -> rs_lora_request c' = rs_lora_request c ->
  rs_num_computed_tokens c' = n ->
  exists r', update_row cfg n [] spec r = Ok r' /\ row_ok bcfg (mkSlot c' out spec) r' /\ length (token_ids_cpu r') = batch_max_model_len bcfg.
Proof.
  intros Hl [H1 H2 H3 H4 H5 H6 H7] Hlen Hfit E1 E2 E3 E4. unfold update_row. rewrite Hl. cbn [mbind result_bind].
  unfold slot_tokens in *. cbn [sl_state sl_out sl_spec] in *. rewrite app_nil_r in H1, H2.
  assert (Hlora : lora_of c' = lora_of c) by (unfold lora_of; by rewrite E3).
  destruct spec as [|x spec].
  { eexists. split; [done|]. split; [|done]. split; unfold slot_tokens; cbn; rewrite ?app_nil_r, ?E1, ?E2, ?Hlora; done. }
  unfold write_tokens. cbn [token_ids_cpu set_row_computed num_tokens_no_spec row_num_tokens]. rewrite length_app in H2, H3.
  rewrite np_write_ok by (rewrite H3, Hlen; cbn [length] in *; lia). cbn [mbind result_bind]. eexists. split; [done|].
  split; [|cbn [token_ids_cpu]; rewrite np_write_length; [done|rewrite H3, Hlen; cbn [length] in *; lia]].
  split; unfold slot_tokens; cbn [sl_state sl_out sl_spec token_ids_cpu row_num_tokens num_tokens_no_spec row_num_prompt_tokens num_computed_tokens_cpu request_lora_mapping sampling_row set_row_computed];
    rewrite ?E1, ?E2, ?Hlora; try done.
  - rewrite H3, <-length_app. by apply np_write_prefix.
  - rewrite H2, !length_app. done.
  - by rewrite H3, length_app.
Qed.

(** The entry of an update. *)
Definition entry (d : CachedRequestData) (i : nat) : option (Z * option (list (list Z)) * bool) :=
  n ← cr_num_computed_tokens d !! i; nb ← cr_new_block_ids d !! i; r ← cr_resumed_from_preemption d !! i; Some (n, nb, r).

Definition spec_of (out : SchedulerOutput) (id : string) : list Z := default [] (so_spec_decode_tokens out !! id).

(** The runner with request [id] updated. *)
Definition updated (id : string) (c : CachedRequestState) (b : InputBatch) (w : Runner) : Runner :=
  set_batch b (set_requests (<[id := c]> (w_requests w)) w).

Lemma update_cached_eq out w to_add i id c n nb resumed : is_last_rank cfg = true -> w_requests w !! id = Some c -> entry (so_cached_reqs out) i = Some (n, nb, resumed) ->
  rs_req_id c = id -> entry_ok (input_batch w) (outs_at w (rs_output_token_ids c)) c (spec_of out id) nb resumed ->
  update_cached cfg out (w, to_add) (i, id) =
    match req_id_to_index (input_batch w) !! id with
    | None => Ok (updated id (cached_after n nb resumed c) (input_batch w) w, to_add ++ [id])
    | Some ri =>
        rs ← np_alter ri (update_row cfg n [] (spec_of out id)) (rows (input_batch w));
        ts ← (match nb with Some ids => multi_append_row ids ri (block_table (input_batch w)) | None => Ok (block_table (input_batch w)) end);
        Ok (updated id (cached_after n nb resumed c) (set_rows rs ts (input_batch w)) w, to_add)
    end.
Proof.
  intros Hl Hc He Hid [H1 H2 _ _]. unfold entry in He. destruct (cr_num_computed_tokens _ !! i) eqn:E1; [|done]. destruct (cr_new_block_ids _ !! i) eqn:E2; [|done].
  destruct (cr_resumed_from_preemption _ !! i) eqn:E3; [|done]. cbn in He. injection He as -> -> ->.
  unfold update_cached. rewrite Hc, E1, E2, E3, Hl. cbn [get_or mbind result_bind]. rewrite extend_nil.
  assert (Ec : (if resumed then ids ← get_or AssertionError nb; Ok (set_rs_blocks ids (set_rs_computed n c))
    else Ok (match nb with Some ids => set_rs_blocks (zip_extend (rs_block_ids (set_rs_computed n c)) ids) (set_rs_computed n c) | None => set_rs_computed n c end))
    = Ok (cached_after n nb resumed c)).
  { unfold cached_after. destruct resumed; [by destruct (H1 eq_refl) as [[ids ->] _]|]. destruct nb as [ids|]; [|done].
    rewrite zip_extend_with; [done|]. by apply H2. }
  rewrite Ec. cbn [mbind result_bind set_requests input_batch]. destruct (req_id_to_index (input_batch w) !! id) as [ri|]; [|by destruct w]. done.
Qed.

Lemma view_insert S w id c b spec : view (<[id := spec]> S) (updated id c b w) = <[id := slot_of_state w spec c]> (view S w).
Proof.
  apply map_eq. intros id'. rewrite view_lookup. cbn. destruct (decide (id' = id)) as [-> |Hne]; [by rewrite !lookup_insert_eq|].
  rewrite !lookup_insert_ne by done. by rewrite view_lookup.
Qed.

Lemma view_insert_same S w id c b : view S (updated id c b w) = <[id := slot_of_state w (default [] (S !! id)) c]> (view S w).
Proof.
  apply map_eq. intros id'. rewrite view_lookup. cbn. destruct (decide (id' = id)) as [-> |Hne]; [by rewrite !lookup_insert_eq|].
  rewrite !lookup_insert_ne by done. by rewrite view_lookup.
Qed.

(** An update of a request that is not in the batch. *)
Lemma cached_absent S w id c c' : stage S w -> w_requests w !! id = Some c -> req_id_to_index (input_batch w) !! id = None ->
  state_ok w id c' -> rs_output_token_ids c' = rs_output_token_ids c -> stage S (updated id c' (input_batch w) w).
Proof.
  intros HS Hc Hi Hok Href. destruct (stage_states S w id c c' (input_batch w) Hc Hok Href HS) as [G1 G2]. destruct HS as [[HB HH Hm HP] Hst Hrefs].
  split; [|exact G1|exact G2]. rewrite view_insert_same. cbn.
  assert (Hne : forall id', is_Some (req_id_to_index (input_batch w) !! id') -> id' ≠ id) by (intros id' [i E] ->; congruence).
  split; cbn; try done.
  - eapply batch_inv_ext; [|exact HB]. intros id' H. rewrite lookup_insert_ne; [done|]. intros <-. by apply (Hne id).
  - intros Hpool. destruct (HP Hpool) as [P1 P2]. split; (eapply in_step_ext; [|done]); intros i id' E; rewrite lookup_insert_ne; try done;
      intros <-; apply (Hne id); [|done| |done]; apply (ci_index _ _ _ (bi_core _ _ _ HB)) in E; eauto.
Qed.

(** An update of a request of the batch. *)
Lemma cached_present out S w id ri c n nb : is_last_rank cfg = true -> stage S w -> w_requests w !! id = Some c -> req_id_to_index (input_batch w) !! id = Some ri ->
  S !! id = None -> entry_ok (input_batch w) (outs_at w (rs_output_token_ids c)) c (spec_of out id) nb false ->
  exists rs ts, np_alter ri (update_row cfg n [] (spec_of out id)) (rows (input_batch w)) = Ok rs /\
    (match nb with Some ids => multi_append_row ids ri (block_table (input_batch w)) | None => Ok (block_table (input_batch w)) end) = Ok ts /\
    Forall2 same_shape (block_table (input_batch w)) ts /\
    stage (<[id := spec_of out id]> S) (updated id (cached_after n nb false c) (set_rows rs ts (input_batch w)) w).
Proof.
  intros Hl HS Hc Hi HSid [_ H2 H3 H4]. set (c' := cached_after n nb false c).
  destruct (cached_params n nb false c) as (E1 & E2 & E3 & E4 & E5 & E6 & E7 & E8 & E9). fold c' in E1, E2, E3, E4, E5, E6, E7, E8, E9.
  pose proof (sg_states _ _ HS _ _ Hc) as Hok. pose proof (cached_state_ok w w id n nb false c eq_refl Hok) as Hok'. fold c' in Hok'.
  destruct (sg_mid _ _ HS) as [HB HH Hm HP]. pose proof (bi_core _ _ _ HB) as HC. pose proof (proj1 (ci_index _ _ _ HC _ _) Hi) as Eo.
  assert (HV : view S w !! id = Some (slot_of_state w [] c)) by (rewrite view_lookup, Hc, HSid; done).
  destruct (ci_slot _ _ _ HC _ _ Eo) as (s & HV' & [A1 A2 (r & Er & Ar) A4 A5]). rewrite HV in HV'. injection HV' as <-.
  pose proof (proj1 (Forall_lookup _ _) (ci_width _ _ _ HC) _ _ Er) as Hw. cbn in Hw.
  destruct (update_row_ok c (outs_at w (rs_output_token_ids c)) (spec_of out id) n c' r Hl Ar Hw H4 E2 E3 E7 E8) as (r' & Er' & Ar' & Hw').
  assert (Hts : exists ts, (match nb with Some ids => multi_append_row ids ri (block_table (input_batch w)) | None => Ok (block_table (input_batch w)) end) = Ok ts /\
    Forall (table_ok (max_num_reqs bcfg)) ts /\ Forall2 same_shape (block_table (input_batch w)) ts /\ rows_are ts ri (rs_block_ids c') /\
    tables_kept ri (block_table (input_batch w)) ts).
  { destruct nb as [ids|].
    - apply (multi_append_row_spec _ _ _ (rs_block_ids c)); [apply HC|exact A4|by apply H2|]. by apply rows_fit_shapes.
    - exists (block_table (input_batch w)). split_and!; [done|apply HC| |exact A4|apply tables_kept_refl]. by apply Forall_Forall2_diag, Forall_true. }
  destruct Hts as (ts & Ets & T1 & T2 & T3 & T4).
  exists (<[ri := r']> (rows (input_batch w))), ts. split_and!; [by eapply np_alter_ok|done|done|].
  destruct (stage_states S w id c c' (set_rows (<[ri := r']> (rows (input_batch w))) ts (input_batch w)) Hc Hok' E6 HS) as [G1 G2].
  split; [|exact G1|exact G2]. rewrite view_insert.
  replace (slot_of_state w (spec_of out id) c') with (mkSlot c' (outs_at w (rs_output_token_ids c)) (spec_of out id)) by (unfold slot_of_state; by rewrite E6).
  clearbody c'. split; cbn; try done.
  - eapply batch_update; try done; cbn; try done; [|by rewrite E1; apply Hok]. unfold slot_params. cbn. by rewrite E3, E4, E5, E7.
  - destruct HH. by split.
  - intros Hpool. destruct (HP Hpool) as [P1 P2]. split; (eapply step_update; [done|done| |done|done]); intros o; unfold bias_right, min_right; cbn; by rewrite E3, ?E2, E6.
Qed.

Definition absent (w : Runner) (id : string) : Prop := req_id_to_index (input_batch w) !! id = None.

(** What the updates of cached requests leave alone. *)
Record same_rest (w w' : Runner) : Prop := {
  sr_outs : out_lists w' = out_lists w;
  sr_encoder : encoder_cache w' = encoder_cache w;
  sr_bias : bias_proc w' = bias_proc w;
  sr_min : min_proc w' = min_proc w;
  sr_index : req_id_to_index (input_batch w') = req_id_to_index (input_batch w);
  sr_shapes : shapes (input_batch w') = shapes (input_batch w)
}.

Lemma same_rest_trans w1 w2 w3 : same_rest w1 w2 -> same_rest w2 w3 -> same_rest w1 w3.
Proof. intros [] []. split; congruence. Qed.

Definition entry_fits (out : SchedulerOutput) (w : Runner) (i : nat) (id : string) : Prop :=
  exists c n nb r, w_requests w !! id = Some c /\ entry (so_cached_reqs out) i = Some (n, nb, r) /\
    entry_ok (input_batch w) (outs_at w (rs_output_token_ids c)) c (spec_of out id) nb r.

Lemma entry_fits_same out w w' i id : same_rest w w' -> w_requests w' !! id = w_requests w !! id -> entry_fits out w i id -> entry_fits out w' i id.
Proof.
  intros [E1 _ _ _ E2 E3] E (c & n & nb & r & Hc & He & [H1 H2 H3 H4]). exists c, n, nb, r. rewrite E. split_and!; [done..|].
  split; rewrite ?E2, ?E3; try done. unfold outs_at in *. by rewrite E1.
Qed.

Lemma cached_step out S w to_add i id c n nb r : is_last_rank cfg = true -> stage S w -> S !! id = None -> w_requests w !! id = Some c ->
  entry (so_cached_reqs out) i = Some (n, nb, r) -> entry_ok (input_batch w) (outs_at w (rs_output_token_ids c)) c (spec_of out id) nb r ->
  exists S' w', update_cached cfg out (w, to_add) (i, id) = Ok (w', if decide (absent w id) then to_add ++ [id] else to_add) /\
    stage S' w' /\ same_rest w w' /\ w_requests w' = <[id := cached_after n nb r c]> (w_requests w) /\
    S' = if decide (absent w id) then S else <[id := spec_of out id]> S.
Proof.
  intros Hl HS HSid Hc He Hok. pose proof (sg_states _ _ HS _ _ Hc) as Hst. pose proof (proj1 Hst) as Hid.
  rewrite (update_cached_eq out w to_add i id c n nb r Hl Hc He Hid Hok). unfold absent. destruct (req_id_to_index (input_batch w) !! id) as [ri|] eqn:Ei.
  - assert (r = false) as -> by (destruct r; [|done]; destruct (eo_resumed _ _ _ _ _ _ Hok eq_refl) as [_ Hn]; congruence).
    destruct (cached_present out S w id ri c n nb Hl HS Hc Ei HSid Hok) as (rs & ts & E1 & E2 & Hsh & HS'). rewrite E1. cbn [mbind result_bind]. rewrite E2.
    cbn [mbind result_bind]. rewrite decide_False by done. eexists _, _. split; [done|]. split; [exact HS'|]. split_and!; try done. split; try done.
    by apply same_shapes.
  - rewrite decide_True by done. eexists _, _. split; [done|]. split; [|by split_and!].
    apply (cached_absent S w id c); try done; [by apply (cached_state_ok w)|]. by destruct (cached_params n nb r c) as (_ & _ & _ & _ & _ & ? & _).
Qed.

Lemma cached_all out : is_last_rank cfg = true -> forall ixs S w to_add, stage S w -> NoDup ixs.*2 -> (forall id, id ∈ ixs.*2 -> S !! id = None) ->
  (forall i id, (i, id) ∈ ixs -> entry_fits out w i id) ->
  exists S' w', foldM (update_cached cfg out) (w, to_add) ixs = Ok (w', to_add ++ filter (absent w) ixs.*2) /\ stage S' w' /\ same_rest w w' /\
    (forall i id c n nb r, (i, id) ∈ ixs -> w_requests w !! id = Some c -> entry (so_cached_reqs out) i = Some (n, nb, r) ->
      w_requests w' !! id = Some (cached_after n nb r c)) /\
    (forall id, id ∉ ixs.*2 -> w_requests w' !! id = w_requests w !! id) /\
    (forall id, S' !! id = if decide (id ∈ ixs.*2 /\ ~ absent w id) then Some (spec_of out id) else S !! id).
Proof.
  intros Hl. induction ixs as [|[i id] ixs IH]; intros S w to_add HS Hnd Hno Hfit.
  { exists S, w. cbn. rewrite app_nil_r. split_and!; try done; by intros ?????? ?%elem_of_nil. }
  cbn in Hnd. apply NoDup_cons in Hnd as [Hni Hnd].
  assert (Hin2 : forall i' id', (i', id') ∈ ixs -> id' ∈ ixs.*2) by (intros i' id' Hin; apply list_elem_of_fmap; by exists (i', id')).
  destruct (Hfit i id) as (c & n & nb & r & Hc & He & Hok); [by left|]. assert (HSid : S !! id = None) by (apply Hno; by left).
  destruct (cached_step out S w to_add i id c n nb r Hl HS HSid Hc He Hok) as (S1 & w1 & E1 & HS1 & R1 & Q1 & ES1).
  cbn [foldM]. rewrite E1. cbn [mbind result_bind].
  assert (Hothers : forall id', id' ≠ id -> w_requests w1 !! id' = w_requests w !! id') by (intros id' Hne; by rewrite Q1, lookup_insert_ne).
  assert (Habs : forall id', absent w1 id' <-> absent w id') by (intros id'; unfold absent; by rewrite (sr_index _ _ R1)).
  assert (HS1o : forall id', id' ≠ id -> S1 !! id' = S !! id').
  { intros id' Hne. rewrite ES1. destruct (decide (absent w id)); [done|]. by rewrite lookup_insert_ne. }
  destruct (IH S1 w1 (if decide (absent w id) then to_add ++ [id] else to_add) HS1 Hnd) as (S' & w' & E2 & HS' & R2 & Q2 & Q3 & ES').
  { intros id' Hin. rewrite HS1o by (intros ->; done). apply Hno. by right. }
  { intros i' id' Hin. assert (id' ≠ id) by (intros ->; apply Hni; by apply (Hin2 i')).
    apply (entry_fits_same out w); [done|by apply Hothers|]. apply Hfit. by right. }
  exists S', w'. split_and!; try done.
  - rewrite E2. f_equal. f_equal. rewrite fmap_cons, filter_cons. cbn [snd]. rewrite (list_filter_iff _ _ (ixs.*2) Habs).
    destruct (decide (absent w id)); [by rewrite <-app_assoc|done].
  - by eapply same_rest_trans.
  - intros i' id' c' n' nb' r' Hin Hc' He'. apply elem_of_cons in Hin as [[= -> ->]|Hin].
    + rewrite Q3 by done. rewrite Q1, lookup_insert_eq. congruence.
    + assert (id' ≠ id) by (intros ->; apply Hni; by apply (Hin2 i')). apply (Q2 i' id' c' n' nb' r' Hin); [|done]. by rewrite Hothers.
  - intros id' Hn. cbn in Hn. apply not_elem_of_cons in Hn as [Hne Hn]. by rewrite Q3, Hothers.
  - intros id'. rewrite ES'. cbn. destruct (decide (id' = id)) as [-> |Hne].
    + rewrite decide_False by (by intros [? _]). rewrite ES1. destruct (decide (absent w id)) as [Ha|Ha].
      * rewrite decide_False by (by intros [_ ?]). done.
      * rewrite decide_True by (split; [by left|done]). by rewrite lookup_insert_eq.
    + rewrite HS1o by done. apply decide_ext. rewrite Habs, elem_of_cons. naive_solver.
Qed.

(** ** Requests that enter the batch *)

(** A request that can be placed into a row. *)
Definition placeable (S : gmap string (list Z)) (w : Runner) (id : string) : Prop :=
  exists c, w_requests w !! id = Some c /\ S !! id = None /\ fits (shapes (input_batch w)) (rs_block_ids c) /\
    (length (rs_prompt_token_ids c) + length (outs_at w (rs_output_token_ids c)) <= batch_max_model_len bcfg)%nat.

Lemma state_sampling w id c : is_pooling_model bcfg = false -> state_ok w id c -> exists sp, rs_sampling_params c = Some sp.
Proof. intros Hp (_ & _ & Hk & _). unfold right_kind in Hk. rewrite Hp in Hk. destruct Hk as [sp E]. eauto. Qed.

Lemma add_step S w id : stage S w -> absent w id -> placeable S w id -> (num_reqs (input_batch w) < max_num_reqs bcfg)%nat ->
  exists i b', add_to_batch cfg w id = Ok (set_batch b' w) /\ stage S (set_batch b' w) /\ shapes b' = shapes (input_batch w) /\
    req_id_to_index b' = <[id := i]> (req_id_to_index (input_batch w)).
Proof.
  intros HS Ha (c & Hc & HSid & Hf & Hlen) Hn. pose proof (sg_states _ _ HS _ _ Hc) as Hok. destruct Hok as (Hid & _ & Hk & Hl & Hp & _).
  destruct HS as [[HB HH Hm HP] Hst Hrefs]. unfold absent in Ha. rewrite <-Hid in Ha.
  destruct (add_request_spec bcfg (view S w) (input_batch w) c (outs_at w (rs_output_token_ids c)) HB HH Hp Hl Ha Hk ltac:(by apply rows_fit_shapes) Hlen Hn)
    as (i & b' & E & HB' & HH' & Hsh & Hss & Hidx & Hfree & Hm' & Hrem & Hadd).
  exists i, b'. split; [unfold add_to_batch; rewrite Hc; cbn [get_or mbind result_bind]; by rewrite E|]. rewrite Hid in *.
  assert (HV : view S w !! id = Some (mkSlot c (outs_at w (rs_output_token_ids c)) [])) by (rewrite view_lookup, Hc, HSid; done).
  pose proof (insert_id (view S w) id _ HV) as HI. rewrite HI in HB'. split; [|split; [by apply same_shapes|done]].
  split; [|done|done]. rewrite Hm in Hm'. split; cbn; try done. intros Hpool.
  change (view S (set_batch b' w)) with (view S w). destruct (HP Hpool) as [P1 P2]. destruct (state_sampling w id c Hpool (Hst _ _ Hc)) as [sp Esp].
  rewrite Esp in Hadd. cbn in Hadd. assert (Hother : forall j id', req_ids_ (input_batch w) !! j = Some (Some id') -> id' ≠ id).
  { intros j id' Ej ->. apply (ci_index _ _ _ (bi_core _ _ _ HB)) in Ej. congruence. }
  rewrite <-HI. split; (eapply (step_add _ _ _ _ _ _ i id _ sp); [done|done|done|exact Hadd|done|done|done|apply (rk_nodup _ (hi_ok _ HH'))|]); cbn.
  - unfold bias_right. cbn. by rewrite Esp.
  - unfold min_right. cbn. rewrite Esp. unfold min_state. destruct (_ =? 0) eqn:E0; cbn; [lia|]. destruct (_ <=? _) eqn:E1; [lia|done].
Qed.

Lemma add_all S ids : forall w, stage S w -> NoDup ids -> (forall id, id ∈ ids -> absent w id /\ placeable S w id) ->
  (num_reqs (input_batch w) + length ids <= max_num_reqs bcfg)%nat ->
  exists b', foldM (add_to_batch cfg) w ids = Ok (set_batch b' w) /\ stage S (set_batch b' w) /\ shapes b' = shapes (input_batch w) /\
    (forall id, is_Some (req_id_to_index b' !! id) <-> is_Some (req_id_to_index (input_batch w) !! id) \/ id ∈ ids).
Proof.
  induction ids as [|id ids IH]; intros w HS Hnd Hall Hn.
  { exists (input_batch w). cbn. assert (E : set_batch (input_batch w) w = w) by (by destruct w). rewrite E. split_and!; try done.
    intros id. rewrite elem_of_nil. naive_solver. }
  apply NoDup_cons in Hnd as [Hni Hnd]. cbn [length] in Hn. destruct (Hall id) as [Ha Hp]; [by left|].
  destruct (add_step S w id HS Ha Hp ltac:(lia)) as (i & b1 & E1 & HS1 & Hw1 & Hidx1). cbn [foldM]. rewrite E1. cbn [mbind result_bind].
  destruct (IH (set_batch b1 w) HS1 Hnd) as (b' & E' & HS' & Hw' & Hidx').
  { intros id' Hin. assert (id' ≠ id) by (by intros ->). destruct (Hall id') as [Ha' (c & H1 & H2 & H3 & H4)]; [by right|]. split.
    - unfold absent. cbn. by rewrite Hidx1, lookup_insert_ne.
    - exists c. cbn. by rewrite Hw1. }
  { cbn. unfold num_reqs in *. rewrite Hidx1, map_size_insert_None by done. lia. }
  exists b'. split_and!; try done; [by rewrite Hw'|]. intros id'. rewrite Hidx'. cbn. rewrite Hidx1, elem_of_cons.
  destruct (decide (id' = id)) as [-> |Hne]; [rewrite lookup_insert_eq; naive_solver|]. rewrite lookup_insert_ne by done. naive_solver.
Qed.

(** ** Closing gaps and reordering *)

(** The rows are the first ones; requests may have moved. *)
Record late (V : gmap string Slot) (outs : nat -> list Z) (p : LogitBias) (q : MinTokens) (b : InputBatch) : Prop := {
  lt_batch : batch_inv bcfg V b;
  lt_dense : dense b;
  lt_procs : is_pooling_model bcfg = false ->
    in_step bias_state bias_right (biases p) V b /\ in_step (min_state outs) (min_right outs) (min_toks q) V b
}.

Lemma in_step_same {T} (ns : SamplingParams -> list Z -> nat -> option T) R d V b b' : batch_update_builder b' = batch_update_builder b ->
  (forall j id, req_ids_ b' !! j = Some (Some id) <-> req_ids_ b !! j = Some (Some id)) -> in_step ns R d V b -> in_step ns R d V b'.
Proof.
  intros E Hids [H1 H2 H3 H4 H5]. split; rewrite E; try done.
  - intros i id s Ei. apply H1. by apply Hids.
  - intros i Hno. apply H2. intros id Ei. by apply (Hno id), Hids.
  - intros i id Hin Ei. apply (H4 i id Hin). by apply Hids.
Qed.

Lemma condense_late V outs p q b : mid V outs p q b -> exists b', condense bcfg b = Ok b' /\ late V outs p q b' /\ shapes b' = shapes b /\
  length (req_ids_ b') = num_reqs b' /\ (forall id, is_Some (req_id_to_index b' !! id) <-> is_Some (req_id_to_index b !! id)).
Proof.
  intros [HB HH Hm HP]. destruct (condense_spec bcfg V b HB HH) as (b' & b1 & E & HB' & Hd & Hlen & Hidx & Hsh & Hmv & Hbu & Hids).
  exists b'. split_and!; try done; [|by apply same_shapes]. split; try done. intros Hpool. destruct (HP Hpool) as [P1 P2].
  split; (eapply (in_step_same _ _ _ _ b1); [done|done|by eapply step_moves]).
Qed.

Lemma dense_lookup b i : dense b -> (i < length (req_ids_ b))%nat -> exists id, req_ids_ b !! i = Some (Some id).
Proof.
  intros Hd Hi. destruct (lookup_lt_is_Some_2 _ _ Hi) as [[id|] E]; [eauto|]. by apply (proj1 (Forall_lookup _ _) Hd) in E.
Qed.

Lemma swap_late V outs p q b i j : late V outs p q b -> i ≠ j -> (i < length (req_ids_ b))%nat -> (j < length (req_ids_ b))%nat ->
  exists b' x y, req_ids_ b !! i = Some x /\ req_ids_ b !! j = Some y /\ swap_states bcfg i j b = Ok b' /\ late V outs p q b' /\
    req_ids_ b' = <[j := x]> (<[i := y]> (req_ids_ b)) /\ shapes b' = shapes b /\
    (forall id, is_Some (req_id_to_index b' !! id) <-> is_Some (req_id_to_index b !! id)).
Proof.
  intros [HB Hd HP] Hne Hi Hj. destruct (dense_lookup b i Hd Hi) as [id1 E1]. destruct (dense_lookup b j Hd Hj) as [id2 E2].
  destruct (swap_states_spec bcfg V b i j id1 id2 HB Hne E1 E2) as (b' & E & HB' & Hids & Hidx & Hsh & Hrem & Hmv & Hadd).
  exists b', (Some id1), (Some id2). split_and!; try done; [| by apply same_shapes|].
  - split; try done.
    + unfold dense. rewrite Hids. apply Forall_insert; [|done]. by apply Forall_insert.
    + intros Hpool. destruct (HP Hpool). split; by eapply step_swap.
  - intros id. rewrite Hidx. pose proof (ci_index _ _ _ (bi_core _ _ _ HB)) as Hix.
    destruct (decide (id = id2)) as [-> |N2]; [rewrite lookup_insert_eq, (proj2 (Hix id2 j) E2); split; eauto|rewrite lookup_insert_ne by done].
    destruct (decide (id = id1)) as [-> |N1]; [rewrite lookup_insert_eq, (proj2 (Hix id1 i) E1); split; eauto|by rewrite lookup_insert_ne].
Qed.

Lemma swap_loop_late V outs p q nd pairs : forall b, late V outs p q b ->
  Forall (fun dp => dp.1 ≠ dp.2 /\ (dp.1 < length (req_ids_ b))%nat /\ (dp.2 < length (req_ids_ b))%nat) pairs ->
  exists b', swap_loop cfg nd pairs b = Ok b' /\ late V outs p q b' /\ req_ids_ b' = swap_ids nd pairs (req_ids_ b) /\ shapes b' = shapes b /\
    (forall id, is_Some (req_id_to_index b' !! id) <-> is_Some (req_id_to_index b !! id)).
Proof.
  induction pairs as [|[d pf] pairs IH]; intros b HL Hp; [by exists b|]. apply Forall_cons in Hp as [(Hne & H1 & H2) Hp]. cbn in Hne, H1, H2. cbn [swap_loop swap_ids].
  destruct (d <? nd)%nat; [exists b; by split_and!|]. destruct (swap_late V outs p q b pf d HL ltac:(done) H2 H1) as (b1 & x & y & Ex & Ey & E & HL1 & Hids & Hw & Hidx).
  rewrite E. cbn [mbind result_bind]. rewrite Ex, Ey. destruct (IH b1 HL1) as (b' & E' & HL' & Hids' & Hw' & Hidx').
  { rewrite Hids, !length_insert. done. }
  exists b'. split_and!; try done; [by rewrite Hids', Hids|by rewrite Hw'|]. intros id. by rewrite Hidx', Hidx.
Qed.

(** The requests with at most [t] scheduled tokens are in the first rows. *)
Definition decodes_first (t : Z) (sched : list (string * Z)) (ids : list (option string)) : Prop :=
  exists nd, forall k id n, ids !! k = Some (Some id) -> dget id sched = Some n -> n <= t <-> (k < nd)%nat.

Definition threshold_ok : Prop := forall t, reorder_batch_threshold cfg = Some t -> runner_dcp_world_size cfg <= 1 \/ t = 1.

Lemma zip_where_distinct {A} (f : A -> bool) (l : list A) d p :
  (d, p) ∈ zip (reverse (rows_where f 0 l)) (rows_where (fun x => negb (f x)) 0 l) -> d ≠ p /\ (d < length l)%nat /\ (p < length l)%nat.
Proof.
  intros Hz. apply elem_of_zip_l in Hz as Hd. apply elem_of_zip_r in Hz. rewrite elem_of_reverse in Hd.
  apply rows_where_elem in Hd as (j & x & -> & Ex & Hx), Hz as (j' & y & -> & Ey & Hy). cbn. split; [|by split; eapply lookup_lt_Some].
  intros ->. rewrite Ex in Ey. injection Ey as ->. by rewrite Hx in Hy.
Qed.

Lemma reorder_late V outs p q t sched b : late V outs p q b -> (forall id, is_Some (req_id_to_index b !! id) -> is_Some (dget id sched)) ->
  exists b', reorder_batch cfg t sched b = Ok b' /\ late V outs p q b' /\ shapes b' = shapes b /\
    (forall id, is_Some (req_id_to_index b' !! id) <-> is_Some (req_id_to_index b !! id)) /\ decodes_first t sched (req_ids_ b').
Proof.
  intros HL Hs. pose proof (ci_index _ _ _ (bi_core _ _ _ (lt_batch _ _ _ _ _ HL))) as Hix.
  unfold reorder_batch. rewrite split_batch_spec.
  2: { apply Forall_lookup. intros k o E. destruct (dense_lookup b k (lt_dense _ _ _ _ _ HL) ltac:(by eapply lookup_lt_Some)) as [id Ek].
       rewrite E in Ek. injection Ek as ->. apply Hix in E. destruct (Hs id) as [n En]; eauto. }
  cbn [mbind result_bind]. destruct (swap_loop_late V outs p q (length (rows_where (is_decode t sched) 0 (req_ids_ b)))
    (zip (reverse (rows_where (is_decode t sched) 0 (req_ids_ b))) (rows_where (fun o => negb (is_decode t sched o)) 0 (req_ids_ b))) b HL) as (b' & E & HL' & Hids & Hw & Hidx).
  { apply Forall_forall. intros [d pf] Hz. by apply (zip_where_distinct (is_decode t sched)). }
  exists b'. split_and!; try done. exists (length (rows_where (is_decode t sched) 0 (req_ids_ b))). intros k id n Ek En. rewrite Hids in Ek.
  destruct (swap_ids_split (is_decode t sched) (req_ids_ b)) as [_ H]. rewrite <-(H k (Some id) Ek). unfold is_decode. cbn. rewrite En. lia.
Qed.

Lemma may_reorder_late V outs p q out b : late V outs p q b -> threshold_ok ->
  (forall id, is_Some (req_id_to_index b !! id) -> is_Some (dget id (so_num_scheduled_tokens out))) ->
  exists b', may_reorder_batch cfg out b = Ok b' /\ late V outs p q b' /\ shapes b' = shapes b /\
    (forall id, is_Some (req_id_to_index b' !! id) <-> is_Some (req_id_to_index b !! id)) /\
    (forall t, num_kv_cache_groups cfg ≠ 0%nat -> reorder_batch_threshold cfg = Some t -> decodes_first t (so_num_scheduled_tokens out) (req_ids_ b')).
Proof.
  intros HL Ht Hs. unfold may_reorder_batch. destruct (num_kv_cache_groups cfg =? 0)%nat eqn:Eg; [apply Nat.eqb_eq in Eg; by exists b|].
  destruct (reorder_batch_threshold cfg) as [t|] eqn:Et; [|by exists b].
  assert (E0 : raise_if ((1 <? runner_dcp_world_size cfg) && negb (t =? 1)) AssertionError = Ok ()).
  { destruct (Ht t Et); [destruct (1 <? _) eqn:E1; [lia|done]|subst t; by rewrite andb_false_r]. }
  rewrite E0. cbn [mbind result_bind]. destruct (reorder_late V outs p q t _ b HL Hs) as (b' & E & HL' & Hw & Hidx & Hd).
  exists b'. split_and!; try done. by intros t' _ [= <-].
Qed.

(** ** The end of the step *)

Lemma min_exact_right outs s o : min_exact outs s o -> min_right outs s o.
Proof.
  unfold min_exact, min_right. intros ->. destruct (rs_sampling_params (sl_state s)) as [sp|]; [|done]. cbn. unfold min_state.
  destruct (_ =? 0) eqn:E0; cbn; [lia|]. destruct (_ <=? _) eqn:E1; [lia|done].
Qed.

Lemma builder_reset_init n u : (get_and_reset n u).2 = builder_init.
Proof. unfold get_and_reset. by destruct (removed_ u), (moved u), (added u). Qed.

(** The dictionary of minimum tokens has exactly the requests that still need
    tokens. *)
Definition min_tokens_exact (S : gmap string (list Z)) (w : Runner) : Prop :=
  is_pooling_model bcfg = false -> min_inv (outs_at w) (view S w) (input_batch w) (min_proc w).

Lemma refresh_ok S w : late (view S w) (outs_at w) (bias_proc w) (min_proc w) (input_batch w) ->
  (forall id c, w_requests w !! id = Some c -> state_ok w id c) ->
  (forall id id' c c', w_requests w !! id = Some c -> w_requests w !! id' = Some c' -> rs_output_token_ids c = rs_output_token_ids c' -> id = id') ->
  (is_pooling_model bcfg = false -> bias_tensors (bias_proc w) = biases (bias_proc w) /\ all_truthy nonempty (biases (bias_proc w)) /\
    min_tensors (min_proc w) = min_toks (min_proc w)) ->
  runner_ok S (refresh cfg w) /\ min_tokens_exact S (refresh cfg w) /\ w_requests (refresh cfg w) = w_requests w /\
  out_lists (refresh cfg w) = out_lists w /\ encoder_cache (refresh cfg w) = encoder_cache w /\
  input_batch (refresh cfg w) = set_builder builder_init (input_batch w).
Proof.
  intros [HB Hd HP] Hst Hrefs Hpr. unfold refresh, refresh_metadata. destruct (is_pooling_model bcfg) eqn:Hpool.
  { cbn. split_and!; try done; [|unfold min_tokens_exact; congruence]. split; cbn; try done; [by apply batch_inv_builder|congruence]. }
  destruct (get_and_reset (num_reqs (input_batch w)) (batch_update_builder (input_batch w))) as [u bd] eqn:Eu. cbn.
  assert (bd = builder_init) as -> by (rewrite <-(builder_reset_init (num_reqs (input_batch w)) (batch_update_builder (input_batch w))); by rewrite Eu).
  destruct (HP eq_refl) as [P1 P2]. destruct (Hpr eq_refl) as (T1 & T2 & T3).
  pose proof (bias_update_spec (view S w) (input_batch w) (bias_proc w) (num_reqs (input_batch w)) P1 T1 T2) as HBi.
  assert (Hmin0 : forall i id s, req_ids_ (input_batch w) !! i = Some (Some id) -> view S w !! id = Some s ->
    forall sp, rs_sampling_params (sl_state s) = Some sp -> 0 <= sp_min_tokens (sampler sp)).
  { intros i id s _ Hs sp Esp. rewrite view_lookup in Hs. destruct (w_requests w !! id) as [c|] eqn:Ec; [|done]. cbn in Hs. injection Hs as <-.
    by apply (Hst id c Ec). }
  pose proof (min_update_spec (outs_at w) (view S w) (input_batch w) (min_proc w) (num_reqs (input_batch w)) Hmin0 P2 T3) as HMi.
  rewrite Eu in HBi, HMi. cbn in HBi, HMi. split_and!; try done.
  - split; cbn; try done; [by apply batch_inv_builder|]. intros _. destruct HBi as [[B1 B2] B3 B4], HMi as [[M1 M2] M3].
    split; [by split|split; [|done]|done]. intros i id s Ei Es. apply min_exact_right. by apply (M1 i id s).
  - intros _. destruct HMi as [M1 M2]. by split.
Qed.
End RunnerInv.
