(* ===== verification/RunnerStep.v ===== *)
(** The whole of [_update_states]: the removals, new requests, updates, additions,
    gap closing, reordering and the replay to the logits processors, put
    together from the lemmas of RunnerInv. *)
From Stdlib Require Import ZArith Lia String QArith Qcanon.
From stdpp Require Import numbers gmap strings list.
From S2P Require Import Prelude Request BlockTable InputBatch BatchInv LogitsProcs SchedState ModelRunner Reorder RunnerInv.

Open Scope Z_scope.

Section RunnerStep.
Context `{HSO : !SetOrder} (cfg : RunnerConfig) (pooling_of : NewRequestData -> PoolingParams).
Notation bcfg := (batch_config cfg).

(** ** Removals *)

Lemma runner_mid S w : runner_ok cfg S w -> mid cfg (view S w) (outs_at w) (bias_proc w) (min_proc w) (input_batch w) /\ unsorted (input_batch w).
Proof.
  intros [HB Hd (B1 & B2 & B3 & B4) _ _ HP]. split; [|done]. split; try done.
  - split; [|split; rewrite B1; [constructor|rewrite B4; done]]. intros i. rewrite B1, elem_of_nil. split; [done|]. intros E.
    by apply (proj1 (Forall_lookup _ _) Hd) in E.
  - intros Hp. destruct (HP Hp) as [[K1 _ _] K2 _]. split; by apply sync_start.
Qed.

Lemma foldl_delete_lookup (ids : list string) : forall (m : gmap string CachedRequestState) id,
  foldl (fun m id => delete id m) m ids !! id = if decide (id ∈ ids) then None else m !! id.
Proof.
  induction ids as [|x ids IH]; intros m id; cbn; [done|]. rewrite IH. destruct (decide (id ∈ ids)) as [Hin|Hin].
  { by rewrite decide_True by (by right). }
  destruct (decide (id = x)) as [-> |Hne]; [rewrite lookup_delete_eq, decide_True by (by left); done|].
  rewrite lookup_delete_ne by done. rewrite decide_False; [done|]. rewrite elem_of_cons. naive_solver.
Qed.

Lemma set_order_elem X id : id ∈ set_order X <-> id ∈ X.
Proof. rewrite set_order_perm. apply elem_of_elements. Qed.

(** The view of a runner that forgot requests which are not in its batch. *)
Lemma stage_forget w w' : stage cfg ∅ w -> input_batch w' = input_batch w -> out_lists w' = out_lists w -> bias_proc w' = bias_proc w -> min_proc w' = min_proc w ->
  (forall id c, w_requests w' !! id = Some c -> w_requests w !! id = Some c) ->
  (forall id, is_Some (req_id_to_index (input_batch w) !! id) -> w_requests w' !! id = w_requests w !! id) -> stage cfg ∅ w'.
Proof.
  intros [[HB HH Hm HP] Hst Hrefs] Eb Eo E1 E2 Hsub Hkeep. assert (Ho : outs_at w' = outs_at w) by (unfold outs_at; by rewrite Eo).
  assert (HV : forall id, is_Some (req_id_to_index (input_batch w) !! id) -> view ∅ w' !! id = view ∅ w !! id).
  { intros id Hid. rewrite !view_lookup, (Hkeep id Hid). unfold slot_of_state. by rewrite Ho. }
  split.
  - rewrite Eb, Ho, E1, E2. split; try done; [by eapply batch_inv_ext|]. intros Hp. destruct (HP Hp). split; (eapply in_step_ext; [|done]);
      intros i id E; apply HV; apply (ci_index _ _ _ (bi_core _ _ _ HB)) in E; eauto.
  - intros id c Hc. specialize (Hst id c (Hsub _ _ Hc)). unfold state_ok in *. by rewrite Eo.
  - intros id id' c c' Hc Hc'. by apply (Hrefs id id'); apply Hsub.
Qed.

(** The stage with the old requests, in a batch without the removed ones. *)
Lemma stage_batch w b : runner_ok cfg ∅ w -> mid cfg (view ∅ w) (outs_at w) (bias_proc w) (min_proc w) b -> stage cfg ∅ (set_batch b w).
Proof. intros Hr HM. split; [exact HM|by apply Hr|by apply Hr]. Qed.

Definition scheduled_ids (out : SchedulerOutput) : gset string := list_to_set (so_num_scheduled_tokens out).*1.

(** The runner once the finished and the unscheduled requests left. *)
Definition after_removals (out : SchedulerOutput) (b : InputBatch) (w : Runner) : Runner :=
  set_batch b (set_encoder_cache (foldl (fun X h => X ∖ {[h]}) (encoder_cache w) (so_free_encoder_mm_hashes out))
    (set_requests (foldl (fun m id => delete id m) (w_requests w) (set_order (so_finished_req_ids out))) w)).

Lemma removals out w : runner_ok cfg ∅ w ->
  exists b1 b2, let w0 := set_requests (foldl (fun m id => delete id m) (w_requests w) (set_order (so_finished_req_ids out))) w in
    let w1 := set_encoder_cache (foldl (fun X h => X ∖ {[h]}) (encoder_cache w) (so_free_encoder_mm_hashes out)) (set_batch b1 w0) in
    foldM (remove_from_batch cfg) w0 (set_order (so_finished_req_ids out)) = Ok (set_batch b1 w0) /\
    foldM (remove_from_batch cfg) w1 (set_order (dom (req_id_to_index b1) ∖ scheduled_ids out)) = Ok (after_removals out b2 w) /\
    stage cfg ∅ (after_removals out b2 w) /\ shapes b2 = shapes (input_batch w) /\
    (forall id, req_id_to_index b2 !! id = if decide (id ∈ so_finished_req_ids out \/ id ∉ scheduled_ids out) then None else req_id_to_index (input_batch w) !! id).
Proof.
  intros Hr. destruct (runner_mid ∅ w Hr) as [HM Hu]. set (w0 := set_requests _ w).
  destruct (remove_all cfg (view ∅ w) (outs_at w) (bias_proc w) (min_proc w) (set_order (so_finished_req_ids out)) w0 HM Hu) as (b1 & E1 & HM1 & Hu1 & T1 & I1).
  set (w1 := set_encoder_cache (foldl (fun X h => X ∖ {[h]}) (encoder_cache w) (so_free_encoder_mm_hashes out)) (set_batch b1 w0)).
  destruct (remove_all cfg (view ∅ w) (outs_at w) (bias_proc w) (min_proc w) (set_order (dom (req_id_to_index b1) ∖ scheduled_ids out)) w1 HM1 Hu1)
    as (b2 & E2 & HM2 & Hu2 & T2 & I2).
  exists b1, b2. cbv zeta. fold w0. split; [exact E1|]. split; [exact E2|].
  assert (HI : forall id, req_id_to_index b2 !! id = if decide (id ∈ so_finished_req_ids out \/ id ∉ scheduled_ids out) then None else req_id_to_index (input_batch w) !! id).
  { intros id. rewrite I2. cbn [input_batch w1 set_encoder_cache set_batch]. rewrite I1. cbn [w0 input_batch set_requests].
    assert (Hd : id ∈ set_order (dom (req_id_to_index b1) ∖ scheduled_ids out) <-> is_Some (req_id_to_index b1 !! id) /\ id ∉ scheduled_ids out).
    { by rewrite set_order_elem, elem_of_difference, elem_of_dom. }
    rewrite I1 in Hd. cbn [w0 input_batch set_requests] in Hd.
    destruct (decide (id ∈ set_order (so_finished_req_ids out))) as [Hf|Hf]; rewrite set_order_elem in Hf.
    - rewrite (decide_True (P := _ \/ _)) by (by left). by destruct (decide _).
    - destruct (decide (id ∈ scheduled_ids out)) as [Hs|Hs].
      + rewrite (decide_False (P := _ \/ _)) by tauto. rewrite decide_False by tauto. done.
      + rewrite (decide_True (P := _ \/ _)) by tauto. destruct (req_id_to_index (input_batch w) !! id) eqn:E; [|by destruct (decide _)].
        rewrite decide_True; [done|]. rewrite Hd. split; [eauto|done]. }
  split; [|split; [unfold shapes; rewrite T2; cbn; by rewrite T1|exact HI]].
  apply (stage_forget (set_batch b2 w)); try done; [by apply stage_batch| |]; cbn; intros id; rewrite foldl_delete_lookup.
  - intros c. by destruct (decide _).
  - intros [i Hi]. rewrite HI in Hi. destruct (decide (_ \/ _)) as [|Hn] in Hi; [done|]. rewrite decide_False; [done|]. rewrite set_order_elem. tauto.
Qed.

(** ** New requests *)

(** What the scheduler promises of a new request: parameters of the model's
    kind, and blocks and tokens that fit into a row. *)
Record new_ok (ws : list (nat * nat * Z * Z * Z)) (nr : NewRequestData) : Prop := {
  no_kind : right_kind bcfg (new_state_of pooling_of 0 nr);
  no_pooling : is_pooling_model bcfg = true -> nr_pooling_params nr = true;
  no_lora : lora_wf (new_state_of pooling_of 0 nr);
  no_params : params_ok bcfg (new_state_of pooling_of 0 nr);
  no_min : forall sp, nr_sampling_params nr = Some sp -> 0 <= sp_min_tokens (sampler sp);
  no_fits : fits ws (nr_block_ids nr);
  no_tokens : (length (nr_prompt_token_ids nr) <= batch_max_model_len bcfg)%nat
}.

Lemma outs_more w n ref : default [] ((out_lists w ++ replicate n []) !! ref) = outs_at w ref.
Proof.
  unfold outs_at. destruct (decide (ref < length (out_lists w))%nat) as [H|H]; [by rewrite lookup_app_l|].
  rewrite lookup_app_r by lia. rewrite (lookup_ge_None_2 (out_lists w)) by lia. destruct (replicate n [] !! _) as [l|] eqn:E; [|done].
  by apply lookup_replicate in E as [-> _].
Qed.

Lemma in_step_outs d V b outs outs' : (forall r, outs' r = outs r) -> in_step (min_state outs) (min_right outs) d V b ->
  in_step (min_state outs') (min_right outs') d V b.
Proof.
  intros Ho [H1 H2 H3 H4 H5]. assert (E : forall l d, foldl (add_entry (min_state outs')) d l = foldl (add_entry (min_state outs)) d l).
  { induction l as [|a l IH]; intros d0; [done|]. cbn. rewrite IH. f_equal. unfold add_entry, min_state. by rewrite Ho. }
  split; try done; [|intros i; rewrite E; apply H2]. intros i id s Ei Es. rewrite E. specialize (H1 i id s Ei Es). unfold min_right in *.
  destruct (rs_sampling_params (sl_state s)); [|done]. by rewrite Ho.
Qed.

Lemma new_stage out w news reqs : stage cfg ∅ w -> so_new_reqs out = news -> NoDup (nr_req_id <$> news) ->
  (forall nr, nr ∈ news -> new_ok (shapes (input_batch w)) nr /\ absent w (nr_req_id nr)) ->
  (forall k nr, news !! k = Some nr -> reqs !! nr_req_id nr = Some (new_state_of pooling_of (length (out_lists w) + k) nr)) ->
  (forall id, id ∉ nr_req_id <$> news -> reqs !! id = w_requests w !! id) ->
  stage cfg ∅ (set_requests reqs (set_out_lists (out_lists w ++ replicate (length news) []) w)).
Proof.
  intros [[HB HH Hm HP] Hst Hrefs] _ Hnd Hnew Hq1 Hq2. set (w' := set_requests _ _).
  assert (Ho : forall r, outs_at w' r = outs_at w r) by (intros r; apply outs_more).
  assert (Hcase : forall id c, reqs !! id = Some c -> (id ∉ nr_req_id <$> news /\ w_requests w !! id = Some c) \/
    exists k nr, news !! k = Some nr /\ id = nr_req_id nr /\ c = new_state_of pooling_of (length (out_lists w) + k) nr).
  { intros id c Hc. destruct (decide (id ∈ nr_req_id <$> news)) as [Hin|Hin]; [right|left; split; [done|]; by rewrite <-Hq2].
    apply list_elem_of_fmap in Hin as (nr & -> & Hin). apply list_elem_of_lookup in Hin as [k Hk]. exists k, nr. rewrite (Hq1 k nr Hk) in Hc. by injection Hc as <-. }
  assert (HV : forall id, is_Some (req_id_to_index (input_batch w) !! id) -> view ∅ w' !! id = view ∅ w !! id).
  { intros id [i Hi]. rewrite !view_lookup. cbn. rewrite Hq2.
    - destruct (w_requests w !! id); [|done]. cbn. unfold slot_of_state. by rewrite Ho.
    - intros Hin. apply list_elem_of_fmap in Hin as (nr & -> & Hin). destruct (Hnew nr Hin) as [_ Ha]. unfold absent in Ha. congruence. }
  split.
  - split; try done; [by eapply batch_inv_ext|]. intros Hp. destruct (HP Hp) as [P1 P2].
    assert (HV' : forall i id, req_ids_ (input_batch w) !! i = Some (Some id) -> view ∅ w' !! id = view ∅ w !! id).
    { intros i id E. apply HV. apply (ci_index _ _ _ (bi_core _ _ _ HB)) in E. eauto. }
    split; [by eapply in_step_ext|]. eapply in_step_outs; [exact Ho|]. by eapply in_step_ext.
  - intros id c Hc. destruct (Hcase id c Hc) as [[_ Hc']|(k & nr & Hk & -> & ->)].
    + destruct (Hst id c Hc') as (A & B & C). split; [done|]. split; [cbn; rewrite length_app; lia|exact C].
    + destruct (Hnew nr) as [[K1 K2 K3 K4 K5 K6 K7] _]; [by eapply list_elem_of_lookup_2|]. pose proof (lookup_lt_Some _ _ _ Hk).
      split_and!; try done. cbn. rewrite length_app, length_replicate. lia.
  - intros id id' c c' Hc Hc' Heq. destruct (Hcase id c Hc) as [[_ D1]|(k & nr & Hk & -> & ->)], (Hcase id' c' Hc') as [[_ D2]|(k' & nr' & Hk' & -> & ->)].
    + by eapply Hrefs.
    + destruct (Hst _ _ D1) as (_ & ? & _). cbn in Heq. lia.
    + destruct (Hst _ _ D2) as (_ & ? & _). cbn in Heq. lia.
    + cbn in Heq. assert (k = k') as -> by lia. congruence.
Qed.

(** * The promise of the scheduler *)

Definition new_ids (out : SchedulerOutput) : list string := nr_req_id <$> so_new_reqs out.
Definition cached_ids (out : SchedulerOutput) : list string := cr_req_ids (so_cached_reqs out).

Record delta_ok (out : SchedulerOutput) (w : Runner) : Prop := {
  do_nodup : NoDup (new_ids out ++ cached_ids out);
  do_sched : forall id, id ∈ (so_num_scheduled_tokens out).*1 <-> id ∈ new_ids out ++ cached_ids out;
  do_room : (length (new_ids out ++ cached_ids out) <= max_num_reqs bcfg)%nat;
  do_new : forall nr, nr ∈ so_new_reqs out -> new_ok (shapes (input_batch w)) nr /\
    (nr_req_id nr ∈ so_finished_req_ids out \/ w_requests w !! nr_req_id nr = None);
  do_cached : forall i id, cached_ids out !! i = Some id -> id ∉ so_finished_req_ids out /\ entry_fits cfg out w i id
}.

(** What the runner knows after the step. *)
Record knows (out : SchedulerOutput) (w w' : Runner) : Prop := {
  kn_new : forall nr, nr ∈ so_new_reqs out -> exists ref, w_requests w' !! nr_req_id nr = Some (new_state_of pooling_of ref nr) /\ outs_at w' ref = [];
  kn_cached : forall i id c n nb r, cached_ids out !! i = Some id -> w_requests w !! id = Some c -> entry (so_cached_reqs out) i = Some (n, nb, r) ->
    w_requests w' !! id = Some (cached_after n nb r c);
  kn_finished : forall id, id ∈ so_finished_req_ids out -> id ∉ new_ids out -> w_requests w' !! id = None;
  kn_others : forall id, id ∉ so_finished_req_ids out -> id ∉ new_ids out ++ cached_ids out -> w_requests w' !! id = w_requests w !! id;
  kn_outs : forall ref, outs_at w' ref = outs_at w ref
}.

Lemma entry_fits_mono out w w' i id : w_requests w' !! id = w_requests w !! id -> (absent w id -> absent w' id) -> (forall r, outs_at w' r = outs_at w r) ->
  shapes (input_batch w') = shapes (input_batch w) -> (forall c, w_requests w !! id = Some c -> rs_req_id c = id) ->
  entry_fits cfg out w i id -> entry_fits cfg out w' i id.
Proof.
  intros Er Ha Ho Ew Hid (c & n & nb & r & Hc & He & [H1 H2 H3 H4]). exists c, n, nb, r. rewrite Er. split_and!; [done..|].
  specialize (Hid c Hc). split; rewrite ?Ew, ?Ho; try done. intros Hr. destruct (H1 Hr) as [? Hn]. split; [done|]. rewrite Hid in *. by apply Ha.
Qed.

(** The first half of the step: the requests are up to date, and [w'] has
    the batch without the requests that still have to be added. *)
Record prepared (out : SchedulerOutput) (w : Runner) (S : gmap string (list Z)) (w' : Runner) (to_add : list string) : Prop := {
  pr_stage : stage cfg S w';
  pr_spec : forall id, S !! id = if decide (id ∈ cached_ids out /\ ~ absent w id) then Some (spec_of out id) else None;
  pr_knows : knows out w w';
  pr_procs : bias_proc w' = bias_proc w /\ min_proc w' = min_proc w;
  pr_shapes : shapes (input_batch w') = shapes (input_batch w);
  pr_index : forall id, ~ absent w' id <-> id ∈ cached_ids out /\ ~ absent w id;
  pr_add : to_add = new_ids out ++ filter (absent w') (cached_ids out)
}.

Lemma imap_pair_snd {A} (l : list A) : (imap pair l).*2 = l.
Proof. rewrite fmap_imap. cbn. apply list_eq. intros i. rewrite list_lookup_imap. by destruct (l !! i). Qed.

(** The batch after the removals only has cached requests. *)
Lemma removed_index out w b : runner_ok cfg ∅ w -> delta_ok out w ->
  (forall id, req_id_to_index b !! id = if decide (id ∈ so_finished_req_ids out \/ id ∉ scheduled_ids out) then None else req_id_to_index (input_batch w) !! id) ->
  forall id, req_id_to_index b !! id ≠ None <-> id ∈ cached_ids out /\ ~ absent w id.
Proof.
  intros Hr [D1 D2 D3 D4 D5] HI id. rewrite HI. unfold absent.
  assert (Hs : id ∈ scheduled_ids out <-> id ∈ new_ids out \/ id ∈ cached_ids out) by (unfold scheduled_ids; by rewrite elem_of_list_to_set, D2, elem_of_app).
  assert (Hc : id ∈ cached_ids out -> id ∉ so_finished_req_ids out) by (intros Hin; apply list_elem_of_lookup in Hin as [i Hi]; by apply (D5 i)).
  destruct (decide _) as [Hd|Hd]; [split; [done|]; tauto|]. split; [|tauto]. intros Hne. split; [|done].
  destruct (decide (id ∈ cached_ids out)) as [|Hnc]; [done|]. exfalso.
  assert (Hin : id ∈ new_ids out) by (destruct (decide (id ∈ scheduled_ids out)); tauto).
  apply list_elem_of_fmap in Hin as (nr & -> & Hin). destruct (D4 nr Hin) as [_ [Hf|Hn]]; [tauto|].
  destruct (req_id_to_index (input_batch w) !! nr_req_id nr) as [i|] eqn:E; [|done].
  apply (ci_index _ _ _ (bi_core _ _ _ (rn_batch _ _ _ Hr))) in E.
  destruct (ci_slot _ _ _ (bi_core _ _ _ (rn_batch _ _ _ Hr)) _ _ E) as (s & Es & _). rewrite view_lookup, Hn in Es. done.
Qed.

(** The first two phases: requests leave and new ones become known. *)
Lemma known_stage out w b : runner_ok cfg ∅ w -> delta_ok out w -> stage cfg ∅ (after_removals out b w) -> shapes b = shapes (input_batch w) ->
  (forall id, req_id_to_index b !! id ≠ None <-> id ∈ cached_ids out /\ ~ absent w id) ->
  exists w', foldM (add_new cfg pooling_of) (after_removals out b w, []) (so_new_reqs out) = Ok (w', new_ids out) /\ stage cfg ∅ w' /\
    input_batch w' = b /\ (forall r, outs_at w' r = outs_at w r) /\ bias_proc w' = bias_proc w /\ min_proc w' = min_proc w /\
    (forall nr, nr ∈ so_new_reqs out -> exists ref, w_requests w' !! nr_req_id nr = Some (new_state_of pooling_of ref nr) /\ outs_at w ref = []) /\
    (forall id, id ∉ new_ids out -> w_requests w' !! id = if decide (id ∈ so_finished_req_ids out) then None else w_requests w !! id).
Proof.
  intros Hr [D1 D2 D3 D4 D5] HS Hw HI. apply NoDup_app in D1 as (Hnd & Hdisj & _).
  destruct (add_new_all cfg pooling_of (so_new_reqs out) (after_removals out b w) [] Hnd) as (reqs & E & Q1 & Q2).
  { intros Hp. apply Forall_forall. intros nr Hin. by apply (D4 nr Hin). }
  eexists. split; [exact E|]. split_and!; try done.
  - apply (new_stage out); try done. intros nr Hin. destruct (D4 nr Hin) as [Hok _]. split; [cbn; by rewrite Hw|]. unfold absent. cbn.
    destruct (req_id_to_index b !! nr_req_id nr) eqn:E1; [|done]. exfalso. apply (Hdisj (nr_req_id nr)); [by apply list_elem_of_fmap_2|].
    apply HI. by rewrite E1.
  - intros r. apply (outs_more w).
  - intros nr Hin. apply list_elem_of_lookup in Hin as [k Hk]. exists (length (out_lists w) + k)%nat. split; [exact (Q1 k nr Hk)|].
    unfold outs_at. by rewrite lookup_ge_None_2 by lia.
  - intros id Hn. cbn. rewrite Q2 by done. cbn. rewrite foldl_delete_lookup. apply decide_ext, set_order_elem.
Qed.

Lemma prepare out w : is_last_rank cfg = true -> runner_ok cfg ∅ w -> delta_ok out w ->
  exists S w' to_add b1 w1 w2 add1, let w0 := set_requests (foldl (fun m id => delete id m) (w_requests w) (set_order (so_finished_req_ids out))) w in
    foldM (remove_from_batch cfg) w0 (set_order (so_finished_req_ids out)) = Ok (set_batch b1 w0) /\
    foldM (remove_from_batch cfg) (set_encoder_cache (foldl (fun X h => X ∖ {[h]}) (encoder_cache w) (so_free_encoder_mm_hashes out)) (set_batch b1 w0))
      (set_order (dom (req_id_to_index b1) ∖ scheduled_ids out)) = Ok w1 /\
    foldM (add_new cfg pooling_of) (w1, []) (so_new_reqs out) = Ok (w2, add1) /\
    foldM (update_cached cfg out) (w2, add1) (imap pair (cached_ids out)) = Ok (w', to_add) /\ prepared out w S w' to_add.
Proof.
  intros Hl Hr HD. destruct (removals out w Hr) as (b1 & b2 & E1 & E2 & HS2 & Hw2 & HI). pose proof (removed_index out w b2 Hr HD HI) as HI'.
  destruct (known_stage out w b2 Hr HD HS2 Hw2 HI') as (w3 & E3 & HS3 & Eb & Ho & Ep1 & Ep2 & Q1 & Q2).
  pose proof HD as [D1 D2 D3 D4 D5]. apply NoDup_app in D1 as (Hn1 & Hdisj & Hn2).
  assert (Habs : forall id, ~ absent w3 id <-> id ∈ cached_ids out /\ ~ absent w id) by (intros id; unfold absent at 1; rewrite Eb; apply HI').
  assert (Hcold : forall i id, cached_ids out !! i = Some id -> w_requests w3 !! id = w_requests w !! id).
  { intros i id Hi. rewrite Q2 by (intros ?; eapply Hdisj; [done|]; by eapply list_elem_of_lookup_2). rewrite decide_False; [done|]. by apply (D5 i). }
  assert (Hixs : forall i id, (i, id) ∈ imap pair (cached_ids out) -> cached_ids out !! i = Some id).
  { intros i id Hin. by apply elem_of_lookup_imap in Hin as (j & y & [= -> ->] & ?). }
  destruct (cached_all cfg out Hl (imap pair (cached_ids out)) ∅ w3 (new_ids out) HS3) as (S & w4 & E4 & HS4 & R4 & G1 & G2 & G3); rewrite ?imap_pair_snd; try done.
  { intros i id Hin%Hixs. destruct (D5 i id Hin) as [_ Hf]. apply (entry_fits_mono out w); try done; [by eapply Hcold| |by rewrite Eb|].
    - intros Ha. unfold absent. rewrite Eb. destruct (req_id_to_index b2 !! id) eqn:E; [|done]. destruct (proj1 (HI' id)) as [_ ?]; [by rewrite E|done].
    - intros c Hc. by apply (rn_states _ _ _ Hr id c). }
  rewrite imap_pair_snd in E4, G2, G3. exists S, w4, (new_ids out ++ filter (absent w3) (cached_ids out)), b1, (after_removals out b2 w), w3, (new_ids out). split_and!; [exact E1|exact E2|exact E3|exact E4|].
  assert (Ho4 : forall r, outs_at w4 r = outs_at w r) by (intros r; rewrite <-Ho; unfold outs_at; by rewrite (sr_outs _ _ R4)).
  assert (Habs4 : forall id, absent w4 id <-> absent w3 id) by (intros id; unfold absent; by rewrite (sr_index _ _ R4)).
  assert (Hix : forall i id, cached_ids out !! i = Some id -> (i, id) ∈ imap pair (cached_ids out)).
  { intros i id Hi. apply elem_of_lookup_imap. by exists i, id. }
  split; try done.
  - intros id. rewrite G3. apply decide_ext. rewrite Habs. tauto.
  - split; try done.
    + intros nr Hin. destruct (Q1 nr Hin) as (ref & Hq & Hr0). exists ref. rewrite Ho4. split; [|done]. rewrite G2; [done|].
      intros Hc. apply (Hdisj (nr_req_id nr)); [by apply list_elem_of_fmap_2|done].
    + intros i id c n nb r Hi Hc He. apply (G1 i id c n nb r); [by apply Hix| |done]. by rewrite (Hcold i id Hi).
    + intros id Hf Hn. rewrite G2; [rewrite Q2 by done; by rewrite decide_True|]. intros Hc. apply list_elem_of_lookup in Hc as [i Hi]. by apply (D5 i id Hi).
    + intros id Hf Hn. rewrite elem_of_app in Hn. rewrite G2 by tauto. rewrite Q2 by tauto. by rewrite decide_False.
  - by rewrite (sr_bias _ _ R4), (sr_min _ _ R4).
  - by rewrite (sr_shapes _ _ R4), Eb.
  - intros id. by rewrite Habs4, Habs.
  - f_equal. apply list_filter_iff. intros id. by rewrite Habs4.
Qed.

(** The requests that are to be added fit, and there are rows for them. *)
Lemma add_ready out w S w' to_add : runner_ok cfg ∅ w -> delta_ok out w -> prepared out w S w' to_add ->
  NoDup to_add /\ (forall id, id ∈ to_add -> absent w' id /\ placeable cfg S w' id) /\ (num_reqs (input_batch w') + length to_add <= max_num_reqs bcfg)%nat.
Proof.
  intros Hr [D1 D2 D3 D4 D5] [P1 P2 [K1 K2 K3 K4 K5] _ P3 P4 ->]. pose proof D1 as Hnd. apply NoDup_app in D1 as (Hn1 & Hdisj & Hn2). split_and!.
  - eapply sublist_NoDup; [exact Hnd|]. apply sublist_app; [done|apply sublist_filter].
  - intros id [Hin|Hin]%elem_of_app.
    + apply list_elem_of_fmap in Hin as (nr & -> & Hin). assert (Hnc : nr_req_id nr ∉ cached_ids out) by (apply Hdisj; by apply list_elem_of_fmap_2).
      assert (Ha : absent w' (nr_req_id nr)) by (destruct (decide (absent w' (nr_req_id nr))) as [|Ha]; [done|]; apply P4 in Ha; tauto). split; [done|].
      destruct (K1 nr Hin) as (ref & Hc & Ho). exists (new_state_of pooling_of ref nr). destruct (D4 nr Hin) as [[_ _ _ _ _ F1 F2] _].
      split_and!; [done| |by rewrite P3|cbn; rewrite Ho; cbn; lia]. rewrite P2, decide_False; [done|]. tauto.
    + apply list_elem_of_filter in Hin as [Ha Hin]. split; [done|]. apply list_elem_of_lookup in Hin as [i Hi].
      destruct (D5 i id Hi) as [_ (c & n & nb & r & Hc & He & [_ _ F1 F2])]. exists (cached_after n nb r c). rewrite P3, P2, K5.
      destruct (cached_params n nb r c) as (_ & C2 & _ & _ & _ & C6 & _ & _ & C9). rewrite C2, C6, C9. split_and!; [by eapply K2| |done|lia].
      rewrite decide_False; [done|]. intros Hb. by apply P4 in Hb.
  - unfold new_ids in *. rewrite length_app in *. pose proof (filter_both (absent w') (cached_ids out)) as Hf.
    assert (Hs : (num_reqs (input_batch w') <= length (filter (fun id => ~ absent w' id) (cached_ids out)))%nat); [|lia].
    unfold num_reqs. rewrite <-size_dom. etransitivity; [apply (subseteq_size _ (list_to_set (filter (fun id => ~ absent w' id) (cached_ids out)) : gset string))|].
    + intros id [i Hi]%elem_of_dom. assert (Ha : ~ absent w' id) by (unfold absent; by rewrite Hi). apply elem_of_list_to_set, list_elem_of_filter.
      split; [done|]. by apply (proj1 (P4 id) Ha).
    + rewrite size_list_to_set; [done|]. by apply NoDup_filter.
Qed.

Lemma dget_keys {V} (d : list (string * V)) id : id ∈ d.*1 -> is_Some (dget id d).
Proof.
  induction d as [|[k v] d IH]; cbn; [by intros ?%elem_of_nil|]. intros [-> |Hin]%elem_of_cons; [by rewrite decide_True|].
  destruct (decide _); [done|by apply IH].
Qed.

(** A scheduler output that keeps its promise is applied without an error, and
    the batch then has exactly the scheduled requests. *)
Lemma update_states_spec out w : is_last_rank cfg = true -> threshold_ok cfg -> runner_ok cfg ∅ w -> delta_ok out w ->
  exists S w', update_states cfg pooling_of out w = Ok w' /\ runner_ok cfg S w' /\ min_tokens_exact cfg S w' /\ knows out w w' /\
    (forall id, is_Some (req_id_to_index (input_batch w') !! id) <-> id ∈ scheduled_ids out) /\
    (forall id, S !! id = if decide (id ∈ cached_ids out /\ ~ absent w id) then Some (spec_of out id) else None) /\
    shapes (input_batch w') = shapes (input_batch w) /\
    (forall t, num_kv_cache_groups cfg ≠ 0%nat -> reorder_batch_threshold cfg = Some t ->
      decodes_first t (so_num_scheduled_tokens out) (req_ids_ (input_batch w'))).
Proof.
  intros Hl Ht Hr HD. destruct (prepare out w Hl Hr HD) as (S & w4 & to_add & b1 & w1 & w2 & add1 & E1 & E2 & E3 & E4 & HP).
  destruct (add_ready out w S w4 to_add Hr HD HP) as (Hnd & Hall & Hroom). destruct HP as [P1 P2 PK [PB PM] P3 P4 P5].
  destruct (add_all cfg S to_add w4 P1 Hnd Hall Hroom) as (b5 & E5 & HS5 & Hw5 & Hi5).
  destruct (condense_late cfg _ _ _ _ _ (sg_mid _ _ _ HS5)) as (b6 & E6 & HL6 & Hw6 & _ & Hi6). cbn [input_batch set_batch] in E6, Hw6, Hi6.
  assert (Hids : forall id, is_Some (req_id_to_index b6 !! id) <-> id ∈ scheduled_ids out).
  { intros id. rewrite Hi6, Hi5, P5. unfold scheduled_ids. rewrite elem_of_list_to_set, (do_sched _ _ HD), !elem_of_app, list_elem_of_filter.
    assert (Hs : is_Some (req_id_to_index (input_batch w4) !! id) <-> ~ absent w4 id) by (unfold absent; by rewrite not_eq_None_Some).
    rewrite Hs. destruct (decide (absent w4 id)) as [Ha|Ha]; [tauto|]. pose proof (proj1 (P4 id) Ha). tauto. }
  destruct (may_reorder_late cfg _ _ _ _ out b6 HL6 Ht) as (b7 & E7 & HL7 & Hw7 & Hi7 & Hd7).
  { intros id Hid. apply dget_keys. apply Hids in Hid. unfold scheduled_ids in Hid. by rewrite elem_of_list_to_set in Hid. }
  destruct (refresh_ok cfg S (set_batch b7 w4)) as (HR & HM & Q1 & Q2 & _ & Q3); [exact HL7|apply P1|apply P1| |].
  { intros Hp. cbn. rewrite PB, PM. destruct (rn_procs _ _ _ Hr Hp) as [[_ ? ?] _ ?]. done. }
  exists S, (refresh cfg (set_batch b7 w4)). split.
  { unfold update_states. rewrite E1. cbn [mbind result_bind]. cbn [encoder_cache input_batch set_batch set_requests set_encoder_cache].
    unfold scheduled_ids in E2. rewrite E2. cbn [mbind result_bind]. rewrite E3. cbn [mbind result_bind]. unfold cached_ids in E4. rewrite E4.
    cbn [mbind result_bind]. rewrite E5. cbn [mbind result_bind input_batch set_batch]. rewrite E6. cbn [mbind result_bind]. rewrite E7. cbn. done. }
  rewrite Q3. split_and!; try done.
  - destruct PK as [K1 K2 K3 K4 K5]. unfold outs_at in *. split; unfold outs_at; rewrite ?Q1, ?Q2; try done.
  - intros id. cbn. by rewrite Hi7, Hids.
  - cbn. unfold shapes in *. cbn. by rewrite Hw7, Hw6, Hw5.
Qed.
End RunnerStep.
