(* ===== verification/NgramProposer.v ===== *)
(** The n-gram drafter of src/vllm/v1/spec_decode/ngram_proposer.py: a
    Knuth-Morris-Pratt scan over the reversed context for the longest n-gram
    that ends the context and occurred before. *)
From Stdlib Require Import ZArith Lia.
From stdpp Require Import numbers list.
From S2P Require Import Prelude.

Open Scope Z_scope.

(** ** The code *)

(** The [while] loop; every array access is checked. *)
Fixpoint ngram_loop (fuel : nat) (tokens : list Z) (max_ngram : nat) (lps : list nat) (longest_ngram position prev_lps i : nat)
  : result (nat * nat) :=
  match fuel with
  | O => Err OutOfFuel
  | S fuel =>
      if (i <? length tokens)%nat then
        a ← get_or IndexError (tokens !! prev_lps);
        b ← get_or IndexError (tokens !! i);
        if a =? b then
          let prev_lps := S prev_lps in
          let '(longest_ngram, position) := if (longest_ngram <=? prev_lps)%nat then (prev_lps, i) else (longest_ngram, position) in
          let lps := if (i <? max_ngram)%nat then <[i := prev_lps]> lps else lps in
          prev_lps ← (if (prev_lps =? max_ngram)%nat then get_or IndexError (lps !! (max_ngram - 1)%nat) else Ok prev_lps);
          ngram_loop fuel tokens max_ngram lps longest_ngram position prev_lps (S i)
        else if negb (prev_lps =? 0)%nat then
          prev_lps ← get_or IndexError (lps !! (prev_lps - 1)%nat);
          ngram_loop fuel tokens max_ngram lps longest_ngram position prev_lps i
        else ngram_loop fuel tokens max_ngram lps longest_ngram position 0 (S i)
      else Ok (longest_ngram, position)
  end.

(** [_find_longest_matched_ngram_and_propose_tokens]. *)
Definition find_longest_matched_ngram (origin_tokens : list Z) (min_ngram max_ngram : nat) (max_model_len k : Z) : result (option (list Z)) :=
  let total_token := length origin_tokens in
  if (total_token <? min_ngram)%nat then Ok None else
  let k := Z.min k (max_model_len - Z.of_nat total_token) in
  if k <=? 0 then Ok None else
  let tokens := reverse origin_tokens in
  let lps := replicate max_ngram 0%nat in
  '(longest_ngram, position) ← ngram_loop (S (2 * total_token)) tokens max_ngram lps 0 0 0 1;
  if (longest_ngram <? min_ngram)%nat then Ok None else
  let start_position := (total_token - 1 - position + longest_ngram)%nat in
  let k := Z.min k (Z.of_nat total_token - Z.of_nat start_position) in
  Ok (Some (pyslice (Z.of_nat start_position) (Z.of_nat start_position + k) origin_tokens)).

Record NgramProposer := mkNgram { min_n : nat; max_n : nat; ng_k : Z; ng_max_model_len : Z }.

Definition propose (p : NgramProposer) (context_token_ids : list Z) : result (option (list Z)) :=
  find_longest_matched_ngram context_token_ids (min_n p) (max_n p) (ng_max_model_len p) (ng_k p).

(** ** Borders *)

Section Borders.
Context (t : list Z).

(** The prefix of length [v] ends the prefix of length [p]. *)
Definition border (v p : nat) : Prop := (v < p)%nat /\ take v t = take v (drop (p - v) t).

Lemma border_lookup v p : (p <= length t)%nat ->
  border v p <-> (v < p)%nat /\ forall j, (j < v)%nat -> t !! j = t !! (p - v + j)%nat.
Proof.
  intros Hp. unfold border. split; intros [Hv H]; (split; [done|]).
  - intros j Hj. apply (f_equal (lookup j)) in H. by rewrite !lookup_take_lt, lookup_drop in H by done.
  - apply list_eq. intros j. destruct (decide (j < v)%nat).
    + rewrite !lookup_take_lt, lookup_drop by done. by apply H.
    + by rewrite !lookup_take_ge by lia.
Qed.

Lemma border_zero p : (0 < p)%nat -> border 0 p.
Proof. by split. Qed.

Lemma border_succ v p : (p < length t)%nat -> border (S v) (S p) <-> border v p /\ t !! v = t !! p.
Proof.
  intros Hp. rewrite !border_lookup by lia. split.
  - intros [Hv H]. split; [split; [lia|]|].
    + intros j Hj. rewrite (H j) by lia. f_equal; lia.
    + rewrite (H v) by lia. f_equal; lia.
  - intros [[Hv H] Hx]. split; [lia|]. intros j Hj. destruct (decide (j = v)) as [->|].
    + rewrite Hx. f_equal; lia.
    + rewrite (H j) by lia. f_equal; lia.
Qed.

Lemma border_inner v w p : (p <= length t)%nat -> border v p -> border w p -> (w < v)%nat -> border w v.
Proof.
  intros Hp Hv Hw Hlt. pose proof Hv as [Hvp _]. rewrite border_lookup in * by lia. destruct Hv as [_ Hv], Hw as [_ Hw]. split; [done|].
  intros j Hj. rewrite (Hw j) by done. rewrite (Hv (v - w + j)%nat) by lia. f_equal; lia.
Qed.

Lemma border_trans v w p : (p <= length t)%nat -> border v p -> border w v -> border w p.
Proof.
  intros Hp Hv Hw. pose proof Hv as [Hvp _]. rewrite border_lookup in * by lia. destruct Hv as [_ Hv], Hw as [Hwv Hw]. split; [lia|].
  intros j Hj. rewrite (Hw j) by done. rewrite (Hv (v - w + j)%nat) by lia. f_equal; lia.
Qed.

(** The longest border of the prefix of length [p] below [m]. *)
Definition longest_border (m v p : nat) : Prop := border v p /\ (v < m)%nat /\ forall w, border w p -> (w < m)%nat -> (w <= v)%nat.

(** ** The loop *)

Context (M : nat).
Hypothesis HM : (0 < M)%nat.

Record scan (lps : list nat) (longest position prev i : nat) : Prop := mkScan {
  sn_i : (1 <= i <= length t)%nat;
  sn_len : length lps = M;
  sn_prev : border prev i /\ (prev < M)%nat;
  sn_failed : forall w, border w i -> (w < M)%nat -> (prev < w)%nat -> t !! w ≠ t !! i;
  sn_lps : forall j v, (j < i)%nat -> lps !! j = Some v -> longest_border (S j) v (S j);
  sn_zero : forall j v, (i <= j)%nat -> lps !! j = Some v -> v = 0%nat;
  sn_best : forall v p, border v p -> (p <= i)%nat -> (v <= M)%nat -> (v <= longest)%nat /\ ((0 < v)%nat -> (position < p - 1)%nat -> (v < longest)%nat);
  sn_found : (longest = 0%nat /\ position = 0%nat) \/ (border longest (S position) /\ (0 < longest <= M)%nat /\ (position < i)%nat)
}.

(** The borders of the next prefix come from those of this one. *)
Lemma next_borders lps longest position prev i u : scan lps longest position prev i -> (i < length t)%nat -> border u (S i) -> (u <= M)%nat ->
  u = 0%nat \/ exists w, u = S w /\ border w i /\ (w <= prev)%nat /\ t !! w = t !! i.
Proof.
  intros HS Hi Hu HuM. destruct u as [|w]; [by left|]. right. apply border_succ in Hu as [Hw Hx]; [|done]. exists w. split_and!; try done.
  destruct (decide (prev < w)%nat) as [Hlt|]; [|lia]. destruct (sn_failed _ _ _ _ _ HS w Hw ltac:(lia) Hlt Hx).
Qed.

(** Going to the next prefix with the longest border found. *)
Lemma scan_next lps longest position prev i lps' longest' position' prev' :
  scan lps longest position prev i -> (i < length t)%nat ->
  length lps' = M -> (forall j, j ≠ i -> lps' !! j = lps !! j) ->
  (forall v, lps' !! i = Some v -> longest_border (S i) v (S i)) ->
  longest_border M prev' (S i) ->
  (longest' = longest /\ position' = position /\ (forall u, border u (S i) -> (u <= M)%nat -> (0 < u)%nat -> (u < longest)%nat)) \/
    (position' = i /\ border longest' (S i) /\ (0 < longest' <= M)%nat /\ (longest <= longest')%nat /\ (forall u, border u (S i) -> (u <= M)%nat -> (u <= longest')%nat)) ->
  scan lps' longest' position' prev' (S i).
Proof.
  intros HS Hi Hlen Hsame Hli Hprev Hbest. destruct HS as [S1 S2 S3 S4 S5 S6 S7 S8]. destruct Hprev as (Hp1 & Hp2 & Hp3). split; try done.
  - lia.
  - intros w Hw HwM Hlt. specialize (Hp3 w Hw HwM). lia.
  - intros j v Hj Hv. destruct (decide (j = i)) as [->|]; [by apply Hli|]. rewrite Hsame in Hv by done. apply S5; [lia|done].
  - intros j v Hj Hv. rewrite Hsame in Hv by lia. apply (S6 j); [lia|done].
  - intros v q Hv Hq HvM. destruct (decide (q = S i)) as [->|Hne].
    + destruct Hbest as [(-> & -> & Hu)|(-> & _ & _ & _ & Hu)].
      * destruct v as [|v]; [split; lia|]. specialize (Hu (S v) Hv HvM ltac:(lia)). split; lia.
      * specialize (Hu v Hv HvM). split; [done|]. lia.
    + destruct (S7 v q Hv ltac:(lia) HvM) as [H1 H2]. destruct Hbest as [(-> & -> & _)|(-> & _ & _ & Hle & _)]; [done|]. split; lia.
  - destruct Hbest as [(-> & -> & _)|(-> & Hb & Hpos & _)]; [|right; split_and!; try done; lia].
    destruct S8 as [?|(? & ? & ?)]; [by left|]. right. split_and!; try done; lia.
Qed.

Lemma scan_match lps longest position prev i : scan lps longest position prev i -> (i < length t)%nat -> t !! prev = t !! i ->
  let lps' := if (i <? M)%nat then <[i := S prev]> lps else lps in
  exists prev', (if (S prev =? M)%nat then get_or IndexError (lps' !! (M - 1)%nat) else Ok (S prev)) = Ok prev' /\ (prev' <= S prev)%nat /\
    let '(longest', position') := if (longest <=? S prev)%nat then (S prev, i) else (longest, position) in
    scan lps' longest' position' prev' (S i).
Proof using HM.
  intros HS Hi Hx lps'. pose proof (sn_prev _ _ _ _ _ HS) as [Hb HbM].
  assert (Hnew : border (S prev) (S i)) by (by apply border_succ).
  assert (Hmax : forall u, border u (S i) -> (u <= M)%nat -> (u <= S prev)%nat).
  { intros u Hu HuM. destruct (next_borders _ _ _ _ _ _ HS Hi Hu HuM) as [->|(w & -> & _ & Hw & _)]; lia. }
  assert (Hlen : length lps' = M) by (unfold lps'; destruct (i <? M)%nat; rewrite ?length_insert; apply (sn_len _ _ _ _ _ HS)).
  assert (Hsame : forall j, j ≠ i -> lps' !! j = lps !! j) by (intros j Hj; unfold lps'; destruct (i <? M)%nat; [by rewrite list_lookup_insert_ne|done]).
  assert (Hli : forall v, lps' !! i = Some v -> longest_border (S i) v (S i)).
  { intros v Hv. pose proof (lookup_lt_Some _ _ _ Hv) as Hlt. rewrite Hlen in Hlt. unfold lps' in Hv. replace (i <? M)%nat with true in Hv by (symmetry; by apply Nat.ltb_lt).
    rewrite list_lookup_insert_eq in Hv by (rewrite (sn_len _ _ _ _ _ HS); done). injection Hv as <-. destruct Hb as [Hpi _].
    split; [done|]. split; [lia|]. intros w Hw Hwi. apply Hmax; [done|lia]. }
  assert (Hfound : forall prev', longest_border M prev' (S i) ->
    let '(longest', position') := if (longest <=? S prev)%nat then (S prev, i) else (longest, position) in scan lps' longest' position' prev' (S i)).
  { intros prev' Hp. destruct (Nat.leb_spec longest (S prev)); (eapply scan_next; [exact HS|done|done|done|done|done|]).
    - right. split_and!; try done; lia.
    - left. split_and!; try done. intros u Hu HuM _. specialize (Hmax u Hu HuM). lia. }
  destruct (Nat.eqb_spec (S prev) M) as [HeM|HneM].
  - destruct Hb as [Hpi _]. destruct (lookup_lt_is_Some_2 lps' (M - 1)) as [v Hv]; [rewrite Hlen; lia|]. rewrite Hv. exists v. split; [done|].
    assert (HL : longest_border M v M).
    { replace M with (S (M - 1)) by lia. destruct (decide (M - 1 = i)%nat) as [He|Hne]; [rewrite He in Hv |- *; by apply Hli|].
      rewrite Hsame in Hv by done. apply (sn_lps _ _ _ _ _ HS); [lia|done]. }
    destruct HL as (L1 & L2 & L3). split; [lia|]. apply Hfound. rewrite HeM in Hnew. split; [by eapply border_trans; [lia| |]|]. split; [done|].
    intros w Hw HwM. apply L3; [|done]. by eapply border_inner; [|exact Hnew|exact Hw|]; [lia|].
  - exists (S prev). split; [done|]. split; [done|]. apply Hfound. split; [done|]. split; [lia|]. intros w Hw HwM. apply Hmax; [done|lia].
Qed.

Lemma scan_fail lps longest position prev i : scan lps longest position prev i -> t !! prev ≠ t !! i -> prev ≠ 0%nat ->
  exists prev', lps !! (prev - 1)%nat = Some prev' /\ (prev' < prev)%nat /\ scan lps longest position prev' i.
Proof using HM.
  intros HS Hx H0. pose proof (sn_prev _ _ _ _ _ HS) as [Hb HbM]. pose proof Hb as [Hpi _]. pose proof (sn_i _ _ _ _ _ HS) as Hi.
  destruct (lookup_lt_is_Some_2 lps (prev - 1)) as [v Hv]; [rewrite (sn_len _ _ _ _ _ HS); lia|]. exists v. split; [done|].
  pose proof (sn_lps _ _ _ _ _ HS (prev - 1) v ltac:(lia) Hv) as HL. replace (S (prev - 1)) with prev in HL by lia. destruct HL as (L1 & L2 & L3).
  split; [done|]. destruct HS as [S1 S2 S3 S4 S5 S6 S7 S8]. split; try done.
  - split; [eapply border_trans; [lia|exact Hb|exact L1]|lia].
  - intros w Hw HwM Hlt. destruct (decide (prev < w)%nat); [by apply S4|]. destruct (decide (w = prev)) as [->|]; [done|].
    specialize (L3 w (border_inner prev w i ltac:(lia) Hb Hw ltac:(lia)) ltac:(lia)). lia.
Qed.

Lemma scan_skip lps longest position i : scan lps longest position 0 i -> (i < length t)%nat -> t !! 0%nat ≠ t !! i -> scan lps longest position 0 (S i).
Proof using HM.
  intros HS Hi Hx. assert (Hzero : forall u, border u (S i) -> (u <= M)%nat -> u = 0%nat).
  { intros u Hu HuM. destruct (next_borders _ _ _ _ _ _ HS Hi Hu HuM) as [->|(w & -> & _ & Hw & Hxw)]; [done|]. assert (w = 0%nat) as -> by lia. done. }
  eapply scan_next; [exact HS|done|apply HS|done| | |].
  - intros v Hv. rewrite (sn_zero _ _ _ _ _ HS i v ltac:(lia) Hv). split; [by apply border_zero; lia|]. split; [lia|]. intros w Hw Hwi.
    pose proof (lookup_lt_Some _ _ _ Hv) as Hlt. rewrite (sn_len _ _ _ _ _ HS) in Hlt. rewrite (Hzero w Hw); lia.
  - split; [by apply border_zero; lia|]. split; [done|]. intros w Hw HwM. rewrite (Hzero w Hw); lia.
  - left. split_and!; try done. intros u Hu HuM Hpos. rewrite (Hzero u Hu HuM) in Hpos. lia.
Qed.

(** The scan of the whole context finds the longest border of any prefix, at the
    last prefix that has it. *)
Lemma ngram_loop_spec fuel : forall lps longest position prev i,
  scan lps longest position prev i -> (2 * (length t - i) + prev < fuel)%nat ->
  exists longest' position', ngram_loop fuel t M lps longest position prev i = Ok (longest', position') /\
    (forall v p, border v p -> (p <= length t)%nat -> (v <= M)%nat -> (v <= longest')%nat /\ ((0 < v)%nat -> (position' < p - 1)%nat -> (v < longest')%nat)) /\
    ((longest' = 0%nat /\ position' = 0%nat) \/ (border longest' (S position') /\ (0 < longest' <= M)%nat /\ (position' < length t)%nat)).
Proof using HM.
  induction fuel as [|fuel IH]; intros lps longest position prev i HS Hf; [lia|]. cbn [ngram_loop].
  pose proof (sn_i _ _ _ _ _ HS) as Hi. pose proof (sn_prev _ _ _ _ _ HS) as [[Hpi _] _].
  destruct (Nat.ltb_spec i (length t)) as [Hlt|Hge].
  - destruct (lookup_lt_is_Some_2 t prev ltac:(lia)) as [a Ha]. destruct (lookup_lt_is_Some_2 t i Hlt) as [b Hb]. rewrite Ha, Hb. cbn [get_or mbind result_bind].
    destruct (Z.eqb_spec a b) as [<-|Hne].
    + destruct (scan_match _ _ _ _ _ HS Hlt ltac:(congruence)) as (prev' & E & Hle & HS'). destruct (if (longest <=? S prev)%nat then _ else _) as [longest' position'].
      rewrite E. cbn [mbind result_bind]. apply IH; [done|lia].
    + assert (Hx : t !! prev ≠ t !! i) by congruence. destruct (Nat.eqb_spec prev 0) as [->|H0]; cbn [negb].
      * apply IH; [by apply scan_skip|lia].
      * destruct (scan_fail _ _ _ _ _ HS Hx H0) as (prev' & E & Hlt' & HS'). rewrite E. cbn [get_or mbind result_bind]. apply IH; [done|lia].
  - assert (i = length t) as -> by lia. exists longest, position. split; [done|]. split; [apply (sn_best _ _ _ _ _ HS)|apply (sn_found _ _ _ _ _ HS)].
Qed.
End Borders.

(** ** Occurrences in the context *)

(** The last [n] tokens also start at the earlier position [j]. *)
Definition occurs_at (xs : list Z) (n j : nat) : Prop := (j + n < length xs)%nat /\ take n (drop j xs) = drop (length xs - n) xs.

Lemma occurs_lookup xs n j : occurs_at xs n j <-> (j + n < length xs)%nat /\ forall b, (b < n)%nat -> xs !! (j + b)%nat = xs !! (length xs - n + b)%nat.
Proof.
  unfold occurs_at. split; intros [Hj H]; (split; [done|]).
  - intros b Hb. apply (f_equal (lookup b)) in H. by rewrite lookup_take_lt, !lookup_drop in H by done.
  - apply list_eq. intros b. rewrite lookup_drop. destruct (decide (b < n)%nat).
    + rewrite lookup_take_lt, lookup_drop by done. by apply H.
    + rewrite lookup_take_ge by lia. symmetry. apply lookup_ge_None. lia.
Qed.

Lemma border_occurs xs n p : (p <= length xs)%nat -> border (reverse xs) n p <-> (n < p)%nat /\ occurs_at xs n (length xs - p).
Proof.
  intros Hp. rewrite border_lookup by (by rewrite length_reverse). rewrite occurs_lookup. split.
  - intros [Hn H]. split; [done|]. split; [lia|]. intros b Hb. specialize (H (n - 1 - b)%nat ltac:(lia)). rewrite !reverse_lookup in H by lia.
    replace (length xs - n + b)%nat with (length xs - S (n - 1 - b))%nat by lia. rewrite H. f_equal; lia.
  - intros [Hn [Hj H]]. split; [done|]. intros a Ha. rewrite !reverse_lookup by lia. specialize (H (n - 1 - a)%nat ltac:(lia)).
    replace (length xs - n + (n - 1 - a))%nat with (length xs - S a)%nat in H by lia. rewrite <-H. f_equal; lia.
Qed.

Lemma scan_start t M : (0 < M)%nat -> (0 < length t)%nat -> scan t M (replicate M 0%nat) 0 0 0 1.
Proof.
  intros HM Ht. assert (Hb : forall v p, border t v p -> (p <= 1)%nat -> v = 0%nat) by (intros v p [H _] Hp; lia). split.
  - lia.
  - by rewrite length_replicate.
  - split; [apply border_zero; lia|done].
  - intros w Hw _ Hlt. rewrite (Hb w 1%nat Hw) in Hlt; lia.
  - intros j v Hj [-> _]%lookup_replicate. assert (j = 0%nat) as -> by lia. split; [apply border_zero; lia|]. split; [lia|]. intros w _ Hw. lia.
  - by intros j v _ [-> _]%lookup_replicate.
  - intros v p Hv Hp _. rewrite (Hb v p Hv Hp). split; lia.
  - by left.
Qed.

(** What the scan finds, in the order of the context. *)
Lemma ngram_found xs M : (0 < M)%nat -> (0 < length xs)%nat ->
  exists n position, ngram_loop (S (2 * length xs)) (reverse xs) M (replicate M 0%nat) 0 0 0 1 = Ok (n, position) /\
    (forall n' j', (0 < n' <= M)%nat -> occurs_at xs n' j' -> (n' <= n)%nat /\ (n' = n -> (length xs - 1 - position <= j')%nat)) /\
    ((0 < n)%nat -> (n <= M)%nat /\ occurs_at xs n (length xs - 1 - position)).
Proof.
  intros HM Hx. destruct (ngram_loop_spec (reverse xs) M HM (S (2 * length xs)) (replicate M 0%nat) 0 0 0 1) as (n & position & E & Hbest & Hfound).
  { apply scan_start; [done|by rewrite length_reverse]. }
  { rewrite length_reverse. lia. }
  rewrite length_reverse in *. exists n, position. split; [done|]. split.
  - intros n' j' Hn' Ho. pose proof Ho as [Hj' _].
    assert (Hb : border (reverse xs) n' (length xs - j')).
    { apply border_occurs; [lia|]. split; [lia|]. by replace (length xs - (length xs - j'))%nat with j' by lia. }
    destruct (Hbest _ _ Hb ltac:(lia) ltac:(lia)) as [H1 H2]. split; [done|]. intros ->. destruct (decide (length xs - 1 - position <= j')%nat); [done|].
    specialize (H2 ltac:(lia) ltac:(lia)). lia.
  - intros Hn. destruct Hfound as [[-> _]|(Hb & HnM & Hp)]; [lia|]. split; [lia|]. apply border_occurs in Hb as [_ Hb]; [|lia].
    by replace (length xs - 1 - position)%nat with (length xs - S position)%nat by lia.
Qed.

(** C35: The proposed tokens are right, and the drafter never fails: it reads no array
    out of bounds and its loop terminates. It proposes something exactly when
    the context is long enough, the model length leaves room, and some n-gram
    of an allowed length that ends the context occurred before; it then takes
    the longest such n-gram, at its earliest occurrence, and proposes the
    tokens that followed it there: at least one, at most [k] and as many as
    the model length allows. *)
Theorem propose_correct (p : NgramProposer) (context : list Z) :
  (1 <= min_n p <= max_n p)%nat ->
  let room := Z.min (ng_k p) (ng_max_model_len p - Z.of_nat (length context)) in
  exists d, propose p context = Ok d /\
    match d with
    | None => (length context < min_n p)%nat \/ room <= 0 \/ (forall n j, (min_n p <= n <= max_n p)%nat -> ~ occurs_at context n j)
    | Some draft => exists n j, (min_n p <= n <= max_n p)%nat /\ occurs_at context n j /\
        (forall n' j', (n' <= max_n p)%nat -> occurs_at context n' j' -> (n' <= n)%nat) /\
        (forall j', occurs_at context n j' -> (j <= j')%nat) /\
        draft = take (Z.to_nat room) (drop (j + n) context) /\ draft ≠ []
    end.
Proof.
  intros Hn room. unfold propose, find_longest_matched_ngram. destruct (Nat.ltb_spec (length context) (min_n p)) as [Hs|Hs]; [exists None; by split; [|left]|].
  fold room. destruct (Z.leb_spec room 0) as [Hr|Hr]; [exists None; by split; [|right; left]|].
  destruct (ngram_found context (max_n p) ltac:(lia) ltac:(lia)) as (n & position & E & Hbest & Hfound). rewrite E. cbn [mbind result_bind].
  destruct (Nat.ltb_spec n (min_n p)) as [Hlt|Hge].
  - exists None. split; [done|]. right. right. intros n' j' Hn' Ho. destruct (Hbest n' j' ltac:(lia) Ho) as [? _]. lia.
  - destruct (Hfound ltac:(lia)) as [HnM Ho]. pose proof Ho as [Hj _]. set (j := (length context - 1 - position)%nat) in *.
    assert (Ed : pyslice (Z.of_nat (j + n)) (Z.of_nat (j + n) + Z.min room (Z.of_nat (length context) - Z.of_nat (j + n))) context = take (Z.to_nat room) (drop (j + n) context)).
    { set (q := Z.to_nat (Z.min room (Z.of_nat (length context) - Z.of_nat (j + n)))).
      replace (Z.of_nat (j + n) + Z.min room (Z.of_nat (length context) - Z.of_nat (j + n))) with (Z.of_nat (j + n + q)) by lia.
      rewrite pyslice_in by lia. replace (j + n + q - (j + n))%nat with q by lia. destruct (decide (room <= Z.of_nat (length context) - Z.of_nat (j + n))).
      - f_equal. lia.
      - rewrite !take_ge by (rewrite length_drop; lia). done. }
    eexists. split; [done|]. exists n, j. split_and!; try done; try lia.
    + intros n' j' Hn' Ho'. destruct n' as [|n']; [lia|]. by destruct (Hbest (S n') j' ltac:(lia) Ho').
    + intros j' Ho'. destruct (Hbest n j' ltac:(lia) Ho') as [_ H]. by apply H.
    + rewrite Ed. intros Hnil. apply (f_equal length) in Hnil. rewrite length_take, length_drop in Hnil. cbn in Hnil. lia.
Qed.

Lemma propose_correct_witness :
  exists d, propose (mkNgram 2 3 4 100) [1; 2; 3; 4; 2; 3] = Ok (Some d) /\ d = [4; 2; 3] /\
    exists n j, (2 <= n <= 3)%nat /\ occurs_at [1; 2; 3; 4; 2; 3] n j.
Proof.
  destruct (propose_correct (mkNgram 2 3 4 100) [1; 2; 3; 4; 2; 3]) as (d & E & Hd); [cbn; lia|].
  assert (E' : propose (mkNgram 2 3 4 100) [1; 2; 3; 4; 2; 3] = Ok (Some [4; 2; 3])) by (vm_compute; reflexivity).
  rewrite E' in E. injection E as <-. exists [4; 2; 3]. split; [exact E'|]. split; [reflexivity|].
  destruct Hd as (n & j & Hn & Ho & _). by exists n, j.
Defined.
