(* ===== verification/ModelInputs.v ===== *)
(** The inputs of the model (src/vllm/v1/worker/gpu_model_runner.py): from the
    batch and the numbers of scheduled tokens, the flat arrays of positions,
    token ids and slots ([_prepare_inputs]), the rows of logits that are sampled
    and the draft tokens that are verified ([_calc_spec_decode_metadata]), and
    how the sampled tokens are stored afterwards ([_bookkeeping_sync]).

    Copies to the device are the
    host arrays; numbers in [int32] arrays stay below [2^31] here except the slot
    products, where BlockTable has the wrap-around. Attention metadata, M-RoPE and
    asynchronous scheduling are left out. *)
From Stdlib Require Import ZArith Lia String QArith Qcanon.
From stdpp Require Import numbers gmap strings list.
From S2P Require Import Prelude Request BlockTable InputBatch BatchInv LogitsProcs SchedState ModelRunner Reorder RunnerInv NgramProposer.

Open Scope Z_scope.

(** * Arrays *)

(** [np.repeat]: each value as often as its count says; a single count is
    broadcast. *)
Definition np_repeat {A} (vals : list A) (counts : list Z) : result (list A) :=
  _ ← raise_if (existsb (fun n => n <? 0) counts) ValueError;
  ps ← (if (length counts =? length vals)%nat then Ok (zip vals counts)
        else match counts with
             | [n] => Ok (map (fun x => (x, n)) vals)
             | _ => Err ValueError
             end);
  Ok (concat (map (fun p => replicate (Z.to_nat p.2) p.1) ps)).

(** [np.cumsum]. *)
Fixpoint cumsum_from (acc : Z) (l : list Z) : list Z :=
  match l with
  | [] => []
  | n :: l => (acc + n) :: cumsum_from (acc + n) l
  end.
Definition cumsum : list Z -> list Z := cumsum_from 0.

(** [torch.index_select] on a flat tensor, and NumPy's indexing with a list of
    indices in range. *)
Definition index_select {A} (l : list A) (idx : list Z) : result (list A) :=
  mapM_res (fun i => if i <? 0 then Err IndexError else get_or IndexError (l !! Z.to_nat i)) idx.

(** [_get_cumsum_and_arange]; [len] is the length of [arange_np]. *)
Definition get_cumsum_and_arange (len : nat) (num_tokens : list Z) : result (list Z * list Z) :=
  let cu := cumsum num_tokens in
  total ← get_or IndexError (last cu);
  starts ← np_op Z.sub cu num_tokens;
  offsets ← np_repeat starts num_tokens;
  arange ← np_op Z.sub (pytake total (seqZ 0 (Z.of_nat len))) offsets;
  Ok (cu, arange).

(** * Speculative decoding *)

Record SpecDecodeMetadata := mkSpecMeta {
  draft_token_ids : list Z;
  num_draft_tokens : list Z;
  cu_num_draft_tokens : list Z;
  target_logits_indices : list Z;
  bonus_logits_indices : list Z;
  spec_logits_indices : list Z
}.

Definition calc_spec_decode_metadata (len : nat) (input_ids num_draft cu_num_scheduled : list Z) : result SpecDecodeMetadata :=
  let num_sampled := map (fun n => n + 1) num_draft in
  '(cu_sampled, arange) ← get_cumsum_and_arange len num_sampled;
  starts ← np_op Z.sub cu_num_scheduled num_sampled;
  reps ← np_repeat starts num_sampled;
  logits ← np_op Z.add reps arange;
  let bonus := map (fun n => n - 1) cu_sampled in
  '(cu_draft, arange) ← get_cumsum_and_arange len num_draft;
  starts ← np_op Z.sub cu_sampled num_sampled;
  reps ← np_repeat starts num_draft;
  target ← np_op Z.add reps arange;
  drafts ← mapM_res (pyindex input_ids) logits;
  drafts ← mapM_res (pyindex drafts) (map (fun i => i + 1) target);
  Ok (mkSpecMeta drafts num_draft cu_draft target bonus logits).

(** * The inputs *)

Record ModelInputs := mkInputs {
  in_num_scheduled : list Z;
  in_req_indices : list Z;
  in_positions : list Z;
  in_token_ids : list Z;
  in_slots : list (list Z);
  in_query_start_loc : list Z;
  in_seq_lens : list Z;
  in_logits_indices : list Z;
  in_spec_metadata : option SpecDecodeMetadata
}.

Section Inputs.
Context (cfg : RunnerConfig) (arange_len : nat).
Notation bcfg := (batch_config cfg).

(** The number of draft tokens of each row. *)
Definition draft_counts (out : SchedulerOutput) (b : InputBatch) : result (list Z) :=
  foldM (fun l p => i ← get_or KeyError (req_id_to_index b !! (p.1 : string)); np_alter i (fun _ => Ok (zlen (p.2 : list Z))) l)
    (replicate (num_reqs b) 0) (map_to_list (so_spec_decode_tokens out)).

(** Values stored into a slice of length [n]: they must have its length, one
    value is broadcast. *)
Definition fill_slice (n : nat) (vals : list Z) : result (list Z) :=
  if (length vals =? n)%nat then Ok vals
  else match vals with
       | [x] => Ok (replicate n x)
       | _ => Err ValueError
       end.

Definition prepare_inputs (out : SchedulerOutput) (b : InputBatch) : result ModelInputs :=
  let total := so_total_num_scheduled_tokens out in
  _ ← assert_ (0 <? total);
  let n := num_reqs b in
  _ ← assert_ (0 <? n)%nat;
  tokens ← mapM_res (fun o => id ← get_or KeyError o; get_or KeyError (dget (id : string) (so_num_scheduled_tokens out))) (req_ids_ b);
  req_indices ← np_repeat (take n (seqZ 0 (Z.of_nat arange_len))) tokens;
  '(cu, arange) ← get_cumsum_and_arange arange_len tokens;
  computed ← mapM_res (pyindex (num_computed_tokens_cpu <$> rows b)) req_indices;
  sums ← np_op Z.add computed arange;
  positions ← fill_slice (Z.to_nat total) sums;
  token_indices ← np_op Z.add positions (map (fun i => i * Z.of_nat (batch_max_model_len bcfg)) req_indices);
  input_ids ← index_select (concat (token_ids_cpu <$> rows b)) token_indices;
  slots ← multi_compute_slot_mapping req_indices positions (block_table b);
  cu' ← fill_slice n cu;
  total_tokens ← get_or IndexError (last cu);
  let query_start_loc := 0 :: cu' ++ replicate (max_num_reqs bcfg - n) total_tokens in
  sums ← np_op Z.add (num_computed_tokens_cpu <$> take n (rows b)) tokens;
  lens ← fill_slice n sums;
  let seq_lens := lens ++ replicate (max_num_reqs bcfg - n) 0 in
  if decide (so_spec_decode_tokens out = ∅) then
    Ok (mkInputs tokens req_indices positions input_ids slots query_start_loc seq_lens (map (fun x => x - 1) cu') None)
  else
    num_draft ← draft_counts out b;
    meta ← calc_spec_decode_metadata arange_len input_ids num_draft cu;
    Ok (mkInputs tokens req_indices positions input_ids slots query_start_loc seq_lens (spec_logits_indices meta) (Some meta)).

(** * After sampling *)

(** [RejectionSampler.parse_output]. *)
Definition parse_output (vocab : Z) (sampled : list (list Z)) : list (list Z) :=
  map (filter (fun t => t ≠ -1 /\ t < vocab)) sampled.

(** The sampled tokens as lists; a tensor of one column has no rejected
    tokens. *)
Definition valid_tokens (max_gen_len : nat) (sampled : list (list Z)) : list (list Z) :=
  if (max_gen_len =? 1)%nat then sampled else parse_output (vocab_size bcfg) sampled.

(** The rows whose token is not kept, because the prompt is not complete. *)
Fixpoint discard_rows (out : SchedulerOutput) (w : Runner) (i : nat) (ids : list (option string)) : result (list nat) :=
  match ids with
  | [] => Ok []
  | o :: ids =>
      id ← get_or KeyError o;
      c ← get_or KeyError (w_requests w !! (id : string));
      n ← get_or KeyError (dget (id : string) (so_num_scheduled_tokens out));
      rest ← discard_rows out w (S i) ids;
      let num_tokens := zlen (rs_prompt_token_ids c) + zlen (outs_at w (rs_output_token_ids c)) in
      Ok (if rs_num_computed_tokens c + n <? num_tokens then i :: rest else rest)
  end.

(** One row of the loop that caches the sampled tokens. *)
Definition store_row (w : Runner) (p : nat * list Z) : result Runner :=
  let '(i, toks) := p in
  match toks with
  | [] => Ok w
  | _ =>
      r ← get_or IndexError (rows (input_batch w) !! i);
      let start := num_tokens_no_spec r in
      let e := (start + length toks)%nat in
      _ ← assert_ (e <=? batch_max_model_len bcfg)%nat;
      r ← write_tokens start toks e e r;
      o ← get_or IndexError (req_ids_ (input_batch w) !! i);
      id ← get_or KeyError o;
      c ← get_or KeyError (w_requests w !! (id : string));
      let w := set_batch (set_rows (<[i := r]> (rows (input_batch w))) (block_table (input_batch w)) (input_batch w)) w in
      Ok (extend_list (rs_output_token_ids c) toks w)
  end.

Definition bookkeeping_sync (out : SchedulerOutput) (max_gen_len : nat) (sampled : list (list Z)) (w : Runner) : result (list (list Z) * Runner) :=
  discard ← discard_rows out w 0 (req_ids_ (input_batch w));
  valid ← foldM (fun v i => np_alter i (fun _ => Ok []) v) (valid_tokens max_gen_len sampled) discard;
  w ← foldM store_row w (imap pair valid);
  Ok (valid, w).

(** * Drafts from n-grams *)

(** The drafts of one row of [propose_ngram_draft_token_ids]. *)
Definition draft_row (drafter : NgramProposer) (b : InputBatch) (p : nat * list Z) : result (list Z) :=
  let '(i, sampled_ids) := p in
  match sampled_ids with
  | [] => Ok []
  | _ =>
      o ← get_or IndexError (req_ids_ b !! i);
      if match o with Some id => bool_decide (id ∈ req_sets (sampling_state b) spec_decode_unsupported_reqs) | None => false end then Ok [] else
      r ← get_or IndexError (rows b !! i);
      if (batch_max_model_len bcfg <=? num_tokens_no_spec r)%nat then Ok [] else
      d ← propose drafter (take (num_tokens_no_spec r) (token_ids_cpu r));
      Ok (default [] d)
  end.

Definition propose_ngram_draft_token_ids (drafter : NgramProposer) (sampled : list (list Z)) (b : InputBatch) : result (list (list Z)) :=
  mapM_res (draft_row drafter b) (imap pair sampled).
End Inputs.
