(* ===== verification/InputsSpec.v ===== *)
(** The flat arrays of [_prepare_inputs] are the concatenation, request by
    request, of what each request has to compute: the positions after its
    computed tokens, the tokens at these positions and the slots of its blocks.
    The rows of logits that are sampled are the last ones of each request, and the
    draft tokens that are verified are the request's drafts. *)
From Stdlib Require Import ZArith Lia String QArith Qcanon.
From stdpp Require Import numbers gmap strings list.
From S2P Require Import Prelude Request BlockTable InputBatch BatchInv LogitsProcs SchedState ModelRunner Reorder RunnerInv ModelInputs.

Open Scope Z_scope.

(** * Blocks of arrays *)

Lemma mapM_ok {A B} (f : A -> result B) l ys : Forall2 (fun x y => f x = Ok y) l ys -> mapM_res f l = Ok ys.
Proof. induction 1 as [|x y l ys E _ IH]; [done|]. cbn. rewrite E. cbn. by rewrite IH. Qed.

Lemma Forall2_concat {A B} (R : A -> B -> Prop) ls ks : Forall2 (Forall2 R) ls ks -> Forall2 R (concat ls) (concat ks).
Proof. induction 1 as [|l k ls ks H _ IH]; [done|]. cbn. by apply Forall2_app. Qed.

Lemma zip_concat {A B C} (op : A -> B -> C) ls ks : Forall2 (fun l k => length l = length k) ls ks ->
  zip_with op (concat ls) (concat ks) = concat (zip_with (zip_with op) ls ks).
Proof. induction 1 as [|l k ls ks H _ IH]; [done|]. cbn. rewrite zip_with_app by done. by rewrite IH. Qed.

Lemma length_concat_same {A B} (ls : list (list A)) (ks : list (list B)) : Forall2 (fun l k => length l = length k) ls ks -> length (concat ls) = length (concat ks).
Proof. induction 1 as [|l k ls ks H _ IH]; [done|]. cbn. rewrite !length_app. lia. Qed.

(** A list with a block for each entry of [plan]. *)
Definition blocks {P A} (f : nat -> P -> list A) (plan : list P) : list A := concat (imap f plan).

Lemma imap_Forall2 {P A B} (R : A -> B -> Prop) (f : nat -> P -> A) (g : nat -> P -> B) plan :
  (forall k p, plan !! k = Some p -> R (f k p) (g k p)) -> Forall2 R (imap f plan) (imap g plan).
Proof.
  intros H. apply Forall2_same_length_lookup. split; [by rewrite !length_imap|]. intros k x y. rewrite !list_lookup_imap.
  destruct (plan !! k) as [p|] eqn:E; [|done]. cbn. intros [= <-] [= <-]. by apply H.
Qed.

Lemma blocks_op {P A B C} (op : A -> B -> C) (f : nat -> P -> list A) g plan : (forall k p, plan !! k = Some p -> length (f k p) = length (g k p)) ->
  np_op op (blocks f plan) (blocks g plan) = Ok (blocks (fun k p => zip_with op (f k p) (g k p)) plan).
Proof.
  intros H. assert (HF : Forall2 (fun l k => length l = length k) (imap f plan) (imap g plan)) by (by apply imap_Forall2). unfold blocks.
  rewrite np_op_ok by (by apply length_concat_same). rewrite zip_concat by done. do 2 f_equal. apply list_eq. intros k. rewrite lookup_zip_with, !list_lookup_imap.
  by destruct (plan !! k).
Qed.

Lemma blocks_mapM {P A B} (F : A -> result B) (f : nat -> P -> list A) (g : nat -> P -> list B) plan :
  (forall k p, plan !! k = Some p -> Forall2 (fun x y => F x = Ok y) (f k p) (g k p)) -> mapM_res F (blocks f plan) = Ok (blocks g plan).
Proof. intros H. apply mapM_ok, Forall2_concat. by apply imap_Forall2. Qed.

Lemma blocks_ext {P A} (f g : nat -> P -> list A) plan : (forall k p, plan !! k = Some p -> f k p = g k p) -> blocks f plan = blocks g plan.
Proof.
  intros H. unfold blocks. f_equal. apply list_eq. intros k. rewrite !list_lookup_imap. destruct (plan !! k) eqn:E; [|done]. cbn. by rewrite (H k).
Qed.

Lemma blocks_map {P A B} (h : A -> B) (f : nat -> P -> list A) plan : map h (blocks f plan) = blocks (fun k p => map h (f k p)) plan.
Proof. unfold blocks. rewrite concat_map. f_equal. apply list_eq. intros k. rewrite list_lookup_fmap, !list_lookup_imap. by destruct (plan !! k). Qed.

Lemma blocks_cons {P A} (f : nat -> P -> list A) p plan : blocks f (p :: plan) = f 0%nat p ++ blocks (fun k => f (S k)) plan.
Proof. done. Qed.

(** * Sums *)

Definition total (l : list Z) : Z := foldr Z.add 0 l.

Lemma total_app l k : total (l ++ k) = total l + total k.
Proof. unfold total. induction l as [|x l IH]; cbn; [done|]. rewrite IH. lia. Qed.

Lemma cumsum_length acc l : length (cumsum_from acc l) = length l.
Proof. revert acc. induction l as [|n l IH]; intros acc; cbn; [done|]. by rewrite IH. Qed.

Lemma cumsum_lookup l : forall acc k n, l !! k = Some n -> cumsum_from acc l !! k = Some (acc + total (take k l) + n).
Proof.
  induction l as [|m l IH]; intros acc [|k] n E; cbn in *; try done; [injection E as ->; f_equal; unfold total; cbn; lia|].
  rewrite (IH _ _ _ E). f_equal. unfold total. cbn. lia.
Qed.

Lemma cumsum_last acc l : l ≠ [] -> last (cumsum_from acc l) = Some (acc + total l).
Proof.
  revert acc. induction l as [|n l IH]; intros acc H; [done|]. destruct l as [|m l]; [cbn; f_equal; unfold total; cbn; lia|].
  cbn [cumsum_from]. rewrite last_cons. change ((acc + n + m) :: cumsum_from (acc + n + m) l) with (cumsum_from (acc + n) (m :: l)).
  rewrite IH by done. f_equal. unfold total. cbn. lia.
Qed.

(** Where the block of each entry starts. *)
Lemma cumsum_starts l acc : zip_with Z.sub (cumsum_from acc l) l = imap (fun k _ => acc + total (take k l)) l.
Proof.
  apply list_eq. intros k. rewrite lookup_zip_with, list_lookup_imap. destruct (l !! k) as [n|] eqn:E; [|by destruct (cumsum_from acc l !! k)].
  rewrite (cumsum_lookup l acc k n E). cbn. f_equal. lia.
Qed.

Lemma np_repeat_ok {A} (vals : list A) counts : Forall (Z.le 0) counts -> length counts = length vals ->
  np_repeat vals counts = Ok (concat (zip_with (fun x n => replicate (Z.to_nat n) x) vals counts)).
Proof.
  intros Hp Hl. unfold np_repeat. assert (E : existsb (fun n => n <? 0) counts = false).
  { apply not_true_is_false. intros H. apply existsb_exists in H as (n & Hin & Hn). apply list_elem_of_In in Hin. apply (proj1 (Forall_forall _ _) Hp) in Hin. lia. }
  rewrite E. cbn. rewrite Hl, Nat.eqb_refl. cbn. do 2 f_equal. symmetry. rewrite zip_with_zip. apply list_fmap_ext. by intros ? [].
Qed.

(** The docstring's reference: the ranges of the counts, one after the other. *)
Lemma arange_blocks l : forall acc, Forall (Z.le 0) l ->
  zip_with Z.sub (seqZ acc (total l)) (concat (zip_with (fun x n => replicate (Z.to_nat n) x) (imap (fun k _ => acc + total (take k l)) l) l)) = concat (seqZ 0 <$> l).
Proof.
  induction l as [|n l IH]; intros acc H; [by destruct (seqZ _ _)|]. apply Forall_cons in H as [Hn H].
  assert (Ht : 0 <= total l) by (clear -H; unfold total; induction H; cbn; lia).
  change (total (n :: l)) with (n + total l). rewrite seqZ_app by lia. cbn [imap zip_with concat fmap list_fmap].
  rewrite zip_with_app by (by rewrite length_seqZ, length_replicate). f_equal.
  - apply list_eq. intros i. rewrite lookup_zip_with. destruct (decide (Z.of_nat i < n)) as [Hi|Hi].
    + rewrite !lookup_seqZ_lt, lookup_replicate_2 by lia. cbn. f_equal. unfold total. cbn. lia.
    + by rewrite !lookup_seqZ_ge by lia.
  - rewrite <-(IH (acc + n) H). do 3 f_equal. apply list_eq. intros k. rewrite !list_lookup_imap. destruct (l !! k); [|done]. cbn. f_equal. unfold total. cbn. lia.
Qed.

Lemma total_nonneg l : Forall (Z.le 0) l -> 0 <= total l.
Proof. unfold total. induction 1; cbn; lia. Qed.

Lemma take_seqZ t len : 0 <= t <= Z.of_nat len -> pytake t (seqZ 0 (Z.of_nat len)) = seqZ 0 t.
Proof.
  intros H. rewrite pytake_nat by (unfold zlen; rewrite length_seqZ; lia). apply list_eq. intros i.
  destruct (decide (Z.of_nat i < t)) as [Hi|Hi]; [rewrite lookup_take_lt by lia; by rewrite !lookup_seqZ_lt by lia|].
  rewrite lookup_take_ge by lia. by rewrite lookup_seqZ_ge by lia.
Qed.

Lemma length_repeat (l : list Z) : forall vals : list Z, Forall (Z.le 0) l -> length vals = length l ->
  Z.of_nat (length (concat (zip_with (fun x n => replicate (Z.to_nat n) x) vals l))) = total l.
Proof.
  induction l as [|n l IH]; intros [|v vals] H E; try done. apply Forall_cons in H as [Hn H]. cbn in *. rewrite length_app, length_replicate, Nat2Z.inj_add, (IH vals); try done; [|lia].
  unfold total. cbn. lia.
Qed.

Lemma cumsum_and_arange_spec len l : l ≠ [] -> Forall (Z.le 0) l -> total l <= Z.of_nat len ->
  get_cumsum_and_arange len l = Ok (cumsum l, concat (seqZ 0 <$> l)).
Proof.
  intros Hne Hp Hlen. unfold get_cumsum_and_arange, cumsum. rewrite cumsum_last, Z.add_0_l by done. cbn [get_or mbind result_bind].
  rewrite np_op_ok by apply cumsum_length. cbn [mbind result_bind]. rewrite cumsum_starts.
  rewrite np_repeat_ok by (rewrite ?length_imap; done). cbn [mbind result_bind]. pose proof (total_nonneg l Hp).
  rewrite take_seqZ by lia. rewrite np_op_ok.
  - cbn [mbind result_bind]. by rewrite arange_blocks.
  - apply Nat2Z.inj. rewrite length_repeat by (rewrite ?length_imap; done). rewrite length_seqZ. lia.
Qed.

(** ** Arrays with an entry for each request *)

Section Entries.
Context {P : Type}.
Implicit Types (plan : list P) (c : P -> Z).

Lemma fmap_entries c plan : c <$> plan = imap (fun _ p => c p) plan.
Proof. apply list_eq. intros k. rewrite list_lookup_fmap, list_lookup_imap. by destruct (plan !! k). Qed.

Lemma op_entries {A B C} (op : A -> B -> C) (f : nat -> P -> A) (g : nat -> P -> B) plan :
  np_op op (imap f plan) (imap g plan) = Ok (imap (fun k p => op (f k p) (g k p)) plan).
Proof.
  rewrite np_op_ok by (by rewrite !length_imap). f_equal. apply list_eq. intros k. rewrite lookup_zip_with, !list_lookup_imap. by destruct (plan !! k).
Qed.

Lemma map_entries {A B} (h : A -> B) (f : nat -> P -> A) plan : map h (imap f plan) = imap (fun k p => h (f k p)) plan.
Proof. apply list_eq. intros k. change (map h (imap f plan)) with (h <$> imap f plan). rewrite list_lookup_fmap, !list_lookup_imap. by destruct (plan !! k). Qed.

(** The number of entries before request [k]. *)
Definition before c plan (k : nat) : Z := total (take k (c <$> plan)).

Lemma cumsum_entries c plan : cumsum (c <$> plan) = imap (fun k p => before c plan k + c p) plan.
Proof.
  apply list_eq. intros k. rewrite list_lookup_imap. destruct (plan !! k) as [p|] eqn:E.
  - unfold cumsum. rewrite (cumsum_lookup (c <$> plan) 0 k (c p)) by (by rewrite list_lookup_fmap, E). done.
  - apply lookup_ge_None_2. unfold cumsum. rewrite cumsum_length, length_fmap. by apply lookup_ge_None_1.
Qed.

Lemma repeat_entries {A} (v : nat -> P -> A) c plan : Forall (fun p => 0 <= c p) plan ->
  np_repeat (imap v plan) (c <$> plan) = Ok (blocks (fun k p => replicate (Z.to_nat (c p)) (v k p)) plan).
Proof.
  intros H. rewrite np_repeat_ok; [|by apply Forall_fmap|by rewrite length_fmap, length_imap]. unfold blocks. do 2 f_equal.
  apply list_eq. intros k. rewrite lookup_zip_with, !list_lookup_imap, list_lookup_fmap. by destruct (plan !! k).
Qed.

Lemma arange_entries c plan : concat (seqZ 0 <$> (c <$> plan)) = blocks (fun _ p => seqZ 0 (c p)) plan.
Proof. unfold blocks. f_equal. apply list_eq. intros k. rewrite list_lookup_imap, !list_lookup_fmap. by destruct (plan !! k). Qed.

Lemma blocks_single {A} plan : forall f : nat -> P -> A, blocks (fun k p => [f k p]) plan = imap f plan.
Proof. unfold blocks. induction plan as [|p plan IH]; intros f; [done|]. cbn. f_equal. apply (IH (f ∘ S)). Qed.

(** An entry of a block is found after the blocks before it. *)
Lemma blocks_lookup {A} (c : P -> Z) plan : forall (f : nat -> P -> list A) k p j x, (forall k p, plan !! k = Some p -> Z.of_nat (length (f k p)) = c p) ->
  plan !! k = Some p -> f k p !! j = Some x -> 0 <= before c plan k /\ blocks f plan !! (Z.to_nat (before c plan k) + j)%nat = Some x.
Proof.
  induction plan as [|q plan IH]; intros f [|k] p j x Hl E Ej; try done; rewrite blocks_cons.
  - cbn in E. injection E as ->. split; [done|]. rewrite lookup_app_l; [done|]. cbn. by eapply lookup_lt_Some.
  - cbn in E. destruct (IH (fun k => f (S k)) k p j x (fun k p => Hl (S k) p) E Ej) as [H1 H2]. pose proof (Hl 0%nat q eq_refl) as Hq.
    assert (Eb : before c (q :: plan) (S k) = c q + before c plan k) by done. rewrite Eb. split; [lia|].
    rewrite lookup_app_r by lia. replace (Z.to_nat (c q + before c plan k) + j - length (f 0%nat q))%nat with (Z.to_nat (before c plan k) + j)%nat by lia. done.
Qed.
End Entries.

(** * What each request computes *)

(** A row's slot and its number of scheduled tokens. *)
Notation Work := (Slot * Z)%type.
Definition wk_start (p : Work) : Z := rs_num_computed_tokens (sl_state p.1).
Definition wk_tokens (p : Work) : list Z := slot_tokens p.1 ++ sl_spec p.1.

(** The positions, tokens and slots of a request in a step. *)
Definition wk_positions (p : Work) : list Z := seqZ (wk_start p) p.2.
Lemma length_wk p : length (wk_positions p) = Z.to_nat p.2.
Proof. apply length_seqZ. Qed.

Definition wk_input_ids (p : Work) : list Z := take (Z.to_nat p.2) (drop (Z.to_nat (wk_start p)) (wk_tokens p)).
Definition wk_slots (bs : Z) (g : nat) (p : Work) : list (option Z) :=
  token_slot bs (default [] (rs_block_ids (sl_state p.1) !! g)) <$> wk_positions p.

(** The positions of a request are those of its tokens, and its blocks cover
    them. *)
Definition covers (t : BlockTable) (ids : list Z) (p : Work) : Prop :=
  dcp_world_size t = 1 /\ 0 < bt_block_size t /\ blocks_small t ids /\ wk_start p + p.2 <= bt_block_size t * zlen ids.

Record work_ok (b : InputBatch) (p : Work) : Prop := {
  wo_count : 0 < p.2;
  wo_start : 0 <= wk_start p;
  wo_tokens : wk_start p + p.2 <= zlen (wk_tokens p);
  wo_blocks : Forall2 (fun t ids => covers t ids p) (block_table b) (rs_block_ids (sl_state p.1))
}.

(** [plan] has the slot and the count of each row. *)
Definition plan_of (V : gmap string Slot) (sched : list (string * Z)) (b : InputBatch) (plan : list Work) : Prop :=
  Forall2 (fun o p => exists id, o = Some id /\ V !! id = Some p.1 /\ dget id sched = Some p.2) (req_ids_ b) plan.

Lemma size_dense b V cfg : core_inv cfg V b -> dense b -> num_reqs b = length (req_ids_ b).
Proof.
  intros HC Hd. unfold num_reqs. rewrite (size_omap (req_ids_ b) (req_id_to_index b) (ci_index _ _ _ HC)). clear HC. unfold dense in Hd.
  induction Hd as [|[x|] l Hx _ IH]; cbn; [done|by rewrite IH|done].
Qed.

Lemma Forall2_replicate {A B} (R : A -> B -> Prop) n x y : R x y -> Forall2 R (replicate n x) (replicate n y).
Proof. intros H. induction n; cbn; by constructor. Qed.

Lemma pyindex_at {A} (l : list A) k x : l !! k = Some x -> pyindex l (Z.of_nat k) = Ok x.
Proof. intros E. by rewrite pyindex_nat, E. Qed.

Section Prepare.
Context (cfg : RunnerConfig) (arange_len : nat) (V : gmap string Slot) (b : InputBatch) (out : SchedulerOutput) (plan : list Work).
Notation bcfg := (batch_config cfg).
Context (HB : batch_inv bcfg V b) (HP : plan_of V (so_num_scheduled_tokens out) b plan) (HW : Forall (work_ok b) plan).

(** The arrays of a row. *)
Lemma plan_row k p : plan !! k = Some p -> exists r, rows b !! k = Some r /\ row_ok bcfg p.1 r /\ length (token_ids_cpu r) = batch_max_model_len bcfg /\
  rows_are (block_table b) k (rs_block_ids (sl_state p.1)) /\ work_ok b p /\ (k < max_num_reqs bcfg)%nat.
Proof.
  intros E. pose proof (proj1 (Forall_lookup _ _) HW _ _ E) as Hw. destruct (Forall2_lookup_r _ _ _ _ _ HP E) as (o & Eo & id & -> & Hv & _).
  pose proof (bi_core _ _ _ HB) as HC. destruct (ci_slot _ _ _ HC _ _ Eo) as (s & Hs & [_ _ (r & Er & Hr) Hb _]). rewrite Hv in Hs. injection Hs as <-.
  exists r. split_and!; try done; [by apply (proj1 (Forall_lookup _ _) (ci_width _ _ _ HC) _ _ Er)|].
  apply lookup_lt_Some in Er. by rewrite (ci_rows _ _ _ HC) in Er.
Qed.

Lemma plan_length : length plan = length (req_ids_ b).
Proof. symmetry. by apply Forall2_length in HP. Qed.

Lemma plan_reqs : num_reqs b = length plan.
Proof.
  rewrite plan_length. apply (size_dense b V bcfg); [apply HB|]. unfold dense. apply Forall_lookup. intros k o E.
  destruct (Forall2_lookup_l _ _ _ _ _ HP E) as (p & _ & id & -> & _). done.
Qed.

Lemma plan_counts : mapM_res (fun o => id ← get_or KeyError o; get_or KeyError (dget (id : string) (so_num_scheduled_tokens out))) (req_ids_ b) = Ok plan.*2.
Proof.
  apply mapM_ok. apply Forall2_fmap_r. eapply Forall2_impl; [exact HP|]. cbn. intros o p (id & -> & _ & E). cbn. by rewrite E.
Qed.

Lemma counts_pos : Forall (Z.le 0) plan.*2.
Proof. apply Forall_fmap. eapply Forall_impl; [exact HW|]. intros p [H _ _ _]. cbn. lia. Qed.

Definition indices : list Z := blocks (fun k p => replicate (Z.to_nat p.2) (Z.of_nat k)) plan.
Definition positions : list Z := blocks (fun _ p => wk_positions p) plan.

Lemma repeat_indices : (length plan <= arange_len)%nat -> np_repeat (take (length plan) (seqZ 0 (Z.of_nat arange_len))) plan.*2 = Ok indices.
Proof.
  intros H. rewrite np_repeat_ok; [|apply counts_pos|rewrite length_fmap, length_take, length_seqZ; lia]. unfold indices, blocks. do 2 f_equal.
  apply list_eq. intros k. rewrite lookup_zip_with, list_lookup_imap, list_lookup_fmap. destruct (plan !! k) as [p|] eqn:E; cbn.
  - apply lookup_lt_Some in E. rewrite lookup_take_lt, lookup_seqZ_lt by lia. cbn. do 2 f_equal.
  - by destruct (take _ _ !! k).
Qed.

Lemma gather_computed : mapM_res (pyindex (num_computed_tokens_cpu <$> rows b)) indices = Ok (blocks (fun _ p => replicate (Z.to_nat p.2) (wk_start p)) plan).
Proof.
  apply blocks_mapM. intros k p E. apply Forall2_replicate. destruct (plan_row k p E) as (r & Er & Hr & _).
  apply pyindex_at. rewrite list_lookup_fmap, Er. cbn. by rewrite (ro_computed _ _ _ Hr).
Qed.

Lemma zip_add_seqZ c n m : (Z.to_nat n <= m)%nat -> zip_with Z.add (replicate m c) (seqZ 0 n) = seqZ c n.
Proof.
  intros H. apply list_eq. intros i. rewrite lookup_zip_with. destruct (decide (Z.of_nat i < n)) as [Hi|Hi].
  - rewrite lookup_replicate_2, !lookup_seqZ_lt by lia. cbn. f_equal; lia.
  - rewrite !lookup_seqZ_ge by lia. by destruct (replicate m c !! i).
Qed.

Lemma sum_positions : np_op Z.add (blocks (fun _ p => replicate (Z.to_nat p.2) (wk_start p)) plan) (concat (seqZ 0 <$> plan.*2)) = Ok positions.
Proof.
  replace (concat (seqZ 0 <$> plan.*2)) with (blocks (fun _ p => seqZ 0 p.2) plan).
  - rewrite blocks_op by (intros; by rewrite length_replicate, length_seqZ). f_equal. apply blocks_ext. intros k p _. apply zip_add_seqZ. lia.
  - unfold blocks. f_equal. apply list_eq. intros k. rewrite list_lookup_imap, !list_lookup_fmap. by destruct (plan !! k).
Qed.

Lemma length_positions : Z.of_nat (length positions) = total plan.*2.
Proof.
  unfold positions, blocks. pose proof counts_pos as Hp. clear HP HW HB. revert Hp. induction plan as [|p l IH]; intros H; [done|].
  cbn. rewrite length_app, Nat2Z.inj_add. cbn in H. apply Forall_cons in H as [H1 H2]. unfold compose in IH |- *. cbn in IH |- *. rewrite (IH H2).
  unfold wk_positions. rewrite length_seqZ. unfold total. cbn. lia.
Qed.

Lemma fill_slice_ok l n : Z.of_nat (length l) = n -> fill_slice (Z.to_nat n) l = Ok l.
Proof. intros <-. unfold fill_slice. by rewrite Nat2Z.id, Nat.eqb_refl. Qed.

(** ** Token ids *)

Lemma zip_add_replicate c n m v : (Z.to_nat n <= m)%nat -> zip_with Z.add (seqZ c n) (replicate m v) = seqZ (c + v) n.
Proof.
  intros H. apply list_eq. intros i. rewrite lookup_zip_with. destruct (decide (Z.of_nat i < n)) as [Hi|Hi].
  - rewrite lookup_replicate_2, !lookup_seqZ_lt by lia. cbn. f_equal; lia.
  - by rewrite !lookup_seqZ_ge by lia.
Qed.

Lemma token_indices_eq : np_op Z.add positions (map (fun i => i * Z.of_nat (batch_max_model_len bcfg)) indices) =
  Ok (blocks (fun k p => seqZ (wk_start p + Z.of_nat k * Z.of_nat (batch_max_model_len bcfg)) p.2) plan).
Proof.
  unfold positions, indices. rewrite blocks_map. rewrite blocks_op.
  - f_equal. apply blocks_ext. intros k p _. change (map ?f (replicate ?m ?x)) with (f <$> replicate m x). rewrite fmap_replicate. apply zip_add_replicate. lia.
  - intros k p _. by rewrite length_map, length_replicate, length_wk.
Qed.

Lemma gather_tokens : index_select (concat (token_ids_cpu <$> rows b)) (blocks (fun k p => seqZ (wk_start p + Z.of_nat k * Z.of_nat (batch_max_model_len bcfg)) p.2) plan) =
  Ok (blocks (fun _ p => wk_input_ids p) plan).
Proof.
  apply blocks_mapM. intros k p E. destruct (plan_row k p E) as (r & Er & Hr & Hlen & _ & [W1 W2 W3 _] & _).
  destruct (ro_tokens _ _ _ Hr) as [rest Hpre]. fold (wk_tokens p) in Hpre. unfold zlen in W3.
  apply Forall2_same_length_lookup. unfold wk_input_ids. rewrite length_seqZ, length_take, length_drop. split; [lia|]. intros j x y Hx Hy.
  apply lookup_seqZ in Hx as [-> Hj]. rewrite lookup_take_lt, lookup_drop in Hy by lia.
  set (M := batch_max_model_len bcfg) in *. destruct (_ <? 0) eqn:E0; [apply Z.ltb_lt in E0; nia|].
  assert (Hfit : (length (wk_tokens p) <= M)%nat) by (rewrite <-Hlen, Hpre, length_app; lia).
  replace (Z.to_nat (wk_start p + Z.of_nat k * Z.of_nat M + Z.of_nat j)) with (k * M + (Z.to_nat (wk_start p) + j))%nat by nia.
  rewrite (concat_row M (token_ids_cpu <$> rows b) k _ (token_ids_cpu r)); [|apply Forall_fmap, (ci_width _ _ _ (bi_core _ _ _ HB))|by rewrite list_lookup_fmap, Er|lia].
  rewrite Hpre, lookup_app_l by lia. by rewrite Hy.
Qed.

(** ** Slots *)

Definition wk_slot (t : BlockTable) (g : nat) (p : Work) (pos : Z) : Z :=
  default 0 (token_slot (bt_block_size t) (default [] (rs_block_ids (sl_state p.1) !! g)) pos).

Lemma wk_slot_spec t g k p pos : block_table b !! g = Some t -> plan !! k = Some p -> pos ∈ wk_positions p ->
  exists ids, rs_block_ids (sl_state p.1) !! g = Some ids /\ row_is t k ids /\ covers t ids p /\
    token_slot (bt_block_size t) ids pos = Some (wk_slot t g p pos) /\ 0 <= pos.
Proof.
  intros Et E Hpos. apply elem_of_seqZ in Hpos. destruct (plan_row k p E) as (r & _ & _ & _ & Hrows & [W1 W2 W3 W4] & _).
  destruct (Forall2_lookup_l _ _ _ _ _ Hrows Et) as (ids & Eids & Hrow). pose proof (Forall2_lookup_lr _ _ _ _ _ _ W4 Et Eids) as Hcov.
  exists ids. pose proof Hcov as (Hdcp & Hbs & Hsmall & Hlen). split_and!; try done; [|lia]. unfold wk_slot. rewrite Eids. cbn. unfold token_slot, zlen in *.
  destruct (lookup_lt_is_Some_2 ids (Z.to_nat (pos / bt_block_size t))) as [blk Eb]; [|by rewrite Eb].
  assert (pos / bt_block_size t < Z.of_nat (length ids)) by (apply Z.div_lt_upper_bound; lia).
  pose proof (Z.div_pos pos (bt_block_size t) ltac:(lia) Hbs). lia.
Qed.

Lemma indices_length : length indices = length positions.
Proof. apply length_concat_same, imap_Forall2. intros k p _. by rewrite length_replicate, length_wk. Qed.

Lemma zip_indices : zip indices positions = blocks (fun k p => zip (replicate (Z.to_nat p.2) (Z.of_nat k)) (wk_positions p)) plan.
Proof.
  pose proof (blocks_op pair (fun k (p : Work) => replicate (Z.to_nat p.2) (Z.of_nat k)) (fun _ p => wk_positions p) plan) as Hop.
  rewrite np_op_ok in Hop by exact indices_length. assert (Hb := Hop ltac:(intros k p _; by rewrite length_replicate, length_wk)). by injection Hb.
Qed.

Lemma slots_of_table t g : block_table b !! g = Some t -> total plan.*2 <= Z.of_nat (max_num_batched_tokens t) ->
  exists l, compute_slot_mapping indices positions t = Ok l /\ map Some l = blocks (fun _ p => wk_slots (bt_block_size t) g p) plan.
Proof.
  intros Et Hmax. pose proof (proj1 (Forall_lookup _ _) (ci_tables _ _ _ (bi_core _ _ _ HB)) _ _ Et) as Htab.
  exists (blocks (fun _ p => wk_slot t g p <$> wk_positions p) plan). split.
  - unfold compute_slot_mapping. rewrite np_zip_ok by apply indices_length. cbn [mbind result_bind]. rewrite zip_indices.
    rewrite (blocks_mapM _ _ (fun _ p => wk_slot t g p <$> wk_positions p)).
    + cbn [mbind result_bind]. assert (El : length (blocks (fun _ p => wk_slot t g p <$> wk_positions p) plan) = length indices).
      { apply length_concat_same, imap_Forall2. intros k p _. by rewrite length_fmap, length_replicate, length_wk. }
      pose proof length_positions as Hp. rewrite El, indices_length, Nat.min_l by lia. by rewrite Nat.eqb_refl.
    + intros k p E. apply Forall2_same_length_lookup. rewrite length_zip_with, length_replicate, length_fmap, length_wk. split; [lia|].
      intros j [i pos] y Hz Hy. rewrite list_lookup_fmap in Hy. apply lookup_zip_with_Some in Hz as (i' & pos' & [= -> ->] & Hi & Hpos).
      apply lookup_replicate in Hi as [-> _]. rewrite Hpos in Hy. cbn in Hy. injection Hy as <-.
      destruct (wk_slot_spec t g k p pos' Et E ltac:(by eapply list_elem_of_lookup_2)) as (ids & Eids & Hrow & (Hd & Hbs & Hsm & _) & Hs & H0).
      by apply (slot_of_spec _ t k ids pos' _ Htab Hrow Hd Hbs Hsm H0 Hs).
  - rewrite blocks_map. apply blocks_ext. intros k p E. unfold wk_slots. change (map Some (wk_slot t g p <$> wk_positions p)) with (Some <$> (wk_slot t g p <$> wk_positions p)).
    rewrite <-list_fmap_compose. apply list_fmap_ext. intros j pos Hj. cbn.
    destruct (wk_slot_spec t g k p pos Et E ltac:(by eapply list_elem_of_lookup_2)) as (ids & Eids & _ & _ & Hs & _). by rewrite Eids.
Qed.
End Prepare.

(** * Draft tokens *)

Definition wk_drafts (p : Work) : Z := zlen (sl_spec p.1).
Definition wk_sampled (p : Work) : Z := wk_drafts p + 1.

(** The scheduled tokens end with the drafts, after at least one token. *)
Definition drafts_last (p : Work) : Prop :=
  wk_sampled p <= p.2 /\ 0 <= wk_start p /\ (0 < wk_drafts p -> wk_start p + p.2 = zlen (wk_tokens p)) /\ wk_start p + p.2 <= zlen (wk_tokens p).

Section Drafts.
Context (plan : list Work) (HD : Forall drafts_last plan).

(** The sampled rows of logits: the last ones of each request. *)
Definition sampled_rows : list Z := blocks (fun k p => seqZ (before snd plan k + p.2 - wk_sampled p) (wk_sampled p)) plan.

Lemma drafts_nonneg (p : Work) : 0 <= wk_drafts p.
Proof. apply zlen_nonneg. Qed.

Lemma sampled_le l : Forall drafts_last l -> total (wk_sampled <$> l) <= total l.*2 /\ total (wk_drafts <$> l) <= total l.*2.
Proof.
  unfold total. induction 1 as [|p l [Hp _] _ [IH1 IH2]]; cbn; [lia|]. unfold wk_sampled in *. pose proof (drafts_nonneg p). lia.
Qed.

Lemma zip_rep_seq (f : nat -> Work -> Z) (c : Work -> Z) : Forall (fun p => 0 <= c p) plan ->
  np_op Z.add (blocks (fun k p => replicate (Z.to_nat (c p)) (f k p)) plan) (blocks (fun _ p => seqZ 0 (c p)) plan) = Ok (blocks (fun k p => seqZ (f k p) (c p)) plan).
Proof.
  intros H. rewrite blocks_op by (intros; by rewrite length_replicate, length_seqZ). f_equal. apply blocks_ext. intros k p _. apply zip_add_seqZ. lia.
Qed.

(** The last tokens of a request's input: one token, then the drafts. *)
Lemma input_ids_length p : drafts_last p -> Z.of_nat (length (wk_input_ids p)) = p.2.
Proof.
  intros (H1 & H2 & _ & H4). unfold wk_input_ids, zlen, wk_sampled in *. pose proof (drafts_nonneg p). rewrite length_take, length_drop. lia.
Qed.

Lemma draft_lookup p j x : drafts_last p -> sl_spec p.1 !! j = Some x -> wk_input_ids p !! (Z.to_nat (p.2 - wk_drafts p) + j)%nat = Some x.
Proof.
  intros (H1 & H2 & H3 & H4) Ej. pose proof (lookup_lt_Some _ _ _ Ej) as Hj. unfold wk_drafts, wk_sampled, wk_drafts, zlen in *. specialize (H3 ltac:(lia)).
  unfold wk_input_ids. rewrite lookup_take_lt, lookup_drop by lia. unfold wk_tokens in *. rewrite length_app in H3.
  rewrite lookup_app_r by lia. rewrite <-Ej. f_equal. lia.
Qed.

Definition last_inputs (p : Work) : list Z := drop (Z.to_nat (p.2 - wk_sampled p)) (wk_input_ids p).

Lemma gather_last : mapM_res (pyindex (blocks (fun _ p => wk_input_ids p) plan)) sampled_rows = Ok (blocks (fun _ p => last_inputs p) plan).
Proof.
  apply blocks_mapM. intros k p E. pose proof (proj1 (Forall_lookup _ _) HD _ _ E) as Hp. pose proof (input_ids_length p Hp) as Hl.
  pose proof Hp as (H1 & H2 & _). pose proof (drafts_nonneg p). unfold wk_sampled in *. apply Forall2_same_length_lookup. unfold last_inputs, wk_sampled.
  rewrite length_seqZ, length_drop. split; [lia|]. intros j i y Hi Hy. apply lookup_seqZ in Hi as [-> Hj]. rewrite lookup_drop in Hy.
  destruct (blocks_lookup snd plan (fun _ p => wk_input_ids p) k p (Z.to_nat (p.2 - (wk_drafts p + 1)) + j)%nat y) as [B1 B2]; [|done|exact Hy|].
  { intros k' p' E'. apply input_ids_length. by apply (proj1 (Forall_lookup _ _) HD k'). }
  replace (before snd plan k + p.2 - (wk_drafts p + 1) + Z.of_nat j) with (Z.of_nat (Z.to_nat (before snd plan k) + (Z.to_nat (p.2 - (wk_drafts p + 1)) + j))) by lia.
  by apply pyindex_at.
Qed.

Lemma gather_drafts : mapM_res (pyindex (blocks (fun _ p => last_inputs p) plan)) (map (fun i => i + 1) (blocks (fun k p => seqZ (before wk_sampled plan k) (wk_drafts p)) plan))
  = Ok (blocks (fun _ p => sl_spec p.1) plan).
Proof.
  rewrite blocks_map. apply blocks_mapM. intros k p E. pose proof (proj1 (Forall_lookup _ _) HD _ _ E) as Hp. pose proof Hp as (H1 & H2 & _).
  pose proof (drafts_nonneg p). unfold wk_sampled in H1. apply Forall2_same_length_lookup. rewrite length_map, length_seqZ. split; [unfold wk_drafts, zlen; lia|].
  intros j i y Hi Hy. change (map ?h ?l) with (h <$> l) in Hi. rewrite list_lookup_fmap in Hi. apply fmap_Some in Hi as (i' & Hi & ->). apply lookup_seqZ in Hi as [-> Hj].
  destruct (blocks_lookup wk_sampled plan (fun _ p => last_inputs p) k p (S j) y) as [B1 B2]; [|done| |].
  - intros k' p' E'. pose proof (proj1 (Forall_lookup _ _) HD _ _ E') as Hp'. pose proof (input_ids_length p' Hp'). pose proof Hp' as (H1' & _). pose proof (drafts_nonneg p').
    unfold last_inputs, wk_sampled in *. rewrite length_drop. lia.
  - unfold last_inputs, wk_sampled. rewrite lookup_drop. rewrite <-(draft_lookup p j y Hp Hy). f_equal. lia.
  - replace (before wk_sampled plan k + Z.of_nat j + 1) with (Z.of_nat (Z.to_nat (before wk_sampled plan k) + S j)) by lia. by apply pyindex_at.
Qed.

Lemma spec_metadata_spec len : plan ≠ [] -> total plan.*2 <= Z.of_nat len ->
  calc_spec_decode_metadata len (blocks (fun _ p => wk_input_ids p) plan) (wk_drafts <$> plan) (cumsum plan.*2) =
  Ok (mkSpecMeta (blocks (fun _ p => sl_spec p.1) plan) (wk_drafts <$> plan) (cumsum (wk_drafts <$> plan))
    (blocks (fun k p => seqZ (before wk_sampled plan k) (wk_drafts p)) plan) (imap (fun k p => before wk_sampled plan k + wk_drafts p) plan) sampled_rows).
Proof.
  intros Hne Hlen. destruct (sampled_le plan HD) as [T1 T2].
  assert (P1 : Forall (fun p => 0 <= wk_sampled p) plan) by (apply Forall_true; intros p; pose proof (drafts_nonneg p); unfold wk_sampled; lia).
  assert (P2 : Forall (fun p => 0 <= wk_drafts p) plan) by (apply Forall_true; intros p; apply drafts_nonneg).
  unfold calc_spec_decode_metadata. replace (map (fun n => n + 1) (wk_drafts <$> plan)) with (wk_sampled <$> plan).
  2: { change (map ?h ?l) with (h <$> l). by rewrite <-list_fmap_compose. }
  rewrite (cumsum_and_arange_spec len (wk_sampled <$> plan)); [|by destruct plan|by apply Forall_fmap|lia]. cbn [mbind result_bind].
  rewrite !cumsum_entries. rewrite (fmap_entries wk_sampled) at 1. rewrite op_entries. cbn [mbind result_bind].
  rewrite repeat_entries by done. cbn [mbind result_bind]. rewrite arange_entries, zip_rep_seq by done. cbn [mbind result_bind].
  rewrite (cumsum_and_arange_spec len (wk_drafts <$> plan)); [|by destruct plan|by apply Forall_fmap|lia]. cbn [mbind result_bind].
  rewrite (fmap_entries wk_sampled) at 1. rewrite op_entries. cbn [mbind result_bind]. rewrite repeat_entries by done. cbn [mbind result_bind].
  rewrite arange_entries, zip_rep_seq by done. cbn [mbind result_bind]. fold sampled_rows. rewrite gather_last. cbn [mbind result_bind].
  rewrite (blocks_ext (fun k p => seqZ (before wk_sampled plan k + wk_sampled p - wk_sampled p) (wk_drafts p)) (fun k p => seqZ (before wk_sampled plan k) (wk_drafts p)))
    by (intros; f_equal; lia).
  rewrite gather_drafts. cbn [mbind result_bind]. rewrite map_entries, cumsum_entries. do 2 f_equal. apply imap_ext. intros. unfold wk_sampled. lia.
Qed.
End Drafts.

(** * All inputs *)

Lemma set_counts (idx : gmap string nat) (ps : list (string * list Z)) : (forall id id' i, idx !! id = Some i -> idx !! id' = Some i -> id = id') -> forall l,
  NoDup ps.*1 -> (forall id toks, (id, toks) ∈ ps -> exists i, idx !! id = Some i /\ (i < length l)%nat) ->
  exists l', foldM (fun l p => i ← get_or KeyError (idx !! (p.1 : string)); np_alter i (fun _ => Ok (zlen (p.2 : list Z))) l) l ps = Ok l' /\ length l' = length l /\
    (forall id toks i, (id, toks) ∈ ps -> idx !! id = Some i -> l' !! i = Some (zlen toks)) /\
    (forall i, (forall id toks, (id, toks) ∈ ps -> idx !! id ≠ Some i) -> l' !! i = l !! i).
Proof.
  intros Hinj. induction ps as [|[id toks] ps IH]; intros l Hnd Hin.
  { exists l. split_and!; try done. by intros ??? ?%elem_of_nil. }
  cbn in Hnd. apply NoDup_cons in Hnd as [Hni Hnd]. destruct (Hin id toks) as (i & Ei & Hi); [by left|]. cbn [foldM fst snd]. rewrite Ei. cbn [get_or mbind result_bind].
  destruct (lookup_lt_is_Some_2 l i Hi) as [x Ex]. rewrite (np_alter_ok i (fun _ => Ok (zlen toks)) l x (zlen toks) Ex eq_refl). cbn [mbind result_bind].
  destruct (IH (<[i := zlen toks]> l) Hnd) as (l' & E & Hl & H1 & H2).
  { intros id' toks' Hin'. rewrite length_insert. apply (Hin id' toks'). by right. }
  exists l'. rewrite length_insert in Hl. split_and!; try done.
  - intros id' toks' i' [[= -> ->]|Hin']%elem_of_cons Ei'; [|by apply (H1 id')]. rewrite Ei in Ei'. injection Ei' as <-. rewrite H2.
    + by apply list_lookup_insert_eq.
    + intros id' toks' Hin' E'. assert (id' = id) as -> by (by eapply Hinj). apply Hni. apply list_elem_of_fmap. by exists (id, toks').
  - intros i' Hno. rewrite H2 by (intros id' toks' Hin'; apply (Hno id' toks'); by right). apply list_lookup_insert_ne. intros <-. by apply (Hno id toks); [left|].
Qed.

(** The slots of each group, request by request. *)
Definition slots_right (b : InputBatch) (plan : list Work) (slots : list (list Z)) : Prop :=
  length slots = length (block_table b) /\
  forall g t l, block_table b !! g = Some t -> slots !! g = Some l -> map Some l = blocks (fun _ p => wk_slots (bt_block_size t) g p) plan.

(** What the inputs of a step are, request by request. *)
Record inputs_right (cfg : RunnerConfig) (b : InputBatch) (plan : list Work) (inp : ModelInputs) : Prop := {
  ir_counts : in_num_scheduled inp = plan.*2;
  ir_indices : in_req_indices inp = blocks (fun k p => replicate (Z.to_nat p.2) (Z.of_nat k)) plan;
  ir_positions : in_positions inp = blocks (fun _ p => wk_positions p) plan;
  ir_token_ids : in_token_ids inp = blocks (fun _ p => wk_input_ids p) plan;
  ir_slots : slots_right b plan (in_slots inp);
  ir_query_start : in_query_start_loc inp = 0 :: cumsum plan.*2 ++ replicate (max_num_reqs (batch_config cfg) - length plan) (total plan.*2);
  ir_seq_lens : in_seq_lens inp = ((fun p => wk_start p + p.2) <$> plan) ++ replicate (max_num_reqs (batch_config cfg) - length plan) 0;
  ir_logits : in_logits_indices inp = sampled_rows plan;
  ir_drafts : forall m, in_spec_metadata inp = Some m -> draft_token_ids m = blocks (fun _ p => sl_spec p.1) plan /\
    num_draft_tokens m = wk_drafts <$> plan /\ cu_num_draft_tokens m = cumsum (wk_drafts <$> plan) /\
    bonus_logits_indices m = imap (fun k p => before wk_sampled plan k + wk_drafts p) plan /\
    target_logits_indices m = blocks (fun k p => seqZ (before wk_sampled plan k) (wk_drafts p)) plan
}.

(** The drafts of the scheduler are those of the rows. *)
Definition drafts_known (out : SchedulerOutput) (b : InputBatch) (plan : list Work) : Prop :=
  (forall id, is_Some (so_spec_decode_tokens out !! id) -> is_Some (req_id_to_index b !! id)) /\
  (forall k id p, req_ids_ b !! k = Some (Some id) -> plan !! k = Some p -> sl_spec p.1 = spec_of out id).

Section All.
Context (cfg : RunnerConfig) (arange_len : nat) (V : gmap string Slot) (b : InputBatch) (out : SchedulerOutput) (plan : list Work).
Notation bcfg := (batch_config cfg).
Context (HB : batch_inv bcfg V b) (HP : plan_of V (so_num_scheduled_tokens out) b plan) (HW : Forall (work_ok b) plan).
Context (HK : drafts_known out b plan).

Lemma draft_counts_spec : draft_counts out b = Ok (wk_drafts <$> plan).
Proof.
  destruct HK as [K1 K2]. pose proof (bi_core _ _ _ HB) as HC. unfold draft_counts. rewrite (plan_reqs cfg V b out plan HB HP).
  assert (Hix : forall id i, req_id_to_index b !! id = Some i -> (i < length plan)%nat).
  { intros id i Hi. apply (ci_index _ _ _ HC) in Hi. apply lookup_lt_Some in Hi. by rewrite (plan_length V b out plan HP). }
  destruct (set_counts (req_id_to_index b) (map_to_list (so_spec_decode_tokens out)) ltac:(intros id id' i; by apply (index_inj bcfg V b)) (replicate (length plan) 0))
    as (l' & E & Hl & H1 & H2).
  { apply NoDup_fst_map_to_list. }
  { intros id toks Hin%elem_of_map_to_list. destruct (K1 id) as [i Hi]; [eauto|]. exists i. rewrite length_replicate. eauto. }
  rewrite E. f_equal. apply list_eq. intros k. rewrite list_lookup_fmap. destruct (plan !! k) as [p|] eqn:Ek; cbn.
  2: { apply lookup_ge_None_2. rewrite Hl, length_replicate. by apply lookup_ge_None_1. }
  destruct (Forall2_lookup_r _ _ _ _ _ HP Ek) as (o & Eo & id & -> & _). pose proof (K2 k id p Eo Ek) as Hs. pose proof (proj2 (ci_index _ _ _ HC id k) Eo) as Hid.
  unfold wk_drafts. rewrite Hs. unfold spec_of. destruct (so_spec_decode_tokens out !! id) as [toks|] eqn:Es; cbn.
  - apply (H1 id toks k); [by apply elem_of_map_to_list|done].
  - rewrite H2; [apply lookup_replicate_2; by eapply lookup_lt_Some|]. intros id' toks Hin Hid'. assert (id' = id) as -> by (by eapply (index_inj bcfg V b)).
    apply elem_of_map_to_list in Hin. congruence.
Qed.

Lemma all_slots : Forall (fun t => total plan.*2 <= Z.of_nat (max_num_batched_tokens t)) (block_table b) ->
  exists ls, multi_compute_slot_mapping (indices plan) (positions plan) (block_table b) = Ok ls /\ slots_right b plan ls.
Proof.
  intros Hmax. unfold multi_compute_slot_mapping.
  assert (H : forall ts n, (forall i t, ts !! i = Some t -> block_table b !! (n + i)%nat = Some t) -> exists ls, mapM_res (compute_slot_mapping (indices plan) (positions plan)) ts = Ok ls /\
    length ls = length ts /\ forall i t l, ts !! i = Some t -> ls !! i = Some l -> map Some l = blocks (fun _ p => wk_slots (bt_block_size t) (n + i) p) plan); [|by apply (H _ 0%nat)].
  induction ts as [|t ts IH]; intros n Hin; [by exists []|]. destruct (IH (S n)) as (ls & E & Hlen & HF); [intros i t' Ht'; rewrite Nat.add_succ_comm; by apply (Hin (S i))|].
  pose proof (Hin 0%nat t eq_refl) as Et. rewrite Nat.add_0_r in Et. pose proof (proj1 (Forall_lookup _ _) Hmax _ _ Et) as Hm.
  destruct (slots_of_table cfg V b out plan HB HP HW t n Et Hm) as (l & El & Hl). exists (l :: ls). cbn [mapM_res]. rewrite El. cbn [mbind result_bind]. rewrite E.
  split; [done|]. split; [cbn; by rewrite Hlen|]. intros [|i] t' l' E1 E2; cbn in E1, E2; [injection E1 as <-; injection E2 as <-; by rewrite Nat.add_0_r|].
  rewrite <-Nat.add_succ_comm. by apply HF.
Qed.

Lemma total_pos : plan ≠ [] -> 0 < total plan.*2.
Proof.
  intros Hne. clear -Hne HW. destruct HW as [|p l [Hp _ _ _] Hl]; [done|]. cbn. unfold total. cbn. assert (0 <= total l.*2); [|unfold total in *; lia].
  apply total_nonneg, Forall_fmap. eapply Forall_impl; [exact Hl|]. intros q [? _ _ _]. cbn. lia.
Qed.

Lemma seq_lens_spec : np_op Z.add (num_computed_tokens_cpu <$> take (length plan) (rows b)) plan.*2 = Ok ((fun p => wk_start p + p.2) <$> plan).
Proof.
  assert (Er : num_computed_tokens_cpu <$> take (length plan) (rows b) = wk_start <$> plan).
  { apply list_eq. intros k. rewrite !list_lookup_fmap. destruct (plan !! k) as [p|] eqn:E.
    - destruct (plan_row cfg V b out plan HB HP HW k p E) as (r & Er & Hr & _). rewrite lookup_take_lt by (by eapply lookup_lt_Some). rewrite Er. cbn.
      by rewrite (ro_computed _ _ _ Hr).
    - rewrite lookup_take_ge; [done|]. by apply lookup_ge_None_1. }
  rewrite Er, (fmap_entries wk_start), (fmap_entries snd), op_entries. f_equal. symmetry. apply (fmap_entries (fun p => wk_start p + p.2)).
Qed.

Lemma fill_slice_same (l : list Z) n : length l = n -> fill_slice n l = Ok l.
Proof. intros <-. unfold fill_slice. by rewrite Nat.eqb_refl. Qed.

(** Without drafts one row of logits per request is sampled, its last. *)
Lemma single_rows : so_spec_decode_tokens out = ∅ -> map (fun x => x - 1) (cumsum plan.*2) = sampled_rows plan.
Proof.
  intros Hemp. assert (Hno : forall k p, plan !! k = Some p -> wk_drafts p = 0).
  { intros k p E. destruct (Forall2_lookup_r _ _ _ _ _ HP E) as (o & Eo & id & -> & _). destruct HK as [_ K2]. unfold wk_drafts.
    rewrite (K2 k id p Eo E). unfold spec_of. by rewrite Hemp, lookup_empty. }
  rewrite cumsum_entries, map_entries. unfold sampled_rows.
  rewrite (blocks_ext _ (fun k p => [before snd plan k + p.2 - 1])).
  - by rewrite blocks_single.
  - intros k p E. unfold wk_sampled. rewrite (Hno k p E). done.
Qed.

Lemma prepare_spec : plan ≠ [] -> so_total_num_scheduled_tokens out = total plan.*2 -> total plan.*2 <= Z.of_nat arange_len -> (length plan <= arange_len)%nat ->
  Forall (fun t => total plan.*2 <= Z.of_nat (max_num_batched_tokens t)) (block_table b) -> Forall drafts_last plan ->
  exists inp, prepare_inputs cfg arange_len out b = Ok inp /\ inputs_right cfg b plan inp.
Proof.
  intros Hne Htot Hlen Hrows Hmax HD. destruct (all_slots Hmax) as (slots & Es & Hs). pose proof (total_pos Hne) as Hpos.
  unfold prepare_inputs. rewrite (plan_reqs cfg V b out plan HB HP), Htot.
  rewrite (proj2 (Z.ltb_lt _ _) Hpos). assert (E1 : (0 <? length plan)%nat = true) by (apply Nat.ltb_lt; destruct plan; cbn; [done|lia]).
  rewrite E1. cbn [assert_ mbind result_bind]. rewrite (plan_counts V b out plan HP). cbn [mbind result_bind].
  rewrite (repeat_indices arange_len b plan HW) by done. cbn [mbind result_bind].
  rewrite cumsum_and_arange_spec; [|by destruct plan|by apply (counts_pos b)|done]. cbn [mbind result_bind].
  rewrite (gather_computed cfg V b out plan HB HP HW). cbn [mbind result_bind]. rewrite (sum_positions plan). cbn [mbind result_bind].
  rewrite fill_slice_ok by (by apply (length_positions b plan)). cbn [mbind result_bind]. rewrite (token_indices_eq cfg plan). cbn [mbind result_bind].
  rewrite (gather_tokens cfg V b out plan HB HP HW). cbn [mbind result_bind]. rewrite Es. cbn [mbind result_bind].
  rewrite (fill_slice_same (cumsum plan.*2)) by (unfold cumsum; by rewrite cumsum_length, length_fmap). cbn [mbind result_bind].
  assert (E3 : last (cumsum plan.*2) = Some (total plan.*2)) by (unfold cumsum; rewrite cumsum_last; [done|by destruct plan]).
  rewrite E3. cbn [get_or mbind result_bind]. rewrite seq_lens_spec. cbn [mbind result_bind].
  rewrite fill_slice_same by (by rewrite length_fmap). cbn [mbind result_bind]. destruct (decide (so_spec_decode_tokens out = ∅)) as [Hemp|Hemp].
  - eexists. split; [done|]. split; cbn; try done. by apply single_rows.
  - rewrite draft_counts_spec. cbn [mbind result_bind]. rewrite (spec_metadata_spec plan HD) by done. cbn [mbind result_bind]. eexists. split; [done|].
    split; cbn; try done. by intros m [= <-].
Qed.
End All.
