(* ===== verification/Bookkeeping.v ===== *)
(** Storing the sampled tokens ([_bookkeeping_sync]) keeps the runner consistent:
    each request whose prompt is complete gets its sampled tokens appended in the
    row and in the shared list, the drafts of the step are dropped, and a request
    with an incomplete prompt keeps its tokens. *)
From Stdlib Require Import ZArith Lia String QArith Qcanon.
From stdpp Require Import numbers gmap strings list.
From S2P Require Import Prelude Request BlockTable InputBatch BatchInv LogitsProcs SchedState ModelRunner Reorder RunnerInv ModelInputs InputsSpec.

Open Scope Z_scope.

Section Bookkeeping.
Context (cfg : RunnerConfig).
Notation bcfg := (batch_config cfg).

Lemma runner_ok_view S S' w : view S' w = view S w -> runner_ok cfg S w -> runner_ok cfg S' w.
Proof.
  intros E [H1 H2 H3 H4 H5 H6]. split; try done; [by rewrite E|]. intros Hp. destruct (H6 Hp) as [K1 K2 K3]. split; by rewrite ?E.
Qed.

(** ** One row *)

Lemma store_row_ok s toks r : row_ok bcfg s r -> toks ≠ [] -> length (token_ids_cpu r) = batch_max_model_len bcfg ->
  (length (slot_tokens s) + length toks <= batch_max_model_len bcfg)%nat ->
  exists r', write_tokens (num_tokens_no_spec r) toks (num_tokens_no_spec r + length toks) (num_tokens_no_spec r + length toks) r = Ok r' /\
    row_ok bcfg (mkSlot (sl_state s) (sl_out s ++ toks) []) r' /\ length (token_ids_cpu r') = batch_max_model_len bcfg.
Proof.
  intros [H1 H2 H3 H4 H5 H6 H7] Hne Hlen Hfit. unfold write_tokens. rewrite np_write_ok by (rewrite H3, Hlen; lia). cbn [mbind result_bind].
  eexists. split; [done|]. split; [|cbn [token_ids_cpu]; rewrite np_write_length; [done|rewrite H3, Hlen; lia]].
  split; unfold slot_tokens in *; cbn [sl_state sl_out sl_spec token_ids_cpu row_num_tokens num_tokens_no_spec row_num_prompt_tokens num_computed_tokens_cpu request_lora_mapping sampling_row];
    rewrite ?app_nil_r; try done; rewrite ?H3, ?(app_assoc _ (sl_out s) toks).
  - apply np_write_prefix. etransitivity; [|exact H1]. by apply prefix_app_r.
  - by rewrite (length_app (_ ++ sl_out s)).
  - by rewrite (length_app (_ ++ sl_out s)).
Qed.

Lemma outs_extend ref toks w r : (ref < length (out_lists w))%nat ->
  outs_at (extend_list ref toks w) r = if decide (r = ref) then outs_at w r ++ toks else outs_at w r.
Proof.
  intros H. unfold outs_at, extend_list. cbn. destruct (decide (r = ref)) as [-> |Hne]; [|by rewrite list_lookup_alter_ne].
  rewrite list_lookup_alter_eq. destruct (lookup_lt_is_Some_2 _ _ H) as [l ->]. done.
Qed.

(** The runner after the tokens of request [id] in row [i] are stored. *)
Definition stored (i : nat) (r : Row) (ref : nat) (toks : list Z) (w : Runner) : Runner :=
  extend_list ref toks (set_batch (set_rows (<[i := r]> (rows (input_batch w))) (block_table (input_batch w)) (input_batch w)) w).

Lemma stored_view S w id c i r toks : runner_ok cfg S w -> w_requests w !! id = Some c ->
  view (delete id S) (stored i r (rs_output_token_ids c) toks w) = <[id := mkSlot c (outs_at w (rs_output_token_ids c) ++ toks) []]> (view S w).
Proof.
  intros Hr Hc. pose proof (rn_states _ _ _ Hr id c Hc) as (_ & Href & _). apply map_eq. intros id'. rewrite view_lookup. unfold stored. cbn [w_requests extend_list set_out_lists set_batch].
  destruct (decide (id' = id)) as [-> |Hne].
  - rewrite lookup_insert_eq, Hc, lookup_delete_eq. cbn. unfold slot_of_state. by rewrite outs_extend, decide_True.
  - rewrite lookup_insert_ne, lookup_delete_ne, view_lookup by done. destruct (w_requests w !! id') as [c'|] eqn:Ec'; [|done]. cbn. unfold slot_of_state.
    rewrite outs_extend, decide_False; [done| |done]. intros E. apply Hne. by apply (rn_refs _ _ _ Hr id' id c' c).
Qed.

Lemma min_right_more outs outs' s o : (zlen (outs (rs_output_token_ids (sl_state s))) <= zlen (outs' (rs_output_token_ids (sl_state s)))) -> min_right outs s o -> min_right outs' s o.
Proof. intros H. unfold min_right. destruct (rs_sampling_params _); [|done]. destruct o; [done|]. lia. Qed.

Lemma store_step S w i id c toks : runner_ok cfg S w -> req_ids_ (input_batch w) !! i = Some (Some id) -> w_requests w !! id = Some c -> toks ≠ [] ->
  (length (rs_prompt_token_ids c) + length (outs_at w (rs_output_token_ids c)) + length toks <= batch_max_model_len bcfg)%nat ->
  exists r, store_row cfg w (i, toks) = Ok (stored i r (rs_output_token_ids c) toks w) /\ runner_ok cfg (delete id S) (stored i r (rs_output_token_ids c) toks w).
Proof.
  intros Hr Eo Hc Hne Hfit. pose proof (rn_batch _ _ _ Hr) as HB. pose proof (bi_core _ _ _ HB) as HC.
  destruct (ci_slot _ _ _ HC _ _ Eo) as (s & Hs & [A1 A2 (r & Er & Ar) A4 A5]). pose proof Hs as HV. rewrite view_lookup, Hc in Hs. cbn in Hs. injection Hs as <-.
  pose proof (proj1 (Forall_lookup _ _) (ci_width _ _ _ HC) _ _ Er) as Hw. cbn in Hw. pose proof (ro_no_spec _ _ _ Ar) as Hns.
  destruct (store_row_ok _ toks r Ar Hne Hw) as (r' & Ew & Ar' & Hw').
  { unfold slot_tokens. cbn. rewrite length_app. lia. }
  exists r'. split.
  { unfold store_row. destruct toks as [|t toks]; [done|]. rewrite Er. cbn [get_or mbind result_bind].
    rewrite (proj2 (Nat.leb_le _ _)) by (rewrite Hns; unfold slot_tokens; cbn [sl_state sl_out slot_of_state]; rewrite length_app; lia).
    cbn [assert_ mbind result_bind]. rewrite Ew. cbn [mbind result_bind]. rewrite Eo. cbn [get_or mbind result_bind]. by rewrite Hc. }
  pose proof (rn_states _ _ _ Hr id c Hc) as (Hid & Href & _). destruct Hr as [_ Hd Hbu Hst Hrefs HP].
  assert (Hr : runner_ok cfg S w) by (by split). pose proof (stored_view S w id c i r' toks Hr Hc) as HVs. split; try done.
  - rewrite HVs. eapply batch_update; try done; cbn; try done; [by apply (ci_index _ _ _ HC)|apply HC|by apply tables_kept_refl].
  - intros id' c' Hc'. destruct (Hst id' c' Hc') as (B1 & B2 & B3). split; [done|]. split; [|exact B3]. cbn. by rewrite length_alter.
  - intros Hp. destruct (HP Hp) as [[K1 K2 K3] [K4 K5] K6]. split; [|rewrite HVs|done].
    + split; try done. rewrite HVs. split; [|apply K1]. intros j id' s' Ej. destruct (decide (id' = id)) as [-> |Hn].
      * rewrite lookup_insert_eq. intros [= <-]. pose proof (proj1 K1 j id _ Ej HV) as Hb. done.
      * rewrite lookup_insert_ne by done. by apply (proj1 K1).
    + split; [|exact K5]. intros j id' s' Ej. destruct (decide (id' = id)) as [-> |Hn].
      * rewrite lookup_insert_eq. intros [= <-]. apply (min_right_more (outs_at w)); [|by apply (K4 j id _ Ej HV)]. unfold stored. cbn [sl_state]. rewrite outs_extend by done.
        rewrite decide_True by done. change (outs_at (set_batch _ w)) with (outs_at w). rewrite zlen_app. pose proof (zlen_nonneg toks). lia.
      * rewrite lookup_insert_ne by done. intros Hs'. apply (min_right_more (outs_at w)); [|by apply (K4 j id' _ Ej Hs')].
        unfold stored. rewrite outs_extend by done. destruct (decide _); [|done]. change (outs_at (set_batch _ w)) with (outs_at w). rewrite zlen_app. pose proof (zlen_nonneg toks). lia.
Qed.

(** ** All rows *)

(** The tokens of a request fit into its row. *)
Definition room_for (w : Runner) (i : nat) (toks : list Z) : Prop :=
  exists id c, req_ids_ (input_batch w) !! i = Some (Some id) /\ w_requests w !! id = Some c /\
    (length (rs_prompt_token_ids c) + length (outs_at w (rs_output_token_ids c)) + length toks <= batch_max_model_len bcfg)%nat.

(** The list of output tokens of the request in a row. *)
Definition row_ref (w : Runner) (i : nat) : option nat := id ← mjoin (req_ids_ (input_batch w) !! i); rs_output_token_ids <$> w_requests w !! id.

(** What storing tokens changes: the lists of the rows, and nothing else of what
    the requests are. *)
Record stored_all (ps : list (nat * list Z)) (w w' : Runner) : Prop := {
  st_requests : w_requests w' = w_requests w;
  st_ids : req_ids_ (input_batch w') = req_ids_ (input_batch w);
  st_tables : block_table (input_batch w') = block_table (input_batch w);
  st_outs : forall i toks ref, (i, toks) ∈ ps -> row_ref w i = Some ref -> outs_at w' ref = outs_at w ref ++ toks;
  st_others : forall ref, (forall i toks, (i, toks) ∈ ps -> row_ref w i ≠ Some ref) -> outs_at w' ref = outs_at w ref
}.

Lemma row_ref_inj S w i j ref : runner_ok cfg S w -> row_ref w i = Some ref -> row_ref w j = Some ref -> i = j.
Proof.
  intros Hr. unfold row_ref. intros Hi Hj. destruct (req_ids_ (input_batch w) !! i) as [[id|]|] eqn:Ei; try done. cbn in Hi.
  destruct (req_ids_ (input_batch w) !! j) as [[id'|]|] eqn:Ej; try done. cbn in Hj.
  destruct (w_requests w !! id) as [c|] eqn:Ec; [|done]. destruct (w_requests w !! id') as [c'|] eqn:Ec'; [|done]. cbn in Hi, Hj.
  assert (id = id') as <- by (apply (rn_refs _ _ _ Hr id id' c c'); congruence).
  pose proof (ci_index _ _ _ (bi_core _ _ _ (rn_batch _ _ _ Hr))) as Hix. apply Hix in Ei, Ej. congruence.
Qed.

(** One row, with or without tokens. *)
Lemma store_any S w i id c toks : runner_ok cfg S w -> req_ids_ (input_batch w) !! i = Some (Some id) -> w_requests w !! id = Some c ->
  (length (rs_prompt_token_ids c) + length (outs_at w (rs_output_token_ids c)) + length toks <= batch_max_model_len bcfg)%nat ->
  exists S1 w1, store_row cfg w (i, toks) = Ok w1 /\ runner_ok cfg S1 w1 /\ w_requests w1 = w_requests w /\
    req_ids_ (input_batch w1) = req_ids_ (input_batch w) /\ block_table (input_batch w1) = block_table (input_batch w) /\
    (forall r, outs_at w1 r = if decide (r = rs_output_token_ids c) then outs_at w r ++ toks else outs_at w r) /\
    (forall id', S1 !! id' = S !! id' \/ S1 !! id' = None) /\ (toks ≠ [] -> S1 !! id = None).
Proof.
  intros Hr Eo Hc Hfit. destruct (decide (toks = [])) as [-> |Hne].
  - exists S, w. split_and!; try done; [|by left]. intros r. rewrite app_nil_r. by destruct (decide _).
  - destruct (store_step S w i id c toks Hr Eo Hc Hne Hfit) as (r & E & Hr'). exists (delete id S), (stored i r (rs_output_token_ids c) toks w).
    split_and!; try done; [|intros id'|by rewrite lookup_delete_eq].
    + intros r'. unfold stored. rewrite outs_extend; [done|]. by apply (rn_states _ _ _ Hr id c Hc).
    + destruct (decide (id' = id)) as [-> |Hn]; [right; by rewrite lookup_delete_eq|left; by rewrite lookup_delete_ne].
Qed.

Lemma store_all ps : forall S w, runner_ok cfg S w -> NoDup ps.*1 -> (forall i toks, (i, toks) ∈ ps -> room_for w i toks) ->
  exists S' w', foldM (store_row cfg) w ps = Ok w' /\ runner_ok cfg S' w' /\ stored_all ps w w' /\ (forall id, S' !! id = S !! id \/ S' !! id = None) /\
    (forall i toks id, (i, toks) ∈ ps -> toks ≠ [] -> req_ids_ (input_batch w) !! i = Some (Some id) -> S' !! id = None).
Proof.
  induction ps as [|[i toks] ps IH]; intros S w Hr Hnd Hroom.
  { exists S, w. split_and!; try done; [|by left|by intros ??? ?%elem_of_nil]. split; try done. by intros ??? ?%elem_of_nil. }
  cbn in Hnd. apply NoDup_cons in Hnd as [Hni Hnd]. destruct (Hroom i toks) as (id & c & Eo & Hc & Hfit); [by left|].
  destruct (store_any S w i id c toks Hr Eo Hc Hfit) as (S1 & w1 & E1 & Hr1 & Q1 & Q2 & Q3 & Q4 & Q5 & Q6). cbn [foldM]. rewrite E1. cbn [mbind result_bind].
  assert (Hri : row_ref w i = Some (rs_output_token_ids c)) by (unfold row_ref; rewrite Eo; cbn; by rewrite Hc).
  assert (Hin1 : forall j toks', (j, toks') ∈ ps -> j ∈ ps.*1) by (intros j toks' Hin; apply list_elem_of_fmap; by exists (j, toks')).
  assert (Hother : forall j toks' ref, (j, toks') ∈ ps -> row_ref w j = Some ref -> ref ≠ rs_output_token_ids c).
  { intros j toks' ref Hin Hj ->. assert (j = i) as -> by (by apply (row_ref_inj S w j i _ Hr Hj Hri)). by apply Hni, (Hin1 i toks'). }
  assert (Href1 : forall j, row_ref w1 j = row_ref w j) by (intros j; unfold row_ref; by rewrite Q1, Q2).
  destruct (IH S1 w1 Hr1 Hnd) as (S' & w' & E' & Hr' & [R1 R2 R3 R4 R5] & R6 & R7).
  { intros j toks' Hin. destruct (Hroom j toks') as (id' & c' & Ej & Hc' & Hf'); [by right|]. exists id', c'. rewrite Q1, Q2, Q4, decide_False; [done|].
    apply (Hother j toks' _ Hin). unfold row_ref. rewrite Ej. cbn. by rewrite Hc'. }
  exists S', w'. split_and!; try done.
  - split; [congruence..| |].
    + intros j toks' ref [[= -> ->]|Hin]%elem_of_cons Hj.
      * rewrite Hri in Hj. injection Hj as <-. rewrite R5, Q4, decide_True; [done..|]. intros j toks' Hin Hj. rewrite Href1 in Hj. by apply (Hother j toks' _ Hin Hj).
      * rewrite (R4 j toks' ref Hin) by (by rewrite Href1). rewrite Q4, decide_False; [done|]. by apply (Hother j toks').
    + intros ref Hno. rewrite R5; [|intros j toks' Hin; rewrite Href1; apply (Hno j toks'); by right]. rewrite Q4, decide_False; [done|].
      intros ->. by apply (Hno i toks); [left|].
  - intros id'. destruct (R6 id') as [-> |?]; [apply Q5|by right].
  - intros j toks' id' [[= -> ->]|Hin]%elem_of_cons Hne Ej.
    + rewrite Eo in Ej. injection Ej as <-. destruct (R6 id) as [-> |?]; [by apply Q6|done].
    + apply (R7 j toks'); [done..|]. by rewrite Q2.
Qed.

(** ** The whole step *)

(** The request of a row has more tokens than the step computes. *)
Definition partial (out : SchedulerOutput) (w : Runner) (o : option string) : bool :=
  match (id ← o; c ← w_requests w !! id; n ← dget id (so_num_scheduled_tokens out);
         Some (rs_num_computed_tokens c + n <? zlen (rs_prompt_token_ids c) + zlen (outs_at w (rs_output_token_ids c)))) with
  | Some x => x
  | None => false
  end.

Lemma discard_rows_spec out w ids : forall i, Forall (fun o => exists id, o = Some id /\ is_Some (w_requests w !! id) /\ is_Some (dget id (so_num_scheduled_tokens out))) ids ->
  discard_rows out w i ids = Ok (rows_where (partial out w) i ids).
Proof.
  induction ids as [|o ids IH]; intros i H; [done|]. apply Forall_cons in H as [(id & -> & [c Hc] & [n Hn]) H]. cbn [discard_rows get_or mbind result_bind].
  rewrite Hc. cbn [get_or mbind result_bind]. rewrite Hn. cbn [get_or mbind result_bind]. rewrite IH by done. cbn [mbind result_bind rows_where].
  assert (E : partial out w (Some id) = (rs_num_computed_tokens c + n <? zlen (rs_prompt_token_ids c) + zlen (outs_at w (rs_output_token_ids c))))
    by (unfold partial; cbn; rewrite Hc; cbn; by rewrite Hn).
  rewrite E. by destruct (_ <? _).
Qed.

Lemma clear_rows (ks : list nat) : forall v : list (list Z), Forall (fun k => (k < length v)%nat) ks ->
  exists v', foldM (fun v i => np_alter i (fun _ => Ok []) v) v ks = Ok v' /\ length v' = length v /\
    forall k, v' !! k = if decide (k ∈ ks) then (fun _ => []) <$> v !! k else v !! k.
Proof.
  induction ks as [|k ks IH]; intros v H; [by exists v|]. apply Forall_cons in H as [Hk H]. destruct (lookup_lt_is_Some_2 v k Hk) as [x Ex].
  cbn [foldM]. rewrite (np_alter_ok k (fun _ => Ok []) v x [] Ex eq_refl). cbn [mbind result_bind]. destruct (IH (<[k := []]> v)) as (v' & E & Hl & Hv).
  { by rewrite length_insert. }
  exists v'. rewrite length_insert in Hl. split_and!; try done. intros j. rewrite Hv. destruct (decide (j = k)) as [-> |Hne].
  - rewrite list_lookup_insert_eq by done. rewrite (decide_True (P := k ∈ k :: ks)) by (by left). rewrite Ex. by destruct (decide _).
  - rewrite list_lookup_insert_ne by done. apply decide_ext. rewrite elem_of_cons. naive_solver.
Qed.

(** The tokens that are kept of each row. *)
Definition kept (out : SchedulerOutput) (w : Runner) (max_gen_len : nat) (sampled : list (list Z)) : list (list Z) :=
  imap (fun k toks => if partial out w (mjoin (req_ids_ (input_batch w) !! k)) then [] else toks) (valid_tokens cfg max_gen_len sampled).

Lemma length_valid n sampled : length (valid_tokens cfg n sampled) = length sampled.
Proof. unfold valid_tokens, parse_output. destruct (n =? 1)%nat; [done|]. by rewrite length_map. Qed.

Lemma kept_spec S w out n sampled : runner_ok cfg S w -> length sampled = length (req_ids_ (input_batch w)) ->
  (forall id, is_Some (req_id_to_index (input_batch w) !! id) -> is_Some (dget id (so_num_scheduled_tokens out))) ->
  exists ks, discard_rows out w 0 (req_ids_ (input_batch w)) = Ok ks /\
    foldM (fun v i => np_alter i (fun _ => Ok []) v) (valid_tokens cfg n sampled) ks = Ok (kept out w n sampled).
Proof.
  intros Hr Hlen Hs. pose proof (bi_core _ _ _ (rn_batch _ _ _ Hr)) as HC. eexists. split.
  { apply discard_rows_spec. apply Forall_lookup. intros k o Ek. destruct (dense_lookup _ k (rn_dense _ _ _ Hr) ltac:(by eapply lookup_lt_Some)) as [id Ei].
    rewrite Ek in Ei. injection Ei as ->. exists id. split; [done|]. destruct (ci_slot _ _ _ HC _ _ Ek) as (s & Es & _). rewrite view_lookup in Es.
    destruct (w_requests w !! id) as [c|]; [|done]. split; [done|]. apply Hs. exists k. by apply (ci_index _ _ _ HC). }
  destruct (clear_rows (rows_where (partial out w) 0 (req_ids_ (input_batch w))) (valid_tokens cfg n sampled)) as (v' & E & Hl & Hv).
  { apply Forall_forall. intros k Hk. apply rows_where_elem in Hk as (j & x & -> & Hx & _). rewrite length_valid, Hlen. by eapply lookup_lt_Some. }
  rewrite E. f_equal. apply list_eq. intros k. rewrite Hv. unfold kept. rewrite list_lookup_imap. destruct (valid_tokens cfg n sampled !! k) as [toks|] eqn:Ek; cbn; [|by destruct (decide _)].
  destruct (lookup_lt_is_Some_2 (req_ids_ (input_batch w)) k) as [o Eo]; [rewrite <-Hlen, <-(length_valid n); by eapply lookup_lt_Some|]. rewrite Eo. cbn.
  destruct (partial out w o) eqn:Ep.
  - rewrite decide_True; [done|]. apply rows_where_elem. exists k, o. done.
  - rewrite decide_False; [done|]. intros Hk. apply rows_where_elem in Hk as (j & x & -> & Hx & Hp). cbn in Eo. congruence.
Qed.

Lemma bookkeeping_spec S w out n sampled : runner_ok cfg S w -> length sampled = length (req_ids_ (input_batch w)) ->
  (forall id, is_Some (req_id_to_index (input_batch w) !! id) -> is_Some (dget id (so_num_scheduled_tokens out))) ->
  (forall k toks, kept out w n sampled !! k = Some toks -> room_for w k toks) ->
  (forall k id, req_ids_ (input_batch w) !! k = Some (Some id) -> default [] (S !! id) ≠ [] -> exists toks, kept out w n sampled !! k = Some toks /\ toks ≠ []) ->
  (forall id, is_Some (S !! id) -> is_Some (req_id_to_index (input_batch w) !! id)) ->
  exists w', bookkeeping_sync cfg out n sampled w = Ok (kept out w n sampled, w') /\ runner_ok cfg ∅ w' /\ stored_all (imap pair (kept out w n sampled)) w w'.
Proof.
  intros Hr Hlen Hs Hroom Hspec Hdom. destruct (kept_spec S w out n sampled Hr Hlen Hs) as (ks & E1 & E2).
  unfold bookkeeping_sync. rewrite E1. cbn [mbind result_bind]. rewrite E2. cbn [mbind result_bind].
  assert (Hix : forall k toks, (k, toks) ∈ imap pair (kept out w n sampled) <-> kept out w n sampled !! k = Some toks).
  { intros k toks. rewrite elem_of_lookup_imap. split; [by intros (j & y & [= -> ->] & ?)|intros ?; by exists k, toks]. }
  destruct (store_all (imap pair (kept out w n sampled)) S w Hr) as (S' & w' & E3 & Hr' & Hst & HS1 & HS2).
  { replace (imap pair (kept out w n sampled)).*1 with (seq 0 (length (kept out w n sampled))); [apply NoDup_seq|]. apply list_eq. intros k.
    rewrite list_lookup_fmap, list_lookup_imap. destruct (kept out w n sampled !! k) eqn:E; cbn; [apply lookup_seq; split; [done|by eapply lookup_lt_Some]|].
    apply lookup_seq_ge. by apply lookup_ge_None_1. }
  { intros k toks Hin. by apply Hroom, Hix. }
  exists w'. rewrite E3. split; [done|]. split; [|done]. apply (runner_ok_view S'); [|done]. apply map_eq. intros id. rewrite !view_lookup, lookup_empty. cbn.
  replace (default [] (S' !! id)) with (@nil Z); [done|]. destruct (HS1 id) as [E| ->]; [|done]. rewrite E. destruct (decide (default [] (S !! id) = [])) as [|Hne]; [done|].
  destruct (S !! id) as [sp|] eqn:Es; [|done]. destruct (Hdom id) as [k Hk]; [by rewrite Es|]. apply (ci_index _ _ _ (bi_core _ _ _ (rn_batch _ _ _ Hr))) in Hk.
  destruct (Hspec k id Hk) as (toks & Ht & Hn); [by rewrite Es|]. rewrite (HS2 k toks id) in E; [done|by apply Hix|done..].
Qed.
End Bookkeeping.
