(* ===== verification/GrammarBitmask.v ===== *)
(** Structured output: the bitmask of allowed tokens that the engine core's
    manager builds (src/vllm/v1/structured_output/__init__.py,
    [grammar_bitmask]), and how a worker puts its rows next to the rows of logits
    ([apply_grammar_bitmask], src/vllm/v1/worker/gpu_model_runner.py).

    The grammars are those of a backend that is chosen by configuration; the class
    [Grammar] has the operations of [StructuredOutputGrammar]
    (src/vllm/v1/structured_output/backend_types.py) for backends whose
    [is_terminated] only reads the grammar, with what the docstrings say of
    [rollback] as the law [rollback_accepted]. GrammarBackends.v shows that the
    xgrammar backend keeps it and that the guidance backend does not; the outlines
    backend's [is_terminated] changes the grammar, so it is no instance. A row of the mask is a value of
    type [M]; [full] is the row that allows every token. The requests that a
    thread pool fills are filled in an arbitrary order. *)
From Stdlib Require Import ZArith Lia String.
From stdpp Require Import numbers gmap strings list sorting.
From S2P Require Import Prelude Request BlockTable InputBatch BatchInv SchedState InputsSpec.

Open Scope Z_scope.

Class Grammar (M Gr : Type) := {
  grammar_row : Gr -> M;
  is_terminated : Gr -> bool;
  grammar_accept : string -> list Z -> Gr -> bool * Gr;
  rollback : Z -> Gr -> Gr
}.

(** The states after single tokens, each of which is accepted. *)
Fixpoint accepts {M Gr} `{!Grammar M Gr} (id : string) (toks : list Z) (g : Gr) : option Gr :=
  match toks with
  | [] => Some g
  | t :: toks => match grammar_accept (M := M) id [t] g with
                 | (true, g) => accepts (M := M) id toks g
                 | _ => None
                 end
  end.

(** Up to [limit] accepted tokens can be taken back. *)
Class GrammarLaws (M Gr : Type) `{!Grammar M Gr} (limit : nat) : Prop :=
  rollback_accepted : forall id toks g g', toks ≠ [] -> (length toks <= limit)%nat -> accepts (M := M) id toks g = Some g' -> rollback (M := M) (zlen toks) g' = g.

(** [sorted(d.items(), key=lambda x: x[1])]; the values are distinct. *)
Definition value_le (a b : string * Z) : Prop := a.2 <= b.2.

#[export] Instance value_le_dec : RelDecision value_le.
Proof. unfold RelDecision, value_le. solve_decision. Defined.

#[export] Instance value_le_total : Total value_le.
Proof. intros [? a] [? b]. unfold value_le. cbn. lia. Qed.

#[export] Instance value_le_trans : Transitive value_le.
Proof. intros [? a] [? b] [? c]. unfold value_le. cbn. lia. Qed.

Definition sorted_items (l : list (string * Z)) : list (string * Z) := merge_sort value_le l.

Section Manager.
Context {M Gr : Type} `{HG : !Grammar M Gr} (full blank : M).

(** What the manager keeps of a request. *)
Record SORequest := mkSO {
  so_prompt : list Z;
  so_grammar : option Gr;
  reasoning_ended : option bool
}.

Record SOManager := mkManager {
  so_requests : gmap string SORequest;
  grammar_buffer : option (list M)
}.

(** [max_num_seqs], the number of speculative tokens, [reasoner.is_reasoning_end]
    and [fill_bitmask_parallel_threshold]. *)
Record SOConfig := mkSOConfig {
  so_max_num_seqs : nat;
  so_max_spec : nat;
  so_reasoner : option (list Z -> bool);
  so_threshold : nat
}.
Context (cfg : SOConfig).

(** ** Filling rows *)

Definition should_fill_bitmask (r : SORequest) : bool * SORequest :=
  match so_reasoner cfg with
  | None => (true, r)
  | Some is_reasoning_end =>
      let e := match reasoning_ended r with Some e => e | None => is_reasoning_end (so_prompt r) end in
      (e, mkSO (so_prompt r) (so_grammar r) (Some e))
  end.

(** The row of a grammar, or the full row. *)
Definition mask_of (apply : bool) (g : option Gr) : result M :=
  if apply then g ← get_or AttributeError g; Ok (if is_terminated (M := M) g then full else grammar_row g)
  else Ok full.

(** [_fill_bitmasks], one entry. *)
Definition fill_one (buf : list M) (job : option Gr * nat * bool) : result (list M) :=
  let '(g, index, apply) := job in
  row ← mask_of apply g;
  np_alter index (fun _ => Ok row) buf.

Definition fill_bitmasks : list M -> list (option Gr * nat * bool) -> result (list M) := foldM fill_one.

(** The rows of one request: one for each draft token and one more, with the
    grammar advanced over the drafts and rolled back. *)
Fixpoint fill_tokens (id : string) (apply : bool) (toks : list Z) (g : option Gr) (adv : Z) (index : nat) (buf : list M)
  : result (list M * option Gr * Z * nat) :=
  buf ← fill_one buf (g, index, apply);
  match toks with
  | [] => Ok (buf, g, adv, S index)
  | t :: toks =>
      if apply then
        g' ← get_or AttributeError g;
        if is_terminated (M := M) g' then fill_tokens id apply toks g adv (S index) buf
        else let '(ok, g'') := grammar_accept (M := M) id [t] g' in
             _ ← assert_ ok;
             fill_tokens id apply toks (Some g'') (adv + 1) (S index) buf
      else fill_tokens id apply toks g adv (S index) buf
  end.

Definition fill_request (spec : gmap string (list Z)) (p : list M * nat * gmap string SORequest) (kv : string * Z)
  : result (list M * nat * gmap string SORequest) :=
  let '(buf, index, reqs) := p in
  let id := kv.1 in
  r ← get_or KeyError (reqs !! id);
  let '(apply, r) := should_fill_bitmask r in
  '(buf, g, adv, index) ← fill_tokens id apply (default [] (spec !! id)) (so_grammar r) 0 index buf;
  let g := if 0 <? adv then rollback (M := M) adv <$> g else g in
  Ok (buf, index, <[id := mkSO (so_prompt r) g (reasoning_ended r)]> reqs).

(** The jobs of the parallel branch. *)
Definition add_job (p : list (option Gr * nat * bool) * gmap string SORequest) (kv : string * Z) : result (list (option Gr * nat * bool) * gmap string SORequest) :=
  let '(jobs, reqs) := p in
  r ← get_or KeyError (reqs !! kv.1);
  let '(apply, r) := should_fill_bitmask r in
  Ok (jobs ++ [(so_grammar r, length jobs, apply)], <[kv.1 := r]> reqs).

(** [order] is the order in which the pool's threads run the jobs. *)
Definition grammar_bitmask (order : list (option Gr * nat * bool) -> list (option Gr * nat * bool)) (ids : gmap string Z) (spec : gmap string (list Z)) (m : SOManager)
  : result (option (list M) * SOManager) :=
  if decide (ids = ∅) then Ok (None, m) else
  let buf := default (replicate (so_max_num_seqs cfg * (1 + so_max_spec cfg)) blank) (grammar_buffer m) in
  let seq := sorted_items (map_to_list ids) in
  '(buf, index, reqs) ←
    (if (so_threshold cfg <? length seq)%nat && (so_max_spec cfg =? 0)%nat then
       '(jobs, reqs) ← foldM add_job ([], so_requests m) seq;
       buf ← fill_bitmasks buf (order jobs);
       Ok (buf, length seq, reqs)
     else foldM (fill_request spec) (buf, 0%nat, so_requests m) seq);
  Ok (Some (take index buf), mkManager reqs (Some buf)).
End Manager.

(** * The worker *)

Section Apply.
Context {M : Type} (full : M).

(** Where the logits of each structured request of the batch start. *)
Definition offset_step (ids : gmap string Z) (spec : gmap string (list Z)) (p : gmap string Z * Z) (kv : string * Z) : gmap string Z * Z :=
  let '(d, off) := p in
  (if decide (is_Some (ids !! kv.1)) then <[kv.1 := kv.2 + off]> d else d, off + zlen (default [] (spec !! kv.1))).

Definition logit_offsets (ids : gmap string Z) (spec : gmap string (list Z)) (b : InputBatch) : gmap string Z :=
  (foldl (offset_step ids spec) (∅, 0) (sorted_items (prod_map id Z.of_nat <$> map_to_list (req_id_to_index b)))).1.

(** The rows of one request are copied. *)
Definition place_row (logit_index cumulative_index : Z) (bitmask : list M) (p : list M * list Z) (i : Z) : result (list M * list Z) :=
  let '(rows, out) := p in
  row ← pyindex bitmask (cumulative_index + i);
  rows ← np_alter (Z.to_nat (logit_index + i)) (fun _ => Ok row) rows;
  Ok (rows, out ++ [logit_index + i]).

Definition place_request (offsets : gmap string Z) (spec : gmap string (list Z)) (bitmask : list M) (p : list M * list Z * Z) (kv : string * Z)
  : result (list M * list Z * Z) :=
  let '(rows, out, cumulative_index) := p in
  logit_index ← get_or KeyError (offsets !! kv.1);
  let n := 1 + zlen (default [] (spec !! kv.1)) in
  '(rows, out) ← foldM (place_row logit_index cumulative_index bitmask) (rows, out) (seqZ 0 n);
  Ok (rows, out, cumulative_index + n).

(** [apply_grammar_bitmask] up to the kernel: the rows that are applied to the
    [num_logits] rows of logits, and the rows the kernel is told to use. *)
Definition apply_grammar_bitmask (num_logits : nat) (out : SchedulerOutput) (bitmask : list M) (b : InputBatch) : result (list M * option (list Z)) :=
  let ids := so_structured_output_request_ids out in
  let spec := so_spec_decode_tokens out in
  '(rows, out_indices, _) ← foldM (place_request (logit_offsets ids spec b) spec bitmask) (replicate num_logits full, [], 0) (sorted_items (map_to_list ids));
  Ok (rows, if (length out_indices =? num_logits)%nat then None else Some out_indices).
End Apply.
