(* ===== verification/GrammarBackends.v ===== *)
(** The grammars of two backends of structured output
    (src/vllm/v1/structured_output/backend_xgrammar.py and backend_guidance.py). The
    matchers are those of the libraries xgrammar and llguidance; the class [Matcher]
    has xgrammar's, with what its documentation says as [MatcherLaws]. *)
From Stdlib Require Import ZArith Lia String.
From stdpp Require Import numbers gmap strings list.
From S2P Require Import Prelude BlockTable InputBatch GrammarBitmask.

Open Scope Z_scope.

(** * xgrammar *)

(** [xgr.GrammarMatcher]: [accept_token], [is_terminated], [rollback], [reset] and the
    row of [fill_next_token_bitmask]. *)
Class Matcher (M Mt : Type) := {
  mt_accept : Z -> Mt -> bool * Mt;
  mt_terminated : Mt -> bool;
  mt_rollback : Z -> Mt -> Mt;
  mt_reset : Mt -> Mt;
  mt_row : Mt -> M
}.

Fixpoint mt_accepts {M Mt} `{!Matcher M Mt} (toks : list Z) (m : Mt) : option Mt :=
  match toks with
  | [] => Some m
  | t :: toks => match mt_accept (M := M) t m with (true, m) => mt_accepts (M := M) toks m | _ => None end
  end.

(** A token that is not accepted leaves the matcher as it is; a matcher that has
    terminated accepts nothing; up to [limit] ([max_rollback_tokens]) accepted tokens
    can be taken back. *)
Class MatcherLaws (M Mt : Type) `{!Matcher M Mt} (limit : nat) : Prop := {
  mt_rejected : forall t m m', mt_accept (M := M) t m = (false, m') -> m' = m;
  mt_stuck : forall t m, mt_terminated (M := M) m = true -> (mt_accept (M := M) t m).1 = false;
  mt_undo : forall toks m m', (length toks <= limit)%nat -> mt_accepts (M := M) toks m = Some m' -> mt_rollback (M := M) (zlen toks) m' = m
}.

Section Xgrammar.
Context {M Mt : Type} `{!Matcher M Mt}.

Record XgrammarGrammar := mkXgrammar {
  xg_matcher : Mt;
  num_processed_tokens : Z;
  xg_terminated : bool
}.

Definition xgrammar_init (m : Mt) : XgrammarGrammar := mkXgrammar m 0 false.

(** The loop of [accept_tokens]. *)
Fixpoint xg_accept_loop (toks : list Z) (g : XgrammarGrammar) : bool * XgrammarGrammar :=
  match toks with
  | [] => (true, g)
  | t :: toks =>
      match mt_accept (M := M) t (xg_matcher g) with
      | (true, m) => xg_accept_loop toks (mkXgrammar m (num_processed_tokens g + 1) (xg_terminated g))
      | (false, m) => (false, mkXgrammar m (num_processed_tokens g) (xg_terminated g))
      end
  end.

Definition xg_accept_tokens (toks : list Z) (g : XgrammarGrammar) : bool * XgrammarGrammar :=
  if xg_terminated g then (false, g) else
  let '(ok, g) := xg_accept_loop toks g in
  if ok then (true, mkXgrammar (xg_matcher g) (num_processed_tokens g) (mt_terminated (M := M) (xg_matcher g))) else (false, g).

(** The loop of [validate_tokens]: the accepted tokens. *)
Fixpoint xg_validate_loop (toks : list Z) (m : Mt) : list Z * Mt :=
  match toks with
  | [] => ([], m)
  | t :: toks =>
      match mt_accept (M := M) t m with
      | (true, m) => let '(l, m) := xg_validate_loop toks m in (t :: l, m)
      | (false, m) => ([], m)
      end
  end.

Definition xg_validate_tokens (toks : list Z) (g : XgrammarGrammar) : list Z * XgrammarGrammar :=
  let '(accepted, m) := xg_validate_loop toks (xg_matcher g) in
  (accepted, mkXgrammar (if (0 <? zlen accepted) then mt_rollback (M := M) (zlen accepted) m else m) (num_processed_tokens g) (xg_terminated g)).

Definition xg_rollback (n : Z) (g : XgrammarGrammar) : XgrammarGrammar :=
  let m := mt_rollback (M := M) n (xg_matcher g) in
  mkXgrammar m (num_processed_tokens g - n) (mt_terminated (M := M) m).

Definition xg_reset (g : XgrammarGrammar) : XgrammarGrammar := mkXgrammar (mt_reset (M := M) (xg_matcher g)) 0 (xg_terminated g).

#[export] Instance xgrammar_grammar : Grammar M XgrammarGrammar := {|
  grammar_row := fun g => mt_row (xg_matcher g);
  is_terminated := xg_terminated;
  grammar_accept := fun _ => xg_accept_tokens;
  rollback := xg_rollback
|}.

(** One accepted token. *)
Lemma xg_accept_one t g g' : xg_accept_tokens [t] g = (true, g') -> xg_terminated g = false /\ mt_accept (M := M) t (xg_matcher g) = (true, xg_matcher g') /\ num_processed_tokens g' = num_processed_tokens g + 1.
Proof.
  unfold xg_accept_tokens. cbn. destruct (xg_terminated g); [done|]. destruct (mt_accept t (xg_matcher g)) as [[|] m]; intros E; [|done]. injection E as <-. done.
Qed.

Lemma xg_accepts id toks : forall g g', accepts (M := M) id toks g = Some g' -> mt_accepts (M := M) toks (xg_matcher g) = Some (xg_matcher g') /\ num_processed_tokens g' = num_processed_tokens g + zlen toks.
Proof.
  induction toks as [|t toks IH]; intros g g' E; cbn [accepts mt_accepts] in *; [injection E as <-; split; [done|unfold zlen; cbn; lia]|].
  destruct (grammar_accept id [t] g) as [[|] g1] eqn:Eg; [|done]. cbn in Eg. apply xg_accept_one in Eg as (_ & -> & En). destruct (IH g1 g' E) as [-> ->]. split; [done|]. rewrite En, zlen_cons. lia.
Qed.

(** The grammars of this backend keep the interface's promise. *)
#[export] Instance xgrammar_laws limit `{!MatcherLaws M Mt limit} : GrammarLaws M XgrammarGrammar limit.
Proof.
  intros id toks g g' Hne Hlim E. destruct (xg_accepts id toks g g' E) as [Em En]. cbn [rollback xgrammar_grammar]. unfold xg_rollback. rewrite (mt_undo toks _ _ Hlim Em), En. destruct toks as [|t toks]; [done|].
  cbn [accepts] in E. destruct (grammar_accept id [t] g) as [[|] g1] eqn:Eg; [|done]. cbn in Eg. apply xg_accept_one in Eg as (Ht & Ha & _).
  destruct (mt_terminated (xg_matcher g)) eqn:Et; [pose proof (mt_stuck t _ Et) as Hs; by rewrite Ha in Hs|]. destruct g as [m n b]. cbn in *. subst b. f_equal. lia.
Qed.

Lemma validate_loop_spec limit `{!MatcherLaws M Mt limit} toks : forall m l m', xg_validate_loop toks m = (l, m') -> exists rest, toks = l ++ rest /\ mt_accepts (M := M) l m = Some m' /\
  match rest with [] => True | t :: _ => (mt_accept (M := M) t m').1 = false end.
Proof.
  induction toks as [|t toks IH]; intros m l m' E; cbn in E; [injection E as <- <-; by exists []|]. destruct (mt_accept t m) as [[|] m1] eqn:Ea.
  - destruct (xg_validate_loop toks m1) as [l1 m2] eqn:E1. injection E as <- <-. destruct (IH m1 l1 m2 E1) as (rest & -> & Hacc & Hrest). exists rest. cbn. by rewrite Ea.
  - injection E as <- <-. exists (t :: toks). pose proof (mt_rejected t m m1 Ea) as ->. by rewrite Ea.
Qed.

(** [validate_tokens] returns the longest prefix that the grammar accepts and does not
    advance it. *)
Theorem validate_keeps_state limit `{!MatcherLaws M Mt limit} toks (g : XgrammarGrammar) : (length toks <= limit)%nat ->
  exists l rest m, xg_validate_tokens toks g = (l, g) /\ toks = l ++ rest /\ mt_accepts (M := M) l (xg_matcher g) = Some m /\ match rest with [] => True | t :: _ => (mt_accept (M := M) t m).1 = false end.
Proof.
  intros Hlim. unfold xg_validate_tokens. destruct (xg_validate_loop toks (xg_matcher g)) as [l m] eqn:E. destruct (validate_loop_spec limit toks _ _ _ E) as (rest & -> & Hacc & Hrest). exists l, rest, m. split_and!; try done. f_equal.
  rewrite length_app in Hlim. destruct g as [m0 n b]. cbn in *. destruct l as [|t l]; [injection Hacc as <-; done|]. assert (Hpos : (0 <? zlen (t :: l)) = true) by (apply Z.ltb_lt; unfold zlen; cbn; lia). rewrite Hpos.
  f_equal. apply mt_undo; [cbn in *; lia|done].
Qed.
End Xgrammar.
Arguments XgrammarGrammar Mt : clear implicits.

(** * llguidance *)

(** [llguidance.LLMatcher]: [consume_tokens], [is_stopped], [rollback] and the row of
    [fill_next_token_bitmask]. *)
Class LLMatcher (M Mt : Type) := {
  ll_consume : list Z -> Mt -> bool * Mt;
  ll_stopped : Mt -> bool;
  ll_rollback : Z -> Mt -> Mt;
  ll_row : Mt -> M
}.

Section Guidance.
Context {M Mt : Type} `{!LLMatcher M Mt} (eos_token : Z).

(** Without [printed_error], which is for the log. *)
Record GuidanceGrammar := mkGuidance {
  ll_matcher : Mt;
  gd_terminated : bool
}.

Definition gd_accept_tokens (toks : list Z) (g : GuidanceGrammar) : bool * GuidanceGrammar :=
  let g := if decide (eos_token ∈ toks) then mkGuidance (ll_matcher g) true else g in
  if ll_stopped (M := M) (ll_matcher g) then (true, g) else
  let '(r, m) := ll_consume (M := M) toks (ll_matcher g) in
  (r, mkGuidance m (gd_terminated g)).

Definition gd_rollback (n : Z) (g : GuidanceGrammar) : GuidanceGrammar := mkGuidance (ll_rollback (M := M) n (ll_matcher g)) (gd_terminated g).

Definition guidance_grammar : Grammar M GuidanceGrammar := {|
  grammar_row := fun g => ll_row (ll_matcher g);
  is_terminated := gd_terminated;
  grammar_accept := fun _ => gd_accept_tokens;
  rollback := gd_rollback
|}.

(** The grammars of this backend do not: when the end-of-sequence token is among the
    drafts, the grammar has terminated after the rollback, and the rows of the bitmask
    allow everything from then on. *)
Theorem guidance_stays_terminated full cfg spec reqs id (r : SORequest) (g : GuidanceGrammar) p index : reqs !! id = Some r -> so_grammar r = Some g -> gd_terminated g = false -> so_reasoner cfg = None ->
  spec !! id = Some [eos_token] -> (gd_accept_tokens [eos_token] g).1 = true -> (S index < length p)%nat ->
  exists buf reqs' r' g', fill_request (HG := guidance_grammar) full cfg spec (p, index, reqs) (id, 0) = Ok (buf, S (S index), reqs') /\
    reqs' !! id = Some r' /\ so_grammar r' = Some g' /\ gd_terminated g' = true /\ mask_of (HG := guidance_grammar) full true (Some g') = Ok full.
Proof.
  intros Er Eg Ht Hre Es Hacc Hlen. unfold fill_request. cbn [fst]. rewrite Er. cbn [get_or mbind result_bind]. unfold should_fill_bitmask. rewrite Hre, Es, Eg. change (default [] (Some [eos_token])) with [eos_token]. cbn [fill_tokens].
  assert (Hfill : forall i (b : list M) (x : GuidanceGrammar), (i < length b)%nat -> fill_one (HG := guidance_grammar) full b (Some x, i, true) = Ok (<[i := if gd_terminated x then full else ll_row (ll_matcher x)]> b)).
  { intros i b x Hi. unfold fill_one, mask_of, np_alter. cbn. destruct (lookup_lt_is_Some_2 b i Hi) as [y Ey]. by rewrite Ey. }
  rewrite Hfill by lia. cbn [mbind result_bind get_or is_terminated guidance_grammar grammar_accept]. rewrite Ht. destruct (gd_accept_tokens [eos_token] g) as [ok g1] eqn:Ea. cbn in Hacc. subst ok. cbn [assert_ mbind result_bind].
  rewrite Hfill by (rewrite length_insert; lia). cbn [mbind result_bind]. assert (Ht1 : gd_terminated g1 = true).
  { unfold gd_accept_tokens in Ea. rewrite decide_True in Ea by (by left). cbn in Ea. destruct (ll_stopped (ll_matcher g)); [by injection Ea as <-|]. destruct (ll_consume [eos_token] (ll_matcher g)) as [b m]. by injection Ea as _ <-. }
  eexists _, _, _, (gd_rollback 1 g1). split; [reflexivity|]. rewrite lookup_insert_eq. split; [reflexivity|]. split; [reflexivity|]. split; [exact Ht1|]. cbn. by rewrite Ht1.
Qed.
End Guidance.
