(* ===== verification/BitmaskSpec.v ===== *)
(** The bitmask of structured output reaches the right logits: the manager writes
    the rows of the requests one after the other, also when a thread pool fills
    them, and leaves every grammar in its state; the worker puts the rows of each
    request next to the rows of its logits, whatever the order of its batch. *)
From Stdlib Require Import ZArith Lia String.
From stdpp Require Import numbers gmap strings list sorting.
From S2P Require Import Prelude Request BlockTable InputBatch BatchInv SchedState RunnerInv InputsSpec GrammarBitmask.

Open Scope Z_scope.

(** * Writing rows *)

(** [rows] were written into [buf] from [i] on. *)
Definition wrote {M} (i : nat) (rows buf buf' : list M) : Prop :=
  length buf' = length buf /\ forall j, buf' !! j = if decide (i <= j < i + length rows)%nat then rows !! (j - i)%nat else buf !! j.

Lemma wrote_nil {M} i (buf : list M) : wrote i [] buf buf.
Proof. split; [done|]. intros j. cbn. rewrite decide_False by lia. done. Qed.

Lemma wrote_one {M} i (x : M) buf : (i < length buf)%nat -> wrote i [x] buf (<[i := x]> buf).
Proof.
  intros H. split; [by rewrite length_insert|]. intros j. cbn. destruct (decide (i <= j < i + 1)%nat) as [Hj|Hj].
  - assert (j = i) as -> by lia. rewrite list_lookup_insert_eq by done. by rewrite Nat.sub_diag.
  - rewrite list_lookup_insert_ne; [done|lia].
Qed.

Lemma wrote_app {M} i (r1 r2 b b1 b2 : list M) : wrote i r1 b b1 -> wrote (i + length r1)%nat r2 b1 b2 -> wrote i (r1 ++ r2) b b2.
Proof.
  intros [L1 H1] [L2 H2]. split; [lia|]. intros j. rewrite H2, H1, length_app.
  repeat match goal with |- context [decide ?P] => destruct (decide P) end; try lia; try done.
  - rewrite lookup_app_r by lia. f_equal. lia.
  - rewrite lookup_app_l by lia. done.
Qed.

Lemma wrote_take {M} (rows buf buf' : list M) : (length rows <= length buf)%nat -> wrote 0 rows buf buf' -> take (length rows) buf' = rows.
Proof.
  intros Hl [L H]. apply list_eq. intros j. destruct (decide (j < length rows)%nat) as [Hj|Hj].
  - rewrite lookup_take_lt by done. rewrite H, decide_True by lia. by rewrite Nat.sub_0_r.
  - rewrite lookup_take_ge by lia. symmetry. apply lookup_ge_None_2. lia.
Qed.

Section Manager.
Context {M Gr : Type} `{HG : !Grammar M Gr} (full blank : M) (cfg : SOConfig) `{HL : !GrammarLaws M Gr (so_max_spec cfg)}.
Implicit Types (g : Gr) (buf : list M).

(** The row of a grammar in a state. *)
Definition row_of (apply : bool) g : M := if apply then (if is_terminated (M := M) g then full else grammar_row g) else full.

(** The rows of a request: the grammar's row before each draft token and after
    the last; a grammar that has terminated stays. *)
Definition advance (id : string) (apply : bool) (t : Z) g : Gr := if apply && negb (is_terminated (M := M) g) then (grammar_accept (M := M) id [t] g).2 else g.

Fixpoint mask_rows (id : string) (apply : bool) (toks : list Z) g : list M :=
  row_of apply g :: match toks with
                    | [] => []
                    | t :: toks => mask_rows id apply toks (advance id apply t g)
                    end.

(** The drafts are accepted, as far as the grammar looks at them. *)
Fixpoint drafts_accepted (id : string) (apply : bool) (toks : list Z) g : Prop :=
  match toks with
  | [] => True
  | t :: toks => (apply = true -> is_terminated (M := M) g = false -> (grammar_accept (M := M) id [t] g).1 = true) /\ drafts_accepted id apply toks (advance id apply t g)
  end.

Lemma mask_rows_length id apply toks : forall g, length (mask_rows id apply toks g) = S (length toks).
Proof. induction toks as [|t toks IH]; intros g; cbn; [done|]. by rewrite IH. Qed.

Lemma fill_one_ok apply g i buf : (i < length buf)%nat -> fill_one full buf (Some g, i, apply) = Ok (<[i := row_of apply g]> buf).
Proof.
  intros Hi. unfold fill_one, mask_of, row_of. destruct (lookup_lt_is_Some_2 buf i Hi) as [x Ex]. unfold np_alter. rewrite Ex. by destruct apply.
Qed.

(** A grammar that is not consulted or has terminated stays. *)
Lemma fill_tokens_stop id apply toks : forall g adv i buf, apply && negb (is_terminated (M := M) g) = false -> (i + length toks < length buf)%nat ->
  exists buf', fill_tokens full id apply toks (Some g) adv i buf = Ok (buf', Some g, adv, (i + S (length toks))%nat) /\ wrote i (mask_rows id apply toks g) buf buf'.
Proof.
  induction toks as [|t toks IH]; intros g adv i buf Ht Hl; cbn [fill_tokens length] in *; rewrite fill_one_ok by lia; cbn [mbind result_bind].
  - eexists. split; [do 2 f_equal; lia|]. apply wrote_one. lia.
  - destruct (IH g adv (S i) (<[i := row_of apply g]> buf) Ht) as (buf' & E & Hw); [rewrite length_insert; lia|].
    exists buf'. split.
    + cbn [get_or mbind result_bind]. destruct apply; [destruct (is_terminated g); [|done]|]; rewrite E; do 2 f_equal; lia.
    + cbn [mask_rows]. unfold advance. rewrite Ht.
      apply (wrote_app i [row_of apply g] _ _ (<[i := row_of apply g]> buf)); [apply wrote_one; lia|]. cbn. by rewrite Nat.add_1_r.
Qed.

(** Otherwise it is advanced over accepted tokens until it terminates. *)
Lemma fill_tokens_ok id apply toks : forall g adv i buf, drafts_accepted id apply toks g -> (i + length toks < length buf)%nat ->
  exists buf' g' k, fill_tokens full id apply toks (Some g) adv i buf = Ok (buf', Some g', adv + Z.of_nat k, (i + S (length toks))%nat) /\
    wrote i (mask_rows id apply toks g) buf buf' /\ (k <= length toks)%nat /\ accepts (M := M) id (take k toks) g = Some g'.
Proof.
  induction toks as [|t toks IH]; intros g adv i buf Hd Hl.
  - cbn [fill_tokens length] in *. rewrite fill_one_ok by lia. cbn [mbind result_bind]. exists (<[i := row_of apply g]> buf), g, 0%nat.
    split_and!; [do 2 f_equal; [f_equal|]; lia|apply wrote_one; lia|done..].
  - destruct (apply && negb (is_terminated (M := M) g)) eqn:Et.
    2: { destruct (fill_tokens_stop id apply (t :: toks) g adv i buf Et Hl) as (buf' & E & Hw). exists buf', g, 0%nat. rewrite E.
         split_and!; [do 2 f_equal; f_equal; lia|done|lia|done]. }
    apply andb_true_iff in Et as [-> Et%negb_true_iff]. cbn [fill_tokens length] in *. rewrite fill_one_ok by lia. cbn [mbind result_bind get_or]. rewrite Et.
    destruct Hd as [Ha Hd]. specialize (Ha eq_refl Et). unfold advance in Hd. rewrite Et in Hd. cbn in Hd.
    destruct (grammar_accept id [t] g) as [ok g1] eqn:Eg. cbn in Ha, Hd. subst ok. cbn [assert_ mbind result_bind].
    destruct (IH g1 (adv + 1) (S i) (<[i := row_of true g]> buf) Hd) as (buf' & g' & k & E & Hw & Hk & Hacc); [rewrite length_insert; lia|].
    exists buf', g', (S k). rewrite E. split_and!; [do 2 f_equal; [f_equal|]; lia| |lia|cbn; by rewrite Eg].
    cbn [mask_rows]. unfold advance. rewrite Et, Eg. cbn. apply (wrote_app i [row_of true g] _ _ (<[i := row_of true g]> buf)); [apply wrote_one; lia|].
    cbn. by rewrite Nat.add_1_r.
Qed.

(** ** Requests *)

(** The rows of a request of the manager. *)
Definition request_rows (spec : gmap string (list Z)) (reqs : gmap string SORequest) (kv : string * Z) : list M :=
  match reqs !! kv.1 with
  | Some r => match so_grammar r with
              | Some g => mask_rows kv.1 (should_fill_bitmask cfg r).1 (default [] (spec !! kv.1)) g
              | None => []
              end
  | None => []
  end.

(** The request has a compiled grammar, which accepts its drafts; there are no more of
    them than the grammar can take back. *)
Definition request_ready (spec : gmap string (list Z)) (reqs : gmap string SORequest) (id : string) : Prop :=
  exists r g, reqs !! id = Some r /\ so_grammar r = Some g /\ drafts_accepted id (should_fill_bitmask cfg r).1 (default [] (spec !! id)) g /\ (length (default [] (spec !! id)) <= so_max_spec cfg)%nat.

(** Grammars keep their state and requests their answer to
    [should_fill_bitmask]. *)
Definition same_grammars (reqs reqs' : gmap string SORequest) : Prop :=
  forall id, (fun r => (so_grammar (Gr := Gr) r, (should_fill_bitmask cfg r).1)) <$> reqs' !! id = (fun r => (so_grammar r, (should_fill_bitmask cfg r).1)) <$> reqs !! id.

Lemma should_fill_idem (r : SORequest (Gr := Gr)) : (should_fill_bitmask cfg (should_fill_bitmask cfg r).2).1 = (should_fill_bitmask cfg r).1 /\
  so_grammar (should_fill_bitmask cfg r).2 = so_grammar r.
Proof. unfold should_fill_bitmask. by destruct (so_reasoner cfg). Qed.

Lemma same_rows spec reqs reqs' kv : same_grammars reqs reqs' -> request_rows spec reqs' kv = request_rows spec reqs kv.
Proof.
  intros H. unfold request_rows. specialize (H kv.1). destruct (reqs !! kv.1) as [r|], (reqs' !! kv.1) as [r'|]; try done. cbn in H. injection H as E1 E2. by rewrite E1, E2.
Qed.

Lemma same_ready spec reqs reqs' id : same_grammars reqs reqs' -> request_ready spec reqs id -> request_ready spec reqs' id.
Proof.
  intros H (r & g & Er & Eg & Hd). specialize (H id). rewrite Er in H. destruct (reqs' !! id) as [r'|] eqn:Er'; [|done]. cbn in H. injection H as E1 E2.
  exists r', g. rewrite E1, E2. done.
Qed.

Lemma put_same_grammars reqs id (r r' : SORequest (Gr := Gr)) : reqs !! id = Some r -> so_grammar r' = so_grammar r ->
  (should_fill_bitmask cfg r').1 = (should_fill_bitmask cfg r).1 -> same_grammars reqs (<[id := r']> reqs).
Proof.
  intros Er E1 E2 id'. destruct (decide (id' = id)) as [-> |Hne]; [|by rewrite lookup_insert_ne]. rewrite lookup_insert_eq, Er. cbn. by rewrite E1, E2.
Qed.

Lemma fill_request_ok spec buf i reqs kv : request_ready spec reqs kv.1 -> (i + length (request_rows spec reqs kv) <= length buf)%nat ->
  exists buf' reqs', fill_request full cfg spec (buf, i, reqs) kv = Ok (buf', (i + length (request_rows spec reqs kv))%nat, reqs') /\
    wrote i (request_rows spec reqs kv) buf buf' /\ same_grammars reqs reqs'.
Proof.
  intros (r & g & Er & Eg & Hd & Hmax) Hl. unfold request_rows in *. rewrite Er, Eg in *. rewrite mask_rows_length in *. destruct (should_fill_idem r) as [S1 S2].
  unfold fill_request. rewrite Er. cbn [get_or mbind result_bind]. destruct (should_fill_bitmask cfg r) as [apply r1] eqn:Es. cbn [fst snd] in *. rewrite S2, Eg.
  destruct (fill_tokens_ok kv.1 apply (default [] (spec !! kv.1)) g 0 i buf Hd ltac:(lia)) as (buf' & g' & k & E & Hw & Hk & Hacc). rewrite E. cbn [mbind result_bind].
  eexists buf', _. split; [done|]. split; [done|]. apply (put_same_grammars _ _ r); [done|cbn|].
  - rewrite Z.add_0_l, Eg. destruct (0 <? Z.of_nat k) eqn:E0.
    { apply Z.ltb_lt in E0. assert (Hb : rollback (M := M) (zlen (take k (default [] (spec !! kv.1)))) g' = g) by (apply (rollback_accepted kv.1); [intros En; apply (f_equal length) in En; rewrite length_take in En; cbn in En; lia|rewrite length_take; lia|done]).
      unfold zlen in Hb. rewrite length_take, Nat.min_l in Hb by done. cbn. by rewrite Hb. }
    apply Z.ltb_ge in E0. assert (k = 0)%nat as -> by lia. cbn in Hacc. by injection Hacc as ->.
  - rewrite Es. cbn [fst]. rewrite <-S1. unfold should_fill_bitmask. by destruct (so_reasoner cfg).
Qed.

(** ** All requests *)

Definition all_rows (spec : gmap string (list Z)) (reqs : gmap string SORequest) (seq : list (string * Z)) : list M := concat (request_rows spec reqs <$> seq).

Lemma serial_ok spec seq : forall buf i reqs, (forall kv, kv ∈ seq -> request_ready spec reqs kv.1) -> (i + length (all_rows spec reqs seq) <= length buf)%nat ->
  exists buf' reqs', foldM (fill_request full cfg spec) (buf, i, reqs) seq = Ok (buf', (i + length (all_rows spec reqs seq))%nat, reqs') /\
    wrote i (all_rows spec reqs seq) buf buf' /\ same_grammars reqs reqs'.
Proof.
  induction seq as [|kv seq IH]; intros buf i reqs Hr Hl.
  { exists buf, reqs. cbn. rewrite Nat.add_0_r. split_and!; [done|apply wrote_nil|done]. }
  unfold all_rows in *. cbn [fmap list_fmap concat] in *. rewrite length_app in Hl.
  destruct (fill_request_ok spec buf i reqs kv) as (b1 & r1 & E1 & W1 & G1); [apply Hr; by left|lia|].
  cbn [foldM]. rewrite E1. cbn [mbind result_bind].
  assert (Es : request_rows spec r1 <$> seq = request_rows spec reqs <$> seq) by (apply list_fmap_ext; intros k x _; by apply same_rows).
  destruct (IH b1 (i + length (request_rows spec reqs kv))%nat r1) as (b2 & r2 & E2 & W2 & G2).
  { intros kv' Hin. apply (same_ready spec reqs); [done|]. apply Hr. by right. }
  { rewrite Es. destruct W1 as [-> _]. lia. }
  rewrite Es in E2, W2. exists b2, r2. rewrite E2. split_and!.
  - rewrite length_app. do 3 f_equal. lia.
  - by eapply wrote_app.
  - intros id. by rewrite G2.
Qed.

(** *** In parallel *)

(** Jobs on distinct rows of the buffer, in any order. *)
Lemma jobs_any_order (jobs : list (option Gr * nat * bool)) : NoDup ((fun j => j.1.2) <$> jobs) -> forall buf,
  Forall (fun j => (j.1.2 < length buf)%nat /\ is_Some j.1.1) jobs ->
  exists buf', fill_bitmasks full buf jobs = Ok buf' /\ length buf' = length buf /\
    (forall g i a, (Some g, i, a) ∈ jobs -> buf' !! i = Some (row_of a g)) /\ (forall i, i ∉ (fun j => j.1.2) <$> jobs -> buf' !! i = buf !! i).
Proof.
  induction jobs as [|[[og i] a] jobs IH]; intros Hnd buf H.
  { exists buf. split_and!; try done. by intros ??? ?%elem_of_nil. }
  cbn in Hnd. apply NoDup_cons in Hnd as [Hni Hnd]. apply Forall_cons in H as [[Hi [g Eg]] H]. cbn in Hi, Eg. subst og.
  unfold fill_bitmasks. cbn [foldM]. rewrite fill_one_ok by done. cbn [mbind result_bind].
  destruct (IH Hnd (<[i := row_of a g]> buf)) as (buf' & E & Hl & H1 & H2); [by rewrite length_insert|]. rewrite length_insert in Hl.
  exists buf'. split_and!; try done.
  - intros g' i' a' [[= -> -> ->]|Hin]%elem_of_cons; [|by apply H1]. rewrite H2 by done. by apply list_lookup_insert_eq.
  - intros i' Hn. cbn in Hn. apply not_elem_of_cons in Hn as [Hne Hn]. rewrite H2 by done. by apply list_lookup_insert_ne.
Qed.

(** The job of a request. *)
Definition job_of (reqs : gmap string SORequest) (k : nat) (kv : string * Z) : option Gr * nat * bool :=
  match reqs !! kv.1 with
  | Some r => (so_grammar r, k, (should_fill_bitmask cfg r).1)
  | None => (None, k, false)
  end.

Lemma add_jobs_ok spec seq : forall jobs reqs, (forall kv, kv ∈ seq -> request_ready spec reqs kv.1) ->
  exists reqs', foldM (add_job cfg) (jobs, reqs) seq = Ok (jobs ++ imap (fun k => job_of reqs (length jobs + k)) seq, reqs') /\ same_grammars reqs reqs'.
Proof.
  induction seq as [|kv seq IH]; intros jobs reqs Hr; [exists reqs; cbn; by rewrite app_nil_r|].
  destruct (Hr kv) as (r & g & Er & Eg & _); [by left|]. destruct (should_fill_idem r) as [S1 S2]. cbn [foldM].
  assert (E1 : add_job cfg (jobs, reqs) kv = Ok (jobs ++ [(so_grammar r, length jobs, (should_fill_bitmask cfg r).1)], <[kv.1 := (should_fill_bitmask cfg r).2]> reqs)).
  { unfold add_job. rewrite Er. cbn [get_or mbind result_bind]. rewrite <-S2. by destruct (should_fill_bitmask cfg r). }
  rewrite E1. cbn [mbind result_bind].
  assert (G1 : same_grammars reqs (<[kv.1 := (should_fill_bitmask cfg r).2]> reqs)) by (by eapply put_same_grammars).
  destruct (should_fill_bitmask cfg r) as [a r1] eqn:Es. cbn [fst snd] in *.
  destruct (IH (jobs ++ [(so_grammar r, length jobs, a)]) (<[kv.1 := r1]> reqs)) as (r2 & E2 & G2).
  { intros kv' Hin. apply (same_ready spec reqs); [done|]. apply Hr. by right. }
  exists r2. rewrite E2. split; [|intros id; by rewrite G2]. rewrite <-app_assoc, length_app. cbn. do 3 f_equal. f_equal.
  - unfold job_of. rewrite Er, Es, Nat.add_0_r. done.
  - apply imap_ext. intros k kv' Ek. unfold compose. pose proof (G1 kv'.1) as G. unfold job_of.
    destruct (reqs !! kv'.1) as [q|], (<[kv.1 := r1]> reqs !! kv'.1) as [q'|]; try done; cbn in G; [injection G as F1 F2; rewrite F1, F2|]; do 2 f_equal; lia.
Qed.

Lemma length_rows_nospec spec reqs seq : (forall kv, kv ∈ seq -> request_ready spec reqs kv.1) -> (forall id, default [] (spec !! id) = []) ->
  length (all_rows spec reqs seq) = length seq /\ forall k kv r g, seq !! k = Some kv -> reqs !! kv.1 = Some r -> so_grammar r = Some g ->
    all_rows spec reqs seq !! k = Some (row_of (should_fill_bitmask cfg r).1 g).
Proof.
  intros Hr Hs. unfold all_rows. induction seq as [|kv seq IH]; [done|]. cbn [fmap list_fmap concat]. destruct (Hr kv) as (r & g & Er & Eg & _); [by left|].
  assert (E : request_rows spec reqs kv = [row_of (should_fill_bitmask cfg r).1 g]) by (unfold request_rows; rewrite Er, Eg, Hs; done). rewrite E.
  destruct IH as [L H]; [intros kv' Hin; apply Hr; by right|]. split; [cbn; by rewrite L|]. intros [|k] kv' r' g' Ek Er' Eg'; cbn in *.
  - injection Ek as ->. congruence.
  - by apply (H k kv').
Qed.

Lemma parallel_ok order spec sq buf reqs : (forall jobs, order jobs ≡ₚ jobs) -> (forall kv, kv ∈ sq -> request_ready spec reqs kv.1) -> (forall id, default [] (spec !! id) = []) ->
  (length sq <= length buf)%nat ->
  exists buf' jobs reqs', foldM (add_job cfg) ([], reqs) sq = Ok (jobs, reqs') /\ fill_bitmasks full buf (order jobs) = Ok buf' /\
    wrote 0 (all_rows spec reqs sq) buf buf' /\ same_grammars reqs reqs'.
Proof.
  intros Ho Hr Hs Hl. destruct (add_jobs_ok spec sq [] reqs Hr) as (reqs' & E & HG'). cbn [app length Nat.add] in E. set (jobs := imap (fun k => job_of reqs k) sq) in *.
  assert (Hj : forall k kv, sq !! k = Some kv -> exists r g, reqs !! kv.1 = Some r /\ so_grammar r = Some g /\ jobs !! k = Some (Some g, k, (should_fill_bitmask cfg r).1)).
  { intros k kv Ek. destruct (Hr kv) as (r & g & Er & Eg & _); [by eapply list_elem_of_lookup_2|]. exists r, g. split_and!; try done. unfold jobs. rewrite list_lookup_imap, Ek.
    cbn. unfold job_of. by rewrite Er, Eg. }
  assert (Hidx : (fun j => j.1.2) <$> jobs = seq 0 (length sq)).
  { apply list_eq. intros k. rewrite list_lookup_fmap. destruct (sq !! k) as [kv|] eqn:Ek.
    - destruct (Hj k kv Ek) as (r & g & _ & _ & ->). cbn. symmetry. apply lookup_seq_lt. by eapply lookup_lt_Some.
    - apply lookup_ge_None_1 in Ek. rewrite lookup_seq_ge by done. unfold jobs. rewrite list_lookup_imap. by rewrite lookup_ge_None_2. }
  destruct (jobs_any_order (order jobs)) with (buf := buf) as (buf' & E' & Hlen & H1 & H2).
  { rewrite Ho, Hidx. apply NoDup_seq. }
  { rewrite Ho. apply Forall_lookup. intros k j Ek. destruct (lookup_lt_is_Some_2 sq k) as [kv Ekv]; [apply lookup_lt_Some in Ek; unfold jobs in Ek; by rewrite length_imap in Ek|].
    destruct (Hj k kv Ekv) as (r & g & _ & _ & Ej). rewrite Ek in Ej. injection Ej as ->. cbn. split; [|done]. apply lookup_lt_Some in Ekv. lia. }
  destruct (length_rows_nospec spec reqs sq Hr Hs) as [L HR]. exists buf', jobs, reqs'. split_and!; try done. split; [done|]. intros k. rewrite L, Nat.sub_0_r.
  destruct (decide (0 <= k < 0 + length sq)%nat) as [Hk|Hk].
  - destruct (lookup_lt_is_Some_2 sq k) as [kv Ekv]; [lia|]. destruct (Hj k kv Ekv) as (r & g & Er & Eg & Ej). rewrite (HR k kv r g Ekv Er Eg).
    apply H1. rewrite Ho. by eapply list_elem_of_lookup_2.
  - apply H2. rewrite Ho, Hidx. rewrite elem_of_seq. lia.
Qed.

(** *** Both branches *)

Definition buffer_ok (m : SOManager (M := M) (Gr := Gr)) : Prop := forall buf, grammar_buffer m = Some buf -> length buf = (so_max_num_seqs cfg * (1 + so_max_spec cfg))%nat.

Lemma rows_bound spec reqs sq : (forall id toks, spec !! id = Some toks -> (length toks <= so_max_spec cfg)%nat) ->
  (length (all_rows spec reqs sq) <= length sq * (1 + so_max_spec cfg))%nat.
Proof.
  intros Hs. unfold all_rows. induction sq as [|kv sq IH]; [done|]. cbn [fmap list_fmap concat length]. rewrite length_app.
  assert (length (request_rows spec reqs kv) <= 1 + so_max_spec cfg)%nat; [|lia]. unfold request_rows. destruct (reqs !! kv.1) as [r|]; [|cbn; lia].
  destruct (so_grammar r); [|cbn; lia]. rewrite mask_rows_length. destruct (spec !! kv.1) as [toks|] eqn:E; cbn; [apply Hs in E; lia|lia].
Qed.

Lemma sorted_items_perm l : sorted_items l ≡ₚ l.
Proof. apply merge_sort_Permutation. Qed.

Lemma bitmask_spec order ids spec m : (forall jobs, order jobs ≡ₚ jobs) -> ids ≠ ∅ -> buffer_ok m ->
  (forall id, is_Some (ids !! id) -> request_ready spec (so_requests m) id) ->
  (forall id toks, spec !! id = Some toks -> (length toks <= so_max_spec cfg)%nat) -> (size ids <= so_max_num_seqs cfg)%nat ->
  exists m', grammar_bitmask full blank cfg order ids spec m = Ok (Some (all_rows spec (so_requests m) (sorted_items (map_to_list ids))), m') /\
    same_grammars (so_requests m) (so_requests m') /\ buffer_ok m'.
Proof.
  intros Ho Hne Hb Hr Hs Hsz. unfold grammar_bitmask. rewrite decide_False by done. set (sq := sorted_items (map_to_list ids)).
  assert (Hlen : length sq = size ids) by (unfold sq; rewrite sorted_items_perm; apply length_map_to_list).
  assert (Hr' : forall kv, kv ∈ sq -> request_ready spec (so_requests m) kv.1).
  { intros [id v] Hin. apply Hr. unfold sq in Hin. rewrite sorted_items_perm in Hin. apply elem_of_map_to_list in Hin. by exists v. }
  set (buf := default _ (grammar_buffer m)). assert (Hbuf : length buf = (so_max_num_seqs cfg * (1 + so_max_spec cfg))%nat).
  { unfold buf. destruct (grammar_buffer m) as [b0|] eqn:E; cbn; [by apply Hb|]. by rewrite length_replicate. }
  pose proof (rows_bound spec (so_requests m) sq Hs) as Hrows. assert (Hfit : (length (all_rows spec (so_requests m) sq) <= length buf)%nat) by nia.
  destruct (_ && _) eqn:Ep.
  - apply andb_true_iff in Ep as [_ Esp%Nat.eqb_eq].
    assert (Hno : forall id, default [] (spec !! id) = []).
    { intros id. destruct (spec !! id) as [toks|] eqn:E; [|done]. apply Hs in E. rewrite Esp in E. destruct toks; [done|cbn in E; lia]. }
    destruct (parallel_ok order spec sq buf (so_requests m) Ho Hr' Hno ltac:(nia)) as (buf' & jobs & reqs' & E1 & E2 & Hw & HG'). rewrite E1. cbn [mbind result_bind].
    rewrite E2. cbn [mbind result_bind]. destruct (length_rows_nospec spec (so_requests m) sq Hr' Hno) as [L _].
    rewrite <-L, (wrote_take _ buf buf' Hfit Hw). eexists. split; [done|]. split; [done|]. intros b0 [= <-]. destruct Hw as [-> _]. done.
  - destruct (serial_ok spec sq buf 0 (so_requests m) Hr' Hfit) as (buf' & reqs' & E & Hw & HG'). rewrite E. cbn [mbind result_bind].
    rewrite Nat.add_0_l, (wrote_take _ buf buf' Hfit Hw). eexists. split; [done|]. split; [done|]. intros b0 [= <-]. destruct Hw as [-> _]. done.
Qed.
End Manager.

(** * The worker's rows *)

Lemma imap_sorted {A} (f : A -> string) l : forall n, StronglySorted value_le (imap (fun k x => (f x, Z.of_nat (n + k))) l).
Proof.
  induction l as [|x l IH]; intros n; [constructor|]. cbn. constructor.
  - eapply (fun H => eq_rect _ (StronglySorted value_le) (IH (S n)) _ H). apply imap_ext. intros. cbn. do 2 f_equal. lia.
  - apply Forall_lookup. intros k y E. rewrite list_lookup_imap in E. apply fmap_Some in E as (z & _ & ->). unfold value_le. cbn. lia.
Qed.

Lemma sorted_index_items cfg V b : core_inv cfg V b -> dense b ->
  sorted_items (prod_map id Z.of_nat <$> map_to_list (req_id_to_index b)) = imap (fun k o => (default ""%string o, Z.of_nat k)) (req_ids_ b).
Proof.
  intros HC Hd. set (l := imap _ _). pose proof (ci_index _ _ _ HC) as Hix.
  assert (Hl : forall k o, req_ids_ b !! k = Some o -> exists id, o = Some id /\ req_id_to_index b !! id = Some k).
  { intros k o E. destruct (dense_lookup b k Hd ltac:(by eapply lookup_lt_Some)) as [id Ei]. rewrite E in Ei. injection Ei as ->. exists id. split; [done|]. by apply Hix. }
  assert (Hll : forall k x, l !! k = Some x -> exists id, x = (id, Z.of_nat k) /\ req_ids_ b !! k = Some (Some id)).
  { intros k x E. unfold l in E. rewrite list_lookup_imap in E. destruct (req_ids_ b !! k) as [o|] eqn:Eo; [|done]. destruct (Hl k o Eo) as (id & -> & _). cbn in E.
    injection E as <-. by exists id. }
  assert (Hperm : sorted_items (prod_map id Z.of_nat <$> map_to_list (req_id_to_index b)) ≡ₚ l).
  { rewrite sorted_items_perm. apply NoDup_Permutation.
    - apply NoDup_fmap_2_strong; [|apply NoDup_map_to_list]. intros [i1 n1] [i2 n2] H1 H2 [= -> E]. f_equal. lia.
    - apply NoDup_alt. intros i j x E1 E2. apply Hll in E1 as (id1 & -> & _), E2 as (id2 & [= -> E] & _). lia.
    - intros [id v]. rewrite list_elem_of_fmap. split.
      + intros ([id' n] & [= -> ->] & Hin). apply elem_of_map_to_list, Hix in Hin. apply list_elem_of_lookup. exists n. unfold l. by rewrite list_lookup_imap, Hin.
      + intros Hin. apply list_elem_of_lookup in Hin as [k E]. apply Hll in E as (id' & [= -> ->] & Eo). exists (id', k). split; [done|]. by apply elem_of_map_to_list, Hix. }
  apply (StronglySorted_unique_strong value_le); [| | |done].
  - intros x y Hx Hy Hxy Hyx. rewrite Hperm in Hx. apply list_elem_of_lookup in Hx as [i Ei], Hy as [j Ej].
    apply Hll in Ei as (id1 & -> & E1), Ej as (id2 & -> & E2). unfold value_le in *. cbn in *. assert (i = j) as -> by lia. congruence.
  - apply StronglySorted_merge_sort; apply _.
  - unfold l. apply (imap_sorted (default ""%string) (req_ids_ b) 0).
Qed.

(** ** Where the logits of a request start *)

Section Rows.
Context {M : Type} (full : M) (ids : gmap string Z) (spec : gmap string (list Z)).

(** The number of rows of logits of a request. *)
Definition num_rows (id : string) : Z := 1 + zlen (default [] (spec !! id)).

Lemma num_rows_pos id : 1 <= num_rows id.
Proof. unfold num_rows. pose proof (zlen_nonneg (default [] (spec !! id))). lia. Qed.

Lemma offsets_spec lids : forall n off (d : gmap string Z), NoDup lids ->
  let d' := (foldl (offset_step ids spec) (d, off) (imap (fun k x => (x, Z.of_nat (n + k))) lids)).1 in
  (forall k id, lids !! k = Some id -> d' !! id = if decide (is_Some (ids !! id)) then Some (Z.of_nat n + off + before num_rows lids k) else d !! id) /\
  (forall id, id ∉ lids -> d' !! id = d !! id).
Proof.
  induction lids as [|x lids IH]; intros n off d Hnd; [done|]. apply NoDup_cons in Hnd as [Hni Hnd]. cbn [imap foldl]. unfold offset_step at 2. cbn [fst snd].
  set (d1 := if decide (is_Some (ids !! x)) then _ else d). set (off1 := off + _).
  assert (El : imap ((fun k (y : string) => (y, Z.of_nat (n + k))) ∘ S) lids = imap (fun k y => (y, Z.of_nat (S n + k))) lids) by (apply imap_ext; intros; unfold compose; do 2 f_equal; lia).
  rewrite El. destruct (IH (S n) off1 d1 Hnd) as [H1 H2]. split.
  - intros [|k] id Ek; cbn in Ek.
    + injection Ek as ->. rewrite H2 by done. unfold d1. destruct (decide _); [|done]. rewrite lookup_insert_eq. f_equal. unfold before. cbn. lia.
    + assert (Hne : id ≠ x) by (intros ->; apply Hni; by eapply list_elem_of_lookup_2). rewrite (H1 k id Ek). destruct (decide (is_Some (ids !! id))).
      * f_equal. assert (Eb : before num_rows (x :: lids) (S k) = num_rows x + before num_rows lids k) by done. rewrite Eb. unfold off1, num_rows. lia.
      * unfold d1. destruct (decide _); [by rewrite lookup_insert_ne|done].
  - intros id Hid. apply not_elem_of_cons in Hid as [Hne Hid]. rewrite H2 by done. unfold d1. destruct (decide _); [by rewrite lookup_insert_ne|done].
Qed.

(** ** Placing rows *)

Lemma place_rows_ok o cum (bitmask block : list M) m : forall a rows out, 0 <= o -> 0 <= cum -> (a + m = length block)%nat ->
  (forall j x, block !! j = Some x -> bitmask !! (Z.to_nat cum + j)%nat = Some x) -> (Z.to_nat o + length block <= length rows)%nat ->
  exists rows' out', foldM (place_row o cum bitmask) (rows, out) (seqZ (Z.of_nat a) (Z.of_nat m)) = Ok (rows', out') /\
    wrote (Z.to_nat o + a) (drop a block) rows rows'.
Proof.
  induction m as [|m IH]; intros a rows out Ho Hc Hl Hb Hr.
  { exists rows, out. split; [done|]. rewrite drop_ge by lia. apply wrote_nil. }
  rewrite seqZ_cons by lia. cbn [foldM]. destruct (lookup_lt_is_Some_2 block a) as [x Ex]; [lia|]. pose proof (Hb a x Ex) as Hx.
  destruct (lookup_lt_is_Some_2 rows (Z.to_nat o + a)) as [y Ey]; [lia|].
  assert (E1 : place_row o cum bitmask (rows, out) (Z.of_nat a) = Ok (<[(Z.to_nat o + a)%nat := x]> rows, out ++ [o + Z.of_nat a])).
  { unfold place_row. replace (cum + Z.of_nat a) with (Z.of_nat (Z.to_nat cum + a)) by lia. rewrite (pyindex_at _ _ x Hx). cbn [mbind result_bind].
    replace (Z.to_nat (o + Z.of_nat a)) with (Z.to_nat o + a)%nat by lia. by rewrite (np_alter_ok _ (fun _ => Ok x) rows y x Ey eq_refl). }
  rewrite E1. cbn [mbind result_bind].
  destruct (IH (S a) (<[(Z.to_nat o + a)%nat := x]> rows) (out ++ [o + Z.of_nat a]) Ho Hc ltac:(lia) Hb ltac:(by rewrite length_insert)) as (rows' & out' & E & Hw).
  exists rows', out'. replace (Z.succ (Z.of_nat a)) with (Z.of_nat (S a)) by lia. replace (Z.pred (Z.of_nat (S m))) with (Z.of_nat m) by lia. rewrite E. split; [done|].
  rewrite (drop_S block x a Ex). apply (wrote_app _ [x] _ _ (<[(Z.to_nat o + a)%nat := x]> rows)); [apply wrote_one; apply lookup_lt_Some in Ey; lia|].
  cbn. by rewrite Nat.add_1_r, <-Nat.add_succ_r.
Qed.

(** The rows of the requests, at places that do not overlap. *)
Definition apart (offsets : gmap string Z) (l : list string) : Prop :=
  forall id id' o o', id ∈ l -> id' ∈ l -> id ≠ id' -> offsets !! id = Some o -> offsets !! id' = Some o' -> o + num_rows id <= o' \/ o' + num_rows id' <= o.

Lemma place_all_ok offsets (rows_of : string -> list M) sq : forall pre bitmask rows out, bitmask = pre ++ concat (rows_of <$> sq.*1) ->
  NoDup sq.*1 -> apart offsets sq.*1 -> (forall id, id ∈ sq.*1 -> zlen (rows_of id) = num_rows id /\ exists o, offsets !! id = Some o /\ 0 <= o /\ o + num_rows id <= zlen rows) ->
  exists rows' out' c, foldM (place_request offsets spec bitmask) (rows, out, zlen pre) sq = Ok (rows', out', c) /\ length rows' = length rows /\
    (forall id o j, id ∈ sq.*1 -> offsets !! id = Some o -> (j < length (rows_of id))%nat -> rows' !! (Z.to_nat o + j)%nat = rows_of id !! j) /\
    (forall p, (forall id o, id ∈ sq.*1 -> offsets !! id = Some o -> Z.of_nat p < o \/ o + num_rows id <= Z.of_nat p) -> rows' !! p = rows !! p).
Proof.
  induction sq as [|[id v] sq IH]; intros pre bitmask rows out Hb Hnd Hap Hok.
  { eexists rows, out, _. split; [done|]. split_and!; try done. by intros ??? ?%elem_of_nil. }
  cbn [fmap list_fmap fst concat] in *. apply NoDup_cons in Hnd as [Hni Hnd]. destruct (Hok id) as (Hl & o & Eo & Ho & Hfit); [by left|].
  cbn [foldM].
  destruct (place_rows_ok o (zlen pre) bitmask (rows_of id) (length (rows_of id)) 0 rows out Ho (zlen_nonneg pre) eq_refl) as (r1 & out1 & E1 & Hw).
  { intros j x Ej. rewrite Hb. unfold zlen. rewrite Nat2Z.id, lookup_app_r by lia. rewrite Nat.add_comm, Nat.add_sub. rewrite lookup_app_l; [done|]. by eapply lookup_lt_Some. }
  { unfold zlen in *. lia. }
  assert (El : 1 + zlen (default [] (spec !! id)) = Z.of_nat (length (rows_of id))) by (fold (num_rows id); unfold zlen in Hl; lia).
  assert (Er : place_request offsets spec bitmask (rows, out, zlen pre) (id, v) = Ok (r1, out1, zlen pre + zlen (rows_of id))).
  { unfold place_request. cbn [fst]. rewrite Eo. cbn [get_or mbind result_bind]. rewrite El. change (Z.of_nat 0) with 0 in E1. by rewrite E1. }
  rewrite Er. cbn [mbind result_bind]. rewrite drop_0, Nat.add_0_r in Hw. destruct Hw as [Lw Hw].
  destruct (IH (pre ++ rows_of id) bitmask r1 out1) as (r2 & out2 & c & E2 & L2 & H1 & H2).
  { by rewrite Hb, app_assoc. }
  { done. }
  { intros i1 i2 o1 o2 I1 I2. apply Hap; by right. }
  { intros id' Hin. unfold zlen. rewrite Lw. apply (Hok id'). by right. }
  rewrite zlen_app in E2. exists r2, out2, c. split; [done|]. split; [lia|]. split.
  - intros id' o' j [-> |Hin]%elem_of_cons Eo' Hj; [|by apply H1]. rewrite Eo in Eo'. injection Eo' as <-. rewrite H2.
    + rewrite Hw, decide_True by lia. f_equal. lia.
    + intros id' o' Hin Eo'. assert (id ≠ id') by (intros ->; done). unfold zlen in *. destruct (Hap id id' o o') as [?|?]; try done; [by left|by right|lia..].
  - intros p Hp. rewrite H2 by (intros id' o' Hin; apply Hp; by right). rewrite Hw, decide_False; [done|].
    destruct (Hp id o) as [?|?]; [by left|done|lia|unfold zlen in *; lia].
Qed.

(** ** The whole batch *)

Lemma before_step (l : list string) : forall k k' x, l !! k = Some x -> (k < k')%nat -> 0 <= before num_rows l k /\
  before num_rows l k + num_rows x <= before num_rows l k' <= total (num_rows <$> l).
Proof.
  induction l as [|y l IH]; intros k k' x E Hk; [done|]. destruct k' as [|k']; [lia|].
  assert (E1 : before num_rows (y :: l) (S k') = num_rows y + before num_rows l k') by done.
  assert (E2 : total (num_rows <$> y :: l) = num_rows y + total (num_rows <$> l)) by done.
  assert (Hb : 0 <= before num_rows l k' <= total (num_rows <$> l)).
  { clear. revert k'. induction l as [|z l IH]; intros [|k']; [unfold before, total; cbn; lia..| |].
    - split; [done|]. apply total_nonneg, Forall_fmap, Forall_true. intros id. pose proof (num_rows_pos id). cbn. lia.
    - pose proof (num_rows_pos z). specialize (IH k'). assert (before num_rows (z :: l) (S k') = num_rows z + before num_rows l k') as -> by done.
      assert (total (num_rows <$> z :: l) = num_rows z + total (num_rows <$> l)) as -> by done. lia. }
  pose proof (num_rows_pos y). rewrite E1, E2. destruct k as [|k]; cbn in E.
  - injection E as ->. assert (before num_rows (x :: l) 0 = 0) as -> by done. lia.
  - destruct (IH k k' x E ltac:(lia)) as [H1 H2]. assert (before num_rows (y :: l) (S k) = num_rows y + before num_rows l k) as -> by done. lia.
Qed.

Lemma sorted_keys id : id ∈ (sorted_items (map_to_list ids)).*1 <-> is_Some (ids !! id).
Proof.
  rewrite sorted_items_perm, list_elem_of_fmap. split; [intros ([? v] & -> & ?%elem_of_map_to_list); by exists v|]. intros [v Hv]. exists (id, v).
  split; [done|]. by apply elem_of_map_to_list.
Qed.

Section Batch.
Context (cfg : BatchConfig) (V : gmap string Slot) (b : InputBatch) (HC : core_inv cfg V b) (Hd : dense b).

(** The requests of the batch in the order of their rows. *)
Definition row_ids : list string := default ""%string <$> req_ids_ b.

Lemma row_ids_index k id : row_ids !! k = Some id <-> req_id_to_index b !! id = Some k.
Proof.
  rewrite (ci_index _ _ _ HC). unfold row_ids. rewrite list_lookup_fmap. split; [|by intros ->].
  intros H. destruct (req_ids_ b !! k) as [o|] eqn:Eo; [|done]. destruct (dense_lookup b k Hd ltac:(by eapply lookup_lt_Some)) as [id' Ei]. rewrite Eo in Ei. injection Ei as ->.
  cbn in H. congruence.
Qed.

Lemma offset_at k id : row_ids !! k = Some id -> is_Some (ids !! id) -> logit_offsets ids spec b !! id = Some (before num_rows row_ids k).
Proof.
  intros Hk His. assert (Hnd : NoDup row_ids) by (apply NoDup_alt; intros i j x Hi Hj; apply row_ids_index in Hi, Hj; congruence).
  unfold logit_offsets. rewrite (sorted_index_items cfg V b HC Hd).
  assert (Ei : imap (fun k o => (default ""%string o, Z.of_nat k)) (req_ids_ b) = imap (fun k x => (x, Z.of_nat (0 + k))) row_ids) by (unfold row_ids; by rewrite imap_fmap).
  rewrite Ei. destruct (offsets_spec row_ids 0 0 ∅ Hnd) as [H _]. rewrite (H k id Hk). by rewrite decide_True.
Qed.

Context (Hin : forall id, is_Some (ids !! id) -> is_Some (req_id_to_index b !! id)).

Lemma offset_row id o : is_Some (ids !! id) -> logit_offsets ids spec b !! id = Some o -> exists k, row_ids !! k = Some id /\ o = before num_rows row_ids k.
Proof.
  intros His Eo. destruct (Hin id His) as [k Hk]. apply row_ids_index in Hk. exists k. split; [done|]. rewrite (offset_at k id Hk His) in Eo. congruence.
Qed.

(** The rows of different requests do not overlap. *)
Lemma rows_apart k k' id id' : row_ids !! k = Some id -> row_ids !! k' = Some id' -> id ≠ id' ->
  before num_rows row_ids k + num_rows id <= before num_rows row_ids k' \/ before num_rows row_ids k' + num_rows id' <= before num_rows row_ids k.
Proof.
  intros Hk Hk' Hne. destruct (Nat.lt_trichotomy k k') as [Hlt|[<-|Hlt]]; [left; by apply (before_step row_ids k k')|congruence|right; by apply (before_step row_ids k' k)].
Qed.

Lemma apply_rows out (rows_of : string -> list M) : so_structured_output_request_ids out = ids -> so_spec_decode_tokens out = spec ->
  (forall id, is_Some (ids !! id) -> zlen (rows_of id) = num_rows id) -> let n := Z.to_nat (total (num_rows <$> row_ids)) in
  exists rows idx, apply_grammar_bitmask full n out (concat (rows_of <$> (sorted_items (map_to_list ids)).*1)) b = Ok (rows, idx) /\ length rows = n /\
    forall k id j, req_ids_ b !! k = Some (Some id) -> (j < Z.to_nat (num_rows id))%nat ->
      rows !! (Z.to_nat (before num_rows row_ids k) + j)%nat = if decide (is_Some (ids !! id)) then rows_of id !! j else Some full.
Proof.
  intros E1 E2 Hok n. unfold apply_grammar_bitmask. rewrite E1, E2.
  destruct (place_all_ok (logit_offsets ids spec b) rows_of (sorted_items (map_to_list ids)) [] _ (replicate n full) [] eq_refl) as (rows & oi & c & E & L & H1 & H2).
  { rewrite sorted_items_perm. apply NoDup_fst_map_to_list. }
  { intros id id' o o' I1 I2 Hne Eo Eo'. apply sorted_keys in I1, I2. destruct (offset_row id o I1 Eo) as (k & Hk & ->). destruct (offset_row id' o' I2 Eo') as (k' & Hk' & ->).
    by apply rows_apart. }
  { intros id Hid. apply sorted_keys in Hid. destruct (Hin id Hid) as [k Hk]. apply row_ids_index in Hk. split; [by apply Hok|]. exists (before num_rows row_ids k). split; [by apply offset_at|].
    destruct (before_step row_ids k (S k) id Hk ltac:(lia)) as [B1 B2]. unfold zlen. rewrite length_replicate. unfold n. lia. }
  cbn [app] in E. change (zlen []) with 0 in E. rewrite E. cbn [mbind result_bind]. rewrite length_replicate in L. eexists rows, _. split; [done|]. split; [done|].
  intros k id j Eid Hj. assert (Hk : row_ids !! k = Some id) by (by apply row_ids_index, (ci_index _ _ _ HC)). destruct (before_step row_ids k (S k) id Hk ltac:(lia)) as [B1 B2].
  destruct (decide (is_Some (ids !! id))) as [His|His].
  - apply (H1 id (before num_rows row_ids k) j); [by apply sorted_keys|by apply offset_at|]. specialize (Hok id His). unfold zlen in Hok. lia.
  - rewrite H2; [apply lookup_replicate_2; unfold n; lia|]. intros id' o' I' Eo'. apply sorted_keys in I'. destruct (offset_row id' o' I' Eo') as (k' & Hk' & ->).
    destruct (rows_apart k k' id id' Hk Hk') as [?|?]; [congruence|lia..].
Qed.
End Batch.
End Rows.
