(* ===== verification/WorkerStep.v ===== *)
(** One step of a worker ([execute_model], src/vllm/v1/worker/gpu_model_runner.py):
    the scheduler output is applied, the inputs are gathered, the model runs, the
    grammar's bitmask is put next to the logits, and the sampled tokens are
    stored. The model with its sampler is a function of the inputs and of the
    bitmask; what it has to promise is in [device_ok]. *)
From Stdlib Require Import ZArith Lia String QArith Qcanon.
From stdpp Require Import numbers gmap strings list.
From S2P Require Import Prelude Request BlockTable InputBatch BatchInv LogitsProcs SchedState ModelRunner Reorder RunnerInv RunnerStep NgramProposer ModelInputs InputsSpec Bookkeeping GrammarBitmask BitmaskSpec.

Open Scope Z_scope.

(** What a step returns; hidden states go to the next pipeline stage. *)
Inductive RunnerOutput (P : Type) :=
| EmptyOutput
| HiddenStates
| Pooled (req_ids : list (option string)) (req_id_to_index : gmap string nat) (pooler_output : list (option P))
| Sampled (req_ids : list (option string)) (index : gmap string nat) (sampled_token_ids : list (list Z)).
Arguments EmptyOutput {P}.
Arguments HiddenStates {P}.
Arguments Pooled {P} req_ids req_id_to_index pooler_output.
Arguments Sampled {P} req_ids index sampled_token_ids.

(** The device: the number of columns and the rows of the sampled tokens, and
    the pooler's outputs. *)
Record Device (M P : Type) := mkDevice {
  sample_tokens : ModelInputs -> option (list M * option (list Z)) -> nat * list (list Z);
  pool_states : ModelInputs -> list P
}.
Arguments sample_tokens {M P} d.
Arguments pool_states {M P} d.

Section Step.
Context `{HSO : !SetOrder} {M P : Type} (full : M) (cfg : RunnerConfig) (arange_len : nat) (pooling_of : NewRequestData -> PoolingParams) (dev : Device M P).
Notation bcfg := (batch_config cfg).

(** [_pool]: an output for each request whose prompt is complete. *)
Definition pool (inp : ModelInputs) (b : InputBatch) : result (list (option P)) :=
  _ ← assert_ (num_reqs b =? size (batch_pooling_params b))%nat;
  Ok (zip_with (fun raw p => if (p.1 : Z) =? p.2 then Some raw else None) (pool_states dev inp)
        (zip (take (num_reqs b) (in_seq_lens inp)) (map (fun r => Z.of_nat (row_num_prompt_tokens r)) (take (num_reqs b) (rows b))))).

Definition execute_model (out : SchedulerOutput) (bitmask : option (list M)) (w : Runner) : result (RunnerOutput P * Runner) :=
  w ← update_states cfg pooling_of out w;
  if so_total_num_scheduled_tokens out =? 0 then Ok (EmptyOutput, w) else
  inp ← prepare_inputs cfg arange_len out (input_batch w);
  if negb (is_last_rank cfg) then Ok (HiddenStates, w) else
  if is_pooling_model bcfg then po ← pool inp (input_batch w); Ok (Pooled (req_ids_ (input_batch w)) (req_id_to_index (input_batch w)) po, w) else
  grammar ← (match bitmask with
             | None => Ok None
             | Some mask => r ← apply_grammar_bitmask full (length (in_logits_indices inp)) out mask (input_batch w); Ok (Some r)
             end);
  let '(max_gen_len, sampled) := sample_tokens dev inp grammar in
  '(valid, w') ← bookkeeping_sync cfg out max_gen_len sampled w;
  Ok (Sampled (req_ids_ (input_batch w)) (req_id_to_index (input_batch w)) valid, w').

(** ** What the scheduler promises of the work *)

Definition covers_shape (sh : nat * nat * Z * Z * Z) (ids : list Z) (p : Slot * Z) : Prop :=
  let '(_, _, bs, world, _) := sh in
  world = 1 /\ 0 < bs /\ Forall (fun b => 0 <= b /\ b * bs < 2 ^ 31) ids /\ wk_start p + p.2 <= bs * zlen ids.

(** The tokens of a request that are scheduled exist, end with its drafts, and
    have blocks. *)
Record demand_ok (shs : list (nat * nat * Z * Z * Z)) (c : CachedRequestState) (outs spec : list Z) (n : Z) : Prop := {
  de_count : 0 < n;
  de_start : 0 <= rs_num_computed_tokens c;
  de_blocks : Forall2 (fun sh ids => covers_shape sh ids (mkSlot c outs spec, n)) shs (rs_block_ids c);
  de_drafts : drafts_last (mkSlot c outs spec, n);
  de_room : (length (rs_prompt_token_ids c) + length outs + (1 + length spec) <= batch_max_model_len bcfg)%nat
}.

(** The drafts that a request's row gets. *)
Definition row_drafts (out : SchedulerOutput) (w : Runner) (id : string) : list Z :=
  if decide (id ∈ cached_ids out /\ ~ absent w id) then spec_of out id else [].

Record demands (out : SchedulerOutput) (w : Runner) : Prop := {
  dm_new : forall nr n, nr ∈ so_new_reqs out -> dget (nr_req_id nr) (so_num_scheduled_tokens out) = Some n ->
    demand_ok (shapes (input_batch w)) (new_state_of pooling_of 0 nr) [] [] n;
  dm_cached : forall i id c n nc nb r, cached_ids out !! i = Some id -> w_requests w !! id = Some c -> entry (so_cached_reqs out) i = Some (nc, nb, r) ->
    dget id (so_num_scheduled_tokens out) = Some n ->
    demand_ok (shapes (input_batch w)) (cached_after nc nb r c) (outs_at w (rs_output_token_ids c)) (row_drafts out w id) n;
  dm_drafts : forall id toks, so_spec_decode_tokens out !! id = Some toks -> id ∈ cached_ids out /\ ~ absent w id;
  dm_keys : NoDup (so_num_scheduled_tokens out).*1;
  dm_total : so_total_num_scheduled_tokens out = sum_values (so_num_scheduled_tokens out);
  dm_arange : so_total_num_scheduled_tokens out <= Z.of_nat arange_len;
  dm_tables : Forall (fun sh => so_total_num_scheduled_tokens out <= Z.of_nat sh.1.1.1.2) (shapes (input_batch w))
}.

(** The drafts of a row, as the device sees them. *)
Definition drafts_at (inp : ModelInputs) (k : nat) : Z :=
  match in_spec_metadata inp with Some m => default 0 (num_draft_tokens m !! k) | None => 0 end.

(** The sampler returns a row for each request, with at least one token and at
    most one more than the request has drafts. *)
Definition device_ok : Prop := forall inp g n sampled, sample_tokens dev inp g = (n, sampled) ->
  length sampled = length (in_num_scheduled inp) /\
  forall k toks, valid_tokens cfg n sampled !! k = Some toks -> toks ≠ [] /\ zlen toks <= 1 + Z.max 0 (drafts_at inp k).

(** The bitmask has the rows of the structured requests, all of which are
    scheduled. *)
Definition grammar_ok (out : SchedulerOutput) (bitmask : option (list M)) : Prop :=
  match bitmask with
  | None => True
  | Some mask => exists rows_of, mask = concat (rows_of <$> (sorted_items (map_to_list (so_structured_output_request_ids out))).*1) /\
      forall id, is_Some (so_structured_output_request_ids out !! id) -> id ∈ scheduled_ids out /\ zlen (rows_of id) = num_rows (so_spec_decode_tokens out) id
  end.

(** ** The plan of a step *)

Lemma Forall_choose {A B} (R : A -> B -> Prop) l : Forall (fun x => exists y, R x y) l -> exists ys, Forall2 R l ys.
Proof. induction 1 as [|x l [y Hy] _ [ys IH]]; [by exists []|]. exists (y :: ys). by constructor. Qed.

Lemma covers_of_shape t ids p : covers_shape (shape t) ids p -> covers t ids p.
Proof. done. Qed.

Lemma demand_work b c outs spec n : demand_ok (shapes b) c outs spec n -> work_ok b (mkSlot c outs spec, n).
Proof.
  intros [H1 H2 H3 (H4 & H5 & H6 & H7) _]. split; try done. unfold shapes in H3. rewrite Forall2_fmap_l in H3. exact H3.
Qed.

(** What the runner knows of a scheduled request meets its demand. *)
Lemma known_demand out w w1 (S : gmap string (list Z)) id n c : runner_ok cfg ∅ w -> delta_ok cfg pooling_of out w -> demands out w -> knows pooling_of out w w1 ->
  (forall id, S !! id = if decide (id ∈ cached_ids out /\ ~ absent w id) then Some (spec_of out id) else None) ->
  dget id (so_num_scheduled_tokens out) = Some n -> id ∈ scheduled_ids out -> w_requests w1 !! id = Some c ->
  demand_ok (shapes (input_batch w)) c (outs_at w1 (rs_output_token_ids c)) (default [] (S !! id)) n.
Proof.
  intros Hr HD [D1 D2 _ _ _ _ _] [K1 K2 _ _ K5] HS Hn Hid Hc. unfold scheduled_ids in Hid. rewrite elem_of_list_to_set, (do_sched _ _ _ _ HD), elem_of_app in Hid.
  pose proof (do_nodup _ _ _ _ HD) as Hnd. apply NoDup_app in Hnd as (_ & Hdisj & _). destruct Hid as [Hid|Hid].
  - assert (Hnc : id ∉ cached_ids out) by (by apply Hdisj). apply list_elem_of_fmap in Hid as (nr & -> & Hin). destruct (K1 nr Hin) as (ref & Hc' & Ho).
    rewrite Hc in Hc'. injection Hc' as ->. cbn [rs_output_token_ids new_state_of]. rewrite Ho, HS, decide_False by tauto. cbn [default].
    destruct (D1 nr n Hin Hn) as [A B C D E]. by split.
  - apply list_elem_of_lookup in Hid as [i Hi]. destruct (do_cached _ _ _ _ HD i id Hi) as [_ (c0 & nc & nb & r & Hc0 & He & _)].
    pose proof (K2 i id c0 nc nb r Hi Hc0 He) as Hc1. rewrite Hc in Hc1. injection Hc1 as ->. destruct (cached_params nc nb r c0) as (_ & _ & _ & _ & _ & E6 & _).
    rewrite E6, K5, HS. pose proof (D2 i id c0 n nc nb r Hi Hc0 He Hn) as Hdem. unfold row_drafts in Hdem. by destruct (decide _).
Qed.

Lemma dget_total (d : list (string * Z)) : NoDup d.*1 -> total ((fun id => default 0 (dget id d)) <$> d.*1) = sum_values d.
Proof.
  induction d as [|[k v] d IH]; intros H; [done|]. cbn in H. apply NoDup_cons in H as [Hk H]. cbn [fmap list_fmap fst]. unfold total, sum_values in *. cbn [foldr]. cbn [dget].
  rewrite decide_True by done. cbn. f_equal. rewrite <-IH by done. f_equal. apply list_fmap_ext. intros i x Hx. rewrite decide_False; [done|]. intros ->.
  apply Hk. by eapply list_elem_of_lookup_2.
Qed.

Lemma total_perm l k : l ≡ₚ k -> total l = total k.
Proof. unfold total. induction 1; cbn; lia. Qed.

(** The plan of a step, from what the runner knows. *)
Lemma plan_known out w w1 (S : gmap string (list Z)) : runner_ok cfg ∅ w -> delta_ok cfg pooling_of out w -> demands out w -> runner_ok cfg S w1 -> knows pooling_of out w w1 ->
  (forall id, is_Some (req_id_to_index (input_batch w1) !! id) <-> id ∈ scheduled_ids out) ->
  (forall id, S !! id = if decide (id ∈ cached_ids out /\ ~ absent w id) then Some (spec_of out id) else None) -> shapes (input_batch w1) = shapes (input_batch w) ->
  exists plan, plan_of (view S w1) (so_num_scheduled_tokens out) (input_batch w1) plan /\
    Forall (fun p => demand_ok (shapes (input_batch w1)) (sl_state p.1) (sl_out p.1) (sl_spec p.1) p.2) plan /\
    total plan.*2 = so_total_num_scheduled_tokens out.
Proof.
  intros Hr HD HM Hr1 HK Hids HS Hsh. pose proof (bi_core _ _ _ (rn_batch _ _ _ Hr1)) as HC. pose proof (ci_index _ _ _ HC) as Hix.
  assert (Hrow : forall k o, req_ids_ (input_batch w1) !! k = Some o -> exists id n c, o = Some id /\ dget id (so_num_scheduled_tokens out) = Some n /\ w_requests w1 !! id = Some c /\
    id ∈ scheduled_ids out).
  { intros k o Ek. destruct (dense_lookup _ k (rn_dense _ _ _ Hr1) ltac:(by eapply lookup_lt_Some)) as [id Ei]. rewrite Ek in Ei. injection Ei as ->.
    assert (Hin : id ∈ scheduled_ids out) by (apply Hids; exists k; by apply Hix). pose proof Hin as Hk. unfold scheduled_ids in Hk. rewrite elem_of_list_to_set in Hk.
    destruct (dget_keys _ _ Hk) as [n En]. destruct (ci_slot _ _ _ HC _ _ Ek) as (s & Es & _). rewrite view_lookup in Es. destruct (w_requests w1 !! id) as [c|] eqn:Ec; [|done].
    by exists id, n, c. }
  destruct (Forall_choose (fun o p => exists id, o = Some id /\ view S w1 !! id = Some p.1 /\ dget id (so_num_scheduled_tokens out) = Some p.2) (req_ids_ (input_batch w1))) as [plan HP].
  { apply Forall_lookup. intros k o Ek. destruct (Hrow k o Ek) as (id & n & c & -> & En & Ec & _). exists (slot_of_state w1 (default [] (S !! id)) c, n), id.
    split_and!; [done| |done]. by rewrite view_lookup, Ec. }
  exists plan. split; [exact HP|]. split.
  - apply Forall_lookup. intros k [s n] Ek. destruct (Forall2_lookup_r _ _ _ _ _ HP Ek) as (o & Eo & id & -> & Hv & En). destruct (Hrow k _ Eo) as (id' & n' & c & [= <-] & _ & Ec & Hin).
    rewrite view_lookup, Ec in Hv. cbn in Hv, En. injection Hv as <-. rewrite Hsh. by apply (known_demand out w w1 S id n c).
  - rewrite (dm_total _ _ HM). rewrite <-(dget_total _ (dm_keys _ _ HM)).
    assert (E : plan.*2 = (fun id => default 0 (dget id (so_num_scheduled_tokens out))) <$> (default ""%string <$> req_ids_ (input_batch w1))).
    { apply list_eq. intros k. rewrite !list_lookup_fmap. destruct (plan !! k) as [p|] eqn:Ek.
      - destruct (Forall2_lookup_r _ _ _ _ _ HP Ek) as (o & Eo & id & -> & _ & En). rewrite Eo. cbn. by rewrite En.
      - apply lookup_ge_None_1 in Ek. rewrite <-(Forall2_length _ _ _ HP) in Ek. by rewrite lookup_ge_None_2. }
    rewrite E. apply total_perm, fmap_Permutation. apply NoDup_Permutation; [|apply HM|].
    + apply NoDup_alt. intros i j x. rewrite !list_lookup_fmap. intros Ei Ej. destruct (req_ids_ (input_batch w1) !! i) as [o|] eqn:Eo; [|done].
      destruct (req_ids_ (input_batch w1) !! j) as [o'|] eqn:Eo'; [|done]. destruct (Hrow _ _ Eo) as (id & _ & _ & -> & _), (Hrow _ _ Eo') as (id' & _ & _ & -> & _).
      cbn in Ei, Ej. apply Hix in Eo, Eo'. congruence.
    + intros x. assert (Hx : x ∈ (so_num_scheduled_tokens out).*1 <-> x ∈ scheduled_ids out) by (unfold scheduled_ids; by rewrite elem_of_list_to_set). rewrite Hx, <-Hids, list_elem_of_fmap. split.
      * intros (o & -> & Ho). apply list_elem_of_lookup in Ho as [k Ek]. destruct (Hrow _ _ Ek) as (id & _ & _ & -> & _). exists k. by apply Hix.
      * intros [k Hk]. exists (Some x). split; [done|]. apply Hix in Hk. by eapply list_elem_of_lookup_2.
Qed.

(** ** The step *)

Lemma length_blocks {A B} (c : A -> Z) (plan : list A) : forall f : nat -> A -> list B, (forall k p, Z.of_nat (length (f k p)) = c p) ->
  Z.of_nat (length (blocks f plan)) = total (c <$> plan).
Proof.
  induction plan as [|p l IH]; intros f H; [done|]. rewrite blocks_cons, length_app, Nat2Z.inj_add, H. rewrite (IH (fun k => f (S k))) by done. done.
Qed.

Lemma length_sampled_rows plan : Z.of_nat (length (sampled_rows plan)) = total (wk_sampled <$> plan).
Proof. apply length_blocks. intros k p. rewrite length_seqZ. pose proof (drafts_nonneg p). unfold wk_sampled. lia. Qed.

(** The drafts of a row are those of the scheduler. *)
Lemma plan_drafts out w w1 (S : gmap string (list Z)) plan k id p : demands out w -> plan_of (view S w1) (so_num_scheduled_tokens out) (input_batch w1) plan ->
  (forall id, S !! id = if decide (id ∈ cached_ids out /\ ~ absent w id) then Some (spec_of out id) else None) ->
  req_ids_ (input_batch w1) !! k = Some (Some id) -> plan !! k = Some p -> sl_spec p.1 = spec_of out id /\ default [] (S !! id) = spec_of out id.
Proof.
  intros HM HP HS Eo Ek. destruct (Forall2_lookup_lr _ _ _ _ _ _ HP Eo Ek) as (id' & [= <-] & Hv & _). rewrite view_lookup in Hv.
  destruct (w_requests w1 !! id) as [c|]; [|done]. cbn in Hv. injection Hv as <-. cbn.
  assert (E : default [] (S !! id) = spec_of out id); [|done]. rewrite HS. destruct (decide _) as [|Hn]; [done|]. cbn. unfold spec_of.
  destruct (so_spec_decode_tokens out !! id) as [toks|] eqn:E; [|done]. by apply (dm_drafts _ _ HM) in E.
Qed.

(** The bitmask is placed. *)
Lemma grammar_placed out w w1 (S : gmap string (list Z)) plan bitmask n : demands out w -> runner_ok cfg S w1 -> plan_of (view S w1) (so_num_scheduled_tokens out) (input_batch w1) plan ->
  (forall id, is_Some (req_id_to_index (input_batch w1) !! id) <-> id ∈ scheduled_ids out) ->
  (forall id, S !! id = if decide (id ∈ cached_ids out /\ ~ absent w id) then Some (spec_of out id) else None) -> grammar_ok out bitmask ->
  n = length (sampled_rows plan) ->
  exists g, (match bitmask with None => Ok None | Some mask => r ← apply_grammar_bitmask full n out mask (input_batch w1); Ok (Some r) end) = Ok g.
Proof.
  intros HM Hr HP Hids HS Hg ->. destruct bitmask as [mask|]; [|by eexists]. destruct Hg as (rows_of & -> & Hrows).
  assert (En : length (sampled_rows plan) = Z.to_nat (total (num_rows (so_spec_decode_tokens out) <$> row_ids (input_batch w1)))).
  { apply Nat2Z.inj. rewrite length_sampled_rows. assert (E : wk_sampled <$> plan = num_rows (so_spec_decode_tokens out) <$> row_ids (input_batch w1)).
    { apply list_eq. intros k. unfold row_ids. rewrite !list_lookup_fmap. destruct (plan !! k) as [p|] eqn:Ek.
      - destruct (Forall2_lookup_r _ _ _ _ _ HP Ek) as (o & Eo & id & -> & _). rewrite Eo. cbn. destruct (plan_drafts out w w1 S plan k id p HM HP HS Eo Ek) as [E _].
        unfold wk_sampled, wk_drafts, num_rows. rewrite E. unfold spec_of. f_equal. lia.
      - apply lookup_ge_None_1 in Ek. rewrite <-(Forall2_length _ _ _ HP) in Ek. by rewrite lookup_ge_None_2. }
    rewrite E, Z2Nat.id; [done|]. apply total_nonneg, Forall_fmap, Forall_true. intros id. pose proof (num_rows_pos (so_spec_decode_tokens out) id). cbn. lia. }
  destruct (apply_rows full (so_structured_output_request_ids out) (so_spec_decode_tokens out) bcfg (view S w1) (input_batch w1) (bi_core _ _ _ (rn_batch _ _ _ Hr)) (rn_dense _ _ _ Hr)
    ltac:(intros id Hid; apply Hids; by apply Hrows) out rows_of eq_refl eq_refl ltac:(intros id Hid; by apply Hrows)) as (rows & idx & E & _).
  rewrite En, E. by eexists.
Qed.

(** The tokens the sampler returns fit, and requests with drafts keep some. *)
Lemma sampled_fit out w w1 (S : gmap string (list Z)) plan inp g n sampled : demands out w -> runner_ok cfg S w1 ->
  plan_of (view S w1) (so_num_scheduled_tokens out) (input_batch w1) plan ->
  Forall (fun p => demand_ok (shapes (input_batch w1)) (sl_state p.1) (sl_out p.1) (sl_spec p.1) p.2) plan ->
  (forall id, S !! id = if decide (id ∈ cached_ids out /\ ~ absent w id) then Some (spec_of out id) else None) -> inputs_right cfg (input_batch w1) plan inp -> device_ok ->
  sample_tokens dev inp g = (n, sampled) ->
  length sampled = length (req_ids_ (input_batch w1)) /\
  (forall k toks, kept cfg out w1 n sampled !! k = Some toks -> room_for cfg w1 k toks) /\
  (forall k id, req_ids_ (input_batch w1) !! k = Some (Some id) -> exists toks, kept cfg out w1 n sampled !! k = Some toks /\
    (toks = [] <-> partial out w1 (Some id) = true) /\ (spec_of out id ≠ [] -> toks ≠ [])).
Proof.
  intros HM Hr HP HF HS HI Hdev Es. destruct (Hdev inp g n sampled Es) as [Hlen Htoks]. pose proof (Forall2_length _ _ _ HP) as Hpl.
  rewrite (ir_counts _ _ _ _ HI), length_fmap in Hlen.
  assert (Hrow : forall k toks, valid_tokens cfg n sampled !! k = Some toks -> exists id c p, req_ids_ (input_batch w1) !! k = Some (Some id) /\ w_requests w1 !! id = Some c /\
    plan !! k = Some p /\ p.1 = slot_of_state w1 (spec_of out id) c /\ dget id (so_num_scheduled_tokens out) = Some p.2 /\ toks ≠ [] /\ (length toks <= 1 + length (spec_of out id))%nat /\
    demand_ok (shapes (input_batch w1)) c (outs_at w1 (rs_output_token_ids c)) (spec_of out id) p.2).
  { intros k toks Ek. destruct (lookup_lt_is_Some_2 plan k) as [p Ep]; [apply lookup_lt_Some in Ek; rewrite length_valid in Ek; lia|].
    destruct (Forall2_lookup_r _ _ _ _ _ HP Ep) as (o & Eo & id & -> & Hv & En). destruct (plan_drafts out w w1 S plan k id p HM HP HS Eo Ep) as [E1 E2].
    rewrite view_lookup in Hv. destruct (w_requests w1 !! id) as [c|] eqn:Ec; [|done]. cbn in Hv. rewrite E2 in Hv. injection Hv as Hv.
    pose proof (proj1 (Forall_lookup _ _) HF _ _ Ep) as Hdem. cbn in Hdem. rewrite <-Hv in Hdem. destruct (Htoks k toks Ek) as [Hne Hle]. exists id, c, p. split_and!; try done.
    assert (Hd : drafts_at inp k <= zlen (spec_of out id)).
    { unfold drafts_at. destruct (in_spec_metadata inp) as [m|] eqn:Em; [|apply zlen_nonneg]. destruct (ir_drafts _ _ _ _ HI m Em) as (_ & -> & _).
      rewrite list_lookup_fmap, Ep. cbn. unfold wk_drafts. by rewrite E1. }
    unfold zlen in *. lia. }
  split; [lia|]. split.
  - intros k toks Ek. unfold kept in Ek. rewrite list_lookup_imap in Ek. apply fmap_Some in Ek as (toks' & Et & ->).
    destruct (Hrow k toks' Et) as (id & c & p & Eo & Ec & _ & _ & _ & _ & Hle & [_ _ _ _ Hroom]). exists id, c. split_and!; [done..|].
    destruct (partial _ _ _); cbn [length]; lia.
  - intros k id Eo. destruct (lookup_lt_is_Some_2 (valid_tokens cfg n sampled) k) as [toks Ek]; [rewrite length_valid; apply lookup_lt_Some in Eo; lia|].
    destruct (Hrow k toks Ek) as (id' & c & p & Eo' & Ec & Ep & Hp & En & Hne & _ & [D1 D2 _ (_ & _ & Hd & _) _]). rewrite Eo in Eo'. injection Eo' as <-.
    unfold kept. rewrite list_lookup_imap, Ek, Eo. cbn [fmap option_fmap option_map mjoin option_join]. eexists. split; [done|]. split; [by destruct (partial out w1 (Some id))|].
    intros Hspec. unfold partial. cbn. rewrite Ec. cbn. rewrite En. cbn. destruct (_ <? _) eqn:E; [|done]. apply Z.ltb_lt in E.
    unfold wk_drafts, wk_start, wk_tokens, slot_tokens, zlen in *. cbn in Hd. rewrite !length_app in Hd. destruct (spec_of out id); [done|]. cbn [length] in Hd. lia.
Qed.

(** The result of a step: the scheduled requests in the order of the batch, with
    the tokens that were appended to them. *)
Record step_result (out : SchedulerOutput) (w w1 : Runner) (valid : list (list Z)) (w' : Runner) : Prop := {
  sr_ok : runner_ok cfg ∅ w';
  sr_knows : knows pooling_of out w w1;
  sr_ids : forall id, (exists k, req_ids_ (input_batch w1) !! k = Some (Some id)) <-> id ∈ scheduled_ids out;
  sr_requests : w_requests w' = w_requests w1;
  sr_tokens : forall k id c, req_ids_ (input_batch w1) !! k = Some (Some id) -> w_requests w1 !! id = Some c ->
    exists toks, valid !! k = Some toks /\ outs_at w' (rs_output_token_ids c) = outs_at w (rs_output_token_ids c) ++ toks /\
      (toks = [] <-> partial out w1 (Some id) = true);
  sr_others : forall id c, id ∉ scheduled_ids out -> w_requests w1 !! id = Some c -> outs_at w' (rs_output_token_ids c) = outs_at w (rs_output_token_ids c);
  sr_batch : req_ids_ (input_batch w') = req_ids_ (input_batch w1);
  sr_tables : shapes (input_batch w') = shapes (input_batch w)
}.

(** The output is applied and the inputs are those of the scheduled tokens. *)
Lemma step_inputs out w : is_last_rank cfg = true -> threshold_ok cfg -> runner_ok cfg ∅ w -> delta_ok cfg pooling_of out w -> demands out w -> so_total_num_scheduled_tokens out ≠ 0 ->
  (max_num_reqs bcfg <= arange_len)%nat ->
  exists S w1 plan inp, update_states cfg pooling_of out w = Ok w1 /\ runner_ok cfg S w1 /\ knows pooling_of out w w1 /\
    (forall id, is_Some (req_id_to_index (input_batch w1) !! id) <-> id ∈ scheduled_ids out) /\
    (forall id, S !! id = if decide (id ∈ cached_ids out /\ ~ absent w id) then Some (spec_of out id) else None) /\
    plan_of (view S w1) (so_num_scheduled_tokens out) (input_batch w1) plan /\
    Forall (fun p => demand_ok (shapes (input_batch w1)) (sl_state p.1) (sl_out p.1) (sl_spec p.1) p.2) plan /\
    prepare_inputs cfg arange_len out (input_batch w1) = Ok inp /\ inputs_right cfg (input_batch w1) plan inp /\ total plan.*2 = so_total_num_scheduled_tokens out.
Proof.
  intros Hl Ht Hr HD HM Hne Har.
  destruct (update_states_spec cfg pooling_of out w Hl Ht Hr HD) as (S & w1 & Eu & Hr1 & _ & HK & Hids & HS & Hsh & _).
  destruct (plan_known out w w1 S Hr HD HM Hr1 HK Hids HS Hsh) as (plan & HP & HF & Htot).
  assert (HW : Forall (work_ok (input_batch w1)) plan).
  { eapply Forall_impl; [exact HF|]. intros [[c o sp] n] Hd. by apply demand_work. }
  assert (HDr : Forall drafts_last plan).
  { eapply Forall_impl; [exact HF|]. intros [[c o sp] n] [_ _ _ Hd _]. exact Hd. }
  assert (Hpl : plan ≠ []) by (intros ->; by rewrite <-Htot in Hne).
  destruct (prepare_spec cfg arange_len (view S w1) (input_batch w1) out plan (rn_batch _ _ _ Hr1) HP HW) as (inp & Ei & HI); try done.
  { split; [|intros k id p Eo Ek; by apply (plan_drafts out w w1 S plan k id p HM HP HS Eo Ek)]. intros id [toks Hs]. apply Hids. apply (dm_drafts _ _ HM) in Hs as [Hc _].
    unfold scheduled_ids. rewrite elem_of_list_to_set, (do_sched _ _ _ _ HD), elem_of_app. by right. }
  { rewrite Htot. apply HM. }
  { rewrite <-(Forall2_length _ _ _ HP). pose proof (ci_len _ _ _ (bi_core _ _ _ (rn_batch _ _ _ Hr1))). lia. }
  { pose proof (dm_tables _ _ HM) as Hd. rewrite <-Hsh in Hd. unfold shapes in Hd. rewrite Forall_fmap in Hd. by rewrite Htot. }
  exists S, w1, plan, inp. by split_and!.
Qed.

Lemma worker_step_spec out bitmask w : is_last_rank cfg = true -> is_pooling_model bcfg = false -> threshold_ok cfg -> device_ok ->
  runner_ok cfg ∅ w -> delta_ok cfg pooling_of out w -> demands out w -> so_total_num_scheduled_tokens out ≠ 0 -> (max_num_reqs bcfg <= arange_len)%nat -> grammar_ok out bitmask ->
  exists w1 valid w', update_states cfg pooling_of out w = Ok w1 /\
    execute_model out bitmask w = Ok (Sampled (req_ids_ (input_batch w1)) (req_id_to_index (input_batch w1)) valid, w') /\ step_result out w w1 valid w'.
Proof.
  intros Hl Hpool Ht Hdev Hr HD HM Hne Har Hg.
  destruct (step_inputs out w Hl Ht Hr HD HM Hne Har) as (S & w1 & plan & inp & Eu & Hr1 & HK & Hids & HS & HP & HF & Ei & HI & _).
  assert (Hix := ci_index _ _ _ (bi_core _ _ _ (rn_batch _ _ _ Hr1))).
  destruct (grammar_placed out w w1 S plan bitmask (length (in_logits_indices inp)) HM Hr1 HP Hids HS Hg ltac:(by rewrite (ir_logits _ _ _ _ HI))) as [g Eg].
  destruct (sample_tokens dev inp g) as [n sampled] eqn:Es.
  destruct (sampled_fit out w w1 S plan inp g n sampled HM Hr1 HP HF HS HI Hdev Es) as (Hlen & Hroom & Hkept).
  destruct (bookkeeping_spec cfg S w1 out n sampled Hr1 Hlen) as (w' & Eb & Hr' & [T1 T2 T3 T4 T5]); try done.
  { intros id Hid. apply dget_keys. apply Hids in Hid. unfold scheduled_ids in Hid. by rewrite elem_of_list_to_set in Hid. }
  { intros k id Eo Hs. destruct (Hkept k id Eo) as (toks & Et & _ & Hn). exists toks. split; [done|]. apply Hn. intros E. apply Hs. rewrite HS. destruct (decide _); [done|done]. }
  { intros id [sp Hs]. rewrite HS in Hs. destruct (decide _) as [[Hc _]|]; [|done]. apply Hids. unfold scheduled_ids. rewrite elem_of_list_to_set, (do_sched _ _ _ _ HD), elem_of_app. by right. }
  exists w1, (kept cfg out w1 n sampled), w'. split; [done|]. split.
  { unfold execute_model. rewrite Eu. cbn [mbind result_bind]. rewrite (proj2 (Z.eqb_neq _ _) Hne), Ei. cbn [mbind result_bind]. rewrite Hl, Hpool. cbn [negb]. rewrite Eg.
    cbn [mbind result_bind]. rewrite Es, Eb. done. }
  assert (Href : forall k id c, req_ids_ (input_batch w1) !! k = Some (Some id) -> w_requests w1 !! id = Some c -> row_ref w1 k = Some (rs_output_token_ids c)).
  { intros k id c Eo Ec. unfold row_ref. rewrite Eo. cbn. by rewrite Ec. }
  split; try done.
  - intros id. rewrite <-Hids. split; [intros [k Hk]; exists k; by apply Hix|intros [k Hk]; exists k; by apply Hix].
  - intros k id c Eo Ec. destruct (Hkept k id Eo) as (toks & Et & Hp & _). exists toks. split_and!; try done.
    rewrite (T4 k toks _) by (first [by apply elem_of_lookup_imap; exists k, toks|by eapply Href]). by rewrite (kn_outs _ _ _ _ HK).
  - intros id c Hid Ec. rewrite T5; [by rewrite (kn_outs _ _ _ _ HK)|]. intros k toks _ Hk. unfold row_ref in Hk.
    destruct (req_ids_ (input_batch w1) !! k) as [[id'|]|] eqn:Eo; try done. cbn in Hk. destruct (w_requests w1 !! id') as [c'|] eqn:Ec'; [|done]. cbn in Hk. injection Hk as Hk.
    assert (id' = id) as -> by (by apply (rn_refs _ _ _ Hr1 id' id c' c)). apply Hid, Hids. exists k. by apply Hix.
  - destruct (update_states_spec cfg pooling_of out w Hl Ht Hr HD) as (S2 & w2 & Eu2 & _ & _ & _ & _ & _ & Hsh & _). rewrite Eu in Eu2. injection Eu2 as <-.
    rewrite <-Hsh. unfold shapes. by rewrite T3.
Qed.
End Step.
