(* ===== verification/WorkerRuns.v ===== *)
(** Runs of a worker: from a freshly started runner, every scheduler output that
    keeps its promises is executed, and the state stays consistent. *)
From Stdlib Require Import ZArith Lia String QArith Qcanon.
From stdpp Require Import numbers gmap strings list.
From S2P Require Import Prelude Request BlockTable InputBatch BatchInv LogitsProcs SchedState ModelRunner Reorder RunnerInv RunnerStep ModelInputs InputsSpec Bookkeeping GrammarBitmask BitmaskSpec WorkerStep.

Open Scope Z_scope.

(** * The start *)

Definition runner_init (cfg : RunnerConfig) (tables : list BlockTable) (garbage : SamplingRow) : Runner :=
  mkRunner ∅ (batch_init (batch_config cfg) tables garbage) [] ∅ (mkBias ∅ ∅) (mkMinTokens ∅ ∅).

Lemma table_init_ok bs n blocks tokens world rank : table_ok n (table_init bs n blocks tokens world rank).
Proof.
  split; cbn; [by rewrite length_replicate..|]. apply Forall_replicate. by rewrite length_replicate.
Qed.

Lemma multi_init_ok n len tokens sizes spec world rank : Forall (table_ok n) (multi_init n len tokens sizes spec world rank).
Proof. unfold multi_init. apply Forall_fmap, Forall_true. intros bs. apply table_init_ok. Qed.

Lemma runner_init_ok cfg tables garbage : Forall (table_ok (max_num_reqs (batch_config cfg))) tables -> runner_ok cfg ∅ (runner_init cfg tables garbage).
Proof.
  intros Ht. split; try done.
  - split; [| |done| |done].
    + split; cbn; try done; [lia|by rewrite length_replicate|]. apply Forall_replicate. cbn. by rewrite length_replicate.
    + unfold params_inv, pieces_inv. destruct (is_pooling_model _); [done|]. split; try done. intros n id. cbn. split; [by intros ?%elem_of_empty|]. by intros (s & sp & ? & _).
    + split; try done; cbn; [|intros l; rewrite !lookup_empty; by split; intros [? ?]]. intros l id. split; [by intros ?%elem_of_empty|]. by intros (s & ? & _).
  - unfold dense. cbn. constructor.
Qed.

(** * Steps and runs *)

Section Runs.
Context `{HSO : !SetOrder} {M P : Type} (full : M) (cfg : RunnerConfig) (arange_len : nat) (pooling_of : NewRequestData -> PoolingParams) (dev : Device M P).
Notation bcfg := (batch_config cfg).

(** An output that keeps its promises; it may schedule nothing. *)
Record promised (out : SchedulerOutput) (bitmask : option (list M)) (w : Runner) : Prop := {
  pm_delta : delta_ok cfg pooling_of out w;
  pm_demands : demands cfg arange_len pooling_of out w;
  pm_grammar : grammar_ok out bitmask
}.

Inductive worker_run (w0 : Runner) : Runner -> Prop :=
| run_start : worker_run w0 w0
| run_step w out bitmask o w' : worker_run w0 w -> promised out bitmask w -> execute_model full cfg arange_len pooling_of dev out bitmask w = Ok (o, w') -> worker_run w0 w'.

Lemma dget_elem (d : list (string * Z)) k v : NoDup d.*1 -> (k, v) ∈ d -> dget k d = Some v.
Proof.
  induction d as [|[k' v'] d IH]; intros Hnd Hin; [by apply elem_of_nil in Hin|]. cbn in Hnd. apply NoDup_cons in Hnd as [Hni Hnd]. cbn.
  apply elem_of_cons in Hin as [[= -> ->]|Hin]; [by rewrite decide_True|]. rewrite decide_False; [by apply IH|]. intros ->. apply Hni, list_elem_of_fmap. by exists (k', v).
Qed.

Lemma sum_pos (d : list (string * Z)) : Forall (fun kv => 0 < kv.2) d -> 0 <= sum_values d /\ (sum_values d = 0 -> d = []).
Proof.
  unfold sum_values. induction 1 as [|kv d H _ [IH _]]; cbn; [done|]. split; [lia|]. intros. lia.
Qed.

(** A step without tokens only applies the output. *)
Lemma idle_step out bitmask w : is_last_rank cfg = true -> threshold_ok cfg -> runner_ok cfg ∅ w -> promised out bitmask w -> so_total_num_scheduled_tokens out = 0 ->
  exists w', execute_model full cfg arange_len pooling_of dev out bitmask w = Ok (EmptyOutput, w') /\ runner_ok cfg ∅ w' /\ req_id_to_index (input_batch w') = ∅ /\ knows pooling_of out w w' /\
    shapes (input_batch w') = shapes (input_batch w).
Proof.
  intros Hl Ht Hr [HD HM _] H0. destruct (update_states_spec cfg pooling_of out w Hl Ht Hr HD) as (S & w' & Eu & Hr' & _ & HK & Hids & HS & Hsh & _).
  assert (Hnil : so_num_scheduled_tokens out = []).
  { apply sum_pos; [|by rewrite <-(dm_total _ _ _ _ _ HM)]. apply Forall_forall. intros [id n] Hin. cbn. pose proof (dget_elem _ _ _ (dm_keys _ _ _ _ _ HM) Hin) as En.
    assert (Hk : id ∈ new_ids out ++ cached_ids out) by (apply (do_sched _ _ _ _ HD), list_elem_of_fmap; by exists (id, n)). apply elem_of_app in Hk as [Hk|Hk].
    - apply list_elem_of_fmap in Hk as (nr & -> & Hn). by apply (dm_new _ _ _ _ _ HM nr n).
    - apply list_elem_of_lookup in Hk as [i Hi]. destruct (do_cached _ _ _ _ HD i id Hi) as [_ (c & nc & nb & r & Hc & He & _)].
      by apply (dm_cached _ _ _ _ _ HM i id c n nc nb r). }
  assert (Hno : forall id, id ∉ cached_ids out).
  { intros id Hin. assert (Hk : id ∈ (so_num_scheduled_tokens out).*1) by (apply (do_sched _ _ _ _ HD), elem_of_app; by right). rewrite Hnil in Hk. by apply elem_of_nil in Hk. }
  exists w'. unfold execute_model. rewrite Eu. cbn [mbind result_bind]. rewrite H0. split; [done|]. split; [|split; [|by split]].
  - assert (E : S = ∅); [|by rewrite E in Hr']. apply map_eq. intros id. rewrite HS, lookup_empty, decide_False; [done|]. intros [Hc _]. by apply (Hno id).
  - apply map_eq. intros id. rewrite lookup_empty. destruct (req_id_to_index (input_batch w') !! id) eqn:E; [|done]. exfalso. assert (Hin : id ∈ scheduled_ids out) by (apply Hids; by rewrite E).
    unfold scheduled_ids in Hin. by rewrite Hnil in Hin.
Qed.

Lemma run_ok w0 w : is_last_rank cfg = true -> is_pooling_model bcfg = false -> threshold_ok cfg -> device_ok cfg dev -> (max_num_reqs bcfg <= arange_len)%nat ->
  runner_ok cfg ∅ w0 -> worker_run w0 w -> runner_ok cfg ∅ w.
Proof.
  intros Hl Hp Ht Hd Ha H0. induction 1 as [|w out bitmask o w' _ IH Hpm E]; [done|]. destruct (decide (so_total_num_scheduled_tokens out = 0)) as [Hz|Hz].
  - destruct (idle_step out bitmask w Hl Ht IH Hpm Hz) as (w2 & E2 & Hr2 & _). rewrite E in E2. by injection E2 as _ ->.
  - destruct Hpm as [HD HM HG].
    destruct (worker_step_spec full cfg arange_len pooling_of dev out bitmask w Hl Hp Ht Hd IH HD HM Hz Ha HG) as (w1 & valid & w2 & _ & E2 & Hres).
    rewrite E in E2. injection E2 as _ ->. apply Hres.
Qed.
End Runs.
