(* ===== verification/WorkerDemo.v ===== *)
(** A small worker with two requests, for concrete runs: its configuration, the
    scheduler outputs of two steps, and that they keep the scheduler's
    promises. *)
From Stdlib Require Import ZArith Lia String QArith Qcanon.
From stdpp Require Import numbers gmap strings list.
From S2P Require Import Prelude Request BlockTable InputBatch BatchInv LogitsProcs SchedState ModelRunner Reorder RunnerInv RunnerStep NgramProposer ModelInputs InputsSpec Bookkeeping GrammarBitmask BitmaskSpec WorkerStep WorkerRuns.

Open Scope Z_scope.

(** * A small worker *)

#[local] Instance elements_order : SetOrder := {| set_order := elements; set_order_perm := fun X => reflexivity _ |}.

Definition demo_batch_config : BatchConfig := mkBatchConfig 3 8 10 false true.
Definition demo_runner_config : RunnerConfig := mkRunnerConfig demo_batch_config true 1 (Some 1) 1.
Definition demo_tables : list BlockTable := multi_init 3 8 16 [2] 2 1 0.
Definition demo_pooling (_ : NewRequestData) : PoolingParams := mkPooling false.
Definition demo_garbage : SamplingRow := mkSampRow 0%Qc 0%Qc 0 0%Qc 0%Qc 0%Qc.
Definition demo_worker : Runner := runner_init demo_runner_config demo_tables demo_garbage.

(** A run that is known to return. *)
Definition returns {A} (m : result A) : bool := match m with Ok _ => true | Err _ => false end.

Lemma run_returns {A} (m : result A) : returns m = true -> exists a, m = Ok a.
Proof. destruct m as [a|e]; [by exists a|done]. Qed.

(** The device samples token 9 in every row. *)
Definition demo_device : Device nat nat := mkDevice nat nat (fun inp _ => (1%nat, replicate (length (in_num_scheduled inp)) [9])) (fun _ => []).

Lemma demo_device_ok : device_ok demo_runner_config demo_device.
Proof.
  intros inp g n sampled [= <- <-]. split; [by rewrite length_replicate|]. intros k toks E. unfold valid_tokens in E. cbn in E. apply lookup_replicate in E as [-> _].
  split; [done|]. unfold zlen. cbn. lia.
Qed.

Definition demo_new (id : string) (prompt : list Z) (ids : list (list Z)) : NewRequestData :=
  mkNew id prompt [] [] (Some demo_sampling) false ids 0 None.

Definition demo_output (news : list NewRequestData) (cached : CachedRequestData) (sched : list (string * Z)) (spec : gmap string (list Z)) (structured : gmap string Z) : SchedulerOutput :=
  mkOutput news cached sched (sum_values sched) spec ∅ [] ∅ [] structured.

(** Two requests arrive; only a part of the second prompt is scheduled. *)
Definition demo_out1 : SchedulerOutput :=
  demo_output [demo_new "a" [1; 2; 3] [[1; 2]]; demo_new "b" [4; 5; 6; 7] [[3]]] make_empty [("a"%string, 3); ("b"%string, 2)] ∅ ∅.

(** The first request decodes with two drafts, the second goes on with its prompt. *)
Definition demo_out2_with (structured : gmap string Z) : SchedulerOutput :=
  demo_output [] (mkCached ["a"; "b"]%string [false; false] [] [Some [[4]]; Some [[5]]] [3; 2]) [("a"%string, 3); ("b"%string, 2)] {["a"%string := [8; 9]]} structured.
Definition demo_out2 : SchedulerOutput := demo_out2_with ∅.

Definition demo_step (out : SchedulerOutput) (w : Runner) : result (RunnerOutput nat * Runner) :=
  execute_model 0%nat demo_runner_config 16 demo_pooling demo_device out None w.
Definition demo_worker2 : Runner := match demo_step demo_out1 demo_worker with Ok (_, w) => w | Err _ => demo_worker end.

Lemma demo_new_ok id prompt ids b : (length prompt <= 8)%nat -> fits (shapes b) ids -> new_ok demo_runner_config demo_pooling (shapes b) (demo_new id prompt ids).
Proof.
  intros Hp Hf. split; try done.
  - by eexists.
  - by intros sp toks [= <-].
  - by intros sp [= <-].
Qed.

Ltac distinct := repeat (first [apply NoDup_nil_2|apply NoDup_cons_2; [set_solver|]]).
Ltac each_elem := let x := fresh in let H := fresh in intros x H; revert x H; apply Forall_forall; repeat constructor.

Ltac covered := apply Forall2_cons_2; [|by apply Forall2_nil_2]; split_and!; [done|done|repeat (apply Forall_cons_2 || apply Forall_nil_2); cbn; lia|by vm_compute].

Lemma demo_promised1 : promised (M := nat) demo_runner_config 16 demo_pooling demo_out1 None demo_worker.
Proof.
  split; [| |done].
  - split; [cbn; distinct|set_solver|cbn; lia| |by intros []].
    intros nr Hin. split; [|by right]. revert nr Hin. apply Forall_forall. repeat (apply Forall_cons_2 || apply Forall_nil_2); apply demo_new_ok; cbn; try lia; repeat constructor.
  - split; [| |done|cbn; distinct|done|done|repeat constructor; cbn; lia].
    + intros nr n Hin. revert n. revert nr Hin. refine (proj1 (Forall_forall _ _) _).
      repeat (apply Forall_cons_2 || apply Forall_nil_2); intros n [= <-]; split; cbn; try done; try lia; covered.
    + by intros [].
Qed.

Lemma demo_step1 : exists o, demo_step demo_out1 demo_worker = Ok (o, demo_worker2).
Proof.
  unfold demo_worker2. destruct (run_returns (demo_step demo_out1 demo_worker)) as [[o w] E]; [by vm_compute|]. rewrite E. by eexists.
Qed.

(** What the worker knows after the first step. *)
Definition request_summary (c : CachedRequestState) : string * list Z * list (list Z) * nat :=
  (rs_req_id c, rs_prompt_token_ids c, rs_block_ids c, rs_output_token_ids c).

Lemma demo_known : request_summary <$> w_requests demo_worker2 !! "a"%string = Some ("a"%string, [1; 2; 3], [[1; 2]], 0%nat) /\
  request_summary <$> w_requests demo_worker2 !! "b"%string = Some ("b"%string, [4; 5; 6; 7], [[3]], 1%nat) /\
  outs_at demo_worker2 0 = [9] /\ outs_at demo_worker2 1 = [] /\ shapes (input_batch demo_worker2) = [(4%nat, 16%nat, 2, 1, 0)] /\
  req_id_to_index (input_batch demo_worker2) !! "a"%string = Some 0%nat /\ req_id_to_index (input_batch demo_worker2) !! "b"%string = Some 1%nat.
Proof. split_and!; by vm_compute. Qed.

Ltac known H E := apply fmap_Some in H as ([c1 c2 c3 c4 c5 c6 c7 c8 c9 c10 c11] & E & H); cbv [request_summary] in H; cbn in H; injection H as H1 H2 H3 H4; subst.

Lemma demo_promised_with structured : promised (M := nat) demo_runner_config 16 demo_pooling (demo_out2_with structured) None demo_worker2.
Proof.
  generalize demo_known. generalize demo_worker2. intros w (Ha & Hb & Oa & Ob & Hsh & Ia & Ib). split; [| |done].
  - split; [cbn; distinct|set_solver|cbn; lia|by intros nr ?%elem_of_nil|]. intros i id Hi. split; [set_solver|].
    destruct i as [|[|i]]; [| |done]; injection Hi as <-.
    + known Ha E. eexists _, _, _, _. split_and!; [exact E|done|]. cbn. rewrite Oa. split; try done; [by intros ids _ [= <-]|rewrite Hsh; apply Forall2_cons_2; [cbn; lia|by apply Forall2_nil_2]|vm_compute; lia].
    + known Hb E. eexists _, _, _, _. split_and!; [exact E|done|]. cbn. rewrite Ob. split; try done; [by intros ids _ [= <-]|rewrite Hsh; apply Forall2_cons_2; [cbn; lia|by apply Forall2_nil_2]|vm_compute; lia].
  - assert (Ra : row_drafts (demo_out2_with structured) w "a" = [8; 9]) by (unfold row_drafts; rewrite decide_True; [done|split; [set_solver|unfold absent; by rewrite Ia]]).
    assert (Rb : row_drafts (demo_out2_with structured) w "b" = []) by (unfold row_drafts; by destruct (decide _)).
    split; [by intros nr n ?%elem_of_nil| | |cbn; distinct|done|done|rewrite Hsh; apply Forall_singleton; by vm_compute].
    + intros i id c n nc nb r Hi Hc He Hn. destruct i as [|[|i]]; [| |done]; injection Hi as <-; injection Hn as <-; injection He as <- <- <-; rewrite ?Ra, ?Rb, Hsh.
      * known Ha E. rewrite E in Hc. injection Hc as <-. cbn. rewrite Oa. split; [done|done|covered|split_and!; by vm_compute|cbn; lia].
      * known Hb E. rewrite E in Hc. injection Hc as <-. cbn. rewrite Ob. split; [done|done|covered|split_and!; by vm_compute|cbn; lia].
    + intros id toks H. cbn in H. apply lookup_singleton_Some in H as [<- <-]. split; [set_solver|]. unfold absent. by rewrite Ia.
Qed.

Definition demo_promised2 : promised (M := nat) demo_runner_config 16 demo_pooling demo_out2 None demo_worker2 := demo_promised_with ∅.
