(* ===== verification/WorkerProps.v ===== *)
(** What a worker guarantees: the theorems about steps, inputs, reordering and
    stored tokens. *)
From Stdlib Require Import ZArith Lia String QArith Qcanon.
From stdpp Require Import numbers gmap strings list.
From S2P Require Import Prelude Request BlockTable InputBatch BatchInv LogitsProcs SchedState ModelRunner Reorder RunnerInv RunnerStep NgramProposer ModelInputs InputsSpec Bookkeeping GrammarBitmask BitmaskSpec WorkerStep WorkerRuns WorkerDemo.

Open Scope Z_scope.

Section Props.
Context `{HSO : !SetOrder} {M P : Type} (full : M) (cfg : RunnerConfig) (arange_len : nat) (pooling_of : NewRequestData -> PoolingParams) (dev : Device M P).
Context (tables : list BlockTable) (garbage : SamplingRow).
Notation bcfg := (batch_config cfg).
Notation run := (worker_run full cfg arange_len pooling_of dev (runner_init cfg tables garbage)).

(** How the worker is set up: the last pipeline stage of a model that generates
    text, with a sampler that keeps its promise and tables of the batch's size. *)
Record setup_ok : Prop := {
  se_last : is_last_rank cfg = true;
  se_generates : is_pooling_model bcfg = false;
  se_threshold : threshold_ok cfg;
  se_device : device_ok cfg dev;
  se_arange : (max_num_reqs bcfg <= arange_len)%nat;
  se_tables : Forall (table_ok (max_num_reqs bcfg)) tables
}.

Lemma run_runner_ok w : setup_ok -> run w -> runner_ok cfg ∅ w.
Proof. intros [H1 H2 H3 H4 H5 H6] Hw. eapply run_ok; [exact H1|exact H2|exact H3|exact H4|exact H5| |exact Hw]. by apply runner_init_ok. Qed.

(** C18: For a worker of a generating model on the last pipeline stage, after
    any run of scheduler outputs that keep the promises of [promised] (as in
    C11; in particular a resumed request has no row in the batch), the batch,
    the block tables, the index, the sampling sets, the request states and the
    states of the logits processors agree with each other, and the rows have no
    gaps. *)
Theorem worker_states_well_formed w : setup_ok -> run w -> runner_ok cfg ∅ w.
Proof. apply run_runner_ok. Qed.

(** C11: For a worker of a generating model on the last pipeline stage, whose
    sampler returns one to drafts-plus-one tokens per row: after any run of
    scheduler outputs that keep the promises of [promised] (new and cached
    requests are consistent with what the worker knows, their tokens and blocks
    fit its buffers, drafts are given only to requests that are still in its
    batch, the bitmask names scheduled requests only), the next such output is
    executed without an error. The worker returns the scheduled requests in the
    order of its batch, has appended to the output of each exactly the tokens
    that it returns (none while the prompt is incomplete), and its request
    states are those the scheduler described. *)
Theorem worker_executes_steps w out bitmask : setup_ok -> run w -> promised cfg arange_len pooling_of out bitmask w -> so_total_num_scheduled_tokens out ≠ 0 ->
  exists w1 valid w', execute_model full cfg arange_len pooling_of dev out bitmask w = Ok (Sampled (req_ids_ (input_batch w1)) (req_id_to_index (input_batch w1)) valid, w') /\
    step_result cfg pooling_of out w w1 valid w'.
Proof.
  intros Hs Hw [HD HM HG] Hz. pose proof (run_runner_ok w Hs Hw) as Hr. destruct Hs as [H1 H2 H3 H4 H5 _].
  destruct (worker_step_spec full cfg arange_len pooling_of dev out bitmask w H1 H2 H3 H4 Hr HD HM Hz H5 HG) as (w1 & valid & w' & _ & E & Hres). by exists w1, valid, w'.
Qed.

(** Each row of the batch with the request in it: its state, its output, its
    drafts and the number of its scheduled tokens. *)
Definition planned (out : SchedulerOutput) (w1 : Runner) (plan : list (Slot * Z)) : Prop :=
  Forall2 (fun o p => exists id c, o = Some id /\ w_requests w1 !! id = Some c /\ p.1 = mkSlot c (outs_at w1 (rs_output_token_ids c)) (spec_of out id) /\
    dget id (so_num_scheduled_tokens out) = Some p.2) (req_ids_ (input_batch w1)) plan.

Lemma runner_planned w out : is_last_rank cfg = true -> threshold_ok cfg -> (max_num_reqs bcfg <= arange_len)%nat -> runner_ok cfg ∅ w -> delta_ok cfg pooling_of out w -> demands cfg arange_len pooling_of out w -> so_total_num_scheduled_tokens out ≠ 0 ->
  exists w1 plan inp, update_states cfg pooling_of out w = Ok w1 /\ planned out w1 plan /\ prepare_inputs cfg arange_len out (input_batch w1) = Ok inp /\
    inputs_right cfg (input_batch w1) plan inp /\ Forall (work_ok (input_batch w1)) plan /\ total plan.*2 = so_total_num_scheduled_tokens out /\
    (forall k k' id, req_ids_ (input_batch w1) !! k = Some (Some id) -> req_ids_ (input_batch w1) !! k' = Some (Some id) -> k = k').
Proof.
  intros H1 H3 H5 Hr HD HM Hz.
  destruct (step_inputs cfg arange_len pooling_of out w H1 H3 Hr HD HM Hz H5) as (S & w1 & plan & inp & Eu & Hr1 & _ & _ & HS & HP & HF & Ei & HI & Htot).
  exists w1, plan, inp. split_and!; try done; [|eapply Forall_impl; [exact HF|]; intros [[c o sp] n] Hd; eapply demand_work; exact Hd|].
  2: { intros k k' id Hk Hk'. apply (ci_index _ _ _ (bi_core _ _ _ (rn_batch _ _ _ Hr1))) in Hk, Hk'. congruence. }
  apply Forall2_same_length_lookup. split; [by apply Forall2_length in HP|]. intros k o p Eo Ek.
  destruct (Forall2_lookup_lr _ _ _ _ _ _ HP Eo Ek) as (id & -> & Hv & En). destruct (plan_drafts cfg arange_len pooling_of out w w1 S plan k id p HM HP HS Eo Ek) as [_ E2].
  rewrite view_lookup, E2 in Hv. destruct (w_requests w1 !! id) as [c|] eqn:Ec; [|done]. injection Hv as Hv. exists id, c. by rewrite <-Hv.
Qed.

Lemma inputs_planned w out : setup_ok -> run w -> delta_ok cfg pooling_of out w -> demands cfg arange_len pooling_of out w -> so_total_num_scheduled_tokens out ≠ 0 ->
  exists w1 plan inp, update_states cfg pooling_of out w = Ok w1 /\ planned out w1 plan /\ prepare_inputs cfg arange_len out (input_batch w1) = Ok inp /\
    inputs_right cfg (input_batch w1) plan inp /\ Forall (work_ok (input_batch w1)) plan /\ total plan.*2 = so_total_num_scheduled_tokens out /\
    (forall k k' id, req_ids_ (input_batch w1) !! k = Some (Some id) -> req_ids_ (input_batch w1) !! k' = Some (Some id) -> k = k').
Proof. intros Hs Hw. pose proof (run_runner_ok w Hs Hw) as Hr. destruct Hs as [H1 H2 H3 H4 H5 _]. by apply runner_planned. Qed.

(** C12: For a worker as in C11 after any run of promised outputs, and a next
    output with tokens that is consistent with the worker and gives drafts only
    to requests that are still in its batch ([delta_ok], [demands]): the
    positions, the tokens, the KV slots, the rows of logits and the drafts that
    the model gets are those of the scheduled tokens of each request, row by row
    of the batch. (Without the condition on drafts it fails, see
    [returning_drafts_lost].) *)
Theorem worker_gathers_inputs w out : setup_ok -> run w -> delta_ok cfg pooling_of out w -> demands cfg arange_len pooling_of out w -> so_total_num_scheduled_tokens out ≠ 0 ->
  exists w1 plan inp, update_states cfg pooling_of out w = Ok w1 /\ planned out w1 plan /\ prepare_inputs cfg arange_len out (input_batch w1) = Ok inp /\
    inputs_right cfg (input_batch w1) plan inp.
Proof. intros Hs Hw HD HM Hz. destruct (inputs_planned w out Hs Hw HD HM Hz) as (w1 & plan & inp & E1 & E2 & E3 & E4 & _). by exists w1, plan, inp. Qed.

(** ** The scheduler output *)

(** What the logits processors of the sampler hold for a row of the batch: the
    logit biases of its request, and its stop tokens as long as it has fewer than
    [min_tokens] tokens. *)
Definition row_processors (w : Runner) (k : nat) (c : CachedRequestState) (sp : SamplingParams) : Prop :=
  bias_tensors (bias_proc w) !! k = bias_state sp (rs_prompt_token_ids c) (rs_output_token_ids c) /\
  min_tensors (min_proc w) !! k =
    if zlen (outs_at w (rs_output_token_ids c)) <? sp_min_tokens (sampler sp)
    then Some (sp_min_tokens (sampler sp), rs_output_token_ids c, all_stop_token_ids (sampler sp)) else None.

(** C20: The logits processors follow the batch through removals, additions, gap
    closing and reordering: each row has the biases and the minimal length of its
    own request, and rows without a request have nothing. *)
Theorem logits_processors_follow w out : setup_ok -> run w -> delta_ok cfg pooling_of out w ->
  exists w', update_states cfg pooling_of out w = Ok w' /\
    (forall k id c sp, req_ids_ (input_batch w') !! k = Some (Some id) -> w_requests w' !! id = Some c -> rs_sampling_params c = Some sp -> row_processors w' k c sp) /\
    (forall k, (forall id, req_ids_ (input_batch w') !! k ≠ Some (Some id)) -> bias_tensors (bias_proc w') !! k = None /\ min_tensors (min_proc w') !! k = None).
Proof.
  intros Hs Hw HD. pose proof (run_runner_ok w Hs Hw) as Hr. destruct Hs as [H1 H2 H3 _ _ _].
  destruct (update_states_spec cfg pooling_of out w H1 H3 Hr HD) as (S & w' & Eu & Hr' & Hmin & _). destruct (rn_procs _ _ _ Hr' H2) as [[[B1 B2] B3 _] _ _].
  destruct (Hmin H2) as [[M1 M2] M3]. exists w'. split; [done|]. rewrite B3, M3. split; [|intros k Hk; split; [by apply B2|by apply M2]].
  intros k id c sp Ek Ec Esp. unfold row_processors. rewrite B3, M3. assert (Hv : view S w' !! id = Some (slot_of_state w' (default [] (S !! id)) c)) by (by rewrite view_lookup, Ec).
  specialize (B1 k id _ Ek Hv). specialize (M1 k id _ Ek Hv). unfold bias_right, min_exact in *. cbn in *. rewrite Esp in *. cbn in *. split; [done|].
  etransitivity; [exact M1|]. unfold min_state. pose proof (zlen_nonneg (outs_at w' (rs_output_token_ids c))). destruct (Z.ltb_spec (zlen (outs_at w' (rs_output_token_ids c))) (sp_min_tokens (sampler sp))).
  - rewrite (proj2 (Z.eqb_neq _ _)), (proj2 (Z.leb_gt _ _)) by lia. done.
  - rewrite (proj2 (Z.leb_le _ _)) by lia. by rewrite orb_true_r.
Qed.

(** Attention backends get the decodes before the prefills: the requests with at
    most the threshold's number of scheduled tokens have the first rows. *)
Theorem decodes_come_first w out t : setup_ok -> run w -> delta_ok cfg pooling_of out w -> num_kv_cache_groups cfg ≠ 0%nat -> reorder_batch_threshold cfg = Some t ->
  exists w', update_states cfg pooling_of out w = Ok w' /\ decodes_first t (so_num_scheduled_tokens out) (req_ids_ (input_batch w')) /\
    forall id, (exists k, req_ids_ (input_batch w') !! k = Some (Some id)) <-> id ∈ scheduled_ids out.
Proof.
  intros Hs Hw HD Hg Et. pose proof (run_runner_ok w Hs Hw) as Hr. destruct Hs as [H1 H2 H3 _ _ _].
  destruct (update_states_spec cfg pooling_of out w H1 H3 Hr HD) as (S & w' & Eu & Hr' & _ & _ & Hids & _ & _ & Hf). exists w'. split_and!; [done|by apply Hf|].
  intros id. rewrite <-Hids. by split; intros [k Hk]; exists k; apply (ci_index _ _ _ (bi_core _ _ _ (rn_batch _ _ _ Hr'))).
Qed.

(** ** Slots *)

(** The scheduled positions of different requests, and those of one request in
    different blocks, are in different blocks of the KV cache. *)
Definition writes_apart (out : SchedulerOutput) (w1 : Runner) (g : nat) (bs : Z) : Prop :=
  forall id id' c c' n n' pos pos' b, w_requests w1 !! id = Some c -> w_requests w1 !! id' = Some c' ->
    dget id (so_num_scheduled_tokens out) = Some n -> dget id' (so_num_scheduled_tokens out) = Some n' ->
    rs_num_computed_tokens c <= pos < rs_num_computed_tokens c + n -> rs_num_computed_tokens c' <= pos' < rs_num_computed_tokens c' + n' ->
    default [] (rs_block_ids c !! g) !! Z.to_nat (pos / bs) = Some b -> default [] (rs_block_ids c' !! g) !! Z.to_nat (pos' / bs) = Some b -> id = id' /\ pos / bs = pos' / bs.

(** The rows with their scheduled positions. *)
Definition row_positions (plan : list (Slot * Z)) : list (nat * Z) := blocks (fun k p => pair k <$> wk_positions p) plan.

Lemma blocks_elem {Q A} (plan : list Q) : forall (f : nat -> Q -> list A) x, x ∈ blocks f plan <-> exists k p, plan !! k = Some p /\ x ∈ f k p.
Proof.
  induction plan as [|q plan IH]; intros f x; [unfold blocks; cbn; rewrite elem_of_nil; split; [done|by intros (k & p & ? & _)]|].
  rewrite blocks_cons, elem_of_app, IH. split.
  - intros [H|(k & p & E & H)]; [by exists 0%nat, q|by exists (S k), p].
  - intros ([|k] & p & E & H); cbn in E; [injection E as ->; by left|right; by exists k, p].
Qed.

Lemma row_positions_elem plan k pos : (k, pos) ∈ row_positions plan <-> exists p, plan !! k = Some p /\ wk_start p <= pos < wk_start p + p.2.
Proof.
  unfold row_positions. rewrite blocks_elem. split.
  - intros (k' & p & E & (pos' & [= <- <-] & H%elem_of_seqZ)%list_elem_of_fmap). by exists p.
  - intros (p & E & H). exists k, p. split; [done|]. apply list_elem_of_fmap_2. by apply elem_of_seqZ.
Qed.

Lemma row_positions_nodup (plan : list (Slot * Z)) : NoDup (row_positions plan).
Proof.
  unfold row_positions. assert (H : forall n, NoDup (blocks (fun k p => pair (n + k)%nat <$> wk_positions p) plan)); [|exact (H 0%nat)].
  induction plan as [|q plan IH]; intros n; [constructor|]. rewrite blocks_cons. apply NoDup_app. split_and!.
  - apply (NoDup_fmap_2 _), NoDup_seqZ.
  - intros [k pos] (? & [= -> ->] & _)%list_elem_of_fmap (k' & p & _ & (? & [= H _] & _)%list_elem_of_fmap)%blocks_elem. lia.
  - rewrite (blocks_ext _ (fun k p => pair (S n + k)%nat <$> wk_positions p)); [apply IH|]. intros k p _. by rewrite Nat.add_succ_r.
Qed.

(** The slot of a position of a row. *)
Definition slot_at (bs : Z) (g : nat) (plan : list (Slot * Z)) (kp : nat * Z) : option Z :=
  p ← plan !! kp.1; token_slot bs (default [] (rs_block_ids (sl_state p.1) !! g)) kp.2.

Lemma slots_at bs g plan l : map Some l = blocks (fun _ p => wk_slots bs g p) plan -> Some <$> l = slot_at bs g plan <$> row_positions plan.
Proof.
  intros Em. etransitivity; [exact Em|]. symmetry. etransitivity; [apply blocks_map|]. apply blocks_ext. intros k p E. etransitivity; [symmetry; apply (list_fmap_compose (pair k) (slot_at bs g plan))|].
  apply list_fmap_ext. intros i pos _. unfold slot_at, compose. cbn. by rewrite E.
Qed.

Lemma slot_elem bs g plan l x : Some <$> l = slot_at bs g plan <$> row_positions plan -> x ∈ l ->
  exists k p pos, plan !! k = Some p /\ wk_start p <= pos < wk_start p + p.2 /\ token_slot bs (default [] (rs_block_ids (sl_state p.1) !! g)) pos = Some x.
Proof.
  intros Ef Hx. assert (H : Some x ∈ Some <$> l) by (by apply list_elem_of_fmap_2). rewrite Ef in H. apply list_elem_of_fmap in H as ([k pos] & E & H).
  apply row_positions_elem in H as (p & Ep & Hp). exists k, p, pos. split_and!; try done; try lia. unfold slot_at in E. cbn in E. rewrite Ep in E. by cbn in E.
Qed.

Lemma slots_nodup bs g plan l : Some <$> l = slot_at bs g plan <$> row_positions plan ->
  (forall k k' p p' pos pos' x, plan !! k = Some p -> wk_start p <= pos < wk_start p + p.2 -> token_slot bs (default [] (rs_block_ids (sl_state p.1) !! g)) pos = Some x ->
    plan !! k' = Some p' -> wk_start p' <= pos' < wk_start p' + p'.2 -> token_slot bs (default [] (rs_block_ids (sl_state p'.1) !! g)) pos' = Some x -> (k, pos) = (k', pos')) -> NoDup l.
Proof.
  intros Ef Hinj. apply (NoDup_fmap_1 Some). rewrite Ef. apply NoDup_fmap_2_strong; [|apply row_positions_nodup]. intros [k pos] [k' pos'] Hk Hk' E.
  assert (Hx : slot_at bs g plan (k, pos) ∈ Some <$> l) by (rewrite Ef; by apply list_elem_of_fmap_2). apply list_elem_of_fmap in Hx as (x & Ex & _). rewrite Ex in E. symmetry in E.
  apply row_positions_elem in Hk as (p & Ep & Hp), Hk' as (p' & Ep' & Hp'). unfold slot_at in Ex, E. cbn in Ex, E. rewrite Ep in Ex. rewrite Ep' in E. cbn in Ex, E.
  by eapply (Hinj k k' p p' pos pos' x).
Qed.

(** No two scheduled tokens of a step are written to the same slot, in any KV
    cache group: writing one token never overwrites another. *)
Theorem step_slots_distinct w out w1 : setup_ok -> run w -> delta_ok cfg pooling_of out w -> demands cfg arange_len pooling_of out w -> so_total_num_scheduled_tokens out ≠ 0 ->
  update_states cfg pooling_of out w = Ok w1 -> (forall g t, block_table (input_batch w1) !! g = Some t -> writes_apart out w1 g (bt_block_size t)) ->
  exists inp, prepare_inputs cfg arange_len out (input_batch w1) = Ok inp /\
    length (in_slots inp) = length (block_table (input_batch w1)) /\ Forall (fun slots => NoDup slots /\ zlen slots = so_total_num_scheduled_tokens out) (in_slots inp).
Proof.
  intros Hs Hw HD HM Hz Eu Hap. destruct (inputs_planned w out Hs Hw HD HM Hz) as (w1' & plan & inp & Eu' & HP & Ei & HI & HW & Htot & Hinj). rewrite Eu in Eu'. injection Eu' as <-.
  exists inp. destruct (ir_slots _ _ _ _ HI) as [Hlen HF]. split; [done|]. split; [done|]. apply Forall_lookup. intros g l El.
  destruct (block_table (input_batch w1) !! g) as [t|] eqn:Et; [|apply lookup_ge_None in Et; apply lookup_lt_Some in El; lia]. pose proof (HF g t l Et El) as Em. set (bs := bt_block_size t) in *.
  pose proof (slots_at bs g plan l Em) as Ef.
  split.
  - apply (slots_nodup bs g plan l Ef). intros k k' p p' pos pos' x Ep Hp Ex Ep' Hp' E.
    destruct (Forall2_lookup_r _ _ _ _ _ HP Ep) as (o & Eo & id & c & -> & Hc & Es & En), (Forall2_lookup_r _ _ _ _ _ HP Ep') as (o' & Eo' & id' & c' & -> & Hc' & Es' & En').
    pose proof (proj1 (Forall_lookup _ _) HW _ _ Ep) as [W1 W2 _ W3]. pose proof (proj1 (Forall_lookup _ _) HW _ _ Ep') as [W1' W2' _ _].
    assert (Hbs : 0 < bs) by (destruct (Forall2_lookup_l _ _ _ _ _ W3 Et) as (ids & _ & _ & H & _); exact H).
    destruct (token_slot_inj bs _ _ pos pos' x Hbs ltac:(lia) ltac:(lia) Ex E) as (b & B1 & B2 & Hmod). unfold wk_start in *. rewrite Es in B1, Hp. rewrite Es' in B2, Hp'. cbn in *.
    destruct (Hap g t Et id id' c c' p.2 p'.2 pos pos' b) as [<- Hdiv]; try done.
    assert (pos = pos') as -> by (pose proof (Z.div_mod pos bs); pose proof (Z.div_mod pos' bs); change (bt_block_size t) with bs in Hdiv; rewrite Hdiv, Hmod in *; lia). f_equal. by apply (Hinj k k' id).
  - rewrite <-Htot, <-(length_positions (input_batch w1) plan HW). unfold zlen. f_equal. rewrite <-(length_fmap Some l), Ef, length_fmap.
    unfold positions. apply length_concat_same, imap_Forall2. intros k p _. by rewrite length_fmap.
Qed.
End Props.

(** * Witnesses *)

#[local] Existing Instance elements_order.

Lemma demo_setup : setup_ok demo_runner_config 16 demo_device demo_tables.
Proof. split; [done|done| |apply demo_device_ok|cbn; lia|apply multi_init_ok]. intros t [= <-]. by right. Qed.

Lemma demo_run : worker_run 0%nat demo_runner_config 16 demo_pooling demo_device (runner_init demo_runner_config demo_tables demo_garbage) demo_worker2.
Proof. destruct demo_step1 as [o E]. apply (run_step _ _ _ _ _ _ demo_worker demo_out1 None o); [apply run_start|apply demo_promised1|exact E]. Qed.

Lemma worker_states_well_formed_witness : runner_ok demo_runner_config ∅ demo_worker2.
Proof. exact (worker_states_well_formed 0%nat demo_runner_config 16 demo_pooling demo_device demo_tables demo_garbage demo_worker2 demo_setup demo_run). Defined.

Lemma worker_executes_steps_witness : exists w1 valid w', demo_step demo_out2 demo_worker2 = Ok (Sampled (req_ids_ (input_batch w1)) (req_id_to_index (input_batch w1)) valid, w') /\
  step_result demo_runner_config demo_pooling demo_out2 demo_worker2 w1 valid w'.
Proof. apply (worker_executes_steps 0%nat demo_runner_config 16 demo_pooling demo_device demo_tables demo_garbage demo_worker2 demo_out2 None demo_setup demo_run demo_promised2). done. Defined.

Lemma worker_gathers_inputs_witness : exists w1 plan inp, update_states demo_runner_config demo_pooling demo_out2 demo_worker2 = Ok w1 /\ planned demo_out2 w1 plan /\
  prepare_inputs demo_runner_config 16 demo_out2 (input_batch w1) = Ok inp /\ inputs_right demo_runner_config (input_batch w1) plan inp.
Proof.
  apply (worker_gathers_inputs 0%nat demo_runner_config 16 demo_pooling demo_device demo_tables demo_garbage demo_worker2 demo_out2 demo_setup demo_run);
    [apply demo_promised2|apply demo_promised2|done].
Defined.

Lemma logits_processors_follow_witness : exists w', update_states demo_runner_config demo_pooling demo_out2 demo_worker2 = Ok w'.
Proof.
  destruct (logits_processors_follow 0%nat demo_runner_config 16 demo_pooling demo_device demo_tables demo_garbage demo_worker2 demo_out2 demo_setup demo_run) as (w' & E & _);
    [apply demo_promised2|exists w'; exact E].
Defined.

Lemma decodes_come_first_witness : exists w', update_states demo_runner_config demo_pooling demo_out2 demo_worker2 = Ok w' /\
  decodes_first 1 (so_num_scheduled_tokens demo_out2) (req_ids_ (input_batch w')).
Proof.
  destruct (decodes_come_first 0%nat demo_runner_config 16 demo_pooling demo_device demo_tables demo_garbage demo_worker2 demo_out2 1 demo_setup demo_run) as (w' & E & H & _);
    [apply demo_promised2|discriminate|reflexivity|exists w'; split; [exact E|exact H]].
Defined.

Definition demo_updated : Runner := match update_states demo_runner_config demo_pooling demo_out2 demo_worker2 with Ok w => w | Err _ => demo_worker end.

Lemma demo_updated_eq : update_states demo_runner_config demo_pooling demo_out2 demo_worker2 = Ok demo_updated.
Proof. unfold demo_updated. destruct (run_returns (update_states demo_runner_config demo_pooling demo_out2 demo_worker2)) as [w E]; [by vm_compute|]. by rewrite E. Qed.

Lemma demo_updated_known : (fun c => (rs_num_computed_tokens c, rs_block_ids c)) <$> w_requests demo_updated !! "a"%string = Some (3, [[1; 2; 4]]) /\
  (fun c => (rs_num_computed_tokens c, rs_block_ids c)) <$> w_requests demo_updated !! "b"%string = Some (2, [[3; 5]]) /\
  bt_block_size <$> block_table (input_batch demo_updated) = [2].
Proof. split_and!; by vm_compute. Qed.

(** The blocks behind the scheduled positions of the second step. *)
Lemma demo_blocks id c n pos b : w_requests demo_updated !! id = Some c -> dget id (so_num_scheduled_tokens demo_out2) = Some n ->
  rs_num_computed_tokens c <= pos < rs_num_computed_tokens c + n -> default [] (rs_block_ids c !! 0%nat) !! Z.to_nat (pos / 2) = Some b ->
  (id, pos / 2, b) ∈ [("a"%string, 1, 2); ("a"%string, 2, 4); ("b"%string, 1, 5)].
Proof.
  generalize demo_updated_known. generalize demo_updated. intros w (Ha & Hb & _) Hc Hn Hpos Hb'. cbn in Hn. destruct (decide (id = "a"%string)) as [-> |Ha'].
  - injection Hn as <-. rewrite Hc in Ha. cbn in Ha. injection Ha as E1 E2. rewrite E1 in Hpos. rewrite E2 in Hb'.
    assert (pos = 3 \/ pos = 4 \/ pos = 5) as [-> |[-> | ->]] by lia; vm_compute in Hb'; injection Hb' as <-; apply (bool_decide_unpack _); by vm_compute.
  - destruct (decide (id = "b"%string)) as [-> |]; [|done]. injection Hn as <-. rewrite Hc in Hb. cbn in Hb. injection Hb as E1 E2. rewrite E1 in Hpos. rewrite E2 in Hb'.
    assert (pos = 2 \/ pos = 3) as [-> | ->] by lia; vm_compute in Hb'; injection Hb' as <-; apply (bool_decide_unpack _); by vm_compute.
Qed.

Lemma step_slots_distinct_witness : exists inp, prepare_inputs demo_runner_config 16 demo_out2 (input_batch demo_updated) = Ok inp /\
  length (in_slots inp) = length (block_table (input_batch demo_updated)) /\ Forall (fun slots => NoDup slots /\ zlen slots = 5) (in_slots inp).
Proof.
  apply (step_slots_distinct 0%nat demo_runner_config 16 demo_pooling demo_device demo_tables demo_garbage demo_worker2 demo_out2 demo_updated demo_setup demo_run);
    [apply demo_promised2|apply demo_promised2|discriminate|exact demo_updated_eq|].
  intros g t Et. destruct demo_updated_known as (_ & _ & Hbs). assert (Eg : bt_block_size <$> (block_table (input_batch demo_updated) !! g) = Some (bt_block_size t)) by (rewrite Et; reflexivity).
  rewrite <-list_lookup_fmap, Hbs in Eg. destruct g as [|g]; [|discriminate Eg]. injection Eg as <-.
  intros id id' c c' n n' pos pos' b Hc Hc' Hn Hn' Hp Hp' Hb Hb'. pose proof (demo_blocks id c n pos b Hc Hn Hp Hb) as H. pose proof (demo_blocks id' c' n' pos' b Hc' Hn' Hp' Hb') as H'.
  revert H H'. clear. generalize (pos / 2), (pos' / 2). intros q q' H H'. apply list_elem_of_In in H, H'. cbn in H, H'. intuition congruence.
Defined.
