(* ===== verification/GrammarProps.v ===== *)
(** Structured output from the grammars to the logits: the scheduler's bitmask and
    the worker's placement of its rows, put together. *)
From Stdlib Require Import ZArith Lia String.
From stdpp Require Import numbers gmap strings list sorting.
From S2P Require Import Prelude Request BlockTable InputBatch BatchInv LogitsProcs SchedState ModelRunner RunnerInv InputsSpec GrammarBitmask GrammarBackends BitmaskSpec WorkerDemo WorkerProps.

Open Scope Z_scope.

Section Grammar.
Context {M Gr : Type} `{HG : !Grammar M Gr} (full blank : M) (cfg : SOConfig) `{HL : !GrammarLaws M Gr (so_max_spec cfg)}.
Notation Manager := (SOManager (M := M) (Gr := Gr)).
Notation Req := (SORequest (Gr := Gr)).

(** The grammar of a request after its first [j] drafts. *)
Definition grammar_at (id : string) (r : Req) (g : Gr) (drafts : list Z) (j : nat) : Gr :=
  foldl (fun g t => advance (M := M) id (should_fill_bitmask cfg r).1 t g) g (take j drafts).

Lemma mask_rows_lookup id a toks : forall g j, (j <= length toks)%nat ->
  mask_rows full id a toks g !! j = Some (row_of full a (foldl (fun g t => advance (M := M) id a t g) g (take j toks))).
Proof.
  induction toks as [|t toks IH]; intros g [|j] Hj; cbn in Hj |- *; try done; [lia|]. apply IH. lia.
Qed.

(** Everything the manager relies on when it fills the bitmask. *)
Record manager_ready (ids : gmap string Z) (spec : gmap string (list Z)) (m : Manager) : Prop := {
  ms_some : ids ≠ ∅;
  ms_buffer : buffer_ok cfg m;
  ms_ready : forall id, is_Some (ids !! id) -> request_ready (M := M) cfg spec (so_requests m) id;
  ms_drafts : forall id toks, spec !! id = Some toks -> (length toks <= so_max_spec cfg)%nat;
  ms_size : (size ids <= so_max_num_seqs cfg)%nat
}.

(** C19: For grammars whose [is_terminated] only reads the grammar and whose [rollback]
    undoes accepted tokens, as those of the xgrammar backend (GrammarBackends.v shows
    that it does; the guidance and outlines backends do not), in a step in which every
    structured request of the bitmask has a row in the worker's batch, a compiled
    grammar that accepts its drafts, and no more drafts than were configured: the mask
    next to each row of logits is the one of the request that the row belongs to, in
    the state its grammar has after the drafts before the row; requests without a
    grammar get a mask that allows everything, whatever the orders of the requests in
    the scheduler and in the worker's batch. The grammars are left in the states they
    had. *)
Theorem bitmask_reaches_logits order out bcfg V b (m : Manager) : (forall jobs, order jobs ≡ₚ jobs) ->
  manager_ready (so_structured_output_request_ids out) (so_spec_decode_tokens out) m ->
  core_inv bcfg V b -> dense b -> (forall id, is_Some (so_structured_output_request_ids out !! id) -> is_Some (req_id_to_index b !! id)) ->
  let rows_of := num_rows (so_spec_decode_tokens out) in
  exists mask m' rows idx, grammar_bitmask full blank cfg order (so_structured_output_request_ids out) (so_spec_decode_tokens out) m = Ok (Some mask, m') /\
    same_grammars cfg (so_requests m) (so_requests m') /\
    apply_grammar_bitmask full (Z.to_nat (total (rows_of <$> row_ids b))) out mask b = Ok (rows, idx) /\
    forall k id j, req_ids_ b !! k = Some (Some id) -> (j <= length (spec_of out id))%nat ->
      (so_structured_output_request_ids out !! id = None -> rows !! (Z.to_nat (before rows_of (row_ids b) k) + j)%nat = Some full) /\
      forall r g, is_Some (so_structured_output_request_ids out !! id) -> so_requests m !! id = Some r -> so_grammar r = Some g ->
        rows !! (Z.to_nat (before rows_of (row_ids b) k) + j)%nat = Some (row_of full (should_fill_bitmask cfg r).1 (grammar_at id r g (spec_of out id) j)).
Proof.
  intros Ho [R1 R2 R3 R4 R5] HC Hd Hin rows_of. set (ids := so_structured_output_request_ids out) in *. set (spec := so_spec_decode_tokens out) in *.
  destruct (bitmask_spec full blank cfg order ids spec m Ho R1 R2 R3 R4 R5) as (m' & Em & Hsame & _).
  set (req_rows := fun id => request_rows full cfg spec (so_requests m) (id, 0)).
  assert (Er : all_rows full cfg spec (so_requests m) (sorted_items (map_to_list ids)) = concat (req_rows <$> (sorted_items (map_to_list ids)).*1)).
  { unfold all_rows. rewrite <-list_fmap_compose. f_equal. }
  destruct (apply_rows full ids spec bcfg V b HC Hd Hin out req_rows eq_refl eq_refl) as (rows & idx & Ea & _ & Hrows).
  { intros id Hid. destruct (R3 id Hid) as (r & g & Eq & Eg & _). unfold req_rows, request_rows, num_rows. cbn [fst]. rewrite Eq, Eg. unfold zlen. rewrite mask_rows_length. lia. }
  eexists _, m', rows, idx. split; [exact Em|]. split; [exact Hsame|]. rewrite Er. split; [exact Ea|].
  intros k id j Ek Hj. assert (Hj' : (j < Z.to_nat (num_rows spec id))%nat) by (unfold num_rows, zlen; unfold spec_of in Hj; fold spec in Hj; lia).
  pose proof (Hrows k id j Ek Hj') as Hrow. split.
  - intros Hn. etransitivity; [exact Hrow|]. rewrite decide_False; [done|]. rewrite Hn. by intros [? ?].
  - intros r g Hs Eq Eg. etransitivity; [exact Hrow|]. rewrite decide_True by done. unfold req_rows, request_rows. cbn [fst]. rewrite Eq, Eg. by apply mask_rows_lookup.
Qed.

(** Filling the bitmask with a thread pool gives what filling it in one thread
    gives, whatever the threshold and the order in which the threads run. *)
Theorem parallel_fill_is_serial order threshold ids spec (m : Manager) : (forall jobs, order jobs ≡ₚ jobs) -> manager_ready ids spec m ->
  let other := mkSOConfig (so_max_num_seqs cfg) (so_max_spec cfg) (so_reasoner cfg) threshold in
  exists mask m1 m2, grammar_bitmask full blank cfg order ids spec m = Ok (Some mask, m1) /\
    grammar_bitmask full blank other id ids spec m = Ok (Some mask, m2) /\
    forall id, so_grammar <$> so_requests m1 !! id = so_grammar <$> so_requests m2 !! id.
Proof.
  intros Ho [R1 R2 R3 R4 R5] other. destruct (bitmask_spec full blank cfg order ids spec m Ho R1 R2 R3 R4 R5) as (m1 & E1 & G1 & _).
  destruct (bitmask_spec full blank other id ids spec m ltac:(done) R1 R2 R3 R4 R5) as (m2 & E2 & G2 & _). eexists _, m1, m2. split; [exact E1|]. split; [exact E2|].
  intros rid. specialize (G1 rid). specialize (G2 rid). change (should_fill_bitmask other) with (should_fill_bitmask (Gr := Gr) cfg) in G2. rewrite <-G2 in G1. clear -G1.
  destruct (so_requests m1 !! rid), (so_requests m2 !! rid); cbn in *; congruence.
Qed.
End Grammar.

(** * Witnesses *)

(** A matcher that terminates after three tokens; its row is the number of them. *)
#[local] Instance counting_matcher : Matcher nat (list Z) := {|
  mt_accept := fun t m => if (length m =? 3)%nat then (false, m) else (true, m ++ [t]);
  mt_terminated := fun m => (length m =? 3)%nat;
  mt_rollback := fun n m => take (length m - Z.to_nat n) m;
  mt_reset := fun _ => [];
  mt_row := @length Z
|}.

#[local] Instance counting_laws limit : MatcherLaws nat (list Z) limit.
Proof.
  split.
  - intros t m m'. cbn. destruct (_ =? _)%nat; [by intros [= ->]|done].
  - intros t m Ht. cbn in *. by rewrite Ht.
  - intros toks m m' _ H. assert (E : m' = m ++ toks).
    { revert m H. induction toks as [|t toks IH]; intros m H; cbn in H; [injection H as <-; by rewrite app_nil_r|]. destruct (_ =? _)%nat; [done|]. rewrite (IH _ H), <-app_assoc. done. }
    subst m'. cbn. rewrite length_app. unfold zlen. rewrite Nat2Z.id. replace (length m + length toks - length toks)%nat with (length m) by lia. apply take_app_length.
Qed.

Definition demo_so_config : SOConfig := mkSOConfig 4 2 None 1.
Definition demo_manager : SOManager (M := nat) (Gr := XgrammarGrammar (list Z)) :=
  mkManager {["a"%string := mkSO [1; 2; 3] (Some (mkXgrammar [9] 1 false)) None; "b"%string := mkSO [4] (Some (xgrammar_init [])) None]} None.
Definition demo_structured : SchedulerOutput := demo_output [] make_empty [("a"%string, 3); ("b"%string, 2)] {["a"%string := [8; 9]]} {["b"%string := 0; "a"%string := 1]}.

Lemma demo_structured_ids id : is_Some (so_structured_output_request_ids demo_structured !! id) -> id = "a"%string \/ id = "b"%string.
Proof. intros Hid. cbn in Hid. apply elem_of_dom in Hid. set_solver. Qed.

Lemma demo_manager_ready : manager_ready demo_so_config (so_structured_output_request_ids demo_structured) (so_spec_decode_tokens demo_structured) demo_manager.
Proof.
  split; [done|done| | |vm_compute; lia].
  - intros id [-> | ->]%demo_structured_ids; eexists _, _; (split_and!; [done|done|done|vm_compute; lia]).
  - intros id toks E. cbn in E. apply lookup_singleton_Some in E as [<- <-]. cbn. lia.
Qed.

(** Row 2 belongs to the first request, whose grammar has terminated after its
    drafts; row 3 is the only one of the second. *)
Lemma bitmask_reaches_logits_witness : exists mask m' rows idx,
  grammar_bitmask 100%nat 0%nat demo_so_config reverse (so_structured_output_request_ids demo_structured) (so_spec_decode_tokens demo_structured) demo_manager = Ok (Some mask, m') /\
  apply_grammar_bitmask 100%nat 4 demo_structured mask (input_batch demo_worker2) = Ok (rows, idx) /\ rows !! 2%nat = Some 100%nat /\ rows !! 3%nat = Some 0%nat.
Proof.
  pose proof (run_runner_ok 0%nat demo_runner_config 16 demo_pooling demo_device demo_tables demo_garbage demo_worker2 demo_setup demo_run) as Hr.
  destruct demo_known as (_ & _ & _ & _ & _ & Ia & Ib).
  assert (Eids : req_ids_ (input_batch demo_worker2) = [Some "a"%string; Some "b"%string]) by (vm_compute; reflexivity).
  destruct (bitmask_reaches_logits 100%nat 0%nat demo_so_config reverse demo_structured (batch_config demo_runner_config) (view ∅ demo_worker2) (input_batch demo_worker2) demo_manager
    (reverse_Permutation (A := _)) demo_manager_ready (bi_core _ _ _ (rn_batch _ _ _ Hr)) (rn_dense _ _ _ Hr)) as (mask & m' & rows & idx & E1 & _ & E2 & H).
  - intros id [-> | ->]%demo_structured_ids; [rewrite Ia|rewrite Ib]; eexists; reflexivity.
  - unfold row_ids in *. rewrite Eids in *. exists mask, m', rows, idx. split; [exact E1|]. split; [exact E2|]. split.
    + destruct (H 0%nat "a"%string 2%nat eq_refl ltac:(vm_compute; lia)) as [_ H']. exact (H' _ _ ltac:(eexists; reflexivity) eq_refl eq_refl).
    + destruct (H 1%nat "b"%string 0%nat eq_refl ltac:(vm_compute; lia)) as [_ H']. exact (H' _ _ ltac:(eexists; reflexivity) eq_refl eq_refl).
Defined.

(** Two jobs, which the threads run in reverse order. *)
Lemma demo_parallel_ready : manager_ready (mkSOConfig 4 0 None 1) (so_structured_output_request_ids demo_structured) ∅ demo_manager.
Proof. split; [done|done| |done|vm_compute; lia]. intros id [-> | ->]%demo_structured_ids; eexists _, _; (split_and!; [done|done|done|vm_compute; lia]). Qed.

Lemma parallel_fill_is_serial_witness : exists mask m1 m2,
  grammar_bitmask 100%nat 0%nat (mkSOConfig 4 0 None 1) reverse (so_structured_output_request_ids demo_structured) ∅ demo_manager = Ok (Some mask, m1) /\
  grammar_bitmask 100%nat 0%nat (mkSOConfig 4 0 None 9) id (so_structured_output_request_ids demo_structured) ∅ demo_manager = Ok (Some mask, m2) /\
  forall id, so_grammar <$> so_requests m1 !! id = so_grammar <$> so_requests m2 !! id.
Proof. exact (parallel_fill_is_serial 100%nat 0%nat (mkSOConfig 4 0 None 1) reverse 9 _ _ demo_manager (reverse_Permutation (A := _)) demo_parallel_ready). Defined.
