(* ===== verification/WorkerErrors.v ===== *)
(** Where the worker does not do what it means to: masks of allowed tokens that
    reach the wrong request, drafts that are lost, and structured requests that
    were not scheduled. *)
From Stdlib Require Import ZArith Lia String QArith Qcanon.
From stdpp Require Import numbers gmap strings list.
From S2P Require Import Prelude Request RequestQueue SchedState Scheduler SchedulerUpdate SchedProps BlockTable InputBatch BatchInv LogitsProcs ModelRunner Reorder RunnerInv RunnerStep NgramProposer ModelInputs InputsSpec Bookkeeping GrammarBitmask BitmaskSpec WorkerStep WorkerRuns WorkerDemo WorkerProps.

Open Scope Z_scope.

(** * Masks of allowed tokens *)

(** [swap_states] exchanges two requests, but not their masks of allowed tokens:
    both rows get the mask of the second, and the first request is sampled with
    the allowed tokens of the other. *)
Theorem swap_shares_allowed_mask cfg i j b b' m ri rj : is_pooling_model cfg = false -> i ≠ j ->
  allowed_token_ids_mask (sampling_state b) = Some m -> m !! i = Some ri -> m !! j = Some rj -> swap_states cfg i j b = Ok b' ->
  req_ids_ b' !! i = req_ids_ b !! j /\ req_ids_ b' !! j = req_ids_ b !! i /\
  exists m', allowed_token_ids_mask (sampling_state b') = Some m' /\ m' !! i = Some rj /\ m' !! j = Some rj.
Proof.
  intros Hp Hij Em Ei Ej Es. unfold swap_states in Es. rewrite Hp in Es. inv_ok. unfold swap_sampling in *. cbn [sampling_state set_rows set_slots set_sampling_state req_ids_] in *.
  rewrite Em in *. unfold swap_mask in *. inv_ok. rewrite (np_swap_ok _ _ _ _ _ E E0) in E1. injection E1 as <-. cbn. rewrite !(np_swap_lookup i j (req_ids_ b) _ _ _ E E0).
  rewrite (decide_False (P := i = j)), !decide_True by done. split; [done|]. split; [done|]. eexists. split; [done|].
  apply lookup_lt_Some in Ei as Li, Ej as Lj. rewrite list_lookup_insert_eq in E13 by done. injection E13 as <-. simplify_eq.
  rewrite list_lookup_insert_ne, !list_lookup_insert_eq by (rewrite ?length_insert; done). done.
Qed.

(** * Structured requests that are not scheduled *)

Lemma foldM_stuck {A T} (f : T -> A -> result T) l x : x ∈ l -> (forall s, exists e, f s x = Err e) -> forall s, exists e, foldM f s l = Err e.
Proof.
  intros Hx Hf. induction l as [|y l IH]; [by apply elem_of_nil in Hx|]. intros s. cbn. destruct (f s y) as [s'|e] eqn:E; [|by exists e].
  apply elem_of_cons in Hx as [-> |Hx]; [destruct (Hf s) as [e E']; congruence|]. cbn. by apply IH.
Qed.

Lemma unplaced_row {M} (full : M) n out mask b bcfg V id : core_inv bcfg V b -> dense b -> is_Some (so_structured_output_request_ids out !! id) -> req_id_to_index b !! id = None ->
  exists e, apply_grammar_bitmask full n out mask b = Err e.
Proof.
  intros HC Hd [v Hv] Hn. unfold apply_grammar_bitmask. set (ids := so_structured_output_request_ids out). set (spec := so_spec_decode_tokens out).
  assert (Ho : logit_offsets ids spec b !! id = None).
  { unfold logit_offsets. rewrite (sorted_index_items bcfg V b HC Hd).
    assert (Ei : imap (fun k o => (default ""%string o, Z.of_nat k)) (req_ids_ b) = imap (fun k x => (x, Z.of_nat (0 + k))) (row_ids b)) by (unfold row_ids; by rewrite imap_fmap).
    rewrite Ei. destruct (offsets_spec ids spec (row_ids b) 0 0 ∅) as [_ H].
    - apply NoDup_alt. intros i j x Hi Hj. apply (row_ids_index bcfg V b HC Hd) in Hi, Hj. congruence.
    - rewrite H; [done|]. intros Hin. apply list_elem_of_lookup in Hin as [k Hk]. apply (row_ids_index bcfg V b HC Hd) in Hk. congruence. }
  destruct (foldM_stuck (place_request (logit_offsets ids spec b) spec mask) (sorted_items (map_to_list ids)) (id, v)) with (s := (replicate n full, [] : list Z, 0)) as [e E].
  - rewrite sorted_items_perm. by apply elem_of_map_to_list.
  - intros [[rows o] c]. unfold place_request. cbn [fst]. rewrite Ho. by eexists.
  - exists e. by rewrite E.
Qed.

Section Unscheduled.
Context `{HSO : !SetOrder} {M P : Type} (full : M) (cfg : RunnerConfig) (arange_len : nat) (pooling_of : NewRequestData -> PoolingParams) (dev : Device M P).
Context (tables : list BlockTable) (garbage : SamplingRow).

(** A step whose bitmask names a request that is not scheduled in the step fails,
    with everything else in order (the worker set up, its run and the scheduler's
    output as the worker relies on them): the worker looks the request up among the
    rows of its batch. *)
Theorem unscheduled_structured_raises w out mask id : setup_ok cfg arange_len dev tables -> worker_run full cfg arange_len pooling_of dev (runner_init cfg tables garbage) w ->
  delta_ok cfg pooling_of out w -> demands cfg arange_len pooling_of out w -> so_total_num_scheduled_tokens out ≠ 0 ->
  is_Some (so_structured_output_request_ids out !! id) -> id ∉ scheduled_ids out ->
  exists e, execute_model full cfg arange_len pooling_of dev out (Some mask) w = Err e.
Proof.
  intros Hs Hw HD HM Hz Hid Hno. pose proof (run_runner_ok _ _ _ _ _ _ _ w Hs Hw) as Hr. destruct Hs as [H1 H2 H3 H4 H5 _].
  destruct (step_inputs cfg arange_len pooling_of out w H1 H3 Hr HD HM Hz H5) as (S & w1 & plan & inp & Eu & Hr1 & _ & Hids & _ & _ & _ & Ei & _ & _).
  assert (Hn : req_id_to_index (input_batch w1) !! id = None) by (apply eq_None_not_Some; by rewrite Hids).
  destruct (unplaced_row full (length (in_logits_indices inp)) out mask (input_batch w1) _ _ id (bi_core _ _ _ (rn_batch _ _ _ Hr1)) (rn_dense _ _ _ Hr1) Hid Hn) as [e E].
  exists e. unfold execute_model. rewrite Eu. cbn [mbind result_bind]. rewrite (proj2 (Z.eqb_neq _ _) Hz), Ei. cbn [mbind result_bind]. by rewrite H1, H2, E.
Qed.
End Unscheduled.

(** The scheduler produces such steps: it lists every running request that uses
    structured output, also those that got no tokens in the step. *)
Definition structured_request (id : string) (toks : list Z) : Request :=
  mkRequest id 0 0 (Some demo_sampling) false None None 0%Qc WAITING_FOR_FSM true [] None PNone PNone None ∅ 16 toks [] toks 0 [] 0 None [] (-1) 0 [].

(** Two requests and a budget of three tokens; in the second step the drafts of
    the first one use up the budget. *)
Definition drafts_scenario : result (SchedulerOutput * Scheduler Empty_set (gset string)) :=
  let cfg := demo_cfg FCFS 3 in
  s ← demo_sched FCFS 9;
  let s := set_structured_output_manager {["a"%string; "b"%string]} s in
  s ← put_request cfg 0 (structured_request "a" [1; 2]) s;
  s ← put_request cfg 1 (structured_request "b" [1; 2; 3; 4]) s;
  '(out, s) ← SchedProps.run_step cfg 0%Qc s;
  s ← run_update cfg 0%Qc out [("a"%string, [5]); ("b"%string, [])] s;
  s ← update_draft_token_ids ["a"%string] [[6; 7]] s;
  SchedProps.run_step cfg 0%Qc s.

Theorem structured_ids_cover_unscheduled : exists out s, drafts_scenario = Ok (out, s) /\ so_num_scheduled_tokens out = [("a"%string, 3)] /\
  is_Some (so_structured_output_request_ids out !! "b"%string) /\ "b"%string ∉ scheduled_ids out.
Proof.
  destruct drafts_scenario as [[out s]|e] eqn:E; [|exfalso; vm_compute in E; discriminate E]. exists out, s. split; [reflexivity|].
  observe E (fun x : SchedulerOutput * Scheduler Empty_set (gset string) => (so_num_scheduled_tokens x.1, so_structured_output_request_ids x.1 !! "b"%string)) ([("a"%string, 3)], Some 1).
  clear E. cbn in Hobs. injection Hobs as H1 H2. split; [done|]. split; [by eexists|]. unfold scheduled_ids. rewrite H1. set_solver.
Qed.

#[local] Existing Instance elements_order.

(** Two requests are running; the next step schedules the first with two drafts and
    not the second, which uses structured output. *)
Definition demo_left_out : SchedulerOutput :=
  WorkerDemo.demo_output [] (mkCached ["a"%string] [false] [] [Some [[4]]] [3]) [("a"%string, 3)] {["a"%string := [8; 9]]} {["b"%string := 1]}.

Lemma demo_left_out_promised : promised (M := nat) demo_runner_config 16 demo_pooling demo_left_out None demo_worker2.
Proof.
  generalize demo_known. generalize demo_worker2. intros w (Ha & _ & Oa & _ & Hsh & Ia & _). split; [| |done].
  - split; [cbn; distinct|set_solver|cbn; lia|by intros nr ?%elem_of_nil|]. intros i id Hi. split; [set_solver|].
    destruct i as [|i]; [|done]; injection Hi as <-.
    known Ha E. eexists _, _, _, _. split_and!; [exact E|done|]. cbn. rewrite Oa. split; try done; [by intros ids _ [= <-]|rewrite Hsh; apply Forall2_cons_2; [cbn; lia|by apply Forall2_nil_2]|vm_compute; lia].
  - assert (Ra : row_drafts demo_left_out w "a" = [8; 9]) by (unfold row_drafts; rewrite decide_True; [done|split; [set_solver|unfold absent; by rewrite Ia]]).
    split; [by intros nr n ?%elem_of_nil| | |cbn; distinct|done|done|rewrite Hsh; apply Forall_singleton; by vm_compute].
    + intros i id c n nc nb r Hi Hc He Hn. destruct i as [|i]; [|done]; injection Hi as <-; injection Hn as <-; injection He as <- <- <-; rewrite Ra, Hsh.
      known Ha E. rewrite E in Hc. injection Hc as <-. cbn. rewrite Oa. split; [done|done|covered|split_and!; by vm_compute|cbn; lia].
    + intros id toks H. cbn in H. apply lookup_singleton_Some in H as [<- <-]. split; [set_solver|]. unfold absent. by rewrite Ia.
Qed.

Lemma unscheduled_structured_raises_witness : is_Some (w_requests demo_worker2 !! "b"%string) /\ exists e,
  execute_model 0%nat demo_runner_config 16 demo_pooling demo_device demo_left_out (Some [7%nat]) demo_worker2 = Err e.
Proof.
  split; [by vm_compute; eexists|].
  apply (unscheduled_structured_raises 0%nat demo_runner_config 16 demo_pooling demo_device demo_tables demo_garbage demo_worker2 _ [7%nat] "b" demo_setup demo_run);
    [apply demo_left_out_promised|apply demo_left_out_promised|discriminate|eexists; reflexivity|].
  vm_compute. intros H. discriminate H.
Defined.

(** * Runs with masks *)

Definition allowed_new (id : string) (allowed : option (list Z)) (blk : Z) : NewRequestData :=
  mkNew id [1] [] [] (Some (mkSampling (Some 16) false None false [] None None (mkSampler 0 1 0 0 None 0 0 1 0 [] None allowed None))) false [[blk]] 0 None.

Definition updates (outs : list SchedulerOutput) : result Runner := foldM (fun w out => update_states demo_runner_config demo_pooling out w) demo_worker outs.

(** The row of a request's mask that has its request: [true] forbids a token. *)
Definition mask_of_request (id : string) (b : InputBatch) : option (list bool) :=
  i ← req_id_to_index b !! id; m ← allowed_token_ids_mask (sampling_state b); m !! i.
Definition only (t : nat) : list bool := <[t := false]> (replicate 10 true).

Definition two_masks : result Runner := updates [demo_output [allowed_new "x" (Some [1]) 1; allowed_new "y" (Some [2]) 2] make_empty [("x"%string, 1); ("y"%string, 1)] ∅ ∅].

Lemma swap_shares_allowed_mask_witness : exists w b', two_masks = Ok w /\ mask_of_request "x" (input_batch w) = Some (only 1) /\ swap_states demo_batch_config 0 1 (input_batch w) = Ok b' /\
  exists m', allowed_token_ids_mask (sampling_state b') = Some m' /\ m' !! 0%nat = Some (only 2) /\ m' !! 1%nat = Some (only 2).
Proof.
  destruct (run_returns two_masks) as [w E]; [vm_compute; reflexivity|].
  observe E (fun w => (mask_of_request "x" (input_batch w), allowed_token_ids_mask (sampling_state (input_batch w)))) (Some (only 1), Some [only 1; only 2; replicate 10 false]).
  observe E (fun w => match swap_states demo_batch_config 0 1 (input_batch w) with Ok _ => true | Err _ => false end) true.
  injection Hobs as H1 H2. destruct (swap_states demo_batch_config 0 1 (input_batch w)) as [b'|] eqn:Eb; [|discriminate Hobs0].
  destruct (swap_shares_allowed_mask demo_batch_config 0 1 (input_batch w) b' _ (only 1) (only 2) eq_refl ltac:(discriminate) H2 eq_refl eq_refl Eb) as (_ & _ & Hm).
  exists w, b'. split; [exact E|]. split; [exact H1|]. split; [exact Eb|exact Hm].
Defined.

(** [condense] leaves the mask of a moved request in the row it came from, and a
    request without allowed tokens that gets this row later does not reset it: it
    is restricted to the tokens of the other request. *)
Definition stale_mask_scenario : result Runner :=
  updates [demo_output [allowed_new "x" None 1; allowed_new "y" (Some [1]) 2] make_empty [("x"%string, 1); ("y"%string, 1)] ∅ ∅;
           mkOutput [] (mkCached ["y"%string] [false] [] [None] [1]) [("y"%string, 1)] 1 ∅ ∅ [] {["x"%string]} [] ∅;
           demo_output [allowed_new "z" None 3] (mkCached ["y"%string] [false] [] [None] [2]) [("y"%string, 1); ("z"%string, 1)] ∅ ∅].

Theorem stale_mask_restricts : exists w, stale_mask_scenario = Ok w /\ mask_of_request "z" (input_batch w) = Some (only 1) /\
  req_sets (sampling_state (input_batch w)) has_allowed_token_ids = {["y"%string]}.
Proof.
  destruct (run_returns stale_mask_scenario) as [w E]; [vm_compute; reflexivity|].
  observe E (fun w => (mask_of_request "z" (input_batch w), req_sets (sampling_state (input_batch w)) has_allowed_token_ids)) (Some (only 1), {["y"%string]} : gset string).
  injection Hobs as H1 H2. exists w. split_and!; [exact E|exact H1|exact H2].
Qed.

(** * Drafts of a request that comes back *)

(** The scheduler with a budget of three tokens and the worker side by side. In
    the second step the drafts of the first request leave no tokens for the
    second one, which the worker therefore drops from its batch; in the third step
    the second request is scheduled with its draft 8. *)
Definition comes_back : result (SchedulerOutput * ModelInputs) :=
  let cfg := demo_cfg FCFS 3 in
  s ← demo_sched FCFS 9;
  s ← put_request cfg 0 (demo_text "b" [1]) s;
  s ← put_request cfg 1 (demo_text "a" [2; 3]) s;
  '(out, s) ← SchedProps.run_step cfg 0%Qc s;
  '(_, w) ← demo_step out demo_worker;
  s ← run_update cfg 0%Qc out [("b"%string, [9]); ("a"%string, [9])] s;
  s ← update_draft_token_ids ["b"; "a"]%string [[7; 7]; [8]] s;
  '(out, s) ← SchedProps.run_step cfg 0%Qc s;
  '(_, w) ← demo_step out w;
  s ← run_update cfg 0%Qc out [("b"%string, [9])] s;
  s ← update_draft_token_ids ["b"%string] [[]] s;
  '(out, s) ← SchedProps.run_step cfg 0%Qc s;
  w ← update_states demo_runner_config demo_pooling out w;
  inp ← prepare_inputs demo_runner_config 16 out (input_batch w);
  Ok (out, inp).

(** A request that was left out of a step and comes back with drafts loses them:
    the scheduler asks for the verification of token 8, and the model gets and
    verifies the 0 that is in the worker's row, since the drafts are only written
    for requests that are still in the batch. *)
Theorem returning_drafts_lost : exists out inp m, comes_back = Ok (out, inp) /\
  so_num_scheduled_tokens out = [("b"%string, 1); ("a"%string, 2)] /\ spec_of out "a" = [8] /\
  in_token_ids inp = [9; 9; 0] /\ in_spec_metadata inp = Some m /\ draft_token_ids m = [0].
Proof.
  destruct (run_returns comes_back) as [[out inp] E]; [vm_compute; reflexivity|].
  observe E (fun x : SchedulerOutput * ModelInputs => (so_num_scheduled_tokens x.1, spec_of x.1 "a", in_token_ids x.2, draft_token_ids <$> in_spec_metadata x.2))
    ([("b"%string, 1); ("a"%string, 2)], [8], [9; 9; 0], Some [0]).
  cbn in Hobs. injection Hobs as H1 H2 H3 H4. destruct (in_spec_metadata inp) as [m|] eqn:Em; [|done]. cbn in H4. injection H4 as H4. exists out, inp, m. by split_and!.
Qed.
