(* ===== verification/TableCopy.v ===== *)
(** The worker's copies of the block tables (src/vllm/v1/core/kv_cache_manager.py
    and src/vllm/v1/worker/gpu_model_runner.py): the scheduler sends the
    identifiers of new blocks only, and the worker appends them to what it has.
    Blocks that leave the attention window are cleared in the manager's table but
    not in the copy. *)
From Stdlib Require Import ZArith Lia.
From stdpp Require Import numbers gmap strings list.
From S2P Require Import Prelude FreeQueue Request BlockHash BlockPool KVSpec SingleType Coordinator KVCacheManager KVBacking.

Open Scope Z_scope.

(** * Identifiers *)

Definition bid (p : bptr) : Z := match p with PBlk i => Z.of_nat i | _ => 0 end.
Definition bids (b : KVCacheBlocks) : list (list Z) := (fun g : list bptr => bid <$> g) <$> kv_blocks b.

Lemma load_ids P g : pool_core P -> Forall (valid P) g -> mapM_res (fun p => b ← load (pheap P) p; Ok (block_id b)) g = Ok (bid <$> g).
Proof.
  intros HC. induction 1 as [|p g (i & -> & Hi) _ IH]; [done|]. destruct (core_load P i HC Hi) as (b & _ & E & Eb & _).
  cbn [mapM_res]. rewrite E. cbn [mbind result_bind]. rewrite IH. cbn. by rewrite Eb.
Qed.

(** The identifiers that are read from the heap. *)
Lemma get_block_ids_eq k l allow b ids : kvm_inv k l -> blocks_valid k b -> get_block_ids (kvm_pool k) allow b = Ok ids ->
  ids = Some (bids b) \/ (allow = true /\ ids = None /\ Forall (fun g => g = []) (kv_blocks b)).
Proof.
  intros [HK _] Hb. unfold get_block_ids. destruct (allow && _) eqn:Ea.
  { intros [= <-]. right. apply andb_true_iff in Ea as [-> Ea]. split_and!; [done|done|]. apply Is_true_true in Ea. rewrite forallb_True in Ea. eapply Forall_impl; [exact Ea|].
    intros [|x g]; [done|]. cbn. unfold zlen. cbn. intros H. by apply Is_true_true, Z.eqb_eq in H. }
  assert (E : mapM_res (fun g => mapM_res (fun p => b ← load (pheap (kvm_pool k)) p; Ok (block_id b)) g) (kv_blocks b) = Ok (bids b)).
  { unfold bids. unfold blocks_valid in Hb. clear Ea. induction Hb as [|g gs Hg _ IH]; [done|]. cbn [mapM_res].
    rewrite (load_ids _ g (pi_core _ _ (kv_pool _ _ _ HK)) Hg). cbn [mbind result_bind]. rewrite IH. done. }
  rewrite E. intros [= <-]. by left.
Qed.

(** * Copies *)

(** The identifier [x] for the entry [p] of a table with [n] blocks in the pool. *)
Definition entry_copied (n : Z) (p : bptr) (x : Z) : Prop := 0 <= x < n /\ (p = PBlk 0 \/ p = PBlk (Z.to_nat x)).

Definition row_copied (n : Z) (t : list bptr) (ids : list Z) : Prop := Forall2 (entry_copied n) t ids.

(** The tables of request [rid] in all groups. *)
Definition copied (k : KVCacheManager) (rid : string) (wt : list (list Z)) : Prop :=
  Forall2 (fun m ids => row_copied (num_gpu_blocks (kvm_pool k)) (req_blocks m rid) ids) (managers k) wt.

Lemma valid_copied P p : valid P p -> entry_copied (num_gpu_blocks P) p (bid p).
Proof. intros (i & -> & Hi). cbn. split; [lia|]. right. by rewrite Nat2Z.id. Qed.

Lemma row_copied_self P t : Forall (valid P) t -> row_copied (num_gpu_blocks P) t (bid <$> t).
Proof. intros H. apply Forall2_fmap_r, Forall_Forall2_diag. eapply Forall_impl; [exact H|]. intros p. apply valid_copied. Qed.

Lemma row_copied_nulled n t ids c : (c <= length t)%nat -> row_copied n t ids -> row_copied n (nulled c t) ids.
Proof.
  intros Hc Ht. apply Forall2_same_length_lookup. split; [rewrite nulled_length by done; by eapply Forall2_length|]. intros i p x Hp Hx.
  rewrite nulled_lookup in Hp by done. destruct (lookup_lt_is_Some_2 t i) as [q Hq]; [rewrite (Forall2_length _ _ _ Ht); by eapply lookup_lt_Some|].
  destruct (Forall2_lookup_lr _ _ _ _ _ _ Ht Hq Hx) as [H1 H2]. split; [done|]. destruct (decide (i < c)%nat); simplify_eq; [by left|done].
Qed.

(** A table that a request has just received. *)
Lemma copied_own k l rid : kvm_inv k l -> copied k rid (bids (kvm_get_blocks rid k)).
Proof.
  intros HI. pose proof (table_valid k l rid HI) as Hv. unfold blocks_valid, kvm_get_blocks, coord_get_blocks, bids, copied in *. cbn in *.
  rewrite Forall_fmap in Hv. rewrite <-list_fmap_compose. apply Forall2_fmap_r, Forall_Forall2_diag. eapply Forall_impl; [exact Hv|].
  intros m Hm. by apply row_copied_self.
Qed.

Lemma copied_frame rid rid' k k' wt : kv_frame rid k k' -> rid ≠ rid' -> copied k rid' wt -> copied k' rid' wt.
Proof.
  intros [HL HF] Hne. unfold copied. destruct (kl_pool _ _ HL) as (-> & _). revert wt.
  induction HF as [|m m' ms ms' [_ Hm] HF IH]; intros wt H; inversion H; subst; [done|]. constructor; [|by apply IH]. by rewrite (proj1 (Hm rid' Hne)).
Qed.

(** Nothing but the statistics changed. *)
Lemma copied_coord k k' rid wt : coordinator k' = coordinator k -> copied k rid wt -> copied k' rid wt.
Proof. unfold copied, managers, kvm_pool. by intros ->. Qed.

Lemma copied_lengths k rid wt : copied k rid wt -> Forall2 (fun m ids => length ids = length (req_blocks m rid)) (managers k) wt.
Proof. intros H. eapply Forall2_impl; [exact H|]. intros m ids Hm. symmetry. exact (Forall2_length _ _ _ Hm). Qed.

(** ** What never changes *)

(** The number of blocks and the kinds of the groups. *)
Definition frozen (k k' : KVCacheManager) : Prop :=
  num_gpu_blocks (kvm_pool k') = num_gpu_blocks (kvm_pool k) /\ Forall2 mgr_same (managers k) (managers k').

#[export] Instance frozen_preorder : PreOrder frozen.
Proof.
  split.
  - intros k. split; [done|]. by apply Forall_Forall2_diag, Forall_true.
  - intros k1 k2 k3 [A1 A2] [B1 B2]. split; [congruence|]. revert B2. generalize (managers k3). induction A2 as [|m m' ms ms' Hm _ IH]; intros ms3 B2; inversion B2; subst; [done|].
    constructor; [unfold mgr_same in *; naive_solver congruence|by apply IH].
Qed.

Lemma frame_frozen rid k k' : kv_frame rid k k' -> frozen k k'.
Proof. intros [HL HF]. split; [apply (kl_pool _ _ HL)|]. eapply Forall2_impl; [exact HF|]. by intros m m' [? _]. Qed.

Lemma coord_frozen k k' : coordinator k' = coordinator k -> frozen k k'.
Proof. unfold frozen, kvm_pool, managers. intros ->. split; [done|]. by apply Forall_Forall2_diag, Forall_true. Qed.

(** ** Allocation *)

Section Grow.
Context (bs L maxlen : Z) (k : KVCacheManager) (l : list nat) (r : Request) (n : Z).
Hypothesis (HI : kvm_inv k l) (Hset : kv_setup bs maxlen k) (HB : backed bs L maxlen k (request_id r) (num_computed_tokens r))
  (Hn : 0 < n) (HL : 0 <= L) (H0 : 0 <= num_computed_tokens r) (Hsum : num_computed_tokens r + n <= num_tokens r) (Hmax : num_tokens r <= maxlen)
  (Hhs : kvm_enable_caching k = true -> num_tokens r / bs <= zlen (block_hashes r)).

(** The new blocks of each group. *)
Definition new_rows (res : option KVCacheBlocks) : list (list bptr) :=
  match res with Some b => kv_blocks b | None => replicate (length (managers k)) [] end.

(** What the allocation for a running request does to its tables. *)
Lemma running_tables res k' : allocate_slots r n 0 None L false 0 k = Ok (res, k') ->
  num_gpu_blocks (kvm_pool k') = num_gpu_blocks (kvm_pool k) /\ length (managers k') = length (managers k) /\ length (new_rows res) = length (managers k) /\
  forall j m, managers k !! j = Some m -> exists new m', new_rows res !! j = Some new /\ managers k' !! j = Some m' /\
    (Z.to_nat (skip_until m (request_id r) (num_computed_tokens r)) <= length (req_blocks m (request_id r)))%nat /\
    req_blocks m' (request_id r) = nulled (Z.to_nat (skip_until m (request_id r) (num_computed_tokens r))) (req_blocks m (request_id r)) ++ new /\
    Forall (valid (kvm_pool k')) new /\ skip_until m (request_id r) (num_computed_tokens r) <= num_computed_tokens r / bs /\ Forall (sole (kvm_pool k')) new.
Proof using All.
  intros E. pose proof (running_alloc_pre bs L maxlen k l r n HI Hset HB Hn HL H0 Hsum Hmax Hhs) as Hpre.
  destruct (allocate_slots_ok k l r n 0 (no_hits k) L false 0 Hpre) as (res' & k1 & l' & E' & HI' & Hres & HS & _).
  rewrite <-(allocate_no_hits bs maxlen k r n L false 0 Hset), E in E'. injection E' as <- <-.
  split; [destruct HS as (ms & P & -> & (HP & _)); exact HP|].
  assert (Hskip : forall j m, managers k !! j = Some m -> (Z.to_nat (skip_until m (request_id r) (num_computed_tokens r)) <= length (req_blocks m (request_id r)))%nat /\
    skip_until m (request_id r) (num_computed_tokens r) <= num_computed_tokens r / bs).
  { intros j m Hm. destruct (ks_wf _ _ _ Hset) as (_ & Hmb & _). rewrite Forall_lookup in Hmb. specialize (Hmb _ _ Hm). pose proof (kv_managers _ _ _ (proj1 HI)) as Hok. pose proof (ap_computed _ _ _ _ _ _ _ _ _ Hpre) as Hc. rewrite Forall_lookup in Hok, Hc.
    destruct (skip_until_le _ m _ _ (Hok _ _ Hm) (Hc _ _ Hm)) as (S1 & S2 & _). rewrite Hmb in *. unfold zlen in S2. lia. }
  unfold slots_result in Hres. unfold new_rows. destruct res as [b|].
  - destruct Hres as (Hl1 & Hl2 & Htab & _ & Hsole). do 2 (split; [done|]). intros j m Hm.
    destruct (Htab j m [] Hm) as (new & m' & Hnew & Hm' & _ & Hb & _); [apply lookup_replicate; split; [done|by eapply lookup_lt_Some]|].
    exists new, m'. split_and!; [done|done|by eapply Hskip|done| |by eapply Hskip|apply Forall_forall; intros p Hp; rewrite Forall_forall in Hsole; apply Hsole, elem_of_concat; exists new; split; [by eapply list_elem_of_lookup_2|done]].
    pose proof (kv_managers _ _ _ (proj1 HI')) as Hok. rewrite Forall_lookup in Hok. apply Forall_forall. intros p Hp. apply (mo_valid _ _ (Hok _ _ Hm') (request_id r)).
    rewrite Hb. cbn. rewrite elem_of_app. by right.
  - destruct Hres as [_ HF]. split; [symmetry; by eapply Forall2_length|]. split; [by rewrite length_replicate|]. intros j m Hm.
    destruct (Forall2_lookup_l _ _ _ _ _ HF Hm) as (m' & Hm' & _ & Hb). exists [], m'. rewrite app_nil_r.
    split_and!; [apply lookup_replicate; split; [done|by eapply lookup_lt_Some]|done|by eapply Hskip|done|constructor|by eapply Hskip|constructor].
Qed.

Lemma copied_grow res k' wt : allocate_slots r n 0 None L false 0 k = Ok (res, k') -> copied k (request_id r) wt ->
  match res with
  | Some b => length (kv_blocks b) = length wt /\ copied k' (request_id r) (zip_with app wt (bids b))
  | None => copied k' (request_id r) wt
  end.
Proof using All.
  intros E Hc. destruct (running_tables res k' E) as (HG & Hlen & Hl & HF). pose proof (Forall2_length _ _ _ Hc) as Hw.
  assert (Hcopy : copied k' (request_id r) (zip_with app wt ((fun g : list bptr => bid <$> g) <$> new_rows res))).
  { unfold copied. apply Forall2_same_length_lookup. split; [rewrite length_zip_with, length_fmap; lia|]. intros j m' ids Hm' Hids.
    apply lookup_zip_with_Some in Hids as (x & y & -> & Hx & Hy). apply list_lookup_fmap_Some in Hy as (new & -> & Hy).
    destruct (Forall2_lookup_r _ _ _ _ _ Hc Hx) as (m & Hm & Hrow). destruct (HF j m Hm) as (new' & m1 & Hn' & Hm1 & Hs & Hb & Hv & _).
    rewrite Hy in Hn'. rewrite Hm' in Hm1. injection Hn' as <-. injection Hm1 as <-. rewrite Hb.
    apply Forall2_app; [|by apply row_copied_self]. rewrite HG. by apply row_copied_nulled. }
  unfold new_rows in *. destruct res as [b|]; [split; [lia|done]|]. replace wt with (zip_with app wt ((fun g : list bptr => bid <$> g) <$> replicate (length (managers k)) [])); [done|].
  rewrite Hw. clear. induction wt as [|x wt IH]; [done|]. cbn. by rewrite IH, app_nil_r.
Qed.
End Grow.
