(* ===== verification/Ownership.v ===== *)
(** Who writes to which block (src/vllm/v1/core/kv_cache_manager.py): the blocks
    that hold the tokens a request is about to compute are its own, in every KV
    cache group, although requests share the blocks of a common prefix. *)
From Stdlib Require Import ZArith Lia.
From stdpp Require Import numbers gmap strings list.
From S2P Require Import Prelude FreeQueue Request BlockPool KVSpec SingleType Coordinator KVCacheManager KVBacking TableCopy.

Open Scope Z_scope.

(** Block [i] of a request in group [j]. *)
Definition manager_entry (k : KVCacheManager) (j : nat) (id : string) (i : nat) : option bptr := m ← managers k !! j; req_blocks m id !! i.

Lemma entry_Some k j id i p : manager_entry k j id i = Some p <-> exists m, managers k !! j = Some m /\ req_blocks m id !! i = Some p.
Proof. unfold manager_entry. destruct (managers k !! j) as [m|]; cbn; [split; [by exists m|by intros (? & [= ->] & ?)]|split; [done|by intros (? & ? & _)]]. Qed.

Lemma entry_frame rid k k' j id i : kv_frame rid k k' -> rid ≠ id -> manager_entry k' j id i = manager_entry k j id i.
Proof.
  intros [_ HF] Hne. unfold manager_entry. destruct (managers k !! j) as [m|] eqn:Em.
  - destruct (Forall2_lookup_l _ _ _ _ _ HF Em) as (m' & -> & _ & Ho). cbn. by rewrite (proj1 (Ho id Hne)).
  - apply lookup_ge_None in Em. rewrite (Forall2_length _ _ _ HF) in Em. apply lookup_ge_None in Em. by rewrite Em.
Qed.

Lemma entry_coord k k' j id i : coordinator k' = coordinator k -> manager_entry k' j id i = manager_entry k j id i.
Proof. unfold manager_entry, managers. by intros ->. Qed.

(** * Blocks with one user *)

Lemma total_refs_at ms j m i : ms !! j = Some m -> mrefs m i <= total_refs ms i.
Proof.
  revert j. induction ms as [|m0 ms IH]; intros [|j] E; cbn in E; try done; cbn; fold (total_refs ms i).
  - injection E as ->. pose proof (total_refs_nonneg ms i). lia.
  - specialize (IH j E). pose proof (mrefs_nonneg m0 i). lia.
Qed.

Lemma total_refs_two ms j j' m m' i : ms !! j = Some m -> ms !! j' = Some m' -> j ≠ j' -> mrefs m i + mrefs m' i <= total_refs ms i.
Proof.
  revert j j'. induction ms as [|m0 ms IH]; intros [|j] [|j'] E E' Hne; cbn in E, E'; try done; cbn; fold (total_refs ms i).
  - injection E as ->. pose proof (total_refs_at ms j' m' i E'). lia.
  - injection E' as ->. pose proof (total_refs_at ms j m i E). lia.
  - specialize (IH j j' E E' ltac:(congruence)). pose proof (mrefs_nonneg m0 i). lia.
Qed.

Lemma occ_at i l (j : nat) : l !! j = Some (PBlk i) -> 1 <= occ i l.
Proof. intros E. assert (0 < occ i l) by (apply occ_pos; by eapply list_elem_of_lookup_2). lia. Qed.

Lemma sole_once k l p j id i j' id' i' : kvm_inv k l -> sole (kvm_pool k) p -> manager_entry k j id i = Some p -> manager_entry k j' id' i' = Some p -> j = j' /\ id = id' /\ i = i'.
Proof.
  intros [HK _] (x & -> & Hx & Hr) (m & Hm & E)%entry_Some (m' & Hm' & E')%entry_Some. rewrite (kv_refs _ _ _ HK x Hx) in Hr. fold (managers k) in Hr.
  pose proof (occ_at _ _ _ E) as O1. pose proof (occ_at _ _ _ E') as O2. pose proof (occ_le_mrefs id m x). pose proof (occ_le_mrefs id' m' x).
  assert (j = j') as <-. { destruct (decide (j = j')); [done|]. pose proof (total_refs_two _ _ _ _ _ x Hm Hm' ltac:(done)). lia. }
  rewrite Hm in Hm'. injection Hm' as <-. pose proof (total_refs_at _ _ _ x Hm).
  assert (id = id') as <-. { destruct (decide (id = id')); [done|]. pose proof (occ_two_requests id id' m x ltac:(done)). lia. }
  split_and!; try done. eapply occ_once_lookup; [|exact E|exact E']. lia.
Qed.

(** * Ownership *)

(** [st id] is the number of the first block that request [id] may write. *)
Record owned (k : KVCacheManager) (st : string -> option Z) : Prop := {
  ow_real : forall j id i x p, st id = Some x -> x <= Z.of_nat i -> manager_entry k j id i = Some p -> p ≠ PBlk 0;
  ow_only : forall j id i x j' id' i' x' p, st id = Some x -> x <= Z.of_nat i -> manager_entry k j id i = Some p ->
    st id' = Some x' -> x' <= Z.of_nat i' -> manager_entry k j' id' i' = Some p -> j = j' /\ id = id' /\ i = i'
}.

Lemma sole_real P p : sole P p -> p ≠ PBlk 0.
Proof. by intros (i & -> & Hi & _) [= ->]. Qed.

(** The tables of one request change: what it may write is new or was its own. *)
Lemma owned_change rid k k' l' st st' : owned k st -> kvm_inv k' l' -> kv_frame rid k k' -> (forall id, id ≠ rid -> st' id = st id) ->
  (forall j i x p, st' rid = Some x -> x <= Z.of_nat i -> manager_entry k' j rid i = Some p ->
    sole (kvm_pool k') p \/ exists x0, st rid = Some x0 /\ x0 <= Z.of_nat i /\ manager_entry k j rid i = Some p) -> owned k' st'.
Proof.
  intros [H1 H2] HI HF Hst Hrid.
  assert (Hcase : forall j id i x p, st' id = Some x -> x <= Z.of_nat i -> manager_entry k' j id i = Some p ->
    sole (kvm_pool k') p \/ exists x0, st id = Some x0 /\ x0 <= Z.of_nat i /\ manager_entry k j id i = Some p).
  { intros j id i x p Hs Hi E. destruct (decide (id = rid)) as [->|Hne]; [by eapply Hrid|]. right. exists x. rewrite <-Hst by done. rewrite (entry_frame rid k k') in E by done. done. }
  split.
  - intros j id i x p Hs Hi E. destruct (Hcase _ _ _ _ _ Hs Hi E) as [Hso|(x0 & ? & ? & ?)]; [by eapply sole_real|by eapply H1].
  - intros j id i x j' id' i' x' p Hs Hi E Hs' Hi' E'. destruct (Hcase _ _ _ _ _ Hs Hi E) as [Hso|(x0 & ? & ? & ?)]; [by eapply sole_once|].
    destruct (Hcase _ _ _ _ _ Hs' Hi' E') as [Hso|(x1 & ? & ? & ?)]; [by eapply sole_once|]. by eapply (H2 j id i x0 j' id' i' x1).
Qed.

Lemma owned_same k k' st st' : coordinator k' = coordinator k -> (forall id, st' id = st id) -> owned k st -> owned k' st'.
Proof.
  intros Ec Es [H1 H2]. split; intros *; rewrite !Es, !(entry_coord k k') by done; eauto.
Qed.

(** Between two steps only full computed blocks are shared. *)
Lemma owned_start bs L maxlen k l st : kvm_inv k l -> kv_setup bs maxlen k -> (forall id x, st id = Some x -> exists t, backed bs L maxlen k id t /\ t / bs <= x) -> owned k st.
Proof.
  intros HI Hset Hb.
  assert (Hsole : forall j id i x p, st id = Some x -> x <= Z.of_nat i -> manager_entry k j id i = Some p -> sole (kvm_pool k) p).
  { intros j id i x p Hs Hi (m & Hm & E)%entry_Some. destruct (Hb id x Hs) as (t & HB & Ht). unfold backed in HB. rewrite Forall_lookup in HB.
    destruct (HB _ _ Hm) as (c & Hc & _ & Hca & _ & Hnz). pose proof (kv_managers _ _ _ (proj1 HI)) as Hok. rewrite Forall_lookup in Hok. specialize (Hok _ _ Hm).
    destruct (mo_valid _ _ Hok id p) as (y & -> & _); [by eapply list_elem_of_lookup_2|].
    assert (Hy : y ≠ 0%nat) by (intros ->; apply (Hnz i); [lia|done]).
    assert (Hh : hashof (kvm_pool k) y = None).
    { destruct (enable_caching (kvm_pool k)) eqn:Ee; [|by apply core_nocache_hash; [apply (pi_core _ _ (kv_pool _ _ _ (proj1 HI)))|]].
      destruct (mo_tail _ _ Hok Ee id c i (PBlk y) Hc) as (y' & [= <-] & _ & ?); [rewrite Hca by (by rewrite (proj2 HI)); lia|done|done]. }
    exists y. split_and!; try done. pose proof (kv_unshared _ _ _ (proj1 HI) y Hy Hh). rewrite (kv_refs _ _ _ (proj1 HI) y Hy) in *. fold (managers k) in *.
    pose proof (total_refs_at _ _ _ y Hm). pose proof (occ_le_mrefs id m y). pose proof (occ_at _ _ _ E). unfold kvm_pool in *. lia. }
  split.
  - intros j id i x p Hs Hi E. by eapply sole_real, Hsole.
  - intros j id i x j' id' i' x' p Hs Hi E _ _ E'. eapply sole_once; [done|by eapply Hsole|done|done].
Qed.

(** * Allocation *)

(** A running request writes to its old blocks and to new ones. *)
Lemma running_writes bs L maxlen k l r n res k' : kvm_inv k l -> kv_setup bs maxlen k -> backed bs L maxlen k (request_id r) (num_computed_tokens r) ->
  0 < n -> 0 <= L -> 0 <= num_computed_tokens r -> num_computed_tokens r + n <= num_tokens r -> num_tokens r <= maxlen ->
  (kvm_enable_caching k = true -> num_tokens r / bs <= zlen (block_hashes r)) -> allocate_slots r n 0 None L false 0 k = Ok (res, k') ->
  forall j i p, num_computed_tokens r / bs <= Z.of_nat i -> manager_entry k' j (request_id r) i = Some p -> sole (kvm_pool k') p \/ manager_entry k j (request_id r) i = Some p.
Proof.
  intros HI Hset HB Hn HL H0 Hsum Hmax Hhs E j i p Hi (m' & Hm' & Ep)%entry_Some.
  destruct (running_tables bs L maxlen k l r n HI Hset HB Hn HL H0 Hsum Hmax Hhs res k' E) as (_ & Hlen & _ & Htab).
  destruct (managers k !! j) as [m|] eqn:Hm; [|apply lookup_ge_None in Hm; apply lookup_lt_Some in Hm'; lia].
  destruct (Htab j m Hm) as (new & m1 & _ & Hm1 & Hl & Hb & _ & Hs & Hso). rewrite Hm' in Hm1. injection Hm1 as <-. rewrite Hb in Ep.
  apply lookup_app_Some in Ep as [Ep|[_ Ep]]; [right|left; rewrite Forall_forall in Hso; by apply Hso; eapply list_elem_of_lookup_2].
  rewrite nulled_after in Ep by lia. unfold manager_entry. by rewrite Hm.
Qed.

(** An admitted request writes to new blocks, after its hits. *)
Lemma admitted_writes bs maxlen k l r b n n0 nb k' : kvm_inv k l -> kv_setup bs maxlen k -> unbacked k (request_id r) -> usable_hits k bs n0 (kv_blocks b) ->
  (kvm_enable_caching k = false -> n0 = 0) -> num_computed_tokens r = 0 -> 0 < n -> 0 <= n0 -> n0 + n <= num_tokens r -> num_tokens r <= maxlen ->
  (kvm_enable_caching k = true -> num_tokens r / bs <= zlen (block_hashes r)) -> allocate_slots r n n0 (Some b) 0 false 0 k = Ok (Some nb, k') ->
  forall j i p, n0 / bs <= Z.of_nat i -> manager_entry k' j (request_id r) i = Some p -> sole (kvm_pool k') p.
Proof.
  intros HI Hset HU Hus Hnc H0 Hn Hn0 Hsum Hmax Hhs E j i p Hi (m' & Hm' & Ep)%entry_Some.
  pose proof (admit_alloc_pre bs maxlen k l r b n n0 HI Hset HU Hus Hnc H0 Hn Hn0 Hsum Hmax Hhs) as Hpre. destruct Hus as (Hlen & Hrow & _).
  destruct (allocate_slots_ok k l r n n0 (kv_blocks b) 0 false 0 Hpre) as (res & k1 & l1 & E1 & _ & Hres & _). destruct b as [lists]. cbn in E1, Hlen, Hrow, Hres. rewrite E in E1. injection E1 as <- <-.
  destruct Hres as (_ & Hl2 & Htab & _ & Hso). destruct (managers k !! j) as [m|] eqn:Hm; [|apply lookup_ge_None in Hm; apply lookup_lt_Some in Hm'; lia].
  destruct (lists !! j) as [blks|] eqn:Hb; [|apply lookup_ge_None in Hb; apply lookup_lt_Some in Hm; lia].
  destruct (Htab j m blks Hm Hb) as (new & m1 & Hnew & Hm1 & _ & Ht & _). rewrite Hm' in Hm1. injection Hm1 as <-. rewrite Ht in Ep.
  pose proof (kv_managers _ _ _ (proj1 HI)) as Hok. pose proof (ks_class _ _ _ Hset) as Hcl. unfold unbacked in HU. rewrite Forall_lookup in Hok, Hcl, HU.
  pose proof (ap_computed _ _ _ _ _ _ _ _ _ Hpre) as Hct. rewrite Forall_lookup in Hct. destruct (skip_until_le _ m _ _ (Hok _ _ Hm) (Hct _ _ Hm)) as (S1 & _).
  rewrite (mo_new _ _ (Hok _ _ Hm) _ (HU _ _ Hm) (Hcl _ _ Hm)) in Ep. rewrite H0, Z.div_0_l in S1 by (pose proof (mo_bs _ _ (Hok _ _ Hm)); lia).
  rewrite H0 in Ep. replace (Z.to_nat (skip_until m (request_id r) 0)) with 0%nat in Ep by lia. cbn in Ep.
  apply lookup_app_Some in Ep as [Ep|[_ Ep]].
  - exfalso. apply lookup_lt_Some in Ep. specialize (Hrow blks ltac:(by eapply list_elem_of_lookup_2)). pose proof (proj1 (ks_wf _ _ _ Hset)) as Hbs.
    rewrite <-Hrow, Z.mul_comm, Z.div_mul in Hi by lia. unfold zlen in Hi. lia.
  - rewrite Forall_forall in Hso. apply Hso, elem_of_concat. exists new. split; by eapply list_elem_of_lookup_2.
Qed.
