(* ===== verification/SchedPlan.v ===== *)
(** What [schedule] (src/vllm/v1/core/sched/scheduler.py) tells the workers about
    block tables: through the loops over running and waiting requests, every
    running request keeps a copy of its tables at the workers, up to the blocks
    that the step is going to send. *)
From Stdlib Require Import ZArith Lia Ascii String QArith Qcanon.
From stdpp Require Import numbers gmap strings list.
From S2P Require Import Prelude FreeQueue Request BlockHash BlockPool KVSpec SingleType KVCacheManager KVBacking TableCopy Ownership Capacity EncoderCache RequestQueue SchedState Scheduler SchedulerUpdate Lifecycle SchedTerm LifecycleOps Progress.

Open Scope Z_scope.

(** The attributes of a request that the workers have a copy of. *)
Definition content (r : Request) :=
  (request_id r, prompt_token_ids r, output_token_ids r, all_token_ids r, sampling_params r, pooling_params r, lora_request r, mm_features r).

(** How a step changes the status of request object [o]. *)
Inductive moved (a : Step) (o : nat) : RequestStatus -> RequestStatus -> Prop :=
| mv_stay st : o ∉ scheduled_new_reqs a -> o ∉ scheduled_resumed_reqs a -> moved a o st st
| mv_preempt : o ∈ preempted_reqs a -> o ∉ scheduled_all a -> moved a o RUNNING PREEMPTED
| mv_admit : o ∈ scheduled_new_reqs a -> moved a o WAITING RUNNING
| mv_resume : o ∈ scheduled_resumed_reqs a -> moved a o PREEMPTED RUNNING.

(** The same objects other than [o] are scheduled. *)
Definition same_others (o : nat) (a a' : Step) : Prop := forall x, x ≠ o ->
  (x ∈ scheduled_new_reqs a' <-> x ∈ scheduled_new_reqs a) /\ (x ∈ scheduled_resumed_reqs a' <-> x ∈ scheduled_resumed_reqs a) /\
  (x ∈ scheduled_running_reqs a' <-> x ∈ scheduled_running_reqs a) /\ (x ∈ preempted_reqs a' <-> x ∈ preempted_reqs a).

Lemma same_others_all o a a' x : same_others o a a' -> x ≠ o -> x ∈ scheduled_all a' <-> x ∈ scheduled_all a.
Proof. intros H Hx. destruct (H x Hx) as (H1 & H2 & H3 & H4). unfold scheduled_all. rewrite !elem_of_app. tauto. Qed.

Lemma moved_others o a a' x st st' : same_others o a a' -> x ≠ o -> moved a x st st' -> moved a' x st st'.
Proof.
  intros H Hx Hm. pose proof (same_others_all o a a' x H Hx) as Hall. destruct (H x Hx) as (H1 & H2 & H3 & H4).
  destruct Hm; [apply mv_stay|apply mv_preempt|apply mv_admit|apply mv_resume]; tauto.
Qed.

Section Plan.
Context {C G : Type} `{!KVConnector C, !StructuredOutput G, !NoGrammarNoAdvance G}.
Context (cfg : SchedConfig) (fs : string -> option Qc).
Context (bh : option hasher) (bs : Z) (caching : bool) `{!BlockHasher bh bs caching} (room : Z).
Hypothesis Hcfg : plain_config cfg.

Abbreviation Sched := (Scheduler C G).
Notation maxlen := (max_model_len cfg).
Notation look := (num_lookahead_tokens cfg).
Notation kv_ok := (Progress.kv_ok cfg fs bh bs caching room).
Notation wants := (Progress.wants cfg fs bh bs caching room).
Notation head_of := (Progress.head_of cfg fs bh bs caching).

(** The tables that the workers have of each request, and the scheduler state
    before the step. *)
Context (T : gmap string (list (list Z))) (s0 : Sched).

(** * The invariant of the loops *)

(** The first block that a running request may write. *)
Definition starts (s : Sched) (id : string) : option Z :=
  o ← requests s !! id; r ← sched_store s !! o; if decide (status r = RUNNING) then Some (num_computed_tokens r / bs) else None.

(** Request [rid], object [o], is running: the workers have its tables, will have
    them with the blocks recorded for it, or will get all of them. *)
Record sent_ok (a : Step) (s : Sched) (o : nat) (rid : string) : Prop := {
  sn_idle : o ∉ scheduled_all a -> exists wt, T !! rid = Some wt /\ copied (kv_cache_manager s) rid wt;
  sn_running : o ∈ scheduled_running_reqs a -> exists wt b, T !! rid = Some wt /\ req_to_new_blocks a !! rid = Some b /\
    length (kv_blocks b) = length wt /\ copied (kv_cache_manager s) rid (zip_with app wt (bids b));
  sn_admitted : o ∈ scheduled_new_reqs a \/ o ∈ scheduled_resumed_reqs a -> exists b, req_to_new_blocks a !! rid = Some b /\
    copied (kv_cache_manager s) rid (bids b)
}.

Record plan (a : Step) (s : Sched) : Prop := {
  pn_reqs : requests s = requests s0;
  pn_finished : finished_req_ids s = finished_req_ids s0;
  pn_frozen : frozen (kv_cache_manager s0) (kv_cache_manager s);
  pn_store : forall o r0, sched_store s0 !! o = Some r0 -> exists r, sched_store s !! o = Some r /\ content r = content r0 /\ moved a o (status r0) (status r);
  pn_back : forall o r, sched_store s !! o = Some r -> is_Some (sched_store s0 !! o);
  pn_tables : forall rid o r, requests s !! rid = Some o -> sched_store s !! o = Some r -> status r = RUNNING -> sent_ok a s o rid;
  pn_own : owned (kv_cache_manager s) (starts s)
}.

Lemma sent_ok_others a a' (s s' : Sched) o rid x ridx : same_others o a a' -> x ≠ o -> rid ≠ ridx ->
  (forall rid', rid' ≠ rid -> req_to_new_blocks a' !! rid' = req_to_new_blocks a !! rid') ->
  kv_frame rid (kv_cache_manager s) (kv_cache_manager s') -> sent_ok a s x ridx -> sent_ok a' s' x ridx.
Proof.
  intros Ho Hx Hne Hb HF [H1 H2 H3]. pose proof (same_others_all o a a' x Ho Hx) as Hall. destruct (Ho x Hx) as (O1 & O2 & O3 & _).
  split; rewrite ?Hall, ?O1, ?O2, ?O3.
  - intros Hn. destruct (H1 Hn) as (wt & E & Hc). exists wt. split; [done|]. by eapply copied_frame.
  - intros Hn. destruct (H2 Hn) as (wt & b & E & Eb & El & Hc). exists wt, b. rewrite Hb by done. split_and!; try done. by eapply copied_frame.
  - intros Hn. destruct (H3 Hn) as (b & Eb & Hc). exists b. rewrite Hb by done. split; [done|]. by eapply copied_frame.
Qed.

(** One request, its blocks and its record change. *)
Lemma plan_change rid o r r' a a' (s s' : Sched) :
  plan a s -> requests s' = requests s -> finished_req_ids s' = finished_req_ids s -> requests s !! rid = Some o ->
  (forall rid', requests s !! rid' = Some o -> rid' = rid) -> (forall x, x ≠ o -> sched_store s' !! x = sched_store s !! x) ->
  sched_store s !! o = Some r -> sched_store s' !! o = Some r' -> content r' = content r ->
  kv_frame rid (kv_cache_manager s) (kv_cache_manager s') -> same_others o a a' ->
  (forall rid', rid' ≠ rid -> req_to_new_blocks a' !! rid' = req_to_new_blocks a !! rid') ->
  (forall st, moved a o st (status r) -> moved a' o st (status r')) -> (status r' = RUNNING -> sent_ok a' s' o rid) ->
  (exists l, kvm_inv (kv_cache_manager s') l) ->
  (status r' = RUNNING -> forall j i p, num_computed_tokens r' / bs <= Z.of_nat i -> manager_entry (kv_cache_manager s') j rid i = Some p ->
    sole (kvm_pool (kv_cache_manager s')) p \/ status r = RUNNING /\ num_computed_tokens r / bs <= Z.of_nat i /\ manager_entry (kv_cache_manager s) j rid i = Some p) ->
  plan a' s'.
Proof.
  intros [P1 P2 PF P3 P4 P5 PO] Er Ef Hreg Hinj Hst Ho Ho' Hcon HF Hso Hb Hmv Hsent [l' HI'] Hwr. split; [congruence|congruence|etrans; [exact PF|by eapply frame_frozen]|..].
  - intros x r0 Hx. destruct (P3 x r0 Hx) as (rx & Hrx & Hc & Hm). destruct (decide (x = o)) as [->|Hne].
    + exists r'. rewrite Ho in Hrx. injection Hrx as <-. split_and!; [done|congruence|by apply Hmv].
    + exists rx. rewrite Hst by done. split_and!; try done. by eapply moved_others.
  - intros x rx Hx. destruct (decide (x = o)) as [->|Hne]; [by eapply P4|]. rewrite Hst in Hx by done. by eapply P4.
  - intros ridx x rx. rewrite Er. intros Hx Hrx Hrun. destruct (decide (x = o)) as [->|Hne].
    + rewrite (Hinj ridx Hx). rewrite Ho' in Hrx. injection Hrx as <-. by apply Hsent.
    + rewrite Hst in Hrx by done. eapply (sent_ok_others a a' s s' o rid); try done; [|by eapply P5]. intros <-. congruence.
  - eapply (owned_change rid); [exact PO|exact HI'|exact HF|..]; unfold starts.
    + intros id Hid. rewrite Er. destruct (requests s !! id) as [x|] eqn:Ex; [|done]. cbn. rewrite Hst; [done|]. intros ->. by apply Hid, Hinj.
    + rewrite Er, Hreg. cbn. rewrite Ho, Ho'. cbn. intros j i x p Hs Hi E. destruct (decide (status r' = RUNNING)) as [Hr'|]; [|done]. injection Hs as <-.
      destruct (Hwr Hr' j i p Hi E) as [?|(Hr & ? & ?)]; [by left|right]. rewrite decide_True by done. by eexists.
Qed.

(** Nothing that the invariant reads changes. *)
Lemma plan_core a a' (s s' : Sched) : plan a s -> requests s' = requests s -> finished_req_ids s' = finished_req_ids s -> sched_store s' = sched_store s ->
  coordinator (kv_cache_manager s') = coordinator (kv_cache_manager s) -> scheduled_new_reqs a' = scheduled_new_reqs a ->
  scheduled_resumed_reqs a' = scheduled_resumed_reqs a -> scheduled_running_reqs a' = scheduled_running_reqs a -> req_to_new_blocks a' = req_to_new_blocks a ->
  preempted_reqs a' = preempted_reqs a -> plan a' s'.
Proof.
  intros [P1 P2 PF P3 P4 P5 PO] E1 E2 E3 E4 E5 E6 E7 E8 E9. assert (Ea : scheduled_all a' = scheduled_all a) by (unfold scheduled_all; by rewrite E5, E6, E7).
  split; rewrite ?E1, ?E2, ?E3; try done.
  - etrans; [exact PF|by apply coord_frozen].
  - intros o r0 Ho. destruct (P3 o r0 Ho) as (r & Hr & Hc & Hm). exists r. split_and!; try done.
    destruct Hm; [apply mv_stay|apply mv_preempt|apply mv_admit|apply mv_resume]; rewrite ?E5, ?E6, ?Ea, ?E9; done.
  - intros rid o r Hx Hr Hst. destruct (P5 rid o r Hx Hr Hst) as [H1 H2 H3]. split; rewrite ?Ea, ?E5, ?E6, ?E7, ?E8.
    + intros Hn. destruct (H1 Hn) as (wt & E & Hc). exists wt. split; [done|]. by eapply copied_coord.
    + intros Hn. destruct (H2 Hn) as (wt & b & E & Eb & El & Hc). exists wt, b. split_and!; try done. by eapply copied_coord.
    + intros Hn. destruct (H3 Hn) as (b & Eb & Hc). exists b. split; [done|]. by eapply copied_coord.
  - eapply owned_same; [exact E4| |exact PO]. intros id. unfold starts. by rewrite E1, E3.
Qed.

(** The initial state of a step. *)
Lemma plan_start : (forall rid o r, requests s0 !! rid = Some o -> sched_store s0 !! o = Some r -> status r = RUNNING ->
    exists wt, T !! rid = Some wt /\ copied (kv_cache_manager s0) rid wt) -> kv_ok [] s0 -> plan (step_init cfg) s0.
Proof.
  intros HT HK. split; try done; cbn.
  - intros o r0 Ho. exists r0. split_and!; try done. apply mv_stay; cbn; apply not_elem_of_nil.
  - intros rid o r Hx Hr Hst. split; cbn; [by intros _; eapply HT|by intros ?%elem_of_nil|by intros [?%elem_of_nil|?%elem_of_nil]].
  - destruct (ko_inv _ _ _ _ _ _ _ _ HK) as [l HV]. eapply owned_start; [exact HV|apply (ko_setup _ _ _ _ _ _ _ _ HK)|]. intros id x Hs. unfold starts in Hs.
    destruct (requests s0 !! id) as [o|] eqn:Eo; [|done]. cbn in Hs. destruct (sched_store s0 !! o) as [r|] eqn:Er; [|done]. cbn in Hs. destruct (decide _) as [Hst|]; [|done]. injection Hs as <-.
    destruct (ro_running _ _ _ _ _ _ _ _ _ (ko_reqs _ _ _ _ _ _ _ _ HK _ _ _ Eo Er) Hst) as (_ & _ & _ & Hb). cbn in Hb. rewrite Z.add_0_r in Hb. exists (num_computed_tokens r). by split.
Qed.

(** * Running requests *)

Lemma preempt_one_effect ts a (s : Sched) v a' s' : preempt_one cfg ts a s = Ok (v, a', s') -> exists r r' k, last (running s) = Some v /\
  sched_store s !! v = Some r /\ kvm_free r (kv_cache_manager s) = Ok k /\ a' = set_preempted v (scheduled_running_reqs a) a /\
  (forall x, x ≠ v -> sched_store s' !! x = sched_store s !! x) /\ sched_store s' !! v = Some r' /\ content r' = content r /\ status r' = PREEMPTED /\
  requests s' = requests s /\ finished_req_ids s' = finished_req_ids s /\ kv_cache_manager s' = k.
Proof using Hcfg.
  unfold preempt_one, take_victim. intros E. assert (Hv : exists v0 run, last (running s) = Some v0 /\
    (match policy cfg with PRIORITY => v ← pick_victim s; Ok (v, remove_first v (running s), if decide (v ∈ scheduled_running_reqs a) then remove_first v (scheduled_running_reqs a) else scheduled_running_reqs a)
     | _ => v ← get_or IndexError (last (running s)); Ok (v, take (length (running s) - 1) (running s), scheduled_running_reqs a) end) = Ok (v0, run, scheduled_running_reqs a)).
  { pose proof (pc_policy _ Hcfg). destruct (last (running s)) as [v0|] eqn:El; destruct (policy cfg); try done; by eexists _, _. }
  destruct Hv as (v0 & run & El & Ev). rewrite Ev in E. cbn [mbind result_bind] in E. clear Ev.
  apply bind_Ok in E as (r & Er & E). apply bind_Ok in E as (k & Ek & E). apply bind_Ok in E as (e & _ & E). apply bind_Ok in E as (w & _ & E). inv_ok.
  unfold get_req in Er. destruct (sched_store s !! v) as [r1|] eqn:Hr; [|done]. injection Er as ->. eexists r, _, k.
  split; [done|]. split; [done|]. split; [done|]. split; [done|]. split; [intros x Hx; cbn; by rewrite lookup_alter_ne|].
  split; [cbn; by rewrite lookup_alter_eq, Hr|]. destruct (log_stats cfg); by split_and!.
Qed.

Lemma last_drop {A} (l : list A) idx x y : last l = Some x -> l !! idx = Some y -> x ∈ drop idx l.
Proof. intros Hl Hi. apply lookup_lt_Some in Hi. apply last_Some in Hl as [l' ->]. rewrite length_app in Hi. cbn in Hi. rewrite drop_app_le by lia. rewrite elem_of_app. right. by left. Qed.

Lemma preempt_plan ts idx o n a (s : Sched) v a' s' : wants idx o n a s -> plan a s -> preempt_one cfg ts a s = Ok (v, a', s') -> plan a' s'.
Proof using Hcfg.
  intros [HI HK HO Hidx _ _] HP E. destruct (preempt_one_effect _ _ _ _ _ _ E) as (r & r' & k & El & Hr & Ek & -> & Est & Hr' & Hcon & Hs' & Ereq & Efin & Ekk).
  pose proof (last_drop _ _ _ _ El Hidx) as Hvd. pose proof (rv_fresh _ _ _ _ HI v Hvd) as Hns. pose proof (rv_step _ _ _ _ HI) as HS.
  assert (Hv : v ∈ running s) by (apply last_Some in El as [? ->]; rewrite elem_of_app; right; by left).
  destruct (lf_run _ _ _ _ (sv_life _ _ _ HS) v Hv) as (r1 & Hr1 & Hrun & Hreg). rewrite Hr in Hr1. injection Hr1 as <-.
  destruct (ko_inv _ _ _ _ _ _ _ _ HK) as [l HV]. destruct (free_backing _ l r HV) as (k1 & l1 & Ek1 & HV1 & HF & _). rewrite Ek in Ek1. injection Ek1 as <-.
  eapply (plan_change (request_id r) v r r' a); try done.
  - intros rid' Hx. by eapply live_id.
  - by rewrite Ekk.
  - intros x Hx. cbn. rewrite elem_of_app, list_elem_of_singleton. tauto.
  - intros st Hm. rewrite Hs'. rewrite Hrun in Hm. unfold scheduled_all in Hns. rewrite !not_elem_of_app in Hns. destruct Hns as (N1 & N2 & N3).
    inversion Hm; subst; try done. apply mv_preempt; [cbn; rewrite elem_of_app; right; by left|]. unfold scheduled_all. cbn. rewrite !not_elem_of_app. done.
  - by rewrite Hs'.
  - rewrite Ekk. by eexists.
  - by rewrite Hs'.
Qed.

(** The allocation of a running request that has not been scheduled yet. *)
Lemma wants_copies idx o n a (s : Sched) r nb k : wants idx o n a s -> plan a s -> get_req o s = Ok r ->
  allocate_slots r n 0 None look false 0 (kv_cache_manager s) = Ok (nb, k) -> exists wt, T !! request_id r = Some wt /\
    match nb with
    | Some b => length (kv_blocks b) = length wt /\ copied k (request_id r) (zip_with app wt (bids b))
    | None => copied k (request_id r) wt
    end.
Proof using Hcfg.
  intros HW HP Er E. destruct (wants_request _ _ _ _ _ _ _ _ _ _ _ HW) as (r1 & Hr & Hst & Hreg & Hkey & Hinj).
  unfold get_req in Er. rewrite Hr in Er. injection Er as ->. destruct HW as [HI HK HO Hidx Hn Hsum].
  assert (Hno : o ∉ scheduled_all a) by (apply (rv_fresh _ _ _ _ HI), list_elem_of_lookup; exists 0%nat; by rewrite lookup_drop, Nat.add_0_r).
  destruct (sn_idle _ _ _ _ (pn_tables _ _ HP _ _ _ Hreg Hr Hst) Hno) as (wt & Ht & Hc). exists wt. split; [done|].
  pose proof (ko_reqs _ _ _ _ _ _ _ _ HK _ _ _ Hreg Hr) as Hro. destruct (ro_running _ _ _ _ _ _ _ _ _ Hro Hst) as (H0 & _ & Hnt & Hb).
  rewrite (dget_none _ _ Hkey) in Hb, Hnt. cbn in Hb, Hnt. rewrite Z.add_0_r in Hb. destruct (ko_inv _ _ _ _ _ _ _ _ HK) as [l HV].
  eapply (copied_grow bs look maxlen (kv_cache_manager s) l r n HV (ko_setup _ _ _ _ _ _ _ _ HK) Hb Hn (pc_lookahead _ Hcfg) H0 (Hsum _ Hr)); [lia| |exact E|exact Hc].
  intros Hc'. by apply (hash_ready _ _ _ _ _ _ _ _ r HK (ro_plain _ _ _ _ _ _ _ _ _ Hro)).
Qed.

(** What it may write afterwards. *)
Lemma wants_writes idx o n a (s : Sched) r nb k : wants idx o n a s -> get_req o s = Ok r -> allocate_slots r n 0 None look false 0 (kv_cache_manager s) = Ok (nb, k) ->
  (exists l, kvm_inv k l) /\ (status r = RUNNING -> forall j i p, num_computed_tokens r / bs <= Z.of_nat i -> manager_entry k j (request_id r) i = Some p ->
    sole (kvm_pool k) p \/ status r = RUNNING /\ num_computed_tokens r / bs <= Z.of_nat i /\ manager_entry (kv_cache_manager s) j (request_id r) i = Some p).
Proof using Hcfg.
  intros HW Er E. destruct (wants_request _ _ _ _ _ _ _ _ _ _ _ HW) as (r1 & Hr & Hst & Hreg & Hkey & Hinj).
  unfold get_req in Er. rewrite Hr in Er. injection Er as ->. destruct HW as [HI HK HO Hidx Hn Hsum].
  pose proof (ko_reqs _ _ _ _ _ _ _ _ HK _ _ _ Hreg Hr) as Hro. destruct (ro_running _ _ _ _ _ _ _ _ _ Hro Hst) as (H0 & _ & Hnt & Hb).
  rewrite (dget_none _ _ Hkey) in Hb, Hnt. cbn in Hb, Hnt. rewrite Z.add_0_r in Hb. destruct (ko_inv _ _ _ _ _ _ _ _ HK) as [l HV]. pose proof (ko_setup _ _ _ _ _ _ _ _ HK) as Hset.
  assert (Hhs : kvm_enable_caching (kv_cache_manager s) = true -> num_tokens r / bs <= zlen (block_hashes r)) by (intros Hc'; by apply (hash_ready _ _ _ _ _ _ _ _ r HK (ro_plain _ _ _ _ _ _ _ _ _ Hro))).
  assert (Hmax : num_tokens r <= maxlen) by lia. split.
  - destruct (running_alloc bs look maxlen (kv_cache_manager s) l r n HV Hset Hb Hn (pc_lookahead _ Hcfg) H0 (Hsum _ Hr) Hmax Hhs) as (nb' & k' & l' & E' & HV' & _). rewrite E in E'. injection E' as <- <-. by exists l'.
  - intros _ j i p Hi Ep. destruct (running_writes bs look maxlen (kv_cache_manager s) l r n nb k HV Hset Hb Hn (pc_lookahead _ Hcfg) H0 (Hsum _ Hr) Hmax Hhs E j i p Hi Ep); [by left|by right].
Qed.

(** Refused slots only clear entries of the table. *)
Lemma refused_plan idx o n a (s : Sched) r k : wants idx o n a s -> plan a s -> get_req o s = Ok r ->
  allocate_slots r n 0 None look false 0 (kv_cache_manager s) = Ok (None, k) -> plan a (set_kv_cache_manager k s).
Proof using Hcfg.
  intros HW HP Er E. destruct (wants_copies _ _ _ _ _ _ _ _ HW HP Er E) as (wt & Ht & Hc). destruct (wants_writes _ _ _ _ _ _ _ _ HW Er E) as [HIk Hwr].
  destruct (wants_alloc _ _ _ _ _ _ Hcfg _ _ _ _ _ HW) as (r1 & nb & k1 & Er1 & E1 & HF & _). rewrite Er in Er1. injection Er1 as <-. rewrite E in E1. injection E1 as <- <-.
  destruct (wants_request _ _ _ _ _ _ _ _ _ _ _ HW) as (r1 & Hr & Hst & Hreg & Hkey & Hinj). unfold get_req in Er. rewrite Hr in Er. injection Er as ->.
  pose proof (pn_tables _ _ HP _ _ _ Hreg Hr Hst) as HS. destruct HW as [HI _ _ Hidx _ _].
  assert (Hno : o ∉ scheduled_all a) by (apply (rv_fresh _ _ _ _ HI), list_elem_of_lookup; exists 0%nat; by rewrite lookup_drop, Nat.add_0_r).
  eapply (plan_change (request_id r) o r r a); try done. intros _. unfold scheduled_all in Hno. rewrite !not_elem_of_app in Hno. split; [|tauto..]. by exists wt.
Qed.

(** The loop around the allocation: in the end the slots are refused, or they are
    granted in a state that the loop has reached. *)
Lemma alloc_plan ts idx o n a (s : Sched) res : alloc_run cfg ts o n a s res -> wants idx o n a s -> plan a s ->
  exists nb a' s', res = Ok (nb, a', s') /\
    match nb with
    | None => plan a' s'
    | Some b => exists s1 r k, wants idx o n a' s1 /\ plan a' s1 /\ get_req o s1 = Ok r /\
        allocate_slots r n 0 None look false 0 (kv_cache_manager s1) = Ok (Some b, k) /\ s' = set_kv_cache_manager k s1
    end.
Proof using Hcfg.
  intros HR. induction HR as [a s e r Er Ea|a s e Er|a s r b k Er Ea|a s r k e Er Ea Ep|a s r k a' s' Er Ea Ep|a s r k v a' s' res Er Ea Ep Hne HR IH];
    intros HW HP; destruct (wants_alloc _ _ _ _ _ _ Hcfg _ _ _ _ _ HW) as (r0 & nb & k0 & Er0 & Ea0 & _ & Hnb); rewrite Er0 in Er; simplify_eq; rewrite ?Ea0 in Ea; simplify_eq;
    try (destruct (wants_preempt _ _ _ _ _ _ Hcfg ts _ _ _ _ _ Hnb) as (v0 & a0 & s0' & Ep0 & _ & _ & _ & _ & _ & HW0); rewrite Ep0 in Ep; simplify_eq).
  - eexists _, _, _. split; [done|]. cbn. by eexists _, _, _.
  - pose proof (refused_plan _ _ _ _ _ _ _ HW HP Er0 Ea0) as HP1. eexists _, _, _. split; [done|]. cbn. by eapply preempt_plan.
  - pose proof (refused_plan _ _ _ _ _ _ _ HW HP Er0 Ea0) as HP1. apply IH; [by apply HW0|by eapply preempt_plan].
Qed.

(** Recording the granted slots of a running request. *)
Lemma record_plan idx o n a (s : Sched) r b k eb : wants idx o n a s -> plan a s -> get_req o s = Ok r ->
  allocate_slots r n 0 None look false 0 (kv_cache_manager s) = Ok (Some b, k) ->
  plan (set_scheduled (scheduled_new_reqs a) (scheduled_resumed_reqs a) (scheduled_running_reqs a ++ [o]) (request_id r) b n [] eb a) (set_kv_cache_manager k s).
Proof using Hcfg.
  intros HW HP Er E. destruct (wants_copies _ _ _ _ _ _ _ _ HW HP Er E) as (wt & Ht & Hlen & Hc). destruct (wants_writes _ _ _ _ _ _ _ _ HW Er E) as [HIk Hwr].
  destruct (wants_alloc _ _ _ _ _ _ Hcfg _ _ _ _ _ HW) as (r1 & nb & k1 & Er1 & E1 & HF & _). rewrite Er in Er1. injection Er1 as <-. rewrite E in E1. injection E1 as <- <-.
  destruct (wants_request _ _ _ _ _ _ _ _ _ _ _ HW) as (r1 & Hr & Hst & Hreg & Hkey & Hinj). unfold get_req in Er. rewrite Hr in Er. injection Er as ->.
  destruct HW as [HI _ _ Hidx _ _]. pose proof (rv_new _ _ _ _ HI) as En. pose proof (rv_resumed _ _ _ _ HI) as Ere.
  eapply (plan_change (request_id r) o r r a); try done.
  - intros x Hx. cbn. rewrite elem_of_app, list_elem_of_singleton. tauto.
  - intros rid' Hne. cbn. by rewrite lookup_insert_ne.
  - intros st Hm. rewrite Hst in *. inversion Hm as [? _ _|_ _|Hx|Hx]; subst; [|by rewrite En in Hx; apply elem_of_nil in Hx|by rewrite Ere in Hx; apply elem_of_nil in Hx].
    apply mv_stay; cbn; rewrite ?En, ?Ere; apply not_elem_of_nil.
  - intros _. split; cbn.
    + intros Hn. destruct Hn. unfold scheduled_all. cbn. rewrite !elem_of_app, list_elem_of_singleton. tauto.
    + intros _. exists wt, b. by rewrite lookup_insert_eq.
    + rewrite En, Ere. by intros [?%elem_of_nil|?%elem_of_nil].
Qed.

Lemma running_step_plan ts idx a (s : Sched) next a' s' :
  running_step cfg ts idx a s = Ok (next, a', s') -> run_inv cfg idx a s -> kv_ok (num_scheduled_tokens a) s -> out_ok a s -> 0 < token_budget a -> plan a s -> plan a' s'.
Proof using Hcfg.
  intros E HI HK HO Hb HP. unfold running_step in E. apply bind_Ok in E as (o & Eo & E). destruct (running s !! idx) as [o1|] eqn:Ei; [|done]. injection Eo as ->.
  assert (Hin : o ∈ running s) by (by eapply list_elem_of_lookup_2).
  destruct (lf_run _ _ _ _ (sv_life _ _ _ (rv_step _ _ _ _ HI)) o Hin) as (r & Hr & Hst & Hreg).
  assert (Hno : o ∉ scheduled_all a) by (apply (rv_fresh _ _ _ _ HI), list_elem_of_lookup; exists 0%nat; by rewrite lookup_drop, Nat.add_0_r).
  pose proof (unscheduled_key a s o r HO Hr Hreg Hno) as Hkey. pose proof (ko_reqs _ _ _ _ _ _ _ _ HK _ _ _ Hreg Hr) as Hro.
  pose proof (ro_plain _ _ _ _ _ _ _ _ _ Hro) as Hp. destruct (ro_running _ _ _ _ _ _ _ _ _ Hro Hst) as (H0 & _ & Hnt & _). rewrite (dget_none _ _ Hkey) in Hnt. cbn in Hnt.
  destruct (running_tokens_bounds cfg fs bh bs caching r (token_budget a) Hp ltac:(lia) ltac:(lia) Hb) as [Hn0 Hn].
  unfold get_req at 1 in E. rewrite Hr in E. cbn [get_or mbind result_bind] in E. cbv zeta in E. rewrite (has_no_inputs fs bh bs caching r Hp) in E. cbn [mbind result_bind] in E.
  set (n := running_new_tokens cfg r (token_budget a)) in *. set (s1 := set_encoder_cache_manager (encoder_cache_manager s) s) in *.
  assert (HP1 : plan a s1) by (by apply (plan_core a a s)).
  destruct (Z.eqb_spec n 0) as [En0|En0]; [by inv_ok|].
  assert (HW : wants idx o n a s1).
  { split; try done; [by apply (run_inv_core _ _ _ s)| |by destruct HO; split|lia|intros rx Hrx; cbn in Hrx; by simplify_eq]. apply (kv_ok_core _ _ _ _ _ _ _ s); try done; apply HK. }
  apply bind_Ok in E as ([[nb a1] s2] & El & E).
  destruct (alloc_plan ts idx o n a s1 _ (alloc_loop_runs cfg ts o n (S (length (running s1))) a s1 ltac:(lia)) HW HP1) as (nb' & a2 & s3 & El' & Hout).
  rewrite El in El'. injection El' as <- <- <-. destruct nb as [b|]; [|by inv_ok]. destruct Hout as (s3 & r3 & k & HW3 & HP3 & Er3 & Ea3 & ->).
  destruct (wa_run _ _ _ _ _ _ _ _ _ _ _ HW) as [J1 J2 J3 J4 J5]. destruct (alloc_loop_spec cfg ts idx o n _ _ _ _ _ _ El J1 J2 J3 J4 Hin J5 (fun _ => Ei)) as (_ & _ & _ & _ & _ & _ & _ & _ & Hsome).
  destruct (Hsome ltac:(done)) as [_ Hs3]. cbn in Hs3. assert (r3 = r) as -> by (unfold get_req in Er3; rewrite Hs3, Hr in Er3; by injection Er3 as <-).
  unfold schedule_spec in E. rewrite (pl_drafts _ _ _ _ _ Hp), decide_True in E by done. unfold encoder_allocate in E. cbn [foldM mbind result_bind] in E. inv_ok.
  eapply plan_core; [exact (record_plan idx o n a1 s3 r b k (encoder_compute_budget a) HW3 HP3 Er3 Ea3)|done..].
Qed.

Lemma running_run_plan ts idx a (s : Sched) res : running_run cfg ts idx a s res -> run_inv cfg idx a s -> kv_ok (num_scheduled_tokens a) s -> out_ok a s -> plan a s ->
  forall a' s', res = Ok (a', s') -> plan a' s'.
Proof using Hcfg.
  intros HR. induction HR as [idx a s Hc|idx a s e Hc E|idx a s a' s' Hc E|idx a s j a' s' res Hc E HR IH]; intros HI HK HO HP a1 s1 E1; [by simplify_eq|done|..];
    apply andb_true_iff in Hc as [Hc1%Nat.ltb_lt Hc2%Z.ltb_lt]; pose proof (running_step_plan _ _ _ _ _ _ _ E HI HK HO Hc2 HP) as HP'; [by simplify_eq|].
  destruct (running_step_returns cfg fs bh bs caching room Hcfg ts idx a s HI HK HO Hc1 Hc2) as (nx & a2 & s2 & E2 & HK2 & HO2 & _). rewrite E in E2. injection E2 as <- <- <-.
  pose proof (running_step_spec cfg _ _ _ _ _ _ _ E HI Hc2) as [_ HI']. by eapply IH.
Qed.

(** * Waiting requests *)

Section Head.
Context (a : Step) (s : Sched) (o : nat) (q : list nat) (r : Request).
Hypothesis (HH : head_of a s o q r) (HK : kv_ok (num_scheduled_tokens a) s) (HI : step_inv cfg a s) (HP : plan a s) (Hpre : preempted_reqs a = []).

Lemma head_unscheduled : o ∉ scheduled_all a.
Proof using HH HI. intros Hx%(sv_sub _ _ _ HI). apply (life_disjoint _ _ _ _ (sv_life _ _ _ HI) o); [|done]. rewrite (hd_queue _ _ _ _ _ _ _ _ _ _ HH). cbn. by left. Qed.

(** A request that keeps waiting. *)
Lemma head_stays a' (s' : Sched) : requests s' = requests s -> finished_req_ids s' = finished_req_ids s -> sched_store s' = sched_store s ->
  kv_frame (request_id r) (kv_cache_manager s) (kv_cache_manager s') -> scheduled_new_reqs a' = scheduled_new_reqs a -> scheduled_resumed_reqs a' = scheduled_resumed_reqs a ->
  scheduled_running_reqs a' = scheduled_running_reqs a -> req_to_new_blocks a' = req_to_new_blocks a -> preempted_reqs a' = preempted_reqs a ->
  (exists l, kvm_inv (kv_cache_manager s') l) -> plan a' s'.
Proof using HH HP.
  intros E1 E2 E3 HF E4 E5 E6 E7 E8 HIk. destruct HH as [H1 H2 H3 H4 H5 H6 H7 H8 H9 H10].
  assert (Hra : same_others o a a') by (intros x _; by rewrite E4, E5, E6, E8).
  eapply (plan_change (request_id r) o r r a); try done.
  - intros x _. by rewrite E3.
  - by rewrite E3.
  - intros rid' _. by rewrite E7.
  - intros st Hm. assert (Ea : scheduled_all a' = scheduled_all a) by (unfold scheduled_all; by rewrite E4, E5, E6).
    destruct Hm; [apply mv_stay|apply mv_preempt|apply mv_admit|apply mv_resume]; rewrite ?E4, ?E5, ?Ea, ?E8; done.
  - intros Hs. by destruct H6 as [E|E]; rewrite E in Hs.
  - intros Hs. by destruct H6 as [E|E]; rewrite E in Hs.
Qed.

Lemma head_commit_plan ts c n eb k l a' s' : kv_frame (request_id r) (kv_cache_manager s) k -> kvm_inv k l ->
  (forall j i p, c_total c / bs <= Z.of_nat i -> manager_entry k j (request_id r) i = Some p -> sole (kvm_pool k) p) ->
  waiting_commit cfg ts o c n [] eb a (set_waiting (FCFSRequestQueue q) (set_kv_cache_manager k s)) = Ok (a', s') -> plan a' s'.
Proof using HH HI HP Hpre Hcfg.
  intros HF HV Hwr E. pose proof head_unscheduled as Hno. destruct HH as [H1 H2 H3 H4 H5 H6 H7 H8 H9 H10]. unfold waiting_commit in E. cbv zeta in E.
  set (s1 := if log_stats cfg then _ else _) in E.
  assert (Hs1 : exists r1, sched_store s1 !! o = Some r1 /\ content r1 = content r /\ status r1 = status r /\ requests s1 = requests s /\
    finished_req_ids s1 = finished_req_ids s /\ kv_cache_manager s1 = k /\ (forall x, x ≠ o -> sched_store s1 !! x = sched_store s !! x)).
  { unfold s1. destruct (log_stats cfg); cbn.
    - eexists. split; [by rewrite lookup_alter_eq, H2|]. split_and!; try done. intros x Hx. by rewrite lookup_alter_ne.
    - exists r. by split_and!. }
  destruct Hs1 as (r1 & E1 & Hcon & Hst & Er & Ef & Ek & Est). clearbody s1. unfold get_req in E. rewrite E1 in E. cbn [get_or mbind result_bind] in E.
  rewrite (pc_loras _ Hcfg) in E. unfold encoder_allocate in E. cbn [foldM mbind result_bind] in E.
  assert (Hid : request_id r1 = request_id r) by (unfold content in Hcon; congruence). rewrite Hid in E.
  apply bind_Ok in E as ([new resumed] & Enr & E). inv_ok. rewrite Hst in Enr.
  set (f := fun r0 : Request => if num_cached_tokens _ <? 0 then _ else _).
  assert (Hf : content (f r1) = content r1 /\ status (f r1) = RUNNING /\ num_computed_tokens (f r1) = c_total c) by (unfold f; cbv zeta; by destruct (_ <? 0)).
  destruct Hf as (Hf1 & Hf2 & Hf3). set (k := kv_cache_manager s1) in *. assert (Hcop : copied k (request_id r) (bids (kvm_get_blocks (request_id r) k))) by (by eapply copied_own).
  unfold scheduled_all in Hno. rewrite !not_elem_of_app in Hno. destruct Hno as (N1 & N2 & N3).
  assert (Hnr : (status r = WAITING /\ new = scheduled_new_reqs a ++ [o] /\ resumed = scheduled_resumed_reqs a) \/
    (status r = PREEMPTED /\ new = scheduled_new_reqs a /\ resumed = scheduled_resumed_reqs a ++ [o])).
  { destruct H6 as [Hs|Hs]; rewrite Hs in Enr; inv_ok; [left|right]; done. }
  eapply (plan_change (request_id r) o r (f r1) a); try done.
  - intros x Hx. cbn. rewrite lookup_alter_ne by done. by apply Est.
  - cbn. by rewrite lookup_alter_eq, E1.
  - congruence.
  - intros x Hx. cbn. destruct Hnr as [(_ & -> & ->)|(_ & -> & ->)]; rewrite elem_of_app, list_elem_of_singleton; tauto.
  - intros rid' Hne. cbn. by rewrite lookup_insert_ne.
  - intros st Hm. rewrite Hf2. inversion Hm as [? M1 M2 E2 E3|M1 M2 E2 E3|M1 E2 E3|M1 E2 E3]; subst; try done; [|by rewrite Hpre in M1; apply elem_of_nil in M1].
    destruct Hnr as [(-> & -> & ->)|(-> & -> & ->)]; [apply mv_admit|apply mv_resume]; cbn; rewrite elem_of_app, list_elem_of_singleton; by right.
  - intros _. split; cbn.
    + intros Hn. destruct Hn. unfold scheduled_all. cbn. destruct Hnr as [(_ & -> & ->)|(_ & -> & ->)]; rewrite !elem_of_app, list_elem_of_singleton; tauto.
    + done.
    + intros _. exists (kvm_get_blocks (request_id r) k). rewrite lookup_insert_eq. done.
  - by exists l.
  - intros _ j i p. rewrite Hf3. intros Hi Ep. left. by eapply Hwr.
Qed.

Lemma head_plan ts go a' s' : out_ok a s -> 0 < token_budget a -> waiting_step cfg ts a s = Ok (go, a', s') -> plan a' s'.
Proof using All.
  pose proof head_stays as Hstay. pose proof head_commit_plan as Hcommit. intros HO Hb E. unfold waiting_step in E. rewrite (hd_queue _ _ _ _ _ _ _ _ _ _ HH) in E. cbn [peek_request head get_or mbind result_bind] in E.
  rewrite (head_ready cfg fs bh bs caching Hcfg a s o q r HH) in E. cbn [mbind result_bind negb] in E. unfold get_req in E. rewrite (hd_store _ _ _ _ _ _ _ _ _ _ HH) in E. cbn [get_or mbind result_bind] in E.
  destruct (head_computed cfg fs bh bs caching room a s o q r HH HK) as (b & n0 & k & l & Ec & HV & HF & HU & Hn0 & Hus & Hnc). rewrite Ec in E. cbn [mbind result_bind] in E.
  destruct (head_tokens cfg fs bh bs caching a s o q r HH Hb (mkComputed b n0 0 n0 false) (set_kv_cache_manager k s) eq_refl ltac:(cbn; lia)) as (wt & Et & Hwt).
  rewrite Et in E. cbn [mbind result_bind] in E. destruct wt as [| |n inputs eb]; [|done|].
  - unfold skip_waiting in E. cbn [waiting set_kv_cache_manager] in E. rewrite (hd_queue _ _ _ _ _ _ _ _ _ _ HH) in E. cbn [pop_request mbind result_bind] in E.
    destruct (oo_skipped _ _ HO) as [sk Hsk]. rewrite Hsk in E. cbn [prepend_request mbind result_bind] in E. inv_ok. apply Hstay; try done. by exists l.
  - destruct Hwt as (Hn & Hsum & ->). cbn in Hsum.
    destruct (head_alloc cfg fs bh bs caching room Hcfg a s o q r HH HK b n0 n k l HV HF HU ltac:(lia) Hus Hnc Hn Hsum) as (nb & k' & Ea & [l' HV'] & HF' & _). rewrite Ea in E. cbn [mbind result_bind] in E.
    destruct nb as [b'|]; [|inv_ok; apply Hstay; try done; by exists l'].
    assert (Hwr : forall j i p, n0 / bs <= Z.of_nat i -> manager_entry k' j (request_id r) i = Some p -> sole (kvm_pool k') p).
    { pose proof (hd_plain _ _ _ _ _ _ _ _ _ _ HH) as Hp. pose proof (hd_len _ _ _ _ _ _ _ _ _ _ HH) as Hlen.
      unfold waiting_alloc, waiting_encoder_tokens in Ea. rewrite (has_no_inputs fs bh bs caching r Hp), andb_false_r, (hd_zero _ _ _ _ _ _ _ _ _ _ HH) in Ea.
      change (0 =? 0) with true in Ea. cbn [c_external c_local c_blocks c_async mbind result_bind kv_cache_manager set_kv_cache_manager] in Ea. rewrite Z.add_0_r in Ea.
      apply bind_Ok in Ea as ([nb2 k2] & Ea & Ek). cbn [connector set_kv_cache_manager] in Ek. rewrite (ko_connector _ _ _ _ _ _ _ _ HK) in Ek.
      assert (nb2 = Some b' /\ k2 = k') as [-> ->] by (destruct nb2; inv_ok; done).
      eapply (admitted_writes bs maxlen k l r b n n0 b' k'); try done; [by eapply setup_frame; [exact HF|apply HK]|apply HH|lia|lia|].
      rewrite (kl_caching _ _ (proj1 HF)). intros Hc. by apply (hash_ready _ _ _ _ _ _ _ _ r HK Hp). } cbn [waiting set_kv_cache_manager] in E. rewrite (hd_queue _ _ _ _ _ _ _ _ _ _ HH) in E. cbn [pop_request mbind result_bind c_async] in E.
    apply bind_Ok in E as ([a1 s1] & Ecm & E). inv_ok. eapply Hcommit; [exact HF'|exact HV'| |exact Ecm]. exact Hwr.
Qed.
End Head.

Lemma waiting_run_plan ts a (s : Sched) res : waiting_run cfg ts a s res -> step_inv cfg a s -> preempted_reqs a = [] -> kv_ok (num_scheduled_tokens a) s -> out_ok a s -> plan a s ->
  forall a' s', res = Ok (a', s') -> plan a' s'.
Proof using All.
  intros HR. induction HR as [a s Hc|a s Hc Hf|a s e Hc Hf E|a s a' s' Hc Hf E|a s a' s' res Hc Hf E HR IH]; intros HI Hpre HK HO HP a1 s1 E1; [by simplify_eq|by simplify_eq|done|..];
    apply andb_true_iff in Hc as [Hc1 Hc2%Z.ltb_lt]; destruct (waiting_head cfg fs bh bs caching room a s HI HK HO Hc1) as (o & q & r & HH);
    pose proof (head_plan a s o q r HH HK HI HP Hpre ts _ _ _ HO Hc2 E) as HP'; [by simplify_eq|].
  destruct (head_step cfg fs bh bs caching room Hcfg a s o q r HH HK HO Hc2 ts) as (go & a2 & s2 & E2 & HK2 & HO2 & _). rewrite E in E2. injection E2 as <- <- <-.
  pose proof (sv_width _ _ _ HI). destruct (waiting_step_spec cfg _ _ _ _ _ _ E HI Hpre Hc2 ltac:(lia)) as [HI2 Hpre2]. by eapply IH.
Qed.

(** * Both loops *)

Lemma loops_plan ts a s : sched_inv cfg s0 -> kv_ok [] s0 -> plan (step_init cfg) s0 -> schedule_loops cfg ts s0 = Ok (a, s) -> plan a s.
Proof using All.
  intros HI HK HP E. pose proof (step_init_inv cfg s0 (pc_tokens _ Hcfg) HI) as HR. pose proof (start_out_ok cfg Hcfg s0) as HO.
  unfold schedule_loops in E. apply bind_Ok in E as ([a1 s1] & E1 & E).
  pose proof (running_loop_runs cfg ts (S (length (running s0))) 0 (step_init cfg) s0 ltac:(lia)) as Hrun. rewrite E1 in Hrun.
  destruct (running_run_returns cfg fs bh bs caching room Hcfg ts 0 _ s0 _ Hrun HR HK HO) as (a1' & s1' & E1' & HK1 & HO1 & _). injection E1' as <- <-.
  pose proof (running_run_plan ts 0 _ _ _ Hrun HR HK HO HP _ _ eq_refl) as HP1. destruct (running_loop_spec cfg _ _ _ _ _ _ _ E1 HR) as (j & [HI1 _ _ _ _]).
  unfold record_loras in E. rewrite (pc_loras _ Hcfg) in E. cbn [mbind result_bind] in E. apply bind_Ok in E as ([a2 s2] & E2 & E).
  assert (HP2 : plan a2 s2).
  { destruct (decide (preempted_reqs a1 = [])) as [Hp|]; [|by inv_ok]. eapply waiting_run_plan; [|exact HI1|exact Hp|exact HK1|exact HO1|exact HP1|exact E2].
    apply waiting_loop_runs. rewrite queue_len_objs. unfold zlen. lia. }
  destruct (queue_bool _); [|by inv_ok]. apply bind_Ok in E as (w & _ & E). inv_ok. by eapply plan_core.
Qed.
End Plan.
