(* ===== verification/SchedSent.v ===== *)
(** What the workers get from a step of the scheduler
    (src/vllm/v1/core/sched/scheduler.py): the new and the cached requests of a
    scheduler output, described by the states of the requests before and after
    [schedule], and the block tables that the workers have afterwards. *)
From Stdlib Require Import ZArith Lia Ascii String QArith Qcanon.
From stdpp Require Import numbers gmap strings list.
From S2P Require Import Prelude FreeQueue Request BlockHash BlockPool KVCacheManager KVBacking TableCopy Ownership Capacity EncoderCache RequestQueue SchedState Scheduler SchedulerUpdate Lifecycle SchedTerm LifecycleOps Progress SchedPlan.

Open Scope Z_scope.

Section Sent.
Context {C G : Type} `{!KVConnector C, !StructuredOutput G, !NoGrammarNoAdvance G}.
Context (cfg : SchedConfig) (fs : string -> option Qc).
Context (bh : option hasher) (bs : Z) (caching : bool) `{!BlockHasher bh bs caching} (room : Z).
Hypothesis Hcfg : plain_config cfg.

Abbreviation Sched := (Scheduler C G).
Notation kv_ok := (Progress.kv_ok cfg fs bh bs caching room).

(** * Released requests *)

(** Finished requests give up their blocks and are forgotten; the tables of the
    others stay. *)
Record releases (s s' : Sched) : Prop := {
  rl_store : sched_store s' = sched_store s;
  rl_frozen : frozen (kv_cache_manager s) (kv_cache_manager s');
  rl_reqs : forall rid o, requests s' !! rid = Some o -> requests s !! rid = Some o;
  rl_live : forall rid o r, requests s !! rid = Some o -> sched_store s !! o = Some r -> is_finished r = false -> requests s' !! rid = Some o;
  rl_copies : forall rid wt, is_Some (requests s' !! rid) -> copied (kv_cache_manager s) rid wt -> copied (kv_cache_manager s') rid wt
}.

#[export] Instance releases_preorder : PreOrder releases.
Proof.
  split; [by intros s; split|]. intros s1 s2 s3 [A1 AF A2 A3 A4] [B1 BF B2 B3 B4]. split.
  - congruence.
  - by etrans.
  - intros rid o H. by apply A2, B2.
  - intros rid o r H Hr Hf. eapply B3; [by eapply A3|by rewrite A1|done].
  - intros rid wt [o Ho] Hc. apply B4; [by eexists|]. apply A4; [|done]. exists o. by apply B2.
Qed.

Lemma free_blocks_releases o r (s s' : Sched) : kv_ok [] s -> sched_store s !! o = Some r -> requests s !! request_id r = Some o -> free_blocks_of o s = Ok s' ->
  releases s s' /\ finished_req_ids s' = finished_req_ids s.
Proof.
  intros HK Hr Hreg (r' & k & Hr' & Hfin & _ & Ek & ->)%free_blocks_of_spec. rewrite Hr in Hr'. injection Hr' as <-.
  destruct (ko_inv _ _ _ _ _ _ _ _ HK) as [l HV]. destruct (free_backing _ l r HV) as (k1 & l1 & Ek1 & _ & HF & _). rewrite Ek in Ek1. injection Ek1 as <-.
  split; [|done]. split; cbn; try done.
  - by eapply frame_frozen.
  - by intros rid x [_ ?]%lookup_delete_Some.
  - intros rid x rx Hx Hrx Hf. destruct (decide (rid = request_id r)) as [->|Hne]; [|by rewrite lookup_delete_ne]. simplify_eq. congruence.
  - intros rid wt [x [Hne _]%lookup_delete_Some] Hc. by eapply copied_frame.
Qed.

Lemma expire_releases now (s s' : Sched) : sched_inv cfg s -> kv_ok [] s -> mimir_expire_pins now s = Ok s' -> releases s s' /\ finished_req_ids s' = finished_req_ids s.
Proof.
  intros HI HK E. unfold mimir_expire_pins in E. apply bind_Ok in E as ([still s1] & E1 & E). inv_ok.
  destruct (foldM_returns (fun l (acc : list (nat * Qc) * Sched) => (sched_inv cfg acc.2 /\ kv_ok [] acc.2 /\ forall p, p ∈ l -> p ∈ pinned_requests acc.2) /\
    releases s acc.2 /\ finished_req_ids acc.2 = finished_req_ids s) (expire_one now) (pinned_requests s)) with (s := (@nil (nat * Qc), s)) as ([st1 s2] & E2 & _ & HR & Hf); [|done|].
  2: { rewrite E1 in E2. injection E2 as _ <-. split; [|done]. destruct HR as [R1 RF R2 R3 R4]. by split. }
  intros p l [st0 sc] ((HI0 & HK0 & Hl) & HR & Hf). cbn [snd] in *. unfold expire_one. assert (Hl' : forall q, q ∈ l -> q ∈ pinned_requests sc) by (intros q Hq; apply Hl; by right).
  destruct (decide (p.2 <= now)%Qc) as [Hle|Hle]; [|by eexists].
  destruct (sc_pins _ _ HI0 p) as (r & Hr & Hfin & Hown); [apply Hl; by left|]. unfold get_req. rewrite Hr. cbn [get_or mbind result_bind].
  destruct (decide (is_Some (requests sc !! request_id r))) as [[o Ho]|]; [|by eexists]. pose proof (Hown o Ho) as ->.
  destruct (free_blocks_returns cfg fs bh bs caching room [] p.1 r sc HK0 Hr Hfin Ho) as (s3 & E3 & HK3). rewrite E3. cbn [mbind result_bind]. eexists. split; [done|]. cbn [snd].
  destruct (free_blocks_releases _ _ _ _ HK0 Hr Ho E3) as [HR3 Hf3]. destruct (free_blocks_of_spec _ _ _ E3) as (r' & k & _ & _ & _ & _ & Es).
  split; [split; [by eapply free_blocks_of_inv|split; [done|by rewrite Es]]|]. split; [by etrans|congruence].
Qed.

(** * The output *)

(** A request of a scheduler output: its state [r] before and after the step. *)
Record carried (s s' : Sched) (out : SchedulerOutput) (id : string) (nc : Z) (r : Request) : Prop := {
  cd_before : exists o, requests s !! id = Some o /\ sched_store s !! o = Some r;
  cd_after : exists o r', requests s' !! id = Some o /\ sched_store s' !! o = Some r' /\ status r' = RUNNING /\ content r' = content r /\
    exists n, dget id (so_num_scheduled_tokens out) = Some n /\ 0 < n /\ 0 <= nc /\ nc + n = num_computed_tokens r'
}.

(** A cached request: a resumed one gets its whole tables, a running one what it
    does not have yet. *)
Definition cached_right (T : gmap string (list (list Z))) (s' : Sched) (id : string) (nb : option (list (list Z))) (resumed : bool) (before : RequestStatus) : Prop :=
  if resumed then before = PREEMPTED /\ exists ids, nb = Some ids /\ copied (kv_cache_manager s') id ids
  else before = RUNNING /\ exists wt, T !! id = Some wt /\
    match nb with
    | Some ids => length ids = length wt /\ copied (kv_cache_manager s') id (zip_with app wt ids)
    | None => copied (kv_cache_manager s') id wt
    end.

(** What a step sends, and what becomes of the other requests. *)
Record sent (T : gmap string (list (list Z))) (s : Sched) (out : SchedulerOutput) (s' : Sched) : Prop := {
  st_new : forall nr, nr ∈ so_new_reqs out -> exists r, carried s s' out (nr_req_id nr) (nr_num_computed_tokens nr) r /\ status r = WAITING /\
    nr_prompt_token_ids nr = prompt_token_ids r /\ nr_sampling_params nr = sampling_params r /\ nr_pooling_params nr = pooling_params r /\
    nr_lora_request nr = lora_request r /\ copied (kv_cache_manager s') (nr_req_id nr) (nr_block_ids nr);
  st_cached : forall i id, cr_req_ids (so_cached_reqs out) !! i = Some id -> exists r nc nb resumed,
    cr_num_computed_tokens (so_cached_reqs out) !! i = Some nc /\ cr_new_block_ids (so_cached_reqs out) !! i = Some nb /\
    cr_resumed_from_preemption (so_cached_reqs out) !! i = Some resumed /\ carried s s' out id nc r /\ cached_right T s' id nb resumed (status r);
  st_nodup : NoDup ((nr_req_id <$> so_new_reqs out) ++ cr_req_ids (so_cached_reqs out));
  st_keys : forall id, id ∈ (so_num_scheduled_tokens out).*1 <-> id ∈ (nr_req_id <$> so_new_reqs out) ++ cr_req_ids (so_cached_reqs out);
  st_width : zlen ((nr_req_id <$> so_new_reqs out) ++ cr_req_ids (so_cached_reqs out)) <= max_num_running_reqs cfg;
  st_dict : NoDup (so_num_scheduled_tokens out).*1;
  st_total : so_total_num_scheduled_tokens out = sum_values (so_num_scheduled_tokens out) /\ so_total_num_scheduled_tokens out <= max_num_scheduled_tokens cfg;
  st_plain : so_spec_decode_tokens out = ∅ /\ so_structured_output_request_ids out = ∅;
  st_frozen : frozen (kv_cache_manager s) (kv_cache_manager s');
  st_finished : so_finished_req_ids out = finished_req_ids s /\ finished_req_ids s' = ∅;
  st_before : forall id o r', requests s' !! id = Some o -> sched_store s' !! o = Some r' -> exists r, requests s !! id = Some o /\ sched_store s !! o = Some r /\ content r' = content r /\
    (id ∉ (so_num_scheduled_tokens out).*1 -> (status r' = status r /\ (status r = RUNNING -> exists wt, T !! id = Some wt /\ copied (kv_cache_manager s') id wt)) \/
      (status r = RUNNING /\ status r' = PREEMPTED));
  st_after : forall id o r, requests s !! id = Some o -> sched_store s !! o = Some r -> status r = RUNNING \/ status r = PREEMPTED ->
    exists r', requests s' !! id = Some o /\ sched_store s' !! o = Some r' /\ (status r' = RUNNING \/ status r' = PREEMPTED);
  st_own : exists st, owned (kv_cache_manager s') st /\ forall id n o r', dget id (so_num_scheduled_tokens out) = Some n -> requests s' !! id = Some o ->
    sched_store s' !! o = Some r' -> st id = Some ((num_computed_tokens r' - n) / bs);
  st_live : forall id o r, requests s !! id = Some o -> sched_store s !! o = Some r -> is_finished r = false ->
    exists r', requests s' !! id = Some o /\ sched_store s' !! o = Some r' /\ is_finished r' = false
}.

(** ** The last part of a step *)

Lemma advance_effect l : forall (s s' : Sched), foldM (advance_request cfg) s l = Ok s' -> NoDup l.*1 ->
  (forall id id' o, requests s !! id = Some o -> requests s !! id' = Some o -> id = id') ->
  requests s' = requests s /\ kv_cache_manager s' = kv_cache_manager s /\ finished_req_ids s' = finished_req_ids s /\
  (forall o, sched_store s !! o = None -> sched_store s' !! o = None) /\
  forall o r, sched_store s !! o = Some r -> exists r', sched_store s' !! o = Some r' /\ content r' = content r /\ status r' = status r /\
    forall id, requests s !! id = Some o -> num_computed_tokens r' = num_computed_tokens r + default 0 (dget id l).
Proof.
  induction l as [|[id0 n0] l IH]; intros s s' E Hnd Hinj.
  { cbn in E. inv_ok. split_and!; try done. intros o r Hr. exists r. split_and!; try done. intros id _. cbn. lia. }
  cbn in E. apply bind_Ok in E as (s1 & E1 & E). cbn in Hnd. apply NoDup_cons in Hnd as [Hni Hnd]. unfold advance_request in E1. cbn [fst snd] in E1.
  apply bind_Ok in E1 as (o0 & Eo & E1). apply get_or_Ok in Eo. apply bind_Ok in E1 as (r0 & Er & E1).
  set (s2 := upd_req o0 (fun r => set_num_computed_tokens (num_computed_tokens r + n0) r) s) in *.
  assert (Es : sched_store s1 = sched_store s2 /\ requests s1 = requests s2 /\ kv_cache_manager s1 = kv_cache_manager s2 /\ finished_req_ids s1 = finished_req_ids s2).
  { destruct (has_encoder_inputs r0); [|by inv_ok]. unfold free_encoder_inputs in E1. by inv_ok. }
  destruct Es as (Es & Eq & Ek & Ef). destruct (IH s1 s' E Hnd) as (R1 & R2 & R3 & R4 & R5); [rewrite Eq; exact Hinj|].
  split_and!; [by rewrite R1, Eq|by rewrite R2, Ek|by rewrite R3, Ef|intros o Ho; apply R4; rewrite Es; unfold s2; cbn; destruct (decide (o0 = o)) as [->|]; [by rewrite lookup_alter_eq, Ho|by rewrite lookup_alter_ne]|].
  intros o r Hr. assert (H1 : exists r1, sched_store s1 !! o = Some r1 /\ content r1 = content r /\ status r1 = status r /\
    num_computed_tokens r1 = num_computed_tokens r + (if decide (o = o0) then n0 else 0)).
  { rewrite Es. unfold s2. cbn. destruct (decide (o = o0)) as [->|Hne].
    - rewrite lookup_alter_eq, Hr. eexists. by split_and!.
    - rewrite lookup_alter_ne by done. exists r. split_and!; try done. lia. }
  destruct H1 as (r1 & Hr1 & C1 & S1 & N1). destruct (R5 o r1 Hr1) as (r2 & Hr2 & C2 & S2 & N2). exists r2. split_and!; [done|congruence|congruence|].
  intros id Hid. rewrite (N2 id) by (by rewrite Eq). rewrite N1. cbn [dget]. destruct (decide (o = o0)) as [->|Hne].
  - pose proof (Hinj id id0 o0 Hid Eo) as ->. rewrite decide_True, (dget_none id0 l) by done. cbn. lia.
  - rewrite decide_False by (intros ->; congruence). lia.
Qed.

(** ** The lists of an output *)

Section Output.
Context (a : Step) (s : Sched).
Hypothesis (HI : sched_inv cfg s) (HK : kv_ok (num_scheduled_tokens a) s) (HO : out_ok a s).

Lemma new_data_spec news : make_new_request_data a s = Ok news ->
  Forall2 (fun o nr => exists r b, sched_store s !! o = Some r /\ req_to_new_blocks a !! request_id r = Some b /\ nr = from_request r (bids b)) (scheduled_new_reqs a) news.
Proof using HK HO.
  intros E%mapM_Forall2. apply Forall2_same_length_lookup. split; [by eapply Forall2_length|]. intros i o nr Ho Hn. pose proof (Forall2_lookup_lr _ _ _ _ _ _ E Ho Hn) as En. cbn in En.
  assert (Hin : o ∈ scheduled_all a) by (unfold scheduled_all; rewrite elem_of_app; left; by eapply list_elem_of_lookup_2).
  destruct (oo_sched _ _ HO o Hin) as (r & b & n & Hr & Hb & Hv & _). unfold get_req, block_ids_of in En. rewrite Hr in En. cbn [get_or mbind result_bind] in En.
  rewrite Hb in En. cbn [get_or mbind result_bind] in En. destruct (get_block_ids _ _ _) as [ids|] eqn:Ei; [|done]. cbn [mbind result_bind] in En.
  destruct (ko_inv _ _ _ _ _ _ _ _ HK) as [l HV]. destruct (get_block_ids_eq _ l false b ids HV Hv Ei) as [->|(? & _)]; [|done]. cbn in En. injection En as <-. by exists r, b.
Qed.

(** The entry of a cached request. *)
Definition cached_row (o : nat) (e : string * option (list (list Z)) * Z) : Prop :=
  exists r b, sched_store s !! o = Some r /\ req_to_new_blocks a !! request_id r = Some b /\ e.1.1 = request_id r /\ e.2 = num_computed_tokens r /\
    (e.1.2 = Some (bids b) \/ e.1.2 = None /\ Forall (fun g => g = []) (kv_blocks b)).

Lemma cached_entry_spec d o d' : o ∈ scheduled_all a -> cached_entry cfg a s d o = Ok d' -> exists e, cached_row o e /\
  cr_req_ids d' = cr_req_ids d ++ [e.1.1] /\ cr_new_block_ids d' = cr_new_block_ids d ++ [e.1.2] /\ cr_num_computed_tokens d' = cr_num_computed_tokens d ++ [e.2].
Proof using HK HO.
  intros Hin E. destruct (oo_sched _ _ HO o Hin) as (r & b & n & Hr & Hb & Hv & Hn). unfold cached_entry, get_req in E. rewrite Hr in E. cbn [get_or mbind result_bind] in E.
  rewrite Hn in E. cbn [get_or mbind result_bind] in E. unfold block_ids_of in E. rewrite Hb in E. cbn [get_or mbind result_bind] in E.
  destruct (get_block_ids _ _ _) as [ids|] eqn:Ei; [|done]. cbn [mbind result_bind] in E. injection E as <-.
  destruct (ko_inv _ _ _ _ _ _ _ _ HK) as [l HV]. exists (request_id r, ids, num_computed_tokens r). split; [|done]. exists r, b. split_and!; try done. cbn.
  destruct (get_block_ids_eq _ l true b ids HV Hv Ei) as [->|(_ & -> & ?)]; [by left|by right].
Qed.

Lemma cached_fold_spec l : forall d d', (forall o, o ∈ l -> o ∈ scheduled_all a) -> foldM (cached_entry cfg a s) d l = Ok d' -> exists es, Forall2 cached_row l es /\
  cr_req_ids d' = cr_req_ids d ++ es.*1.*1 /\ cr_new_block_ids d' = cr_new_block_ids d ++ es.*1.*2 /\ cr_num_computed_tokens d' = cr_num_computed_tokens d ++ es.*2.
Proof using HK HO.
  induction l as [|o l IH]; intros d d' Hl E.
  { cbn in E. injection E as <-. exists []. cbn. rewrite !app_nil_r. by split_and!. }
  cbn in E. apply bind_Ok in E as (d1 & E1 & E). destruct (cached_entry_spec d o d1 ltac:(apply Hl; by left) E1) as (e & He & A1 & A2 & A3).
  destruct (IH d1 d' ltac:(intros x Hx; apply Hl; by right) E) as (es & Hes & B1 & B2 & B3). exists (e :: es). cbn.
  split; [by constructor|]. rewrite B1, B2, B3, A1, A2, A3, <-!app_assoc. done.
Qed.

Lemma cached_data_spec d : make_cached_request_data cfg a s = Ok d -> exists es, Forall2 cached_row (scheduled_running_reqs a ++ scheduled_resumed_reqs a) es /\
  cr_req_ids d = es.*1.*1 /\ cr_new_block_ids d = es.*1.*2 /\ cr_num_computed_tokens d = es.*2 /\
  cr_resumed_from_preemption d = replicate (length (scheduled_running_reqs a)) false ++ replicate (length (scheduled_resumed_reqs a)) true.
Proof using HK HO.
  unfold make_cached_request_data. intros E. apply bind_Ok in E as (d1 & E1 & E). injection E as <-.
  assert (Hl : forall o, o ∈ scheduled_running_reqs a ++ scheduled_resumed_reqs a -> o ∈ scheduled_all a) by (intros o; unfold scheduled_all; rewrite !elem_of_app; tauto).
  destruct (cached_fold_spec _ _ _ Hl E1) as (es & Hes & A1 & A2 & A3). exists es. by rewrite A1, A2, A3.
Qed.

(** The ids of request objects. *)
Definition rid_of (o : nat) : string := default ""%string (request_id <$> sched_store s !! o).

Lemma sched_nodup l : NoDup l -> (forall o, o ∈ l -> o ∈ running s) -> NoDup (rid_of <$> l).
Proof using HI.
  intros Hnd Hl. apply NoDup_fmap_2_strong; [|done]. intros o o' Ho Ho' E. unfold rid_of in E.
  destruct (lf_run _ _ _ _ (sc_life _ _ HI) o (Hl o Ho)) as (r & Hr & _), (lf_run _ _ _ _ (sc_life _ _ HI) o' (Hl o' Ho')) as (r' & Hr' & _). rewrite Hr, Hr' in E. cbn in E.
  eapply (life_same_id _ _ _ _ (sc_life _ _ HI)); [| |exact Hr|exact Hr'|done]; rewrite elem_of_app; right; by apply Hl.
Qed.
End Output.

Lemma empty_rows_copied (wt : list (list Z)) (rows : list (list bptr)) : Forall (fun g => g = []) rows -> length rows = length wt ->
  zip_with app wt ((fun g : list bptr => bid <$> g) <$> rows) = wt.
Proof.
  intros H. revert wt. induction H as [|g rows -> _ IH]; intros [|x wt] Hl; try done. cbn in *. by rewrite app_nil_r, IH by lia.
Qed.

Lemma dget_elem_pair {V} (k : string) (v : V) d : dget k d = Some v -> (k, v) ∈ d.
Proof. induction d as [|[k' v'] d IH]; cbn; [done|]. destruct (decide (k = k')) as [->|]; [intros [= ->]; by left|]. intros. right. auto. Qed.

(** Resumed requests have blocks. *)
Lemma backed_rows k rid t wt : 0 < t -> managers k ≠ [] -> backed bs (num_lookahead_tokens cfg) (max_model_len cfg) k rid t -> copied k rid wt -> ~ Forall (fun g => g = []) wt.
Proof.
  intros Ht Hm HB Hc. destruct (managers k) as [|m ms] eqn:E; [done|]. unfold backed, copied in *. rewrite E in *. apply Forall_cons in HB as [(c & _ & Hb & _) _].
  inversion Hc as [|? ids ? wt' Hrow _]; subst. intros [-> _]%Forall_cons. apply Forall2_nil_inv_r in Hrow. rewrite Hrow in Hb. change (zlen []) with 0 in Hb. lia.
Qed.

(** ** A step *)

Section Assemble.
Context (T : gmap string (list (list Z))) (s s0 s1 s' : Sched) (a : Step) (out : SchedulerOutput).
Hypothesis (HR : releases s s0) (Hf0 : finished_req_ids s0 = finished_req_ids s) (HP : plan bs T s0 a s1) (HI : sched_inv cfg s1)
  (HK : kv_ok (num_scheduled_tokens a) s1) (HO : out_ok a s1) (Hsub : forall o, o ∈ scheduled_all a -> o ∈ running s1) (Hnd : NoDup (scheduled_all a))
  (Hgroups : managers (kv_cache_manager s1) ≠ []).
Hypothesis (Hnews : make_new_request_data a s1 = Ok (so_new_reqs out)) (Hcached : make_cached_request_data cfg a s1 = Ok (so_cached_reqs out))
  (Hnum : so_num_scheduled_tokens out = num_scheduled_tokens a).
Hypothesis (Hreq' : requests s' = requests s1) (Hcoord' : coordinator (kv_cache_manager s') = coordinator (kv_cache_manager s1))
  (Hstore' : forall o r1, sched_store s1 !! o = Some r1 -> exists r', sched_store s' !! o = Some r' /\ content r' = content r1 /\ status r' = status r1 /\
    forall id, requests s1 !! id = Some o -> num_computed_tokens r' = num_computed_tokens r1 + default 0 (dget id (num_scheduled_tokens a)))
  (Hnone' : forall o, sched_store s1 !! o = None -> sched_store s' !! o = None).

Lemma same_copies rid wt : copied (kv_cache_manager s1) rid wt -> copied (kv_cache_manager s') rid wt.
Proof using Hcoord'. by apply copied_coord. Qed.

(** The state of an object before the step. *)
Lemma object_before id o r1 : requests s1 !! id = Some o -> sched_store s1 !! o = Some r1 -> exists r, requests s !! id = Some o /\ sched_store s !! o = Some r /\
  content r1 = content r /\ moved a o (status r) (status r1).
Proof using HR HP.
  intros Hreg Hr1. destruct (pn_back _ _ _ _ _ HP o r1 Hr1) as [r Hr]. destruct (pn_store _ _ _ _ _ HP o r Hr) as (r2 & Hr2 & Hc & Hm). rewrite Hr1 in Hr2. injection Hr2 as <-.
  exists r. split_and!; [apply (rl_reqs _ _ HR); by rewrite <-(pn_reqs _ _ _ _ _ HP)|by rewrite <-(rl_store _ _ HR)|done|done].
Qed.

Lemma scheduled_carried o : o ∈ scheduled_all a -> exists r r1, sched_store s1 !! o = Some r1 /\ carried s s' out (request_id r1) (num_computed_tokens r1) r /\
  content r1 = content r /\ moved a o (status r) RUNNING /\ sent_ok T a s1 o (request_id r1) /\
  exists n, 0 < num_computed_tokens r1 + n /\ backed bs (num_lookahead_tokens cfg) (max_model_len cfg) (kv_cache_manager s1) (request_id r1) (num_computed_tokens r1 + n).
Proof using HR HP HI HK HO Hsub Hnum Hreq' Hstore'.
  intros Hin. destruct (lf_run _ _ _ _ (sc_life _ _ HI) o (Hsub o Hin)) as (r1 & Hr1 & Hst & Hreg). destruct (object_before _ _ _ Hreg Hr1) as (r & Hreg0 & Hr & Hc & Hm).
  destruct (oo_sched _ _ HO o Hin) as (r2 & b & n & Hr2 & _ & _ & Hn). rewrite Hr1 in Hr2. injection Hr2 as <-.
  assert (Hpos : 0 < n). { pose proof (oo_pos _ _ HO) as Hp. rewrite Forall_forall in Hp. exact (Hp _ (dget_elem_pair _ _ _ Hn)). }
  destruct (ro_running _ _ _ _ _ _ _ _ _ (ko_reqs _ _ _ _ _ _ _ _ HK _ _ _ Hreg Hr1) Hst) as (H0 & _ & _ & Hb). rewrite Hn in Hb. cbn in Hb.
  destruct (Hstore' o r1 Hr1) as (r' & Hr' & Hc' & Hst' & Hnc). exists r, r1. rewrite Hst in Hm. split_and!; try done; [|by eapply (pn_tables _ _ _ _ _ HP)|exists n; split; [lia|done]].
  split; [by exists o|]. exists o, r'. rewrite Hreq', Hst', Hnum, (Hnc _ Hreg), Hn. split_and!; try done; [congruence|]. exists n. cbn. split_and!; try done.
Qed.

Lemma news_sent nr : nr ∈ so_new_reqs out -> exists r, carried s s' out (nr_req_id nr) (nr_num_computed_tokens nr) r /\ status r = WAITING /\
  nr_prompt_token_ids nr = prompt_token_ids r /\ nr_sampling_params nr = sampling_params r /\ nr_pooling_params nr = pooling_params r /\
  nr_lora_request nr = lora_request r /\ copied (kv_cache_manager s') (nr_req_id nr) (nr_block_ids nr).
Proof using All.
  intros [i Hi]%list_elem_of_lookup. destruct (Forall2_lookup_r _ _ _ _ _ (new_data_spec a s1 HK HO _ Hnews) Hi) as (o & Ho & r1 & b & Hr1 & Hb & ->).
  apply list_elem_of_lookup_2 in Ho as Hin. destruct (scheduled_carried o) as (r & r2 & Hr2 & Hcd & Hc & Hm & Hsn & _); [unfold scheduled_all; rewrite elem_of_app; by left|].
  rewrite Hr1 in Hr2. injection Hr2 as <-. exists r. cbn. unfold content in Hc. split; [done|]. split; [|split_and!; try congruence].
  - pose proof Hnd as Hn. unfold scheduled_all in Hn. apply NoDup_app in Hn as (_ & Hn & _). inversion Hm as [? N1 _ E|N1 N2 E|_ E|N1 E]; subst; try done; try congruence.
    destruct (Hn o Hin). rewrite elem_of_app. by left.
  - destruct (sn_admitted _ _ _ _ _ Hsn) as (b' & Hb' & Hcp); [by left|]. rewrite Hb in Hb'. injection Hb' as <-. by apply same_copies.
Qed.

Lemma cached_sent i id : cr_req_ids (so_cached_reqs out) !! i = Some id -> exists r nc nb resumed,
  cr_num_computed_tokens (so_cached_reqs out) !! i = Some nc /\ cr_new_block_ids (so_cached_reqs out) !! i = Some nb /\
  cr_resumed_from_preemption (so_cached_reqs out) !! i = Some resumed /\ carried s s' out id nc r /\ cached_right T s' id nb resumed (status r).
Proof using All.
  destruct (cached_data_spec a s1 HK HO _ Hcached) as (es & Hes & E1 & E2 & E3 & E4). rewrite E1, E2, E3, E4. intros Hi.
  apply list_lookup_fmap_Some in Hi as ([id0 nb] & -> & Hi). apply list_lookup_fmap_Some in Hi as ([[id1 nb1] nc] & [= -> ->] & Hi). cbn.
  destruct (Forall2_lookup_r _ _ _ _ _ Hes Hi) as (o & Ho & r1 & b & Hr1 & Hb & Eid & Enc & Hnb). cbn in Eid, Enc, Hnb. subst id1 nc.
  assert (Hin : o ∈ scheduled_all a) by (apply list_elem_of_lookup_2 in Ho; unfold scheduled_all; rewrite !elem_of_app in *; tauto).
  destruct (scheduled_carried o Hin) as (r & r2 & Hr2 & Hcd & Hc & Hm & Hsn & n & Hpos & Hbk). rewrite Hr1 in Hr2. injection Hr2 as <-.
  assert (Enb : es.*1.*2 !! i = Some nb1) by (by rewrite !list_lookup_fmap, Hi). assert (En : es.*2 !! i = Some (num_computed_tokens r1)) by (by rewrite list_lookup_fmap, Hi).
  pose proof Hnd as Hn. unfold scheduled_all in Hn. apply NoDup_app in Hn as (_ & Hn1 & Hn2). apply NoDup_app in Hn2 as (_ & Hn2 & _).
  destruct (decide (i < length (scheduled_running_reqs a))%nat) as [Hlt|Hge].
  - rewrite lookup_app_l in Ho by done. apply list_elem_of_lookup_2 in Ho. exists r, (num_computed_tokens r1), nb1, false.
    split_and!; [done|done|rewrite lookup_app_l by (by rewrite length_replicate); by apply lookup_replicate_2|done|]. split.
    + inversion Hm as [? N1 N2 E|N1 N2 E|N1 E|N1 E]; subst; try done; exfalso; [|by apply (Hn2 o)]. apply (Hn1 o N1). rewrite elem_of_app. by right.
    + destruct (sn_running _ _ _ _ _ Hsn Ho) as (wt & b' & Ht & Hb' & Hl & Hcp). rewrite Hb in Hb'. injection Hb' as <-. exists wt. split; [done|]. apply same_copies in Hcp.
      destruct Hnb as [->|[-> Hnil]]; [split; [unfold bids; by rewrite length_fmap|done]|]. unfold bids in Hcp. by rewrite (empty_rows_copied wt _ Hnil Hl) in Hcp.
  - rewrite lookup_app_r in Ho by lia. pose proof (lookup_lt_Some _ _ _ Ho) as Hlt. apply list_elem_of_lookup_2 in Ho. exists r, (num_computed_tokens r1), nb1, true.
    split_and!; [done|done|rewrite lookup_app_r by (rewrite length_replicate; lia); rewrite length_replicate; by apply lookup_replicate_2|done|].
    destruct (sn_admitted _ _ _ _ _ Hsn) as (b' & Hb' & Hcp); [by right|]. rewrite Hb in Hb'. injection Hb' as <-. split.
    + inversion Hm as [? N1 N2 E|N1 N2 E|N1 E|N1 E]; subst; try done. exfalso. apply (Hn1 o N1). rewrite elem_of_app. by left.
    + destruct Hnb as [->|[-> Hnil]]; [by exists (bids b); split; [|apply same_copies]|]. exfalso. apply (backed_rows _ _ _ _ Hpos Hgroups Hbk Hcp).
      unfold bids. apply Forall_fmap. eapply Forall_impl; [exact Hnil|]. by intros g ->.
Qed.

Lemma sent_ids : (nr_req_id <$> so_new_reqs out) ++ cr_req_ids (so_cached_reqs out) = rid_of s1 <$> (scheduled_new_reqs a ++ scheduled_running_reqs a ++ scheduled_resumed_reqs a).
Proof using HK HO Hnews Hcached.
  rewrite fmap_app. f_equal.
  - apply list_eq_Forall2, Forall2_fmap. eapply Forall2_impl; [apply Forall2_flip, (new_data_spec a s1 HK HO _ Hnews)|]. intros nr o (r & b & Hr & _ & ->). unfold rid_of. by rewrite Hr.
  - destruct (cached_data_spec a s1 HK HO _ Hcached) as (es & Hes & -> & _). apply list_eq_Forall2, Forall2_fmap, Forall2_fmap_l.
    eapply Forall2_impl; [apply Forall2_flip, Hes|]. intros e o (r & b & Hr & _ & E & _). unfold compose, rid_of. cbn. rewrite Hr. by rewrite E.
Qed.

Lemma sent_perm : scheduled_new_reqs a ++ scheduled_running_reqs a ++ scheduled_resumed_reqs a ≡ₚ scheduled_all a.
Proof. unfold scheduled_all. by rewrite (Permutation_app_comm (scheduled_running_reqs a)). Qed.

Lemma sent_keys id : id ∈ (so_num_scheduled_tokens out).*1 <-> id ∈ rid_of s1 <$> (scheduled_new_reqs a ++ scheduled_running_reqs a ++ scheduled_resumed_reqs a).
Proof using HI HO Hnum.
  rewrite Hnum. split.
  - intros (o & Ho & Hin)%(oo_keys _ _ HO). apply list_elem_of_fmap. exists o. rewrite sent_perm. split; [|done]. destruct (lf_reg _ _ _ _ (sc_life _ _ HI) _ _ Ho) as (r & Hr & Hid & _). unfold rid_of. by rewrite Hr.
  - intros (o & -> & Hin)%list_elem_of_fmap. rewrite sent_perm in Hin. destruct (oo_sched _ _ HO o Hin) as (r & b & n & Hr & _ & _ & Hn). unfold rid_of. rewrite Hr. by eapply dget_key.
Qed.

(** A request that is not scheduled. *)
Lemma unscheduled_sent id o r1 : requests s1 !! id = Some o -> sched_store s1 !! o = Some r1 -> id ∉ (num_scheduled_tokens a).*1 -> o ∉ scheduled_all a.
Proof using HI HO.
  intros Hreg Hr1 Hid Hin. destruct (oo_sched _ _ HO o Hin) as (r & b & n & Hr & _ & _ & Hn). rewrite Hr1 in Hr. injection Hr as <-.
  destruct (lf_reg _ _ _ _ (sc_life _ _ HI) _ _ Hreg) as (r & Hr & Hid' & _). rewrite Hr1 in Hr. injection Hr as <-. rewrite Hid' in Hn. by apply Hid, (dget_key _ n).
Qed.

Lemma before_sent id o r' : requests s' !! id = Some o -> sched_store s' !! o = Some r' -> exists r, requests s !! id = Some o /\ sched_store s !! o = Some r /\ content r' = content r /\
  (id ∉ (so_num_scheduled_tokens out).*1 -> (status r' = status r /\ (status r = RUNNING -> exists wt, T !! id = Some wt /\ copied (kv_cache_manager s') id wt)) \/
    (status r = RUNNING /\ status r' = PREEMPTED)).
Proof using All.
  rewrite Hreq', Hnum. intros Hreg Hr'. destruct (sched_store s1 !! o) as [r1|] eqn:Hr1; [|by rewrite (Hnone' o Hr1) in Hr'].
  destruct (Hstore' o r1 Hr1) as (r2 & Hr2 & Hc2 & Hs2 & _). rewrite Hr' in Hr2. injection Hr2 as <-. destruct (object_before _ _ _ Hreg Hr1) as (r & Hreg0 & Hr & Hc & Hm).
  exists r. split_and!; [done|done|congruence|]. intros Hid. pose proof (unscheduled_sent _ _ _ Hreg Hr1 Hid) as Hno. pose proof Hno as Hno2. unfold scheduled_all in Hno2. rewrite !not_elem_of_app in Hno2.
  rewrite Hs2. inversion Hm as [? N1 N2 E|N1 N2 E|N1 E|N1 E]; try tauto. left. split; [done|]. intros Hrun.
  destruct (sn_idle _ _ _ _ _ (pn_tables _ _ _ _ _ HP _ _ _ Hreg Hr1 ltac:(congruence)) Hno) as (wt & Ht & Hcp). exists wt. split; [done|]. by apply same_copies.
Qed.

Lemma after_sent id o r : requests s !! id = Some o -> sched_store s !! o = Some r -> status r = RUNNING \/ status r = PREEMPTED ->
  exists r', requests s' !! id = Some o /\ sched_store s' !! o = Some r' /\ (status r' = RUNNING \/ status r' = PREEMPTED).
Proof using HR HP Hreq' Hstore'.
  intros Hreg Hr Hst. assert (Hf : is_finished r = false) by (unfold is_finished; destruct Hst as [-> | ->]; done).
  pose proof (rl_live _ _ HR _ _ _ Hreg Hr Hf) as Hreg0. rewrite <-(rl_store _ _ HR) in Hr. destruct (pn_store _ _ _ _ _ HP o r Hr) as (r1 & Hr1 & _ & Hm).
  destruct (Hstore' o r1 Hr1) as (r' & Hr' & _ & Hs' & _). exists r'. rewrite Hreq', (pn_reqs _ _ _ _ _ HP). split_and!; try done. rewrite Hs'.
  inversion Hm as [? N1 N2 E|N1 N2 E|N1 E|N1 E]; [congruence|by right|by left|by left].
Qed.

(** A step finishes no request. *)
Lemma live_sent id o r : requests s !! id = Some o -> sched_store s !! o = Some r -> is_finished r = false ->
  exists r', requests s' !! id = Some o /\ sched_store s' !! o = Some r' /\ is_finished r' = false.
Proof using HR HP Hreq' Hstore'.
  intros Hreg Hr Hf. pose proof (rl_live _ _ HR _ _ _ Hreg Hr Hf) as Hreg0. rewrite <-(rl_store _ _ HR) in Hr. destruct (pn_store _ _ _ _ _ HP o r Hr) as (r1 & Hr1 & _ & Hm).
  destruct (Hstore' o r1 Hr1) as (r' & Hr' & _ & Hs' & _). exists r'. rewrite Hreq', (pn_reqs _ _ _ _ _ HP). split_and!; try done. unfold is_finished in *. rewrite Hs'.
  inversion Hm; done.
Qed.

(** The blocks from the first scheduled token on are the request's own. *)
Lemma own_sent : exists st, owned (kv_cache_manager s') st /\ forall id n o r', dget id (so_num_scheduled_tokens out) = Some n -> requests s' !! id = Some o ->
  sched_store s' !! o = Some r' -> st id = Some ((num_computed_tokens r' - n) / bs).
Proof using HP HI HO Hsub Hnum Hreq' Hcoord' Hstore'.
  exists (starts bs s1). split; [eapply owned_same; [exact Hcoord'|done|apply (pn_own _ _ _ _ _ HP)]|]. intros id n o r' Hn Hreg Hr'. rewrite Hnum in Hn. rewrite Hreq' in Hreg.
  destruct (oo_keys _ _ HO id (dget_key _ _ _ Hn)) as (o1 & Hreg1 & Hin). rewrite Hreg in Hreg1. injection Hreg1 as <-.
  destruct (lf_run _ _ _ _ (sc_life _ _ HI) o (Hsub o Hin)) as (r1 & Hr1 & Hst & _). destruct (Hstore' o r1 Hr1) as (r2 & Hr2 & _ & _ & Hnc).
  rewrite Hr' in Hr2. injection Hr2 as <-. unfold starts. rewrite Hreg. cbn. rewrite Hr1. cbn. rewrite decide_True by done. rewrite (Hnc id Hreg), Hn. cbn. do 2 f_equal. lia.
Qed.
End Assemble.

Lemma frozen_groups k k' : frozen k k' -> managers k ≠ [] -> managers k' ≠ [].
Proof. intros [_ HF] Hne E. rewrite E in HF. by apply Forall2_nil_inv_r in HF. Qed.

Lemma make_output_parts total a (s : Sched) out s' : sched_inv cfg s -> kv_ok (num_scheduled_tokens a) s -> make_output cfg total a s = Ok (out, s') ->
  make_new_request_data a s = Ok (so_new_reqs out) /\ make_cached_request_data cfg a s = Ok (so_cached_reqs out) /\ so_num_scheduled_tokens out = num_scheduled_tokens a /\
  so_total_num_scheduled_tokens out = total /\ so_finished_req_ids out = finished_req_ids s /\ so_structured_output_request_ids out = ∅ /\
  finished_req_ids s' = finished_req_ids s /\ kv_cache_manager s' = kv_cache_manager s.
Proof.
  intros HI HK E. unfold make_output, get_grammar_bitmask in E. apply bind_Ok in E as (ns & _ & E). apply bind_Ok in E as (l & El & E). apply bind_Ok in E as (d & Ed & E).
  rewrite (no_structured cfg fs bh bs caching room a s HI HK) in E by done. cbn [mbind result_bind] in E. rewrite decide_True in E by done. cbn [mbind result_bind get_freed_mm_hashes] in E. by inv_ok.
Qed.

(** The requests and tables that a step sends. *)
Lemma schedule_sent T now ts (s : Sched) out meta ev s' : sched_inv cfg s -> kv_ok [] s -> managers (kv_cache_manager s) ≠ [] ->
  (forall rid o r, requests s !! rid = Some o -> sched_store s !! o = Some r -> status r = RUNNING -> exists wt, T !! rid = Some wt /\ copied (kv_cache_manager s) rid wt) ->
  schedule cfg now ts s = Ok (out, meta, ev, s') -> sent T s out s'.
Proof using All.
  intros HI HK Hg HT E. destruct (schedule_ok cfg now ts s (pc_tokens _ Hcfg) HI) as [_ Hok]. destruct (Hok _ _ _ _ E) as (_ & Htot & Hmax).
  unfold schedule in E. apply bind_Ok in E as (s0 & E0 & E).
  assert (H0 : releases s s0 /\ finished_req_ids s0 = finished_req_ids s /\ sched_inv cfg s0 /\ kv_ok [] s0).
  { destruct (decide (policy cfg = MIMIR)); [|by inv_ok]. destruct (expire_releases now s s0 HI HK E0). destruct (expire_returns cfg fs bh bs caching room now s HI HK) as (s2 & E2 & HK2).
    rewrite E0 in E2. injection E2 as <-. split_and!; try done. by eapply expire_pins_inv. }
  destruct H0 as (HR & Hf0 & HI0 & HK0). apply bind_Ok in E as ([a s1] & E1 & E).
  destruct (schedule_loops_returns cfg fs bh bs caching room Hcfg ts s0 HI0 HK0) as (a' & s1' & E1' & HK1 & HO1). rewrite E1 in E1'. injection E1' as <- <-.
  destruct (schedule_loops_spec cfg _ _ _ _ E1 (pc_tokens _ Hcfg) HI0) as (HI1 & _ & _ & Hnd & Hsub & _).
  assert (HP : plan bs T s0 a s1).
  { eapply (loops_plan cfg fs bh bs caching room Hcfg T s0 ts); [done|done| |done]. eapply plan_start; [|exact HK0]. intros rid o r Hreg Hr Hst.
    destruct (HT rid o r) as (wt & Ht & Hc); [by apply (rl_reqs _ _ HR)|by rewrite <-(rl_store _ _ HR)|done|]. exists wt. split; [done|]. apply (rl_copies _ _ HR); [by eexists|done]. }
  apply bind_Ok in E as (total & _ & E). apply bind_Ok in E as ([out1 s2] & E2 & E).
  destruct (make_output_parts _ _ _ _ _ HI1 HK1 E2) as (Hnews & Hcached & Hnum & _ & Hfin & Hso & Hf2 & Hk2). destruct (make_output_core cfg _ _ _ _ _ E2) as ((Q1 & Q2 & _) & _).
  apply bind_Ok in E as ([[meta1 ev1] s3] & E3 & E). apply bind_Ok in E as (s4 & E4 & E). inv_ok.
  assert (H3 : sched_store s3 = sched_store s1 /\ requests s3 = requests s1 /\ coordinator (kv_cache_manager s3) = coordinator (kv_cache_manager s1)).
  { destruct (collect_events_core _ _ _ _ _ E3) as (W1 & W2 & _). rewrite W1, W2, Q1, Q2. split_and!; try done. unfold collect_events in E3.
    assert (Ec : connector s2 = None). { destruct (make_output_returns cfg fs bh bs caching room a s1 HI1 HK1 HO1 total) as (? & ? & Ex & HKx & _). rewrite E2 in Ex. injection Ex as <- <-. apply HKx. }
    rewrite Ec in E3. cbn [mbind result_bind] in E3. destruct (ko_inv _ _ _ _ _ _ _ _ HK1) as [l HV]. rewrite Hk2 in E3.
    destruct (take_events_same _ _ _ l HV (ko_setup _ _ _ _ _ _ _ _ HK1)) as [es Ee]. rewrite Ee in E3. cbn in E3. rewrite Ec in E3. by inv_ok. }
  destruct H3 as (W1 & W2 & W3). unfold update_after_schedule in E4. apply bind_Ok in E4 as (s5 & E5 & E4). rewrite (pc_sync _ Hcfg) in E4. injection E4 as <-. rewrite Hnum in E5.
  assert (Hinj : forall id id' o, requests s3 !! id = Some o -> requests s3 !! id' = Some o -> id = id').
  { rewrite W2. intros id id' o Ha Hb. destruct (lf_reg _ _ _ _ (sc_life _ _ HI1) _ _ Ha) as (r & Hr & <- & _), (lf_reg _ _ _ _ (sc_life _ _ HI1) _ _ Hb) as (r' & Hr' & <- & _). congruence. }
  destruct (advance_effect _ s3 s5 E5 (oo_nodup _ _ HO1) Hinj) as (A1 & A2 & A3 & A4 & A5). rewrite W2 in A1. rewrite W1 in A4, A5. rewrite W2 in A5.
  set (s6 := set_finished_req_ids ∅ s5). assert (Hco : coordinator (kv_cache_manager s6) = coordinator (kv_cache_manager s1)) by (cbn; by rewrite A2, W3).
  assert (Hg1 : managers (kv_cache_manager s1) ≠ []) by (eapply frozen_groups; [|exact Hg]; etrans; [apply (rl_frozen _ _ HR)|apply (pn_frozen _ _ _ _ _ HP)]).
  assert (Hids := sent_ids s1 a out HK1 HO1 Hnews Hcached). assert (Hkeys := sent_keys s1 a out HI1 HO1 Hnum).
  assert (Hlists : forall o, o ∈ scheduled_new_reqs a ++ scheduled_running_reqs a ++ scheduled_resumed_reqs a -> o ∈ running s1) by (intros o; rewrite sent_perm; apply Hsub).
  assert (Hndl : NoDup (scheduled_new_reqs a ++ scheduled_running_reqs a ++ scheduled_resumed_reqs a)) by (by rewrite sent_perm).
  split.
  - intros nr. by eapply (news_sent T s s0 s1 s6 a out).
  - intros i id. by eapply (cached_sent T s s0 s1 s6 a out).
  - rewrite Hids. by apply sched_nodup.
  - intros id. by rewrite Hids.
  - rewrite Hids. unfold zlen. rewrite length_fmap. etransitivity; [|exact (sc_width _ _ HI1)]. unfold zlen. apply Nat2Z.inj_le. apply NoDup_incl_length; [by apply NoDup_ListNoDup|].
    intros x Hx. apply list_elem_of_In. apply Hlists. by apply list_elem_of_In.
  - rewrite Hnum. apply HO1.
  - done.
  - split; [|done]. destruct (make_output_returns cfg fs bh bs caching room a s1 HI1 HK1 HO1 total) as (? & ? & Ex & _ & [_ Hw] & _). rewrite E2 in Ex. by injection Ex as <- <-.
  - etrans; [apply (rl_frozen _ _ HR)|]. etrans; [apply (pn_frozen _ _ _ _ _ HP)|]. by apply coord_frozen.
  - split; [|done]. by rewrite Hfin, (pn_finished _ _ _ _ _ HP).
  - intros id o r'. by eapply (before_sent T s s0 s1 s6 a out).
  - intros id o r. by eapply (after_sent T s s0 s1 s6 a).
  - by eapply (own_sent T s0 s1 s6 a out).
  - intros id o r. by eapply (live_sent T s s0 s1 s6 a).
Qed.
End Sent.
