(* ===== verification/Mirror.v ===== *)
(** The scheduler and its worker side by side: what the model runner
    (src/vllm/v1/worker/gpu_model_runner.py) knows of the requests of the
    scheduler (src/vllm/v1/core/sched/scheduler.py) between two steps, and that
    the outputs of [schedule] then keep every promise that the runner relies
    on. *)
From Stdlib Require Import ZArith Lia Ascii String QArith Qcanon.
From stdpp Require Import numbers gmap strings list.
From S2P Require Import Prelude FreeQueue Request BlockHash BlockPool KVSpec SingleType Coordinator KVCacheManager KVBacking TableCopy Capacity EncoderCache RequestQueue SchedState Scheduler SchedulerUpdate Lifecycle SchedTerm LifecycleOps Progress EngineRuns SchedPlan SchedSent BlockTable InputBatch BatchInv LogitsProcs ModelRunner Reorder RunnerInv RunnerStep ModelInputs InputsSpec Bookkeeping GrammarBitmask BitmaskSpec WorkerStep WorkerRuns.

Open Scope Z_scope.

Section Mirror.
Context {C G : Type} `{!KVConnector C, !StructuredOutput G, !NoGrammarNoAdvance G}.
Context (cfg : SchedConfig) (fs : string -> option Qc).
Context (bh : option hasher) (bs : Z) (caching : bool) `{!BlockHasher bh bs caching} (room : Z).
Hypothesis Hcfg : plain_config cfg.
Context `{HSO : !SetOrder} {M : Type} (wcfg : RunnerConfig) (arange_len : nat) (pooling_of : NewRequestData -> PoolingParams).

(** The shapes of the worker's block tables. *)
Context (SH : list (nat * nat * Z * Z * Z)).

Abbreviation Sched := (Scheduler C G).
Abbreviation bcfg := (batch_config wcfg).
Abbreviation maxlen := (max_model_len cfg).
Abbreviation kv_ok := (Progress.kv_ok cfg fs bh bs caching room).

(** * Configurations that fit together *)

(** The worker was set up for the scheduler's limits: rows, tokens, and blocks of
    the longest request, in each group of the KV cache. *)
Definition suits (m : SingleTypeKVCacheManager) (sh : nat * nat * Z * Z * Z) : Prop :=
  let '(blocks, tokens, block_size, world, _) := sh in
  cdiv (Coordinator.slot_tokens m maxlen 0) bs <= Z.of_nat blocks /\ max_num_scheduled_tokens cfg <= Z.of_nat tokens /\ block_size = bs /\ world = 1.

Record agree (k : KVCacheManager) : Prop := {
  ag_reqs : max_num_running_reqs cfg <= Z.of_nat (max_num_reqs bcfg);
  ag_len : maxlen <= Z.of_nat (batch_max_model_len bcfg);
  ag_tokens : max_num_scheduled_tokens cfg <= Z.of_nat arange_len;
  ag_kind : is_pooling_model bcfg = false;
  ag_shapes : Forall2 suits (managers k) SH;
  ag_slots : num_gpu_blocks (kvm_pool k) * bs <= 2 ^ 31;
  ag_groups : managers k ≠ []
}.

Lemma agree_frozen k k' : frozen k k' -> agree k -> agree k'.
Proof.
  intros HF [H1 H2 H3 H4 H5 H6 H7]. split; try done.
  - destruct HF as [_ HF]. clear H7. revert H5. generalize SH. induction HF as [|m m' ms ms' Hm _ IH]; intros sh H5; inversion H5 as [|? x ? sh' Hx Hr]; subst; constructor; [|by apply IH].
    destruct x as [[[[b t] z] wd] rk]. unfold suits in *. by rewrite (slot_tokens_same m m' _ _ Hm).
  - by rewrite (proj1 HF).
  - by eapply frozen_groups.
Qed.

(** The parameters of a request that the worker accepts. *)
Record served (r : Request) : Prop := {
  sv_tokens : all_token_ids r = prompt_token_ids r ++ output_token_ids r;
  sv_lora : forall l, lora_request r = Some l -> lora_int_id l ≠ 0;
  sv_allowed : forall sp toks, sampling_params r = Some sp -> allowed_token_ids (sampler sp) = Some toks -> exists row, mask_row bcfg toks = Ok row;
  sv_min : forall sp, sampling_params r = Some sp -> 0 <= sp_min_tokens (sampler sp)
}.

Lemma served_content r r' : content r' = content r -> served r -> served r'.
Proof. unfold content. intros [= _ E1 E2 E3 E4 _ E5 _] [H1 H2 H3 H4]. split; rewrite ?E1, ?E2, ?E3, ?E4, ?E5; done. Qed.

(** * The mirror *)

(** What the worker knows of a request that was scheduled before; [P] are tokens
    that the scheduler has not seen yet. *)
Record known (P : string -> list Z) (s : Sched) (w : Runner) (id : string) (r : Request) (c : CachedRequestState) : Prop := {
  kw_prompt : rs_prompt_token_ids c = prompt_token_ids r;
  kw_output : outs_at w (rs_output_token_ids c) = output_token_ids r ++ P id;
  kw_tables : status r = RUNNING -> copied (kv_cache_manager s) id (rs_block_ids c);
  kw_absent : status r = PREEMPTED -> absent w id
}.

Definition started (r : Request) : Prop := status r = RUNNING \/ status r = PREEMPTED.

Record mirror (P : string -> list Z) (s : Sched) (w : Runner) : Prop := {
  mi_agree : agree (kv_cache_manager s);
  mi_shapes : shapes (input_batch w) = SH;
  mi_served : forall id o r, requests s !! id = Some o -> sched_store s !! o = Some r -> served r /\ (status r = WAITING -> output_token_ids r = []);
  mi_known : forall id o r, requests s !! id = Some o -> sched_store s !! o = Some r -> started r -> id ∉ finished_req_ids s /\
    exists c, w_requests w !! id = Some c /\ known P s w id r c;
  mi_gone : forall id c, w_requests w !! id = Some c -> id ∈ finished_req_ids s \/
    exists o r, requests s !! id = Some o /\ sched_store s !! o = Some r /\ started r
}.

(** ** Tables *)

Lemma table_fit (s : Sched) id o r wt : kv_ok [] s -> requests s !! id = Some o -> sched_store s !! o = Some r -> status r = RUNNING -> agree (kv_cache_manager s) ->
  copied (kv_cache_manager s) id wt -> fits SH wt /\
  forall c outs n, rs_num_computed_tokens c + n = num_computed_tokens r -> Forall2 (fun sh ids => covers_shape sh ids (mkSlot c outs [], n)) SH wt.
Proof.
  intros HK Hreg Hr Hst HA Hc. pose proof (ko_reqs _ _ _ _ _ _ _ _ HK _ _ _ Hreg Hr) as Hro. destruct (Progress.ro_running _ _ _ _ _ _ _ _ _ Hro Hst) as (H0 & _ & _ & Hb).
  cbn in Hb. rewrite Z.add_0_r in Hb. pose proof (proj1 (ks_wf _ _ _ (ko_setup _ _ _ _ _ _ _ _ HK))) as Hbs. pose proof (ag_shapes _ HA) as Hsh.
  assert (Hj : forall j sh ids, SH !! j = Some sh -> wt !! j = Some ids -> exists m, suits m sh /\ row_copied (num_gpu_blocks (kvm_pool (kv_cache_manager s))) (req_blocks m id) ids /\
    num_computed_tokens r <= bs * zlen ids /\ zlen ids <= cdiv (Coordinator.slot_tokens m maxlen 0) bs).
  { intros j sh ids Esh Eids. destruct (Forall2_lookup_r _ _ _ _ _ Hsh Esh) as (m & Em & Hs). pose proof (Forall2_lookup_lr _ _ _ _ _ _ Hc Em Eids) as Hrow. exists m. cbn in Hrow.
    unfold backed in Hb. rewrite Forall_lookup in Hb. destruct (Hb _ _ Em) as (x & _ & [_ Hx] & _ & Hz & _). assert (Hl : zlen (req_blocks m id) = zlen ids) by (unfold zlen; by rewrite (Forall2_length _ _ _ Hrow)).
    rewrite Hl in *. split_and!; try done. etransitivity; [exact Hz|]. apply cdiv_mono; [done|]. apply slot_tokens_mono. lia. }
  assert (Hlen : length SH = length wt) by (rewrite <-(Forall2_length _ _ _ Hsh); by eapply Forall2_length). split.
  - apply Forall2_same_length_lookup. split; [done|]. intros j sh ids Esh Eids. destruct (Hj j sh ids Esh Eids) as (m & Hs & _ & _ & Hz).
    destruct sh as [[[[b t] z] wd] rk]. cbn. destruct Hs as (Hs & _). unfold zlen in Hz. lia.
  - intros c outs n En. apply Forall2_same_length_lookup. split; [done|]. intros j sh ids Esh Eids. destruct (Hj j sh ids Esh Eids) as (m & Hs & Hrow & Hx & _).
    destruct sh as [[[[b t] z] wd] rk]. destruct Hs as (_ & _ & -> & ->). split_and!; try done; [|unfold wk_start; cbn; lia].
    apply Forall_lookup. intros i x Ex. destruct (Forall2_lookup_r _ _ _ _ _ Hrow Ex) as (p & _ & Hp & _). pose proof (ag_slots _ HA). nia.
Qed.

(** * Promises *)

(** The tables that the worker has. *)
Definition tables (w : Runner) : gmap string (list (list Z)) := rs_block_ids <$> w_requests w.

Lemma mirror_tables P (s : Sched) w id o r : mirror P s w -> requests s !! id = Some o -> sched_store s !! o = Some r -> status r = RUNNING ->
  exists wt, tables w !! id = Some wt /\ copied (kv_cache_manager s) id wt.
Proof.
  intros HM Hreg Hr Hst. destruct (mi_known _ _ _ HM id o r Hreg Hr) as (_ & c & Hc & Hk); [by left|]. exists (rs_block_ids c). unfold tables. rewrite lookup_fmap, Hc.
  split; [done|]. by apply (kw_tables _ _ _ _ _ _ Hk).
Qed.

Section Promise.
Context (s s' : Sched) (w : Runner) (out : SchedulerOutput).
Hypothesis (HM : mirror (fun _ => []) s w) (Hw : runner_ok wcfg ∅ w) (HK' : kv_ok [] s') (HS : sent cfg bs (tables w) s out s').

Lemma agree_after : agree (kv_cache_manager s').
Proof using HM HS. eapply agree_frozen; [apply (st_frozen _ _ _ _ _ _ HS)|apply HM]. Qed.

(** The work of a request of the output. *)
Lemma carried_work id nc r : carried s s' out id nc r -> served r -> exists o r' n, requests s' !! id = Some o /\ sched_store s' !! o = Some r' /\ status r' = RUNNING /\ content r' = content r /\
  dget id (so_num_scheduled_tokens out) = Some n /\ 0 < n /\ 0 <= nc /\ nc + n = num_computed_tokens r' /\
  nc + n <= zlen (prompt_token_ids r ++ output_token_ids r) < maxlen /\ is_Some (sampling_params r).
Proof using HK'.
  intros [_ (o & r' & Hreg & Hr' & Hst & Hc & n & Hn & Hpos & H0 & Hsum)] Hsv. exists o, r', n. pose proof (ko_reqs _ _ _ _ _ _ _ _ HK' _ _ _ Hreg Hr') as Hro.
  destruct (Progress.ro_running _ _ _ _ _ _ _ _ _ Hro Hst) as (_ & _ & Hnt & _). cbn in Hnt. rewrite Z.add_0_r in Hnt. pose proof (pl_sampling _ _ _ _ _ (Progress.ro_plain _ _ _ _ _ _ _ _ _ Hro)) as Hsp.
  rewrite <-(sv_tokens _ Hsv). assert (E : num_tokens r' = zlen (all_token_ids r) /\ sampling_params r' = sampling_params r) by (unfold content in Hc; unfold num_tokens; split; congruence).
  destruct E as [E1 E2]. rewrite E1 in Hnt. rewrite E2 in Hsp. split_and!; try done; lia.
Qed.

(** What makes the scheduled tokens of a request executable. *)
Lemma work_demand id nc r c outs ids n : carried s s' out id nc r -> served r -> dget id (so_num_scheduled_tokens out) = Some n -> rs_num_computed_tokens c = nc -> rs_block_ids c = ids ->
  rs_prompt_token_ids c = prompt_token_ids r -> outs = output_token_ids r -> copied (kv_cache_manager s') id ids -> fits SH ids /\ demand_ok wcfg SH c outs [] n.
Proof using HK' HM HS.
  intros Hcd Hsv Hn <- <- Ep -> Hcp. destruct (carried_work _ _ _ Hcd Hsv) as (o & r' & n' & Hreg & Hr' & Hst & _ & Hn' & Hpos & H0 & Hsum & Hle & _).
  rewrite Hn in Hn'. injection Hn' as <-. destruct (table_fit s' id o r' _ HK' Hreg Hr' Hst agree_after Hcp) as [Hf Hcov]. split; [done|].
  pose proof (ag_len _ agree_after) as Hlen. split; try done.
  - by apply Hcov.
  - unfold drafts_last, wk_sampled, wk_drafts, wk_start, wk_tokens, BatchInv.slot_tokens. cbn. rewrite app_nil_r, Ep. change (zlen []) with 0. split_and!; try lia.
  - rewrite Ep. cbn. unfold zlen in Hle. rewrite length_app in Hle. lia.
Qed.

Lemma new_promised nr : nr ∈ so_new_reqs out -> new_ok wcfg pooling_of (shapes (input_batch w)) nr /\
  (nr_req_id nr ∈ so_finished_req_ids out \/ w_requests w !! nr_req_id nr = None) /\
  forall n, dget (nr_req_id nr) (so_num_scheduled_tokens out) = Some n -> demand_ok wcfg (shapes (input_batch w)) (new_state_of pooling_of 0 nr) [] [] n.
Proof using HK' HM HS.
  intros Hin. destruct (st_new _ _ _ _ _ _ HS nr Hin) as (r & Hcd & Hst & E1 & E2 & E3 & E4 & Hcp). destruct (cd_before _ _ _ _ _ _ Hcd) as (o & Hreg & Hr).
  destruct (mi_served _ _ _ HM _ _ _ Hreg Hr) as [Hsv Hout]. specialize (Hout Hst). rewrite (mi_shapes _ _ _ HM).
  destruct (carried_work _ _ _ Hcd Hsv) as (o' & r' & n & _ & _ & _ & _ & Hn & _ & _ & _ & Hle & Hsp).
  assert (Hdem : forall n, dget (nr_req_id nr) (so_num_scheduled_tokens out) = Some n -> fits SH (nr_block_ids nr) /\ demand_ok wcfg SH (new_state_of pooling_of 0 nr) [] [] n).
  { intros n' Hn'. by eapply (work_demand _ _ r (new_state_of pooling_of 0 nr)). }
  split; [|split; [|by apply Hdem]].
  - split; try done.
    + unfold right_kind. rewrite (ag_kind _ agree_after). cbn. by rewrite E2.
    + by rewrite (ag_kind _ agree_after).
    + intros l. cbn. rewrite E4. by apply Hsv.
    + intros sp toks. cbn. rewrite E2. by apply Hsv.
    + intros sp. rewrite E2. by apply Hsv.
    + by apply (Hdem n).
    + pose proof (ag_len _ agree_after). rewrite E1. unfold zlen in Hle. rewrite length_app in Hle. lia.
  - destruct (w_requests w !! nr_req_id nr) as [c|] eqn:Ec; [|by right]. left. rewrite (proj1 (st_finished _ _ _ _ _ _ HS)).
    destruct (mi_gone _ _ _ HM _ _ Ec) as [Hf|(o2 & r2 & Hreg2 & Hr2 & Hs2)]; [done|]. simplify_eq. destruct Hs2 as [Hs2|Hs2]; congruence.
Qed.

(** The entry of a cached request, and what the worker knows of it. *)
Lemma cached_known i id : cached_ids out !! i = Some id -> exists r nc nb resumed c, entry (so_cached_reqs out) i = Some (nc, nb, resumed) /\ carried s s' out id nc r /\ served r /\
  id ∉ finished_req_ids s /\ w_requests w !! id = Some c /\ known (fun _ => []) s w id r c /\ cached_right (tables w) s' id nb resumed (status r) /\
  copied (kv_cache_manager s') id (rs_block_ids (cached_after nc nb resumed c)).
Proof using HM HS.
  intros Hi. destruct (st_cached _ _ _ _ _ _ HS i id Hi) as (r & nc & nb & resumed & E1 & E2 & E3 & Hcd & Hcr). destruct (cd_before _ _ _ _ _ _ Hcd) as (o & Hreg & Hr).
  assert (Hst : started r) by (unfold cached_right in Hcr; destruct resumed; [right|left]; tauto). destruct (mi_known _ _ _ HM _ _ _ Hreg Hr Hst) as (Hf & c & Hc & Hk).
  exists r, nc, nb, resumed, c. split_and!; try done; [unfold entry; by rewrite E1; cbn; rewrite E2; cbn; rewrite E3|by eapply (mi_served _ _ _ HM)|].
  unfold cached_right, cached_after in *. destruct resumed; [destruct Hcr as (_ & ids & -> & Hcp); done|]. destruct Hcr as (_ & wt & Ht & Hcp).
  unfold tables in Ht. rewrite lookup_fmap, Hc in Ht. cbn in Ht. injection Ht as <-. destruct nb; [apply Hcp|done].
Qed.

Lemma cached_promised i id : cached_ids out !! i = Some id -> id ∉ so_finished_req_ids out /\ entry_fits wcfg out w i id /\
  forall c n nc nb r, w_requests w !! id = Some c -> entry (so_cached_reqs out) i = Some (nc, nb, r) -> dget id (so_num_scheduled_tokens out) = Some n ->
    demand_ok wcfg (shapes (input_batch w)) (cached_after nc nb r c) (outs_at w (rs_output_token_ids c)) (row_drafts out w id) n.
Proof using HK' HM HS Hw.
  intros Hi. destruct (cached_known i id Hi) as (r & nc & nb & resumed & c & He & Hcd & Hsv & Hf & Hc & Hk & Hcr & Hcp).
  destruct (carried_work _ _ _ Hcd Hsv) as (o' & r' & n & _ & _ & _ & _ & Hn & _ & _ & _ & Hle & _).
  assert (Hspec : spec_of out id = []) by (unfold spec_of; by rewrite (proj1 (st_plain _ _ _ _ _ _ HS)), lookup_empty).
  assert (Hrow : row_drafts out w id = []) by (unfold row_drafts; by rewrite Hspec; destruct (decide _)).
  destruct (cached_params nc nb resumed c) as (P1 & P2 & _). assert (Ho : outs_at w (rs_output_token_ids c) = output_token_ids r) by (rewrite (kw_output _ _ _ _ _ _ Hk); apply app_nil_r).
  assert (Hnc : rs_num_computed_tokens (cached_after nc nb resumed c) = nc) by (unfold cached_after; destruct resumed; [done|]; by destruct nb).
  assert (Hpr : rs_prompt_token_ids (cached_after nc nb resumed c) = prompt_token_ids r) by (rewrite <-(kw_prompt _ _ _ _ _ _ Hk); unfold cached_after; destruct resumed; [done|]; by destruct nb).
  assert (Hdem : forall n, dget id (so_num_scheduled_tokens out) = Some n -> fits SH (rs_block_ids (cached_after nc nb resumed c)) /\
    demand_ok wcfg SH (cached_after nc nb resumed c) (outs_at w (rs_output_token_ids c)) [] n) by (intros n' Hn'; by eapply (work_demand id nc r)).
  split; [by rewrite (proj1 (st_finished _ _ _ _ _ _ HS))|]. split.
  - exists c, nc, nb, resumed. split_and!; try done. rewrite Hspec, Ho. split.
    + intros ->. destruct Hcr as (Hst & ids & -> & _). split; [by eexists|]. destruct (rn_states _ _ _ Hw id c Hc) as (-> & _). by apply (kw_absent _ _ _ _ _ _ Hk).
    + intros ids -> ->. destruct Hcr as (_ & wt & Ht & Hl & _). unfold tables in Ht. rewrite lookup_fmap, Hc in Ht. cbn in Ht. by injection Ht as <-.
    + rewrite (mi_shapes _ _ _ HM). destruct (Hdem n Hn) as [Hfit _]. unfold cached_after in *. destruct resumed; [done|]. by destruct nb.
    + pose proof (ag_len _ agree_after). rewrite (kw_prompt _ _ _ _ _ _ Hk). unfold zlen in Hle. rewrite length_app in Hle. cbn. lia.
  - intros c' n' nc' nb' r1 Hc' He' Hn'. rewrite Hc in Hc'. injection Hc' as <-. rewrite He in He'. injection He' as <- <- <-. rewrite (mi_shapes _ _ _ HM), Hrow. by apply Hdem.
Qed.

(** The output of the scheduler keeps its promises. *)
Lemma output_promised : promised (M := M) wcfg arange_len pooling_of out None w.
Proof using All.
  pose proof (st_width _ _ _ _ _ _ HS) as Hwd. pose proof (ag_reqs _ agree_after) as Hreqs. destruct (st_total _ _ _ _ _ _ HS) as [Htot Hmax].
  split; [split|split|done].
  - apply HS.
  - apply HS.
  - unfold zlen in Hwd. unfold new_ids, cached_ids. lia.
  - intros nr Hin. destruct (new_promised nr Hin) as (H1 & H2 & _). done.
  - intros i id Hi. destruct (cached_promised i id Hi) as (H1 & H2 & _). done.
  - intros nr n Hin. by apply new_promised.
  - intros i id c n nc nb r Hi. by apply (cached_promised i id Hi).
  - intros id toks. by rewrite (proj1 (st_plain _ _ _ _ _ _ HS)), lookup_empty.
  - apply HS.
  - done.
  - pose proof (ag_tokens _ agree_after). lia.
  - rewrite (mi_shapes _ _ _ HM). pose proof (ag_shapes _ agree_after) as Hsh. apply Forall_lookup. intros j sh Hj. destruct (Forall2_lookup_r _ _ _ _ _ Hsh Hj) as (m & _ & Hs).
    destruct sh as [[[[b t] z] wd] rk]. cbn. destruct Hs as (_ & Ht & _). lia.
Qed.
End Promise.
End Mirror.
