(* ===== verification/MirrorWorker.v ===== *)
(** The worker's half of a step: after [execute_model] the model runner
    (src/vllm/v1/worker/gpu_model_runner.py) mirrors the scheduler again, up to
    the sampled tokens that it is about to return. *)
From Stdlib Require Import ZArith Lia Ascii String QArith Qcanon.
From stdpp Require Import numbers gmap strings list.
From S2P Require Import Prelude FreeQueue Request BlockHash BlockPool KVSpec SingleType Coordinator KVCacheManager KVBacking TableCopy Capacity EncoderCache RequestQueue SchedState Scheduler SchedulerUpdate Lifecycle SchedTerm LifecycleOps Progress EngineRuns SchedPlan SchedSent BlockTable InputBatch BatchInv LogitsProcs ModelRunner Reorder RunnerInv RunnerStep ModelInputs InputsSpec Bookkeeping GrammarBitmask BitmaskSpec WorkerStep WorkerRuns Mirror.

Open Scope Z_scope.

(** The tokens that a step returns for a request. *)
Definition tokens_of {P} (o : RunnerOutput P) (id : string) : list Z :=
  match o with
  | Sampled _ index valid => default [] (k ← index !! id; valid !! (k : nat))
  | _ => []
  end.

Section Worker.
Context {C G : Type} `{!KVConnector C, !StructuredOutput G, !NoGrammarNoAdvance G}.
Context (cfg : SchedConfig) (fs : string -> option Qc).
Context (bh : option hasher) (bs : Z) (caching : bool) `{!BlockHasher bh bs caching} (room : Z).
Hypothesis Hcfg : plain_config cfg.
Context `{HSO : !SetOrder} {M P : Type} (full : M) (wcfg : RunnerConfig) (arange_len : nat) (pooling_of : NewRequestData -> PoolingParams) (dev : Device M P).
Context (SH : list (nat * nat * Z * Z * Z)).

Abbreviation Sched := (Scheduler C G).
Abbreviation bcfg := (batch_config wcfg).
Abbreviation kv_ok := (Progress.kv_ok cfg fs bh bs caching room).
Abbreviation mirror := (Mirror.mirror cfg bs wcfg arange_len SH).

Section After.
Context (s s' : Sched) (w w1 w' : Runner) (out : SchedulerOutput) (Q : string -> list Z).
Hypothesis (HM : mirror (fun _ => []) s w) (HK' : kv_ok [] s') (HS : sent cfg bs (tables w) s out s').
Hypothesis (HKn : knows pooling_of out w w1) (Hreq : w_requests w' = w_requests w1)
  (Houts : forall id c, w_requests w1 !! id = Some c -> outs_at w' (rs_output_token_ids c) = outs_at w (rs_output_token_ids c) ++ Q id)
  (Habs : forall id, id ∉ scheduled_ids out -> absent w' id) (Hsh : shapes (input_batch w') = shapes (input_batch w)).

Lemma scheduled_key id : id ∈ scheduled_ids out <-> id ∈ new_ids out \/ id ∈ cached_ids out.
Proof using HS. unfold scheduled_ids. rewrite elem_of_list_to_set, (st_keys _ _ _ _ _ _ HS), elem_of_app. done. Qed.

(** The state of a scheduled request after the step. *)
Lemma scheduled_running id o r' nc r : carried s s' out id nc r -> requests s' !! id = Some o -> sched_store s' !! o = Some r' -> status r' = RUNNING /\ content r' = content r.
Proof. intros [_ (o1 & r1 & Hreg & Hr1 & Hst & Hc & _)] Hreg' Hr'. rewrite Hreg in Hreg'. injection Hreg' as <-. rewrite Hr1 in Hr'. injection Hr' as <-. done. Qed.

Lemma new_known nr o r' : nr ∈ so_new_reqs out -> requests s' !! nr_req_id nr = Some o -> sched_store s' !! o = Some r' ->
  status r' = RUNNING /\ exists c, w_requests w' !! nr_req_id nr = Some c /\ known Q s' w' (nr_req_id nr) r' c.
Proof using HM HS HKn Hreq Houts.
  intros Hin Hreg Hr'. destruct (st_new _ _ _ _ _ _ HS nr Hin) as (r & Hcd & Hst & E1 & _ & _ & _ & Hcp). destruct (scheduled_running _ _ _ _ _ Hcd Hreg Hr') as [Hs' Hc].
  split; [done|]. destruct (kn_new _ _ _ _ HKn nr Hin) as (ref & Hk & Hout). exists (new_state_of pooling_of ref nr). rewrite Hreq. split; [done|].
  destruct (cd_before _ _ _ _ _ _ Hcd) as (o0 & Hreg0 & Hr0). destruct (mi_served _ _ _ _ _ _ _ _ HM _ _ _ Hreg0 Hr0) as [_ Hempty].
  split; cbn.
  - unfold content in Hc. congruence.
  - pose proof (Houts _ _ Hk) as Ho. cbn in Ho. rewrite Ho. replace (outs_at w ref) with (@nil Z) by (rewrite <-(kn_outs _ _ _ _ HKn ref); done). cbn. replace (output_token_ids r') with (@nil Z); [done|]. specialize (Hempty Hst). unfold content in Hc. congruence.
  - done.
  - congruence.
Qed.

Lemma cached_kept i id o r' : cached_ids out !! i = Some id -> requests s' !! id = Some o -> sched_store s' !! o = Some r' ->
  status r' = RUNNING /\ exists c, w_requests w' !! id = Some c /\ known Q s' w' id r' c.
Proof using HM HS HKn Hreq Houts.
  intros Hi Hreg Hr'. destruct (cached_known cfg bs wcfg arange_len SH s s' w out HM HS i id Hi) as (r & nc & nb & resumed & c & He & Hcd & _ & _ & Hc & Hk & _ & Hcp).
  destruct (scheduled_running _ _ _ _ _ Hcd Hreg Hr') as [Hs' Hcon]. split; [done|]. pose proof (kn_cached _ _ _ _ HKn i id c nc nb resumed Hi Hc He) as Hc1.
  exists (cached_after nc nb resumed c). rewrite Hreq. split; [done|]. destruct (cached_params nc nb resumed c) as (_ & _ & _ & _ & _ & E6 & _). split.
  - transitivity (rs_prompt_token_ids c); [unfold cached_after; destruct resumed; [done|]; by destruct nb|]. rewrite (kw_prompt _ _ _ _ _ _ Hk). unfold content in Hcon. congruence.
  - rewrite (Houts _ _ Hc1), E6, (kw_output _ _ _ _ _ _ Hk), app_nil_r. f_equal. unfold content in Hcon. congruence.
  - done.
  - congruence.
Qed.

(** A request that was not scheduled. *)
Lemma idle_known id o r' : id ∉ scheduled_ids out -> requests s' !! id = Some o -> sched_store s' !! o = Some r' -> started r' ->
  exists c, w_requests w' !! id = Some c /\ known Q s' w' id r' c.
Proof using HM HS HKn Hreq Houts Habs.
  intros Hid Hreg Hr' Hst'. assert (Hnew : id ∉ new_ids out ++ cached_ids out) by (rewrite elem_of_app, <-scheduled_key; done).
  destruct (st_before _ _ _ _ _ _ HS id o r' Hreg Hr') as (r & Hreg0 & Hr & Hc & Hcase).
  specialize (Hcase ltac:(by rewrite (st_keys _ _ _ _ _ _ HS))). assert (Hst : started r) by (destruct Hcase as [[E _]|[E _]]; [by unfold started in *; rewrite <-E|by left]).
  destruct (mi_known _ _ _ _ _ _ _ _ HM _ _ _ Hreg0 Hr Hst) as (Hf & c & Hk & Hkn). exists c.
  assert (Hc1 : w_requests w1 !! id = Some c) by (rewrite (kn_others _ _ _ _ HKn); [done| |done]; by rewrite (proj1 (st_finished _ _ _ _ _ _ HS))).
  rewrite Hreq. split; [done|]. split.
  - rewrite (kw_prompt _ _ _ _ _ _ Hkn). unfold content in Hc. congruence.
  - rewrite (Houts _ _ Hc1), (kw_output _ _ _ _ _ _ Hkn), app_nil_r. f_equal. unfold content in Hc. congruence.
  - intros Hrun. destruct Hcase as [[E Hcp]|[_ E]]; [|congruence]. destruct Hcp as (wt & Ht & Hcp); [congruence|].
    unfold tables in Ht. rewrite lookup_fmap, Hk in Ht. cbn in Ht. by injection Ht as <-.
  - intros _. by apply Habs.
Qed.

Lemma worker_mirrors : mirror Q s' w'.
Proof using HM HS HKn Hreq Houts Habs Hsh.
  assert (Hkeys : forall id, id ∈ (so_num_scheduled_tokens out).*1 <-> id ∈ scheduled_ids out) by (intros id; unfold scheduled_ids; by rewrite elem_of_list_to_set).
  assert (Hsched : forall id o r', id ∈ scheduled_ids out -> requests s' !! id = Some o -> sched_store s' !! o = Some r' ->
    status r' = RUNNING /\ exists c, w_requests w' !! id = Some c /\ known Q s' w' id r' c).
  { intros id o r' [Hn|Hn]%scheduled_key Hreg Hr'; [|apply list_elem_of_lookup in Hn as [i Hi]; by eapply cached_kept]. apply list_elem_of_fmap in Hn as (nr & -> & Hn). by eapply new_known. }
  split.
  - by eapply agree_after.
  - rewrite Hsh. apply HM.
  - intros id o r' Hreg Hr'. destruct (st_before _ _ _ _ _ _ HS id o r' Hreg Hr') as (r & Hreg0 & Hr & Hc & Hcase). destruct (mi_served _ _ _ _ _ _ _ _ HM _ _ _ Hreg0 Hr) as [Hsv Hout].
    split; [by eapply served_content|]. intros Hwait. destruct (decide (id ∈ scheduled_ids out)) as [Hin|Hin]; [destruct (Hsched id o r' Hin Hreg Hr'); congruence|].
    rewrite <-Hkeys in Hin. destruct (Hcase Hin) as [[E _]|[_ E]]; [|congruence]. specialize (Hout ltac:(congruence)). unfold content in Hc. congruence.
  - intros id o r' Hreg Hr' Hst'. split; [rewrite (proj2 (st_finished _ _ _ _ _ _ HS)); apply not_elem_of_empty|].
    destruct (decide (id ∈ scheduled_ids out)) as [Hin|Hin]; [by apply (Hsched id o r')|by eapply idle_known].
  - intros id c Hc. right. rewrite Hreq in Hc. assert (Hcar : forall nc r, carried s s' out id nc r -> exists o r, requests s' !! id = Some o /\ sched_store s' !! o = Some r /\ started r).
    { intros nc r [_ (o & r' & Hreg & Hr' & Hst & _)]. exists o, r'. split_and!; try done. by left. }
    destruct (decide (id ∈ new_ids out)) as [Hn|Hn]; [apply list_elem_of_fmap in Hn as (nr & -> & Hn); destruct (st_new _ _ _ _ _ _ HS nr Hn) as (r & Hcd & _); by eapply Hcar|].
    destruct (decide (id ∈ cached_ids out)) as [Hn2|Hn2]; [apply list_elem_of_lookup in Hn2 as [i Hi]; destruct (st_cached _ _ _ _ _ _ HS i id Hi) as (r & nc & nb & x & _ & _ & _ & Hcd & _); by eapply Hcar|].
    destruct (decide (id ∈ so_finished_req_ids out)) as [Hf|Hf]; [by rewrite (kn_finished _ _ _ _ HKn id Hf Hn) in Hc|].
    rewrite (kn_others _ _ _ _ HKn id Hf) in Hc by (rewrite elem_of_app; tauto). destruct (mi_gone _ _ _ _ _ _ _ _ HM id c Hc) as [Hg|(o & r & Hreg & Hr & Hst)];
      [by rewrite (proj1 (st_finished _ _ _ _ _ _ HS)) in Hf|]. destruct (st_after _ _ _ _ _ _ HS id o r Hreg Hr Hst) as (r' & Hreg' & Hr' & Hst'). by exists o, r'.
Qed.

(** A scheduled request as the worker knows it in the step. *)
Lemma scheduled_known id n : dget id (so_num_scheduled_tokens out) = Some n -> exists o r' c, requests s' !! id = Some o /\ sched_store s' !! o = Some r' /\ served wcfg r' /\
  w_requests w' !! id = Some c /\ known Q s' w' id r' c /\ status r' = RUNNING /\ rs_num_computed_tokens c + n = num_computed_tokens r'.
Proof using HM HS HKn Hreq Houts Habs Hsh.
  intros Hn. assert (Hin : id ∈ new_ids out ++ cached_ids out) by (apply (st_keys _ _ _ _ _ _ HS), (dget_key _ n); done).
  assert (Hcar : forall nc r, carried s s' out id nc r -> (forall o r', requests s' !! id = Some o -> sched_store s' !! o = Some r' ->
      status r' = RUNNING /\ exists c, w_requests w' !! id = Some c /\ known Q s' w' id r' c) -> (forall c, w_requests w' !! id = Some c -> rs_num_computed_tokens c = nc) ->
    exists o r' c, requests s' !! id = Some o /\ sched_store s' !! o = Some r' /\ served wcfg r' /\ w_requests w' !! id = Some c /\ known Q s' w' id r' c /\ status r' = RUNNING /\
      rs_num_computed_tokens c + n = num_computed_tokens r').
  { intros nc r [_ (o & r' & Hreg & Hr' & Hst & _ & n' & Hn' & _ & _ & Hsum)] Hkn Hnc. destruct (Hkn o r' Hreg Hr') as (_ & c & Hc & Hk). exists o, r', c.
    rewrite Hn in Hn'. injection Hn' as <-. rewrite (Hnc c Hc). split_and!; try done. by eapply (mi_served _ _ _ _ _ _ _ _ worker_mirrors). }
  apply elem_of_app in Hin as [Hin|Hin].
  - apply list_elem_of_fmap in Hin as (nr & -> & Hnr). destruct (st_new _ _ _ _ _ _ HS nr Hnr) as (r & Hcd & _). eapply Hcar; [done|by intros o r'; apply new_known|].
    intros c Hc. destruct (kn_new _ _ _ _ HKn nr Hnr) as (ref & Hk & _). rewrite Hreq, Hk in Hc. by injection Hc as <-.
  - apply list_elem_of_lookup in Hin as [i Hi]. destruct (cached_known cfg bs wcfg arange_len SH s s' w out HM HS i id Hi) as (r & nc & nb & resumed & c & He & Hcd & _ & _ & Hc & _).
    eapply Hcar; [done|by intros o r'; eapply cached_kept|]. intros c' Hc'. rewrite Hreq, (kn_cached _ _ _ _ HKn i id c nc nb resumed Hi Hc He) in Hc'. injection Hc' as <-.
    unfold cached_after. destruct resumed; [done|]. by destruct nb.
Qed.
End After.

(** How the worker is set up. *)
Record worker_setup : Prop := {
  ws_last : is_last_rank wcfg = true;
  ws_threshold : threshold_ok wcfg;
  ws_device : device_ok wcfg dev;
  ws_arange : (max_num_reqs bcfg <= arange_len)%nat
}.

(** The worker executes a step of the scheduler; what it returns covers the
    scheduled requests. *)
Lemma worker_executes (s s' : Sched) w out : worker_setup -> mirror (fun _ => []) s w -> runner_ok wcfg ∅ w -> kv_ok [] s' -> sent cfg bs (tables w) s out s' ->
  exists o w', execute_model full wcfg arange_len pooling_of dev out None w = Ok (o, w') /\ runner_ok wcfg ∅ w' /\ mirror (tokens_of o) s' w' /\
    (forall id, id ∉ (so_num_scheduled_tokens out).*1 -> tokens_of o id = []) /\
    (o = EmptyOutput /\ so_num_scheduled_tokens out = [] \/
     exists ids index valid, o = Sampled ids index valid /\ forall id, id ∈ (so_num_scheduled_tokens out).*1 -> exists k toks, index !! id = Some k /\ valid !! k = Some toks).
Proof using All.
  intros [W1 W2 W3 W4] HM Hw HK' HS. pose proof (ag_kind _ _ _ _ _ _ (mi_agree _ _ _ _ _ _ _ _ HM)) as Hpool.
  pose proof (output_promised (M := M) cfg fs bh bs caching room Hcfg wcfg arange_len pooling_of SH s s' w out HM Hw HK' HS) as Hpm.
  destruct (decide (so_total_num_scheduled_tokens out = 0)) as [Hz|Hz].
  - destruct (idle_step full wcfg arange_len pooling_of dev out None w W1 W2 Hw Hpm Hz) as (w' & E & Hr' & Hidx & HKn & Hsh). exists EmptyOutput, w'. split_and!; try done.
    + eapply (worker_mirrors s s' w w' w' out); try done; [|intros id _; unfold absent; by rewrite Hidx, lookup_empty]. intros id c _. cbn. by rewrite app_nil_r, (kn_outs _ _ _ _ HKn).
    + left. split; [done|]. apply sum_pos; [|by rewrite <-(proj1 (st_total _ _ _ _ _ _ HS))]. apply Forall_forall. intros [id n] Hin. cbn.
      assert (Hk : id ∈ (so_num_scheduled_tokens out).*1) by (apply list_elem_of_fmap; by exists (id, n)).
      assert (Hd : dget id (so_num_scheduled_tokens out) = Some n) by (apply dget_elem; [apply HS|done]).
      assert (Hcar : forall nc r, carried s s' out id nc r -> 0 < n) by (intros nc r [_ (? & ? & _ & _ & _ & _ & n' & Hn' & ? & _)]; congruence).
      apply (st_keys _ _ _ _ _ _ HS), elem_of_app in Hk as [Hk|Hk]; [apply list_elem_of_fmap in Hk as (nr & -> & Hn); destruct (st_new _ _ _ _ _ _ HS nr Hn) as (r & Hcd & _); by eapply Hcar|].
      apply list_elem_of_lookup in Hk as [i Hi]; destruct (st_cached _ _ _ _ _ _ HS i id Hi) as (r & nc & nb & x & _ & _ & _ & Hcd & _); by eapply Hcar.
  - destruct Hpm as [HD HMd HG].
    destruct (worker_step_spec full wcfg arange_len pooling_of dev out None w W1 Hpool W2 W3 Hw HD HMd Hz W4 HG) as (w1 & valid & w' & Eu & E & [R1 R2 R3 R4 R5 R6 R7 R8]).
    destruct (update_states_spec wcfg pooling_of out w W1 W2 Hw HD) as (S1 & w2 & Eu2 & Hr1 & _). rewrite Eu in Eu2. injection Eu2 as <-.
    assert (Hix := ci_index _ _ _ (bi_core _ _ _ (rn_batch _ _ _ Hr1))). assert (Hix' := ci_index _ _ _ (bi_core _ _ _ (rn_batch _ _ _ R1))).
    assert (Hin : forall id, id ∈ scheduled_ids out -> exists k toks c, req_id_to_index (input_batch w1) !! id = Some k /\ valid !! k = Some toks /\ w_requests w1 !! id = Some c /\
      outs_at w' (rs_output_token_ids c) = outs_at w (rs_output_token_ids c) ++ toks).
    { intros id Hid. pose proof Hid as [k Hk]%R3. assert (Hc : exists c, w_requests w1 !! id = Some c).
      { apply (scheduled_key s s' w out HS) in Hid as [Hid|Hid].
        - apply list_elem_of_fmap in Hid as (nr & -> & Hn). destruct (kn_new _ _ _ _ R2 nr Hn) as (ref & ? & _). by eexists.
        - apply list_elem_of_lookup in Hid as [i Hi]. destruct (do_cached _ _ _ _ HD i id Hi) as [_ (c & nc & nb & r & Hc & He & _)]. eexists. by eapply (kn_cached _ _ _ _ R2). }
      destruct Hc as [c Hc]. destruct (R5 k id c Hk Hc) as (toks & Ht & Ho & _). exists k, toks, c. split_and!; try done. by apply Hix. }
    exists (Sampled (req_ids_ (input_batch w1)) (req_id_to_index (input_batch w1)) valid), w'. split_and!; try done.
    + eapply (worker_mirrors s s' w w1 w' out); try done.
      * intros id c Hc. destruct (decide (id ∈ scheduled_ids out)) as [Hid|Hid].
        { destruct (Hin id Hid) as (k & toks & c' & Hk & Ht & Hc' & Ho). rewrite Hc in Hc'. injection Hc' as <-. rewrite Ho. f_equal. cbn. rewrite Hk. cbn. by rewrite Ht. }
        rewrite (R6 id c Hid Hc). cbn. destruct (req_id_to_index (input_batch w1) !! id) as [k|] eqn:Ek; [|by rewrite app_nil_r]. destruct Hid. apply R3. exists k. by apply Hix.
      * intros id Hid. unfold absent. destruct (req_id_to_index (input_batch w') !! id) as [k|] eqn:Ek; [|done]. destruct Hid. apply R3. exists k. rewrite <-R7. by apply Hix'.
    + intros id Hid. cbn. destruct (req_id_to_index (input_batch w1) !! id) as [k|] eqn:Ek; [|done]. destruct Hid. apply (elem_of_list_to_set (C := gset string)). apply R3. exists k. by apply Hix.
    + right. eexists _, _, _. split; [done|]. intros id Hid. destruct (Hin id) as (k & toks & c & ? & ? & _); [unfold scheduled_ids; by rewrite elem_of_list_to_set|]. by exists k, toks.
Qed.
End Worker.
