(* ===== verification/MirrorUpdate.v ===== *)
(** The scheduler's half of a step: [update_from_output], aborts, resets and new
    requests (src/vllm/v1/core/sched/scheduler.py) keep the model runner a
    mirror of the scheduler. *)
From Stdlib Require Import ZArith Lia Ascii String QArith Qcanon.
From stdpp Require Import numbers gmap strings list.
From S2P Require Import Prelude FreeQueue Request BlockHash BlockPool KVSpec SingleType Coordinator KVCacheManager KVBacking TableCopy InputBatch LogitsProcs ModelRunner Capacity EncoderCache RequestQueue SchedState Scheduler SchedulerUpdate Lifecycle SchedTerm LifecycleOps Progress EngineRuns SchedPlan SchedSent Mirror.

Open Scope Z_scope.

Section Update.
Context {C G : Type} `{!KVConnector C, !StructuredOutput G, !NoGrammarNoAdvance G}.
Context (cfg : SchedConfig) (fs : string -> option Qc).
Context (bh : option hasher) (bs : Z) (caching : bool) `{!BlockHasher bh bs caching} (room : Z).
Hypothesis Hcfg : plain_config cfg.
Context (wcfg : RunnerConfig) (arange_len : nat) (SH : list (nat * nat * Z * Z * Z)).

Abbreviation Sched := (Scheduler C G).
Abbreviation kv_ok := (Progress.kv_ok cfg fs bh bs caching room).
Abbreviation mirror := (Mirror.mirror cfg bs wcfg arange_len SH).
Abbreviation served := (Mirror.served wcfg).

(** * What the mirror sees of an update *)

(** Requests keep their worker's copies or end; [P] and [P'] are the tokens that
    the worker has and the scheduler does not. *)
Record tracks (P P' : string -> list Z) (s s' : Sched) : Prop := {
  tk_frozen : frozen (kv_cache_manager s) (kv_cache_manager s');
  tk_finished : forall id, id ∈ finished_req_ids s -> id ∈ finished_req_ids s';
  tk_back : forall id o r', requests s' !! id = Some o -> sched_store s' !! o = Some r' -> exists r, requests s !! id = Some o /\ sched_store s !! o = Some r /\
    (served r -> served r') /\ (status r' = WAITING -> status r = WAITING /\ output_token_ids r' = output_token_ids r) /\
    (started r' -> status r' = status r /\ prompt_token_ids r' = prompt_token_ids r /\ output_token_ids r' ++ P' id = output_token_ids r ++ P id /\
      (id ∈ finished_req_ids s' -> id ∈ finished_req_ids s) /\ forall wt, copied (kv_cache_manager s) id wt -> copied (kv_cache_manager s') id wt);
  tk_live : forall id o r, requests s !! id = Some o -> sched_store s !! o = Some r -> started r ->
    id ∈ finished_req_ids s' \/ exists r', requests s' !! id = Some o /\ sched_store s' !! o = Some r' /\ started r'
}.

Lemma mirror_tracks P P' (s s' : Sched) w : tracks P P' s s' -> mirror P s w -> mirror P' s' w.
Proof.
  intros [T1 T2 T3 T4] [M1 M2 M3 M4 M5]. split; [by eapply agree_frozen|done|..].
  - intros id o r' Hreg Hr'. destruct (T3 _ _ _ Hreg Hr') as (r & Hreg0 & Hr & Hs & Hw & _). destruct (M3 _ _ _ Hreg0 Hr) as [Hsv Ho].
    split; [by apply Hs|]. intros [Hst ->]%Hw. by apply Ho.
  - intros id o r' Hreg Hr' Hst. destruct (T3 _ _ _ Hreg Hr') as (r & Hreg0 & Hr & _ & _ & Ht). destruct (Ht Hst) as (Es & Ep & Eo & Hf & Hc).
    destruct (M4 _ _ _ Hreg0 Hr) as (Hnf & c & Hk & [K1 K2 K3 K4]); [unfold started in *; by rewrite <-Es|]. split; [by intros ?%Hf|]. exists c. split; [done|].
    split; rewrite ?Es, ?Ep, ?Eo; try done. intros Hrun. by apply Hc, K3.
  - intros id c Hc. destruct (M5 id c Hc) as [Hf|(o & r & Hreg & Hr & Hst)]; [left; by apply T2|].
    destruct (T4 _ _ _ Hreg Hr Hst) as [?|(r' & ? & ? & ?)]; [by left|right]. by exists o, r'.
Qed.

Lemma tracks_trans P1 P2 P3 (s1 s2 s3 : Sched) : tracks P1 P2 s1 s2 -> tracks P2 P3 s2 s3 -> tracks P1 P3 s1 s3.
Proof.
  intros [A1 A2 A3 A4] [B1 B2 B3 B4]. split; [by etrans|by eauto|..].
  - intros id o r3 Hreg Hr3. destruct (B3 _ _ _ Hreg Hr3) as (r2 & Hreg2 & Hr2 & S2 & W2 & T2). destruct (A3 _ _ _ Hreg2 Hr2) as (r1 & Hreg1 & Hr1 & S1 & W1 & T1).
    exists r1. split_and!; [done|done|by eauto| |].
    + intros [Hw E]%W2. destruct (W1 Hw) as [? E1]. split; [done|congruence].
    + intros Hst. destruct (T2 Hst) as (E1 & E2 & E3 & Hf & Hc). destruct T1 as (F1 & F2 & F3 & Hf1 & Hc1); [unfold started in *; by rewrite <-E1|]. split_and!; try congruence; eauto.
  - intros id o r Hreg Hr Hst. destruct (A4 _ _ _ Hreg Hr Hst) as [Hf|(r2 & Hreg2 & Hr2 & Hst2)]; [left; by apply B2|by apply (B4 id o r2)].
Qed.

(** Requests that did not change. *)
Definition unchanged (r r' : Request) : Prop := content r' = content r /\ status r' = status r.

Lemma unchanged_tracks P (s s' : Sched) : requests s' = requests s -> finished_req_ids s' = finished_req_ids s ->
  frozen (kv_cache_manager s) (kv_cache_manager s') -> (forall id wt, copied (kv_cache_manager s) id wt -> copied (kv_cache_manager s') id wt) ->
  (forall o, option_Forall2 unchanged (sched_store s !! o) (sched_store s' !! o)) -> tracks P P s s'.
Proof.
  intros E1 E2 HF Hc Hst. split; rewrite ?E1, ?E2; try done.
  - intros id o r' Hreg Hr'. specialize (Hst o). rewrite Hr' in Hst. destruct (sched_store s !! o) as [r|]; [|by inversion Hst]. assert (unchanged r r') as [Hcr Hsr] by (by inversion Hst). exists r. split_and!; try done.
    + by apply served_content.
    + rewrite Hsr. split; [done|]. unfold content in Hcr. congruence.
    + intros _. unfold content in Hcr. split_and!; try congruence; auto.
  - intros id o r Hreg Hr Hs. right. specialize (Hst o). rewrite Hr in Hst. destruct (sched_store s' !! o) as [r'|]; [|by inversion Hst]. assert (unchanged r r') as [_ Hsr] by (by inversion Hst). exists r'. unfold started in *. by rewrite Hsr.
Qed.

Lemma same_tracks P (s s' : Sched) : sched_store s' = sched_store s -> requests s' = requests s -> finished_req_ids s' = finished_req_ids s ->
  coordinator (kv_cache_manager s') = coordinator (kv_cache_manager s) -> tracks P P s s'.
Proof.
  intros E1 E2 E3 E4. apply unchanged_tracks; try done; [by apply coord_frozen|intros id wt; by apply copied_coord|]. intros o. rewrite E1. destruct (sched_store s !! o); by constructor.
Qed.

Lemma upd_tracks P o f (s : Sched) : (forall r, sched_store s !! o = Some r -> unchanged r (f r)) -> tracks P P s (upd_req o f s).
Proof.
  intros Hf. apply unchanged_tracks; try done. intros x. cbn. destruct (decide (o = x)) as [<-|Hne]; [rewrite lookup_alter_eq|rewrite lookup_alter_ne by done].
  - destruct (sched_store s !! o) as [r|] eqn:Hr; constructor. by apply Hf.
  - destruct (sched_store s !! x); by constructor.
Qed.

(** * New tokens *)

Lemma upd_const o r (s : Sched) : sched_store s !! o = Some r -> upd_req o (fun _ => r) s = s.
Proof.
  intros Hr. unfold upd_req. replace (alter (fun _ => r) o (sched_store s)) with (sched_store s); [by destruct s|].
  apply map_eq. intros x. destruct (decide (o = x)) as [<-|Hne]; [by rewrite lookup_alter_eq, Hr|by rewrite lookup_alter_ne].
Qed.

Lemma upd_value o r f (s : Sched) : sched_store s !! o = Some r -> upd_req o f s = upd_req o (fun _ => f r) s.
Proof.
  intros Hr. unfold upd_req. f_equal. apply map_eq. intros x. destruct (decide (o = x)) as [<-|Hne]; [by rewrite !lookup_alter_eq, Hr|by rewrite !lookup_alter_ne].
Qed.

(** The tokens [toks] that the worker had for a running request arrive. *)
Lemma append_tracks P P' (s : Sched) id o r r' toks :
  requests s !! id = Some o -> sched_store s !! o = Some r -> (forall id', requests s !! id' = Some o -> id' = id) -> status r ≠ WAITING ->
  (served r -> served r') -> status r' = status r -> prompt_token_ids r' = prompt_token_ids r -> output_token_ids r' = output_token_ids r ++ toks ->
  P id = toks -> P' id = [] -> (forall i, i ≠ id -> P' i = P i) -> tracks P P' s (upd_req o (fun _ => r') s).
Proof.
  intros Hreg Hr Hinj Hw Hs Hst Hp Ho HP HP' Hoth. split; cbn; try done.
  - intros i x rx Hx Hrx. destruct (decide (o = x)) as [<-|Hne]; [rewrite lookup_alter_eq, Hr in Hrx|rewrite lookup_alter_ne in Hrx by done].
    + injection Hrx as <-. rewrite (Hinj i Hx) in *. exists r. split_and!; try done; [congruence|]. intros _. split_and!; try done. by rewrite Ho, HP, HP', app_nil_r.
    + exists rx. assert (Hi : i ≠ id) by (intros ->; congruence). split_and!; try done. intros _. by rewrite (Hoth i Hi).
  - intros i x rx Hx Hrx Hsx. right. destruct (decide (o = x)) as [<-|Hne]; [rewrite lookup_alter_eq, Hr|rewrite lookup_alter_ne by done; by exists rx].
    rewrite Hr in Hrx. injection Hrx as <-. exists r'. unfold started in *. by rewrite Hst.
Qed.

(** * Ends *)

Lemma releases_same (s s' : Sched) : sched_store s' = sched_store s -> requests s' = requests s -> coordinator (kv_cache_manager s') = coordinator (kv_cache_manager s) -> releases s s'.
Proof. intros E1 E2 E3. split; rewrite ?E2; try done; [by apply coord_frozen|intros id wt _; by apply copied_coord]. Qed.

Lemma free_request_releases now o r (s s' : Sched) params : kv_ok [] s -> sched_store s !! o = Some r -> requests s !! request_id r = Some o ->
  free_request cfg fs now o s = Ok (params, s') -> releases s s' /\ finished_req_ids s' = {[ request_id r ]} ∪ finished_req_ids s.
Proof.
  intros HK Hr Hreg E. pose proof (ro_plain _ _ _ _ _ _ _ _ _ (ko_reqs _ _ _ _ _ _ _ _ HK _ _ _ Hreg Hr)) as Hp.
  unfold free_request, get_req in E. rewrite Hr in E. cbn [get_or mbind result_bind] in E. apply bind_Ok in E as ([] & Hfin%assert_Ok & E).
  unfold connector_finished in E. rewrite (ko_connector _ _ _ _ _ _ _ _ HK) in E. cbn [mbind result_bind] in E. apply bind_Ok in E as (e & _ & E).
  set (s1 := note_finished r _) in E.
  assert (H1 : (same_core s s1 /\ kv_cache_manager s1 = kv_cache_manager s /\ connector s1 = connector s) /\ finished_req_ids s1 = {[ request_id r ]} ∪ finished_req_ids s).
  { unfold s1, note_finished. cbn. destruct (finished_req_ids_dict s); by split_and!. }
  destruct H1 as ((Hc1 & Ek1 & Ec1) & Ef1). apply bind_Ok in E as ([ttl s2] & E2 & E).
  assert (H2 : same_core s s2 /\ kv_cache_manager s2 = kv_cache_manager s /\ connector s2 = connector s /\ finished_req_ids s2 = finished_req_ids s1).
  { destruct (may_pin cfg r false); [|by inv_ok]. destruct (set_up_pin_returns cfg fs bh bs caching r s1 Hp) as (t & s3 & E3 & Hc3 & Ek3 & Ec3). rewrite E2 in E3. injection E3 as <- <-.
    split_and!; [by etrans|congruence|congruence|]. clear -E2. unfold set_up_pin in E2. destruct (negb _); [by inv_ok|]. cbv zeta in E2. apply bind_Ok in E2 as (s3 & E3 & E2).
    destruct (_ || _); [|apply bind_Ok in E3 as (d & _ & E3)]; inv_ok; destruct (decide _); by inv_ok. }
  destruct H2 as ((Q1 & Q2 & Q3 & _) & Ek2 & Ec2 & Ef2). rewrite <-Ef1, <-Ef2.
  assert (HR : releases s s2) by (apply releases_same; congruence).
  destruct (decide _); [inv_ok; split; [|done]; etrans; [exact HR|]; by apply releases_same|]. apply bind_Ok in E as (s3 & E3 & E). inv_ok.
  assert (HK2 : kv_ok [] s2) by (apply (kv_ok_core _ _ _ _ _ _ _ s); try done; [rewrite Ec2; apply HK|rewrite Q3; apply HK]).
  destruct (free_blocks_releases cfg fs bh bs caching room o r s2 s' HK2) as [HR3 Hf3]; try done; [by rewrite Q1|by rewrite Q2|]. split; [by etrans|done].
Qed.

(** A request ends with its last tokens and is freed or pinned. *)
Lemma finish_tracks P P' now (s s' : Sched) id o r f params :
  requests s !! id = Some o -> sched_store s !! o = Some r -> (forall id', requests s !! id' = Some o -> id' = id) ->
  request_id (f r) = id -> is_finished (f r) = true -> (served r -> served (f r)) -> kv_ok [] (upd_req o f s) ->
  free_request cfg fs now o (upd_req o f s) = Ok (params, s') -> (forall i, i ≠ id -> P' i = P i) -> tracks P P' s s'.
Proof.
  intros Hreg Hr Hinj Hid Hfin Hs HK E Hoth. assert (Hr1 : sched_store (upd_req o f s) !! o = Some (f r)) by (cbn; by rewrite lookup_alter_eq, Hr).
  destruct (free_request_releases now o (f r) (upd_req o f s) s' params HK Hr1) as [[R1 RF R2 R3 R4] Ef]; [by rewrite Hid|done|]. rewrite Hid in Ef. cbn in R1, RF, R2, R3, R4, Ef.
  assert (Hin : forall i, i ∈ finished_req_ids s' <-> i = id \/ i ∈ finished_req_ids s) by (intros i; rewrite Ef, elem_of_union, elem_of_singleton; done).
  split; [done|intros i ?; apply Hin; by right|..].
  - intros i x rx Hx Hrx. rewrite R1 in Hrx. destruct (decide (o = x)) as [<-|Hne]; [rewrite lookup_alter_eq, Hr in Hrx|rewrite lookup_alter_ne in Hrx by done].
    + injection Hrx as <-. exists r. unfold is_finished in Hfin. split_and!; [by apply R2|done|done|intros E1; by rewrite E1 in Hfin|intros [E1|E1]; by rewrite E1 in Hfin].
    + pose proof (R2 _ _ Hx) as Hx0. assert (Hi : i ≠ id) by (intros ->; congruence). exists rx. split_and!; try done. intros _. rewrite (Hoth i Hi).
      split_and!; try done; [rewrite Hin; by intros [?|?]|]. intros wt. apply R4. by eexists.
  - intros i x rx Hx Hrx Hsx. rewrite Hin. destruct (decide (i = id)) as [->|Hi]; [by left; left|right]. assert (Hne : o ≠ x) by (intros <-; by apply Hi, Hinj).
    exists rx. rewrite R1. rewrite lookup_alter_ne by done. split_and!; try done. apply (R3 i x rx); [done|by rewrite lookup_alter_ne|]. unfold is_finished. by destruct Hsx as [-> | ->].
Qed.

(** * The model output *)

(** What the sampled tokens do to a request. *)
Lemma append_grows toks : forall r kept stopped r', append_until_stop cfg bh toks r = Ok (kept, stopped, r') ->
  (served r -> served r') /\ request_id r' = request_id r /\ prompt_token_ids r' = prompt_token_ids r /\
  (stopped = false -> status r' = status r /\ output_token_ids r' = output_token_ids r ++ toks).
Proof.
  induction toks as [|t toks IH]; intros r kept stopped r' E; cbn [append_until_stop] in E; [inv_ok; split_and!; try done; by rewrite app_nil_r|].
  apply bind_Ok in E as (r1 & E1 & E). apply bind_Ok in E as ([st r2] & E2 & E). cbv beta iota in E.
  assert (H1 : content r1 = content (set_tokens (output_token_ids r ++ [t]) (all_token_ids r ++ [t]) r) /\ status r1 = status r).
  { unfold append_output_token_ids in E1. destruct bh; [apply bind_Ok in E1 as (hs & _ & E1)|]; by inv_ok. }
  assert (H2 : content r2 = content r1 /\ (st = false -> status r2 = status r1)).
  { unfold check_stop in E2. destruct (_ || _); [by inv_ok|]. destruct (pooling_params r1); [by inv_ok|]. apply bind_Ok in E2 as (sp & _ & E2). apply bind_Ok in E2 as (l & _ & E2). destruct (_ && _); [by inv_ok|]. destruct (bool_decide _); by inv_ok. }
  destruct H1 as [H1 S1], H2 as [H2 S2]. rewrite H1 in H2. unfold content in H2. cbn in H2. clear H1.
  assert (Hsv : served r -> served r2).
  { intros [V1 V2 V3 V4]. injection H2 as _ F1 F2 F3 F4 _ F5 _. split; rewrite ?F4, ?F5; try done. by rewrite F3, F1, F2, V1, app_assoc. }
  injection H2 as F0 F1 F2 _ _ _ _ _. destruct st; [inv_ok; by split_and!|]. apply bind_Ok in E as ([[k2 st2] r3] & E3 & E). inv_ok.
  destruct (IH _ _ _ _ E3) as (I1 & I2 & I3 & I4). split_and!; [by auto|congruence|congruence|]. intros Hs. destruct (I4 Hs) as [I5 I6]. rewrite I5, S2 by done. split; [done|].
  by rewrite I6, F2, <-app_assoc.
Qed.

(** The tokens of one request have arrived. *)
Definition arrived (id : string) (P P' : string -> list Z) : Prop := P' id = [] /\ forall i, i ≠ id -> P' i = P i.

Lemma post_tracks P o rid toks mo (s s' : Sched) : post_process o rid toks mo s = Ok s' -> tracks P P s s'.
Proof.
  unfold post_process. intros E. apply bind_Ok in E as (r & _ & E). apply bind_Ok in E as (s1 & E1 & E). apply (tracks_trans _ P _ _ s1).
  - destruct toks; [by inv_ok; apply same_tracks|]. destruct (should_advance _ _) as [adv g]. apply bind_Ok in E1 as (g' & _ & E1). inv_ok. by apply same_tracks.
  - destruct (mo_num_nans mo) as [d|]; [destruct (d !! rid)|]; inv_ok; [|by apply same_tracks..]. by apply upd_tracks.
Qed.

Lemma emit_tracks P o rid idx toks pooled params mo outs (s s' : Sched) outs' : emit_output o rid idx toks pooled params mo outs s = Ok (outs', s') -> tracks P P s s'.
Proof.
  unfold emit_output. intros E. apply bind_Ok in E as (r & Hr%get_or_Ok & E). cbv zeta in E. destruct (_ || _); [|apply bind_Ok in E as (? & _ & E); inv_ok; by apply same_tracks].
  destruct (take_events r) as [evs r'] eqn:Et. inv_ok. apply upd_tracks. intros rx Hrx. rewrite Hr in Hrx. injection Hrx as <-. unfold take_events in Et. destruct (events r); injection Et as _ <-; done.
Qed.

(** The tokens that the output has for a request. *)
Definition generated (mo : ModelRunnerOutput) (id : string) (toks : list Z) : Prop :=
  exists idx, SchedulerUpdate.req_id_to_index mo !! id = Some idx /\ (match sampled_token_ids mo with [] => Ok [] | l => pyindex l idx end) = Ok toks.

Lemma output_step_tracks P P' now out mo u (s : Sched) kv sp sr u' s' :
  output_wf out -> model_output_wf out mo -> kv ∈ so_num_scheduled_tokens out -> mid_inv cfg sp sr s -> kv_ok [] s ->
  (forall o r, requests s !! kv.1 = Some o -> sched_store s !! o = Some r -> status r ≠ WAITING) -> generated mo kv.1 (P kv.1) -> arrived kv.1 P P' ->
  output_step cfg bh fs now out mo (u, s) kv = Ok (u', s') -> tracks P P' s s'.
Proof using Hcfg.
  intros [_ Hdr] (Hpo & _ & _) Hkv HI HK Hw (idx & Hi & Hg) [HP' Hoth] E. unfold output_step in E. apply bind_Ok in E as (? & _ & E).
  destruct (requests s !! kv.1) as [o|] eqn:Ereg.
  2: { injection E as _ <-. split; try done.
       - intros id o r Hreg Hr. exists r. split_and!; try done. intros _. rewrite (Hoth id); [done|]. by intros ->; rewrite Ereg in Hreg.
       - intros id o r Hreg Hr Hst. right. by exists r. }
  rewrite Hi in E. cbn [get_or mbind result_bind] in E. rewrite Hg in E. cbn [mbind result_bind] in E. unfold reject_drafts in E. rewrite Hdr, lookup_empty in E. cbn [mbind result_bind] in E.
  destruct (lf_reg _ _ _ _ (md_life _ _ _ _ HI) _ _ Ereg) as (r & Hr & Hid & _). unfold get_req at 1 in E. rewrite Hr in E. cbn [get_or mbind result_bind] in E.
  assert (Hinj : forall id', requests s !! id' = Some o -> id' = kv.1).
  { intros id' Hx. destruct (lf_reg _ _ _ _ (md_life _ _ _ _ HI) _ _ Hx) as (rx & Hrx & <- & _). congruence. }
  pose proof (ro_plain _ _ _ _ _ _ _ _ _ (ko_reqs _ _ _ _ _ _ _ _ HK _ _ _ Ereg Hr)) as Hp.
  destruct (stop_checks_returns cfg fs bh bs caching room Hcfg o idx (P kv.1) mo r s Hpo HK Hr Hp) as (toks & stopped & s1 & r1 & Es & HK1 & Hr1 & [X1 X2 X3 X4 X5 X6] & Er & _).
  rewrite Es in E. cbn [mbind result_bind] in E.
  assert (H1 : s1 = upd_req o (fun _ => r1) s /\ (served r -> served r1) /\ request_id r1 = kv.1 /\ prompt_token_ids r1 = prompt_token_ids r /\
    (stopped = false -> status r1 = status r /\ output_token_ids r1 = output_token_ids r ++ P kv.1)).
  { unfold stop_checks in Es. apply bind_Ok in Es as ([[t1 st1] s2] & E2 & Es). rewrite Hpo in Es. injection Es as -> -> ->. destruct (P kv.1) as [|t gen].
    - injection E2 as <- <- <-. rewrite Hr in Hr1. injection Hr1 as <-. split_and!; try done; [by rewrite upd_const|by rewrite app_nil_r].
    - unfold update_request_with_output, get_req in E2. rewrite Hr in E2. cbn [get_or mbind result_bind] in E2. apply bind_Ok in E2 as ([[kept st] r2] & E3 & E2).
      rewrite (pc_sync _ Hcfg) in E2. injection E2 as <- <- <-. cbn in Hr1. rewrite lookup_alter_eq, Hr in Hr1. injection Hr1 as <-.
      destruct (append_grows _ _ _ _ _ E3) as (? & ? & ? & ?). split_and!; try done. congruence. }
  destruct H1 as (-> & Hsv & Hid1 & Hpr & Hgo). apply bind_Ok in E as ([params s2] & E2 & E). cbv beta iota in E.
  assert (H2 : tracks P P' s s2).
  { destruct stopped; [by eapply (finish_tracks P P' now s s2 kv.1 o r (fun _ => r1)); eauto|]. injection E2 as _ <-. destruct (Hgo eq_refl) as [Hst Ho].
    by eapply (append_tracks P P' s kv.1 o r r1 (P kv.1)); eauto. }
  apply bind_Ok in E as (s3 & E3 & E). apply bind_Ok in E as ([outs s4] & E4 & E). injection E as _ <-. eapply tracks_trans; [exact H2|]. eapply tracks_trans; [by eapply post_tracks|by eapply emit_tracks].
Qed.

(** The tokens that are still to be processed. *)
Definition rest (l : list (string * Z)) (P : string -> list Z) (id : string) : list Z := if decide (id ∈ l.*1) then P id else [].

Lemma assemble_tracks P u (s s' : Sched) outs : assemble_outputs cfg u s = Ok (outs, s') -> tracks P P s s'.
Proof.
  unfold assemble_outputs. cbv zeta. destruct (match finished_req_ids_dict s with Some (_ :: _ as d) => _ | _ => _ end) as [ecos s1] eqn:E1. intros E.
  assert (H1 : tracks P P s s1) by (destruct (finished_req_ids_dict s) as [[|? ?]|]; injection E1 as _ <-; by apply same_tracks).
  apply bind_Ok in E as ([st s2] & E2 & E). cbv beta iota in E. assert (s' = s2) as -> by (destruct st; [destruct ecos as [|[? ?] ?]|]; by injection E as _ <-).
  eapply tracks_trans; [exact H1|]. unfold make_stats in E2. destruct (negb (log_stats cfg)); [injection E2 as _ <-; by apply same_tracks|].
  unfold make_prefix_cache_stats in E2. destruct (negb (kvm_log_stats _)); [done|]. apply bind_Ok in E2 as (ps & _ & E2). apply bind_Ok in E2 as (rs & _ & E2). injection E2 as _ <-. by apply same_tracks.
Qed.

(** The outputs of the step that the worker is ahead. *)
Lemma update_mirror P now out mo (s s' : Sched) w res :
  output_wf out -> model_output_wf out mo -> NoDup (so_num_scheduled_tokens out).*1 -> sched_inv cfg s -> kv_ok [] s ->
  (forall id o r, id ∈ (so_num_scheduled_tokens out).*1 -> requests s !! id = Some o -> sched_store s !! o = Some r -> status r ≠ WAITING) ->
  (forall id, id ∈ (so_num_scheduled_tokens out).*1 -> generated mo id (P id)) -> (forall id, id ∉ (so_num_scheduled_tokens out).*1 -> P id = []) ->
  update_from_output cfg bh fs now out mo s = Ok (res, s') -> mirror P s w -> mirror (fun _ => []) s' w.
Proof using Hcfg NoGrammarNoAdvance0.
  intros Hout Hmo Hnd HI HK Hw Hgen Hnone E HM. unfold update_from_output in E. apply bind_Ok in E as ([u s1] & E1 & E).
  assert (Hok : output_ok mo) by (left; apply Hmo).
  destruct (foldM_returns (fun l (us : Upd * Sched) => (NoDup l.*1 /\ (forall kv, kv ∈ l -> kv ∈ so_num_scheduled_tokens out)) /\
    mid_inv cfg (stopped_preempted_reqs us.1) (stopped_running_reqs us.1) us.2 /\ kv_ok [] us.2 /\ mirror (rest l P) us.2 w /\
    forall id o r, id ∈ l.*1 -> requests us.2 !! id = Some o -> sched_store us.2 !! o = Some r -> status r ≠ WAITING)
    (output_step cfg bh fs now out mo) (so_num_scheduled_tokens out)) with (s := (mkUpd [] None ∅ ∅, s)) as ([u0 s0] & E0 & _ & _ & _ & HM1 & _).
  - intros kv l [u0 s0] ((Hndl & Hl) & HI0 & HK0 & HM0 & Hw0). cbn [fst snd] in *. assert (Hkv : kv ∈ so_num_scheduled_tokens out) by (apply Hl; by left).
    destruct (output_step_returns cfg fs bh bs caching room Hcfg now out mo u0 s0 kv _ _ Hout Hmo Hkv HI0 HK0) as (u' & s2 & E2 & HK2). exists (u', s2). split; [done|].
    cbn in Hndl. apply NoDup_cons in Hndl as [Hni Hndl].
    assert (HT : tracks (rest (kv :: l) P) (rest l P) s0 s2).
    { eapply output_step_tracks; try done.
      - intros o r. apply Hw0. by left.
      - unfold rest. rewrite decide_True by (by left). apply Hgen. apply list_elem_of_fmap. by exists kv.
      - split; [unfold rest; by rewrite decide_False|]. intros i Hi. unfold rest. apply decide_ext. cbn. rewrite elem_of_cons. naive_solver. }
    split_and!; [done|intros x Hx; apply Hl; by right|by eapply output_step_inv|done|by eapply mirror_tracks|]. cbn [snd].
    intros id o r Hin Hreg Hr Hwait. destruct (tk_back _ _ _ _ HT _ _ _ Hreg Hr) as (r0 & Hreg0 & Hr0 & _ & Hst & _). destruct (Hst Hwait) as [Hst0 _]. by eapply (Hw0 id o r0); [right|..].
  - cbn [fst snd]. split_and!; try done; [by apply mid_inv_start|]. eapply mirror_tracks; [|exact HM]. split; try done.
    + intros id o r Hreg Hr. exists r. split_and!; try done. intros _. assert (rest (so_num_scheduled_tokens out) P id = P id) as -> by (unfold rest; destruct (decide (id ∈ (so_num_scheduled_tokens out).*1)) as [|Hn]; [done|by rewrite (Hnone id Hn)]). by split_and!.
    + intros id o r Hreg Hr Hst. right. by exists r.
  - rewrite E1 in E0. injection E0 as <- <-. cbn [fst snd] in HM1. cbv beta iota zeta in E. apply bind_Ok in E as (s3 & E3 & E). destruct Hmo as (_ & Hkv & _). rewrite Hkv in E. cbn [mbind result_bind] in E.
    eapply mirror_tracks; [by eapply assemble_tracks|]. set (s2 := if decide _ then s1 else _) in E3. assert (H2 : tracks (rest [] P) (rest [] P) s1 s2) by (unfold s2; destruct (decide _); by apply same_tracks).
    assert (H3 : tracks (rest [] P) (rest [] P) s2 s3) by (destruct (decide (stopped_preempted_reqs u = ∅)); [|apply bind_Ok in E3 as (q & _ & E3)]; injection E3 as <-; by apply same_tracks).
    exact (mirror_tracks _ _ _ _ _ (tracks_trans _ _ _ _ _ _ H2 H3) HM1).
Qed.

(** * Aborts, resets and new requests *)

Definition reg_inj (s : Sched) : Prop := forall id id' o, requests s !! id = Some o -> requests s !! id' = Some o -> id = id'.

Lemma finish_one P now st o r (s s' : Sched) params : status_is_finished st = true -> sched_store s !! o = Some r -> requests s !! request_id r = Some o -> kv_ok [] s -> reg_inj s ->
  free_request cfg fs now o (upd_req o (set_status st) s) = Ok (params, s') -> tracks P P s s' /\ reg_inj s'.
Proof.
  intros Hst Hr Hreg HK Hinj E. rewrite (upd_value o r) in E by done. pose proof (ro_plain _ _ _ _ _ _ _ _ _ (ko_reqs _ _ _ _ _ _ _ _ HK _ _ _ Hreg Hr)) as Hp.
  assert (Hp' : plain_req fs bh bs caching (set_status st r)) by (eapply plain_same; [|exact Hp]; done).
  assert (HK1 : kv_ok [] (upd_req o (fun _ => set_status st r) s)) by (eapply kv_ok_replace; [done|exact Hr|exact Hp'|done|done|by left]).
  split.
  - eapply (finish_tracks P P now s s' (request_id r) o r (fun _ => set_status st r)); try done; [intros id' Hx; by eapply Hinj|]. intros Hs. by eapply (served_content wcfg r).
  - destruct (free_request_releases now o (set_status st r) _ s' params HK1) as [HR _]; [cbn; by rewrite lookup_alter_eq, Hr|done|done|].
    intros id id' x Ha Hb. eapply Hinj; by apply (rl_reqs _ _ HR).
Qed.

Lemma finish_mirror P now ids st (s s' : Sched) w : status_is_finished st = true -> NoDup ids -> sched_inv cfg s -> kv_ok [] s ->
  finish_requests cfg fs now ids st s = Ok s' -> mirror P s w -> mirror P s' w.
Proof.
  intros Hst Hnd HI HK E HM. eapply mirror_tracks; [|exact HM]. clear HM. unfold finish_requests in E. rewrite Hst in E. cbn [assert_ mbind result_bind] in E. cbv zeta in E.
  set (valid := omap _ ids) in E. apply bind_Ok in E as (rs & _ & E). set (s1 := match _ with [] => s | _ => set_running _ s end) in E.
  assert (H1 : (sched_store s1 = sched_store s /\ requests s1 = requests s) /\ tracks P P s s1 /\ kv_ok [] s1).
  { unfold s1. destruct (_.*1); (split_and!; [done|done|by apply same_tracks|]); [done|]. apply (kv_ok_core _ _ _ _ _ _ _ s); try done; apply HK. }
  destruct H1 as ((E1 & E2) & T1 & HK1). apply bind_Ok in E as (s2 & Es2 & E). clearbody s1.
  assert (H2 : (sched_store s2 = sched_store s /\ requests s2 = requests s) /\ tracks P P s1 s2 /\ kv_ok [] s2).
  { destruct (_.*1) as [|? ?]; [injection Es2 as <-; split_and!; try done; by apply same_tracks|]. destruct (ko_queue _ _ _ _ _ _ _ _ HK1) as [q Hq]. rewrite Hq in Es2. cbn [remove_requests mbind result_bind] in Es2.
    injection Es2 as <-. split_and!; try done; [by apply same_tracks|]. apply (kv_ok_core _ _ _ _ _ _ _ s1); try done; [apply HK1|by eexists]. }
  destruct H2 as ((E3 & E4) & T2 & HK2). eapply tracks_trans; [exact T1|]. eapply tracks_trans; [exact T2|]. clear T1 T2 Es2.
  destruct (foldM_returns (fun l x => (to_free l x /\ reg_inj x) /\ kv_ok [] x /\ tracks P P s2 x)
    (fun s o => '(_, s) ← free_request cfg fs now o (upd_req o (set_status st) s); Ok s) valid) with (s := s2) as (s'' & E' & _ & _ & HT); [| |by rewrite E in E'; injection E' as <-].
  - intros o l s0 ((Hf & Hinj) & HK0 & HT). destruct (free_one_returns cfg fs bh bs caching room now st o l s0 Hst Hf HK0) as (s0' & E0 & Hf' & HK'). exists s0'. split; [done|].
    apply bind_Ok in E0 as ([params s5] & E5 & E0). injection E0 as ->. destruct Hf as [_ Hf]. destruct (Hf o) as (r & Hr & Hreg); [by left|].
    destruct (finish_one P now st o r s0 s0' params Hst Hr Hreg HK0 Hinj E5) as [HT' Hinj']. split_and!; try done. by eapply tracks_trans.
  - split_and!; [split; [|rewrite E3, E4; intros o (rid & _ & Ho)%list_elem_of_omap; destruct (lf_reg _ _ _ _ (sc_life _ _ HI) _ _ Ho) as (r & Hr & Hid & _); exists r; by rewrite Hid]|unfold reg_inj; rewrite E4|done|by apply same_tracks].
    1: apply (valid_nodup s); [done|]. intros rid o Ho. destruct (lf_reg _ _ _ _ (sc_life _ _ HI) _ _ Ho) as (r & Hr & Hid & _). eauto.
    intros id id' o Ha Hb. destruct (lf_reg _ _ _ _ (sc_life _ _ HI) _ _ Ha) as (r & Hr & <- & _), (lf_reg _ _ _ _ (sc_life _ _ HI) _ _ Hb) as (r' & Hr' & <- & _). congruence.
Qed.

Lemma reset_mirror P (s s' : Sched) w ok : kv_ok [] s -> sched_reset_prefix_cache s = Ok (ok, s') -> mirror P s w -> mirror P s' w.
Proof.
  intros HK E. apply mirror_tracks. destruct (ko_inv _ _ _ _ _ _ _ _ HK) as [l HV]. destruct (reset_backing bs (max_model_len cfg) _ l HV (ko_setup _ _ _ _ _ _ _ _ HK)) as (ok' & k' & E' & _ & HF).
  unfold sched_reset_prefix_cache in E. rewrite E' in E. injection E as _ <-. apply unchanged_tracks; cbn; try done.
  - eapply frame_frozen, (HF ""%string).
  - intros id wt. apply (copied_frame ("x" ++ id)%string); [apply HF|]. intros E2. apply (f_equal String.length) in E2. change (S (String.length id) = String.length id) in E2. lia.
  - intros o. destruct (sched_store s !! o); by constructor.
Qed.

(** A new request is not known to the worker before it is scheduled. *)
Lemma add_mirror P now o r (s s' : Sched) w : served r -> output_token_ids r = [] -> status r = WAITING -> sched_store s !! o = None -> requests s !! request_id r = None -> sched_inv cfg s ->
  sched_add_request cfg now o (set_sched_store (<[o := r]> (sched_store s)) s) = Ok s' -> mirror P s w -> mirror P s' w.
Proof.
  intros Hs Hout Hst Ho Hid HI E [M1 M2 M3 M4 M5]. unfold sched_add_request in E. apply bind_Ok in E as (q & _ & E). apply bind_Ok in E as (r' & Hr'%get_or_Ok & E). cbn in Hr'. rewrite lookup_insert_eq in Hr'. injection Hr' as <-.
  match type of E with Ok (if _ then upd_req _ _ ?x else _) = _ => set (s1 := x) in E end.
  assert (Hold : forall id x, requests s !! id = Some x -> x ≠ o /\ id ≠ request_id r).
  { intros id x Hx. split; [|by intros ->; rewrite Hid in Hx]. intros ->. destruct (lf_reg _ _ _ _ (sc_life _ _ HI) _ _ Hx) as (r1 & Hr1 & _). by rewrite Ho in Hr1. }
  assert (Hnew : forall id x rx, requests s1 !! id = Some x -> sched_store s1 !! x = Some rx -> rx = r \/ requests s !! id = Some x /\ sched_store s !! x = Some rx).
  { intros id x rx Hx Hrx. cbn in Hx, Hrx. destruct (decide (x = o)) as [->|Hxo]; [rewrite lookup_insert_eq in Hrx; injection Hrx as <-; by left|right].
    rewrite lookup_insert_ne in Hrx by done. split; [|done]. destruct (decide (id = request_id r)) as [->|Hi]; [rewrite lookup_insert_eq in Hx; congruence|by rewrite lookup_insert_ne in Hx]. }
  assert (HM : mirror P s1 w).
  { split; try done.
    - intros id x rx Hx Hrx. destruct (Hnew _ _ _ Hx Hrx) as [->|[? ?]]; [done|by eapply M3].
    - intros id x rx Hx Hrx Hsx. destruct (Hnew _ _ _ Hx Hrx) as [->|[? ?]]; [destruct Hsx; congruence|]. destruct (M4 id x rx) as (? & c & ? & [K1 K2 K3 K4]); try done. split; [done|]. by exists c.
    - intros id c Hc. destruct (M5 id c Hc) as [?|(x & rx & Hx & Hrx & Hsx)]; [by left|right]. destruct (Hold id x Hx). exists x, rx. cbn. by rewrite !lookup_insert_ne. }
  injection E as <-. destruct (log_stats cfg); [|done]. eapply mirror_tracks; [|exact HM]. by apply upd_tracks.
Qed.
End Update.
