(* ===== verification/Lockstep.v ===== *)
(** The engine core (src/vllm/v1/engine/core.py) with its worker in the same
    process: the scheduler makes a batch, the model runner executes it, and the
    scheduler processes the tokens. Between two steps the runner's copy of the
    requests is the scheduler's, so neither of them ever raises. *)
From Stdlib Require Import ZArith Lia Ascii String QArith Qcanon.
From stdpp Require Import numbers gmap strings list.
From S2P Require Import Prelude FreeQueue Request BlockHash BlockPool KVSpec SingleType Coordinator KVCacheManager KVBacking KVStart TableCopy Capacity EncoderCache RequestQueue SchedState Scheduler SchedulerUpdate BlockTable InputBatch BatchInv LogitsProcs ModelRunner Reorder RunnerInv RunnerStep ModelInputs InputsSpec Bookkeeping GrammarBitmask BitmaskSpec WorkerStep WorkerRuns Lifecycle SchedTerm LifecycleOps Progress EngineRuns EngineCore SchedPlan SchedSent Mirror MirrorWorker MirrorUpdate.

Open Scope Z_scope.

(** * The executor *)

(** What the sampler returns beside the tokens: whether there are logprobs, the
    prompt logprobs by request, and the numbers of NaNs. *)
Record SamplerExtras := mkExtras {
  ex_logprobs : bool;
  ex_prompt_logprobs : gmap string Z;
  ex_num_nans : option (gmap string Z)
}.

(** The [ModelRunnerOutput] of a step; a stage of the pipeline that is not the
    last returns none. *)
Definition runner_output (extras : SamplerExtras) (o : RunnerOutput Z) : option ModelRunnerOutput :=
  match o with
  | EmptyOutput => Some (mkModelOutput ∅ [] false ∅ [] None None)
  | HiddenStates => None
  | Pooled _ index po => Some (mkModelOutput (Z.of_nat <$> index) [] false ∅ po None None)
  | Sampled _ index valid => Some (mkModelOutput (Z.of_nat <$> index) valid (ex_logprobs extras) (ex_prompt_logprobs extras) [] (ex_num_nans extras) None)
  end.

Section Worker.
Context `{HSO : !SetOrder} {M : Type} (full : M) (masks : SchedulerOutput -> list M) (wcfg : RunnerConfig) (arange_len : nat) (pooling_of : NewRequestData -> PoolingParams) (dev : Device M Z).
Context (extras : RunnerOutput Z -> SamplerExtras).

(** [execute_model] of the executor with one worker. The scheduler's output comes
    with the rows of the grammar bitmask ([masks]) if some request in it uses
    structured output, and with None otherwise. The engine core reads the attributes
    of what the worker returns, and there is nothing to read when that is None. *)
Definition worker_execute (out : SchedulerOutput) (w : Runner) : result (ModelRunnerOutput * Runner) :=
  '(o, w) ← WorkerStep.execute_model full wcfg arange_len pooling_of dev out (if decide (so_structured_output_request_ids out = ∅) then None else Some (masks out)) w;
  mo ← get_or AttributeError (runner_output (extras o) o);
  Ok (mo, w).

(** One batch at a time: a batch is executed when it is submitted. *)
Definition uniproc_executor : ModelExecutor Runner (result ModelRunnerOutput) := {|
  supports_pooling := fun _ _ => false;
  EngineCore.execute_model := worker_execute;
  submit_model := fun out w => match worker_execute out w with Ok (mo, w) => (Ok mo, w) | Err e => (Err e, w) end;
  future_result := fun f => f;
  take_draft_token_ids := fun w => (None, w)
|}.
End Worker.

(** * Lockstep *)

Section Lockstep.
Context {C G : Type} `{!KVConnector C, !StructuredOutput G, !NoGrammarNoAdvance G}.
Context (cfg : SchedConfig) (fs : string -> option Qc).
Context (bh : option hasher) (bs : Z) (caching : bool) `{!BlockHasher bh bs caching}.
Context `{HSO : !SetOrder} {M : Type} (full : M) (masks : SchedulerOutput -> list M) (wcfg : RunnerConfig) (arange_len : nat) (pooling_of : NewRequestData -> PoolingParams) (dev : Device M Z).
Context (extras : RunnerOutput Z -> SamplerExtras).

Abbreviation executor := (uniproc_executor full masks wcfg arange_len pooling_of dev extras).
Abbreviation Sched := (Scheduler C G).
Abbreviation Core := (EngineCore C G Runner (result ModelRunnerOutput)).
Abbreviation handle := (handle_client_request (ModelExecutor0 := executor) cfg fs).
Abbreviation process := (process_engine_step (ModelExecutor0 := executor) cfg bh fs).

(** Prompt logprobs come with the first token of a request. *)
Definition extras_ok : Prop := forall o id, tokens_of o id = [] -> ex_prompt_logprobs (extras o) !! id = None.

(** A new request as the front end makes it, that the worker accepts. *)
Definition acceptable (req : ClientRequest) : Prop :=
  match req with ADD _ _ r => served wcfg r /\ output_token_ids r = [] | _ => True end.

(** The states of a core that was started with scheduler [s0] and worker [w0]. *)
Inductive serving (s0 : Sched) (w0 : Runner) : Core -> Prop :=
| sv_start : serving s0 w0 (core_init s0 w0 1 false)
| sv_input e req e' : serving s0 w0 e -> admissible cfg fs bh bs caching req e -> acceptable req -> handle e req = Ok e' -> serving s0 w0 e'
| sv_step e t fin b e' : serving s0 w0 e -> process t fin e = Ok (b, e') -> serving s0 w0 e'.

(** What holds between two steps. *)
Record in_step (room : Z) (SH : list (nat * nat * Z * Z * Z)) (e : Core) : Prop := {
  is_inv : sched_inv cfg (ec_scheduler e);
  is_kv : kv_ok cfg fs bh bs caching room [] (ec_scheduler e);
  is_mirror : mirror cfg bs wcfg arange_len SH (fun _ => []) (ec_scheduler e) (model_executor e);
  is_runner : runner_ok wcfg ∅ (model_executor e);
  is_queue : batch_queue e = None;
  is_plain : use_spec_decode e = false
}.

Section Steps.
Context (room : Z) (SH : list (nat * nat * Z * Z * Z)).
Hypotheses (Hcfg : plain_config cfg) (Hsetup : worker_setup wcfg arange_len dev) (Hextras : extras_ok).

Abbreviation mirror := (Mirror.mirror cfg bs wcfg arange_len SH).
Abbreviation kv_ok := (Progress.kv_ok cfg fs bh bs caching room).

Lemma in_step_sched (e : Core) s : in_step room SH e -> sched_inv cfg s -> kv_ok [] s -> mirror (fun _ => []) s (model_executor e) -> in_step room SH (set_scheduler s e).
Proof. by intros [H1 H2 H3 H4 H5 H6] ???. Qed.

Lemma handle_in_step (e : Core) req : in_step room SH e -> admissible cfg fs bh bs caching req e -> acceptable req -> exists e', handle e req = Ok e' /\ in_step room SH e'.
Proof using Hcfg StructuredOutput0.
  intros HS Ha Hc. destruct (HS) as [HI HK HM _ _ _]. destruct req as [now o r|now ids| | |]; cbn [handle_client_request]; try done; [| | |by exists e].
  - destruct Ha as (Hn & Ho & Hid & Hp), Hc as [Hsv Hout]. unfold core_add_request. rewrite (pl_pooling _ _ _ _ _ (nw_plain _ _ _ _ _ _ Hn)). cbn [andb raise_if mbind result_bind].
    destruct (add_returns cfg fs bh bs caching room Hcfg now o r _ Hn Ho Hid Hp HI HK) as (s' & E & HI' & HK'). rewrite E. cbn [mbind result_bind].
    eexists. split; [done|]. apply in_step_sched; try done. by eapply add_mirror; [..|apply Hn|done|done|exact HI|exact E|].
  - unfold core_abort_requests. destruct (finish_returns cfg fs bh bs caching room now (remove_dups ids) FINISHED_ABORTED _ eq_refl (NoDup_remove_dups ids) HI HK) as (s' & E & HI' & HK').
    rewrite E. cbn [mbind result_bind]. eexists. split; [done|]. apply in_step_sched; try done. eapply finish_mirror; [| |exact HI|exact HK|exact E|exact HM]; [done|apply (NoDup_remove_dups ids)].
  - destruct (reset_returns cfg fs bh bs caching room _ HI HK) as (ok & s' & E & HI' & HK'). rewrite E. eexists. split; [done|].
    apply in_step_sched; try done. eapply reset_mirror; [exact HK|exact E|exact HM].
Qed.

(** What the scheduler sends in the next step. *)
Lemma next_sent now ts (s s1 : Sched) w out meta ev : sched_inv cfg s -> kv_ok [] s -> mirror (fun _ => []) s w -> schedule cfg now ts s = Ok (out, meta, ev, s1) ->
  sent cfg bs (tables w) s out s1 /\ sched_inv cfg s1 /\ kv_ok [] s1 /\ output_wf out.
Proof using Hcfg NoGrammarNoAdvance0.
  intros HI HK HM E. destruct (schedule_returns cfg fs bh bs caching room Hcfg now ts s HI HK) as (out' & meta' & ev' & s' & E' & HI1 & HK1 & Hwf).
  rewrite E in E'. injection E' as <- <- <- <-. split_and!; try done. eapply (schedule_sent cfg fs bh bs caching room Hcfg (tables w) now ts); try done.
  - apply (ag_groups _ _ _ _ _ _ (mi_agree _ _ _ _ _ _ _ _ HM)).
  - intros rid o r Hreg Hr Hst. by eapply mirror_tables.
Qed.

Lemma answer_generated ids index valid ex (mo : ModelRunnerOutput) id k toks : runner_output ex (Sampled ids index valid) = Some mo -> index !! id = Some k -> valid !! k = Some toks ->
  generated mo id toks.
Proof.
  intros [= <-] Hk Ht. exists (Z.of_nat k). cbn. rewrite lookup_fmap, Hk. split; [done|]. destruct valid as [|v l]; [done|]. by rewrite pyindex_nat, Ht.
Qed.

(** The batch is executed, and its tokens bring the scheduler back to its worker. *)
Lemma execute_in_step now (s s1 : Sched) w out : mirror (fun _ => []) s w -> runner_ok wcfg ∅ w -> sched_inv cfg s1 -> kv_ok [] s1 -> output_wf out -> sent cfg bs (tables w) s out s1 ->
  exists mo w', worker_execute full masks wcfg arange_len pooling_of dev extras out w = Ok (mo, w') /\ runner_ok wcfg ∅ w' /\
    exists outs s2, update_from_output cfg bh fs now out mo s1 = Ok (outs, s2) /\ sched_inv cfg s2 /\ kv_ok [] s2 /\ mirror (fun _ => []) s2 w'.
Proof using All.
  intros HM Hw HI1 HK1 Hwf HS. destruct (worker_executes cfg fs bh bs caching room Hcfg full wcfg arange_len pooling_of dev SH s s1 w out Hsetup HM Hw HK1 HS) as (o & w' & E & Hw' & HM' & Hno & Hcase).
  unfold worker_execute. rewrite (decide_True _ _ (proj2 (st_plain _ _ _ _ _ _ HS))), E. cbn [mbind result_bind].
  assert (Hmo : exists mo, runner_output (extras o) o = Some mo /\ model_output_wf out mo /\ forall id, id ∈ (so_num_scheduled_tokens out).*1 -> generated mo id (tokens_of o id)).
  { destruct Hcase as [[-> Hz]|(ids & index & valid & -> & Hidx)].
    - eexists. split; [done|]. rewrite Hz. split; [|by intros id ?%elem_of_nil]. split_and!; [done|done|]. intros kv Hkv. rewrite Hz in Hkv. by apply elem_of_nil in Hkv.
    - set (o := Sampled ids index valid) in *. destruct (runner_output (extras o) o) as [mo|] eqn:Emo; [|done]. exists mo. split; [done|].
      assert (Hg : forall id, id ∈ (so_num_scheduled_tokens out).*1 -> generated mo id (tokens_of o id)).
      { intros id Hid. destruct (Hidx id Hid) as (k & toks & Hk & Ht). eapply answer_generated; [exact Emo|exact Hk|]. cbn. rewrite Hk. cbn. by rewrite Ht. }
      split; [|exact Hg]. injection Emo as <-. split_and!; [done|done|]. intros kv Hkv. assert (Hid : kv.1 ∈ (so_num_scheduled_tokens out).*1) by (apply list_elem_of_fmap; by exists kv).
      destruct (Hg _ Hid) as (idx & Hi & Ht). exists idx, (tokens_of o kv.1). split_and!; try done. intros Hnil. cbn [prompt_logprobs_dict]. by apply Hextras. }
  destruct Hmo as (mo & -> & Hmwf & Hg). cbn [get_or mbind result_bind]. exists mo, w'. split_and!; try done.
  destruct (update_returns cfg fs bh bs caching room Hcfg now out mo s1 Hwf Hmwf HI1 HK1) as (outs & s2 & Eu & HI2 & HK2). exists outs, s2. split_and!; try done.
  eapply (update_mirror cfg fs bh bs caching room Hcfg wcfg arange_len SH (tokens_of o) now out mo s1 s2 w' outs); try done; [apply HS|].
  intros id oo r Hin Hreg Hr Hst. apply (st_keys _ _ _ _ _ _ HS) in Hin.
  assert (Hcar : forall nc r0, carried s s1 out id nc r0 -> status r = RUNNING) by (intros nc r0 Hcd; by apply (scheduled_running s s1 out id oo r nc r0)).
  apply elem_of_app in Hin as [Hin|Hin].
  - apply list_elem_of_fmap in Hin as (nr & -> & Hn). destruct (st_new _ _ _ _ _ _ HS nr Hn) as (r0 & Hcd & _). specialize (Hcar _ _ Hcd). congruence.
  - apply list_elem_of_lookup in Hin as [i Hi]. destruct (st_cached _ _ _ _ _ _ HS i id Hi) as (r0 & nc & nb & x & _ & _ & _ & Hcd & _). specialize (Hcar _ _ Hcd). congruence.
Qed.

Lemma process_in_step t fin (e : Core) : in_step room SH e -> exists b e', process t fin e = Ok (b, e') /\ in_step room SH e'.
Proof using All.
  intros HS. destruct (HS) as [HI HK HM Hw Hq Hp]. unfold process_engine_step. rewrite Hq. unfold step.
  destruct (negb (has_requests (ec_scheduler e))).
  { cbn [mbind result_bind]. unfold post_step. cbn. rewrite Hp. cbn. eexists _, _. split; [done|]. by split. }
  destruct (schedule_returns cfg fs bh bs caching room Hcfg (wall t) (monotonic t) _ HI HK) as (out & meta & ev & s1 & E1 & _). rewrite E1. cbn [mbind result_bind].
  destruct (next_sent _ _ _ _ _ _ _ _ HI HK HM E1) as (Hsent & HI1 & HK1 & Hwf).
  destruct (execute_in_step (wall_after t) _ _ _ _ HM Hw HI1 HK1 Hwf Hsent) as (mo & w' & E2 & Hw' & outs & s2 & E3 & HI2 & HK2 & HM2).
  cbn [EngineCore.execute_model uniproc_executor]. rewrite E2. cbn [mbind result_bind]. rewrite E3. cbn [mbind result_bind]. unfold post_step. cbn. rewrite Hp. cbn.
  eexists _, _. split; [done|]. by split.
Qed.

Lemma serving_in_step s0 w0 e : in_step room SH (core_init s0 w0 1 false) -> serving s0 w0 e -> in_step room SH e.
Proof using All.
  intros H0 HR. induction HR as [|e req e' _ IH Ha Hc E|e t fin b e' _ IH E]; [done|..].
  - destruct (handle_in_step e req IH Ha Hc) as (e1 & E1 & ?). rewrite E in E1. by injection E1 as <-.
  - destruct (process_in_step t fin e IH) as (b1 & e1 & E1 & ?). rewrite E in E1. by injection E1 as _ <-.
Qed.
End Steps.
End Lockstep.
