(* ===== verification/LockstepProps.v ===== *)
(** The engine core and its worker together, over every run from a fresh start:
    no step raises, the worker's requests, tokens and block tables are the
    scheduler's, the model gets the scheduled tokens, and no KV cell is written
    twice in a step. *)
From Stdlib Require Import ZArith Lia Ascii String QArith Qcanon.
From stdpp Require Import numbers gmap strings list.
From S2P Require Import Prelude FreeQueue Request BlockHash BlockPool KVSpec SingleType Coordinator KVCacheManager KVBacking KVStart TableCopy Ownership Capacity EncoderCache RequestQueue SchedState Scheduler SchedulerUpdate BlockTable InputBatch BatchInv LogitsProcs ModelRunner Reorder RunnerInv RunnerStep ModelInputs InputsSpec Bookkeeping GrammarBitmask BitmaskSpec WorkerStep WorkerRuns WorkerDemo WorkerProps Lifecycle SchedTerm LifecycleOps Progress EngineRuns SchedProps EngineProps EngineCore SchedPlan SchedSent Mirror MirrorWorker MirrorUpdate Lockstep.

Open Scope Z_scope.

(** * Deployments *)

Section Deployment.
Context {C G : Type} `{!KVConnector C, !StructuredOutput G, !NoGrammarNoAdvance G}.
Context (cfg : SchedConfig) (fs : string -> option Qc).
Context (bh : option hasher) (bs : Z) (caching : bool) `{!BlockHasher bh bs caching}.
Context `{HSO : !SetOrder} {M : Type} (full : M) (masks : SchedulerOutput -> list M) (wcfg : RunnerConfig) (arange_len : nat) (pooling_of : NewRequestData -> PoolingParams) (dev : Device M Z).
Context (extras : RunnerOutput Z -> SamplerExtras).
Context (kc : KVCacheConfig) (eagle use_int : bool) (dcp : Z) (k : KVCacheManager) (fd : option (list (Z * gset string))) (enc : EncoderCacheManager) (g : G).
Context (tables : list BlockTable) (garbage : SamplingRow).

Abbreviation Core := (EngineCore C G Runner (result ModelRunnerOutput)).
Abbreviation executor := (uniproc_executor full masks wcfg arange_len pooling_of dev extras).
Abbreviation handle := (handle_client_request (ModelExecutor0 := executor) cfg fs).
Abbreviation process := (process_engine_step (ModelExecutor0 := executor) cfg bh fs).

(** A scheduler and a worker that were set up for each other. *)
Record deployment : Prop := {
  dp_config : plain_config cfg;
  dp_block : 0 < bs;
  dp_kv : kvm_init kc (max_model_len cfg) caching eagle (log_stats cfg) false use_int dcp = Ok k;
  dp_groups : Forall (fun g => lookup_supported (kv_cache_spec g) dcp eagle /\ hit_block_size (kv_cache_spec g) dcp = bs) (kv_cache_groups kc);
  dp_many : zlen (kv_cache_groups kc) <= 2 ^ 32;
  dp_worker : worker_setup wcfg arange_len dev;
  dp_extras : extras_ok extras;
  dp_tables : Forall (table_ok (max_num_reqs (batch_config wcfg))) tables;
  dp_agree : agree cfg bs wcfg arange_len (shape <$> tables) k
}.

Definition fresh_scheduler : Scheduler C G := sched_start ∅ (create_request_queue (policy cfg)) fd enc k None g.
Definition fresh_worker : Runner := runner_init wcfg tables garbage.

(** The states that the engine core and its worker reach from a fresh start. *)
Definition reached (e : Core) : Prop := serving cfg fs bh bs caching full masks wcfg arange_len pooling_of dev extras fresh_scheduler fresh_worker e.

Lemma reached_in_step e : deployment -> reached e -> in_step cfg fs bh bs caching wcfg arange_len (room_of bs (max_model_len cfg) k) (shape <$> tables) e.
Proof using All.
  intros [D1 D2 D3 D4 D5 D6 D7 D8 D9] HR. eapply serving_in_step; [done|done|done| |exact HR]. split; cbn; try done.
  - apply (sched_start_inv (C := C) cfg ∅ fd enc k None g (pc_reqs _ D1)).
  - by apply (start_kv_ok (C := C) cfg fs bh bs caching _ D1 kc eagle use_int dcp k fd enc g).
  - by apply runner_init_ok.
Qed.

(** C1: For a plain deployment (a generating model on one worker that is the
    last pipeline stage, no batch queue; FCFS or MIMIR policy (not PRIORITY),
    synchronous scheduling, LoRA, KV connector and speculative decoding not
    configured; KV cache groups of supported attention types with one block
    size, and a collision-free block hasher when prefix caching is on; a worker
    whose batch, tables and buffers are as large as the scheduler's limits; a
    sampler that returns one token per row, and prompt logprobs only with
    tokens) and client messages other than an executor failure, whose new
    requests are text-generation requests without drafts, multi-modal inputs or
    structured output, with a fresh id, at least one and fewer than
    max_model_len tokens, and a tool_duration that is absent or converts to a
    number, and sampling parameters the worker accepts: in every state that the
    engine core and its worker reach from a fresh start, over every sequence of
    such messages and of engine steps and whichever tokens the device samples,
    the next such message is handled and the next step of the engine (schedule,
    execute_model of the worker, update_from_output) returns without raising. *)
Theorem engine_with_worker_never_raises e : deployment -> reached e ->
  (forall req, admissible cfg fs bh bs caching req e -> acceptable wcfg req -> exists e', handle e req = Ok e') /\
  (forall t fin, exists b e', process t fin e = Ok (b, e')).
Proof using All.
  intros HD HR. pose proof (reached_in_step e HD HR) as HS. destruct HD as [D1 D2 D3 D4 D5 D6 D7 D8 D9]. split.
  - intros req Ha Hc. destruct (handle_in_step cfg fs bh bs caching full masks wcfg arange_len pooling_of dev extras _ _ D1 e req HS Ha Hc) as (e' & ? & _). by exists e'.
  - intros t fin. destruct (process_in_step cfg fs bh bs caching full masks wcfg arange_len pooling_of dev extras _ _ D1 D6 D7 t fin e HS) as (b & e' & ? & _). by exists b, e'.
Qed.


(** A row of the batch has a request of the scheduler: its tokens, the positions
    that are scheduled, and its blocks. *)
Definition row_scheduled (s : Scheduler C G) (out : SchedulerOutput) (row : option string) (p : Work) : Prop :=
  exists id o r, row = Some id /\ requests s !! id = Some o /\ sched_store s !! o = Some r /\ dget id (so_num_scheduled_tokens out) = Some p.2 /\
    wk_tokens p = all_token_ids r /\ wk_start p + p.2 = num_computed_tokens r /\ copied (kv_cache_manager s) id (rs_block_ids (sl_state p.1)).

(** A step of the scheduler as its worker prepares it. *)
Record prepared (s : Scheduler C G) (out : SchedulerOutput) (w : Runner) (plan : list Work) (inp : ModelInputs) : Prop := {
  pp_inputs : prepare_inputs wcfg arange_len out (input_batch w) = Ok inp;
  pp_right : inputs_right wcfg (input_batch w) plan inp;
  pp_rows : Forall2 (row_scheduled s out) (req_ids_ (input_batch w)) plan;
  pp_work : Forall (work_ok (input_batch w)) plan;
  pp_once : forall i i' id, req_ids_ (input_batch w) !! i = Some (Some id) -> req_ids_ (input_batch w) !! i' = Some (Some id) -> i = i';
  pp_sizes : forall j t, block_table (input_batch w) !! j = Some t -> bt_block_size t = bs;
  pp_own : exists st, owned (kv_cache_manager s) st /\ forall id n o r, dget id (so_num_scheduled_tokens out) = Some n -> requests s !! id = Some o ->
    sched_store s !! o = Some r -> st id = Some ((num_computed_tokens r - n) / bs)
}.

Lemma step_prepared e now ts out meta ev s : deployment -> reached e -> schedule cfg now ts (ec_scheduler e) = Ok (out, meta, ev, s) -> so_total_num_scheduled_tokens out ≠ 0 ->
  exists w plan inp, update_states wcfg pooling_of out (model_executor e) = Ok w /\ prepared s out w plan inp.
Proof using All.
  intros HD HR E Hz. pose proof (reached_in_step e HD HR) as [HI HK HM Hw _ _]. destruct HD as [D1 _ _ _ _ D6 _ _ _]. destruct D6 as [W1 W2 W3 W4].
  set (room := room_of bs (max_model_len cfg) k) in *. destruct (next_sent cfg fs bh bs caching wcfg arange_len room (shape <$> tables) D1 now ts _ _ _ _ _ _ HI HK HM E) as (HS & HI1 & HK1 & _).
  pose proof (output_promised (M := M) cfg fs bh bs caching room D1 wcfg arange_len pooling_of (shape <$> tables) _ _ _ _ HM Hw HK1 HS) as [Hdl Hdm _].
  destruct (runner_planned wcfg arange_len pooling_of _ out W1 W2 W4 Hw Hdl Hdm Hz) as (w1 & plan & inp & Eu & HP & Ei & Hin & Hwk & _ & Honce). exists w1, plan, inp. split; [done|].
  destruct (update_states_spec wcfg pooling_of out _ W1 W2 Hw Hdl) as (S & w2 & Eu2 & Hr1 & _ & HKn & Hids & _ & Hsh & _). rewrite Eu in Eu2. injection Eu2 as <-.
  split; [done|done| |done|done| |apply (st_own _ _ _ _ _ _ HS)].
  - apply Forall2_same_length_lookup. split; [by apply Forall2_length in HP|]. intros i row p Er Ep. destruct (Forall2_lookup_lr _ _ _ _ _ _ HP Er Ep) as (id & c & -> & Hc & Esl & Hn).
    destruct (scheduled_known cfg bs wcfg arange_len pooling_of (shape <$> tables) (ec_scheduler e) s (model_executor e) w1 w1 out (fun _ => [])) with (id := id) (n := p.2) as (o & r & c' & Hreg & Hr & Hsv & Hc' & Hk & Hst & Hnc); try done.
    { intros x cx _. by rewrite app_nil_r, (kn_outs _ _ _ _ HKn). }
    { intros x Hx. unfold absent. destruct (req_id_to_index (input_batch w1) !! x) eqn:Ek; [|done]. destruct Hx. apply Hids. by eexists. }
    rewrite Hc in Hc'. injection Hc' as <-. exists id, o, r. destruct Hk as [K1 K2 K3 _]. unfold wk_tokens, wk_start, BatchInv.slot_tokens. rewrite Esl. cbn. rewrite K1, K2.
    unfold spec_of. rewrite (proj1 (st_plain _ _ _ _ _ _ HS)), lookup_empty. cbn. rewrite !app_nil_r, (sv_tokens _ _ Hsv). split_and!; try done. by apply K3.
  - intros j t Et. rewrite (mi_shapes _ _ _ _ _ _ _ _ HM) in Hsh. pose proof (ag_shapes _ _ _ _ _ _ (mi_agree _ _ _ _ _ _ _ _ HM)) as HF. rewrite <-Hsh in HF. unfold shapes in HF.
    destruct (Forall2_lookup_r _ _ _ j (shape t) HF) as (m & _ & Hs); [by rewrite list_lookup_fmap, Et|]. by destruct Hs as (_ & _ & -> & _).
Qed.

(** C3: In a plain deployment (as in C1: not PRIORITY, no LoRA, drafts,
    structured output, multi-modal inputs or connector, admissible messages),
    the model gets the scheduled tokens of the scheduler's requests: in every
    reachable state, when the scheduler schedules tokens, the worker applies the
    output and prepares the inputs, each row of its batch is one scheduled
    request with the tokens and the blocks that the scheduler has for it, and
    the tokens, positions, slots and logits rows are those from the first
    uncomputed token on. *)
Theorem model_gets_scheduled_tokens e now ts out meta ev s : deployment -> reached e -> schedule cfg now ts (ec_scheduler e) = Ok (out, meta, ev, s) -> so_total_num_scheduled_tokens out ≠ 0 ->
  exists w plan inp, update_states wcfg pooling_of out (model_executor e) = Ok w /\ prepare_inputs wcfg arange_len out (input_batch w) = Ok inp /\
    inputs_right wcfg (input_batch w) plan inp /\ Forall2 (row_scheduled s out) (req_ids_ (input_batch w)) plan.
Proof using All. intros HD HR E Hz. destruct (step_prepared _ _ _ _ _ _ _ HD HR E Hz) as (w & plan & inp & Eu & [P1 P2 P3 _ _ _ _]). by exists w, plan, inp. Qed.

(** The block of a position that is written, in one of the groups. *)
Lemma written_block s out w plan inp (j i : nat) (id : string) (p : Work) (pos x : Z) : prepared s out w plan inp -> req_ids_ (input_batch w) !! i = Some (Some id) -> plan !! i = Some p -> wk_start p <= pos < wk_start p + p.2 ->
  default [] (rs_block_ids (sl_state p.1) !! j) !! Z.to_nat (pos / bs) = Some x -> 0 < bs ->
  exists st0, (forall st, (forall id n o r, dget id (so_num_scheduled_tokens out) = Some n -> requests s !! id = Some o -> sched_store s !! o = Some r ->
      st id = Some ((num_computed_tokens r - n) / bs)) -> st id = Some st0) /\ st0 <= Z.of_nat (Z.to_nat (pos / bs)) /\
    exists b, manager_entry (kv_cache_manager s) j id (Z.to_nat (pos / bs)) = Some b /\ (b = PBlk 0 \/ b = PBlk (Z.to_nat x)).
Proof using Type.
  intros [_ _ P3 P4 _ _ _] Ei Ep Hpos Ex Hbs. destruct (Forall2_lookup_lr _ _ _ _ _ _ P3 Ei Ep) as (id' & o & r & [= <-] & Hreg & Hr & Hn & _ & Hsum & Hcp).
  exists (wk_start p / bs). assert (H0 : 0 <= wk_start p) by (apply (proj1 (Forall_lookup _ _) P4 _ _ Ep)). split_and!.
  - intros st Hst. rewrite (Hst _ _ _ _ Hn Hreg Hr). do 2 f_equal. lia.
  - rewrite Z2Nat.id by (apply Z.div_pos; lia). apply Z.div_le_mono; lia.
  - destruct (rs_block_ids (sl_state p.1) !! j) as [ids|] eqn:Ej; [|done]. cbn in Ex. destruct (Forall2_lookup_r _ _ _ _ _ Hcp Ej) as (m & Hm & Hrow).
    destruct (Forall2_lookup_r _ _ _ _ _ Hrow Ex) as (b & Eb & _ & Hb). exists b. split; [|done]. apply entry_Some. by exists m.
Qed.

(** Two positions whose tokens are written to the same block are in the same block
    of the same request and group. *)
Lemma written_once s out w plan inp (j j' i i' : nat) (p p' : Work) (pos pos' x : Z) : prepared s out w plan inp -> 0 < bs -> plan !! i = Some p -> wk_start p <= pos < wk_start p + p.2 ->
  plan !! i' = Some p' -> wk_start p' <= pos' < wk_start p' + p'.2 -> default [] (rs_block_ids (sl_state p.1) !! j) !! Z.to_nat (pos / bs) = Some x ->
  default [] (rs_block_ids (sl_state p'.1) !! j') !! Z.to_nat (pos' / bs) = Some x -> j = j' /\ i = i' /\ pos / bs = pos' / bs.
Proof using Type.
  intros HP Hbs Ep Hpos Ep' Hpos' Ex Ex'. destruct (pp_own _ _ _ _ _ HP) as (st & [O1 O2] & Hst).
  destruct (Forall2_lookup_r _ _ _ _ _ (pp_rows _ _ _ _ _ HP) Ep) as (row & Ei & id & o & r & -> & _), (Forall2_lookup_r _ _ _ _ _ (pp_rows _ _ _ _ _ HP) Ep') as (row' & Ei' & id' & o' & r' & -> & _).
  destruct (written_block _ _ _ _ _ j i id p pos x HP Ei Ep Hpos Ex Hbs) as (y & Hy & Hle & b & Eb & Hb), (written_block _ _ _ _ _ j' i' id' p' pos' x HP Ei' Ep' Hpos' Ex' Hbs) as (y' & Hy' & Hle' & b' & Eb' & Hb').
  specialize (Hy st Hst). specialize (Hy' st Hst). pose proof (O1 _ _ _ _ _ Hy Hle Eb) as N. pose proof (O1 _ _ _ _ _ Hy' Hle' Eb') as N'.
  destruct Hb as [?| ->]; [done|]. destruct Hb' as [?| ->]; [done|]. destruct (O2 _ _ _ _ _ _ _ _ _ Hy Hle Eb Hy' Hle' Eb') as (-> & <- & Hd). split_and!; [done|by eapply (pp_once _ _ _ _ _ HP)|].
  assert (0 <= wk_start p) by (apply (proj1 (Forall_lookup _ _) (pp_work _ _ _ _ _ HP) _ _ Ep)). assert (0 <= wk_start p') by (apply (proj1 (Forall_lookup _ _) (pp_work _ _ _ _ _ HP) _ _ Ep')).
  pose proof (Z.div_pos pos bs). pose proof (Z.div_pos pos' bs). lia.
Qed.

(** C4: In a plain deployment (as in C1: not PRIORITY, no LoRA, drafts,
    structured output, multi-modal inputs or connector, admissible messages), no
    KV cell is written twice in a step: in every reachable state, the slots of
    the scheduled tokens of all requests in all KV cache groups are different
    cells. *)
Theorem no_slot_written_twice e now ts out meta ev s : deployment -> reached e -> schedule cfg now ts (ec_scheduler e) = Ok (out, meta, ev, s) -> so_total_num_scheduled_tokens out ≠ 0 ->
  exists w inp, update_states wcfg pooling_of out (model_executor e) = Ok w /\ prepare_inputs wcfg arange_len out (input_batch w) = Ok inp /\
    length (in_slots inp) = length (block_table (input_batch w)) /\ NoDup (concat (in_slots inp)).
Proof using All.
  intros HD HR E Hz. pose proof (dp_block HD) as Hbs. destruct (step_prepared _ _ _ _ _ _ _ HD HR E Hz) as (w & plan & inp & Eu & HP). exists w, inp. split; [done|]. split; [apply HP|].
  destruct (ir_slots _ _ _ _ (pp_right _ _ _ _ _ HP)) as [Hlen HF]. split; [done|].
  assert (Hat : forall j l, in_slots inp !! j = Some l -> Some <$> l = slot_at bs j plan <$> row_positions plan).
  { intros j l El. destruct (block_table (input_batch w) !! j) as [t|] eqn:Et; [|apply lookup_ge_None in Et; apply lookup_lt_Some in El; lia].
    rewrite <-(pp_sizes _ _ _ _ _ HP j t Et). by apply slots_at, HF. }
  assert (Hinj : forall j j' i i' p p' pos pos' x, plan !! i = Some p -> wk_start p <= pos < wk_start p + p.2 -> token_slot bs (default [] (rs_block_ids (sl_state p.1) !! j)) pos = Some x ->
    plan !! i' = Some p' -> wk_start p' <= pos' < wk_start p' + p'.2 -> token_slot bs (default [] (rs_block_ids (sl_state p'.1) !! j')) pos' = Some x -> j = j' /\ (i, pos) = (i', pos')).
  { intros j j' i i' p p' pos pos' x Ep Hp Ex Ep' Hp' Ex'.
    assert (0 <= wk_start p) by (apply (proj1 (Forall_lookup _ _) (pp_work _ _ _ _ _ HP) _ _ Ep)). assert (0 <= wk_start p') by (apply (proj1 (Forall_lookup _ _) (pp_work _ _ _ _ _ HP) _ _ Ep')).
    destruct (token_slot_inj bs _ _ pos pos' x Hbs ltac:(lia) ltac:(lia) Ex Ex') as (b & B1 & B2 & Hmod).
    destruct (written_once _ _ _ _ _ _ _ _ _ _ _ _ _ _ HP Hbs Ep Hp Ep' Hp' B1 B2) as (-> & -> & Hdiv). split; [done|]. f_equal. pose proof (Z.div_mod pos bs). pose proof (Z.div_mod pos' bs). rewrite Hdiv, Hmod in *. lia. }
  apply concat_nodup.
  - intros j l El. apply (slots_nodup bs j plan l (Hat j l El)). intros i i' p p' pos pos' x Ep Hp Ex Ep' Hp' Ex'. by destruct (Hinj j j i i' p p' pos pos' x) as [_ ?].
  - intros j j' l l' x El El' Hx Hx'. destruct (slot_elem _ _ _ _ _ (Hat j l El) Hx) as (i & p & pos & Ep & Hp & Ex), (slot_elem _ _ _ _ _ (Hat j' l' El') Hx') as (i' & p' & pos' & Ep' & Hp' & Ex').
    by destruct (Hinj j j' i i' p p' pos pos' x) as [? _].
Qed.
End Deployment.

(** * A small deployment *)

(** The engine of [EngineProps] with a worker that samples the token 9 in every row. *)
#[local] Instance duo_order : SetOrder := {| set_order := elements; set_order_perm := fun X => reflexivity _ |}.

Definition duo_config : RunnerConfig := mkRunnerConfig (mkBatchConfig 8 64 100 false true) true 1 (Some 1) 1.
Definition duo_tables : list BlockTable := multi_init 8 64 16 [2] 2 1 0.
Definition duo_device : Device nat Z := mkDevice nat Z (fun inp _ => (1%nat, replicate (length (in_num_scheduled inp)) [9])) (fun _ => []).
Definition duo_masks (_ : SchedulerOutput) : list nat := [].
Definition duo_extras (_ : RunnerOutput Z) : SamplerExtras := mkExtras false ∅ None.

#[local] Instance duo_executor : ModelExecutor Runner (result ModelRunnerOutput) := uniproc_executor 0%nat duo_masks duo_config 16 demo_pooling duo_device duo_extras.

Definition DuoCore : Type := EngineCore Empty_set (gset string) Runner (result ModelRunnerOutput).
Definition duo_start (k : KVCacheManager) : DuoCore := core_init (engine_start k) (runner_init duo_config duo_tables demo_garbage) 1 false.
Definition duo_step (e : DuoCore) : result DuoCore :=
  '(_, e) ← process_engine_step engine_cfg (Some engine_hasher) (fun _ => None) (mkClock 0%Qc 0%Qc 0%Qc) false e; Ok e.

(** A request arrives, and the engine makes two steps. *)
Definition duo_run : result DuoCore :=
  k ← kvm_init engine_kv 64 true false false false false 1;
  e ← handle_client_request engine_cfg (fun _ => None) (duo_start k) (ADD 0%Qc 0 (engine_request "a" [1; 2; 3; 4; 5]));
  e ← duo_step e; duo_step e.

Lemma duo_agrees k : kvm_init engine_kv 64 true false false false false 1 = Ok k -> agree engine_cfg 2 duo_config 16 (shape <$> duo_tables) k.
Proof.
  intros E. observe E (fun k => (fun m => cdiv (Coordinator.slot_tokens m 64 0) 2) <$> managers k) [32]. observe E (fun k => num_gpu_blocks (kvm_pool k)) 40.
  destruct (managers k) as [|m ms] eqn:Em; [done|]. injection Hobs as H1 H2. apply fmap_nil_inv in H2 as ->.
  split; try done.
  - rewrite Em. cbn. apply Forall2_cons_2; [|by apply Forall2_nil_2]. split_and!; try done. change (max_model_len engine_cfg) with 64. rewrite H1. done.
  - by rewrite Hobs0.
  - by rewrite Em.
Qed.

Lemma duo_deployed k : kvm_init engine_kv 64 true false false false false 1 = Ok k ->
  deployment engine_cfg 2 true duo_config 16 duo_device duo_extras engine_kv false false 1 k duo_tables.
Proof.
  intros E. split; [apply engine_cfg_plain|done|exact E|apply engine_groups|by vm_compute| |done|apply multi_init_ok|by apply duo_agrees].
  - split; [done|intros t [= <-]; left; by vm_compute| |by vm_compute; lia]. intros inp gr n sampled [= <- <-]. split; [by rewrite length_replicate|]. intros i toks Et. unfold valid_tokens in Et. cbn in Et. apply lookup_replicate in Et as [-> _].
    split; [done|]. unfold zlen. cbn. lia.
Qed.

Lemma duo_reached e : duo_run = Ok e -> exists k, kvm_init engine_kv 64 true false false false false 1 = Ok k /\
  reached engine_cfg (fun _ => None) (Some engine_hasher) 2 true 0%nat duo_masks duo_config 16 demo_pooling duo_device duo_extras k None (enc_init 0) ∅ duo_tables demo_garbage e.
Proof.
  intros E. unfold duo_run in E. apply bind_Ok in E as (k & Ek & E). apply bind_Ok in E as (e1 & E1 & E). apply bind_Ok in E as (e2 & E2 & E3). exists k. split; [done|].
  apply bind_Ok in E2 as ([b2 e2'] & E2 & [= ->]). apply bind_Ok in E3 as ([b3 e3'] & E3 & [= ->]).
  eapply sv_step; [|exact E3]. eapply sv_step; [|exact E2]. eapply sv_input; [apply sv_start| | |exact E1].
  - split; [apply engine_request_new|]. split_and!; [done|done|]. by intros p rp ?%elem_of_nil.
  - split; [|done]. split; try done; [by intros sp toks [= <-]|by intros sp [= <-]].
Qed.

Lemma engine_with_worker_never_raises_witness : exists e b e', duo_run = Ok e /\ all_token_ids <$> sched_store (ec_scheduler e) !! 0%nat = Some [1; 2; 3; 4; 5; 9; 9] /\
  process_engine_step engine_cfg (Some engine_hasher) (fun _ => None) (mkClock 1%Qc 1%Qc 1%Qc) true e = Ok (b, e').
Proof.
  destruct (run_returns duo_run) as [e E]; [by vm_compute|]. exists e.
  observe E (fun x : DuoCore => all_token_ids <$> sched_store (ec_scheduler x) !! 0%nat) (Some [1; 2; 3; 4; 5; 9; 9]).
  destruct (duo_reached e E) as (k & Ek & HR).
  destruct (engine_with_worker_never_raises engine_cfg (fun _ => None) (Some engine_hasher) 2 true 0%nat duo_masks duo_config 16 demo_pooling duo_device duo_extras engine_kv false false 1 k None (enc_init 0) ∅ duo_tables
    demo_garbage e (duo_deployed k Ek) HR) as [_ Hstep].
  destruct (Hstep (mkClock 1%Qc 1%Qc 1%Qc) true) as (b & e' & Es). exists b, e'. split_and!; [exact E|exact Hobs|exact Es].
Defined.


(** The step after [duo_run] schedules the token that was sampled last. *)
Lemma duo_scheduled e out meta ev (s : Scheduler Empty_set (gset string)) : (e ← duo_run; x ← schedule engine_cfg 1%Qc 1%Qc (ec_scheduler e); Ok (e, x)) = Ok (e, (out, meta, ev, s)) ->
  duo_run = Ok e /\ schedule engine_cfg 1%Qc 1%Qc (ec_scheduler e) = Ok (out, meta, ev, s) /\ so_num_scheduled_tokens out = [("a"%string, 1)] /\ so_total_num_scheduled_tokens out ≠ 0 /\
  exists k, kvm_init engine_kv 64 true false false false false 1 = Ok k /\
    reached engine_cfg (fun _ => None) (Some engine_hasher) 2 true 0%nat duo_masks duo_config 16 demo_pooling duo_device duo_extras k None (enc_init 0) ∅ duo_tables demo_garbage e.
Proof.
  intros E. observe E (fun x : DuoCore * (SchedulerOutput * option ConnMeta * list KVCacheEvent * Scheduler Empty_set (gset string)) => so_num_scheduled_tokens x.2.1.1.1) [("a"%string, 1)].
  observe E (fun x : DuoCore * (SchedulerOutput * option ConnMeta * list KVCacheEvent * Scheduler Empty_set (gset string)) => so_total_num_scheduled_tokens x.2.1.1.1) 1.
  apply bind_Ok in E as (e' & Ee & E). apply bind_Ok in E as (x & Ex & E). injection E as -> ->. cbn in Hobs, Hobs0. split_and!; [done|done|done|by rewrite Hobs0|by apply duo_reached].
Qed.

Lemma model_gets_scheduled_tokens_witness : exists e out w plan inp, duo_run = Ok e /\ so_num_scheduled_tokens out = [("a"%string, 1)] /\
  update_states duo_config demo_pooling out (model_executor e) = Ok w /\ prepare_inputs duo_config 16 out (input_batch w) = Ok inp /\ inputs_right duo_config (input_batch w) plan inp.
Proof.
  destruct (run_returns (e ← duo_run; x ← schedule engine_cfg 1%Qc 1%Qc (ec_scheduler e); Ok (e, x))) as [[e [[[out meta] ev] s]] E]; [by vm_compute|].
  destruct (duo_scheduled e out meta ev s E) as (Ee & Ex & Hobs & Hz & k & Ek & HR). exists e, out.
  destruct (model_gets_scheduled_tokens engine_cfg (fun _ => None) (Some engine_hasher) 2 true 0%nat duo_masks duo_config 16 demo_pooling duo_device duo_extras engine_kv false false 1 k None (enc_init 0) ∅ duo_tables
    demo_garbage e 1%Qc 1%Qc out meta ev s (duo_deployed k Ek) HR Ex Hz) as (w & plan & inp & Eu & Ei & Hin & _).
  exists w, plan, inp. split_and!; [exact Ee|exact Hobs|exact Eu|exact Ei|exact Hin].
Defined.

Lemma no_slot_written_twice_witness : exists e out w inp, duo_run = Ok e /\ so_num_scheduled_tokens out = [("a"%string, 1)] /\
  update_states duo_config demo_pooling out (model_executor e) = Ok w /\ prepare_inputs duo_config 16 out (input_batch w) = Ok inp /\ NoDup (concat (in_slots inp)).
Proof.
  destruct (run_returns (e ← duo_run; x ← schedule engine_cfg 1%Qc 1%Qc (ec_scheduler e); Ok (e, x))) as [[e [[[out meta] ev] s]] E]; [by vm_compute|].
  destruct (duo_scheduled e out meta ev s E) as (Ee & Ex & Hobs & Hz & k & Ek & HR). exists e, out.
  destruct (no_slot_written_twice engine_cfg (fun _ => None) (Some engine_hasher) 2 true 0%nat duo_masks duo_config 16 demo_pooling duo_device duo_extras engine_kv false false 1 k None (enc_init 0) ∅ duo_tables
    demo_garbage e 1%Qc 1%Qc out meta ev s (duo_deployed k Ek) HR Ex Hz) as (w & inp & Eu & Ei & _ & Hnd).
  exists w, inp. split_and!; [exact Ee|exact Hobs|exact Eu|exact Ei|exact Hnd].
Defined.
