(* ===== verification/LengthLimit.v ===== *)
(** The front end's check of a prompt (v1/engine/processor.py), and what becomes of
    the longest prompt that it accepts. *)
From Stdlib Require Import ZArith Lia Ascii String QArith Qcanon.
From stdpp Require Import numbers gmap strings list.
From S2P Require Import Prelude FreeQueue Request BlockHash BlockPool KVSpec SingleType Coordinator KVCacheManager EncoderCache RequestQueue SchedState Scheduler SchedulerUpdate BlockTable InputBatch ModelRunner ModelInputs WorkerStep WorkerRuns WorkerDemo SchedProps EngineProps EngineCore Lockstep LockstepProps.

Open Scope Z_scope.

(** * The check *)

(** The configuration that the check reads; [max_token_id] is that of the tokenizer,
    if there is one. *)
Record InputLimits := mkLimits {
  is_multimodal_model : bool;
  pad_dummy_encoder_prompt : bool;
  max_token_id : option Z;
  vocab_size : Z;
  max_prompt_len : Z
}.

Definition max_input_id (prompt_ids : list Z) : Z :=
  match prompt_ids with [] => 0 | x :: l => foldl Z.max x l end.

(** [_validate_model_input]; [encoder] is [prompt_type == "encoder"]. *)
Definition validate_model_input (lim : InputLimits) (encoder : bool) (prompt_ids : list Z) : result unit :=
  let lenient := encoder && is_multimodal_model lim in
  _ ← raise_if ((length prompt_ids =? 0)%nat && negb lenient) ValueError;
  _ ← (match max_token_id lim with
       | None => Ok tt
       | Some t => raise_if (Z.max t (vocab_size lim - 1) <? max_input_id prompt_ids) ValueError
       end);
  raise_if ((max_prompt_len lim <? zlen prompt_ids) && negb (lenient && pad_dummy_encoder_prompt lim)) ValueError.

(** [_validate_model_inputs]: the encoder's prompt, if there is one, and the decoder's. *)
Definition validate_model_inputs (lim : InputLimits) (encoder_ids : option (list Z)) (decoder_ids : list Z) : result unit :=
  _ ← (match encoder_ids with None => Ok tt | Some ids => validate_model_input lim true ids end);
  validate_model_input lim false decoder_ids.

Lemma foldl_max x l : x <= foldl Z.max x l /\ Forall (fun t => t <= foldl Z.max x l) l.
Proof.
  revert x. induction l as [|y l IH]; intros x; cbn; [by split; [lia|constructor]|]. destruct (IH (Z.max x y)) as [H1 H2]. split; [lia|]. constructor; [lia|done].
Qed.

Lemma foldl_max_bound b x l : foldl Z.max x l <= b <-> x <= b /\ Forall (fun t => t <= b) l.
Proof.
  revert x. induction l as [|y l IH]; intros x; cbn; [rewrite Forall_nil; tauto|]. rewrite IH, Forall_cons. split; [intros [? ?]|intros (? & ? & ?)]; split_and?; try done; lia.
Qed.

(** A decoder prompt is accepted if and only if it is not empty, its tokens are in
    the vocabulary and it is at most as long as the model. *)
Theorem validate_accepts lim ids : validate_model_inputs lim None ids = Ok tt <->
  ids ≠ [] /\ zlen ids <= max_prompt_len lim /\ (forall t, max_token_id lim = Some t -> Forall (fun x => x <= Z.max t (vocab_size lim - 1)) ids).
Proof.
  unfold validate_model_inputs, validate_model_input. destruct ids as [|x l]; [cbn; naive_solver|]. cbn [mbind result_bind andb negb length Nat.eqb raise_if max_input_id]. rewrite andb_true_r.
  destruct (max_token_id lim) as [t|]; cbn [mbind result_bind].
  - assert (Hb : (Z.max t (vocab_size lim - 1) <? foldl Z.max x l) = false <-> Forall (fun y => y <= Z.max t (vocab_size lim - 1)) (x :: l)) by (rewrite Z.ltb_ge, foldl_max_bound, Forall_cons; done).
    destruct (_ <? foldl Z.max x l) eqn:E; cbn.
    + split; [done|]. intros (_ & _ & H). by specialize (proj2 Hb (H t eq_refl)).
    + destruct (max_prompt_len lim <? _) eqn:E2; [apply Z.ltb_lt in E2; split; [done|intros (_ & ? & _); lia]|apply Z.ltb_ge in E2]. cbn. split; [|done]. intros _. split_and!; try done. intros t' [= <-]. by apply Hb.
  - destruct (max_prompt_len lim <? _) eqn:E2; [apply Z.ltb_lt in E2; split; [done|intros (_ & ? & _); lia]|apply Z.ltb_ge in E2]. cbn. by split.
Qed.

(** * A prompt of the maximal length *)

#[local] Instance limit_order : SetOrder := {| set_order := elements; set_order_perm := fun X => reflexivity _ |}.

(** An engine for sequences of 64 tokens that schedules [budget] tokens per step gets
    the prompt [ids] and makes [steps] steps. *)
Definition limit_run (budget : Z) (ids : list Z) (steps : nat) : result DuoCore :=
  let executor := uniproc_executor 0%nat duo_masks duo_config 64 demo_pooling duo_device duo_extras in
  k ← kvm_init engine_kv 64 false false false false false 1;
  e ← handle_client_request (ModelExecutor0 := executor) (demo_cfg MIMIR budget) (fun _ => None)
        (core_init (engine_start k) (runner_init duo_config (multi_init 8 64 64 [2] 2 1 0) demo_garbage) 1 false) (ADD 0%Qc 0 (demo_request "a" ids []));
  Nat.iter steps (fun r => e ← r; '(_, e) ← process_engine_step (ModelExecutor0 := executor) (demo_cfg MIMIR budget) None (fun _ => None) (mkClock 0%Qc 0%Qc 0%Qc) false e; Ok e) (Ok e).

Definition limit_view (e : DuoCore) : option (RequestStatus * Z * list Z) :=
  (fun r => (status r, num_computed_tokens r, output_token_ids r)) <$> sched_store (ec_scheduler e) !! 0%nat.

Lemma limit_run_S budget ids n : limit_run budget ids (S n) = (e ← limit_run budget ids n;
  '(_, e) ← process_engine_step (ModelExecutor0 := uniproc_executor 0%nat duo_masks duo_config 64 demo_pooling duo_device duo_extras) (demo_cfg MIMIR budget) None (fun _ => None) (mkClock 0%Qc 0%Qc 0%Qc) false e; Ok e).
Proof. unfold limit_run. destruct (kvm_init _ _ _ _ _ _ _ _) as [k|]; [|done]. cbn [mbind result_bind]. by destruct (handle_client_request _ _ _ _). Qed.

(** A prompt of exactly the maximal length is accepted. Computed in one step, its
    first token does not fit into the worker's row and the step raises; computed in
    chunks, its last token is never scheduled, and the request stays for ever. *)
Theorem full_length_prompt_fails : let ids := seqZ 1 64 in
  validate_model_inputs (mkLimits false false (Some 100) 100 64) None ids = Ok tt /\ limit_run 64 ids 1 = Err AssertionError /\
  exists e, limit_view e = Some (RUNNING, 63, []) /\ forall n, limit_run 60 ids (3 + n) = Ok e.
Proof.
  split; [done|]. split; [by vm_compute|]. destruct (run_returns (limit_run 60 (seqZ 1 64) 3)) as [e E]; [by vm_compute|]. observe E limit_view (Some (RUNNING, 63, [] : list Z)).
  exists e. split; [done|]. induction n as [|n IH]; [done|]. assert (H : limit_run 60 (seqZ 1 64) 4 = limit_run 60 (seqZ 1 64) 3) by (vm_compute; reflexivity).
  rewrite limit_run_S, E in H. change (3 + S n)%nat with (S (3 + n)). by rewrite limit_run_S, IH.
Qed.

(** One token less is served: the engine samples one token, and the sequence is full. *)
Theorem almost_full_prompt_served : exists e, limit_run 64 (seqZ 1 63) 1 = Ok e /\ limit_view e = Some (FINISHED_LENGTH_CAPPED, 63, [9]).
Proof.
  destruct (run_returns (limit_run 64 (seqZ 1 63) 1)) as [e E]; [by vm_compute|]. exists e. observe E limit_view (Some (FINISHED_LENGTH_CAPPED, 63, [9])). split; [exact E|exact Hobs].
Qed.
