(* ===== verification/DataParallel.v ===== *)
(** Data-parallel deployments: the engine processes ([DPEngineCoreProc] of
    src/vllm/v1/engine/core.py), the coordinator ([DPCoordinatorProc] of
    src/vllm/v1/engine/coordinator.py) and the clients ([DPAsyncMPClient] and
    [DPLBAsyncMPClient] of src/vllm/v1/engine/core_client.py). The engines run in
    waves: all of them execute forward passes until none has requests. *)
From Stdlib Require Import ZArith Lia Ascii String QArith Qcanon.
From stdpp Require Import numbers gmap strings list.
From S2P Require Import Prelude Request BlockHash RequestQueue SchedState Scheduler SchedulerUpdate EngineCore.

Open Scope Z_scope.

(** * Messages *)

(** How a message names an engine: clients use the two bytes of its socket
    identity, engines and coordinator the index. In Python the two are never equal. *)
Inductive EngineId :=
| Identity (rank : nat)
| Index (rank : nat).

#[export] Instance EngineId_eq_dec : EqDecision EngineId.
Proof. solve_decision. Defined.

(** To an engine: the messages of [EngineCoreProc], with the wave of the client that
    sends a request, and the coordinator's. *)
Inductive DPMessage :=
| ClientMessage (request_wave : Z) (req : ClientRequest)
| START_DP_WAVE (new_wave : Z) (exclude_eng_index : option EngineId).

Record DPStats := mkDPStats {
  dps_running : Z;
  dps_waiting : Z;
  dps_step_counter : Z;
  dps_current_wave : Z
}.

(** What an [EngineCoreOutputs] for the coordinator can have. *)
Record DPOutputs := mkDPOutputs {
  dpo_scheduler_stats : option DPStats;
  dpo_wave_complete : option Z;
  dpo_start_wave : option Z
}.

Definition stats_output (st : DPStats) : DPOutputs := mkDPOutputs (Some st) None None.
Definition wave_complete_output (w : Z) : DPOutputs := mkDPOutputs None (Some w) None.
Definition start_wave_output (w : Z) : DPOutputs := mkDPOutputs None None (Some w).

(** From a client to the coordinator. *)
Inductive FrontMessage :=
| FirstRequest (engine_to_exclude : EngineId) (wave : Z)
| ScaleElasticEP (new_engine_count : nat).

(** From the coordinator to the clients: [waiting, running] of each engine, the wave
    and whether the engines are running. *)
Record Update := mkUpdate {
  up_counts : option (list (Z * Z));
  up_wave : Z;
  up_running : bool
}.

(** * Engines *)

Section Engine.
Context {C G X Fut : Type} `{!KVConnector C, !StructuredOutput G, !ModelExecutor X Fut}.
Context (cfg : SchedConfig) (block_hasher : option hasher) (float_of_string : string -> option Qc).
Context (has_coordinator publish_dp_lb_stats : bool) (execute_dummy_batch : X -> result X).

(** [dp_outputs] are the entries of the output queue that are not answers to
    requests, with the index of the receiver: -1 is the coordinator. *)
Record DPEngine := mkDPEngine {
  dp_core : EngineCore C G X Fut;
  dp_rank : nat;
  dp_wave : Z;
  step_counter : Z;
  last_counts : Z * Z;
  dp_outputs : list (Z * DPOutputs)
}.

(** Where the busy loop is: at its head, or waiting for the other engines in the
    all-reduce. *)
Inductive LoopPhase :=
| Looping
| Reducing (local_unfinished : bool).

#[export] Instance LoopPhase_eq_dec : EqDecision LoopPhase.
Proof. solve_decision. Defined.

Definition set_core (e : EngineCore C G X Fut) (d : DPEngine) : DPEngine := mkDPEngine e (dp_rank d) (dp_wave d) (step_counter d) (last_counts d) (dp_outputs d).
Definition set_wave (w : Z) (d : DPEngine) : DPEngine := mkDPEngine (dp_core d) (dp_rank d) w (step_counter d) (last_counts d) (dp_outputs d).
Definition set_counter (n : Z) (d : DPEngine) : DPEngine := mkDPEngine (dp_core d) (dp_rank d) (dp_wave d) n (last_counts d) (dp_outputs d).
Definition set_counts (c : Z * Z) (d : DPEngine) : DPEngine := mkDPEngine (dp_core d) (dp_rank d) (dp_wave d) (step_counter d) c (dp_outputs d).
Definition put_output (o : Z * DPOutputs) (d : DPEngine) : DPEngine := mkDPEngine (dp_core d) (dp_rank d) (dp_wave d) (step_counter d) (last_counts d) (dp_outputs d ++ [o]).

Definition set_core_running (b : bool) (e : EngineCore C G X Fut) : EngineCore C G X Fut :=
  mkCore (ec_scheduler e) (model_executor e) (batch_queue_size e) (batch_queue e) (use_spec_decode e) b (output_queue e).
Definition set_dp_running (b : bool) (d : DPEngine) : DPEngine := set_core (set_core_running b (dp_core d)) d.
Definition dp_running (d : DPEngine) : bool := engines_running (dp_core d).

Definition dp_init (rank : nat) (e : EngineCore C G X Fut) : DPEngine := mkDPEngine e rank 0 0 (0, 0) [].

(** [add_request]: a request for a later wave moves the engine there; one for a wave
    that is over makes a paused engine ask for the next one. *)
Definition dp_add_request (request_wave : Z) (now : Qc) (o : nat) (r : Request) (d : DPEngine) : result DPEngine :=
  let d :=
    if has_coordinator && negb (request_wave =? dp_wave d) then
      if dp_wave d <? request_wave then set_wave request_wave d
      else if negb (dp_running d) then put_output (-1, start_wave_output (dp_wave d)) d
      else d
    else d in
  e ← core_add_request cfg now o r (dp_core d);
  Ok (set_core e d).

(** [_handle_client_request]. *)
Definition dp_handle_client_request (d : DPEngine) (msg : DPMessage) : result DPEngine :=
  match msg with
  | START_DP_WAVE new_wave exclude =>
      if negb (bool_decide (exclude = Some (Index (dp_rank d)))) && (dp_wave d <=? new_wave) then
        let d := set_wave new_wave d in
        Ok (if negb (dp_running d) then set_dp_running true d else d)
      else Ok d
  | ClientMessage request_wave (ADD now o r) => dp_add_request request_wave now o r d
  | ClientMessage _ req => e ← handle_client_request cfg float_of_string (dp_core d) req; Ok (set_core e d)
  end.

(** [_maybe_publish_request_counts]. *)
Definition maybe_publish_request_counts (d : DPEngine) : DPEngine :=
  if negb publish_dp_lb_stats then d else
  let counts := get_request_counts (ec_scheduler (dp_core d)) in
  if bool_decide (counts = last_counts d) then d else
  put_output (-1, stats_output (mkDPStats counts.1 counts.2 (step_counter d) (dp_wave d))) (set_counts counts d).

(** [run_busy_loop] from the step to the all-reduce of
    [_has_global_unfinished_reqs], which takes place every 32 steps. *)
Definition dp_step (t : Clock) (fin : bool) (d : DPEngine) : result (DPEngine * LoopPhase) :=
  '(executed, e) ← process_engine_step cfg block_hasher float_of_string t fin (dp_core d);
  let d := maybe_publish_request_counts (set_core e d) in
  let local_unfinished_reqs := has_unfinished_requests (ec_scheduler (dp_core d)) in
  if negb executed && negb local_unfinished_reqs && negb (dp_running d) then Ok (d, Looping) else
  x ← (if executed then Ok (model_executor (dp_core d)) else execute_dummy_batch (model_executor (dp_core d)));
  let d := set_counter (step_counter d + 1) (set_core (set_executor x (dp_core d)) d) in
  if negb (step_counter d mod 32 =? 0) then Ok (set_dp_running true d, Looping)
  else Ok (d, Reducing local_unfinished_reqs).

(** The end of an iteration, with the result of the all-reduce. *)
Definition dp_resume (global_unfinished : bool) (d : DPEngine) : DPEngine :=
  let d := set_dp_running global_unfinished d in
  if global_unfinished then d else
  let d := if (dp_rank d =? 0)%nat || negb has_coordinator
           then put_output (if has_coordinator then -1 else 0, wave_complete_output (dp_wave d)) d else d in
  set_counter 0 (set_wave (dp_wave d + 1) d).
End Engine.
Arguments DPEngine C G X Fut : clear implicits.

(** [has_unfinished_dp]: the maximum over all engines, as a boolean. *)
Definition has_unfinished_dp (locals : list bool) : bool := negb (foldl Z.max 0 (Z.b2z <$> locals) =? 0).

(** * The coordinator *)

(** The state of [process_input_socket]; an engine's entry is [waiting, running]. *)
Record DPCoordinator := mkCoordinator {
  co_engines : list (Z * Z);
  co_wave : Z;
  co_running : bool;
  stats_changed : bool;
  last_stats_step : Z;
  last_stats_wave : Z;
  last_step_counts : option (list (Z * Z))
}.

Definition coordinator_init (engine_count : nat) : DPCoordinator := mkCoordinator (replicate engine_count (0, 0)) 0 false false (-1) (-1) None.

Definition set_co_engines (l : list (Z * Z)) (c : DPCoordinator) : DPCoordinator :=
  mkCoordinator l (co_wave c) (co_running c) (stats_changed c) (last_stats_step c) (last_stats_wave c) (last_step_counts c).
Definition set_co_wave (w : Z) (b : bool) (c : DPCoordinator) : DPCoordinator :=
  mkCoordinator (co_engines c) w b (stats_changed c) (last_stats_step c) (last_stats_wave c) (last_step_counts c).

(** A timeout of the poller: the counts of the last complete step, or the current
    ones, are published. *)
Definition coordinator_timeout (c : DPCoordinator) : DPCoordinator * Update :=
  match last_step_counts c with
  | Some counts => (mkCoordinator (co_engines c) (co_wave c) (co_running c) (stats_changed c) (last_stats_step c) (last_stats_wave c) None, mkUpdate (Some counts) (co_wave c) (co_running c))
  | None => (mkCoordinator (co_engines c) (co_wave c) (co_running c) false (last_stats_step c) (last_stats_wave c) None, mkUpdate (Some (co_engines c)) (co_wave c) (co_running c))
  end.

(** A START_DP_WAVE broadcast. *)
Definition StartWave : Type := Z * option EngineId.

(** [SCALE_ELASTIC_EP]. *)
Definition coordinator_scale (n : nat) (c : DPCoordinator) : DPCoordinator :=
  if (length (co_engines c) <? n)%nat
  then set_co_wave (co_wave c) false (set_co_engines (co_engines c ++ replicate (n - length (co_engines c)) (0, 0)) c)
  else set_co_engines (take n (co_engines c)) c.

(** A request was sent while the engines were paused; the flag is
    [wave_state_changed]. *)
Definition coordinator_first (engine_to_exclude : EngineId) (wave : Z) (c : DPCoordinator) : DPCoordinator * list StartWave * bool :=
  if negb (co_running c) then
    (set_co_wave (co_wave c) true c, [(co_wave c, if wave <? co_wave c then None else Some engine_to_exclude)], true)
  else (c, [], false).

(** Load statistics from an engine. *)
Definition coordinator_stats (eng_index : nat) (st : DPStats) (c : DPCoordinator) : result DPCoordinator :=
  _ ← get_or IndexError (co_engines c !! eng_index);
  let newer := (last_stats_wave c <? dps_current_wave st) || (dps_current_wave st =? last_stats_wave c) && (last_stats_step c <? dps_step_counter st) in
  Ok (mkCoordinator (<[eng_index := (dps_waiting st, dps_running st)]> (co_engines c)) (co_wave c) (co_running c) true
        (if newer then dps_step_counter st else last_stats_step c) (if newer then dps_current_wave st else last_stats_wave c)
        (if newer && stats_changed c then Some (co_engines c) else last_step_counts c)).

(** The waves of an engine's message. *)
Definition coordinator_waves (eng_index : nat) (out : DPOutputs) (c : DPCoordinator) : DPCoordinator * list StartWave * bool :=
  match dpo_wave_complete out with
  | Some wave => if co_wave c <=? wave then (set_co_wave (wave + 1) false c, [], true) else (c, [], false)
  | None =>
      match dpo_start_wave out with
      | Some wave =>
          if (co_wave c <? wave) || (wave =? co_wave c) && negb (co_running c)
          then (set_co_wave wave true c, [(wave, Some (Index eng_index))], true)
          else (c, [], false)
      | None => (c, [], false)
      end
  end.

Definition coordinator_output (eng_index : nat) (out : DPOutputs) (c : DPCoordinator) : result (DPCoordinator * list StartWave * bool) :=
  c ← (match dpo_scheduler_stats out with Some st => coordinator_stats eng_index st c | None => Ok c end);
  Ok (coordinator_waves eng_index out c).

(** One iteration with the messages that the poller found. *)
Definition coordinator_iteration (front : option FrontMessage) (back : option (nat * DPOutputs)) (c : DPCoordinator)
  : result (DPCoordinator * list StartWave * option Update) :=
  match front with
  | Some (ScaleElasticEP n) => Ok (coordinator_scale n c, [], None)
  | _ =>
      let '(c, starts, changed) := (match front with Some (FirstRequest x w) => coordinator_first x w c | _ => (c, [], false) end) in
      '(c, starts', changed') ← (match back with Some (i, out) => coordinator_output i out c | None => Ok (c, [], false) end);
      Ok (c, starts ++ starts', if changed || changed' then Some (mkUpdate None (co_wave c) (co_running c)) else None)
  end.

(** * Clients *)

(** [fr_first] are the FIRST_REQ messages to the task that talks to the
    coordinator. *)
Record Client := mkClient {
  fr_wave : Z;
  fr_running : bool;
  fr_counts : list (Z * Z);
  fr_first : list nat
}.

Definition client_init (num_engines : nat) : Client := mkClient 0 false (replicate num_engines (0, 0)) [].

(** [DPLBAsyncMPClient.get_core_engine_for_request]: the loop over the engines, from
    [eng_start_index] on, and the new counts. *)
Definition better_engine (start : nat) (counts : list (Z * Z)) (best : Z * nat) (i : nat) : result (Z * nat) :=
  let idx := ((start + i) mod length counts)%nat in
  c ← get_or IndexError (counts !! idx);
  let score := c.1 * 4 + c.2 in
  Ok (if score <? best.1 then (score, idx) else best).

Definition sys_maxsize : Z := 2 ^ 63 - 1.

Definition get_core_engine_for_request (data_parallel_rank : option nat) (start : nat) (client_count : Z) (f : Client) : result (nat * Client) :=
  match data_parallel_rank with
  | Some i => Ok (i, f)
  | None =>
      '(_, i) ← foldM (better_engine start (fr_counts f)) (sys_maxsize, 0%nat) (seq 0 (length (fr_counts f)));
      c ← get_or IndexError (fr_counts f !! i);
      Ok (i, mkClient (fr_wave f) (fr_running f) (<[i := (c.1 + client_count, c.2)]> (fr_counts f)) (fr_first f))
  end.

(** [add_request_async] for the chosen engine: the wave of the message to it, and the
    client, which notes a FIRST_REQ if the engines are paused. *)
Definition add_request_async (engine : nat) (f : Client) : Z * Client :=
  (fr_wave f, mkClient (fr_wave f) (fr_running f) (fr_counts f) (if fr_running f then fr_first f else fr_first f ++ [engine])).

(** [run_engine_stats_update_task]: a FIRST_REQ, and the latest update; the client
    manages the engines from rank [first] to rank [last]. *)
Definition send_first_request (f : Client) : option (FrontMessage * Client) :=
  match fr_first f with
  | [] => None
  | i :: l => Some (FirstRequest (Identity i) (fr_wave f), mkClient (fr_wave f) true (fr_counts f) l)
  end.

Definition apply_update (first last : nat) (u : Update) (f : Client) : Client :=
  mkClient (up_wave u) (up_running u) (match up_counts u with Some counts => take (last + 1 - first) (drop first counts) | None => fr_counts f end) (fr_first f).

(** * The load balancer *)

Definition engine_score (c : Z * Z) : Z := c.1 * 4 + c.2.

Lemma better_engines start counts l : counts ≠ [] -> forall m0 i0, exists m i, foldM (better_engine start counts) (m0, i0) l = Ok (m, i) /\ m <= m0 /\
  (forall x c, x ∈ l -> counts !! ((start + x) mod length counts)%nat = Some c -> m <= engine_score c) /\ ((m, i) = (m0, i0) \/ exists c, counts !! i = Some c /\ m = engine_score c).
Proof.
  intros Hne. assert (Hlen : length counts ≠ 0%nat) by (by destruct counts). induction l as [|x l IH]; intros m0 i0; cbn; [exists m0, i0; split_and!; try done; [by intros ?? ?%elem_of_nil|by left]|].
  unfold better_engine at 2. cbv zeta. set (idx := ((start + x) mod length counts)%nat) in *. destruct (lookup_lt_is_Some_2 counts idx) as [c Hc]; [by apply Nat.mod_upper_bound|]. rewrite Hc. cbn [get_or mbind result_bind fst].
  fold (engine_score c). destruct (engine_score c <? m0) eqn:El; [destruct (IH (engine_score c) idx) as (m & i & E & Hm & Hall & Hi)|destruct (IH m0 i0) as (m & i & E & Hm & Hall & Hi)]; exists m, i; rewrite E; (split_and!; [done| | |]).
  - apply Z.ltb_lt in El. lia.
  - intros y c' [->|Hy]%elem_of_cons Hc'; [fold idx in Hc'; rewrite Hc in Hc'; by injection Hc' as <-|by eapply Hall].
  - destruct Hi as [[= -> ->]|?]; [right; by exists c|by right].
  - done.
  - apply Z.ltb_ge in El. intros y c' [->|Hy]%elem_of_cons Hc'; [fold idx in Hc'; rewrite Hc in Hc'; injection Hc' as <-; lia|by eapply Hall].
  - done.
Qed.

Lemma all_engines (n start j : nat) : (j < n)%nat -> exists x, x ∈ seq 0 n /\ ((start + x) mod n)%nat = j.
Proof.
  intros Hj. exists ((j + (n - start mod n)) mod n)%nat. assert (n ≠ 0%nat) by lia. pose proof (Nat.mod_upper_bound start n ltac:(done)). split; [apply elem_of_seq; pose proof (Nat.mod_upper_bound (j + (n - start mod n)) n); lia|].
  rewrite Nat.Div0.add_mod_idemp_r. rewrite <-Nat.Div0.add_mod_idemp_l. replace (start mod n + (j + (n - start mod n)))%nat with (j + 1 * n)%nat by lia. rewrite Nat.Div0.mod_add. by apply Nat.mod_small.
Qed.

(** The balancer chooses an engine with the least load, four times the waiting
    requests and the running ones, and adds [client_count] to what waits there. *)
Theorem balancer_chooses_least start count (f : Client) : fr_counts f ≠ [] -> Forall (fun c => engine_score c < sys_maxsize) (fr_counts f) ->
  exists i c f', get_core_engine_for_request None start count f = Ok (i, f') /\ fr_counts f !! i = Some c /\ fr_counts f' = <[i := (c.1 + count, c.2)]> (fr_counts f) /\
    forall j c', fr_counts f !! j = Some c' -> engine_score c <= engine_score c'.
Proof.
  intros Hne Hmax. unfold get_core_engine_for_request. destruct (better_engines start (fr_counts f) (seq 0 (length (fr_counts f))) Hne sys_maxsize 0%nat) as (m & i & E & _ & Hall & Hi). rewrite E. cbn [mbind result_bind].
  assert (Hle : forall j c', fr_counts f !! j = Some c' -> m <= engine_score c').
  { intros j c' Hj. destruct (all_engines (length (fr_counts f)) start j) as (x & Hx & Hxj); [by eapply lookup_lt_Some|]. eapply Hall; [exact Hx|by rewrite Hxj]. }
  destruct Hi as [[= -> ->]|(c & Hc & ->)].
  - destruct (fr_counts f) as [|c l] eqn:Ef; [done|]. apply Forall_cons in Hmax as [Hc _]. specialize (Hle 0%nat c eq_refl). lia.
  - rewrite Hc. cbn. eexists _, c, _. split_and!; done.
Qed.
