(* ===== verification/DPCore.v ===== *)
(** What a data-parallel engine relies on in its core and worker: a new request is
    unfinished, and an unfinished request stays unfinished in a step that executes
    nothing. *)
From Stdlib Require Import ZArith Lia Ascii String QArith Qcanon.
From stdpp Require Import numbers gmap strings list.
From S2P Require Import Prelude FreeQueue Request BlockHash BlockPool KVSpec SingleType Coordinator KVCacheManager KVBacking KVStart TableCopy Ownership Capacity EncoderCache RequestQueue SchedState Scheduler SchedulerUpdate BlockTable InputBatch BatchInv LogitsProcs ModelRunner Reorder RunnerInv RunnerStep ModelInputs InputsSpec Bookkeeping GrammarBitmask BitmaskSpec WorkerStep WorkerRuns Lifecycle SchedTerm LifecycleOps Progress EngineRuns Liveness SchedProps EngineProps EngineCore SchedPlan SchedSent Mirror MirrorWorker MirrorUpdate Lockstep.

Open Scope Z_scope.

Section Scheduler.
Context {C G : Type} `{!KVConnector C, !StructuredOutput G}.
Context (cfg : SchedConfig) (bh : option hasher) (fs : string -> option Qc).

Definition live (s : Scheduler C G) : Prop := exists id o r, requests s !! id = Some o /\ sched_store s !! o = Some r /\ is_finished r = false.

Lemma unfinished_live (s : Scheduler C G) : sched_inv cfg s -> has_unfinished_requests s = true <-> live s.
Proof.
  intros [HL _ _]. unfold has_unfinished_requests. rewrite Z.ltb_lt. unfold get_num_unfinished_requests. rewrite queue_len_objs. split.
  - intros Hn. destruct (running s) as [|o l] eqn:Er, (queue_objs (waiting s)) as [|o' l'] eqn:Ew; unfold zlen in Hn; cbn in Hn; [lia|..].
    + destruct (lf_wait _ _ _ _ HL o') as (r & Hr & Hs & Hreg); [by left|]. exists (request_id r), o', r. split_and!; try done. apply live_unfinished. by right.
    + destruct (lf_run _ _ _ _ HL o) as (r & Hr & Hs & Hreg); [by left|]. exists (request_id r), o, r. split_and!; try done. apply live_unfinished. by left.
    + destruct (lf_run _ _ _ _ HL o) as (r & Hr & Hs & Hreg); [by left|]. exists (request_id r), o, r. split_and!; try done. apply live_unfinished. by left.
  - intros (id & o & r & Hreg & Hr & Hf). destruct (lf_reg _ _ _ _ HL _ _ Hreg) as (r' & Hr' & _ & H1 & H2). rewrite Hr in Hr'. injection Hr' as <-.
    assert (Hin : o ∈ running s \/ o ∈ queue_objs (waiting s)). { unfold is_finished in Hf. destruct (status r) eqn:Es; try done; cbn in *; auto. }
    unfold zlen. destruct Hin as [H|H]; apply list_elem_of_split in H as (l1 & l2 & ->); rewrite length_app; cbn; lia.
Qed.

(** Nothing was scheduled: the update changes no request. *)
Lemma idle_update now out mo (s : Scheduler C G) outs s' : so_num_scheduled_tokens out = [] -> kv_connector_output mo = None ->
  update_from_output cfg bh fs now out mo s = Ok (outs, s') -> same_core s s'.
Proof.
  intros E0 E1. unfold update_from_output. rewrite E0, E1. cbn. apply assemble_core.
Qed.

Lemma same_core_live (s s' : Scheduler C G) : same_core s s' -> live s -> live s'.
Proof. intros (E1 & E2 & _) (id & o & r & ?). exists id, o, r. by rewrite E1, E2. Qed.

Lemma add_live now o r (s s' : Scheduler C G) : is_finished r = false -> sched_store s !! o = Some r -> sched_add_request cfg now o s = Ok s' -> live s'.
Proof.
  intros Hf Ho E. unfold sched_add_request in E. apply bind_Ok in E as (w & _ & E). unfold get_req in E. rewrite Ho in E. cbn in E. injection E as <-.
  destruct (log_stats cfg); (exists (request_id r), o); cbn; rewrite ?lookup_insert_eq; [|by exists r].
  eexists. split; [done|]. unfold upd_req. cbn. rewrite lookup_alter_eq, Ho. cbn. by split.
Qed.
End Scheduler.

Section Laws.
Context {C G : Type} `{!KVConnector C, !StructuredOutput G, !NoGrammarNoAdvance G}.
Context (cfg : SchedConfig) (fs : string -> option Qc).
Context (bh : option hasher) (bs : Z) (caching : bool) `{!BlockHasher bh bs caching}.
Context `{HSO : !SetOrder} {M : Type} (full : M) (masks : SchedulerOutput -> list M) (wcfg : RunnerConfig) (arange_len : nat) (pooling_of : NewRequestData -> PoolingParams) (dev : Device M Z).
Context (extras : RunnerOutput Z -> SamplerExtras) (room : Z) (SH : list (nat * nat * Z * Z * Z)).
Hypotheses (Hcfg : plain_config cfg) (Hsetup : worker_setup wcfg arange_len dev) (Hextras : extras_ok extras).

Abbreviation executor := (uniproc_executor full masks wcfg arange_len pooling_of dev extras).
Abbreviation Core := (EngineCore C G Runner (result ModelRunnerOutput)).
Abbreviation handle := (handle_client_request (ModelExecutor0 := executor) cfg fs).
Abbreviation process := (process_engine_step (ModelExecutor0 := executor) cfg bh fs).
Abbreviation in_step := (Lockstep.in_step cfg fs bh bs caching wcfg arange_len room SH).

Lemma worker_no_connector out w mo w' : worker_execute full masks wcfg arange_len pooling_of dev extras out w = Ok (mo, w') -> kv_connector_output mo = None.
Proof using Type. unfold worker_execute. intros E. apply bind_Ok in E as ([o w1] & _ & E). apply bind_Ok in E as (mo' & E & [= <- _]). by destruct o; cbn in E; inv_ok. Qed.

(** An unfinished request is still unfinished after a step that executes nothing. *)
Lemma step_unfinished t fin (e e' : Core) b : in_step e -> has_unfinished_requests (ec_scheduler e) = true -> process t fin e = Ok (b, e') ->
  b = true \/ has_unfinished_requests (ec_scheduler e') = true.
Proof using All.
  intros HS Hu E. destruct (process_in_step cfg fs bh bs caching full masks wcfg arange_len pooling_of dev extras _ _ Hcfg Hsetup Hextras t fin e HS) as (b1 & e1 & E1 & HS1).
  rewrite E in E1. injection E1 as <- <-. destruct b; [by left|right]. apply (unfinished_live cfg); [apply (is_inv _ _ _ _ _ _ _ _ _ _ HS1)|].
  apply (unfinished_live cfg) in Hu; [|apply (is_inv _ _ _ _ _ _ _ _ _ _ HS)]. destruct (HS) as [HI HK HM Hw Hq Hp]. unfold process_engine_step in E. rewrite Hq in E. unfold step in E.
  destruct (negb (has_requests (ec_scheduler e))).
  { cbn [mbind result_bind] in E. unfold post_step in E. cbn in E. rewrite Hp in E. cbn in E. by injection E as <-. }
  destruct (schedule cfg _ _ _) as [[[[out meta] ev] s1]|] eqn:Es; [|done]. cbn [mbind result_bind] in E.
  destruct (next_sent cfg fs bh bs caching wcfg arange_len room SH Hcfg _ _ _ _ _ _ _ _ HI HK HM Es) as (Hsent & HI1 & HK1 & [Hpos _]).
  cbn [EngineCore.execute_model uniproc_executor] in E. destruct (worker_execute _ _ _ _ _ _ _ _ _) as [[mo w']|] eqn:Ew; [|done]. cbn [mbind result_bind] in E.
  destruct (update_from_output _ _ _ _ _ _ _) as [[outs s2]|] eqn:Eu; [|done]. cbn [mbind result_bind] in E. unfold post_step in E. cbn in E. rewrite Hp in E. cbn in E. injection E as Eb <-. cbn.
  assert (Hnil : so_num_scheduled_tokens out = []).
  { pose proof (sum_positive _ Hpos) as Hs. rewrite <-(proj1 (st_total _ _ _ _ _ _ Hsent)) in Hs. apply Z.ltb_ge in Eb. destruct (so_num_scheduled_tokens out); [done|]. specialize (Hs ltac:(done)). lia. }
  eapply same_core_live; [eapply idle_update; [exact Hnil|by eapply worker_no_connector|exact Eu]|]. destruct Hu as (id & o & r & Hreg & Hr & Hf).
  destruct (st_live _ _ _ _ _ _ Hsent id o r Hreg Hr Hf) as (r' & ? & ? & ?). by exists id, o, r'.
Qed.

(** Without unfinished requests a step executes nothing. *)
Lemma step_idle t fin (e e' : Core) b : in_step e -> has_unfinished_requests (ec_scheduler e) = false -> process t fin e = Ok (b, e') ->
  b = false /\ has_unfinished_requests (ec_scheduler e') = false.
Proof using Hcfg.
  intros [HI HK HM Hw Hq Hp] Hu E. unfold has_unfinished_requests in Hu. apply Z.ltb_ge in Hu.
  assert (H0 : get_num_unfinished_requests (ec_scheduler e) = 0). { unfold get_num_unfinished_requests in *. rewrite queue_len_objs in *. unfold zlen in *. lia. }
  destruct (engine_goes_idle (ModelExecutor0 := executor) cfg fs bh t fin b e e' Hcfg) as (-> & Hh & _); try done.
  - intros out x mo x'. apply worker_no_connector.
  - intros out x mo. cbn. destruct (worker_execute _ _ _ _ _ _ _ out x) as [[mo' x']|] eqn:Ew; [|done]. intros [= <-]. by eapply worker_no_connector.
  - unfold in_flight. by rewrite Hq.
  - split; [done|]. unfold has_requests in Hh. by apply orb_false_iff in Hh as [-> _].
Qed.

(** A step and a client's message leave [engines_running] alone. *)
Lemma process_keeps_running t fin (e e' : Core) b : in_step e -> process t fin e = Ok (b, e') -> engines_running e' = engines_running e.
Proof using Type.
  intros [HI HK HM Hw Hq Hp] E. unfold process_engine_step in E. rewrite Hq in E. unfold step in E. destruct (negb (has_requests (ec_scheduler e))).
  { cbn [mbind result_bind] in E. unfold post_step in E. cbn in E. rewrite Hp in E. cbn in E. by injection E as _ <-. }
  destruct (schedule cfg _ _ _) as [[[[out meta] ev] s1]|]; [|done]. cbn [mbind result_bind] in E. destruct (EngineCore.execute_model _ _) as [[mo w']|]; [|done]. cbn [mbind result_bind] in E.
  destruct (update_from_output _ _ _ _ _ _ _) as [[outs s2]|]; [|done]. cbn [mbind result_bind] in E. unfold post_step in E. cbn in E. rewrite Hp in E. cbn in E. by injection E as _ <-.
Qed.

Lemma handle_keeps_running (e e' : Core) req : handle e req = Ok e' -> engines_running e' = engines_running e.
Proof using Type.
  intros E. destruct req as [now o r|now ids| | |]; cbn in E.
  - unfold core_add_request in E. apply bind_Ok in E as (? & _ & E). apply bind_Ok in E as (s & _ & [= <-]). done.
  - unfold core_abort_requests in E. apply bind_Ok in E as (s & _ & [= <-]). done.
  - destruct (sched_reset_prefix_cache _) as [[ok s]|]; by injection E as <-.
  - by injection E as <-.
  - done.
Qed.

Lemma add_unfinished now o r (e e' : Core) : in_step e -> admissible cfg fs bh bs caching (ADD now o r) e -> acceptable wcfg (ADD now o r) -> handle e (ADD now o r) = Ok e' ->
  has_unfinished_requests (ec_scheduler e') = true.
Proof using Hcfg StructuredOutput0.
  intros HS Ha Hc E. destruct (handle_in_step cfg fs bh bs caching full masks wcfg arange_len pooling_of dev extras _ _ Hcfg e (ADD now o r) HS Ha Hc) as (e1 & E1 & HS1). rewrite E in E1. injection E1 as <-.
  apply (unfinished_live cfg); [apply (is_inv _ _ _ _ _ _ _ _ _ _ HS1)|]. cbn in E. unfold core_add_request in E. apply bind_Ok in E as (? & _ & E). apply bind_Ok in E as (s & E & [= <-]). cbn.
  refine (add_live cfg now o r _ _ _ _ E); [|cbn; by rewrite lookup_insert_eq]. destruct Ha as ([_ N2 _ _] & _). unfold is_finished. by rewrite N2.
Qed.
End Laws.
