(* ===== verification/DPWaves.v ===== *)
(** The waves of a data-parallel deployment: engines with their workers, the
    coordinator and the clients as one system of processes that exchange messages,
    which may be delivered late and in any order. *)
From Stdlib Require Import ZArith Lia Ascii String QArith Qcanon.
From stdpp Require Import numbers gmap strings list.
From S2P Require Import Prelude FreeQueue Request BlockHash BlockPool KVSpec SingleType Coordinator KVCacheManager KVBacking KVStart TableCopy Ownership Capacity EncoderCache RequestQueue SchedState Scheduler SchedulerUpdate BlockTable InputBatch BatchInv LogitsProcs ModelRunner Reorder RunnerInv RunnerStep ModelInputs InputsSpec Bookkeeping GrammarBitmask BitmaskSpec WorkerStep WorkerRuns Lifecycle SchedTerm LifecycleOps Progress EngineRuns Liveness SchedProps EngineProps EngineCore SchedPlan SchedSent Mirror MirrorWorker MirrorUpdate Lockstep DataParallel DPCore.

Open Scope Z_scope.

Section Waves.
Context {C G : Type} `{!KVConnector C, !StructuredOutput G, !NoGrammarNoAdvance G}.
Context (cfg : SchedConfig) (fs : string -> option Qc).
Context (bh : option hasher) (bs : Z) (caching : bool) `{!BlockHasher bh bs caching}.
Context `{HSO : !SetOrder} {M : Type} (full : M) (masks : SchedulerOutput -> list M) (wcfg : RunnerConfig) (arange_len : nat) (pooling_of : NewRequestData -> PoolingParams) (dev : Device M Z).
Context (extras : RunnerOutput Z -> SamplerExtras) (publish : bool) (dummy : Runner -> result Runner).

Abbreviation executor := (uniproc_executor full masks wcfg arange_len pooling_of dev extras).
Abbreviation Core := (EngineCore C G Runner (result ModelRunnerOutput)).
Abbreviation Engine := (DPEngine C G Runner (result ModelRunnerOutput)).
Abbreviation handle_dp := (dp_handle_client_request (ModelExecutor0 := executor) cfg fs true).
Abbreviation step_dp := (dp_step (ModelExecutor0 := executor) cfg bh fs publish dummy).
Abbreviation resume := (dp_resume true).

(** * The system *)

(** Messages in flight: to an engine ([sy_inbox]), to the coordinator from a client
    ([sy_first]) and to a client ([sy_updates]); those from an engine to the
    coordinator are in the engine's output queue. *)
Record System := mkSystem {
  sy_engines : list (Engine * LoopPhase);
  sy_coord : DPCoordinator;
  sy_clients : list Client;
  sy_inbox : list (nat * DPMessage);
  sy_first : list FrontMessage;
  sy_updates : list (nat * Update)
}.

Definition broadcast (s : System) (starts : list StartWave) : list (nat * DPMessage) :=
  concat ((fun x : StartWave => (fun j => (j, START_DP_WAVE x.1 x.2)) <$> seq 0 (length (sy_engines s))) <$> starts).
Definition publish_to (s : System) (u : option Update) : list (nat * Update) :=
  match u with None => [] | Some u => (fun f => (f, u)) <$> seq 0 (length (sy_clients s)) end.

Definition set_outputs (l : list (Z * DPOutputs)) (d : Engine) : Engine := mkDPEngine (dp_core d) (dp_rank d) (dp_wave d) (step_counter d) (last_counts d) l.

(** The coordinator takes a message, if any, of each kind. *)
Definition take_front (m : option FrontMessage) (l l' : list FrontMessage) : Prop :=
  match m with None => l' = l | Some m => exists l1 l2, l = l1 ++ m :: l2 /\ l' = l1 ++ l2 end.
Definition take_back (m : option (nat * DPOutputs)) (es es' : list (Engine * LoopPhase)) : Prop :=
  match m with
  | None => es' = es
  | Some (i, out) => exists d ph l1 l2, es !! i = Some (d, ph) /\ dp_outputs d = l1 ++ (-1, out) :: l2 /\ es' = <[i := (set_outputs (l1 ++ l2) d, ph)]> es
  end.

(** A message that an engine may get: as for one engine, and requests are not aborted
    before their engine has run for them. *)
Definition expected (d : Engine) (msg : DPMessage) : Prop :=
  match msg with
  | START_DP_WAVE _ _ => True
  | ClientMessage _ req => admissible cfg fs bh bs caching req (dp_core d) /\ acceptable wcfg req /\ match req with ABORT _ _ => dp_running d = true | _ => True end
  end.

Definition is_add (req : ClientRequest) : bool := match req with ADD _ _ _ => true | _ => false end.

Inductive system_step (s : System) : System -> Prop :=
| sys_send f c rank start count i c1 w c2 now o r :
    sy_clients s !! f = Some c -> get_core_engine_for_request rank start count c = Ok (i, c1) -> add_request_async i c1 = (w, c2) ->
    system_step s (mkSystem (sy_engines s) (sy_coord s) (<[f := c2]> (sy_clients s)) (sy_inbox s ++ [(i, ClientMessage w (ADD now o r))]) (sy_first s) (sy_updates s))
| sys_request i req :
    is_add req = false ->
    system_step s (mkSystem (sy_engines s) (sy_coord s) (sy_clients s) (sy_inbox s ++ [(i, ClientMessage 0 req)]) (sy_first s) (sy_updates s))
| sys_notify f c m c' :
    sy_clients s !! f = Some c -> send_first_request c = Some (m, c') ->
    system_step s (mkSystem (sy_engines s) (sy_coord s) (<[f := c']> (sy_clients s)) (sy_inbox s) (sy_first s ++ [m]) (sy_updates s))
| sys_update f c u lo hi l1 l2 :
    sy_clients s !! f = Some c -> sy_updates s = l1 ++ (f, u) :: l2 ->
    system_step s (mkSystem (sy_engines s) (sy_coord s) (<[f := apply_update lo hi u c]> (sy_clients s)) (sy_inbox s) (sy_first s) (l1 ++ l2))
| sys_coordinate front back first' es' c' starts u :
    take_front front (sy_first s) first' -> take_back back (sy_engines s) es' -> coordinator_iteration front back (sy_coord s) = Ok (c', starts, u) ->
    system_step s (mkSystem es' c' (sy_clients s) (sy_inbox s ++ broadcast s starts) first' (sy_updates s ++ publish_to s u))
| sys_timeout c' u :
    coordinator_timeout (sy_coord s) = (c', u) ->
    system_step s (mkSystem (sy_engines s) c' (sy_clients s) (sy_inbox s) (sy_first s) (sy_updates s ++ publish_to s (Some u)))
| sys_deliver i msg l1 l2 d d' :
    sy_inbox s = l1 ++ (i, msg) :: l2 -> sy_engines s !! i = Some (d, Looping) -> expected d msg -> handle_dp d msg = Ok d' ->
    system_step s (mkSystem (<[i := (d', Looping)]> (sy_engines s)) (sy_coord s) (sy_clients s) (l1 ++ l2) (sy_first s) (sy_updates s))
| sys_iterate i t fin d d' ph :
    sy_engines s !! i = Some (d, Looping) -> has_work_to_do (dp_core d) = true -> step_dp t fin d = Ok (d', ph) ->
    system_step s (mkSystem (<[i := (d', ph)]> (sy_engines s)) (sy_coord s) (sy_clients s) (sy_inbox s) (sy_first s) (sy_updates s))
| sys_reduce locals :
    Forall2 (fun p b => p.2 = Reducing b) (sy_engines s) locals ->
    system_step s (mkSystem ((fun p => (resume (has_unfinished_dp locals) p.1, Looping)) <$> sy_engines s) (sy_coord s) (sy_clients s) (sy_inbox s) (sy_first s) (sy_updates s)).

(** * Being awake *)

(** An engine that takes part in the current wave. *)
Definition awake (p : Engine * LoopPhase) : Prop := dp_running p.1 = true \/ has_unfinished_requests (ec_scheduler (dp_core p.1)) = true \/ p.2 ≠ Looping.

(** Somebody will make the coordinator start wave [W], or it has done so. *)
Definition called (W : Z) (s : System) : Prop := co_wave (sy_coord s) = W /\
  (co_running (sy_coord s) = true \/ sy_first s ≠ [] \/ exists f c, sy_clients s !! f = Some c /\ fr_first c ≠ []).

(** An engine has asked the coordinator to start wave [W]. *)
Definition asked (W : Z) (s : System) : Prop := exists i p o, sy_engines s !! i = Some p /\ o ∈ dp_outputs p.1 /\ o.2 = start_wave_output W.

Section Invariant.
Context (room : Z) (SH : list (nat * nat * Z * Z * Z)).
Hypotheses (Hcfg : plain_config cfg) (Hsetup : worker_setup wcfg arange_len dev) (Hextras : extras_ok extras).
(** A dummy run leaves the requests and the batch of the worker alone. *)
Hypothesis Hdummy : forall w, dummy w = Ok w.

Abbreviation in_step := (Lockstep.in_step cfg fs bh bs caching wcfg arange_len room SH).

Definition output_fine (W : Z) (p : Engine * LoopPhase) (o : Z * DPOutputs) : Prop := o.1 = -1 /\
  (forall w, dpo_start_wave o.2 = Some w -> dpo_wave_complete o.2 = None /\ w <= W /\ (w = W -> awake p)) /\
  (forall w, dpo_wave_complete o.2 = Some w -> w < W).

(** An engine in wave [W]. *)
Record engine_fine (W : Z) (i : nat) (p : Engine * LoopPhase) : Prop := {
  ef_core : in_step (dp_core p.1);
  ef_rank : dp_rank p.1 = i;
  ef_wave : dp_wave p.1 = W;
  ef_phase : forall b, p.2 = Reducing b -> has_unfinished_requests (ec_scheduler (dp_core p.1)) = b;
  ef_outputs : Forall (output_fine W p) (dp_outputs p.1)
}.

Record waves (W : Z) (s : System) : Prop := {
  wv_engines : forall i p, sy_engines s !! i = Some p -> engine_fine W i p;
  wv_coord : co_wave (sy_coord s) <= W;
  wv_clients : forall f c, sy_clients s !! f = Some c -> fr_wave c <= co_wave (sy_coord s) /\ (fr_wave c = W -> fr_running c = true -> called W s);
  wv_updates : forall f u, (f, u) ∈ sy_updates s -> up_wave u <= co_wave (sy_coord s) /\ (up_wave u = W -> up_running u = true -> co_running (sy_coord s) = true);
  wv_adds : forall i w req, (i, ClientMessage w req) ∈ sy_inbox s -> is_add req = true -> w <= W /\ (w = W -> called W s);
  wv_starts : forall i w x, (i, START_DP_WAVE w x) ∈ sy_inbox s -> w <= W /\ (w = W -> co_wave (sy_coord s) = W /\ co_running (sy_coord s) = true);
  wv_first : forall m, m ∈ sy_first s -> exists i w, m = FirstRequest (Identity i) w;
  wv_awake : forall i p, sy_engines s !! i = Some p -> awake p -> called W s \/ asked W s;
  wv_run : co_wave (sy_coord s) = W -> co_running (sy_coord s) = true -> forall i p, sy_engines s !! i = Some p ->
    awake p \/ exists x, (i, START_DP_WAVE W x) ∈ sy_inbox s /\ x ≠ Some (Index i)
}.

(** ** Clients *)

(** Only the clients and the messages that they send change; nobody who would call
    the coordinator is lost. *)
Lemma client_waves W s cs inbox first updates : waves W s ->
  (called W s -> called W (mkSystem (sy_engines s) (sy_coord s) cs inbox first updates)) ->
  (forall f c, cs !! f = Some c -> fr_wave c <= co_wave (sy_coord s) /\ (fr_wave c = W -> fr_running c = true -> called W (mkSystem (sy_engines s) (sy_coord s) cs inbox first updates))) ->
  (forall u, u ∈ updates -> u ∈ sy_updates s) ->
  (forall m, m ∈ sy_inbox s -> m ∈ inbox) ->
  (forall i m, (i, m) ∈ inbox -> (i, m) ∈ sy_inbox s \/ exists w req, m = ClientMessage w req /\ (is_add req = true -> w <= W /\ (w = W -> called W (mkSystem (sy_engines s) (sy_coord s) cs inbox first updates)))) ->
  (forall m, m ∈ first -> m ∈ sy_first s \/ exists i w, m = FirstRequest (Identity i) w) ->
  waves W (mkSystem (sy_engines s) (sy_coord s) cs inbox first updates).
Proof using Type.
  intros [H1 H2 H3 H4 H5 H6 H7 H8 H9] Hcall Hcs Hup Hsub Hin Hfi. split; cbn; try done.
  - intros f u Hu. by apply (H4 f), Hup.
  - intros i w req Hm Ha. destruct (Hin _ _ Hm) as [Ho|(w' & req' & [= <- <-] & Hw)]; [|by apply Hw]. destruct (H5 _ _ _ Ho Ha) as [? Hc]. split; [done|]. intros ->. by apply Hcall, Hc.
  - intros i w x Hm. destruct (Hin _ _ Hm) as [Ho|(w' & req' & ? & _)]; [|done]. by apply (H6 i w x).
  - intros m Hm. destruct (Hfi m Hm) as [Ho|Ho]; [by apply H7|done].
  - intros i p Hp Ha. destruct (H8 i p Hp Ha) as [Hc|Hc]; [left; by apply Hcall|by right].
  - intros Hw Hr i p Hp. destruct (H9 Hw Hr i p Hp) as [?|(x & Hx & ?)]; [by left|]. right. exists x. split; [by apply Hsub|done].
Qed.

Lemma chosen_client rank start count c i c' : get_core_engine_for_request rank start count c = Ok (i, c') -> fr_wave c' = fr_wave c /\ fr_running c' = fr_running c /\ fr_first c' = fr_first c.
Proof using Type.
  unfold get_core_engine_for_request. destruct rank; intros E; [by injection E as _ <-|]. apply bind_Ok in E as ([? j] & _ & E). apply bind_Ok in E as (x & _ & [= _ <-]). done.
Qed.

(** A client's list of notifications only grows. *)
Lemma called_grows W s f c c' inbox first updates : sy_clients s !! f = Some c -> (fr_first c ≠ [] -> fr_first c' ≠ [] \/ first ≠ []) -> (sy_first s ≠ [] -> first ≠ []) ->
  called W s -> called W (mkSystem (sy_engines s) (sy_coord s) (<[f := c']> (sy_clients s)) inbox first updates).
Proof using Type.
  intros Hc Hf Hfi [Hw H]. split; [done|]. cbn. destruct H as [H|[H|(f1 & c1 & H1 & H2)]]; [by left|right; left; by apply Hfi|]. destruct (decide (f1 = f)) as [->|Hne].
  - rewrite Hc in H1. injection H1 as <-. destruct (Hf H2) as [?|?]; [|by right; left]. right. right. exists f, c'. split; [|done]. apply list_lookup_insert_eq. by eapply lookup_lt_Some.
  - right. right. exists f1, c1. by rewrite list_lookup_insert_ne.
Qed.

Lemma client_cases W s f c c' inbox first updates : waves W s -> sy_clients s !! f = Some c ->
  (called W s -> called W (mkSystem (sy_engines s) (sy_coord s) (<[f := c']> (sy_clients s)) inbox first updates)) ->
  fr_wave c' <= co_wave (sy_coord s) -> (fr_wave c' = W -> fr_running c' = true -> called W (mkSystem (sy_engines s) (sy_coord s) (<[f := c']> (sy_clients s)) inbox first updates)) ->
  forall f1 c1, <[f := c']> (sy_clients s) !! f1 = Some c1 ->
    fr_wave c1 <= co_wave (sy_coord s) /\ (fr_wave c1 = W -> fr_running c1 = true -> called W (mkSystem (sy_engines s) (sy_coord s) (<[f := c']> (sy_clients s)) inbox first updates)).
Proof using Type.
  intros HW Hc Hcall Hw Hr f1 c1 H. apply list_lookup_insert_Some in H as [(-> & <- & _)|[Hne H]]; [done|]. destruct (wv_clients _ _ HW f1 c1 H) as [? H2]. split; [done|]. intros E1 E2. by apply Hcall, H2.
Qed.

Lemma send_waves W s f c rank start count i c1 w c2 now o r : waves W s -> sy_clients s !! f = Some c -> get_core_engine_for_request rank start count c = Ok (i, c1) -> add_request_async i c1 = (w, c2) ->
  waves W (mkSystem (sy_engines s) (sy_coord s) (<[f := c2]> (sy_clients s)) (sy_inbox s ++ [(i, ClientMessage w (ADD now o r))]) (sy_first s) (sy_updates s)).
Proof using Type.
  intros HW Hc E1 E2. destruct (chosen_client _ _ _ _ _ _ E1) as (F1 & F2 & F3). injection E2 as <- <-. destruct (wv_clients _ _ HW f c Hc) as [Hwv Hrun].
  set (c2 := mkClient _ _ _ _). set (s' := mkSystem _ _ _ _ _ _). assert (Hcall : called W s -> called W s').
  { eapply called_grows; [exact Hc| |done]. intros Hf. left. cbn. rewrite F3. by destruct (fr_running c1), (fr_first c). }
  assert (Hnew : fr_wave c1 = W -> called W s').
  { rewrite F1. intros Hw. destruct (fr_running c) eqn:Er; [by apply Hcall, Hrun|]. split; [pose proof (wv_coord _ _ HW); cbn; lia|]. right. right. exists f, c2. split; [apply list_lookup_insert_eq; by eapply lookup_lt_Some|].
    cbn. rewrite F2. by destruct (fr_first c1). }
  apply client_waves; try done.
  - eapply client_cases; try done; [cbn; by rewrite F1|]. intros Hw _. by apply Hnew.
  - intros m Hm. apply elem_of_app. by left.
  - intros j m [Hm|Hm%list_elem_of_singleton]%elem_of_app; [by left|]. injection Hm as -> ->. right. eexists _, _. split; [done|]. intros _. split; [pose proof (wv_coord _ _ HW); lia|done].
  - intros m Hm. by left.
Qed.

Lemma request_waves W s i req : waves W s -> is_add req = false -> waves W (mkSystem (sy_engines s) (sy_coord s) (sy_clients s) (sy_inbox s ++ [(i, ClientMessage 0 req)]) (sy_first s) (sy_updates s)).
Proof using Type.
  intros HW Hr. apply client_waves; try done.
  - apply (wv_clients _ _ HW).
  - intros m Hm. apply elem_of_app. by left.
  - intros j m [Hm|Hm%list_elem_of_singleton]%elem_of_app; [by left|]. injection Hm as -> ->. right. eexists _, _. split; [done|]. by rewrite Hr.
  - intros m Hm. by left.
Qed.

Lemma notify_waves W s f c m c' : waves W s -> sy_clients s !! f = Some c -> send_first_request c = Some (m, c') ->
  waves W (mkSystem (sy_engines s) (sy_coord s) (<[f := c']> (sy_clients s)) (sy_inbox s) (sy_first s ++ [m]) (sy_updates s)).
Proof using Type.
  intros HW Hc E. unfold send_first_request in E. destruct (fr_first c) as [|i l] eqn:Ef; [done|]. injection E as <- <-. destruct (wv_clients _ _ HW f c Hc) as [Hwv Hrun].
  set (c2 := mkClient _ _ _ _). set (s' := mkSystem _ _ _ _ _ _). assert (Hne : sy_first s' ≠ []) by (cbn; by destruct (sy_first s)).
  assert (Hcall : called W s -> called W s') by (eapply called_grows; [exact Hc| |]; intros _; [by right|done]).
  apply client_waves; try done.
  - eapply client_cases; try done. intros Hw _. split; [pose proof (wv_coord _ _ HW); cbn in *; lia|]. by right; left.
  - intros j m Hm. by left.
  - intros m [Hm|Hm%list_elem_of_singleton]%elem_of_app; [by left|]. right. by eexists _, _.
Qed.

Lemma update_waves W s f c u lo hi l1 l2 : waves W s -> sy_clients s !! f = Some c -> sy_updates s = l1 ++ (f, u) :: l2 ->
  waves W (mkSystem (sy_engines s) (sy_coord s) (<[f := apply_update lo hi u c]> (sy_clients s)) (sy_inbox s) (sy_first s) (l1 ++ l2)).
Proof using Type.
  intros HW Hc E. assert (Hu : (f, u) ∈ sy_updates s) by (rewrite E; apply elem_of_app; right; by left). destruct (wv_updates _ _ HW f u Hu) as [Hwv Hrun].
  assert (Hcall : called W s -> called W (mkSystem (sy_engines s) (sy_coord s) (<[f := apply_update lo hi u c]> (sy_clients s)) (sy_inbox s) (sy_first s) (l1 ++ l2))).
  { eapply called_grows; [exact Hc|by left|done]. }
  apply client_waves; try done.
  - eapply client_cases; try done. cbn. intros Hw Hr. split; [pose proof (wv_coord _ _ HW); cbn; lia|]. left. by apply Hrun.
  - intros x Hx. rewrite E. apply elem_of_app in Hx as [?|?]; apply elem_of_app; [by left|right; by right].
  - intros j m Hm. by left.
  - intros m Hm. by left.
Qed.

(** ** The coordinator *)

Lemma broadcast_elem s starts j m : (j, m) ∈ broadcast s starts <-> (j < length (sy_engines s))%nat /\ exists w x, (w, x) ∈ starts /\ m = START_DP_WAVE w x.
Proof using Type.
  unfold broadcast. rewrite elem_of_concat. split.
  - intros (l & Hs & Hl). apply list_elem_of_fmap in Hs as ([w x] & -> & Hx). apply list_elem_of_fmap in Hl as (j' & [= -> ->] & Hj%elem_of_seq). split; [lia|]. by exists w, x.
  - intros (Hj & w & x & Hx & ->). eexists. split; [by eapply list_elem_of_fmap_2|]. cbn. apply list_elem_of_fmap. exists j. split; [done|]. apply elem_of_seq. lia.
Qed.

(** The coordinator moves forward, and starts waves. *)
Lemma coordinator_moves W s es' c' starts first' : waves W s ->
  (forall i p', es' !! i = Some p' -> engine_fine W i p' /\ exists p, sy_engines s !! i = Some p /\ (awake p' <-> awake p)) ->
  co_wave (sy_coord s) <= co_wave c' <= W ->
  (forall w x, (w, x) ∈ starts -> w = co_wave c' /\ co_running c' = true) ->
  (co_wave (sy_coord s) = W -> co_running (sy_coord s) = true -> co_running c' = true) ->
  (forall m, m ∈ first' -> m ∈ sy_first s) ->
  let s' := mkSystem es' c' (sy_clients s) (sy_inbox s ++ broadcast s starts) first' (sy_updates s) in
  (called W s -> called W s') -> (asked W s -> called W s' \/ asked W s') ->
  (co_wave c' = W -> co_running c' = true -> co_wave (sy_coord s) = W /\ co_running (sy_coord s) = true \/
    forall i p, sy_engines s !! i = Some p -> awake p \/ exists x, (W, x) ∈ starts /\ x ≠ Some (Index i)) ->
  waves W s'.
Proof using Type.
  intros [H1 H2 H3 H4 H5 H6 H7 H8 H9] Hes Hco Hst Hrun Hfi s' Hcall Hask Hgo. split; cbn; try lia.
  - intros i p' Hp. by apply Hes.
  - intros f c Hc. destruct (H3 f c Hc) as [? Hr]. split; [lia|]. intros Hw Hb. by apply Hcall, Hr.
  - intros f u Hu. destruct (H4 f u Hu) as [? Hr]. split; [lia|]. intros Hw Hb. apply Hrun; [lia|by apply Hr].
  - intros i w req [Hm|Hm]%elem_of_app Ha; [|apply broadcast_elem in Hm as (_ & w' & x & _ & ?); done]. destruct (H5 _ _ _ Hm Ha) as [? Hc]. split; [done|]. intros Hw. by apply Hcall, Hc.
  - intros i w x [Hm|Hm]%elem_of_app.
    + destruct (H6 _ _ _ Hm) as [? Hc]. split; [done|]. intros Hw. destruct (Hc Hw) as [Ew Er]. split; [lia|by apply Hrun].
    + apply broadcast_elem in Hm as (_ & w' & x' & Hx & [= -> ->]). destruct (Hst _ _ Hx) as [-> Er]. split; [lia|]. intros Hw. by split.
  - intros m Hm. by apply H7, Hfi.
  - intros i p' Hp Ha. destruct (Hes _ _ Hp) as (_ & p & Hp0 & Haw). destruct (H8 i p Hp0) as [Hc|Hc]; [by apply Haw|left; by apply Hcall|by apply Hask].
  - intros Hw Hr i p' Hp. destruct (Hes _ _ Hp) as (_ & p & Hp0 & Haw). destruct (Hgo Hw Hr) as [[Ew Er]|Hall].
    + destruct (H9 Ew Er i p Hp0) as [?|(x & Hx & ?)]; [left; by apply Haw|]. right. exists x. split; [apply elem_of_app; by left|done].
    + destruct (Hall i p Hp0) as [?|(x & Hx & ?)]; [left; by apply Haw|]. right. exists x. split; [|done]. apply elem_of_app. right. apply broadcast_elem. split; [by eapply lookup_lt_Some|]. by exists W, x.
Qed.

Lemma first_waves W s x w l1 l2 c' starts ch : waves W s -> sy_first s = l1 ++ FirstRequest x w :: l2 -> coordinator_first x w (sy_coord s) = (c', starts, ch) ->
  waves W (mkSystem (sy_engines s) c' (sy_clients s) (sy_inbox s ++ broadcast s starts) (l1 ++ l2) (sy_updates s)).
Proof using Type.
  intros HW Ef E. assert (Hm : FirstRequest x w ∈ sy_first s) by (rewrite Ef; apply elem_of_app; right; by left). destruct (wv_first _ _ HW _ Hm) as (i & w' & [= -> ->]). clear Hm.
  assert (Hc : co_wave c' = co_wave (sy_coord s) /\ co_running c' = true) by (unfold coordinator_first in E; destruct (co_running (sy_coord s)) eqn:Er; by injection E as <- _ _). destruct Hc as [Hw Hr].
  apply coordinator_moves; try done.
  - intros j p Hp. split; [by apply (wv_engines _ _ HW)|]. by exists p.
  - pose proof (wv_coord _ _ HW). lia.
  - intros w1 x1 Hx. unfold coordinator_first in E. destruct (co_running (sy_coord s)); injection E as _ <- _; [by apply elem_of_nil in Hx|]. apply list_elem_of_singleton in Hx. injection Hx as -> ->. by rewrite Hw.
  - intros m Hm. rewrite Ef. apply elem_of_app in Hm as [?|?]; apply elem_of_app; [by left|right; by right].
  - intros [Ew _]. split; [by cbn; rewrite Hw|by left].
  - by right.
  - intros Ew _. unfold coordinator_first in E. destruct (co_running (sy_coord s)) eqn:Er; injection E as <- <- _; [by left|]. right. intros j p _. right. eexists. split; [apply list_elem_of_singleton; f_equal; by rewrite <-Ew|].
    by destruct (_ <? _).
Qed.

(** The coordinator takes an output of an engine. *)
Lemma taken_engine W s i d ph l1 l2 out : waves W s -> sy_engines s !! i = Some (d, ph) -> dp_outputs d = l1 ++ (-1, out) :: l2 ->
  forall j p', <[i := (set_outputs (l1 ++ l2) d, ph)]> (sy_engines s) !! j = Some p' -> engine_fine W j p' /\ exists p, sy_engines s !! j = Some p /\ (awake p' <-> awake p).
Proof using Type.
  intros HW Hi Eo j p' H. apply list_lookup_insert_Some in H as [(-> & <- & _)|[Hne H]]; [|split; [by apply (wv_engines _ _ HW)|by exists p']]. split; [|by exists (d, ph)].
  destruct (wv_engines _ _ HW _ _ Hi) as [F1 F2 F3 F4 F5]. split; try done. cbn in *. rewrite Eo in F5. apply Forall_app in F5 as [? [_ ?]%Forall_cons]. by apply Forall_app.
Qed.

Lemma taken_asked W s i d ph l1 l2 out c' inbox : sy_engines s !! i = Some (d, ph) -> dp_outputs d = l1 ++ (-1, out) :: l2 -> dpo_start_wave out ≠ Some W \/ dpo_wave_complete out ≠ None ->
  asked W s -> asked W (mkSystem (<[i := (set_outputs (l1 ++ l2) d, ph)]> (sy_engines s)) c' (sy_clients s) inbox (sy_first s) (sy_updates s)).
Proof using Type.
  intros Hi Eo Hno (j & p & o & Hj & Ho & E1). destruct (decide (j = i)) as [->|Hne]; [|exists j, p, o; cbn; by rewrite list_lookup_insert_ne].
  rewrite Hi in Hj. injection Hj as <-. exists i, (set_outputs (l1 ++ l2) d, ph), o. cbn in *. rewrite list_lookup_insert_eq by (by eapply lookup_lt_Some). split_and!; try done.
  rewrite Eo in Ho. apply elem_of_app in Ho as [Ho|[->|Ho]%elem_of_cons]; [apply elem_of_app; by left| |apply elem_of_app; by right]. cbn in E1. subst out. by destruct Hno.
Qed.

Lemma output_waves W s i d ph l1 l2 out c' starts ch : waves W s -> sy_engines s !! i = Some (d, ph) -> dp_outputs d = l1 ++ (-1, out) :: l2 -> coordinator_waves i out (sy_coord s) = (c', starts, ch) ->
  waves W (mkSystem (<[i := (set_outputs (l1 ++ l2) d, ph)]> (sy_engines s)) c' (sy_clients s) (sy_inbox s ++ broadcast s starts) (sy_first s) (sy_updates s)).
Proof using Type.
  intros HW Hi Eo E. pose proof (wv_coord _ _ HW) as Hle. pose proof (taken_engine W s i d ph l1 l2 out HW Hi Eo) as Hes.
  assert (Hout : output_fine W (d, ph) (-1, out)). { pose proof (ef_outputs _ _ _ (wv_engines _ _ HW _ _ Hi)) as HF. cbn in HF. rewrite Eo in HF. by apply Forall_app in HF as [_ [? _]%Forall_cons]. }
  destruct Hout as (_ & Hs & Hc). cbn in Hs, Hc. unfold coordinator_waves in E. destruct (dpo_wave_complete out) as [w|] eqn:Ec.
  { specialize (Hc w eq_refl). destruct (co_wave (sy_coord s) <=? w) eqn:El; injection E as <- <- _.
    - apply Z.leb_le in El. apply coordinator_moves; try done; cbn; try lia.
      + by intros ?? ?%elem_of_nil.
      + intros [Hw _]. lia.
      + intros Ha. right. eapply taken_asked; [done|done|right; by rewrite Ec|done].
    - apply coordinator_moves; try done.
      + by intros ?? ?%elem_of_nil.
      + intros Ha. right. eapply taken_asked; [done|done|right; by rewrite Ec|done].
      + by left. }
  destruct (dpo_start_wave out) as [w|] eqn:Est.
  - destruct (Hs w eq_refl) as (_ & Hwle & Haw). destruct (decide (w = W)) as [->|Hne].
    + destruct (_ || _) eqn:Eb; injection E as <- <- _.
      * apply coordinator_moves; try done; cbn; try lia.
        -- intros w x Hx%list_elem_of_singleton. by injection Hx as -> ->.
        -- intros _. split; [done|by left].
        -- intros _. left. split; [done|by left].
        -- intros _ _. right. intros j p Hp. destruct (decide (j = i)) as [->|Hne]; [left; rewrite Hi in Hp; injection Hp as <-; by apply Haw|]. right. eexists. split; [by apply list_elem_of_singleton|]. intros [= ->]. done.
      * apply orb_false_iff in Eb as [E1 E2]. apply Z.ltb_ge in E1. assert (Hw : co_wave (sy_coord s) = W) by lia. rewrite Hw, Z.eqb_refl in E2. cbn in E2. apply negb_false_iff in E2.
        apply coordinator_moves; try done.
        -- by intros ?? ?%elem_of_nil.
        -- intros _. left. split; [done|by left].
        -- by left.
    + destruct (_ || _) eqn:Eb; injection E as <- <- _.
      * assert (co_wave (sy_coord s) <= w). { apply orb_true_iff in Eb as [Eb|[Eb _]%andb_true_iff]; [apply Z.ltb_lt in Eb|apply Z.eqb_eq in Eb]; lia. }
        apply coordinator_moves; try done; cbn; try lia.
        -- intros w1 x Hx%list_elem_of_singleton. by injection Hx as -> ->.
        -- intros [Hw _]. lia.
        -- intros Ha. right. eapply taken_asked; [done|done|left; rewrite Est; congruence|done].
      * apply coordinator_moves; try done.
        -- by intros ?? ?%elem_of_nil.
        -- intros Ha. right. eapply taken_asked; [done|done|left; rewrite Est; congruence|done].
        -- by left.
  - injection E as <- <- _. apply coordinator_moves; try done.
    + by intros ?? ?%elem_of_nil.
    + intros Ha. right. eapply taken_asked; [done|done|left; by rewrite Est|done].
    + by left.
Qed.

(** New statistics. *)
Lemma stats_waves W s c' : waves W s -> co_wave c' = co_wave (sy_coord s) -> co_running c' = co_running (sy_coord s) ->
  waves W (mkSystem (sy_engines s) c' (sy_clients s) (sy_inbox s) (sy_first s) (sy_updates s)).
Proof using Type.
  intros [H1 H2 H3 H4 H5 H6 H7 H8 H9] Ew Er. unfold called in *. split; unfold called; cbn; rewrite ?Ew, ?Er; try done.
Qed.

Lemma publish_waves W s counts : waves W s ->
  waves W (mkSystem (sy_engines s) (sy_coord s) (sy_clients s) (sy_inbox s) (sy_first s) (sy_updates s ++ publish_to s (Some (mkUpdate counts (co_wave (sy_coord s)) (co_running (sy_coord s)))))).
Proof using Type.
  intros [H1 H2 H3 H4 H5 H6 H7 H8 H9]. split; try done. cbn. intros f u [Hu|Hu]%elem_of_app; [by apply (H4 f)|]. apply list_elem_of_fmap in Hu as (f' & [= -> ->] & _). by cbn.
Qed.

Lemma broadcast_app s s1 starts starts' : length (sy_engines s1) = length (sy_engines s) -> broadcast s (starts ++ starts') = broadcast s starts ++ broadcast s1 starts'.
Proof using Type. intros E. unfold broadcast. by rewrite E, fmap_app, concat_app. Qed.

Lemma coordinate_waves W s front back first' es' c' starts u : waves W s -> take_front front (sy_first s) first' -> take_back back (sy_engines s) es' ->
  coordinator_iteration front back (sy_coord s) = Ok (c', starts, u) ->
  waves W (mkSystem es' c' (sy_clients s) (sy_inbox s ++ broadcast s starts) first' (sy_updates s ++ publish_to s u)).
Proof using Type.
  intros HW Hf Hb E.
  enough (H : exists ch, u = (if (ch : bool) then Some (mkUpdate None (co_wave c') (co_running c')) else None) /\ waves W (mkSystem es' c' (sy_clients s) (sy_inbox s ++ broadcast s starts) first' (sy_updates s))).
  { destruct H as (ch & -> & H). destruct ch; [|cbn; by rewrite app_nil_r]. apply (publish_waves W _ None) in H. exact H. }
  assert (Hfront : exists c1 starts1 ch1 starts2 ch2, waves W (mkSystem (sy_engines s) c1 (sy_clients s) (sy_inbox s ++ broadcast s starts1) first' (sy_updates s)) /\
    (match back with Some (i, out) => coordinator_output i out c1 | None => Ok (c1, [], false) end) = Ok (c', starts2, ch2) /\ starts = starts1 ++ starts2 /\
    u = if (ch1 || ch2 : bool) then Some (mkUpdate None (co_wave c') (co_running c')) else None).
  { destruct front as [[x w|n]|]; cbn in E, Hf.
    - destruct (coordinator_first x w (sy_coord s)) as [[c1 starts1] ch1] eqn:E1. apply bind_Ok in E as ([[c2 starts2] ch2] & E2 & [= <- <- <-]). destruct Hf as (l1 & l2 & El & ->).
      exists c1, starts1, ch1, starts2, ch2. split_and!; try done. by eapply first_waves.
    - destruct Hf as (l1 & l2 & El & _). destruct (wv_first _ _ HW (ScaleElasticEP n)) as (? & ? & ?); [rewrite El; apply elem_of_app; right; by left|done].
    - apply bind_Ok in E as ([[c2 starts2] ch2] & E2 & [= <- <- <-]). subst first'. exists (sy_coord s), [], false, starts2, ch2. split_and!; try done. cbn. rewrite app_nil_r. by destruct s. }
  destruct Hfront as (c1 & starts1 & ch1 & starts2 & ch2 & HW1 & E2 & -> & ->). exists (ch1 || ch2). split; [done|]. destruct back as [[i out]|]; cbn in Hb.
  - destruct Hb as (d & ph & l1 & l2 & Hi & Eo & ->). unfold coordinator_output in E2. apply bind_Ok in E2 as (c2 & Es & E2). injection E2 as E2.
    apply (stats_waves W _ c2) in HW1; [|destruct (dpo_scheduler_stats out); [unfold coordinator_stats in Es; apply bind_Ok in Es as (? & _ & [= <-]); done|by injection Es as <-]..]. cbn in HW1.
    eapply output_waves in HW1; [|exact Hi|exact Eo|exact E2]. cbn in HW1. rewrite <-app_assoc in HW1. by erewrite broadcast_app; [exact HW1|].
  - injection E2 as -> <- <-. subst es'. by rewrite app_nil_r.
Qed.

Lemma timeout_waves W s c' u : waves W s -> coordinator_timeout (sy_coord s) = (c', u) ->
  waves W (mkSystem (sy_engines s) c' (sy_clients s) (sy_inbox s) (sy_first s) (sy_updates s ++ publish_to s (Some u))).
Proof using Type.
  intros HW E. assert (H : co_wave c' = co_wave (sy_coord s) /\ co_running c' = co_running (sy_coord s) /\ up_wave u = co_wave c' /\ up_running u = co_running c').
  { unfold coordinator_timeout in E. destruct (last_step_counts (sy_coord s)); by injection E as <- <-. }
  destruct H as (E1 & E2 & E3 & E4). destruct u as [counts w b]. cbn in E3, E4. subst w b. apply (stats_waves W s c') in HW; [|done|done]. by apply (publish_waves W _ counts) in HW.
Qed.

(** ** Engines *)

(** One engine moves; it does not fall asleep, and takes at most a message that was
    for itself. *)
Lemma engine_moves W s i p p' inbox : waves W s -> sy_engines s !! i = Some p -> engine_fine W i p' -> (awake p -> awake p') ->
  (forall o, o ∈ dp_outputs p.1 -> o ∈ dp_outputs p'.1) -> (forall m, m ∈ inbox -> m ∈ sy_inbox s) ->
  (forall j x, (j, START_DP_WAVE W x) ∈ sy_inbox s -> x ≠ Some (Index j) -> (j, START_DP_WAVE W x) ∈ inbox \/ j = i /\ awake p') ->
  (awake p' -> called W s \/ asked W s \/ exists o, o ∈ dp_outputs p'.1 /\ o.2 = start_wave_output W) ->
  waves W (mkSystem (<[i := p']> (sy_engines s)) (sy_coord s) (sy_clients s) inbox (sy_first s) (sy_updates s)).
Proof using Type.
  intros HW Hi Hp' Hawk Hout Hin Hst Hnew. set (s' := mkSystem _ _ _ _ _ _). destruct (HW) as [H1 H2 H3 H4 H5 H6 H7 H8 H9].
  assert (Hask : asked W s -> asked W s').
  { intros (j & q & o & Hj & Ho & E1). destruct (decide (j = i)) as [->|Hne]; [|exists j, q, o; cbn; by rewrite list_lookup_insert_ne]. rewrite Hi in Hj. injection Hj as <-.
    exists i, p', o. cbn. rewrite list_lookup_insert_eq by (by eapply lookup_lt_Some). split_and!; try done. by apply Hout. }
  split; cbn; try done.
  - intros j q H. apply list_lookup_insert_Some in H as [(-> & <- & _)|[Hne H]]; [done|by apply H1].
  - intros j w req Hm Ha. by apply (H5 j w req (Hin _ Hm) Ha).
  - intros j w x Hm. by apply (H6 j w x (Hin _ Hm)).
  - intros j q H Ha. apply list_lookup_insert_Some in H as [(<- & <- & _)|[Hne H]].
    { destruct (Hnew Ha) as [?|[?|(o & ?)]]; [by left|right; by apply Hask|right]. exists i, p', o. cbn. rewrite list_lookup_insert_eq by (by eapply lookup_lt_Some). done. }
    destruct (H8 j q H Ha) as [?|?]; [by left|right; by apply Hask].
  - intros Hw Hr j q H. assert (Hj : forall x, (j, START_DP_WAVE W x) ∈ sy_inbox s -> x ≠ Some (Index j) -> j = i /\ awake p' \/ exists x, (j, START_DP_WAVE W x) ∈ inbox /\ x ≠ Some (Index j)).
    { intros x Hx Hne. destruct (Hst j x Hx Hne) as [?|?]; [right; by exists x|by left]. }
    apply list_lookup_insert_Some in H as [(<- & <- & _)|[Hne H]].
    + destruct (H9 Hw Hr i p Hi) as [?|(x & Hx & Hn)]; [left; by apply Hawk|]. destruct (Hj x Hx Hn) as [[_ ?]|?]; [by left|by right].
    + destruct (H9 Hw Hr j q H) as [?|(x & Hx & Hn)]; [by left|]. destruct (Hj x Hx Hn) as [[? _]|?]; [by subst j|by right].
Qed.

Lemma in_step_running (e : Core) b : in_step e -> in_step (set_core_running b e).
Proof using Type. by intros [H1 H2 H3 H4 H5 H6]. Qed.

Lemma in_step_executor (e : Core) : in_step e -> in_step (set_executor (model_executor e) e).
Proof using Type. by intros [H1 H2 H3 H4 H5 H6]. Qed.

Lemma outputs_wider W p p' l : (awake p -> awake p') -> Forall (output_fine W p) l -> Forall (output_fine W p') l.
Proof using Type.
  intros Ha H. eapply Forall_impl; [exact H|]. intros o (E & H1 & H2). split_and!; try done. intros w Hw. destruct (H1 w Hw) as (? & ? & H3). split_and!; try done. intros Ew. by apply Ha, H3.
Qed.

(** The counts that an engine publishes. *)
Lemma published (d : Engine) : exists l, dp_outputs (maybe_publish_request_counts publish d) = dp_outputs d ++ l /\
  Forall (fun o => o.1 = -1 /\ dpo_start_wave o.2 = None /\ dpo_wave_complete o.2 = None) l /\
  dp_core (maybe_publish_request_counts publish d) = dp_core d /\ dp_rank (maybe_publish_request_counts publish d) = dp_rank d /\ dp_wave (maybe_publish_request_counts publish d) = dp_wave d /\
  step_counter (maybe_publish_request_counts publish d) = step_counter d.
Proof using Type.
  unfold maybe_publish_request_counts. destruct publish; cbn; [|exists []; by rewrite app_nil_r]. destruct (bool_decide _); [exists []; by rewrite app_nil_r|].
  eexists. split; [done|]. split; [|done]. by apply Forall_singleton.
Qed.

(** An iteration of the busy loop up to the all-reduce: it returns; who was awake
    counts a step and stays awake, and nobody wakes up on his own. *)
Record iterated (d d' : Engine) (ph : LoopPhase) : Prop := {
  it_core : in_step (dp_core d');
  it_rank : dp_rank d' = dp_rank d;
  it_wave : dp_wave d' = dp_wave d;
  it_phase : forall b, ph = Reducing b -> has_unfinished_requests (ec_scheduler (dp_core d')) = b;
  it_outputs : exists l, dp_outputs d' = dp_outputs d ++ l /\ Forall (fun o => o.1 = -1 /\ dpo_start_wave o.2 = None /\ dpo_wave_complete o.2 = None) l;
  it_awake : awake (d', ph) <-> awake (d, Looping);
  it_counter : awake (d, Looping) -> step_counter d' = step_counter d + 1 /\ (ph = Looping -> dp_running d' = true /\ step_counter d' mod 32 ≠ 0)
}.

Lemma dp_step_returns t fin (d : Engine) : in_step (dp_core d) -> exists d' ph, step_dp t fin d = Ok (d', ph) /\ iterated d d' ph.
Proof using All.
  intros HS. destruct (process_in_step cfg fs bh bs caching full masks wcfg arange_len pooling_of dev extras _ _ Hcfg Hsetup Hextras t fin _ HS) as (b & e & E & HS').
  pose proof (process_keeps_running cfg fs bh bs caching full masks wcfg arange_len pooling_of dev extras room SH t fin _ _ _ HS E) as Hrun.
  pose proof (step_unfinished cfg fs bh bs caching full masks wcfg arange_len pooling_of dev extras room SH Hcfg Hsetup Hextras t fin (dp_core d) e b HS) as Hun.
  pose proof (step_idle cfg fs bh bs caching full masks wcfg arange_len pooling_of dev extras room SH Hcfg t fin (dp_core d) e b HS) as Hid.
  unfold dp_step. rewrite E. cbn [mbind result_bind]. set (d1 := maybe_publish_request_counts publish (set_core e d)).
  destruct (published (set_core e d)) as (l & Hl & HF & Hc & Hrk & Hwv & Hct). fold d1 in Hl, Hc, Hrk, Hwv, Hct. cbn in Hl, Hc, Hrk, Hwv, Hct.
  assert (Hr1 : dp_running d1 = dp_running d) by (unfold dp_running; by rewrite Hc). rewrite Hc, Hr1. unfold awake. cbn [fst snd].
  destruct (negb b && negb (has_unfinished_requests (ec_scheduler e)) && negb (dp_running d)) eqn:Eb.
  - apply andb_true_iff in Eb as [[->%negb_true_iff E2%negb_true_iff]%andb_true_iff E3%negb_true_iff]. eexists _, _. split; [done|].
    assert (Hu0 : has_unfinished_requests (ec_scheduler (dp_core d)) = false). { destruct (has_unfinished_requests (ec_scheduler (dp_core d))) eqn:Eu; [|done]. destruct (Hun eq_refl E) as [?|?]; congruence. }
    split; try done; unfold awake; cbn [fst snd]; rewrite ?Hc, ?Hr1, ?E2, ?E3, ?Hu0; try done; [by exists l|]. by intros [?|[?|?]].
  - assert (Hb : awake (d, Looping)).
    { unfold awake. cbn [fst snd]. destruct (dp_running d); [by left|]. right. left. destruct (has_unfinished_requests (ec_scheduler (dp_core d))) eqn:Eu; [done|]. destruct (Hid eq_refl E) as [-> H]. by rewrite H in Eb. }
    assert (Hx : (if b then Ok (model_executor e) else dummy (model_executor e)) = Ok (model_executor e)) by (destruct b; [done|apply Hdummy]). rewrite Hx. cbn [mbind result_bind step_counter set_counter].
    destruct (negb ((step_counter d1 + 1) mod 32 =? 0)) eqn:Em; eexists _, _; (split; [done|]); (split; unfold awake; cbn [fst snd]; try done).
    + by apply in_step_running, in_step_executor.
    + by exists l.
    + split; [by intros _|by left].
    + intros _. cbn. rewrite Hct. split; [done|]. intros _. split; [done|]. apply negb_true_iff, Z.eqb_neq in Em. by rewrite Hct in Em.
    + by apply in_step_executor.
    + intros b1 [= <-]. done.
    + by exists l.
    + split; [by intros _|intros _; by right; right].
    + intros _. cbn. by rewrite Hct.
Qed.

Lemma iterate_waves W s i t fin d d' ph : waves W s -> sy_engines s !! i = Some (d, Looping) -> step_dp t fin d = Ok (d', ph) ->
  waves W (mkSystem (<[i := (d', ph)]> (sy_engines s)) (sy_coord s) (sy_clients s) (sy_inbox s) (sy_first s) (sy_updates s)).
Proof using All.
  intros HW Hi E. destruct (wv_engines _ _ HW _ _ Hi) as [F1 F2 F3 F4 F5]. cbn in *. destruct (dp_step_returns t fin d F1) as (d1 & ph1 & E1 & [I1 I2 I3 I4 (l & Il & IF) I6 _]). rewrite E in E1. injection E1 as <- <-.
  eapply engine_moves; [done|exact Hi| |apply I6|cbn; rewrite Il; intros o Ho; apply elem_of_app; by left|done|by left|].
  - split; cbn; try congruence; [done|]. rewrite Il. apply Forall_app. split; [eapply outputs_wider; [apply I6|exact F5]|]. eapply Forall_impl; [exact IF|]. intros o (E0 & E1 & E2). unfold output_fine. by rewrite E0, E1, E2.
  - intros Ha. apply I6 in Ha. destruct (wv_awake _ _ HW _ _ Hi Ha) as [?|?]; [by left|by right; left].
Qed.

Lemma elem_of_rest {A} (x y : A) l1 l2 : y ∈ l1 ++ x :: l2 <-> y = x \/ y ∈ l1 ++ l2.
Proof using Type. rewrite !elem_of_app, elem_of_cons. tauto. Qed.

(** An engine handles a message: what becomes of it when a core stays good. *)
Lemma start_waves W s i w x l1 l2 d d' : waves W s -> sy_inbox s = l1 ++ (i, START_DP_WAVE w x) :: l2 -> sy_engines s !! i = Some (d, Looping) -> handle_dp d (START_DP_WAVE w x) = Ok d' ->
  waves W (mkSystem (<[i := (d', Looping)]> (sy_engines s)) (sy_coord s) (sy_clients s) (l1 ++ l2) (sy_first s) (sy_updates s)).
Proof using Type.
  intros HW El Hi E. destruct (wv_engines _ _ HW _ _ Hi) as [F1 F2 F3 F4 F5]. cbn in F1, F2, F3, F4, F5.
  assert (Hm : (i, START_DP_WAVE w x) ∈ sy_inbox s) by (rewrite El; apply elem_of_rest; by left). destruct (wv_starts _ _ HW _ _ _ Hm) as [Hle Hco]. cbn in E. rewrite F2, F3 in E.
  destruct (negb _ && _) eqn:Eb.
  - apply andb_true_iff in Eb as [_ Hw%Z.leb_le]. assert (w = W) as -> by lia. destruct (Hco eq_refl) as [C1 C2].
    assert (Hd : dp_running d' = true /\ dp_rank d' = i /\ dp_wave d' = W /\ dp_outputs d' = dp_outputs d /\ in_step (dp_core d')).
    { unfold dp_running in E. cbn in E. destruct (engines_running (dp_core d)) eqn:Er; cbn in E; injection E as <-; cbn; split_and!; try done. by apply in_step_running. }
    destruct Hd as (D1 & D2 & D3 & D4 & D5). assert (Haw : awake (d', Looping)) by (by left).
    eapply engine_moves; [done|exact Hi| |done|by cbn; rewrite D4|intros m Hm1; rewrite El; apply elem_of_rest; by right| |].
    + split; try done. cbn. rewrite D4. eapply outputs_wider; [|exact F5]. done.
    + intros j y Hy Hne. rewrite El in Hy. apply elem_of_rest in Hy as [[= -> _]|?]; [by right|by left].
    + intros _. left. split; [done|by left].
  - injection E as <-. eapply engine_moves; [done|exact Hi|done|done|done|intros m Hm1; rewrite El; apply elem_of_rest; by right| |].
    + intros j y Hy Hne. rewrite El in Hy. apply elem_of_rest in Hy as [[= -> -> ->]|?]; [|by left]. exfalso. rewrite bool_decide_false in Eb by done. cbn in Eb. apply Z.leb_gt in Eb. lia.
    + intros Ha. destruct (wv_awake _ _ HW _ _ Hi Ha) as [?|?]; [by left|by right; left].
Qed.

Lemma client_deliver W s i w req l1 l2 d d' : waves W s -> sy_inbox s = l1 ++ (i, ClientMessage w req) :: l2 -> sy_engines s !! i = Some (d, Looping) ->
  in_step (dp_core d') -> dp_rank d' = i -> dp_wave d' = W -> (awake (d, Looping) -> awake (d', Looping)) ->
  (exists l, dp_outputs d' = dp_outputs d ++ l /\ Forall (fun o => o = (-1, start_wave_output W) /\ awake (d', Looping)) l) ->
  (awake (d', Looping) -> called W s \/ asked W s \/ (-1, start_wave_output W) ∈ dp_outputs d') ->
  waves W (mkSystem (<[i := (d', Looping)]> (sy_engines s)) (sy_coord s) (sy_clients s) (l1 ++ l2) (sy_first s) (sy_updates s)).
Proof using Type.
  intros HW El Hi D1 D2 D3 D4 (l & D5 & D6) D7. destruct (wv_engines _ _ HW _ _ Hi) as [F1 F2 F3 F4 F5]. cbn in F1, F2, F3, F4, F5.
  eapply engine_moves; [done|exact Hi| |done|cbn; rewrite D5; intros o Ho; apply elem_of_app; by left|intros m Hm1; rewrite El; apply elem_of_rest; by right| |].
  - split; try done. cbn. rewrite D5. apply Forall_app. split; [by eapply outputs_wider|]. eapply Forall_impl; [exact D6|]. intros o [-> Ha]. split; [done|]. split; [|done]. intros w1 [= <-]. by split_and!.
  - intros j y Hy Hne. rewrite El in Hy. apply elem_of_rest in Hy as [?|?]; [done|by left].
  - intros Ha. destruct (D7 Ha) as [?|[?|?]]; [by left|by right; left|]. right. right. by eexists.
Qed.

Lemma other_unfinished (e e' : Core) req (Hadd : is_add req = false) (Habort : forall now ids, req ≠ ABORT now ids) : handle_client_request (ModelExecutor0 := executor) cfg fs e req = Ok e' ->
  has_unfinished_requests (ec_scheduler e') = has_unfinished_requests (ec_scheduler e).
Proof using Type.
  intros E. destruct req as [|now ids| | |]; try done; [by destruct (Habort now ids)|..]; cbn in E; [|by injection E as <-].
  unfold sched_reset_prefix_cache in E. by destruct (kvm_reset_prefix_cache _) as [[ok k]|]; cbn in E; injection E as <-.
Qed.

Lemma deliver_waves W s i msg l1 l2 d d' : waves W s -> sy_inbox s = l1 ++ (i, msg) :: l2 -> sy_engines s !! i = Some (d, Looping) -> expected d msg -> handle_dp d msg = Ok d' ->
  waves W (mkSystem (<[i := (d', Looping)]> (sy_engines s)) (sy_coord s) (sy_clients s) (l1 ++ l2) (sy_first s) (sy_updates s)).
Proof using Hcfg StructuredOutput0.
  intros HW El Hi Hx E. destruct msg as [w req|w x]; [|by eapply start_waves]. destruct (wv_engines _ _ HW _ _ Hi) as [F1 F2 F3 F4 F5]. cbn in F1, F2, F3, F4, F5. destruct Hx as (Ha & Hc & Hab).
  destruct (handle_in_step cfg fs bh bs caching full masks wcfg arange_len pooling_of dev extras _ _ Hcfg _ req F1 Ha Hc) as (e' & Ee & HS').
  pose proof (handle_keeps_running cfg fs full masks wcfg arange_len pooling_of dev extras _ _ _ Ee) as Hrun. pose proof (wv_awake _ _ HW _ _ Hi) as Hold.
  destruct (is_add req) eqn:Er.
  - destruct req as [now o r| | | |]; try done. cbn [dp_handle_client_request] in E. unfold dp_add_request in E.
    pose proof (add_unfinished cfg fs bh bs caching full masks wcfg arange_len pooling_of dev extras room SH Hcfg now o r _ _ F1 Ha Hc Ee) as Hun.
    assert (Hm : (i, ClientMessage w (ADD now o r)) ∈ sy_inbox s) by (rewrite El; apply elem_of_rest; by left). destruct (wv_adds _ _ HW _ _ _ Hm eq_refl) as [Hle Hcall].
    cbn in Ee. cbn [andb] in E. rewrite F3 in E. destruct (w =? W) eqn:Ew; cbn [negb] in E.
    + apply Z.eqb_eq in Ew. rewrite Ee in E. cbn in E. injection E as <-. eapply client_deliver; [done|exact El|exact Hi|done|done|done|by right; left|exists []; by rewrite app_nil_r|]. intros _. left. by apply Hcall.
    + apply Z.eqb_neq in Ew. replace (W <? w) with false in E by (symmetry; apply Z.ltb_ge; lia). destruct (dp_running d) eqn:Erd; cbn [negb] in E.
      * rewrite Ee in E. cbn in E. injection E as <-. eapply client_deliver; [done|exact El|exact Hi|done|done|done|by right; left|exists []; by rewrite app_nil_r|].
        intros _. destruct Hold as [?|?]; [by left|by left|by right; left].
      * cbn [dp_core put_output] in E. rewrite Ee in E. cbn in E. injection E as <-. eapply client_deliver; [done|exact El|exact Hi|done|done|done|by right; left| |].
        -- eexists. split; [done|]. apply Forall_singleton. split; [done|by right; left].
        -- intros _. right. right. cbn. apply elem_of_app. right. by left.
  - assert (Hd : d' = set_core e' d) by (destruct req; try done; cbn [dp_handle_client_request] in E; rewrite Ee in E; cbn in E; by injection E as <-). subst d'.
    assert (Hsame : awake (set_core e' d, Looping) <-> awake (d, Looping)).
    { assert (Hsm := fun Hna => other_unfinished _ _ req Er Hna Ee). unfold awake, dp_running. cbn. rewrite Hrun. destruct (engines_running (dp_core d)) eqn:Ed; [split; by left|]. destruct req as [|now ids| | |]; try done; [by unfold dp_running in Hab; rewrite Ed in Hab|..]; by rewrite Hsm. }
    eapply client_deliver; [done|exact El|exact Hi|done|done|done|apply Hsame|exists []; by rewrite app_nil_r|].
    intros Hw. apply Hsame in Hw. destruct (Hold Hw) as [?|?]; [by left|by right; left].
Qed.

(** ** The all-reduce *)

Lemma unfinished_dp locals : has_unfinished_dp locals = false <-> Forall (fun b => b = false) locals.
Proof using Type.
  unfold has_unfinished_dp. rewrite negb_false_iff, Z.eqb_eq. assert (H : forall m, 0 <= m -> foldl Z.max m (Z.b2z <$> locals) = 0 <-> m = 0 /\ Forall (fun b => b = false) locals).
  { induction locals as [|b l IH]; intros m Hm; cbn; [rewrite Forall_nil; tauto|]. rewrite IH, Forall_cons by (destruct b; cbn; lia). destruct b; cbn; split; intros (H1 & H2); split_and?; try done; try lia; by destruct H2. }
  rewrite (H 0) by lia. tauto.
Qed.

(** Somebody has work: the wave goes on. *)
Lemma continue_waves W s locals : waves W s -> Forall2 (fun p b => p.2 = Reducing b) (sy_engines s) locals ->
  waves W (mkSystem ((fun p => (resume true p.1, Looping)) <$> sy_engines s) (sy_coord s) (sy_clients s) (sy_inbox s) (sy_first s) (sy_updates s)).
Proof using Type.
  intros HW HF. set (s' := mkSystem _ _ _ _ _ _). destruct (HW) as [H1 H2 H3 H4 H5 H6 H7 H8 H9].
  assert (Hp : forall i p', sy_engines s' !! i = Some p' -> exists p, sy_engines s !! i = Some p /\ p' = (resume true p.1, Looping) /\ awake p /\ awake p').
  { intros i p' Hi. cbn in Hi. apply list_lookup_fmap_Some in Hi as (p & -> & Hi). exists p. destruct (Forall2_lookup_l _ _ _ _ _ HF Hi) as (b & _ & Eb). split_and!; try done; [|by left]. right. right. by rewrite Eb. }
  assert (Hask : asked W s -> asked W s'). { intros (i & p & o & Hi & ?). exists i, (resume true p.1, Looping), o. split; [cbn; by rewrite list_lookup_fmap, Hi|done]. }
  split; try done.
  - intros i p' Hi. destruct (Hp i p' Hi) as (p & Hi0 & -> & Ha & Ha'). destruct (H1 _ _ Hi0) as [F1 F2 F3 F4 F5]. split; try done; [by apply in_step_running|]. by eapply outputs_wider.
  - intros i p' Hi _. destruct (Hp i p' Hi) as (p & Hi0 & -> & Ha & _). destruct (H8 i p Hi0 Ha) as [?|?]; [by left|right; by apply Hask].
  - intros _ _ i p' Hi. left. by destruct (Hp i p' Hi) as (p & _ & _ & _ & ?).
Qed.

(** Nobody has: all engines pause, and the next wave is another one. *)
Lemma pause_waves W s locals : waves W s -> Forall2 (fun p b => p.2 = Reducing b) (sy_engines s) locals -> Forall (fun b => b = false) locals ->
  waves (W + 1) (mkSystem ((fun p => (resume false p.1, Looping)) <$> sy_engines s) (sy_coord s) (sy_clients s) (sy_inbox s) (sy_first s) (sy_updates s)).
Proof using Type.
  intros HW HF Hlo. set (s' := mkSystem _ _ _ _ _ _). destruct (HW) as [H1 H2 H3 H4 H5 H6 H7 H8 H9].
  assert (Hp : forall i p', sy_engines s' !! i = Some p' -> exists p, sy_engines s !! i = Some p /\ p' = (resume false p.1, Looping) /\ engine_fine W i p /\ ~ awake p').
  { intros i p' Hi. cbn in Hi. apply list_lookup_fmap_Some in Hi as (p & -> & Hi). exists p. destruct (Forall2_lookup_l _ _ _ _ _ HF Hi) as (b & Hb & Eb). split_and!; try done; [by apply H1|].
    pose proof (proj1 (Forall_lookup _ _) Hlo _ _ Hb) as ->. pose proof (ef_phase _ _ _ (H1 _ _ Hi) _ Eb) as Hu. unfold awake, dp_running, dp_resume. cbn.
    destruct (dp_rank p.1 =? 0)%nat; cbn; rewrite Hu; by intros [?|[?|?]]. }
  split; cbn; try lia.
  - intros i p' Hi. destruct (Hp i p' Hi) as (p & Hi0 & -> & [F1 F2 F3 F4 F5] & Ha).
    assert (Hout : Forall (output_fine (W + 1) (resume false p.1, Looping)) (dp_outputs p.1)).
    { eapply Forall_impl; [exact F5|]. intros o (E0 & E1 & E2). split; [done|]. split; intros w Hw; [destruct (E1 w Hw) as (? & ? & _); split_and!; try done; lia|specialize (E2 w Hw); lia]. }
    unfold dp_resume. cbn. rewrite orb_false_r. destruct (dp_rank p.1 =? 0)%nat eqn:Er; (split; cbn; try done; [by apply in_step_running|by rewrite F3|]).
    + apply Forall_app. split; [unfold dp_resume in Hout; cbn in Hout; by rewrite Er in Hout|]. apply Forall_singleton. split; [done|]. split; [done|]. intros w [= <-]. lia.
    + unfold dp_resume in Hout. cbn in Hout. by rewrite Er in Hout.
  - intros f c Hc. destruct (H3 f c Hc) as [? _]. split; [done|lia].
  - intros f u Hu. destruct (H4 f u Hu) as [? _]. split; [done|lia].
  - intros i w req Hm Ha. destruct (H5 i w req Hm Ha) as [? _]. split; lia.
  - intros i w x Hm. destruct (H6 i w x Hm) as [? _]. split; lia.
  - done.
  - intros i p' Hi Ha. by destruct (Hp i p' Hi) as (p & _ & _ & _ & []).
Qed.

Lemma reduce_waves W s locals : waves W s -> Forall2 (fun p b => p.2 = Reducing b) (sy_engines s) locals ->
  exists W', waves W' (mkSystem ((fun p => (resume (has_unfinished_dp locals) p.1, Looping)) <$> sy_engines s) (sy_coord s) (sy_clients s) (sy_inbox s) (sy_first s) (sy_updates s)).
Proof using Type.
  intros HW HF. destruct (has_unfinished_dp locals) eqn:E; [exists W; by eapply continue_waves|]. exists (W + 1). eapply pause_waves; [done|done|by apply unfinished_dp].
Qed.

Lemma system_step_waves W s s' : waves W s -> system_step s s' -> exists W', waves W' s'.
Proof using All.
  intros HW E. destruct E; [| | | | | | | |by eapply reduce_waves]; exists W.
  - by eapply send_waves.
  - by eapply request_waves.
  - by eapply notify_waves.
  - by eapply update_waves.
  - by eapply coordinate_waves.
  - by eapply timeout_waves.
  - by eapply deliver_waves.
  - by eapply iterate_waves.
Qed.
End Invariant.
End Waves.
