(* ===== verification/DPProps.v ===== *)
(** Data-parallel deployments from a fresh start: engines, coordinator and clients
    agree on the waves, no wake-up is lost, and a running wave gets to its
    all-reduce; and a request that is aborted early, which strands the others. *)
From Stdlib Require Import ZArith Lia Ascii String QArith Qcanon.
From stdpp Require Import numbers gmap strings list relations.
From S2P Require Import Prelude FreeQueue Request BlockHash BlockPool KVSpec SingleType Coordinator KVCacheManager KVBacking KVStart TableCopy Ownership Capacity EncoderCache RequestQueue SchedState Scheduler SchedulerUpdate BlockTable InputBatch BatchInv LogitsProcs ModelRunner Reorder RunnerInv RunnerStep ModelInputs InputsSpec Bookkeeping GrammarBitmask BitmaskSpec WorkerStep WorkerRuns WorkerDemo Lifecycle SchedTerm LifecycleOps Progress EngineRuns Liveness SchedProps EngineProps EngineCore SchedPlan SchedSent Mirror MirrorWorker MirrorUpdate Lockstep LockstepProps DataParallel DPCore DPWaves.

Open Scope Z_scope.

Section Deployed.
Context {C G : Type} `{!KVConnector C, !StructuredOutput G, !NoGrammarNoAdvance G}.
Context (cfg : SchedConfig) (fs : string -> option Qc).
Context (bh : option hasher) (bs : Z) (caching : bool) `{!BlockHasher bh bs caching}.
Context `{HSO : !SetOrder} {M : Type} (full : M) (masks : SchedulerOutput -> list M) (wcfg : RunnerConfig) (arange_len : nat) (pooling_of : NewRequestData -> PoolingParams) (dev : Device M Z).
Context (extras : RunnerOutput Z -> SamplerExtras) (publish : bool) (dummy : Runner -> result Runner).
Context (kc : KVCacheConfig) (eagle use_int : bool) (dcp : Z) (k : KVCacheManager) (fd : option (list (Z * gset string))) (enc : EncoderCacheManager) (g : G).
Context (tables : list BlockTable) (garbage : SamplingRow).

Abbreviation Engine := (DPEngine C G Runner (result ModelRunnerOutput)).
Abbreviation System := (DPWaves.System (C := C) (G := G)).
Abbreviation deployed := (deployment cfg bs caching wcfg arange_len dev extras kc eagle use_int dcp k tables).
Abbreviation room := (room_of bs (max_model_len cfg) k).
Abbreviation waves := (DPWaves.waves cfg fs bh bs caching wcfg arange_len room (shape <$> tables)).
Abbreviation system_step := (DPWaves.system_step cfg fs bh bs caching full masks wcfg arange_len pooling_of dev extras publish dummy).

(** [engines] engine processes with fresh cores, and [clients] clients. *)
Definition fresh_engine (rank : nat) : Engine * LoopPhase := (dp_init rank (core_init (fresh_scheduler cfg k fd enc g) (fresh_worker wcfg tables garbage) 1 false), Looping).
Definition fresh_system (engines clients : nat) : System :=
  mkSystem (fresh_engine <$> seq 0 engines) (coordinator_init engines) (replicate clients (client_init engines)) [] [] [].

(** The states of a data-parallel deployment. *)
Definition system_reached (s : System) : Prop := exists engines clients, rtc system_step (fresh_system engines clients) s.

Lemma fresh_unfinished : has_unfinished_requests (fresh_scheduler (C := C) cfg k fd enc g) = false.
Proof using Type. unfold fresh_scheduler, sched_start, has_unfinished_requests, get_num_unfinished_requests. cbn. by destruct (policy cfg). Qed.

Lemma fresh_asleep rank : ~ awake (fresh_engine rank).
Proof using Type. unfold awake, fresh_engine, dp_running. cbn. rewrite fresh_unfinished. by intros [?|[?|?]]. Qed.

Lemma fresh_waves engines clients : deployed -> waves 0 (fresh_system engines clients).
Proof using All.
  intros HD. assert (He : forall i p, sy_engines (fresh_system engines clients) !! i = Some p -> p = fresh_engine i).
  { intros i p Hp. cbn in Hp. apply list_lookup_fmap_Some in Hp as (j & -> & Hj). apply lookup_seq in Hj as [-> _]. done. }
  split; try done.
  - intros i p Hp. rewrite (He _ _ Hp). split; try done. apply (reached_in_step cfg fs bh bs caching full masks wcfg arange_len pooling_of dev extras kc eagle use_int dcp k fd enc g tables garbage); [done|]. apply sv_start.
  - intros f c Hc. cbn in Hc. by apply lookup_replicate in Hc as [-> _].
  - by intros f u ?%elem_of_nil.
  - by intros i w req ?%elem_of_nil.
  - by intros i w x ?%elem_of_nil.
  - by intros m ?%elem_of_nil.
  - intros i p Hp Ha. rewrite (He _ _ Hp) in Ha. by destruct (fresh_asleep i).
Qed.

Lemma reached_waves s : deployed -> (forall w, dummy w = Ok w) -> system_reached s -> exists W, waves W s.
Proof using All.
  intros HD Hdu (n & m & HR). pose proof (fresh_waves n m HD) as HW. destruct (HD) as [D1 D2 D3 D4 D5 D6 D7 D8 D9]. revert HW. generalize 0. generalize (fresh_system n m) HR. clear HR. intros s0 HR.
  induction HR as [s0|s0 s1 s2 Hs _ IH]; intros W HW; [by exists W|]. destruct (system_step_waves cfg fs bh bs caching full masks wcfg arange_len pooling_of dev extras publish dummy room (shape <$> tables) D1 D6 D7 Hdu W s0 s1 HW Hs) as [W1 HW1]. by eapply IH.
Qed.

(** Engines, coordinator and clients agree on the waves: in every state all
    engines are in the same wave, the coordinator is at most in that wave, and no
    client is ahead of the coordinator. *)
Theorem waves_agree s : deployed -> (forall w, dummy w = Ok w) -> system_reached s -> exists W,
  (forall p, p ∈ sy_engines s -> dp_wave p.1 = W) /\ co_wave (sy_coord s) <= W /\ (forall c, c ∈ sy_clients s -> fr_wave c <= co_wave (sy_coord s)).
Proof using All.
  intros HD Hdu HR. destruct (reached_waves s HD Hdu HR) as [W HW]. exists W. split_and!.
  - intros p [i Hi]%list_elem_of_lookup. apply (wv_engines _ _ _ _ _ _ _ _ _ _ _ HW _ _ Hi).
  - apply (wv_coord _ _ _ _ _ _ _ _ _ _ _ HW).
  - intros c [f Hf]%list_elem_of_lookup. apply (wv_clients _ _ _ _ _ _ _ _ _ _ _ HW _ _ Hf).
Qed.

(** A message that wakes engine [i] up is on its way. *)
Definition woken (s : System) (i : nat) (p : Engine * LoopPhase) : Prop := exists x, (i, START_DP_WAVE (dp_wave p.1) x) ∈ sy_inbox s /\ x ≠ Some (Index (dp_rank p.1)).

(** What the coordinator may take next: a notification that a client has sent or is
    about to send, or an output of an engine. *)
Definition on_its_way (s : System) (front : option FrontMessage) (back : option (nat * DPOutputs)) : Prop :=
  (exists m, front = Some m /\ back = None /\ (m ∈ sy_first s \/ exists c c', c ∈ sy_clients s /\ send_first_request c = Some (m, c'))) \/
  (exists i p o, front = None /\ back = Some (i, o.2) /\ sy_engines s !! i = Some p /\ o ∈ dp_outputs p.1).

(** A message is on its way from which the coordinator starts wave [W], for all
    engines that do not take part in it yet. *)
Definition start_coming (W : Z) (s : System) : Prop := exists front back c starts u x, on_its_way s front back /\ coordinator_iteration front back (sy_coord s) = Ok (c, starts, u) /\
  co_wave c = W /\ co_running c = true /\ (W, x) ∈ starts /\ forall j q, sy_engines s !! j = Some q -> awake q \/ x ≠ Some (Index (dp_rank q.1)).

Lemma first_starts i w (c : DPCoordinator) : co_running c = false -> exists c' u x, coordinator_iteration (Some (FirstRequest (Identity i) w)) None c = Ok (c', [(co_wave c, x)], u) /\ co_wave c' = co_wave c /\ co_running c' = true /\
  forall j, x ≠ Some (Index j).
Proof using Type. intros Hr. unfold coordinator_iteration, coordinator_first. rewrite Hr. cbn. eexists _, _, _. split; [done|]. split_and!; try done. intros j. by destruct (_ <? _). Qed.

Lemma called_starts W s : waves W s -> called W s -> start_coming W s \/ forall j q, sy_engines s !! j = Some q -> awake q \/ woken s j q.
Proof using Type.
  intros HW [Hw Hc]. destruct (co_running (sy_coord s)) eqn:Er.
  { right. intros j q Hj. destruct (wv_engines _ _ _ _ _ _ _ _ _ _ _ HW _ _ Hj) as [F1 F2 F3 F4 F5]. destruct (wv_run _ _ _ _ _ _ _ _ _ _ _ HW Hw Er j q Hj) as [?|(x & Hx & Hne)]; [by left|right]. exists x. by rewrite F3, F2. }
  left. assert (Hm : exists i w, on_its_way s (Some (FirstRequest (Identity i) w)) None).
  { destruct Hc as [?|[Hc|(f & c & Hf & Hc)]]; [done| |].
    - destruct (sy_first s) as [|m l] eqn:El; [done|]. destruct (wv_first _ _ _ _ _ _ _ _ _ _ _ HW m) as (i & w & ->); [rewrite El; by left|]. exists i, w. left. eexists. split; [done|]. split; [done|]. left. rewrite El. by left.
    - destruct (fr_first c) as [|i l] eqn:El; [done|]. exists i, (fr_wave c). left. eexists. split; [done|]. split; [done|]. right. exists c. eexists. split; [by eapply list_elem_of_lookup_2|]. unfold send_first_request. by rewrite El. }
  destruct Hm as (i & w & Hm). destruct (first_starts i w (sy_coord s) Er) as (c & u & x & E & Ew & Erun & Hx). rewrite Hw in *. eexists _, _, c, _, u, x. split; [exact Hm|]. split; [exact E|]. split_and!; try done; [by apply list_elem_of_singleton|].
  intros j q _. right. apply Hx.
Qed.

Lemma wakeup W s i p : waves W s -> sy_engines s !! i = Some p -> awake p -> start_coming W s \/ forall j q, sy_engines s !! j = Some q -> awake q \/ woken s j q.
Proof using Type.
  intros HW Hi Ha. destruct (wv_awake _ _ _ _ _ _ _ _ _ _ _ HW i p Hi Ha) as [Hc|(j & q & o & Hj & Ho & Ho1)]; [by apply called_starts|].
  destruct (decide (co_wave (sy_coord s) = W /\ co_running (sy_coord s) = true)) as [[Hw Hr]|Hno]; [apply called_starts; [done|]; split; [done|by left]|].
  left. assert (Hst : coordinator_iteration None (Some (j, o.2)) (sy_coord s) = Ok (set_co_wave W true (sy_coord s), [(W, Some (Index j))], Some (mkUpdate None W true))).
  { unfold coordinator_iteration, coordinator_output, coordinator_waves. rewrite Ho1. cbn. pose proof (wv_coord _ _ _ _ _ _ _ _ _ _ _ HW) as Hle.
    replace ((co_wave (sy_coord s) <? W) || (W =? co_wave (sy_coord s)) && negb (co_running (sy_coord s))) with true; [done|]. symmetry. apply orb_true_iff. destruct (Z.ltb_spec (co_wave (sy_coord s)) W); [by left|right].
    assert (Hw : co_wave (sy_coord s) = W) by lia. rewrite Hw, Z.eqb_refl. destruct (co_running (sy_coord s)); [by destruct Hno|done]. }
  eexists None, _, _, _, _, _. split; [right; exists j, q, o; by split_and!|]. split; [exact Hst|]. split_and!; try done; [by apply list_elem_of_singleton|].
  intros m r Hm. destruct (decide (m = j)) as [->|Hne].
  - left. rewrite Hj in Hm. injection Hm as <-. pose proof (ef_outputs _ _ _ _ _ _ _ _ _ _ _ _ (wv_engines _ _ _ _ _ _ _ _ _ _ _ HW _ _ Hj)) as HF. rewrite Forall_forall in HF. destruct (HF o Ho) as (_ & Hstart & _).
    rewrite Ho1 in Hstart. by apply (Hstart W eq_refl).
  - right. rewrite (ef_rank _ _ _ _ _ _ _ _ _ _ _ _ (wv_engines _ _ _ _ _ _ _ _ _ _ _ HW _ _ Hm)). congruence.
Qed.

(** C9: No wake-up is lost. In every state that a data-parallel deployment of plain
    engines reaches (each as in [deployment]: full configuration of an engine without
    LoRA, drafts, grammars, connector and PRIORITY, with the worker's setup that fits
    it; admissible and acceptable requests; dummy batches that leave the worker's
    state alone; a fixed number of engines; requests not aborted before their engine
    ran for them), whatever the order in which messages arrive: when an engine takes
    part in a wave, every other engine does so too or gets a START_DP_WAVE message
    for its wave that it does not ignore; or a message is on its way on which the
    coordinator, taking it next, starts this wave for all engines that are not in it. *)
Theorem no_lost_wakeup s p : deployed -> (forall w, dummy w = Ok w) -> system_reached s -> p ∈ sy_engines s -> awake p ->
  start_coming (dp_wave p.1) s \/ forall j q, sy_engines s !! j = Some q -> awake q \/ woken s j q.
Proof using All.
  intros HD Hdu HR [i Hi]%list_elem_of_lookup Ha. destruct (reached_waves s HD Hdu HR) as [W HW].
  rewrite (ef_wave _ _ _ _ _ _ _ _ _ _ _ _ (wv_engines _ _ _ _ _ _ _ _ _ _ _ HW _ _ Hi)). by eapply wakeup.
Qed.

(** ** Getting to the all-reduce *)

(** One iteration of the busy loop of one engine, whatever the clock says and whether
    or not a future is done. *)
Definition iteration (s s' : System) : Prop := exists i t fin d d' ph, sy_engines s !! i = Some (d, Looping) /\ has_work_to_do (dp_core d) = true /\
  dp_step (ModelExecutor0 := uniproc_executor full masks wcfg arange_len pooling_of dev extras) cfg bh fs publish dummy t fin d = Ok (d', ph) /\
  s' = mkSystem (<[i := (d', ph)]> (sy_engines s)) (sy_coord s) (sy_clients s) (sy_inbox s) (sy_first s) (sy_updates s).

Lemma sum_list_insert {A} (f : A -> nat) (l : list A) : forall i x y, l !! i = Some x -> (sum_list_with f (<[i := y]> l) + f x = sum_list_with f l + f y)%nat.
Proof using Type.
  induction l as [|z l IH]; intros [|i] x y E; try done.
  - injection E as ->. cbn. lia.
  - change (<[S i := y]> (z :: l)) with (z :: <[i := y]> l). cbn [sum_list_with]. specialize (IH i x y E). lia.
Qed.

(** The iterations that an engine has left before the next all-reduce. *)
Definition left_over (p : Engine * LoopPhase) : nat := match p.2 with Looping => Z.to_nat (32 - step_counter p.1 mod 32) | Reducing _ => 0 end.
Definition iterations_left (s : System) : nat := sum_list_with left_over (sy_engines s).

Lemma left_over_bound p : (left_over p <= 32)%nat.
Proof using Type. destruct p as [d [|b]]; cbn; [|lia]. pose proof (Z.mod_pos_bound (step_counter d) 32 ltac:(lia)). lia. Qed.

Lemma iterations_bound s : (iterations_left s <= 32 * length (sy_engines s))%nat.
Proof using Type. unfold iterations_left. induction (sy_engines s) as [|p l IH]; cbn [sum_list_with length]; [lia|]. pose proof (left_over_bound p). lia. Qed.

Section Progress.
Hypotheses (HD : deployed) (Hdummy : forall w, dummy w = Ok w).

Lemma awake_works (d : Engine) : awake (d, Looping) -> has_work_to_do (dp_core d) = true.
Proof using Type. unfold has_work_to_do, has_requests. intros [Ha|[Ha|?]]; [|cbn in Ha; rewrite Ha|done]; [unfold dp_running in Ha; cbn in Ha; by rewrite Ha|by rewrite orb_true_r]. Qed.

(** An iteration keeps all engines in the wave and uses up one of those left. *)
Lemma iteration_counts W s s' : waves W s -> (forall p, p ∈ sy_engines s -> awake p) -> iteration s s' ->
  waves W s' /\ (forall p, p ∈ sy_engines s' -> awake p) /\ length (sy_engines s') = length (sy_engines s) /\ (iterations_left s' < iterations_left s)%nat.
Proof using All.
  intros HW Ha (i & t & fin & d & d' & ph & Hi & _ & E & ->). destruct (HD) as [D1 D2 D3 D4 D5 D6 D7 D8 D9].
  destruct (wv_engines _ _ _ _ _ _ _ _ _ _ _ HW _ _ Hi) as [F1 F2 F3 F4 F5]. cbn in F1. assert (Hai : awake (d, Looping)) by (apply Ha; by eapply list_elem_of_lookup_2).
  destruct (dp_step_returns cfg fs bh bs caching full masks wcfg arange_len pooling_of dev extras publish dummy room (shape <$> tables) D1 D6 D7 Hdummy t fin d F1) as (d1 & ph1 & E1 & HIt).
  rewrite E in E1. injection E1 as <- <-. split_and!; [by eapply (iterate_waves cfg fs bh bs caching full masks wcfg arange_len pooling_of dev extras publish dummy room (shape <$> tables) D1 D6 D7 Hdummy)| |by cbn; rewrite length_insert|].
  - intros p [j Hj]%list_elem_of_lookup. cbn in Hj. apply list_lookup_insert_Some in Hj as [(_ & <- & _)|[_ Hj]]; [|apply Ha; by eapply list_elem_of_lookup_2].
    destruct ph as [|b]; [|by right; right]. left. destruct (it_counter _ _ _ _ _ _ _ _ _ _ _ _ HIt Hai) as [_ Hl]. by destruct (Hl eq_refl).
  - unfold iterations_left. cbn [sy_engines]. pose proof (sum_list_insert left_over (sy_engines s) i (d, Looping) (d', ph) Hi) as Hsum. enough (left_over (d', ph) < left_over (d, Looping))%nat by lia.
    unfold left_over. cbn [fst snd]. pose proof (Z.mod_pos_bound (step_counter d) 32 ltac:(lia)). destruct ph as [|b]; [|lia]. destruct (it_counter _ _ _ _ _ _ _ _ _ _ _ _ HIt Hai) as [Hc Hl]. destruct (Hl eq_refl) as [_ Hm].
    rewrite Hc in Hm |- *. rewrite Zplus_mod in Hm |- *. rewrite (Z.mod_small 1) in Hm |- * by lia. destruct (decide (step_counter d mod 32 = 31)) as [E31|]; [by rewrite E31 in Hm|]. rewrite Z.mod_small by lia. lia.
Qed.

(** While an engine has not reached the all-reduce, there is a next iteration. *)
Lemma iteration_possible W s : waves W s -> (forall p, p ∈ sy_engines s -> awake p) -> (exists s', iteration s s') \/ forall p, p ∈ sy_engines s -> p.2 ≠ Looping.
Proof using All.
  intros HW Ha. destruct (decide (Exists (fun p => p.2 = Looping) (sy_engines s))) as [Hex|Hno]; [left|right; intros p Hp Hl; apply Hno, Exists_exists; by exists p].
  apply Exists_exists in Hex as ([d ph] & [i Hi]%list_elem_of_lookup & Hl). cbn in Hl. subst ph. destruct (HD) as [D1 D2 D3 D4 D5 D6 D7 D8 D9]. destruct (wv_engines _ _ _ _ _ _ _ _ _ _ _ HW _ _ Hi) as [F1 F2 F3 F4 F5]. cbn in F1.
  set (t := mkClock 0%Qc 0%Qc 0%Qc). destruct (dp_step_returns cfg fs bh bs caching full masks wcfg arange_len pooling_of dev extras publish dummy room (shape <$> tables) D1 D6 D7 Hdummy t false d F1) as (d1 & ph1 & E1 & _).
  eexists. exists i, t, false, d, d1, ph1. split_and!; try done. apply awake_works, Ha. by eapply list_elem_of_lookup_2.
Qed.

Lemma iterations_end W n : forall s s', waves W s -> (forall p, p ∈ sy_engines s -> awake p) -> nsteps iteration n s s' ->
  waves W s' /\ (forall p, p ∈ sy_engines s' -> awake p) /\ length (sy_engines s') = length (sy_engines s) /\ (n + iterations_left s' <= iterations_left s)%nat.
Proof using All.
  induction n as [|n IH]; intros s s' HW Ha Hn; inversion Hn as [|? ? s1 ? H1 H2]; subst; [split_and!; try done; lia|].
  destruct (iteration_counts W s s1 HW Ha H1) as (HW1 & Ha1 & Hl1 & Hd1). destruct (IH s1 s' HW1 Ha1 H2) as (HW2 & Ha2 & Hl2 & Hd2). split_and!; try done; [by rewrite Hl2|lia].
Qed.
End Progress.

(** Nothing is on its way to an engine or to the coordinator. *)
Definition quiescent (s : System) : Prop := sy_inbox s = [] /\ forall front back, ~ on_its_way s front back.

(** C10: A running wave gets to its end. In a deployment as in C9, in a reachable state
    with no message on its way to an engine or the coordinator in which an engine takes
    part in a wave, all engines do; and as long as no message comes, the engines
    together make at most 32 iterations per engine, in whatever order they take turns,
    and every order in which they go on ends with all of them in the all-reduce that
    decides whether the wave is over: before that some engine can make an iteration. *)
Theorem wave_reaches_all_reduce s p : deployed -> (forall w, dummy w = Ok w) -> system_reached s -> quiescent s -> p ∈ sy_engines s -> awake p ->
  (forall q, q ∈ sy_engines s -> awake q) /\
  forall n s', nsteps iteration n s s' -> (n <= 32 * length (sy_engines s))%nat /\
    ((exists s'', iteration s' s'') \/ length (sy_engines s') = length (sy_engines s) /\ forall q, q ∈ sy_engines s' -> exists b, q.2 = Reducing b).
Proof using All.
  intros HD Hdu HR [Hin Hno] [i Hi]%list_elem_of_lookup Ha. destruct (reached_waves s HD Hdu HR) as [W HW].
  assert (Hall : forall q, q ∈ sy_engines s -> awake q).
  { intros q [j Hj]%list_elem_of_lookup. destruct (wakeup W s i p HW Hi Ha) as [(front & back & c & starts & u & x & Hw & _)|H]; [by destruct (Hno front back)|].
    destruct (H j q Hj) as [?|(x & Hx & _)]; [done|]. rewrite Hin in Hx. by apply elem_of_nil in Hx. }
  split; [done|]. intros n s' Hn. destruct (iterations_end HD Hdu W n s s' HW Hall Hn) as (HW' & Ha' & Hl & Hle). pose proof (iterations_bound s). split; [lia|].
  destruct (iteration_possible HD Hdu W s' HW' Ha') as [?|Hr]; [by left|]. right. split; [done|]. intros q Hq. specialize (Hr q Hq). destruct q.2 as [|b]; [done|by exists b].
Qed.
End Deployed.

(** * Two engines and a client *)

#[local] Instance duo_order : SetOrder := {| set_order := elements; set_order_perm := fun X => reflexivity _ |}.

(** The deployment of [LockstepProps], twice. *)
Abbreviation twin_step := (system_step engine_cfg (fun _ => None) (Some engine_hasher) 2 true 0%nat duo_masks duo_config 16 demo_pooling duo_device duo_extras false (@Ok Runner)).
Abbreviation twin_start := (fun k => fresh_system (C := Empty_set) engine_cfg duo_config k None (enc_init 0) (∅ : gset string) duo_tables demo_garbage 2 1).

(** A request goes to the first engine, and both engines wake up. *)
Lemma twin_wave k : exists s p, rtc twin_step (twin_start k) s /\ quiescent s /\ p ∈ sy_engines s /\ awake p /\ length (sy_engines s) = 2%nat /\ p.2 = Looping.
Proof.
  eexists _, _. split_and!.
  - eapply rtc_l; [eapply (sys_send _ _ _ _ _ _ _ _ _ _ _ _ _ _ _ 0 _ (Some 0%nat) 0 1 0%nat _ _ _ 0%Qc 0 (engine_request "a" [1; 2; 3; 4; 5])); [reflexivity|reflexivity|reflexivity]|]. cbn.
    eapply rtc_l; [eapply (sys_notify _ _ _ _ _ _ _ _ _ _ _ _ _ _ _ 0); [reflexivity|reflexivity]|]. cbn.
    eapply rtc_l; [eapply (sys_coordinate _ _ _ _ _ _ _ _ _ _ _ _ _ _ _ (Some (FirstRequest (Identity 0) 0)) None); [by exists [], []|reflexivity|reflexivity]|]. cbn.
    eapply rtc_l; [eapply (sys_deliver _ _ _ _ _ _ _ _ _ _ _ _ _ _ _ 0 _ [_] [_]); [reflexivity|reflexivity|done|reflexivity]|]. cbn.
    eapply rtc_l; [eapply (sys_deliver _ _ _ _ _ _ _ _ _ _ _ _ _ _ _ 1 _ [_] []); [reflexivity|reflexivity|done|reflexivity]|]. cbn.
    eapply rtc_l; [eapply (sys_deliver _ _ _ _ _ _ _ _ _ _ _ _ _ _ _ 0 _ [] []); [reflexivity|reflexivity| |reflexivity]|apply rtc_refl]. cbn. split_and!; try done.
    + apply engine_request_new.
    + split; try done; [by intros sp toks [= <-]|by intros sp [= <-]].
  - split; [done|]. intros front back [(m & _ & _ & [Hm|(c & c' & Hc & Hs)])|(i & p & o & _ & _ & Hp & Ho)].
    + by apply elem_of_nil in Hm.
    + cbn in Hc. apply list_elem_of_singleton in Hc as ->. done.
    + apply list_elem_of_lookup_2 in Hp. cbn in Hp. apply elem_of_cons in Hp as [->|Hp%list_elem_of_singleton]; [|subst p]; by apply elem_of_nil in Ho.
  - left.
  - by left.
  - done.
  - done.
Qed.

Lemma twin_reached : exists k s p, deployment engine_cfg 2 true duo_config 16 duo_device duo_extras engine_kv false false 1 k duo_tables /\
  system_reached engine_cfg (fun _ => None) (Some engine_hasher) 2 true 0%nat duo_masks duo_config 16 demo_pooling duo_device duo_extras false (@Ok Runner) (C := Empty_set) k None (enc_init 0) (∅ : gset string) duo_tables demo_garbage s /\
  quiescent s /\ p ∈ sy_engines s /\ awake p /\ length (sy_engines s) = 2%nat.
Proof.
  destruct (run_returns (kvm_init engine_kv 64 true false false false false 1)) as [k Ek]; [by vm_compute|]. destruct (twin_wave k) as (s & p & HR & Hq & Hp & Ha & Hl & _).
  exists k, s, p. split_and!; try done; [by apply duo_deployed|]. by exists 2%nat, 1%nat.
Qed.

Lemma waves_agree_witness : exists s W p, p ∈ sy_engines (C := Empty_set) (G := gset string) s /\ awake p /\ dp_wave p.1 = W /\ co_wave (sy_coord s) <= W.
Proof.
  destruct twin_reached as (k & s & p & HD & HR & _ & Hp & Ha & _).
  destruct (waves_agree engine_cfg (fun _ => None) (Some engine_hasher) 2 true 0%nat duo_masks duo_config 16 demo_pooling duo_device duo_extras false (@Ok Runner) engine_kv false false 1 k None (enc_init 0) ∅ duo_tables
    demo_garbage s HD (fun _ => eq_refl) HR) as (W & HW & Hc & _).
  exists s, W, p. split_and!; [exact Hp|exact Ha|by apply HW|exact Hc].
Defined.

Lemma no_lost_wakeup_witness : exists s p, p ∈ sy_engines (C := Empty_set) (G := gset string) s /\ awake p /\ (start_coming (dp_wave p.1) s \/ forall j q, sy_engines s !! j = Some q -> awake q \/ woken s j q).
Proof.
  destruct twin_reached as (k & s & p & HD & HR & _ & Hp & Ha & _). exists s, p. split_and!; [exact Hp|exact Ha|].
  exact (no_lost_wakeup engine_cfg (fun _ => None) (Some engine_hasher) 2 true 0%nat duo_masks duo_config 16 demo_pooling duo_device duo_extras false (@Ok Runner) engine_kv false false 1 k None (enc_init 0) ∅ duo_tables
    demo_garbage s p HD (fun _ => eq_refl) HR Hp Ha).
Defined.

Abbreviation twin_iteration := (iteration engine_cfg (fun _ => None) (Some engine_hasher) 0%nat duo_masks duo_config 16 demo_pooling duo_device duo_extras false (@Ok Runner)).

Lemma wave_reaches_all_reduce_witness : exists k s p, rtc twin_step (twin_start k) s /\ p ∈ sy_engines s /\ awake p /\ (forall q, q ∈ sy_engines s -> awake q) /\ (exists s', twin_iteration s s') /\
  forall n s', nsteps twin_iteration n s s' -> (n <= 64)%nat.
Proof.
  destruct (run_returns (kvm_init engine_kv 64 true false false false false 1)) as [k Ek]; [by vm_compute|]. destruct (twin_wave k) as (s & p & HR & Hq & Hp & Ha & Hl & Hph).
  destruct (wave_reaches_all_reduce engine_cfg (fun _ => None) (Some engine_hasher) 2 true 0%nat duo_masks duo_config 16 demo_pooling duo_device duo_extras false (@Ok Runner) engine_kv false false 1 k None (enc_init 0) ∅ duo_tables
    demo_garbage s p (duo_deployed k Ek) (fun _ => eq_refl) (ex_intro _ 2%nat (ex_intro _ 1%nat HR)) Hq Hp Ha) as (Hall & Hend).
  exists k, s, p. split_and!; [exact HR|exact Hp|exact Ha|exact Hall| |].
  - destruct (Hend 0%nat s (nsteps_O _ _)) as (_ & [?|[_ Hred]]); [done|]. destruct (Hred p Hp) as [b Hb]. by rewrite Hph in Hb.
  - intros n s' Hn. destruct (Hend n s' Hn) as [Hle _]. rewrite Hl in Hle. lia.
Defined.

(** * An aborted request *)

Abbreviation Twin := (DPEngine Empty_set (gset string) Runner (result ModelRunnerOutput)).
Abbreviation twin_executor := (uniproc_executor 0%nat duo_masks duo_config 16 demo_pooling duo_device duo_extras).
Definition twin_handle (d : Twin) (msg : DPMessage) : result Twin := dp_handle_client_request (ModelExecutor0 := twin_executor) engine_cfg (fun _ => None) true d msg.
Definition twin_iterate (d : Twin) : result (Twin * LoopPhase) := dp_step (ModelExecutor0 := twin_executor) engine_cfg None (fun _ => None) false (@Ok Runner) (mkClock 0%Qc 0%Qc 0%Qc) false d.

(** [n] iterations that do not get to the all-reduce, and one that does. *)
Fixpoint twin_run (n : nat) (d : Twin) : result (Twin * bool) :=
  res ← twin_iterate d;
  match res, n with
  | (d, Reducing b), O => Ok (d, b)
  | (d, Looping), S n => twin_run n d
  | _, _ => Err AssertionError
  end.

(** The coordinator gets all outputs of an engine. *)
Definition twin_collect (c : DPCoordinator) (d : Twin) : result (DPCoordinator * list StartWave * Twin) :=
  '(c, starts) ← foldM (fun acc o => '(c, starts, _) ← coordinator_iteration None (Some (dp_rank d, o.2)) acc.1; Ok (c, acc.2 ++ starts)) (c, []) (dp_outputs d);
  Ok (c, starts, set_outputs [] d).

(** A wave for a request at the first engine. Then the second engine gets a request
    from a client that has not heard of the end of the wave, and the request is
    aborted before the engine makes a step. *)
Definition stranded : result (DPCoordinator * Twin * Twin) :=
  k ← kvm_init engine_kv 64 false false false false false 1;
  let fresh rank := dp_init rank (core_init (engine_start k) (runner_init duo_config duo_tables demo_garbage) 1 false) in
  '(c, _, _) ← coordinator_iteration (Some (FirstRequest (Identity 0) 0)) None (coordinator_init 2);
  a ← foldM twin_handle (fresh 0%nat) [ClientMessage 0 (ADD 0%Qc 0 (demo_request "a" [1; 2; 3; 4; 5] [])); START_DP_WAVE 0 (Some (Identity 0))];
  b ← twin_handle (fresh 1%nat) (START_DP_WAVE 0 (Some (Identity 0)));
  '(a, la) ← twin_run 31 a;
  '(b, lb) ← twin_run 31 b;
  let a := dp_resume true (has_unfinished_dp [la; lb]) a in
  let b := dp_resume true (has_unfinished_dp [la; lb]) b in
  b ← foldM twin_handle b [ClientMessage 0 (ADD 0%Qc 0 (demo_request "b" [6; 7] [])); ClientMessage 0 (ABORT 0%Qc ["b"%string])];
  '(c, sa, a) ← twin_collect c a;
  '(c, sb, b) ← twin_collect c b;
  let starts := (fun x : StartWave => START_DP_WAVE x.1 x.2) <$> sa ++ sb in
  a ← foldM twin_handle a starts;
  b ← foldM twin_handle b starts;
  '(b, _) ← twin_iterate b;
  Ok (c, a, b).

(** A request that is aborted before its engine makes a step strands the wave that
    it has started: the coordinator leaves the engine out of its broadcast, the
    engine has nothing to do any more and waits for the next message, and the other
    engines run and wait for it in their collective operations. *)
Theorem early_abort_strands_wave : exists c a b, stranded = Ok (c, a, b) /\ co_wave c = 1 /\ co_running c = true /\
  dp_wave a = 1 /\ dp_running a = true /\ dp_outputs a = [] /\ dp_wave b = 1 /\ has_work_to_do (dp_core b) = false /\ dp_outputs b = [].
Proof.
  destruct (run_returns stranded) as [[[c a] b] E]; [by vm_compute|]. exists c, a, b.
  observe E (fun x : DPCoordinator * Twin * Twin => (co_wave x.1.1, co_running x.1.1, (dp_wave x.1.2, dp_running x.1.2, dp_outputs x.1.2), (dp_wave x.2, has_work_to_do (dp_core x.2), dp_outputs x.2))) (1, true, (1, true, @nil (Z * DPOutputs)), (1, false, @nil (Z * DPOutputs))).
  injection Hobs as H1 H2 H3 H4 H5 H6 H7 H8. split_and!; [exact E|exact H1|exact H2|exact H3|exact H4|exact H5|exact H6|exact H7|exact H8].
Qed.
