(* ===== verification/EncoderSchedule.v ===== *)
(** The scheduler's reservation of encoder inputs against the encoder cache:
    what [_try_schedule_encoder_inputs] reserves can be allocated afterwards,
    and every multimodal item that the scheduled tokens touch is available. *)
From Stdlib Require Import ZArith Lia Ascii String QArith Qcanon Sorted.
From stdpp Require Import numbers gmap strings list.
From S2P Require Import Prelude Request EncoderCache RequestQueue SchedState Scheduler.

Open Scope Z_scope.

Section Reservation.
Context (size : string -> Z).
Hypothesis size_pos : forall h, 0 < size h.
Context (r : Request) (nc : Z).
Hypothesis Hsized : sized size r.

Definition sizes (hs : list string) : Z := foldr (fun h acc => size h + acc) 0 hs.

(** The inputs [inp] are the items with hashes [hs]. *)
Definition items (inp : list Z) (hs : list string) : Prop :=
  Forall2 (fun i h => exists k f, i = Z.of_nat k /\ mm_features r !! k = Some f /\ identifier f = h) inp hs.

(** The request holds a reference to the cached output of [h]. *)
Definition holds (e : EncoderCacheManager) (h : string) : Prop :=
  exists refs, cached e !! h = Some refs /\ request_id r ∈ refs.

Lemma sizes_app l1 l2 : sizes (l1 ++ l2) = sizes l1 + sizes l2.
Proof. unfold sizes. induction l1 as [|h l1 IH]; cbn; [done|]. lia. Qed.

Lemma check_free_slots i e hit e' : check_and_update_cache r i e = Ok (hit, e') -> num_free_slots e' = num_free_slots e.
Proof.
  unfold check_and_update_cache. intros E. apply bind_Ok in E as (h & _ & E). destruct (cached e !! h) as [refs|]; [|by inv_ok].
  apply bind_Ok in E as (e1 & E1 & E). destruct (decide _); inv_ok; done.
Qed.

Lemma can_allocate_false i b t e e' : can_allocate r i b t e = Ok (false, e') -> e' = e.
Proof.
  unfold can_allocate. intros E. apply bind_Ok in E as (n & _ & E). destruct (b <? n); [by inv_ok|].
  destruct (_ <=? _); [by inv_ok|]. destruct (_ <? _); [by inv_ok|]. apply bind_Ok in E as ([[[? ?] ?] ?] & _ & E). by inv_ok.
Qed.

(** ** Allocation of what was reserved *)

Lemma allocate_all inp hs : forall e,
  enc_inv size e -> items inp hs -> NoDup hs -> (forall h, h ∈ hs -> cached e !! h = None) -> sizes hs <= num_free_slots e ->
  exists e', foldM (fun e i => allocate r i e) e inp = Ok e' /\ enc_inv size e' /\
    (forall h, h ∈ hs -> holds e' h) /\ (forall h, h ∉ hs -> cached e' !! h = cached e !! h).
Proof using size_pos Hsized.
  intros e He Hit. revert e He. induction Hit as [|i h inp hs (k & f & -> & Hf & <-) Hit IH]; intros e He Hnd Hnone Hfit.
  - exists e. split; [done|]. split; [done|]. split; [|done]. by intros h ?%elem_of_nil.
  - apply NoDup_cons in Hnd as [Hh Hnd]. cbn [sizes foldr] in Hfit. fold (sizes hs) in Hfit.
    assert (Hpos : 0 <= sizes hs) by (clear -size_pos; unfold sizes; induction hs as [|h hs IH]; cbn; [lia|]; pose proof (size_pos h); lia).
    destruct (allocate_step size size_pos r k f e He Hsized Hf) as (e1 & E1 & He1 & _ & Hfree & _ & Hc1); [apply Hnone; by left|lia|].
    destruct (IH e1 He1 Hnd) as (e' & E & He' & Hin & Hout).
    + intros h Hin. rewrite Hc1, lookup_insert_ne by (by intros <-). apply Hnone. by right.
    + lia.
    + exists e'. cbn [foldM]. rewrite E1. split; [done|]. split; [done|]. split.
      * intros h [-> |Hh']%elem_of_cons; [|by apply Hin]. eexists. rewrite Hout by done. rewrite Hc1, lookup_insert_eq. split; [done|]. set_solver.
      * intros h Hn. rewrite elem_of_cons in Hn. rewrite Hout by tauto. rewrite Hc1, lookup_insert_ne; [done|]. intros <-. tauto.
Qed.

(** ** The loop *)

(** Before item [i]: the chosen inputs with their hashes, what they need, and
    that every earlier item reaching past [nc] is held or chosen. *)
Record res_inv (i : nat) (chosen : list Z) (hs : list string) (hashes : gset string) (ts : Z) (e : EncoderCacheManager) : Prop := mkRes {
  rs_enc : enc_inv size e;
  rs_items : items chosen hs;
  rs_hashes : forall h, h ∈ hashes <-> h ∈ hs;
  rs_nodup : NoDup hs;
  rs_none : forall h, h ∈ hs -> cached e !! h = None;
  rs_sum : ts = sizes hs;
  rs_fit : ts <= num_free_slots e;
  rs_done : forall k f, (k < i)%nat -> mm_features r !! k = Some f -> nc < pr_offset (mm_position f) + pr_length (mm_position f) ->
    identifier f ∈ hs \/ holds e (identifier f)
}.

(** The item at [i] needs no work, is held now, or is chosen now. *)
Lemma res_next i chosen hs hashes ts e f :
  res_inv i chosen hs hashes ts e -> mm_features r !! i = Some f ->
  (nc < pr_offset (mm_position f) + pr_length (mm_position f) -> identifier f ∈ hs \/ holds e (identifier f)) ->
  res_inv (S i) chosen hs hashes ts e.
Proof.
  intros [H1 H2 H3 H4 H5 H6 H7 H8] Hf Hdone. split; try done. intros k f' Hk Hf' Hlt.
  destruct (decide (k = i)) as [->|]; [simplify_eq; auto|]. apply (H8 k f'); [lia|done|done].
Qed.

Lemma res_hit i chosen hs hashes ts e e' f :
  res_inv i chosen hs hashes ts e -> mm_features r !! i = Some f ->
  check_and_update_cache r (Z.of_nat i) e = Ok (true, e') -> res_inv (S i) chosen hs hashes ts e'.
Proof using size_pos Hsized.
  intros HI Hf E. destruct (check_and_update_step size size_pos r i f e (rs_enc _ _ _ _ _ _ HI) Hf) as (e1 & E1 & He1 & _ & Hc1).
  rewrite E in E1. injection E1 as Hb <-. symmetry in Hb. apply bool_decide_eq_true in Hb. rewrite decide_True in Hc1 by done.
  pose proof (check_free_slots _ _ _ _ E) as Hfree. destruct HI as [H1 H2 H3 H4 H5 H6 H7 H8].
  assert (Hh : holds e' (identifier f)) by (eexists; rewrite Hc1, lookup_insert_eq; split; [done|set_solver]).
  apply (res_next _ _ _ _ _ _ f); [|done|auto]. split; try done.
  - intros h Hin. rewrite Hc1, lookup_insert_ne; [by apply H5|]. intros <-. rewrite (H5 _ Hin) in Hb. by destruct Hb.
  - lia.
  - intros k f' Hk Hf' Hlt. destruct (H8 k f' Hk Hf' Hlt) as [?|(refs & Hr & Hin)]; [by left|]. right.
    destruct (decide (identifier f = identifier f')) as [<-|Hne]; [done|]. exists refs. by rewrite Hc1, lookup_insert_ne.
Qed.

Lemma res_choose i chosen hs hashes ts e e' f b :
  res_inv i chosen hs hashes ts e -> mm_features r !! i = Some f -> cached e !! identifier f = None -> identifier f ∉ hs ->
  can_allocate r (Z.of_nat i) b ts e = Ok (true, e') ->
  res_inv (S i) (chosen ++ [Z.of_nat i]) (hs ++ [identifier f]) ({[ identifier f ]} ∪ hashes) (ts + size (identifier f)) e' /\
  size (identifier f) <= b.
Proof using size_pos Hsized.
  intros HI Hf Hnone Hnew E. destruct (can_allocate_step size size_pos r i f e b ts (rs_enc _ _ _ _ _ _ HI) Hsized Hf)
    as (ok & e1 & E1 & He1 & _ & Hok & Hfit & gone & Hfl & _ & Hc1). rewrite E in E1. injection E1 as <- <-.
  destruct Hok as [Hok _]. destruct (Hok eq_refl) as [Hb _]. destruct (Hfit eq_refl) as [Hfree _]. split; [|done].
  destruct HI as [H1 H2 H3 H4 H5 H6 H7 H8].
  assert (Hkeep : forall h, holds e h -> holds e' h).
  { intros h (refs & Hr & Hin). exists refs. rewrite Hc1, decide_False; [done|]. intros Hg.
    assert (cached e !! h = Some ∅) as Hx by (apply (ei_refs _ _ H1); rewrite Hfl, fmap_app, elem_of_app; by left).
    rewrite Hr in Hx. injection Hx as ->. set_solver. }
  assert (Hgone : forall h, cached e !! h = None -> cached e' !! h = None) by (intros h Hx; rewrite Hc1; by destruct (decide _)).
  split; try done.
  - apply Forall2_app; [done|]. constructor; [|constructor]. by exists i, f.
  - intros h. rewrite elem_of_union, elem_of_app, elem_of_singleton, list_elem_of_singleton, H3. tauto.
  - apply NoDup_app. split; [done|]. split; [|apply NoDup_singleton]. intros h Hin ->%list_elem_of_singleton. done.
  - intros h [Hin| ->%list_elem_of_singleton]%elem_of_app; apply Hgone; [by apply H5|done].
  - rewrite sizes_app. unfold sizes at 2. cbn. lia.
  - lia.
  - intros k f' Hk Hf' Hlt. rewrite elem_of_app, list_elem_of_singleton. destruct (decide (k = i)) as [->|]; [simplify_eq; auto|].
    destruct (H8 k f' ltac:(lia) Hf' Hlt); auto.
Qed.

Context (cfg : SchedConfig).
Hypothesis Hdec : is_encoder_decoder cfg = false.
(** The items are listed in the order of their positions. *)
Hypothesis Hsorted : forall j k f g, (j <= k)%nat -> mm_features r !! j = Some f -> mm_features r !! k = Some g ->
  pr_offset (mm_position f) <= pr_offset (mm_position g).

(** The outcome of the loop started with [n] tokens, budget [b] and [ts]
    reserved: items from [i'] on lie behind the scheduled tokens. *)
Definition loop_ok (n b ts : Z) (res : result (list Z * Z * Z * EncoderCacheManager)) : Prop :=
  exists chosen' hs' hashes' ts' n' b' e' i', res = Ok (chosen', n', b', e') /\ res_inv i' chosen' hs' hashes' ts' e' /\
    b' = b - (ts' - ts) /\ (0 <= b -> 0 <= b') /\ n' <= Z.max 0 n /\
    (0 < n' -> forall k f, (i' <= k)%nat -> mm_features r !! k = Some f -> nc + n' <= pr_offset (mm_position f)).

Lemma loop_stop i chosen hs hashes ts e n b n' f :
  res_inv i chosen hs hashes ts e -> mm_features r !! i = Some f -> n' <= Z.max 0 n ->
  (0 < n' -> nc + n' <= pr_offset (mm_position f)) -> loop_ok n b ts (Ok (chosen, n', b, e)).
Proof using Hsorted.
  intros HI Hf Hn Hoff. exists chosen, hs, hashes, ts, n', b, e, i. split; [done|]. split; [done|]. split; [lia|]. split; [done|].
  split; [done|]. intros Hpos k g Hk Hg. specialize (Hoff Hpos). specialize (Hsorted i k f g Hk Hf Hg). lia.
Qed.

Lemma encoder_loop_ok l : forall i chosen hs hashes ts e n b,
  drop i (mm_positions r) = l -> res_inv i chosen hs hashes ts e ->
  loop_ok n b ts (encoder_inputs_loop cfg r nc l (Z.of_nat i) chosen n b hashes ts e).
Proof using size_pos Hsized Hdec Hsorted.
  induction l as [|pos l IH]; intros i chosen hs hashes ts e n b Hl HI; cbn [encoder_inputs_loop].
  { exists chosen, hs, hashes, ts, n, b, e, i. split; [done|]. split; [done|]. split; [lia|]. split; [done|]. split; [lia|].
    intros _ k f Hk Hf. exfalso. apply (f_equal length) in Hl. rewrite length_drop in Hl. unfold mm_positions in Hl. rewrite length_fmap in Hl.
    apply lookup_lt_Some in Hf. cbn in Hl. lia. }
  assert (Hlen : (i < length (mm_features r))%nat).
  { apply (f_equal length) in Hl. rewrite length_drop in Hl. unfold mm_positions in Hl. rewrite length_fmap in Hl. cbn in Hl. lia. }
  destruct (lookup_lt_is_Some_2 _ _ Hlen) as [f Hf].
  assert (Hpos : pos = mm_position f /\ drop (S i) (mm_positions r) = l).
  { assert (Hp : mm_positions r !! i = Some (mm_position f)) by (unfold mm_positions; by rewrite list_lookup_fmap, Hf).
    rewrite (drop_S _ _ _ Hp) in Hl. by simplify_eq. }
  destruct Hpos as [-> Hl'].
  replace (Z.of_nat i + 1) with (Z.of_nat (S i)) by lia. rewrite Hdec. cbn [andb].
  destruct (Z.leb_spec (nc + n) (pr_offset (mm_position f))) as [Hout|Hin]; [eapply loop_stop; [done|done|lia|done]|].
  destruct (Z.leb_spec (pr_offset (mm_position f) + pr_length (mm_position f)) nc) as [Hbefore|Hover].
  { eapply IH; [done|]. eapply res_next; [done|done|lia]. }
  destruct (feature_lookup r i f Hf) as [Hh _]. rewrite Hh. cbn [mbind result_bind].
  destruct (decide (identifier f ∈ hashes)) as [Hdup|Hnew].
  { cbn [mbind result_bind]. eapply IH; [done|]. eapply res_next; [done|done|]. intros _. left. by apply (rs_hashes _ _ _ _ _ _ HI). }
  destruct (check_and_update_step size size_pos r i f e (rs_enc _ _ _ _ _ _ HI) Hf) as (e1 & E1 & _ & _ & _).
  destruct (cached e !! identifier f) as [refs|] eqn:Ec.
  { rewrite bool_decide_true in E1 by (by eexists). rewrite E1. cbn [mbind result_bind]. eapply IH; [done|]. by eapply res_hit. }
  rewrite bool_decide_false in E1 by (by intros [? ?]).
  assert (e1 = e) as ->. { unfold check_and_update_cache in E1. rewrite Hh in E1. cbn in E1. rewrite Ec in E1. by inv_ok. }
  rewrite E1. cbn [mbind result_bind].
  destruct (chunked_mm_disabled cfg && (nc <? pr_offset (mm_position f)) && _); [eapply loop_stop; [done|done|lia|lia]|].
  destruct (can_allocate_step size size_pos r i f e b ts (rs_enc _ _ _ _ _ _ HI) Hsized Hf) as (ok & e2 & E2 & _). rewrite E2. cbn [mbind result_bind].
  destruct ok; cbn [negb].
  - assert (Hnh : identifier f ∉ hs) by (by rewrite <-(rs_hashes _ _ _ _ _ _ HI)).
    destruct (res_choose _ _ _ _ _ _ _ _ _ HI Hf Ec Hnh E2) as [HI' Hb].
    assert (Hsz : pr_length (mm_position f) = size (identifier f)) by (apply Hsized; by eapply list_elem_of_lookup_2). rewrite Hsz.
    destruct (IH (S i) _ _ _ _ _ n (b - size (identifier f)) Hl' HI') as (c' & h' & hh' & t' & n' & b' & e' & i' & E & HR & Hb' & Hnn & Hle & Hoff).
    exists c', h', hh', t', n', b', e', i'. split; [done|]. split; [done|]. split; [lia|]. split; [intros; apply Hnn; lia|]. done.
  - apply can_allocate_false in E2 as ->. eapply loop_stop; [done|done|destruct (Z.ltb_spec nc (pr_offset (mm_position f))); lia|].
    destruct (Z.ltb_spec nc (pr_offset (mm_position f))); lia.
Qed.
End Reservation.

(** C31: Reserving the encoder inputs of a request is sound, for a decoder-only
    model (not an encoder-decoder one), a consistent encoder cache, and a
    request whose multi-modal items are listed by position. The reservation
    always succeeds; it never schedules more tokens than asked for and never
    overruns the encoder compute budget; everything it reserved can then be
    allocated in the encoder cache without an assertion failing; and afterwards
    the request holds the cached encoder output of every item that the scheduled
    token range [nc, nc + n') touches. *)
Theorem encoder_reservation_sound (size : string -> Z) (cfg : SchedConfig) (r : Request) (nc n b : Z) (e : EncoderCacheManager) :
  (forall h, 0 < size h) -> is_encoder_decoder cfg = false -> enc_inv size e -> sized size r ->
  (forall j k f g, (j <= k)%nat -> mm_features r !! j = Some f -> mm_features r !! k = Some g ->
     pr_offset (mm_position f) <= pr_offset (mm_position g)) ->
  exists inputs n' b' e' e'', try_schedule_encoder_inputs cfg r nc n b e = Ok (inputs, n', b', e') /\
    foldM (fun e i => allocate r i e) e' inputs = Ok e'' /\ enc_inv size e'' /\
    n' <= Z.max 0 n /\ (0 <= b -> 0 <= b') /\
    (0 < n' -> forall k f, mm_features r !! k = Some f ->
       pr_offset (mm_position f) < nc + n' -> nc < pr_offset (mm_position f) + pr_length (mm_position f) -> holds r e'' (identifier f)).
Proof.
  intros Hpos Hdec He Hs Hsort. unfold try_schedule_encoder_inputs.
  destruct ((n =? 0) || negb (has_encoder_inputs r)) eqn:Eg.
  { exists [], n, b, e, e. split; [done|]. split; [done|]. split; [done|]. split; [lia|]. split; [done|]. intros Hn k f Hf. exfalso.
    apply orb_true_iff in Eg as [?|Hno]; [lia|]. apply negb_true_iff, Z.ltb_ge in Hno. unfold num_encoder_inputs, zlen in Hno.
    apply lookup_lt_Some in Hf. lia. }
  assert (Hne : (0 <? zlen (mm_positions r)) = true).
  { apply orb_false_iff in Eg as [_ Hx]. apply negb_false_iff in Hx. unfold has_encoder_inputs, num_encoder_inputs, mm_positions, zlen in *.
    by rewrite length_fmap. }
  rewrite Hne. cbn [assert_ mbind result_bind].
  destruct (encoder_loop_ok size Hpos r nc Hs cfg Hdec Hsort (mm_positions r) 0 [] [] ∅ 0 e n b)
    as (chosen & hs & hh & ts & n' & b' & e' & i' & E & [H1 H2 H3 H4 H5 H6 H7 H8] & _ & Hb & Hn & Hoff).
  - done.
  - split; [done|constructor|set_solver|by apply NoDup_nil|by intros h ?%elem_of_nil|done|apply (ei_pos _ _ He)|intros k f Hk; lia].
  - destruct (allocate_all size Hpos r Hs chosen hs e' H1 H2 H4 H5) as (e'' & E'' & He'' & Hin & Hout); [lia|].
    exists chosen, n', b', e', e''. change 0 with (Z.of_nat 0) at 1. split; [exact E|]. split; [done|]. split; [done|]. split; [done|]. split; [done|].
    intros Hn' k f Hf Hlt Hgt. destruct (decide (k < i')%nat) as [Hk|Hk].
    + destruct (H8 k f Hk Hf Hgt) as [?|(refs & Hr & Hrid)]; [by apply Hin|]. destruct (decide (identifier f ∈ hs)); [by apply Hin|].
      exists refs. by rewrite Hout.
    + specialize (Hoff Hn' k f ltac:(lia) Hf). lia.
Qed.

(** Three images, two of them the same, and a cache of eight tokens. *)
Definition image_request : Request :=
  set_mm [mkFeature (mkRange 0 3) "x"; mkFeature (mkRange 4 2) "y"; mkFeature (mkRange 6 3) "x"] (demo_request "a" [1; 2; 3; 4; 5; 6; 7; 8; 9; 10] []).

Definition image_size (h : string) : Z := if decide (h = "x"%string) then 3 else 2.

Lemma encoder_reservation_sound_witness :
  let cfg := mkSchedConfig FCFS 4 100 64 0 true false 8 false false 0 None 0 0 2 1 false false false 0%Qc in
  exists e' e'', try_schedule_encoder_inputs cfg image_request 0 10 8 (enc_init 8) = Ok ([0; 1], 10, 3, e') /\
    foldM (fun e i => allocate image_request i e) e' [0; 1] = Ok e'' /\ holds image_request e'' "x".
Proof.
  intros cfg. destruct (encoder_reservation_sound image_size cfg image_request 0 10 8 (enc_init 8)) as (inputs & n' & b' & e' & e'' & E & Ea & _ & _ & _ & H).
  - intros h. unfold image_size. destruct (decide _); lia.
  - reflexivity.
  - apply enc_init_inv. lia.
  - intros f [-> |[-> |[-> |?%elem_of_nil]%elem_of_cons]%elem_of_cons]%elem_of_cons; done.
  - intros j k f g Hjk Hf Hg. destruct j as [|[|[|j]]], k as [|[|[|k]]]; cbn in *; try lia; simplify_eq; cbn; lia.
  - assert (E' := E). vm_compute in E'. injection E' as <- <- <- <-. eexists _, e''. split; [exact E|]. split; [exact Ea|].
    apply (H ltac:(lia) 0%nat (mkFeature (mkRange 0 3) "x")); [reflexivity|cbn; lia|cbn; lia].
Defined.
