(* ===== verification/MimirConnector.v ===== *)
(** The CPU-memory KV connector of
    src/vllm/distributed/kv_transfer/kv_connector/v1/mimir_connector.py, as an
    implementation of the scheduler's connector interface, with the worker
    side that copies KV between the paged GPU buffers and the CPU store.

    A layer's paged buffer is the list of its slots (page, offset), flattened;
    the KV of one slot is opaque. The MD5 digest of a token prefix is a
    parameter. *)
From Stdlib Require Import ZArith Lia Ascii String QArith Qcanon.
From stdpp Require Import numbers gmap strings list.
From S2P Require Import Prelude FreeQueue Request BlockPool KVSpec SingleType Coordinator KVCacheManager EncoderCache RequestQueue SchedState Scheduler SchedulerUpdate LifecycleOps SchedProps.

Open Scope Z_scope.

(** ** Metadata *)

Definition align_to_block_size (num_tokens block_size : Z) : Z := num_tokens / block_size * block_size.

Record ReqMeta := mkMeta {
  token_ids : list Z;
  slot_mapping : list Z;
  is_store : bool;
  meta_mm_hashes : list string;
  hit_token_count : Z
}.

(** [block_offsets + block_ids * block_size], flattened. *)
Definition slots_of (block_size : Z) (block_ids : list Z) : list Z :=
  concat ((fun b => (fun off => off + b * block_size) <$> (Z.of_nat <$> seq 0 (Z.to_nat block_size))) <$> block_ids).

Definition make_meta (toks block_ids : list Z) (block_size : Z) (store : bool) (hashes : list string) (hit : option Z) : ReqMeta :=
  let blocks_tokens := zlen block_ids * block_size in
  let aligned_tokens := align_to_block_size (zlen toks) block_size in
  let valid := Z.min aligned_tokens blocks_tokens in
  if valid =? 0 then mkMeta [] [] store hashes 0 else
  mkMeta (pytake valid toks) (pytake valid (slots_of block_size block_ids)) store hashes (Z.min (default valid hit) valid).

(** ** State *)

Section Connector.
(** The KV of one slot, and the digest of a token prefix. *)
Context {V : Type} (prefix_hash : list Z -> string).

Record MimirConnector := mkMimir {
  mc_block_size : Z;
  requests_need_load : gmap string Request;
  hit_lengths : gmap string Z;
  cpu_kv_store : gmap string (gmap string (list V))
}.

(** ** Scheduler side *)

(** The scan [for n in range(aligned_total, 0, -block_size)], [k] blocks. *)
Fixpoint scan_prefixes (k : nat) (toks : list Z) (c : MimirConnector) : option (string * Z) :=
  match k with
  | O => None
  | S k' =>
      let n := Z.of_nat k * mc_block_size c in
      let key := prefix_hash (pytake n toks) in
      if decide (is_Some (cpu_kv_store c !! key)) then Some (key, n) else scan_prefixes k' toks c
  end.

Definition lookup_prefix_hit (r : Request) (c : MimirConnector) : option (string * Z) :=
  scan_prefixes (Z.to_nat (zlen (prompt_token_ids r) / mc_block_size c)) (prompt_token_ids r) c.

Definition mimir_matched_tokens (r : Request) (num_computed : Z) (c : MimirConnector) : result (option Z * bool * MimirConnector) :=
  match lookup_prefix_hit r c with
  | None => Ok (Some 0, false, c)
  | Some (_, num_hit) =>
      let new_tokens := num_hit - num_computed in
      if new_tokens <=? 0 then Ok (Some 0, false, c) else
      Ok (Some new_tokens, false,
          mkMimir (mc_block_size c) (requests_need_load c) (<[request_id r := num_hit]> (hit_lengths c)) (cpu_kv_store c))
  end.

Definition mimir_after_alloc (r : Request) (num_external : Z) (c : MimirConnector) : MimirConnector :=
  if 0 <? num_external
  then mkMimir (mc_block_size c) (<[request_id r := r]> (requests_need_load c)) (hit_lengths c) (cpu_kv_store c)
  else c.

(** Load or store of a request scheduled for the first time. *)
Definition new_req_meta (nr : NewRequestData) (c : MimirConnector) : result (list ReqMeta) :=
  if decide (is_Some (requests_need_load c !! nr_req_id nr)) then
    block_ids ← pyindex (nr_block_ids nr) 0;
    let hit_len := default (zlen (nr_prompt_token_ids nr)) (hit_lengths c !! nr_req_id nr) in
    Ok [make_meta (nr_prompt_token_ids nr) block_ids (mc_block_size c) false (nr_mm_hashes nr) (Some hit_len)]
  else if mc_block_size c <=? align_to_block_size (zlen (nr_prompt_token_ids nr)) (mc_block_size c) then
    block_ids ← pyindex (nr_block_ids nr) 0;
    Ok [make_meta (nr_prompt_token_ids nr) block_ids (mc_block_size c) true (nr_mm_hashes nr) None]
  else Ok [].

(** The loop over the cached requests from index [i]; it ends at the first
    request that was not resumed from preemption. *)
Fixpoint resumed_metas (ids : list string) (i : Z) (out : SchedulerOutput) (c : MimirConnector) : result (list ReqMeta) :=
  match ids with
  | [] => Ok []
  | rid :: ids =>
      resumed ← pyindex (cr_resumed_from_preemption (so_cached_reqs out)) i;
      if negb resumed then Ok [] else
      m ← (match requests_need_load c !! rid with
           | None => Ok []
           | Some r =>
               nc ← pyindex (cr_num_computed_tokens (so_cached_reqs out)) i;
               n ← get_or KeyError (dget rid (so_num_scheduled_tokens out));
               nb ← pyindex (cr_new_block_ids (so_cached_reqs out)) i;
               nb ← get_or TypeError nb;
               block_ids ← pyindex nb 0;
               let hit_len := default nc (hit_lengths c !! rid) in
               Ok [make_meta (pytake (nc + n) (all_token_ids r)) block_ids (mc_block_size c) false (mm_hashes r) (Some hit_len)]
           end);
      rest ← resumed_metas ids (i + 1) out c;
      Ok (m ++ rest)
  end.

Definition mimir_build_meta (out : SchedulerOutput) (c : MimirConnector) : result (list ReqMeta * MimirConnector) :=
  new ← mapM_res (fun nr => new_req_meta nr c) (so_new_reqs out);
  resumed ← resumed_metas (cr_req_ids (so_cached_reqs out)) 0 out c;
  Ok (concat new ++ resumed, mkMimir (mc_block_size c) ∅ ∅ (cpu_kv_store c)).

(** The connector interface; finishing a request, events and worker output
    are the defaults of the base class. *)
#[export] Instance mimir_connector : KVConnector MimirConnector := {|
  ConnMeta := list ReqMeta;
  get_num_new_matched_tokens := mimir_matched_tokens;
  update_state_after_alloc := fun r _ n c => Ok (mimir_after_alloc r n c);
  build_connector_meta := mimir_build_meta;
  request_finished := fun _ _ c => Ok (false, PNone, c);
  conn_take_events := fun c => ([], c);
  update_connector_output := fun _ c => Ok c
|}.

(** ** Worker side *)






End Connector.
Arguments MimirConnector : clear implicits.
Arguments mkMimir {V}.

(** * Slot mappings *)

Lemma concat_lookup {A} (n : nat) (ls : list (list A)) : forall i,
  (0 < n)%nat -> Forall (fun l => length l = n) ls -> concat ls !! i = (ls !! (i / n)%nat) ≫= (fun l => l !! (i mod n)%nat).
Proof.
  induction ls as [|l ls IH]; intros i Hn Hf; [done|]. apply Forall_cons in Hf as [Hl Hf]. cbn [concat].
  destruct (decide (i < n)%nat) as [Hi|Hi].
  - rewrite lookup_app_l by lia. by rewrite Nat.div_small, Nat.mod_small by lia.
  - rewrite lookup_app_r by lia. rewrite Hl, (IH _ Hn Hf).
    assert (E : i = ((i - n) + 1 * n)%nat) by lia.
    assert (i / n = S ((i - n) / n))%nat as -> by (rewrite E at 1; rewrite Nat.div_add by lia; lia).
    assert (i mod n = (i - n) mod n)%nat as -> by (rewrite E at 1; by rewrite Nat.Div0.mod_add). done.
Qed.

Lemma slots_of_lookup bs ids i :
  0 < bs -> slots_of bs ids !! i = (fun b => Z.of_nat i mod bs + b * bs) <$> ids !! (i / Z.to_nat bs)%nat.
Proof.
  intros Hbs. unfold slots_of. rewrite (concat_lookup (Z.to_nat bs)); [|lia|].
  2:{ apply Forall_fmap, Forall_true. intros b. cbn. by rewrite !length_fmap, length_seq. }
  rewrite list_lookup_fmap. destruct (ids !! (i / Z.to_nat bs)%nat) as [b|]; [|done]. cbn.
  pose proof (Nat.mod_upper_bound i (Z.to_nat bs) ltac:(lia)).
  rewrite !list_lookup_fmap, lookup_seq_lt by lia. cbn. rewrite Nat2Z.inj_mod, Z2Nat.id by lia. done.
Qed.

Lemma slots_of_length bs ids : 0 < bs -> zlen (slots_of bs ids) = zlen ids * bs.
Proof.
  intros Hbs. unfold slots_of, zlen. induction ids as [|b ids IH]; [done|]. cbn [fmap list_fmap concat].
  rewrite length_app, !length_fmap, length_seq. cbn. lia.
Qed.

Definition meta_length (toks ids : list Z) (bs : Z) : Z := Z.min (align_to_block_size (zlen toks) bs) (zlen ids * bs).

Lemma align_bounds n bs : 0 < bs -> 0 <= n -> 0 <= align_to_block_size n bs <= n.
Proof. intros Hb Hn. unfold align_to_block_size. pose proof (Z.div_mod n bs ltac:(lia)). pose proof (Z.mod_pos_bound n bs Hb).
  pose proof (Z.div_pos n bs Hn Hb). nia. Qed.

Lemma meta_length_bounds toks ids bs : 0 < bs -> 0 <= meta_length toks ids bs <= zlen toks /\ meta_length toks ids bs <= zlen ids * bs.
Proof.
  intros Hbs. unfold meta_length. pose proof (align_bounds (zlen toks) bs Hbs (zlen_nonneg toks)). pose proof (zlen_nonneg ids). nia.
Qed.

Lemma make_meta_fields toks ids bs st hs hit :
  0 < bs ->
  token_ids (make_meta toks ids bs st hs hit) = take (Z.to_nat (meta_length toks ids bs)) toks /\
  slot_mapping (make_meta toks ids bs st hs hit) = take (Z.to_nat (meta_length toks ids bs)) (slots_of bs ids) /\
  is_store (make_meta toks ids bs st hs hit) = st /\
  hit_token_count (make_meta toks ids bs st hs hit) =
    if decide (meta_length toks ids bs = 0) then 0 else Z.min (default (meta_length toks ids bs) hit) (meta_length toks ids bs).
Proof.
  intros Hbs. pose proof (meta_length_bounds toks ids bs Hbs). unfold make_meta. fold (meta_length toks ids bs). cbv zeta.
  destruct (Z.eqb_spec (meta_length toks ids bs) 0) as [->|Hne].
  - rewrite decide_True by done. done.
  - rewrite decide_False by done. cbn [token_ids slot_mapping is_store hit_token_count].
    rewrite !pytake_nat; [done|rewrite slots_of_length by done; lia|lia].
Qed.

(** The metadata of a transfer is consistent: it covers a prefix of the given
    tokens that is a whole number of blocks and lies within the given blocks,
    token [i] of it is in slot [i mod block_size] of block [i / block_size],
    and at most that many tokens are loaded. *)
Theorem meta_covers_blocks (toks ids : list Z) (bs : Z) (st : bool) (hs : list string) (hit : option Z) :
  0 < bs -> (forall h, hit = Some h -> 0 <= h) ->
  let m := make_meta toks ids bs st hs hit in
  token_ids m `prefix_of` toks /\ length (slot_mapping m) = length (token_ids m) /\ zlen (token_ids m) mod bs = 0 /\
  zlen (token_ids m) = Z.min (align_to_block_size (zlen toks) bs) (zlen ids * bs) /\
  0 <= hit_token_count m <= zlen (token_ids m) /\
  (forall i, (i < length (token_ids m))%nat -> exists b, ids !! (i / Z.to_nat bs)%nat = Some b /\
     slot_mapping m !! i = Some (Z.of_nat i mod bs + b * bs)).
Proof.
  intros Hbs Hhit m. destruct (make_meta_fields toks ids bs st hs hit Hbs) as (E1 & E2 & _ & E4). fold m in E1, E2, E4.
  pose proof (meta_length_bounds toks ids bs Hbs) as [H1 H2]. pose proof (slots_of_length bs ids Hbs) as H3. pose proof (zlen_nonneg ids).
  set (n := meta_length toks ids bs) in *.
  assert (L1 : length (token_ids m) = Z.to_nat n) by (rewrite E1, length_take; unfold zlen in *; lia).
  assert (L2 : length (slot_mapping m) = Z.to_nat n) by (rewrite E2, length_take; unfold zlen in *; lia).
  split; [rewrite E1; apply prefix_take|]. split; [lia|]. assert (Hz : zlen (token_ids m) = n) by (unfold zlen; lia). rewrite Hz.
  split; [|split; [done|split]].
  - unfold n, meta_length, align_to_block_size. destruct (Z.min_spec (zlen toks / bs * bs) (zlen ids * bs)) as [[_ ->]|[_ ->]]; apply Z.mod_mul; lia.
  - rewrite E4. destruct (decide (n = 0)); [lia|]. destruct hit as [h|]; cbn; [specialize (Hhit h eq_refl)|]; lia.
  - intros i Hi. rewrite E2, lookup_take_lt, slots_of_lookup by lia.
    destruct (lookup_lt_is_Some_2 ids (i / Z.to_nat bs)) as [b Hb]; [|exists b; by rewrite Hb].
    apply Nat.Div0.div_lt_upper_bound. unfold zlen in *. nia.
Qed.

Lemma meta_covers_blocks_witness :
  let m := make_meta [11; 12; 13; 14; 15] [7; 3] 2 false [] (Some 2) in
  slot_mapping m = [14; 15; 6; 7] /\ token_ids m `prefix_of` [11; 12; 13; 14; 15] /\ hit_token_count m <= 4.
Proof.
  intros m. destruct (meta_covers_blocks [11; 12; 13; 14; 15] [7; 3] 2 false [] (Some 2)) as (H1 & _ & _ & _ & H2 & _); [lia|intros h [= <-]; lia|].
  split; [reflexivity|]. split; [exact H1|]. exact (proj2 H2).
Defined.

(** * Prefix lookup *)

Section Lookup.
Context {V : Type} (prefix_hash : list Z -> string).

Lemma scan_prefixes_spec k toks (c : MimirConnector V) :
  match scan_prefixes prefix_hash k toks c with
  | Some (key, n) => exists j, (0 < j <= k)%nat /\ n = Z.of_nat j * mc_block_size c /\ key = prefix_hash (pytake n toks) /\
      is_Some (cpu_kv_store c !! key) /\
      forall i, (j < i <= k)%nat -> cpu_kv_store c !! prefix_hash (pytake (Z.of_nat i * mc_block_size c) toks) = None
  | None => forall i, (0 < i <= k)%nat -> cpu_kv_store c !! prefix_hash (pytake (Z.of_nat i * mc_block_size c) toks) = None
  end.
Proof.
  induction k as [|k IH]; [intros i; lia|]. cbn [scan_prefixes]. destruct (decide (is_Some _)) as [Hs|Hn].
  - exists (S k). split; [lia|]. split; [done|]. split; [done|]. split; [done|]. intros i; lia.
  - apply eq_None_not_Some in Hn. destruct (scan_prefixes prefix_hash k toks c) as [[key n]|].
    + destruct IH as (j & Hj & E1 & E2 & E3 & Hi). exists j. split; [lia|]. split; [done|]. split; [done|]. split; [done|].
      intros i Hr. destruct (decide (i = S k)) as [->|]; [done|]. apply Hi. lia.
    + intros i Hr. destruct (decide (i = S k)) as [->|]; [done|]. apply IH. lia.
Qed.
End Lookup.

(** C34: The lookup finds the longest block-aligned prefix of the prompt whose key
    is in the CPU store, and reports nothing only if no such prefix is
    stored; the tokens promised to the scheduler are those beyond what is
    computed already. *)
Theorem lookup_longest_prefix {V : Type} (prefix_hash : list Z -> string) (r : Request) (num_computed : Z) (c : MimirConnector V) :
  0 < mc_block_size c ->
  match lookup_prefix_hit prefix_hash r c with
  | Some (key, n) => n mod mc_block_size c = 0 /\ 0 < n <= zlen (prompt_token_ids r) /\ key = prefix_hash (pytake n (prompt_token_ids r)) /\
      is_Some (cpu_kv_store c !! key) /\
      (forall n', n < n' <= zlen (prompt_token_ids r) -> n' mod mc_block_size c = 0 ->
         cpu_kv_store c !! prefix_hash (pytake n' (prompt_token_ids r)) = None) /\
      exists c', mimir_matched_tokens prefix_hash r num_computed c = Ok (Some (Z.max 0 (n - num_computed)), false, c')
  | None => (forall n', 0 < n' <= zlen (prompt_token_ids r) -> n' mod mc_block_size c = 0 ->
         cpu_kv_store c !! prefix_hash (pytake n' (prompt_token_ids r)) = None) /\
      mimir_matched_tokens prefix_hash r num_computed c = Ok (Some 0, false, c)
  end.
Proof.
  intros Hbs. set (L := zlen (prompt_token_ids r)). pose proof (zlen_nonneg (prompt_token_ids r)) as HL. fold L in HL.
  set (bs := mc_block_size c) in *. set (k := Z.to_nat (L / bs)).
  assert (Hk : Z.of_nat k = L / bs) by (unfold k; rewrite Z2Nat.id; [done|apply Z.div_pos; lia]).
  pose proof (Z.div_mod L bs ltac:(lia)) as HD. pose proof (Z.mod_pos_bound L bs Hbs) as HM.
  assert (Hmul : forall n', 0 < n' <= L -> n' mod bs = 0 -> exists i, (0 < i <= k)%nat /\ n' = Z.of_nat i * bs).
  { intros n' Hn' Hmod. exists (Z.to_nat (n' / bs)). pose proof (Z.div_mod n' bs ltac:(lia)).
    assert (0 < n' / bs <= L / bs) by nia. rewrite Z2Nat.id by lia. split; [lia|]. lia. }
  pose proof (scan_prefixes_spec prefix_hash k (prompt_token_ids r) c) as H. unfold mimir_matched_tokens, lookup_prefix_hit. fold bs L k in H |- *.
  destruct (scan_prefixes prefix_hash k (prompt_token_ids r) c) as [[key n]|].
  - destruct H as (j & Hj & -> & -> & Hs & Hmax). split; [apply Z.mod_mul; lia|]. split; [nia|]. split; [done|]. split; [done|]. split.
    + intros n' Hn' Hmod. destruct (Hmul n' ltac:(nia) Hmod) as (i & Hi & ->). apply Hmax. nia.
    + destruct (Z.leb_spec (Z.of_nat j * bs - num_computed) 0); eexists; do 4 f_equal; lia.
  - split; [|done]. intros n' Hn' Hmod. destruct (Hmul n' Hn' Hmod) as (i & Hi & ->). apply H. lia.
Qed.

(** Keys that spell out the prefix (as a list of token counts). *)
Definition demo_hash (toks : list Z) : string := String.concat "" ((fun t => String (ascii_of_nat (Z.to_nat t)) EmptyString) <$> toks).

Lemma lookup_longest_prefix_witness :
  let c : MimirConnector unit := mkMimir 2 ∅ ∅ {[ demo_hash [1; 2] := ∅; demo_hash [1; 2; 3; 4] := ∅ ]} in
  lookup_prefix_hit demo_hash (demo_text "a" [1; 2; 3; 4; 5; 6; 7]) c = Some (demo_hash [1; 2; 3; 4], 4) /\
  cpu_kv_store c !! demo_hash [1; 2; 3; 4; 5; 6] = None.
Proof.
  intros c. pose proof (lookup_longest_prefix demo_hash (demo_text "a" [1; 2; 3; 4; 5; 6; 7]) 0 c ltac:(done)) as H.
  change (lookup_prefix_hit demo_hash (demo_text "a" [1; 2; 3; 4; 5; 6; 7]) c) with (Some (demo_hash [1; 2; 3; 4], 4)) in H.
  destruct H as (_ & _ & _ & _ & H & _). split; [reflexivity|]. apply (H 6); [cbn; unfold zlen; cbn; lia|reflexivity].
Defined.

(** * Storing and reloading *)

Section RoundTrip.
Context {V : Type}.







End RoundTrip.



(** * Where the connector falls short *)

#[local] Instance demo_mimir : KVConnector (MimirConnector unit) := mimir_connector demo_hash.

Notation MimirScheduler := (Scheduler (MimirConnector unit) (gset string)).

(** One step of an empty scheduler with this connector, after request "a" with
    these tokens is added to it. *)
Definition mimir_step (cfg : SchedConfig) (s : MimirScheduler) : result (SchedulerOutput * list ReqMeta * MimirScheduler) :=
  match schedule cfg 0%Qc 0%Qc s with
  | Ok (out, Some m, _, s') => Ok (out, m, s')
  | Ok (_, None, _, _) => Err RuntimeError
  | Err e => Err e
  end.

Definition mimir_scenario (budget : Z) (toks : list Z) (c : MimirConnector unit)
  : result (SchedulerOutput * list ReqMeta * MimirScheduler) :=
  let cfg := demo_cfg MIMIR budget in
  k ← demo_cache 9;
  let s0 : MimirScheduler :=
    sched_start {[ 0%nat := demo_text "a" toks ]} (create_request_queue MIMIR) None (enc_init 0) k (Some c) ∅ in
  s ← (sched_add_request cfg 0%Qc 0 s0 : result MimirScheduler);
  mimir_step cfg s.

(** A prompt whose whole length is block aligned and stored on the CPU makes
    the connector promise all its tokens, unlike the local prefix cache, which
    always leaves one token to compute; the scheduler then has no token left
    to schedule and its assertion [num_new_tokens > 0] fails. *)
Theorem full_cpu_hit_fails :
  mimir_scenario 100 [1; 2; 3; 4] (mkMimir 2 ∅ ∅ {[ demo_hash [1; 2; 3; 4] := ∅ ]}) = Err AssertionError.
Proof. vm_compute. reflexivity. Qed.

(** When the first chunk of a prompt ends inside a block, the connector stores
    the whole block: with a budget of three tokens and blocks of two, the
    worker is told to store four tokens, under the key of those four tokens,
    although only three are computed in this step. Later requests with this
    prefix reload a slot that was never written. *)
Theorem uncomputed_tokens_stored :
  exists out m s, mimir_scenario 3 [1; 2; 3; 4; 5; 6] (mkMimir 2 ∅ ∅ ∅) = Ok (out, [m], s) /\
    so_num_scheduled_tokens out = [("a"%string, 3)] /\ (fun nr => nr_num_computed_tokens nr) <$> so_new_reqs out = [0] /\
    is_store m = true /\ token_ids m = [1; 2; 3; 4].
Proof.
  destruct (mimir_scenario 3 [1; 2; 3; 4; 5; 6] (mkMimir 2 ∅ ∅ ∅)) as [[[out ms] s]|e] eqn:E; [|exfalso; vm_compute in E; discriminate E].
  observe E (fun x : SchedulerOutput * list ReqMeta * MimirScheduler =>
    (so_num_scheduled_tokens x.1.1, nr_num_computed_tokens <$> so_new_reqs x.1.1, (fun m => (is_store m, token_ids m)) <$> x.1.2))
    ([("a"%string, 3)], [0], [(true, [1; 2; 3; 4])]).
  clear E. cbn [fst snd] in Hobs. injection Hobs as H1 H2 H3. destruct ms as [|m [|m' ms]]; [discriminate H3| |discriminate H3].
  injection H3 as H3 H4. exists out, m, s. split; [reflexivity|]. split; [exact H1|]. split; [exact H2|]. split; [exact H3|exact H4].
Qed.

(** C37: The loop over cached requests stops at the first one that was not resumed
    from preemption, but the scheduler lists the running requests before the
    resumed ones: as soon as one running request is scheduled, no resumed
    request gets its load metadata, although the tokens the connector promised
    for it count as computed. *)
Theorem running_request_hides_resumed {C G V : Type} (cfg : SchedConfig) (a : Step) (s : Scheduler C G) (out : SchedulerOutput)
    (c : MimirConnector V) :
  make_cached_request_data cfg a s = Ok (so_cached_reqs out) -> scheduled_running_reqs a ≠ [] ->
  resumed_metas (cr_req_ids (so_cached_reqs out)) 0 out c = Ok [].
Proof.
  intros E Hne. destruct (cr_req_ids (so_cached_reqs out)) as [|rid ids]; [done|]. cbn [resumed_metas].
  assert (Hres : exists l, cr_resumed_from_preemption (so_cached_reqs out) = false :: l).
  { unfold make_cached_request_data in E. apply bind_Ok in E as (d & _ & E). injection E as E. rewrite <-E. cbn.
    destruct (scheduled_running_reqs a); [done|]. by eexists. }
  destruct Hres as [l ->]. done.
Qed.

Lemma running_request_hides_resumed_witness :
  exists k d, demo_cache 5 = Ok k /\
    make_cached_request_data (demo_cfg MIMIR 100)
      (mkStep [] [1%nat] [0%nat] [] {[ "a"%string := mkBlocks [[]]; "b"%string := mkBlocks [[]] ]} [("a"%string, 1); ("b"%string, 2)] 97 ∅ 0 ∅ ∅ (FCFSRequestQueue []))
      (mkSched {[ 0%nat := demo_text "a" [1; 2]; 1%nat := demo_text "b" [3; 4; 5; 6] ]} ∅ (FCFSRequestQueue []) [0; 1]%nat [] ∅ ∅ None ∅
         (enc_init 0) k None ∅ : Scheduler Empty_set (gset string)) = Ok d /\
    cr_req_ids d = ["a"%string; "b"%string] /\
    resumed_metas (cr_req_ids d) 0 (mkOutput [] d [("a"%string, 1); ("b"%string, 2)] 3 ∅ ∅ [0] ∅ [] ∅)
      (mkMimir 2 {[ "b"%string := demo_text "b" [3; 4; 5; 6] ]} {[ "b"%string := 2 ]} (∅ : gmap string (gmap string (list unit)))) = Ok [].
Proof.
  destruct (demo_cache 5) as [k|] eqn:Ek; [|by vm_compute in Ek].
  match goal with |- exists _ _, _ /\ make_cached_request_data ?cfg ?a _ = _ /\ _ => set (cf := cfg); set (st := a) end.
  set (s := mkSched {[ 0%nat := demo_text "a" [1; 2]; 1%nat := demo_text "b" [3; 4; 5; 6] ]} ∅ (FCFSRequestQueue []) [0; 1]%nat [] ∅ ∅ None ∅
         (enc_init 0) k None ∅ : Scheduler Empty_set (gset string)).
  set (d := mkCached ["a"%string; "b"%string] [false; true] [] [None; None] [0; 0]).
  assert (E : make_cached_request_data cf st s = Ok d) by reflexivity.
  exists k, d. split; [done|]. split; [exact E|]. split; [reflexivity|].
  apply (running_request_hides_resumed cf st s (mkOutput [] d [("a"%string, 1); ("b"%string, 2)] 3 ∅ ∅ [0] ∅ [] ∅)); [exact E|discriminate].
Defined.
