(* ===== verification/Detokenizer.v ===== *)
(** Incremental detokenization and stop strings:
    src/vllm/v1/engine/detokenizer.py and [check_stop_strings] of
    src/vllm/engine/output_processor/stop_checker.py. A string is the list of
    its code points. *)
From Stdlib Require Import ZArith Lia.
From stdpp Require Import numbers list.
From S2P Require Import Prelude.

Open Scope Z_scope.

Abbreviation text := (list Z).

(** ** Stop strings *)

(** [sub] occurs in [s] at position [i]. *)
Definition text_at (sub s : text) (i : nat) : bool := bool_decide (take (length sub) (drop i s) = sub).

Fixpoint first_at (sub s : text) (start n : nat) : option nat :=
  match n with
  | O => None
  | S n => if text_at sub s start then Some start else first_at sub s (S start) n
  end.

(** [s.find(sub, start)], with [None] for -1. *)
Definition pyfind (sub : text) (start : Z) (s : text) : option nat :=
  let start := if start <? 0 then Z.max 0 (start + zlen s) else start in
  if zlen s <? start then None
  else first_at sub s (Z.to_nat start) (length s - Z.to_nat start + 1).

Fixpoint check_stop_strings (output_text : text) (new_char_count : Z) (stop : list text) (include_in_output : bool) : option (text * Z) :=
  match stop with
  | [] => None
  | stop_str :: stop =>
      if new_char_count =? 0 then None else
      match pyfind stop_str (1 - new_char_count - zlen stop_str) output_text with
      | None => check_stop_strings output_text new_char_count stop include_in_output
      | Some i =>
          if include_in_output then
            let stop_index := Z.of_nat i + zlen stop_str in
            if zlen output_text <=? stop_index then Some (stop_str, -1) else Some (stop_str, stop_index)
          else Some (stop_str, Z.of_nat i)
      end
  end.

(** ** The detokenizer *)

(** The tokenizer's decoder: the text of the next token, given all tokens. *)
Class Decoder (D : Type) := decode_next : Z -> list Z -> D -> result (text * D).

Section Detokenizer.
Context {D : Type} `{!Decoder D}.

(** [BaseIncrementalDetokenizer]; [prompt_len] is the number of prompt tokens
    kept in [token_ids] (0 in the fast variant). *)
Record Detokenizer := mkDetok {
  token_ids : list Z;
  prompt_len : nat;
  stop : list text;
  min_tokens : Z;
  include_stop_str_in_output : bool;
  stop_buffer_length : Z;
  last_output_text_offset : Z;
  output_text : text;
  decoder : D
}.

Definition max_length (l : list text) : Z := foldr (fun s m => Z.max (zlen s) m) 0 l.

Definition detok_init (prompt : list Z) (stop : list text) (min_tokens : Z) (include : bool) (dec : D) : Detokenizer :=
  let buffer := match stop with
                | [] => 0
                | _ => if include then 0 else max_length stop - 1
                end in
  mkDetok prompt (length prompt) stop min_tokens include buffer 0 [] dec.

Definition output_token_ids (d : Detokenizer) : list Z := drop (prompt_len d) (token_ids d).

Definition set_tokens (l : list Z) (d : Detokenizer) : Detokenizer :=
  mkDetok l (prompt_len d) (stop d) (min_tokens d) (include_stop_str_in_output d) (stop_buffer_length d) (last_output_text_offset d)
    (output_text d) (decoder d).
Definition set_text (t : text) (d : Detokenizer) : Detokenizer :=
  mkDetok (token_ids d) (prompt_len d) (stop d) (min_tokens d) (include_stop_str_in_output d) (stop_buffer_length d) (last_output_text_offset d)
    t (decoder d).
Definition set_decoder (x : D) (d : Detokenizer) : Detokenizer :=
  mkDetok (token_ids d) (prompt_len d) (stop d) (min_tokens d) (include_stop_str_in_output d) (stop_buffer_length d) (last_output_text_offset d)
    (output_text d) x.
Definition set_offset (n : Z) (d : Detokenizer) : Detokenizer :=
  mkDetok (token_ids d) (prompt_len d) (stop d) (min_tokens d) (include_stop_str_in_output d) (stop_buffer_length d) n
    (output_text d) (decoder d).

(** The body of the [for] loop of [update]. *)
Definition decode_token (acc : Z * Detokenizer) (tok : Z) : result (Z * Detokenizer) :=
  let '(stop_check_offset, d) := acc in
  let d := set_tokens (token_ids d ++ [tok]) d in
  '(s, x) ← decode_next tok (token_ids d) (decoder d);
  let d := set_decoder x (set_text (output_text d ++ s) d) in
  Ok (if negb (min_tokens d =? 0) && (zlen (output_token_ids d) <=? min_tokens d) then zlen (output_text d) else stop_check_offset, d).

Definition update (new_token_ids : list Z) (stop_terminated : bool) (d : Detokenizer) : result (option text * Detokenizer) :=
  match new_token_ids with
  | [] => Ok (None, d)
  | _ =>
      let skip := stop_terminated && negb (include_stop_str_in_output d) in
      let skipped := if skip then option_list (last new_token_ids) else [] in
      let new_token_ids := if skip then take (length new_token_ids - 1) new_token_ids else new_token_ids in
      '(stop_check_offset, d) ← foldM decode_token (zlen (output_text d), d) new_token_ids;
      let d := set_tokens (token_ids d ++ skipped) d in
      if negb (bool_decide (stop d = [])) && (min_tokens d <? zlen (output_token_ids d)) then
        match check_stop_strings (output_text d) (zlen (output_text d) - stop_check_offset) (stop d) (include_stop_str_in_output d) with
        | None => Ok (None, d)
        | Some (s, truncate_to) =>
            Ok (Some s, if truncate_to =? -1 then d else set_text (pytake truncate_to (output_text d)) d)
        end
      else Ok (None, d)
  end.

Definition get_next_output_text (finished delta : bool) (d : Detokenizer) : text * Detokenizer :=
  let buffer_length := if finished then 0 else stop_buffer_length d in
  if negb delta then
    (if buffer_length =? 0 then output_text d else pytake (- buffer_length) (output_text d), d)
  else
    let length := zlen (output_text d) - buffer_length in
    let last_offset := last_output_text_offset d in
    if last_offset <? length then (pyslice last_offset length (output_text d), set_offset length d)
    else ([], d).
End Detokenizer.
Arguments Detokenizer D : clear implicits.

(** * Stop strings *)

Definition occurs (sub s : text) (i : nat) : Prop := take (length sub) (drop i s) = sub.

Lemma text_at_spec sub s i : reflect (occurs sub s i) (text_at sub s i).
Proof. unfold text_at, occurs. destruct (bool_decide_reflect (take (length sub) (drop i s) = sub)); by constructor. Qed.

Lemma text_pos (s : text) : s ≠ [] -> (0 < length s)%nat.
Proof. destruct s; [done|]. cbn. lia. Qed.

Lemma occurs_le sub s i : sub ≠ [] -> occurs sub s i -> (i + length sub <= length s)%nat.
Proof.
  intros Hne H. apply (f_equal length) in H. rewrite length_take, length_drop in H. apply text_pos in Hne. lia.
Qed.

(** The first occurrence from [start] on. *)
Definition first_from (sub s : text) (start : nat) (o : option nat) : Prop :=
  match o with
  | Some i => (start <= i)%nat /\ occurs sub s i /\ forall j, (start <= j)%nat -> occurs sub s j -> (i <= j)%nat
  | None => forall j, (start <= j)%nat -> ~ occurs sub s j
  end.

Lemma first_at_spec sub s : sub ≠ [] -> forall n start, (length s < start + n)%nat -> first_from sub s start (first_at sub s start n).
Proof.
  intros Hne n. induction n as [|n IH]; intros start Hn; cbn [first_at].
  - intros j Hj Ho. apply occurs_le in Ho; [lia|done].
  - destruct (text_at_spec sub s start) as [Ho|Hno]; [by split_and!|]. specialize (IH (S start) ltac:(lia)).
    assert (Hs : forall j, (start <= j)%nat -> occurs sub s j -> (S start <= j)%nat) by (intros j Hj Hoj; destruct (decide (j = start)); [by subst|lia]).
    destruct (first_at sub s (S start) n) as [i|]; cbn in *.
    + destruct IH as (H1 & H2 & H3). split; [lia|]. split; [done|]. intros j Hj Hoj. apply H3; auto.
    + intros j Hj Hoj. apply (IH j); auto.
Qed.

(** The search looks at the occurrences that reach into the new characters. *)
Lemma pyfind_spec sub s (new : nat) : sub ≠ [] -> (0 < new <= length s)%nat ->
  first_from sub s (length s - new - (length sub - 1)) (pyfind sub (1 - Z.of_nat new - zlen sub) s).
Proof.
  intros Hne Hn. unfold pyfind. pose proof (text_pos sub Hne). unfold zlen.
  replace (1 - Z.of_nat new - Z.of_nat (length sub) <? 0) with true by (symmetry; apply Z.ltb_lt; lia).
  set (start := (length s - new - (length sub - 1))%nat).
  replace (Z.max 0 (1 - Z.of_nat new - Z.of_nat (length sub) + Z.of_nat (length s))) with (Z.of_nat start) by lia.
  destruct (Z.ltb_spec (Z.of_nat (length s)) (Z.of_nat start)); [lia|]. rewrite Nat2Z.id. apply first_at_spec; [done|lia].
Qed.

(** [s] occurs in [t] so that it ends after the first [old] characters. *)
Definition occurs_after (old : nat) (s t : text) (i : nat) : Prop := occurs s t i /\ (old < i + length s)%nat.

Lemma pyfind_after sub s (new : nat) : sub ≠ [] -> (0 < new <= length s)%nat ->
  match pyfind sub (1 - Z.of_nat new - zlen sub) s with
  | Some i => occurs_after (length s - new) sub s i /\ forall j, occurs_after (length s - new) sub s j -> (i <= j)%nat
  | None => forall j, ~ occurs_after (length s - new) sub s j
  end.
Proof.
  intros Hne Hn. pose proof (pyfind_spec sub s new Hne Hn) as H. pose proof (text_pos sub Hne).
  destruct (pyfind _ _ s) as [i|]; cbn in H; unfold occurs_after.
  - destruct H as (H1 & H2 & H3). split; [split; [done|lia]|]. intros j [Hj Hl]. apply H3; [lia|done].
  - intros j [Hj Hl]. apply (H j); [lia|done].
Qed.

(** What a match says: where the stop string starts and where the text is cut. *)
Definition stop_match (t : text) (old : nat) (include : bool) (s : text) (cut : Z) : Prop :=
  exists i, occurs_after old s t i /\ (forall j, occurs_after old s t j -> (i <= j)%nat) /\
    cut = if include then (if zlen t <=? Z.of_nat (i + length s) then -1 else Z.of_nat (i + length s)) else Z.of_nat i.

Lemma check_stop_strings_spec t (new : nat) include stops : Forall (fun s => s ≠ []) stops -> (0 < new <= length t)%nat ->
  match check_stop_strings t (Z.of_nat new) stops include with
  | None => forall s i, s ∈ stops -> ~ occurs_after (length t - new) s t i
  | Some (s, cut) => exists before after, stops = before ++ s :: after /\
      (forall s' i, s' ∈ before -> ~ occurs_after (length t - new) s' t i) /\ stop_match t (length t - new) include s cut
  end.
Proof.
  intros Hs Hn. induction Hs as [|s stops Hne Hs IH]; [by intros s i ?%elem_of_nil|]. cbn [check_stop_strings].
  destruct (Z.eqb_spec (Z.of_nat new) 0) as [|_]; [lia|]. pose proof (pyfind_after s t new Hne Hn) as Hf.
  destruct (pyfind _ _ t) as [i|].
  - destruct Hf as [Ho Hmin]. assert (Hcase : exists cut, (if include then (if zlen t <=? Z.of_nat i + zlen s then Some (s, -1) else Some (s, Z.of_nat i + zlen s))
      else Some (s, Z.of_nat i)) = Some (s, cut) /\ stop_match t (length t - new) include s cut).
    { unfold stop_match, zlen. destruct include; [|by eauto 10]. rewrite <-Nat2Z.inj_add. destruct (_ <=? _) eqn:E; eexists; (split; [done|]); exists i; rewrite ?E; done. }
    destruct Hcase as (cut & -> & Hm). exists [], stops. split; [done|]. split; [by intros s' j ?%elem_of_nil|done].
  - destruct (check_stop_strings t _ stops include) as [[s' cut]|].
    + destruct IH as (before & after & -> & Hb & Hm). exists (s :: before), after. split; [done|]. split; [|done].
      intros s0 j [->|Hj]%elem_of_cons; [apply Hf|by apply Hb].
    + intros s0 j [->|Hj]%elem_of_cons; [apply Hf|by apply IH].
Qed.

(** * Streaming *)

(** What an output of the engine brings for a request: tokens, whether they end
    with a stop token, whether the request is finished. *)
Record StreamInput := mkInput { in_tokens : list Z; in_stop : bool; in_finished : bool }.

Section Stream.
Context {D : Type} `{!Decoder D}.

(** [if stop_string:], where [None] and the empty string are false. *)
Definition stopped (o : option text) : bool :=
  match o with
  | Some (_ :: _) => true
  | _ => false
  end.

(** [process_outputs] for one request that streams deltas: [update], then the
    text of the output; a stop string finishes the request. *)
Definition stream_step (i : StreamInput) (d : Detokenizer D) : result (text * bool * Detokenizer D) :=
  '(s, d) ← update (in_tokens i) (in_stop i) d;
  let finished := in_finished i || stopped s in
  let '(t, d) := get_next_output_text finished true d in
  Ok (t, finished, d).

(** The texts of a request, up to its end, one after the other. *)
Fixpoint stream (l : list StreamInput) (d : Detokenizer D) : result (text * bool * Detokenizer D) :=
  match l with
  | [] => Ok ([], false, d)
  | i :: l =>
      '(t, finished, d) ← stream_step i d;
      if (finished : bool) then Ok (t, true, d)
      else '(t', finished, d) ← stream l d; Ok (t ++ t', finished, d)
  end.

(** The settings of a detokenizer, which never change. *)
Definition same_settings (d d' : Detokenizer D) : Prop :=
  stop d' = stop d /\ include_stop_str_in_output d' = include_stop_str_in_output d /\ stop_buffer_length d' = stop_buffer_length d /\
  last_output_text_offset d' = last_output_text_offset d.

Definition total_decoder : Prop := forall tok toks (x : D), exists s x', decode_next tok toks x = Ok (s, x').

Lemma decode_loop_spec toks : forall off (d : Detokenizer D), total_decoder -> 0 <= off <= zlen (output_text d) ->
  exists off' d' more, foldM decode_token (off, d) toks = Ok (off', d') /\ output_text d' = output_text d ++ more /\
    off <= off' <= zlen (output_text d') /\ same_settings d d'.
Proof.
  induction toks as [|tok toks IH]; intros off d Hdec Hoff.
  { exists off, d, []. rewrite app_nil_r. split_and!; try done; lia. }
  cbn [foldM decode_token]. destruct (Hdec tok (token_ids d ++ [tok]) (decoder d)) as (s & x' & E). cbn [token_ids set_tokens decoder]. rewrite E. cbn [mbind result_bind].
  set (d1 := set_decoder x' (set_text (output_text (set_tokens (token_ids d ++ [tok]) d) ++ s) (set_tokens (token_ids d ++ [tok]) d))).
  match goal with |- context [foldM decode_token (?o, d1) toks] => set (off1 := o) end.
  assert (Ht1 : output_text d1 = output_text d ++ s) by done.
  assert (H1 : off <= off1 <= zlen (output_text d1)).
  { unfold off1. rewrite Ht1, zlen_app. pose proof (zlen_nonneg s). destruct (_ && _); lia. }
  destruct (IH off1 d1 Hdec ltac:(lia)) as (off' & d' & more & E' & Ht & Ho & HS). exists off', d', (s ++ more). split_and!; try done; try lia.
  by rewrite Ht, Ht1, app_assoc.
Qed.

Lemma update_spec toks st (d : Detokenizer D) : total_decoder -> Forall (fun s => s ≠ []) (stop d) ->
  exists o d' full, update toks st d = Ok (o, d') /\ same_settings d d' /\ (exists more, full = output_text d ++ more) /\
    match o with
    | None => output_text d' = full
    | Some s => s ∈ stop d /\ exists i, occurs s full i /\ (length (output_text d) < i + length s)%nat /\
        output_text d' = take (if include_stop_str_in_output d then i + length s else i)%nat full
    end.
Proof.
  intros Hdec Hst. unfold update. destruct toks as [|tok toks].
  { exists None, d, (output_text d). split_and!; try done. exists []. by rewrite app_nil_r. }
  set (skip := st && _). set (toks' := if skip then take _ _ else _).
  destruct (decode_loop_spec toks' (zlen (output_text d)) d Hdec) as (off & d1 & more & E & Ht & Ho & HS); [pose proof (zlen_nonneg (output_text d)); lia|].
  rewrite E. cbn [mbind result_bind]. set (d2 := set_tokens _ d1). assert (HS2 : same_settings d d2) by (destruct HS as (? & ? & ? & ?); by split_and!).
  assert (Ht2 : output_text d2 = output_text d ++ more) by done. destruct HS2 as (S1 & S2 & S3 & S4). rewrite S1, S2.
  assert (Hnone : exists o d' full, Ok (None, d2) = Ok (o, d') /\ same_settings d d' /\ (exists more, full = output_text d ++ more) /\
    match o with None => output_text d' = full | Some s => s ∈ stop d /\ exists i, occurs s full i /\ (length (output_text d) < i + length s)%nat /\
      output_text d' = take (if include_stop_str_in_output d then i + length s else i)%nat full end) by (exists None, d2, (output_text d2); split_and!; try done; by eexists).
  destruct (negb _ && _); [|exact Hnone]. set (t := output_text d2) in *.
  destruct (check_stop_strings t (zlen t - off) (stop d) (include_stop_str_in_output d)) as [[s cut]|] eqn:Ec; [|exact Hnone]. clear Hnone.
  destruct (decide (off = zlen t)) as [->|Hne].
  { exfalso. rewrite Z.sub_diag in Ec. by destruct (stop d). }
  assert (Hoff : output_text d1 = t) by done. rewrite Hoff in Ho. pose proof (zlen_nonneg (output_text d)) as H0. unfold zlen in H0, Ho, Hne.
  replace (zlen t - off) with (Z.of_nat (length t - Z.to_nat off)) in Ec by (unfold zlen; lia).
  pose proof (check_stop_strings_spec t (length t - Z.to_nat off) (include_stop_str_in_output d) (stop d) Hst ltac:(lia)) as Hc. rewrite Ec in Hc.
  destruct Hc as (before & after & Hstop & _ & i & [Hocc Hafter] & _ & Hcut). replace (length t - (length t - Z.to_nat off))%nat with (Z.to_nat off) in Hafter by lia.
  eexists _, _, t. split; [done|]. split; [by destruct (cut =? -1)|]. split; [by exists more|]. split; [rewrite Hstop; apply elem_of_app; right; by left|].
  exists i. split; [done|]. split; [lia|]. assert (Hsne : s ≠ []) by (rewrite Hstop in Hst; apply Forall_app in Hst as [_ Hst]; by apply Forall_cons in Hst as [? _]).
  pose proof (occurs_le s t i Hsne Hocc) as Hle. rewrite Hcut. fold t. destruct (include_stop_str_in_output d).
  - destruct (Z.leb_spec (zlen t) (Z.of_nat (i + length s))) as [Hl|Hl]; cbn [Z.eqb].
    + unfold zlen in Hl. rewrite take_ge by lia. done.
    + destruct (Z.eqb_spec (Z.of_nat (i + length s)) (-1)); [lia|]. cbn [output_text set_text]. fold t. rewrite pytake_nat by lia. f_equal. lia.
  - destruct (Z.eqb_spec (Z.of_nat i) (-1)); [lia|]. cbn [output_text set_text]. fold t. rewrite pytake_nat by (unfold zlen; lia). f_equal. lia.
Qed.

(** Between two outputs: the text handed out so far is the first part of the
    text, and what is held back covers every stop string that may still begin
    in the text. *)
Record stream_ok (d : Detokenizer D) : Prop := mkStreamOk {
  so_stops : Forall (fun s => s ≠ []) (stop d);
  so_buffer : 0 <= stop_buffer_length d;
  so_held : include_stop_str_in_output d = false -> forall s, s ∈ stop d -> zlen s - 1 <= stop_buffer_length d;
  so_offset : 0 <= last_output_text_offset d <= Z.max 0 (zlen (output_text d) - stop_buffer_length d)
}.

Definition emitted (d : Detokenizer D) : text := take (Z.to_nat (last_output_text_offset d)) (output_text d).

(** The text of an output continues what was handed out. *)
Lemma next_text_spec finished (d : Detokenizer D) : 0 <= stop_buffer_length d -> 0 <= last_output_text_offset d <= zlen (output_text d) ->
  exists t d', get_next_output_text finished true d = (t, d') /\ output_text d' = output_text d /\ stop d' = stop d /\
    include_stop_str_in_output d' = include_stop_str_in_output d /\ stop_buffer_length d' = stop_buffer_length d /\
    emitted d' = emitted d ++ t /\
    last_output_text_offset d' = Z.max (last_output_text_offset d) (zlen (output_text d) - if finished then 0 else stop_buffer_length d).
Proof.
  intros Hb Ho. unfold get_next_output_text. cbn [negb]. set (buf := if finished then 0 else stop_buffer_length d).
  assert (Hbuf : 0 <= buf) by (unfold buf; destruct finished; lia).
  destruct (Z.ltb_spec (last_output_text_offset d) (zlen (output_text d) - buf)) as [Hlt|Hge].
  - eexists _, _. split; [done|]. split_and!; try done; [|cbn; lia]. unfold emitted. cbn [last_output_text_offset output_text set_offset].
    set (o := Z.to_nat (last_output_text_offset d)). set (n := Z.to_nat (zlen (output_text d) - buf)).
    replace (last_output_text_offset d) with (Z.of_nat o) by lia. replace (zlen (output_text d) - buf) with (Z.of_nat n) by lia.
    unfold zlen in *. rewrite pyslice_in by lia. rewrite take_take_drop. f_equal. lia.
  - eexists _, _. split; [done|]. split_and!; try done; [by rewrite app_nil_r|lia].
Qed.

Lemma stream_step_spec i (d : Detokenizer D) : total_decoder -> stream_ok d ->
  exists t finished d', stream_step i d = Ok (t, finished, d') /\ emitted d' = emitted d ++ t /\ stop d' = stop d /\
    (finished = true -> emitted d' = output_text d') /\ (finished = false -> stream_ok d').
Proof.
  intros Hdec [H1 H2 H3 H4]. unfold stream_step. destruct (update_spec (in_tokens i) (in_stop i) d Hdec H1) as (o & d1 & full & E & HS & (more & Hfull) & Ho).
  rewrite E. cbn [mbind result_bind]. destruct HS as (S1 & S2 & S3 & S4). set (fin := in_finished i || _).
  assert (Hlen : last_output_text_offset d <= zlen (output_text d)) by (pose proof (zlen_nonneg (output_text d)); lia).
  assert (Hkeep : last_output_text_offset d <= zlen (output_text d1) /\ emitted d1 = emitted d).
  { unfold emitted. rewrite S4. destruct o as [s|].
    - destruct Ho as (Hin & p & Hocc & Hlt & Ht). rewrite Ht. pose proof (occurs_le s full p ltac:(by eapply Forall_forall in H1) Hocc) as Hle.
      set (cut := (if include_stop_str_in_output d then p + length s else p)%nat).
      assert (Hcut : last_output_text_offset d <= Z.of_nat cut).
      { unfold cut. destruct (include_stop_str_in_output d); [unfold zlen in *; lia|]. specialize (H3 eq_refl s Hin). unfold zlen in *. lia. }
      assert (Hcl : (cut <= length full)%nat) by (unfold cut; destruct (include_stop_str_in_output d); lia).
      unfold zlen in *. rewrite length_take. split; [lia|]. rewrite take_take, Nat.min_l, Hfull, take_app_le by lia. done.
    - rewrite Ho, Hfull, zlen_app. pose proof (zlen_nonneg more). split; [lia|]. rewrite take_app_le; [done|]. unfold zlen in *. lia. }
  destruct Hkeep as [Hk1 Hk2]. destruct (next_text_spec fin d1) as (t & d2 & E2 & T1 & T2 & T3 & T4 & T5 & T6); [by rewrite S3|rewrite S4; lia|].
  rewrite E2. exists t, fin, d2. split; [done|]. split; [by rewrite T5, Hk2|]. split; [by rewrite T2|]. split.
  - intros Hf. rewrite Hf in T6. unfold emitted. rewrite T6, T1, S4. apply take_ge. unfold zlen in *. lia.
  - intros Hf. rewrite Hf in T6. split.
    + by rewrite T2, S1.
    + by rewrite T4, S3.
    + rewrite T2, T3, T4, S1, S2, S3. done.
    + rewrite T6, T1, T4, S4, S3. destruct o as [s|].
      { destruct Ho as [Hin _]. eapply Forall_forall in H1; [|exact Hin]. unfold fin in Hf. destruct s; [done|]. cbn in Hf. by rewrite orb_true_r in Hf. }
      rewrite Ho, Hfull, zlen_app. pose proof (zlen_nonneg more). lia.
Qed.

Lemma stream_spec l : forall d : Detokenizer D, total_decoder -> stream_ok d ->
  exists t finished d', stream l d = Ok (t, finished, d') /\ emitted d' = emitted d ++ t /\ (finished = true -> emitted d' = output_text d').
Proof.
  induction l as [|i l IH]; intros d Hdec Hok; cbn [stream].
  { eexists _, _, _. split; [done|]. by rewrite app_nil_r. }
  destruct (stream_step_spec i d Hdec Hok) as (t & finished & d1 & E & He & _ & Hf & Hu). rewrite E. cbn [mbind result_bind]. destruct finished.
  { eexists _, _, _. split; [done|]. by split; [|auto]. }
  destruct (IH d1 Hdec (Hu eq_refl)) as (t' & fin & d2 & E2 & He2 & Hf2). rewrite E2. cbn [mbind result_bind]. eexists _, _, _. split; [done|].
  split; [by rewrite He2, He, app_assoc|done].
Qed.

Lemma init_stream_ok prompt stops min_toks include (x : D) : Forall (fun s => s ≠ []) stops -> stream_ok (detok_init prompt stops min_toks include x).
Proof.
  intros Hs. assert (Hmax : forall s, s ∈ stops -> zlen s <= max_length stops).
  { clear. intros s Hin. induction stops as [|s' l IH]; [by apply elem_of_nil in Hin|].
    change (max_length (s' :: l)) with (Z.max (zlen s') (max_length l)). apply elem_of_cons in Hin as [->|Hin]; [lia|]. specialize (IH Hin). lia. }
  unfold detok_init. split; cbn.
  - done.
  - destruct stops as [|s l]; [done|]. destruct include; [done|]. apply Forall_cons in Hs as [Hne _]. specialize (Hmax s ltac:(by left)).
    pose proof (text_pos s Hne). unfold zlen in *. lia.
  - intros -> s Hin. specialize (Hmax s Hin). destruct stops; [by apply elem_of_nil in Hin|]. lia.
  - split; [done|]. lia.
Qed.
End Stream.

(** Streaming loses and repeats nothing, and takes nothing back: whatever tokens
    arrive in whatever portions, the texts handed out one after the other are
    together a prefix of the detokenizer's text, and exactly this text once the
    request is finished, by the engine or by a stop string. In particular no
    character was handed out that a stop string removed later. *)
Theorem streamed_text_is_output {D : Type} `{!Decoder D} (prompt : list Z) (stops : list text) (min_toks : Z) (include : bool) (x : D) (l : list StreamInput) :
  total_decoder (D := D) -> Forall (fun s => s ≠ []) stops ->
  exists t finished d, stream l (detok_init prompt stops min_toks include x) = Ok (t, finished, d) /\
    (exists rest, output_text d = t ++ rest) /\ (finished = true -> t = output_text d).
Proof.
  intros Hdec Hs. destruct (stream_spec l (detok_init prompt stops min_toks include x) Hdec (init_stream_ok _ _ _ _ _ Hs)) as (t & finished & d & E & He & Hf).
  exists t, finished, d. split; [done|]. change (emitted (detok_init prompt stops min_toks include x)) with (@nil Z) in He. cbn in He. split.
  - exists (drop (Z.to_nat (last_output_text_offset d)) (output_text d)). rewrite <-He. unfold emitted. by rewrite take_drop.
  - intros Hfin. rewrite <-He. auto.
Qed.

(** A decoder that maps a token to two characters. *)
#[export] Instance pair_decoder : Decoder unit := fun tok _ x => Ok ([tok; tok + 1], x).

Lemma streamed_text_is_output_witness :
  exists t d, stream [mkInput [10; 20] false false; mkInput [30; 40] false false; mkInput [50] false true] (detok_init [] [[31; 40]] 0 false tt) = Ok (t, true, d) /\
    t = [10; 11; 20; 21; 30] /\ t = output_text d.
Proof.
  destruct (streamed_text_is_output [] [[31; 40]] 0 false tt [mkInput [10; 20] false false; mkInput [30; 40] false false; mkInput [50] false true]) as (t & fin & d & E & _ & Hf).
  - intros tok toks x. by eexists _, _.
  - by repeat constructor.
  - assert (E' : (x ← stream [mkInput [10; 20] false false; mkInput [30; 40] false false; mkInput [50] false true] (detok_init [] [[31; 40]] 0 false tt); Ok (x.1)) =
      Ok ([10; 11; 20; 21; 30], true)) by (vm_compute; reflexivity).
    rewrite E in E'. cbn in E'. injection E' as -> ->. exists [10; 11; 20; 21; 30], d. split_and!; [exact E|reflexivity|by apply Hf].
Defined.

(** Stop strings are found as soon as they are complete: for a text with [new]
    fresh characters the check reports a stop string exactly when some stop
    string ends among them; it is the first in the order of the request that
    does, and the text is cut at the start of its first such occurrence, or
    after it when stop strings are to be included. *)
Theorem stop_strings_found (t : text) (new : nat) (include : bool) (stops : list text) :
  Forall (fun s => s ≠ []) stops -> (0 < new <= length t)%nat ->
  match check_stop_strings t (Z.of_nat new) stops include with
  | None => forall s i, s ∈ stops -> ~ occurs_after (length t - new) s t i
  | Some (s, cut) => exists before after, stops = before ++ s :: after /\
      (forall s' i, s' ∈ before -> ~ occurs_after (length t - new) s' t i) /\ stop_match t (length t - new) include s cut
  end.
Proof. apply check_stop_strings_spec. Qed.

Lemma stop_strings_found_witness :
  check_stop_strings [1; 2; 3; 4] 2 [[9]; [2; 3]] false = Some ([2; 3], 1) /\ stop_match [1; 2; 3; 4] 2 false [2; 3] 1.
Proof.
  assert (E : check_stop_strings [1; 2; 3; 4] 2 [[9]; [2; 3]] false = Some ([2; 3], 1)) by (vm_compute; reflexivity). split; [exact E|].
  pose proof (stop_strings_found [1; 2; 3; 4] 2 false [[9]; [2; 3]] ltac:(by repeat constructor) ltac:(cbn; lia)) as H.
  change (Z.of_nat 2) with 2 in H. rewrite E in H. by destruct H as (_ & _ & _ & _ & H).
Defined.

(** The text of a finished request can contain one of its stop strings, although
    stop strings are to be excluded: when one output brings two of them, the
    first in the order of the request wins, not the first in the text. *)
Theorem excluded_stop_string_returned :
  exists t d, stream [mkInput [1; 2] false false] (detok_init [] [[2; 3]; [1; 2]] 0 false tt) = Ok (t, true, d) /\
    t = output_text d /\ occurs [1; 2] t 0.
Proof. eexists _, _. split; [vm_compute; reflexivity|]. split; [reflexivity|]. by vm_compute. Qed.
