(* ===== verification/Logprobs.v ===== *)
(** Logprobs of a request's tokens (src/vllm/v1/engine/logprobs.py). *)
From Stdlib Require Import ZArith Lia String QArith Qcanon.
From stdpp Require Import numbers gmap strings list.
From S2P Require Import Prelude Request SchedState SchedulerUpdate Detokenizer.

Open Scope Z_scope.

(** * Data *)

(** Logprobs that the model runner returns ([F]: floating-point numbers); the
    engine core's outputs name them by handles. The rows of the prompt's tensors
    have the same length, [pt_num_logprobs]. *)
Record LogprobsLists (F : Type) := mkLists {
  logprob_token_ids : list (list Z);
  logprob_values : list (list F);
  sampled_token_ranks : list Z
}.
Arguments mkLists {F}.
Arguments logprob_token_ids {F}.
Arguments logprob_values {F}.
Arguments sampled_token_ranks {F}.

Record LogprobsTensors (F : Type) := mkTensors {
  pt_lists : LogprobsLists F;
  pt_num_logprobs : nat
}.
Arguments mkTensors {F}.
Arguments pt_lists {F}.
Arguments pt_num_logprobs {F}.

Class LogprobSource (F : Type) := {
  log_zero : F;
  log_add : F -> F -> F;
  sample_lists : Z * Z -> LogprobsLists F;
  prompt_tensors : Z -> LogprobsTensors F
}.

Record Logprob (F : Type) := mkLogprob {
  lg_logprob : F;
  lg_rank : Z;
  lg_decoded_token : option text
}.
Arguments mkLogprob {F}.
Arguments lg_logprob {F}.
Arguments lg_rank {F}.
Arguments lg_decoded_token {F}.

(** The logprobs of one position. *)
Abbreviation LogprobDict F := (gmap Z (Logprob F)).

(** [tokenizer] is the function [lambda t: tokenizer.decode([t])]. *)
Record LogprobsProcessor (F : Type) := mkLogprobs {
  lp_tokenizer : option (Z -> option text);
  lp_logprobs : option (list (LogprobDict F));
  lp_prompt_logprobs : option (list (option (LogprobDict F)));
  lp_cumulative_logprob : option F;
  lp_num_logprobs : option Z;
  lp_num_prompt_logprobs : option Z
}.
Arguments mkLogprobs {F}.
Arguments lp_tokenizer {F}.
Arguments lp_logprobs {F}.
Arguments lp_prompt_logprobs {F}.
Arguments lp_cumulative_logprob {F}.
Arguments lp_num_logprobs {F}.
Arguments lp_num_prompt_logprobs {F}.

(** * Operations *)

Section Logprobs.
Context {F : Type} `{!LogprobSource F}.

(** [from_new_request]. *)
Definition logprobs_init (tokenizer : option (Z -> option text)) (num_logprobs num_prompt_logprobs : option Z) : LogprobsProcessor F :=
  mkLogprobs tokenizer ((fun _ => []) <$> num_logprobs) ((fun _ => [None]) <$> num_prompt_logprobs) ((fun _ => log_zero) <$> num_logprobs) num_logprobs num_prompt_logprobs.

Definition convert_ids_list_to_tokens (tokenizer : Z -> option text) (token_ids : list Z) : list text := (fun t => default [] (tokenizer t)) <$> token_ids.

(** [zip] with the decoded tokens, or with [NONES], which repeats [None]. *)
Definition zip_decoded {A} (l : list A) (decoded : option (list text)) : list (A * option text) :=
  match decoded with
  | None => (fun x => (x, None)) <$> l
  | Some d => zip l (Some <$> d)
  end.

(** [_make_logprob_dict]. *)
Definition make_logprob_dict (logprobs : list F) (logprob_token_ids : list Z) (decoded_tokens : option (list text)) (rank num_logprobs : Z) : LogprobDict F :=
  let num_logprobs := if num_logprobs =? -1 then zlen logprobs else num_logprobs in
  let ranks := rank :: seqZ 1 num_logprobs in
  foldl (fun m '(token_id, logprob, r, token) => <[token_id := mkLogprob logprob r token]> m) ∅ (zip_decoded (zip (zip logprob_token_ids logprobs) ranks) decoded_tokens).

Definition set_sample (l : list (LogprobDict F)) (c : F) (p : LogprobsProcessor F) : LogprobsProcessor F :=
  mkLogprobs (lp_tokenizer p) (Some l) (lp_prompt_logprobs p) (Some c) (lp_num_logprobs p) (lp_num_prompt_logprobs p).
Definition set_prompt (l : list (option (LogprobDict F))) (p : LogprobsProcessor F) : LogprobsProcessor F :=
  mkLogprobs (lp_tokenizer p) (lp_logprobs p) (Some l) (lp_cumulative_logprob p) (lp_num_logprobs p) (lp_num_prompt_logprobs p).

(** [_update_sample_logprobs]. *)
Definition update_sample_logprobs (ll : LogprobsLists F) (p : LogprobsProcessor F) : result (LogprobsProcessor F) :=
  num ← get_or AssertionError (lp_num_logprobs p);
  l ← get_or AssertionError (lp_logprobs p);
  c ← get_or AssertionError (lp_cumulative_logprob p);
  '(l, c) ← foldM (fun '(l, c) '(rank, logprobs, token_ids) =>
      let decoded := (fun t => convert_ids_list_to_tokens t token_ids) <$> lp_tokenizer p in
      sampled ← get_or IndexError (head logprobs);
      Ok (l ++ [make_logprob_dict logprobs token_ids decoded rank num], log_add c sampled))
    (l, c) (zip (zip (sampled_token_ranks ll) (logprob_values ll)) (logprob_token_ids ll));
  Ok (set_sample l c p).

(** [_update_prompt_logprobs]. *)
Definition update_prompt_logprobs (t : LogprobsTensors F) (p : LogprobsProcessor F) : result (LogprobsProcessor F) :=
  num ← get_or AssertionError (lp_num_prompt_logprobs p);
  l ← get_or AssertionError (lp_prompt_logprobs p);
  let ids := logprob_token_ids (pt_lists t) in
  let decoded_tokens := (fun tok => convert_ids_list_to_tokens tok (concat ids)) <$> lp_tokenizer p in
  l ← foldM (fun l pos =>
      let offset := (pos * pt_num_logprobs t)%nat in
      let decoded := (fun d => take (pt_num_logprobs t) (drop offset d)) <$> decoded_tokens in
      lps ← get_or IndexError (logprob_values (pt_lists t) !! pos);
      tids ← get_or IndexError (ids !! pos);
      rank ← get_or IndexError (sampled_token_ranks (pt_lists t) !! pos);
      Ok (l ++ [Some (make_logprob_dict lps tids decoded rank num)]))
    l (seq 0 (length (logprob_values (pt_lists t))));
  Ok (set_prompt l p).

Definition pop_prompt_logprobs (p : LogprobsProcessor F) : option (list (option (LogprobDict F))) * LogprobsProcessor F :=
  (lp_prompt_logprobs p, match lp_prompt_logprobs p with Some (_ :: _) => set_prompt [] p | _ => p end).

Definition lp_update_from_output (o : EngineCoreOutput) (p : LogprobsProcessor F) : result (LogprobsProcessor F) :=
  p ← match eo_new_logprobs o with None => Ok p | Some h => update_sample_logprobs (sample_lists h) p end;
  match eo_prompt_logprobs o with None => Ok p | Some h => update_prompt_logprobs (prompt_tensors h) p end.

(** * Lemmas *)

(** The settings and the logprobs agree. *)
Record logprobs_ok (p : LogprobsProcessor F) : Prop := {
  lk_sample : is_Some (lp_num_logprobs p) <-> is_Some (lp_logprobs p);
  lk_cumulative : is_Some (lp_num_logprobs p) <-> is_Some (lp_cumulative_logprob p);
  lk_prompt : is_Some (lp_num_prompt_logprobs p) <-> is_Some (lp_prompt_logprobs p)
}.

Record tensors_ok (t : LogprobsTensors F) : Prop := {
  tn_ids : length (logprob_token_ids (pt_lists t)) = length (logprob_values (pt_lists t));
  tn_ranks : length (sampled_token_ranks (pt_lists t)) = length (logprob_values (pt_lists t));
  tn_rows : Forall (fun l => length l = pt_num_logprobs t) (logprob_token_ids (pt_lists t))
}.

(** An output has logprobs only if the request asked for them; each sampled
    position has the sampled token's, and the prompt's tensors agree in shape. *)
Record lists_ok (o : EngineCoreOutput) (p : LogprobsProcessor F) : Prop := {
  ls_sample : forall h, eo_new_logprobs o = Some h -> is_Some (lp_num_logprobs p) /\ Forall (fun l => l ≠ []) (logprob_values (sample_lists h));
  ls_prompt : forall h, eo_prompt_logprobs o = Some h -> is_Some (lp_num_prompt_logprobs p) /\ tensors_ok (prompt_tensors h)
}.
Lemma init_logprobs_ok tok n m : logprobs_ok (logprobs_init tok n m).
Proof. split; cbn; rewrite ?fmap_is_Some; done. Qed.

Lemma sample_loop num tok (l0 : list (Z * list F * list Z)) : Forall (fun x => x.1.2 ≠ []) l0 -> forall l c, exists l' c',
  foldM (fun '(l, c) '(rank, logprobs, token_ids) =>
      let decoded := (fun t => convert_ids_list_to_tokens t token_ids) <$> tok in
      sampled ← get_or IndexError (head logprobs);
      Ok (l ++ [make_logprob_dict logprobs token_ids decoded rank num], log_add c sampled)) (l, c) l0 = Ok (l ++ l', c') /\ length l' = length l0.
Proof.
  induction 1 as [|[[r [|x lps]] ids] l0 Hne _ IH]; intros l c; [exists [], c; by rewrite app_nil_r|done|]. cbn [foldM head get_or mbind result_bind].
  edestruct IH as (l' & c' & -> & Hl). eexists (_ :: l'), c'. rewrite <-app_assoc. cbn. by rewrite Hl.
Qed.

Lemma update_sample_returns ll p : logprobs_ok p -> is_Some (lp_num_logprobs p) -> Forall (fun l => l ≠ []) (logprob_values ll) ->
  exists l l' c, lp_logprobs p = Some l /\ update_sample_logprobs ll p = Ok (set_sample (l ++ l') c p).
Proof.
  intros [H1 H2 _] Hn Hne. destruct (proj1 H1 Hn) as [l El], (proj1 H2 Hn) as [c Ec], Hn as [n En]. unfold update_sample_logprobs. rewrite En, El, Ec. cbn [get_or mbind result_bind].
  edestruct (sample_loop n (lp_tokenizer p) (zip (zip (sampled_token_ranks ll) (logprob_values ll)) (logprob_token_ids ll))) as (l' & c' & -> & _); [|by exists l, l', c'].
  apply Forall_forall. intros [[r lps] ids] Hin. apply list_elem_of_lookup in Hin as [i Hi]. apply lookup_zip_with_Some in Hi as ([r' lps'] & ? & [= <- <- <-] & Hi & _).
  apply lookup_zip_with_Some in Hi as (? & ? & [= <- <-] & _ & Hi). by eapply Forall_lookup_1 in Hne.
Qed.

(** A row of a flattened table. *)
Lemma row_of_concat {A} n (rows : list (list A)) i row : Forall (fun l => length l = n) rows -> rows !! i = Some row -> take n (drop (i * n) (concat rows)) = row.
Proof.
  intros Hr. revert i. induction Hr as [|r rows Hl _ IH]; intros [|i]; intros E; try done; cbn in E |- *.
  - injection E as <-. rewrite drop_0. subst n. apply take_app_length.
  - rewrite drop_app_ge by lia. rewrite Hl. replace (n + i * n - n)%nat with (i * n)%nat by lia. by apply IH.
Qed.

(** The logprobs of each position, with the tokens of the position decoded. *)
Definition prompt_rows (tok : option (Z -> option text)) (num : Z) (ll : LogprobsLists F) : list (option (LogprobDict F)) :=
  (fun '(lps, ids, rank) => Some (make_logprob_dict lps ids ((fun t => convert_ids_list_to_tokens t ids) <$> tok) rank num)) <$> zip (zip (logprob_values ll) (logprob_token_ids ll)) (sampled_token_ranks ll).

Lemma prompt_rows_lookup tok num ll i lps ids rank : logprob_values ll !! i = Some lps -> logprob_token_ids ll !! i = Some ids -> sampled_token_ranks ll !! i = Some rank ->
  prompt_rows tok num ll !! i = Some (Some (make_logprob_dict lps ids ((fun t => convert_ids_list_to_tokens t ids) <$> tok) rank num)).
Proof.
  intros E1 E2 E3. unfold prompt_rows. rewrite list_lookup_fmap.
  assert (E : zip (zip (logprob_values ll) (logprob_token_ids ll)) (sampled_token_ranks ll) !! i = Some (lps, ids, rank)); [|by rewrite E].
  apply lookup_zip_with_Some. exists (lps, ids), rank. split_and!; try done. apply lookup_zip_with_Some. by exists lps, ids.
Qed.

Lemma update_prompt_returns t p : logprobs_ok p -> is_Some (lp_num_prompt_logprobs p) -> tensors_ok t ->
  exists l num, lp_prompt_logprobs p = Some l /\ lp_num_prompt_logprobs p = Some num /\ update_prompt_logprobs t p = Ok (set_prompt (l ++ prompt_rows (lp_tokenizer p) num (pt_lists t)) p).
Proof.
  intros [_ _ H3] Hn [T1 T2 T3]. destruct (proj1 H3 Hn) as [l El], Hn as [n En]. exists l, n. split_and!; try done. unfold update_prompt_logprobs. rewrite En, El. cbn [get_or mbind result_bind].
  set (body := fun l pos => _). set (rows := prompt_rows _ _ _). set (N := length (logprob_values (pt_lists t))).
  assert (HN : length rows = N) by (unfold rows, prompt_rows; rewrite length_fmap, !length_zip; lia).
  enough (H : forall k, (k <= N)%nat -> foldM body l (seq 0 k) = Ok (l ++ take k rows)) by (rewrite (H N), take_ge; [done|lia..]).
  induction k as [|k IH]; intros Hk; [by rewrite app_nil_r|]. rewrite seq_S, foldM_app, (IH ltac:(lia)). cbn [mbind result_bind foldM Nat.add]. unfold body at 1.
  destruct (lookup_lt_is_Some_2 (logprob_values (pt_lists t)) k ltac:(lia)) as [lps E1]. destruct (lookup_lt_is_Some_2 (logprob_token_ids (pt_lists t)) k ltac:(lia)) as [ids E2].
  destruct (lookup_lt_is_Some_2 (sampled_token_ranks (pt_lists t)) k ltac:(lia)) as [rank E3]. rewrite E1, E2, E3. cbn [get_or mbind result_bind]. f_equal.
  rewrite (take_S_r rows k _ (prompt_rows_lookup (lp_tokenizer p) n (pt_lists t) k lps ids rank E1 E2 E3)), app_assoc. do 4 f_equal.
  destruct (lp_tokenizer p) as [tok|]; [|done]. cbn. f_equal. unfold convert_ids_list_to_tokens. rewrite <-fmap_drop, <-fmap_take. f_equal. by apply row_of_concat.
Qed.

Lemma update_from_output_returns o p : logprobs_ok p -> lists_ok o p -> exists p', lp_update_from_output o p = Ok p' /\ logprobs_ok p' /\
  lp_num_logprobs p' = lp_num_logprobs p /\ lp_num_prompt_logprobs p' = lp_num_prompt_logprobs p.
Proof.
  intros Hp [Hs Hl]. unfold lp_update_from_output.
  assert (exists p1, match eo_new_logprobs o with None => Ok p | Some h => update_sample_logprobs (sample_lists h) p end = Ok p1 /\ logprobs_ok p1 /\
    lp_num_logprobs p1 = lp_num_logprobs p /\ lp_num_prompt_logprobs p1 = lp_num_prompt_logprobs p) as (p1 & -> & Hp1 & N1 & N2).
  { destruct (eo_new_logprobs o) as [h|]; [|by exists p]. destruct (Hs h eq_refl) as [Hn Hne]. destruct (update_sample_returns (sample_lists h) p Hp Hn Hne) as (l & l' & c & _ & ->).
    eexists. split; [done|]. split; [|done]. destruct Hp as [A B C]. split; cbn; [by split|by split|done]. }
  cbn [mbind result_bind]. destruct (eo_prompt_logprobs o) as [h|]; [|by exists p1]. destruct (Hl h eq_refl) as [Hn Ht]. rewrite <-N2 in Hn.
  destruct (update_prompt_returns (prompt_tensors h) p1 Hp1 Hn Ht) as (l & num & _ & _ & ->). eexists. split; [done|]. split; [|done]. destruct Hp1 as [A B C]. split; cbn; [done|done|by split].
Qed.
End Logprobs.
