(* ===== verification/OutputProcessor.v ===== *)
(** From the engine core's outputs to the clients' (src/vllm/v1/engine/output_processor.py):
    completions of a request, the [n] completions of a parallel-sampling request
    (parallel_sampling.py), and the collector that hands them to the client
    ([RequestOutput.add] is in src/vllm/outputs.py). *)
From Stdlib Require Import ZArith Lia String QArith Qcanon.
From stdpp Require Import numbers gmap strings pretty list.
From S2P Require Import Prelude Request SchedState SchedulerUpdate Detokenizer Logprobs.

Open Scope Z_scope.

Inductive RequestOutputKind := CUMULATIVE | DELTA | FINAL_ONLY.

#[export] Instance RequestOutputKind_eq_dec : EqDecision RequestOutputKind.
Proof. solve_decision. Defined.

(** * Outputs *)

Section Outputs.
Context {L : Type}.

(** The cumulative logprob, a float, is left out. *)
Record CompletionOutput := mkCompletion {
  cp_index : nat;
  cp_text : text;
  cp_token_ids : list Z;
  cp_logprobs : option (list L);
  cp_finish_reason : option FinishReason;
  cp_stop_reason : option (Z + text)
}.

Definition cp_finished (c : CompletionOutput) : bool := bool_decide (cp_finish_reason c ≠ None).

(** The list of completions of a [FINAL_ONLY] request starts with None entries. *)
Record RequestOutput := mkRequestOutput {
  ro_request_id : string;
  ro_prompt_logprobs : option (list (option L));
  ro_outputs : list (option CompletionOutput);
  ro_finished : bool;
  ro_kv_transfer_params : pyval;
  ro_num_cached_tokens : Z
}.

Inductive ClientOutput :=
| Completed (o : RequestOutput)
| PoolingRequestOutput (request_id : string) (outputs : Z) (finished : bool).

(** [if next_completion.logprobs: ... completion.logprobs.extend(...)]. *)
Definition extend_logprobs (l next : option (list L)) : result (option (list L)) :=
  match next with
  | None | Some [] => Ok l
  | Some m => l ← get_or AssertionError l; Ok (Some (l ++ m))
  end.

(** A completion and the next one with the same index. *)
Definition merge_completion (aggregate : bool) (c next : CompletionOutput) : result CompletionOutput :=
  if aggregate then
    lps ← extend_logprobs (cp_logprobs c) (cp_logprobs next);
    Ok (mkCompletion (cp_index c) (cp_text c ++ cp_text next) (cp_token_ids c ++ cp_token_ids next) lps (cp_finish_reason next) (cp_stop_reason next))
  else Ok next.

(** The inner loop of [add], with its [else]. *)
Fixpoint add_completion (aggregate : bool) (next : CompletionOutput) (l : list (option CompletionOutput)) : result (list (option CompletionOutput)) :=
  match l with
  | [] => Ok [Some next]
  | None :: _ => Err AttributeError
  | Some c :: l =>
      if (cp_index c =? cp_index next)%nat then c ← merge_completion aggregate c next; Ok (Some c :: l)
      else l ← add_completion aggregate next l; Ok (Some c :: l)
  end.

(** [RequestOutput.add]. *)
Definition add_output (aggregate : bool) (o next : RequestOutput) : result RequestOutput :=
  outs ← foldM (fun l n => n ← get_or AttributeError n; add_completion aggregate n l) (ro_outputs o) (ro_outputs next);
  Ok (mkRequestOutput (ro_request_id o) (ro_prompt_logprobs o) outs (ro_finished o || ro_finished next) (ro_kv_transfer_params next) (ro_num_cached_tokens o)).

(** * The collector *)

Record RequestOutputCollector := mkCollector {
  rc_aggregate : bool;
  rc_output : option (ClientOutput + exn)
}.

Definition collector_init (k : RequestOutputKind) : RequestOutputCollector := mkCollector (bool_decide (k = DELTA)) None.

(** [put]; a pooling output has no [add]. *)
Definition collector_put (o : ClientOutput + exn) (q : RequestOutputCollector) : result RequestOutputCollector :=
  match rc_output q, o with
  | None, _ | _, inr _ => Ok (mkCollector (rc_aggregate q) (Some o))
  | Some (inl (Completed p)), inl (Completed o) => p ← add_output (rc_aggregate q) p o; Ok (mkCollector (rc_aggregate q) (Some (inl (Completed p))))
  | Some (inl _), inl _ => Err AttributeError
  | Some (inr _), inl _ => Ok q
  end.

(** [get_nowait], and [get] when there is an output. *)
Definition collector_get (q : RequestOutputCollector) : result (option ClientOutput) * RequestOutputCollector :=
  (match rc_output q with None => Ok None | Some (inl o) => Ok (Some o) | Some (inr e) => Err e end, mkCollector (rc_aggregate q) None).

(** * Parallel sampling *)

Record ParentRequest := mkParent {
  pr_request_id : string;
  pr_n : nat;
  pr_output_kind : RequestOutputKind;
  child_requests : gset string;
  output_aggregator : list (option CompletionOutput)
}.

Definition parent_init (id : string) (n : nat) (k : RequestOutputKind) : ParentRequest :=
  mkParent id n k ∅ (if decide (k = FINAL_ONLY) then replicate n None else []).

(** The id of a child. *)
Definition child_id (index : nat) (id : string) : string := (pretty index +:+ "_" +:+ id)%string.

(** [get_child_info], without the sampling parameters. *)
Definition get_child_info (index : nat) (p : ParentRequest) : string * ParentRequest :=
  let id := child_id index (pr_request_id p) in
  (id, mkParent (pr_request_id p) (pr_n p) (pr_output_kind p) ({[id]} ∪ child_requests p) (output_aggregator p)).

(** [get_outputs]: the id of the parent, the completions to return, and whether all
    children are finished. *)
Definition get_outputs (child_request_id : string) (c : CompletionOutput) (p : ParentRequest) : result (string * list (option CompletionOutput) * bool * ParentRequest) :=
  children ← (if cp_finished c then
                _ ← (if decide (child_request_id ∈ child_requests p) then Ok tt else Err KeyError); Ok (child_requests p ∖ {[child_request_id]})
              else Ok (child_requests p));
  let finished := bool_decide (children = ∅) in
  if decide (pr_output_kind p ≠ FINAL_ONLY) then
    Ok (pr_request_id p, [Some c], finished, mkParent (pr_request_id p) (pr_n p) (pr_output_kind p) children (output_aggregator p))
  else
    _ ← get_or IndexError (output_aggregator p !! cp_index c);
    let agg := <[cp_index c := Some c]> (output_aggregator p) in
    Ok (pr_request_id p, if finished then agg else [], finished, mkParent (pr_request_id p) (pr_n p) (pr_output_kind p) children agg).
End Outputs.
Arguments CompletionOutput L : clear implicits.
Arguments RequestOutput L : clear implicits.
Arguments ClientOutput L : clear implicits.
Arguments RequestOutputCollector L : clear implicits.
Arguments ParentRequest L : clear implicits.

(** * Requests *)

Section Processor.
Context {D F : Type} `{!Decoder D, !LogprobSource F, HSO : !SetOrder}.

Abbreviation L := (LogprobDict F).
Abbreviation LP := (LogprobsProcessor F).

(** Parents and collectors are shared by the states of the children, which refer to
    them. *)
Record RequestState := mkRequestState {
  rq_request_id : string;
  rq_parent_req : option nat;
  rq_request_index : nat;
  rq_output_kind : RequestOutputKind;
  rq_logprobs_processor : option LP;
  rq_detokenizer : option (Detokenizer D);
  rq_queue : option nat;
  rq_num_cached_tokens : Z
}.

Record Processor := mkProcessor {
  request_states : gmap string RequestState;
  parent_requests : gmap string nat;
  parent_store : gmap nat (ParentRequest L);
  queue_store : gmap nat (RequestOutputCollector L)
}.

Definition set_rq_detokenizer (d : Detokenizer D) (r : RequestState) : RequestState :=
  mkRequestState (rq_request_id r) (rq_parent_req r) (rq_request_index r) (rq_output_kind r) (rq_logprobs_processor r) (Some d) (rq_queue r) (rq_num_cached_tokens r).
Definition set_rq_logprobs (l : LP) (r : RequestState) : RequestState :=
  mkRequestState (rq_request_id r) (rq_parent_req r) (rq_request_index r) (rq_output_kind r) (Some l) (rq_detokenizer r) (rq_queue r) (rq_num_cached_tokens r).
Definition set_rq_cached (n : Z) (r : RequestState) : RequestState :=
  mkRequestState (rq_request_id r) (rq_parent_req r) (rq_request_index r) (rq_output_kind r) (rq_logprobs_processor r) (rq_detokenizer r) (rq_queue r) n.

Definition set_states (m : gmap string RequestState) (s : Processor) : Processor := mkProcessor m (parent_requests s) (parent_store s) (queue_store s).
Definition set_parents (m : gmap string nat) (s : Processor) : Processor := mkProcessor (request_states s) m (parent_store s) (queue_store s).
Definition set_parent (p : nat) (P : ParentRequest L) (s : Processor) : Processor := mkProcessor (request_states s) (parent_requests s) (<[p := P]> (parent_store s)) (queue_store s).
Definition set_queue (q : nat) (c : RequestOutputCollector L) (s : Processor) : Processor := mkProcessor (request_states s) (parent_requests s) (parent_store s) (<[q := c]> (queue_store s)).

(** What [from_new_request] takes from sampling parameters, with the request's
    detokenizer; the tokenizer is None when [detokenize] is off. Pooling parameters
    have the kind of output only. *)
Record SamplingArgs := mkSamplingArgs {
  sa_output_kind : RequestOutputKind;
  sa_tokenizer : option (Z -> option text);
  sa_logprobs : option Z;
  sa_prompt_logprobs : option Z;
  sa_detokenizer : Detokenizer D
}.

Definition from_new_request (id : string) (params : SamplingArgs + RequestOutputKind) (parent : option nat) (index : nat) (queue : option nat) : RequestState :=
  match params with
  | inl p => mkRequestState id parent index (sa_output_kind p) (Some (logprobs_init (sa_tokenizer p) (sa_logprobs p) (sa_prompt_logprobs p))) (Some (sa_detokenizer p)) queue 0
  | inr kind => mkRequestState id parent index kind None None queue 0
  end.

(** [_new_completion_output]. *)
Definition new_completion_output (token_ids : list Z) (finish_reason : option FinishReason) (stop_reason : option (Z + text)) (r : RequestState) : result (CompletionOutput L * RequestState) :=
  d ← get_or AssertionError (rq_detokenizer r);
  lp ← get_or AssertionError (rq_logprobs_processor r);
  let finished := bool_decide (finish_reason ≠ None) in
  let delta := bool_decide (rq_output_kind r = DELTA) in
  let '(t, d) := get_next_output_text finished delta d in
  let token_ids := if delta then token_ids else output_token_ids d in
  let logprobs := match lp_logprobs lp with
                  | Some ((_ :: _) as l) => Some (if delta then pydrop (- zlen token_ids) l else l)
                  | o => o
                  end in
  Ok (mkCompletion (rq_request_index r) t token_ids logprobs finish_reason (if finished then stop_reason else None), set_rq_detokenizer d r).

(** [_new_request_output] for completions. *)
Definition new_request_output (id : string) (outputs : list (option (CompletionOutput L))) (finished : bool) (kv : pyval) (r : RequestState) : result (ClientOutput L * RequestState) :=
  lp ← get_or AssertionError (rq_logprobs_processor r);
  let '(plp, r) := (if decide (rq_output_kind r = DELTA) then let '(plp, lp) := pop_prompt_logprobs lp in (plp, set_rq_logprobs lp r) else (lp_prompt_logprobs lp, r)) in
  Ok (Completed (mkRequestOutput id plp outputs finished kv (rq_num_cached_tokens r)), r).

(** [make_request_output]; the state of the parent may change. *)
Definition make_request_output (new_token_ids : list Z) (pooling_output : option Z) (finish_reason : option FinishReason) (stop_reason : option (Z + text)) (kv : pyval)
  (r : RequestState) (s : Processor) : result (option (ClientOutput L) * RequestState * Processor) :=
  let finished := bool_decide (finish_reason ≠ None) in
  if negb finished && bool_decide (rq_output_kind r = FINAL_ONLY) then Ok (None, r, s) else
  match pooling_output with
  | Some x => Ok (Some (PoolingRequestOutput (rq_request_id r) x finished), r, s)
  | None =>
      '(c, r) ← new_completion_output new_token_ids finish_reason stop_reason r;
      match rq_parent_req r with
      | None => '(o, r) ← new_request_output (rq_request_id r) [Some c] finished kv r; Ok (Some o, r, s)
      | Some p =>
          P ← get_or AttributeError (parent_store s !! p);
          '(id, outputs, finished, P) ← get_outputs (rq_request_id r) c P;
          let s := set_parent p P s in
          match outputs with
          | [] => Ok (None, r, s)
          | _ => '(o, r) ← new_request_output id outputs finished kv r; Ok (Some o, r, s)
          end
      end
  end.

(** The output goes to the request's collector, or to the list that is returned. *)
Definition hand_out (o : option (ClientOutput L)) (q : option nat) (outs : list (ClientOutput L)) (s : Processor) : result (list (ClientOutput L) * Processor) :=
  match o, q with
  | None, _ => Ok (outs, s)
  | Some o, Some q => c ← get_or AttributeError (queue_store s !! q); c ← collector_put (inl o) c; Ok (outs, set_queue q c s)
  | Some o, None => Ok (outs ++ [o], s)
  end.

(** The end of a request: its state goes, and its parent's with the last child. *)
Definition free_state (id : string) (r : RequestState) (s : Processor) : result Processor :=
  let s := set_states (delete id (request_states s)) s in
  match rq_parent_req r with
  | None => Ok s
  | Some p =>
      P ← get_or AttributeError (parent_store s !! p);
      Ok (if decide (child_requests P = ∅) then set_parents (delete (pr_request_id P) (parent_requests s)) s else s)
  end.

(** The body of the loop of [process_outputs], without statistics (LoRA's among
    them) and tracing. *)
Definition process_output (acc : list (ClientOutput L) * list string * Processor) (eo : EngineCoreOutput) : result (list (ClientOutput L) * list string * Processor) :=
  let '(outs, aborts, s) := acc in
  let id := eo_request_id eo in
  match request_states s !! id with
  | None => Ok acc
  | Some r =>
      let r := set_rq_cached (eo_num_cached_tokens eo) r in
      '(stop_string, r) ←
        (match eo_pooling_output eo with
         | Some _ => Ok (None, r)
         | None =>
             d ← get_or AssertionError (rq_detokenizer r);
             lp ← get_or AssertionError (rq_logprobs_processor r);
             '(stop_string, d) ← update (eo_new_token_ids eo) (bool_decide (eo_finish_reason eo = Some STOP)) d;
             lp ← lp_update_from_output eo lp;
             Ok (stop_string, set_rq_logprobs lp (set_rq_detokenizer d r))
         end);
      let finish_reason := if stopped stop_string then Some STOP else eo_finish_reason eo in
      let stop_reason := if stopped stop_string then inr <$> stop_string else inl <$> eo_stop_reason eo in
      '(o, r, s) ← make_request_output (eo_new_token_ids eo) (eo_pooling_output eo) finish_reason stop_reason (eo_kv_transfer_params eo) r s;
      '(outs, s) ← hand_out o (rq_queue r) outs s;
      match finish_reason with
      | None => Ok (outs, aborts, set_states (<[id := r]> (request_states s)) s)
      | Some _ =>
          s ← free_state id r s;
          Ok (outs, if bool_decide (eo_finish_reason eo = None) then aborts ++ [id] else aborts, s)
      end
  end.

Definition process_outputs (l : list EngineCoreOutput) (s : Processor) : result (list (ClientOutput L) * list string * Processor) :=
  foldM process_output ([], [], s) l.

(** [add_request] with the new state; [parent] is the parent object. *)
Definition processor_add_request (r : RequestState) (s : Processor) : result Processor :=
  _ ← raise_if (bool_decide (is_Some (request_states s !! rq_request_id r))) ValueError;
  let s := set_states (<[rq_request_id r := r]> (request_states s)) s in
  match rq_parent_req r with
  | None => Ok s
  | Some p => P ← get_or AttributeError (parent_store s !! p); Ok (set_parents (<[pr_request_id P := p]> (parent_requests s)) s)
  end.

(** The body of the loop of [abort_requests]; [rec] aborts the children of a parent. *)
Definition abort_one (rec : list string -> Processor -> result (list string * Processor)) (acc : list string * Processor) (id : string) : result (list string * Processor) :=
  let '(aborted, s) := acc in
  match request_states s !! id with
  | Some r =>
      let s := set_states (delete id (request_states s)) s in
      match rq_queue r with
      | None => Ok (aborted ++ [id], s)
      | Some q =>
          '(o, r, s) ← make_request_output [] None (Some ABORT) None PNone r s;
          '(_, s) ← hand_out o (Some q) [] s;
          Ok (aborted ++ [id], s)
      end
  | None =>
      match parent_requests s !! id with
      | None => Ok (aborted, s)
      | Some p =>
          P ← get_or AttributeError (parent_store s !! p);
          '(children, s) ← (if decide (child_requests P = ∅) then Ok ([], s) else rec (set_order (child_requests P)) s);
          Ok (aborted ++ children, set_parents (delete id (parent_requests s)) s)
      end
  end.

(** [abort_requests]: the requests that were known. The children of a parent are
    aborted first; each level of the recursion has longer ids, so [fuel] is the
    number of parents and one. *)
Fixpoint processor_abort_requests (fuel : nat) (ids : list string) (s : Processor) : result (list string * Processor) :=
  match fuel with
  | O => Err OutOfFuel
  | S fuel => foldM (abort_one (processor_abort_requests fuel)) ([], s) ids
  end.

(** [propagate_error]. *)
Definition propagate_error (e : exn) (s : Processor) : result Processor :=
  foldM (fun s kv => q ← get_or AssertionError (rq_queue kv.2); c ← get_or AttributeError (queue_store s !! q); c ← collector_put (inr e) c; Ok (set_queue q c s)) s (map_to_list (request_states s)).
End Processor.
Arguments SamplingArgs D : clear implicits.
Arguments RequestState D F : clear implicits.
Arguments Processor D F : clear implicits.
