(* ===== verification/OutputProps.v ===== *)
(** What clients get: the collector loses nothing, and the completions of a
    parallel-sampling request come together in order. *)
From Stdlib Require Import ZArith Lia String QArith Qcanon.
From stdpp Require Import numbers gmap strings pretty list.
From S2P Require Import Prelude Request SchedState SchedulerUpdate Detokenizer Logprobs OutputProcessor.

Open Scope Z_scope.

(** * The collector *)

Section Collector.
Context {L : Type}.

(** What the completions with index [i] say, one after the other. *)
Definition said {A} (f : CompletionOutput L -> list A) (i : nat) (l : list (CompletionOutput L)) : list A := concat (f <$> filter (fun c => cp_index c = i) l).

Definition completions (o : RequestOutput L) : list (CompletionOutput L) := omap id (ro_outputs o).

(** The logprobs of a completion. *)
Definition logprobs_of (c : CompletionOutput L) : list L := default [] (cp_logprobs c).

(** Completions with different indices, all with or all without logprobs ([b]). *)
Record comps_ok (b : bool) (l : list (CompletionOutput L)) : Prop := {
  cm_nodup : NoDup (cp_index <$> l);
  cm_logprobs : Forall (fun c => bool_decide (is_Some (cp_logprobs c)) = b) l
}.

Definition output_ok (b : bool) (o : RequestOutput L) : Prop := exists l, ro_outputs o = Some <$> l /\ comps_ok b l.

Lemma said_app {A} (f : CompletionOutput L -> list A) i l l' : said f i (l ++ l') = said f i l ++ said f i l'.
Proof. unfold said. by rewrite filter_app, fmap_app, concat_app. Qed.

Lemma said_cons {A} (f : CompletionOutput L -> list A) i c l : said f i (c :: l) = (if decide (cp_index c = i) then f c else []) ++ said f i l.
Proof. unfold said. rewrite filter_cons. by destruct (decide (cp_index c = i)). Qed.

Lemma said_other {A} (f : CompletionOutput L -> list A) i l : i ∉ cp_index <$> l -> said f i l = [].
Proof.
  induction l as [|c l IH]; intros Hi; [done|]. rewrite said_cons, decide_False; [apply IH; intros H; apply Hi; by right|]. intros <-. apply Hi. by left.
Qed.

(** A part of a completion that a merged completion has twice. *)
Definition additive (b : bool) {A} (f : CompletionOutput L -> list A) : Prop := forall c n m, bool_decide (is_Some (cp_logprobs c)) = b -> bool_decide (is_Some (cp_logprobs n)) = b ->
  merge_completion true c n = Ok m -> f m = f c ++ f n.

Lemma merge_returns b (c n : CompletionOutput L) : bool_decide (is_Some (cp_logprobs c)) = b -> bool_decide (is_Some (cp_logprobs n)) = b ->
  exists m, merge_completion true c n = Ok m /\ cp_index m = cp_index c /\ bool_decide (is_Some (cp_logprobs m)) = b /\ logprobs_of m = logprobs_of c ++ logprobs_of n.
Proof.
  intros Hc Hn. unfold merge_completion, extend_logprobs, logprobs_of. destruct (cp_logprobs c) as [lc|], (cp_logprobs n) as [[|x ln]|]; cbn in *; try (subst b; done); eexists; (split; [done|]); cbn; rewrite ?app_nil_r; by subst b.
Qed.

Lemma additive_text b : additive b cp_text.
Proof. intros c n m _ _ E. unfold merge_completion in E. apply bind_Ok in E as (? & _ & [= <-]). done. Qed.

Lemma additive_tokens b : additive b cp_token_ids.
Proof. intros c n m _ _ E. unfold merge_completion in E. apply bind_Ok in E as (? & _ & [= <-]). done. Qed.

Lemma additive_logprobs b : additive b logprobs_of.
Proof. intros c n m Hc Hn E. destruct (merge_returns b c n Hc Hn) as (m' & E' & _ & _ & H). rewrite E in E'. by injection E' as <-. Qed.

Lemma add_completion_ok b (n : CompletionOutput L) l : comps_ok b l -> bool_decide (is_Some (cp_logprobs n)) = b ->
  exists l', add_completion true n (Some <$> l) = Ok (Some <$> l') /\ comps_ok b l' /\ (forall x, x ∈ cp_index <$> l' <-> x = cp_index n \/ x ∈ cp_index <$> l) /\
    forall A (f : CompletionOutput L -> list A) i, additive b f -> said f i l' = said f i l ++ said f i [n].
Proof.
  intros Hl Hn. induction l as [|c l IH].
  { exists [n]. split; [done|]. split_and!; [split; [by apply NoDup_singleton|by apply Forall_singleton]| |done]. intros x. cbn. rewrite list_elem_of_singleton, elem_of_nil. tauto. }
  destruct Hl as [Hnd Hlp]. rewrite fmap_cons in Hnd. apply NoDup_cons in Hnd as [Hni Hnd]. apply Forall_cons in Hlp as [Hc Hlp]. cbn [fmap list_fmap add_completion]. destruct (cp_index c =? cp_index n)%nat eqn:Ei.
  - apply Nat.eqb_eq in Ei. destruct (merge_returns b c n Hc Hn) as (m & E & Em & Hm & _). rewrite E. cbn [mbind result_bind]. exists (m :: l). split; [done|]. split_and!.
    + split; [rewrite fmap_cons, Em; by apply NoDup_cons|by apply Forall_cons].
    + intros x. rewrite !fmap_cons, !elem_of_cons, Em, Ei. tauto.
    + intros A f i Hf. rewrite !said_cons, Em, (Hf c n m Hc Hn E), <-Ei. change (said f i []) with (@nil A). rewrite app_nil_r. destruct (decide (cp_index c = i)) as [<-|]; [|by rewrite app_nil_r]. rewrite said_other by done. by rewrite !app_nil_r.
  - apply Nat.eqb_neq in Ei. destruct IH as (l' & E & [Hnd' Hlp'] & Hmem & Hsaid); [done|]. rewrite E. cbn [mbind result_bind]. exists (c :: l'). split; [done|]. split_and!.
    + split; [rewrite fmap_cons; apply NoDup_cons; split; [|done]|by apply Forall_cons]. rewrite Hmem. intros [?|?]; done.
    + intros x. rewrite !fmap_cons, !elem_of_cons, Hmem. tauto.
    + intros A f i Hf. rewrite (said_cons f i c l'), (said_cons f i c l), (Hsaid A f i Hf). by rewrite app_assoc.
Qed.

Lemma add_completions_ok b l' : forall l, comps_ok b l -> Forall (fun c => bool_decide (is_Some (cp_logprobs c)) = b) l' ->
  exists l2, foldM (fun l n => n ← get_or AttributeError n; add_completion true n l) (Some <$> l) (Some <$> l') = Ok (Some <$> l2) /\ comps_ok b l2 /\
    forall A (f : CompletionOutput L -> list A) i, additive b f -> said f i l2 = said f i l ++ said f i l'.
Proof.
  induction l' as [|n l' IH]; intros l Hl Hf; [exists l; split_and!; try done; intros A f i _; by rewrite app_nil_r|]. apply Forall_cons in Hf as [Hn Hf]. cbn [fmap list_fmap foldM].
  destruct (add_completion_ok b n l Hl Hn) as (l1 & E & Hl1 & _ & Hs1). cbn [get_or mbind result_bind]. rewrite E. cbn [mbind result_bind]. destruct (IH l1 Hl1 Hf) as (l2 & E2 & Hl2 & Hs2).
  exists l2. split_and!; try done. intros A f i Ha. rewrite (Hs2 A f i Ha), (Hs1 A f i Ha), <-app_assoc. f_equal. by rewrite (said_cons f i n l'), (said_cons f i n []), app_nil_r.
Qed.

Lemma completions_some (o : RequestOutput L) l : ro_outputs o = Some <$> l -> completions o = l.
Proof. intros E. unfold completions. rewrite E. clear E. induction l as [|c l IH]; [done|]. cbn. by rewrite IH. Qed.

(** The producer puts outputs, and the consumer takes what is there. *)
Inductive Event := Put (o : RequestOutput L) | Get.

Fixpoint run_events (evs : list Event) (q : RequestOutputCollector L) : result (list (ClientOutput L) * RequestOutputCollector L) :=
  match evs with
  | [] => Ok ([], q)
  | Put o :: evs => q ← collector_put (inl (Completed o)) q; run_events evs q
  | Get :: evs =>
      let '(got, q) := collector_get q in
      got ← got;
      '(l, q) ← run_events evs q;
      Ok (option_list got ++ l, q)
  end.

Definition puts (evs : list Event) : list (RequestOutput L) := omap (fun e => match e with Put o => Some o | Get => None end) evs.

(** The completions that a list of outputs has, and those that are still in the
    collector. *)
Definition all_completions (l : list (RequestOutput L)) : list (CompletionOutput L) := concat (completions <$> l).
Definition received (l : list (ClientOutput L)) : list (RequestOutput L) := omap (fun o => match o with Completed o => Some o | _ => None end) l.
Definition pending (q : RequestOutputCollector L) : list (RequestOutput L) := match rc_output q with Some (inl (Completed o)) => [o] | _ => [] end.

Lemma all_cons o l : all_completions (o :: l) = completions o ++ all_completions l.
Proof. done. Qed.

Lemma all_one o : all_completions [o] = completions o.
Proof. apply app_nil_r. Qed.

Definition collector_ok (b : bool) (q : RequestOutputCollector L) : Prop := rc_aggregate q = true /\ (rc_output q = None \/ exists o, rc_output q = Some (inl (Completed o)) /\ output_ok b o).

Lemma put_ok b o (q : RequestOutputCollector L) : collector_ok b q -> output_ok b o -> exists q', collector_put (inl (Completed o)) q = Ok q' /\ collector_ok b q' /\
  (forall A (f : CompletionOutput L -> list A) i, additive b f -> said f i (all_completions (pending q')) = said f i (all_completions (pending q)) ++ said f i (completions o)) /\
  existsb ro_finished (pending q') = existsb ro_finished (pending q) || ro_finished o.
Proof.
  intros [Ha Hq] Ho. unfold collector_put, pending. destruct Hq as [Hq|(p & Hq & l & El & Hl)]; rewrite Hq.
  - eexists. split; [done|]. split; [split; [done|right; by exists o]|]. cbn [rc_output]. split; [intros A f i _; by rewrite all_one|]. cbn. by rewrite orb_false_r.
  - destruct Ho as (l' & El' & [_ Hl']). unfold add_output. rewrite Ha, El, El'. destruct (add_completions_ok b l' l Hl Hl') as (l2 & E & Hl2 & Hs). rewrite E. cbn [mbind result_bind].
    eexists. split; [done|]. split; [split; [done|right; eexists; split; [done|by exists l2]]|]. cbn [rc_output]. split; [|cbn; by rewrite !orb_false_r].
    intros A f i Hf. rewrite !all_one, (completions_some p l El), (completions_some o l' El'). rewrite (completions_some _ l2) by done. by apply Hs.
Qed.

Lemma run_events_ok b evs : forall q, collector_ok b q -> Forall (output_ok b) (puts evs) -> exists got q', run_events evs q = Ok (got, q') /\ collector_ok b q' /\
  (forall A (f : CompletionOutput L -> list A) i, additive b f ->
    said f i (all_completions (received got)) ++ said f i (all_completions (pending q')) = said f i (all_completions (pending q)) ++ said f i (all_completions (puts evs))) /\
  existsb ro_finished (received got) || existsb ro_finished (pending q') = existsb ro_finished (pending q) || existsb ro_finished (puts evs).
Proof.
  induction evs as [|[o|] evs IH]; intros q Hq Hp; cbn [run_events].
  - exists [], q. split_and!; try done; [intros A f i _; unfold all_completions; cbn; by rewrite app_nil_r|by rewrite orb_false_r].
  - apply Forall_cons in Hp as [Ho Hp]. destruct (put_ok b o q Hq Ho) as (q1 & E & Hq1 & Hs & Hf). rewrite E. cbn [mbind result_bind]. destruct (IH q1 Hq1 Hp) as (got & q2 & E2 & Hq2 & Hs2 & Hf2).
    exists got, q2. split_and!; try done.
    + intros A f i Ha. rewrite (Hs2 A f i Ha), (Hs A f i Ha), <-app_assoc. f_equal. change (puts (Put o :: evs)) with (o :: puts evs). by rewrite all_cons, said_app.
    + rewrite Hf2, Hf. cbn. by rewrite orb_assoc.
  - unfold collector_get. destruct Hq as [Ha Hq]. assert (Hq1 : collector_ok b (mkCollector (rc_aggregate q) None)) by (split; [done|by left]). destruct (IH _ Hq1 Hp) as (got & q2 & E2 & Hq2 & Hs2 & Hf2).
    destruct Hq as [Hq|(o & Hq & Ho)]; rewrite Hq; cbn [mbind result_bind]; rewrite E2; cbn [mbind result_bind]; eexists _, q2; (split; [done|]); (split; [done|]); cbn [option_list app]; unfold pending in *; rewrite Hq.
    + split; [intros A f i Hadd; by apply Hs2|done].
    + change (received (option_list (Some (Completed o)) ++ got)) with (o :: received got). change (puts (Get :: evs)) with (puts evs). split; [|cbn [existsb]; by rewrite <-orb_assoc, Hf2, orb_false_r]. intros A f i Hadd. rewrite all_one, all_cons, said_app, <-app_assoc. f_equal. apply (Hs2 A f i Hadd).
Qed.

(** C39: The collector of a streaming request loses and repeats nothing: when
    the outputs put into it have completions with different indices, all with or
    all without logprobs, then however the producer's outputs and the consumer's
    reads interleave, no call raises, and the texts, tokens and logprobs that
    the consumer got for a completion index, followed by what the collector
    still holds, are those that the producer put, in order; and the end of the
    request is passed on. *)
Theorem collector_loses_nothing (b : bool) evs : Forall (output_ok b) (puts evs) -> exists got q, run_events evs (collector_init DELTA) = Ok (got, q) /\
  (forall i, said cp_text i (all_completions (received got ++ pending q)) = said cp_text i (all_completions (puts evs)) /\
    said cp_token_ids i (all_completions (received got ++ pending q)) = said cp_token_ids i (all_completions (puts evs)) /\
    said logprobs_of i (all_completions (received got ++ pending q)) = said logprobs_of i (all_completions (puts evs))) /\
  existsb ro_finished (received got ++ pending q) = existsb ro_finished (puts evs).
Proof.
  intros Hp. destruct (run_events_ok b evs (collector_init DELTA)) as (got & q & E & _ & Hs & Hf); [split; [done|by left]|done|]. exists got, q. split; [done|].
  assert (Happ : forall A (f : CompletionOutput L -> list A) i, additive b f -> said f i (all_completions (received got ++ pending q)) = said f i (all_completions (puts evs))).
  { intros A f i Ha. unfold all_completions at 1. rewrite fmap_app, concat_app, said_app. apply (Hs A f i Ha). }
  split; [|by rewrite existsb_app, Hf]. intros i. split_and!; apply Happ; [apply additive_text|apply additive_tokens|apply additive_logprobs].
Qed.
End Collector.

(** The producer is ahead of the consumer: two outputs are merged, the third is still
    in the collector. *)
Definition demo_delta (t : Z) (fin : bool) : RequestOutput unit := mkRequestOutput "r" None [Some (mkCompletion 0 [t] [t] (Some [tt]) None None)] fin PNone 0.

Lemma demo_delta_ok t fin : output_ok true (demo_delta t fin).
Proof. eexists [_]. split; [done|]. split; [by apply NoDup_singleton|by repeat constructor]. Qed.

Lemma collector_loses_nothing_witness : exists got q,
  run_events [Put (demo_delta 10 false); Put (demo_delta 20 false); Get; Put (demo_delta 30 true)] (collector_init DELTA) = Ok (got, q) /\ length got = 1%nat /\
  said cp_text 0 (all_completions (received got ++ pending q)) = [10; 20; 30] /\ existsb ro_finished (received got ++ pending q) = true.
Proof.
  destruct (collector_loses_nothing true [Put (demo_delta 10 false); Put (demo_delta 20 false); Get; Put (demo_delta 30 true)]) as (got & q & E & Hs & Hf).
  - repeat (apply Forall_cons_2; [apply demo_delta_ok|]). apply Forall_nil_2.
  - exists got, q. split; [exact E|]. split; [clear - E; vm_compute in E; injection E as <- _; reflexivity|]. split; [rewrite (proj1 (Hs 0%nat)); reflexivity|rewrite Hf; reflexivity].
Defined.

(** * Parallel sampling *)

Lemma string_app_cancel (s1 s2 t : string) : (s1 +:+ t = s2 +:+ t)%string -> s1 = s2.
Proof.
  assert (Hlen : forall s : string, String.length (s +:+ t)%string = (String.length s + String.length t)%nat) by (intros s; induction s as [|c s IH]; [done|exact (f_equal S IH)]).
  revert s2. induction s1 as [|c s1 IH]; intros [|c2 s2] E; try done.
  - apply (f_equal String.length) in E. rewrite !Hlen in E. cbn in E. lia.
  - apply (f_equal String.length) in E. rewrite !Hlen in E. cbn in E. lia.
  - cbn in E. injection E as -> E. f_equal. by apply IH.
Qed.

(** The children of a request have different ids. *)
Lemma child_id_inj id i j : child_id i id = child_id j id -> i = j.
Proof. unfold child_id. intros E%string_app_cancel. by apply (inj (pretty (A := nat))). Qed.

Section Parallel.
Context {L : Type}.

(** What happens to a parent: a child is registered, or the final output of a child is
    processed. [AsyncLLM.add_request] waits for the engine core after each child, so
    that outputs may come in between. *)
Inductive ChildEvent := Registers (i : nat) | Finishes (c : CompletionOutput L).

(** What the final outputs bring back. *)
Fixpoint run_children (evs : list ChildEvent) (p : ParentRequest L) : result (list (list (option (CompletionOutput L)) * bool) * ParentRequest L) :=
  match evs with
  | [] => Ok ([], p)
  | Registers i :: evs => run_children evs (get_child_info i p).2
  | Finishes c :: evs =>
      '(_, outs, finished, p) ← get_outputs (child_id (cp_index c) (pr_request_id p)) c p;
      '(rest, p) ← run_children evs p;
      Ok ((outs, finished) :: rest, p)
  end.

Definition registrations (evs : list ChildEvent) : list nat := omap (fun e => match e with Registers i => Some i | Finishes _ => None end) evs.
Definition final_outputs (evs : list ChildEvent) : list (CompletionOutput L) := omap (fun e => match e with Registers _ => None | Finishes c => Some c end) evs.

(** Children finish after they were registered, all of them, and except for the last
    output there is another child that is registered and not finished. *)
Fixpoint overlapping (running : gset nat) (evs : list ChildEvent) : Prop :=
  match evs with
  | [] => running = ∅
  | Registers i :: evs => overlapping ({[i]} ∪ running) evs
  | Finishes c :: evs => cp_finished c = true /\ cp_index c ∈ running /\ (running ∖ {[cp_index c]} = ∅ -> evs = []) /\ overlapping (running ∖ {[cp_index c]}) evs
  end.

Definition child_set (id : string) (O : gset nat) : gset string := set_map (fun i => child_id i id) O.

Lemma elem_of_child_set id i O : child_id i id ∈ child_set id O <-> i ∈ O.
Proof. unfold child_set. rewrite elem_of_map. split; [intros (j & E%child_id_inj & Hj); by rewrite E|]. intros Hi. by exists i. Qed.

Lemma child_set_remove id i O : child_set id O ∖ {[child_id i id]} = child_set id (O ∖ {[i]}).
Proof.
  apply set_eq. intros x. rewrite elem_of_difference, elem_of_singleton. unfold child_set. rewrite !elem_of_map. split.
  - intros [(j & -> & Hj) Hne]. exists j. split; [done|]. rewrite elem_of_difference, elem_of_singleton. split; [done|]. intros ->. by apply Hne.
  - intros (j & -> & [Hj Hne]%elem_of_difference). rewrite elem_of_singleton in Hne. split; [by exists j|]. by intros E%child_id_inj.
Qed.

(** One child finishes, when no output was kept for it. *)
Lemma get_outputs_final (c : CompletionOutput L) O (p : ParentRequest L) : pr_output_kind p = FINAL_ONLY -> cp_finished c = true -> cp_index c ∈ O -> child_requests p = child_set (pr_request_id p) O ->
  (cp_index c < length (output_aggregator p))%nat ->
  let agg := <[cp_index c := Some c]> (output_aggregator p) in
  let rest := O ∖ {[cp_index c]} in
  get_outputs (child_id (cp_index c) (pr_request_id p)) c p = Ok (pr_request_id p, if decide (rest = ∅) then agg else [], bool_decide (rest = ∅),
    mkParent (pr_request_id p) (pr_n p) FINAL_ONLY (child_set (pr_request_id p) rest) agg).
Proof.
  intros Hk Hf Hin Hc Hi agg rest. unfold get_outputs. rewrite Hf, Hc, decide_True by (by apply elem_of_child_set). cbn [mbind result_bind].
  rewrite child_set_remove. fold rest. rewrite Hk, decide_False by (intros H; by apply H). destruct (lookup_lt_is_Some_2 _ _ Hi) as [x Ex]. rewrite Ex. cbn [get_or mbind result_bind].
  assert (Hb : child_set (pr_request_id p) rest = ∅ <-> rest = ∅).
  { split; [|intros ->; apply set_map_empty]. intros E. apply set_eq. intros i. rewrite <-(elem_of_child_set (pr_request_id p)), E. set_solver. }
  rewrite (bool_decide_ext _ _ Hb). fold agg. destruct (decide (rest = ∅)) as [E|E]; [by rewrite bool_decide_true|by rewrite bool_decide_false].
Qed.

(** Each child that is running or registered later finishes once. *)
Lemma finished_indices evs : forall O, overlapping O evs -> NoDup (registrations evs) -> (forall i, i ∈ registrations evs -> i ∉ O) ->
  NoDup (cp_index <$> final_outputs evs) /\ forall i, i ∈ cp_index <$> final_outputs evs <-> i ∈ O \/ i ∈ registrations evs.
Proof.
  induction evs as [|[i|c] evs IH]; intros O Ho Hnd Hd; cbn in *.
  - subst O. split; [apply NoDup_nil_2|]. intros i. set_solver.
  - apply NoDup_cons in Hnd as [Hni Hnd]. destruct (IH _ Ho Hnd) as [A B]; [intros j Hj; specialize (Hd j); set_solver|]. split; [done|]. intros j. rewrite B. set_solver.
  - destruct Ho as (_ & Hin & _ & Ho). destruct (IH _ Ho Hnd) as [A B]; [intros j Hj; specialize (Hd j Hj); set_solver|]. split.
    + apply NoDup_cons. split; [|done]. rewrite B. intros [H|H]; [set_solver|by apply (Hd _ H)].
    + intros j. rewrite elem_of_cons, B. destruct (decide (j = cp_index c)) as [->|]; set_solver.
Qed.

Lemma final_outputs_last evs O : overlapping O evs -> O ≠ ∅ -> final_outputs evs ≠ [].
Proof. revert O. induction evs as [|[i|c] evs IH]; intros O Ho Hne; cbn in *; [done| |done]. apply (IH _ Ho). set_solver. Qed.

Lemma run_children_spec evs : forall O (p : ParentRequest L), final_outputs evs ≠ [] -> pr_output_kind p = FINAL_ONLY -> overlapping O evs -> child_requests p = child_set (pr_request_id p) O ->
  Forall (fun c => cp_index c < length (output_aggregator p))%nat (final_outputs evs) ->
  exists p', run_children evs p = Ok (replicate (length (final_outputs evs) - 1) ([], false) ++ [(foldl (fun agg c => <[cp_index c := Some c]> agg) (output_aggregator p) (final_outputs evs), true)], p').
Proof.
  induction evs as [|[i|c] evs IH]; intros O p Hne Hk Ho Hc Hi; [done| |]; cbn [run_children].
  - destruct (IH ({[i]} ∪ O) (get_child_info i p).2) as (p' & E'); [done|done|done| |done|by exists p']. cbn. rewrite Hc. unfold child_set. by rewrite set_map_union_L, set_map_singleton_L.
  - destruct Ho as (Hf & Hin & Hlast & Ho). cbn [final_outputs omap list_omap] in *. change (omap _ evs) with (final_outputs evs) in *. apply Forall_cons in Hi as [Hic Hi].
    rewrite (get_outputs_final c O p Hk Hf Hin Hc Hic). cbn [mbind result_bind]. destruct (decide (O ∖ {[cp_index c]} = ∅)) as [E|E].
    + rewrite (Hlast E), bool_decide_true by done. by eexists.
    + rewrite bool_decide_false by done. set (p1 := mkParent _ _ _ _ _). pose proof (final_outputs_last evs _ Ho E) as Hne'. destruct (IH _ p1 Hne' eq_refl Ho eq_refl) as (p' & E'); [cbn; by rewrite length_insert|].
      rewrite E'. cbn [mbind result_bind]. exists p'. do 2 f_equal. cbn [length foldl]. destruct (final_outputs evs) as [|c' l]; [done|]. cbn [length]. replace (S (S (length l)) - 1)%nat with (S (S (length l) - 1)) by lia. done.
Qed.

Lemma foldl_insert_lookup (l : list (CompletionOutput L)) : forall agg, NoDup (cp_index <$> l) -> Forall (fun c => cp_index c < length agg)%nat l ->
  length (foldl (fun agg c => <[cp_index c := Some c]> agg) agg l) = length agg /\ (forall c, c ∈ l -> foldl (fun agg c => <[cp_index c := Some c]> agg) agg l !! cp_index c = Some (Some c)) /\
  forall i, i ∉ cp_index <$> l -> foldl (fun agg c => <[cp_index c := Some c]> agg) agg l !! i = agg !! i.
Proof.
  induction l as [|c l IH]; intros agg Hnd Hi; [split_and!; [done|intros c Hc; by apply elem_of_nil in Hc|done]|]. rewrite fmap_cons in *. apply NoDup_cons in Hnd as [Hnew Hnd]. apply Forall_cons in Hi as [Hic Hi].
  destruct (IH (<[cp_index c := Some c]> agg) Hnd) as (A & B & C); [by rewrite length_insert|]. cbn [foldl]. rewrite length_insert in A. split_and!; [done| |].
  - intros c' [->|Hin]%elem_of_cons; [|by apply B]. rewrite (C _ Hnew). by apply list_lookup_insert_eq.
  - intros i Hni. rewrite not_elem_of_cons in Hni. destruct Hni as [Hne Hni]. rewrite (C _ Hni). by apply list_lookup_insert_ne.
Qed.
End Parallel.

(** C38: The completions of a parallel-sampling request come together: the [n] children
    of a request that wants its final output only are registered in order and may
    finish in any order, also before later children are registered, as long as
    another registered child is unfinished (otherwise the request ends early, see
    [early_child_ends_request]). The calls for the first [n - 1] final outputs return
    nothing, and the last one returns all completions, that of child [i] at position
    [i], with the request finished. *)
Theorem parallel_sampling_complete {L : Type} (id : string) (n : nat) (evs : list (ChildEvent (L := L))) : (0 < n)%nat -> registrations evs = seq 0 n -> overlapping ∅ evs ->
  exists all p, run_children evs (parent_init id n FINAL_ONLY) = Ok (replicate (n - 1) ([], false) ++ [(all, true)], p) /\ length all = n /\
    Permutation (cp_index <$> final_outputs evs) (seq 0 n) /\ forall c, c ∈ final_outputs evs -> all !! cp_index c = Some (Some c).
Proof.
  intros Hn Hr Ho. set (p := parent_init (L := L) id n FINAL_ONLY). destruct (finished_indices evs ∅ Ho) as [Hnd Hin]; [rewrite Hr; apply NoDup_seq|set_solver|].
  assert (Hp : Permutation (cp_index <$> final_outputs evs) (seq 0 n)) by (apply NoDup_Permutation; [done|apply NoDup_seq|]; intros i; rewrite Hin, Hr; set_solver).
  assert (Hlen : length (final_outputs evs) = n) by (apply Permutation_length in Hp; by rewrite length_fmap, length_seq in Hp).
  assert (Hi : Forall (fun c => cp_index c < length (output_aggregator p))%nat (final_outputs evs)).
  { change (output_aggregator p) with (replicate n (@None (CompletionOutput L))). rewrite length_replicate. apply Forall_forall. intros c Hc. apply (list_elem_of_fmap_2 cp_index) in Hc. rewrite Hp in Hc. apply elem_of_seq in Hc. lia. }
  destruct (run_children_spec evs ∅ p) as (p' & E); [intros E; rewrite E in Hlen; cbn in Hlen; lia|done|done|unfold child_set; by rewrite set_map_empty|done|].
  rewrite Hlen in E. destruct (foldl_insert_lookup (final_outputs evs) (output_aggregator p) Hnd Hi) as (H1 & H2 & _).
  eexists _, p'. split; [exact E|]. split; [rewrite H1; apply length_replicate|]. by split.
Qed.

(** The second of three children finishes before the third is registered. *)
Lemma parallel_sampling_complete_witness : exists all p,
  run_children [Registers 0; Registers 1; Finishes (mkCompletion 1 [20] [2] None (Some STOP) None); Registers 2; Finishes (mkCompletion 0 [10] [1] None (Some LENGTH) None); Finishes (mkCompletion 2 [30] [3] None (Some STOP) None)]
    (parent_init (L := unit) "r" 3 FINAL_ONLY) = Ok ([([], false); ([], false); (all, true)], p) /\ (cp_text <$> omap id all) = [[10]; [20]; [30]].
Proof.
  set (evs := [Registers 0; Registers 1; Finishes (mkCompletion (L := unit) 1 [20] [2] None (Some STOP) None); Registers 2; Finishes (mkCompletion 0 [10] [1] None (Some LENGTH) None); Finishes (mkCompletion 2 [30] [3] None (Some STOP) None)]).
  destruct (parallel_sampling_complete "r" 3 evs) as (all & p & E & Hlen & _ & Hall); [lia|reflexivity|cbn; set_solver|]. exists all, p. split; [exact E|].
  pose proof (Hall _ ltac:(by left)) as H1. pose proof (Hall _ ltac:(by right; left)) as H0. pose proof (Hall _ ltac:(by right; right; left)) as H2. destruct all as [|a [|b [|c [|]]]]; try done. injection H0 as ->. injection H1 as ->. injection H2 as ->. reflexivity.
Defined.

(** A child that finishes before its siblings are registered ends the request:
    [AsyncLLM.add_request] registers a child, hands it to the engine core and waits;
    when the output of the first child is processed before the next is registered,
    the client gets a finished output whose other completions are [None]. *)
Theorem early_child_ends_request {L : Type} (id : string) (n : nat) (c : CompletionOutput L) : (0 < n)%nat -> cp_index c = 0%nat -> cp_finished c = true ->
  exists p, get_outputs (child_id 0 id) c (get_child_info 0 (parent_init id n FINAL_ONLY)).2 = Ok (id, Some c :: replicate (n - 1) None, true, p).
Proof.
  intros Hn Hi Hf. set (p := (get_child_info 0 (parent_init id n FINAL_ONLY)).2). change id with (pr_request_id p). rewrite <-Hi. rewrite (get_outputs_final c {[0%nat]} p); try done.
  - rewrite Hi, decide_True, bool_decide_true by set_solver. change (output_aggregator p) with (replicate n (@None (CompletionOutput L))). destruct n as [|n]; [lia|]. eexists. cbn [replicate insert list_insert]. replace (S n - 1)%nat with n by lia. done.
  - rewrite Hi. set_solver.
  - rewrite Hi. change (output_aggregator p) with (replicate n (@None (CompletionOutput L))). by rewrite length_replicate.
Qed.

(** The final output of an aborted streaming request has no tokens but all logprobs of
    the request once more ([logprobs[-0:]] is the whole list). *)
Theorem abort_repeats_logprobs {D F : Type} `{!Decoder D} (r : RequestState D F) d lp l : rq_output_kind r = DELTA -> rq_detokenizer r = Some d -> rq_logprobs_processor r = Some lp -> lp_logprobs lp = Some l ->
  exists c r', new_completion_output [] (Some ABORT) None r = Ok (c, r') /\ cp_token_ids c = [] /\ cp_logprobs c = Some l.
Proof.
  intros Hk Hd Hlp Hl. unfold new_completion_output. rewrite Hd, Hlp, Hk. cbn [get_or mbind result_bind]. rewrite !(bool_decide_true (DELTA = DELTA)) by done. destruct (get_next_output_text _ true d) as [t d'].
  eexists _, _. split; [done|]. split; [done|]. cbn. rewrite Hl. destruct l as [|x l]; [done|]. change (- zlen []) with 0. assert (E : slice_bound (zlen (x :: l)) 0 = 0) by (unfold slice_bound, zlen; cbn; lia). unfold pydrop. by rewrite E.
Qed.

(** With one logprob per token the output of a streaming request has those of its own
    tokens. *)
Theorem delta_logprobs_of_tokens {D F : Type} `{!Decoder D} (r : RequestState D F) d lp l m toks fr sr : rq_output_kind r = DELTA -> rq_detokenizer r = Some d -> rq_logprobs_processor r = Some lp ->
  lp_logprobs lp = Some (l ++ m) -> length m = length toks -> toks ≠ [] ->
  exists c r', new_completion_output toks fr sr r = Ok (c, r') /\ cp_token_ids c = toks /\ cp_logprobs c = Some m.
Proof.
  intros Hk Hd Hlp Hl Hm Ht. unfold new_completion_output. rewrite Hd, Hlp, Hk. cbn [get_or mbind result_bind]. rewrite !(bool_decide_true (DELTA = DELTA)) by done. destruct (get_next_output_text _ true d) as [t d'].
  eexists _, _. split; [done|]. split; [done|]. cbn [cp_logprobs]. rewrite Hl.
  assert (E : pydrop (- zlen toks) (l ++ m) = m).
  { unfold pydrop. replace (slice_bound (zlen (l ++ m)) (- zlen toks)) with (zlen l); [unfold zlen; by rewrite Nat2Z.id, drop_app_length|]. unfold slice_bound, zlen. rewrite length_app, Hm.
    destruct toks; [done|]. cbn [length]. destruct (Z.ltb_spec (- Z.of_nat (S (length toks))) 0); lia. }
  destruct (l ++ m) as [|x k] eqn:Elm; [|by rewrite E]. apply app_nil in Elm as [_ ->]. by destruct toks.
Qed.
