(* ===== verification/ClientProps.v ===== *)
(** From the engine core's outputs to the text that clients of streaming requests
    get: output processor, detokenizers, logprobs and collectors together. *)
From Stdlib Require Import ZArith Lia String QArith Qcanon.
From stdpp Require Import numbers gmap strings list.
From S2P Require Import Prelude Request SchedState SchedulerUpdate Detokenizer Logprobs OutputProcessor OutputProps.

Open Scope Z_scope.

Section Client.
Context {D F : Type} `{!Decoder D, !LogprobSource F}.

Abbreviation dict := (LogprobDict F).

(** * Reference *)

(** What an output brings for the detokenizer. *)
Definition input_of (eo : EngineCoreOutput) : StreamInput :=
  mkInput (eo_new_token_ids eo) (bool_decide (eo_finish_reason eo = Some STOP)) (bool_decide (eo_finish_reason eo ≠ None)).

(** The tokens of a request up to its end. *)
Fixpoint stream_tokens (l : list StreamInput) (d : Detokenizer D) : list Z :=
  match l with
  | [] => []
  | i :: l => in_tokens i ++ match stream_step i d with Ok (_, false, d) => stream_tokens l d | _ => [] end
  end.

Lemma stream_snoc i l : forall d : Detokenizer D, stream (l ++ [i]) d =
  ('(t, finished, d) ← stream l d; if (finished : bool) then Ok (t, true, d) else '(t', finished, d) ← stream_step i d; Ok (t ++ t', finished, d)).
Proof.
  induction l as [|j l IH]; intros d; cbn [app stream mbind result_bind].
  - destruct (stream_step i d) as [[[t [|]] d']|]; cbn [mbind result_bind]; by rewrite ?app_nil_r.
  - destruct (stream_step j d) as [[[t [|]] d']|]; cbn [mbind result_bind]; try done. rewrite IH.
    destruct (stream l d') as [[[t' [|]] d2]|]; cbn [mbind result_bind]; try done. destruct (stream_step i d2) as [[[t2 f] d3]|]; cbn [mbind result_bind]; by rewrite ?app_assoc.
Qed.

Lemma stream_tokens_snoc i l : forall (d : Detokenizer D) t fin d', stream l d = Ok (t, fin, d') ->
  stream_tokens (l ++ [i]) d = stream_tokens l d ++ if fin then [] else in_tokens i.
Proof.
  induction l as [|j l IH]; intros d t fin d'; cbn [app stream stream_tokens].
  - intros [= <- <- <-]. destruct (stream_step i d) as [[[? [|]] ?]|]; by rewrite app_nil_r.
  - destruct (stream_step j d) as [[[t1 [|]] d1]|]; cbn [mbind result_bind]; [intros [= <- <- <-]; by rewrite !app_nil_r| |done].
    destruct (stream l d1) as [[[t2 f2] d2]|] eqn:E; cbn [mbind result_bind]; [|done]. intros [= <- <- <-]. rewrite (IH _ _ _ _ E). by rewrite app_assoc.
Qed.

(** * Streaming requests *)

Definition has_logprobs (lp : LogprobsProcessor F) : bool := bool_decide (is_Some (lp_num_logprobs lp)).

(** A streaming request that is not part of a parallel-sampling request, and its
    collector. *)
Record stream_request (Q : gmap nat (RequestOutputCollector dict)) (r : RequestState D F) : Prop := {
  sq_kind : rq_output_kind r = DELTA;
  sq_parent : rq_parent_req r = None;
  sq_detok : exists d, rq_detokenizer r = Some d /\ stream_ok d;
  sq_logprobs : exists lp q c, rq_logprobs_processor r = Some lp /\ logprobs_ok lp /\ rq_queue r = Some q /\ Q !! q = Some c /\ collector_ok (has_logprobs lp) c
}.

(** All requests stream, each into its own collector. *)
Record streams (s : Processor D F) : Prop := {
  st_requests : forall id r, request_states s !! id = Some r -> stream_request (queue_store s) r;
  st_queues : forall id id' r r', request_states s !! id = Some r -> request_states s !! id' = Some r' -> rq_queue r = rq_queue r' -> id = id';
  st_store : forall q c, queue_store s !! q = Some c -> exists b, collector_ok b c
}.

(** An output of a generation request. *)
Record good_output (s : Processor D F) (eo : EngineCoreOutput) : Prop := {
  go_pooling : eo_pooling_output eo = None;
  go_lists : forall r lp, request_states s !! eo_request_id eo = Some r -> rq_logprobs_processor r = Some lp -> lists_ok eo lp
}.

(** The output that a request gets. *)
Definition client_output (r : RequestState D F) (t : text) (toks : list Z) (fin : bool) (o : RequestOutput dict) : Prop := exists c,
  ro_outputs o = [Some c] /\ cp_index c = rq_request_index r /\ cp_text c = t /\ cp_token_ids c = toks /\ ro_finished o = fin.

(** A request after an output, with the same identity. *)
Definition continues (r r' : RequestState D F) (d : Detokenizer D) : Prop :=
  rq_request_index r' = rq_request_index r /\ rq_queue r' = rq_queue r /\ rq_output_kind r' = rq_output_kind r /\ rq_parent_req r' = rq_parent_req r /\ rq_detokenizer r' = Some d.

Definition same_logprobs (lp lp' : LogprobsProcessor F) : Prop := logprobs_ok lp' /\ lp_num_logprobs lp' = lp_num_logprobs lp /\ lp_num_prompt_logprobs lp' = lp_num_prompt_logprobs lp.

Lemma pop_same (lp : LogprobsProcessor F) : logprobs_ok lp -> same_logprobs lp (pop_prompt_logprobs lp).2.
Proof.
  intros [A B C]. unfold pop_prompt_logprobs, same_logprobs. cbn [snd]. destruct (lp_prompt_logprobs lp) as [[|x l]|] eqn:E; (split; [|done]); [by split; rewrite ?E| |by split; rewrite ?E]. split; cbn; [done|done|by rewrite C].
Qed.

Lemma make_stream toks finr stopr kv (r : RequestState D F) s d lp t d' : rq_output_kind r = DELTA -> rq_parent_req r = None -> rq_detokenizer r = Some d -> rq_logprobs_processor r = Some lp -> logprobs_ok lp ->
  get_next_output_text (bool_decide (finr ≠ None)) true d = (t, d') ->
  exists o r' lp', make_request_output toks None finr stopr kv r s = Ok (Some (Completed o), r', s) /\ client_output r t toks (bool_decide (finr ≠ None)) o /\ output_ok (has_logprobs lp) o /\
    continues r r' d' /\ rq_logprobs_processor r' = Some lp' /\ same_logprobs lp lp'.
Proof.
  intros Hk Hp Hd Hlp Hok Et. unfold make_request_output. rewrite Hk, andb_false_r. unfold new_completion_output. rewrite Hd, Hlp, Hk. cbn [get_or mbind result_bind]. rewrite (bool_decide_true (DELTA = DELTA)) by done. rewrite Et. cbn [mbind result_bind].
  cbn [rq_parent_req set_rq_detokenizer]. rewrite Hp. unfold new_request_output. cbn [rq_logprobs_processor set_rq_detokenizer rq_output_kind]. rewrite Hlp, Hk. cbn [get_or mbind result_bind].
  rewrite decide_True by done. destruct (pop_prompt_logprobs lp) as [plp lp'] eqn:Epop. cbn [mbind result_bind]. eexists _, _, lp'. split; [done|]. split; [by eexists|]. split; [|split; [done|]].
  - eexists [_]. split; [done|]. split; [by apply NoDup_singleton|]. apply Forall_singleton. cbn. unfold has_logprobs. apply bool_decide_ext. rewrite (lk_sample _ Hok). by destruct (lp_logprobs lp) as [[|]|].
  - split; [done|]. pose proof (pop_same lp Hok) as H. by rewrite Epop in H.
Qed.

(** What an output does to the state of its request and its collector. *)
Record stepped (s : Processor D F) (eo : EngineCoreOutput) (r : RequestState D F) (d : Detokenizer D) (s' : Processor D F) (t : text) (fin : bool) (d' : Detokenizer D)
  (o : RequestOutput dict) (r' : RequestState D F) (q : nat) (c c' : RequestOutputCollector dict) (lp lp' : LogprobsProcessor F) : Prop := {
  sp_step : stream_step (input_of eo) d = Ok (t, fin, d');
  sp_queue : rq_queue r = Some q /\ queue_store s !! q = Some c;
  sp_put : collector_put (inl (Completed o)) c = Ok c';
  sp_output : client_output r t (eo_new_token_ids eo) fin o;
  sp_ok : output_ok (has_logprobs lp) o /\ collector_ok (has_logprobs lp) c;
  sp_state : s' = mkProcessor (if fin then delete (eo_request_id eo) (request_states s) else <[eo_request_id eo := r']> (request_states s)) (parent_requests s) (parent_store s) (<[q := c']> (queue_store s));
  sp_continues : continues r r' d';
  sp_stream : fin = false -> stream_ok d';
  sp_logprobs : rq_logprobs_processor r = Some lp /\ rq_logprobs_processor r' = Some lp' /\ same_logprobs lp lp'
}.

Lemma process_stream outs aborts s eo r d : total_decoder (D := D) -> streams s -> good_output s eo -> request_states s !! eo_request_id eo = Some r -> rq_detokenizer r = Some d ->
  exists aborts' s' t fin d' o r' q c c' lp lp', process_output (outs, aborts, s) eo = Ok (outs, aborts', s') /\ stepped s eo r d s' t fin d' o r' q c c' lp lp'.
Proof.
  intros Hdec Hs [Hpool Hlists] Er Ed. destruct (st_requests s Hs _ r Er) as [Hk Hp (d0 & Ed0 & Hd) (lp & q & c & Elp & Hlp & Eq & Ec & Hc)]. rewrite Ed in Ed0. injection Ed0 as <-.
  destruct (stream_step_spec (input_of eo) d Hdec Hd) as (t & fin & d' & Est & _ & _ & _ & Hnot). pose proof Est as Est'. unfold stream_step in Est'. cbn [input_of in_tokens in_stop in_finished] in Est'.
  unfold process_output. rewrite Er, Hpool. cbn [set_rq_cached rq_detokenizer rq_logprobs_processor]. rewrite Ed, Elp. cbn [get_or mbind result_bind].
  destruct (update (eo_new_token_ids eo) (bool_decide (eo_finish_reason eo = Some STOP)) d) as [[ss d1]|]; [|done]. cbn [mbind result_bind] in Est' |- *.
  destruct (update_from_output_returns eo lp Hlp (Hlists r lp Er Elp)) as (lp1 & -> & Hlp1 & N1 & N2). cbn [mbind result_bind].
  set (fr := if stopped ss then Some STOP else eo_finish_reason eo). assert (Hfr : bool_decide (fr ≠ None) = bool_decide (eo_finish_reason eo ≠ None) || stopped ss).
  { unfold fr. destruct (stopped ss); [by rewrite orb_true_r|by rewrite orb_false_r]. }
  destruct (get_next_output_text _ true d1) as [t1 d2] eqn:Et. rewrite <-Hfr in Et, Est'. injection Est' as <- <- <-.
  set (r1 := set_rq_logprobs lp1 _). destruct (make_stream (eo_new_token_ids eo) fr (if stopped ss then inr <$> ss else inl <$> eo_stop_reason eo) (eo_kv_transfer_params eo) r1 s d1 lp1 t1 d2) as (o & r2 & lp2 & E2 & Ho & Hoo & Hcont & Elp2 & Hs2 & N3 & N4); try done.
  assert (Hb : has_logprobs lp1 = has_logprobs lp) by (unfold has_logprobs; by rewrite N1). rewrite Hb in Hoo. destruct Hcont as (C1 & C2 & C3 & C4 & C5).
  destruct (put_ok _ o c Hc Hoo) as (c' & Eput & _). rewrite E2. cbn [mbind result_bind]. unfold hand_out. rewrite C2. change (rq_queue r1) with (rq_queue r). rewrite Eq. cbn [get_or]. rewrite Ec. cbn [get_or mbind result_bind]. rewrite Eput. cbn [mbind result_bind].
  assert (Hres : exists aborts' s', (match fr with None => Ok (outs, aborts, set_states (<[eo_request_id eo := r2]> (request_states (set_queue q c' s))) (set_queue q c' s))
    | Some _ => s0 ← free_state (eo_request_id eo) r2 (set_queue q c' s); Ok (outs, if bool_decide (eo_finish_reason eo = None) then aborts ++ [eo_request_id eo] else aborts, s0) end) = Ok (outs, aborts', s') /\
    s' = mkProcessor (if bool_decide (fr ≠ None) then delete (eo_request_id eo) (request_states s) else <[eo_request_id eo := r2]> (request_states s)) (parent_requests s) (parent_store s) (<[q := c']> (queue_store s))).
  { destruct fr as [fr0|]; [unfold free_state; rewrite C4; change (rq_parent_req r1) with (rq_parent_req r); rewrite Hp|]; by eexists _, _. }
  destruct Hres as (aborts' & s' & E3 & Es'). rewrite E3. exists aborts', s', t1, (bool_decide (fr ≠ None)), d2, o, r2, q, c, c', lp, lp2. split; [done|].
  split; try done. split_and!; try done; unfold same_logprobs; by rewrite ?N3, ?N4, ?N1, ?N2.
Qed.

Section Stepped.
Context s eo r d s' t fin d' o r' q c c' lp lp' (Hs : streams s) (Er : request_states s !! eo_request_id eo = Some r)
  (Hst : stepped s eo r d s' t fin d' o r' q c c' lp lp').

(** A request after the output was there before, with the same collector and
    settings; the others are untouched. *)
Lemma stepped_lookup id r1 : request_states s' !! id = Some r1 -> (id ≠ eo_request_id eo /\ request_states s !! id = Some r1) \/ (id = eo_request_id eo /\ r1 = r' /\ fin = false).
Proof.
  rewrite (sp_state _ _ _ _ _ _ _ _ _ _ _ _ _ _ _ Hst). cbn. destruct fin; [intros [Hne E]%lookup_delete_Some; left; auto|]. intros [[<- <-]|[Hne E]]%lookup_insert_Some; [by right|left; auto].
Qed.

Lemma stepped_collector : collector_ok (has_logprobs lp) c'.
Proof. destruct Hst as [? ? Eput ? [Ho Hc]]. destruct (put_ok _ o c Hc Ho) as (c2 & E & H & _). rewrite Eput in E. by injection E as <-. Qed.

Lemma stepped_other id r1 : id ≠ eo_request_id eo -> request_states s !! id = Some r1 -> rq_queue r1 ≠ Some q.
Proof. intros Hne E1 Eq. apply Hne. apply (st_queues s Hs id (eo_request_id eo) r1 r); try done. rewrite Eq. symmetry. apply (sp_queue _ _ _ _ _ _ _ _ _ _ _ _ _ _ _ Hst). Qed.

Lemma stepped_streams : streams s'.
Proof.
  pose proof stepped_collector as Hc'. pose proof stepped_other as Hoth. destruct Hst as [_ [Eq Ec] _ _ _ Es' (C1 & C2 & C3 & C4 & C5) Hd' (L1 & L2 & L3 & L4 & L5)]. split.
  - intros id r1 E1. destruct (stepped_lookup id r1 E1) as [[Hne E]|(-> & -> & Hf)].
    + destruct (st_requests s Hs id r1 E) as [A B C (lp1 & q1 & c1 & H1 & H2 & H3 & H4 & H5)]. split; try done. exists lp1, q1, c1. split_and!; try done. rewrite Es'. cbn.
      rewrite lookup_insert_ne; [done|]. intros ->. by destruct (Hoth id r1 Hne E).
    + destruct (st_requests s Hs _ r Er) as [A B _ _]. split; [by rewrite C3|by rewrite C4|by exists d'; auto|]. exists lp', q, c'. rewrite C2, Es'. cbn. rewrite lookup_insert_eq. split_and!; try done.
      unfold has_logprobs. by rewrite L4.
  - intros i1 i2 r1 r2 E1 E2 Hq. destruct (stepped_lookup i1 r1 E1) as [[N1 F1]|(-> & -> & _)], (stepped_lookup i2 r2 E2) as [[N2 F2]|(-> & -> & _)]; try done.
    + by apply (st_queues s Hs i1 i2 r1 r2).
    + destruct (Hoth i1 r1 N1 F1). by rewrite Hq, C2.
    + destruct (Hoth i2 r2 N2 F2). by rewrite <-Hq, C2.
  - intros q1 c1. rewrite Es'. cbn. intros [[<- <-]|[_ E]]%lookup_insert_Some; [by eexists|by apply (st_store s Hs q1)].
Qed.

Lemma stepped_good eo1 : good_output s eo1 -> good_output s' eo1.
Proof.
  intros [Hpool Hl]. split; [done|]. intros r1 lp1 E1 Elp. destruct (stepped_lookup _ r1 E1) as [[Hne E]|(Hid & -> & Hf)]; [by apply (Hl r1)|].
  destruct (sp_logprobs _ _ _ _ _ _ _ _ _ _ _ _ _ _ _ Hst) as (L1 & L2 & L3 & L4 & L5). rewrite Elp in L2. injection L2 as ->. rewrite Hid in Hl. destruct (Hl r lp Er L1) as [A B]. split; by rewrite ?L4, ?L5.
Qed.
End Stepped.

(** Outputs keep the requests streaming. *)
Lemma output_returns outs aborts s eo : total_decoder (D := D) -> streams s -> good_output s eo -> exists aborts' s', process_output (outs, aborts, s) eo = Ok (outs, aborts', s') /\ streams s' /\
  (forall eo1, good_output s eo1 -> good_output s' eo1) /\ dom (queue_store s') = dom (queue_store s).
Proof.
  intros Hdec Hs Hg. destruct (request_states s !! eo_request_id eo) as [r|] eqn:Er; [|exists aborts, s; unfold process_output; by rewrite Er].
  destruct (st_requests s Hs _ r Er) as [_ _ (d & Ed & _) _]. destruct (process_stream outs aborts s eo r d Hdec Hs Hg Er Ed) as (aborts' & s' & t & fin & d' & o & r' & q & c & c' & lp & lp' & E & Hst).
  exists aborts', s'. split_and!; [done|by eapply stepped_streams|intros eo1; by eapply stepped_good|]. rewrite (sp_state _ _ _ _ _ _ _ _ _ _ _ _ _ _ _ Hst). cbn. apply dom_insert_lookup_L. exists c. apply (sp_queue _ _ _ _ _ _ _ _ _ _ _ _ _ _ _ Hst).
Qed.

(** * Runs *)

(** The engine core delivers outputs, and the client of a collector reads. *)
Inductive ClientEvent := Deliver (l : list EngineCoreOutput) | Read (q : nat).

Definition client_step (acc : list (nat * ClientOutput dict) * Processor D F) (e : ClientEvent) : result (list (nat * ClientOutput dict) * Processor D F) :=
  let '(got, s) := acc in
  match e with
  | Deliver l => '(_, _, s) ← process_outputs l s; Ok (got, s)
  | Read q =>
      c ← get_or AttributeError (queue_store s !! q);
      let '(o, c) := collector_get c in
      o ← o;
      Ok (got ++ option_list (pair q <$> o), set_queue q c s)
  end.

(** What the clients got, and the state in the end. *)
Definition run_clients (evs : list ClientEvent) (s : Processor D F) : result (list (nat * ClientOutput dict) * Processor D F) := foldM client_step ([], s) evs.

Definition delivered (evs : list ClientEvent) : list EngineCoreOutput := concat ((fun e => match e with Deliver l => l | Read _ => [] end) <$> evs).

(** The inputs of the detokenizer of a request. *)
Definition inputs_of (id : string) (l : list EngineCoreOutput) : list StreamInput := input_of <$> filter (fun eo => eo_request_id eo = id) l.

(** What the client of collector [q] has got, and what is there for it. *)
Definition outputs_for (q : nat) (got : list (nat * ClientOutput dict)) (s : Processor D F) : list (RequestOutput dict) :=
  received (snd <$> filter (fun x => x.1 = q) got) ++ match queue_store s !! q with Some c => pending c | None => [] end.

(** The outputs for request [id] and collector [q] are the reference's for the
    inputs [ins] so far. *)
Record tracked (id : string) (q i : nat) (d0 : Detokenizer D) (ins : list StreamInput) (got : list (nat * ClientOutput dict)) (s : Processor D F) (t : text) (fin : bool) (d : Detokenizer D) : Prop := {
  tr_stream : stream ins d0 = Ok (t, fin, d);
  tr_queue : is_Some (queue_store s !! q);
  tr_text : said cp_text i (all_completions (outputs_for q got s)) = t;
  tr_tokens : said cp_token_ids i (all_completions (outputs_for q got s)) = stream_tokens ins d0;
  tr_finished : existsb ro_finished (outputs_for q got s) = fin;
  tr_own : forall id' r', request_states s !! id' = Some r' -> rq_queue r' = Some q -> id' = id;
  tr_state : if fin then request_states s !! id = None else exists r, request_states s !! id = Some r /\ rq_queue r = Some q /\ rq_request_index r = i /\ rq_detokenizer r = Some d
}.

Lemma all_app (l l' : list (RequestOutput dict)) : all_completions (l ++ l') = all_completions l ++ all_completions l'.
Proof. unfold all_completions. by rewrite fmap_app, concat_app. Qed.

Lemma outputs_kept q got s s' : queue_store s' !! q = queue_store s !! q -> outputs_for q got s' = outputs_for q got s.
Proof. unfold outputs_for. by intros ->. Qed.

(** The collector takes an output for its request. *)
Lemma outputs_put b q got s s' c c' o r t toks fin : queue_store s !! q = Some c -> queue_store s' !! q = Some c' -> collector_put (inl (Completed o)) c = Ok c' -> collector_ok b c -> output_ok b o ->
  client_output r t toks fin o ->
  said cp_text (rq_request_index r) (all_completions (outputs_for q got s')) = said cp_text (rq_request_index r) (all_completions (outputs_for q got s)) ++ t /\
  said cp_token_ids (rq_request_index r) (all_completions (outputs_for q got s')) = said cp_token_ids (rq_request_index r) (all_completions (outputs_for q got s)) ++ toks /\
  existsb ro_finished (outputs_for q got s') = existsb ro_finished (outputs_for q got s) || fin.
Proof.
  intros Ec Ec' Eput Hc Ho (c0 & H1 & H2 & H3 & H4 & H5). destruct (put_ok b o c Hc Ho) as (c2 & E2 & _ & Hsaid & Hfin). rewrite Eput in E2. injection E2 as <-.
  unfold outputs_for. rewrite Ec, Ec', !all_app, !said_app, !existsb_app, Hfin, (Hsaid _ _ _ (additive_text b)), (Hsaid _ _ _ (additive_tokens b)), (completions_some o [c0] H1).
  rewrite !said_cons, !decide_True by done. change (said ?f ?i []) with (@nil Z). rewrite H3, H4, H5, !app_nil_r, !app_assoc, orb_assoc. done.
Qed.

Lemma tracked_output id q i d0 ins got outs aborts s eo t fin d : total_decoder (D := D) -> streams s -> good_output s eo -> tracked id q i d0 ins got s t fin d ->
  exists aborts' s' t' fin' d', process_output (outs, aborts, s) eo = Ok (outs, aborts', s') /\ tracked id q i d0 (ins ++ inputs_of id [eo]) got s' t' fin' d'.
Proof.
  intros Hdec Hs Hg Ht. pose proof Ht as [T1 [cq T2] T3 T4 T5 T6 T7]. unfold inputs_of. rewrite filter_cons, filter_nil.
  destruct (request_states s !! eo_request_id eo) as [r|] eqn:Er.
  2: { exists aborts, s, t, fin, d. split; [unfold process_output; by rewrite Er|]. destruct (decide (eo_request_id eo = id)) as [<-|Hne]; [|by rewrite app_nil_r].
    destruct fin; [|destruct T7 as (r & E & _); by rewrite Er in E]. cbn [fmap list_fmap]. split; try done; [by rewrite stream_snoc, T1|by rewrite (stream_tokens_snoc _ _ _ _ _ _ T1), app_nil_r]. }
  destruct (st_requests s Hs _ r Er) as [_ _ (d1 & Ed & _) _]. destruct (process_stream outs aborts s eo r d1 Hdec Hs Hg Er Ed) as (aborts' & s' & t1 & fin1 & d1' & o & r' & q1 & c & c' & lp & lp' & E & Hst).
  exists aborts', s'. pose proof Hst as [S1 [S2 S2'] S3 S4 [S5 S5'] S6 S7 _ _]. assert (Hown : forall id' r1, request_states s' !! id' = Some r1 -> rq_queue r1 = Some q -> id' = id).
  { intros id' r1 E1 Eq. destruct (stepped_lookup _ _ _ _ _ _ _ _ _ _ _ _ _ _ _ Hst id' r1 E1) as [[_ E2]|(-> & -> & _)]; [by apply (T6 id' r1)|]. apply (T6 _ r Er). destruct S7 as (_ & <- & _). done. }
  destruct (decide (eo_request_id eo = id)) as [<-|Hne].
  - destruct fin; [by rewrite Er in T7|]. destruct T7 as (r0 & E0 & Q0 & I0 & D0). rewrite Er in E0. injection E0 as <-. rewrite Ed in D0. injection D0 as <-. rewrite Q0 in S2. injection S2 as <-. subst i.
    assert (Eq' : queue_store s' !! q = Some c') by (rewrite S6; apply lookup_insert_eq). destruct (outputs_put (has_logprobs lp) q got s s' c c' o r t1 (eo_new_token_ids eo) fin1 S2' Eq' S3 S5' S5 S4) as (P1 & P2 & P3).
    exists (t ++ t1), fin1, d1'. split; [done|]. cbn [fmap list_fmap]. split; try done.
    + by rewrite stream_snoc, T1; cbn [mbind result_bind]; rewrite S1.
    + by rewrite P1, T3.
    + by rewrite P2, T4, (stream_tokens_snoc _ _ _ _ _ _ T1).
    + by rewrite P3, T5.
    + rewrite S6. cbn [request_states]. destruct fin1; [apply lookup_delete_eq|]. exists r'. rewrite lookup_insert_eq. destruct S7 as (C1 & C2 & _ & _ & C5). by rewrite C1, C2.
  - assert (Hq : q1 ≠ q) by (intros ->; apply Hne; by apply (T6 _ r Er)). assert (Eq' : queue_store s' !! q = queue_store s !! q) by (rewrite S6; by apply lookup_insert_ne).
    exists t, fin, d. split; [done|]. rewrite app_nil_r. split; try done; [by rewrite Eq', T2|by rewrite (outputs_kept q got s s' Eq')..|].
    rewrite S6. cbn [request_states]. destruct fin1; destruct fin; by rewrite ?lookup_delete_ne, ?lookup_insert_ne.
Qed.

Lemma tracked_outputs id q i d0 got l : total_decoder (D := D) -> forall ins outs aborts s t fin d, streams s -> Forall (good_output s) l -> tracked id q i d0 ins got s t fin d ->
  exists aborts' s' t' fin' d', foldM process_output (outs, aborts, s) l = Ok (outs, aborts', s') /\ tracked id q i d0 (ins ++ inputs_of id l) got s' t' fin' d' /\
    streams s' /\ (forall eo, good_output s eo -> good_output s' eo) /\ dom (queue_store s') = dom (queue_store s).
Proof.
  intros Hdec. induction l as [|eo l IH]; intros ins outs aborts s t fin d Hs Hg Ht; [exists aborts, s, t, fin, d; by rewrite app_nil_r|]. apply Forall_cons in Hg as [Hg Hl].
  destruct (tracked_output id q i d0 ins got outs aborts s eo t fin d Hdec Hs Hg Ht) as (ab1 & s1 & t1 & fin1 & d1 & E1 & Ht1). destruct (output_returns outs aborts s eo Hdec Hs Hg) as (ab1' & s1' & E1' & Hs1 & Hg1 & Hd1).
  rewrite E1 in E1'. injection E1' as <- <-. destruct (IH (ins ++ inputs_of id [eo]) outs ab1 s1 t1 fin1 d1 Hs1 ltac:(by eapply Forall_impl; [|intros ?; apply Hg1]) Ht1) as (ab2 & s2 & t2 & fin2 & d2 & E2 & Ht2 & Hs2 & Hg2 & Hd2).
  exists ab2, s2, t2, fin2, d2. cbn [foldM]. rewrite E1. cbn [mbind result_bind]. split; [done|]. rewrite <-app_assoc in Ht2. unfold inputs_of in *. rewrite <-fmap_app, <-filter_app in Ht2. split_and!; auto. by rewrite Hd2.
Qed.

(** A read moves what a collector holds to its client. *)
Lemma read_step q1 got s : streams s -> is_Some (queue_store s !! q1) -> exists got' s', client_step (got, s) (Read q1) = Ok (got', s') /\ streams s' /\ request_states s' = request_states s /\
  dom (queue_store s') = dom (queue_store s) /\ forall q, outputs_for q got' s' = outputs_for q got s.
Proof.
  intros Hs [c Ec]. cbn [client_step]. rewrite Ec. cbn [get_or mbind result_bind collector_get]. destruct (st_store s Hs q1 c Ec) as (b & Ha & Hc).
  set (s' := set_queue q1 (mkCollector (rc_aggregate c) None) s). assert (Hs' : streams s').
  { destruct Hs as [A B C]. split; [|done|].
    - intros id r Er. destruct (A id r Er) as [K1 K2 K3 (lp & q & c1 & H1 & H2 & H3 & H4 & H5)]. split; try done. exists lp, q. destruct (decide (q = q1)) as [->|Hne].
      + eexists. cbn. rewrite lookup_insert_eq. split_and!; try done. split; [done|by left].
      + exists c1. cbn. rewrite lookup_insert_ne by done. split_and!; done.
    - intros q c1. cbn. intros [[<- <-]|[_ E]]%lookup_insert_Some; [exists b; split; [done|by left]|by apply (C q)]. }
  assert (Hdom : dom (queue_store s') = dom (queue_store s)) by (apply dom_insert_lookup_L; by exists c).
  destruct Hc as [Hc|(o & Hc & _)]; rewrite Hc; cbn [mbind result_bind]; eexists _, s'; (split; [done|]); split_and!; try done; intros q; unfold outputs_for; cbn [fmap option_fmap option_map option_list].
  - rewrite app_nil_r. f_equal. unfold s'. cbn [queue_store set_queue]. destruct (decide (q1 = q)) as [->|Hne]; [|by rewrite lookup_insert_ne]. rewrite lookup_insert_eq, Ec. unfold pending. by rewrite Hc.
  - change (option_list (Some (q1, Completed o))) with [(q1, Completed o)]. rewrite filter_app, filter_cons, filter_nil. cbn [fst]. unfold s'. cbn [queue_store set_queue]. destruct (decide (q1 = q)) as [->|Hne]; [|by rewrite lookup_insert_ne, app_nil_r].
    rewrite lookup_insert_eq, Ec. unfold pending at 1 2, received. cbn [rc_output]. rewrite Hc, fmap_app, omap_app, app_nil_r. done.
Qed.

Lemma tracked_same id q i d0 ins got s got' s' t fin d : request_states s' = request_states s -> dom (queue_store s') = dom (queue_store s) -> outputs_for q got' s' = outputs_for q got s ->
  tracked id q i d0 ins got s t fin d -> tracked id q i d0 ins got' s' t fin d.
Proof. intros Er Ed Eo [T1 T2 T3 T4 T5 T6 T7]. split; rewrite ?Er, ?Eo; try done. apply elem_of_dom. rewrite Ed. by apply elem_of_dom. Qed.

Lemma run_tracked id q i d0 evs : total_decoder (D := D) -> forall ins got s t fin d, streams s -> Forall (good_output s) (delivered evs) -> (forall q1, Read q1 ∈ evs -> is_Some (queue_store s !! q1)) ->
  tracked id q i d0 ins got s t fin d ->
  exists got' s' t' fin' d', foldM client_step (got, s) evs = Ok (got', s') /\ tracked id q i d0 (ins ++ inputs_of id (delivered evs)) got' s' t' fin' d'.
Proof.
  intros Hdec. induction evs as [|[l|q1] evs IH]; intros ins got s t fin d Hs Hg Hr Ht; [exists got, s, t, fin, d; by rewrite app_nil_r|..]; cbn [foldM].
  - change (delivered (Deliver l :: evs)) with (l ++ delivered evs) in *. apply Forall_app in Hg as [Hl Hg]. destruct (tracked_outputs id q i d0 got l Hdec ins [] [] s t fin d Hs Hl Ht) as (ab & s1 & t1 & fin1 & d1 & E & Ht1 & Hs1 & Hg1 & Hd1).
    cbn [client_step]. unfold process_outputs. rewrite E. cbn [mbind result_bind]. assert (Hr1 : forall q1, Read q1 ∈ evs -> is_Some (queue_store s1 !! q1)).
    { intros q1 Hin. apply elem_of_dom. rewrite Hd1. apply elem_of_dom, Hr. by right. }
    destruct (IH (ins ++ inputs_of id l) got s1 t1 fin1 d1 Hs1 ltac:(by eapply Forall_impl; [|intros ?; apply Hg1]) Hr1 Ht1) as (got' & s' & t' & fin' & d' & E' & Ht'). exists got', s', t', fin', d'. split; [done|]. unfold inputs_of in *. by rewrite filter_app, fmap_app, app_assoc.
  - destruct (read_step q1 got s Hs (Hr q1 ltac:(by left))) as (got1 & s1 & E & Hs1 & Er & Ed & Eo). rewrite E. cbn [mbind result_bind].
    apply (IH ins got1 s1 t fin d Hs1); [|intros q2 Hin; apply elem_of_dom; rewrite Ed; apply elem_of_dom, Hr; by right|by eapply tracked_same].
    change (delivered (Read q1 :: evs)) with (delivered evs) in Hg. eapply Forall_impl; [exact Hg|]. intros eo [A B]. split; [done|]. by rewrite Er.
Qed.

(** * Aborting requests *)

Lemma streams_remove id r q b c' s : streams s -> request_states s !! id = Some r -> rq_queue r = Some q -> collector_ok b c' ->
  streams (mkProcessor (delete id (request_states s)) (parent_requests s) (parent_store s) (<[q := c']> (queue_store s))).
Proof.
  intros [A B C] Er Eq Hc. split; cbn.
  - intros id1 r1 [Hne E1]%lookup_delete_Some. destruct (A id1 r1 E1) as [K1 K2 K3 (lp & q1 & c & H1 & H2 & H3 & H4 & H5)]. split; try done. exists lp, q1, c. rewrite lookup_insert_ne; [done|].
    intros <-. apply Hne. apply (B id id1 r r1 Er E1). by rewrite Eq, H3.
  - intros i1 i2 r1 r2 [_ E1]%lookup_delete_Some [_ E2]%lookup_delete_Some. by apply B.
  - intros q1 c1 [[<- <-]|[_ E]]%lookup_insert_Some; [by exists b|by apply (C q1)].
Qed.

(** A finished output of the aborted request is in its collector. *)
Definition abort_told (s : Processor D F) (id : string) (s' : Processor D F) : Prop := forall r q, request_states s !! id = Some r -> rq_queue r = Some q -> existsb ro_finished (outputs_for q [] s') = true.

Lemma abort_step `{HSO : !SetOrder} rec aborted id s : streams s -> parent_requests s = ∅ -> exists s',
  abort_one rec (aborted, s) id = Ok (aborted ++ (if decide (is_Some (request_states s !! id)) then [id] else []), s') /\
  streams s' /\ parent_requests s' = ∅ /\ request_states s' = delete id (request_states s) /\ abort_told s id s' /\
  forall q, (forall r, request_states s !! id = Some r -> rq_queue r ≠ Some q) -> queue_store s' !! q = queue_store s !! q.
Proof.
  intros Hs Hp. destruct (request_states s !! id) as [r|] eqn:Er.
  2: { exists s. unfold abort_one. rewrite Er, Hp, lookup_empty, decide_False, app_nil_r by (by intros []). split_and!; try done; [by rewrite delete_id|intros r q E; by rewrite Er in E]. }
  destruct (st_requests s Hs id r Er) as [Hk Hpar (d & Ed & Hd) (lp & q & c & Elp & Hlp & Eq & Ec & Hc)]. set (s0 := set_states (delete id (request_states s)) s).
  destruct (get_next_output_text (bool_decide (Some ABORT ≠ None)) true d) as [t d'] eqn:Et.
  destruct (make_stream [] (Some ABORT) None PNone r s0 d lp t d' Hk Hpar Ed Elp Hlp Et) as (o & r' & lp' & Em & (c0 & _ & _ & _ & _ & Hfin) & Ho & _). destruct (put_ok _ o c Hc Ho) as (c' & Eput & Hc' & _ & Hf).
  exists (set_queue q c' s0). unfold abort_one. rewrite Er. fold s0. rewrite Eq, Em. cbn [mbind result_bind hand_out]. change (queue_store s0) with (queue_store s). rewrite Ec. cbn [get_or mbind result_bind]. rewrite Eput. cbn [mbind result_bind].
  rewrite decide_True by (by eexists). split_and!; try done.
  - by apply (streams_remove id r q (has_logprobs lp) c' s).
  - intros r1 q1 E1 E2. rewrite Er in E1. injection E1 as <-. rewrite Eq in E2. injection E2 as <-. unfold outputs_for. cbn. rewrite lookup_insert_eq, Hf, Hfin. apply orb_true_r.
  - intros q1 Hq1. cbn. apply lookup_insert_ne. intros <-. by apply (Hq1 r).
Qed.

(** The requests that an abort removes: those that were known, once each. *)
Record aborts (ids : list string) (s : Processor D F) (known : list string) (s' : Processor D F) : Prop := {
  ab_nodup : NoDup known;
  ab_known : forall x, x ∈ known <-> x ∈ ids /\ is_Some (request_states s !! x);
  ab_states : forall x, request_states s' !! x = if decide (x ∈ ids) then None else request_states s !! x;
  ab_told : forall x, x ∈ ids -> abort_told s x s';
  ab_queues : forall q, (forall x r, x ∈ ids -> request_states s !! x = Some r -> rq_queue r ≠ Some q) -> queue_store s' !! q = queue_store s !! q
}.

Lemma abort_spec `{HSO : !SetOrder} rec ids : forall aborted s, streams s -> parent_requests s = ∅ ->
  exists known s', foldM (abort_one rec) (aborted, s) ids = Ok (aborted ++ known, s') /\ aborts ids s known s' /\ streams s'.
Proof.
  induction ids as [|id ids IH]; intros aborted s Hs Hp; cbn [foldM].
  { exists [], s. rewrite app_nil_r. split; [done|]. split; [|done]. split; [apply NoDup_nil_2| | |intros x Hx; by apply elem_of_nil in Hx|done].
    - intros x. rewrite elem_of_nil. tauto.
    - intros x. by rewrite decide_False by (by intros ?%elem_of_nil). }
  destruct (abort_step rec aborted id s Hs Hp) as (s1 & E1 & Hs1 & Hp1 & Er1 & Ht1 & Hq1). rewrite E1. cbn [mbind result_bind].
  destruct (IH (aborted ++ (if decide (is_Some (request_states s !! id)) then [id] else [])) s1 Hs1 Hp1) as (known & s' & E & [A1 A2 A3 A4 A5] & Hs'). rewrite E. eexists _, s'. rewrite <-app_assoc. split; [done|]. split; [|done].
  assert (Hnid : id ∉ known). { rewrite A2, Er1, lookup_delete_eq. by intros [_ [? ?]]. } split.
  - destruct (decide _); [|done]. by apply NoDup_cons.
  - intros x. rewrite elem_of_app, A2, Er1, elem_of_cons. destruct (decide (x = id)) as [->|Hne].
    + rewrite lookup_delete_eq. destruct (decide (is_Some (request_states s !! id))) as [Hi|Hi]; [rewrite list_elem_of_singleton; tauto|]. rewrite elem_of_nil. split; [|tauto]. intros [[]|[_ [? ?]]]; done.
    + rewrite lookup_delete_ne by done. destruct (decide (is_Some (request_states s !! id))); rewrite ?list_elem_of_singleton, ?elem_of_nil; tauto.
  - intros x. rewrite A3, Er1. destruct (decide (x = id)) as [->|Hne].
    { rewrite lookup_delete_eq, (decide_True (P := id ∈ id :: ids)) by (by left). by destruct (decide (id ∈ ids)). }
    rewrite lookup_delete_ne by done. destruct (decide (x ∈ ids)) as [Hx|Hx]; [by rewrite decide_True by (by right)|]. by rewrite decide_False by (rewrite elem_of_cons; tauto).
  - intros x [->|Hx]%elem_of_cons r q Er Eq.
    + rewrite (outputs_kept q [] s1 s'); [by apply (Ht1 r)|]. apply A5. intros y r2 _ Ey Eq2. rewrite Er1 in Ey. apply lookup_delete_Some in Ey as [Hne Ey]. apply Hne. apply (st_queues s Hs id y r r2 Er Ey). by rewrite Eq, Eq2.
    + destruct (decide (x = id)) as [->|Hne]; [|apply (A4 x Hx r q); [by rewrite Er1, lookup_delete_ne|done]].
      rewrite (outputs_kept q [] s1 s'); [by apply (Ht1 r)|]. apply A5. intros y r2 _ Ey Eq2. rewrite Er1 in Ey. apply lookup_delete_Some in Ey as [Hne Ey]. apply Hne. apply (st_queues s Hs id y r r2 Er Ey). by rewrite Eq, Eq2.
  - intros q Hq. rewrite A5; [apply Hq1; intros r Er; apply (Hq id); [by left|done]|]. intros x r Hx Ex. rewrite Er1 in Ex. apply lookup_delete_Some in Ex as [_ Ex]. apply (Hq x); [by right|done].
Qed.

(** * Adding requests *)

Lemma streams_empty : streams (mkProcessor ∅ ∅ ∅ ∅ : Processor D F).
Proof. split; cbn; intros; try done; by rewrite lookup_empty in *. Qed.

(** A new streaming request with a collector of its own. *)
Lemma streams_add id (p : SamplingArgs D) index q s : streams s -> sa_output_kind p = DELTA -> stream_ok (sa_detokenizer p) -> request_states s !! id = None -> queue_store s !! q = None ->
  exists s', processor_add_request (from_new_request id (inl p) None index (Some q)) (set_queue q (collector_init DELTA) s) = Ok s' /\ streams s'.
Proof.
  intros Hs Hk Hd Hid Hq. unfold processor_add_request. cbn [from_new_request rq_request_id rq_parent_req request_states set_queue]. rewrite Hid. eexists. split; [done|].
  assert (Hfresh : forall id' r', request_states s !! id' = Some r' -> rq_queue r' ≠ Some q).
  { intros id' r' E Eq. destruct (st_requests s Hs id' r' E) as [_ _ _ (lp & q' & c & _ & _ & E1 & E2 & _)]. rewrite Eq in E1. injection E1 as <-. by rewrite Hq in E2. }
  destruct Hs as [A B C]. split; cbn.
  - intros id' r'. intros [[<- <-]|[Hne E]]%lookup_insert_Some.
    + split; [done|done|by eexists|]. eexists _, q, _. cbn. rewrite lookup_insert_eq. split_and!; try done; [apply init_logprobs_ok|]. split; [done|by left].
    + destruct (A id' r' E) as [K1 K2 K3 (lp & q' & c & H1 & H2 & H3 & H4 & H5)]. split; try done. exists lp, q', c. rewrite lookup_insert_ne; [done|]. intros <-. by apply (Hfresh id' r' E).
  - intros i1 i2 r1 r2. intros [[<- <-]|[N1 E1]]%lookup_insert_Some [[<- <-]|[N2 E2]]%lookup_insert_Some Eq; try done.
    + by destruct (Hfresh i2 r2 E2).
    + by destruct (Hfresh i1 r1 E1).
    + by apply (B i1 i2 r1 r2).
  - intros q' c. intros [[<- <-]|[_ E]]%lookup_insert_Some; [exists true; split; [done|by left]|by apply (C q')].
Qed.
End Client.

(** C36: A client of a streaming request gets its text and tokens, all of them
    and once. In an output processor in which every request streams (DELTA), has
    no parent and has a collector of its own, with a tokenizer that decodes
    every token, non-empty stop strings, and engine-core outputs that are not
    pooling outputs and have logprobs only if the request asked for them, at
    least the sampled token's per position: whatever such outputs arrive, in
    whatever order and portions, and whenever clients read, no call raises, and
    what a client got together with what its collector holds is what the
    detokenizer produces from the request's outputs alone: a prefix of the
    output text, and exactly this text once the request is finished, by the
    engine core or by a stop string; the end is passed on exactly when the
    request is forgotten. *)
Theorem streaming_client_gets_text {D F : Type} `{!Decoder D, !LogprobSource F} (s : Processor D F) evs id r q prompt stops min_toks include (x : D) :
  total_decoder (D := D) -> Forall (fun t => t ≠ []) stops -> streams s -> Forall (good_output s) (delivered evs) -> (forall q1, Read q1 ∈ evs -> is_Some (queue_store s !! q1)) ->
  request_states s !! id = Some r -> rq_detokenizer r = Some (detok_init prompt stops min_toks include x) -> rq_queue r = Some q -> queue_store s !! q = Some (collector_init DELTA) ->
  exists got s' t fin d, run_clients evs s = Ok (got, s') /\ stream (inputs_of id (delivered evs)) (detok_init prompt stops min_toks include x) = Ok (t, fin, d) /\
    said cp_text (rq_request_index r) (all_completions (outputs_for q got s')) = t /\
    said cp_token_ids (rq_request_index r) (all_completions (outputs_for q got s')) = stream_tokens (inputs_of id (delivered evs)) (detok_init prompt stops min_toks include x) /\
    existsb ro_finished (outputs_for q got s') = fin /\ (fin = true <-> request_states s' !! id = None) /\
    (exists rest, output_text d = t ++ rest) /\ (fin = true -> t = output_text d).
Proof.
  intros Hdec Hst Hs Hg Hr Er Ed Eq Ec. set (d0 := detok_init prompt stops min_toks include x) in *.
  assert (H0 : tracked id q (rq_request_index r) d0 [] [] s [] false d0).
  { assert (E0 : outputs_for q [] s = []) by (unfold outputs_for; by rewrite Ec). split; rewrite ?E0; try done; [|by exists r]. intros id' r' E' Eq'. apply (st_queues s Hs id' id r' r); try done. by rewrite Eq, Eq'. }
  destruct (run_tracked id q _ d0 evs Hdec [] [] s [] false d0 Hs Hg Hr H0) as (got & s' & t & fin & d & E & [T1 T2 T3 T4 T5 T6 T7]). cbn [app] in *.
  exists got, s', t, fin, d. split_and!; try done.
  - destruct fin; [done|]. destruct T7 as (r' & -> & _). by split.
  - destruct (stream_spec (inputs_of id (delivered evs)) d0 Hdec (init_stream_ok _ _ _ _ _ Hst)) as (t' & fin' & d' & E' & He & _). rewrite T1 in E'. injection E' as <- <- <-.
    exists (drop (Z.to_nat (last_output_text_offset d)) (output_text d)). change (emitted d0) with (@nil Z) in He. cbn in He. rewrite <-He. unfold emitted. by rewrite take_drop.
  - intros Hf. destruct (stream_spec (inputs_of id (delivered evs)) d0 Hdec (init_stream_ok _ _ _ _ _ Hst)) as (t' & fin' & d' & E' & He & Hfin). rewrite T1 in E'. injection E' as <- <- <-.
    change (emitted d0) with (@nil Z) in He. cbn in He. rewrite <-He. by apply Hfin.
Qed.

(** C40: Aborting tells the clients: in an output processor whose requests all stream into
    collectors of their own, and without parallel sampling, [abort_requests] never
    raises, whatever ids it is given (repeated and unknown ones too); it returns those
    that were known, once each, forgets them and no other, leaves a finished output for
    the client of each of them, does not touch the collectors of others, and the
    requests that are left stream as before. One level of recursion is enough. *)
Theorem abort_tells_clients {D F : Type} `{!Decoder D, !LogprobSource F, HSO : !SetOrder} fuel ids (s : Processor D F) : streams s -> parent_requests s = ∅ ->
  exists known s', processor_abort_requests (S fuel) ids s = Ok (known, s') /\ aborts ids s known s' /\ streams s'.
Proof. intros Hs Hp. destruct (abort_spec (processor_abort_requests fuel) ids [] s Hs Hp) as (known & s' & E & H). exists known, s'. split; [exact E|done]. Qed.

(** ** Example: two streaming requests, one with logprobs and one that a stop string
    ends; its client is slow. *)

#[local] Instance demo_source : LogprobSource Z := {
  log_zero := 0; log_add := Z.add;
  sample_lists h := mkLists [[fst h]] [[snd h]] [1];
  prompt_tensors h := mkTensors (mkLists [] [] []) 0
}.

Definition demo_args (stops : list text) (logprobs : option Z) : SamplingArgs unit := mkSamplingArgs DELTA None logprobs None (detok_init [] stops 0 false tt).

Definition demo_processor : result (Processor unit Z) :=
  s ← processor_add_request (from_new_request "a" (inl (demo_args [[31; 40]] None)) None 0 (Some 0%nat)) (set_queue 0 (collector_init DELTA) (mkProcessor ∅ ∅ ∅ ∅));
  processor_add_request (from_new_request "b" (inl (demo_args [] (Some 1))) None 0 (Some 1%nat)) (set_queue 1 (collector_init DELTA) s).

Definition demo_output (id : string) (toks : list Z) (lps : option (Z * Z)) (fin : option FinishReason) : EngineCoreOutput := mkCoreOutput id toks fin lps None None None None PNone 0.

Definition demo_events : list ClientEvent :=
  [Deliver [demo_output "a" [10; 20] None None; demo_output "b" [7] (Some (7, -1)) None]; Read 1; Deliver [demo_output "b" [8] (Some (8, -2)) (Some LENGTH); demo_output "a" [30] None None];
   Deliver [demo_output "a" [40] None None; demo_output "a" [50] None None]; Read 0].

Lemma demo_streams : exists s, demo_processor = Ok s /\ streams s.
Proof.
  destruct (streams_add (F := Z) "a" (demo_args [[31; 40]] None) 0 0 (mkProcessor ∅ ∅ ∅ ∅)) as (s1 & E1 & H1); [apply streams_empty|done|apply init_stream_ok; by repeat constructor|done|done|].
  assert (Es1 : request_states s1 !! "b" = None /\ queue_store s1 !! 1%nat = None) by (vm_compute in E1; injection E1 as <-; done).
  destruct (streams_add (F := Z) "b" (demo_args [] (Some 1)) 0 1 s1) as (s & E2 & Hs); [done|done|by apply init_stream_ok|apply Es1|apply Es1|].
  exists s. split; [|done]. unfold demo_processor. rewrite E1. exact E2.
Qed.

Lemma streaming_client_gets_text_witness : exists s got s' t d, demo_processor = Ok s /\ run_clients demo_events s = Ok (got, s') /\
  said cp_text 0 (all_completions (outputs_for 0 got s')) = t /\ t = [10; 11; 20; 21; 30] /\ t = output_text (D := unit) d /\ request_states s' !! "a" = None.
Proof.
  assert (Hdec : total_decoder (D := unit)) by (intros tok toks x; by eexists _, _).
  destruct demo_streams as (s & E & Hs). exists s.
  assert (Ed : exists r, request_states s !! "a" = Some r /\ rq_detokenizer r = Some (detok_init [] [[31; 40]] 0 false tt) /\ rq_queue r = Some 0%nat /\ rq_request_index r = 0%nat /\ queue_store s !! 0%nat = Some (collector_init DELTA)).
  { vm_compute in E. injection E as <-. by eexists. }
  destruct Ed as (r & Er & Ed & Eq & Ei & Ec).
  destruct (streaming_client_gets_text s demo_events "a" r 0 [] [[31; 40]] 0 false tt) as (got & s' & t & fin & d & R1 & R2 & R3 & _ & _ & R6 & _ & R8); [exact Hdec|by repeat constructor|exact Hs| | |exact Er|exact Ed|exact Eq|exact Ec|].
  - clear - E. vm_compute in E. injection E as <-. cbn. repeat apply Forall_cons_2; try apply Forall_nil_2; (split; [done|]); intros r0 lp E0 Elp; vm_compute in E0; injection E0 as <-; injection Elp as <-; constructor; intros h Eh; try done; injection Eh as <-; (split; [by eexists|]); by repeat constructor.
  - clear - E. vm_compute in E. injection E as <-. intros q1 Hq. repeat (apply elem_of_cons in Hq as [Hq|Hq]; [try done; injection Hq as ->; by eexists|]). by apply elem_of_nil in Hq.
  - rewrite Ei in R3. assert (Hf : fin = true /\ t = [10; 11; 20; 21; 30]). { vm_compute in R2. injection R2 as <- <- _. done. }
    destruct Hf as [-> Ht]. exists got, s', t, d. split; [exact E|]. split; [exact R1|]. split; [exact R3|]. split; [exact Ht|]. split; [by apply R8|by apply R6].
Defined.

#[local] Instance elements_order : SetOrder := {| set_order := elements; set_order_perm := fun X => reflexivity _ |}.

Lemma abort_tells_clients_witness : exists s known s', demo_processor = Ok s /\ processor_abort_requests 1 ["z"; "a"; "a"]%string s = Ok (known, s') /\
  "a"%string ∈ known /\ "z"%string ∉ known /\ is_Some (request_states s' !! "b"%string) /\ existsb ro_finished (outputs_for 0 [] s') = true.
Proof.
  destruct demo_streams as (s & E & Hs). exists s.
  assert (Hd : parent_requests s = ∅ /\ request_states s !! "z"%string = None /\ is_Some (request_states s !! "b"%string) /\ exists r, request_states s !! "a"%string = Some r /\ rq_queue r = Some 0%nat).
  { clear Hs. vm_compute in E. injection E as <-. split; [done|]. split; [done|]. split; [by eexists|]. by eexists. }
  destruct Hd as (Hp & Hz & Hb & r & Ha & Hq).
  destruct (abort_tells_clients 0 ["z"; "a"; "a"]%string s Hs Hp) as (known & s' & R & [A1 A2 A3 A4 A5] & _). exists known, s'. split; [exact E|]. split; [exact R|].
  split; [apply A2; split; [set_solver|by eexists]|]. split; [rewrite A2, Hz; intros [_ [? ?]]; done|]. split; [rewrite A3, decide_False; [exact Hb|set_solver]|].
  apply (A4 "a"%string ltac:(set_solver) r 0%nat Ha Hq).
Defined.
